(* ===== verification/_CoqProject ===== *)
-Q . S2P
Prelude.v
Mempool.v
SWAHostPool.v
Block.v
RingBuffer.v
Transfer.v
Scheduler.v
GraphBuild.v
SWAOps.v
BatchMerge.v
PyFloat.v
Heapq.v
RadixTree.v
RadixCore.v
RadixLeaf.v
RadixWf.v
RadixMatch.v
RadixInsert.v
RadixDetach.v
RadixEvict.v
RadixReady.v
RadixSpec.v
CacheEngine.v
GlobalCache.v
GlobalPlan.v
Requests.v
PlanTier.v
PutPlan.v
PlanEnd.v
GetPlan.v
CompletionAgg.v
TaskManager.v
BatchFrame.v
TaskLife.v
TaskSteps.v
TaskHistory.v
TaskWait.v
PrefetchMask.v
PlanFrame.v
TaskEngine.v
TransferEngine.v
EngineTasks.v
EngineGraphs.v
EngineReports.v
EngineDispatch.v
EngineLoop.v
EngineRuns.v
Deferred.v
DeferredCommit.v
DeferredEnd.v
Mooncake.v
MooncakeSpec.v
MooncakePlan.v
MooncakePut.v
KvManager.v
VllmConnector.v
VllmSpec.v
VllmHistory.v
