(* ===== verification/Prelude.v ===== *)
(** * FlexKV control plane: a verification library

    FlexKV keeps the KV cache of language-model serving on several tiers (CPU
    memory, SSD, a remote store).  The control plane decides which blocks are
    cached where, plans the transfers of a request as a graph of ops, hands
    the ops out in dependency order and to the workers, and counts what they report.  This library models that control plane,
    in the Python configuration (index_accel off, no peer-to-peer sharing), with a plain
    remote tier and with the mooncake store, from the sources under [flexkv/], and proves what keeps
    it correct: no block or slot is lost or used twice, a match returns the longest
    cached prefix, a plan moves the right blocks in the right order, and every
    plan gives back what it holds, completed or aborted, the transfer engine reports
    a graph done exactly when its workers have done all of it, and the vLLM connector
    on top reports each request it made vLLM wait for once.

    ** Conventions

    A method that mutates an object and may raise is a term of [M S A], a
    function from the state to a result and a state: the state reached when an
    exception is raised is kept, as in the language.  Exceptions are the values of
    [exn].  Objects that are shared by reference (radix nodes, transfer ops) are
    entries of a store indexed by identity ([nid], op id), so aliasing is in the model.  Dictionaries whose
    order matters are association lists ([dict_get], [dict_set], [dict_pop]).
    Python and numpy integers are [Z]; the places where a width matters (the
    64-bit hashes, the float priorities of the eviction heap) say so.
    Code outside the repository is a parameter: [XXH64], the xxhash digest,
    [clock], what [time.time()] returns, and the class [MooncakeDistributedStore], the SDK of
    the mooncake store, of which nothing is assumed.  The only hypotheses on them are the
    ones of the class [PrefixHash] (Block.v): hashes of prefixes are chained,
    which [gen_hashes_chained] discharges for the code's hashing up to collisions.
    The slots of the op buffer are keyed by a digest, so the theorems on them assume
    that it is injective on a set [U] of the id arrays in use.

    ** Files, bottom up

    - [Prelude]: exceptions, the state monad and its loops, slices, dictionaries,
      notations and hint databases.
    - [Mempool] ([cache/mempool.py]): the ledger of the blocks of a tier.
      [SWAHostPool] ([swa/swa_host_pool.py]): the stack of sliding-window slots.
    - [Block] ([common/block.py], [common/hash_utils.py], [csrc/hash.cpp]): sequences
      and prefix hashes; the class [PrefixHash] is what the index needs of them.
    - [RingBuffer] ([common/ring_buffer.py]): the op slots shared with the workers.
    - [Transfer] ([common/transfer.py]): ops and graphs; [GraphBuild]: graphs built op
      by op, as the planners and the batch merge do; [SWAOps]
      ([cache/swa_cache_engine.py]): the sliding-window ops of a plan; [BatchMerge]:
      [merge_to_batch_graph] and its callbacks; [Scheduler]
      ([transfer/scheduler.py]): the ready ops of the graphs in flight.
    - [PyFloat], [Heapq]: binary64 arithmetic and the heapq algorithms the eviction uses.
    - [RadixTree] ([cache/radixtree.py]): the prefix index, all operations.
      [RadixCore] studies the tree as a function from prefix hashes to blocks and
      its mutations; [RadixLeaf], [RadixWf] the leaf table, the SWA list and the
      invariant [wf]; [RadixMatch], [RadixInsert], [RadixDetach], [RadixEvict],
      [RadixReady] one group of operations each; [RadixSpec] states what the index
      promises, over its set of entries (hash, block, readiness), and its
      invariant over the step relation of all operations.
    - [CacheEngine] ([cache/cache_engine.py]): one tier, an index with its ledgers;
      [owns] says which blocks and slots are held outside, and every operation
      is specified by how it changes the books.
    - [GlobalCache]: the tiers together, SWA read reservations, callbacks,
      completion and abort; [GlobalPlan]: [get], [put] and the four planners.
    - [Requests]: tokens, slots and blocks at the entrance of [get] and [put].
      [PlanTier]: one tier while a plan is made ([anchored]: the match stays
      valid); [PutPlan], [GetPlan]: what a write and a read plan moves and holds;
      [PlanEnd]: its one-shot completion or abort; [PlanFrame]: its graph is new.
    - [CompletionAgg] ([kvtask.py], [_get_completed_ops]): the reports of several
      transfer managers counted and merged.  [TaskManager] ([kvtask.py]): the table
      of tasks and every call of a client, over the class [CacheService].
      [BatchFrame]: what graph building leaves alone; [TaskLife], [TaskSteps]: the
      invariant of the table and the proof that each call keeps it;
      [TaskHistory]: all histories; [TaskWait]: waiting; [PrefetchMask]: what a
      prefetch reports; [TaskEngine]: the class instantiated with the [get], [put]
      and [reset] of the engine, and requests run through the whole stack.
    - [TransferEngine] ([transfer/transfer_engine.py], [transfer/worker_op.py]): the
      scheduling thread, routing to workers, reports and failures.  Its invariant has
      three parts: [EngineTasks] (counters, replicas, slots), [EngineGraphs] (what the
      scheduler and the op table know of each other), [EngineReports] (failures; what a
      report changes).  [EngineDispatch]: sending ops out; [EngineLoop]: one iteration;
      [EngineRuns]: all runs with workers and submitting threads, and the theorems.
    - [Deferred] ([cache/cache_engine.py]): insertions that wait for the end of a transfer, their
      commit, and plans that have some; [DeferredCommit]: what a commit does to a tier;
      [DeferredEnd]: completion and abort of a plan that holds staged blocks.
    - [Mooncake] ([external/mooncake_store_*.py], [transfer/worker.py]): the remote tier addressed by
      block hashes: keys, client, matching engine, worker; [MooncakeSpec]: what they guarantee.
      [MooncakePlan]: [get] and [put] with that tier; [MooncakePut]: what a write plan moves and holds
      against the ready part of the matches ([grounded]).
    - [KvManager] ([kvmanager.py], direct mode): what a connector calls.  Its contract is the class
      [KVManagerLaws], in both directions: what the answers are, and which tasks a connector may
      launch or cancel ([km_pending]); the task manager satisfies it ([direct_laws]).
      [VllmConnector] ([integration/vllm/vllm_v1_adapter.py]): the scheduler side of the vLLM
      connector, over the class; [VllmSpec]: its tables and promises over all that vLLM's scheduler
      may do ([vllm_call], [vllm_run]); [VllmHistory]: the connector over the task manager, as a
      careful client of [TaskHistory].

    ** What the theorems show

    - Ownership: [swa_pool_ownership], [engine_ownership]: over any history every block
      and slot has exactly one owner; [take_spec], [alloc_swa_slot_spec]: what an
      allocation may evict, and every way it fails; [engine_init_valid]: which
      configurations make an engine, and that it starts with everything free.
    - The index: [match_prefix_longest], [match_prefix_ready_prefix],
      [insert_match_roundtrip], [insert_rejects_stale_match], [evict_spec],
      [remove_unready_leaf_spec], [index_invariant].
    - Plans: [put_local_spec], [get_local_spec] (data movement against the indexes,
      books, reasons of an empty plan), [swa_chains_spec], [request_roundtrip],
      [plan_handle_once], [complete_plan_spec], [abort_plan_spec] (each gives back what the
      plan holds, and exactly the locks it has).  The states
      [put_local_spec] and [get_local_spec] end in are stated with the books
      ([owns], [also], [buffers_ok]) that [complete_plan_spec] and
      [abort_plan_spec] start from.
    - Graphs: [take_ready_ops_spec], [mark_completed_spec], [graph_progress];
      [schedule_spec], [scheduler_no_stall];
      [batch_graph_fuses], [merged_callback_equiv], [merge_ops_spec], [batch_rejected].
    - Tasks: [table_invariant], [plans_settled_once], [no_plan_lost] over all histories
      of calls, polls and expiries; [wait_answers] (it returns, and each answer is right in a
      state the manager went through); [prefetch_report_spec] (exactly which tokens are claimed);
      [completions_reported_once], [merged_report_spec];
      [cancel_running_drops_plan] states what goes wrong
      (see the findings of the manifest).
    - The data plane: [engine_safety], [engine_progress] over all runs of the engine with its
      workers; [report_spec] (counting, merging, completing), [dispatch_spec], [graph_completion_spec],
      [failed_graph_spec] for each kind of step.  They assume op ids drawn from one counter
      and served op types; [own_counter_completes_early] and
      [unrouted_op_strands_others] show what happens without.
    - Deferred insertion: [commit_deferred_spec] (what a commit publishes, and that the rest goes
      back), [deferred_completion_spec] and [deferred_abort_spec] (a plan with pending insertions
      ends with its books closed).
    - The mooncake store: [mooncake_match_spec], [launch_transfer_spec], [build_key_inj]; [mooncake_put_spec]
      (what a write plans after the longest prefixes each tier has, and that it ends with its books
      closed).  [launch_transfer_spec] takes the performance log of the worker as an argument that may raise.
    - The vLLM connector: [connector_tables] (its tables agree, and it raises nothing of its own),
      [promises_kept] and [output_spec] (which requests vLLM waits for, and what is reported),
      [slots_are_blocks] (which GPU blocks a task moves); [sync_get_forgets] states what goes wrong with
      synchronous reads.  [connector_is_careful] composes it with the task manager: no plan is lost.
    - Hashing and slots: [sequence_meta_spec], [block_hash_identifies],
      [gen_hashes_chained], [format_block_hash_spec]; [shared_slot_safety],
      [free_slot_errors].

    ** Fuel

    Loops that are not structural run on fuel, an exhausted fuel raises
    [RecursionLimit], and no theorem allows that outcome: the depth of a walk
    in the tree is bounded by the number of its nodes ([RadixMatch],
    [RadixReady], [RadixDetach]), the eviction loops by the number of candidates and
    nodes ([RadixEvict]), the drain loop of the scheduler by the graphs and ops
    left ([Scheduler.drain_fuel]), a wait by the reads of the clock until the timeout
    ([wait_answers]).

    ** Not modelled

    The accelerated C++ index and the distributed one (p2p, redis), the planning of
    reads with SWA beyond its definitions, the other transfer workers (CUDA, io_uring: device
    I/O), the setup of the mooncake SDK and its buffers, the creation and shutdown of their processes, the transfer managers that put
    queues and sockets around the engine, storage allocation, the
    inference-engine connectors but for the scheduler side of vLLM's (its requests and outputs
    are records of the fields that are read, and the order of vLLM's calls is a hypothesis of
    [vllm_call]), the client, the server processes, metrics and
    tracing.  The manifest lists them one by one. *)

From stdpp Require Export base tactics option list list_numbers numbers strings gmap sets.
From Stdlib Require Export ZArith Lia.


(** ** Python exceptions

    Every [raise] and [assert] of the modelled code is one of these values.
    The string is the fixed part of the message, kept where the code (or a
    caller) tests it. *)
Inductive exn : Type :=
  | ValueError (msg : string)
  | RuntimeError (msg : string)
  | AssertionError
  | KeyError
  | IndexError
  | NotImplementedError
  | AttributeError
  | TypeError
  | RecursionLimit (* fuel of a bounded loop exhausted: never produced, see the totality theorems *).

#[export] Instance exn_eq_dec : EqDecision exn.
Proof. solve_decision. Defined.

(** Result of a call that cannot change state. *)
Inductive result (A : Type) : Type :=
  | Ok (a : A)
  | Raise (e : exn).
Arguments Ok {A} a.
Arguments Raise {A} e.

#[export] Instance result_ret : MRet result := @Ok.
#[export] Instance result_bind : MBind result := fun A B f m =>
  match m with Ok a => f a | Raise e => Raise e end.

Definition is_ok {A} (r : result A) : bool := match r with Ok _ => true | Raise _ => false end.

(** [assert b], as a statement. *)
Definition py_assert (b : bool) : result unit := if b then Ok tt else Raise AssertionError.

(** ** State and exceptions

    A Python method that mutates an object and may raise: the state reached
    when the exception is raised is kept, as in the language. *)
Definition M (S A : Type) : Type := S → result A * S.

#[export] Instance M_ret S : MRet (M S) := fun A a s => (Ok a, s).
#[export] Instance M_bind S : MBind (M S) := fun A B f m s =>
  match m s with
  | (Ok a, s') => f a s'
  | (Raise e, s') => (Raise e, s')
  end.

Definition get_state {S} : M S S := fun s => (Ok s, s).
Definition put_state {S} (s : S) : M S unit := fun _ => (Ok tt, s).
Definition modify_state {S} (f : S → S) : M S unit := fun s => (Ok tt, f s).
Definition gets {S A} (f : S → A) : M S A := fun s => (Ok (f s), s).
Definition raise {S A} (e : exn) : M S A := fun s => (Raise e, s).
Definition lift_result {S A} (r : result A) : M S A := fun s => (r, s).
Definition assertM {S} (b : bool) : M S unit := lift_result (py_assert b).

(** [try: m finally: f], and [try: m except Exception: h; raise]. *)
Definition try_finally {S A} (m : M S A) (f : M S unit) : M S A := fun s =>
  let '(r, s1) := m s in
  match f s1 with (Ok _, s2) => (r, s2) | (Raise e, s2) => (Raise e, s2) end.
Definition on_exception {S A} (m : M S A) (h : M S unit) : M S A := fun s =>
  match m s with
  | (Ok a, s1) => (Ok a, s1)
  | (Raise e, s1) => match h s1 with (Ok _, s2) => (Raise e, s2) | (Raise e', s2) => (Raise e', s2) end
  end.

(** [for x in l: f x] over a state. *)
Fixpoint for_each {S A} (f : A → M S unit) (l : list A) : M S unit :=
  match l with
  | [] => mret tt
  | x :: l' => f x ;; for_each f l'
  end.

Section monad_lemmas.
Context {S A B : Type}.
Implicit Types (m : M S A) (f : A → M S B).

Lemma M_bind_run m f s :
  (m ≫= f) s = match m s with
               | (Ok a, s') => f a s'
               | (Raise e, s') => (Raise e, s')
               end.
Proof. reflexivity. Qed.

Lemma M_bind_ok m f s a s' : m s = (Ok a, s') → (m ≫= f) s = f a s'.
Proof. by rewrite M_bind_run; intros ->. Qed.

Lemma M_bind_inv m f s b s'' :
  (m ≫= f) s = (Ok b, s'') → ∃ a s', m s = (Ok a, s') ∧ f a s' = (Ok b, s'').
Proof. rewrite M_bind_run. destruct (m s) as [[a|e] s'] eqn:E; naive_solver. Qed.

Lemma result_bind_inv (r : result A) (g : A → result B) b :
  (r ≫= g) = Ok b → ∃ a, r = Ok a ∧ g a = Ok b.
Proof. destruct r; naive_solver. Qed.
End monad_lemmas.

(** Run one monadic step whose outcome is known. *)
Ltac run_step H := rewrite (M_bind_ok _ _ _ _ _ H).
(** Invert a chain of monadic binds that returned normally. *)
Ltac inv_binds :=
  repeat match goal with
  | H : (_ ≫= _) _ = (Ok _, _) |- _ =>
      apply M_bind_inv in H; destruct H as (? & ? & ? & H)
  | H : @mbind result _ _ _ _ _ = Ok _ |- _ =>
      apply result_bind_inv in H; destruct H as (? & ? & H)
  end.

(** ** Slices

    [a[lo:hi]] of Python lists and numpy arrays: a missing bound is the end of
    the array, a negative bound counts from the end, and both are clamped. *)
Section slices.
Local Open Scope Z_scope.
Context {A : Type}.
Implicit Types l : list A.

Definition zlen l : Z := Z.of_nat (length l).

Definition slice_bound l (i : Z) : nat :=
  Z.to_nat (Z.min (zlen l) (if i <? 0 then i + zlen l else i)).

Definition py_slice (lo hi : option Z) l : list A :=
  let a := default 0%nat (slice_bound l <$> lo) in
  let b := default (length l) (slice_bound l <$> hi) in
  take (b - a) (drop a l).

Lemma slice_bound_nonneg l (n : nat) :
  (n <= length l)%nat → slice_bound l (Z.of_nat n) = n.
Proof.
  unfold slice_bound, zlen. intros. destruct (Z.ltb_spec (Z.of_nat n) 0); lia.
Qed.

Lemma slice_bound_in l i : 0 <= i <= zlen l → slice_bound l i = Z.to_nat i.
Proof. unfold slice_bound. intros. destruct (Z.ltb_spec i 0); lia. Qed.

Lemma py_slice_in l a b :
  0 <= a <= zlen l → 0 <= b <= zlen l →
  py_slice (Some a) (Some b) l = take (Z.to_nat (b - a)) (drop (Z.to_nat a) l).
Proof.
  intros Ha Hb. unfold py_slice; simpl. rewrite !slice_bound_in by done. f_equal. lia.
Qed.

Lemma py_slice_prefix l (n : nat) :
  py_slice None (Some (Z.of_nat n)) l = take n l.
Proof.
  unfold py_slice; simpl. rewrite drop_0, Nat.sub_0_r.
  destruct (decide (n <= length l)%nat).
  - by rewrite slice_bound_nonneg.
  - rewrite !take_ge; [done|lia|]. unfold slice_bound, zlen.
    destruct (Z.ltb_spec (Z.of_nat n) 0); lia.
Qed.

(** [a[-n:]] for [n > 0] is the last [n] elements; [a[-0:]] is all of [a]. *)
Lemma py_slice_suffix l (n : nat) :
  (0 < n <= length l)%nat →
  py_slice (Some (- Z.of_nat n)) None l = drop (length l - n) l.
Proof.
  intros Hn. unfold py_slice; simpl. unfold slice_bound, zlen.
  destruct (Z.ltb_spec (- Z.of_nat n) 0); [|lia].
  rewrite take_ge; [f_equal; lia|]. rewrite length_drop. lia.
Qed.

Lemma py_slice_neg_zero l : py_slice (Some (- 0)) None l = l.
Proof.
  unfold py_slice, slice_bound; simpl. rewrite Z.min_r by (unfold zlen; lia).
  simpl. rewrite drop_0, Nat.sub_0_r. apply take_ge. lia.
Qed.

(** Bounds that are not negative are only clamped. *)
Lemma py_slice_nat l (a b : nat) :
  py_slice (Some (Z.of_nat a)) (Some (Z.of_nat b)) l = take (b - a) (drop a l).
Proof.
  assert (∀ n : nat, slice_bound l (Z.of_nat n) = Nat.min (length l) n) as E.
  { intros n. unfold slice_bound, zlen. destruct (Z.ltb_spec (Z.of_nat n) 0); lia. }
  unfold py_slice; simpl. rewrite !E. destruct (decide (a <= length l)%nat).
  - rewrite (Nat.min_r (length l) a) by lia. apply list_eq. intros i. rewrite !lookup_take, !lookup_drop.
    repeat case_decide; try done; try lia. symmetry. apply lookup_ge_None. lia.
  - rewrite !drop_ge by lia. by rewrite !take_nil.
Qed.

Lemma zlen_nonneg l : 0 <= zlen l.
Proof. unfold zlen. lia. Qed.

Lemma zlen_app l k : zlen (l ++ k) = zlen l + zlen k.
Proof. unfold zlen. rewrite length_app. lia. Qed.
End slices.

(** ** Python dictionaries

    Insertion-ordered association lists: assigning to a present key keeps its
    position, assigning to a new key appends, [pop] removes.  [OrderedDict] has
    the same behaviour for the operations the code uses. *)
Section pydict.
Context {K V : Type} `{!EqDecision K}.
Implicit Types (d : list (K * V)) (k : K) (v : V).

Fixpoint dict_get k d : option V :=
  match d with
  | [] => None
  | (k', v) :: d' => if decide (k = k') then Some v else dict_get k d'
  end.

Fixpoint dict_set k v d : list (K * V) :=
  match d with
  | [] => [(k, v)]
  | (k', v') :: d' => if decide (k = k') then (k, v) :: d' else (k', v') :: dict_set k v d'
  end.

Fixpoint dict_pop k d : list (K * V) :=
  match d with
  | [] => []
  | (k', v') :: d' => if decide (k = k') then d' else (k', v') :: dict_pop k d'
  end.

Definition dict_mem k d : bool := bool_decide (is_Some (dict_get k d)).
Definition dict_wf d : Prop := NoDup d.*1.

Lemma dict_get_set_eq k v d : dict_get k (dict_set k v d) = Some v.
Proof. induction d as [|[k' v'] d IH]; simpl; repeat case_decide; simpl; by rewrite ?decide_True by done; repeat case_decide. Qed.

Lemma dict_get_set_ne k k' v d : k ≠ k' → dict_get k' (dict_set k v d) = dict_get k' d.
Proof.
  intros Hne. induction d as [|[k'' v''] d IH]; simpl.
  - by rewrite decide_False by done.
  - case_decide; simpl; repeat case_decide; congruence.
Qed.

Lemma dict_get_None k d : dict_get k d = None ↔ k ∉ d.*1.
Proof.
  induction d as [|[k' v'] d IH]; csimpl.
  - split; [intros _; apply not_elem_of_nil|done].
  - rewrite not_elem_of_cons. case_decide; subst; [|rewrite IH]; naive_solver.
Qed.

Lemma dict_get_Some_elem k v d : dict_get k d = Some v → (k, v) ∈ d.
Proof.
  induction d as [|[k' v'] d IH]; simpl; [done|]. case_decide; subst.
  - intros [= ->]. left.
  - intros. right. auto.
Qed.

Lemma dict_elem_get k v d : dict_wf d → (k, v) ∈ d → dict_get k d = Some v.
Proof.
  unfold dict_wf. induction d as [|[k' v'] d IH]; csimpl; [by intros _ ?%not_elem_of_nil|].
  intros [Hn Hd]%NoDup_cons [[= -> ->]|Hin]%elem_of_cons.
  - by rewrite decide_True.
  - case_decide; subst; [|auto]. destruct Hn. apply list_elem_of_fmap. by exists (k', v).
Qed.

Lemma dict_keys_set k v d :
  (dict_set k v d).*1 = if decide (k ∈ d.*1) then d.*1 else d.*1 ++ [k].
Proof.
  induction d as [|[k' v'] d IH]; csimpl; [done|].
  destruct (decide (k = k')) as [->|Hne].
  - csimpl. rewrite decide_True; [done|left].
  - csimpl. rewrite IH. destruct (decide (k ∈ d.*1)) as [Hin|Hin];
      [rewrite decide_True; [done|by right]|rewrite decide_False; [done|]].
    rewrite not_elem_of_cons. naive_solver.
Qed.

Lemma dict_wf_set k v d : dict_wf d → dict_wf (dict_set k v d).
Proof.
  unfold dict_wf. rewrite dict_keys_set. case_decide; [done|].
  intros. apply NoDup_app. repeat split; [done| |apply NoDup_singleton].
  intros x Hx ->%list_elem_of_singleton. done.
Qed.

Lemma dict_keys_pop_subseteq k d x : x ∈ (dict_pop k d).*1 → x ∈ d.*1.
Proof.
  induction d as [|[k' v'] d IH]; csimpl; [done|]. case_decide; csimpl; rewrite ?elem_of_cons; naive_solver.
Qed.

Lemma dict_wf_pop k d : dict_wf d → dict_wf (dict_pop k d).
Proof.
  unfold dict_wf. induction d as [|[k' v'] d IH]; csimpl; [done|].
  intros [Hn Hd]%NoDup_cons. case_decide; csimpl; [done|].
  apply NoDup_cons. split; [|auto]. by intros ?%dict_keys_pop_subseteq.
Qed.

Lemma dict_get_pop_ne k k' d : k ≠ k' → dict_get k' (dict_pop k d) = dict_get k' d.
Proof.
  intros. induction d as [|[k'' v''] d IH]; simpl; [done|].
  repeat case_decide; simpl; repeat case_decide; congruence.
Qed.

Lemma dict_get_pop_eq k d : dict_wf d → dict_get k (dict_pop k d) = None.
Proof.
  unfold dict_wf. induction d as [|[k' v'] d IH]; csimpl; [done|].
  intros [Hn Hd]%NoDup_cons. case_decide; subst.
  - by apply dict_get_None.
  - simpl. rewrite decide_False by done. auto.
Qed.

Lemma dict_pop_absent k d : k ∉ d.*1 → dict_pop k d = d.
Proof.
  induction d as [|[k' v'] d IH]; csimpl; [done|].
  rewrite not_elem_of_cons. intros [? ?]. rewrite decide_False by done. f_equal. auto.
Qed.
End pydict.

Arguments dict_wf {K V} d.

(** ** Generic lemmas on lists and permutations *)
Section list_lemmas.
Context {A : Type}.
Implicit Types l k : list A.

Lemma NoDup_take n l : NoDup l → NoDup (take n l).
Proof. intros H. apply (sublist_NoDup _ l); [done|apply sublist_take]. Qed.
Lemma NoDup_drop n l : NoDup l → NoDup (drop n l).
Proof. intros H. apply (sublist_NoDup _ l); [done|apply sublist_drop]. Qed.

Lemma lookup_slice l a b i x :
  take b (drop a l) !! i = Some x ↔ (i < b)%nat ∧ l !! (a + i)%nat = Some x.
Proof. rewrite lookup_take_Some, lookup_drop. naive_solver. Qed.
End list_lemmas.

(** ** Loops that carry a Python local *)
Section loops.
Context {S A X : Type}.

(** [for x in l: acc = f(acc, x)], over a state. *)
Fixpoint for_acc (f : A → X → M S A) (acc : A) (l : list X) : M S A :=
  match l with
  | [] => mret acc
  | x :: l' => acc' ← f acc x; for_acc f acc' l'
  end.

(** Invariant rule: the loop returns when every iteration does. *)
Lemma for_acc_ok (I : A → list X → S → Prop) f acc l s :
  I acc l s →
  (∀ acc x l' s, I acc (x :: l') s → ∃ acc' s', f acc x s = (Ok acc', s') ∧ I acc' l' s') →
  ∃ acc' s', for_acc f acc l s = (Ok acc', s') ∧ I acc' [] s'.
Proof.
  intros HI Hf. revert acc s HI. induction l as [|x l IH]; intros acc s HI; simpl.
  - by exists acc, s.
  - destruct (Hf _ _ _ _ HI) as (acc' & s' & E & HI'). rewrite M_bind_run, E. by apply IH.
Qed.
End loops.

Lemma for_each_ok {S X} (I : list X → S → Prop) (f : X → M S unit) l s :
  I l s → (∀ x l' s, I (x :: l') s → ∃ s', f x s = (Ok tt, s') ∧ I l' s') →
  ∃ s', for_each f l s = (Ok tt, s') ∧ I [] s'.
Proof.
  intros HI Hf. revert s HI. induction l as [|x l IH]; intros s HI; simpl.
  - by exists s.
  - destruct (Hf _ _ _ HI) as (s' & E & HI'). rewrite M_bind_run, E. by apply IH.
Qed.

(** [d[k] = f(d[k])] on a present key; an absent key is left to the caller. *)
Definition dict_alter {K V} `{!EqDecision K} (f : V → V) (k : K) (d : list (K * V)) : list (K * V) :=
  match dict_get k d with Some v => dict_set k (f v) d | None => d end.

Section dict_alter.
Context {K V : Type} `{!EqDecision K}.
Implicit Types (d : list (K * V)) (f : V → V).

Lemma dict_get_alter_eq f k d : dict_get k (dict_alter f k d) = f <$> dict_get k d.
Proof. unfold dict_alter. destruct (dict_get k d) eqn:E; simpl; by rewrite ?dict_get_set_eq. Qed.

Lemma dict_get_alter_ne f k k' d : k ≠ k' → dict_get k' (dict_alter f k d) = dict_get k' d.
Proof. intros. unfold dict_alter. destruct (dict_get k d); [by apply dict_get_set_ne|done]. Qed.

Lemma dict_get_alter f k k' d :
  dict_get k' (dict_alter f k d) = if decide (k = k') then f <$> dict_get k' d else dict_get k' d.
Proof. case_decide; [subst; apply dict_get_alter_eq|by apply dict_get_alter_ne]. Qed.

Lemma dict_get_Some_key k v d : dict_get k d = Some v → k ∈ d.*1.
Proof. intros H%dict_get_Some_elem. apply list_elem_of_fmap. by exists (k, v). Qed.

Lemma dict_keys_alter f k d : (dict_alter f k d).*1 = d.*1.
Proof.
  unfold dict_alter. destruct (dict_get k d) eqn:E; [|done].
  rewrite dict_keys_set, decide_True; [done|by eapply dict_get_Some_key].
Qed.

Lemma dict_key_get k d : k ∈ d.*1 → is_Some (dict_get k d).
Proof. intros H. destruct (dict_get k d) eqn:E; [by eexists|]. by apply dict_get_None in E. Qed.

Lemma dict_get_set k k' v d :
  dict_get k' (dict_set k v d) = if decide (k = k') then Some v else dict_get k' d.
Proof. case_decide; [subst; apply dict_get_set_eq|by apply dict_get_set_ne]. Qed.

Lemma dict_get_pop k k' d : dict_wf d →
  dict_get k' (dict_pop k d) = if decide (k = k') then None else dict_get k' d.
Proof. intros. case_decide; [subst; by apply dict_get_pop_eq|by apply dict_get_pop_ne]. Qed.
End dict_alter.

(** Rewriting every value of a dictionary in place. *)
Definition dmap {K V} (f : K → V → V) (d : list (K * V)) : list (K * V) := (λ kv, (kv.1, f kv.1 kv.2)) <$> d.

Section dmap.
Context {K V : Type} `{!EqDecision K}.
Implicit Types (d : list (K * V)) (f h : K → V → V).

Lemma dict_keys_dmap f d : (dmap f d).*1 = d.*1.
Proof. unfold dmap. rewrite <- list_fmap_compose. by apply list_fmap_ext. Qed.

Lemma dict_wf_dmap f d : dict_wf d → dict_wf (dmap f d).
Proof. unfold dict_wf. by rewrite dict_keys_dmap. Qed.

Lemma dict_get_dmap f d k : dict_get k (dmap f d) = f k <$> dict_get k d.
Proof. induction d as [|[k' v] d IH]; csimpl; [done|]. case_decide; by subst. Qed.

Lemma dict_set_dmap_absent f k v d : k ∉ d.*1 → dmap (λ i u, if decide (i = k) then v else f i u) d = dmap f d.
Proof.
  intros Hk. apply list_fmap_ext. intros i [j u] Hi. simpl. rewrite decide_False; [done|].
  intros ->. apply Hk. apply list_elem_of_fmap. exists (k, u). split; [done|]. by eapply list_elem_of_lookup_2.
Qed.

Lemma dict_alter_dmap f (u : V → V) k d :
  dict_wf d → dict_alter u k (dmap f d) = dmap (λ i v, if decide (i = k) then u (f i v) else f i v) d.
Proof.
  unfold dict_wf. induction d as [|[k' v] d IH]; csimpl; [done|]. intros [Hn Hd]%NoDup_cons.
  unfold dict_alter in *. csimpl. destruct (decide (k = k')) as [<-|Hne].
  - rewrite (decide_True (P := k = k)) by done. simpl. rewrite ?(decide_True (P := k = k)) by done. f_equal.
    apply list_fmap_ext. intros i [j w] Hi. simpl. rewrite decide_False; [done|]. intros ->. apply Hn.
    apply list_elem_of_fmap. exists (k, w). split; [done|]. by eapply list_elem_of_lookup_2.
  - specialize (IH Hd). rewrite (decide_False (P := k' = k)) by done. unfold dmap in *.
    destruct (dict_get k _) eqn:E; simpl; by f_equal; apply IH.
Qed.

Lemma dmap_ext f h d : (∀ k v, dict_get k d = Some v → f k v = h k v) → dict_wf d → dmap f d = dmap h d.
Proof.
  intros Hfh Hd. apply list_fmap_ext. intros i [k v] Hi. simpl. f_equal. apply Hfh.
  apply dict_elem_get; [done|]. by eapply list_elem_of_lookup_2.
Qed.

Lemma dmap_id d : dmap (λ _ v, v) d = d.
Proof. unfold dmap. rewrite <- (list_fmap_id d) at 2. apply list_fmap_ext. by intros ? [] ?. Qed.

Lemma dmap_dmap f h d : dmap f (dmap h d) = dmap (λ k v, f k (h k v)) d.
Proof. unfold dmap. rewrite <- list_fmap_compose. by apply list_fmap_ext. Qed.
End dmap.

Section dict_twice.
Context {K V : Type} `{!EqDecision K}.
Implicit Types d : list (K * V).

Lemma dict_set_new k (v : V) d : k ∉ d.*1 → dict_set k v d = d ++ [(k, v)].
Proof.
  induction d as [|[k' v'] d IH]; csimpl; [done|]. rewrite not_elem_of_cons. intros [Hne Hn].
  rewrite decide_False by done. by rewrite IH.
Qed.

Lemma dict_pop_perm k (v : V) d : dict_get k d = Some v → d ≡ₚ (k, v) :: dict_pop k d.
Proof.
  induction d as [|[k' v'] d IH]; cbn; [done|]. case_decide as Hk.
  - intros [= ->]. by rewrite Hk.
  - intros E. rewrite (IH E) at 1. apply perm_swap.
Qed.

Lemma dict_set_set k (v w : V) d : dict_set k v (dict_set k w d) = dict_set k v d.
Proof.
  induction d as [|[k' v'] d IH]; simpl; [by rewrite decide_True|].
  destruct (decide (k = k')) as [<-|]; simpl; [by rewrite decide_True|].
  rewrite decide_False by done. by f_equal.
Qed.

Lemma dict_pop_set k (v : V) d : is_Some (dict_get k d) → dict_pop k (dict_set k v d) = dict_pop k d.
Proof.
  induction d as [|[k' v'] d IH]; simpl; [by intros []|].
  destruct (decide (k = k')) as [<-|]; simpl; [by rewrite decide_True|].
  intros. rewrite decide_False by done. f_equal. auto.
Qed.
End dict_twice.

(** ** Notations and automation of the library *)

Declare Scope py_scope.
Delimit Scope py_scope with py.

(** [l[:hi]], [l[lo:]] and [l[lo:hi]]. *)
Notation "l .[: hi ]" := (py_slice None (Some hi) l) (at level 1, left associativity, hi at level 69, format "l .[: hi ]") : py_scope.
Notation "l .[ lo :]" := (py_slice (Some lo) None l) (at level 1, left associativity, lo at level 69, format "l .[ lo :]") : py_scope.
Notation "l .[ lo : hi ]" := (py_slice (Some lo) (Some hi) l) (at level 1, left associativity, lo at level 69, hi at level 69, format "l .[ lo : hi ]") : py_scope.

(** Side conditions of dictionary and list steps. *)
Create HintDb py.
Create Rewrite HintDb py.
#[export] Hint Resolve dict_wf_set dict_wf_pop dict_wf_dmap zlen_nonneg NoDup_take NoDup_drop : py.
#[export] Hint Rewrite @zlen_app @dict_keys_alter @dict_keys_dmap @dict_get_dmap @dict_get_alter_eq @dict_get_set_eq : py.

(** ** Triples

    [triple I P m Q]: from a state of [P], [m] either returns in a state of [Q], or raises and leaves
    a state of [I], the invariant an exception must not break. *)
Section triples.
Context {S : Type} (I : S → Prop).

Definition triple {A} (P : S → Prop) (m : M S A) (Q : A → S → Prop) : Prop :=
  ∀ s, P s → match m s with (Ok a, s') => Q a s' | (Raise _, s') => I s' end.

Lemma triple_bind {A B} (P : S → Prop) (m : M S A) (f : A → M S B) (R : A → S → Prop) (Q : B → S → Prop) :
  triple P m R → (∀ a, triple (R a) (f a) Q) → triple P (m ≫= f) Q.
Proof.
  intros Hm Hf s Hs. rewrite M_bind_run. specialize (Hm s Hs). destruct (m s) as [[a|x] s']; [|done]. by apply Hf.
Qed.

Lemma triple_ret {A} (P : S → Prop) (a : A) (Q : A → S → Prop) : (∀ s, P s → Q a s) → triple P (mret a) Q.
Proof. intros HQ s Hs. by apply HQ. Qed.

Lemma triple_raise {A} (P : S → Prop) x (Q : A → S → Prop) : (∀ s, P s → I s) → triple P (raise x) Q.
Proof. intros HI s Hs. by apply HI. Qed.

Lemma triple_lift {A} (P : S → Prop) (r : result A) (Q : A → S → Prop) :
  (∀ s, P s → I s) → (∀ a s, r = Ok a → P s → Q a s) → triple P (lift_result r) Q.
Proof. intros HI HQ s Hs. unfold lift_result. destruct r as [a|x]; [by apply HQ|by apply HI]. Qed.

Lemma triple_get_state (P : S → Prop) (Q : S → S → Prop) : (∀ s, P s → Q s s) → triple P get_state Q.
Proof. intros HQ s Hs. by apply HQ. Qed.

Lemma triple_modify (P : S → Prop) f (Q : unit → S → Prop) : (∀ s, P s → Q tt (f s)) → triple P (modify_state f) Q.
Proof. intros HQ s Hs. by apply HQ. Qed.

Lemma triple_weaken {A} (P P' : S → Prop) (m : M S A) (Q Q' : A → S → Prop) :
  triple P m Q → (∀ s, P' s → P s) → (∀ a s, Q a s → Q' a s) → triple P' m Q'.
Proof. intros Hm HP HQ s Hs. specialize (Hm s (HP s Hs)). destruct (m s) as [[a|x] s']; auto. Qed.

(** [triple (λ _, False)] says that nothing is raised. *)
Lemma triple_total {A} (P : S → Prop) (m : M S A) (Q : A → S → Prop) :
  (∀ s, P s → ∃ a s', m s = (Ok a, s') ∧ Q a s') → triple P m Q.
Proof. intros Hm s Hs. destruct (Hm s Hs) as (a & s' & E & HQ). by rewrite E. Qed.

(** The state a triple starts in can be named, and a pure fact of it used. *)
Lemma triple_state {A} (P : S → Prop) (m : M S A) (Q : A → S → Prop) :
  (∀ s0, P s0 → triple (λ s, s = s0) m Q) → triple P m Q.
Proof. intros Hm s Hs. by apply (Hm s Hs s). Qed.

Lemma triple_for_each {X} (P : S → Prop) (f : X → M S unit) (l : list X) :
  (∀ x, x ∈ l → triple P (f x) (λ _, P)) → triple P (for_each f l) (λ _, P).
Proof.
  induction l as [|x l IH]; intros Hf; simpl; [by apply triple_ret|].
  eapply triple_bind; [apply Hf; left|]. intros []. apply IH. intros y Hy. apply Hf. by right.
Qed.

(** A loop with an accumulator: the invariant also sees what is done and what is left. *)
Lemma triple_for_acc {A X} (J : list X → A → list X → S → Prop) (f : A → X → M S A) (acc : A) (l : list X) :
  (∀ pre acc x post, triple (J pre acc (x :: post)) (f acc x) (λ acc', J (pre ++ [x]) acc' post)) →
  triple (J [] acc l) (for_acc f acc l) (λ acc', J l acc' []).
Proof.
  intros Hf. enough (∀ pre acc, triple (J pre acc l) (for_acc f acc l) (λ acc', J (pre ++ l) acc' [])) as Hl by apply (Hl []).
  clear acc. induction l as [|x l IH]; intros pre acc; simpl; [rewrite app_nil_r; by apply triple_ret|].
  eapply triple_bind; [apply Hf|]. intros acc'. rewrite (cons_middle x pre l), app_assoc. apply IH.
Qed.
End triples.

(** Two triples of the same term hold together. *)
Lemma triple_and {S A} (I I' P P' : S → Prop) (m : M S A) (Q Q' : A → S → Prop) :
  triple I P m Q → triple I' P' m Q' → triple (λ s, I s ∧ I' s) (λ s, P s ∧ P' s) m (λ a s, Q a s ∧ Q' a s).
Proof. intros Hm Hm' s [Hs Hs']. specialize (Hm s Hs). specialize (Hm' s Hs'). by destruct (m s) as [[a|x] s']. Qed.

Lemma triple_exn {S A} (I I' : S → Prop) (P : S → Prop) (m : M S A) (Q : A → S → Prop) :
  triple I P m Q → (∀ s, I s → I' s) → triple I' P m Q.
Proof. intros Hm HI s Hs. specialize (Hm s Hs). destruct (m s) as [[a|x] s']; auto. Qed.

Lemma triple_run {S A} (P : S → Prop) (m : M S A) (Q : A → S → Prop) s :
  triple (λ _, False) P m Q → P s → ∃ a s', m s = (Ok a, s') ∧ Q a s'.
Proof. intros Hm Hs. specialize (Hm s Hs). destruct (m s) as [[a|x] s']; [eauto|done]. Qed.
