(* ===== verification/Mempool.v ===== *)
(** * Mempool: the block ledger of one cache tier

    Models [flexkv/cache/mempool.py] ([Mempool]): the free bitmap, the cached
    snapshot of free ids with its cursor, and the two operations that move
    blocks between the pool and its clients.  The abstract view of a pool is
    the set [free p] of free block ids. *)

From S2P Require Import Prelude.
From stdpp Require Import sorting.
Local Open Scope Z_scope.

Module Mempool.

(** The fields of the Python object.  Block ids are int64 array elements,
    modelled as [Z]; the [dtype]/[ndim] test of [recycle_blocks] is the type. *)
Record Mempool : Type := mkMempool {
  num_total_blocks : Z;
  _free_mask : list bool;
  _num_free : Z;
  _free_ids : list Z;
  _free_ids_offset : Z;
}.

(** [mask.nonzero()[0]] *)
Fixpoint nonzero_from (i : Z) (mask : list bool) : list Z :=
  match mask with
  | [] => []
  | b :: mask' => (if b then [i] else []) ++ nonzero_from (i + 1) mask'
  end.
Definition nonzero (mask : list bool) : list Z := nonzero_from 0 mask.

(** [mask[ids] = b] *)
Definition mask_set (b : bool) (ids : list Z) (mask : list bool) : list bool :=
  foldl (λ m i, <[Z.to_nat i := b]> m) mask ids.

(** [mask[i]] for an index already checked to be in range. *)
Definition mask_get (mask : list bool) (i : Z) : bool := default false (mask !! Z.to_nat i).

(** [np.unique] *)
Definition unique (ids : list Z) : list Z := merge_sort Z.le (remove_dups ids).

Definition fresh (n : Z) : Mempool :=
  let mask := replicate (Z.to_nat n) true in
  {| num_total_blocks := n; _free_mask := mask; _num_free := n;
     _free_ids := nonzero mask; _free_ids_offset := 0 |}.

Definition init (n : Z) : result Mempool := py_assert (0 <? n) ;; mret (fresh n).

Definition reset (p : Mempool) : Mempool := fresh (num_total_blocks p).

Definition _update_free_ids (p : Mempool) : Mempool :=
  {| num_total_blocks := num_total_blocks p; _free_mask := _free_mask p;
     _num_free := _num_free p;
     _free_ids := nonzero (_free_mask p); _free_ids_offset := 0 |}.

Definition allocate_blocks (num : Z) (p : Mempool) : result (list Z * Mempool) :=
  if num <? 0 then Raise (ValueError "num must be greater than 0")
  else if _num_free p <? num then Raise (ValueError "Not enough free blocks")
  else
    let p := if zlen (_free_ids p) - _free_ids_offset p <? num
             then _update_free_ids p else p in
    let off := _free_ids_offset p in
    let free_ids := py_slice (Some off) (Some (off + num)) (_free_ids p) in
    Ok (free_ids,
        {| num_total_blocks := num_total_blocks p;
           _free_mask := mask_set false free_ids (_free_mask p);
           _num_free := _num_free p - num;
           _free_ids := _free_ids p;
           _free_ids_offset := off + num |}).

Definition recycle_blocks (block_ids : list Z) (p : Mempool) : result Mempool :=
  match block_ids with
  | [] => Ok p
  | _ =>
    if existsb (λ i, (i <? 0) || (num_total_blocks p <=? i)) block_ids
    then Raise (ValueError "block_ids must be within the range of [0, num_total_blocks)")
    else
      let block_ids := unique block_ids in
      if existsb (mask_get (_free_mask p)) block_ids
      then Raise (ValueError "block_ids are already free")
      else Ok {| num_total_blocks := num_total_blocks p;
                 _free_mask := mask_set true block_ids (_free_mask p);
                 _num_free := _num_free p + zlen block_ids;
                 _free_ids := _free_ids p;
                 _free_ids_offset := _free_ids_offset p |}
  end.

Definition num_free_blocks (p : Mempool) : Z := _num_free p.
Definition num_used_blocks (p : Mempool) : Z := num_total_blocks p - _num_free p.

(** ** Abstract view and invariant *)

Definition free (p : Mempool) : gset Z := list_to_set (nonzero (_free_mask p)).

(** All block ids of the tier. *)
Definition all_ids (n : Z) : gset Z := list_to_set (seqZ 0 n).

(** The snapshot is stale in general; what the cursor logic relies on is that
    the part of it that has not been handed out yet is still free. *)
Record wf (p : Mempool) : Prop := {
  wf_total : 0 < num_total_blocks p;
  wf_mask : zlen (_free_mask p) = num_total_blocks p;
  wf_count : _num_free p = zlen (nonzero (_free_mask p));
  wf_offset : 0 <= _free_ids_offset p <= zlen (_free_ids p);
  wf_rest_nodup : NoDup (drop (Z.to_nat (_free_ids_offset p)) (_free_ids p));
  wf_rest_free : ∀ i, i ∈ drop (Z.to_nat (_free_ids_offset p)) (_free_ids p) → i ∈ free p;
}.

(** ** Lemmas on masks *)

Lemma elem_of_nonzero_from mask i x :
  x ∈ nonzero_from i mask ↔ i <= x ∧ mask !! Z.to_nat (x - i) = Some true.
Proof.
  revert i. induction mask as [|b mask IH]; intros i; simpl.
  - rewrite elem_of_nil, lookup_nil. naive_solver.
  - rewrite elem_of_app, IH.
    destruct (decide (x = i)) as [->|Hne].
    + rewrite Z.sub_diag. simpl. destruct b; simpl; rewrite ?list_elem_of_singleton, ?elem_of_nil; naive_solver lia.
    + assert (x ∉ (if b then [i] else [])) by (destruct b; rewrite ?list_elem_of_singleton, ?elem_of_nil; naive_solver).
      assert (i <= x → Z.to_nat (x - i) = S (Z.to_nat (x - (i + 1)))) as Hs by lia.
      split; [intros [[]%H|[? H']]|intros [? H']; right]; (split; [lia|]); rewrite Hs in * by lia; done.
Qed.

Lemma elem_of_free p x :
  x ∈ free p ↔ 0 <= x ∧ _free_mask p !! Z.to_nat x = Some true.
Proof. unfold free, nonzero. by rewrite elem_of_list_to_set, elem_of_nonzero_from, Z.sub_0_r. Qed.

Lemma NoDup_nonzero_from mask i : NoDup (nonzero_from i mask).
Proof.
  revert i. induction mask as [|b mask IH]; intros i; simpl; [constructor|].
  apply NoDup_app. repeat split; [destruct b; [apply NoDup_singleton|constructor]| |apply IH].
  intros x Hx. rewrite elem_of_nonzero_from. destruct b; [|by apply elem_of_nil in Hx].
  apply list_elem_of_singleton in Hx. lia.
Qed.

Lemma size_free p : Z.of_nat (size (free p)) = zlen (nonzero (_free_mask p)).
Proof. unfold free, zlen. by rewrite size_list_to_set by apply NoDup_nonzero_from. Qed.

Lemma length_mask_set b ids mask : length (mask_set b ids mask) = length mask.
Proof.
  unfold mask_set. revert mask. induction ids as [|i ids IH]; intros mask; simpl; [done|].
  by rewrite IH, length_insert.
Qed.

Lemma mask_set_lookup b ids mask n :
  (∀ i, i ∈ ids → 0 <= i < zlen mask) →
  mask_set b ids mask !! n =
    if decide (Z.of_nat n ∈ ids) then Some b else mask !! n.
Proof.
  unfold mask_set. revert mask. induction ids as [|i ids IH]; intros mask Hr; simpl; [done|].
  assert (0 <= i < zlen mask) by (apply Hr; left).
  rewrite IH.
  2:{ intros j Hj. unfold zlen. rewrite length_insert. apply Hr. by right. }
  destruct (decide (Z.of_nat n ∈ ids)) as [Hin|Hin].
  { rewrite decide_True; [done|by right]. }
  destruct (decide (n = Z.to_nat i)) as [->|Hne].
  - rewrite decide_True by (apply elem_of_cons; left; lia).
    apply list_lookup_insert_eq. unfold zlen in *. lia.
  - rewrite list_lookup_insert_ne by done. rewrite decide_False; [done|].
    rewrite not_elem_of_cons. split; [lia|done].
Qed.

Lemma elem_of_unique x ids : x ∈ unique ids ↔ x ∈ ids.
Proof. unfold unique. by rewrite merge_sort_Permutation, elem_of_remove_dups. Qed.

Lemma elem_of_unique_1 x ids : x ∈ unique ids → x ∈ ids.
Proof. by rewrite elem_of_unique. Qed.

Lemma NoDup_unique ids : NoDup (unique ids).
Proof. unfold unique. rewrite merge_sort_Permutation. apply NoDup_remove_dups. Qed.

Lemma list_to_set_unique ids : list_to_set (unique ids) =@{gset Z} list_to_set ids.
Proof. apply set_eq. intros x. by rewrite !elem_of_list_to_set, elem_of_unique. Qed.

Section wf_lemmas.
Context (p : Mempool) (Hwf : wf p).

Lemma wf_num_free : _num_free p = Z.of_nat (size (free p)).
Proof. by rewrite size_free, (wf_count _ Hwf). Qed.

Lemma free_range i : i ∈ free p → 0 <= i < num_total_blocks p.
Proof.
  rewrite elem_of_free. intros [? Hl%lookup_lt_Some].
  rewrite <- (wf_mask _ Hwf). unfold zlen. lia.
Qed.

Lemma elem_of_nonzero_free i : i ∈ nonzero (_free_mask p) ↔ i ∈ free p.
Proof. unfold free. by rewrite elem_of_list_to_set. Qed.

(** Rescanning never breaks the invariant and never changes the free set. *)
Lemma wf_update_free_ids : wf (_update_free_ids p) ∧ free (_update_free_ids p) = free p.
Proof.
  split; [|done]. destruct Hwf. split; simpl; try done.
  - split; [lia|]. apply zlen_nonneg.
  - apply NoDup_nonzero_from.
  - intros i. by rewrite drop_0, elem_of_nonzero_free.
Qed.
End wf_lemmas.

Lemma elem_of_free_mask_set p ids b i mask :
  mask = mask_set b ids (_free_mask p) →
  (∀ i, i ∈ ids → 0 <= i < zlen (_free_mask p)) →
  (0 <= i ∧ mask !! Z.to_nat i = Some true) ↔
  (if b then i ∈ ids ∨ i ∈ free p else i ∈ free p ∧ i ∉ ids).
Proof.
  intros -> Hr. destruct (decide (0 <= i)) as [Hi|Hi].
  - rewrite (mask_set_lookup b ids _ _ Hr), Z2Nat.id by done.
    destruct b; rewrite elem_of_free; case_decide; naive_solver.
  - assert (i ∉ ids) by (intros ?%Hr; lia).
    destruct b; rewrite elem_of_free; naive_solver.
Qed.

(** A sub-slice of the untouched snapshot is what a large enough snapshot hands out. *)
Lemma allocate_slice p num :
  wf p → 0 <= num <= zlen (_free_ids p) - _free_ids_offset p →
  py_slice (Some (_free_ids_offset p)) (Some (_free_ids_offset p + num)) (_free_ids p) =
  take (Z.to_nat num) (drop (Z.to_nat (_free_ids_offset p)) (_free_ids p)).
Proof.
  intros Hwf Hn. pose proof (wf_offset _ Hwf). rewrite py_slice_in by lia.
  f_equal. lia.
Qed.

Lemma snapshot_suffices p :
  wf p → zlen (_free_ids (_update_free_ids p)) - 0 = _num_free p.
Proof. intros Hwf. simpl. rewrite (wf_count _ Hwf). lia. Qed.

(** The body of [allocate_blocks] once the snapshot is known to be long enough. *)
Lemma allocate_body p num ids :
  wf p → 0 <= num <= zlen (_free_ids p) - _free_ids_offset p →
  ids = take (Z.to_nat num) (drop (Z.to_nat (_free_ids_offset p)) (_free_ids p)) →
  let p' := {| num_total_blocks := num_total_blocks p;
               _free_mask := mask_set false ids (_free_mask p);
               _num_free := _num_free p - num;
               _free_ids := _free_ids p;
               _free_ids_offset := _free_ids_offset p + num |} in
  wf p' ∧ NoDup ids ∧ zlen ids = num ∧ list_to_set ids ⊆ free p ∧
  free p' = free p ∖ list_to_set ids.
Proof.
  intros Hwf Hn -> p'. set (off := Z.to_nat (_free_ids_offset p)).
  set (ids := take _ _) in *.
  pose proof (wf_offset _ Hwf) as Hoff. pose proof (wf_rest_nodup _ Hwf) as Hnd.
  fold off in Hnd.
  assert (NoDup ids) as Hids by by apply NoDup_take.
  assert (∀ i, i ∈ ids → i ∈ free p) as Hfree.
  { intros i Hi. apply (wf_rest_free _ Hwf). unfold ids in Hi. by apply elem_of_take in Hi as (j & ?%list_elem_of_lookup_2 & _). }
  assert (zlen ids = num) as Hlen.
  { unfold ids, zlen in *. rewrite length_take, length_drop. lia. }
  assert (∀ i, i ∈ ids → 0 <= i < zlen (_free_mask p)) as Hr.
  { intros i Hi. rewrite (wf_mask _ Hwf). by apply free_range, Hfree. }
  assert (free p' = free p ∖ list_to_set ids) as Hfp.
  { apply set_eq. intros i. rewrite elem_of_free.
    change (_free_mask p') with (mask_set false ids (_free_mask p)).
    rewrite (elem_of_free_mask_set p ids false i _ eq_refl Hr). set_solver. }
  split_and!; [|done..|set_solver|done].
  split; simpl.
  - apply (wf_total _ Hwf).
  - unfold zlen. rewrite length_mask_set. apply (wf_mask _ Hwf).
  - rewrite (wf_num_free _ Hwf).
    change (nonzero _) with (nonzero (_free_mask p')). rewrite <- size_free, Hfp.
    rewrite size_difference by set_solver. rewrite size_list_to_set by done.
    assert (length ids ≤ size (free p))%nat; [|unfold zlen in *; lia].
    rewrite <- (size_list_to_set (C:=gset Z) ids) by done. apply subseteq_size. set_solver.
  - lia.
  - rewrite Z2Nat.inj_add, <- drop_drop by lia. by apply NoDup_drop.
  - intros i Hi. rewrite Hfp. rewrite Z2Nat.inj_add, <- drop_drop in Hi by lia.
    rewrite <- (take_drop (Z.to_nat num) (drop off (_free_ids p))) in Hnd.
    apply NoDup_app in Hnd as (_ & Hdis & _).
    apply elem_of_difference. split; [|rewrite elem_of_list_to_set; intros ?; by eapply Hdis].
    apply (wf_rest_free _ Hwf). fold off.
    rewrite <- (take_drop (Z.to_nat num) (drop off _)), elem_of_app. by right.
Qed.

(** ** Operation lemmas *)

Lemma allocate_ok p num :
  wf p → 0 <= num <= _num_free p →
  ∃ ids p', allocate_blocks num p = Ok (ids, p') ∧ wf p' ∧ NoDup ids ∧ zlen ids = num ∧
    list_to_set ids ⊆ free p ∧ free p' = free p ∖ list_to_set ids ∧
    num_total_blocks p' = num_total_blocks p ∧ _num_free p' = _num_free p - num.
Proof.
  intros Hwf Hn. unfold allocate_blocks.
  destruct (Z.ltb_spec num 0); [lia|]. destruct (Z.ltb_spec (_num_free p) num); [lia|].
  set (q := if _ <? num then _ else p).
  assert (wf q ∧ free q = free p ∧ num <= zlen (_free_ids q) - _free_ids_offset q ∧
          num_total_blocks q = num_total_blocks p ∧ _num_free q = _num_free p) as (Hq & Hf & Hl & Ht & Hc).
  { unfold q. destruct (Z.ltb_spec (zlen (_free_ids p) - _free_ids_offset p) num); [|done].
    destruct (wf_update_free_ids p Hwf) as [? ?]. pose proof (snapshot_suffices p Hwf).
    simpl in *. split_and!; [done|done|lia|done|done]. }
  destruct (allocate_body q num _ Hq ltac:(lia) (allocate_slice q num Hq ltac:(lia)))
    as (Hw' & Hnd & Hlen & Hsub & Hfree).
  eexists _, _. split; [done|]. rewrite <- Hf, <- Ht, <- Hc. by split_and!.
Qed.

Lemma allocate_err p num :
  num < 0 ∨ _num_free p < num → ∃ e, allocate_blocks num p = Raise (ValueError e).
Proof.
  unfold allocate_blocks. intros Hn. destruct (Z.ltb_spec num 0); [by eexists|].
  destruct (Z.ltb_spec (_num_free p) num); [by eexists|lia].
Qed.

Lemma existsb_elem {A} (f : A → bool) l : existsb f l = true ↔ ∃ x, x ∈ l ∧ f x = true.
Proof. rewrite existsb_exists. by setoid_rewrite list_elem_of_In. Qed.

Lemma existsb_elem_false {A} (f : A → bool) l : existsb f l = false ↔ ∀ x, x ∈ l → f x = false.
Proof.
  rewrite <- not_true_iff_false, existsb_elem. setoid_rewrite <- not_true_iff_false. naive_solver.
Qed.

Lemma mask_get_free p i : 0 <= i → mask_get (_free_mask p) i = true ↔ i ∈ free p.
Proof.
  intros. rewrite elem_of_free. unfold mask_get.
  destruct (_free_mask p !! Z.to_nat i) as [[]|]; naive_solver.
Qed.

Lemma recycle_ok p ids :
  wf p → (∀ i, i ∈ ids → 0 <= i < num_total_blocks p ∧ i ∉ free p) →
  ∃ p', recycle_blocks ids p = Ok p' ∧ wf p' ∧ free p' = free p ∪ list_to_set ids ∧
    num_total_blocks p' = num_total_blocks p ∧
    _num_free p' = _num_free p + Z.of_nat (size (list_to_set ids : gset Z)).
Proof.
  intros Hwf Hids. destruct ids as [|i0 ids0] eqn:E.
  { exists p. replace (size (list_to_set [] : gset Z)) with 0%nat by done.
    split_and!; [done|done|set_solver|done|lia]. }
  unfold recycle_blocks. rewrite <- E in *.
  replace (existsb _ ids) with false.
  2:{ symmetry. apply existsb_elem_false. intros i Hi. destruct (Hids i Hi). lia. }
  replace (existsb _ (unique ids)) with false.
  2:{ symmetry. apply existsb_elem_false. intros i Hi%elem_of_unique_1. destruct (Hids i Hi).
      apply not_true_iff_false. rewrite mask_get_free by lia. done. }
  eexists. split; [done|]. 
  match goal with |- wf ?q ∧ _ => set (p' := q) end.
  assert (∀ i, i ∈ unique ids → 0 <= i < zlen (_free_mask p)) as Hr.
  { intros i Hi%elem_of_unique_1. rewrite (wf_mask _ Hwf). by apply Hids. }
  assert (free p' = free p ∪ list_to_set ids) as Hfp.
  { rewrite <- (list_to_set_unique ids). apply set_eq. intros i. rewrite elem_of_free.
    change (_free_mask p') with (mask_set true (unique ids) (_free_mask p)).
    rewrite (elem_of_free_mask_set p (unique ids) true i _ eq_refl Hr). set_solver. }
  assert (zlen (unique ids) = Z.of_nat (size (list_to_set ids : gset Z))) as Hsz.
  { unfold zlen. by rewrite <- (list_to_set_unique ids), size_list_to_set by apply NoDup_unique. }
  split_and!; [|done|done|simpl; lia].
  split; simpl; try (apply Hwf).
  - unfold zlen. rewrite length_mask_set. apply (wf_mask _ Hwf).
  - rewrite (wf_num_free _ Hwf), Hsz.
    change (nonzero _) with (nonzero (_free_mask p')). rewrite <- size_free, Hfp, size_union; [lia|].
    intros i. rewrite elem_of_list_to_set. intros ? Hi%Hids. naive_solver.
  - intros i Hi. rewrite Hfp. apply elem_of_union_l, (wf_rest_free _ Hwf _ Hi).
Qed.

Lemma recycle_err p ids :
  (∃ i, i ∈ ids ∧ (i < 0 ∨ num_total_blocks p <= i ∨ i ∈ free p)) →
  ∃ e, recycle_blocks ids p = Raise (ValueError e).
Proof.
  intros (i & Hi & Hbad). unfold recycle_blocks.
  destruct ids as [|i0 ids0] eqn:E; [by apply elem_of_nil in Hi|]. rewrite <- E in *.
  destruct (existsb (λ i, (i <? 0) || _) ids) eqn:E1; [by eexists|].
  rewrite existsb_elem_false in E1. specialize (E1 i Hi).
  assert (i ∈ free p) as Hf by (destruct Hbad as [|[|]]; [lia|lia|done]).
  replace (existsb _ (unique ids)) with true; [by eexists|].
  symmetry. apply existsb_elem. exists i. rewrite elem_of_unique. split; [done|].
  apply mask_get_free; [lia|done].
Qed.

Lemma elem_of_all_ids n i : i ∈ all_ids n ↔ 0 <= i < n.
Proof. unfold all_ids. rewrite elem_of_list_to_set, elem_of_seqZ. lia. Qed.

Lemma fresh_wf n : 0 < n → wf (fresh n) ∧ free (fresh n) = all_ids n.
Proof.
  intros Hn. assert (free (fresh n) = all_ids n) as Hf.
  { apply set_eq. intros i. rewrite elem_of_free, elem_of_all_ids. simpl.
    rewrite lookup_replicate. naive_solver lia. }
  split; [|done]. split; simpl; try done.
  - unfold zlen. rewrite length_replicate. lia.
  - change (nonzero _) with (nonzero (_free_mask (fresh n))).
    rewrite <- size_free, Hf. unfold all_ids. rewrite size_list_to_set by apply NoDup_seqZ.
    rewrite length_seqZ. lia.
  - split; [lia|apply zlen_nonneg].
  - apply NoDup_nonzero_from.
  - intros i. by rewrite drop_0, <- elem_of_nonzero_free.
Qed.

(** ** The pool as a state machine

    [held] is a ghost: the ids currently lent to clients. *)
Inductive op : Type := Alloc (num : Z) | Recycle (ids : list Z) | Reset.

Definition step (s : Mempool * gset Z) (o : op) : Mempool * gset Z :=
  let '(p, held) := s in
  match o with
  | Alloc num => match allocate_blocks num p with
                 | Ok (ids, p') => (p', held ∪ list_to_set ids)
                 | Raise _ => s
                 end
  | Recycle ids => match recycle_blocks ids p with
                   | Ok p' => (p', held ∖ list_to_set ids)
                   | Raise _ => s
                   end
  | Reset => (reset p, ∅)
  end.

Definition run (s : Mempool * gset Z) (ops : list op) : Mempool * gset Z := foldl step s ops.

(** Every id of the tier is either free or lent to exactly one client. *)
Definition partition (n : Z) (s : Mempool * gset Z) : Prop :=
  wf s.1 ∧ num_total_blocks s.1 = n ∧ free s.1 ## s.2 ∧ free s.1 ∪ s.2 = all_ids n.

Lemma step_partition n s o : partition n s → partition n (step s o).
Proof.
  destruct s as [p held]. intros (Hwf & Ht & Hd & Hu). simpl in *.
  destruct o as [num|ids|]; simpl.
  - destruct (decide (0 <= num <= _num_free p)) as [Hn|Hn].
    + destruct (allocate_ok p num Hwf Hn) as (ids & p' & -> & ? & ? & ? & Hsub & Hf & ? & ?).
      split_and!; simpl; [done|congruence|rewrite Hf; set_solver|].
      rewrite Hf, <- Hu. apply set_eq. intros i. rewrite !elem_of_union, elem_of_difference.
      destruct (decide (i ∈ (list_to_set ids : gset Z))); set_solver.
    + destruct (allocate_err p num ltac:(lia)) as [e ->]. by split_and!.
  - destruct (decide (Forall (λ i, (0 <= i < num_total_blocks p) ∧ i ∉ free p) ids)) as [Hall|Hne].
    + rewrite Forall_forall in Hall. destruct (recycle_ok p ids Hwf Hall) as (p' & -> & ? & Hf & ? & ?).
      assert (list_to_set ids ⊆ held).
      { intros i Hi%elem_of_list_to_set. destruct (Hall i Hi) as [? ?].
        assert (i ∈ free p ∪ held); [|set_solver]. rewrite Hu, elem_of_all_ids. lia. }
      split_and!; simpl; [done|congruence|rewrite Hf; set_solver|].
      rewrite Hf, <- Hu. apply set_eq. intros i. rewrite !elem_of_union, elem_of_difference.
      destruct (decide (i ∈ (list_to_set ids : gset Z))); set_solver.
    + destruct (recycle_err p ids) as [e ->]; [|by split_and!].
      apply not_Forall_Exists, Exists_exists in Hne as (i & Hi & Hbad); [|intros ?; apply _]. exists i. split; [done|].
      destruct (decide (i < 0)); [by left|]. destruct (decide (num_total_blocks p <= i)); [naive_solver|].
      right; right. destruct (decide (i ∈ free p)); [done|]. destruct Hbad. split; [lia|done].
  - destruct (fresh_wf n) as [? Hf].
    { rewrite <- Ht. apply Hwf. }
    unfold reset. rewrite Ht. split_and!; simpl; [done|done|set_solver|]. rewrite Hf. set_solver.
Qed.

(** ** Properties *)

(** [allocate_blocks] on every branch: with [0 <= num <= num_free] it hands
    out exactly [num] distinct ids, all free before the call, removes exactly
    those from the free set and keeps the ledger invariant (also when the
    cached snapshot is stale and has to be rescanned); otherwise it raises
    [ValueError]. *)
Theorem allocate_blocks_spec p num :
  wf p →
  match allocate_blocks num p with
  | Ok (ids, p') =>
      0 <= num <= num_free_blocks p ∧ wf p' ∧ NoDup ids ∧ zlen ids = num ∧
      (∀ i, i ∈ ids → i ∈ free p) ∧
      free p' = free p ∖ list_to_set ids ∧
      num_free_blocks p' = num_free_blocks p - num
  | Raise e => (num < 0 ∨ num_free_blocks p < num) ∧ ∃ msg, e = ValueError msg
  end.
Proof.
  intros Hwf. unfold num_free_blocks. destruct (decide (0 <= num <= _num_free p)) as [Hn|Hn].
  - destruct (allocate_ok p num Hwf Hn) as (ids & p' & -> & ? & ? & ? & Hsub & ? & ? & ?).
    split_and!; [lia..|done|done|done|set_solver|done|done].
  - destruct (allocate_err p num ltac:(lia)) as [e ->]. split; [lia|by eexists].
Qed.

Lemma allocate_blocks_spec_witness :
  wf (fresh 4) ∧
  match allocate_blocks 3 (fresh 4) with
  | Ok (ids, p') =>
      0 <= 3 <= num_free_blocks (fresh 4) ∧ wf p' ∧ NoDup ids ∧ zlen ids = 3 ∧
      (∀ i, i ∈ ids → i ∈ free (fresh 4)) ∧
      free p' = free (fresh 4) ∖ list_to_set ids ∧
      num_free_blocks p' = num_free_blocks (fresh 4) - 3
  | Raise e => (3 < 0 ∨ num_free_blocks (fresh 4) < 3) ∧ ∃ msg, e = ValueError msg
  end.
Proof.
  assert (H : wf (fresh 4)) by (apply fresh_wf; lia).
  split; [exact H|]. exact (allocate_blocks_spec (fresh 4) 3 H).
Defined.

(** [recycle_blocks] accepts a list exactly when every id is in range and
    currently lent out: then the free set grows by exactly these ids (repeated
    ids count once); an out-of-range id or an id already free (a double free)
    raises [ValueError]. *)
Theorem recycle_blocks_spec p ids :
  wf p →
  match recycle_blocks ids p with
  | Ok p' =>
      (∀ i, i ∈ ids → 0 <= i < num_total_blocks p ∧ i ∉ free p) ∧
      wf p' ∧ free p' = free p ∪ list_to_set ids ∧
      num_used_blocks p' = num_used_blocks p - Z.of_nat (size (list_to_set ids : gset Z))
  | Raise e =>
      (∃ i, i ∈ ids ∧ (i < 0 ∨ num_total_blocks p <= i ∨ i ∈ free p)) ∧ ∃ msg, e = ValueError msg
  end.
Proof.
  intros Hwf. unfold num_used_blocks.
  destruct (decide (Forall (λ i, (0 <= i < num_total_blocks p) ∧ i ∉ free p) ids)) as [Hall|Hne].
  - rewrite Forall_forall in Hall.
    destruct (recycle_ok p ids Hwf Hall) as (p' & -> & ? & ? & ? & ?).
    split_and!; [done|done|done|lia].
  - apply not_Forall_Exists, Exists_exists in Hne as (i & Hi & Hbad); [|intros ?; apply _].
    assert (∃ i, i ∈ ids ∧ (i < 0 ∨ num_total_blocks p <= i ∨ i ∈ free p)) as Hex.
    { exists i. split; [done|]. destruct (decide (i ∈ free p)); [naive_solver|].
      destruct (decide (i < 0)); [naive_solver|]. right; left.
      destruct (decide (num_total_blocks p <= i)); [done|]. destruct Hbad. split; [lia|done]. }
    destruct (recycle_err p ids Hex) as [e ->]. split; [done|by eexists].
Qed.

Definition pool_2_lent : Mempool :=
  match allocate_blocks 2 (fresh 4) with Ok (_, p) => p | Raise _ => fresh 4 end.

Lemma recycle_blocks_spec_witness :
  wf pool_2_lent ∧ is_ok (recycle_blocks [1; 0; 1] pool_2_lent) = true ∧
  is_ok (recycle_blocks [2] pool_2_lent) = false ∧
  match recycle_blocks [1; 0; 1] pool_2_lent with
  | Ok p' =>
      (∀ i, i ∈ [1; 0; 1] → 0 <= i < num_total_blocks pool_2_lent ∧ i ∉ free pool_2_lent) ∧
      wf p' ∧ free p' = free pool_2_lent ∪ list_to_set [1; 0; 1] ∧
      num_used_blocks p' = num_used_blocks pool_2_lent - Z.of_nat (size (list_to_set [1; 0; 1] : gset Z))
  | Raise e =>
      (∃ i, i ∈ [1; 0; 1] ∧ (i < 0 ∨ num_total_blocks pool_2_lent <= i ∨ i ∈ free pool_2_lent)) ∧
      ∃ msg, e = ValueError msg
  end.
Proof.
  assert (H : wf pool_2_lent).
  { destruct (allocate_ok (fresh 4) 2) as (ids & p' & E & Hw & _).
    - apply fresh_wf. lia.
    - simpl. lia.
    - unfold pool_2_lent. rewrite E. exact Hw. }
  split; [exact H|]. split; [vm_compute; reflexivity|]. split; [vm_compute; reflexivity|].
  exact (recycle_blocks_spec pool_2_lent [1; 0; 1] H).
Defined.

(** Ownership: after any sequence of allocations, recyclings and resets
    starting from a fresh pool, whatever their arguments (rejected calls
    included), each block id of the tier is either free in the pool or lent
    to a client, never both and never lost. *)
Theorem pool_ownership n ops :
  0 < n → partition n (run (fresh n, ∅) ops).
Proof.
  intros Hn. assert (partition n (fresh n, ∅)) as H0.
  { destruct (fresh_wf n Hn) as [? Hf]. split_and!; simpl; [done|done|set_solver|].
    rewrite Hf. set_solver. }
  revert H0. generalize (fresh n, ∅ : gset Z). unfold run.
  induction ops as [|o ops IH]; intros s Hs; simpl; [done|]. by apply IH, step_partition.
Qed.

Lemma pool_ownership_witness :
  0 < 4 ∧ partition 4 (run (fresh 4, ∅) [Alloc 3; Recycle [1]; Alloc 2; Recycle [9]; Alloc 5]).
Proof.
  split; [lia|].
  exact (pool_ownership 4 [Alloc 3; Recycle [1]; Alloc 2; Recycle [9]; Alloc 5] ltac:(lia)).
Defined.

End Mempool.
