(* ===== verification/SWAHostPool.v ===== *)
(** * SWAHostPool: slot-id allocator for SWA pages

    Models [flexkv/swa/swa_host_pool.py].  The free list is a Python list used
    as a stack: [pop()] takes the last element, [append] pushes. *)

From S2P Require Import Prelude.
Local Open Scope Z_scope.

Module SWAHostPool.

Record SWAHostPool : Type := mkSWAHostPool {
  _num_slots : Z;
  _free_slots : list Z;
}.

(** [list(range(n - 1, -1, -1))] *)
Definition all_slots (n : Z) : list Z := reverse (seqZ 0 n).

Definition init (num_slots : Z) : SWAHostPool :=
  {| _num_slots := num_slots; _free_slots := all_slots num_slots |}.

Definition allocate (p : SWAHostPool) : option Z * SWAHostPool :=
  match last (_free_slots p) with
  | None => (None, p)
  | Some slot => (Some slot, {| _num_slots := _num_slots p;
                                _free_slots := take (length (_free_slots p) - 1) (_free_slots p) |})
  end.

Definition free (slot_id : Z) (p : SWAHostPool) : result SWAHostPool :=
  if (slot_id <? 0) || (_num_slots p <=? slot_id) then Raise (ValueError "Invalid SWA slot id")
  else if bool_decide (slot_id ∈ _free_slots p) then Ok p
  else Ok {| _num_slots := _num_slots p; _free_slots := _free_slots p ++ [slot_id] |}.

Definition reset (p : SWAHostPool) : SWAHostPool :=
  {| _num_slots := _num_slots p; _free_slots := all_slots (_num_slots p) |}.

Definition num_free (p : SWAHostPool) : Z := zlen (_free_slots p).
Definition num_used (p : SWAHostPool) : Z := _num_slots p - num_free p.

(** ** Invariant *)

Record wf (p : SWAHostPool) : Prop := {
  wf_nodup : NoDup (_free_slots p);
  wf_range : ∀ i, i ∈ _free_slots p → 0 <= i < _num_slots p;
}.

Definition free_set (p : SWAHostPool) : gset Z := list_to_set (_free_slots p).
Definition all_set (n : Z) : gset Z := list_to_set (seqZ 0 n).

Lemma elem_of_all_set n i : i ∈ all_set n ↔ 0 <= i < n.
Proof. unfold all_set. rewrite elem_of_list_to_set, elem_of_seqZ. lia. Qed.

Lemma elem_of_all_slots n i : i ∈ all_slots n ↔ 0 <= i < n.
Proof. unfold all_slots. rewrite elem_of_reverse, elem_of_seqZ. lia. Qed.

Lemma swa_init_wf n : wf (init n) ∧ free_set (init n) = all_set n.
Proof.
  split; [split; simpl|].
  - unfold all_slots. rewrite reverse_Permutation. apply NoDup_seqZ.
  - intros i. apply elem_of_all_slots.
  - apply set_eq. intros i. unfold free_set. simpl.
    by rewrite elem_of_list_to_set, elem_of_all_slots, elem_of_all_set.
Qed.

Lemma reset_init p : reset p = init (_num_slots p).
Proof. done. Qed.

Lemma allocate_cases p :
  wf p →
  match allocate p with
  | (None, p') => p' = p ∧ _free_slots p = []
  | (Some s, p') => wf p' ∧ _num_slots p' = _num_slots p ∧ s ∈ free_set p ∧
                    free_set p' = free_set p ∖ {[s]} ∧ num_free p' = num_free p - 1
  end.
Proof.
  intros [Hnd Hr]. unfold allocate. destruct (last (_free_slots p)) as [s|] eqn:E.
  2:{ by apply last_None in E. }
  apply last_Some in E as [l El]. unfold free_set, num_free, zlen in *. rewrite El in *.
  rewrite length_app. simpl. replace (length l + 1 - 1)%nat with (length l) by lia.
  rewrite take_app_length.
  apply NoDup_app in Hnd as (Hl & Hdis & _).
  split_and!; simpl.
  - split; simpl; [done|]. intros i Hi. apply Hr, elem_of_app. by left.
  - done.
  - rewrite elem_of_list_to_set, elem_of_app, list_elem_of_singleton. by right.
  - apply set_eq. intros i. rewrite elem_of_difference, !elem_of_list_to_set, elem_of_app,
      list_elem_of_singleton, elem_of_singleton.
    specialize (Hdis i). rewrite list_elem_of_singleton in Hdis. naive_solver.
  - lia.
Qed.

Lemma free_cases p s :
  wf p →
  match free s p with
  | Raise e => ¬ (0 <= s < _num_slots p) ∧ e = ValueError "Invalid SWA slot id"
  | Ok p' => 0 <= s < _num_slots p ∧ wf p' ∧ _num_slots p' = _num_slots p ∧
             free_set p' = free_set p ∪ {[s]}
  end.
Proof.
  intros [Hnd Hr]. unfold free.
  destruct (Z.ltb_spec s 0); simpl; [split; [lia|done]|].
  destruct (Z.leb_spec (_num_slots p) s); [split; [lia|done]|].
  case_bool_decide as Hin.
  - split_and!; [lia|lia|by split|done|]. unfold free_set. set_solver.
  - split_and!; [lia|lia| |done|unfold free_set; simpl; set_solver].
    split; simpl.
    + apply NoDup_app. split_and!; [done| |apply NoDup_singleton].
      intros x Hx ->%list_elem_of_singleton. done.
    + intros i [Hi|Hi]%elem_of_app; [by apply Hr|].
      apply list_elem_of_singleton in Hi as ->. lia.
Qed.

(** ** State machine with the slots lent to clients *)
Inductive op : Type := Allocate | Free (slot : Z) | Reset.

Definition step (s : SWAHostPool * gset Z) (o : op) : SWAHostPool * gset Z :=
  let '(p, held) := s in
  match o with
  | Allocate => match allocate p with
                | (Some i, p') => (p', held ∪ {[i]})
                | (None, p') => (p', held)
                end
  | Free i => match free i p with Ok p' => (p', held ∖ {[i]}) | Raise _ => s end
  | Reset => (reset p, ∅)
  end.

Definition partition (n : Z) (s : SWAHostPool * gset Z) : Prop :=
  wf s.1 ∧ _num_slots s.1 = n ∧ free_set s.1 ## s.2 ∧ free_set s.1 ∪ s.2 = all_set n.

Lemma swa_step_partition n s o : partition n s → partition n (step s o).
Proof.
  destruct s as [p held]. intros (Hwf & Hn & Hd & Hu). simpl in *. destruct o as [|i|]; simpl.
  - pose proof (allocate_cases p Hwf) as H. destruct (allocate p) as [[i|] p'].
    + destruct H as (? & ? & Hin & Hf & ?). split_and!; simpl; [done|congruence|set_solver|].
      rewrite Hf, <- Hu. apply set_eq. intros j. destruct (decide (j = i)); set_solver.
    + destruct H as [-> ?]. by split_and!.
  - pose proof (free_cases p i Hwf) as H. destruct (free i p) as [p'|e]; [|by split_and!].
    destruct H as (Hi & ? & ? & Hf). split_and!; simpl; [done|congruence|set_solver|].
    rewrite Hf, <- Hu. apply set_eq. intros j.
    destruct (decide (j = i)) as [->|]; [|set_solver].
    assert (i ∈ free_set p ∪ held) by (rewrite Hu, elem_of_all_set; lia). set_solver.
  - rewrite reset_init, Hn. destruct (swa_init_wf n) as [? Hf].
    split_and!; simpl; [done|done|set_solver|]. rewrite Hf. set_solver.
Qed.

(** SWA slots: after any sequence of [allocate], [free] (also of slots
    that are already free, or out of range) and [reset], every slot id is
    either on the free list exactly once or lent out; so two live allocations
    never share a slot and no slot leaks. *)
Theorem swa_pool_ownership n ops :
  let s := foldl step (init n, ∅) ops in
  NoDup (_free_slots s.1) ∧ free_set s.1 ## s.2 ∧ free_set s.1 ∪ s.2 = all_set n.
Proof.
  assert (partition n (init n, ∅)) as H0.
  { destruct (swa_init_wf n) as [? Hf]. split_and!; simpl; [done|done|set_solver|]. rewrite Hf. set_solver. }
  assert (partition n (foldl step (init n, ∅) ops)) as ([? _] & _ & ? & ?); [|done].
  revert H0. generalize (init n, ∅ : gset Z).
  induction ops as [|o ops IH]; intros s Hs; simpl; [done|]. by apply IH, swa_step_partition.
Qed.

End SWAHostPool.
