(* ===== verification/Block.v ===== *)
(** * Prefix hashing and the block view of a token sequence

    Models [flexkv/common/hash_utils.py] and [flexkv/common/block.py], with the
    loop of [gen_hashes] from [csrc/hash.cpp].  The streaming digest itself is
    the xxhash library: it is the parameter [XXH64], a function of the int64
    words fed to the state since its last reset (every array the code feeds,
    namespace bytes included, is an int64 array).

    [PrefixHash] is the interface the radix tree relies on; [gen_hashes_chained]
    discharges it for a digest without collisions, the assumption
    [hash_utils.py] documents. *)

From S2P Require Import Prelude.
From Stdlib Require Import Ascii.
Local Open Scope Z_scope.

(** ** What the hashing layer promises to an index

    A block hash stands for a whole prefix: it determines the hash of the
    prefix one block shorter ([ph_pred], [None] for the first block). *)
Class PrefixHash : Type := {
  ph_pred : Z → option Z;
  ph_depth : Z → nat;
  ph_pred_depth : ∀ h g, ph_pred h = Some g → (ph_depth g < ph_depth h)%nat;
}.

Section chained.
Context `{!PrefixHash}.

(** [l] is a run of consecutive prefix hashes continuing [prev]. *)
Fixpoint chained (prev : option Z) (l : list Z) : Prop :=
  match l with
  | [] => True
  | h :: l' => ph_pred h = prev ∧ chained (Some h) l'
  end.

(** The last hash of a run, or what came before an empty one. *)
Definition last_or (prev : option Z) (l : list Z) : option Z :=
  match last l with Some h => Some h | None => prev end.

Lemma last_or_cons prev h l : last_or prev (h :: l) = last_or (Some h) l.
Proof. unfold last_or. rewrite last_cons. by destruct (last l). Qed.

Lemma chained_app prev l k :
  chained prev (l ++ k) ↔ chained prev l ∧ chained (last_or prev l) k.
Proof.
  revert prev. induction l as [|h l IH]; intros prev; simpl; [naive_solver|].
  rewrite IH, last_or_cons. naive_solver.
Qed.

Lemma chained_lookup_pred prev l i h :
  chained prev l → l !! i = Some h →
  ph_pred h = match i with O => prev | S j => l !! j end.
Proof.
  revert prev i. induction l as [|h' l IH]; intros prev i; [done|].
  intros [Hp Hc]. destruct i as [|i]; simpl; [naive_solver|].
  intros Hi. rewrite (IH _ _ Hc Hi). by destruct i.
Qed.
End chained.

(** ** hash_utils.py *)
Section hashing.
Context (XXH64 : list Z → Z).

(** The C++ hasher state, as the words fed to it. *)
Definition Hasher : Type := list Z.
Definition hasher_reset (h : Hasher) : Hasher := [].
Definition hasher_update (array : list Z) (h : Hasher) : Hasher := h ++ array.
Definition hasher_digest (h : Hasher) : Z := XXH64 h.

(** Both functions share the module-level [_HASHER], passed and returned. *)
Definition hash_array (array : list Z) (_HASHER : Hasher) : Z * Hasher :=
  let s := hasher_update array (hasher_reset _HASHER) in (hasher_digest s, s).

Definition hash_array_with_prefix (array : list Z) (prefix : Z) (_HASHER : Hasher) : Z * Hasher :=
  let s := hasher_update array (hasher_update [prefix] (hasher_reset _HASHER)) in
  (hasher_digest s, s).

(** The loop of [csrc/hash.cpp]: [n] more blocks, starting at token [i * tokens_per_block]. *)
Fixpoint gen_hashes_loop (n i : nat) (token_ids : list Z) (tokens_per_block : nat) (h : Hasher) : list Z :=
  match n with
  | O => []
  | S n' =>
      let h' := hasher_update (take tokens_per_block (drop (i * tokens_per_block) token_ids)) h in
      hasher_digest h' :: gen_hashes_loop n' (S i) token_ids tokens_per_block h'
  end.

Definition gen_hashes (token_ids : list Z) (tokens_per_block : nat) (h : Hasher) : list Z :=
  gen_hashes_loop (length token_ids / tokens_per_block) 0 token_ids tokens_per_block h.

(** ** block.py *)

(** Strings are their UTF-8 bytes. *)
Definition utf8 (s : string) : list Z := (λ c, Z.of_nat (nat_of_ascii c)) <$> String.list_ascii_of_string s.

(** The bytes of ["\x00".join(namespace)]. *)
Fixpoint join_nul (namespace : list string) : list Z :=
  match namespace with
  | [] => []
  | [s] => utf8 s
  | s :: rest => utf8 s ++ 0 :: join_nul rest
  end.

Definition _get_namespace_hash_key (namespace : option (list string)) : option (list Z) :=
  match namespace with
  | None | Some [] => None
  | Some ns => Some (join_nul ns)
  end.

Definition hash_token (token_ids : list Z) (namespace : option (list string)) : Z :=
  let h := hasher_reset [] in
  let h := match _get_namespace_hash_key namespace with
           | Some key => hasher_update key h
           | None => h
           end in
  hasher_digest (hasher_update token_ids h).

Definition hex_digit (d : Z) : ascii :=
  ascii_of_nat (Z.to_nat (if d <? 10 then 48 + d else 87 + d)).

(** [f"{x:016x}"] for [0 <= x < 2^64]: sixteen digits, most significant first. *)
Fixpoint hex_digits (n : nat) (x : Z) : list ascii :=
  match n with
  | O => []
  | S n' => hex_digits n' (Z.shiftr x 4) ++ [hex_digit (Z.land x 15)]
  end.

Definition format_block_hash (value : option Z) : string :=
  match value with
  | None => "-"
  | Some v => String.append "0x" (String.string_of_list_ascii (hex_digits 16 (Z.land v (Z.ones 64))))
  end.

Record SequenceMeta : Type := mkSequenceMeta {
  token_ids : list Z;
  tokens_per_block : nat;
  block_hashes : list Z;
  _has_hashes : bool;
  namespace_id : option Z;
  _namespace : option (list string);
}.

Definition num_blocks (s : SequenceMeta) : nat := length (token_ids s) / tokens_per_block s.

(** Returns the hasher and the new [namespace_id]. *)
Definition _create_initialized_hasher (s : SequenceMeta) : Hasher * option Z :=
  let h := hasher_reset [] in
  match _get_namespace_hash_key (_namespace s) with
  | Some key => let h := hasher_update key h in (h, Some (hasher_digest h))
  | None => (h, namespace_id s)
  end.

Definition SequenceMeta_gen_hashes (s : SequenceMeta) : SequenceMeta :=
  if _has_hashes s then s
  else
    let '(h, nid) := _create_initialized_hasher s in
    {| token_ids := token_ids s; tokens_per_block := tokens_per_block s;
       block_hashes := gen_hashes (token_ids s) (tokens_per_block s) h;
       _has_hashes := true; namespace_id := nid; _namespace := _namespace s |}.

Definition SequenceMeta_init (ids : list Z) (tpb : nat) (ns : option (list string)) : result SequenceMeta :=
  py_assert (bool_decide (0 < tpb)%nat) ;;
  mret (SequenceMeta_gen_hashes
          {| token_ids := ids; tokens_per_block := tpb; block_hashes := [];
             _has_hashes := false; namespace_id := None; _namespace := ns |}).

Definition get_hash (s : SequenceMeta) (block_id : nat) : option Z :=
  if decide (num_blocks s <= block_id)%nat then None else block_hashes s !! block_id.
End hashing.

(** ** Lemmas *)
Section hashing_lemmas.
Context (XXH64 : list Z → Z).
Local Abbreviation gen_hashes := (gen_hashes XXH64).
Local Abbreviation gen_hashes_loop := (gen_hashes_loop XXH64).

Lemma length_gen_hashes_loop n i ts tpb h : length (gen_hashes_loop n i ts tpb h) = n.
Proof. revert i h. induction n as [|n IH]; intros i h; simpl; [done|]. by rewrite IH. Qed.

Lemma length_gen_hashes ts tpb h : length (gen_hashes ts tpb h) = (length ts / tpb)%nat.
Proof. apply length_gen_hashes_loop. Qed.

Lemma gen_hashes_loop_lookup n i ts tpb h j :
  (j < n)%nat → ((i + n) * tpb <= length ts)%nat →
  gen_hashes_loop n i ts tpb h !! j = Some (XXH64 (h ++ take (S j * tpb) (drop (i * tpb) ts))).
Proof.
  revert i h j. induction n as [|n IH]; intros i h j Hj Hlen; [lia|]. simpl.
  destruct j as [|j]; simpl.
  - unfold hasher_digest, hasher_update. by rewrite Nat.add_0_r.
  - rewrite IH by lia. unfold hasher_update. rewrite <- app_assoc. do 3 f_equal.
    replace (S i * tpb)%nat with (i * tpb + tpb)%nat by lia. rewrite <- drop_drop.
    set (k := drop (i * tpb) ts).
    rewrite <- (take_drop tpb k) at 3. rewrite take_app_ge by (rewrite length_take; lia).
    f_equal. rewrite length_take. f_equal.
    assert (tpb <= length k)%nat by (unfold k; rewrite length_drop; nia). lia.
Qed.

Lemma gen_hashes_lookup ts tpb h j :
  (j < length ts / tpb)%nat →
  gen_hashes ts tpb h !! j = Some (XXH64 (h ++ take (S j * tpb) ts)).
Proof.
  intros Hj. unfold Block.gen_hashes. rewrite gen_hashes_loop_lookup.
  - by rewrite drop_0.
  - done.
  - simpl. destruct tpb as [|tpb]; [simpl in Hj; lia|].
    rewrite Nat.mul_comm. apply Nat.Div0.mul_div_le.
Qed.

(** *** The interface instance for a collision-free digest *)
Section prefix_hash.
Context (unhash : Z → option (list Z)) (base : list Z) (tpb : nat) (Htpb : (0 < tpb)%nat).

Definition digest_pred (h : Z) : option Z :=
  match unhash h with
  | Some s => if decide (length base + tpb < length s)%nat
              then Some (XXH64 (take (length s - tpb) s)) else None
  | None => None
  end.

Definition digest_depth (h : Z) : nat := match unhash h with Some s => length s | None => 0 end.

Lemma digest_pred_depth (Hinv : ∀ s, unhash (XXH64 s) = Some s) h g :
  digest_pred h = Some g → (digest_depth g < digest_depth h)%nat.
Proof.
  unfold digest_pred, digest_depth. destruct (unhash h) as [s|]; [|done].
  case_decide; [|done]. intros [= <-]. rewrite Hinv, length_take. lia.
Qed.

Definition digest_PrefixHash (Hinv : ∀ s, unhash (XXH64 s) = Some s) : PrefixHash :=
  {| ph_pred := digest_pred; ph_depth := digest_depth; ph_pred_depth := digest_pred_depth Hinv |}.

Lemma chained_of_lookup `{!PrefixHash} prev l :
  (∀ i h, l !! i = Some h → ph_pred h = match i with O => prev | S j => l !! j end) →
  chained prev l.
Proof.
  revert prev. induction l as [|h l IH]; intros prev Hl; simpl; [done|]. split.
  - by apply (Hl 0%nat).
  - apply IH. intros i g Hg. rewrite (Hl (S i) g Hg). by destruct i.
Qed.

Lemma gen_hashes_chained_lemma (Hinv : ∀ s, unhash (XXH64 s) = Some s) ts :
  @chained (digest_PrefixHash Hinv) None (gen_hashes ts tpb base).
Proof.
  apply (@chained_of_lookup (digest_PrefixHash Hinv)). intros i h Hi.
  assert (i < length ts / tpb)%nat as Hl.
  { apply lookup_lt_Some in Hi. by rewrite length_gen_hashes in Hi. }
  rewrite gen_hashes_lookup in Hi by done. injection Hi as <-.
  assert (length ts / tpb * tpb <= length ts)%nat.
  { rewrite Nat.mul_comm. apply Nat.Div0.mul_div_le. }
  assert (S i * tpb <= length ts)%nat as Hle by nia.
  simpl. unfold digest_pred. rewrite Hinv, length_app, length_take_le by lia.
  destruct i as [|i].
  - rewrite decide_False by lia. done.
  - rewrite decide_True by lia. rewrite gen_hashes_lookup by lia. do 2 f_equal.
    rewrite take_app_ge by lia. f_equal. rewrite take_take. f_equal. lia.
Qed.
End prefix_hash.
End hashing_lemmas.

(** ** Namespace keys *)

Lemma utf8_inj s t : utf8 s = utf8 t → s = t.
Proof.
  unfold utf8. intros H.
  assert (String.list_ascii_of_string s = String.list_ascii_of_string t) as E.
  { revert H. generalize (String.list_ascii_of_string t) (String.list_ascii_of_string s).
    intros k l. revert k. induction l as [|a l IH]; intros [|b k]; csimpl; try done.
    intros [= Ha Hl]. f_equal; [|by apply IH].
    apply Nat2Z.inj in Ha. rewrite <- (ascii_nat_embedding a), <- (ascii_nat_embedding b). by rewrite Ha. }
  rewrite <- (String.string_of_list_ascii_of_string s), <- (String.string_of_list_ascii_of_string t).
  by rewrite E.
Qed.

(** A component without NUL bytes. *)
Definition nul_free (s : string) : Prop := 0 ∉ utf8 s.

Lemma app_nul_inj (a b : list Z) k l :
  0 ∉ a → 0 ∉ b → a ++ 0 :: k = b ++ 0 :: l → a = b ∧ k = l.
Proof.
  revert b. induction a as [|x a IH]; intros [|y b]; simpl; rewrite ?not_elem_of_cons.
  - naive_solver.
  - intros _ [? _] [= <- _]. done.
  - intros [? _] _ [= -> _]. done.
  - intros [? ?] [? ?] [= -> Happ]. apply IH in Happ; naive_solver.
Qed.

Lemma join_nul_inj ns ns' :
  Forall nul_free ns → Forall nul_free ns' → ns ≠ [] → ns' ≠ [] →
  join_nul ns = join_nul ns' → ns = ns'.
Proof.
  intros Hf. revert ns'. induction Hf as [|s ns Hs Hns IH]; [done|].
  intros ns' Hf' _ Hne' Hj. destruct Hf' as [|s' ns' Hs' Hns']; [done|].
  destruct ns as [|t ns], ns' as [|t' ns']; simpl in Hj.
  - f_equal. by apply utf8_inj.
  - destruct Hs. rewrite Hj. apply elem_of_app. right. left.
  - destruct Hs'. rewrite <- Hj. apply elem_of_app. right. left.
  - apply app_nul_inj in Hj as [Hs1 Hj]; [|done..].
    apply utf8_inj in Hs1 as ->. f_equal. by apply (IH (t' :: ns')).
Qed.

(** A namespace as the code accepts it: absent, or NUL-free components that are
    not all empty. *)
Definition ns_ok (ns : option (list string)) : Prop :=
  match ns with
  | None => True
  | Some l => l ≠ [] ∧ Forall nul_free l ∧ join_nul l ≠ []
  end.

Definition namespace_bytes (ns : option (list string)) : list Z :=
  default [] (_get_namespace_hash_key ns).

Lemma namespace_bytes_inj ns ns' :
  ns_ok ns → ns_ok ns' → namespace_bytes ns = namespace_bytes ns' → ns = ns'.
Proof.
  unfold namespace_bytes, ns_ok.
  destruct ns as [[|s l]|], ns' as [[|s' l']|]; try naive_solver.
  intros (_ & Hf & _) (_ & Hf' & _) Hj. f_equal. by apply join_nul_inj.
Qed.

(** ** SequenceMeta lemmas *)
Section sequence_meta.
Context (XXH64 : list Z → Z).

Lemma SequenceMeta_init_hashes ids tpb ns s :
  SequenceMeta_init XXH64 ids tpb ns = Ok s →
  (0 < tpb)%nat ∧ token_ids s = ids ∧ tokens_per_block s = tpb ∧ _has_hashes s = true ∧
  block_hashes s = gen_hashes XXH64 ids tpb (namespace_bytes ns).
Proof.
  unfold SequenceMeta_init, py_assert. case_bool_decide; [|done].
  intros [= <-]. unfold SequenceMeta_gen_hashes, namespace_bytes, _create_initialized_hasher. simpl.
  by destruct (_get_namespace_hash_key ns).
Qed.

Lemma SequenceMeta_init_ok ids tpb ns :
  (0 < tpb)%nat → ∃ s, SequenceMeta_init XXH64 ids tpb ns = Ok s.
Proof. intros. unfold SequenceMeta_init, py_assert. rewrite bool_decide_eq_true_2 by done. by eexists. Qed.

Lemma get_hash_init ids tpb ns s i :
  SequenceMeta_init XXH64 ids tpb ns = Ok s →
  get_hash s i = if decide (i < length ids / tpb)%nat
                 then Some (XXH64 (namespace_bytes ns ++ take (S i * tpb) ids)) else None.
Proof.
  intros (Ht & Hi & Hp & _ & Hh)%SequenceMeta_init_hashes.
  unfold get_hash, num_blocks. rewrite Hi, Hp, Hh.
  destruct (decide (length ids / tpb <= i)%nat); [by rewrite decide_False by lia|].
  rewrite decide_True by lia. by apply gen_hashes_lookup; lia.
Qed.
End sequence_meta.

(** ** Hex formatting lemmas *)

Lemma hex_digit_inj a b : 0 <= a < 16 → 0 <= b < 16 → hex_digit a = hex_digit b → a = b.
Proof.
  intros Ha Hb H. apply (f_equal nat_of_ascii) in H. unfold hex_digit in H.
  rewrite !nat_ascii_embedding in H; [|repeat case_match; lia..].
  destruct (Z.ltb_spec a 10), (Z.ltb_spec b 10); lia.
Qed.

Lemma length_hex_digits n x : length (hex_digits n x) = n.
Proof. revert x. induction n as [|n IH]; intros x; simpl; [done|]. rewrite length_app, IH. simpl. lia. Qed.

Lemma hex_digits_inj n x y :
  0 <= x < 16 ^ Z.of_nat n → 0 <= y < 16 ^ Z.of_nat n → hex_digits n x = hex_digits n y → x = y.
Proof.
  revert x y. induction n as [|n IH]; intros x y Hx Hy.
  { change (16 ^ Z.of_nat 0) with 1 in *. lia. }
  rewrite Nat2Z.inj_succ, Z.pow_succ_r in Hx, Hy by lia. simpl.
  change 15 with (Z.ones 4). rewrite !Z.land_ones, !Z.shiftr_div_pow2 by lia.
  change (2 ^ 4) with 16. intros [Hd Hl]%app_inj_tail.
  apply hex_digit_inj in Hl; [|apply Z.mod_pos_bound; lia..].
  apply IH in Hd; [|split; [apply Z.div_pos; lia|apply Z.div_lt_upper_bound; lia]..].
  rewrite (Z.div_mod x 16), (Z.div_mod y 16) by lia. lia.
Qed.

Lemma string_of_list_ascii_inj l k :
  String.string_of_list_ascii l = String.string_of_list_ascii k → l = k.
Proof.
  intros H. rewrite <- (String.list_ascii_of_string_of_list_ascii l), H.
  apply String.list_ascii_of_string_of_list_ascii.
Qed.

Lemma length_string_of_list_ascii l : String.length (String.string_of_list_ascii l) = length l.
Proof. induction l as [|a l IH]; simpl; by rewrite ?IH. Qed.

(** ** Properties *)

(** A digest without collisions, used by the witnesses only. *)
Definition toy_digest (words : list Z) : Z := Zpos (encode words).
Definition toy_undigest (h : Z) : option (list Z) :=
  match h with Zpos p => decode p | _ => None end.

Lemma toy_undigest_digest s : toy_undigest (toy_digest s) = Some s.
Proof. apply decode_encode. Qed.

(** Construction of the block view: with a positive block size it succeeds,
    has one hash per complete block (the ragged tail is ignored), and hash [i]
    digests the namespace key followed by the tokens of blocks [0..i]; past the
    last complete block [get_hash] answers [None]. *)
Theorem sequence_meta_spec XXH64 ids tpb ns :
  (0 < tpb)%nat →
  ∃ s, SequenceMeta_init XXH64 ids tpb ns = Ok s ∧
    length (block_hashes s) = num_blocks s ∧ num_blocks s = (length ids / tpb)%nat ∧
    ∀ i, get_hash s i =
      if decide (i < num_blocks s)%nat
      then Some (XXH64 (namespace_bytes ns ++ take (S i * tpb) ids)) else None.
Proof.
  intros Ht. destruct (SequenceMeta_init_ok XXH64 ids tpb ns Ht) as [s Hs]. exists s.
  destruct (SequenceMeta_init_hashes _ _ _ _ _ Hs) as (_ & Hi & Hp & _ & Hh).
  assert (num_blocks s = (length ids / tpb)%nat) as Hn by (unfold num_blocks; by rewrite Hi, Hp).
  split_and!; [done|by rewrite Hh, length_gen_hashes|done|].
  intros i. rewrite Hn. by apply get_hash_init.
Qed.

Lemma sequence_meta_spec_witness :
  (0 < 2)%nat ∧
  ∃ s, SequenceMeta_init toy_digest [1; 2; 3; 4; 5] 2 (Some ["ns"%string]) = Ok s ∧
    length (block_hashes s) = num_blocks s ∧ num_blocks s = (length [1; 2; 3; 4; 5] / 2)%nat ∧
    ∀ i, get_hash s i =
      if decide (i < num_blocks s)%nat
      then Some (toy_digest (namespace_bytes (Some ["ns"%string]) ++ take (S i * 2) [1; 2; 3; 4; 5])) else None.
Proof.
  split; [lia|].
  exact (sequence_meta_spec toy_digest [1; 2; 3; 4; 5] 2 (Some ["ns"%string]) ltac:(lia)).
Defined.

(** What a block hash identifies: for sequences cut with the same block size,
    if the digest has no collisions, two hashes at the same block index are equal
    exactly when the namespaces are equal and the token prefixes up to the end of
    that block are equal.  So equal prefixes share cache entries and different
    namespaces never do. *)
Theorem block_hash_identifies XXH64 ids ids' tpb ns ns' s s' i :
  Inj (=) (=) XXH64 → ns_ok ns → ns_ok ns' →
  SequenceMeta_init XXH64 ids tpb ns = Ok s →
  SequenceMeta_init XXH64 ids' tpb ns' = Ok s' →
  (i < num_blocks s)%nat → (i < num_blocks s')%nat →
  get_hash s i = get_hash s' i ↔ ns = ns' ∧ take (S i * tpb) ids = take (S i * tpb) ids'.
Proof.
  intros Hinj Hns Hns' Hs Hs' Hi Hi'.
  assert (∀ s ids ns, SequenceMeta_init XXH64 ids tpb ns = Ok s → num_blocks s = (length ids / tpb)%nat) as Hnb.
  { intros ??? (_ & H1 & H2 & _)%SequenceMeta_init_hashes. unfold num_blocks. by rewrite H1, H2. }
  rewrite (Hnb _ _ _ Hs) in Hi. rewrite (Hnb _ _ _ Hs') in Hi'.
  rewrite (get_hash_init _ _ _ _ _ _ Hs), (get_hash_init _ _ _ _ _ _ Hs'), !decide_True by done.
  split; [|by intros [-> ->]]. intros [= [Hk Ht]%Hinj%app_inj_2].
  - split; [|done]. by apply namespace_bytes_inj.
  - assert (∀ l : list Z, (i < length l / tpb)%nat → length (take (S i * tpb) l) = (S i * tpb)%nat) as Hl.
    { intros l Hl. rewrite length_take_le; [done|].
      etrans; [|apply (Nat.Div0.mul_div_le _ tpb)]. rewrite Nat.mul_comm.
      apply Nat.mul_le_mono_l. lia. }
    by rewrite !Hl.
Qed.

Lemma block_hash_identifies_witness :
  ∃ s s', SequenceMeta_init toy_digest [1; 2; 3; 4] 2 (Some ["a"%string]) = Ok s ∧
    SequenceMeta_init toy_digest [1; 2; 3; 4; 7] 2 (Some ["b"%string]) = Ok s' ∧
    get_hash s 1 ≠ get_hash s' 1.
Proof.
  eexists _, _. split; [reflexivity|]. split; [reflexivity|]. intros H.
  apply (block_hash_identifies toy_digest [1; 2; 3; 4] [1; 2; 3; 4; 7] 2
           (Some ["a"%string]) (Some ["b"%string]) _ _ 1) in H.
  - destruct H as [H _]. discriminate H.
  - intros a b Hab. apply (f_equal toy_undigest) in Hab.
    rewrite !toy_undigest_digest in Hab. congruence.
  - split; [done|]. split; [|done]. constructor; [|constructor]. unfold nul_free. rewrite list_elem_of_In. vm_compute. intros [Hz|[]]. discriminate Hz.
  - split; [done|]. split; [|done]. constructor; [|constructor]. unfold nul_free. rewrite list_elem_of_In. vm_compute. intros [Hz|[]]. discriminate Hz.
  - reflexivity.
  - reflexivity.
  - apply Nat.ltb_lt. vm_compute. reflexivity.
  - apply Nat.ltb_lt. vm_compute. reflexivity.
Defined.

(** The hashes of any sequence hashed from a given namespace key form a chain of
    prefix hashes: with a collision-free digest, [gen_hashes] implements the
    [PrefixHash] interface the radix index is verified against. *)
Theorem gen_hashes_chained XXH64 unhash (Hinv : ∀ s, unhash (XXH64 s) = Some s) base tpb
    (Htpb : (0 < tpb)%nat) ts :
  @chained (digest_PrefixHash XXH64 unhash base tpb Htpb Hinv) None (gen_hashes XXH64 ts tpb base).
Proof. apply gen_hashes_chained_lemma. Qed.

Lemma gen_hashes_chained_witness :
  ∃ Htpb : (0 < 2)%nat,
  @chained (digest_PrefixHash toy_digest toy_undigest [7] 2 Htpb toy_undigest_digest) None
    (gen_hashes toy_digest [1; 2; 3; 4; 5] 2 [7]).
Proof.
  exists (Nat.lt_0_succ 1).
  exact (gen_hashes_chained toy_digest toy_undigest toy_undigest_digest [7] 2 (Nat.lt_0_succ 1) [1; 2; 3; 4; 5]).
Defined.

(** [format_block_hash] prints a fixed 18 characters and two hashes print alike
    exactly when they are the same 64-bit word, whether read as signed or unsigned. *)
Theorem format_block_hash_spec v w :
  String.length (format_block_hash (Some v)) = 18%nat ∧
  (format_block_hash (Some v) = format_block_hash (Some w) ↔ v mod 2 ^ 64 = w mod 2 ^ 64).
Proof.
  unfold format_block_hash. split.
  { assert (∀ t, String.length (String.append "0x" t) = S (S (String.length t))) as -> by done.
    by rewrite length_string_of_list_ascii, length_hex_digits. }
  rewrite !Z.land_ones by lia. split; [|by intros ->].
  assert (∀ t u, String.append "0x" t = String.append "0x" u → t = u) as Happ by (by intros t u [=]).
  intros H%Happ. apply string_of_list_ascii_inj, hex_digits_inj in H; [done|..];
    apply (Z.mod_pos_bound _ (2 ^ 64)); lia.
Qed.
