(* ===== verification/RingBuffer.v ===== *)
(** * SharedOpPool: shared-memory slots for the block ids of transfer ops

    Models [flexkv/common/ring_buffer.py] ([SharedOpPool]); its clients
    [register_op_to_buffer] and [free_op_from_buffer] are in [TransferEngine].
    A slot is shared by every op with the same block ids and
    is returned when its reference count drops to zero.

    [allocate_slot] is split as the code splits it: [allocate_locked] is the
    critical section, [copy_ids] the write to shared memory after the lock is
    released. *)

From S2P Require Import Prelude Block.
Local Open Scope Z_scope.

Module RingBuffer.

Record SharedOpPool : Type := mkSharedOpPool {
  max_op_num : Z;
  max_block_num : Z;
  buffer : list (list Z);
  free_slots : list Z;
  slot_map : list (Z * Z);
  slot_ref_count : list Z;
  slot_hashes : list Z;
}.

(** [rows] is what [torch.empty] happens to contain. *)
Definition init (max_op_num max_block_num : Z) (rows : list (list Z)) : SharedOpPool :=
  {| max_op_num := max_op_num; max_block_num := max_block_num; buffer := rows;
     free_slots := seqZ 0 max_op_num; slot_map := [];
     slot_ref_count := replicate (Z.to_nat max_op_num) 0;
     slot_hashes := replicate (Z.to_nat max_op_num) 0 |}.

(** Python indexing [l[i]]: a negative index counts from the end. *)
Definition py_index {A} (l : list A) (i : Z) : option nat :=
  let j := if i <? 0 then i + zlen l else i in
  if (0 <=? j) && (j <? zlen l) then Some (Z.to_nat j) else None.

Section pool.
Context (XXH64 : list Z → Z).

Definition slot_hash_of (block_ids : list Z) (device_type_prefix : Z) : Z :=
  if device_type_prefix =? 0 then (hash_array XXH64 block_ids []).1
  else (hash_array_with_prefix XXH64 block_ids device_type_prefix []).1.

(** The part of [allocate_slot] under [self.lock]: the slot (or -1) and whether it is reused. *)
Definition allocate_locked (slot_hash : Z) (p : SharedOpPool) : (Z * bool) * SharedOpPool :=
  let take_slot slot_id free map :=
    {| max_op_num := max_op_num p; max_block_num := max_block_num p; buffer := buffer p;
       free_slots := free; slot_map := map;
       slot_ref_count := alter (λ c, c + 1) (Z.to_nat slot_id) (slot_ref_count p);
       slot_hashes := <[Z.to_nat slot_id := slot_hash]> (slot_hashes p) |} in
  match dict_get slot_hash (slot_map p) with
  | Some slot_id => ((slot_id, true), take_slot slot_id (free_slots p) (slot_map p))
  | None =>
      match free_slots p with
      | [] => ((-1, true), p)
      | slot_id :: rest =>
          ((slot_id, false), take_slot slot_id rest (dict_set slot_hash slot_id (slot_map p)))
      end
  end.

(** [self.buffer[slot_id, :num_blocks] = block_ids] *)
Definition copy_ids (slot_id : Z) (block_ids : list Z) (p : SharedOpPool) : SharedOpPool :=
  {| max_op_num := max_op_num p; max_block_num := max_block_num p;
     buffer := alter (λ row, block_ids ++ drop (length block_ids) row) (Z.to_nat slot_id) (buffer p);
     free_slots := free_slots p; slot_map := slot_map p;
     slot_ref_count := slot_ref_count p; slot_hashes := slot_hashes p |}.

Definition allocate_slot (block_ids : list Z) (device_type_prefix : Z) (p : SharedOpPool) : Z * SharedOpPool :=
  let num_blocks := zlen block_ids in
  if (max_block_num p <? num_blocks) || (num_blocks =? 0) then (-1, p)
  else
    let slot_hash := slot_hash_of block_ids device_type_prefix in
    let '((slot_id, reuse), p') := allocate_locked slot_hash p in
    if reuse then (slot_id, p') else (slot_id, copy_ids slot_id block_ids p').
End pool.

Definition free_slot (slot_id : Z) : M SharedOpPool unit :=
  p ← get_state;
  match py_index (slot_hashes p) slot_id with
  | None => raise IndexError
  | Some i =>
      let slot_hash := default 0 (slot_hashes p !! i) in
      if negb (dict_mem slot_hash (slot_map p))
      then raise (RuntimeError "Slot is not in use, double free detected!")
      else
        let c := default 0 (slot_ref_count p !! i) - 1 in
        put_state {| max_op_num := max_op_num p; max_block_num := max_block_num p;
                     buffer := buffer p; free_slots := free_slots p; slot_map := slot_map p;
                     slot_ref_count := <[i := c]> (slot_ref_count p);
                     slot_hashes := slot_hashes p |} ;;
        assertM (0 <=? c) ;;
        if c =? 0 then
          modify_state (λ p,
            {| max_op_num := max_op_num p; max_block_num := max_block_num p; buffer := buffer p;
               free_slots := free_slots p ++ [slot_id];
               slot_map := dict_pop slot_hash (slot_map p);
               slot_ref_count := slot_ref_count p; slot_hashes := slot_hashes p |})
        else mret tt
  end.

(** [status()]: used, free and capacity. *)
Definition status (p : SharedOpPool) : Z * Z * Z :=
  let used := zlen (slot_map p) in (used, max_op_num p - used, max_op_num p).

(** ** Invariant *)

Definition ref_of (p : SharedOpPool) (s : Z) : Z := default 0 (slot_ref_count p !! Z.to_nat s).

Record wf (p : SharedOpPool) : Prop := {
  wf_map : dict_wf (slot_map p);
  wf_refs : zlen (slot_ref_count p) = max_op_num p;
  wf_hashes : zlen (slot_hashes p) = max_op_num p;
  wf_used : ∀ h s, dict_get h (slot_map p) = Some s →
    0 <= s < max_op_num p ∧ slot_hashes p !! Z.to_nat s = Some h ∧ 0 < ref_of p s ∧ s ∉ free_slots p;
  wf_free_nodup : NoDup (free_slots p);
  wf_free : ∀ s, s ∈ free_slots p → 0 <= s < max_op_num p ∧ ref_of p s = 0;
  wf_cover : ∀ s, 0 <= s < max_op_num p →
    s ∈ free_slots p ∨ ∃ h, dict_get h (slot_map p) = Some s;
}.

(** Every mapped slot holds the ids it was hashed from. *)
Definition slot_holds (p : SharedOpPool) (s : Z) (ids : list Z) : Prop :=
  ∃ row, buffer p !! Z.to_nat s = Some row ∧ take (length ids) row = ids.

Definition rows_ok (p : SharedOpPool) : Prop :=
  zlen (buffer p) = max_op_num p ∧ Forall (λ row, zlen row = max_block_num p) (buffer p).

Definition content_ok XXH64 (p : SharedOpPool) : Prop :=
  ∀ h s, dict_get h (slot_map p) = Some s →
    ∃ ids pfx, pfx ≠ 0 ∧ h = slot_hash_of XXH64 ids pfx ∧ slot_holds p s ids.

(** ** Lemmas *)

Lemma slot_map_inj p h h' s :
  wf p → dict_get h (slot_map p) = Some s → dict_get h' (slot_map p) = Some s → h = h'.
Proof.
  intros Hwf (_ & H1 & _)%(wf_used _ Hwf) (_ & H2 & _)%(wf_used _ Hwf). congruence.
Qed.

Lemma py_index_nonneg {A} (l : list A) s : 0 <= s < zlen l → py_index l s = Some (Z.to_nat s).
Proof.
  intros. unfold py_index. destruct (Z.ltb_spec s 0); [lia|].
  destruct (Z.leb_spec 0 s); [|lia]. by destruct (Z.ltb_spec s (zlen l)); [|lia].
Qed.

Lemma alter_ref (l : list Z) s t c :
  0 <= t < zlen l → 0 <= s →
  default 0 (alter (λ x, x + c) (Z.to_nat t) l !! Z.to_nat s) =
  default 0 (l !! Z.to_nat s) + (if decide (s = t) then c else 0).
Proof.
  unfold zlen. intros Ht Hs. case_decide as Hd.
  - subst. rewrite list_lookup_alter_eq. destruct (lookup_lt_is_Some_2 l (Z.to_nat t)) as [x ->]; [lia|done].
  - rewrite list_lookup_alter_ne by lia. lia.
Qed.

Lemma ref_of_lookup p s : wf p → 0 <= s < max_op_num p → slot_ref_count p !! Z.to_nat s = Some (ref_of p s).
Proof.
  intros Hwf Hs. unfold ref_of. pose proof (wf_refs _ Hwf). unfold zlen in *.
  destruct (lookup_lt_is_Some_2 (slot_ref_count p) (Z.to_nat s)) as [x ->]; [lia|done].
Qed.

Lemma zlen_insert {A} (l : list A) i x : zlen (<[i := x]> l) = zlen l.
Proof. unfold zlen. by rewrite length_insert. Qed.
Lemma zlen_alter {A} (f : A → A) (l : list A) i : zlen (alter f i l) = zlen l.
Proof. unfold zlen. by rewrite length_alter. Qed.

Lemma insert_hash_same (l : list Z) t s x :
  0 <= t < zlen l → 0 <= s → <[Z.to_nat t := x]> l !! Z.to_nat s = if decide (s = t) then Some x else l !! Z.to_nat s.
Proof.
  unfold zlen. intros. case_decide; subst.
  - apply list_lookup_insert_eq. lia.
  - apply list_lookup_insert_ne. lia.
Qed.

(** The critical section on its three branches. *)
Lemma allocate_locked_spec p h :
  wf p →
  match allocate_locked h p with
  | ((s, true), p') =>
      (s = -1 ∧ p' = p ∧ free_slots p = [] ∧ dict_get h (slot_map p) = None) ∨
      (dict_get h (slot_map p) = Some s ∧ wf p' ∧ slot_map p' = slot_map p ∧
       ref_of p' s = ref_of p s + 1)
  | ((s, false), p') =>
      dict_get h (slot_map p) = None ∧ s ∈ free_slots p ∧ wf p' ∧
      slot_map p' = dict_set h s (slot_map p) ∧ ref_of p' s = 1
  end ∧ buffer (allocate_locked h p).2 = buffer p ∧
        max_op_num (allocate_locked h p).2 = max_op_num p ∧
        max_block_num (allocate_locked h p).2 = max_block_num p.
Proof.
  intros Hwf. unfold allocate_locked. pose proof (wf_refs _ Hwf) as Hlr. pose proof (wf_hashes _ Hwf) as Hlh.
  destruct (dict_get h (slot_map p)) as [s|] eqn:Eh; simpl.
  - destruct (wf_used _ Hwf _ _ Eh) as (Hr & Hh & Hpos & Hnf). split; [|done]. right.
    split_and!; [done| |done|].
    2:{ unfold ref_of at 1. simpl. rewrite alter_ref by lia. rewrite decide_True by done. done. }
    split; simpl; try apply Hwf; rewrite ?zlen_alter, ?zlen_insert; try done.
    + intros h' s' Hs'. destruct (wf_used _ Hwf _ _ Hs') as (? & ? & ? & ?).
      unfold ref_of. simpl. rewrite insert_hash_same, alter_ref by lia. fold (ref_of p s').
      split_and!; [lia|lia| |case_decide; lia|done].
      case_decide; subst; [|done]. f_equal. by eapply slot_map_inj.
    + intros s' Hs'. destruct (wf_free _ Hwf _ Hs') as [? ?]. split; [done|].
      unfold ref_of. simpl. rewrite alter_ref by lia. fold (ref_of p s').
      rewrite decide_False by naive_solver. lia.
  - destruct (free_slots p) as [|s rest] eqn:Ef; [split; [by left|done]|]. simpl.
    assert (s ∈ free_slots p) as Hsf by (rewrite Ef; left).
    destruct (wf_free _ Hwf _ Hsf) as [Hr H0].
    pose proof (wf_free_nodup _ Hwf) as Hnd. rewrite Ef in Hnd. apply NoDup_cons in Hnd as [Hsr Hnd].
    split; [|done]. split_and!; [done|left| |done|].
    2:{ unfold ref_of. simpl. rewrite alter_ref, decide_True by (lia || done). fold (ref_of p s). lia. }
    split; simpl; rewrite ?zlen_alter, ?zlen_insert; try done.
    + by apply dict_wf_set, Hwf.
    + intros h' s' Hs'. unfold ref_of. simpl. destruct (decide (h = h')) as [<-|Hne].
      * rewrite dict_get_set_eq in Hs'. injection Hs' as <-.
        rewrite insert_hash_same, alter_ref, !decide_True by (lia || done). fold (ref_of p s).
        split_and!; [lia|lia|done|lia|done].
      * rewrite dict_get_set_ne in Hs' by done.
        destruct (wf_used _ Hwf _ _ Hs') as (? & ? & ? & Hnf).
        assert (s' ≠ s) by (intros ->; done). rewrite Ef, not_elem_of_cons in Hnf.
        rewrite insert_hash_same, alter_ref, !decide_False by (lia || done). fold (ref_of p s').
        split_and!; [lia|lia|done|lia|naive_solver].
    + intros s' Hs'. assert (s' ∈ free_slots p) as Hin by (rewrite Ef; by right).
      destruct (wf_free _ Hwf _ Hin) as [? ?]. split; [done|]. unfold ref_of. simpl.
      rewrite alter_ref, decide_False by (lia || (intros ->; done)). fold (ref_of p s'). lia.
    + intros s' Hs'. destruct (decide (s' = s)) as [->|Hne].
      * right. exists h. apply dict_get_set_eq.
      * destruct (wf_cover _ Hwf _ Hs') as [Hin|[h' Hh']].
        -- left. rewrite Ef in Hin. apply elem_of_cons in Hin as [?|?]; done.
        -- right. exists h'. rewrite dict_get_set_ne; [done|]. intros ->. congruence.
Qed.

(** The reference counts after the critical section. *)
Lemma allocate_locked_refs p h s :
  wf p → 0 <= s < max_op_num p →
  (allocate_locked h p).1.1 ≠ -1 →
  ref_of (allocate_locked h p).2 s = ref_of p s + (if decide (s = (allocate_locked h p).1.1) then 1 else 0).
Proof.
  intros Hwf Hs. pose proof (wf_refs _ Hwf) as Hlr. unfold allocate_locked.
  destruct (dict_get h (slot_map p)) as [t|] eqn:Eh; simpl.
  - destruct (wf_used _ Hwf _ _ Eh) as (? & _). intros _. unfold ref_of. simpl. by rewrite alter_ref by lia.
  - destruct (free_slots p) as [|t rest] eqn:Ef; [done|]. intros _.
    destruct (wf_free _ Hwf t) as [? _]; [rewrite Ef; left|]. unfold ref_of. simpl. by rewrite alter_ref by lia.
Qed.

Lemma slot_hash_of_prefix XXH64 ids pfx : pfx ≠ 0 → slot_hash_of XXH64 ids pfx = XXH64 (pfx :: ids).
Proof. intros. unfold slot_hash_of. by rewrite (proj2 (Z.eqb_neq pfx 0)). Qed.

Lemma wf_init n m rows : 0 <= n → wf (init n m rows).
Proof.
  intros Hn. assert (∀ s : Z, 0 <= s < n → ref_of (init n m rows) s = 0) as H0.
  { intros s Hs. unfold ref_of. simpl. by rewrite lookup_replicate_2 by lia. }
  split; simpl; try done.
  - apply NoDup_nil_2.
  - unfold zlen. rewrite length_replicate. lia.
  - unfold zlen. rewrite length_replicate. lia.
  - apply NoDup_seqZ.
  - intros s Hs%elem_of_seqZ. split; [lia|]. apply H0. lia.
  - intros s Hs. left. apply elem_of_seqZ. lia.
Qed.

(** [free_slot] of a mapped slot: the reference count drops, and the last
    reference returns the slot to the free list. *)
Lemma free_slot_used p h s :
  wf p → dict_get h (slot_map p) = Some s →
  ∃ p', free_slot s p = (Ok tt, p') ∧ wf p' ∧ buffer p' = buffer p ∧
    max_op_num p' = max_op_num p ∧ max_block_num p' = max_block_num p ∧
    (∀ t, 0 <= t < max_op_num p → ref_of p' t = ref_of p t - (if decide (t = s) then 1 else 0)) ∧
    slot_map p' = (if decide (ref_of p s = 1) then dict_pop h (slot_map p) else slot_map p).
Proof.
  intros Hwf Hh. destruct (wf_used _ Hwf _ _ Hh) as (Hr & Hsh & Hpos & Hnf).
  pose proof (wf_refs _ Hwf) as Hlr. pose proof (wf_hashes _ Hwf) as Hlh.
  assert (∀ t, 0 <= t < max_op_num p →
    default 0 (<[Z.to_nat s := ref_of p s - 1]> (slot_ref_count p) !! Z.to_nat t) =
    ref_of p t - (if decide (t = s) then 1 else 0)) as Href.
  { intros t Ht. rewrite insert_hash_same by lia. case_decide as Hd; subst; simpl; [done|].
    fold (ref_of p t). lia. }
  unfold free_slot. rewrite M_bind_run. simpl.
  rewrite py_index_nonneg, Hsh by lia. simpl. unfold dict_mem.
  rewrite Hh, bool_decide_eq_true_2 by by eexists. simpl.
  rewrite M_bind_run. unfold put_state at 1. rewrite M_bind_run. fold (ref_of p s).
  unfold assertM, lift_result, py_assert. rewrite (proj2 (Z.leb_le 0 (ref_of p s - 1))) by lia.
  destruct (Z.eqb_spec (ref_of p s - 1) 0) as [E|E].
  - eexists. split; [reflexivity|]. rewrite decide_True by lia. split; [|by split_and!].
    split; simpl; rewrite ?zlen_insert; try done.
    + by apply dict_wf_pop, Hwf.
    + intros h' s' Hs'. destruct (decide (h = h')) as [<-|Hne].
      { rewrite dict_get_pop_eq in Hs'; [done|apply Hwf]. }
      rewrite dict_get_pop_ne in Hs' by done.
      destruct (wf_used _ Hwf _ _ Hs') as (? & ? & ? & Hnf').
      assert (s' ≠ s) by (intros ->; by rewrite (slot_map_inj _ _ _ _ Hwf Hh Hs') in Hne).
      unfold ref_of; simpl. rewrite Href, decide_False by done.
      split_and!; [lia|lia|done|lia|]. rewrite elem_of_app, list_elem_of_singleton. naive_solver.
    + apply NoDup_app. split_and!; [apply Hwf| |apply NoDup_singleton].
      intros x Hx ->%list_elem_of_singleton. done.
    + intros s' [Hs'|Hs']%elem_of_app.
      * destruct (wf_free _ Hwf _ Hs'). split; [done|]. unfold ref_of; simpl. rewrite Href by done.
        case_decide; [by subst|lia].
      * apply list_elem_of_singleton in Hs' as ->. split; [done|]. unfold ref_of; simpl.
        rewrite Href by done. rewrite decide_True; [lia|done].
    + intros t Ht. destruct (wf_cover _ Hwf _ Ht) as [Hin|[h' Hh']].
      * left. apply elem_of_app. by left.
      * destruct (decide (h = h')) as [<-|Hne].
        -- left. apply elem_of_app. right. apply list_elem_of_singleton. congruence.
        -- right. exists h'. by rewrite dict_get_pop_ne.
  - eexists. split; [reflexivity|]. rewrite decide_False by lia. split; [|by split_and!].
    split; simpl; rewrite ?zlen_insert; try done; try apply Hwf.
    + intros h' s' Hs'. destruct (wf_used _ Hwf _ _ Hs') as (? & ? & ? & ?).
      unfold ref_of; simpl. rewrite Href by done. split_and!; [lia|lia|done|case_decide; subst; lia|done].
    + intros s' Hs'. destruct (wf_free _ Hwf _ Hs'). split; [done|].
      unfold ref_of; simpl. rewrite Href by done. case_decide; [by subst|lia].
Qed.

(** ** Histories of the pool

    A client holds one handle per successful allocation and frees each handle
    once; [U] are the inputs the digest does not collide on. *)
Definition Handle : Type := Z * (Z * list Z).

Definition holders (held : list Handle) (s : Z) : Z := zlen (filter (λ x : Handle, x.1 = s) held).

Section history.
Context (XXH64 : list Z → Z) (U : list Z → Prop).

Inductive pool_reach : list Handle → SharedOpPool → Prop :=
  | reach_init n m rows :
      0 <= n → zlen rows = n → Forall (λ row, zlen row = m) rows →
      pool_reach [] (init n m rows)
  | reach_allocate held p ids pfx s p' :
      pool_reach held p → pfx ≠ 0 → U (pfx :: ids) →
      allocate_slot XXH64 ids pfx p = (s, p') →
      pool_reach (if decide (s = -1) then held else (s, (pfx, ids)) :: held) p'
  | reach_free held held' p x r p' :
      pool_reach held p → held ≡ₚ x :: held' →
      free_slot x.1 p = (r, p') →
      pool_reach held' p'.

(** What every reachable state satisfies. *)
Record owned (held : list Handle) (p : SharedOpPool) : Prop := {
  own_wf : wf p;
  own_rows : rows_ok p;
  own_refs : ∀ s, 0 <= s < max_op_num p → ref_of p s = holders held s;
  own_held : ∀ s pfx ids, (s, (pfx, ids)) ∈ held →
    pfx ≠ 0 ∧ U (pfx :: ids) ∧ dict_get (XXH64 (pfx :: ids)) (slot_map p) = Some s ∧ slot_holds p s ids;
}.

Lemma holders_cons x held s :
  holders (x :: held) s = holders held s + (if decide (x.1 = s) then 1 else 0).
Proof. unfold holders, zlen. rewrite filter_cons. case_decide; simpl; lia. Qed.

Lemma holders_perm held held' s : held ≡ₚ held' → holders held s = holders held' s.
Proof. unfold holders, zlen. by intros ->. Qed.

Lemma holders_pos held s : 0 < holders held s → ∃ pfx ids, (s, (pfx, ids)) ∈ held.
Proof.
  induction held as [|[s' [pfx ids]] held IH]; [done|]. rewrite holders_cons. simpl.
  case_decide as Hd; [subst; intros _; exists pfx, ids; left|].
  intros H. destruct IH as (? & ? & ?); [lia|]. do 2 eexists. right. done.
Qed.

Lemma holders_ge_in held s pfx ids : (s, (pfx, ids)) ∈ held → 0 < holders held s.
Proof.
  induction held as [|[s' [pfx' ids']] held IH]; [by intros ?%not_elem_of_nil|]. rewrite holders_cons.
  assert (0 <= holders held s) by (unfold holders; apply zlen_nonneg). simpl.
  intros [[= -> -> ->]|?%IH]%elem_of_cons; [rewrite decide_True by done; lia|case_decide; lia].
Qed.

Lemma copy_ids_wf p s ids : wf p → wf (copy_ids s ids p).
Proof. intros Hwf. split; apply Hwf. Qed.

Lemma copy_ids_rows p s ids : zlen ids <= max_block_num p → rows_ok p → rows_ok (copy_ids s ids p).
Proof.
  intros Hle [Hl Hr]. split; simpl; [by rewrite zlen_alter|].
  apply Forall_alter; [done|]. intros row Hrow Hz. rewrite zlen_app.
  unfold zlen in *. rewrite length_drop. lia.
Qed.

Lemma copy_ids_holds p s ids : rows_ok p → 0 <= s < max_op_num p → slot_holds (copy_ids s ids p) s ids.
Proof.
  intros [Hl _] Hs. unfold slot_holds. simpl. rewrite list_lookup_alter_eq. unfold zlen in Hl.
  destruct (lookup_lt_is_Some_2 (buffer p) (Z.to_nat s)) as [row ->]; [lia|].
  eexists. split; [done|]. by rewrite take_app_length.
Qed.

Lemma copy_ids_other p s t ids ids' :
  0 <= s → 0 <= t → s ≠ t → slot_holds p t ids' → slot_holds (copy_ids s ids p) t ids'.
Proof. intros ??? (row & Hrow & ?). exists row. simpl. by rewrite list_lookup_alter_ne by lia. Qed.

Lemma slot_holds_same p p' s ids : buffer p' = buffer p → slot_holds p s ids → slot_holds p' s ids.
Proof. unfold slot_holds. by intros ->. Qed.

Lemma allocate_slot_err held p ids pfx :
  owned held p → (max_block_num p <? zlen ids) || (zlen ids =? 0) = true →
  allocate_slot XXH64 ids pfx p = (-1, p).
Proof. unfold allocate_slot. by intros _ ->. Qed.

Lemma owned_free held held' p x :
  owned held p → held ≡ₚ x :: held' →
  ∃ p', free_slot x.1 p = (Ok tt, p') ∧ owned held' p'.
Proof.
  intros Ho Hp. destruct x as [s [pfx ids]]. destruct (own_held _ _ Ho s pfx ids) as (Hpfx & HU & Hm & Hh).
  { rewrite Hp. left. }
  pose proof (own_wf _ _ Ho) as Hwf.
  destruct (free_slot_used _ _ _ Hwf Hm) as (p' & Hf & Hwf' & Hb & Hmo & Hmb & Href & Hmap).
  exists p'. split; [done|].
  assert (∀ t, 0 <= t < max_op_num p → ref_of p' t = holders held' t) as Hrefs.
  { intros t Ht. rewrite Href, (own_refs _ _ Ho), (holders_perm _ _ _ Hp), holders_cons by done. simpl.
    destruct (decide (t = s)), (decide (s = t)); subst; try done; lia. }
  split; [done| |by rewrite Hmo|].
  { destruct (own_rows _ _ Ho). split; by rewrite Hb, ?Hmo, ?Hmb. }
  intros t q ids' Ht. destruct (own_held _ _ Ho t q ids') as (? & ? & Hm' & ?).
  { rewrite Hp. by right. }
  split_and!; [done|done| |by eapply slot_holds_same].
  rewrite Hmap. case_decide as Hone; [|done].
  destruct (wf_used _ Hwf _ _ Hm) as (Hr & _).
  rewrite dict_get_pop_ne; [done|]. intros Hne. rewrite Hne in Hm.
  assert (s = t) by congruence; subst.
  specialize (Hrefs t Hr). apply holders_ge_in in Ht.
  rewrite Href in Hrefs by done. rewrite decide_True in Hrefs by done. lia.
Qed.

Hypothesis U_inj : ∀ a b, U a → U b → XXH64 a = XXH64 b → a = b.

Lemma owned_allocate held p ids pfx s p' :
  owned held p → pfx ≠ 0 → U (pfx :: ids) → allocate_slot XXH64 ids pfx p = (s, p') →
  owned (if decide (s = -1) then held else (s, (pfx, ids)) :: held) p'.
Proof.
  intros Ho Hpfx HU. unfold allocate_slot.
  destruct (_ || _) eqn:Eg; [by intros [= <- <-]|].
  apply orb_false_iff in Eg as [Hle%Z.ltb_ge _].
  rewrite slot_hash_of_prefix by done.
  pose proof (own_wf _ _ Ho) as Hwf.
  pose proof (allocate_locked_spec p (XXH64 (pfx :: ids)) Hwf) as Hspec.
  pose proof (λ s, allocate_locked_refs p (XXH64 (pfx :: ids)) s Hwf) as Hrefs.
  destruct (allocate_locked _ p) as [[t reuse] p1] eqn:El. simpl in Hspec, Hrefs.
  destruct Hspec as (Hspec & Hb & Hmo & Hmb).
  destruct reuse.
  - intros [= <- <-]. destruct Hspec as [(-> & -> & _)|(Hm & Hwf1 & Hmap & _)]; [done|].
    destruct (wf_used _ Hwf _ _ Hm) as (Hr & _ & Hpos & _). rewrite decide_False by lia.
    split; [done| | |].
    + destruct (own_rows _ _ Ho). split; by rewrite Hb, ?Hmo, ?Hmb.
    + intros s' Hs'. rewrite Hmo in Hs'. rewrite Hrefs, holders_cons, (own_refs _ _ Ho) by (lia || done).
      simpl. destruct (decide (s' = t)), (decide (t = s')); subst; done.
    + intros s' q ids' [[= -> -> ->]|Hin]%elem_of_cons.
      * rewrite (own_refs _ _ Ho) in Hpos by done. apply holders_pos in Hpos as (q & ids'' & Hin).
        destruct (own_held _ _ Ho _ _ _ Hin) as (? & HU' & Hm' & Hh).
        assert (XXH64 (q :: ids'') = XXH64 (pfx :: ids)) as Hx by exact (slot_map_inj _ _ _ _ Hwf Hm' Hm).
        apply U_inj in Hx; [|done..].
        injection Hx as -> ->. rewrite Hmap. split_and!; [done..|]. by eapply slot_holds_same.
      * destruct (own_held _ _ Ho _ _ _ Hin) as (? & ? & ? & ?). rewrite Hmap.
        split_and!; [done..|]. by eapply slot_holds_same.
  - intros [= <- <-]. destruct Hspec as (Hn & Hin & Hwf1 & Hmap & _).
    destruct (wf_free _ Hwf _ Hin) as [Hr H0]. rewrite decide_False by lia.
    assert (rows_ok p1) as Hrows1 by (destruct (own_rows _ _ Ho); split; by rewrite Hb, ?Hmo, ?Hmb).
    split.
    + by apply copy_ids_wf.
    + apply copy_ids_rows; [lia|done].
    + simpl. intros s' Hs'. rewrite Hmo in Hs'. change (ref_of (copy_ids t ids p1) s') with (ref_of p1 s').
      rewrite Hrefs, holders_cons, (own_refs _ _ Ho) by (lia || done). simpl.
      destruct (decide (s' = t)), (decide (t = s')); subst; done.
    + simpl. intros s' q ids' [[= -> -> ->]|Hin']%elem_of_cons.
      * rewrite Hmap. split_and!; [done|done|apply dict_get_set_eq|]. apply copy_ids_holds; [done|lia].
      * destruct (own_held _ _ Ho _ _ _ Hin') as (? & ? & Hm' & ?).
        destruct (wf_used _ Hwf _ _ Hm') as (? & _ & _ & Hnf). rewrite Hmap.
        split_and!; [done|done| |].
        -- rewrite dict_get_set_ne; [done|]. intros He. rewrite He in Hn. congruence.
        -- apply copy_ids_other; [lia|lia|naive_solver|]. by eapply slot_holds_same.
Qed.

Lemma pool_reach_owned held p : pool_reach held p → owned held p.
Proof.
  induction 1 as [n m rows Hn Hl Hr|held p ids pfx s p' _ IH Hpfx HU Ha|held held' p x r p' _ IH Hp Hf].
  - split; [by apply wf_init|done| |by intros ??? ?%not_elem_of_nil].
    intros s Hs. simpl in Hs. unfold ref_of. simpl. by rewrite lookup_replicate_2 by lia.
  - by eapply owned_allocate.
  - destruct (owned_free _ _ _ _ IH Hp) as (p'' & Hf' & Ho). rewrite Hf' in Hf. injection Hf as _ <-. exact Ho.
Qed.
End history.

(** ** Properties *)

(** A client's slot keeps its block ids until the client frees it: after any
    history of allocations (with a device prefix) and of frees of held handles,
    every handle names an in-range slot whose row starts with the ids that were
    registered, freeing it succeeds, the reference count of a slot is the number of
    handles on it, and a slot is free exactly when nobody holds it.  The digest
    must not collide on the inputs that were registered. *)
Theorem shared_slot_safety XXH64 U (U_inj : ∀ a b, U a → U b → XXH64 a = XXH64 b → a = b) held p :
  pool_reach XXH64 U held p →
  (∀ s pfx ids, (s, (pfx, ids)) ∈ held →
     0 <= s < max_op_num p ∧ slot_holds p s ids ∧ (free_slot s p).1 = Ok tt) ∧
  (∀ s, 0 <= s < max_op_num p →
     ref_of p s = holders held s ∧ (s ∈ free_slots p ↔ ∀ pfx ids, (s, (pfx, ids)) ∉ held)) ∧
  NoDup (free_slots p).
Proof.
  intros Hr%(pool_reach_owned XXH64 U U_inj). pose proof (own_wf _ _ _ _ Hr) as Hwf.
  split_and!; [| |apply Hwf].
  - intros s pfx ids Hin. destruct (own_held _ _ _ _ Hr _ _ _ Hin) as (_ & _ & Hm & Hh).
    destruct (wf_used _ Hwf _ _ Hm) as (? & _).
    destruct (free_slot_used _ _ _ Hwf Hm) as (p' & Hf & _). split_and!; [lia..|done|by rewrite Hf].
  - intros s Hs. pose proof (own_refs _ _ _ _ Hr _ Hs) as Href. split; [done|]. split.
    + intros Hf pfx ids Hin%holders_ge_in. destruct (wf_free _ Hwf _ Hf). lia.
    + intros Hno. destruct (wf_cover _ Hwf _ Hs) as [|[h Hh]]; [done|].
      destruct (wf_used _ Hwf _ _ Hh) as (_ & _ & Hpos & _).
      rewrite Href in Hpos. apply holders_pos in Hpos as (? & ? & []%Hno).
Qed.

Lemma shared_slot_safety_witness :
  ∃ p, pool_reach toy_digest (λ _, True) [(0, (2, [7; 8])); (0, (2, [7; 8]))] p ∧
    ref_of p 0 = 2 ∧ slot_holds p 0 [7; 8] ∧ free_slots p = [1].
Proof.
  pose (p0 := init 2 3 [[0; 0; 9]; [0; 0; 9]]).
  pose (p1 := (allocate_slot toy_digest [7; 8] 2 p0).2).
  exists (allocate_slot toy_digest [7; 8] 2 p1).2.
  assert (pool_reach toy_digest (λ _, True) [] p0) as Hr0 by (apply reach_init; [done..|repeat constructor]).
  assert (pool_reach toy_digest (λ _, True) [(0, (2, [7; 8]))] p1) as Hr1.
  { apply (reach_allocate _ _ [] p0 [7; 8] 2 0); [exact Hr0|done..]. }
  assert (pool_reach toy_digest (λ _, True) [(0, (2, [7; 8])); (0, (2, [7; 8]))]
    (allocate_slot toy_digest [7; 8] 2 p1).2) as Hr.
  { apply (reach_allocate _ _ [(0, (2, [7; 8]))] p1 [7; 8] 2 0); [exact Hr1|done..]. }
  split; [exact Hr|].
  destruct (shared_slot_safety toy_digest (λ _, True)
    ltac:(intros a b _ _ Hab; apply (f_equal toy_undigest) in Hab; rewrite !toy_undigest_digest in Hab; congruence)
    _ _ Hr) as (H1 & H2 & _).
  split; [|split; [|vm_compute; reflexivity]].
  - rewrite (proj1 (H2 0 ltac:(vm_compute; split; [discriminate|reflexivity]))). reflexivity.
  - exact (proj1 (proj2 (H1 0 2 [7; 8] ltac:(left)))).
Defined.

(** Without a prefix the guarantee is lost even for a perfect digest: the ids
    [1; 7] registered with no prefix and the ids [7] registered with prefix 1 have
    the same key, so the second client is handed a slot that starts with 1. *)
Example prefix_zero_shares_slot :
  let p := (allocate_slot toy_digest [1; 7] 0 (init 2 2 [[0; 0]; [0; 0]])).2 in
  allocate_slot toy_digest [7] 1 p = (0, (allocate_slot toy_digest [7] 1 p).2) ∧
  buffer (allocate_slot toy_digest [7] 1 p).2 !! 0%nat = Some [1; 7].
Proof. vm_compute. done. Qed.

(** Freeing a slot that is not held is always refused: an index outside the
    table is an [IndexError]; for a free slot, the call raises the double-free error
    and changes nothing when the hash last recorded for the slot is not mapped, and
    otherwise (the same ids were registered again and live in another slot) the
    assertion on the count catches it, after the count was made negative. *)
Theorem free_slot_errors p s :
  wf p →
  (max_op_num p <= s → free_slot s p = (Raise IndexError, p)) ∧
  (s ∈ free_slots p → ∃ h p',
     slot_hashes p !! Z.to_nat s = Some h ∧
     free_slot s p =
       (Raise (if dict_mem h (slot_map p) then AssertionError
               else RuntimeError "Slot is not in use, double free detected!"), p') ∧
     (dict_get h (slot_map p) = None → p' = p) ∧
     (is_Some (dict_get h (slot_map p)) → ref_of p' s = -1)).
Proof.
  intros Hwf. pose proof (wf_hashes _ Hwf) as Hl. pose proof (wf_refs _ Hwf) as Hlr. split.
  - intros Hs. unfold free_slot. rewrite M_bind_run. simpl. unfold py_index. pose proof (zlen_nonneg (slot_hashes p)).
    destruct (Z.ltb_spec s 0); [lia|]. destruct (Z.ltb_spec s (zlen (slot_hashes p))); [lia|].
    by rewrite andb_false_r.
  - intros Hin. destruct (wf_free _ Hwf _ Hin) as [Hs H0].
    unfold free_slot. rewrite M_bind_run. simpl. rewrite py_index_nonneg by lia.
    destruct (lookup_lt_is_Some_2 (slot_hashes p) (Z.to_nat s)) as [h Hh]; [unfold zlen in Hl; lia|].
    rewrite Hh. simpl. exists h. unfold dict_mem. destruct (dict_get h (slot_map p)) as [t|] eqn:Eh.
    + rewrite bool_decide_eq_true_2 by by eexists. simpl. rewrite M_bind_run. simpl.
      fold (ref_of p s). rewrite H0. rewrite M_bind_run. simpl. eexists. split_and!; [done..|].
      intros _. unfold ref_of. simpl. rewrite insert_hash_same, decide_True by (lia || done). done.
    + rewrite bool_decide_eq_false_2 by (by intros []). simpl. eexists. by split_and!.
Qed.

Lemma free_slot_errors_witness :
  wf (init 2 2 [[0; 0]; [0; 0]]) ∧
  free_slot 2 (init 2 2 [[0; 0]; [0; 0]]) = (Raise IndexError, init 2 2 [[0; 0]; [0; 0]]).
Proof.
  assert (wf (init 2 2 [[0; 0]; [0; 0]])) as Hwf by (apply wf_init; lia).
  split; [exact Hwf|]. apply (free_slot_errors _ 2 Hwf). simpl. lia.
Defined.

End RingBuffer.
