(* ===== verification/Transfer.v ===== *)
(** * Transfer operations and their dependency graph

    Models [flexkv/common/transfer.py]: the enumerations, [CompletedOp],
    [TransferOp] (with its [LayerwiseTransferOp] extension) and
    [TransferOpGraph].  [BatchMerge] models the graph fusion of the same file,
    [Scheduler] the consumer of [take_ready_ops].

    Op and graph ids come from two class counters, here the record [Ids].
    Sets of op ids are [gset Z]; the order in which Python walks a set is the
    parameter [set_order].  Block-id arrays are lists of int64 values, so the
    dtype assertions of the constructors hold by typing. *)

From S2P Require Import Prelude.
Local Open Scope Z_scope.

Inductive DeviceType : Type := CPU | GPU | SSD | REMOTE | PEERCPU | PEERSSD.
#[export] Instance DeviceType_eq_dec : EqDecision DeviceType.
Proof. solve_decision. Defined.

Inductive TransferType : Type :=
  | H2D | D2H | DISK2H | H2DISK | DISK2D | D2DISK | REMOTE2H | H2REMOTE
  | PEERH2H | H2PEERH | PEERSSD2H | H2PEERSSD | VIRTUAL | LAYERWISE.
#[export] Instance TransferType_eq_dec : EqDecision TransferType.
Proof. solve_decision. Defined.

(** The member names, which [set_gpu_blocks] tests with [endswith("2D")]. *)
Definition transfer_type_name (t : TransferType) : string :=
  match t with
  | H2D => "H2D" | D2H => "D2H" | DISK2H => "DISK2H" | H2DISK => "H2DISK"
  | DISK2D => "DISK2D" | D2DISK => "D2DISK" | REMOTE2H => "REMOTE2H" | H2REMOTE => "H2REMOTE"
  | PEERH2H => "PEERH2H" | H2PEERH => "H2PEERH" | PEERSSD2H => "PEERSSD2H"
  | H2PEERSSD => "H2PEERSSD" | VIRTUAL => "VIRTUAL" | LAYERWISE => "LAYERWISE"
  end.

Definition endswith (suffix s : string) : bool :=
  (String.length suffix <=? String.length s)%nat &&
  String.eqb (String.substring (String.length s - String.length suffix) (String.length suffix) s) suffix.

Definition to_gpu (t : TransferType) : bool := endswith "2D" (transfer_type_name t).

Inductive TransferOpStatus : Type := PENDING | RUNNING | COMPLETED.
#[export] Instance TransferOpStatus_eq_dec : EqDecision TransferOpStatus.
Proof. solve_decision. Defined.

(** ** Completion messages *)
Record CompletedOp : Type := mkCompletedOp {
  co_graph_id : Z;
  co_op_id : Z;
  co_transfer_type : option string;
  co_num_blocks : Z;
  co_num_bytes : Z;
  co_block_results : option (list bool);
  co_failed : bool;
}.

Definition completed_op (graph_id op_id : Z) : CompletedOp :=
  {| co_graph_id := graph_id; co_op_id := op_id; co_transfer_type := None; co_num_blocks := 0;
     co_num_bytes := 0; co_block_results := None; co_failed := false |}.

Definition is_graph_completed (c : CompletedOp) : bool := (co_op_id c =? -1) && negb (co_failed c).
Definition is_graph_failed (c : CompletedOp) : bool := (co_op_id c =? -1) && co_failed c.
Definition to_tuple (c : CompletedOp) : Z * Z := (co_graph_id c, co_op_id c).
Definition from_tuple (data : Z * Z) : CompletedOp := completed_op data.1 data.2.
Definition completed_graph (graph_id : Z) : CompletedOp := completed_op graph_id (-1).
Definition failed_graph (graph_id : Z) : CompletedOp :=
  {| co_graph_id := graph_id; co_op_id := -1; co_transfer_type := None; co_num_blocks := 0;
     co_num_bytes := 0; co_block_results := None; co_failed := true |}.

Definition slice_blocks (offset count : Z) (c : CompletedOp) : result CompletedOp :=
  match co_block_results c with
  | None => Ok c
  | Some results =>
      let end_ := offset + count in
      if (offset <? 0) || (count <? 0) || (zlen results <? end_)
      then Raise (ValueError "Invalid completion slice")
      else Ok {| co_graph_id := co_graph_id c; co_op_id := co_op_id c;
                 co_transfer_type := co_transfer_type c; co_num_blocks := count;
                 co_num_bytes := co_num_bytes c;
                 co_block_results := Some (py_slice (Some offset) (Some end_) results);
                 co_failed := co_failed c |}
  end.

(** ** Operations *)

(** The extra arrays of a [LayerwiseTransferOp]. *)
Record LayerwiseFields : Type := mkLayerwiseFields {
  src_block_ids_h2d : list Z; dst_block_ids_h2d : list Z;
  src_block_ids_disk2h : list Z; dst_block_ids_disk2h : list Z;
  swa_src_block_ids_h2d : list Z; swa_dst_block_ids_h2d : list Z;
  swa_src_block_ids_disk2h : list Z; swa_dst_block_ids_disk2h : list Z;
  counter_id : Z;
}.

Record TransferOp : Type := mkTransferOp {
  op_id : Z;
  op_graph_id : Z;
  transfer_type : TransferType;
  src_block_ids : list Z;
  dst_block_ids : list Z;
  predecessors : gset Z;
  successors : gset Z;
  op_status : TransferOpStatus;
  dp_client_id : Z;
  src_slot_id : Z;
  dst_slot_id : Z;
  valid_block_num : Z;
  pending_count : Z;
  is_swa : bool;
  mooncake_store_block_hashes : option (list Z);
  mooncake_store_swa_block_hashes : option (list string);
  block_results : option (list bool);
  layerwise : option LayerwiseFields;
}.

Section op_updates.
Variable o : TransferOp.

Definition op_with_status s := mkTransferOp (op_id o) (op_graph_id o) (transfer_type o) (src_block_ids o)
  (dst_block_ids o) (predecessors o) (successors o) s (dp_client_id o) (src_slot_id o) (dst_slot_id o)
  (valid_block_num o) (pending_count o) (is_swa o) (mooncake_store_block_hashes o)
  (mooncake_store_swa_block_hashes o) (block_results o) (layerwise o).
Definition op_with_edges p s := mkTransferOp (op_id o) (op_graph_id o) (transfer_type o) (src_block_ids o)
  (dst_block_ids o) p s (op_status o) (dp_client_id o) (src_slot_id o) (dst_slot_id o)
  (valid_block_num o) (pending_count o) (is_swa o) (mooncake_store_block_hashes o)
  (mooncake_store_swa_block_hashes o) (block_results o) (layerwise o).
Definition op_with_blocks s d := mkTransferOp (op_id o) (op_graph_id o) (transfer_type o) s d
  (predecessors o) (successors o) (op_status o) (dp_client_id o) (src_slot_id o) (dst_slot_id o)
  (valid_block_num o) (pending_count o) (is_swa o) (mooncake_store_block_hashes o)
  (mooncake_store_swa_block_hashes o) (block_results o) (layerwise o).
Definition op_with_graph g t := mkTransferOp (op_id o) g t (src_block_ids o) (dst_block_ids o)
  (predecessors o) (successors o) (op_status o) (dp_client_id o) (src_slot_id o) (dst_slot_id o)
  (valid_block_num o) (pending_count o) (is_swa o) (mooncake_store_block_hashes o)
  (mooncake_store_swa_block_hashes o) (block_results o) (layerwise o).
End op_updates.

(** The class-level counters [TransferOp._next_op_id] and [TransferOpGraph._next_graph_id]. *)
Record Ids : Type := mkIds { _next_op_id : Z; _next_graph_id : Z }.

(** [TransferOp(...)] and its [__post_init__]: the sizes are checked before the id is drawn. *)
Definition TransferOp_init (graph_id : Z) (tt : TransferType) (src dst : list Z) (dp : Z) (swa : bool)
    (kv_hashes : option (list Z)) (swa_hashes : option (list string))
    (lw : option LayerwiseFields) : M Ids TransferOp :=
  (if negb (bool_decide (tt = VIRTUAL)) && negb (zlen src =? zlen dst)
   then raise (ValueError "src_block_ids and dst_block_ids must have the same number of physical blocks")
   else mret Datatypes.tt) ;;
  ids ← get_state;
  put_state {| _next_op_id := _next_op_id ids + 1; _next_graph_id := _next_graph_id ids |} ;;
  mret {| op_id := _next_op_id ids; op_graph_id := graph_id; transfer_type := tt;
          src_block_ids := src; dst_block_ids := dst; predecessors := ∅; successors := ∅;
          op_status := PENDING; dp_client_id := dp; src_slot_id := -1; dst_slot_id := -1;
          valid_block_num := zlen src; pending_count := 0; is_swa := swa;
          mooncake_store_block_hashes := kv_hashes; mooncake_store_swa_block_hashes := swa_hashes;
          block_results := None; layerwise := lw |}.

(** [LayerwiseTransferOp(...)]: the base constructor on empty arrays, then the size assertions. *)
Definition LayerwiseTransferOp_init (graph_id dp : Z) (f : LayerwiseFields) : M Ids TransferOp :=
  op ← TransferOp_init graph_id LAYERWISE [] [] dp false None None (Some f);
  assertM (zlen (src_block_ids_h2d f) =? zlen (dst_block_ids_h2d f)) ;;
  assertM (zlen (src_block_ids_disk2h f) =? zlen (dst_block_ids_disk2h f)) ;;
  assertM (zlen (swa_src_block_ids_h2d f) =? zlen (swa_dst_block_ids_h2d f)) ;;
  assertM (zlen (swa_src_block_ids_disk2h f) =? zlen (swa_dst_block_ids_disk2h f)) ;;
  mret op.

(** ** The graph *)
Record TransferOpGraph : Type := mkGraph {
  graph_id : Z;
  _op_map : list (Z * TransferOp);
  _ready_ops : gset Z;
  _trigger_ops : gset Z;
  _gpu_transfer_op_id : list Z;
  _swa_gpu_transfer_op_id : list Z;
}.

Definition with_map (f : list (Z * TransferOp) → list (Z * TransferOp)) (g : TransferOpGraph) : TransferOpGraph :=
  mkGraph (graph_id g) (f (_op_map g)) (_ready_ops g) (_trigger_ops g) (_gpu_transfer_op_id g) (_swa_gpu_transfer_op_id g).
Definition with_ready (f : gset Z → gset Z) (g : TransferOpGraph) : TransferOpGraph :=
  mkGraph (graph_id g) (_op_map g) (f (_ready_ops g)) (_trigger_ops g) (_gpu_transfer_op_id g) (_swa_gpu_transfer_op_id g).
Definition with_trigger (f : gset Z → gset Z) (g : TransferOpGraph) : TransferOpGraph :=
  mkGraph (graph_id g) (_op_map g) (_ready_ops g) (f (_trigger_ops g)) (_gpu_transfer_op_id g) (_swa_gpu_transfer_op_id g).
Definition with_gpu_lists (f h : list Z → list Z) (g : TransferOpGraph) : TransferOpGraph :=
  mkGraph (graph_id g) (_op_map g) (_ready_ops g) (_trigger_ops g) (f (_gpu_transfer_op_id g)) (h (_swa_gpu_transfer_op_id g)).

(** In-place mutation of the op stored under a key. *)
Definition alter_op (f : TransferOp → TransferOp) (k : Z) : TransferOpGraph → TransferOpGraph :=
  with_map (dict_alter f k).

Definition TransferOpGraph_init : M Ids TransferOpGraph :=
  ids ← get_state;
  put_state {| _next_op_id := _next_op_id ids; _next_graph_id := _next_graph_id ids + 1 |} ;;
  mret (mkGraph (_next_graph_id ids) [] ∅ ∅ [] []).

Definition set_graph_id (gid : Z) (g : TransferOpGraph) : TransferOpGraph :=
  mkGraph gid (_op_map g) (_ready_ops g) (_trigger_ops g) (_gpu_transfer_op_id g) (_swa_gpu_transfer_op_id g).

(** [self._op_map[op_id]] *)
Definition get_op (k : Z) : M TransferOpGraph TransferOp :=
  fun g => match dict_get k (_op_map g) with Some o => (Ok o, g) | None => (Raise KeyError, g) end.

Definition add_virtual_op (op : TransferOp) (need_trigger : bool) (g : TransferOpGraph) : TransferOpGraph :=
  let g := with_map (dict_set (op_id op) (op_with_graph op (graph_id g) VIRTUAL)) g in
  if need_trigger then with_trigger (λ s, {[op_id op]} ∪ s) g
  else with_ready (λ s, {[op_id op]} ∪ s) g.

Definition add_transfer_op (op : TransferOp) (g : TransferOpGraph) : TransferOpGraph :=
  let tt := transfer_type op in
  let g := with_map (dict_set (op_id op) (op_with_graph op (graph_id g) tt)) g in
  let g := if bool_decide (tt = H2D) || bool_decide (tt = D2H) || bool_decide (tt = D2DISK) || bool_decide (tt = DISK2D)
           then with_gpu_lists (λ l, l ++ [op_id op]) id g else g in
  let g := if is_swa op && (bool_decide (tt = H2D) || bool_decide (tt = D2H))
           then with_gpu_lists id (λ l, l ++ [op_id op]) g else g in
  with_ready (λ s, {[op_id op]} ∪ s) g.

Definition add_dependency (successor_op_id predecessor_op_id : Z) : M TransferOpGraph unit :=
  g ← get_state;
  assertM (dict_mem successor_op_id (_op_map g) && dict_mem predecessor_op_id (_op_map g)) ;;
  modify_state (alter_op (λ o, op_with_edges o ({[predecessor_op_id]} ∪ predecessors o) (successors o)) successor_op_id) ;;
  modify_state (alter_op (λ o, op_with_edges o (predecessors o) ({[successor_op_id]} ∪ successors o)) predecessor_op_id) ;;
  modify_state (with_ready (λ s, s ∖ {[successor_op_id]})).

(** How Python walks a set: some enumeration without repetition. *)
Class SetOrder : Type := {
  set_order : gset Z → list Z;
  set_order_perm : ∀ s, set_order s ≡ₚ elements s;
}.
#[export] Instance elements_order : SetOrder := {| set_order := elements; set_order_perm := λ s, Permutation_refl _ |}.

Section walks.
Context `{!SetOrder}.

(** [predecessors.remove(op_id)] of one successor. *)
Definition remove_predecessor (op_id : Z) (successor_id : Z) : M TransferOpGraph unit :=
  o ← get_op successor_id;
  if bool_decide (op_id ∈ predecessors o)
  then modify_state (alter_op (λ o, op_with_edges o (predecessors o ∖ {[op_id]}) (successors o)) successor_id)
  else raise KeyError.

Definition mark_completed (op_id : Z) : M TransferOpGraph unit :=
  g ← get_state;
  match dict_get op_id (_op_map g) with
  | None => mret tt
  | Some o =>
      assertM (bool_decide (op_status o = RUNNING)) ;;
      modify_state (alter_op (λ o, op_with_status o COMPLETED) op_id) ;;
      for_each (remove_predecessor op_id) (set_order (successors o))
  end.

Definition trigger_op (op_id : Z) : M TransferOpGraph unit :=
  g ← get_state;
  (if bool_decide (op_id ∈ _trigger_ops g) then modify_state (with_trigger (λ s, s ∖ {[op_id]})) else raise KeyError) ;;
  modify_state (with_ready (λ s, s ∖ {[op_id]})) ;;
  mark_completed op_id.

(** The locals [(ready_ops, to_remove, to_add)] of [take_ready_ops]. *)
Definition ReadyAcc : Type := list Z * list Z * list Z.

Definition start_op (op_id : Z) (acc : ReadyAcc) : M TransferOpGraph ReadyAcc :=
  let '(ready, rem, add) := acc in
  modify_state (alter_op (λ o, op_with_status o RUNNING) op_id) ;;
  mret (ready ++ [op_id], rem, add ++ [op_id]).

Definition visit_successor (acc : ReadyAcc) (successor_id : Z) : M TransferOpGraph ReadyAcc :=
  o ← get_op successor_id;
  if bool_decide (op_status o = PENDING) && (size (predecessors o) =? 0)%nat
  then start_op successor_id acc
  else mret acc.

Definition visit_ready (acc : ReadyAcc) (op_id : Z) : M TransferOpGraph ReadyAcc :=
  o ← get_op op_id;
  match op_status o with
  | COMPLETED =>
      let '(ready, rem, add) := acc in
      for_acc visit_successor (ready, rem ++ [op_id], add) (set_order (successors o))
  | PENDING => start_op op_id acc
  | RUNNING => mret acc
  end.

Definition take_ready_ops : M TransferOpGraph (list Z) :=
  g ← get_state;
  acc ← for_acc visit_ready ([], [], []) (set_order (_ready_ops g));
  let '(ready, rem, add) := acc in
  modify_state (with_ready (λ s, (s ∖ list_to_set rem) ∪ list_to_set add)) ;;
  mret ready.
End walks.

Definition all_transfer_ops_completed (g : TransferOpGraph) : bool :=
  forallb (λ kv : Z * TransferOp, bool_decide (op_status kv.2 = COMPLETED)) (_op_map g).

Definition num_ops (g : TransferOpGraph) : Z := zlen (_op_map g).

(** ** Binding of GPU block ids *)

(** The blocks of the GPU side of an op. *)
Definition gpu_side (o : TransferOp) : list Z := if to_gpu (transfer_type o) then dst_block_ids o else src_block_ids o.
Definition host_side (o : TransferOp) : list Z := if to_gpu (transfer_type o) then src_block_ids o else dst_block_ids o.
Definition with_gpu_side (blocks : list Z) (o : TransferOp) : TransferOp :=
  if to_gpu (transfer_type o) then op_with_blocks o (src_block_ids o) blocks
  else op_with_blocks o blocks (dst_block_ids o).

(** [target[-n:]] for the two GDS types, [target[:n]] for the others, with [n] the current size. *)
Definition bind_gpu_side (target : list Z) (o : TransferOp) : TransferOp :=
  let n := zlen (gpu_side o) in
  with_gpu_side
    (if bool_decide (transfer_type o = DISK2D) || bool_decide (transfer_type o = D2DISK)
     then py_slice (Some (- n)) None target else py_slice None (Some n) target) o.

Definition set_gpu_blocks_step (gpu_blocks : list Z) (swa_gpu_blocks : option (list Z))
    (swa_offset : Z) (k : Z) : M TransferOpGraph Z :=
  o ← get_op k;
  match is_swa o, swa_gpu_blocks with
  | true, None => mret swa_offset
  | true, Some swa =>
      let next := swa_offset + zlen (gpu_side o) in
      if zlen swa <? next then raise (ValueError "not enough SWA GPU blocks to bind op")
      else
        modify_state (alter_op (bind_gpu_side (py_slice (Some swa_offset) (Some next) swa)) k) ;;
        o ← get_op k;
        assertM (zlen (src_block_ids o) =? zlen (dst_block_ids o)) ;;
        mret next
  | false, _ =>
      modify_state (alter_op (bind_gpu_side gpu_blocks) k) ;;
      o ← get_op k;
      assertM (zlen (src_block_ids o) =? zlen (dst_block_ids o)) ;;
      mret swa_offset
  end.

Definition set_gpu_blocks (gpu_blocks : list Z) (swa_gpu_blocks : option (list Z)) : M TransferOpGraph unit :=
  g ← get_state;
  for_acc (set_gpu_blocks_step gpu_blocks swa_gpu_blocks) 0 (_gpu_transfer_op_id g) ;;
  mret tt.

Definition clear_gpu_blocks : M TransferOpGraph unit :=
  g ← get_state;
  for_each (λ k,
    o ← get_op k;
    if is_swa o then mret tt
    else modify_state (alter_op (λ o, op_with_blocks o [] []) k)) (_gpu_transfer_op_id g).

Definition set_swa_gpu_blocks (swa_gpu_blocks : list Z) : M TransferOpGraph unit :=
  g ← get_state;
  for_acc (λ offset k,
    o ← get_op k;
    let next := offset + zlen (gpu_side o) in
    if zlen swa_gpu_blocks <? next then raise (ValueError "not enough SWA GPU blocks to bind op")
    else
      modify_state (alter_op (with_gpu_side (py_slice (Some offset) (Some next) swa_gpu_blocks)) k) ;;
      o ← get_op k;
      assertM (zlen (src_block_ids o) =? zlen (dst_block_ids o)) ;;
      mret next) 0 (_swa_gpu_transfer_op_id g) ;;
  mret tt.

Definition clear_swa_gpu_blocks : M TransferOpGraph unit :=
  g ← get_state;
  for_each (λ k, o ← get_op k; modify_state (alter_op (with_gpu_side []) k)) (_swa_gpu_transfer_op_id g).

(** ** Invariant of a graph under execution *)

Abbreviation op_at g k := (dict_get k (_op_map g)).

(** An op that the next [take_ready_ops] must hand out. *)
Definition eligible (g : TransferOpGraph) (k : Z) : Prop :=
  ∃ o, op_at g k = Some o ∧ op_status o = PENDING ∧ predecessors o = ∅.

Record graph_wf (g : TransferOpGraph) : Prop := {
  gw_keys : dict_wf (_op_map g);
  gw_succ : ∀ k o s, op_at g k = Some o → s ∈ successors o → is_Some (op_at g s);
  (* a predecessor set lists exactly the unfinished sources of the edges into the op *)
  gw_pred : ∀ k o p, op_at g k = Some o →
    p ∈ predecessors o ↔ ∃ q, op_at g p = Some q ∧ k ∈ successors q ∧ op_status q ≠ COMPLETED;
  gw_started : ∀ k o, op_at g k = Some o → op_status o ≠ PENDING → predecessors o = ∅;
  gw_ready_dom : ∀ k, k ∈ _ready_ops g → is_Some (op_at g k);
  gw_ready_pending : ∀ k o, k ∈ _ready_ops g → op_at g k = Some o → predecessors o = ∅;
  gw_running : ∀ k o, op_at g k = Some o → op_status o = RUNNING → k ∈ _ready_ops g;
  (* no eligible op is forgotten: it is queued, or a finished predecessor of it is *)
  gw_eligible : ∀ k, eligible g k →
    k ∈ _ready_ops g ∨
    ∃ p q, p ∈ _ready_ops g ∧ op_at g p = Some q ∧ op_status q = COMPLETED ∧ k ∈ successors q;
}.

(** ** Lemmas on execution *)

Lemma op_at_with_map f g k : op_at (with_map f g) k = dict_get k (f (_op_map g)).
Proof. reflexivity. Qed.

Lemma with_map_comp f h g : with_map f (with_map h g) = with_map (λ m, f (h m)) g.
Proof. reflexivity. Qed.

Lemma get_op_run g k o : op_at g k = Some o → get_op k g = (Ok o, g).
Proof. unfold get_op. by intros ->. Qed.

Lemma op_with_edges_id o : op_with_edges o (predecessors o) (successors o) = o.
Proof. by destruct o. Qed.

Lemma graph_map_ext g m m' : m = m' → with_map (λ _, m) g = with_map (λ _, m') g.
Proof. by intros ->. Qed.

(** Changes of the ops of a graph, written as one rewriting of all of them. *)
Definition rewrite_ops (h : Z → TransferOp → TransferOp) (g : TransferOpGraph) : TransferOpGraph :=
  with_map (dmap h) g.

Lemma op_at_rewrite h g k : op_at (rewrite_ops h g) k = h k <$> op_at g k.
Proof. apply dict_get_dmap. Qed.

Lemma ready_rewrite h g : _ready_ops (rewrite_ops h g) = _ready_ops g.
Proof. reflexivity. Qed.

Lemma rewrite_ops_ext h h' g :
  dict_wf (_op_map g) → (∀ k o, op_at g k = Some o → h k o = h' k o) → rewrite_ops h g = rewrite_ops h' g.
Proof. intros. unfold rewrite_ops, with_map. f_equal. by apply dmap_ext. Qed.

Lemma alter_rewrite u k h g :
  dict_wf (_op_map g) →
  alter_op u k (rewrite_ops h g) = rewrite_ops (λ i o, if decide (i = k) then u (h i o) else h i o) g.
Proof. intros. unfold alter_op, rewrite_ops, with_map. simpl. f_equal. by apply dict_alter_dmap. Qed.

Lemma rewrite_ops_id g : rewrite_ops (λ _ o, o) g = g.
Proof. unfold rewrite_ops, with_map. rewrite dmap_id. by destruct g. Qed.

Lemma alter_op_rewrite u k g :
  dict_wf (_op_map g) → alter_op u k g = rewrite_ops (λ i o, if decide (i = k) then u o else o) g.
Proof. intros. rewrite <- (rewrite_ops_id g) at 1. by rewrite alter_rewrite. Qed.

Lemma rewrite_ops_comp h h' g : rewrite_ops h (rewrite_ops h' g) = rewrite_ops (λ k o, h k (h' k o)) g.
Proof. unfold rewrite_ops, with_map. simpl. f_equal. apply dmap_dmap. Qed.

Section execution.
Context `{!SetOrder}.

Lemma set_order_elem s x : x ∈ set_order s ↔ x ∈ s.
Proof. rewrite set_order_perm. apply elem_of_elements. Qed.

Lemma set_order_NoDup s : NoDup (set_order s).
Proof. rewrite set_order_perm. apply NoDup_elements. Qed.

(** *** mark_completed *)
Definition complete_op (k : Z) (j : Z) (o : TransferOp) : TransferOp :=
  if decide (j = k) then op_with_status o COMPLETED
  else op_with_edges o (predecessors o ∖ {[k]}) (successors o).

Definition completed (k : Z) : TransferOpGraph → TransferOpGraph := rewrite_ops (complete_op k).

Lemma no_self_loop g k o : graph_wf g → op_at g k = Some o → op_status o = RUNNING → k ∉ successors o.
Proof.
  intros Hwf Hk Hr Hin. assert (k ∈ predecessors o) as Hp.
  { apply (gw_pred _ Hwf _ _ _ Hk). exists o. by rewrite Hr. }
  rewrite (gw_started _ Hwf _ _ Hk) in Hp by (by rewrite Hr). set_solver.
Qed.

Lemma mark_completed_ok g k o :
  graph_wf g → op_at g k = Some o → op_status o = RUNNING →
  mark_completed k g = (Ok tt, completed k g).
Proof.
  intros Hwf Hk Hr. pose proof (gw_keys _ Hwf) as Hd. pose proof (no_self_loop _ _ _ Hwf Hk Hr) as Hself.
  unfold mark_completed. rewrite M_bind_run. simpl. rewrite Hk.
  unfold assertM, lift_result, py_assert. rewrite bool_decide_eq_true_2 by done.
  rewrite M_bind_run, M_bind_run. cbn [modify_state fst snd]. rewrite alter_op_rewrite by done.
  set (part := λ (l : list Z) j o', if decide (j = k) then op_with_status o' COMPLETED
      else if decide (j ∈ successors o ∧ j ∉ l) then op_with_edges o' (predecessors o' ∖ {[k]}) (successors o') else o').
  destruct (for_each_ok (λ l s, NoDup l ∧ (∀ x, x ∈ l → x ∈ successors o) ∧ s = rewrite_ops (part l) g)
              (remove_predecessor k) (set_order (successors o))
              (rewrite_ops (λ i o', if decide (i = k) then op_with_status o' COMPLETED else o') g))
    as (s' & E & _ & _ & ->).
  - split_and!; [apply set_order_NoDup|intros x; apply set_order_elem|].
    apply rewrite_ops_ext; [done|]. intros j o' Hj. unfold part. case_decide; [done|].
    rewrite decide_False; [done|]. rewrite set_order_elem. naive_solver.
  - intros x l s ([Hxl Hl]%NoDup_cons & Hsub & ->).
    assert (x ∈ successors o) as Hxs by (apply Hsub; left).
    assert (x ≠ k) by (by intros ->).
    destruct (gw_succ _ Hwf _ _ _ Hk Hxs) as [ox Hx].
    unfold remove_predecessor. rewrite M_bind_run, (get_op_run _ _ ox).
    2:{ rewrite op_at_rewrite, Hx. unfold part. simpl. rewrite decide_False by done.
        rewrite decide_False; [done|]. intros [_ Hn]. apply Hn. left. }
    rewrite bool_decide_eq_true_2.
    2:{ apply (gw_pred _ Hwf _ _ _ Hx). exists o. by rewrite Hr. }
    eexists. split; [reflexivity|]. split_and!; [done|intros y Hy; apply Hsub; by right|].
    rewrite alter_rewrite by done. apply rewrite_ops_ext; [done|]. intros j o' Hj. unfold part.
    destruct (decide (j = k)) as [->|Hjk]; [by rewrite decide_False|].
    destruct (decide (j = x)) as [->|Hjx].
    + rewrite decide_False by (intros [_ Hn]; apply Hn; left). by rewrite decide_True.
    + destruct (decide (j ∈ successors o ∧ j ∉ x :: l)) as [[? Hn]|Hn].
      * rewrite decide_True; [done|]. split; [done|]. intros ?. apply Hn. by right.
      * rewrite decide_False; [done|]. intros [? Hn']. apply Hn. split; [done|]. by intros [?|?]%elem_of_cons.
  - rewrite E. f_equal. apply rewrite_ops_ext; [done|]. intros j o' Hj. unfold part, complete_op.
    case_decide; [done|]. case_decide as Hd'; [done|].
    rewrite difference_disjoint_L; [by rewrite op_with_edges_id|].
    apply disjoint_singleton_r. intros (q & Hq & Hin & _)%(gw_pred _ Hwf _ _ _ Hj).
    simplify_eq. apply Hd'. split; [done|apply not_elem_of_nil].
Qed.

Lemma completed_wf g k o :
  graph_wf g → op_at g k = Some o → op_status o = RUNNING → graph_wf (completed k g).
Proof.
  intros Hwf Hk Hr. pose proof (no_self_loop _ _ _ Hwf Hk Hr) as Hself. unfold completed.
  assert (∀ j o', op_at (rewrite_ops (complete_op k) g) j = Some o' →
    ∃ o0, op_at g j = Some o0 ∧ o' = complete_op k j o0 ∧ successors o' = successors o0 ∧
      predecessors o' = (if decide (j = k) then predecessors o0 else predecessors o0 ∖ {[k]}) ∧
      op_status o' = if decide (j = k) then COMPLETED else op_status o0) as Hinv.
  { intros j o'. rewrite op_at_rewrite. intros (o0 & -> & H0)%fmap_Some. exists o0. rewrite H0. split_and!; [done|done|..];
      unfold complete_op; by case_decide. }
  split.
  - simpl. by apply dict_wf_dmap, Hwf.
  - intros j o' s (o0 & Hj & _ & -> & _)%Hinv Hs. rewrite op_at_rewrite.
    destruct (gw_succ _ Hwf _ _ _ Hj Hs) as [? ->]. by eexists.
  - intros j o' p (o0 & Hj & _ & _ & -> & _)%Hinv.
    assert (p ∈ predecessors o0 ↔ ∃ q, op_at g p = Some q ∧ j ∈ successors q ∧ op_status q ≠ COMPLETED) as Hp
      by by apply Hwf.
    assert (p ∈ (if decide (j = k) then predecessors o0 else predecessors o0 ∖ {[k]}) ↔ p ∈ predecessors o0 ∧ p ≠ k) as ->.
    { case_decide; [subst|set_solver]. split; [|naive_solver]. intros Hin. split; [done|]. intros ->.
      apply Hp in Hin as (q & Hq & ? & _). by simplify_eq. }
    rewrite Hp. split.
    + intros ((q & Hq & ? & ?) & Hne). exists (complete_op k p q). rewrite op_at_rewrite, Hq.
      split_and!; [done|unfold complete_op; by rewrite decide_False..].
    + intros (q & (q0 & Hq0 & _ & Hsq & _ & Hst)%Hinv & ? & Hns). rewrite Hst in Hns. rewrite Hsq in *.
      case_decide; [done|]. split; [|done]. by exists q0.
  - intros j o' (o0 & Hj & _ & _ & -> & Hst)%Hinv Hp. rewrite Hst in Hp. case_decide.
    + subst. simplify_eq. apply (gw_started _ Hwf _ _ Hk). by rewrite Hr.
    + rewrite (gw_started _ Hwf _ _ Hj Hp). set_solver.
  - intros j Hj. simpl in Hj. rewrite op_at_rewrite. destruct (gw_ready_dom _ Hwf _ Hj) as [? ->]. by eexists.
  - intros j o' Hin (o0 & Hj & _ & _ & -> & _)%Hinv. simpl in Hin.
    rewrite (gw_ready_pending _ Hwf _ _ Hin Hj). case_decide; set_solver.
  - intros j o' (o0 & Hj & _ & _ & _ & Hst)%Hinv Hrun. rewrite Hst in Hrun. simpl. case_decide; [done|].
    by eapply gw_running.
  - intros j (o' & (o0 & Hj & _ & _ & Hpr & Hst)%Hinv & Hp & He). rewrite Hst in Hp. rewrite Hpr in He. rewrite ready_rewrite.
    case_decide; [done|].
    destruct (decide (k ∈ predecessors o0)) as [Hin|Hnin].
    + right. exists k, (complete_op k k o). split_and!.
      * by eapply gw_running.
      * by rewrite op_at_rewrite, Hk.
      * unfold complete_op. by rewrite decide_True.
      * apply (gw_pred _ Hwf _ _ _ Hj) in Hin as (q & Hq & ? & _). simplify_eq.
        unfold complete_op. by rewrite decide_True.
    + destruct (gw_eligible _ Hwf j) as [?|(p & q & ? & Hq & ? & ?)]; [|by left|].
      * exists o0. split_and!; [done|done|]. set_solver.
      * right. exists p, (complete_op k p q). rewrite op_at_rewrite, Hq.
        split_and!; [done|done|unfold complete_op; by case_decide..].
Qed.

(** *** take_ready_ops *)
Definition start (r : list Z) (j : Z) (o : TransferOp) : TransferOp :=
  if decide (j ∈ r) then op_with_status o RUNNING else o.

Definition started (r : list Z) : TransferOpGraph → TransferOpGraph := rewrite_ops (start r).

Lemma started_snoc r k g : dict_wf (_op_map g) →
  alter_op (λ o, op_with_status o RUNNING) k (started r g) = started (r ++ [k]) g.
Proof.
  intros Hd. unfold started. rewrite alter_rewrite by done. apply rewrite_ops_ext; [done|].
  intros j o _. unfold start. destruct (decide (j = k)) as [->|Hne].
  - rewrite (decide_True (P := k ∈ r ++ [k])) by (apply elem_of_app; right; left). by case_decide.
  - destruct (decide (j ∈ r)); [rewrite decide_True|rewrite decide_False]; try done; set_solver.
Qed.

(** The ops handed out so far are eligible ones; [rem] are finished ops of the queue. *)
Record acc_ok (g : TransferOpGraph) (r rem : list Z) (s : TransferOpGraph) : Prop := {
  ao_state : s = started r g;
  ao_nodup : NoDup r;
  ao_eligible : ∀ j, j ∈ r → eligible g j;
  ao_removed : ∀ j, j ∈ rem → ∃ o, op_at g j = Some o ∧ op_status o = COMPLETED;
}.

Lemma start_op_acc g r rem s k :
  dict_wf (_op_map g) → acc_ok g r rem s → eligible g k → k ∉ r →
  ∃ s', start_op k (r, rem, r) s = (Ok (r ++ [k], rem, r ++ [k]), s') ∧ acc_ok g (r ++ [k]) rem s'.
Proof.
  intros Hd [-> Hnd He Hr] Hk Hnk. eexists. split; [reflexivity|].
  split; [by apply started_snoc| |set_solver|done].
  apply NoDup_app. split_and!; [done|set_solver|apply NoDup_singleton].
Qed.

Lemma op_at_started r g k : op_at (started r g) k = start r k <$> op_at g k.
Proof. apply op_at_rewrite. Qed.

Lemma visit_successor_ok g r rem s k :
  graph_wf g → acc_ok g r rem s → is_Some (op_at g k) →
  ∃ r' s', visit_successor (r, rem, r) k s = (Ok (r', rem, r'), s') ∧ acc_ok g r' rem s' ∧
    (∀ j, j ∈ r → j ∈ r') ∧ (eligible g k → k ∈ r').
Proof.
  intros Hwf Hacc [o Ho]. pose proof (ao_state _ _ _ _ Hacc) as ->. unfold visit_successor.
  rewrite M_bind_run, (get_op_run _ _ (start r k o)) by (by rewrite op_at_started, Ho).
  destruct (decide (k ∈ r)) as [Hin|Hin]; unfold start; [rewrite decide_True by done|rewrite decide_False by done].
  { rewrite bool_decide_eq_false_2 by done. simpl. by exists r, (started r g). }
  destruct (bool_decide (op_status o = PENDING)) eqn:Ep; simpl.
  - apply bool_decide_eq_true in Ep. destruct (Nat.eqb_spec (size (predecessors o)) 0) as [Es|Es].
    + apply size_empty_iff, leibniz_equiv in Es.
      assert (eligible g k) as Hek by (by exists o).
      destruct (start_op_acc _ _ _ _ k (gw_keys _ Hwf) Hacc Hek Hin) as (s' & E & Ha).
      exists (r ++ [k]), s'. split_and!; [done|done|set_solver|set_solver].
    + exists r, (started r g). split_and!; [done|done|done|].
      intros (o' & Ho' & _ & He). simplify_eq. rewrite He, size_empty in Es. done.
  - apply bool_decide_eq_false in Ep. exists r, (started r g). split_and!; [done|done|done|].
    intros (o' & Ho' & Hp & _). by simplify_eq.
Qed.

Lemma visit_successors_ok g r rem s l :
  graph_wf g → acc_ok g r rem s → (∀ k, k ∈ l → is_Some (op_at g k)) →
  ∃ r' s', for_acc visit_successor (r, rem, r) l s = (Ok (r', rem, r'), s') ∧ acc_ok g r' rem s' ∧
    (∀ j, j ∈ r → j ∈ r') ∧ (∀ k, k ∈ l → eligible g k → k ∈ r').
Proof.
  intros Hwf. revert r s. induction l as [|k l IH]; intros r s Hacc Hl; simpl.
  - exists r, s. split_and!; [done|done|done|]. by intros k ?%not_elem_of_nil.
  - destruct (visit_successor_ok _ _ _ _ k Hwf Hacc) as (r1 & s1 & E & Ha & Hs1 & He1); [apply Hl; left|].
    rewrite M_bind_run, E. destruct (IH r1 s1 Ha) as (r2 & s2 & E2 & Ha2 & Hs2 & He2).
    { intros j Hj. apply Hl. by right. }
    exists r2, s2. split_and!; [done|done|auto|]. intros j [->|Hj]%elem_of_cons ?; auto.
Qed.

(** Everything due from one entry of the ready queue has been collected. *)
Definition collected (g : TransferOpGraph) (r rem : list Z) (x : Z) : Prop :=
  (eligible g x → x ∈ r) ∧
  (∀ o, op_at g x = Some o → op_status o = COMPLETED →
     x ∈ rem ∧ ∀ k, k ∈ successors o → eligible g k → k ∈ r).

Lemma visit_ready_ok g r rem s x :
  graph_wf g → acc_ok g r rem s → x ∈ _ready_ops g →
  ∃ r' rem' s', visit_ready (r, rem, r) x s = (Ok (r', rem', r'), s') ∧ acc_ok g r' rem' s' ∧
    (∀ j, j ∈ r → j ∈ r') ∧ (∀ j, j ∈ rem → j ∈ rem') ∧ collected g r' rem' x.
Proof.
  intros Hwf Hacc Hx. destruct (gw_ready_dom _ Hwf _ Hx) as [o Ho].
  pose proof (ao_state _ _ _ _ Hacc) as ->. pose proof (ao_eligible _ _ _ _ Hacc) as Hel. unfold visit_ready.
  rewrite M_bind_run, (get_op_run _ _ (start r x o)) by (by rewrite op_at_started, Ho).
  destruct (decide (x ∈ r)) as [Hin|Hin]; unfold start; [rewrite decide_True by done|rewrite decide_False by done]; simpl.
  { exists r, rem, (started r g). split_and!; [done..|]. split; [done|].
    intros o' Ho' Hc. destruct (Hel _ Hin) as (o2 & Ho2 & Hp2 & _). simplify_eq. by rewrite Hp2 in Hc. }
  destruct (op_status o) eqn:Est.
  - assert (eligible g x) as Hex by (exists o; split_and!; [done|done|by eapply gw_ready_pending]).
    destruct (start_op_acc _ _ _ _ x (gw_keys _ Hwf) Hacc Hex Hin) as (s' & E & Ha).
    exists (r ++ [x]), rem, s'. split_and!; [done|done|set_solver|done|]. split; [set_solver|].
    intros o' ? ?. congruence.
  - exists r, rem, (started r g). split_and!; [done..|]. split; [|intros; congruence].
    intros (o' & ? & ? & _). congruence.
  - destruct (visit_successors_ok g r (rem ++ [x]) (started r g) (set_order (successors o)) Hwf)
      as (r' & s' & E & Ha & Hs & He).
    + destruct Hacc as [_ ? ? Hrem]. split; [done..|].
      intros j [?|Hj]%elem_of_app; [by apply Hrem|]. apply list_elem_of_singleton in Hj as ->. by exists o.
    + intros k Hk%set_order_elem. by eapply gw_succ.
    + exists r', (rem ++ [x]), s'. split_and!; [done|done|done|set_solver|]. split.
      * intros (o' & ? & ? & _). congruence.
      * intros o' ? _. simplify_eq. split; [set_solver|]. intros k Hk. apply He. by apply set_order_elem.
Qed.

Lemma visit_all_ok g r rem s l :
  graph_wf g → acc_ok g r rem s → (∀ x, x ∈ l → x ∈ _ready_ops g) →
  ∃ r' rem' s', for_acc visit_ready (r, rem, r) l s = (Ok (r', rem', r'), s') ∧ acc_ok g r' rem' s' ∧
    (∀ j, j ∈ r → j ∈ r') ∧ (∀ j, j ∈ rem → j ∈ rem') ∧ (∀ x, x ∈ l → collected g r' rem' x).
Proof.
  intros Hwf. revert r rem s. induction l as [|x l IH]; intros r rem s Hacc Hl; simpl.
  - exists r, rem, s. split_and!; [done..|]. by intros x ?%not_elem_of_nil.
  - destruct (visit_ready_ok _ _ _ _ x Hwf Hacc) as (r1 & rem1 & s1 & E & Ha & Hs1 & Hr1 & Hc1 & Hc1'); [apply Hl; left|].
    rewrite M_bind_run, E. destruct (IH r1 rem1 s1 Ha) as (r2 & rem2 & s2 & E2 & Ha2 & Hs2 & Hr2 & Hc2).
    { intros j Hj. apply Hl. by right. }
    exists r2, rem2, s2. split_and!; [done|done|auto|auto|]. intros j [->|Hj]%elem_of_cons; [|by apply Hc2].
    split; [auto|]. intros o Ho Hc. destruct (Hc1' o Ho Hc) as [? Hk]. split; [auto|]. auto.
Qed.

(** The effect of [take_ready_ops]: it hands out exactly the eligible ops. *)
Lemma take_ready_ok g :
  graph_wf g →
  ∃ r rem, take_ready_ops g = (Ok r, with_ready (λ s, (s ∖ list_to_set rem) ∪ list_to_set r) (started r g)) ∧
    NoDup r ∧ (∀ k, k ∈ r ↔ eligible g k) ∧
    (∀ k, k ∈ _ready_ops g → k ∈ rem ↔ ∃ o, op_at g k = Some o ∧ op_status o = COMPLETED) ∧
    (∀ k o, op_at g k = Some o → op_status o = RUNNING → k ∉ rem).
Proof.
  intros Hwf. unfold take_ready_ops. rewrite M_bind_run. simpl.
  destruct (visit_all_ok g [] [] g (set_order (_ready_ops g)) Hwf) as (r & rem & s & E & Ha & _ & _ & Hc).
  - split; [|apply NoDup_nil_2|set_solver|set_solver].
    unfold started. rewrite (rewrite_ops_ext _ (λ _ o, o)); [by rewrite rewrite_ops_id|apply Hwf|].
    intros j o _. unfold start. by rewrite decide_False by apply not_elem_of_nil.
  - by intros x Hx%set_order_elem.
  - destruct Ha as [-> Hnd Hel Hrem]. rewrite M_bind_run, E. exists r, rem.
    split_and!; [done|done| | |].
    + intros k. split; [apply Hel|]. intros Hk.
      destruct (gw_eligible _ Hwf _ Hk) as [Hin|(p & q & Hin & Hq & Hcp & Hs)].
      * destruct (Hc k) as [Hk' _]; [by apply set_order_elem|]. auto.
      * destruct (Hc p) as [_ Hk']; [by apply set_order_elem|]. by apply (Hk' q).
    + intros k Hin. split; [apply Hrem|]. intros (o & Ho & Hst).
      destruct (Hc k) as [_ Hk']; [by apply set_order_elem|]. by apply (Hk' o).
    + intros k o Ho Hst (o' & ? & ?)%Hrem. congruence.
Qed.

Lemma taken_wf g r rem :
  graph_wf g → (∀ k, k ∈ r ↔ eligible g k) →
  (∀ k, k ∈ _ready_ops g → k ∈ rem ↔ ∃ o, op_at g k = Some o ∧ op_status o = COMPLETED) →
  (∀ k o, op_at g k = Some o → op_status o = RUNNING → k ∉ rem) →
  graph_wf (with_ready (λ s, (s ∖ list_to_set rem) ∪ list_to_set r) (started r g)).
Proof.
  intros Hwf Hr Hrem Hrun.
  assert (∀ j o', op_at (with_ready (λ s, (s ∖ list_to_set rem) ∪ list_to_set r) (started r g)) j = Some o' →
    ∃ o0, op_at g j = Some o0 ∧ successors o' = successors o0 ∧ predecessors o' = predecessors o0 ∧
      op_status o' = if decide (j ∈ r) then RUNNING else op_status o0) as Hinv.
  { intros j o' Hj. change (op_at (started r g) j = Some o') in Hj.
    rewrite op_at_started in Hj. apply fmap_Some in Hj as (o0 & Hj & ->). exists o0.
    unfold start. split_and!; [done|by case_decide..]. }
  assert (∀ j, j ∈ r → ∃ o, op_at g j = Some o ∧ op_status o = PENDING ∧ predecessors o = ∅) as Hr'.
  { intros j Hj. by apply Hr. }
  assert (∀ j o, op_at g j = Some o →
    ∃ o', op_at (with_ready (λ s, (s ∖ list_to_set rem) ∪ list_to_set r) (started r g)) j = Some o' ∧
      successors o' = successors o ∧ op_status o' = if decide (j ∈ r) then RUNNING else op_status o) as Hfwd.
  { intros j o Hj. exists (start r j o). change (op_at (started r g) j = Some (start r j o) ∧ successors (start r j o) = successors o ∧
      op_status (start r j o) = if decide (j ∈ r) then RUNNING else op_status o).
    rewrite op_at_started, Hj. unfold start. split_and!; [done|by case_decide..]. }
  split.
  - simpl. by apply dict_wf_dmap, Hwf.
  - intros j o' s (o0 & Hj & -> & _)%Hinv Hs. destruct (gw_succ _ Hwf _ _ _ Hj Hs) as [os Hos].
    destruct (Hfwd _ _ Hos) as (? & ? & _). by eexists.
  - intros j o' p (o0 & Hj & _ & -> & _)%Hinv. rewrite (gw_pred _ Hwf _ _ p Hj). split.
    + intros (q & Hq & Hs & Hn). destruct (Hfwd _ _ Hq) as (q' & Hq' & Hs' & Hst). exists q'.
      rewrite Hs', Hst. split_and!; [done|done|by case_decide].
    + intros (q' & (q & Hq & Hs & _ & Hst)%Hinv & Hin & Hn). exists q. rewrite Hs in Hin.
      split_and!; [done|done|]. rewrite Hst in Hn. case_decide; [|done].
      destruct (Hr' p) as (? & ? & Hp & _); [done|]. simplify_eq. by rewrite Hp.
  - intros j o' (o0 & Hj & _ & -> & Hst)%Hinv Hn. rewrite Hst in Hn. case_decide.
    + destruct (Hr' j) as (? & ? & _ & ?); [done|]. by simplify_eq.
    + by eapply gw_started.
  - intros j Hj. assert (is_Some (op_at g j)) as [o Ho].
    { simpl in Hj. apply elem_of_union in Hj as [Hj|Hj].
      - apply (gw_ready_dom _ Hwf). set_solver.
      - apply elem_of_list_to_set in Hj. destruct (Hr' _ Hj) as (? & ? & _). by eexists. }
    destruct (Hfwd _ _ Ho) as (? & ? & _). by eexists.
  - intros j o' Hj (o0 & Hj0 & _ & -> & _)%Hinv. simpl in Hj. apply elem_of_union in Hj as [Hj|Hj].
    + eapply gw_ready_pending; [done| |done]. set_solver.
    + apply elem_of_list_to_set in Hj. destruct (Hr' _ Hj) as (? & ? & _ & ?). by simplify_eq.
  - intros j o' (o0 & Hj & _ & _ & Hst)%Hinv Hrn. rewrite Hst in Hrn. simpl. case_decide; [set_solver|].
    pose proof (gw_running _ Hwf _ _ Hj Hrn). pose proof (Hrun _ _ Hj Hrn). set_solver.
  - intros j (o' & (o0 & Hj & _ & Hpr & Hst)%Hinv & Hp & He). rewrite Hst in Hp. case_decide as Hd; [done|].
    destruct Hd. apply Hr. exists o0. by rewrite <- Hpr.
Qed.
End execution.

(** *** Building a graph *)

(** A freshly constructed op, not yet in the graph. *)
Definition fresh_op (g : TransferOpGraph) (o : TransferOp) : Prop :=
  op_at g (op_id o) = None ∧ op_status o = PENDING ∧ predecessors o = ∅ ∧ successors o = ∅.

(** The edges of the graph have no cycle. *)
Definition acyclic (g : TransferOpGraph) : Prop :=
  ∃ rank : Z → nat, ∀ k o s, op_at g k = Some o → s ∈ successors o → (rank k < rank s)%nat.

Lemma empty_wf gid : graph_wf (mkGraph gid [] ∅ ∅ [] []).
Proof.
  split; simpl; try set_solver; [apply NoDup_nil_2|]. by intros k (o & Ho & _).
Qed.

Lemma insert_op_wf g g' o :
  graph_wf g → fresh_op g o → (∃ gid t, _op_map g' = dict_set (op_id o) (op_with_graph o gid t) (_op_map g)) →
  _ready_ops g' = {[op_id o]} ∪ _ready_ops g →
  graph_wf g'.
Proof.
  intros Hwf (Hn & Hp & Hpr & Hsu) (gid & t & Hm) Hr.
  assert (∀ k o', op_at g' k = Some o' →
    (k = op_id o ∧ op_status o' = PENDING ∧ predecessors o' = ∅ ∧ successors o' = ∅) ∨ (k ≠ op_id o ∧ op_at g k = Some o')) as Hinv.
  { intros k o'. rewrite Hm, dict_get_set. case_decide; [left|by right]. by simplify_eq. }
  assert (∀ k o', op_at g k = Some o' → op_at g' k = Some o') as Hfwd.
  { intros k o' Hk. rewrite Hm, dict_get_set. case_decide; by simplify_eq. }
  assert (op_at g' (op_id o) = Some (op_with_graph o gid t)) as Hself.
  { by rewrite Hm, dict_get_set_eq. }
  split.
  - rewrite Hm. by apply dict_wf_set, Hwf.
  - intros k o' s [(-> & _ & _ & Hs)|[_ Hk]]%Hinv Hin; [rewrite Hs in Hin; set_solver|].
    destruct (gw_succ _ Hwf _ _ _ Hk Hin) as [? Hs]. eexists. by apply Hfwd.
  - intros k o' p [(-> & _ & Hpr' & _)|[Hne Hk]]%Hinv.
    + rewrite Hpr'. split; [set_solver|]. intros (q & [(-> & _ & _ & Hs)|[_ Hq]]%Hinv & Hin & _); [rewrite Hs in Hin; set_solver|].
      destruct (gw_succ _ Hwf _ _ _ Hq Hin). congruence.
    + rewrite (gw_pred _ Hwf _ _ p Hk). split.
      * intros (q & Hq & ? & ?). exists q. split_and!; [by apply Hfwd|done|done].
      * intros (q & [(-> & _ & _ & Hs)|[_ Hq]]%Hinv & Hin & ?); [rewrite Hs in Hin; set_solver|]. by exists q.
  - intros k o' [(-> & ? & ? & _)|[_ Hk]]%Hinv Hst; [done|]. by eapply gw_started.
  - intros k. rewrite Hr. intros [->%elem_of_singleton|Hk]%elem_of_union; [by eexists|].
    destruct (gw_ready_dom _ Hwf _ Hk) as [? Hk']. eexists. by apply Hfwd.
  - intros k o'. rewrite Hr. intros Hk [(-> & _ & ? & _)|[Hne Hko]]%Hinv; [done|].
    eapply gw_ready_pending; [done| |done]. set_solver.
  - intros k o' [(-> & Hst & _)|[_ Hk]]%Hinv Hrn; [congruence|]. rewrite Hr.
    pose proof (gw_running _ Hwf _ _ Hk Hrn). set_solver.
  - intros k (o' & [(-> & _)|[_ Hk]]%Hinv & ? & ?); rewrite Hr; [left; set_solver|].
    destruct (gw_eligible _ Hwf k) as [?|(p & q & ? & Hq & ? & ?)]; [by exists o'|left; set_solver|].
    right. exists p, q. split_and!; [set_solver|by apply Hfwd|done|done].
Qed.

Lemma add_transfer_op_wf g o : graph_wf g → fresh_op g o → graph_wf (add_transfer_op o g).
Proof.
  intros Hwf Hf. eapply insert_op_wf; [done|done| |].
  - eexists _, _. unfold add_transfer_op. by repeat case_match.
  - unfold add_transfer_op. by repeat case_match.
Qed.

Lemma op_at_add_transfer_op g o k :
  op_at (add_transfer_op o g) k = if decide (op_id o = k) then Some (op_with_graph o (graph_id g) (transfer_type o)) else op_at g k.
Proof.
  unfold add_transfer_op.
  destruct (is_swa o && _), (bool_decide (transfer_type o = H2D) || _ || _ || _); apply dict_get_set.
Qed.

Lemma add_virtual_op_wf g o : graph_wf g → fresh_op g o → graph_wf (add_virtual_op o false g).
Proof. intros Hwf Hf. eapply insert_op_wf; [done|done|by eexists _, _|done]. Qed.

(** The graph after a dependency. *)
Definition depends (s p : Z) (g : TransferOpGraph) : TransferOpGraph :=
  with_ready (λ r, r ∖ {[s]})
    (alter_op (λ o, op_with_edges o (predecessors o) ({[s]} ∪ successors o)) p
      (alter_op (λ o, op_with_edges o ({[p]} ∪ predecessors o) (successors o)) s g)).

Lemma add_dependency_run s p g :
  add_dependency s p g =
    if dict_mem s (_op_map g) && dict_mem p (_op_map g) then (Ok tt, depends s p g) else (Raise AssertionError, g).
Proof. unfold add_dependency. rewrite M_bind_run. simpl. rewrite M_bind_run. by destruct (_ && _). Qed.

Lemma op_at_depends s p g k :
  op_at (depends s p g) k = (λ o, op_with_edges o (if decide (k = s) then {[p]} ∪ predecessors o else predecessors o)
      (if decide (k = p) then {[s]} ∪ successors o else successors o)) <$> op_at g k.
Proof.
  unfold depends. simpl. rewrite !dict_get_alter.
  destruct (op_at g k) as [o|]; repeat case_decide; simplify_eq; simpl; try done; by rewrite op_with_edges_id.
Qed.

Lemma depends_wf s p g os op :
  graph_wf g → op_at g s = Some os → op_at g p = Some op →
  op_status os = PENDING → op_status op ≠ COMPLETED → graph_wf (depends s p g).
Proof.
  intros Hwf Hs Hp Hst Hpt.
  assert (∀ k o', op_at (depends s p g) k = Some o' → ∃ o, op_at g k = Some o ∧
    predecessors o' = (if decide (k = s) then {[p]} ∪ predecessors o else predecessors o) ∧
    successors o' = (if decide (k = p) then {[s]} ∪ successors o else successors o) ∧
    op_status o' = op_status o) as Hinv.
  { intros k o'. rewrite op_at_depends. intros (o & Hk & ->)%fmap_Some. by exists o. }
  assert (∀ k, is_Some (op_at g k) → is_Some (op_at (depends s p g) k)) as Hdom.
  { intros k [o Hk]. rewrite op_at_depends, Hk. by eexists. }
  split.
  - unfold depends. simpl. unfold dict_wf. rewrite !dict_keys_alter. apply Hwf.
  - intros k o' t (o & Hk & _ & -> & _)%Hinv Ht. apply Hdom. case_decide; [|by eapply gw_succ].
    subst. apply elem_of_union in Ht as [->%elem_of_singleton|Ht]; [by eexists|by eapply gw_succ].
  - intros k o' q (o & Hk & -> & _ & _)%Hinv.
    assert (q ∈ (if decide (k = s) then {[p]} ∪ predecessors o else predecessors o) ↔
      (k = s ∧ q = p) ∨ q ∈ predecessors o) as -> by (case_decide; set_solver).
    rewrite (gw_pred _ Hwf _ _ q Hk). rewrite op_at_depends. split.
    + intros [[-> ->]|(o2 & Hq & ? & ?)].
      * rewrite Hp. eexists. split_and!; [done| |done]. simpl. rewrite decide_True by done. set_solver.
      * rewrite Hq. eexists. split_and!; [done| |done]. simpl. case_decide; set_solver.
    + intros (o2 & (o3 & Hq & ->)%fmap_Some & Hin & Hn). simpl in *. case_decide; [|right; by exists o3].
      apply elem_of_union in Hin as [->%elem_of_singleton|Hin]; [by left|right; by exists o3].
  - intros k o' (o & Hk & -> & _ & ->)%Hinv Hn. case_decide; [simplify_eq; congruence|by eapply gw_started].
  - intros k Hk. simpl in Hk. apply Hdom, (gw_ready_dom _ Hwf). set_solver.
  - intros k o' Hk (o & Hk' & -> & _)%Hinv. simpl in Hk.
    rewrite decide_False by set_solver. eapply gw_ready_pending; [done| |done]. set_solver.
  - intros k o' (o & Hk & _ & _ & ->)%Hinv Hr. simpl. pose proof (gw_running _ Hwf _ _ Hk Hr).
    apply elem_of_difference. split; [done|]. intros ->%elem_of_singleton. simplify_eq. congruence.
  - intros k (o' & (o & Hk & Hpr & _ & ->)%Hinv & Hpd & He). rewrite Hpr in He.
    case_decide as Hks; [set_solver|].
    destruct (gw_eligible _ Hwf k) as [?|(q & oq & ? & Hq & Hc & ?)]; [by exists o|left; simpl; set_solver|].
    right. assert (q ≠ s) by (intros ->; congruence). exists q.
    rewrite op_at_depends, Hq. eexists. split_and!; [simpl; set_solver|done|done|].
    simpl. case_decide; set_solver.
Qed.

(** *** Progress *)
Lemma progress_lemma g k o :
  graph_wf g → acyclic g → op_at g k = Some o → op_status o ≠ COMPLETED →
  ∃ j, eligible g j ∨ ∃ oj, op_at g j = Some oj ∧ op_status oj = RUNNING.
Proof.
  intros Hwf [rank Hrank]. revert k o. assert (∀ n k, (rank k < n)%nat → ∀ o, op_at g k = Some o → op_status o ≠ COMPLETED →
    ∃ j, eligible g j ∨ ∃ oj, op_at g j = Some oj ∧ op_status oj = RUNNING) as H.
  { intros n. induction n as [|n IH]; intros k Hk o Ho Hn; [lia|].
    destruct (op_status o) eqn:Est; [|by exists k; right; exists o|done].
    destruct (decide (predecessors o = ∅)) as [He|He]; [exists k; left; by exists o|].
    apply set_choose_L in He as [p Hp]. apply (gw_pred _ Hwf _ _ _ Ho) in Hp as (q & Hq & Hs & Hnq).
    pose proof (Hrank _ _ _ Hq Hs). by apply (IH p ltac:(lia) q). }
  intros k o. apply (H (S (rank k))). lia.
Qed.

(** *** Binding GPU blocks *)

Lemma gpu_side_bound b o : gpu_side (with_gpu_side b o) = b.
Proof. unfold gpu_side, with_gpu_side. destruct (to_gpu (transfer_type o)) eqn:E; simpl; by rewrite E. Qed.

Lemma host_side_bound b o : host_side (with_gpu_side b o) = host_side o.
Proof. unfold host_side, with_gpu_side. destruct (to_gpu (transfer_type o)) eqn:E; simpl; by rewrite E. Qed.

Lemma type_bound b o : transfer_type (with_gpu_side b o) = transfer_type o ∧ is_swa (with_gpu_side b o) = is_swa o.
Proof. unfold with_gpu_side. by destruct (to_gpu _). Qed.

Lemma sides_sizes o : (zlen (src_block_ids o) =? zlen (dst_block_ids o)) = (zlen (gpu_side o) =? zlen (host_side o)).
Proof. unfold gpu_side, host_side. destruct (to_gpu _); [apply Z.eqb_sym|done]. Qed.

(** The slice of the GPU array an op is bound to: the tail for the two GDS types. *)
Definition is_gds (t : TransferType) : bool := bool_decide (t = DISK2D) || bool_decide (t = D2DISK).
Definition gpu_slice (t : TransferType) (n : nat) (target : list Z) : list Z :=
  if is_gds t then drop (length target - n) target else take n target.

Lemma bind_gpu_side_slice target o :
  (length (gpu_side o) <= length target)%nat → (is_gds (transfer_type o) = true → gpu_side o ≠ []) →
  bind_gpu_side target o = with_gpu_side (gpu_slice (transfer_type o) (length (gpu_side o)) target) o.
Proof.
  intros Hle Hne. unfold bind_gpu_side, gpu_slice. fold (is_gds (transfer_type o)). f_equal.
  destruct (is_gds _).
  - apply py_slice_suffix. specialize (Hne eq_refl). destruct (gpu_side o); [done|]. simpl in *. lia.
  - apply py_slice_prefix.
Qed.

Lemma length_gpu_slice t n target : (n <= length target)%nat → length (gpu_slice t n target) = n.
Proof. intros. unfold gpu_slice. destruct (is_gds t); rewrite ?length_drop, ?length_take; lia. Qed.

(** Blocks of the SWA array consumed by the listed ops before a given one. *)
Definition swa_count (g : TransferOpGraph) (k : Z) : nat :=
  match op_at g k with Some o => if is_swa o then length (gpu_side o) else 0%nat | None => 0%nat end.
Definition swa_total (g : TransferOpGraph) (l : list Z) : nat := foldr (λ k n, swa_count g k + n)%nat 0%nat l.
Fixpoint before (k : Z) (l : list Z) : list Z :=
  match l with [] => [] | x :: l' => if decide (x = k) then [] else x :: before k l' end.

Lemma before_mid l k l' : k ∉ l → before k (l ++ k :: l') = l.
Proof.
  induction l as [|x l IH]; simpl; [intros _; by rewrite decide_True|].
  intros [? ?]%not_elem_of_cons. rewrite decide_False by done. f_equal. auto.
Qed.

Lemma swa_total_app g l k : swa_total g (l ++ k) = (swa_total g l + swa_total g k)%nat.
Proof. induction l as [|x l IH]; simpl; [done|]. rewrite IH. lia. Qed.

(** What an op becomes when GPU blocks are bound. *)
Definition bound_op (g : TransferOpGraph) (gpu : list Z) (swa : option (list Z)) (k : Z) (o : TransferOp) : TransferOp :=
  if decide (k ∈ _gpu_transfer_op_id g) then
    match is_swa o, swa with
    | true, None => o
    | true, Some swa =>
        with_gpu_side (take (length (gpu_side o)) (drop (swa_total g (before k (_gpu_transfer_op_id g))) swa)) o
    | false, _ => with_gpu_side (gpu_slice (transfer_type o) (length (gpu_side o)) gpu) o
    end
  else o.

(** The GPU arrays are large enough and the ops are well-formed placeholders. *)
Record bindable (g : TransferOpGraph) (gpu : list Z) (swa : option (list Z)) : Prop := {
  bd_keys : dict_wf (_op_map g);
  bd_nodup : NoDup (_gpu_transfer_op_id g);
  bd_ops : ∀ k, k ∈ _gpu_transfer_op_id g → ∃ o, op_at g k = Some o ∧ length (gpu_side o) = length (host_side o) ∧
    (is_gds (transfer_type o) = true → gpu_side o ≠ []) ∧
    (is_swa o = false → (length (gpu_side o) <= length gpu)%nat);
  bd_swa : ∀ s, swa = Some s → (swa_total g (_gpu_transfer_op_id g) <= length s)%nat;
}.

Lemma set_gpu_blocks_ok g gpu swa :
  bindable g gpu swa → set_gpu_blocks gpu swa g = (Ok tt, rewrite_ops (bound_op g gpu swa) g).
Proof.
  intros Hb. pose proof (bd_keys _ _ _ Hb) as Hd. unfold set_gpu_blocks. rewrite M_bind_run. simpl.
  set (L := _gpu_transfer_op_id g) in *.
  set (part := λ (done : list Z) k o, if decide (k ∈ done) then bound_op g gpu swa k o else o).
  destruct (for_acc_ok (λ (acc : Z) l s, ∃ done, L = done ++ l ∧ (is_Some swa → acc = Z.of_nat (swa_total g done)) ∧
      s = rewrite_ops (part done) g) (set_gpu_blocks_step gpu swa) 0 L g)
    as (acc & s' & E & dn & Hdn & _ & ->).
  - exists []. split_and!; [done|done|]. rewrite <- (rewrite_ops_id g) at 1.
    apply rewrite_ops_ext; [done|]. intros k o _. unfold part. by rewrite decide_False by apply not_elem_of_nil.
  - intros acc k l s (dn & HL & Hacc & ->).
    pose proof (bd_nodup _ _ _ Hb) as Hnd. fold L in Hnd. rewrite HL in Hnd.
    apply NoDup_app in Hnd as (_ & Hdisj & _).
    assert (k ∉ dn) as Hk by (intros Hin; apply (Hdisj _ Hin); left).
    assert (k ∈ L) as HkL by (rewrite HL; set_solver).
    assert (before k L = dn) as Hbef by (rewrite HL; by apply before_mid).
    destruct (bd_ops _ _ _ Hb k HkL) as (o & Ho & Hsz & Hgds & Hfit).
    assert (op_at (rewrite_ops (part dn) g) k = Some o) as Ho'.
    { rewrite op_at_rewrite, Ho. unfold part. simpl. by rewrite decide_False. }
    assert (∀ u, u o = bound_op g gpu swa k o →
      alter_op u k (rewrite_ops (part dn) g) = rewrite_ops (part (dn ++ [k])) g) as Halt.
    { intros u Hu. rewrite alter_rewrite by done. apply rewrite_ops_ext; [done|]. intros j oj Hj. unfold part.
      destruct (decide (j = k)) as [->|Hjk].
      - rewrite decide_False by done. rewrite decide_True by set_solver. congruence.
      - destruct (decide (j ∈ dn)); [rewrite decide_True by set_solver|rewrite decide_False by set_solver]; done. }
    assert (∀ b, length b = length (gpu_side o) →
      (zlen (src_block_ids (with_gpu_side b o)) =? zlen (dst_block_ids (with_gpu_side b o))) = true) as Hsizes.
    { intros b Hlen. rewrite sides_sizes, gpu_side_bound, host_side_bound. unfold zlen. rewrite Hlen, Hsz. apply Z.eqb_refl. }
    unfold set_gpu_blocks_step. rewrite M_bind_run, (get_op_run _ _ _ Ho').
    assert (bound_op g gpu swa k o = if is_swa o then match swa with None => o | Some s =>
        with_gpu_side (take (length (gpu_side o)) (drop (swa_total g dn) s)) o end
        else with_gpu_side (gpu_slice (transfer_type o) (length (gpu_side o)) gpu) o) as Hbo.
    { unfold bound_op. fold L. rewrite decide_True, Hbef by done. by destruct (is_swa o), swa. }
    assert (∀ b acc', bound_op g gpu swa k o = with_gpu_side b o → length b = length (gpu_side o) →
      (is_Some swa → acc' = Z.of_nat (swa_total g (dn ++ [k]))) →
      ∀ u, u o = with_gpu_side b o →
      ∃ acc2 s2, (modify_state (alter_op u k) ;; (o ← get_op k;
        assertM (zlen (src_block_ids o) =? zlen (dst_block_ids o)) ;; mret acc')) (rewrite_ops (part dn) g) = (Ok acc2, s2) ∧
      ∃ done, L = done ++ l ∧ (is_Some swa → acc2 = Z.of_nat (swa_total g done)) ∧ s2 = rewrite_ops (part done) g) as Hfin.
    { intros b acc' Hb' Hlen Hacc' u Hu. exists acc', (rewrite_ops (part (dn ++ [k])) g).
      rewrite M_bind_run. cbn [modify_state fst snd]. rewrite Halt by congruence. rewrite M_bind_run.
      rewrite (get_op_run _ _ (with_gpu_side b o)).
      2:{ rewrite op_at_rewrite, Ho. unfold part. simpl. rewrite decide_True by set_solver. by rewrite Hb'. }
      rewrite M_bind_run. unfold assertM, lift_result, py_assert. rewrite Hsizes by done.
      split; [done|]. exists (dn ++ [k]). rewrite HL, <- app_assoc. by split_and!. }
    assert (swa_total g (dn ++ [k]) = swa_total g dn + (if is_swa o then length (gpu_side o) else 0))%nat as Htot.
    { rewrite swa_total_app. simpl. unfold swa_count. rewrite Ho. lia. }
    destruct (is_swa o) eqn:Esw; [destruct swa as [s|] eqn:Es|].
    + rewrite Hacc by by eexists.
      pose proof (bd_swa _ _ _ Hb s eq_refl) as Hle. fold L in Hle. rewrite HL in Hle.
      rewrite swa_total_app in Hle. simpl in Hle. unfold swa_count at 1 in Hle. rewrite Ho, Esw in Hle.
      assert ((zlen s <? Z.of_nat (swa_total g dn) + zlen (gpu_side o)) = false) as ->
        by (apply Z.ltb_ge; unfold zlen; lia).
      eapply (Hfin _ _ Hbo).
      * rewrite length_take, length_drop. lia.
      * intros _. rewrite Htot. unfold zlen. lia.
      * assert (py_slice (Some (Z.of_nat (swa_total g dn))) (Some (Z.of_nat (swa_total g dn) + zlen (gpu_side o))) s
          = take (length (gpu_side o)) (drop (swa_total g dn) s)) as ->.
        { rewrite py_slice_in by (unfold zlen; lia). unfold zlen. f_equal; [lia|]. f_equal. lia. }
        rewrite bind_gpu_side_slice; [|rewrite length_take, length_drop; lia|done].
        unfold gpu_slice. f_equal. destruct (is_gds _).
        -- rewrite length_take, length_drop. replace (_ - _)%nat with 0%nat by lia. apply drop_0.
        -- rewrite take_take. f_equal. lia.
    + exists acc, (rewrite_ops (part dn) g). split; [done|]. exists (dn ++ [k]).
      split_and!; [by rewrite HL, <- app_assoc|by intros [? ?]|]. rewrite <- Halt with (u := id).
      * rewrite alter_rewrite by done. apply rewrite_ops_ext; [done|]. intros; by case_decide.
      * by rewrite Hbo.
    + eapply (Hfin _ _ Hbo).
      * rewrite length_gpu_slice; auto.
      * intros H. rewrite Hacc, Htot by done. lia.
      * apply bind_gpu_side_slice; auto.
  - rewrite app_nil_r in Hdn. rewrite M_bind_run, E. f_equal. apply rewrite_ops_ext; [done|].
    intros k o Ho. unfold part. case_decide as Hin; [done|]. unfold bound_op. fold L. rewrite Hdn. by rewrite decide_False.
Qed.

(** ** Properties *)

(** The diamond [1 -> {2, 3} -> 4] used by the witnesses: [D2H] feeding two sinks joined by a virtual op. *)
Definition plain_op (k : Z) (t : TransferType) (src dst : list Z) : TransferOp :=
  mkTransferOp k 0 t src dst ∅ ∅ PENDING 0 (-1) (-1) (zlen src) 0 false None None None None.

Definition diamond : TransferOpGraph :=
  depends 4 3 (depends 4 2 (depends 3 1 (depends 2 1
    (add_transfer_op (plain_op 4 VIRTUAL [] [])
      (add_transfer_op (plain_op 3 H2REMOTE [5] [6])
        (add_transfer_op (plain_op 2 H2DISK [5] [9])
          (add_transfer_op (plain_op 1 D2H [7] [5]) (mkGraph 0 [] ∅ ∅ [] [])))))))).

Lemma diamond_wf : graph_wf diamond.
Proof.
  unfold diamond.
  repeat (eapply depends_wf; [|vm_compute; reflexivity|vm_compute; reflexivity|reflexivity|discriminate]).
  repeat (apply add_transfer_op_wf; [|split_and!; vm_compute; reflexivity]). apply empty_wf.
Qed.

Section properties.
Context `{!SetOrder}.

(** [take_ready_ops] hands out, without repetition, exactly the pending ops all
    of whose predecessors are finished, marks them running and changes no other op;
    afterwards nothing is left to hand out and the graph is still well formed.  No
    iteration raises, whatever order Python walks the sets in. *)
Theorem take_ready_ops_spec g :
  graph_wf g →
  ∃ r g', take_ready_ops g = (Ok r, g') ∧ graph_wf g' ∧ NoDup r ∧
    (∀ k, k ∈ r ↔ ∃ o, op_at g k = Some o ∧ op_status o = PENDING ∧
       ∀ p q, op_at g p = Some q → k ∈ successors q → op_status q = COMPLETED) ∧
    (∀ k, op_at g' k = (λ o, if decide (k ∈ r) then op_with_status o RUNNING else o) <$> op_at g k) ∧
    (∀ k, ¬ eligible g' k).
Proof.
  intros Hwf. destruct (take_ready_ok g Hwf) as (r & rem & E & Hnd & Hr & Hrem & Hrun).
  eexists _, _. split; [exact E|]. split; [by apply taken_wf|]. split; [done|]. split_and!.
  - intros k. rewrite Hr. split; intros (o & Ho & Hp & Hx); exists o; split_and!; [done|done| |done|done|].
    + intros p q Hq Hin. destruct (decide (op_status q = COMPLETED)) as [|Hn]; [done|].
      assert (p ∈ predecessors o) by (apply (gw_pred _ Hwf _ _ _ Ho); by exists q). set_solver.
    + apply elem_of_equiv_empty_L. intros p (q & Hq & Hin & Hn)%(gw_pred _ Hwf _ _ _ Ho). eauto.
  - intros k. change (op_at (started r g) k = (λ o, if decide (k ∈ r) then op_with_status o RUNNING else o) <$> op_at g k).
    apply op_at_started.
  - intros k (o & Ho & Hp & He). change (op_at (started r g) k = Some o) in Ho. rewrite op_at_started in Ho.
    apply fmap_Some in Ho as (o0 & Ho & ->). unfold start in *. case_decide as Hd; [done|].
    apply Hd, Hr. by exists o0.
Qed.

(** [mark_completed] of a running op finishes it and releases its successors:
    each successor loses this predecessor and nothing else changes, so exactly the
    pending successors that waited for nothing else become eligible.  An op that is
    not running is refused by the assertion with the graph unchanged, an unknown id
    is ignored. *)
Theorem mark_completed_spec g k :
  graph_wf g →
  match op_at g k with
  | None => mark_completed k g = (Ok tt, g)
  | Some o =>
      if decide (op_status o = RUNNING) then
        mark_completed k g = (Ok tt, completed k g) ∧ graph_wf (completed k g) ∧
        ∀ j, eligible (completed k g) j ↔
          ∃ oj, op_at g j = Some oj ∧ op_status oj = PENDING ∧
            (predecessors oj = ∅ ∨ (j ∈ successors o ∧ predecessors oj = {[k]}))
      else mark_completed k g = (Raise AssertionError, g)
  end.
Proof.
  intros Hwf. destruct (op_at g k) as [o|] eqn:Ho.
  2:{ unfold mark_completed. rewrite M_bind_run. simpl. by rewrite Ho. }
  case_decide as Hr.
  2:{ unfold mark_completed. rewrite M_bind_run. simpl. rewrite Ho, M_bind_run.
      unfold assertM, lift_result, py_assert. by rewrite bool_decide_eq_false_2. }
  split_and!; [by eapply mark_completed_ok|by eapply completed_wf|]. intros j. split.
  - intros (o' & Ho' & Hp & He). unfold completed in Ho'. rewrite op_at_rewrite in Ho'.
    apply fmap_Some in Ho' as (oj & Hj & ->). exists oj. unfold complete_op in *.
    case_decide as Hjk; [done|]. simpl in *. split_and!; [done|done|].
    destruct (decide (k ∈ predecessors oj)) as [Hin|]; [right|left; set_solver].
    assert (predecessors oj = {[k]}) as ->.
    { apply set_eq. intros x. destruct (decide (x = k)) as [->|]; set_solver. }
    split; [|done]. apply (gw_pred _ Hwf _ _ _ Hj) in Hin as (q & ? & ? & _). by simplify_eq.
  - intros (oj & Hj & Hp & Hx). assert (j ≠ k) by (intros ->; congruence).
    exists (complete_op k j oj). split; [unfold completed; by rewrite op_at_rewrite, Hj|].
    unfold complete_op. rewrite decide_False by done. split; [done|]. simpl.
    destruct Hx as [->|[_ ->]]; set_solver.
Qed.

(** A graph never stalls: as long as some op is unfinished and the edges are
    acyclic, an op is running or the next [take_ready_ops] returns one. *)
Theorem graph_progress g :
  graph_wf g → acyclic g → all_transfer_ops_completed g = false →
  (∃ k o, op_at g k = Some o ∧ op_status o = RUNNING) ∨
  (∃ r g', take_ready_ops g = (Ok r, g') ∧ r ≠ []).
Proof.
  intros Hwf Hac Hall.
  assert (∃ k o, op_at g k = Some o ∧ op_status o ≠ COMPLETED) as (k & o & Ho & Hn).
  { unfold all_transfer_ops_completed in Hall. apply not_true_iff_false in Hall.
    destruct (decide (Exists (λ kv : Z * TransferOp, op_status kv.2 ≠ COMPLETED) (_op_map g))) as [Hex|Hne].
    - apply Exists_exists in Hex as ([k o] & Hin & Hs). exists k, o. split; [|done].
      apply dict_elem_get; [apply Hwf|done].
    - destruct Hall. apply forallb_forall. intros kv Hin. apply bool_decide_eq_true.
      destruct (decide (op_status kv.2 = COMPLETED)) as [|Hs]; [done|]. destruct Hne.
      apply Exists_exists. exists kv. split; [by apply list_elem_of_In|done]. }
  destruct (progress_lemma g k o Hwf Hac Ho Hn) as (j & [He|(oj & Hj & Hr)]); [right|left; by exists j, oj].
  destruct (take_ready_ok g Hwf) as (r & rem & E & _ & Hr & _). eexists _, _. split; [exact E|].
  apply Hr in He. intros ->. by apply not_elem_of_nil in He.
Qed.
End properties.

Lemma take_ready_ops_spec_witness :
  graph_wf diamond ∧
  ∃ g', take_ready_ops diamond = (Ok [1], g') ∧ graph_wf g' ∧ ∀ k, ¬ eligible g' k.
Proof.
  split; [exact diamond_wf|].
  destruct (take_ready_ops_spec diamond diamond_wf) as (r & g' & E & Hwf & _ & _ & _ & He).
  assert (r = [1]) as ->.
  { assert (fst (take_ready_ops diamond) = Ok r) as Hr by (rewrite E; reflexivity).
    vm_compute in Hr. congruence. }
  exists g'. split; [exact E|]. split; [exact Hwf|exact He].
Defined.

Lemma mark_completed_spec_witness :
  ∃ g o, graph_wf g ∧ op_at g 1 = Some o ∧ op_status o = RUNNING ∧ mark_completed 1 g = (Ok tt, completed 1 g) ∧
    eligible (completed 1 g) 2.
Proof.
  destruct (take_ready_ok diamond diamond_wf) as (r & rem & E & _ & Hr & Hrem & Hrun).
  pose proof (taken_wf _ _ _ diamond_wf Hr Hrem Hrun) as Hwf.
  pose (g := (take_ready_ops diamond).2).
  assert (graph_wf g) as Hg by (unfold g; rewrite E; exact Hwf).
  destruct (op_at g 1) as [o|] eqn:Ho; [|vm_compute in Ho; discriminate Ho].
  assert (op_status o = RUNNING) as Hst by (vm_compute in Ho; injection Ho as <-; reflexivity).
  exists g, o. pose proof (mark_completed_spec g 1 Hg) as H. rewrite Ho, decide_True in H by exact Hst.
  destruct H as (H1 & _ & H3). split; [exact Hg|]. split; [exact Ho|]. split; [exact Hst|]. split; [exact H1|].
  apply H3. destruct (op_at g 2) as [o2|] eqn:Ho2; [|vm_compute in Ho2; discriminate Ho2].
  exists o2. split; [reflexivity|]. vm_compute in Ho, Ho2. injection Ho as <-. injection Ho2 as <-.
  split; [reflexivity|]. right. split; [apply (bool_decide_unpack _); vm_compute; exact I|reflexivity].
Defined.

Lemma graph_progress_witness :
  graph_wf diamond ∧ all_transfer_ops_completed diamond = false ∧
  ∃ r g', take_ready_ops diamond = (Ok r, g') ∧ r ≠ [].
Proof.
  split; [exact diamond_wf|]. split; [reflexivity|].
  destruct (graph_progress diamond diamond_wf) as [(k & o & Ho & Hs)|H]; [|reflexivity| |exact H].
  - exists Z.to_nat. intros k o s Ho Hs. apply dict_get_Some_elem in Ho. apply list_elem_of_In in Ho.
    vm_compute in Ho.
    repeat match type of Ho with _ ∨ _ => destruct Ho as [Ho|Ho] end; [| | | |destruct Ho];
      injection Ho as <- <-; apply elem_of_elements, list_elem_of_In in Hs; vm_compute in Hs;
      repeat match type of Hs with _ ∨ _ => destruct Hs as [Hs|Hs] end; subst; try destruct Hs;
      apply Nat.ltb_lt; vm_compute; reflexivity.
  - apply dict_get_Some_elem in Ho. apply list_elem_of_In in Ho. vm_compute in Ho.
    repeat match type of Ho with _ ∨ _ => destruct Ho as [Ho|Ho] end; [| | | |destruct Ho];
      injection Ho as _ <-; discriminate Hs.
Defined.

(** Late binding of GPU blocks: when the arrays are long enough, [set_gpu_blocks]
    succeeds, leaves the host side of every op alone, gives each main-KV op the
    first blocks of the GPU array (the last ones for the two GDS types), in the
    number its placeholder had, and deals the SWA array out to the SWA ops in
    consecutive segments, in list order; without an SWA array the SWA ops keep
    their blocks. *)
Theorem set_gpu_blocks_spec g gpu swa :
  bindable g gpu swa →
  ∃ g', set_gpu_blocks gpu swa g = (Ok tt, g') ∧
    (∀ k o, op_at g k = Some o → k ∉ _gpu_transfer_op_id g → op_at g' k = Some o) ∧
    (∀ l k l' o, _gpu_transfer_op_id g = l ++ k :: l' → op_at g k = Some o →
       ∃ o', op_at g' k = Some o' ∧ host_side o' = host_side o ∧
         gpu_side o' =
           match is_swa o, swa with
           | true, None => gpu_side o
           | true, Some s => take (length (gpu_side o)) (drop (swa_total g l) s)
           | false, _ => gpu_slice (transfer_type o) (length (gpu_side o)) gpu
           end).
Proof.
  intros Hb. eexists. split; [by apply set_gpu_blocks_ok|]. split.
  - intros k o Ho Hn. rewrite op_at_rewrite, Ho. simpl. unfold bound_op. by rewrite decide_False.
  - intros l k l' o HL Ho. rewrite op_at_rewrite, Ho. eexists. split; [done|].
    assert (k ∉ l) as Hkl.
    { pose proof (bd_nodup _ _ _ Hb) as Hnd. rewrite HL in Hnd. apply NoDup_app in Hnd as (_ & Hd & _).
      intros Hin. apply (Hd _ Hin). left. }
    unfold bound_op. rewrite decide_True by (rewrite HL; set_solver). rewrite HL, before_mid by done.
    destruct (is_swa o); [destruct swa|]; by rewrite ?gpu_side_bound, ?host_side_bound.
Qed.

Lemma set_gpu_blocks_spec_witness :
  ∃ g', set_gpu_blocks [40; 41; 42] None (add_transfer_op (plain_op 1 H2D [5; 6] [0; 0]) (mkGraph 0 [] ∅ ∅ [] [])) = (Ok tt, g') ∧
    ∃ o', op_at g' 1 = Some o' ∧ src_block_ids o' = [5; 6] ∧ dst_block_ids o' = [40; 41].
Proof.
  pose (g := add_transfer_op (plain_op 1 H2D [5; 6] [0; 0]) (mkGraph 0 [] ∅ ∅ [] [])).
  assert (bindable g [40; 41; 42] None) as Hb.
  { split.
    - apply NoDup_singleton.
    - apply NoDup_singleton.
    - intros k Hk. apply list_elem_of_singleton in Hk as ->. eexists. split; [reflexivity|].
      split; [reflexivity|]. split; [intros Hd; discriminate Hd|]. intros _. apply Nat.leb_le. reflexivity.
    - intros s Hs. discriminate Hs. }
  destruct (set_gpu_blocks_spec g [40; 41; 42] None Hb) as (g' & E & _ & H).
  exists g'. split; [exact E|].
  destruct (H [] 1 [] _ eq_refl eq_refl) as (o' & Ho' & Hh & Hg). exists o'. split; [exact Ho'|].
  assert (Some o' = op_at (set_gpu_blocks [40; 41; 42] None g).2 1) as Hv by (rewrite E; symmetry; exact Ho').
  vm_compute in Hv. injection Hv as ->. split; reflexivity.
Defined.

(** [clear_gpu_blocks] wipes the host side of the main-KV ops as well, so binding
    again transfers nothing: the CPU blocks of this H2D op are gone. *)
Example clear_then_set_loses_host_blocks :
  let g := add_transfer_op (plain_op 1 H2D [5; 6] [0; 0]) (mkGraph 0 [] ∅ ∅ [] []) in
  ∃ g1 g2 o, clear_gpu_blocks g = (Ok tt, g1) ∧ set_gpu_blocks [40; 41; 42] None g1 = (Ok tt, g2) ∧
    op_at g2 1 = Some o ∧ src_block_ids o = [] ∧ dst_block_ids o = [].
Proof. eexists _, _, _. split; [reflexivity|]. split; [reflexivity|]. split; [reflexivity|]. done. Qed.

(** And for the GDS types the slice [[-0:]] is the whole array, so binding fails. *)
Example clear_then_set_gds_fails :
  let g := add_transfer_op (plain_op 1 DISK2D [5; 6] [0; 0]) (mkGraph 0 [] ∅ ∅ [] []) in
  ∃ g1, clear_gpu_blocks g = (Ok tt, g1) ∧ (set_gpu_blocks [40; 41; 42] None g1).1 = Raise AssertionError.
Proof. eexists. split; reflexivity. Qed.

(** A suspended op (added with [need_trigger]) is still pending when it is released,
    so the assertion of [mark_completed] fails after it has left [_trigger_ops]. *)
Lemma trigger_op_fails `{!SetOrder} g o :
  op_at g (op_id o) = None →
  ∃ g', trigger_op (op_id o) (add_virtual_op (op_with_status o PENDING) true g) = (Raise AssertionError, g') ∧
    op_id o ∉ _trigger_ops g'.
Proof.
  intros Hn. set (g1 := add_virtual_op _ _ _).
  assert (op_at g1 (op_id o) = Some (op_with_graph (op_with_status o PENDING) (graph_id g) VIRTUAL)) as Ho by apply dict_get_set_eq.
  assert (op_id o ∈ _trigger_ops g1) as Ht by (simpl; set_solver).
  set (g2 := with_ready (λ s, s ∖ {[op_id o]}) (with_trigger (λ s, s ∖ {[op_id o]}) g1)).
  assert (trigger_op (op_id o) g1 = mark_completed (op_id o) g2) as ->.
  { unfold trigger_op. rewrite M_bind_run. cbn [get_state fst snd]. by rewrite bool_decide_eq_true_2. }
  assert (op_at g2 (op_id o) = op_at g1 (op_id o)) as Hsame by done.
  exists g2. unfold mark_completed. rewrite M_bind_run. cbn [get_state fst snd]. rewrite Hsame, Ho.
  split; [reflexivity|]. subst g2. simpl. set_solver.
Qed.
