(* ===== verification/Scheduler.v ===== *)
(** * TransferScheduler: incremental scheduling of transfer graphs

    Models [flexkv/transfer/scheduler.py].  The graphs in flight and the dirty
    queue are the two ordered dictionaries of the class; the ops returned by
    [schedule] are references into the graphs, written (graph id, op id).

    The drain loop of [schedule] is a [while] that may re-queue a graph; it runs
    here on the fuel [drain_fuel], and [schedule_spec] shows that the fuel never
    runs out, that is, that the loop terminates. *)

From S2P Require Import Prelude Transfer.
Local Open Scope Z_scope.

Module Scheduler.

Record TransferScheduler : Type := mkScheduler {
  _transfer_graphs : list (Z * TransferOpGraph);
  _dirty_graph_ids : list (Z * unit);
}.

Definition init : TransferScheduler := mkScheduler [] [].

Definition with_graphs f (s : TransferScheduler) := mkScheduler (f (_transfer_graphs s)) (_dirty_graph_ids s).
Definition with_dirty f (s : TransferScheduler) := mkScheduler (_transfer_graphs s) (f (_dirty_graph_ids s)).

Definition add_transfer_graph (graph : TransferOpGraph) (s : TransferScheduler) : TransferScheduler :=
  with_dirty (dict_set (graph_id graph) tt) (with_graphs (dict_set (graph_id graph) graph) s).

Definition fail_graph (graph_id : Z) (s : TransferScheduler) : TransferScheduler :=
  with_graphs (dict_pop graph_id) s.

(** A method call on [self._transfer_graphs[graph_id]]: the object is mutated in place,
    also when the call raises. *)
Definition on_graph {A} (gid : Z) (m : M TransferOpGraph A) : M TransferScheduler A := fun s =>
  match dict_get gid (_transfer_graphs s) with
  | None => (Raise KeyError, s)
  | Some g => let '(r, g') := m g in (r, with_graphs (dict_set gid g') s)
  end.

Section schedule.
Context `{!SetOrder}.

(** One visit of a dirty graph: [(revisit, ops taken)]. *)
Definition visit_op (acc : bool * list Z) (op_id : Z) : M TransferOpGraph (bool * list Z) :=
  op ← get_op op_id;
  if bool_decide (transfer_type op = VIRTUAL)
  then mark_completed op_id ;; mret (true, acc.2 ++ [op_id])
  else mret (acc.1, acc.2 ++ [op_id]).

Definition visit_graph : M TransferOpGraph (bool * list Z) :=
  ready ← take_ready_ops; for_acc visit_op (false, []) ready.

(** [while self._dirty_graph_ids: ...] *)
Fixpoint drain (fuel : nat) (acc : list Z * list (Z * Z)) : M TransferScheduler (list Z * list (Z * Z)) :=
  match fuel with
  | O => raise RecursionLimit
  | S fuel =>
      s ← get_state;
      match _dirty_graph_ids s with
      | [] => mret acc
      | (gid, _) :: _ =>
          match dict_get gid (_transfer_graphs s) with
          | None => modify_state (with_dirty (dict_pop gid)) ;; drain fuel acc
          | Some _ =>
              v ← on_graph gid visit_graph;
              fin ← on_graph gid (gets all_transfer_ops_completed);
              let next_ops := acc.2 ++ ((λ k, (gid, k)) <$> v.2) in
              if fin : bool then
                modify_state (with_graphs (dict_pop gid)) ;;
                modify_state (with_dirty (dict_pop gid)) ;;
                drain fuel (acc.1 ++ [gid], next_ops)
              else
                modify_state (with_dirty (dict_pop gid)) ;;
                (if v.1 : bool then modify_state (with_dirty (dict_set gid tt)) else mret tt) ;;
                drain fuel (acc.1, next_ops)
          end
      end
  end.

(** Ops of a graph that have not been handed out yet. *)
Definition is_pending (g : TransferOpGraph) (k : Z) : Prop := op_status <$> op_at g k = Some PENDING.
#[export] Instance is_pending_dec g k : Decision (is_pending g k).
Proof. unfold is_pending. apply _. Defined.
Definition pending_ops (g : TransferOpGraph) : nat := length (filter (is_pending g) (_op_map g).*1).
Definition total_pending (d : list (Z * TransferOpGraph)) : nat := foldr (λ kv n, pending_ops kv.2 + n)%nat 0%nat d.
Definition drain_fuel (s : TransferScheduler) : nat :=
  S (total_pending (_transfer_graphs s) + length (_dirty_graph_ids s)).

Definition finish_op (x : Z * Z) : M TransferScheduler unit :=
  s ← get_state;
  if dict_mem x.1 (_transfer_graphs s)
  then modify_state (with_dirty (dict_set x.1 tt)) ;; on_graph x.1 (mark_completed x.2)
  else mret tt.

(** [finished_ops] are references (graph id, op id). *)
Definition schedule (finished_ops : list (Z * Z)) : M TransferScheduler (list Z * list (Z * Z)) :=
  for_each finish_op finished_ops ;;
  s ← get_state;
  drain (drain_fuel s) ([], []).
End schedule.

(** ** Evolution of a graph *)

(** The op but for the two fields that change as a graph executes. *)
Definition op_static (o : TransferOp) : TransferOp := op_with_edges (op_with_status o PENDING) ∅ (successors o).

Record op_le (o o' : TransferOp) : Prop := {
  le_static : op_static o' = op_static o;
  le_started : op_status o ≠ PENDING → op_status o' ≠ PENDING;
  le_done : op_status o = COMPLETED → op_status o' = COMPLETED;
}.

Record evolves (g g' : TransferOpGraph) : Prop := {
  ev_id : graph_id g' = graph_id g;
  ev_keys : (_op_map g').*1 = (_op_map g).*1;
  ev_fwd : ∀ k o, op_at g k = Some o → ∃ o', op_at g' k = Some o' ∧ op_le o o';
  ev_bwd : ∀ k o', op_at g' k = Some o' → ∃ o, op_at g k = Some o ∧ op_le o o';
}.

Lemma le_type o o' : op_le o o' → transfer_type o' = transfer_type o.
Proof. intros H. exact (f_equal transfer_type (le_static _ _ H)). Qed.
Lemma le_succ o o' : op_le o o' → successors o' = successors o.
Proof. intros H. exact (f_equal successors (le_static _ _ H)). Qed.

#[export] Instance op_le_preorder : PreOrder op_le.
Proof.
  split; [by intros o; split|]. intros x y z [H1 H3 H4] [K1 K3 K4].
  split; [congruence|auto|auto].
Qed.

#[export] Instance evolves_preorder : PreOrder evolves.
Proof.
  split.
  - intros g. split; [done|done|..]; intros k o Ho; by exists o.
  - intros x y z [H1 H2 H3 H4] [K1 K2 K3 K4]. split; [congruence|congruence|..].
    + intros k o (o' & Ho' & ?)%H3. destruct (K3 _ _ Ho') as (o2 & ? & ?). exists o2. split; [done|]. by etrans.
    + intros k o (o' & Ho' & ?)%K4. destruct (H4 _ _ Ho') as (o2 & ? & ?). exists o2. split; [done|]. by etrans.
Qed.

Lemma evolves_rewrite h g :
  (∀ k o, op_at g k = Some o → op_le o (h k o)) → evolves g (rewrite_ops h g).
Proof.
  intros Hh. split; [done|apply dict_keys_dmap|..].
  - intros k o Ho. exists (h k o). split; [by rewrite op_at_rewrite, Ho|by apply Hh].
  - intros k o'. rewrite op_at_rewrite. intros (o & Ho & ->)%fmap_Some. exists o. auto.
Qed.

Lemma filter_length_le {A} (P Q : A → Prop) `{!∀ x, Decision (P x), !∀ x, Decision (Q x)} (l : list A) :
  (∀ x, x ∈ l → Q x → P x) → (length (filter Q l) <= length (filter P l))%nat.
Proof.
  induction l as [|x l IH]; intros HQP; [done|]. rewrite !filter_cons.
  assert (length (filter Q l) <= length (filter P l))%nat by (apply IH; intros; apply HQP; [by right|done]).
  repeat case_decide; simpl; try lia. exfalso. eauto using list_elem_of_here.
Qed.

Lemma filter_length_lt {A} (P Q : A → Prop) `{!∀ x, Decision (P x), !∀ x, Decision (Q x)} (l : list A) y :
  (∀ x, x ∈ l → Q x → P x) → y ∈ l → P y → ¬ Q y → (length (filter Q l) < length (filter P l))%nat.
Proof.
  intros HQP Hy HP HQ. induction l as [|x l IH]; [by apply not_elem_of_nil in Hy|]. rewrite !filter_cons.
  assert (length (filter Q l) <= length (filter P l))%nat by (apply filter_length_le; intros; apply HQP; [by right|done]).
  apply elem_of_cons in Hy as [->|Hy].
  - rewrite decide_False, decide_True by done. simpl. lia.
  - assert (length (filter Q l) < length (filter P l))%nat by (apply IH; [intros; apply HQP; [by right|done]|done]).
    repeat case_decide; simpl; try lia. exfalso. eauto using list_elem_of_here.
Qed.

Section lemmas.
Context `{!SetOrder}.

Lemma evolves_completed g k : evolves g (completed k g).
Proof. apply evolves_rewrite. intros j o _. unfold complete_op. case_decide; by split. Qed.

Lemma is_pending_alt g k : is_pending g k ↔ ∃ o, op_at g k = Some o ∧ op_status o = PENDING.
Proof.
  unfold is_pending. destruct (op_at g k) as [o|]; simpl.
  - split; [intros [= ?]; by exists o|]. intros (o' & [= ->] & ->). done.
  - split; [done|]. by intros (o' & ? & _).
Qed.

Lemma evolves_pending g g' k : evolves g g' → is_pending g' k → is_pending g k.
Proof.
  rewrite !is_pending_alt. intros Hev (o' & Ho' & Hp). destruct (ev_bwd _ _ Hev _ _ Ho') as (o & Ho & Hle).
  exists o. split; [done|]. destruct (decide (op_status o = PENDING)) as [|Hn]; [done|].
  by destruct (le_started _ _ Hle Hn).
Qed.

Lemma pending_ops_le g g' : evolves g g' → (pending_ops g' <= pending_ops g)%nat.
Proof.
  intros Hev. unfold pending_ops. rewrite (ev_keys _ _ Hev). apply filter_length_le.
  intros x _. by apply evolves_pending.
Qed.

Lemma pending_ops_lt g g' k :
  evolves g g' → is_pending g k → ¬ is_pending g' k → (pending_ops g' < pending_ops g)%nat.
Proof.
  intros Hev Hp Hn. unfold pending_ops. rewrite (ev_keys _ _ Hev). eapply filter_length_lt; [|..|done|done].
  - intros x _. by apply evolves_pending.
  - apply is_pending_alt in Hp as (o & Ho & _). by eapply dict_get_Some_key.
Qed.

(** *** One visit *)

(** No virtual op is left running between two calls. *)
Definition no_virtual_running (g : TransferOpGraph) : Prop :=
  ∀ k o, op_at g k = Some o → transfer_type o = VIRTUAL → op_status o ≠ RUNNING.

(** What a visit that took [r] did. *)
Record visited (g : TransferOpGraph) (r : list Z) (g' : TransferOpGraph) : Prop := {
  vi_evolves : evolves g g';
  vi_wf : graph_wf g';
  vi_nodup : NoDup r;
  vi_taken : ∀ k, k ∈ r ↔ eligible g k;
  vi_started : ∀ k, k ∈ r ↔ is_pending g k ∧ ¬ is_pending g' k;
  vi_done : ∀ k o, op_at g' k = Some o → op_status o = COMPLETED →
    (∃ o0, op_at g k = Some o0 ∧ op_status o0 = COMPLETED) ∨ (k ∈ r ∧ transfer_type o = VIRTUAL);
  vi_virtual : no_virtual_running g';
}.

(** The graph after the first ops [ops] of the taken ones were processed. *)
Definition done_ops (ops : list Z) (j : Z) (o0 o : TransferOp) : Prop :=
  op_le o0 o ∧ op_status o = if decide (j ∈ ops ∧ transfer_type o0 = VIRTUAL) then COMPLETED else op_status o0.

Lemma visit_ops_ok g1 r :
  graph_wf g1 → NoDup r → (∀ k, k ∈ r → ∃ o, op_at g1 k = Some o ∧ op_status o = RUNNING) →
  (∀ k, ¬ eligible g1 k) →
  ∃ rev g', for_acc visit_op (false, []) r g1 = (Ok (rev, r), g') ∧ graph_wf g' ∧ evolves g1 g' ∧
    (∀ j o, op_at g' j = Some o → ∃ o0, op_at g1 j = Some o0 ∧ done_ops r j o0 o) ∧
    (rev = false → ∀ k, ¬ eligible g' k) ∧
    (rev = true → ∃ k, k ∈ r).
Proof.
  intros Hwf Hnd Hrun Hsettled.
  destruct (for_acc_ok (λ (acc : bool * list Z) l s, acc.2 ++ l = r ∧ graph_wf s ∧ evolves g1 s ∧
      (∀ j o, op_at s j = Some o → ∃ o0, op_at g1 j = Some o0 ∧ done_ops acc.2 j o0 o) ∧
      (acc.1 = false → ∀ k, ¬ eligible s k) ∧ (acc.1 = true → ∃ k, k ∈ r)) visit_op (false, []) r g1)
    as ([rev ops] & g' & E & Hr & Hwf' & Hev & Hops & Hrev & Hrev').
  - split_and!; [done|done|done| |done|done]. intros j o Ho. exists o. split; [done|]. split; [done|].
    rewrite decide_False; [done|]. by intros [?%not_elem_of_nil _].
  - intros [rev ops] k l s (Hr & Hwfs & Hev & Hops & Hrev & Hrev'). simpl in *.
    assert (k ∈ r) as Hkr by (rewrite <- Hr; set_solver).
    assert (k ∉ ops) as Hk.
    { rewrite <- Hr in Hnd. apply NoDup_app in Hnd as (_ & Hd & _). intros Hin. apply (Hd _ Hin). left. }
    destruct (Hrun _ Hkr) as (o1 & Ho1 & Hst1). destruct (ev_fwd _ _ Hev _ _ Ho1) as (ok & Hok & Hle).
    assert (op_status ok = RUNNING) as Hstk.
    { destruct (Hops _ _ Hok) as (o0 & Ho0 & _ & Hst). simplify_eq. rewrite Hst. by rewrite decide_False by naive_solver. }
    assert ((ops ++ [k]) ++ l = r) as Hr' by (by rewrite <- app_assoc).
    unfold visit_op. rewrite M_bind_run, (get_op_run _ _ _ Hok). simpl.
    case_bool_decide as Hv.
    + rewrite M_bind_run, (mark_completed_ok _ _ _ Hwfs Hok Hstk). eexists _, _. split; [reflexivity|]. cbn [fst snd].
      split_and!; [done|by eapply completed_wf|etrans; [done|apply evolves_completed]| |done|by exists k].
      intros j o. unfold completed. rewrite op_at_rewrite. intros (os & Hos & ->)%fmap_Some.
      destruct (Hops _ _ Hos) as (o0 & Ho0 & Hle0 & Hst0). exists o0. split; [done|].
      unfold complete_op. destruct (decide (j = k)) as [->|Hjk].
      * assert (transfer_type o0 = VIRTUAL) as Hv0 by (rewrite <- (le_type _ _ Hle0); congruence).
        split; [destruct Hle0; by split|]. rewrite decide_True; [done|]. split; [set_solver|done].
      * split; [destruct Hle0; by split|]. simpl. rewrite Hst0.
        destruct (decide (j ∈ ops ∧ _)), (decide (j ∈ ops ++ [k] ∧ _)); set_solver.
    + eexists _, _. split; [reflexivity|]. simpl. split_and!; [done..| |done|done].
      intros j o Ho. destruct (Hops _ _ Ho) as (o0 & Ho0 & Hle0 & Hst0). exists o0. split; [done|]. split; [done|].
      rewrite Hst0. destruct (decide (j = k)) as [->|Hjk].
      * simplify_eq. rewrite !decide_False; [done|..]; rewrite <- (le_type _ _ Hle); naive_solver.
      * destruct (decide (j ∈ ops ∧ _)), (decide (j ∈ ops ++ [k] ∧ _)); set_solver.
  - simpl in *. rewrite app_nil_r in Hr. subst ops. by exists rev, g'.
Qed.

Lemma visit_graph_ok g :
  graph_wf g → no_virtual_running g →
  ∃ rev r g', visit_graph g = (Ok (rev, r), g') ∧ visited g r g' ∧
    (rev = false → ∀ k, ¬ eligible g' k) ∧ (rev = true → (pending_ops g' < pending_ops g)%nat).
Proof.
  intros Hwf Hnv. destruct (take_ready_ok g Hwf) as (r & rem & E & Hnd & Hr & Hrem & Hrn).
  pose proof (taken_wf _ _ _ Hwf Hr Hrem Hrn) as Hwf1.
  set (g1 := with_ready _ _) in *.
  assert (∀ k, op_at g1 k = start r k <$> op_at g k) as Hg1 by (intros k; apply op_at_started).
  assert (evolves g g1) as Hev1.
  { assert (evolves g (started r g)) as [H1 H2 H3 H4].
    { apply evolves_rewrite. intros k o Ho. unfold start. case_decide as Hin; [|done].
      apply Hr in Hin as (? & ? & Hp & _). simplify_eq. by split; rewrite ?Hp. }
    by split. }
  destruct (visit_ops_ok g1 r Hwf1 Hnd) as (rev & g' & E2 & Hwf' & Hev2 & Hops & Hset & Hrv).
  - intros k Hin. pose proof Hin as (o & Ho & _)%Hr. exists (start r k o). rewrite Hg1, Ho.
    split; [done|]. unfold start. by rewrite decide_True.
  - intros k (o & Ho & Hp & He). rewrite Hg1 in Ho. apply fmap_Some in Ho as (o0 & Ho & ->).
    unfold start in *. case_decide as Hd; [done|]. apply Hd, Hr. by exists o0.
  - assert (evolves g g') as Hev by (by etrans).
    assert (∀ j o, op_at g' j = Some o → ∃ o0, op_at g j = Some o0 ∧ transfer_type o = transfer_type o0 ∧
      op_status o = if decide (j ∈ r) then (if decide (transfer_type o0 = VIRTUAL) then COMPLETED else RUNNING) else op_status o0) as Hst.
    { intros j o (o1 & Ho1 & Hle & Hs)%Hops. rewrite Hg1 in Ho1. apply fmap_Some in Ho1 as (o0 & Ho0 & ->).
      exists o0. split; [done|]. rewrite (le_type _ _ Hle), Hs. unfold start.
      destruct (decide (j ∈ r)); simpl; repeat case_decide; naive_solver. }
    assert (∀ k, k ∈ r ↔ is_pending g k ∧ ¬ is_pending g' k) as Hstart.
    { intros k. rewrite !is_pending_alt. split.
      - intros Hin. pose proof Hin as (o & Ho & Hp & _)%Hr. split; [by exists o|].
        intros (o' & (o0 & Ho0 & _ & Hs)%Hst & Hp'). rewrite Hs, decide_True in Hp' by done. by case_decide.
      - intros [(o & Ho & Hp) Hn]. destruct (ev_fwd _ _ Hev _ _ Ho) as (o' & Ho' & _).
        destruct (Hst _ _ Ho') as (o0 & Ho0 & _ & Hs). simplify_eq.
        destruct (decide (k ∈ r)) as [|]; [done|]. destruct Hn. exists o'. by rewrite Hs. }
    exists rev, r, g'. unfold visit_graph. rewrite M_bind_run, E. split; [done|]. split; [|split; [done|]].
    + split; [done|done|done|done|done| |].
      * intros k o (o0 & Ho0 & Ht & Hs)%Hst Hc. rewrite Hs in Hc. rewrite Ht.
        case_decide as Hin; [|left; by exists o0]. right. split; [done|]. by case_decide.
      * intros k o (o0 & Ho0 & Ht & Hs)%Hst Hv. rewrite Hs. rewrite Ht in Hv.
        case_decide; [by rewrite decide_True|]. by eapply Hnv.
    + intros Hrev. destruct (Hrv Hrev) as [k Hk]. apply Hstart in Hk as [? ?]. by eapply pending_ops_lt.
Qed.
End lemmas.

(** ** The scheduler between and during calls *)

Abbreviation graph_at s gid := (dict_get gid (_transfer_graphs s)).

Record sched_wf (s : TransferScheduler) : Prop := {
  sw_keys : dict_wf (_transfer_graphs s);
  sw_dirty : dict_wf (_dirty_graph_ids s);
  sw_graph : ∀ gid g, graph_at s gid = Some g → graph_wf g ∧ graph_id g = gid ∧ no_virtual_running g;
  (* a clean graph has nothing to hand out and is not finished *)
  sw_settled : ∀ gid g, graph_at s gid = Some g → dict_get gid (_dirty_graph_ids s) = None →
    (∀ k, ¬ eligible g k) ∧ all_transfer_ops_completed g = false;
}.

(** What a call did to one graph: [g0] before, [g] after, given the ops [F] reported
    finished and the ops [N] handed out. *)
Record outcome (F N : list (Z * Z)) (gid : Z) (g0 g : TransferOpGraph) : Prop := {
  oc_wf : graph_wf g;
  oc_evolves : evolves g0 g;
  oc_virtual : no_virtual_running g;
  oc_taken : ∀ k, (gid, k) ∈ N ↔ is_pending g0 k ∧ ¬ is_pending g k;
  oc_done : ∀ k o, op_at g k = Some o → op_status o = COMPLETED →
    (∃ o0, op_at g0 k = Some o0 ∧ op_status o0 = COMPLETED) ∨ (gid, k) ∈ F ∨
    ((gid, k) ∈ N ∧ transfer_type o = VIRTUAL);
}.

Record during (s0 : TransferScheduler) (F N : list (Z * Z)) (dn : list Z) (s : TransferScheduler) : Prop := {
  du_keys : dict_wf (_transfer_graphs s);
  du_dirty : dict_wf (_dirty_graph_ids s);
  du_N : NoDup N;
  du_dn : NoDup dn;
  du_graph : ∀ gid g0, graph_at s0 gid = Some g0 → ∃ g, outcome F N gid g0 g ∧
    (((gid ∉ dn) ∧ graph_at s gid = Some g) ∨
     (gid ∈ dn ∧ graph_at s gid = None ∧ all_transfer_ops_completed g = true));
  du_none : ∀ gid, graph_at s0 gid = None → graph_at s gid = None ∧ (gid ∉ dn) ∧ ∀ k, (gid, k) ∉ N;
  du_settled : ∀ gid g, graph_at s gid = Some g → dict_get gid (_dirty_graph_ids s) = None →
    (∀ k, ¬ eligible g k) ∧ all_transfer_ops_completed g = false;
}.

Section drain_lemmas.
Context `{!SetOrder}.

Lemma elem_of_tagged (gid gid' k : Z) (r : list Z) :
  (gid', k) ∈ (λ j, (gid, j)) <$> r ↔ gid' = gid ∧ k ∈ r.
Proof.
  rewrite list_elem_of_fmap. split; [by intros (j & [= -> ->] & ?)|]. intros [-> ?]. by exists k.
Qed.

Lemma outcome_visit F N gid g0 g r g' :
  outcome F N gid g0 g → visited g r g' → outcome F (N ++ ((λ k, (gid, k)) <$> r)) gid g0 g'.
Proof.
  intros Ho Hv. split; [apply Hv| |apply Hv|..].
  - etrans; [apply Ho|apply Hv].
  - intros k. rewrite elem_of_app, (oc_taken _ _ _ _ _ Ho), elem_of_tagged, (vi_started _ _ _ Hv). split.
    + intros [[H1 H2]|[_ [H1 H2]]]; split; try done.
      * intros H3. apply H2. eapply evolves_pending; [apply Hv|done].
      * eapply evolves_pending; [apply Ho|done].
    + intros [H1 H2]. destruct (decide (is_pending g k)); [right|left]; done.
  - intros k o Hk Hc. rewrite elem_of_app, elem_of_tagged.
    destruct (vi_done _ _ _ Hv _ _ Hk Hc) as [(o1 & Ho1 & Hc1)|[? ?]]; [|by right; right; split; [right|]].
    destruct (ev_fwd _ _ (vi_evolves _ _ _ Hv) _ _ Ho1) as (o' & Ho' & Hle). simplify_eq.
    destruct (oc_done _ _ _ _ _ Ho _ _ Ho1 Hc1) as [?|[?|[? Hvirt]]]; [by left|by right; left|].
    right. right. split; [by left|]. by rewrite (le_type _ _ Hle).
Qed.

Lemma outcome_other F N gid gid' r g0 g :
  gid' ≠ gid → outcome F N gid' g0 g → outcome F (N ++ ((λ k, (gid, k)) <$> r)) gid' g0 g.
Proof.
  intros Hne Ho.
  assert (∀ k, (gid', k) ∈ N ++ ((λ k, (gid, k)) <$> r) ↔ (gid', k) ∈ N) as Hiff.
  { intros k. rewrite elem_of_app, elem_of_tagged. naive_solver. }
  split; try apply Ho.
  - intros k. rewrite Hiff. apply Ho.
  - intros k o Hk Hc. rewrite Hiff. by apply (oc_done _ _ _ _ _ Ho).
Qed.

Lemma on_graph_ok {A} gid (m : M TransferOpGraph A) g a g' s :
  graph_at s gid = Some g → m g = (Ok a, g') → on_graph gid m s = (Ok a, with_graphs (dict_set gid g') s).
Proof. unfold on_graph. by intros -> ->. Qed.

Lemma total_pending_set d gid g g' :
  dict_get gid d = Some g → (total_pending (dict_set gid g' d) + pending_ops g = total_pending d + pending_ops g')%nat.
Proof.
  induction d as [|[k v] d IH]; simpl; [done|]. case_decide; subst; simpl.
  - intros [= ->]. lia.
  - intros Hg. specialize (IH Hg). lia.
Qed.

Lemma total_pending_pop d gid : (total_pending (dict_pop gid d) <= total_pending d)%nat.
Proof. induction d as [|[k v] d IH]; simpl; [done|]. case_decide; simpl; lia. Qed.

Lemma length_dict_set_absent {V} k (v : V) (d : list (Z * V)) :
  dict_get k d = None → length (dict_set k v d) = S (length d).
Proof. induction d as [|[k' v'] d IH]; simpl; [done|]. case_decide; [done|]. simpl. intros. by rewrite IH. Qed.

(** One iteration: the head of the dirty queue is visited. *)
Lemma during_visit s0 F N dn s gid g r g' (dirty' : list (Z * unit)) (fin : bool) :
  during s0 F N dn s → graph_at s gid = Some g → visited g r g' →
  all_transfer_ops_completed g' = fin →
  dict_wf dirty' →
  (∀ gid', gid' ≠ gid → dict_get gid' dirty' = None → dict_get gid' (_dirty_graph_ids s) = None) →
  (dict_get gid dirty' = None → fin = false → ∀ k, ¬ eligible g' k) →
  during s0 F (N ++ ((λ k, (gid, k)) <$> r)) (if fin then dn ++ [gid] else dn)
    (mkScheduler (if fin then dict_pop gid (_transfer_graphs s) else dict_set gid g' (_transfer_graphs s)) dirty').
Proof.
  intros Hd Hg Hv Hfin Hdw Hdirty Hset.
  destruct (graph_at s0 gid) as [g0|] eqn:Hg0; [|by rewrite (proj1 (du_none _ _ _ _ _ Hd _ Hg0)) in Hg].
  destruct (du_graph _ _ _ _ _ Hd _ _ Hg0) as (g2 & Ho & [[Hnd Hg2]|(_ & Hg2 & _)]); [|congruence]. simplify_eq.
  assert (∀ gid', gid' ≠ gid → dict_get gid' (if all_transfer_ops_completed g' then dict_pop gid (_transfer_graphs s)
      else dict_set gid g' (_transfer_graphs s)) = graph_at s gid') as Hother.
  { intros gid' Hne. case_match; [by apply dict_get_pop_ne|by apply dict_get_set_ne]. }
  assert (∀ gid', gid' ≠ gid → gid' ∈ (if all_transfer_ops_completed g' then dn ++ [gid] else dn) ↔ gid' ∈ dn) as Hdn.
  { intros gid' Hne. case_match; set_solver. }
  split; simpl.
  - case_match; [by apply dict_wf_pop, Hd|by apply dict_wf_set, Hd].
  - done.
  - apply NoDup_app. split_and!; [apply Hd| |].
    + intros [gid' k] Hin [-> Hk]%elem_of_tagged. apply (oc_taken _ _ _ _ _ Ho) in Hin as [_ Hn].
      apply (vi_started _ _ _ Hv) in Hk as [Hp _]. done.
    + apply NoDup_fmap; [intros ?? [=]; done|apply Hv].
  - case_match; [|apply Hd]. apply NoDup_app. split_and!; [apply Hd|set_solver|apply NoDup_singleton].
  - intros gid' g0' Hg0'. destruct (decide (gid' = gid)) as [->|Hne].
    + simplify_eq. exists g'. split; [by eapply outcome_visit|].
      destruct (all_transfer_ops_completed g'); [right|left].
      * split_and!; [set_solver|by apply dict_get_pop_eq, Hd|done].
      * split; [done|apply dict_get_set_eq].
    + destruct (du_graph _ _ _ _ _ Hd _ _ Hg0') as (g3 & Ho3 & H3). exists g3.
      split; [by apply outcome_other|]. rewrite Hother, Hdn by done. done.
  - intros gid' Hnone. assert (gid' ≠ gid) by (intros ->; congruence).
    destruct (du_none _ _ _ _ _ Hd _ Hnone) as (? & ? & HN). rewrite Hother, Hdn by done.
    split_and!; [done|done|]. intros k. rewrite elem_of_app, elem_of_tagged. intros [?|[? _]]; [by eapply HN|done].
  - intros gid' g3 Hg3 Hclean. destruct (decide (gid' = gid)) as [->|Hne].
    + destruct (all_transfer_ops_completed g') eqn:Ef.
      * rewrite dict_get_pop_eq in Hg3; [done|apply Hd].
      * rewrite dict_get_set_eq in Hg3. simplify_eq. split; [by apply Hset|done].
    + rewrite Hother in Hg3 by done. apply (du_settled _ _ _ _ _ Hd gid'); [done|]. by apply Hdirty.
Qed.

Lemma drain_ok s0 F fuel : ∀ N dn s,
  during s0 F N dn s →
  (total_pending (_transfer_graphs s) + length (_dirty_graph_ids s) < fuel)%nat →
  ∃ dn' N' s', drain fuel (dn, N) s = (Ok (dn', N'), s') ∧ during s0 F N' dn' s' ∧ _dirty_graph_ids s' = [].
Proof.
  induction fuel as [|fuel IH]; intros N dn s Hd Hf; [lia|].
  cbn [drain]. rewrite M_bind_run. cbn [get_state fst snd].
  destruct (_dirty_graph_ids s) as [|[gid u] rest] eqn:Edirty; [by exists dn, N, s|].
  pose proof (du_dirty _ _ _ _ _ Hd) as Hdw. rewrite Edirty in Hdw.
  assert (dict_pop gid (_dirty_graph_ids s) = rest) as Hpop by (rewrite Edirty; simpl; by rewrite decide_True).
  assert (dict_get gid rest = None) as Hrest.
  { apply dict_get_None. by apply NoDup_cons in Hdw as [? _]. }
  assert (dict_wf rest) as Hrw by by apply NoDup_cons in Hdw as [_ ?].
  assert (∀ gid', gid' ≠ gid → dict_get gid' (_dirty_graph_ids s) = dict_get gid' rest) as Hne.
  { intros gid' Hne. rewrite Edirty. simpl. by rewrite decide_False. }
  destruct (graph_at s gid) as [g|] eqn:Hg.
  2:{ rewrite M_bind_run. cbn [modify_state fst snd]. apply IH; [|simpl; rewrite Hpop; simpl in Hf; lia].
      split; try apply Hd; simpl; rewrite Hpop; [done|]. intros gid' g' Hg' Hc.
      apply (du_settled _ _ _ _ _ Hd gid'); [done|]. rewrite Hne; [done|]. intros ->. congruence. }
  assert (graph_wf g ∧ no_virtual_running g) as [Hwf Hnv].
  { destruct (graph_at s0 gid) as [g0|] eqn:Hg0; [|by rewrite (proj1 (du_none _ _ _ _ _ Hd _ Hg0)) in Hg].
    destruct (du_graph _ _ _ _ _ Hd _ _ Hg0) as (g2 & Ho & [[_ Hg2]|(_ & Hg2 & _)]); [|congruence].
    simplify_eq. split; apply Ho. }
  destruct (visit_graph_ok g Hwf Hnv) as (rev & r & g' & E & Hv & Hset & Hlt).
  rewrite M_bind_run, (on_graph_ok _ _ _ _ _ _ Hg E). set (s1 := with_graphs (dict_set gid g') s).
  assert (graph_at s1 gid = Some g') as Hg1 by apply dict_get_set_eq.
  rewrite M_bind_run, (on_graph_ok _ (gets all_transfer_ops_completed) _ _ _ _ Hg1 eq_refl).
  set (s2 := with_graphs (dict_set gid g') s1). cbn [fst snd].
  assert (dict_set gid g' (dict_set gid g' (_transfer_graphs s)) = dict_set gid g' (_transfer_graphs s)) as Hidem.
  { apply dict_set_set. }
  pose proof (total_pending_set _ _ _ g' Hg) as Htot.
  pose proof (pending_ops_le _ _ (vi_evolves _ _ _ Hv)) as Hle.
  destruct (all_transfer_ops_completed g') eqn:Efin.
  - rewrite M_bind_run. cbn [modify_state fst snd]. rewrite M_bind_run. cbn [modify_state fst snd].
    assert (with_dirty (dict_pop gid) (with_graphs (dict_pop gid) s2) =
      mkScheduler (dict_pop gid (_transfer_graphs s)) rest) as ->.
    { unfold with_dirty, with_graphs. simpl. rewrite Hpop, Hidem. f_equal. apply dict_pop_set. by rewrite Hg. }
    apply IH.
    + apply (during_visit s0 F N dn s gid g r g' rest true); try done. intros gid' ? <-. by apply Hne.
    + simpl. pose proof (total_pending_pop (_transfer_graphs s) gid). simpl in Hf. lia.
  - rewrite M_bind_run. cbn [modify_state fst snd]. destruct rev.
    + rewrite M_bind_run. cbn [modify_state fst snd].
      assert (with_dirty (dict_set gid tt) (with_dirty (dict_pop gid) s2) =
        mkScheduler (dict_set gid g' (_transfer_graphs s)) (dict_set gid tt rest)) as ->.
      { unfold with_dirty, with_graphs. simpl. by rewrite Hpop, Hidem. }
      apply IH.
      * apply (during_visit s0 F N dn s gid g r g' (dict_set gid tt rest) false); try done.
        -- by apply dict_wf_set.
        -- intros gid' ?. rewrite dict_get_set_ne by done. intros <-. by apply Hne.
        -- by rewrite dict_get_set_eq.
      * simpl. rewrite length_dict_set_absent by done. specialize (Hlt eq_refl). simpl in Hf. lia.
    + rewrite M_bind_run. cbn [mret M_ret fst snd].
      assert (with_dirty (dict_pop gid) s2 = mkScheduler (dict_set gid g' (_transfer_graphs s)) rest) as ->.
      { unfold with_dirty, with_graphs. simpl. by rewrite Hpop, Hidem. }
      apply IH.
      * apply (during_visit s0 F N dn s gid g r g' rest false); try done.
        -- intros gid' ? <-. by apply Hne.
      * simpl. simpl in Hf. lia.
Qed.
End drain_lemmas.

(** *** Reporting finished ops *)

(** The caller reports ops it was handed and has not reported before. *)
Definition finished_ok (s : TransferScheduler) (F : list (Z * Z)) : Prop :=
  NoDup F ∧ ∀ gid k g o, (gid, k) ∈ F → graph_at s gid = Some g → op_at g k = Some o → op_status o = RUNNING.

Section finish_lemmas.
Context `{!SetOrder}.

Lemma during_init s F : sched_wf s → during s F [] [] s.
Proof.
  intros Hs. split; try apply Hs; try apply NoDup_nil_2.
  - intros gid g Hg. exists g. split; [|left; split; [apply not_elem_of_nil|done]].
    destruct (sw_graph _ Hs _ _ Hg) as (? & _ & ?). split; [done|done|done|..].
    + intros k. split; [by intros ?%not_elem_of_nil|naive_solver].
    + intros k o Ho Hc. left. by exists o.
  - intros gid Hg. split_and!; [done|apply not_elem_of_nil|]. intros k. apply not_elem_of_nil.
Qed.

Lemma during_finish s0 F s gid g k g' :
  during s0 F [] [] s → graph_at s gid = Some g → (gid, k) ∈ F →
  (g' = g ∨ ∃ o, op_at g k = Some o ∧ op_status o = RUNNING ∧ g' = completed k g) →
  during s0 F [] [] (with_graphs (dict_set gid g') (with_dirty (dict_set gid tt) s)).
Proof.
  intros Hd Hg HF Hg'.
  split; simpl.
  - by apply dict_wf_set, Hd.
  - by apply dict_wf_set, Hd.
  - apply Hd.
  - apply Hd.
  - intros gid' g0 Hg0. destruct (du_graph _ _ _ _ _ Hd _ _ Hg0) as (g2 & Ho & Hcase).
    rewrite dict_get_set. case_decide as Hgid; [subst gid'|by exists g2].
    destruct Hcase as [[_ Hg2]|(Hin & _)]; [|by apply not_elem_of_nil in Hin].
    assert (g2 = g) as -> by congruence. exists g'. split; [|left; split; [apply not_elem_of_nil|done]].
    destruct Hg' as [->|(o & Hk & Hr & ->)]; [done|].
    assert (∀ j o', op_at (completed k g) j = Some o' → ∃ o0, op_at g j = Some o0 ∧ o' = complete_op k j o0) as Hinv.
    { intros j o'. unfold completed. rewrite op_at_rewrite. intros (o0 & ? & ->)%fmap_Some. by exists o0. }
    split; [eapply completed_wf; [apply Ho|done|done]| | | |].
    + etrans; [apply Ho|apply evolves_completed].
    + intros j o' (o0 & Ho0 & ->)%Hinv. unfold complete_op. case_decide; [done|]. exact (oc_virtual _ _ _ _ _ Ho j o0 Ho0).
    + intros j. rewrite (oc_taken _ _ _ _ _ Ho). rewrite !is_pending_alt. split; intros [? Hn]; (split; [done|]).
      * intros (o' & (o0 & Ho0 & ->)%Hinv & Hp). apply Hn. exists o0. split; [done|].
        unfold complete_op in Hp. by case_decide.
      * intros (o0 & Ho0 & Hp). apply Hn. exists (complete_op k j o0). unfold completed.
        rewrite op_at_rewrite, Ho0. split; [done|]. unfold complete_op. rewrite decide_False; [done|].
        intros ->. congruence.
    + intros j o' (o0 & Ho0 & ->)%Hinv Hc. unfold complete_op in *. case_decide as Hj; [subst; by right; left|].
      exact (oc_done _ _ _ _ _ Ho j o0 Ho0 Hc).
  - intros gid' Hnone. destruct (du_none _ _ _ _ _ Hd _ Hnone) as (? & ? & ?). split_and!; [|done|done].
    rewrite dict_get_set_ne; [done|]. intros ->. congruence.
  - intros gid' g2. rewrite !dict_get_set. case_decide; [done|]. apply (du_settled _ _ _ _ _ Hd).
Qed.

Lemma finish_ops_ok s F :
  sched_wf s → finished_ok s F →
  ∃ s', for_each finish_op F s = (Ok tt, s') ∧ during s F [] [] s' ∧
    ∀ gid k g o, (gid, k) ∈ F → graph_at s' gid = Some g → op_at g k = Some o → op_status o = COMPLETED.
Proof.
  intros Hs [Hnd Hrun].
  destruct (for_each_ok (λ l s', NoDup l ∧ (∀ x, x ∈ l → x ∈ F) ∧ during s F [] [] s' ∧
     (∀ gid k g o, (gid, k) ∈ l → graph_at s' gid = Some g → op_at g k = Some o → op_status o = RUNNING) ∧
     (∀ gid k g o, (gid, k) ∈ F → (gid, k) ∉ l → graph_at s' gid = Some g → op_at g k = Some o → op_status o = COMPLETED))
     finish_op F s) as (s' & E & _ & _ & Hd & _ & Hdone).
  - split_and!; [done|done|by apply during_init|done|done].
  - intros [gid k] l s' ([Hxl Hl]%NoDup_cons & Hsub & Hd & Hr & Hdone).
    unfold finish_op. rewrite M_bind_run. cbn [get_state fst snd]. unfold dict_mem.
    destruct (graph_at s' gid) as [g|] eqn:Hg.
    2:{ rewrite bool_decide_eq_false_2 by (by intros []). exists s'. split; [done|]. split_and!; [done| |done| |].
        - intros x Hx. apply Hsub. by right.
        - intros gid' k' g o Hin. apply Hr. by right.
        - intros gid' k' g o HF Hn Hg' Ho. apply (Hdone gid' k' g o HF); [|done|done].
          apply not_elem_of_cons. split; [|done]. intros [= -> ->]. congruence. }
    rewrite bool_decide_eq_true_2 by by eexists. rewrite M_bind_run. cbn [modify_state fst snd].
    set (sd := with_dirty (dict_set gid tt) s').
    assert (∃ g', mark_completed k g = (Ok tt, g') ∧
      ((op_at g k = None ∧ g' = g) ∨ ∃ o, op_at g k = Some o ∧ op_status o = RUNNING ∧ g' = completed k g)) as (g' & E & Hg').
    { destruct (op_at g k) as [o|] eqn:Ho.
      - assert (op_status o = RUNNING) as Hst by (eapply (Hr gid k); [left|done|done]).
        exists (completed k g). split; [|right; by exists o].
        destruct (graph_at s gid) as [g0|] eqn:Hg0; [|by rewrite (proj1 (du_none _ _ _ _ _ Hd _ Hg0)) in Hg].
        destruct (du_graph _ _ _ _ _ Hd _ _ Hg0) as (g2 & Ho2 & [[_ Hg2]|(_ & Hg2 & _)]); [|congruence].
        simplify_eq. eapply mark_completed_ok; [apply Ho2|done|done].
      - exists g. split; [|by left]. unfold mark_completed. rewrite M_bind_run. simpl. by rewrite Ho. }
    rewrite (on_graph_ok _ _ g tt g') by done. eexists. split; [reflexivity|]. split_and!; [done| | | |].
    + intros x Hx. apply Hsub. by right.
    + eapply during_finish; [done|done| |naive_solver]. apply Hsub. left.
    + intros gid' k' g2 o2 Hin. simpl. rewrite dict_get_set. case_decide as Hgid.
      2:{ apply Hr. by right. }
      intros [= <-] Ho2. subst gid'. destruct Hg' as [[_ ->]|(o & Ho & Hst & ->)]; [by eapply (Hr gid k'); [right|..]|].
      unfold completed in Ho2. rewrite op_at_rewrite in Ho2. apply fmap_Some in Ho2 as (o0 & Ho0 & ->).
      unfold complete_op. rewrite decide_False by (intros ->; done).
      exact (Hr gid k' g o0 (list_elem_of_further _ _ _ Hin) Hg Ho0).
    + intros gid' k' g2 o2 HF Hn. simpl. rewrite dict_get_set. case_decide as Hgid.
      2:{ intros Hg2 Ho2. apply (Hdone gid' k' g2 o2 HF); [|done|done]. apply not_elem_of_cons. split; [|done]. by intros [= <- _]. }
      intros [= <-] Ho2. subst gid'. destruct (decide (k' = k)) as [->|Hk].
      * destruct Hg' as [[Hno ->]|(o & Ho & Hst & ->)]; [congruence|].
        unfold completed in Ho2. rewrite op_at_rewrite in Ho2. apply fmap_Some in Ho2 as (o0 & Ho0 & ->).
        unfold complete_op. by rewrite decide_True.
      * assert ((gid, k') ∉ (gid, k) :: l) as Hn' by (apply not_elem_of_cons; split; [congruence|done]).
        destruct Hg' as [[_ ->]|(o & Ho & Hst & ->)]; [by eapply (Hdone gid k')|].
        unfold completed in Ho2. rewrite op_at_rewrite in Ho2. apply fmap_Some in Ho2 as (o0 & Ho0 & ->).
        unfold complete_op. rewrite decide_False by done. exact (Hdone gid k' g o0 HF Hn' Hg Ho0).
  - exists s'. split_and!; [done|done|]. intros gid k g o HF. apply Hdone; [done|apply not_elem_of_nil].
Qed.

Lemma schedule_during s F :
  sched_wf s → finished_ok s F →
  ∃ dn N s', schedule F s = (Ok (dn, N), s') ∧ during s F N dn s' ∧ _dirty_graph_ids s' = [].
Proof.
  intros Hs HF. destruct (finish_ops_ok s F Hs HF) as (s1 & E & Hd & _).
  unfold schedule. rewrite M_bind_run, E. rewrite M_bind_run. cbn [get_state fst snd].
  destruct (drain_ok s F (drain_fuel s1) [] [] s1 Hd) as (dn & N & s' & E' & Hd' & Hc);
    [unfold drain_fuel; lia|]. by exists dn, N, s'.
Qed.

Lemma during_wf s F N dn s' : sched_wf s → during s F N dn s' → sched_wf s'.
Proof.
  intros Hs Hd. split; try apply Hd. intros gid g Hg.
  destruct (graph_at s gid) as [g0|] eqn:Hg0; [|by rewrite (proj1 (du_none _ _ _ _ _ Hd _ Hg0)) in Hg].
  destruct (du_graph _ _ _ _ _ Hd _ _ Hg0) as (g2 & Ho & [[_ Hg2]|(_ & Hg2 & _)]); [|congruence].
  simplify_eq. split_and!; try apply Ho. rewrite (ev_id _ _ (oc_evolves _ _ _ _ _ Ho)).
  by destruct (sw_graph _ Hs _ _ Hg0) as (_ & ? & _).
Qed.

(** What was reported is completed in every graph that is still in flight. *)
Lemma schedule_reported s F dn N s' :
  sched_wf s → finished_ok s F → schedule F s = (Ok (dn, N), s') →
  ∀ gid k g o, (gid, k) ∈ F → graph_at s' gid = Some g → op_at g k = Some o → op_status o = COMPLETED.
Proof.
  intros Hs HF E gid k g o Hin Hg Ho.
  destruct (finish_ops_ok s F Hs HF) as (s1 & E1 & Hd1 & Hdone).
  pose proof (during_wf _ _ _ _ _ Hs Hd1) as Hs1.
  unfold schedule in E. rewrite M_bind_run, E1 in E. rewrite M_bind_run in E. cbn [get_state fst snd] in E.
  destruct (drain_ok s1 [] (drain_fuel s1) [] [] s1 (during_init s1 [] Hs1)) as (dn' & N' & s2 & E2 & Hd & _);
    [unfold drain_fuel; lia|]. rewrite E in E2. injection E2 as <- <- <-.
  destruct (graph_at s1 gid) as [g1|] eqn:Hg1; [|by rewrite (proj1 (du_none _ _ _ _ _ Hd _ Hg1)) in Hg].
  destruct (du_graph _ _ _ _ _ Hd _ _ Hg1) as (g2 & Hout & [[_ Hg2]|(_ & Hg2 & _)]); [|congruence]. simplify_eq.
  destruct (ev_bwd _ _ (oc_evolves _ _ _ _ _ Hout) _ _ Ho) as (o1 & Ho1 & Hle).
  apply (le_done _ _ Hle). by eapply Hdone.
Qed.

Lemma add_transfer_graph_wf g s :
  sched_wf s → graph_wf g → no_virtual_running g → sched_wf (add_transfer_graph g s).
Proof.
  intros Hs Hg Hv. split; simpl.
  - by apply dict_wf_set, Hs.
  - by apply dict_wf_set, Hs.
  - intros gid g'. rewrite dict_get_set. case_decide; [|apply Hs]. intros [= <-]. by split_and!.
  - intros gid g'. rewrite !dict_get_set. case_decide; [done|]. apply Hs.
Qed.

Lemma fail_graph_wf gid s : sched_wf s → sched_wf (fail_graph gid s).
Proof.
  intros Hs. split; simpl.
  - by apply dict_wf_pop, Hs.
  - apply Hs.
  - intros gid' g. rewrite dict_get_pop by apply Hs. case_decide; [done|]. apply Hs.
  - intros gid' g. rewrite dict_get_pop by apply Hs. case_decide; [done|]. apply Hs.
Qed.

Lemma scheduler_init_wf : sched_wf init.
Proof. split; simpl; try done; apply NoDup_nil_2. Qed.
End finish_lemmas.

(** ** Properties *)
Section properties.
Context `{!SetOrder}.

(** [C23] One call of [schedule], when the caller reports ops it was handed: it returns
    normally (the drain loop terminates within its fuel and nothing raises), leaves
    no graph dirty and keeps the scheduler's invariant.  Per graph: the ops handed
    out are exactly those that left the pending state, each once; every
    predecessor of such an op was finished before, was reported in this call, or is
    a virtual op handed out in this call; a graph is reported complete, and dropped,
    exactly when all its ops are finished, and every op still pending in another
    graph waits for an unfinished one.  So visiting only the dirty graphs loses
    nothing against a full sweep.  Graphs not in flight are untouched. *)
Theorem schedule_spec s F :
  sched_wf s → finished_ok s F →
  ∃ dn N s', schedule F s = (Ok (dn, N), s') ∧ sched_wf s' ∧ _dirty_graph_ids s' = [] ∧ NoDup dn ∧ NoDup N ∧
    (∀ gid g0, graph_at s gid = Some g0 → ∃ g, evolves g0 g ∧
       (∀ k, (gid, k) ∈ N ↔ is_pending g0 k ∧ ¬ is_pending g k) ∧
       (∀ k p q, (gid, k) ∈ N → op_at g0 p = Some q → k ∈ successors q →
          op_status q = COMPLETED ∨ (gid, p) ∈ F ∨ ((gid, p) ∈ N ∧ transfer_type q = VIRTUAL)) ∧
       if decide (gid ∈ dn) then graph_at s' gid = None ∧ all_transfer_ops_completed g = true
       else graph_at s' gid = Some g ∧ all_transfer_ops_completed g = false ∧
            ∀ k, is_pending g k → ∃ p q, op_at g p = Some q ∧ k ∈ successors q ∧ op_status q ≠ COMPLETED) ∧
    (∀ gid, graph_at s gid = None → graph_at s' gid = None ∧ (gid ∉ dn) ∧ ∀ k, (gid, k) ∉ N).
Proof.
  intros Hs HF. destruct (schedule_during s F Hs HF) as (dn & N & s' & E & Hd & Hc).
  exists dn, N, s'. split; [done|]. split; [by eapply during_wf|]. split; [done|].
  split; [apply Hd|]. split; [apply Hd|]. split; [|apply Hd].
  intros gid g0 Hg0. destruct (du_graph _ _ _ _ _ Hd _ _ Hg0) as (g & Ho & Hcase). exists g.
  pose proof (oc_evolves _ _ _ _ _ Ho) as Hev. pose proof (oc_wf _ _ _ _ _ Ho) as Hwf.
  split; [done|]. split; [apply Ho|]. split.
  - intros k p q Hk Hq Hin. apply (oc_taken _ _ _ _ _ Ho) in Hk as [Hp Hn].
    apply is_pending_alt in Hp as (o0 & Ho0 & _). destruct (ev_fwd _ _ Hev _ _ Ho0) as (o & Hok & _).
    destruct (ev_fwd _ _ Hev _ _ Hq) as (q' & Hq' & Hle).
    assert (op_status q' = COMPLETED) as Hdone.
    { destruct (decide (op_status q' = COMPLETED)) as [|Hx]; [done|].
      assert (p ∈ predecessors o) as Hpo.
      { apply (gw_pred _ Hwf _ _ _ Hok). exists q'. by rewrite (le_succ _ _ Hle). }
      rewrite (gw_started _ Hwf _ _ Hok) in Hpo; [set_solver|]. intros Hpend. apply Hn, is_pending_alt. by exists o. }
    destruct (oc_done _ _ _ _ _ Ho _ _ Hq' Hdone) as [(q0 & Hq0 & ?)|[?|[? Hv]]];
      [left; by simplify_eq|by right; left|right; right]. by rewrite <- (le_type _ _ Hle).
  - destruct Hcase as [[Hin Hg]|(Hin & Hg & Hall)]; [rewrite decide_False by done|by rewrite decide_True by done].
    destruct (du_settled _ _ _ _ _ Hd _ _ Hg) as [Hset Hnall]; [by rewrite Hc|].
    split_and!; [done|done|]. intros k (o & Hok & Hp)%is_pending_alt.
    destruct (decide (predecessors o = ∅)) as [He|He]; [destruct (Hset k); by exists o|].
    apply set_choose_L in He as [p Hp']. apply (gw_pred _ Hwf _ _ _ Hok) in Hp' as (q & ? & ? & ?). by exists p, q.
Qed.

(** No stalled graph: after a call, every graph still in flight whose edges are
    acyclic has a data op handed to the workers and not yet reported, so there is
    always a future report that will make it progress.  Adding and failing graphs
    keep the invariant this rests on. *)
Theorem scheduler_no_stall s F dn N s' :
  sched_wf s → finished_ok s F → schedule F s = (Ok (dn, N), s') →
  (∀ gid g, graph_at s' gid = Some g → acyclic g →
     ∃ k o, op_at g k = Some o ∧ op_status o = RUNNING ∧ transfer_type o ≠ VIRTUAL) ∧
  (∀ g, graph_wf g → no_virtual_running g → sched_wf (add_transfer_graph g s')) ∧
  (∀ gid, sched_wf (fail_graph gid s')).
Proof.
  intros Hs HF E. destruct (schedule_during s F Hs HF) as (dn' & N' & s2 & E' & Hd & Hc). rewrite E in E'. injection E' as <- <- <-.
  pose proof (during_wf _ _ _ _ _ Hs Hd) as Hs'.
  split; [|split; [intros g Hg Hv; exact (add_transfer_graph_wf g s' Hs' Hg Hv)|intros gid; exact (fail_graph_wf gid s' Hs')]].
  intros gid g Hg Hac. destruct (sw_graph _ Hs' _ _ Hg) as (Hwf & _ & Hnv).
  destruct (sw_settled _ Hs' _ _ Hg) as [Hset Hall]; [by rewrite Hc|].
  unfold all_transfer_ops_completed in Hall.
  assert (∃ k o, op_at g k = Some o ∧ op_status o ≠ COMPLETED) as (k & o & Ho & Hn).
  { destruct (decide (Forall (λ kv : Z * TransferOp, op_status kv.2 = COMPLETED) (_op_map g))) as [HF'|HF'].
    - apply not_true_iff_false in Hall. destruct Hall. apply forallb_forall. intros kv Hin.
      apply bool_decide_eq_true. eapply Forall_forall in HF'; [done|]. by apply list_elem_of_In.
    - apply not_Forall_Exists, Exists_exists in HF' as ([k o] & Hin & Hn); [|apply _].
      exists k, o. split; [|done]. apply dict_elem_get; [apply Hwf|done]. }
  destruct (progress_lemma g k o Hwf Hac Ho Hn) as (j & [He|(oj & Hj & Hr)]); [by destruct (Hset j)|].
  exists j, oj. split_and!; [done|done|]. intros Hv. by apply (Hnv _ _ Hj Hv).
Qed.
End properties.

Lemma diamond_sched_wf : sched_wf (add_transfer_graph diamond init).
Proof.
  apply add_transfer_graph_wf; [apply scheduler_init_wf|apply diamond_wf|].
  intros k o Ho _. apply dict_get_Some_elem in Ho. apply list_elem_of_In in Ho. vm_compute in Ho.
  repeat match type of Ho with _ ∨ _ => destruct Ho as [Ho|Ho] end; [| | | |destruct Ho]; by injection Ho as _ <-.
Qed.

Lemma schedule_spec_witness :
  sched_wf (add_transfer_graph diamond init) ∧
  ∃ dn N s', schedule [] (add_transfer_graph diamond init) = (Ok (dn, N), s') ∧ dn = [] ∧ N = [(0, 1)] ∧ sched_wf s' ∧
    _dirty_graph_ids s' = [].
Proof.
  split; [exact diamond_sched_wf|].
  destruct (schedule_spec (add_transfer_graph diamond init) [] diamond_sched_wf) as (dn & N & s' & E & Hwf & Hc & _).
  { split; [apply NoDup_nil_2|]. intros gid k g o Hin. apply not_elem_of_nil in Hin. destruct Hin. }
  assert ((schedule [] (add_transfer_graph diamond init)).1 = Ok (dn, N)) as Hv by (rewrite E; reflexivity).
  vm_compute in Hv. injection Hv as <- <-.
  exists [], [(0, 1)], s'. split; [exact E|]. split; [reflexivity|]. split; [reflexivity|]. split; [exact Hwf|exact Hc].
Defined.

Lemma scheduler_no_stall_witness :
  ∃ s' g k o, schedule [] (add_transfer_graph diamond init) = (Ok ([], [(0, 1)]), s') ∧
    graph_at s' 0 = Some g ∧ op_at g k = Some o ∧ op_status o = RUNNING ∧ transfer_type o ≠ VIRTUAL.
Proof.
  pose (s' := (schedule [] (add_transfer_graph diamond init)).2).
  assert (schedule [] (add_transfer_graph diamond init) = (Ok ([], [(0, 1)]), s')) as E by (vm_compute; reflexivity).
  assert (finished_ok (add_transfer_graph diamond init) []) as HF.
  { split; [apply NoDup_nil_2|]. intros gid k g o Hin. apply not_elem_of_nil in Hin. destruct Hin. }
  destruct (scheduler_no_stall (add_transfer_graph diamond init) [] [] [(0, 1)] s' diamond_sched_wf HF E) as (H & _).
  destruct (graph_at s' 0) as [g|] eqn:Hg; [|vm_compute in Hg; discriminate Hg].
  destruct (H 0 g Hg) as (k & o & Ho & Hr & Hv); [|exists s', g, k, o; split_and!; [exact E|exact Hg|exact Ho|exact Hr|exact Hv]].
  exists Z.to_nat. vm_compute in Hg. injection Hg as <-. intros k o t Ho Ht.
  apply dict_get_Some_elem in Ho. apply list_elem_of_In in Ho. vm_compute in Ho.
  repeat match type of Ho with _ ∨ _ => destruct Ho as [Ho|Ho] end; [| | | |destruct Ho];
    injection Ho as <- <-; apply elem_of_elements, list_elem_of_In in Ht; vm_compute in Ht;
    repeat match type of Ht with _ ∨ _ => destruct Ht as [Ht|Ht] end; subst; try destruct Ht;
    apply Nat.ltb_lt; vm_compute; reflexivity.
Defined.

(** The whole diamond run: the copy, both sinks, then the join completes the graph. *)
Example diamond_run :
  (s0 ← get_state; a ← schedule []; b ← schedule [(0, 1)]; c ← schedule [(0, 3)]; d ← schedule [(0, 2)]; mret (a, b, c, d))
    (add_transfer_graph diamond init) =
  (Ok (([], [(0, 1)]), ([], [(0, 3); (0, 2)]), ([], []), ([0], [(0, 4)])), init).
Proof. vm_compute. reflexivity. Qed.

End Scheduler.
