(* ===== verification/GraphBuild.v ===== *)
(** * Graphs under construction

    The planners of [flexkv/cache/cache_engine.py], [SWAOpConstructor] and
    [merge_to_batch_graph] all build a [TransferOpGraph] the same way: construct an
    op (which draws its id from the class counter), add it, add dependencies,
    finish with a VIRTUAL op over the final ops.  [Build] is that computation;
    [built g ops edges] describes its result: [g] holds exactly the given ops,
    joined by exactly the given edges. *)

From S2P Require Import Prelude Transfer.
Local Open Scope Z_scope.

Module GraphBuild.

(** The id counters and the graph, a local object of the builder. *)
Definition Building : Type := Ids * TransferOpGraph.
Abbreviation Build := (M Building).

Definition on_ids {A} (m : M Ids A) : Build A := λ b, let '(r, i) := m b.1 in (r, (i, b.2)).
Definition on_graph {A} (m : M TransferOpGraph A) : Build A := λ b, let '(r, g) := m b.2 in (r, (b.1, g)).

(** [TransferOp(graph_id=graph.graph_id, ...)] *)
Definition new_op (tt : TransferType) (src dst : list Z) (dp : Z) (swa : bool)
    (kv_hashes : option (list Z)) (swa_hashes : option (list string)) : Build TransferOp :=
  b ← get_state; on_ids (TransferOp_init (graph_id b.2) tt src dst dp swa kv_hashes swa_hashes None).

Definition graph_add (op : TransferOp) : Build unit := on_graph (modify_state (add_transfer_op op)).
Definition graph_depend (successor predecessor : Z) : Build unit := on_graph (add_dependency successor predecessor).

(** A VIRTUAL op that waits for all the listed ones. *)
Definition virtual_barrier (op_ids : list Z) (dp : Z) : Build Z :=
  sink ← new_op VIRTUAL [] [] dp false None None;
  graph_add sink ;;
  for_each (graph_depend (op_id sink)) op_ids ;;
  mret (op_id sink).

Definition add_virtual_op_for_multiple_finished_ops (finished_ops_ids : list Z) (dp : Z) : Build Z :=
  match finished_ops_ids with
  | [] => mret (-1)
  | [k] => mret k
  | _ => virtual_barrier finished_ops_ids dp
  end.

(** ** Runs of the builders *)

Definition bump (ids : Ids) : Ids := mkIds (_next_op_id ids + 1) (_next_graph_id ids).

Lemma TransferOp_init_run gid tt src dst dp swa kv tails lw ids :
  length src = length dst →
  TransferOp_init gid tt src dst dp swa kv tails lw ids =
    (Ok (mkTransferOp (_next_op_id ids) gid tt src dst ∅ ∅ PENDING dp (-1) (-1) (zlen src) 0 swa kv tails None lw), bump ids).
Proof.
  intros Hl. unfold TransferOp_init. rewrite M_bind_run. unfold zlen. rewrite Hl, Z.eqb_refl, andb_false_r. done.
Qed.

Lemma new_op_run tt src dst dp swa kv tails (b : Building) :
  length src = length dst →
  new_op tt src dst dp swa kv tails b =
    (Ok (mkTransferOp (_next_op_id b.1) (graph_id b.2) tt src dst ∅ ∅ PENDING dp (-1) (-1) (zlen src) 0 swa kv tails None None),
     (bump b.1, b.2)).
Proof. intros Hl. unfold new_op, on_ids. rewrite M_bind_run. cbn [get_state]. by rewrite TransferOp_init_run. Qed.

Lemma graph_add_run op (b : Building) : graph_add op b = (Ok tt, (b.1, add_transfer_op op b.2)).
Proof. done. Qed.

(** ** The built graph *)

Definition preds_of (edges : list (Z * Z)) (k : Z) : gset Z := list_to_set (filter (λ e, e.1 = k) edges).*2.
Definition succs_of (edges : list (Z * Z)) (k : Z) : gset Z := list_to_set (filter (λ e, e.2 = k) edges).*1.

Lemma elem_of_preds edges k p : p ∈ preds_of edges k ↔ (k, p) ∈ edges.
Proof.
  unfold preds_of. rewrite elem_of_list_to_set, list_elem_of_fmap. split.
  - intros ([s q] & -> & [Hs Hin]%list_elem_of_filter). simpl in *. by subst.
  - intros Hin. exists (k, p). split; [done|]. by apply list_elem_of_filter.
Qed.

Lemma elem_of_succs edges k s : s ∈ succs_of edges k ↔ (s, k) ∈ edges.
Proof.
  unfold succs_of. rewrite elem_of_list_to_set, list_elem_of_fmap. split.
  - intros ([q p] & -> & [Hs Hin]%list_elem_of_filter). simpl in *. by subst.
  - intros Hin. exists (s, k). split; [done|]. by apply list_elem_of_filter.
Qed.

(** A constructed op that was not used yet. *)
Definition fresh_state (o : TransferOp) : Prop := op_status o = PENDING ∧ predecessors o = ∅ ∧ successors o = ∅.

(** [o] as the graph holds it. *)
Definition placed_op (gid : Z) (edges : list (Z * Z)) (o : TransferOp) : TransferOp :=
  op_with_edges (op_with_graph o gid (transfer_type o)) (preds_of edges (op_id o)) (succs_of edges (op_id o)).

Record built (g : TransferOpGraph) (ops : list TransferOp) (edges : list (Z * Z)) : Prop := {
  bu_nodup : NoDup (op_id <$> ops);
  bu_fresh : Forall fresh_state ops;
  bu_edges : ∀ s p, (s, p) ∈ edges → s ∈ op_id <$> ops ∧ p ∈ op_id <$> ops;
  bu_ops : ∀ k o', op_at g k = Some o' ↔ ∃ o, o ∈ ops ∧ op_id o = k ∧ o' = placed_op (graph_id g) edges o;
  bu_wf : graph_wf g;
}.

Lemma built_empty gid : built (mkGraph gid [] ∅ ∅ [] []) [] [].
Proof.
  split; [apply NoDup_nil_2|constructor|by intros s p ?%elem_of_nil| |apply empty_wf].
  intros k o'. split; [done|]. by intros (o & ?%elem_of_nil & _).
Qed.

Lemma built_id_in g ops edges k : built g ops edges → k ∈ op_id <$> ops ↔ is_Some (op_at g k).
Proof.
  intros B. rewrite list_elem_of_fmap. split.
  - intros (o & -> & Ho). exists (placed_op (graph_id g) edges o). apply (bu_ops _ _ _ B). by exists o.
  - intros [o' Ho']. apply (bu_ops _ _ _ B) in Ho' as (o & Ho & <- & _). by exists o.
Qed.

Lemma graph_id_add o g : graph_id (add_transfer_op o g) = graph_id g.
Proof. unfold add_transfer_op. by repeat case_match. Qed.

Lemma built_add g ops edges o :
  built g ops edges → fresh_state o → op_id o ∉ op_id <$> ops → built (add_transfer_op o g) (ops ++ [o]) edges.
Proof.
  intros B Hf Hn. pose proof B as [B1 B2 B3 B4 B5].
  assert (op_at g (op_id o) = None) as Hnone.
  { apply eq_None_not_Some. rewrite <- (built_id_in _ _ _ _ B). done. }
  split.
  - rewrite fmap_app. apply NoDup_app. split_and!; [done| |apply NoDup_singleton].
    intros x Hx ->%list_elem_of_singleton. done.
  - apply Forall_app. by split; [|constructor].
  - intros s p [? ?]%B3. rewrite fmap_app, !elem_of_app. auto.
  - intros k o'. rewrite op_at_add_transfer_op, graph_id_add. case_decide as Hk.
    + subst k. split.
      * intros [= <-]. exists o. split; [apply elem_of_app; right; left|]. split; [done|]. unfold placed_op.
        assert (preds_of edges (op_id o) = ∅ ∧ succs_of edges (op_id o) = ∅) as [-> ->].
        { split; apply set_eq; intros x; rewrite ?elem_of_preds, ?elem_of_succs; (split; [|set_solver]); intros [? ?]%B3; done. }
        destruct Hf as (_ & E1 & E2). by destruct o; simpl in *; subst.
      * intros (o2 & [Ho2| ->%list_elem_of_singleton]%elem_of_app & Hid & ->).
        { destruct Hn. rewrite <- Hid. apply list_elem_of_fmap. by exists o2. }
        f_equal. unfold placed_op.
        assert (preds_of edges (op_id o) = ∅ ∧ succs_of edges (op_id o) = ∅) as [-> ->].
        { split; apply set_eq; intros x; rewrite ?elem_of_preds, ?elem_of_succs; (split; [|set_solver]); intros [? ?]%B3; done. }
        destruct Hf as (_ & E1 & E2). by destruct o; simpl in *; subst.
    + rewrite B4. split; intros (o2 & Ho2 & ? & ?); exists o2.
      * rewrite elem_of_app. auto.
      * apply elem_of_app in Ho2 as [?|Ho2%list_elem_of_singleton]; [by split_and!|subst; done].
  - apply add_transfer_op_wf; [done|]. by split.
Qed.

Lemma built_depend g ops edges s p :
  built g ops edges → s ∈ op_id <$> ops → p ∈ op_id <$> ops → built (depends s p g) ops ((s, p) :: edges).
Proof.
  intros B Hs Hp. pose proof B as [B1 B2 B3 B4 B5].
  destruct (proj1 (built_id_in _ _ _ _ B) Hs) as [os Hos]. destruct (proj1 (built_id_in _ _ _ _ B) Hp) as [op Hop].
  assert (∀ k o, op_at g k = Some o → op_status o = PENDING) as Hst.
  { intros k o Ho. apply B4 in Ho as (o2 & Ho2 & _ & ->). rewrite Forall_forall in B2. by destruct (B2 _ Ho2). }
  split; [done|done| | |].
  - intros s' p' [[= -> ->]|Hin]%elem_of_cons; [done|by apply B3].
  - intros k o'. rewrite op_at_depends. change (graph_id (depends s p g)) with (graph_id g). rewrite fmap_Some. split.
    + intros (o1 & Ho1 & ->). apply B4 in Ho1 as (o & Ho & <- & ->). exists o. split; [done|]. split; [done|].
      unfold placed_op. simpl. unfold op_with_edges. simpl. f_equal; apply set_eq; intros x;
        rewrite ?elem_of_preds, ?elem_of_succs, elem_of_cons; case_decide; subst;
        rewrite ?elem_of_union, ?elem_of_singleton, ?elem_of_preds, ?elem_of_succs; naive_solver.
    + intros (o & Ho & <- & ->). exists (placed_op (graph_id g) edges o). split; [apply B4; by exists o|].
      unfold placed_op. simpl. unfold op_with_edges. simpl. f_equal; apply set_eq; intros x;
        rewrite ?elem_of_preds, ?elem_of_succs, elem_of_cons; case_decide; subst;
        rewrite ?elem_of_union, ?elem_of_singleton, ?elem_of_preds, ?elem_of_succs; naive_solver.
  - eapply depends_wf; [done|done|done|by eapply Hst|]. by rewrite (Hst _ _ Hop).
Qed.

Lemma graph_depend_run g ids ops edges s p :
  built g ops edges → s ∈ op_id <$> ops → p ∈ op_id <$> ops →
  graph_depend s p (ids, g) = (Ok tt, (ids, depends s p g)).
Proof.
  intros B Hs Hp. unfold graph_depend, on_graph. cbn [fst snd]. rewrite add_dependency_run.
  unfold dict_mem. by rewrite !bool_decide_eq_true_2 by by apply (built_id_in _ _ _ _ B).
Qed.

Lemma graph_id_depends s p g : graph_id (depends s p g) = graph_id g.
Proof. done. Qed.

Lemma depend_all_run g ids ops edges s l :
  built g ops edges → s ∈ op_id <$> ops → (∀ p, p ∈ l → p ∈ op_id <$> ops) →
  ∃ g', for_each (graph_depend s) l (ids, g) = (Ok tt, (ids, g')) ∧ graph_id g' = graph_id g ∧
    built g' ops (reverse ((λ p, (s, p)) <$> l) ++ edges).
Proof.
  revert g edges. induction l as [|p l IH]; intros g edges B Hs Hl; cbn [for_each].
  - by exists g.
  - rewrite M_bind_run, (graph_depend_run g ids ops edges) by (done || apply Hl; left).
    destruct (IH (depends s p g) ((s, p) :: edges)) as (g' & E & Hid & B').
    + apply built_depend; [done|done|apply Hl; left].
    + done.
    + intros q Hq. apply Hl. by right.
    + exists g'. split; [done|]. split; [done|]. rewrite fmap_cons, reverse_cons, <- app_assoc. exact B'.
Qed.

(** The VIRTUAL op of [virtual_barrier]. *)
Definition barrier_op (gid : Z) (ids : Ids) (dp : Z) : TransferOp :=
  mkTransferOp (_next_op_id ids) gid VIRTUAL [] [] ∅ ∅ PENDING dp (-1) (-1) 0 0 false None None None None.

Lemma virtual_barrier_run g ids ops edges l dp :
  built g ops edges → _next_op_id ids ∉ op_id <$> ops → (∀ p, p ∈ l → p ∈ op_id <$> ops) →
  let k := _next_op_id ids in
  ∃ g', virtual_barrier l dp (ids, g) = (Ok k, (bump ids, g')) ∧ graph_id g' = graph_id g ∧
    built g' (ops ++ [barrier_op (graph_id g) ids dp]) (reverse ((λ p, (k, p)) <$> l) ++ edges).
Proof.
  intros B Hn Hl k. unfold virtual_barrier. rewrite M_bind_run, new_op_run by done. cbn [fst snd].
  rewrite M_bind_run, graph_add_run. cbn [fst snd]. change (mkTransferOp _ _ _ _ _ _ _ _ _ _ _ _ _ _ _ _ _ _) with (barrier_op (graph_id g) ids dp).
  set (o := barrier_op (graph_id g) ids dp). assert (built (add_transfer_op o g) (ops ++ [o]) edges) as B1.
  { apply built_add; [done|by split_and!|done]. }
  destruct (depend_all_run _ (bump ids) _ _ k l B1) as (g' & E & Hid & B').
  - rewrite fmap_app, elem_of_app. right. left.
  - intros p Hp. rewrite fmap_app, elem_of_app. left. by apply Hl.
  - exists g'. fold o. change (op_id o) with k. rewrite M_bind_run, E. split; [done|]. split; [|done].
    by rewrite Hid, graph_id_add.
Qed.

(** Ranks that grow along every edge make the graph acyclic. *)
Lemma built_acyclic g ops edges (rank : Z → nat) :
  built g ops edges → (∀ s p, (s, p) ∈ edges → (rank p < rank s)%nat) → acyclic g.
Proof.
  intros B Hr. exists rank. intros k o s Ho Hs. apply (bu_ops _ _ _ B) in Ho as (o' & _ & <- & ->).
  unfold placed_op in Hs. simpl in Hs. apply elem_of_succs in Hs. by apply Hr.
Qed.

(** ** Builders that keep adding ops *)

(** The op [new_op] makes. *)
Definition made (b : Building) (tt : TransferType) (src dst : list Z) (dp : Z) (swa : bool)
    (kv : option (list Z)) (tails : option (list string)) : TransferOp :=
  mkTransferOp (_next_op_id b.1) (graph_id b.2) tt src dst ∅ ∅ PENDING dp (-1) (-1) (zlen src) 0 swa kv tails None None.

(** The graph under construction, and every id in it drawn from the counter. *)
Definition holds (b : Building) (ops : list TransferOp) (edges : list (Z * Z)) : Prop :=
  built b.2 ops edges ∧ Forall (λ o, op_id o < _next_op_id b.1) ops.

Lemma holds_fresh b ops edges : holds b ops edges → _next_op_id b.1 ∉ op_id <$> ops.
Proof. intros [_ Hf] (o & Ho & Hin)%list_elem_of_fmap. rewrite Forall_forall in Hf. specialize (Hf o Hin). lia. Qed.

Lemma holds_new b ops edges tt src dst dp swa kv tails :
  holds b ops edges → length src = length dst →
  let o := made b tt src dst dp swa kv tails in
  let b' := (bump b.1, add_transfer_op o b.2) in
  new_op tt src dst dp swa kv tails b = (Ok o, (bump b.1, b.2)) ∧ graph_add o (bump b.1, b.2) = (Ok (), b') ∧
  holds b' (ops ++ [o]) edges ∧ graph_id b'.2 = graph_id b.2.
Proof.
  intros Hh Hl o b'. pose proof (holds_fresh _ _ _ Hh) as Hn. destruct Hh as [B F].
  split; [by apply new_op_run|]. split; [done|]. split; [|apply graph_id_add]. split.
  - by apply built_add.
  - apply Forall_app. split; [|constructor; simpl; [lia|done]]. eapply Forall_impl; [exact F|]. simpl. lia.
Qed.

Lemma holds_depend b ops edges s p :
  holds b ops edges → s ∈ op_id <$> ops → p ∈ op_id <$> ops →
  ∃ b', graph_depend s p b = (Ok (), b') ∧ b'.1 = b.1 ∧ graph_id b'.2 = graph_id b.2 ∧ holds b' ops ((s, p) :: edges).
Proof.
  intros [B F] Hs Hp. destruct b as [ids g]. exists (ids, depends s p g). cbn [fst snd] in *.
  split; [by eapply graph_depend_run|]. split; [done|]. split; [done|]. split; [|done]. by apply built_depend.
Qed.

End GraphBuild.
