(* ===== verification/SWAOps.v ===== *)
(** * SWAOps: the sliding-window peer ops of a plan

    Models [SWAOpConstructor] of [flexkv/cache/swa_cache_engine.py]: given resolved
    SWA slot ids it appends peer SWA ops to the graph a planner is building.
    [enabled] is the property of that name; the planners evaluate it on the
    engine's state ([GlobalCache.swa_transfer_enabled]) and pass it here. *)

From S2P Require Import Prelude Transfer GraphBuild.
Import GraphBuild.GraphBuild.
Local Open Scope Z_scope.

Module SWAOps.

Record SWAPutChainOpIds : Type := mkPutChain {
  d2h_id : option Z;
  h2disk_id : option Z;
  h2remote_id : option Z;
}.

Section constructor.
Context (enabled : bool).

Definition is_remote (ty : TransferType) : bool :=
  match ty with H2REMOTE | REMOTE2H => true | _ => false end.

Definition tail_hashes (ty : TransferType) (mooncake_tail_hashes : option (list string)) : option (list string) :=
  match mooncake_tail_hashes with
  | Some ((_ :: _) as l) => if is_remote ty then Some l else None
  | _ => None
  end.

Definition build_swa_op (transfer_type : TransferType) (src dst : list Z) (dp : Z)
    (mooncake_tail_hashes : option (list string)) : Build (option Z) :=
  if negb enabled then mret None
  else if (zlen src =? 0) || (zlen dst =? 0) then mret None
  else
    op ← new_op transfer_type src dst dp true None (tail_hashes transfer_type mooncake_tail_hashes);
    graph_add op ;;
    mret (Some (op_id op)).

(** An op of the chain on one tier, ordered with [anchor]; absent unless the tier has one slot per CPU slot. *)
Definition same_size (slots : option (list Z)) (cpu_slot_ids : list Z) : option (list Z) :=
  match slots with Some l => if zlen l =? zlen cpu_slot_ids then Some l else None | None => None end.

Definition staging_op (h2d_id : Z) (ty : TransferType) (slots : option (list Z)) (cpu_slot_ids : list Z) (dp : Z)
    (mooncake_tail_hashes : option (list string)) : Build unit :=
  match same_size slots cpu_slot_ids with
  | None => mret tt
  | Some l =>
      k ← build_swa_op ty l cpu_slot_ids dp mooncake_tail_hashes;
      match k with Some k => graph_depend h2d_id k | None => mret tt end
  end.

Definition build_get_chain (gpu_slot_ids cpu_slot_ids : list Z) (ssd_slot_ids remote_slot_ids : option (list Z)) (dp : Z)
    (mooncake_tail_hashes : option (list string)) : Build (option Z) :=
  assertM (zlen gpu_slot_ids =? zlen cpu_slot_ids) ;;
  h2d_id ← build_swa_op H2D cpu_slot_ids gpu_slot_ids dp None;
  match h2d_id with
  | None => mret None
  | Some h2d_id =>
      staging_op h2d_id DISK2H ssd_slot_ids cpu_slot_ids dp None ;;
      staging_op h2d_id REMOTE2H remote_slot_ids cpu_slot_ids dp mooncake_tail_hashes ;;
      mret (Some h2d_id)
  end.

Definition write_through_op (d2h_id : Z) (ty : TransferType) (slots : option (list Z)) (cpu_slot_ids : list Z) (dp : Z)
    (mooncake_tail_hashes : option (list string)) : Build (option Z) :=
  match same_size slots cpu_slot_ids with
  | None => mret None
  | Some l =>
      k ← build_swa_op ty cpu_slot_ids l dp mooncake_tail_hashes;
      match k with Some k => graph_depend k d2h_id ;; mret (Some k) | None => mret None end
  end.

(** [return_op_ids=True]; [build_put_chain] is the other form of the call. *)
Definition build_put_chain_ids (gpu_slot_ids cpu_slot_ids : list Z) (ssd_slot_ids remote_slot_ids : option (list Z)) (dp : Z)
    (mooncake_tail_hashes : option (list string)) : Build SWAPutChainOpIds :=
  assertM (zlen gpu_slot_ids =? zlen cpu_slot_ids) ;;
  d2h_id ← build_swa_op D2H gpu_slot_ids cpu_slot_ids dp None;
  match d2h_id with
  | None => mret (mkPutChain None None None)
  | Some d2h_id =>
      h2ssd_id ← write_through_op d2h_id H2DISK ssd_slot_ids cpu_slot_ids dp None;
      h2remote_id ← write_through_op d2h_id H2REMOTE remote_slot_ids cpu_slot_ids dp mooncake_tail_hashes;
      mret (mkPutChain (Some d2h_id) h2ssd_id h2remote_id)
  end.

Definition build_put_chain (gpu_slot_ids cpu_slot_ids : list Z) (ssd_slot_ids remote_slot_ids : option (list Z)) (dp : Z)
    (mooncake_tail_hashes : option (list string)) : Build (option Z) :=
  ids ← build_put_chain_ids gpu_slot_ids cpu_slot_ids ssd_slot_ids remote_slot_ids dp mooncake_tail_hashes;
  mret (d2h_id ids).
End constructor.

(** ** What the chains add *)

(** An op by the tier it moves between, its slots, and its mooncake keys. *)
Definition Lane : Type := TransferType * list Z * list Z * option (list string).
Definition lane (o : TransferOp) : Lane := (transfer_type o, src_block_ids o, dst_block_ids o, mooncake_store_swa_block_hashes o).

(** [b'] is [b] with the peer ops [new] and their [joins] added, ids drawn in order. *)
Record extends (b b' : Building) (ops new : list TransferOp) (edges joins : list (Z * Z)) : Prop := {
  ex_holds : holds b' (ops ++ new) (joins ++ edges);
  ex_id : graph_id b'.2 = graph_id b.2;
  ex_swa : Forall (λ o, is_swa o = true) new;
  ex_ids : op_id <$> new = seqZ (_next_op_id b.1) (zlen new);
  ex_next : _next_op_id b'.1 = _next_op_id b.1 + zlen new;
}.

Definition load_lane (ty : TransferType) (slots : option (list Z)) (cpu_slot_ids : list Z) tails : list Lane :=
  match same_size slots cpu_slot_ids with Some l => [(ty, l, cpu_slot_ids, tail_hashes ty tails)] | None => [] end.
Definition store_lane (ty : TransferType) (slots : option (list Z)) (cpu_slot_ids : list Z) tails : list Lane :=
  match same_size slots cpu_slot_ids with Some l => [(ty, cpu_slot_ids, l, tail_hashes ty tails)] | None => [] end.

Lemma extends_refl b ops edges : holds b ops edges → extends b b ops [] edges [].
Proof. intros Hh. split; [by rewrite app_nil_r|done|constructor|done|unfold zlen; simpl; lia]. Qed.

Lemma extends_trans b b1 b2 ops n1 n2 edges j1 j2 :
  extends b b1 ops n1 edges j1 → extends b1 b2 (ops ++ n1) n2 (j1 ++ edges) j2 → extends b b2 ops (n1 ++ n2) edges (j2 ++ j1).
Proof.
  intros [A1 A2 A3 A4 A5] [B1 B2 B3 B4 B5]. split.
  - by rewrite app_assoc, <- (app_assoc j2).
  - congruence.
  - by apply Forall_app.
  - rewrite fmap_app, A4, B4, A5, zlen_app, seqZ_app by (unfold zlen; lia). done.
  - rewrite B5, A5, zlen_app. lia.
Qed.

Lemma same_size_length slots cpu l : same_size slots cpu = Some l → length l = length cpu.
Proof. unfold same_size, zlen. intros E. repeat case_match; simplify_eq. lia. Qed.

(** One peer op, when there is a slot to move. *)
Lemma build_swa_op_run b ops edges ty src dst dp tails :
  holds b ops edges → length src = length dst → src ≠ [] →
  ∃ o b', build_swa_op true ty src dst dp tails b = (Ok (Some (op_id o)), b') ∧ extends b b' ops [o] edges [] ∧
    lane o = (ty, src, dst, tail_hashes ty tails).
Proof.
  intros Hh Hl Hne. unfold build_swa_op. cbn [negb].
  assert ((zlen src =? 0) = false) as -> by (apply Z.eqb_neq; unfold zlen; destruct src; [done|simpl; lia]).
  assert ((zlen dst =? 0) = false) as -> by (apply Z.eqb_neq; unfold zlen; destruct src; [done|simpl in *; lia]).
  destruct (holds_new b ops edges ty src dst dp true None (tail_hashes ty tails) Hh Hl) as (E1 & E2 & Hh' & Hg).
  exists (made b ty src dst dp true None (tail_hashes ty tails)). eexists. cbn [orb].
  rewrite M_bind_run, E1, M_bind_run, E2. split; [done|]. split; [|done].
  split; [done|done|by constructor|done|done].
Qed.

(** A peer op joined to the op [h] already there, by the edge [join]. *)
Lemma joined_op_run b ops edges ty src dst dp tails h (join : Z → Z * Z) :
  holds b ops edges → h ∈ op_id <$> ops → length src = length dst → src ≠ [] → (∀ k, join k = (h, k) ∨ join k = (k, h)) →
  ∃ o b1 b', build_swa_op true ty src dst dp tails b = (Ok (Some (op_id o)), b1) ∧
    graph_depend (join (op_id o)).1 (join (op_id o)).2 b1 = (Ok (), b') ∧
    extends b b' ops [o] edges [join (op_id o)] ∧ lane o = (ty, src, dst, tail_hashes ty tails).
Proof.
  intros Hh Hin Hl Hne Hj. destruct (build_swa_op_run b ops edges ty src dst dp tails) as (o & b1 & E1 & X1 & L1); [done..|].
  assert (h ∈ op_id <$> ops ++ [o] ∧ op_id o ∈ op_id <$> ops ++ [o]) as [H1 H2].
  { rewrite fmap_app, !elem_of_app. split; [by left|right; left]. }
  destruct (holds_depend b1 (ops ++ [o]) edges (join (op_id o)).1 (join (op_id o)).2) as (b2 & E2 & Ei & Eg & H3).
  { apply X1. } { by destruct (Hj (op_id o)) as [-> | ->]. } { by destruct (Hj (op_id o)) as [-> | ->]. }
  exists o, b1, b2. split; [done|]. split; [done|]. split; [|done].
  destruct X1 as [X1 X2 X3 X4 X5]. split; [by destruct (join (op_id o))|congruence|done|done|by rewrite Ei].
Qed.

Lemma staging_run b ops edges h ty slots cpu dp tails :
  holds b ops edges → h ∈ op_id <$> ops → cpu ≠ [] →
  ∃ new b', staging_op true h ty slots cpu dp tails b = (Ok (), b') ∧
    extends b b' ops new edges ((λ k, (h, k)) <$> (op_id <$> new)) ∧ lane <$> new = load_lane ty slots cpu tails.
Proof.
  intros Hh Hin Hne. unfold staging_op, load_lane. destruct (same_size slots cpu) as [l|] eqn:E; [|exists [], b; by split; [|split; [apply extends_refl|]]].
  apply same_size_length in E.
  destruct (joined_op_run b ops edges ty l cpu dp tails h (λ k, (h, k))) as (o & b1 & b2 & E1 & E2 & X & L); [done|done|done|by destruct l, cpu|by left|].
  exists [o], b2. rewrite M_bind_run, E1. split; [done|]. split; [done|simpl; by rewrite L].
Qed.

Lemma write_through_run b ops edges h ty slots cpu dp tails :
  holds b ops edges → h ∈ op_id <$> ops → cpu ≠ [] →
  ∃ new b', write_through_op true h ty slots cpu dp tails b = (Ok (head (op_id <$> new)), b') ∧
    extends b b' ops new edges ((λ k, (k, h)) <$> (op_id <$> new)) ∧ lane <$> new = store_lane ty slots cpu tails.
Proof.
  intros Hh Hin Hne. unfold write_through_op, store_lane. destruct (same_size slots cpu) as [l|] eqn:E; [|exists [], b; by split; [|split; [apply extends_refl|]]].
  apply same_size_length in E.
  destruct (joined_op_run b ops edges ty cpu l dp tails h (λ k, (k, h))) as (o & b1 & b2 & E1 & E2 & X & L); [done|done|done|done|by right|].
  exists [o], b2. cbn [fst snd] in E2. rewrite M_bind_run, E1, M_bind_run, E2. split; [done|]. split; [done|simpl; by rewrite L].
Qed.

Lemma two_joins (f : Z → Z * Z) l1 l2 e : e ∈ (f <$> l2) ++ (f <$> l1) ++ [] ↔ e ∈ f <$> l1 ++ l2.
Proof. rewrite app_nil_r, fmap_app, !elem_of_app. tauto. Qed.

(** The load chain: the H2D first, then one staging op per lower tier, the H2D waiting for each of them. *)
Lemma get_chain_run b ops edges gpu cpu ssd remote dp tails :
  holds b ops edges → length gpu = length cpu → cpu ≠ [] →
  ∃ h2d new joins b', build_get_chain true gpu cpu ssd remote dp tails b = (Ok (Some (op_id h2d)), b') ∧
    extends b b' ops (h2d :: new) edges joins ∧ (∀ e, e ∈ joins ↔ e ∈ (λ k, (op_id h2d, k)) <$> (op_id <$> new)) ∧
    lane <$> h2d :: new = (H2D, cpu, gpu, None) :: load_lane DISK2H ssd cpu None ++ load_lane REMOTE2H remote cpu tails.
Proof.
  intros Hh Hl Hne. unfold build_get_chain. rewrite M_bind_run. unfold zlen at 1 2. rewrite Hl, Z.eqb_refl. cbn [assertM lift_result py_assert].
  destruct (build_swa_op_run b ops edges H2D cpu gpu dp None) as (o & b1 & E1 & X1 & L1); [done..|].
  assert (op_id o ∈ op_id <$> ops ++ [o]) as Hin by (rewrite fmap_app, elem_of_app; right; left).
  destruct (staging_run b1 (ops ++ [o]) edges (op_id o) DISK2H ssd cpu dp None) as (n1 & b2 & E2 & X2 & L2); [apply X1|done|done|].
  pose proof (extends_trans _ _ _ _ _ _ _ _ _ X1 X2) as X12.
  destruct (staging_run _ _ _ (op_id o) REMOTE2H remote cpu dp tails (ex_holds _ _ _ _ _ _ X12)) as (n2 & b3 & E3 & X3 & L3);
    [rewrite !fmap_app, !elem_of_app; right; left; left|done|].
  exists o, (n1 ++ n2). eexists. exists b3. rewrite M_bind_run, E1. rewrite M_bind_run, E2, M_bind_run, E3. split; [done|].
  split; [exact (extends_trans _ _ _ _ _ _ _ _ _ X12 X3)|]. split; [|by rewrite fmap_cons, fmap_app, L1, L2, L3].
  intros e. rewrite fmap_app. apply two_joins.
Qed.

(** The store chain: the D2H first, then one write-through op per lower tier, each waiting for the D2H. *)
Lemma put_chain_run b ops edges gpu cpu ssd remote dp tails :
  holds b ops edges → length gpu = length cpu → cpu ≠ [] →
  ∃ d2h n1 n2 joins b', build_put_chain_ids true gpu cpu ssd remote dp tails b =
      (Ok (mkPutChain (Some (op_id d2h)) (head (op_id <$> n1)) (head (op_id <$> n2))), b') ∧
    extends b b' ops (d2h :: n1 ++ n2) edges joins ∧ (∀ e, e ∈ joins ↔ e ∈ (λ k, (k, op_id d2h)) <$> (op_id <$> n1 ++ n2)) ∧
    lane d2h = (D2H, gpu, cpu, None) ∧ lane <$> n1 = store_lane H2DISK ssd cpu None ∧ lane <$> n2 = store_lane H2REMOTE remote cpu tails.
Proof.
  intros Hh Hl Hne. unfold build_put_chain_ids. rewrite M_bind_run. unfold zlen at 1 2. rewrite Hl, Z.eqb_refl. cbn [assertM lift_result py_assert].
  destruct (build_swa_op_run b ops edges D2H gpu cpu dp None) as (o & b1 & E1 & X1 & L1); [done|done|by destruct gpu, cpu|].
  assert (op_id o ∈ op_id <$> ops ++ [o]) as Hin by (rewrite fmap_app, elem_of_app; right; left).
  destruct (write_through_run b1 (ops ++ [o]) edges (op_id o) H2DISK ssd cpu dp None) as (n1 & b2 & E2 & X2 & L2); [apply X1|done|done|].
  pose proof (extends_trans _ _ _ _ _ _ _ _ _ X1 X2) as X12.
  destruct (write_through_run _ _ _ (op_id o) H2REMOTE remote cpu dp tails (ex_holds _ _ _ _ _ _ X12)) as (n2 & b3 & E3 & X3 & L3);
    [rewrite !fmap_app, !elem_of_app; right; left; left|done|].
  exists o, n1, n2. eexists. exists b3. rewrite M_bind_run, E1. rewrite M_bind_run, E2, M_bind_run, E3. split; [done|].
  split; [exact (extends_trans _ _ _ _ _ _ _ _ _ X12 X3)|]. split; [|done].
  intros e. rewrite fmap_app. apply two_joins.
Qed.

(** Disabled, or nothing to move: the graph and the counters are left alone. *)
Lemma chains_absent enabled b gpu cpu ssd remote dp tails :
  length gpu = length cpu → enabled = false ∨ cpu = [] →
  build_get_chain enabled gpu cpu ssd remote dp tails b = (Ok None, b) ∧
  build_put_chain_ids enabled gpu cpu ssd remote dp tails b = (Ok (mkPutChain None None None), b).
Proof.
  intros Hl Hd. unfold build_get_chain, build_put_chain_ids, build_swa_op.
  rewrite !M_bind_run. unfold zlen at 1 2 5 6. rewrite Hl, Z.eqb_refl. cbn [assertM lift_result py_assert].
  destruct Hd as [-> | ->]; [done|]. destruct gpu; [|done]. by destruct enabled.
Qed.

Definition toy_start : Building := (mkIds 5 1, mkGraph 0 [] ∅ ∅ [] []).

Lemma toy_start_holds : holds toy_start [] [].
Proof. split; [apply built_empty|constructor]. Qed.

(** [C38] The SWA ops of a GET and of a PUT form the same graph as the full-KV ops: one H2D that waits for the
    staging op of every lower tier with one slot per CPU slot, respectively one D2H every write-through op waits
    for; all ops carry the SWA flag, take the next ids in order, and nothing else of the graph changes.  The op
    reported to the caller is the one next to the GPU.  When SWA transfer is disabled or there is no slot to move,
    neither call changes anything. *)
Theorem swa_chains_spec enabled b ops edges gpu cpu ssd remote dp tails :
  holds b ops edges → length gpu = length cpu →
  (enabled = false ∨ cpu = [] →
    build_get_chain enabled gpu cpu ssd remote dp tails b = (Ok None, b) ∧
    build_put_chain enabled gpu cpu ssd remote dp tails b = (Ok None, b)) ∧
  (enabled = true → cpu ≠ [] →
    (∃ h2d new joins b', build_get_chain enabled gpu cpu ssd remote dp tails b = (Ok (Some (op_id h2d)), b') ∧
      extends b b' ops (h2d :: new) edges joins ∧ (∀ s p, (s, p) ∈ joins ↔ s = op_id h2d ∧ p ∈ op_id <$> new) ∧
      lane <$> h2d :: new = (H2D, cpu, gpu, None) :: load_lane DISK2H ssd cpu None ++ load_lane REMOTE2H remote cpu tails) ∧
    (∃ d2h new joins b', build_put_chain enabled gpu cpu ssd remote dp tails b = (Ok (Some (op_id d2h)), b') ∧
      extends b b' ops (d2h :: new) edges joins ∧ (∀ s p, (s, p) ∈ joins ↔ s ∈ op_id <$> new ∧ p = op_id d2h) ∧
      lane <$> d2h :: new = (D2H, gpu, cpu, None) :: store_lane H2DISK ssd cpu None ++ store_lane H2REMOTE remote cpu tails)).
Proof.
  intros Hh Hl. split.
  - intros Hd. destruct (chains_absent enabled b gpu cpu ssd remote dp tails Hl Hd) as [E1 E2].
    split; [done|]. unfold build_put_chain. by rewrite M_bind_run, E2.
  - intros -> Hne. split.
    + destruct (get_chain_run b ops edges gpu cpu ssd remote dp tails) as (h2d & new & joins & b' & E & X & J & L); [done..|].
      exists h2d, new, joins, b'. split; [done|]. split; [done|]. split; [|done].
      intros s p. rewrite J, list_elem_of_fmap. naive_solver.
    + destruct (put_chain_run b ops edges gpu cpu ssd remote dp tails) as (d2h & n1 & n2 & joins & b' & E & X & J & L1 & L2 & L3); [done..|].
      exists d2h, (n1 ++ n2), joins, b'. unfold build_put_chain. rewrite M_bind_run, E. split; [done|]. split; [done|].
      split; [intros s p; rewrite J, list_elem_of_fmap; naive_solver|]. by rewrite fmap_cons, fmap_app, L1, L2, L3.
Qed.

Lemma swa_chains_spec_witness :
  ∃ h2d new joins b', build_get_chain true [0] [3] (Some [4]) (Some []) 0 None toy_start = (Ok (Some (op_id h2d)), b') ∧
    extends toy_start b' [] (h2d :: new) [] joins ∧ (∀ s p, (s, p) ∈ joins ↔ s = op_id h2d ∧ p ∈ op_id <$> new) ∧
    lane <$> h2d :: new = [(H2D, [3], [0], None); (DISK2H, [4], [3], None)].
Proof.
  exact (proj1 (proj2 (swa_chains_spec true toy_start [] [] [0] [3] (Some [4]) (Some []) 0 None toy_start_holds eq_refl) eq_refl ltac:(done))).
Defined.

End SWAOps.
