(* ===== verification/BatchMerge.v ===== *)
(** * Fusion of several transfer graphs into one batch

    Models the second half of [flexkv/common/transfer.py]: the completion
    callbacks with their two protocols, the slicing of per-block results, the
    VIRTUAL sinks, and [merge_to_batch_graph] with its helpers.

    A callback is a computation on the state [St] of the program that registered
    it (the cache engine's, for [GlobalCache]).  Callback dictionaries map op ids
    to callbacks.  The two dictionaries of the merge and the graph under
    construction are local objects: they form, with the id counters, the record
    [Batch]. *)

From S2P Require Import Prelude Transfer GraphBuild.
Import GraphBuild.GraphBuild.
Local Open Scope Z_scope.

Module BatchMerge.

(** ** Callbacks *)

(** The old protocol takes no argument, the new one is marked by its class. *)
Inductive Callable (St : Type) : Type :=
  | Plain (f : M St unit)
  | CompletionAwareCallback (f : option CompletedOp → M St unit).
Arguments Plain {St} f.
Arguments CompletionAwareCallback {St} f.

Section callbacks.
Context {St : Type}.
Abbreviation Callback := (Callable St).
Abbreviation CallbackDict := (list (Z * Callable St)).

Definition invoke_op_callback (callback : Callback) (completed : option CompletedOp) : M St unit :=
  match callback with
  | CompletionAwareCallback f => f completed
  | Plain f => f
  end.

(** The body of [combined_callback], from position [idx] on. *)
Fixpoint combined_callback (block_spans : option (list (Z * Z))) (completed : option CompletedOp)
    (idx : nat) (callbacks : list Callback) : M St unit :=
  match callbacks with
  | [] => mret tt
  | cb :: callbacks' =>
      child ← match completed, block_spans with
        | Some c, Some spans =>
            match spans !! idx with
            | Some (offset, count) => c ← lift_result (slice_blocks offset count c); mret (Some c)
            | None => raise IndexError
            end
        | _, _ => mret completed
        end;
      invoke_op_callback cb child ;;
      combined_callback block_spans completed (S idx) callbacks'
  end.

Definition _make_combined_callback (callbacks : list Callback) (block_spans : option (list (Z * Z))) : result Callback :=
  let combined := CompletionAwareCallback (λ completed, combined_callback block_spans completed 0 callbacks) in
  match block_spans with
  | Some spans =>
      if (length spans =? length callbacks)%nat then Ok combined
      else Raise (ValueError "callbacks and block_spans must have the same length")
  | None => Ok combined
  end.

Definition _attach_combined_callback (op : TransferOp) (callbacks : list Callback) (d : CallbackDict) : result CallbackDict :=
  match callbacks with
  | [] => Ok d
  | [cb] => Ok (dict_set (op_id op) cb d)
  | _ => cb ← _make_combined_callback callbacks None; mret (dict_set (op_id op) cb d)
  end.

(** [{op.op_id: callback for op, callback in callbacks}]: a later pair wins. *)
Definition callback_by_op_id (callbacks : list (TransferOp * Callback)) : CallbackDict :=
  foldl (λ d oc, dict_set (op_id oc.1) oc.2 d) [] callbacks.

(** The callbacks of the source ops in order, each with the span of its op. *)
Fixpoint spans_from (by_id : CallbackDict) (offset : Z) (source_ops : list TransferOp) : list (Callback * (Z * Z)) :=
  match source_ops with
  | [] => []
  | op :: ops' =>
      let n := zlen (src_block_ids op) in
      match dict_get (op_id op) by_id with
      | Some cb => (cb, (offset, n)) :: spans_from by_id (offset + n) ops'
      | None => spans_from by_id (offset + n) ops'
      end
  end.

Definition _attach_merged_callbacks (merged_op : TransferOp) (source_ops : list TransferOp)
    (callbacks : list (TransferOp * Callback)) (d : CallbackDict) : result CallbackDict :=
  match callbacks with
  | [] => Ok d
  | _ =>
      let merged := spans_from (callback_by_op_id callbacks) 0 source_ops in
      if (length source_ops =? 1)%nat then
        match merged with
        | (cb, _) :: _ => Ok (dict_set (op_id merged_op) cb d)
        | [] => Raise IndexError
        end
      else
        cb ← _make_combined_callback merged.*1 (Some merged.*2);
        mret (dict_set (op_id merged_op) cb d)
  end.

(** ** Fusion of the ops of one lane *)

Definition merge_error (msg : string) : exn := ValueError ("merge: " ++ msg).

(** [np.concatenate] of the hash arrays, which are all present or all absent. *)
Definition merged_hashes (ops : list TransferOp) : result (option (list Z)) :=
  let has_hashes := (λ op, bool_decide (is_Some (mooncake_store_block_hashes op))) <$> ops in
  if existsb id has_hashes then
    if forallb id has_hashes
    then Ok (Some (mjoin (default [] ∘ mooncake_store_block_hashes <$> ops)))
    else Raise (merge_error "cannot merge mooncake and non-mooncake ops in the same batch")
  else Ok None.

Definition _merge_ops (ops : list TransferOp) (tt : TransferType) (gid : Z)
    (callbacks : list (TransferOp * Callback)) (d : CallbackDict) : M Ids (option TransferOp * CallbackDict) :=
  match ops with
  | [] => mret (None, d)
  | op0 :: _ =>
      (if existsb is_swa ops then raise (merge_error "SWA ops must go through _merge_swa_ops") else mret Datatypes.tt) ;;
      (if existsb (λ op, bool_decide (is_Some (mooncake_store_swa_block_hashes op))) ops
       then raise (merge_error "unexpected mooncake_store_swa_block_hashes on main-KV op") else mret Datatypes.tt) ;;
      hashes ← lift_result (merged_hashes ops);
      op ← TransferOp_init gid tt (mjoin (src_block_ids <$> ops)) (mjoin (dst_block_ids <$> ops)) (dp_client_id op0)
             false hashes None None;
      d ← lift_result (_attach_merged_callbacks op ops callbacks d);
      mret (Some op, d)
  end.

(** The tail hashes: every remote SWA op has them, no other has. *)
Definition merged_tails (tt : TransferType) (ops : list TransferOp) : result (option (list string)) :=
  if bool_decide (tt = H2REMOTE) || bool_decide (tt = REMOTE2H) then
    if existsb (λ op, bool_decide (mooncake_store_swa_block_hashes op = None)) ops
    then Raise (merge_error "SWA mooncake op missing mooncake_store_swa_block_hashes")
    else Ok (Some (mjoin (default [] ∘ mooncake_store_swa_block_hashes <$> ops)))
  else if existsb (λ op, bool_decide (is_Some (mooncake_store_swa_block_hashes op))) ops
  then Raise (merge_error "mooncake_store_swa_block_hashes only allowed on H2REMOTE / REMOTE2H")
  else Ok None.

Definition _merge_swa_ops (ops : list TransferOp) (tt : TransferType) (gid : Z)
    (callbacks : list (TransferOp * Callback)) (d : CallbackDict) : M Ids (option TransferOp * CallbackDict) :=
  match ops with
  | [] => mret (None, d)
  | op0 :: _ =>
      (if existsb (λ op, negb (is_swa op)) ops then raise (merge_error "all ops must have is_swa=True") else mret Datatypes.tt) ;;
      (if existsb (λ op, bool_decide (is_Some (mooncake_store_block_hashes op))) ops
       then raise (merge_error "unexpected mooncake_store_block_hashes on SWA op") else mret Datatypes.tt) ;;
      tails ← lift_result (merged_tails tt ops);
      op ← TransferOp_init gid tt (mjoin (src_block_ids <$> ops)) (mjoin (dst_block_ids <$> ops)) (dp_client_id op0)
             true None tails None;
      d ← lift_result (_attach_merged_callbacks op ops callbacks d);
      mret (Some op, d)
  end.

(** ** Sorting the ops into lanes *)

Definition supported_types : list TransferType := [DISK2H; H2D; D2H; H2DISK; H2REMOTE; REMOTE2H].

Record Buckets : Type := mkBuckets {
  ops_by_type : list (TransferType * list TransferOp);
  callbacks_by_type : list (TransferType * list (TransferOp * Callback));
  swa_ops_by_type : list (TransferType * list TransferOp);
  swa_callbacks_by_type : list (TransferType * list (TransferOp * Callback));
}.

Definition bucket {A} (tt : TransferType) (d : list (TransferType * list A)) : list A := default [] (dict_get tt d).
Definition push {A} (tt : TransferType) (x : A) : list (TransferType * list A) → list (TransferType * list A) :=
  dict_alter (λ l, l ++ [x]) tt.
Definition push_some {A} (tt : TransferType) (x : option A) (d : list (TransferType * list A)) : list (TransferType * list A) :=
  match x with Some x => push tt x d | None => d end.

Definition empty_buckets : Buckets :=
  mkBuckets ((λ tt, (tt, [])) <$> supported_types) ((λ tt, (tt, [])) <$> supported_types)
            ((λ tt, (tt, [])) <$> supported_types) ((λ tt, (tt, [])) <$> supported_types).

Definition bucket_op (op_callback_dict : CallbackDict) (b : Buckets) (op : TransferOp) : result Buckets :=
  let tt := transfer_type op in
  if bool_decide (tt = VIRTUAL) then Ok b
  else if negb (bool_decide (tt ∈ supported_types)) then Raise NotImplementedError
  else
    let cb := (λ c, (op, c)) <$> dict_get (op_id op) op_callback_dict in
    Ok (if is_swa op
        then mkBuckets (ops_by_type b) (callbacks_by_type b)
               (push tt op (swa_ops_by_type b)) (push_some tt cb (swa_callbacks_by_type b))
        else mkBuckets (push tt op (ops_by_type b)) (push_some tt cb (callbacks_by_type b))
               (swa_ops_by_type b) (swa_callbacks_by_type b)).

Fixpoint bucket_all (op_callback_dict : CallbackDict) (b : Buckets) (ops : list TransferOp) : result Buckets :=
  match ops with
  | [] => Ok b
  | op :: ops' => b ← bucket_op op_callback_dict b op; bucket_all op_callback_dict b ops'
  end.

(** The ops of all the graphs, in the order of the two loops. *)
Definition batch_ops (graphs : list TransferOpGraph) : list TransferOp := mjoin ((λ g, (_op_map g).*2) <$> graphs).

Definition non_empty {A} (l : list A) : bool := match l with [] => false | _ => true end.

Definition _bucket_has (types : list TransferType) (b : Buckets) : bool :=
  existsb (λ tt, non_empty (bucket tt (ops_by_type b)) || non_empty (bucket tt (swa_ops_by_type b))) types.

Definition _pick_dp_client_id (b : Buckets) : Z :=
  match bucket H2D (ops_by_type b), bucket H2D (swa_ops_by_type b),
        bucket D2H (ops_by_type b), bucket D2H (swa_ops_by_type b) with
  | op :: _, _, _, _ => dp_client_id op
  | [], op :: _, _, _ => dp_client_id op
  | [], [], op :: _, _ => dp_client_id op
  | [], [], [], op :: _ => dp_client_id op
  | [], [], [], [] => 0
  end.
End callbacks.

(** ** The merge *)

(** The objects local to one call: the graph, [new_op_callback_dict] and
    [layerwise_local_cb_dict]. *)
Record Batch (St : Type) : Type := mkBatch {
  b_build : Building;
  b_new : list (Z * Callable St);
  b_local : list (Z * Callable St);
}.
Arguments mkBatch {St}. Arguments b_build {St}. Arguments b_new {St}. Arguments b_local {St}.

Section merge.
Context {St : Type}.
Abbreviation Callback := (Callable St).
Abbreviation CallbackDict := (list (Z * Callable St)).
Abbreviation Merge := (M (Batch St)).

Definition in_build {A} (m : Build A) : Merge A := λ b,
  let '(r, g) := m (b_build b) in (r, mkBatch g (b_new b) (b_local b)).

(** One call of [_merge_ops] or [_merge_swa_ops]; [local] says which of the two dictionaries it is given. *)
Definition merge_lane (local swa : bool) (tt : TransferType) (bk : Buckets (St := St)) : Merge (option TransferOp) :=
  b ← get_state;
  let gid := graph_id (b_build b).2 in
  let d := if local then b_local b else b_new b in
  '(op, d) ← in_build (on_ids
     (if swa then _merge_swa_ops (bucket tt (swa_ops_by_type bk)) tt gid (bucket tt (swa_callbacks_by_type bk)) d
      else _merge_ops (bucket tt (ops_by_type bk)) tt gid (bucket tt (callbacks_by_type bk)) d));
  b ← get_state;
  put_state (if local then mkBatch (b_build b) (b_new b) d else mkBatch (b_build b) d (b_local b)) ;;
  mret op.

Definition _add_batch_sink (terminals : list Z) (dp : Z) : Build Z :=
  match filter (λ t, 0 <= t) terminals with
  | [] => mret (-1)
  | [t] => mret t
  | terminals => virtual_barrier terminals dp
  end.

(** [if op is not None: merged_graph.add_transfer_op(op)] *)
Definition add_op (op : option TransferOp) : Build unit :=
  match op with Some op => graph_add op | None => mret tt end.

(** [if s is not None and p is not None: merged_graph.add_dependency(s.op_id, p.op_id)] *)
Definition depend (s p : option TransferOp) : Build unit :=
  match s, p with Some s, Some p => graph_depend (op_id s) (op_id p) | _, _ => mret tt end.

Definition ids_of (ops : list (option TransferOp)) : list Z := omap (λ op, op_id <$> op) ops.
Definition src_of (op : option TransferOp) : list Z := default [] (src_block_ids <$> op).
Definition dst_of (op : option TransferOp) : list Z := default [] (dst_block_ids <$> op).

(** The GET branch with [layerwise_transfer]: the local ops are folded into one op. *)
Definition layerwise_graph (disk2h h2d remote2h swa_disk2h swa_h2d swa_remote2h : option TransferOp)
    (dp counter : Z) : Build TransferOp :=
  add_op remote2h ;; add_op swa_remote2h ;;
  assertM (bool_decide (is_Some h2d) || bool_decide (is_Some swa_h2d)) ;;
  b ← get_state;
  op ← on_ids (LayerwiseTransferOp_init (graph_id b.2) dp
         (mkLayerwiseFields (src_of h2d) (dst_of h2d) (src_of disk2h) (dst_of disk2h)
            (src_of swa_h2d) (dst_of swa_h2d) (src_of swa_disk2h) (dst_of swa_disk2h) counter));
  graph_add op ;;
  depend (Some op) remote2h ;; depend (Some op) swa_remote2h ;;
  mret op.

(** The callbacks of the folded ops. *)
Definition layerwise_callbacks (bk : Buckets (St := St)) : list Callback :=
  (bucket DISK2H (callbacks_by_type bk)).*2 ++ (bucket H2D (callbacks_by_type bk)).*2 ++
  (bucket DISK2H (swa_callbacks_by_type bk)).*2 ++ (bucket H2D (swa_callbacks_by_type bk)).*2.

Definition get_graph (disk2h h2d remote2h swa_disk2h swa_h2d swa_remote2h : option TransferOp) (dp : Z) : Build Z :=
  add_op disk2h ;; add_op h2d ;; add_op remote2h ;; add_op swa_disk2h ;; add_op swa_h2d ;; add_op swa_remote2h ;;
  depend h2d disk2h ;; depend h2d remote2h ;;
  depend swa_h2d swa_disk2h ;; depend swa_h2d swa_remote2h ;;
  let sinks := ids_of [h2d; swa_h2d] in
  _add_batch_sink (if non_empty sinks then sinks else ids_of [remote2h; swa_remote2h; disk2h; swa_disk2h]) dp.

Definition put_graph (d2h h2disk h2remote swa_d2h swa_h2disk swa_h2remote : option TransferOp) (dp : Z) : Build Z :=
  add_op d2h ;; add_op swa_d2h ;; add_op h2disk ;; add_op swa_h2disk ;; add_op h2remote ;; add_op swa_h2remote ;;
  depend h2disk d2h ;; depend h2remote d2h ;;
  depend swa_h2disk swa_d2h ;; depend swa_h2remote swa_d2h ;;
  let sinks := ids_of [d2h; swa_d2h] in
  _add_batch_sink (if non_empty sinks then sinks else ids_of [h2disk; swa_h2disk; h2remote; swa_h2remote]) dp.

Definition merge_get (bk : Buckets (St := St)) (layerwise : bool) (dp counter : Z) : Merge Z :=
  disk2h ← merge_lane layerwise false DISK2H bk;
  h2d ← merge_lane layerwise false H2D bk;
  remote2h ← merge_lane false false REMOTE2H bk;
  swa_disk2h ← merge_lane layerwise true DISK2H bk;
  swa_h2d ← merge_lane layerwise true H2D bk;
  swa_remote2h ← merge_lane false true REMOTE2H bk;
  if layerwise : bool then
    op ← in_build (layerwise_graph disk2h h2d remote2h swa_disk2h swa_h2d swa_remote2h dp counter);
    b ← get_state;
    d ← lift_result (_attach_combined_callback op (layerwise_callbacks bk) (b_new b));
    put_state (mkBatch (b_build b) d (b_local b)) ;;
    mret (op_id op)
  else in_build (get_graph disk2h h2d remote2h swa_disk2h swa_h2d swa_remote2h dp).

Definition merge_put (bk : Buckets (St := St)) (dp : Z) : Merge Z :=
  d2h ← merge_lane false false D2H bk;
  h2disk ← merge_lane false false H2DISK bk;
  h2remote ← merge_lane false false H2REMOTE bk;
  swa_d2h ← merge_lane false true D2H bk;
  swa_h2disk ← merge_lane false true H2DISK bk;
  swa_h2remote ← merge_lane false true H2REMOTE bk;
  in_build (put_graph d2h h2disk h2remote swa_d2h swa_h2disk swa_h2remote dp).

Definition get_types : list TransferType := [H2D; DISK2H; REMOTE2H].
Definition put_types : list TransferType := [D2H; H2DISK; H2REMOTE].

(** Which kinds of ops a batch may contain. *)
Definition check_kinds (layerwise has_get has_put : bool) : result unit :=
  if layerwise then
    if negb has_get then Raise (ValueError "layerwise batch must contain GET ops")
    else if has_put then Raise (ValueError "layerwise batch must not mix PUT ops")
    else Ok tt
  else if has_get && has_put then Raise (ValueError "batch merge cannot mix GET and PUT ops in the same batch")
  else Ok tt.

Definition merge_to_batch_graph (transfer_graphs : list TransferOpGraph) (task_end_op_ids : list Z)
    (op_callback_dict : CallbackDict) (layerwise_transfer : bool) (counter : Z)
    : M Ids (TransferOpGraph * Z * CallbackDict) :=
  match transfer_graphs with
  | [] => g ← TransferOpGraph_init; mret (g, -1, [])
  | _ =>
      (if negb (length transfer_graphs =? length task_end_op_ids)%nat
       then raise (ValueError "transfer_graphs and task_end_op_ids must have the same length") else mret tt) ;;
      g ← TransferOpGraph_init;
      bk ← lift_result (bucket_all op_callback_dict empty_buckets (batch_ops transfer_graphs));
      let has_get := _bucket_has get_types bk in
      let has_put := _bucket_has put_types bk in
      lift_result (check_kinds layerwise_transfer has_get has_put) ;;
      let dp := _pick_dp_client_id bk in
      ids ← get_state;
      let '(r, b) :=
        (if has_get then merge_get bk layerwise_transfer dp counter
         else if has_put then merge_put bk dp
         else mret (-1)) (mkBatch (ids, g) [] []) in
      put_state (b_build b).1 ;;
      e ← lift_result r;
      mret ((b_build b).2, e, b_new b)
  end.
End merge.

(** ** Lemmas on callbacks *)

Section callback_lemmas.
Context {St : Type}.
Implicit Types (by_id : list (Z * Callable St)) (ops : list TransferOp) (c : CompletedOp).

Definition total_blocks (ops : list TransferOp) : Z := foldr (λ op n, zlen (src_block_ids op) + n) 0 ops.

(** The part of a completion that concerns the blocks [offset, offset + n). *)
Definition restrict (offset n : Z) (c : CompletedOp) : CompletedOp :=
  match co_block_results c with
  | None => c
  | Some rs =>
      {| co_graph_id := co_graph_id c; co_op_id := co_op_id c; co_transfer_type := co_transfer_type c;
         co_num_blocks := n; co_num_bytes := co_num_bytes c;
         co_block_results := Some (take (Z.to_nat n) (drop (Z.to_nat offset) rs)); co_failed := co_failed c |}
  end.

(** Reference: one call per source op that registered a callback, in order, each with its own part. *)
Fixpoint deliver by_id (offset : Z) ops (completed : option CompletedOp) : M St unit :=
  match ops with
  | [] => mret tt
  | op :: ops' =>
      let n := zlen (src_block_ids op) in
      (match dict_get (op_id op) by_id with
       | Some cb => invoke_op_callback cb (restrict offset n <$> completed)
       | None => mret tt
       end) ;;
      deliver by_id (offset + n) ops' completed
  end.

(** A completion that reports the blocks of all the source ops. *)
Definition covers (ops : list TransferOp) (completed : option CompletedOp) : Prop :=
  ∀ c rs, completed = Some c → co_block_results c = Some rs → zlen rs = total_blocks ops ∧ co_num_blocks c = zlen rs.

Lemma total_blocks_nonneg ops : 0 <= total_blocks ops.
Proof. induction ops as [|op ops IH]; simpl; [lia|]. pose proof (zlen_nonneg (src_block_ids op)). lia. Qed.

Lemma slice_restrict c offset n :
  0 <= offset → 0 <= n → (∀ rs, co_block_results c = Some rs → offset + n <= zlen rs) →
  slice_blocks offset n c = Ok (restrict offset n c).
Proof.
  intros Ho Hn Hl. unfold slice_blocks, restrict. destruct (co_block_results c) as [rs|] eqn:E; [|done].
  specialize (Hl rs eq_refl). destruct (Z.ltb_spec offset 0), (Z.ltb_spec n 0), (Z.ltb_spec (zlen rs) (offset + n)); try lia; simpl.
  rewrite py_slice_in by lia. replace (offset + n - offset) with n by lia. done.
Qed.

Lemma combined_deliver by_id ops completed :
  ∀ pre offset s, 0 <= offset →
  (∀ c rs, completed = Some c → co_block_results c = Some rs → offset + total_blocks ops <= zlen rs) →
  combined_callback (Some (pre ++ (spans_from by_id offset ops).*2)) completed (length pre) (spans_from by_id offset ops).*1 s =
  deliver by_id offset ops completed s.
Proof.
  induction ops as [|op ops IH]; intros pre offset s Ho Hc; [done|]. cbn [spans_from deliver total_blocks foldr] in *.
  set (n := zlen (src_block_ids op)) in *. pose proof (zlen_nonneg (src_block_ids op)) as Hn. fold n in Hn.
  pose proof (total_blocks_nonneg ops) as Hp. unfold total_blocks in Hp.
  assert (∀ c rs, completed = Some c → co_block_results c = Some rs → offset + n + total_blocks ops <= zlen rs) as Hc'.
  { intros c rs H1 H2. specialize (Hc c rs H1 H2). unfold total_blocks. lia. }
  destruct (dict_get (op_id op) by_id) as [cb|].
  2:{ rewrite IH by (lia || done). done. }
  cbn [fmap list_fmap combined_callback fst snd]. rewrite M_bind_run.
  assert ((match completed, Some (pre ++ (offset, n) :: (spans_from by_id (offset + n) ops).*2) with
    | Some c, Some spans => match spans !! length pre with
        | Some (o, k) => c ← lift_result (slice_blocks o k c); mret (Some c) | None => raise IndexError end
    | _, _ => mret completed end) s = (Ok (restrict offset n <$> completed), s)) as ->.
  { destruct completed as [c|]; [|done]. rewrite list_lookup_middle by done. rewrite M_bind_run. cbn [lift_result].
    rewrite slice_restrict; [done|lia|lia|]. intros rs Hr. specialize (Hc c rs eq_refl Hr). lia. }
  rewrite !M_bind_run. destruct (invoke_op_callback cb _ s) as [[[]|e] s']; [|done].
  specialize (IH (pre ++ [(offset, n)]) (offset + n) s' ltac:(lia) Hc').
  rewrite <- app_assoc in IH. cbn [app] in IH. rewrite <- IH. f_equal. rewrite length_app. simpl. lia.
Qed.

Lemma restrict_all c n : (∀ rs, co_block_results c = Some rs → zlen rs = n ∧ co_num_blocks c = n) → restrict 0 n c = c.
Proof.
  unfold restrict. destruct c as [g o t nb ny [rs|] fl]; simpl; [|done]. intros Hr. destruct (Hr rs eq_refl) as [Hl ->].
  rewrite drop_0, take_ge; [done|]. unfold zlen in Hl. lia.
Qed.

Lemma M_bind_ret_unit (m : M St unit) s : (m ;; mret tt) s = m s.
Proof. rewrite M_bind_run. by destruct (m s) as [[[]|e] s']. Qed.

Lemma callback_by_op_id_dom (callbacks : list (TransferOp * Callable St)) (o : TransferOp) (cb : Callable St) :
  (o, cb) ∈ callbacks → is_Some (dict_get (op_id o) (callback_by_op_id callbacks)).
Proof.
  unfold callback_by_op_id. induction callbacks as [|[o' cb'] l IH] using rev_ind; [by intros ?%elem_of_nil|].
  rewrite foldl_app. simpl. rewrite dict_get_set. intros [Hin|[= <- <-]%list_elem_of_singleton]%elem_of_app; [|by rewrite decide_True].
  case_decide; [by eexists|auto].
Qed.

Lemma attach_merged_ok merged ops (callbacks : list (TransferOp * Callable St)) d :
  callbacks ≠ [] → (∀ o cb, (o, cb) ∈ callbacks → o ∈ ops) →
  ∃ cb, _attach_merged_callbacks merged ops callbacks d = Ok (dict_set (op_id merged) cb d) ∧
    ∀ completed s, covers ops completed →
      invoke_op_callback cb completed s = deliver (callback_by_op_id callbacks) 0 ops completed s.
Proof.
  intros Hne Hin. unfold _attach_merged_callbacks. destruct callbacks as [|[o0 cb0] l]; [done|]. set (cbs := (o0, cb0) :: l) in *.
  set (by_id := callback_by_op_id cbs).
  destruct (Nat.eqb_spec (length ops) 1) as [H1|H1].
  - destruct ops as [|op [|]]; [done| |done]. assert (o0 = op) as ->.
    { specialize (Hin o0 cb0 ltac:(left)). by apply list_elem_of_singleton in Hin. }
    destruct (callback_by_op_id_dom cbs op cb0 ltac:(left)) as [cb Hcb]. fold by_id in Hcb. simpl. rewrite Hcb.
    exists cb. split; [done|]. intros completed s Hc. rewrite M_bind_ret_unit. f_equal.
    destruct completed as [c|]; [|done]. simpl. f_equal. symmetry. apply restrict_all. intros rs Hr.
    destruct (Hc c rs eq_refl Hr) as [E1 E2]. simpl in E1. split; lia.
  - unfold _make_combined_callback. rewrite !length_fmap, Nat.eqb_refl. eexists. split; [done|].
    intros completed s Hc. simpl. rewrite <- (combined_deliver by_id ops completed [] 0 s); [done|lia|].
    intros c rs E1 E2. destruct (Hc c rs E1 E2). lia.
Qed.
End callback_lemmas.

(** ** Lemmas on one lane *)

Definition op_sized (o : TransferOp) : Prop := length (src_block_ids o) = length (dst_block_ids o).

(** The block movements of an op, in order. *)
Definition moves (o : TransferOp) : list (Z * Z) := zip (src_block_ids o) (dst_block_ids o).

(** The ops of one lane can be fused. *)
Definition lane_ok (swa : bool) (tt : TransferType) (ops : list TransferOp) : bool :=
  forallb (λ o, Bool.eqb (is_swa o) swa) ops &&
  if swa then
    forallb (λ o, bool_decide (mooncake_store_block_hashes o = None)) ops &&
    (let remote := bool_decide (tt = H2REMOTE) || bool_decide (tt = REMOTE2H) in
     forallb (λ o, Bool.eqb (bool_decide (is_Some (mooncake_store_swa_block_hashes o))) remote) ops)
  else
    forallb (λ o, bool_decide (mooncake_store_swa_block_hashes o = None)) ops &&
    (forallb (λ o, bool_decide (is_Some (mooncake_store_block_hashes o))) ops ||
     forallb (λ o, bool_decide (mooncake_store_block_hashes o = None)) ops).

Definition joined {A} (f : TransferOp → option (list A)) (ops : list TransferOp) : option (list A) :=
  if existsb (λ o, bool_decide (is_Some (f o))) ops then Some (mjoin (default [] ∘ f <$> ops)) else None.

(** The op that fuses [ops], constructed with the counters [ids]. *)
Record lane_op (swa : bool) (tt : TransferType) (gid : Z) (ops : list TransferOp) (ids : Ids) (o : TransferOp) : Prop := {
  lo_id : op_id o = _next_op_id ids;
  lo_graph : op_graph_id o = gid;
  lo_type : transfer_type o = tt;
  lo_swa : is_swa o = swa;
  lo_moves : moves o = mjoin (moves <$> ops);
  lo_sized : op_sized o;
  lo_fresh : op_status o = PENDING ∧ predecessors o = ∅ ∧ successors o = ∅;
  lo_kv : mooncake_store_block_hashes o = joined mooncake_store_block_hashes ops;
  lo_tails : mooncake_store_swa_block_hashes o = joined mooncake_store_swa_block_hashes ops;
}.

Lemma length_join_sized ops : Forall op_sized ops →
  length (mjoin (src_block_ids <$> ops)) = length (mjoin (dst_block_ids <$> ops)).
Proof.
  induction 1 as [|o ops Ho _ IH]; [done|]. csimpl. rewrite !length_app, IH. unfold op_sized in Ho. lia.
Qed.

Lemma moves_join ops : Forall op_sized ops →
  zip (mjoin (src_block_ids <$> ops)) (mjoin (dst_block_ids <$> ops)) = mjoin (moves <$> ops).
Proof.
  induction 1 as [|o ops Ho _ IH]; [done|]. csimpl. rewrite zip_with_app by done. by rewrite IH.
Qed.

Lemma existsb_forallb {A} (f : A → bool) l : existsb f l = negb (forallb (λ x, negb (f x)) l).
Proof. induction l as [|x l IH]; simpl; [done|]. rewrite IH. by destruct (f x), (forallb _ l). Qed.

Lemma forallb_ext {A} (f g : A → bool) l : (∀ x, f x = g x) → forallb f l = forallb g l.
Proof. intros Hfg. induction l as [|x l IH]; simpl; by rewrite ?Hfg, ?IH. Qed.

Lemma bool_decide_None {A} (x : option A) : bool_decide (x = None) = negb (bool_decide (is_Some x)).
Proof. destruct x as [a|]; simpl; repeat case_bool_decide; naive_solver. Qed.

Lemma existsb_some {A} (f : TransferOp → option A) ops :
  existsb (λ o, bool_decide (is_Some (f o))) ops = negb (forallb (λ o, bool_decide (f o = None)) ops).
Proof. rewrite existsb_forallb. f_equal. apply forallb_ext. intros o. symmetry. apply bool_decide_None. Qed.

Lemma existsb_none {A} (f : TransferOp → option A) ops :
  existsb (λ o, bool_decide (f o = None)) ops = negb (forallb (λ o, bool_decide (is_Some (f o))) ops).
Proof. rewrite existsb_forallb. f_equal. apply forallb_ext. intros o. by rewrite bool_decide_None, negb_involutive. Qed.

Section lane_lemmas.
Context {St : Type}.
Implicit Types (ops : list TransferOp) (callbacks : list (TransferOp * Callable St)) (d : list (Z * Callable St)).

Definition merge_of (swa : bool) : list TransferOp → TransferType → Z → list (TransferOp * Callable St) →
    list (Z * Callable St) → M Ids (option TransferOp * list (Z * Callable St)) :=
  if swa then _merge_swa_ops else _merge_ops.

(** What the dictionary holds after the fusion: nothing new when no source op has a callback,
    otherwise a callback that serves every source op its part. *)
Definition served ops callbacks d (o : TransferOp) d' : Prop :=
  match callbacks with
  | [] => d' = d
  | _ => ∃ cb, d' = dict_set (op_id o) cb d ∧
         ∀ completed s, covers ops completed →
           invoke_op_callback cb completed s = deliver (callback_by_op_id callbacks) 0 ops completed s
  end.

Lemma attach_served merged ops callbacks d :
  (∀ o cb, (o, cb) ∈ callbacks → o ∈ ops) →
  ∃ d', _attach_merged_callbacks merged ops callbacks d = Ok d' ∧ served ops callbacks d merged d'.
Proof.
  intros Hin. destruct callbacks as [|oc l] eqn:E; [by eexists|]. rewrite <- E in *.
  destruct (attach_merged_ok merged ops callbacks d) as (cb & H1 & H2); [by rewrite E|done|].
  eexists. split; [done|]. rewrite E in *. simpl. eauto.
Qed.

(** The guards of the two functions. *)
Definition lane_guard (swa : bool) (tt : TransferType) ops : result (option (list Z) * option (list string)) :=
  if swa then
    if existsb (λ op, negb (is_swa op)) ops then Raise (merge_error "all ops must have is_swa=True")
    else if existsb (λ op, bool_decide (is_Some (mooncake_store_block_hashes op))) ops
    then Raise (merge_error "unexpected mooncake_store_block_hashes on SWA op")
    else tails ← merged_tails tt ops; mret (None, tails)
  else
    if existsb is_swa ops then Raise (merge_error "SWA ops must go through _merge_swa_ops")
    else if existsb (λ op, bool_decide (is_Some (mooncake_store_swa_block_hashes op))) ops
    then Raise (merge_error "unexpected mooncake_store_swa_block_hashes on main-KV op")
    else kv ← merged_hashes ops; mret (kv, None).

Lemma joined_None {A} (f : TransferOp → option (list A)) ops :
  forallb (λ o, bool_decide (f o = None)) ops = true → joined f ops = None.
Proof.
  intros Hn. unfold joined. by rewrite existsb_some, Hn.
Qed.

Lemma joined_Some {A} (f : TransferOp → option (list A)) ops :
  ops ≠ [] → forallb (λ o, bool_decide (is_Some (f o))) ops = true → joined f ops = Some (mjoin (default [] ∘ f <$> ops)).
Proof. unfold joined. destruct ops as [|o ops]; [done|]. simpl. by intros _ [-> _]%andb_true_iff. Qed.

Lemma lane_guard_spec swa tt ops : ops ≠ [] →
  if lane_ok swa tt ops
  then lane_guard swa tt ops = Ok (joined mooncake_store_block_hashes ops, joined mooncake_store_swa_block_hashes ops)
  else ∃ msg, lane_guard swa tt ops = Raise (ValueError msg).
Proof.
  intros Hne. unfold lane_ok, lane_guard.
  assert (∀ b, forallb (λ o, Bool.eqb (is_swa o) b) ops = forallb (λ o, if b then is_swa o else negb (is_swa o)) ops) as Eq.
  { intros b. apply forallb_ext. intros o. by destruct (is_swa o), b. }
  rewrite Eq. destruct swa.
  - rewrite existsb_forallb. rewrite (forallb_ext (λ x, negb (negb (is_swa x))) is_swa) by (intros; apply negb_involutive).
    destruct (forallb is_swa ops); simpl; [|by eexists].
    rewrite existsb_some.
    destruct (forallb (λ o, bool_decide (mooncake_store_block_hashes o = None)) ops) eqn:Ekv; simpl; [|by eexists].
    rewrite (joined_None _ _ Ekv). unfold merged_tails. destruct (bool_decide (tt = H2REMOTE) || bool_decide (tt = REMOTE2H)).
    + rewrite existsb_none.
      rewrite (forallb_ext (λ o, Bool.eqb _ true) (λ o, bool_decide (is_Some (mooncake_store_swa_block_hashes o)))).
      2:{ intros o. by destruct (bool_decide _). }
      destruct (forallb (λ o, bool_decide (is_Some (mooncake_store_swa_block_hashes o))) ops) eqn:Et; simpl; [|by eexists].
      by rewrite (joined_Some _ _ Hne Et).
    + rewrite existsb_some.
      rewrite (forallb_ext (λ o, Bool.eqb _ false) (λ o, bool_decide (mooncake_store_swa_block_hashes o = None))).
      2:{ intros o. rewrite bool_decide_None. by destruct (bool_decide _). }
      destruct (forallb (λ o, bool_decide (mooncake_store_swa_block_hashes o = None)) ops) eqn:Et; simpl; [|by eexists].
      by rewrite (joined_None _ _ Et).
  - rewrite existsb_forallb. destruct (forallb (λ x, negb (is_swa x)) ops); simpl; [|by eexists].
    rewrite existsb_some.
    destruct (forallb (λ o, bool_decide (mooncake_store_swa_block_hashes o = None)) ops) eqn:Et; simpl; [|by eexists].
    rewrite (joined_None _ _ Et). unfold merged_hashes.
    assert (∀ f : TransferOp → bool, existsb id (f <$> ops) = existsb f ops ∧ forallb id (f <$> ops) = forallb f ops) as Hid.
    { intros f. clear. induction ops as [|o l [IH1 IH2]]; [done|]. cbn. by split; f_equal. }
    destruct (Hid (λ op, bool_decide (is_Some (mooncake_store_block_hashes op)))) as [-> ->].
    destruct (forallb (λ o, bool_decide (is_Some (mooncake_store_block_hashes o))) ops) eqn:Ek; simpl.
    + rewrite (joined_Some _ _ Hne Ek). destruct (existsb _ ops) eqn:Ex; [done|]. exfalso.
      destruct ops as [|o l]; [done|]. simpl in Ek, Ex. apply andb_true_iff in Ek as [Ek _]. by rewrite Ek in Ex.
    + rewrite existsb_some.
      destruct (forallb (λ o, bool_decide (mooncake_store_block_hashes o = None)) ops) eqn:En; simpl; [|by eexists].
      by rewrite (joined_None _ _ En).
Qed.

Lemma merge_of_guard swa tt gid callbacks d ids op0 l :
  let ops := op0 :: l in
  merge_of swa ops tt gid callbacks d ids =
    (hs ← lift_result (lane_guard swa tt ops);
     op ← TransferOp_init gid tt (mjoin (src_block_ids <$> ops)) (mjoin (dst_block_ids <$> ops)) (dp_client_id op0)
            swa hs.1 hs.2 None;
     d ← lift_result (_attach_merged_callbacks op ops callbacks d);
     mret (Some op, d)) ids.
Proof.
  intros ops. unfold merge_of, lane_guard. destruct swa; unfold _merge_swa_ops, _merge_ops, ops; cbv beta iota; fold ops;
    rewrite !M_bind_run; (destruct (existsb _ ops); [done|]); cbn [mret M_ret]; rewrite !M_bind_run; (destruct (existsb _ ops); [done|]);
    cbn [mret M_ret]; rewrite !M_bind_run; unfold lift_result; [destruct (merged_tails tt ops)|destruct (merged_hashes ops)]; done.
Qed.

Lemma merge_of_ok swa ops tt gid callbacks d ids :
  ops ≠ [] → Forall op_sized ops → (∀ o cb, (o, cb) ∈ callbacks → o ∈ ops) →
  if lane_ok swa tt ops
  then ∃ o d', merge_of swa ops tt gid callbacks d ids = (Ok (Some o, d'), bump ids) ∧
         lane_op swa tt gid ops ids o ∧ served ops callbacks d o d'
  else ∃ msg, merge_of swa ops tt gid callbacks d ids = (Raise (ValueError msg), ids).
Proof.
  intros Hne Hs Hin. destruct ops as [|op0 l]; [done|]. rewrite merge_of_guard. set (ops := op0 :: l) in *.
  pose proof (lane_guard_spec swa tt ops Hne) as Hg.
  destruct (lane_ok swa tt ops).
  - rewrite Hg, M_bind_run. cbn [lift_result fst snd]. rewrite M_bind_run, TransferOp_init_run by (by apply length_join_sized).
    set (o := mkTransferOp _ _ _ _ _ _ _ _ _ _ _ _ _ _ _ _ _ _).
    destruct (attach_served o ops callbacks d Hin) as (d' & Ed & Hd). exists o, d'. rewrite M_bind_run, Ed. split; [done|].
    split; [|done]. split; try done; [by apply moves_join|by apply length_join_sized].
  - destruct Hg as [msg Hg]. exists msg. by rewrite Hg.
Qed.
End lane_lemmas.

(** ** Lemmas on the lanes *)

(** The ops of a batch that belong to one lane, in order. *)
Definition lane (swa : bool) (tt : TransferType) (ops : list TransferOp) : list TransferOp :=
  filter (λ o, transfer_type o = tt ∧ is_swa o = swa) ops.

Section bucket_lemmas.
Context {St : Type}.
Implicit Types (d : list (Z * Callable St)) (b : Buckets (St := St)).

Definition lane_callbacks d (swa : bool) (tt : TransferType) (ops : list TransferOp) : list (TransferOp * Callable St) :=
  omap (λ o, (λ cb, (o, cb)) <$> dict_get (op_id o) d) (lane swa tt ops).

(** The buckets hold the lanes of [ops]. *)
Record sorted d (ops : list TransferOp) b : Prop := {
  so_keys : (ops_by_type b).*1 = supported_types ∧ (callbacks_by_type b).*1 = supported_types ∧
            (swa_ops_by_type b).*1 = supported_types ∧ (swa_callbacks_by_type b).*1 = supported_types;
  so_lanes : ∀ tt, tt ∈ supported_types →
    bucket tt (ops_by_type b) = lane false tt ops ∧ bucket tt (swa_ops_by_type b) = lane true tt ops ∧
    bucket tt (callbacks_by_type b) = lane_callbacks d false tt ops ∧
    bucket tt (swa_callbacks_by_type b) = lane_callbacks d true tt ops;
}.

Lemma bucket_push {A} tt tt' (x : A) l :
  tt ∈ l.*1 → bucket tt' (push tt x l) = if decide (tt = tt') then bucket tt' l ++ [x] else bucket tt' l.
Proof.
  intros Hin. unfold bucket, push. rewrite dict_get_alter. case_decide as E; [|done]. subst.
  destruct (dict_key_get _ _ Hin) as [v ->]. done.
Qed.

Lemma bucket_push_some {A} tt tt' (x : option A) l :
  tt ∈ l.*1 →
  bucket tt' (push_some tt x l) = if decide (tt = tt') then bucket tt' l ++ option_list x else bucket tt' l.
Proof.
  intros Hin. destruct x as [x|]; simpl; [by rewrite bucket_push|]. rewrite app_nil_r. by destruct (decide _).
Qed.

Lemma keys_push {A} tt (x : option A) l : (push_some tt x l).*1 = l.*1.
Proof. destruct x; simpl; [apply dict_keys_alter|done]. Qed.

Lemma lane_snoc swa tt ops o :
  lane swa tt (ops ++ [o]) = lane swa tt ops ++ if decide (transfer_type o = tt ∧ is_swa o = swa) then [o] else [].
Proof. unfold lane. rewrite filter_app. done. Qed.

Lemma lane_callbacks_snoc d swa tt ops o :
  lane_callbacks d swa tt (ops ++ [o]) = lane_callbacks d swa tt ops ++
    if decide (transfer_type o = tt ∧ is_swa o = swa) then option_list ((λ cb, (o, cb)) <$> dict_get (op_id o) d) else [].
Proof.
  unfold lane_callbacks. rewrite lane_snoc, omap_app. f_equal. case_decide; [|done]. simpl. by destruct (dict_get _ _).
Qed.

Lemma empty_sorted d : sorted d [] empty_buckets.
Proof.
  split; [done|]. intros tt Hin. unfold lane_callbacks, lane. simpl.
  repeat (apply elem_of_cons in Hin as [->|Hin]; [done|]). by apply elem_of_nil in Hin.
Qed.

Definition mergeable (o : TransferOp) : Prop := transfer_type o = VIRTUAL ∨ transfer_type o ∈ supported_types.
#[export] Instance mergeable_dec o : Decision (mergeable o).
Proof. unfold mergeable. apply _. Defined.

Lemma bucket_op_ok d ops b o :
  sorted d ops b → mergeable o → ∃ b', bucket_op d b o = Ok b' ∧ sorted d (ops ++ [o]) b'.
Proof.
  intros [(K1 & K2 & K3 & K4) HL] Hm. unfold bucket_op. destruct (decide (transfer_type o = VIRTUAL)) as [Hv|Hv].
  - rewrite bool_decide_eq_true_2 by done. exists b. split; [done|]. split; [done|]. intros tt Htt.
    destruct (HL tt Htt) as (? & ? & ? & ?).
    rewrite !lane_snoc, !lane_callbacks_snoc.
    assert (transfer_type o ≠ tt) by (intros E; rewrite Hv in E; subst; by repeat (apply elem_of_cons in Htt as [?|Htt]; [done|]); apply elem_of_nil in Htt).
    rewrite !(decide_False (P := _ ∧ _)) by naive_solver. by rewrite !app_nil_r.
  - rewrite bool_decide_eq_false_2 by done. destruct Hm as [?|Hm]; [done|]. rewrite bool_decide_eq_true_2 by done. cbn [negb].
    eexists. split; [done|]. set (tt0 := transfer_type o) in *. destruct (is_swa o) eqn:Es.
    + split; cbn [ops_by_type callbacks_by_type swa_ops_by_type swa_callbacks_by_type];
        [unfold push; rewrite keys_push, dict_keys_alter; done|]. intros tt Htt. destruct (HL tt Htt) as (E1 & E2 & E3 & E4).
      rewrite bucket_push, bucket_push_some by (rewrite ?K3, ?K4; done). rewrite !lane_snoc, !lane_callbacks_snoc, Es, E1, E2, E3, E4. fold tt0.
      rewrite !(decide_False (P := tt0 = tt ∧ true = false)) by naive_solver. rewrite !app_nil_r.
      destruct (decide (tt0 = tt)); [rewrite !decide_True by done|rewrite !(decide_False (P := tt0 = tt ∧ _)) by naive_solver; rewrite !app_nil_r]; done.
    + split; cbn [ops_by_type callbacks_by_type swa_ops_by_type swa_callbacks_by_type];
        [unfold push; rewrite keys_push, dict_keys_alter; done|]. intros tt Htt. destruct (HL tt Htt) as (E1 & E2 & E3 & E4).
      rewrite bucket_push, bucket_push_some by (rewrite ?K1, ?K2; done). rewrite !lane_snoc, !lane_callbacks_snoc, Es, E1, E2, E3, E4. fold tt0.
      rewrite !(decide_False (P := tt0 = tt ∧ false = true)) by naive_solver. rewrite !app_nil_r.
      destruct (decide (tt0 = tt)); [rewrite !decide_True by done|rewrite !(decide_False (P := tt0 = tt ∧ _)) by naive_solver; rewrite !app_nil_r]; done.
Qed.

Lemma bucket_all_ok d ops2 : ∀ ops b, sorted d ops b → Forall mergeable ops2 →
  ∃ b', bucket_all d b ops2 = Ok b' ∧ sorted d (ops ++ ops2) b'.
Proof.
  induction ops2 as [|o ops2 IH]; intros ops b Hb Hm; simpl.
  - exists b. by rewrite app_nil_r.
  - apply Forall_cons in Hm as [Ho Hm]. destruct (bucket_op_ok d ops b o Hb Ho) as (b1 & E & H1). rewrite E. simpl.
    destruct (IH (ops ++ [o]) b1 H1 Hm) as (b' & E' & H'). exists b'. split; [done|]. by rewrite <- app_assoc in H'.
Qed.

Lemma bucket_all_unsupported d ops2 : ∀ b, ¬ Forall mergeable ops2 → bucket_all d b ops2 = Raise NotImplementedError.
Proof.
  induction ops2 as [|o ops2 IH]; intros b Hm; simpl; [by destruct Hm|].
  destruct (decide (mergeable o)) as [Ho|Ho].
  - assert (¬ Forall mergeable ops2) as Hm2 by (intros ?; apply Hm; by constructor).
    unfold bucket_op. case_bool_decide; [by apply IH|]. case_bool_decide; [by apply IH|done].
  - unfold bucket_op, mergeable in *. rewrite !bool_decide_eq_false_2 by naive_solver. done.
Qed.

Lemma elem_of_lane swa tt ops o : o ∈ lane swa tt ops ↔ transfer_type o = tt ∧ is_swa o = swa ∧ o ∈ ops.
Proof. unfold lane. rewrite list_elem_of_filter. naive_solver. Qed.

Lemma elem_of_lane_callbacks d swa tt ops o cb :
  (o, cb) ∈ lane_callbacks d swa tt ops → o ∈ lane swa tt ops ∧ dict_get (op_id o) d = Some cb.
Proof.
  unfold lane_callbacks. intros (x & Hx & E)%list_elem_of_omap. apply fmap_Some in E as (cb' & E & [= -> ->]). done.
Qed.

(** Looking callbacks up in the lane or in the whole dictionary is the same for the ops of the lane. *)
Lemma lane_by_id d swa tt ops o :
  o ∈ lane swa tt ops → dict_get (op_id o) (callback_by_op_id (lane_callbacks d swa tt ops)) = dict_get (op_id o) d.
Proof.
  intros Ho. unfold callback_by_op_id.
  assert (∀ l k, (∀ x c, (x, c) ∈ l → dict_get (op_id x) d = Some c) →
    dict_get k (foldl (λ d0 oc, dict_set (op_id oc.1) oc.2 d0) [] l) = if decide (k ∈ op_id <$> l.*1) then dict_get k d else None) as Hgen.
  { intros l k Hl. induction l as [|[x c] l IH] using rev_ind; [done|]. rewrite foldl_app. cbn [foldl fst snd]. rewrite dict_get_set.
    rewrite !fmap_app. cbn. destruct (decide (op_id x = k)) as [<-|Hne].
    - rewrite decide_True by (apply elem_of_app; right; left). symmetry. apply Hl. apply elem_of_app. right. left.
    - rewrite IH by (intros; apply Hl, elem_of_app; by left). apply decide_ext. rewrite elem_of_app, list_elem_of_singleton. naive_solver. }
  rewrite Hgen by (intros x c Hx; apply elem_of_lane_callbacks in Hx; apply Hx). case_decide as Hk; [done|].
  destruct (dict_get (op_id o) d) as [cb|] eqn:E; [|done]. destruct Hk. apply list_elem_of_fmap. exists o. split; [done|].
  apply list_elem_of_fmap. exists (o, cb). split; [done|]. unfold lane_callbacks. apply list_elem_of_omap. exists o. by rewrite E.
Qed.

Lemma deliver_by_id (by_id by_id' : list (Z * Callable St)) ops offset completed s :
  (∀ o, o ∈ ops → dict_get (op_id o) by_id = dict_get (op_id o) by_id') →
  deliver by_id offset ops completed s = deliver by_id' offset ops completed s.
Proof.
  revert offset s. induction ops as [|o ops IH]; intros offset s Hd; [done|]. cbn [deliver].
  rewrite (Hd o) by left. rewrite !M_bind_run.
  destruct (dict_get (op_id o) by_id') as [cb|]; [destruct (invoke_op_callback cb _ s) as [[[]|e] s']; [|done]|]; cbn [mret M_ret].
  all: apply IH; intros x Hx; apply Hd; by right.
Qed.
End bucket_lemmas.

(** ** The lanes of a batch *)

Section lanes.
Context {St : Type} (d : list (Z * Callable St)) (ops : list TransferOp).

(** The dictionary serves the merged op [o]. *)
Definition served_in (dict : list (Z * Callable St)) (o : TransferOp) : Prop :=
  let l := lane (is_swa o) (transfer_type o) ops in
  if non_empty (lane_callbacks d (is_swa o) (transfer_type o) ops)
  then ∃ cb, dict_get (op_id o) dict = Some cb ∧
       ∀ completed s, covers l completed → invoke_op_callback cb completed s = deliver d 0 l completed s
  else dict_get (op_id o) dict = None.

(** [o] fuses the ops of its lane. *)
Definition fuses (o : TransferOp) : Prop :=
  lane (is_swa o) (transfer_type o) ops ≠ [] ∧ moves o = mjoin (moves <$> lane (is_swa o) (transfer_type o) ops) ∧
  op_sized o ∧ fresh_state o.

(** After fusing the lanes [sp] into the ops [os]. *)
Record lanes (n0 : Z) (sp : list (bool * TransferType)) (os : list TransferOp) (ids : Ids) (dict : list (Z * Callable St)) : Prop := {
  ls_range : ∀ o, o ∈ os → n0 <= op_id o < _next_op_id ids;
  ls_next : n0 <= _next_op_id ids;
  ls_nodup : NoDup (op_id <$> os);
  ls_some : ∀ swa tt, (swa, tt) ∈ sp → lane swa tt ops ≠ [] → ∃ o, o ∈ os ∧ transfer_type o = tt ∧ is_swa o = swa;
  ls_lane : ∀ o, o ∈ os → (is_swa o, transfer_type o) ∈ sp ∧ fuses o ∧ served_in dict o;
  ls_uniq : ∀ o o', o ∈ os → o' ∈ os → transfer_type o = transfer_type o' → is_swa o = is_swa o' → o = o';
  ls_keys : ∀ k, k ∈ dict.*1 → k ∈ op_id <$> os;
}.

Lemma lanes_start ids : lanes (_next_op_id ids) [] [] ids [].
Proof. split; try done; try (by intros ? ?%elem_of_nil); try (by intros ? ? ?%elem_of_nil). apply NoDup_nil_2. Qed.

Lemma served_by_dict swa tt gid ids o dict dict' :
  lane_op swa tt gid (lane swa tt ops) ids o → served (lane swa tt ops) (lane_callbacks d swa tt ops) dict o dict' →
  dict_get (op_id o) dict = None → served_in dict' o.
Proof.
  intros [_ _ <- <- _ _ _ _ _] Hs Hn. unfold served_in. destruct (lane_callbacks d _ _ ops) as [|oc l] eqn:E; simpl in *.
  - by subst.
  - destruct Hs as (cb & -> & Hcb). exists cb. split; [by apply dict_get_set_eq|]. intros completed s Hc. rewrite Hcb by done.
    rewrite <- E. apply deliver_by_id. intros x Hx. by apply lane_by_id.
Qed.

Lemma served_other swa tt o dict dict' x :
  served (lane swa tt ops) (lane_callbacks d swa tt ops) dict o dict' → op_id o ≠ op_id x → served_in dict x → served_in dict' x.
Proof.
  intros Hs Hne. assert (dict_get (op_id x) dict' = dict_get (op_id x) dict) as E.
  { unfold served in Hs. destruct (lane_callbacks d swa tt ops); [by subst|]. destruct Hs as (cb & -> & _). by apply dict_get_set_ne. }
  unfold served_in. by rewrite E.
Qed.

Lemma merge_lane_ok bk swa tt n0 sp os ids g dn :
  sorted d ops bk → tt ∈ supported_types → Forall op_sized ops → lane_ok swa tt (lane swa tt ops) = true →
  (swa, tt) ∉ sp → lanes n0 sp os ids dn →
  ∃ r ids' dn', merge_lane false swa tt bk (mkBatch (ids, g) dn []) = (Ok r, mkBatch (ids', g) dn' []) ∧
    lanes n0 (sp ++ [(swa, tt)]) (os ++ option_list r) ids' dn' ∧
    (∀ o, r = Some o → transfer_type o = tt ∧ is_swa o = swa).
Proof.
  intros Hb Htt Hs Hok Hsp L. destruct (so_lanes _ _ _ Hb tt Htt) as (E1 & E2 & E3 & E4).
  set (l := lane swa tt ops) in *. set (cbs := lane_callbacks d swa tt ops) in *.
  assert (merge_lane false swa tt bk (mkBatch (ids, g) dn []) =
    match merge_of swa l tt (graph_id g) cbs dn ids with
    | (Ok (op, d'), ids') => (Ok op, mkBatch (ids', g) d' [])
    | (Raise e, ids') => (Raise e, mkBatch (ids', g) dn [])
    end) as ->.
  { unfold merge_lane. rewrite M_bind_run. cbn [get_state b_build b_new b_local fst snd]. rewrite M_bind_run. unfold in_build, on_ids, merge_of.
    cbn [b_build fst snd]. rewrite E1, E2, E3, E4. destruct swa; fold l cbs; [destruct (_merge_swa_ops _ _ _ _ _ _) as [[[]|] ?]|destruct (_merge_ops _ _ _ _ _ _) as [[[]|] ?]]; done. }
  destruct (decide (l = [])) as [Hl|Hl].
  - exists None, ids, dn. rewrite app_nil_r. split; [|split; [|done]].
    + rewrite Hl. unfold merge_of. by destruct swa.
    + destruct L as [L1 L2 L3 L4 L5 L6 L7]. split; try done.
      * intros swa' tt' [Hin|[= -> ->]%list_elem_of_singleton]%elem_of_app Hne; [by apply L4|done].
      * intros o Ho. destruct (L5 o Ho) as (? & ? & ?). split_and!; [apply elem_of_app; by left|done..].
  - pose proof (merge_of_ok swa l tt (graph_id g) cbs dn ids Hl) as Hm. rewrite Hok in Hm.
    destruct Hm as (o & dn' & Em & Ho & Hsv).
    { apply Forall_forall. intros x Hx. apply elem_of_lane in Hx as (_ & _ & Hx). rewrite Forall_forall in Hs. by apply Hs. }
    { intros x cb Hx. by apply elem_of_lane_callbacks in Hx as [? _]. }
    rewrite Em. exists (Some o), (bump ids), dn'. split; [done|]. pose proof Ho as [O1 O2 O3 O4 O5 O6 O7 _ _].
    split; [|intros ? [= <-]; done]. destruct L as [L1 L2 L3 L4 L5 L6 L7]. cbn [option_list].
    assert (∀ x, x ∈ os → op_id o ≠ op_id x) as Hne by (intros x Hx; destruct (L1 x Hx); lia).
    assert (dict_get (op_id o) dn = None) as Hnone.
    { apply dict_get_None. intros Hk%L7. apply list_elem_of_fmap in Hk as (x & Ex & Hx). by apply (Hne x Hx). }
    split.
    + intros x [Hx|Hx%list_elem_of_singleton]%elem_of_app; [specialize (L1 x Hx)|subst x]; simpl; lia.
    + simpl. lia.
    + rewrite fmap_app. apply NoDup_app. split_and!; [done| |apply NoDup_singleton].
      intros k Hk Hk'. apply list_elem_of_singleton in Hk' as ->. apply list_elem_of_fmap in Hk as (x & Ex & Hx). by apply (Hne x Hx).
    + intros swa' tt' [Hin|[= -> ->]%list_elem_of_singleton]%elem_of_app Hnl.
      * destruct (L4 _ _ Hin Hnl) as (x & Hx & ?). exists x. split; [apply elem_of_app; by left|done].
      * exists o. split; [apply elem_of_app; right; left|done].
    + intros x [Hx|Hx%list_elem_of_singleton]%elem_of_app.
      * destruct (L5 x Hx) as (? & ? & ?). split_and!; [apply elem_of_app; by left|done|]. eapply served_other; [done|by apply Hne|done].
      * subst x. rewrite O3, O4. split_and!; [apply elem_of_app; right; left| |by eapply served_by_dict].
        unfold fuses. rewrite O3, O4. fold l. done.
    + assert (∀ x, x ∈ os → transfer_type x = tt → is_swa x = swa → False) as Hno.
      { intros x Hx <- <-. apply Hsp. by apply L5. }
      intros x y [Hx|Hx%list_elem_of_singleton]%elem_of_app [Hy|Hy%list_elem_of_singleton]%elem_of_app ? ?; subst; try done.
      * by apply L6.
      * exfalso. apply (Hno x Hx); congruence.
      * exfalso. apply (Hno y Hy); congruence.
    + intros k Hk. rewrite fmap_app, elem_of_app. unfold served in Hsv. destruct cbs; [subst; left; by apply L7|].
      destruct Hsv as (cb & -> & _). rewrite dict_keys_set in Hk. case_decide; [left; by apply L7|].
      apply elem_of_app in Hk as [?|Hk%list_elem_of_singleton]; [left; by apply L7|]. subst. right. left.
Qed.
End lanes.

(** ** The graph of a batch *)

Definition dep_edge (s p : option TransferOp) : list (Z * Z) :=
  match s, p with Some s, Some p => [(op_id s, op_id p)] | _, _ => [] end.

Lemma add_op_run r ids g ops edges :
  built g ops edges → (∀ o, r = Some o → fresh_state o ∧ op_id o ∉ op_id <$> ops) →
  ∃ g', add_op r (ids, g) = (Ok tt, (ids, g')) ∧ graph_id g' = graph_id g ∧ built g' (ops ++ option_list r) edges.
Proof.
  intros B Hr. destruct r as [o|]; cbn [add_op option_list].
  - destruct (Hr o eq_refl). exists (add_transfer_op o g). split; [done|]. split; [apply graph_id_add|by apply built_add].
  - exists g. by rewrite app_nil_r.
Qed.

Lemma depend_run s p ids g ops edges :
  built g ops edges → (∀ o, s = Some o → o ∈ ops) → (∀ o, p = Some o → o ∈ ops) →
  ∃ g', depend s p (ids, g) = (Ok tt, (ids, g')) ∧ graph_id g' = graph_id g ∧ built g' ops (dep_edge s p ++ edges).
Proof.
  intros B Hs Hp. destruct s as [s|]; [destruct p as [p|]|]; cbn [depend dep_edge app]; [|by exists g..].
  assert (op_id s ∈ op_id <$> ops ∧ op_id p ∈ op_id <$> ops) as [H1 H2].
  { split; apply list_elem_of_fmap; eexists; (split; [done|auto]). }
  exists (depends (op_id s) (op_id p) g). split; [by eapply graph_depend_run|]. split; [done|by apply built_depend].
Qed.

(** The result of [_add_batch_sink]: the end op is the only terminal, or waits for all of them. *)
Lemma add_batch_sink_run terms dp ids g ops edges :
  built g ops edges → terms ≠ [] → (∀ t, t ∈ terms → 0 <= t ∧ t ∈ op_id <$> ops) → _next_op_id ids ∉ op_id <$> ops →
  ∃ e ids' g' extra edges', _add_batch_sink terms dp (ids, g) = (Ok e, (ids', g')) ∧ built g' (ops ++ extra) (edges' ++ edges) ∧
    e ∈ op_id <$> (ops ++ extra) ∧ (∀ t, t ∈ terms → t = e ∨ (e, t) ∈ edges') ∧
    (∀ o, o ∈ extra → transfer_type o = VIRTUAL ∧ op_id o = e ∧ moves o = []) ∧
    (∀ s p, (s, p) ∈ edges' → p ∈ terms ∧ ∃ o, o ∈ extra ∧ op_id o = s).
Proof.
  intros B Hne Ht Hn. unfold _add_batch_sink.
  assert (filter (λ t, 0 <= t) terms = terms) as ->.
  { clear Hne. induction terms as [|t terms IH]; [done|]. rewrite filter_cons, decide_True by (apply Ht; left). f_equal. apply IH. intros x Hx. apply Ht. by right. }
  destruct terms as [|t [|t2 terms]]; [done| |].
  - exists t, ids, g, [], []. rewrite app_nil_r. split; [done|]. split; [done|]. split; [apply Ht; left|].
    split_and!; [intros x Hx%list_elem_of_singleton; by left|by intros ? ?%elem_of_nil|by intros ? ? ?%elem_of_nil].
  - set (terms' := t :: t2 :: terms) in *.
    destruct (virtual_barrier_run g ids ops edges terms' dp B Hn) as (g' & E & _ & B').
    { intros p Hp. by apply Ht. }
    eexists (_next_op_id ids), _, g', [barrier_op (graph_id g) ids dp], _. split; [exact E|]. split; [exact B'|].
    split; [rewrite fmap_app, elem_of_app; right; left|]. split_and!.
    + intros x Hx. right. rewrite elem_of_reverse. apply list_elem_of_fmap. by exists x.
    + by intros o ->%list_elem_of_singleton.
    + intros s p Hsp. rewrite elem_of_reverse in Hsp. apply list_elem_of_fmap in Hsp as (x & [= -> ->] & Hx). split; [done|].
      eexists. split; [left|done].
Qed.

(** What an op of a batch waits for. *)
Definition waits_for (tt : TransferType) : list TransferType :=
  match tt with
  | H2D => [DISK2H; REMOTE2H]
  | H2DISK | H2REMOTE => [D2H]
  | _ => []
  end.

Definition type_rank (tt : TransferType) : nat :=
  match tt with VIRTUAL => 2%nat | H2D | H2DISK | H2REMOTE => 1%nat | _ => 0%nat end.

Section fused.
Context {St : Type} (d : list (Z * Callable St)) (ops : list TransferOp).

(** The fusion of the lanes of the listed types: one op per non-empty lane, with the movements of the
    lane in order and a callback that serves its sources; an op waits for exactly the ops of its lane
    that feed it; the end op is, or waits for, every op of type [final] (every op when there is none). *)
Record fused (types : list TransferType) (final : TransferType) (g : TransferOpGraph) (e : Z)
    (dict : list (Z * Callable St)) : Prop := {
  fu_wf : graph_wf g;
  fu_acyclic : acyclic g;
  fu_lane : ∀ swa tt, tt ∈ types → lane swa tt ops ≠ [] →
    ∃ k o, op_at g k = Some o ∧ transfer_type o = tt ∧ is_swa o = swa;
  fu_op : ∀ k o, op_at g k = Some o →
    (transfer_type o = VIRTUAL ∧ moves o = [] ∧ k = e) ∨
    (transfer_type o ∈ types ∧ lane (is_swa o) (transfer_type o) ops ≠ [] ∧
     moves o = mjoin (moves <$> lane (is_swa o) (transfer_type o) ops) ∧ served_in d ops dict o ∧ op_id o = k);
  fu_once : ∀ k k' o o', op_at g k = Some o → op_at g k' = Some o' →
    transfer_type o = transfer_type o' → is_swa o = is_swa o' → k = k';
  fu_order : ∀ k o k' o', op_at g k = Some o → op_at g k' = Some o' → transfer_type o ≠ VIRTUAL →
    k' ∈ predecessors o ↔ transfer_type o' ∈ waits_for (transfer_type o) ∧ is_swa o' = is_swa o;
  fu_end : is_Some (op_at g e) ∧ ∀ k o, op_at g k = Some o →
    transfer_type o = final ∨ (∀ k' o', op_at g k' = Some o' → transfer_type o' ≠ final) →
    k = e ∨ ∃ oe, op_at g e = Some oe ∧ k ∈ predecessors oe;
}.

Lemma fused_intro types final n0 sp os ids dict g extra edges' edges e (terms : list Z) :
  lanes d ops n0 sp os ids dict → (∀ swa tt, (swa, tt) ∈ sp ↔ tt ∈ types) →
  (∀ tt, tt ∈ types → tt ≠ VIRTUAL ∧ (type_rank tt < 2)%nat) → final ≠ VIRTUAL →
  built g (os ++ extra) (edges' ++ edges) →
  (∀ s p, (s, p) ∈ edges ↔ ∃ o o', o ∈ os ∧ o' ∈ os ∧ op_id o = s ∧ op_id o' = p ∧
     transfer_type o' ∈ waits_for (transfer_type o) ∧ is_swa o' = is_swa o) →
  e ∈ op_id <$> (os ++ extra) → (∀ t, t ∈ terms → t = e ∨ (e, t) ∈ edges') →
  (∀ o, o ∈ extra → transfer_type o = VIRTUAL ∧ op_id o = e ∧ moves o = []) →
  (∀ s p, (s, p) ∈ edges' → p ∈ terms ∧ ∃ o, o ∈ extra ∧ op_id o = s) →
  (∀ o, o ∈ os → transfer_type o = final ∨ (∀ o', o' ∈ os → transfer_type o' ≠ final) → op_id o ∈ terms) →
  (∀ t, t ∈ terms → t ∈ op_id <$> os) →
  fused types final g e dict.
Proof.
  intros L Hsp Hty Hfin B HE He Ht Hex HE' Hterm Htdom. pose proof L as [L1 L2 L3 L4 L5 L6 L7]. pose proof (bu_ops _ _ _ B) as HB.
  pose proof (bu_nodup _ _ _ B) as Hnd. rewrite fmap_app in Hnd. apply NoDup_app in Hnd as (_ & Hdis & _).
  assert (∀ o, o ∈ os → transfer_type o ∈ types) as Hos by (intros o Ho; destruct (L5 o Ho) as [Hin _]; by apply Hsp in Hin).
  assert (∀ o, o ∈ os → transfer_type o ≠ VIRTUAL) as Hnv by (intros o Ho; by apply Hty, Hos).
  assert (∀ o o', o ∈ os → o' ∈ os → op_id o = op_id o' → o = o') as Hinj.
  { intros o o' [i Hi]%list_elem_of_lookup [j Hj]%list_elem_of_lookup E.
    assert (i = j) as ->; [|congruence]. apply (NoDup_lookup (op_id <$> os) i j (op_id o) L3); rewrite list_lookup_fmap; [by rewrite Hi|by rewrite Hj, E]. }
  assert (∀ o o', o ∈ os → o' ∈ extra → op_id o ≠ op_id o') as Hne.
  { intros o o' Ho Ho' E. apply (Hdis (op_id o)); [apply list_elem_of_fmap; by exists o|rewrite E; apply list_elem_of_fmap; by exists o']. }
  assert (∀ o, o ∈ os → op_at g (op_id o) = Some (placed_op (graph_id g) (edges' ++ edges) o)) as Hat.
  { intros o Ho. apply HB. exists o. split; [apply elem_of_app; by left|done]. }
  assert (∀ o o', o ∈ os → o' ∈ os ++ extra → transfer_type o = final ∨ (∀ o2, o2 ∈ os → transfer_type o2 ≠ final) →
    op_id o = e ∨ (e, op_id o) ∈ edges') as Hend.
  { intros o o' Ho _ Hf. by apply Ht, Hterm. }
  split.
  - apply B.
  - apply (built_acyclic _ _ _ (λ k, match op_at g k with Some o => type_rank (transfer_type o) | None => 0%nat end) B).
    intros s p [Hin|Hin]%elem_of_app.
    + destruct (HE' _ _ Hin) as (Hp & o & Ho & <-). apply Htdom, list_elem_of_fmap in Hp as (o' & -> & Ho').
      rewrite (Hat o' Ho'). destruct (Hex o Ho) as (Hv & _).
      assert (op_at g (op_id o) = Some (placed_op (graph_id g) (edges' ++ edges) o)) as ->.
      { apply HB. exists o. split; [apply elem_of_app; by right|done]. }
      simpl. rewrite Hv. by apply Hty, Hos.
    + apply HE in Hin as (o & o' & Ho & Ho' & <- & <- & Hw & _). rewrite (Hat o Ho), (Hat o' Ho'). simpl.
      destruct (transfer_type o); simpl in *; repeat (apply elem_of_cons in Hw as [->|Hw]; [simpl; lia|]); by apply elem_of_nil in Hw.
  - intros swa tt Htt Hl. destruct (L4 swa tt) as (o & Ho & E1 & E2); [by apply Hsp|done|].
    exists (op_id o), (placed_op (graph_id g) (edges' ++ edges) o). split; [by apply Hat|done].
  - intros k o' Hk. apply HB in Hk as (o & [Ho|Ho]%elem_of_app & <- & ->).
    + right. destruct (L5 o Ho) as (_ & (F1 & F2 & _) & Hsv). split; [exact (Hos o Ho)|]. split; [exact F1|]. split; [exact F2|]. split; [exact Hsv|done].
    + left. destruct (Hex o Ho) as (E1 & E2 & E3). split; [exact E1|]. split; [exact E3|exact E2].
  - intros k k' o o' Hk Hk'. apply HB in Hk as (o1 & [Ho1|Ho1]%elem_of_app & <- & ->), Hk' as (o2 & [Ho2|Ho2]%elem_of_app & <- & ->); simpl; intros E1 E2.
    + by rewrite (L6 o1 o2).
    + destruct (Hex o2 Ho2) as (Hv & _). exfalso. apply (Hnv _ Ho1). by rewrite E1.
    + destruct (Hex o1 Ho1) as (Hv & _). exfalso. apply (Hnv _ Ho2). by rewrite <- E1.
    + destruct (Hex o1 Ho1) as (_ & -> & _), (Hex o2 Ho2) as (_ & -> & _). done.
  - intros k o k' o' Hk Hk' Hv. apply HB in Hk as (o1 & [Ho1|Ho1]%elem_of_app & <- & ->); [|by destruct (Hex o1 Ho1)].
    unfold placed_op at 1. cbn [predecessors op_with_edges]. rewrite elem_of_preds, elem_of_app. cbn [transfer_type op_with_edges op_with_graph is_swa placed_op].
    apply HB in Hk' as (o2 & Ho2 & <- & ->). split.
    + intros [Hin|Hin].
      * destruct (HE' _ _ Hin) as (_ & o3 & Ho3 & E). exfalso. by apply (Hne o1 o3 Ho1 Ho3).
      * apply HE in Hin as (x & x' & Hx & Hx' & E1 & E2 & Hw & Hs). rewrite (Hinj _ _ Hx Ho1 E1) in *.
        apply elem_of_app in Ho2 as [Ho2|Ho2]; [by rewrite (Hinj _ _ Hx' Ho2 E2) in *|]. by destruct (Hne x' o2 Hx' Ho2).
    + intros [Hw Hs]. right. apply HE. exists o1, o2. apply elem_of_app in Ho2 as [Ho2|Ho2]; [done|].
      destruct (Hex o2 Ho2) as (Hv2 & _). simpl in Hw. rewrite Hv2 in Hw. by destruct (transfer_type o1); simpl in Hw;
        repeat (apply elem_of_cons in Hw as [?|Hw]; [done|]); apply elem_of_nil in Hw.
  - split.
    + by apply (built_id_in _ _ _ _ B).
    + intros k o Hk Hf. apply HB in Hk as (o1 & [Ho1|Ho1]%elem_of_app & <- & ->); [|left; by destruct (Hex o1 Ho1) as (_ & ? & _)].
      destruct (Hend o1 o1 Ho1) as [?|Hin]; [apply elem_of_app; by left| |by left|].
      * simpl in Hf. destruct Hf as [?|Hf]; [by left|right]. intros o2 Ho2. by apply (Hf _ _ (Hat o2 Ho2)).
      * right. apply list_elem_of_fmap in He as (oe & Ee & Hoe). exists (placed_op (graph_id g) (edges' ++ edges) oe). split.
        -- apply HB. by exists oe.
        -- unfold placed_op. simpl. rewrite elem_of_preds, elem_of_app, <- Ee. by left.
Qed.
End fused.

(** ** The two shapes of a batch *)

Lemma NoDup_fmap_prefix {A B} (f : A → B) (l k : list A) : NoDup (f <$> (l ++ k)) → NoDup (f <$> l).
Proof. rewrite fmap_app. by intros (? & _ & _)%NoDup_app. Qed.

Lemma add_op_step r ids g ops edges :
  built g ops edges → NoDup (op_id <$> (ops ++ option_list r)) → Forall fresh_state (ops ++ option_list r) →
  ∃ g', add_op r (ids, g) = (Ok tt, (ids, g')) ∧ built g' (ops ++ option_list r) edges.
Proof.
  intros B Hnd Hf. destruct (add_op_run r ids g ops edges B) as (g' & E & _ & B').
  - intros o ->. split; [apply Forall_app in Hf as [_ Hf]; by apply Forall_cons in Hf as [? _]|].
    rewrite fmap_app in Hnd. apply NoDup_app in Hnd as (_ & Hd & _). intros Hin. apply (Hd _ Hin). left.
  - by exists g'.
Qed.

(** Steps over [add_op], [depend]. *)
Ltac add_step B := rewrite M_bind_run;
  match goal with |- context [add_op ?r (?ids, ?g)] =>
    let g' := fresh "g" in let E := fresh "E" in let B' := fresh "B" in
    destruct (add_op_step r ids g _ _ B) as (g' & E & B'); [..|rewrite E; clear E B; rename B' into B]
  end.
Ltac depend_step B := rewrite M_bind_run;
  match goal with |- context [depend ?s ?p (?ids, ?g)] =>
    let g' := fresh "g" in let E := fresh "E" in let B' := fresh "B" in
    destruct (depend_run s p ids g _ _ B) as (g' & E & _ & B'); [..|rewrite E; clear E B; rename B' into B]
  end.

(** Six lanes, at most one op each. *)
Definition six (r1 r2 r3 r4 r5 r6 : option TransferOp) : list TransferOp :=
  ((((([] ++ option_list r1) ++ option_list r2) ++ option_list r3) ++ option_list r4) ++ option_list r5) ++ option_list r6.

Lemma elem_of_six r1 r2 r3 r4 r5 r6 o :
  o ∈ six r1 r2 r3 r4 r5 r6 ↔ r1 = Some o ∨ r2 = Some o ∨ r3 = Some o ∨ r4 = Some o ∨ r5 = Some o ∨ r6 = Some o.
Proof.
  unfold six. rewrite !elem_of_app.
  assert (∀ r : option TransferOp, o ∈ option_list r ↔ r = Some o) as Hr.
  { intros [x|]; simpl; [rewrite list_elem_of_singleton; naive_solver|]. split; [by intros ?%elem_of_nil|done]. }
  rewrite !Hr. pose proof (not_elem_of_nil o). tauto.
Qed.

(** The edges inside the lanes of one direction. *)
Definition get_edges (disk2h h2d remote2h swa_disk2h swa_h2d swa_remote2h : option TransferOp) : list (Z * Z) :=
  dep_edge swa_h2d swa_remote2h ++ dep_edge swa_h2d swa_disk2h ++ dep_edge h2d remote2h ++ dep_edge h2d disk2h ++ [].
Definition put_edges (d2h h2disk h2remote swa_d2h swa_h2disk swa_h2remote : option TransferOp) : list (Z * Z) :=
  dep_edge swa_h2remote swa_d2h ++ dep_edge swa_h2disk swa_d2h ++ dep_edge h2remote d2h ++ dep_edge h2disk d2h ++ [].

Definition terminals (finals others : list (option TransferOp)) : list Z :=
  if non_empty (ids_of finals) then ids_of finals else ids_of others.

Lemma elem_of_ids_of l k : k ∈ ids_of l ↔ ∃ o, Some o ∈ l ∧ op_id o = k.
Proof.
  unfold ids_of. rewrite list_elem_of_omap. split.
  - intros ([o|] & Ho & E); [|done]. injection E as <-. by exists o.
  - intros (o & Ho & <-). by exists (Some o).
Qed.

Lemma built_perm g ops ops' edges : ops ≡ₚ ops' → built g ops edges → built g ops' edges.
Proof.
  intros Hp [B1 B2 B3 B4 B5]. split; [by rewrite <- Hp|by rewrite <- Hp| | |done].
  - intros s p Hin. by rewrite <- Hp; apply B3.
  - intros k o'. rewrite B4. by setoid_rewrite Hp.
Qed.

Lemma get_graph_run r1 r2 r3 r4 r5 r6 dp ids g :
  built g [] [] → NoDup (op_id <$> six r1 r2 r3 r4 r5 r6) → Forall fresh_state (six r1 r2 r3 r4 r5 r6) →
  ∃ g', get_graph r1 r2 r3 r4 r5 r6 dp (ids, g) =
      _add_batch_sink (terminals [r2; r5] [r3; r6; r1; r4]) dp (ids, g') ∧
    built g' (six r1 r2 r3 r4 r5 r6) (get_edges r1 r2 r3 r4 r5 r6).
Proof.
  intros B Hnd Hf. unfold get_graph. unfold six in Hnd, Hf.
  assert (∀ a b : list TransferOp, NoDup (op_id <$> (a ++ b)) → NoDup (op_id <$> a)) as N by (intros a b; apply NoDup_fmap_prefix).
  assert (∀ a b : list TransferOp, Forall fresh_state (a ++ b) → Forall fresh_state a) as F by (intros a b [? _]%Forall_app; done).
  do 6 (add_step B; [eauto 7..|]).
  assert (∀ r o, r = Some o → (r = r1 ∨ r = r2 ∨ r = r3 ∨ r = r4 ∨ r = r5 ∨ r = r6) → o ∈ six r1 r2 r3 r4 r5 r6) as Hin.
  { intros r o -> Hr. apply elem_of_six. destruct_or!; subst; auto 7. }
  do 4 (depend_step B; [intros o Ho; by eapply Hin; [exact Ho|auto 7]..|]).
  eexists. split; [reflexivity|exact B].
Qed.

Lemma put_graph_run r1 r2 r3 r4 r5 r6 dp ids g :
  built g [] [] → NoDup (op_id <$> six r1 r2 r3 r4 r5 r6) → Forall fresh_state (six r1 r2 r3 r4 r5 r6) →
  ∃ g', put_graph r1 r2 r3 r4 r5 r6 dp (ids, g) =
      _add_batch_sink (terminals [r1; r4] [r2; r5; r3; r6]) dp (ids, g') ∧
    built g' (six r1 r2 r3 r4 r5 r6) (put_edges r1 r2 r3 r4 r5 r6).
Proof.
  intros B Hnd Hf. unfold put_graph.
  assert (six r1 r2 r3 r4 r5 r6 ≡ₚ six r1 r4 r2 r5 r3 r6) as Hp by (unfold six; solve_Permutation).
  assert (NoDup (op_id <$> six r1 r4 r2 r5 r3 r6)) as Hnd' by (by rewrite <- Hp).
  assert (Forall fresh_state (six r1 r4 r2 r5 r3 r6)) as Hf' by (by rewrite <- Hp).
  assert (∀ a b : list TransferOp, NoDup (op_id <$> (a ++ b)) → NoDup (op_id <$> a)) as N by (intros a b; apply NoDup_fmap_prefix).
  assert (∀ a b : list TransferOp, Forall fresh_state (a ++ b) → Forall fresh_state a) as F by (intros a b [? _]%Forall_app; done).
  unfold six in Hnd', Hf'. do 6 (add_step B; [eauto 7..|]).
  assert (∀ r o, r = Some o → (r = r1 ∨ r = r2 ∨ r = r3 ∨ r = r4 ∨ r = r5 ∨ r = r6) → o ∈ six r1 r4 r2 r5 r3 r6) as Hin.
  { intros r o -> Hr. apply elem_of_six. destruct_or!; subst; auto 7. }
  do 4 (depend_step B; [intros o Ho; by eapply Hin; [exact Ho|auto 7]..|]).
  eexists. split; [reflexivity|]. eapply built_perm; [symmetry; exact Hp|exact B].
Qed.

Section shapes.
Context {St : Type} (d : list (Z * Callable St)) (ops : list TransferOp).

(** Every lane of the listed types can be fused. *)
Definition lanes_ok (types : list TransferType) : Prop :=
  Forall op_sized ops ∧ ∀ swa tt, tt ∈ types → lane_ok swa tt (lane swa tt ops) = true.

Lemma in_build_run {A} (m : Build A) (b : Building) (dn dl : list (Z * Callable St)) r b' :
  m b = (r, b') → in_build m (mkBatch b dn dl) = (r, mkBatch b' dn dl).
Proof. unfold in_build. simpl. by intros ->. Qed.

(** One more lane, fused into [r] of the type [T] states. *)
Ltac lane_step Hb L Hsz Hok swa tt r T :=
  match type of L with lanes _ _ ?n0 ?sp ?os ?ids ?dict =>
    match goal with |- context [mkBatch (ids, ?g) dict []] =>
    let ids' := fresh "ids" in let dn := fresh "dn" in let E := fresh "E" in let L' := fresh "L" in
    let Hin := fresh "Hin" in let Hni := fresh "Hni" in let Hl := fresh "Hl" in
    assert (tt ∈ supported_types) as Hin by (clear; unfold supported_types; rewrite !elem_of_cons; auto 7);
    assert ((swa, tt) ∉ sp) as Hni by (clear; simpl; rewrite ?not_elem_of_cons; repeat split; first [discriminate|apply not_elem_of_nil]);
    assert (lane_ok swa tt (lane swa tt ops) = true) as Hl by (apply Hok; clear; unfold get_types, put_types; rewrite !elem_of_cons; auto);
    destruct (merge_lane_ok d ops _ swa tt n0 sp os ids g dict Hb Hin Hsz Hl Hni L) as (r & ids' & dn & E & L' & T);
    rewrite M_bind_run; rewrite E; clear E L Hin Hni Hl; rename L' into L
    end
  end.

Lemma sink_fused types final n0 sp os ids dict g edges dp terms :
  lanes d ops n0 sp os ids dict → (∀ swa tt, (swa, tt) ∈ sp ↔ tt ∈ types) →
  (∀ tt, tt ∈ types → tt ≠ VIRTUAL ∧ (type_rank tt < 2)%nat) → final ≠ VIRTUAL → 0 <= n0 →
  built g os edges →
  (∀ s p, (s, p) ∈ edges ↔ ∃ o o', o ∈ os ∧ o' ∈ os ∧ op_id o = s ∧ op_id o' = p ∧
     transfer_type o' ∈ waits_for (transfer_type o) ∧ is_swa o' = is_swa o) →
  terms ≠ [] →
  (∀ o, o ∈ os → transfer_type o = final ∨ (∀ o', o' ∈ os → transfer_type o' ≠ final) → op_id o ∈ terms) →
  (∀ t, t ∈ terms → t ∈ op_id <$> os) →
  ∃ e ids' g', _add_batch_sink terms dp (ids, g) = (Ok e, (ids', g')) ∧ fused d ops types final g' e dict.
Proof.
  intros L Hsp Hty Hfin Hn B HE Hne Hterm Hdom. pose proof L as [L1 L2 L3 L4 L5 L6 L7].
  destruct (add_batch_sink_run terms dp ids g os edges B Hne) as (e & ids' & g' & extra & edges' & E & B' & He & Ht & Hex & HE').
  - intros t Ht. split; [|by apply Hdom]. apply Hdom, list_elem_of_fmap in Ht as (o & -> & Ho). destruct (L1 o Ho). lia.
  - intros (o & Eo & Ho)%list_elem_of_fmap. destruct (L1 o Ho). lia.
  - exists e, ids', g'. split; [done|]. by eapply fused_intro.
Qed.

(** Both directions of the two lemmas below: read the edges off the typed options. *)
Ltac use_type H := match type of H with ?r = Some _ => match goal with T : ∀ x, r = Some x → _ |- _ => destruct (T _ H) as [?Et ?Es] end end.
Ltac solve_edges s p :=
  rewrite !elem_of_app;
  assert (∀ a b : option TransferOp, (s, p) ∈ dep_edge a b ↔ ∃ o o', a = Some o ∧ b = Some o' ∧ op_id o = s ∧ op_id o' = p) as He by
    (intros [?|] [?|]; simpl; rewrite ?list_elem_of_singleton; split; try (by intros ?%elem_of_nil); naive_solver);
  rewrite !He; setoid_rewrite elem_of_six; split;
  [ intros [(o & o' & Ho & Ho' & <- & <-)|[(o & o' & Ho & Ho' & <- & <-)|[(o & o' & Ho & Ho' & <- & <-)|[(o & o' & Ho & Ho' & <- & <-)|[]%not_elem_of_nil]]]];
    exists o, o'; use_type Ho; use_type Ho'; (split; [auto 7|]); (split; [auto 7|]); (split; [done|]); (split; [done|]);
    (split; [|congruence]);
    repeat match goal with E : transfer_type _ = _ |- _ => rewrite E; clear E end; simpl; rewrite ?elem_of_cons; auto
  | intros (o & o' & Ho & Ho' & <- & <- & Hw & Hs);
    destruct Ho as [Ho|[Ho|[Ho|[Ho|[Ho|Ho]]]]]; use_type Ho;
    (match goal with E : transfer_type o = _ |- _ => rewrite E in Hw end); cbn [waits_for] in Hw; try (by apply elem_of_nil in Hw);
    (destruct Ho' as [Ho'|[Ho'|[Ho'|[Ho'|[Ho'|Ho']]]]]; use_type Ho';
     (match goal with E : transfer_type o' = _ |- _ => rewrite E in Hw end);
     first [ by repeat (apply elem_of_cons in Hw as [Hw|Hw]; [discriminate Hw|]); apply elem_of_nil in Hw
           | by (match goal with E : is_swa o = _ |- _ => rewrite E in Hs end; match goal with E : is_swa o' = _ |- _ => rewrite E in Hs end)
           | eauto 10]) ].

(** The edges are those of [waits_for] within a lane. *)
Lemma get_edges_spec r1 r2 r3 r4 r5 r6 s p :
  (∀ o, r1 = Some o → transfer_type o = DISK2H ∧ is_swa o = false) → (∀ o, r2 = Some o → transfer_type o = H2D ∧ is_swa o = false) →
  (∀ o, r3 = Some o → transfer_type o = REMOTE2H ∧ is_swa o = false) → (∀ o, r4 = Some o → transfer_type o = DISK2H ∧ is_swa o = true) →
  (∀ o, r5 = Some o → transfer_type o = H2D ∧ is_swa o = true) → (∀ o, r6 = Some o → transfer_type o = REMOTE2H ∧ is_swa o = true) →
  (s, p) ∈ get_edges r1 r2 r3 r4 r5 r6 ↔ ∃ o o', o ∈ six r1 r2 r3 r4 r5 r6 ∧ o' ∈ six r1 r2 r3 r4 r5 r6 ∧ op_id o = s ∧ op_id o' = p ∧
    transfer_type o' ∈ waits_for (transfer_type o) ∧ is_swa o' = is_swa o.
Proof.
  intros T1 T2 T3 T4 T5 T6. unfold get_edges. solve_edges s p.
Qed.

Lemma put_edges_spec r1 r2 r3 r4 r5 r6 s p :
  (∀ o, r1 = Some o → transfer_type o = D2H ∧ is_swa o = false) → (∀ o, r2 = Some o → transfer_type o = H2DISK ∧ is_swa o = false) →
  (∀ o, r3 = Some o → transfer_type o = H2REMOTE ∧ is_swa o = false) → (∀ o, r4 = Some o → transfer_type o = D2H ∧ is_swa o = true) →
  (∀ o, r5 = Some o → transfer_type o = H2DISK ∧ is_swa o = true) → (∀ o, r6 = Some o → transfer_type o = H2REMOTE ∧ is_swa o = true) →
  (s, p) ∈ put_edges r1 r2 r3 r4 r5 r6 ↔ ∃ o o', o ∈ six r1 r2 r3 r4 r5 r6 ∧ o' ∈ six r1 r2 r3 r4 r5 r6 ∧ op_id o = s ∧ op_id o' = p ∧
    transfer_type o' ∈ waits_for (transfer_type o) ∧ is_swa o' = is_swa o.
Proof.
  intros T1 T2 T3 T4 T5 T6. unfold put_edges. solve_edges s p.
Qed.
(** The terminals of a batch: the final ops, or everything when there is none. *)
Lemma terminals_spec (finals others : list (option TransferOp)) (os : list TransferOp) final :
  os ≠ [] → (∀ o, o ∈ os ↔ Some o ∈ finals ∨ Some o ∈ others) →
  (∀ o, Some o ∈ finals → transfer_type o = final) → (∀ o, Some o ∈ others → transfer_type o ≠ final) →
  terminals finals others ≠ [] ∧
  (∀ o, o ∈ os → transfer_type o = final ∨ (∀ o', o' ∈ os → transfer_type o' ≠ final) → op_id o ∈ terminals finals others) ∧
  (∀ t, t ∈ terminals finals others → t ∈ op_id <$> os).
Proof.
  intros Hne Hos Hf Ho. unfold terminals. destruct (ids_of finals) as [|k l] eqn:E; cbn [non_empty].
  - assert (∀ o, Some o ∉ finals) as Hno.
    { intros o Hin. assert (op_id o ∈ ids_of finals) as Hx by (apply elem_of_ids_of; by exists o). rewrite E in Hx. by apply elem_of_nil in Hx. }
    split_and!.
    + destruct os as [|o os']; [done|]. assert (op_id o ∈ ids_of others) as Hx.
      { apply elem_of_ids_of. exists o. split; [|done]. destruct (proj1 (Hos o)) as [Hin|]; [left|by apply Hno in Hin|done]. }
      intros E'. rewrite E' in Hx. by apply elem_of_nil in Hx.
    + intros o Ho' _. apply elem_of_ids_of. exists o. split; [|done]. apply Hos in Ho' as [Hin|]; [by apply Hno in Hin|done].
    + intros t (o & Hin & <-)%elem_of_ids_of. apply list_elem_of_fmap. exists o. split; [done|]. apply Hos. by right.
  - rewrite <- E. split_and!; [by rewrite E| |].
    + intros o Ho' [Hty|Hno]; apply elem_of_ids_of.
      * exists o. split; [|done]. apply Hos in Ho' as [|Hin]; [done|]. by apply Ho in Hin.
      * assert (k ∈ ids_of finals) as Hk by (rewrite E; left). apply elem_of_ids_of in Hk as (o' & Hin & _).
        destruct (Hno o'); [apply Hos; by left|by apply Hf].
    + intros t (o & Hin & <-)%elem_of_ids_of. apply list_elem_of_fmap. exists o. split; [done|]. apply Hos. by left.
Qed.

Lemma lanes_fresh n0 sp os ids dict : lanes d ops n0 sp os ids dict → NoDup (op_id <$> os) ∧ Forall fresh_state os.
Proof.
  intros L. split; [apply L|]. apply Forall_forall. intros o Ho. by destruct (ls_lane _ _ _ _ _ _ _ L o Ho) as (_ & (_ & _ & _ & ?) & _).
Qed.

Lemma six_nonempty (os : list TransferOp) n0 sp ids dict (types : list TransferType) :
  lanes d ops n0 sp os ids dict → (∀ swa tt, (swa, tt) ∈ sp ↔ tt ∈ types) →
  (∃ swa tt, tt ∈ types ∧ lane swa tt ops ≠ []) → os ≠ [].
Proof.
  intros L Hsp (swa & tt & Htt & Hl) ->. destruct (ls_some _ _ _ _ _ _ _ L swa tt) as (o & Ho & _); [by apply Hsp|done|].
  by apply elem_of_nil in Ho.
Qed.

Lemma merge_get_run bk dp counter ids g :
  sorted d ops bk → lanes_ok get_types → (∃ swa tt, tt ∈ get_types ∧ lane swa tt ops ≠ []) →
  built g [] [] → 0 <= _next_op_id ids →
  ∃ e b', merge_get bk false dp counter (mkBatch (ids, g) [] []) = (Ok e, b') ∧
    fused d ops get_types H2D (b_build b').2 e (b_new b').
Proof.
  intros Hb [Hsz Hok] Hne B Hn. unfold merge_get. pose proof (lanes_start d ops ids) as L.
  lane_step Hb L Hsz Hok false DISK2H r1 T1. lane_step Hb L Hsz Hok false H2D r2 T2. lane_step Hb L Hsz Hok false REMOTE2H r3 T3.
  lane_step Hb L Hsz Hok true DISK2H r4 T4. lane_step Hb L Hsz Hok true H2D r5 T5. lane_step Hb L Hsz Hok true REMOTE2H r6 T6.
  fold (six r1 r2 r3 r4 r5 r6) in L. cbv beta iota.
  destruct (lanes_fresh _ _ _ _ _ L) as [Hnd Hfr].
  match type of L with lanes _ _ _ ?sp _ ?ids' _ =>
    destruct (get_graph_run r1 r2 r3 r4 r5 r6 dp ids' g B Hnd Hfr) as (g' & E & B');
    assert (∀ swa tt, (swa, tt) ∈ sp ↔ tt ∈ get_types) as Hsp by (clear; intros [] []; unfold get_types; set_solver)
  end.
  destruct (terminals_spec [r2; r5] [r3; r6; r1; r4] (six r1 r2 r3 r4 r5 r6) H2D) as (Ht1 & Ht2 & Ht3).
  { by eapply six_nonempty. }
  { intros o. rewrite elem_of_six, !elem_of_cons, elem_of_nil. clear. naive_solver. }
  { intros o Ho. repeat (apply elem_of_cons in Ho as [Ho|Ho]; [symmetry in Ho; by destruct (T2 o Ho) || by destruct (T5 o Ho)|]).
    by apply elem_of_nil in Ho. }
  { intros o Ho. rewrite !elem_of_cons, elem_of_nil in Ho. destruct Ho as [Ho|[Ho|[Ho|[Ho|[]]]]]; symmetry in Ho;
      [destruct (T3 o Ho) as [-> _]|destruct (T6 o Ho) as [-> _]|destruct (T1 o Ho) as [-> _]|destruct (T4 o Ho) as [-> _]]; done. }
  destruct (sink_fused _ H2D _ _ _ _ _ g' _ dp _ L Hsp ltac:(set_solver by (simpl; lia)) ltac:(done) Hn B'
    (λ s p, get_edges_spec r1 r2 r3 r4 r5 r6 s p T1 T2 T3 T4 T5 T6) Ht1 Ht2 Ht3) as (e & ids' & g2 & E2 & F).
  eexists e, _. split; [apply in_build_run; rewrite E; exact E2|exact F].
Qed.

Lemma merge_put_run bk dp ids g :
  sorted d ops bk → lanes_ok put_types → (∃ swa tt, tt ∈ put_types ∧ lane swa tt ops ≠ []) →
  built g [] [] → 0 <= _next_op_id ids →
  ∃ e b', merge_put bk dp (mkBatch (ids, g) [] []) = (Ok e, b') ∧
    fused d ops put_types D2H (b_build b').2 e (b_new b').
Proof.
  intros Hb [Hsz Hok] Hne B Hn. unfold merge_put. pose proof (lanes_start d ops ids) as L.
  lane_step Hb L Hsz Hok false D2H r1 T1. lane_step Hb L Hsz Hok false H2DISK r2 T2. lane_step Hb L Hsz Hok false H2REMOTE r3 T3.
  lane_step Hb L Hsz Hok true D2H r4 T4. lane_step Hb L Hsz Hok true H2DISK r5 T5. lane_step Hb L Hsz Hok true H2REMOTE r6 T6.
  fold (six r1 r2 r3 r4 r5 r6) in L. cbv beta iota.
  destruct (lanes_fresh _ _ _ _ _ L) as [Hnd Hfr].
  match type of L with lanes _ _ _ ?sp _ ?ids' _ =>
    destruct (put_graph_run r1 r2 r3 r4 r5 r6 dp ids' g B Hnd Hfr) as (g' & E & B');
    assert (∀ swa tt, (swa, tt) ∈ sp ↔ tt ∈ put_types) as Hsp by (clear; intros [] []; unfold put_types; set_solver)
  end.
  destruct (terminals_spec [r1; r4] [r2; r5; r3; r6] (six r1 r2 r3 r4 r5 r6) D2H) as (Ht1 & Ht2 & Ht3).
  { by eapply six_nonempty. }
  { intros o. rewrite elem_of_six, !elem_of_cons, elem_of_nil. clear. naive_solver. }
  { intros o Ho. repeat (apply elem_of_cons in Ho as [Ho|Ho]; [symmetry in Ho; by destruct (T1 o Ho) || by destruct (T4 o Ho)|]).
    by apply elem_of_nil in Ho. }
  { intros o Ho. rewrite !elem_of_cons, elem_of_nil in Ho. destruct Ho as [Ho|[Ho|[Ho|[Ho|[]]]]]; symmetry in Ho;
      [destruct (T2 o Ho) as [-> _]|destruct (T5 o Ho) as [-> _]|destruct (T3 o Ho) as [-> _]|destruct (T6 o Ho) as [-> _]]; done. }
  destruct (sink_fused _ D2H _ _ _ _ _ g' _ dp _ L Hsp ltac:(set_solver by (simpl; lia)) ltac:(done) Hn B'
    (λ s p, put_edges_spec r1 r2 r3 r4 r5 r6 s p T1 T2 T3 T4 T5 T6) Ht1 Ht2 Ht3) as (e & ids' & g2 & E2 & F).
  eexists e, _. split; [apply in_build_run; rewrite E; exact E2|exact F].
Qed.
End shapes.

(** ** The whole merge *)

Section batch.
Context {St : Type} (cbd : list (Z * Callable St)).
Implicit Types (graphs : list TransferOpGraph) (ops : list TransferOp).

Definition has_lane (types : list TransferType) (ops : list TransferOp) : bool :=
  existsb (λ tt, non_empty (lane false tt ops) || non_empty (lane true tt ops)) types.

Lemma has_lane_true types ops : has_lane types ops = true → ∃ swa tt, tt ∈ types ∧ lane swa tt ops ≠ [].
Proof.
  unfold has_lane. rewrite existsb_exists. intros (tt & Hin%list_elem_of_In & [Hx|Hx]%orb_true_iff);
    [exists false, tt|exists true, tt]; (split; [done|]); by destruct (lane _ tt ops).
Qed.

Lemma bucket_has_sorted types ops bk : (∀ tt, tt ∈ types → tt ∈ supported_types) →
  sorted cbd ops bk → _bucket_has types bk = has_lane types ops.
Proof.
  intros Hsub Hb. unfold _bucket_has, has_lane. induction types as [|tt types IH]; [done|]. cbn [existsb].
  destruct (so_lanes _ _ _ Hb tt) as (-> & -> & _); [apply Hsub; left|]. rewrite IH; [done|]. intros x Hx. apply Hsub. by right.
Qed.

Lemma get_types_supported tt : tt ∈ get_types → tt ∈ supported_types.
Proof. unfold get_types, supported_types. rewrite !elem_of_cons, elem_of_nil. naive_solver. Qed.
Lemma put_types_supported tt : tt ∈ put_types → tt ∈ supported_types.
Proof. unfold put_types, supported_types. rewrite !elem_of_cons, elem_of_nil. naive_solver. Qed.

Lemma merge_run graphs task_ends lw counter ids :
  graphs ≠ [] → length graphs = length task_ends → Forall mergeable (batch_ops graphs) →
  ∃ bk g, sorted cbd (batch_ops graphs) bk ∧ built g [] [] ∧
    merge_to_batch_graph graphs task_ends cbd lw counter ids =
    (lift_result (check_kinds lw (has_lane get_types (batch_ops graphs)) (has_lane put_types (batch_ops graphs))) ;;
     ids ← get_state;
     let '(r, b) :=
       (if has_lane get_types (batch_ops graphs) then merge_get bk lw (_pick_dp_client_id bk) counter
        else if has_lane put_types (batch_ops graphs) then merge_put bk (_pick_dp_client_id bk)
        else mret (-1)) (mkBatch (ids, g) [] []) in
     put_state (b_build b).1 ;; e ← lift_result r; mret ((b_build b).2, e, b_new b))
    (TransferOpGraph_init ids).2 ∧
    _next_op_id (TransferOpGraph_init ids).2 = _next_op_id ids.
Proof.
  intros Hne Hlen Hm. destruct (bucket_all_ok cbd (batch_ops graphs) [] empty_buckets (empty_sorted cbd) Hm) as (bk & Ebk & Hb).
  eexists bk, _. split; [exact Hb|]. split; [apply built_empty|]. split; [|reflexivity].
  cbn [app] in Hb. rewrite <- (bucket_has_sorted _ _ _ get_types_supported Hb), <- (bucket_has_sorted _ _ _ put_types_supported Hb).
  unfold merge_to_batch_graph. destruct graphs as [|g0 gs]; [done|]. rewrite M_bind_run, Hlen, Nat.eqb_refl. cbn [negb mret M_ret].
  rewrite M_bind_run. cbn [TransferOpGraph_init]. rewrite M_bind_run, Ebk. reflexivity.
Qed.
End batch.

(** ** Theorems *)

Definition batch_types (ops : list TransferOp) : list TransferType := if has_lane get_types ops then get_types else put_types.
Definition batch_final (ops : list TransferOp) : TransferType := if has_lane get_types ops then H2D else D2H.

Section theorems.
Context {St : Type}.
Implicit Types (ops : list TransferOp) (cbd d : list (Z * Callable St)) (callbacks : list (TransferOp * Callable St)).

(** [C28] The batch graph is the fusion of its sources.  For a non-layerwise batch whose graphs contain
    only reads or only writes, in lanes that can be fused, [merge_to_batch_graph] succeeds, and the graph it
    returns has exactly one op per non-empty lane (type and SWA flag), whose block movements are those of
    the source ops in order; each merged op carries a callback that gives every source op's callback its own
    blocks; an H2D op waits for exactly the DISK2H and REMOTE2H ops of its own lane, an H2DISK or H2REMOTE op
    for exactly the D2H op of its lane; the graph is acyclic; and the end op of the batch is or waits for every
    final op (H2D, resp. D2H), or every op when there is none. *)
Theorem batch_graph_fuses graphs task_ends cbd counter ids :
  let ops := batch_ops graphs in
  graphs ≠ [] → length graphs = length task_ends → Forall mergeable ops → Forall op_sized ops →
  has_lane get_types ops = negb (has_lane put_types ops) →
  (∀ swa tt, tt ∈ batch_types ops → lane_ok swa tt (lane swa tt ops) = true) → 0 <= _next_op_id ids →
  ∃ g e dict ids', merge_to_batch_graph graphs task_ends cbd false counter ids = (Ok (g, e, dict), ids') ∧
    fused cbd ops (batch_types ops) (batch_final ops) g e dict.
Proof.
  intros ops Hne Hlen Hm Hsz Hdir Hok Hn. unfold batch_types, batch_final in *.
  destruct (merge_run cbd graphs task_ends false counter ids Hne Hlen Hm) as (bk & g & Hb & B & -> & Hn').
  fold ops in Hb |- *. rewrite M_bind_run. unfold check_kinds.
  destruct (has_lane get_types ops) eqn:Eg; destruct (has_lane put_types ops) eqn:Ep; try done; cbn [andb lift_result];
    rewrite M_bind_run; cbn [get_state].
  - destruct (merge_get_run cbd ops bk (_pick_dp_client_id bk) counter (TransferOpGraph_init ids).2 g Hb (conj Hsz Hok)
      (has_lane_true _ _ Eg) B ltac:(by rewrite Hn')) as (e & b' & -> & F).
    eexists _, e, _, _. split; [reflexivity|exact F].
  - destruct (merge_put_run cbd ops bk (_pick_dp_client_id bk) (TransferOpGraph_init ids).2 g Hb (conj Hsz Hok)
      (has_lane_true _ _ Ep) B ltac:(by rewrite Hn')) as (e & b' & -> & F).
    eexists _, e, _, _. split; [reflexivity|exact F].
Qed.

(** [C33] Merged completion callbacks are equivalent to the original ones.  The callback that
    [_attach_merged_callbacks] registers for a merged op behaves, on every completion that reports the blocks of
    all the source ops (or reports none), exactly like calling the callback of every source op, in the order of
    the ops, with the part of the completion that concerns the op's own blocks. *)
Theorem merged_callback_equiv merged ops callbacks d completed s :
  callbacks ≠ [] → (∀ o cb, (o, cb) ∈ callbacks → o ∈ ops) → covers ops completed →
  ∃ cb, _attach_merged_callbacks merged ops callbacks d = Ok (dict_set (op_id merged) cb d) ∧
    invoke_op_callback cb completed s = deliver (callback_by_op_id callbacks) 0 ops completed s.
Proof.
  intros Hne Hin Hc. destruct (attach_merged_ok merged ops callbacks d Hne Hin) as (cb & E & Hcb). exists cb. auto.
Qed.

(** The fusion of one lane.  On a non-empty list of ops, [_merge_ops] (main KV) and [_merge_swa_ops]
    (sliding window) build a fresh op of the lane's type that performs the movements of the sources in order
    and carries their concatenated hashes, exactly when the flags and hashes of the sources allow it;
    otherwise they raise [ValueError] and no op id is consumed. *)
Theorem merge_ops_spec swa ops tt gid callbacks d ids :
  ops ≠ [] → Forall op_sized ops → (∀ o cb, (o, cb) ∈ callbacks → o ∈ ops) →
  if lane_ok swa tt ops
  then ∃ o d', merge_of swa ops tt gid callbacks d ids = (Ok (Some o, d'), bump ids) ∧ lane_op swa tt gid ops ids o
  else ∃ msg, merge_of swa ops tt gid callbacks d ids = (Raise (ValueError msg), ids).
Proof.
  intros Hne Hs Hin. pose proof (merge_of_ok swa ops tt gid callbacks d ids Hne Hs Hin) as Hm.
  destruct (lane_ok swa tt ops); [|done]. destruct Hm as (o & d' & E & Ho & _). eauto.
Qed.

(** Rejected batches.  [merge_to_batch_graph] raises [ValueError] when the number of end ops differs
    from the number of graphs, [NotImplementedError] when some op is neither virtual nor of one of the six
    supported types, and otherwise [ValueError] for a layerwise batch that has no read or has a write, and for a
    plain batch that mixes reads and writes; no op id is consumed in any of these cases. *)
Theorem batch_rejected graphs task_ends cbd lw counter ids :
  let ops := batch_ops graphs in
  graphs ≠ [] →
  let '(r, ids') := merge_to_batch_graph graphs task_ends cbd lw counter ids in
  let get := has_lane get_types ops in let put := has_lane put_types ops in
  if bool_decide (length graphs ≠ length task_ends) then (∃ msg, r = Raise (ValueError msg)) ∧ ids' = ids
  else if bool_decide (¬ Forall mergeable ops) then r = Raise NotImplementedError ∧ _next_op_id ids' = _next_op_id ids
  else if (if lw then negb get || put else get && put)
  then (∃ msg, r = Raise (ValueError msg)) ∧ _next_op_id ids' = _next_op_id ids
  else True.
Proof.
  intros ops Hne. case_bool_decide as Hlen.
  { destruct graphs as [|g0 gs]; [done|]. cbn [merge_to_batch_graph]. rewrite M_bind_run.
    destruct (Nat.eqb_spec (length (g0 :: gs)) (length task_ends)); [done|]. cbn. eauto. }
  case_bool_decide as Hm.
  { unfold merge_to_batch_graph. destruct graphs as [|g0 gs]; [done|]. rewrite M_bind_run, Hlen, Nat.eqb_refl. cbn [negb mret M_ret].
    rewrite M_bind_run. fold ops.
    by rewrite (bucket_all_unsupported cbd ops empty_buckets Hm). }
  destruct (merge_run cbd graphs task_ends lw counter ids Hne Hlen Hm) as (bk & g & _ & _ & -> & Hn').
  fold ops. rewrite M_bind_run. unfold check_kinds.
  destruct lw, (has_lane get_types ops), (has_lane put_types ops); cbn [negb andb orb lift_result];

    first [by split; [eexists|] | match goal with |- let '(_, _) := ?m in True => by destruct m end].
Qed.
End theorems.

(** ** Concrete instances *)

Definition demo_op (id : Z) (tt : TransferType) (src dst : list Z) (preds : gset Z) : TransferOp :=
  mkTransferOp id 0 tt src dst preds ∅ PENDING 0 (-1) (-1) 0 0 false None None None None.
Definition demo_graph (gid : Z) (ops : list TransferOp) : TransferOpGraph :=
  mkGraph gid ((λ o, (op_id o, o)) <$> ops) ∅ ∅ [] [].
Definition demo_graphs : list TransferOpGraph :=
  [demo_graph 0 [demo_op 1 DISK2H [5] [7] ∅; demo_op 2 H2D [7] [70] {[1]}];
   demo_graph 1 [demo_op 3 H2D [8; 9] [80; 90] ∅; demo_op 4 VIRTUAL [] [] {[3]}]].
(** Each callback appends what it is told to the log. *)
Definition demo_callback (id : Z) : Callable (list (Z * option (list bool))) :=
  CompletionAwareCallback (λ c s, (Ok tt, s ++ [(id, c ≫= co_block_results)])).
Definition demo_done : CompletedOp :=
  {| co_graph_id := 0; co_op_id := 10; co_transfer_type := None; co_num_blocks := 3; co_num_bytes := 0;
     co_block_results := Some [true; false; true]; co_failed := false |}.

Lemma batch_graph_fuses_witness : ∃ g e dict ids',
  merge_to_batch_graph demo_graphs [2; 4] [(2, demo_callback 2); (3, demo_callback 3)] false 0
    {| _next_op_id := 10; _next_graph_id := 2 |} = (Ok (g, e, dict), ids') ∧
  fused [(2, demo_callback 2); (3, demo_callback 3)] (batch_ops demo_graphs) get_types H2D g e dict.
Proof.
  apply (batch_graph_fuses demo_graphs [2; 4] [(2, demo_callback 2); (3, demo_callback 3)] 0
    {| _next_op_id := 10; _next_graph_id := 2 |}); try done.
  - apply (bool_decide_eq_true_1 (Forall mergeable (batch_ops demo_graphs))). reflexivity.
  - repeat constructor.
  - intros swa tt Hin. unfold batch_types, has_lane in Hin. simpl in Hin.
    destruct swa; repeat (apply elem_of_cons in Hin as [->|Hin]; [reflexivity|]); by apply elem_of_nil in Hin.
Defined.

Lemma merged_callback_equiv_witness : ∃ cb,
  _attach_merged_callbacks (demo_op 10 H2D [7; 8; 9] [70; 80; 90] ∅)
    [demo_op 2 H2D [7] [70] ∅; demo_op 3 H2D [8; 9] [80; 90] ∅]
    [(demo_op 2 H2D [7] [70] ∅, demo_callback 2); (demo_op 3 H2D [8; 9] [80; 90] ∅, demo_callback 3)] [] = Ok [(10, cb)] ∧
  (invoke_op_callback cb (Some demo_done) []).2 = [(2, Some [true]); (3, Some [false; true])].
Proof.
  edestruct (merged_callback_equiv (demo_op 10 H2D [7; 8; 9] [70; 80; 90] ∅)
    [demo_op 2 H2D [7] [70] ∅; demo_op 3 H2D [8; 9] [80; 90] ∅]
    [(demo_op 2 H2D [7] [70] ∅, demo_callback 2); (demo_op 3 H2D [8; 9] [80; 90] ∅, demo_callback 3)] [] (Some demo_done) [])
    as (cb & E & Hcb).
  - done.
  - intros o cb [[= -> _]|[[= -> _]|[]%elem_of_nil]%elem_of_cons]%elem_of_cons; [left|right; left].
  - intros c rs [= <-] [= <-]. done.
  - exists cb. split; [exact E|]. rewrite Hcb. reflexivity.
Defined.

Lemma merge_ops_spec_witness : ∃ o d',
  merge_of false [demo_op 2 H2D [7] [70] ∅; demo_op 3 H2D [8; 9] [80; 90] ∅] H2D 5 [(demo_op 2 H2D [7] [70] ∅, demo_callback 2)] []
    {| _next_op_id := 10; _next_graph_id := 2 |} = (Ok (Some o, d'), {| _next_op_id := 11; _next_graph_id := 2 |}) ∧
  moves o = [(7, 70); (8, 80); (9, 90)].
Proof.
  destruct (merge_ops_spec false [demo_op 2 H2D [7] [70] ∅; demo_op 3 H2D [8; 9] [80; 90] ∅] H2D 5
    [(demo_op 2 H2D [7] [70] ∅, demo_callback 2)] [] {| _next_op_id := 10; _next_graph_id := 2 |}) as (o & d' & E & Ho).
  - done.
  - repeat constructor.
  - intros o cb [[= -> _]|[]%elem_of_nil]%elem_of_cons. left.
  - exists o, d'. split; [exact E|]. apply Ho.
Defined.

Lemma batch_rejected_witness : ∃ msg ids',
  merge_to_batch_graph (St := unit) demo_graphs [2] [] false 0 {| _next_op_id := 10; _next_graph_id := 2 |} = (Raise (ValueError msg), ids').
Proof.
  pose proof (batch_rejected (St := unit) demo_graphs [2] [] false 0 {| _next_op_id := 10; _next_graph_id := 2 |} ltac:(done)) as Hr.
  destruct (merge_to_batch_graph _ _ _ _ _ _) as [r ids']. simpl in Hr. destruct Hr as [(msg & ->) _]. by exists msg, ids'.
Defined.
End BatchMerge.
