(* ===== verification/PyFloat.v ===== *)
(** * Python floats

    IEEE 754 binary64 arithmetic with round-to-nearest-even, as the Standard
    Library's executable [SpecFloat]: timestamps of the radix tree, eviction
    thresholds of the cache engine. *)

From S2P Require Import Prelude.
From Stdlib Require Import SpecFloat.
Local Open Scope Z_scope.

Definition float : Type := spec_float.

Definition f_add : float → float → float := SFadd 53 1024.
Definition f_sub : float → float → float := SFsub 53 1024.
Definition f_mul : float → float → float := SFmul 53 1024.
Definition f_div : float → float → float := SFdiv 53 1024.
Definition f_opp : float → float := SFopp.
Definition f_ltb : float → float → bool := SFltb.
Definition f_leb : float → float → bool := SFleb.
Definition f_eqb : float → float → bool := SFeqb.

(** [float(n)], also the conversion of an integer operand; exact up to 2^53. *)
Definition f_of_Z (n : Z) : float := binary_normalize 53 1024 n 0 false.

(** [max(a, b)] and [min(a, b)]: the first argument unless the second is strictly beyond. *)
Definition f_max (a b : float) : float := if f_ltb a b then b else a.
Definition f_min (a b : float) : float := if f_ltb b a then b else a.

(** [int(x)]: truncation towards zero. *)
Definition f_to_Z (x : float) : Z :=
  match x with
  | S754_finite s m e =>
      let a := if 0 <=? e then Z.pos m * 2 ^ e else Z.pos m / 2 ^ (- e) in
      if s then - a else a
  | _ => 0
  end.

#[export] Instance float_eq_dec : EqDecision float.
Proof. solve_decision. Defined.
