(* ===== verification/Heapq.v ===== *)
(** * heapq: the binary heap of the standard library

    [flexkv/cache/radixtree.py] ranks eviction candidates with [heapq.heapify],
    [heappop] and [heappush] on tuples whose comparison can raise (two equal
    priorities compare the nodes themselves).  These are the sift algorithms of
    the library on a list, with a comparison that returns a [result]: an
    exception aborts the call.

    Proved: the operations never lose or invent an entry, they raise only when
    a comparison raises, and for a comparison that is a total preorder the heap
    order is kept and [heappop] returns a least entry. *)

From S2P Require Import Prelude.

Module Heapq.
Section heap.
Context {A : Type} (lt : A → A → result bool).
Implicit Types l : list A.

Definition swap (i j : nat) l : list A :=
  match l !! i, l !! j with
  | Some x, Some y => <[j := x]> (<[i := y]> l)
  | _, _ => l
  end.

Definition parent (pos : nat) : nat := (pos - 1) / 2.

(** [_siftdown(heap, startpos, pos)]: the entry at [pos] moves towards [startpos]. *)
Fixpoint siftdown (fuel startpos pos : nat) l : result (list A) :=
  match fuel with
  | O => Raise RecursionLimit
  | S fuel =>
      if (startpos <? pos)%nat then
        match l !! pos, l !! parent pos with
        | Some newitem, Some p =>
            b ← lt newitem p;
            if b : bool then siftdown fuel startpos (parent pos) (swap pos (parent pos) l) else Ok l
        | _, _ => Raise IndexError
        end
      else Ok l
  end.

(** The descending loop of [_siftup]: the smaller child is pulled up to the bottom. *)
Fixpoint sift_to_leaf (fuel pos : nat) l : result (nat * list A) :=
  match fuel with
  | O => Raise RecursionLimit
  | S fuel =>
      let endpos := length l in
      let childpos := (2 * pos + 1)%nat in
      if (childpos <? endpos)%nat then
        childpos ← (if (childpos + 1 <? endpos)%nat then
                      match l !! childpos, l !! (childpos + 1)%nat with
                      | Some c, Some r => b ← lt c r; Ok (if b : bool then childpos else (childpos + 1)%nat)
                      | _, _ => Raise IndexError
                      end
                    else Ok childpos);
        sift_to_leaf fuel childpos (swap childpos pos l)
      else Ok (pos, l)
  end.

Definition siftup (pos : nat) l : result (list A) :=
  '(leaf, l') ← sift_to_leaf (S (length l)) pos l;
  siftdown (S (length l)) pos leaf l'.

Definition heappush (x : A) l : result (list A) :=
  siftdown (S (length l)) 0 (length l) (l ++ [x]).

Definition heappop l : result (A * list A) :=
  match l with
  | [] => Raise IndexError
  | x :: _ =>
      match last l with
      | None => Raise IndexError
      | Some lastelt =>
          match take (length l - 1) l with
          | [] => Ok (lastelt, [])
          | _ :: rest => l' ← siftup 0 (lastelt :: rest); Ok (x, l')
          end
      end
  end.

(** [for i in reversed(range(n // 2)): _siftup(x, i)] *)
Fixpoint heapify_from (i : nat) l : result (list A) :=
  match i with
  | O => Ok l
  | S i => l' ← siftup i l; heapify_from i l'
  end.
Definition heapify l : result (list A) := heapify_from (length l / 2) l.

(** ** The entries are preserved *)

Lemma length_swap i j l : length (swap i j l) = length l.
Proof. unfold swap. by repeat case_match; rewrite ?length_insert. Qed.

Lemma swap_perm i j l : swap i j l ≡ₚ l.
Proof. unfold swap. repeat case_match; [|done..]. by apply Permutation_insert_swap. Qed.

Lemma siftdown_perm fuel s pos l l' : siftdown fuel s pos l = Ok l' → l' ≡ₚ l.
Proof.
  revert pos l. induction fuel as [|fuel IH]; intros pos l; simpl; [done|].
  destruct (s <? pos)%nat; [|by intros [= ->]].
  destruct (l !! pos) as [x|]; [|done]. destruct (l !! parent pos) as [p|]; [|done].
  intros H. apply result_bind_inv in H as (b & _ & H). destruct b; [|by injection H as ->].
  rewrite (IH _ _ H). apply swap_perm.
Qed.

Lemma sift_to_leaf_perm fuel pos l r : sift_to_leaf fuel pos l = Ok r → r.2 ≡ₚ l.
Proof.
  revert pos l. induction fuel as [|fuel IH]; intros pos l; cbn [sift_to_leaf]; [done|].
  destruct (_ <? _)%nat; [|by intros [= <-]].
  intros H. apply result_bind_inv in H as (c & _ & H). rewrite (IH _ _ H). apply swap_perm.
Qed.

Lemma siftup_perm pos l l' : siftup pos l = Ok l' → l' ≡ₚ l.
Proof.
  unfold siftup. intros H. apply result_bind_inv in H as ([leaf l1] & H1 & H).
  rewrite (siftdown_perm _ _ _ _ _ H). apply (sift_to_leaf_perm _ _ _ _ H1).
Qed.

Lemma heappush_perm x l l' : heappush x l = Ok l' → l' ≡ₚ x :: l.
Proof. intros ->%siftdown_perm. by rewrite Permutation_app_comm. Qed.

Lemma heappop_shape l :
  match l with
  | [] => True
  | x :: _ => ∃ lst, last l = Some lst ∧
      match take (length l - 1) l with
      | [] => l = [lst] ∧ x = lst
      | _ :: rest => l ≡ₚ x :: lst :: rest ∧ length l = S (length (lst :: rest))
      end
  end.
Proof.
  destruct l as [|x l]; [done|]. destruct (exists_last (l := x :: l)) as (l1 & lst & E); [done|].
  exists lst. rewrite E, last_snoc. split; [done|].
  rewrite length_app. simpl. replace (length l1 + 1 - 1)%nat with (length l1) by lia. rewrite take_app_length.
  destruct l1 as [|y rest]; injection E as -> ->; [done|]. split; [|simpl; rewrite ?length_app; simpl; lia].
  simpl. constructor. by rewrite Permutation_app_comm.
Qed.

Lemma heappop_perm l x l' : heappop l = Ok (x, l') → l ≡ₚ x :: l'.
Proof.
  pose proof (heappop_shape l) as Hs. unfold heappop. destruct l as [|y l]; [done|].
  destruct Hs as (lst & -> & Hs). destruct (take _ _) as [|z rest].
  - destruct Hs as [-> ->]. by intros [= <- <-].
  - intros H. apply result_bind_inv in H as (l1 & Hl1 & H). injection H as <- <-.
    destruct Hs as [-> _]. by rewrite (siftup_perm _ _ _ Hl1).
Qed.

Lemma heapify_from_perm i l l' : heapify_from i l = Ok l' → l' ≡ₚ l.
Proof.
  revert l. induction i as [|i IH]; intros l; simpl; [by intros [= ->]|].
  intros H. apply result_bind_inv in H as (l1 & H1 & H). rewrite (IH _ H). by eapply siftup_perm.
Qed.

Lemma heapify_perm l l' : heapify l = Ok l' → l' ≡ₚ l.
Proof. apply heapify_from_perm. Qed.

(** ** Only a comparison can raise *)

Definition raises_from (l : list A) {B} (r : result B) : Prop :=
  match r with Ok _ => True | Raise e => ∃ a b, a ∈ l ∧ b ∈ l ∧ lt a b = Raise e end.

Lemma parent_lt pos : (0 < pos)%nat → (parent pos < pos)%nat.
Proof. intros. unfold parent. apply Nat.Div0.div_lt_upper_bound. lia. Qed.

Lemma siftdown_raises fuel s pos l :
  (pos < fuel)%nat → (pos < length l)%nat → raises_from l (siftdown fuel s pos l).
Proof.
  revert pos l. induction fuel as [|fuel IH]; intros pos l Hf Hl; [lia|]. simpl.
  destruct (Nat.ltb_spec s pos) as [Hs|]; [|done].
  assert (parent pos < pos)%nat as Hp by (apply parent_lt; lia).
  destruct (lookup_lt_is_Some_2 l pos) as [x Hx]; [done|]. rewrite Hx.
  destruct (lookup_lt_is_Some_2 l (parent pos)) as [p Hpp]; [lia|]. rewrite Hpp.
  destruct (lt x p) as [b|e] eqn:E; simpl.
  2:{ exists x, p. split_and!; [by eapply list_elem_of_lookup_2..|done]. }
  destruct b; [|done]. specialize (IH (parent pos) (swap pos (parent pos) l)).
  rewrite length_swap in IH. specialize (IH ltac:(lia) ltac:(lia)).
  destruct (siftdown fuel s (parent pos) _) as [|e]; [done|].
  destruct IH as (a & b & Ha & Hb & Hab). exists a, b. by rewrite !swap_perm in Ha, Hb.
Qed.

Lemma sift_to_leaf_raises fuel pos l :
  (pos < length l)%nat → (length l - pos < fuel)%nat →
  raises_from l (sift_to_leaf fuel pos l) ∧
  ∀ r, sift_to_leaf fuel pos l = Ok r → (r.1 < length l)%nat ∧ length r.2 = length l.
Proof.
  revert pos l. induction fuel as [|fuel IH]; intros pos l Hl Hf; [lia|]. cbn [sift_to_leaf].
  destruct (Nat.ltb_spec (2 * pos + 1) (length l)) as [Hc|]; [|split; [done|]; by intros r [= <-]].
  assert (∃ rc, (if (2 * pos + 1 + 1 <? length l)%nat
     then match l !! (2 * pos + 1)%nat, l !! (2 * pos + 1 + 1)%nat with
          | Some c, Some r => b ← lt c r; Ok (if b : bool then (2 * pos + 1)%nat else (2 * pos + 1 + 1)%nat)
          | _, _ => Raise IndexError end
     else Ok (2 * pos + 1)%nat) = rc ∧ raises_from l rc ∧ ∀ c, rc = Ok c → (pos < c < length l)%nat) as (rc & -> & Hr & Hok).
  { eexists. split; [reflexivity|]. destruct (Nat.ltb_spec (2 * pos + 1 + 1) (length l)).
    - destruct (lookup_lt_is_Some_2 l (2 * pos + 1)%nat) as [x Hx]; [done|].
      destruct (lookup_lt_is_Some_2 l (2 * pos + 1 + 1)%nat) as [y Hy]; [done|]. rewrite Hx, Hy.
      destruct (lt x y) as [b|e] eqn:E; simpl; [split; [done|]; intros c [= <-]; destruct b; lia|].
      split; [|done]. exists x, y. split_and!; [by eapply list_elem_of_lookup_2..|done].
    - split; [done|]. intros c [= <-]. lia. }
  destruct rc as [c|e]; simpl; [|split; [exact Hr|done]].
  specialize (Hok c eq_refl). specialize (IH c (swap c pos l)). rewrite length_swap in IH.
  destruct IH as [IH1 IH2]; [lia|lia|]. split; [|done].
  destruct (sift_to_leaf fuel c _) as [|e]; [done|].
  destruct IH1 as (a & b & Ha & Hb & Hab). exists a, b. by rewrite !swap_perm in Ha, Hb.
Qed.

Lemma siftup_raises pos l : (pos < length l)%nat → raises_from l (siftup pos l).
Proof.
  intros Hl. unfold siftup. destruct (sift_to_leaf_raises (S (length l)) pos l Hl) as [H1 H2]; [lia|].
  destruct (sift_to_leaf _ pos l) as [[leaf l1]|e] eqn:E; [|exact H1].
  cbv beta iota delta [mbind result_bind].
  destruct (H2 _ eq_refl) as [Hle Hlen]. simpl in Hle, Hlen.
  pose proof (siftdown_raises (S (length l)) pos leaf l1 ltac:(lia) ltac:(lia)) as H3.
  destruct (siftdown _ pos leaf l1) as [|e]; [exact I|].
  destruct H3 as (a & b & Ha & Hb & Hab). exists a, b.
  pose proof (sift_to_leaf_perm _ _ _ _ E) as Hp. simpl in Hp. by rewrite !Hp in Ha, Hb.
Qed.

Lemma heapify_raises l : raises_from l (heapify l).
Proof.
  unfold heapify. assert (length l / 2 <= length l)%nat as Hi by (apply Nat.Div0.div_le_upper_bound; lia).
  revert Hi. generalize (length l / 2)%nat as i. intros i. revert l.
  induction i as [|i IH]; intros l Hi; simpl; [done|].
  pose proof (siftup_raises i l ltac:(lia)) as H1. destruct (siftup i l) as [l1|e] eqn:E; [|exact H1].
  cbv beta iota delta [mbind result_bind].
  pose proof (siftup_perm _ _ _ E) as Hp. specialize (IH l1).
  assert (i <= length l1)%nat as Hi1 by (rewrite (Permutation_length Hp); lia). specialize (IH Hi1).
  destruct (heapify_from i l1) as [|e]; [exact I|]. destruct IH as (a & b & Ha & Hb & Hab). exists a, b.
  by rewrite !Hp in Ha, Hb.
Qed.

Lemma heappush_raises x l : raises_from (x :: l) (heappush x l).
Proof.
  unfold heappush. pose proof (siftdown_raises (S (length l)) 0 (length l) (l ++ [x]) ltac:(lia) ltac:(rewrite length_app; simpl; lia)) as H1.
  destruct (siftdown _ 0 _ _) as [|e]; [exact I|]. destruct H1 as (a & b & Ha & Hb & Hab). exists a, b.
  by rewrite !(Permutation_app_comm l [x]) in Ha, Hb.
Qed.

Lemma heappop_raises l : l ≠ [] → raises_from l (heappop l).
Proof.
  intros Hne. pose proof (heappop_shape l) as Hs. unfold heappop. destruct l as [|y l]; [done|].
  destruct Hs as (lst & -> & Hs). destruct (take _ _) as [|z rest]; [done|].
  destruct Hs as [Hp _]. pose proof (siftup_raises 0 (lst :: rest) ltac:(simpl; lia)) as H1.
  destruct (siftup 0 (lst :: rest)) as [l1|e]; [exact I|]. destruct H1 as (a & b & Ha & Hb & Hab). exists a, b.
  rewrite !Hp. split_and!; [by right|by right|done].
Qed.
End heap.

(** ** Heap order, for a comparison that is a total preorder *)
Section order.
Context {A : Type} (lt : A → A → result bool) (ltb : A → A → bool).
Hypothesis lt_total : ∀ a b, lt a b = Ok (ltb a b).
Hypothesis ltb_asym : ∀ a b, ltb a b = true → ltb b a = false.
Hypothesis le_trans : ∀ a b c, ltb b a = false → ltb c b = false → ltb c a = false.

Definition le (a b : A) : Prop := ltb b a = false.

(** The edge between [i] and its parent is in order. *)
Definition edge (l : list A) (i : nat) : Prop :=
  ∀ x p, l !! i = Some x → l !! parent i = Some p → le p x.

(** The heap order on the subtrees of the positions from [s] on. *)
Definition heap_from (s : nat) (l : list A) : Prop := ∀ i, (0 < i)%nat → (s <= parent i)%nat → edge l i.
Definition heap (l : list A) : Prop := heap_from 0 l.

Lemma le_refl a : le a a.
Proof. unfold le. destruct (ltb a a) eqn:E; [|done]. by apply ltb_asym in E as E'; congruence. Qed.

Lemma parent_child q i : (0 < i)%nat → parent i = q ↔ i = (2 * q + 1)%nat ∨ i = (2 * q + 2)%nat.
Proof.
  intros Hi. unfold parent. split.
  - intros <-. pose proof (Nat.div_mod_eq (i - 1) 2). pose proof (Nat.mod_upper_bound (i - 1) 2). lia.
  - intros [->| ->].
    + replace (2 * q + 1 - 1)%nat with (q * 2)%nat by lia. apply Nat.div_mul. lia.
    + replace (2 * q + 2 - 1)%nat with (1 + q * 2)%nat by lia. rewrite Nat.div_add by lia. done.
Qed.

(** [q] is [s] or below it. *)
Inductive below (s : nat) : nat → Prop :=
  | below_self : below s s
  | below_child q i : below s q → (0 < i)%nat → parent i = q → below s i.

Lemma below_ge s q : below s q → (s <= q)%nat.
Proof. induction 1 as [|q i _ IH Hi Hp]; [done|]. pose proof (parent_lt i Hi). lia. Qed.

Lemma below_parent s q : below s q → (s < q)%nat → below s (parent q) ∧ (s <= parent q)%nat.
Proof.
  intros [|q' i Hb Hi Hp] Hlt; [lia|]. rewrite Hp. split; [done|]. by apply below_ge.
Qed.

Lemma lookup_swap i j (l : list A) k x y :
  l !! i = Some x → l !! j = Some y →
  swap i j l !! k = if decide (k = i) then Some y else if decide (k = j) then Some x else l !! k.
Proof.
  intros Hi Hj. unfold swap. rewrite Hi, Hj.
  pose proof (lookup_lt_Some _ _ _ Hi). pose proof (lookup_lt_Some _ _ _ Hj).
  destruct (decide (k = j)) as [->|Hkj].
  - rewrite list_lookup_insert_eq by (by rewrite length_insert). case_decide; [subst; congruence|done].
  - rewrite list_lookup_insert_ne by done. case_decide; [subst; by rewrite list_lookup_insert_eq|].
    by rewrite list_lookup_insert_ne.
Qed.

(** All edges from [s] on are in order but the one above [q]; the children of [q]
    are not below its parent. *)
Record almost (s q : nat) (l : list A) : Prop := {
  al_edge : ∀ i, (0 < i)%nat → (s <= parent i)%nat → i ≠ q → edge l i;
  al_grand : ∀ i g c, (0 < i)%nat → parent i = q → (s < q)%nat → l !! parent q = Some g → l !! i = Some c → le g c;
}.

Lemma siftdown_order fuel s q l l' :
  siftdown lt fuel s q l = Ok l' → below s q → almost s q l → heap_from s l'.
Proof.
  revert q l. induction fuel as [|fuel IH]; intros q l; simpl; [done|]. intros H Hb Hal.
  destruct (Nat.ltb_spec s q) as [Hs|Hs].
  2:{ injection H as <-. intros i Hi Hp. apply Hal; [done|done|]. intros ->.
      pose proof (parent_lt q Hi). pose proof (below_ge _ _ Hb). lia. }
  destruct (l !! q) as [x|] eqn:Hx; [|done]. destruct (l !! parent q) as [p|] eqn:Hp; [|done].
  rewrite lt_total in H. simpl in H. destruct (ltb x p) eqn:Elt.
  2:{ injection H as <-. intros i Hi Hpi. destruct (decide (i = q)) as [->|]; [|by apply Hal].
      intros x' p' Hx' Hp'. by simplify_eq. }
  destruct (below_parent _ _ Hb Hs) as [Hb' Hge].
  assert (parent q < q)%nat as Hpq by (apply parent_lt; lia).
  assert (∀ k, swap q (parent q) l !! k = if decide (k = q) then Some p else if decide (k = parent q) then Some x else l !! k) as Hsw.
  { intros k. by apply lookup_swap. }
  apply (IH _ _ H Hb'). split.
  - intros i Hi Hpi Hne a b. rewrite !Hsw.
    destruct (decide (i = q)) as [->|Hiq].
    + rewrite (decide_False (P := parent q = q)) by lia. rewrite decide_True by done.
      intros [= <-] [= <-]. by apply ltb_asym.
    + rewrite (decide_False (P := i = parent q)) by done. intros Ha.
      destruct (decide (parent i = q)) as [Hq|Hq].
      * intros [= <-]. by eapply (al_grand _ _ _ Hal i).
      * destruct (decide (parent i = parent q)) as [Hsib|Hsib].
        -- intros [= <-]. apply (le_trans x p a); [by apply ltb_asym|].
           apply (al_edge _ _ _ Hal i Hi Hpi Hiq); [done|by rewrite Hsib].
        -- by apply (al_edge _ _ _ Hal i).
  - intros i g c Hi Hpi Hsq. rewrite !Hsw.
    assert (parent (parent q) < parent q)%nat by (apply parent_lt; lia).
    rewrite (decide_False (P := parent (parent q) = q)), (decide_False (P := parent (parent q) = parent q)) by lia.
    intros Hg. assert (le g p) as Hgp.
    { apply (al_edge _ _ _ Hal (parent q)); [lia| |lia|done|done].
      by destruct (below_parent _ _ Hb' Hsq). }
    destruct (decide (i = q)) as [->|Hiq]; [by intros [= <-]|].
    destruct (decide (i = parent q)) as [->|]; [lia|]. intros Hc.
    apply (le_trans g p c); [done|]. apply (al_edge _ _ _ Hal i); [done|lia|done|done|by rewrite Hpi].
Qed.

(** The hole of the descending loop: edges from [s] on are in order away from [q]. *)
Record hole (s q : nat) (l : list A) : Prop := {
  ho_edge : ∀ i, (0 < i)%nat → (s <= parent i)%nat → i ≠ q → parent i ≠ q → edge l i;
  ho_grand : ∀ i g c, (0 < i)%nat → parent i = q → (s < q)%nat → l !! parent q = Some g → l !! i = Some c → le g c;
}.

Lemma hole_step s q c l x y :
  hole s q l → below s q → (0 < c)%nat → parent c = q → l !! q = Some x → l !! c = Some y →
  (∀ i z, (0 < i)%nat → parent i = q → l !! i = Some z → le y z) →
  hole s c (swap c q l) ∧ below s c.
Proof.
  intros Hh Hb Hc0 Hcq Hx Hy Hmin. pose proof (parent_lt c Hc0) as Hlt.
  assert (∀ k, swap c q l !! k = if decide (k = c) then Some x else if decide (k = q) then Some y else l !! k) as Hsw.
  { intros k. by apply lookup_swap. }
  split; [split|by eapply below_child].
  - intros i Hi Hpi Hic Hpc a b. rewrite !Hsw. rewrite (decide_False (P := i = c)), (decide_False (P := parent i = c)) by done.
    destruct (decide (i = q)) as [->|Hiq].
    + rewrite decide_False by (pose proof (parent_lt q Hi); lia). intros [= <-] Hg.
      apply (ho_grand _ _ _ Hh c); try done. pose proof (parent_lt q Hi). pose proof (below_ge _ _ Hb). lia.
    + intros Ha. destruct (decide (parent i = q)) as [Hpq|Hpq].
      * intros [= <-]. by apply (Hmin i).
      * by apply (ho_edge _ _ _ Hh i).
  - intros i g d Hi Hpi Hsc. rewrite !Hsw, Hcq. rewrite (decide_False (P := q = c)), (decide_True (P := q = q)) by lia || done.
    intros [= <-]. pose proof (parent_lt i Hi). rewrite (decide_False (P := i = c)), (decide_False (P := i = q)) by lia.
    intros Hd. apply (ho_edge _ _ _ Hh i); [done| |lia|lia|done|by rewrite Hpi].
    rewrite Hpi. pose proof (below_ge _ _ Hb). lia.
Qed.

Lemma sift_to_leaf_order fuel s q l leaf l' :
  sift_to_leaf lt fuel q l = Ok (leaf, l') → (q < length l)%nat → below s q → hole s q l →
  below s leaf ∧ almost s leaf l'.
Proof.
  revert q l. induction fuel as [|fuel IH]; intros q l; cbn [sift_to_leaf]; [done|]. intros H Hq Hb Hh.
  destruct (Nat.ltb_spec (2 * q + 1) (length l)) as [Hc|Hc].
  2:{ injection H as <- <-. split; [done|]. split; [|apply Hh].
      intros i Hi Hp Hne x p Hx. destruct (decide (parent i = q)) as [Hpq|]; [|by apply (ho_edge _ _ _ Hh i)].
      apply parent_child in Hpq; [|done]. apply lookup_lt_Some in Hx. lia. }
  destruct (lookup_lt_is_Some_2 l q Hq) as [x Hx].
  destruct (lookup_lt_is_Some_2 l _ Hc) as [y Hy].
  assert (∃ c z, (if (2 * q + 1 + 1 <? length l)%nat
     then match l !! (2 * q + 1)%nat, l !! (2 * q + 1 + 1)%nat with
          | Some c, Some r => b ← lt c r; Ok (if b : bool then (2 * q + 1)%nat else (2 * q + 1 + 1)%nat)
          | _, _ => Raise IndexError end
     else Ok (2 * q + 1)%nat) = Ok c ∧ (0 < c)%nat ∧ parent c = q ∧ l !! c = Some z ∧
     ∀ i w, (0 < i)%nat → parent i = q → l !! i = Some w → le z w) as (c & z & E & Hc0 & Hcq & Hz & Hmin).
  { destruct (Nat.ltb_spec (2 * q + 1 + 1) (length l)) as [Hr|Hr].
    - destruct (lookup_lt_is_Some_2 l _ Hr) as [w Hw]. rewrite Hy, Hw, lt_total. simpl.
      destruct (ltb y w) eqn:Elt; eexists _, _; (split; [reflexivity|]); split_and!;
        try lia; try (apply parent_child; lia); try eassumption; intros i v Hi Hpi Hv;
        apply parent_child in Hpi as [->| ->]; try done;
        replace (2 * q + 2)%nat with (2 * q + 1 + 1)%nat in Hv by lia; simplify_eq;
        try apply le_refl; try done. by apply ltb_asym.
    - exists (2 * q + 1)%nat, y. split_and!; [done|lia|apply parent_child; lia|done|].
      intros i v Hi Hpi Hv. apply parent_child in Hpi as [->| ->]; [|apply lookup_lt_Some in Hv; lia|done].
      simplify_eq. apply le_refl. }
  unfold sift_to_leaf in *. rewrite E in H. simpl in H.
  destruct (hole_step s q c l x z Hh Hb Hc0 Hcq Hx Hz Hmin) as [Hh' Hb'].
  apply (IH c (swap c q l)); [done| |done|done]. rewrite length_swap. by apply lookup_lt_Some in Hz.
Qed.

Lemma siftup_order s l l' :
  siftup lt s l = Ok l' → (s < length l)%nat → heap_from (S s) l → heap_from s l'.
Proof.
  unfold siftup. intros H Hl Hh. apply result_bind_inv in H as ([leaf l1] & H1 & H).
  destruct (sift_to_leaf_order _ s s _ _ _ H1) as [Hb Hal]; [done|constructor| |].
  - split; [|intros; lia]. intros i Hi Hp _ Hne. apply Hh; [done|lia].
  - by apply (siftdown_order _ _ _ _ _ H).
Qed.

Lemma heap_least (l : list A) x y : heap l → l !! 0%nat = Some x → y ∈ l → le x y.
Proof.
  intros Hh Hx (i & Hi)%list_elem_of_lookup. revert y Hi.
  induction (Nat.lt_wf_0 i) as [i _ IH]. intros y Hi.
  destruct (decide (i = 0%nat)) as [->|Hne]; [simplify_eq; apply le_refl|].
  assert (parent i < i)%nat as Hp by (apply parent_lt; lia).
  destruct (lookup_lt_is_Some_2 l (parent i)) as [p Hpp]; [apply lookup_lt_Some in Hi; lia|].
  apply (le_trans x p y); [by apply (IH (parent i))|]. apply (Hh i); [lia|lia|done|done].
Qed.

Lemma heap_tail_from l lst : heap l → ∀ x rest, take (length l - 1) l = x :: rest → heap_from 1 (lst :: rest).
Proof.
  intros Hh x rest Ht i Hi Hp a b Ha Hb.
  assert (∀ j z, (0 < j)%nat → (lst :: rest) !! j = Some z → l !! j = Some z) as Hsub.
  { intros [|j] z Hj Hz; [lia|]. simpl in Hz.
    assert ((x :: rest) !! S j = Some z) as Hz' by done. rewrite <- Ht in Hz'.
    apply lookup_take_Some in Hz' as [? _]. done. }
  apply (Hh i Hi ltac:(lia)); apply Hsub; (done || lia).
Qed.

Lemma heappop_order l x l' : heap l → heappop lt l = Ok (x, l') → heap l' ∧ ∀ y, y ∈ l' → le x y.
Proof.
  intros Hh H. pose proof (heappop_perm _ _ _ _ H) as Hp.
  assert (l !! 0%nat = Some x ∧ heap l') as [Hx Hl'].
  { pose proof (heappop_shape l) as Hs. unfold heappop in H. destruct l as [|y l]; [done|].
    destruct Hs as (lst & E & Hs). rewrite E in H. destruct (take _ _) as [|z rest] eqn:Et.
    - destruct Hs as [Hs ->]. injection H as <- <-. split; [done|]. intros i Hi _ a b Ha. by rewrite lookup_nil in Ha.
    - apply result_bind_inv in H as (l1 & Hl1 & H). injection H as <- <-. split; [done|].
      apply (siftup_order _ _ _ Hl1); [simpl; lia|]. by eapply heap_tail_from. }
  split; [done|]. intros y Hy. apply (heap_least l); [done|done|]. rewrite Hp. by right.
Qed.

Lemma heapify_order l l' : heapify lt l = Ok l' → heap l'.
Proof.
  unfold heapify. assert (heap_from (length l / 2) l) as Hh.
  { intros i Hi Hp x p Hx. apply lookup_lt_Some in Hx. exfalso.
    assert (parent i = (i - 1) / 2)%nat as E by done. rewrite E in Hp.
    pose proof (Nat.div_mod_eq (length l) 2). pose proof (Nat.mod_upper_bound (length l) 2).
    pose proof (Nat.div_mod_eq (i - 1) 2). lia. }
  assert (length l / 2 <= length l)%nat as Hi by (apply Nat.Div0.div_le_upper_bound; lia).
  revert Hh Hi. generalize (length l / 2)%nat as i. intros i. revert l.
  induction i as [|i IH]; intros l Hh Hi; simpl; [by intros [= <-]|].
  intros H. apply result_bind_inv in H as (l1 & Hl1 & H).
  apply (IH l1); [|rewrite (Permutation_length (siftup_perm _ _ _ _ Hl1)); lia|done].
  apply (siftup_order _ _ _ Hl1); [lia|done].
Qed.

Lemma heappush_order x l l' : heap l → heappush lt x l = Ok l' → heap l'.
Proof.
  intros Hh H. apply (siftdown_order _ _ _ _ _ H).
  - assert (∀ q, below 0 q) as Hb; [|apply Hb]. intros q. induction (Nat.lt_wf_0 q) as [q _ IH].
    destruct (decide (q = 0%nat)) as [->|]; [constructor|].
    apply (below_child 0 (parent q)); [apply IH, parent_lt; lia|lia|done].
  - split.
    + intros i Hi _ Hne a b Ha Hb. assert (i < length l)%nat.
      { apply lookup_lt_Some in Ha. rewrite length_app in Ha. simpl in Ha. lia. }
      assert (parent i < i)%nat by (apply parent_lt; lia).
      rewrite lookup_app_l in Ha, Hb by lia. apply (Hh i); [done|lia|done|done].
    + intros i g c Hi Hp _ _ Hc. apply lookup_lt_Some in Hc. rewrite length_app in Hc. simpl in Hc.
      pose proof (parent_lt i Hi). lia.
Qed.
End order.
End Heapq.
