(* ===== verification/RadixTree.v ===== *)
(** * RadixTree: the prefix index of the cache

    Models [flexkv/cache/radixtree.py]: [RadixNode] and [RadixTreeIndex], every
    method.  Nodes are objects that alias each other (parent, children, leaf
    table, LRU list, match results held by callers), so they live in a store
    from node ids to records; attribute access is [nd], mutation is [upd].  A
    node that was unlinked stays in the store, as the object stays alive while
    a caller holds it.

    [time.time()] reads the parameter [clock], one tick per call.  The loops
    that follow pointers run on fuel taken from the size of the store; the
    theorems of [RadixWf] and the files after it show that it never runs out.
    [XXH64] is the digest of [Block], needed by the lazy [gen_hashes] calls. *)

From S2P Require Import Prelude PyFloat Block Heapq.
Import Heapq.Heapq.
Local Open Scope Z_scope.

Module RadixTree.

Abbreviation nid := nat.

Record RadixNode : Type := mkRadixNode {
  block_hashes : list Z;
  physical_blocks : list Z;
  is_ready : bool;
  lock_cnt : Z;
  grace_time : float;
  hit_count : Z;
  creation_time : float;
  last_access_time : float;
  parent : option nat;
  children : list (Z * nat);
  swa_host_slot : Z;
  swa_tombstone : bool;
  swa_lock_ref : Z;
  swa_last_access_time : float;
  swa_lru_prev : option nat;
  swa_lru_next : option nat;
  on_swa_lru : bool;
}.

Section setters.
Variable n : RadixNode.
Definition set_block_hashes (v : list Z) : RadixNode :=
  mkRadixNode v (physical_blocks n) (is_ready n) (lock_cnt n) (grace_time n) (hit_count n) (creation_time n) (last_access_time n) (parent n) (children n) (swa_host_slot n) (swa_tombstone n) (swa_lock_ref n) (swa_last_access_time n) (swa_lru_prev n) (swa_lru_next n) (on_swa_lru n).
Definition set_physical_blocks (v : list Z) : RadixNode :=
  mkRadixNode (block_hashes n) v (is_ready n) (lock_cnt n) (grace_time n) (hit_count n) (creation_time n) (last_access_time n) (parent n) (children n) (swa_host_slot n) (swa_tombstone n) (swa_lock_ref n) (swa_last_access_time n) (swa_lru_prev n) (swa_lru_next n) (on_swa_lru n).
Definition set_is_ready (v : bool) : RadixNode :=
  mkRadixNode (block_hashes n) (physical_blocks n) v (lock_cnt n) (grace_time n) (hit_count n) (creation_time n) (last_access_time n) (parent n) (children n) (swa_host_slot n) (swa_tombstone n) (swa_lock_ref n) (swa_last_access_time n) (swa_lru_prev n) (swa_lru_next n) (on_swa_lru n).
Definition set_lock_cnt (v : Z) : RadixNode :=
  mkRadixNode (block_hashes n) (physical_blocks n) (is_ready n) v (grace_time n) (hit_count n) (creation_time n) (last_access_time n) (parent n) (children n) (swa_host_slot n) (swa_tombstone n) (swa_lock_ref n) (swa_last_access_time n) (swa_lru_prev n) (swa_lru_next n) (on_swa_lru n).
Definition set_grace_time (v : float) : RadixNode :=
  mkRadixNode (block_hashes n) (physical_blocks n) (is_ready n) (lock_cnt n) v (hit_count n) (creation_time n) (last_access_time n) (parent n) (children n) (swa_host_slot n) (swa_tombstone n) (swa_lock_ref n) (swa_last_access_time n) (swa_lru_prev n) (swa_lru_next n) (on_swa_lru n).
Definition set_hit_count (v : Z) : RadixNode :=
  mkRadixNode (block_hashes n) (physical_blocks n) (is_ready n) (lock_cnt n) (grace_time n) v (creation_time n) (last_access_time n) (parent n) (children n) (swa_host_slot n) (swa_tombstone n) (swa_lock_ref n) (swa_last_access_time n) (swa_lru_prev n) (swa_lru_next n) (on_swa_lru n).
Definition set_creation_time (v : float) : RadixNode :=
  mkRadixNode (block_hashes n) (physical_blocks n) (is_ready n) (lock_cnt n) (grace_time n) (hit_count n) v (last_access_time n) (parent n) (children n) (swa_host_slot n) (swa_tombstone n) (swa_lock_ref n) (swa_last_access_time n) (swa_lru_prev n) (swa_lru_next n) (on_swa_lru n).
Definition set_last_access_time (v : float) : RadixNode :=
  mkRadixNode (block_hashes n) (physical_blocks n) (is_ready n) (lock_cnt n) (grace_time n) (hit_count n) (creation_time n) v (parent n) (children n) (swa_host_slot n) (swa_tombstone n) (swa_lock_ref n) (swa_last_access_time n) (swa_lru_prev n) (swa_lru_next n) (on_swa_lru n).
Definition set_parent (v : option nat) : RadixNode :=
  mkRadixNode (block_hashes n) (physical_blocks n) (is_ready n) (lock_cnt n) (grace_time n) (hit_count n) (creation_time n) (last_access_time n) v (children n) (swa_host_slot n) (swa_tombstone n) (swa_lock_ref n) (swa_last_access_time n) (swa_lru_prev n) (swa_lru_next n) (on_swa_lru n).
Definition set_children (v : list (Z * nat)) : RadixNode :=
  mkRadixNode (block_hashes n) (physical_blocks n) (is_ready n) (lock_cnt n) (grace_time n) (hit_count n) (creation_time n) (last_access_time n) (parent n) v (swa_host_slot n) (swa_tombstone n) (swa_lock_ref n) (swa_last_access_time n) (swa_lru_prev n) (swa_lru_next n) (on_swa_lru n).
Definition set_swa_host_slot (v : Z) : RadixNode :=
  mkRadixNode (block_hashes n) (physical_blocks n) (is_ready n) (lock_cnt n) (grace_time n) (hit_count n) (creation_time n) (last_access_time n) (parent n) (children n) v (swa_tombstone n) (swa_lock_ref n) (swa_last_access_time n) (swa_lru_prev n) (swa_lru_next n) (on_swa_lru n).
Definition set_swa_tombstone (v : bool) : RadixNode :=
  mkRadixNode (block_hashes n) (physical_blocks n) (is_ready n) (lock_cnt n) (grace_time n) (hit_count n) (creation_time n) (last_access_time n) (parent n) (children n) (swa_host_slot n) v (swa_lock_ref n) (swa_last_access_time n) (swa_lru_prev n) (swa_lru_next n) (on_swa_lru n).
Definition set_swa_lock_ref (v : Z) : RadixNode :=
  mkRadixNode (block_hashes n) (physical_blocks n) (is_ready n) (lock_cnt n) (grace_time n) (hit_count n) (creation_time n) (last_access_time n) (parent n) (children n) (swa_host_slot n) (swa_tombstone n) v (swa_last_access_time n) (swa_lru_prev n) (swa_lru_next n) (on_swa_lru n).
Definition set_swa_last_access_time (v : float) : RadixNode :=
  mkRadixNode (block_hashes n) (physical_blocks n) (is_ready n) (lock_cnt n) (grace_time n) (hit_count n) (creation_time n) (last_access_time n) (parent n) (children n) (swa_host_slot n) (swa_tombstone n) (swa_lock_ref n) v (swa_lru_prev n) (swa_lru_next n) (on_swa_lru n).
Definition set_swa_lru_prev (v : option nat) : RadixNode :=
  mkRadixNode (block_hashes n) (physical_blocks n) (is_ready n) (lock_cnt n) (grace_time n) (hit_count n) (creation_time n) (last_access_time n) (parent n) (children n) (swa_host_slot n) (swa_tombstone n) (swa_lock_ref n) (swa_last_access_time n) v (swa_lru_next n) (on_swa_lru n).
Definition set_swa_lru_next (v : option nat) : RadixNode :=
  mkRadixNode (block_hashes n) (physical_blocks n) (is_ready n) (lock_cnt n) (grace_time n) (hit_count n) (creation_time n) (last_access_time n) (parent n) (children n) (swa_host_slot n) (swa_tombstone n) (swa_lock_ref n) (swa_last_access_time n) (swa_lru_prev n) v (on_swa_lru n).
Definition set_on_swa_lru (v : bool) : RadixNode :=
  mkRadixNode (block_hashes n) (physical_blocks n) (is_ready n) (lock_cnt n) (grace_time n) (hit_count n) (creation_time n) (last_access_time n) (parent n) (children n) (swa_host_slot n) (swa_tombstone n) (swa_lock_ref n) (swa_last_access_time n) (swa_lru_prev n) (swa_lru_next n) v.
End setters.

(** An empty node: the root and the two sentinels of the LRU list. *)
Definition blank_node (grace : float) : RadixNode :=
  mkRadixNode [] [] true 0 grace 0 (f_of_Z 0) (f_of_Z 0) None [] (-1) true 0 (f_of_Z 0) None None false.

Definition node_size (n : RadixNode) : nat := length (block_hashes n).
Definition head_hash (n : RadixNode) : Z := default 0 (head (block_hashes n)).
Definition num_children (n : RadixNode) : nat := length (children n).
Definition is_leaf (n : RadixNode) : bool := (num_children n =? 0)%nat.
Definition is_root (n : RadixNode) : bool := match parent n with None => true | Some _ => false end.
Definition in_use (n : RadixNode) : bool := (0 <? lock_cnt n) || (0 <? swa_lock_ref n) || negb (is_ready n).
Definition evictable (n : RadixNode) : bool := negb (is_root n) && is_leaf n && negb (in_use n).
Definition has_swa (n : RadixNode) : bool := negb (swa_tombstone n) && (0 <=? swa_host_slot n).

Record MatchResult : Type := mkMatchResult {
  num_ready_matched_blocks : nat;
  num_matched_blocks : nat;
  last_ready_node : option nid;
  last_node : option nid;
  last_node_matched_length : nat;
  mr_physical_blocks : list Z;
  last_swa_node : option nid;
  swa_hit_blocks : nat;
}.

Record RadixTreeIndex : Type := mkIndex {
  store : gmap nid RadixNode;
  next_id : nid;
  ticks : nat;
  root_node : nid;
  tokens_per_block : nat;
  leaf_nodes : list (Z * nid);
  max_num_blocks : Z;
  hit_reward_seconds : Z;
  eviction_policy : string;
  protected_threshold : Z;
  _swa_lru_head : nid;
  _swa_lru_tail : nid;
  _freed_swa_slots : list Z;
  _swa_enabled : bool;
}.

Definition nd (t : RadixTreeIndex) (n : nid) : RadixNode := default (blank_node (f_of_Z 0)) (store t !! n).

Definition with_store (f : gmap nid RadixNode → gmap nid RadixNode) (t : RadixTreeIndex) : RadixTreeIndex :=
  mkIndex (f (store t)) (next_id t) (ticks t) (root_node t) (tokens_per_block t) (leaf_nodes t) (max_num_blocks t) (hit_reward_seconds t) (eviction_policy t) (protected_threshold t) (_swa_lru_head t) (_swa_lru_tail t) (_freed_swa_slots t) (_swa_enabled t).
Definition with_next_id (f : nid → nid) (t : RadixTreeIndex) : RadixTreeIndex :=
  mkIndex (store t) (f (next_id t)) (ticks t) (root_node t) (tokens_per_block t) (leaf_nodes t) (max_num_blocks t) (hit_reward_seconds t) (eviction_policy t) (protected_threshold t) (_swa_lru_head t) (_swa_lru_tail t) (_freed_swa_slots t) (_swa_enabled t).
Definition with_ticks (f : nat → nat) (t : RadixTreeIndex) : RadixTreeIndex :=
  mkIndex (store t) (next_id t) (f (ticks t)) (root_node t) (tokens_per_block t) (leaf_nodes t) (max_num_blocks t) (hit_reward_seconds t) (eviction_policy t) (protected_threshold t) (_swa_lru_head t) (_swa_lru_tail t) (_freed_swa_slots t) (_swa_enabled t).
Definition with_root_node (f : nid → nid) (t : RadixTreeIndex) : RadixTreeIndex :=
  mkIndex (store t) (next_id t) (ticks t) (f (root_node t)) (tokens_per_block t) (leaf_nodes t) (max_num_blocks t) (hit_reward_seconds t) (eviction_policy t) (protected_threshold t) (_swa_lru_head t) (_swa_lru_tail t) (_freed_swa_slots t) (_swa_enabled t).
Definition with_leaf_nodes (f : list (Z * nid) → list (Z * nid)) (t : RadixTreeIndex) : RadixTreeIndex :=
  mkIndex (store t) (next_id t) (ticks t) (root_node t) (tokens_per_block t) (f (leaf_nodes t)) (max_num_blocks t) (hit_reward_seconds t) (eviction_policy t) (protected_threshold t) (_swa_lru_head t) (_swa_lru_tail t) (_freed_swa_slots t) (_swa_enabled t).
Definition with__freed_swa_slots (f : list Z → list Z) (t : RadixTreeIndex) : RadixTreeIndex :=
  mkIndex (store t) (next_id t) (ticks t) (root_node t) (tokens_per_block t) (leaf_nodes t) (max_num_blocks t) (hit_reward_seconds t) (eviction_policy t) (protected_threshold t) (_swa_lru_head t) (_swa_lru_tail t) (f (_freed_swa_slots t)) (_swa_enabled t).
Definition with__swa_enabled (f : bool → bool) (t : RadixTreeIndex) : RadixTreeIndex :=
  mkIndex (store t) (next_id t) (ticks t) (root_node t) (tokens_per_block t) (leaf_nodes t) (max_num_blocks t) (hit_reward_seconds t) (eviction_policy t) (protected_threshold t) (_swa_lru_head t) (_swa_lru_tail t) (_freed_swa_slots t) (f (_swa_enabled t)).

Abbreviation Op := (M RadixTreeIndex).

(** Attribute access and mutation of the object [n]. *)
Definition node (n : nid) : Op RadixNode := gets (λ t, nd t n).
Definition upd (n : nid) (f : RadixNode → RadixNode) : Op unit := modify_state (with_store (alter f n)).
(** A new object. *)
Definition alloc (node : RadixNode) : Op nid :=
  t ← get_state;
  put_state (with_next_id S (with_store <[next_id t := node]> t)) ;;
  mret (next_id t).
(** An attribute that must not be [None] because it is dereferenced next. *)
Definition deref {A} (o : option A) : Op A := match o with Some a => mret a | None => raise AttributeError end.
Definition not_none {A} (o : option A) : Op A := match o with Some a => mret a | None => raise AssertionError end.

Section radix.
Context (XXH64 : list Z → Z) (clock : nat → float).

Definition time_time : Op float :=
  t ← get_state; put_state (with_ticks S t) ;; mret (clock (ticks t)).

(** [RadixTreeIndex(...)]: root, then the two sentinels. *)
Definition RadixTreeIndex_init (tpb : nat) (max_blocks reward : Z) (policy : string) (threshold : Z) : RadixTreeIndex :=
  mkIndex
    (<[0%nat := blank_node (clock 0)]>
      (<[1%nat := set_swa_lru_next (blank_node (f_of_Z 0)) (Some 2%nat)]>
        (<[2%nat := set_swa_lru_prev (blank_node (f_of_Z 0)) (Some 1%nat)]> ∅)))
    3%nat 1%nat 0%nat tpb [] max_blocks reward policy threshold 1%nat 2%nat [] false.

Definition reset : Op unit :=
  now ← time_time;
  r ← alloc (blank_node now);
  modify_state (with_root_node (λ _, r)) ;;
  modify_state (with_leaf_nodes (λ _, [])) ;;
  t ← get_state;
  upd (_swa_lru_head t) (λ n, set_swa_lru_next n (Some (_swa_lru_tail t))) ;;
  upd (_swa_lru_tail t) (λ n, set_swa_lru_prev n (Some (_swa_lru_head t))) ;;
  modify_state (with__freed_swa_slots (λ _, [])).

Definition is_empty (t : RadixTreeIndex) : bool := (length (leaf_nodes t) =? 0)%nat.

(** ** The SWA LRU list *)

Definition _swa_lru_remove (n : nid) : Op unit :=
  x ← node n;
  if negb (on_swa_lru x) then mret tt
  else
    prev ← deref (swa_lru_prev x);
    upd prev (λ p, set_swa_lru_next p (swa_lru_next x)) ;;
    x ← node n;
    next ← deref (swa_lru_next x);
    upd next (λ p, set_swa_lru_prev p (swa_lru_prev x)) ;;
    upd n (λ x, set_swa_lru_prev x None) ;;
    upd n (λ x, set_swa_lru_next x None) ;;
    upd n (λ x, set_on_swa_lru x false).

Definition _swa_lru_add_mru (n : nid) : Op unit :=
  x ← node n;
  (if on_swa_lru x then _swa_lru_remove n else mret tt) ;;
  t ← get_state;
  let nxt := swa_lru_next (nd t (_swa_lru_head t)) in
  upd n (λ x, set_swa_lru_prev x (Some (_swa_lru_head t))) ;;
  upd n (λ x, set_swa_lru_next x nxt) ;;
  upd (_swa_lru_head t) (λ h, set_swa_lru_next h (Some n)) ;;
  nxt ← deref nxt;
  upd nxt (λ x, set_swa_lru_prev x (Some n)) ;;
  upd n (λ x, set_on_swa_lru x true).

(** The walk from the tail; the fuel is the number of objects. *)
Fixpoint lru_walk (fuel : nat) (x : option nid) : Op (option nid) :=
  match fuel with
  | O => raise RecursionLimit
  | S fuel =>
      t ← get_state;
      if decide (x = Some (_swa_lru_head t)) then mret None
      else
        x ← deref x;
        if 0 <? swa_lock_ref (nd t x) then lru_walk fuel (swa_lru_prev (nd t x))
        else mret (Some x)
  end.

Definition _swa_lru_get_lru_unlocked : Op (option nid) :=
  t ← get_state;
  lru_walk (S (size (store t))) (swa_lru_prev (nd t (_swa_lru_tail t))).

Definition record_freed_swa_slot (n : nid) : Op unit :=
  x ← node n;
  (if 0 <=? swa_host_slot x then modify_state (with__freed_swa_slots (λ l, l ++ [swa_host_slot x])) else mret tt) ;;
  upd n (λ x, set_swa_host_slot x (-1)) ;;
  upd n (λ x, set_swa_tombstone x true) ;;
  _swa_lru_remove n.

Definition drain_freed_swa_slots : Op (list Z) :=
  t ← get_state;
  modify_state (with__freed_swa_slots (λ _, [])) ;;
  mret (_freed_swa_slots t).

Definition set_swa (n : nid) (slot : Z) : Op unit :=
  t ← get_state;
  assertM (negb (bool_decide (n = root_node t))) ;;
  x ← node n;
  assertM ((swa_host_slot x <? 0) || (swa_host_slot x =? slot)) ;;
  upd n (λ x, set_swa_host_slot x slot) ;;
  upd n (λ x, set_swa_tombstone x false) ;;
  now ← time_time;
  upd n (λ x, set_swa_last_access_time x now) ;;
  _swa_lru_add_mru n ;;
  modify_state (with__swa_enabled (λ _, true)).

Definition promote_swa (n : nid) : Op unit :=
  t ← get_state;
  x ← node n;
  if bool_decide (n = root_node t) || negb (has_swa x) then mret tt
  else
    now ← time_time;
    upd n (λ x, set_swa_last_access_time x now) ;;
    _swa_lru_add_mru n.

(** [RadixNode.merge_child] and [RadixTreeIndex.merge_child]. *)
Definition node_merge_child (n : nid) : Op unit :=
  x ← node n;
  assertM (num_children x =? 1)%nat ;;
  c ← deref (snd <$> head (children x));
  child ← node c;
  upd n (λ x, set_block_hashes x (block_hashes x ++ block_hashes child)) ;;
  upd n (λ x, set_physical_blocks x (physical_blocks x ++ physical_blocks child)) ;;
  upd n (λ x, set_grace_time x (f_max (grace_time x) (grace_time child))) ;;
  upd n (λ x, set_last_access_time x (f_max (last_access_time x) (last_access_time child))) ;;
  upd n (λ x, set_creation_time x (f_min (creation_time x) (creation_time child))) ;;
  upd n (λ x, set_hit_count x (Z.max (hit_count x) (hit_count child))) ;;
  upd n (λ x, set_children x []).

Definition merge_child (n : nid) : Op unit :=
  x ← node n;
  assertM (num_children x =? 1)%nat ;;
  c ← deref (snd <$> head (children x));
  child ← node c;
  let child_slot := swa_host_slot child in
  node_merge_child n ;;
  record_freed_swa_slot n ;;
  if 0 <=? child_slot then
    _swa_lru_remove c ;;
    upd c (λ x, set_swa_host_slot x (-1)) ;;
    upd c (λ x, set_swa_tombstone x true) ;;
    t ← get_state;
    if negb (bool_decide (n = root_node t)) then set_swa n child_slot
    else modify_state (with__freed_swa_slots (λ l, l ++ [child_slot]))
  else mret tt.

(** ** Matching *)

Record MatchState : Type := mkMatchState {
  current_node : nid;
  m_last_ready_node : nid;
  prefix_blocks_num : nat;
  ready_prefix_blocks_num : nat;
  ready_prefix_open : bool;
  m_last_node_matched_length : nat;
  m_physical_blocks : list Z;
  m_last_swa_node : option nid;
  m_swa_hit_blocks : nat;
}.

Definition touch_node (n : nid) : Op unit :=
  t ← get_state;
  now ← time_time;
  let reward := f_of_Z (hit_reward_seconds t) in
  upd n (λ x, set_last_access_time x now) ;;
  upd n (λ x, set_grace_time x (if f_ltb (grace_time x) now then f_add now reward else f_add (grace_time x) reward)) ;;
  upd n (λ x, set_hit_count x (hit_count x + 1)).

(** The step into the child whose head hash matches. *)
Definition descend (x : RadixNode) (c : nid) (m : MatchState) : MatchState :=
  let take_it := ready_prefix_open m && is_ready x in
  let ready := (ready_prefix_blocks_num m + node_size x)%nat in
  mkMatchState c
    (if take_it then current_node m else m_last_ready_node m)
    (prefix_blocks_num m + node_size x)
    (if take_it then ready else ready_prefix_blocks_num m)
    (if take_it then ready_prefix_open m
     else if (0 <? node_size x)%nat then false else ready_prefix_open m)
    (m_last_node_matched_length m)
    (m_physical_blocks m ++ physical_blocks x)
    (if take_it && has_swa x then Some (current_node m) else m_last_swa_node m)
    (if take_it && has_swa x then ready else m_swa_hit_blocks m).

(** [left] after the binary search for the first block that differs. *)
Fixpoint bsearch (fuel : nat) (eq : nat → bool) (left right : nat) : nat :=
  match fuel with
  | O => left
  | S fuel =>
      if (left <? right)%nat then
        let mid := ((left + right) / 2)%nat in
        if eq mid then bsearch fuel eq (S mid) right else bsearch fuel eq left mid
      else left
  end.

(** [current_node.block_hashes[mid] == sequence.get_hash(prefix + mid)] *)
Definition same_block (x : RadixNode) (sequence : SequenceMeta) (prefix mid : nat) : bool :=
  bool_decide (block_hashes x !! mid = get_hash sequence (prefix + mid)).

Definition matched_in (x : RadixNode) (sequence : SequenceMeta) (prefix : nat) : nat :=
  let cmp_length := Nat.min (node_size x) (num_blocks sequence - prefix) in
  bsearch (S cmp_length) (same_block x sequence prefix) 0 cmp_length.

(** The last node: how much of it matches. *)
Definition stop_at (x : RadixNode) (sequence : SequenceMeta) (m : MatchState) : MatchState :=
  let matched := if is_root x then 0%nat else matched_in x sequence (prefix_blocks_num m) in
  let take_it := ready_prefix_open m && is_ready x in
  let ready := (ready_prefix_blocks_num m + matched)%nat in
  let swa_hit := take_it && (matched =? node_size x)%nat && has_swa x in
  mkMatchState (current_node m)
    (if take_it then current_node m else m_last_ready_node m)
    (prefix_blocks_num m + matched)
    (if take_it then ready else ready_prefix_blocks_num m)
    (if take_it then ready_prefix_open m else if (0 <? matched)%nat then false else ready_prefix_open m)
    matched
    (m_physical_blocks m ++ (if is_root x then [] else take matched (physical_blocks x)))
    (if swa_hit then Some (current_node m) else m_last_swa_node m)
    (if swa_hit then ready else m_swa_hit_blocks m).

Fixpoint match_loop (fuel : nat) (sequence : SequenceMeta) (update_cache_info : bool) (m : MatchState) : Op MatchState :=
  match fuel with
  | O => raise RecursionLimit
  | S fuel =>
      if (prefix_blocks_num m <? num_blocks sequence)%nat then
        (if update_cache_info then touch_node (current_node m) else mret tt) ;;
        x ← node (current_node m);
        match get_hash sequence (prefix_blocks_num m + node_size x) ≫= λ h, dict_get h (children x) with
        | Some c => match_loop fuel sequence update_cache_info (descend x c m)
        | None => mret (stop_at x sequence m)
        end
      else mret m
  end.

Definition match_prefix (sequence : SequenceMeta) (update_cache_info : bool) : Op MatchResult :=
  let sequence := SequenceMeta_gen_hashes XXH64 sequence in
  t ← get_state;
  m ← match_loop (num_blocks sequence + 2) sequence update_cache_info
        (mkMatchState (root_node t) (root_node t) 0 0 true 0 [] None 0);
  (match m_last_swa_node m with
   | Some n => if update_cache_info then promote_swa n else mret tt
   | None => mret tt
   end) ;;
  mret {| num_ready_matched_blocks := ready_prefix_blocks_num m;
          num_matched_blocks := prefix_blocks_num m;
          last_ready_node := Some (m_last_ready_node m);
          last_node := Some (current_node m);
          last_node_matched_length := m_last_node_matched_length m;
          mr_physical_blocks := m_physical_blocks m;
          last_swa_node := m_last_swa_node m;
          swa_hit_blocks := m_swa_hit_blocks m |}.

Definition index_num_matched_blocks (sequence : SequenceMeta) : Op nat :=
  r ← match_prefix sequence true; mret (num_matched_blocks r).

(** ** Insertion *)

(** [RadixNode.split]: the new prefix node, with fresh lock count, children and SWA state. *)
Definition split (n : nid) (prefix_length : nat) : Op nid :=
  x ← node n;
  assertM (prefix_length <? node_size x)%nat ;;
  assertM (0 <? prefix_length)%nat ;;
  parent_ ← not_none (parent x);
  new_node ← alloc
    (mkRadixNode (take prefix_length (block_hashes x)) (take prefix_length (physical_blocks x)) (is_ready x) 0
       (grace_time x) (hit_count x) (creation_time x) (last_access_time x) None [] (-1) true 0 (f_of_Z 0) None None false);
  upd n (λ x, set_block_hashes x (drop prefix_length (block_hashes x))) ;;
  upd n (λ x, set_physical_blocks x (drop prefix_length (physical_blocks x))) ;;
  w ← node new_node;
  upd parent_ (λ p, set_children p (dict_set (head_hash w) new_node (children p))) ;;
  upd new_node (λ w, set_parent w (Some parent_)) ;;
  upd n (λ x, set_parent x (Some new_node)) ;;
  x ← node n;
  upd new_node (λ w, set_children w (dict_set (head_hash x) n (children w))) ;;
  mret new_node.

(** The root of a node: the fuel is the number of objects. *)
Fixpoint anchor_root (fuel : nat) (n : nid) : Op nid :=
  match fuel with
  | O => raise RecursionLimit
  | S fuel =>
      x ← node n;
      match parent x with None => mret n | Some p => anchor_root fuel p end
  end.

Definition conflict : exn := RuntimeError "radix insert conflict: stale match result; rematch before retrying".
Definition child_conflict : exn :=
  RuntimeError "radix insert conflict: target child already exists; rematch before retrying".

Definition raise_if (b : bool) (e : exn) : Op unit := if b then raise e else mret tt.

Definition _validate_insert_target (sequence : SequenceMeta) (last : nid) (matched last_matched : nat) : Op unit :=
  t ← get_state;
  x ← node last;
  let node_size_ := node_size x in
  r ← anchor_root (S (size (store t))) last;
  raise_if (negb (bool_decide (r = root_node t))) conflict ;;
  (if is_root x then
     raise_if (negb (last_matched =? 0)%nat || negb (matched =? 0)%nat) conflict
   else
     match parent x with
     | None => raise conflict
     | Some p =>
         p ← node p;
         raise_if (negb (bool_decide (dict_get (head_hash x) (children p) = Some last))
                   || (last_matched <=? 0)%nat || (node_size_ <? last_matched)%nat) conflict ;;
         let matched_start := Z.of_nat matched - Z.of_nat last_matched in
         raise_if ((matched_start <? 0)
                   || negb (bool_decide (take last_matched (block_hashes x) =
                        py_slice (Some matched_start) (Some (Z.of_nat matched)) (Block.block_hashes sequence)))) conflict
     end) ;;
  target_hash ← not_none (get_hash sequence matched);
  if (last_matched <? node_size_)%nat then
    raise_if (bool_decide (block_hashes x !! last_matched = Some target_hash)) conflict
  else raise_if (dict_mem target_hash (children x)) child_conflict.

Definition set_leaf (h : Z) (n : nid) : Op unit := modify_state (with_leaf_nodes (dict_set h n)).
Definition pop_leaf (h : Z) : Op unit := modify_state (with_leaf_nodes (dict_pop h)).

(** [insert(...)]; [num_insert_blocks = -1] is the whole sequence. *)
Definition insert (sequence : SequenceMeta) (physical_block_ids : list Z) (num_insert_blocks : Z)
    (ready : bool) (match_result : option MatchResult) : Op (option nid) :=
  let num_insert := if num_insert_blocks =? -1 then Z.of_nat (num_blocks sequence) else num_insert_blocks in
  assertM ((0 <=? num_insert) && (num_insert <=? Z.of_nat (num_blocks sequence))) ;;
  let sequence := SequenceMeta_gen_hashes XXH64 sequence in
  match_result ← match match_result with Some r => mret r | None => match_prefix sequence true end;
  let matched := num_matched_blocks match_result in
  last ← not_none (last_node match_result);
  let last_matched := last_node_matched_length match_result in
  assertM (zlen physical_block_ids =? num_insert - Z.of_nat matched) ;;
  if num_insert <=? Z.of_nat matched then mret None
  else
    _validate_insert_target sequence last matched last_matched ;;
    now ← time_time;
    let hashes := py_slice (Some (Z.of_nat matched)) (Some num_insert) (Block.block_hashes sequence) in
    assertM (length hashes =? length physical_block_ids)%nat ;;
    new_node ← alloc
      (mkRadixNode hashes physical_block_ids ready 0 now 0 now now None [] (-1) true 0 (f_of_Z 0) None None false);
    x ← node last;
    let last_leaf := is_leaf x && negb (is_root x) in
    (if last_leaf then pop_leaf (head_hash x) else mret tt) ;;
    last ← (if (last_matched <? node_size x)%nat then
              split last last_matched ;;
              x ← node last;
              (if last_leaf then set_leaf (head_hash x) last else mret tt) ;;
              not_none (parent x)
            else mret last);
    upd new_node (λ w, set_parent w (Some last)) ;;
    w ← node new_node;
    upd last (λ p, set_children p (dict_set (head_hash w) new_node (children p))) ;;
    set_leaf (head_hash w) new_node ;;
    mret (Some new_node).

(** ** Eviction *)

(** [RadixNode.shrink]: gives up the last [length] blocks. *)
Definition shrink (n : nid) (len : nat) : Op (list Z * list Z) :=
  x ← node n;
  assertM (len <? node_size x)%nat ;;
  assertM (0 <? len)%nat ;;
  assertM (is_leaf x) ;;
  assertM (negb (in_use x)) ;;
  let remaining := (node_size x - len)%nat in
  upd n (λ x, set_block_hashes x (take remaining (block_hashes x))) ;;
  upd n (λ x, set_physical_blocks x (take remaining (physical_blocks x))) ;;
  mret (drop remaining (physical_blocks x), drop remaining (block_hashes x)).

(** Priorities: a float, or a pair compared lexicographically. *)
Inductive Priority : Type :=
  | PFloat (f : float)
  | PPair (i : Z) (f : float).

Definition priority_eqb (a b : Priority) : bool :=
  match a, b with
  | PFloat x, PFloat y => f_eqb x y
  | PPair i x, PPair j y => (i =? j) && f_eqb x y
  | _, _ => false
  end.
Definition priority_ltb (a b : Priority) : bool :=
  match a, b with
  | PFloat x, PFloat y => f_ltb x y
  | PPair i x, PPair j y => if i =? j then f_ltb x y else i <? j
  | _, _ => false
  end.

Definition _get_eviction_priority (t : RadixTreeIndex) (x : RadixNode) : result Priority :=
  let p := eviction_policy t in
  if String.eqb p "lru" then Ok (PFloat (grace_time x))
  else if String.eqb p "lfu" then Ok (PPair (hit_count x) (last_access_time x))
  else if String.eqb p "fifo" then Ok (PFloat (creation_time x))
  else if String.eqb p "mru" then Ok (PFloat (f_opp (last_access_time x)))
  else if String.eqb p "slru" then
    Ok (PPair (if protected_threshold t <=? hit_count x then 1 else 0) (last_access_time x))
  else if String.eqb p "filo" then Ok (PFloat (f_opp (creation_time x)))
  else Raise (ValueError "Unknown eviction policy").

(** [(priority, node) < (priority, node)].  Different priorities decide.  Equal ones
    compare the nodes with the generated [==], which asks numpy for the truth of
    [block_hashes == block_hashes]: an array of one element has one, any other size
    raises.  One-element nodes of a tree have different hashes, so they are ordered by
    [__lt__]; two equal ones do not occur together (the leaf table is keyed by hash). *)
Definition entry_lt (t : RadixTreeIndex) (a b : Priority * nid) : result bool :=
  if priority_eqb a.1 b.1 then
    if decide (a.2 = b.2) then Ok false
    else
      let x := nd t a.2 in let y := nd t b.2 in
      if (node_size x =? 1)%nat && (node_size y =? 1)%nat && negb (head_hash x =? head_hash y)
      then Ok (f_ltb (grace_time x) (grace_time y))
      else Raise (ValueError "The truth value of an array with more than one element is ambiguous")
  else Ok (priority_ltb a.1 b.1).

(** [dict.pop(key)] without a default. *)
Definition pop_child_strict (p : nid) (h : Z) : Op unit :=
  x ← node p;
  if dict_mem h (children x) then upd p (λ x, set_children x (dict_pop h (children x))) else raise KeyError.
Definition pop_child (p : nid) (h : Z) : Op unit := upd p (λ x, set_children x (dict_pop h (children x))).

Definition leaf_if_childless (p : nid) : Op unit :=
  x ← node p;
  if is_leaf x && negb (is_root x) then set_leaf (head_hash x) p else mret tt.

(** Freed blocks, freed hashes and the surviving ancestor.  The hash array starts as an
    empty int64 array: numpy promotes its concatenation with uint64 to float64. *)
Fixpoint delete_tombstones (fuel : nat) (n : option nid) (freed : list Z) (hashes : list float) :
    Op (list Z * list float * option nid) :=
  match fuel with
  | O => raise RecursionLimit
  | S fuel =>
      match n with
      | None => mret (freed, hashes, None)
      | Some n =>
          x ← node n;
          if negb (is_root x) && is_leaf x && swa_tombstone x && (lock_cnt x =? 0) && is_ready x then
            p ← not_none (parent x);
            pop_child p (head_hash x) ;;
            pop_leaf (head_hash x) ;;
            record_freed_swa_slot n ;;
            upd n (λ x, set_parent x None) ;;
            leaf_if_childless p ;;
            delete_tombstones fuel (Some p) (freed ++ physical_blocks x) (hashes ++ (f_of_Z <$> block_hashes x))
          else mret (freed, hashes, Some n)
      end
  end.

Definition _iteratively_delete_tombstone_leaf (n : nid) : Op (list Z * list float * option nid) :=
  t ← get_state; delete_tombstones (S (size (store t))) (Some n) [] [].

Definition candidate (acc : list (Priority * nid)) (n : nid) : Op (list (Priority * nid)) :=
  x ← node n;
  if evictable x then
    t ← get_state;
    p ← lift_result (_get_eviction_priority t x);
    mret (acc ++ [(p, n)])
  else mret acc.

Definition EvictState : Type := list (Priority * nid) * list Z * list float.

Definition evict_step (num_evicted : Z) (st : EvictState) : Op EvictState :=
  let '(candidates, blocks, hashes) := st in
  t ← get_state;
  '((_, n), candidates) ← lift_result (heappop (entry_lt t) candidates);
  x ← node n;
  let want := num_evicted - zlen blocks in
  if want <? Z.of_nat (node_size x) then
    '(b, h) ← shrink n (Z.to_nat want);
    record_freed_swa_slot n ;;
    mret (candidates, blocks ++ b, hashes ++ (f_of_Z <$> h))
  else
    p ← not_none (parent x);
    pop_child_strict p (head_hash x) ;;
    pop_leaf (head_hash x) ;;
    let b := physical_blocks x in let h := f_of_Z <$> block_hashes x in
    record_freed_swa_slot n ;;
    upd n (λ x, set_parent x None) ;;
    leaf_if_childless p ;;
    t ← get_state;
    '(b, h, p) ← (if _swa_enabled t then
                    '(cb, ch, p) ← _iteratively_delete_tombstone_leaf p;
                    mret (b ++ cb, h ++ ch, p)
                  else mret (b, h, Some p));
    candidates ← match p with
      | None => mret candidates
      | Some p =>
          y ← node p;
          if evictable y then
            t ← get_state;
            pr ← lift_result (_get_eviction_priority t y);
            lift_result (heappush (entry_lt t) (pr, p) candidates)
          else mret candidates
      end;
    mret (candidates, blocks ++ b, hashes ++ h).

Fixpoint evict_loop (fuel : nat) (num_evicted : Z) (st : EvictState) : Op EvictState :=
  match fuel with
  | O => raise RecursionLimit
  | S fuel =>
      let '(candidates, blocks, _) := st in
      if (zlen blocks <? num_evicted) && negb (length candidates =? 0)%nat
      then st ← evict_step num_evicted st; evict_loop fuel num_evicted st
      else mret st
  end.

Definition evict (num_evicted : Z) : Op (list Z * list float) :=
  t ← get_state;
  candidates ← for_acc candidate [] (leaf_nodes t).*2;
  t ← get_state;
  candidates ← lift_result (heapify (entry_lt t) candidates);
  '(_, blocks, hashes) ← evict_loop (S (size (store t))) num_evicted (candidates, [], []);
  mret (blocks, hashes).

Fixpoint evict_swa_loop (fuel : nat) (num_swa_evicted : Z) (blocks : list Z) (freed : Z) : Op (list Z * Z) :=
  match fuel with
  | O => raise RecursionLimit
  | S fuel =>
      if freed <? num_swa_evicted then
        x ← _swa_lru_get_lru_unlocked;
        match x with
        | None => mret (blocks, freed)
        | Some n =>
            x ← node n;
            assertM (has_swa x) ;;
            if negb (is_leaf x) || (0 <? lock_cnt x) then
              record_freed_swa_slot n ;;
              evict_swa_loop fuel num_swa_evicted blocks (freed + 1)
            else
              record_freed_swa_slot n ;;
              p ← not_none (parent x);
              pop_child_strict p (head_hash x) ;;
              pop_leaf (head_hash x) ;;
              upd n (λ x, set_parent x None) ;;
              leaf_if_childless p ;;
              '(cb, _, _) ← _iteratively_delete_tombstone_leaf p;
              evict_swa_loop fuel num_swa_evicted (blocks ++ physical_blocks x ++ cb) (freed + 1)
        end
      else mret (blocks, freed)
  end.

Definition evict_swa (num_swa_evicted : Z) : Op (list Z * Z) :=
  evict_swa_loop (S (Z.to_nat num_swa_evicted)) num_swa_evicted [] 0.

Definition remove_unready_leaf (n : option nid) : Op (list Z) :=
  match n with
  | None => mret []
  | Some n =>
      x ← node n;
      if is_root x || is_ready x || (0 <? lock_cnt x) || (0 <? swa_lock_ref x) || negb (is_leaf x) then mret []
      else
        p ← not_none (parent x);
        pop_child p (head_hash x) ;;
        pop_leaf (head_hash x) ;;
        record_freed_swa_slot n ;;
        upd n (λ x, set_parent x None) ;;
        leaf_if_childless p ;;
        t ← get_state;
        if _swa_enabled t then
          '(cb, _, _) ← _iteratively_delete_tombstone_leaf p;
          mret (physical_blocks x ++ cb)
        else mret (physical_blocks x)
  end.

(** ** Locks *)

Definition lock (n : nid) : Op unit :=
  x ← node n; assertM (0 <=? lock_cnt x) ;; upd n (λ x, set_lock_cnt x (lock_cnt x + 1)).
Definition unlock (n : nid) : Op unit :=
  x ← node n; assertM (0 <? lock_cnt x) ;; upd n (λ x, set_lock_cnt x (lock_cnt x - 1)).
Definition inc_swa_lock_ref (n : nid) : Op unit := upd n (λ x, set_swa_lock_ref x (swa_lock_ref x + 1)).
Definition dec_swa_lock_ref (n : nid) : Op unit :=
  x ← node n; assertM (0 <? swa_lock_ref x) ;; upd n (λ x, set_swa_lock_ref x (swa_lock_ref x - 1)).

Fixpoint inc_lock_loop (fuel : nat) (cur : option nid) (swa_boundary : option nid) : Op (option nid) :=
  match fuel with
  | O => raise RecursionLimit
  | S fuel =>
      match cur with
      | None => mret swa_boundary
      | Some n =>
          x ← node n;
          if is_root x then mret swa_boundary
          else
            upd n (λ x, set_lock_cnt x (lock_cnt x + 1)) ;;
            swa_boundary ←
              (if negb (bool_decide (is_Some swa_boundary)) && has_swa x then
                 upd n (λ x, set_swa_lock_ref x (swa_lock_ref x + 1)) ;;
                 x ← node n;
                 assertM (swa_lock_ref x <=? lock_cnt x) ;;
                 mret (Some n)
               else mret swa_boundary);
            inc_lock_loop fuel (parent x) swa_boundary
      end
  end.
Definition inc_lock_ref (n : nid) : Op (option nid) :=
  t ← get_state; inc_lock_loop (S (size (store t))) (Some n) None.

Fixpoint dec_lock_loop (fuel : nat) (cur swa_boundary : option nid) (skip_swa : bool) : Op unit :=
  match fuel with
  | O => raise RecursionLimit
  | S fuel =>
      match cur with
      | None => mret tt
      | Some n =>
          x ← node n;
          if is_root x then mret tt
          else
            assertM (0 <? lock_cnt x) ;;
            upd n (λ x, set_lock_cnt x (lock_cnt x - 1)) ;;
            (if negb skip_swa && bool_decide (Some n = swa_boundary) && (0 <? swa_lock_ref x)
             then upd n (λ x, set_swa_lock_ref x (swa_lock_ref x - 1)) else mret tt) ;;
            y ← node n;
            assertM (swa_lock_ref y <=? lock_cnt y) ;;
            dec_lock_loop fuel (parent x) swa_boundary skip_swa
      end
  end.
Definition dec_lock_ref (n : nid) (swa_boundary : option nid) (skip_swa : bool) : Op unit :=
  t ← get_state; dec_lock_loop (S (size (store t))) (Some n) swa_boundary skip_swa.

Definition dec_swa_lock_only (swa_boundary : option nid) : Op unit :=
  match swa_boundary with
  | None => mret tt
  | Some n =>
      x ← node n;
      assertM (0 <? swa_lock_ref x) ;;
      upd n (λ x, set_swa_lock_ref x (swa_lock_ref x - 1)) ;;
      x ← node n;
      if (swa_lock_ref x =? 0) && has_swa x && is_leaf x then record_freed_swa_slot n else mret tt
  end.

(** ** Readiness *)

Fixpoint set_ready_loop (fuel : nat) (n : nid) (ready_length : Z) : Op unit :=
  match fuel with
  | O => raise RecursionLimit
  | S fuel =>
      if 0 <? ready_length then
        x ← node n;
        p ← not_none (parent x);
        y ← node p;
        upd p (λ y, set_is_ready y true) ;;
        set_ready_loop fuel p (ready_length - Z.of_nat (node_size y))
      else assertM (ready_length =? 0)
  end.

Definition set_ready (n : nid) (ready : bool) (ready_length : Z) : Op unit :=
  upd n (λ x, set_is_ready x ready) ;;
  if 0 <? ready_length then
    t ← get_state;
    x ← node n;
    set_ready_loop (S (size (store t))) n (ready_length - Z.of_nat (node_size x))
  else mret tt.

(** ** Totals: breadth-first sums *)

Fixpoint bfs_sum (fuel : nat) (f : RadixNode → Z) (t : RadixTreeIndex) (queue : list nid) (acc : Z) : result Z :=
  match fuel with
  | O => Raise RecursionLimit
  | S fuel =>
      match queue with
      | [] => Ok acc
      | n :: queue => bfs_sum fuel f t (queue ++ (children (nd t n)).*2) (acc + f (nd t n))
      end
  end.
Definition bfs (f : RadixNode → Z) (init : Z) (t : RadixTreeIndex) : result Z :=
  bfs_sum (S (size (store t))) f t [root_node t] init.

Definition total_cached_blocks : RadixTreeIndex → result Z := bfs (λ x, Z.of_nat (node_size x)) 0.
Definition total_node_num : RadixTreeIndex → result Z := bfs (λ _, 1) (-1).
Definition total_swa_slots : RadixTreeIndex → result Z := bfs (λ x, if has_swa x then 1 else 0) 0.
Definition total_ready_blocks : RadixTreeIndex → result Z :=
  bfs (λ x, if is_ready x then Z.of_nat (node_size x) else 0) 0.
Definition total_unready_blocks (t : RadixTreeIndex) : result Z :=
  a ← total_cached_blocks t; b ← total_ready_blocks t; mret (a - b).

End radix.
End RadixTree.
