(* ===== verification/RadixCore.v ===== *)
(** * The shape of a radix tree

    The part of the nodes that makes the tree: hashes, blocks, parent and
    children, as a finite map from node ids ([shapes] of [RadixWf] projects the
    store to it).  [core] is the well-formedness of that map; every hash has at
    most one place in a well-formed tree ([loc_inj]), so the tree denotes a
    partial function from prefix hashes to physical blocks ([maps]), closed
    under prefixes.

    The four mutations of the code are studied here once, on the map: splitting
    a node, linking a new leaf, unlinking a leaf, shortening a leaf. *)

From S2P Require Import Prelude Block.
Local Open Scope Z_scope.

Abbreviation nid := nat.

Record shape : Type := Sh {
  s_bh : list Z;
  s_pb : list Z;
  s_parent : option nid;
  s_children : list (Z * nid);
}.

Abbreviation Shapes := (gmap nid shape).

(** Reachable from the root through the children tables. *)
Inductive in_tree (root : nid) (S : Shapes) : nid → Prop :=
  | in_root : in_tree root S root
  | in_child p sp h c :
      in_tree root S p → S !! p = Some sp → dict_get h (s_children sp) = Some c → in_tree root S c.

Section core.
Context `{!PrefixHash}.

Record core (root : nid) (S : Shapes) : Prop := {
  co_root : ∃ s, S !! root = Some s ∧ s_bh s = [] ∧ s_pb s = [] ∧ s_parent s = None;
  (* a child knows its parent, is filed under its first hash and continues the parent's run *)
  co_child : ∀ p sp h c, in_tree root S p → S !! p = Some sp → dict_get h (s_children sp) = Some c →
    ∃ sc, S !! c = Some sc ∧ s_parent sc = Some p ∧ head (s_bh sc) = Some h ∧ chained (last (s_bh sp)) (s_bh sc);
  co_len : ∀ n s, in_tree root S n → S !! n = Some s → length (s_bh s) = length (s_pb s);
  co_dict : ∀ n s, in_tree root S n → S !! n = Some s → dict_wf (s_children s);
  (* no node outside the tree points into it *)
  co_up : ∀ n s p, S !! n = Some s → s_parent s = Some p → in_tree root S p →
    ∃ sp h, S !! p = Some sp ∧ head (s_bh s) = Some h ∧ dict_get h (s_children sp) = Some n;
  (* parent pointers have no cycle *)
  co_depth : ∃ d : nid → nat, ∀ n s p, S !! n = Some s → s_parent s = Some p → (d p < d n)%nat ∧ is_Some (S !! p);
}.

Section facts.
Context (root : nid) (S : Shapes) (Hc : core root S).
Local Abbreviation tree := (in_tree root S).

Lemma in_tree_live n : tree n → ∃ s, S !! n = Some s.
Proof.
  destruct 1 as [|p sp h c Hp Hs Hch].
  - destruct (co_root _ _ Hc) as (s & ? & _). by exists s.
  - destruct (co_child _ _ Hc _ _ _ _ Hp Hs Hch) as (sc & ? & _). by exists sc.
Qed.

(** A node of the tree other than the root hangs under its parent. *)
Lemma in_tree_parent n s :
  tree n → S !! n = Some s → n ≠ root →
  ∃ p sp h, s_parent s = Some p ∧ tree p ∧ S !! p = Some sp ∧ head (s_bh s) = Some h ∧
    dict_get h (s_children sp) = Some n ∧ chained (last (s_bh sp)) (s_bh s).
Proof.
  destruct 1 as [|p sp h c Hp Hsp Hch]; intros Hs Hne; [done|].
  destruct (co_child _ _ Hc _ _ _ _ Hp Hsp Hch) as (sc & Hsc & Hpa & Hh & Hchain). simplify_eq.
  by exists p, sp, h.
Qed.

Lemma root_iff n s : tree n → S !! n = Some s → s_parent s = None ↔ n = root.
Proof.
  intros Hn Hs. split.
  - intros Hp. destruct (decide (n = root)) as [|Hne]; [done|].
    destruct (in_tree_parent _ _ Hn Hs Hne) as (p & sp & h & ? & _). congruence.
  - intros ->. destruct (co_root _ _ Hc) as (s' & ? & _ & _ & ?). congruence.
Qed.

Lemma nonroot_nonempty n s : tree n → S !! n = Some s → n ≠ root → s_bh s ≠ [].
Proof.
  intros Hn Hs Hne. destruct (in_tree_parent _ _ Hn Hs Hne) as (p & sp & h & _ & _ & _ & Hh & _).
  by destruct (s_bh s).
Qed.

Lemma root_empty s : S !! root = Some s → s_bh s = [] ∧ s_pb s = [] ∧ s_parent s = None.
Proof. intros Hs. destruct (co_root _ _ Hc) as (s' & ? & ? & ? & ?). by simplify_eq. Qed.

Lemma parent_ne n s p : S !! n = Some s → s_parent s = Some p → p ≠ n.
Proof.
  intros Hs Hp ->. destruct (co_depth _ _ Hc) as [d Hd]. destruct (Hd _ _ _ Hs Hp). lia.
Qed.

Lemma last_lookup_size {A} (l : list A) x : last l = Some x → l !! (length l - 1)%nat = Some x.
Proof. rewrite last_lookup. by rewrite Nat.sub_1_r. Qed.

(** The predecessor of a hash of the tree is the hash before it, in the node or at the end of the parent. *)
Lemma pred_place n s i h :
  tree n → S !! n = Some s → s_bh s !! i = Some h →
  match i with
  | O => ∃ p sp, tree p ∧ S !! p = Some sp ∧ dict_get h (s_children sp) = Some n ∧ ph_pred h = last (s_bh sp) ∧
           (last (s_bh sp) = None → p = root)
  | Datatypes.S j => ∃ g, s_bh s !! j = Some g ∧ ph_pred h = Some g
  end.
Proof.
  intros Hn Hs Hi. assert (n ≠ root) as Hne.
  { intros ->. destruct (root_empty _ Hs) as (E & _). by rewrite E in Hi. }
  destruct (in_tree_parent _ _ Hn Hs Hne) as (p & sp & h0 & Hpa & Hp & Hsp & Hh & Hd & Hch).
  pose proof (chained_lookup_pred _ _ _ _ Hch Hi) as Hpred. destruct i as [|j].
  - exists p, sp. assert (h0 = h) as -> by (destruct (s_bh s); simplify_eq/=; done).
    split_and!; [done..|]. intros Hl. destruct (decide (p = root)) as [|Hpr]; [done|].
    destruct (nonroot_nonempty _ _ Hp Hsp Hpr). by apply last_None.
  - destruct (lookup_lt_is_Some_2 (s_bh s) j) as [g Hg]; [apply lookup_lt_Some in Hi; lia|].
    exists g. by rewrite Hg in Hpred.
Qed.

(** Every hash has one place. *)
Lemma loc_inj h : ∀ n m sn sm i j,
  tree n → tree m → S !! n = Some sn → S !! m = Some sm →
  s_bh sn !! i = Some h → s_bh sm !! j = Some h → n = m ∧ i = j.
Proof.
  induction h as [h IH] using (induction_ltof1 _ ph_depth). unfold ltof in IH.
  intros n m sn sm i j Hn Hm Hsn Hsm Hi Hj.
  pose proof (pred_place _ _ _ _ Hn Hsn Hi) as Pn. pose proof (pred_place _ _ _ _ Hm Hsm Hj) as Pm.
  destruct i as [|i], j as [|j].
  - destruct Pn as (p & sp & Hp & Hsp & Hpc & Hpp & Hpl), Pm as (q & sq & Hq & Hsq & Hqc & Hqp & Hql).
    split; [|done]. assert (p = q) as ->.
    { destruct (last (s_bh sp)) as [g|] eqn:Eg.
      - rewrite Hpp in Hqp. symmetry in Hqp.
        destruct (IH g (ph_pred_depth _ _ Hpp) p q sp sq (length (s_bh sp) - 1)%nat (length (s_bh sq) - 1)%nat Hp Hq Hsp Hsq) as [? _]; [by apply last_lookup_size..|done].
      - rewrite (Hpl eq_refl). rewrite Hpp in Hqp. by rewrite (Hql (eq_sym Hqp)). }
    by simplify_eq.
  - destruct Pn as (p & sp & Hp & Hsp & Hpc & Hpp & Hpl), Pm as (g & Hg & Hgp). rewrite Hgp in Hpp. symmetry in Hpp.
    destruct (IH g (ph_pred_depth _ _ Hgp) p m sp sm _ _ Hp Hm Hsp Hsm (last_lookup_size _ _ Hpp) Hg) as [-> E].
    simplify_eq. apply lookup_lt_Some in Hj. lia.
  - destruct Pm as (p & sp & Hp & Hsp & Hpc & Hpp & Hpl), Pn as (g & Hg & Hgp). rewrite Hgp in Hpp. symmetry in Hpp.
    destruct (IH g (ph_pred_depth _ _ Hgp) p n sp sn _ _ Hp Hn Hsp Hsn (last_lookup_size _ _ Hpp) Hg) as [-> E].
    simplify_eq. apply lookup_lt_Some in Hi. lia.
  - destruct Pn as (g & Hg & Hgp), Pm as (g' & Hg' & Hgp'). rewrite Hgp in Hgp'. injection Hgp' as <-.
    destruct (IH g (ph_pred_depth _ _ Hgp) n m sn sm _ _ Hn Hm Hsn Hsm Hg Hg') as [-> ->]. done.
Qed.

(** The place of a hash determines the child it can start. *)
Lemma child_place p sp h c n s i :
  tree p → S !! p = Some sp → dict_get h (s_children sp) = Some c →
  tree n → S !! n = Some s → s_bh s !! i = Some h → n = c ∧ i = 0%nat.
Proof.
  intros Hp Hsp Hch Hn Hs Hi. destruct (co_child _ _ Hc _ _ _ _ Hp Hsp Hch) as (sc & Hsc & _ & Hh & _).
  apply (loc_inj h n c s sc i 0%nat); try done; [exact (in_child _ _ p sp h c Hp Hsp Hch)|]. by destruct (s_bh sc).
Qed.
End facts.

(** ** The function a tree denotes *)

Definition maps (root : nid) (S : Shapes) (h b : Z) : Prop :=
  ∃ n s i, in_tree root S n ∧ S !! n = Some s ∧ s_bh s !! i = Some h ∧ s_pb s !! i = Some b.

Lemma maps_fun root S h b b' : core root S → maps root S h b → maps root S h b' → b = b'.
Proof.
  intros Hc (n & s & i & Hn & Hs & Hi & Hb) (m & sm & j & Hm & Hsm & Hj & Hb').
  destruct (loc_inj _ _ Hc h n m s sm i j) as [-> ->]; try done. by simplify_eq.
Qed.

(** A hash with a place is mapped. *)
Lemma placed_maps root S n s i h :
  core root S → in_tree root S n → S !! n = Some s → s_bh s !! i = Some h → ∃ b, maps root S h b.
Proof.
  intros Hc Hn Hs Hi. destruct (lookup_lt_is_Some_2 (s_pb s) i) as [b Hb].
  { rewrite <- (co_len _ _ Hc _ _ Hn Hs). by eapply lookup_lt_Some. }
  exists b, n, s, i. done.
Qed.

(** Mapped hashes are closed under prefixes. *)
Lemma maps_pred root S h b g : core root S → maps root S h b → ph_pred h = Some g → ∃ b', maps root S g b'.
Proof.
  intros Hc (n & s & i & Hn & Hs & Hi & _) Hp. pose proof (pred_place _ _ Hc _ _ _ _ Hn Hs Hi) as P.
  destruct i as [|i].
  - destruct P as (p & sp & Htp & Hsp & _ & E & _). rewrite Hp in E. symmetry in E.
    eapply placed_maps; [done|done|done|by apply last_lookup_size].
  - destruct P as (g' & Hg & E). rewrite Hp in E. injection E as <-. by eapply placed_maps.
Qed.
End core.

(** ** Mutations *)
Section mutations.
Context `{!PrefixHash}.
Implicit Types (S : Shapes) (n p w x : nid).

(** *** Splitting [n], with parent [p], after [k] blocks; [w] is the new prefix node *)
Section split.
Context (root : nid) (S : Shapes) (Hc : core root S) (n p w : nid) (s sp : shape) (h h2 : Z) (k : nat).
Hypothesis Hn : in_tree root S n.
Hypothesis Hs : S !! n = Some s.
Hypothesis Hsp : S !! p = Some sp.
Hypothesis Hp : s_parent s = Some p.
Hypothesis Hh : head (s_bh s) = Some h.
Hypothesis Hk : (0 < k < length (s_bh s))%nat.
Hypothesis Hh2 : head (drop k (s_bh s)) = Some h2.
Hypothesis Hw : S !! w = None.

Definition split_map : Shapes :=
  <[w := Sh (take k (s_bh s)) (take k (s_pb s)) (Some p) [(h2, n)]]>
    (<[n := Sh (drop k (s_bh s)) (drop k (s_pb s)) (Some w) (s_children s)]>
      (<[p := Sh (s_bh sp) (s_pb sp) (s_parent sp) (dict_set h w (s_children sp))]> S)).

Lemma split_pn : p ≠ n. Proof using All. by eapply parent_ne. Qed.
Lemma split_wn : w ≠ n. Proof using All. intros ->. congruence. Qed.
Lemma split_wp : w ≠ p. Proof using All. intros ->. congruence. Qed.

Lemma split_lookup x :
  split_map !! x =
    if decide (x = w) then Some (Sh (take k (s_bh s)) (take k (s_pb s)) (Some p) [(h2, n)])
    else if decide (x = n) then Some (Sh (drop k (s_bh s)) (drop k (s_pb s)) (Some w) (s_children s))
    else if decide (x = p) then Some (Sh (s_bh sp) (s_pb sp) (s_parent sp) (dict_set h w (s_children sp)))
    else S !! x.
Proof.
  unfold split_map. rewrite !lookup_insert. repeat case_decide; congruence.
Qed.

Lemma split_nroot : n ≠ root.
Proof using All. intros ->. destruct (root_empty _ _ Hc _ Hs) as (E & _). rewrite E in Hh. done. Qed.

Lemma split_parent : in_tree root S p ∧ dict_get h (s_children sp) = Some n ∧ chained (last (s_bh sp)) (s_bh s).
Proof using All.
  destruct (in_tree_parent _ _ Hc _ _ Hn Hs split_nroot) as (p' & sp' & h' & ? & ? & ? & ? & ? & ?). by simplify_eq.
Qed.

(** Old entries survive up to the two that changed. *)
Lemma split_old x sx :
  S !! x = Some sx → x ≠ w ∧ ∃ sx', split_map !! x = Some sx' ∧
    (x ≠ n → s_bh sx' = s_bh sx ∧ s_pb sx' = s_pb sx ∧ s_parent sx' = s_parent sx).
Proof using All.
  intros Hx. split; [intros ->; congruence|]. rewrite split_lookup.
  rewrite decide_False by (intros ->; congruence).
  destruct (decide (x = n)); [by eexists|]. destruct (decide (x = p)) as [->|]; [|by eexists].
  simplify_eq. by eexists.
Qed.

Lemma split_in_tree_2 x : in_tree root S x → in_tree root split_map x.
Proof using All.
  induction 1 as [|q sq hq c Hq IH Hsq Hch]; [constructor|].
  assert (q ≠ w) by (intros ->; congruence).
  destruct (decide (q = n)) as [->|Hqn].
  { eapply in_child; [done| |]; [rewrite split_lookup, decide_False, decide_True by done; reflexivity|].
    by simplify_eq. }
  destruct (decide (q = p)) as [->|Hqp].
  - assert (split_map !! p = Some (Sh (s_bh sp) (s_pb sp) (s_parent sp) (dict_set h w (s_children sp)))) as Hp'.
    { rewrite split_lookup, !decide_False, decide_True by done. done. }
    simplify_eq. destruct (decide (h = hq)) as [<-|Hne].
    + assert (c = n) as -> by (destruct split_parent as (_ & ? & _); congruence).
      eapply in_child; [eapply in_child; [exact IH|exact Hp'|apply dict_get_set_eq]| |].
      * rewrite split_lookup, decide_True by done. reflexivity.
      * simpl. by rewrite decide_True.
    + eapply in_child; [exact IH|exact Hp'|]. simpl. by rewrite dict_get_set_ne.
  - eapply in_child; [exact IH| |exact Hch]. by rewrite split_lookup, !decide_False.
Qed.

Lemma split_in_w : in_tree root split_map w.
Proof using All.
  eapply (in_child _ _ p); [apply split_in_tree_2, split_parent| |].
  - rewrite split_lookup, !decide_False, decide_True by (done || apply split_pn || (intros E; by apply split_wp)).
    reflexivity.
  - simpl. apply dict_get_set_eq.
Qed.

Lemma split_in_tree x : in_tree root split_map x ↔ in_tree root S x ∨ x = w.
Proof using All.
  split; [|intros [?| ->]; [by apply split_in_tree_2|apply split_in_w]].
  induction 1 as [|q sq hq c Hq IH Hsq Hch]; [left; constructor|].
  rewrite split_lookup in Hsq. repeat case_decide; simplify_eq/=.
  - case_decide; [|done]. simplify_eq. by left.
  - destruct IH as [IH|]; [|done]. left. by eapply in_child.
  - rewrite dict_get_set in Hch. case_decide; simplify_eq; [by right|]. left. eapply in_child; [apply split_parent|done|done].
  - destruct IH as [IH|]; [|done]. left. by eapply in_child.
Qed.

Lemma split_core : core root split_map.
Proof using All.
  destruct split_parent as (Htp & Hcp & Hchain).
  pose proof split_pn as Hpn. pose proof split_wn as Hwn. pose proof split_wp as Hwp. pose proof split_nroot as Hnr.
  rewrite <- (take_drop k (s_bh s)) in Hchain at 1. apply chained_app in Hchain as [Hch1 Hch2].
  assert (last_or (last (s_bh sp)) (take k (s_bh s)) = last (take k (s_bh s))) as Hlo.
  { unfold last_or. destruct (last (take k (s_bh s))) eqn:E; [done|]. apply last_None in E.
    apply (f_equal length) in E. rewrite length_take in E. simpl in E. lia. }
  rewrite Hlo in Hch2.
  assert (last (drop k (s_bh s)) = last (s_bh s)) as Hld.
  { rewrite <- (take_drop k (s_bh s)) at 2. rewrite last_app. destruct (last (drop k (s_bh s))) eqn:E; [done|].
    apply last_None in E. rewrite E in Hh2. done. }
  assert (head (take k (s_bh s)) = Some h) as Hht.
  { destruct k as [|k']; [lia|]. destruct (s_bh s); [done|]. exact Hh. }
  split.
  - destruct (co_root _ _ Hc) as (sr & Hsr & Hr1 & Hr2 & Hr3). destruct (split_old _ _ Hsr) as (_ & sr' & Hsr' & Hsame).
    destruct Hsame as (E1 & E2 & E3); [done|]. exists sr'. by rewrite E1, E2, E3.
  - intros q sq hq c Hq Hsq Hch.
    assert (∀ sq0, in_tree root S q → S !! q = Some sq0 → dict_get hq (s_children sq0) = Some c → c ≠ n →
      ∃ sc, split_map !! c = Some sc ∧ s_parent sc = Some q ∧ head (s_bh sc) = Some hq ∧ chained (last (s_bh sq0)) (s_bh sc)) as Hold.
    { intros sq0 Htq Hsq0 Hch0 Hcn. destruct (co_child _ _ Hc _ _ _ _ Htq Hsq0 Hch0) as (sc & Hsc & ? & ? & ?).
      destruct (split_old _ _ Hsc) as (_ & sc' & Hsc' & Hsame). destruct Hsame as (E1 & _ & E3); [done|].
      exists sc'. by rewrite E1, E3. }
    apply split_in_tree in Hq. rewrite split_lookup in Hsq.
    destruct (decide (q = w)) as [->|Hqw]; [|destruct (decide (q = n)) as [->|Hqn]; [|destruct (decide (q = p)) as [->|Hqp]]].
    + simplify_eq/=. case_decide; simplify_eq. eexists. rewrite split_lookup, decide_False, decide_True by done. by split_and!.
    + simplify_eq/=. rewrite Hld. apply Hold; try done. intros ->.
      destruct (co_child _ _ Hc _ _ _ _ Hn Hs Hch) as (sc & ? & ? & _). simplify_eq.
    + simplify_eq/=. rewrite dict_get_set in Hch. destruct (decide (h = hq)) as [<-|Hne].
      * simplify_eq. eexists. rewrite split_lookup, decide_True by done. by split_and!.
      * apply Hold; try done. intros ->. destruct (co_child _ _ Hc _ _ _ _ Htp Hsp Hch) as (sc & ? & _ & ? & _). simplify_eq.
    + destruct Hq as [Hq|]; [|done]. apply Hold; try done. intros ->.
      destruct (co_child _ _ Hc _ _ _ _ Hq Hsq Hch) as (sc & ? & ? & _). simplify_eq.
  - intros x sx Hx Hsx. apply split_in_tree in Hx. pose proof (co_len _ _ Hc _ _ Hn Hs) as Hl.
    rewrite split_lookup in Hsx. repeat case_decide; simplify_eq/=.
    + rewrite !length_take. lia.
    + rewrite !length_drop. lia.
    + by apply (co_len _ _ Hc p).
    + destruct Hx as [Hx|]; [|done]. by eapply co_len.
  - intros x sx Hx Hsx. apply split_in_tree in Hx. rewrite split_lookup in Hsx. repeat case_decide; simplify_eq/=.
    + apply NoDup_singleton.
    + by apply (co_dict _ _ Hc n).
    + apply dict_wf_set. by apply (co_dict _ _ Hc p).
    + destruct Hx as [Hx|]; [|done]. by eapply co_dict.
  - intros x sx q Hsx Hq Htq. apply split_in_tree in Htq.
    rewrite split_lookup in Hsx.
    assert (∀ sx0, S !! x = Some sx0 → s_parent sx0 = Some q → x ≠ n → in_tree root S q →
      ∃ sq hx, split_map !! q = Some sq ∧ head (s_bh sx0) = Some hx ∧ dict_get hx (s_children sq) = Some x) as Hold.
    { intros sx0 Hx0 Hq0 Hxn Htq0. destruct (co_up _ _ Hc _ _ _ Hx0 Hq0 Htq0) as (sq & hx & Hsq & Hhx & Hd).
      destruct (decide (q = p)) as [->|Hqp].
      - exists (Sh (s_bh sp) (s_pb sp) (s_parent sp) (dict_set h w (s_children sp))), hx.
        rewrite split_lookup, !decide_False, decide_True by done. split_and!; [done|done|]. simplify_eq/=.
        rewrite dict_get_set_ne; [done|]. intros <-. congruence.
      - destruct (split_old _ _ Hsq) as (Hqw & sq' & Hsq' & _). exists sq', hx. split_and!; [done|done|].
        rewrite split_lookup, decide_False in Hsq' by done. rewrite (decide_False (P := q = p)) in Hsq' by done.
        destruct (decide (q = n)) as [->|]; simplify_eq/=; done. }
    destruct (decide (x = w)) as [->|Hxw]; [|destruct (decide (x = n)) as [->|Hxn]; [|destruct (decide (x = p)) as [->|Hxp]]].
    + simplify_eq/=. exists (Sh (s_bh sp) (s_pb sp) (s_parent sp) (dict_set h w (s_children sp))), h.
      rewrite split_lookup, !decide_False, decide_True by done. split_and!; [done|done|apply dict_get_set_eq].
    + simplify_eq/=. eexists _, h2. rewrite split_lookup, decide_True by done. split_and!; [done|done|].
      simpl. by rewrite decide_True.
    + simplify_eq/=. destruct Htq as [Htq| ->].
      * destruct (Hold sp) as (sq & hx & ? & ? & ?); try done. by exists sq, hx.
      * destruct (co_depth _ _ Hc) as [d Hd]. destruct (Hd _ _ _ Hsp Hq) as [_ [? ?]]. congruence.
    + destruct Htq as [Htq| ->]; [by apply (Hold sx)|].
      destruct (co_depth _ _ Hc) as [d Hd]. destruct (Hd _ _ _ Hsx Hq) as [_ [? ?]]. congruence.
  - destruct (co_depth _ _ Hc) as [d Hd]. destruct (Hd _ _ _ Hs Hp) as [Hdp _].
    exists (λ y, if decide (y = w) then (2 * d n - 1)%nat else (2 * d y)%nat).
    assert (∀ y sy q, S !! y = Some sy → s_parent sy = Some q → (d q < d y)%nat ∧ q ≠ w ∧ is_Some (split_map !! q)) as Hd'.
    { intros y sy q Hy Hq. destruct (Hd _ _ _ Hy Hq) as [? [sq Hsq]]. destruct (split_old _ _ Hsq) as (? & sq' & ? & _).
      split_and!; [done|done|by eexists]. }
    intros y sy q Hy Hq. rewrite split_lookup in Hy.
    destruct (decide (y = w)) as [->|Hyw]; [|destruct (decide (y = n)) as [->|Hyn]; [|destruct (decide (y = p)) as [->|Hyp]]].
    + simplify_eq/=. destruct (Hd' _ _ _ Hs Hp) as (? & ? & ?). rewrite decide_False by done. split; [lia|done].
    + simplify_eq/=. rewrite decide_True by done. split; [lia|]. rewrite split_lookup, decide_True by done. by eexists.
    + simplify_eq/=. destruct (Hd' _ _ _ Hsp Hq) as (? & ? & ?). rewrite decide_False by done. split; [lia|done].
    + destruct (Hd' _ _ _ Hy Hq) as (? & ? & ?). rewrite decide_False by done. split; [lia|done].
Qed.

Lemma split_maps g b : maps root split_map g b ↔ maps root S g b.
Proof using All.
  pose proof (co_len _ _ Hc _ _ Hn Hs) as Hl. split.
  - intros (x & sx & i & Hx & Hsx & Hi & Hb). apply split_in_tree in Hx. rewrite split_lookup in Hsx.
    repeat case_decide; simplify_eq/=.
    + apply lookup_take_Some in Hi as [Hi _], Hb as [Hb _]. by exists n, s, i.
    + rewrite lookup_drop in Hi, Hb. by exists n, s, (k + i)%nat.
    + exists p, sp, i. destruct split_parent as (? & _). done.
    + destruct Hx as [Hx|]; [|done]. by exists x, sx, i.
  - intros (x & sx & i & Hx & Hsx & Hi & Hb). destruct (decide (x = n)) as [->|Hxn].
    + simplify_eq. destruct (decide (i < k)%nat).
      * eexists w, _, i. split; [apply split_in_w|]. rewrite split_lookup, decide_True by done.
        split_and!; [done|simpl; by rewrite lookup_take_lt..].
      * eexists n, _, (i - k)%nat. split; [by apply split_in_tree_2|].
        rewrite split_lookup, decide_False, decide_True by (done || apply not_eq_sym, split_wn).
        split_and!; [done|simpl; rewrite lookup_drop; by replace (k + (i - k))%nat with i by lia..].
    + destruct (split_old _ _ Hsx) as (_ & sx' & Hsx' & Hsame). destruct (Hsame Hxn) as (E1 & E2 & _).
      exists x, sx', i. rewrite E1, E2. split; [by apply split_in_tree_2|done].
Qed.
End split.

(** *** Linking a new leaf [w] under [p] *)
Section link.
Context (root : nid) (S : Shapes) (Hc : core root S) (p w : nid) (sp : shape) (bh pb : list Z) (h : Z).
Hypothesis Hp : in_tree root S p.
Hypothesis Hsp : S !! p = Some sp.
Hypothesis Hw : S !! w = None.
Hypothesis Hlen : length bh = length pb.
Hypothesis Hh : head bh = Some h.
Hypothesis Hchain : chained (last (s_bh sp)) bh.
Hypothesis Hfree : dict_get h (s_children sp) = None.

Definition link_map : Shapes :=
  <[p := Sh (s_bh sp) (s_pb sp) (s_parent sp) (dict_set h w (s_children sp))]> (<[w := Sh bh pb (Some p) []]> S).

Lemma link_wp : w ≠ p. Proof using All. intros ->. congruence. Qed.

Lemma link_lookup x :
  link_map !! x =
    if decide (x = p) then Some (Sh (s_bh sp) (s_pb sp) (s_parent sp) (dict_set h w (s_children sp)))
    else if decide (x = w) then Some (Sh bh pb (Some p) []) else S !! x.
Proof. unfold link_map. rewrite !lookup_insert. repeat case_decide; congruence. Qed.

Lemma link_old x sx :
  S !! x = Some sx → x ≠ w ∧ ∃ sx', link_map !! x = Some sx' ∧
    s_bh sx' = s_bh sx ∧ s_pb sx' = s_pb sx ∧ s_parent sx' = s_parent sx.
Proof using All.
  intros Hx. split; [intros ->; congruence|]. rewrite link_lookup.
  destruct (decide (x = p)) as [->|]; [simplify_eq; by eexists|].
  rewrite decide_False by (intros ->; congruence). by eexists.
Qed.

Lemma link_in_tree x : in_tree root link_map x ↔ in_tree root S x ∨ x = w.
Proof using All.
  pose proof link_wp as Hwp.
  assert (∀ y, in_tree root S y → in_tree root link_map y) as Hold.
  { induction 1 as [|q sq hq c Hq IH Hsq Hch]; [constructor|].
    destruct (decide (q = p)) as [->|Hqp].
    - eapply in_child; [exact IH| |].
      + rewrite link_lookup, decide_True by done. reflexivity.
      + simplify_eq/=. rewrite dict_get_set_ne; [done|]. intros <-. congruence.
    - eapply in_child; [exact IH| |exact Hch]. rewrite link_lookup, !decide_False; [done|intros ->; congruence|done]. }
  split; [|intros [?| ->]; [by apply Hold|]].
  - induction 1 as [|q sq hq c Hq IH Hsq Hch]; [left; constructor|].
    rewrite link_lookup in Hsq. repeat case_decide; simplify_eq/=.
    + rewrite dict_get_set in Hch. case_decide; simplify_eq; [by right|left]. by eapply in_child.
    + destruct IH as [IH|]; [|done]. left. by eapply in_child.
  - eapply (in_child _ _ p); [by apply Hold| |].
    + rewrite link_lookup, decide_True by done. reflexivity.
    + apply dict_get_set_eq.
Qed.

Lemma link_core : core root link_map.
Proof using All.
  pose proof link_wp as Hwp. split.
  - destruct (co_root _ _ Hc) as (sr & Hsr & Hr1 & Hr2 & Hr3). destruct (link_old _ _ Hsr) as (_ & sr' & Hsr' & E1 & E2 & E3).
    exists sr'. by rewrite E1, E2, E3.
  - intros q sq hq c Hq Hsq Hch. apply link_in_tree in Hq. rewrite link_lookup in Hsq.
    assert (∀ sq0, in_tree root S q → S !! q = Some sq0 → dict_get hq (s_children sq0) = Some c →
      ∃ sc, link_map !! c = Some sc ∧ s_parent sc = Some q ∧ head (s_bh sc) = Some hq ∧ chained (last (s_bh sq0)) (s_bh sc)) as Hold.
    { intros sq0 Htq Hsq0 Hch0. destruct (co_child _ _ Hc _ _ _ _ Htq Hsq0 Hch0) as (sc & Hsc & ? & ? & ?).
      destruct (link_old _ _ Hsc) as (_ & sc' & Hsc' & E1 & _ & E3). exists sc'. by rewrite E1, E3. }
    destruct (decide (q = p)) as [->|Hqp]; [|destruct (decide (q = w)) as [->|Hqw]]; simplify_eq/=.
    + rewrite dict_get_set in Hch. case_decide; simplify_eq; [|by apply Hold].
      eexists. rewrite link_lookup, decide_False, decide_True by done. by split_and!.
    + destruct Hq as [Hq|]; [|done]. by apply Hold.
  - intros x sx Hx Hsx. apply link_in_tree in Hx. rewrite link_lookup in Hsx. repeat case_decide; simplify_eq/=.
    + by apply (co_len _ _ Hc p).
    + done.
    + destruct Hx as [Hx|]; [|done]. by eapply co_len.
  - intros x sx Hx Hsx. apply link_in_tree in Hx. rewrite link_lookup in Hsx. repeat case_decide; simplify_eq/=.
    + apply dict_wf_set. by apply (co_dict _ _ Hc p).
    + apply NoDup_nil_2.
    + destruct Hx as [Hx|]; [|done]. by eapply co_dict.
  - intros x sx q Hsx Hq Htq. apply link_in_tree in Htq. rewrite link_lookup in Hsx.
    assert (∀ sx0, S !! x = Some sx0 → s_parent sx0 = Some q →
      ∃ sq hx, link_map !! q = Some sq ∧ head (s_bh sx0) = Some hx ∧ dict_get hx (s_children sq) = Some x) as Hold.
    { intros sx0 Hx0 Hq0. destruct Htq as [Htq| ->].
      - destruct (co_up _ _ Hc _ _ _ Hx0 Hq0 Htq) as (sq & hx & Hsq & Hhx & Hd). rewrite link_lookup.
        destruct (decide (q = p)) as [->|Hqp].
        + eexists _, hx. split_and!; [done|done|]. simplify_eq/=. rewrite dict_get_set_ne; [done|]. intros <-. congruence.
        + rewrite decide_False by (intros ->; congruence). by exists sq, hx.
      - destruct (co_depth _ _ Hc) as [d Hd]. destruct (Hd _ _ _ Hx0 Hq0) as [_ [? ?]]. congruence. }
    destruct (decide (x = p)) as [->|Hxp]; [|destruct (decide (x = w)) as [->|Hxw]]; simplify_eq/=.
    + by apply (Hold sp).
    + eexists _, h. rewrite link_lookup, decide_True by done. split_and!; [done|done|apply dict_get_set_eq].
    + by apply (Hold sx).
  - destruct (co_depth _ _ Hc) as [d Hd]. exists (λ y, if decide (y = w) then Datatypes.S (d p) else d y).
    assert (∀ y sy q, S !! y = Some sy → s_parent sy = Some q → (d q < d y)%nat ∧ q ≠ w ∧ is_Some (link_map !! q)) as Hd'.
    { intros y sy q Hy Hq. destruct (Hd _ _ _ Hy Hq) as [? [sq Hsq]]. destruct (link_old _ _ Hsq) as (? & sq' & ? & _).
      split_and!; [done|done|by eexists]. }
    intros y sy q Hy Hq. rewrite link_lookup in Hy.
    destruct (decide (y = p)) as [->|Hyp]; [|destruct (decide (y = w)) as [->|Hyw]]; simplify_eq/=.
    + destruct (Hd' _ _ _ Hsp Hq) as (? & ? & ?). rewrite !decide_False by done. done.
    + rewrite decide_False by done. split; [lia|].
      destruct (link_old _ _ Hsp) as (_ & sq' & ? & _). by eexists.
    + destruct (Hd' _ _ _ Hy Hq) as (? & ? & ?). rewrite !decide_False by done. done.
Qed.

Lemma link_maps g b :
  maps root link_map g b ↔ maps root S g b ∨ ∃ i, bh !! i = Some g ∧ pb !! i = Some b.
Proof using All.
  pose proof link_wp as Hwp. split.
  - intros (x & sx & i & Hx & Hsx & Hi & Hb). apply link_in_tree in Hx. rewrite link_lookup in Hsx.
    repeat case_decide; simplify_eq/=.
    + left. by exists p, sp, i.
    + right. by exists i.
    + destruct Hx as [Hx|]; [|done]. left. by exists x, sx, i.
  - intros [(x & sx & i & Hx & Hsx & Hi & Hb)|(i & Hi & Hb)].
    + destruct (link_old _ _ Hsx) as (_ & sx' & Hsx' & E1 & E2 & _).
      exists x, sx', i. rewrite E1, E2. split; [by apply link_in_tree; left|done].
    + eexists w, _, i. split; [apply link_in_tree; by right|].
      rewrite link_lookup, decide_False, decide_True by done. done.
Qed.
End link.

(** *** Unlinking a leaf [n] from its parent [p] *)
Section unlink.
Context (root : nid) (S : Shapes) (Hc : core root S) (n p : nid) (s sp : shape) (h : Z).
Hypothesis Hn : in_tree root S n.
Hypothesis Hs : S !! n = Some s.
Hypothesis Hp : s_parent s = Some p.
Hypothesis Hsp : S !! p = Some sp.
Hypothesis Hh : head (s_bh s) = Some h.
Hypothesis Hleaf : s_children s = [].

Definition unlink_map : Shapes :=
  <[n := Sh (s_bh s) (s_pb s) None []]>
    (<[p := Sh (s_bh sp) (s_pb sp) (s_parent sp) (dict_pop h (s_children sp))]> S).

Lemma unlink_pn : p ≠ n. Proof using All. by eapply parent_ne. Qed.

Lemma unlink_nroot : n ≠ root.
Proof using All. intros ->. destruct (root_empty _ _ Hc _ Hs) as (E & _). by rewrite E in Hh. Qed.

Lemma unlink_parent : in_tree root S p ∧ dict_get h (s_children sp) = Some n.
Proof using All.
  destruct (in_tree_parent _ _ Hc _ _ Hn Hs unlink_nroot) as (p' & sp' & h' & ? & ? & ? & ? & ? & _). by simplify_eq.
Qed.

Lemma unlink_dict : dict_wf (s_children sp).
Proof using All. by apply (co_dict _ _ Hc p), Hsp; apply unlink_parent. Qed.

Lemma unlink_lookup x :
  unlink_map !! x =
    if decide (x = n) then Some (Sh (s_bh s) (s_pb s) None [])
    else if decide (x = p) then Some (Sh (s_bh sp) (s_pb sp) (s_parent sp) (dict_pop h (s_children sp)))
    else S !! x.
Proof. unfold unlink_map. rewrite !lookup_insert. repeat case_decide; congruence. Qed.

Lemma unlink_old x sx :
  S !! x = Some sx → x ≠ n → ∃ sx', unlink_map !! x = Some sx' ∧
    s_bh sx' = s_bh sx ∧ s_pb sx' = s_pb sx ∧ s_parent sx' = s_parent sx ∧
    (∀ g c, c ≠ n → dict_get g (s_children sx) = Some c → dict_get g (s_children sx') = Some c).
Proof using All.
  intros Hx Hxn. rewrite unlink_lookup, decide_False by done.
  destruct (decide (x = p)) as [->|]; [|by eexists]. simplify_eq. eexists. split_and!; [done..|].
  intros g c Hcn Hg. simpl. rewrite dict_get_pop by apply unlink_dict. destruct unlink_parent as [_ Hcp].
  case_decide; [|done]. congruence.
Qed.

Lemma unlink_in_tree x : in_tree root unlink_map x ↔ in_tree root S x ∧ x ≠ n.
Proof using All.
  split.
  - induction 1 as [|q sq hq c Hq IH Hsq Hch]; [split; [constructor|apply not_eq_sym, unlink_nroot]|].
    destruct IH as [IHq IHne]. rewrite unlink_lookup in Hsq. repeat case_decide; simplify_eq/=.
    + rewrite dict_get_pop in Hch by apply unlink_dict. case_decide; [done|].
      split; [by eapply in_child|]. intros ->.
      destruct (co_child _ _ Hc _ _ _ _ IHq Hsp Hch) as (sc & ? & _ & ? & _). congruence.
    + split; [by eapply in_child|]. intros ->.
      destruct (co_child _ _ Hc _ _ _ _ IHq Hsq Hch) as (sc & ? & ? & _). congruence.
  - intros [Hx Hne]. induction Hx as [|q sq hq c Hq IH Hsq Hch]; [constructor|].
    assert (q ≠ n) as Hqn.
    { intros ->. simplify_eq. rewrite Hleaf in Hch. done. }
    destruct (unlink_old _ _ Hsq Hqn) as (sq' & Hsq' & _ & _ & _ & Hkeep).
    eapply in_child; [by apply IH|done|by apply Hkeep].
Qed.

Lemma unlink_core : core root unlink_map.
Proof using All.
  pose proof unlink_pn as Hpn. pose proof unlink_nroot as Hnr. destruct unlink_parent as [Htp Hcp].
  split.
  - destruct (co_root _ _ Hc) as (sr & Hsr & Hr1 & Hr2 & Hr3).
    destruct (unlink_old _ _ Hsr (not_eq_sym Hnr)) as (sr' & Hsr' & E1 & E2 & E3 & _). exists sr'. by rewrite E1, E2, E3.
  - intros q sq hq c Hq Hsq Hch. pose proof (in_child _ _ _ _ _ _ Hq Hsq Hch) as Hcin.
    apply unlink_in_tree in Hq as [Hq Hqn]. apply unlink_in_tree in Hcin as [Hcin Hcn].
    destruct (in_tree_live _ _ Hc _ Hq) as [sq0 Hsq0].
    assert (dict_get hq (s_children sq0) = Some c ∧ s_bh sq = s_bh sq0) as [Hch0 Ebh].
    { rewrite unlink_lookup, decide_False in Hsq by done. case_decide; simplify_eq/=; [|done].
      rewrite dict_get_pop in Hch by apply unlink_dict. by case_decide. }
    destruct (co_child _ _ Hc _ _ _ _ Hq Hsq0 Hch0) as (sc & Hsc & ? & ? & ?).
    destruct (unlink_old _ _ Hsc Hcn) as (sc' & Hsc' & E1 & _ & E3 & _). exists sc'. by rewrite E1, E3, Ebh.
  - intros x sx [Hx Hxn]%unlink_in_tree Hsx. rewrite unlink_lookup, decide_False in Hsx by done.
    case_decide; simplify_eq/=; [by apply (co_len _ _ Hc p)|by eapply co_len].
  - intros x sx [Hx Hxn]%unlink_in_tree Hsx. rewrite unlink_lookup, decide_False in Hsx by done.
    case_decide; simplify_eq/=; [apply dict_wf_pop, unlink_dict|by eapply co_dict].
  - intros x sx q Hsx Hq [Htq Hqn]%unlink_in_tree. rewrite unlink_lookup in Hsx.
    destruct (decide (x = n)) as [->|Hxn]; [by simplify_eq|].
    assert (∃ sx0, S !! x = Some sx0 ∧ s_parent sx0 = Some q ∧ s_bh sx0 = s_bh sx) as (sx0 & Hsx0 & Hq0 & Eb).
    { case_decide; simplify_eq/=; [by exists sp|by exists sx]. }
    destruct (co_up _ _ Hc _ _ _ Hsx0 Hq0 Htq) as (sq & hx & Hsq & Hhx & Hd).
    destruct (unlink_old _ _ Hsq Hqn) as (sq' & Hsq' & _ & _ & _ & Hkeep). exists sq', hx.
    rewrite <- Eb. split_and!; [done|done|by apply Hkeep].
  - destruct (co_depth _ _ Hc) as [d Hd]. exists d. intros y sy q Hy Hq. rewrite unlink_lookup in Hy.
    assert (∀ sy0, S !! y = Some sy0 → s_parent sy0 = Some q → (d q < d y)%nat ∧ is_Some (unlink_map !! q)) as Hold.
    { intros sy0 Hy0 Hq0. destruct (Hd _ _ _ Hy0 Hq0) as [? [sq Hsq]]. split; [done|].
      rewrite unlink_lookup. repeat case_decide; by eexists. }
    repeat case_decide; simplify_eq/=; [by apply (Hold sp)|by apply (Hold sy)].
Qed.

Lemma unlink_maps g b :
  maps root S g b ↔ maps root unlink_map g b ∨ ∃ i, s_bh s !! i = Some g ∧ s_pb s !! i = Some b.
Proof using All.
  split.
  - intros (x & sx & i & Hx & Hsx & Hi & Hb). destruct (decide (x = n)) as [->|Hxn].
    + simplify_eq. right. by exists i.
    + left. destruct (unlink_old _ _ Hsx Hxn) as (sx' & Hsx' & E1 & E2 & _). exists x, sx', i.
      rewrite E1, E2. split; [by apply unlink_in_tree|done].
  - intros [(x & sx & i & Hx & Hsx & Hi & Hb)|(i & Hi & Hb)]; [|by exists n, s, i].
    apply unlink_in_tree in Hx as [Hx Hxn]. rewrite unlink_lookup, decide_False in Hsx by done.
    case_decide; simplify_eq/=; [by exists p, sp, i|by exists x, sx, i].
Qed.

(** The unlinked places are gone. *)
Lemma unlink_gone i g b : s_bh s !! i = Some g → ¬ maps root unlink_map g b.
Proof using All.
  intros Hi (x & sx & j & Hx & Hsx & Hj & _). apply unlink_in_tree in Hx as [Hx Hxn].
  destruct (in_tree_live _ _ Hc _ Hx) as [sx0 Hsx0].
  assert (s_bh sx0 !! j = Some g) as Hj0.
  { rewrite unlink_lookup, decide_False in Hsx by done. case_decide; by simplify_eq/=. }
  destruct (loc_inj _ _ Hc g x n sx0 s j i) as [? _]; try done.
Qed.
End unlink.

(** *** Dropping the tail of a leaf [n] *)
Section shorten.
Context (root : nid) (S : Shapes) (Hc : core root S) (n : nid) (s : shape) (k : nat).
Hypothesis Hn : in_tree root S n.
Hypothesis Hs : S !! n = Some s.
Hypothesis Hk : (0 < k < length (s_bh s))%nat.
Hypothesis Hleaf : s_children s = [].

Definition shorten_map : Shapes := <[n := Sh (take k (s_bh s)) (take k (s_pb s)) (s_parent s) []]> S.

Lemma shorten_lookup x :
  shorten_map !! x = if decide (x = n) then Some (Sh (take k (s_bh s)) (take k (s_pb s)) (s_parent s) []) else S !! x.
Proof. unfold shorten_map. rewrite lookup_insert. repeat case_decide; congruence. Qed.

Lemma shorten_in_tree x : in_tree root shorten_map x ↔ in_tree root S x.
Proof using All.
  split.
  - induction 1 as [|q sq hq c Hq IH Hsq Hch]; [constructor|]. rewrite shorten_lookup in Hsq.
    case_decide; simplify_eq/=. by eapply in_child.
  - induction 1 as [|q sq hq c Hq IH Hsq Hch]; [constructor|]. eapply in_child; [done| |exact Hch].
    rewrite shorten_lookup, decide_False; [done|]. intros ->. simplify_eq. by rewrite Hleaf in Hch.
Qed.

Lemma shorten_head : head (take k (s_bh s)) = head (s_bh s).
Proof using All. destruct k as [|k']; [lia|]. by destruct (s_bh s). Qed.

Lemma shorten_core : core root shorten_map.
Proof using All.
  assert (n ≠ root) as Hnr.
  { intros ->. destruct (root_empty _ _ Hc _ Hs) as (E & _). rewrite E in Hk. simpl in Hk. lia. }
  split.
  - destruct (co_root _ _ Hc) as (sr & ? & ? & ? & ?). exists sr. rewrite shorten_lookup, decide_False by done. done.
  - intros q sq hq c Hq Hsq Hch. rewrite shorten_in_tree in Hq. rewrite shorten_lookup in Hsq. case_decide; simplify_eq/=.
    destruct (co_child _ _ Hc _ _ _ _ Hq Hsq Hch) as (sc & Hsc & Hpc & Hhc & Hcc). rewrite shorten_lookup.
    case_decide; [|by exists sc]. subst. simplify_eq. eexists. split_and!; [done|done|by rewrite <- shorten_head in Hhc|].
    simpl. rewrite <- (take_drop k (s_bh s)) in Hcc. by apply chained_app in Hcc as [? _].
  - intros x sx Hx Hsx. rewrite shorten_in_tree in Hx. rewrite shorten_lookup in Hsx. case_decide; simplify_eq/=; [|by eapply co_len].
    rewrite !length_take. by rewrite (co_len _ _ Hc _ _ Hx Hs).
  - intros x sx Hx Hsx. rewrite shorten_in_tree in Hx. rewrite shorten_lookup in Hsx. case_decide; simplify_eq/=; [apply NoDup_nil_2|by eapply co_dict].
  - intros x sx q Hsx Hq Htq. rewrite shorten_in_tree in Htq. rewrite shorten_lookup in Hsx.
    assert (∃ sx0, S !! x = Some sx0 ∧ s_parent sx0 = Some q ∧ head (s_bh sx0) = head (s_bh sx)) as (sx0 & Hsx0 & Hq0 & Eb).
    { case_decide; simplify_eq/=; [exists s; by rewrite shorten_head|by exists sx]. }
    destruct (co_up _ _ Hc _ _ _ Hsx0 Hq0 Htq) as (sq & hx & Hsq & Hhx & Hd). rewrite <- Eb. rewrite shorten_lookup.
    destruct (decide (q = n)) as [Eq|]; [|by exists sq, hx]. rewrite Eq in Hsq. assert (sq = s) as -> by congruence. by rewrite Hleaf in Hd.
  - destruct (co_depth _ _ Hc) as [d Hd]. exists d. intros y sy q Hy Hq. rewrite shorten_lookup in Hy.
    assert (∃ sy0, S !! y = Some sy0 ∧ s_parent sy0 = Some q) as (sy0 & Hy0 & Hq0).
    { case_decide; simplify_eq/=; [by exists s|by exists sy]. }
    destruct (Hd _ _ _ Hy0 Hq0) as [? [sq ?]]. split; [done|]. rewrite shorten_lookup. repeat case_decide; by eexists.
Qed.

Lemma shorten_maps g b :
  maps root S g b ↔ maps root shorten_map g b ∨
    ∃ i, drop k (s_bh s) !! i = Some g ∧ drop k (s_pb s) !! i = Some b.
Proof using All.
  split.
  - intros (x & sx & i & Hx & Hsx & Hi & Hb). destruct (decide (x = n)) as [->|Hxn].
    + simplify_eq. destruct (decide (i < k)%nat).
      * left. eexists n, _, i. rewrite shorten_in_tree. split; [done|]. rewrite shorten_lookup, decide_True by done.
        split_and!; [done|simpl; by rewrite lookup_take_lt..].
      * right. exists (i - k)%nat. rewrite !lookup_drop. by replace (k + (i - k))%nat with i by lia.
    + left. exists x, sx, i. rewrite shorten_in_tree, shorten_lookup, decide_False by done. done.
  - intros [(x & sx & i & Hx & Hsx & Hi & Hb)|(i & Hi & Hb)].
    + rewrite shorten_in_tree in Hx. rewrite shorten_lookup in Hsx. case_decide; simplify_eq/=; [|by exists x, sx, i].
      apply lookup_take_Some in Hi as [Hi _], Hb as [Hb _]. by exists n, s, i.
    + rewrite lookup_drop in Hi, Hb. by exists n, s, (k + i)%nat.
Qed.

Lemma shorten_gone i g b : drop k (s_bh s) !! i = Some g → ¬ maps root shorten_map g b.
Proof using All.
  rewrite lookup_drop. intros Hi (x & sx & j & Hx & Hsx & Hj & _). rewrite shorten_in_tree in Hx.
  rewrite shorten_lookup in Hsx. case_decide; simplify_eq/=.
  - apply lookup_take_Some in Hj as [Hj ?]. destruct (loc_inj _ _ Hc g n n s s j (k + i)%nat) as [_ ?]; try done. lia.
  - destruct (loc_inj _ _ Hc g x n sx s j (k + i)%nat) as [? _]; try done.
Qed.
End shorten.
End mutations.
