(* ===== verification/RadixLeaf.v ===== *)
(** * The leaf table and the way to the root

    [leaf_ok]: the table holds exactly the leaves of the tree, under their
    first hash; each mutation of [RadixCore] with the updates of the table the
    code makes.  [up_chain]: the nodes met when following parent pointers, never
    more than there are nodes. *)

From S2P Require Import Prelude Block RadixCore.
Local Open Scope Z_scope.

(** [leaf_nodes] files every leaf of the tree, the root excepted, under its first hash. *)
Definition is_leaf_of (root : nid) (S : Shapes) (h : Z) (n : nid) : Prop :=
  in_tree root S n ∧ ∃ s, S !! n = Some s ∧ head (s_bh s) = Some h ∧ s_children s = [].

(** The dictionary [d] is the relation [P]. *)
Definition dict_is (P : Z → nid → Prop) (d : list (Z * nid)) : Prop :=
  dict_wf d ∧ ∀ h n, dict_get h d = Some n ↔ P h n.

Definition leaf_ok (root : nid) (S : Shapes) : list (Z * nid) → Prop := dict_is (is_leaf_of root S).

Lemma dict_is_set P d h n : dict_is P d → dict_is (λ h' n', (h' = h ∧ n' = n) ∨ (h' ≠ h ∧ P h' n')) (dict_set h n d).
Proof.
  intros [Hd HP]. split; [by apply dict_wf_set|]. intros h' n'. rewrite dict_get_set. case_decide; [naive_solver|].
  rewrite HP. naive_solver.
Qed.

Lemma dict_is_pop P d h : dict_is P d → dict_is (λ h' n', h' ≠ h ∧ P h' n') (dict_pop h d).
Proof.
  intros [Hd HP]. split; [by apply dict_wf_pop|]. intros h' n'. rewrite dict_get_pop by done. case_decide; [naive_solver|].
  rewrite HP. naive_solver.
Qed.

Lemma dict_is_proper P Q d : (∀ h n, P h n ↔ Q h n) → dict_is P d → dict_is Q d.
Proof. intros HPQ [Hd HP]. split; [done|]. intros h n. by rewrite HP. Qed.

(** Three conjuncts, the last left whole. *)
Ltac and3 := split; [|split].

Section leaf.
Context `{!PrefixHash}.

Lemma leaf_head_inj root S h n n' : core root S → is_leaf_of root S h n → is_leaf_of root S h n' → n = n'.
Proof.
  intros Hc (Hn & s & Hs & Hh & _) (Hn' & s' & Hs' & Hh' & _).
  destruct (loc_inj _ _ Hc h n n' s s' 0%nat 0%nat); try done; [by destruct (s_bh s)|by destruct (s_bh s')].
Qed.

(** *** Splitting *)
Lemma split_leaf root S n p w s sp h h2 k leaf :
  core root S → in_tree root S n → S !! n = Some s → S !! p = Some sp → s_parent s = Some p →
  head (s_bh s) = Some h → (0 < k < length (s_bh s))%nat → head (drop k (s_bh s)) = Some h2 → S !! w = None →
  leaf_ok root S leaf →
  leaf_ok root (split_map S n p w s sp h h2 k)
    (if decide (s_children s = []) then dict_set h2 n (dict_pop h leaf) else leaf).
Proof.
  intros Hc Hn Hs Hsp Hp Hh Hk Hh2 Hw HL.
  assert (∀ g x, is_leaf_of root (split_map S n p w s sp h h2 k) g x ↔
    (x = n ∧ g = h2 ∧ s_children s = []) ∨ (x ≠ n ∧ is_leaf_of root S g x)) as Hiff.
  { intros g x. unfold is_leaf_of at 1. rewrite (split_in_tree root S Hc n p w s sp h h2 k Hn Hs Hsp Hp Hh Hk Hh2 Hw).
    rewrite (split_lookup S n p w s sp h h2 k Hs Hsp Hw).
    destruct (split_parent root S Hc n p w s sp h h2 k Hn Hs Hsp Hp Hh Hk Hh2 Hw) as (Htp & Hcp & _).
    pose proof (split_pn root S Hc n p w s sp h h2 k Hn Hs Hsp Hp Hh Hk Hh2 Hw) as Hpn. split.
    - intros [Hx (sx & Hsx & Hgx & Hcx)]. repeat case_decide; simplify_eq/=.
      + by left.
      + exfalso. assert (dict_get h (dict_set h w (s_children sp)) = None) as E by (by rewrite Hcx). by rewrite dict_get_set_eq in E.
      + right. split; [done|]. destruct Hx as [Hx|]; [|done]. split; [done|]. by exists sx.
    - intros [(-> & -> & Hcn)|[Hxn (Hx & sx & Hsx & Hgx & Hcx)]].
      + split; [by left|]. rewrite decide_False by (intros ->; congruence). rewrite decide_True by done. eexists. split; [done|]. done.
      + split; [by left|]. rewrite decide_False by (intros ->; congruence). rewrite decide_False by done.
        destruct (decide (x = p)) as [->|]; [|by exists sx]. simplify_eq. by rewrite Hcx in Hcp. }
  destruct (decide (s_children s = [])) as [El|El].
  - assert (is_leaf_of root S h n) as Hleaf by (split; [done|by exists s]).
    eapply dict_is_proper; [|apply dict_is_set, dict_is_pop, HL]. intros g x. rewrite Hiff. split.
    + intros [[-> ->]|(Hg & Hg' & Hx)]; [by left|]. right. split; [|done]. intros ->. apply Hg'.
      destruct Hleaf as (_ & s1 & ? & ? & _), Hx as (_ & s2 & ? & ? & _). congruence.
    + intros [(-> & -> & _)|[Hx Hg]]; [by left|]. right. split; [|split; [|done]].
      * intros ->. destruct Hg as (Hx' & sx & Hsx & Hgx & _).
        assert (s_bh s !! k = Some h2) as Hk2 by (rewrite <- (Nat.add_0_r k), <- lookup_drop; by destruct (drop k (s_bh s))).
        destruct (loc_inj _ _ Hc h2 x n sx s 0%nat k) as [? ?]; try done. by destruct (s_bh sx).
      * intros ->. apply Hx. by eapply leaf_head_inj.
  - eapply dict_is_proper; [|exact HL]. intros g x. rewrite Hiff. split.
    + intros Hg. right. split; [|done]. intros ->. destruct Hg as (_ & s' & ? & _ & ?). congruence.
    + intros [(_ & _ & ?)|[_ ?]]; done.
Qed.

(** *** Linking *)

(** A hash that would start a new child is nowhere in the tree. *)
Lemma link_unplaced root S p sp h :
  core root S → in_tree root S p → S !! p = Some sp → ph_pred h = last (s_bh sp) → dict_get h (s_children sp) = None →
  ∀ n s i, in_tree root S n → S !! n = Some s → s_bh s !! i ≠ Some h.
Proof.
  intros Hc Hp Hsp Hpr Hfree n s i Hn Hs Hi. pose proof (pred_place _ _ Hc _ _ _ _ Hn Hs Hi) as P. destruct i as [|i].
  - destruct P as (q & sq & Hq & Hsq & Hd & E & Er). rewrite Hpr in E. assert (q = p) as ->; [|congruence].
    destruct (last (s_bh sp)) as [g|] eqn:Eg.
    + symmetry in E. destruct (loc_inj _ _ Hc g q p sq sp _ _ Hq Hp Hsq Hsp (last_lookup_size _ _ E) (last_lookup_size _ _ Eg)); done.
    + rewrite (Er (eq_sym E)). destruct (decide (p = root)) as [|Hne]; [done|].
      destruct (nonroot_nonempty _ _ Hc _ _ Hp Hsp Hne). by apply last_None.
  - destruct P as (g & Hg & E). rewrite Hpr in E.
    destruct (loc_inj _ _ Hc g n p s sp _ _ Hn Hp Hs Hsp Hg (last_lookup_size _ _ E)) as [-> ->].
    simplify_eq. apply lookup_lt_Some in Hi. lia.
Qed.

Lemma link_leaf root S p w sp bh pb h leaf :
  core root S → in_tree root S p → S !! p = Some sp → S !! w = None → length bh = length pb → head bh = Some h → chained (last (s_bh sp)) bh →
  dict_get h (s_children sp) = None → leaf_ok root S leaf →
  leaf_ok root (link_map S p w sp bh pb h)
    (dict_set h w (match head (s_bh sp) with
                   | Some hp => if decide (s_children sp = []) then dict_pop hp leaf else leaf
                   | None => leaf end)).
Proof.
  intros Hc Hp Hsp Hw Hlen Hh Hch Hfree HL.
  assert (ph_pred h = last (s_bh sp)) as Hpr by (destruct bh; simplify_eq/=; naive_solver).
  assert (∀ g x, is_leaf_of root (link_map S p w sp bh pb h) g x ↔
    (x = w ∧ g = h) ∨ (x ≠ p ∧ x ≠ w ∧ is_leaf_of root S g x)) as Hiff.
  { intros g x. unfold is_leaf_of at 1. rewrite (link_in_tree root S Hc p w sp bh pb h Hp Hsp Hw Hlen Hh Hch Hfree).
    rewrite (link_lookup S p w sp bh pb h Hsp Hw). assert (w ≠ p) as Hwp by (intros ->; congruence). split.
    - intros [Hx (sx & Hsx & Hgx & Hcx)]. repeat case_decide; simplify_eq/=.
      + exfalso. assert (dict_get h (dict_set h w (s_children sp)) = None) as E by (by rewrite Hcx). by rewrite dict_get_set_eq in E.
      + left. split; [done|]. congruence.
      + right. destruct Hx as [Hx|]; [|done]. do 2 (split; [done|]). split; [done|]. by exists sx.
    - intros [[-> ->]|(Hxp & Hxw & Hx & sx & Hsx & Hgx & Hcx)].
      + split; [by right|]. rewrite decide_False, decide_True by done. by eexists.
      + split; [by left|]. rewrite !decide_False by done. by exists sx. }
  assert (∀ g x, is_leaf_of root S g x → g ≠ h ∧ x ≠ w) as Hold.
  { intros g x (Hx & sx & Hsx & Hgx & _). split; [intros ->|intros ->; congruence].
    apply (link_unplaced root S p sp h Hc Hp Hsp Hpr Hfree x sx 0%nat Hx Hsx). by destruct (s_bh sx). }
  assert (∀ hp, head (s_bh sp) = Some hp → s_children sp = [] → is_leaf_of root S hp p) as Hlp.
  { intros hp ? ?. split; [done|]. by exists sp. }
  assert (∀ g, is_leaf_of root S g p → head (s_bh sp) = Some g ∧ s_children sp = []) as Hlp'.
  { intros g (_ & s' & ? & ? & ?). by simplify_eq. }
  destruct (head (s_bh sp)) as [hp|] eqn:Ehp; [destruct (decide (s_children sp = [])) as [El|El]|].
  - eapply dict_is_proper; [|apply dict_is_set, dict_is_pop, HL]. intros g x. rewrite Hiff. split.
    + intros [[-> ->]|(Hg & Hg' & Hx)]; [by left|]. right. and3; [|by apply (Hold g)|done].
      intros ->. destruct (Hlp' _ Hx). congruence.
    + intros [[-> ->]|(Hx & _ & Hg)]; [by left|]. right. and3; [by apply (Hold g x)| |done].
      intros ->. apply Hx. eapply leaf_head_inj; [done|done|by apply Hlp].
  - eapply dict_is_proper; [|apply dict_is_set, HL]. intros g x. rewrite Hiff. split.
    + intros [[-> ->]|(Hg & Hx)]; [by left|]. right. and3; [|by apply (Hold g)|done]. intros ->. by destruct (Hlp' _ Hx).
    + intros [[-> ->]|(Hx & _ & Hg)]; [by left|]. right. split; [by apply (Hold g x)|done].
  - eapply dict_is_proper; [|apply dict_is_set, HL]. intros g x. rewrite Hiff. split.
    + intros [[-> ->]|(Hg & Hx)]; [by left|]. right. and3; [|by apply (Hold g)|done]. intros ->. by destruct (Hlp' _ Hx).
    + intros [[-> ->]|(Hx & _ & Hg)]; [by left|]. right. split; [by apply (Hold g x)|done].
Qed.

(** *** Unlinking *)
Lemma unlink_leaf root S n p s sp h leaf :
  core root S → in_tree root S n → S !! n = Some s → s_parent s = Some p → S !! p = Some sp →
  head (s_bh s) = Some h → s_children s = [] → leaf_ok root S leaf →
  leaf_ok root (unlink_map S n p s sp h)
    (match head (s_bh sp) with
     | Some hp => if decide (dict_pop h (s_children sp) = []) then dict_set hp p (dict_pop h leaf) else dict_pop h leaf
     | None => dict_pop h leaf end).
Proof.
  intros Hc Hn Hs Hp Hsp Hh Hl HL.
  destruct (unlink_parent root S Hc n p s sp h Hn Hs Hp Hsp Hh Hl) as [Htp Hcp].
  assert (∀ g x, is_leaf_of root (unlink_map S n p s sp h) g x ↔
    (x = p ∧ head (s_bh sp) = Some g ∧ dict_pop h (s_children sp) = []) ∨ (x ≠ n ∧ x ≠ p ∧ is_leaf_of root S g x)) as Hiff.
  { intros g x. unfold is_leaf_of at 1. rewrite (unlink_in_tree root S Hc n p s sp h Hn Hs Hp Hsp Hh Hl).
    rewrite (unlink_lookup S n p s sp h). pose proof (unlink_pn root S Hc n p s sp h Hn Hs Hp Hsp Hh Hl) as Hpn. split.
    - intros [[Hx Hxn] (sx & Hsx & Hgx & Hcx)]. repeat case_decide; simplify_eq/=; [by left|].
      right. do 2 (split; [done|]). split; [done|]. by exists sx.
    - intros [(-> & Hg & He)|(Hxn & Hxp & Hx & sx & Hsx & Hgx & Hcx)].
      + split; [split; [done|]; by apply Hpn|]. rewrite decide_False by (by apply Hpn). rewrite decide_True by done. by eexists.
      + split; [done|]. rewrite !decide_False by done. by exists sx. }
  assert (is_leaf_of root S h n) as Hln by (split; [done|by exists s]).
  assert (∀ g, ¬ is_leaf_of root S g p) as Hlp.
  { intros g (_ & s' & ? & _ & E). simplify_eq. by rewrite E in Hcp. }
  assert (∀ g x, is_leaf_of root S g x → g ≠ h ↔ x ≠ n) as Hne.
  { intros g x Hx. split; intros Hneq ->; apply Hneq.
    - destruct Hx as (_ & s' & ? & ? & _). congruence.
    - by eapply leaf_head_inj. }
  destruct (head (s_bh sp)) as [hp|] eqn:Ehp; [destruct (decide (dict_pop h (s_children sp) = [])) as [El|El]|].
  - eapply dict_is_proper; [|apply dict_is_set, dict_is_pop, HL]. intros g x. rewrite Hiff. split.
    + intros [[-> ->]|(Hg & Hg' & Hx)]; [by left|]. right. and3; [by apply (Hne g x Hx)| |done].
      intros ->. by apply Hlp in Hx.
    + intros [(-> & [= ->] & _)|(Hxn & Hxp & Hx)]; [by left|]. right. and3; [|by apply (Hne g x Hx)|done].
      intros ->. destruct Hx as (Hx & sx & Hsx & Hgx & _). apply Hxp.
      destruct (loc_inj _ _ Hc hp x p sx sp 0%nat 0%nat); try done; [by destruct (s_bh sx)|by destruct (s_bh sp)].
  - eapply dict_is_proper; [|apply dict_is_pop, HL]. intros g x. rewrite Hiff. split.
    + intros (Hg & Hx). right. and3; [by apply (Hne g x Hx)|intros ->; by apply Hlp in Hx|done].
    + intros [(_ & _ & ?)|(Hxn & Hxp & Hx)]; [done|]. split; [by apply (Hne g x Hx)|done].
  - eapply dict_is_proper; [|apply dict_is_pop, HL]. intros g x. rewrite Hiff. split.
    + intros (Hg & Hx). right. and3; [by apply (Hne g x Hx)|intros ->; by apply Hlp in Hx|done].
    + intros [(_ & ? & _)|(Hxn & Hxp & Hx)]; [done|]. split; [by apply (Hne g x Hx)|done].
Qed.

(** *** Shortening *)
Lemma shorten_leaf root S n s k leaf :
  core root S → in_tree root S n → S !! n = Some s → (0 < k < length (s_bh s))%nat → s_children s = [] →
  leaf_ok root S leaf → leaf_ok root (shorten_map S n s k) leaf.
Proof.
  intros Hc Hn Hs Hk Hl HL. eapply dict_is_proper; [|exact HL]. intros g x. unfold is_leaf_of.
  rewrite (shorten_in_tree root S Hc n s k Hn Hs Hk Hl). rewrite (shorten_lookup S n s k).
  pose proof (shorten_head root S Hc n s k Hn Hs Hk Hl) as Hhd. split.
  - intros [Hx (sx & Hsx & Hgx & Hcx)]. split; [done|]. case_decide; [|by exists sx]. simplify_eq.
    eexists. split; [done|]. simpl. by rewrite Hhd.
  - intros [Hx (sx & Hsx & Hgx & Hcx)]. split; [done|]. case_decide; [|by exists sx]. simplify_eq/=.
    exists s. by rewrite <- Hhd.
Qed.

(** ** Following parent pointers *)

(** [l] is the way up from its first node to a node without parent. *)
Fixpoint up_chain (S : Shapes) (l : list nid) : Prop :=
  match l with
  | [] => False
  | n :: l' => ∃ s, S !! n = Some s ∧
      match l' with [] => s_parent s = None | p :: _ => s_parent s = Some p ∧ up_chain S l' end
  end.

Lemma up_chain_exists_depth S (d : nid → nat) :
  (∀ n s p, S !! n = Some s → s_parent s = Some p → (d p < d n)%nat ∧ is_Some (S !! p)) →
  ∀ k n s, (d n < k)%nat → S !! n = Some s →
  ∃ l, up_chain S (n :: l) ∧ NoDup (n :: l) ∧ (∀ x, x ∈ n :: l → (d x <= d n)%nat ∧ is_Some (S !! x)).
Proof.
  intros Hd. induction k as [|k IH]; intros n s Hk Hs; [lia|]. destruct (s_parent s) as [p|] eqn:Hp.
  - destruct (Hd _ _ _ Hs Hp) as [Hlt [sp Hsp]]. destruct (IH p sp) as (l & Hl & Hnd & Hall); [lia|done|].
    exists (p :: l). split; [by exists s|]. split.
    + apply NoDup_cons. split; [|done]. intros Hin. apply Hall in Hin. lia.
    + intros x [->|Hin]%elem_of_cons; [split; [done|by exists s]|]. apply Hall in Hin as [? ?]. split; [lia|done].
  - exists []. split; [by exists s|]. split; [apply NoDup_singleton|].
    intros x ->%list_elem_of_singleton. split; [done|by exists s].
Qed.

Lemma NoDup_dom_length (S : Shapes) l : NoDup l → (∀ x, x ∈ l → is_Some (S !! x)) → (length l <= size S)%nat.
Proof.
  intros Hnd Hall. rewrite <- size_dom, <- (size_list_to_set (C := gset nat) l) by done.
  apply subseteq_size. intros x Hx%elem_of_list_to_set. by apply elem_of_dom, Hall.
Qed.

(** Every node has a way up, no longer than there are nodes. *)
Lemma up_chain_exists root S n s :
  core root S → S !! n = Some s → ∃ l, up_chain S (n :: l) ∧ NoDup (n :: l) ∧ (length (n :: l) <= size S)%nat.
Proof.
  intros Hc Hs. destruct (co_depth _ _ Hc) as [d Hd].
  destruct (up_chain_exists_depth S d Hd (Datatypes.S (d n)) n s) as (l & Hl & Hnd & Hall); [lia|done|].
  exists l. split_and!; [done|done|]. apply NoDup_dom_length; [done|]. intros x Hx. by apply Hall.
Qed.

(** The way up ends at the root exactly for the nodes of the tree. *)
Lemma up_chain_in_tree root S l n :
  core root S → up_chain S (n :: l) → last (n :: l) = Some root → ∀ x, x ∈ n :: l → in_tree root S x.
Proof.
  intros Hc. revert n. induction l as [|p l IH]; intros n Hu Hlast x Hx.
  - injection Hlast as ->. apply list_elem_of_singleton in Hx as ->. constructor.
  - destruct Hu as (s & Hs & Hp & Hu). assert (∀ y, y ∈ p :: l → in_tree root S y) as Hin.
    { intros y Hy. by apply (IH p). }
    apply elem_of_cons in Hx as [->|Hx]; [|by apply Hin].
    destruct (co_up _ _ Hc _ _ _ Hs Hp) as (sp & h & Hsp & _ & Hd); [apply Hin; left|].
    eapply in_child; [apply Hin; left|done|done].
Qed.

Lemma in_tree_up_chain root S l n :
  core root S → up_chain S (n :: l) → in_tree root S n → last (n :: l) = Some root.
Proof.
  intros Hc. revert n. induction l as [|p l IH]; intros n Hu Hn.
  - destruct Hu as (s & Hs & Hp). simpl. f_equal. by eapply (root_iff root S Hc n s).
  - destruct Hu as (s & Hs & Hp & Hu). rewrite last_cons_cons. apply IH; [done|].
    destruct (decide (n = root)) as [->|Hne].
    + destruct (root_empty _ _ Hc _ Hs) as (_ & _ & E). congruence.
    + destruct (in_tree_parent _ _ Hc _ _ Hn Hs Hne) as (p' & sp & h & Hp' & Htp & _). by simplify_eq.
Qed.

(** ** The entries of a tree, with an attribute of their node *)

Definition placed {A} (root : nid) (S : Shapes) (R : nid → A) (h b : Z) (r : A) : Prop :=
  ∃ n s i, in_tree root S n ∧ S !! n = Some s ∧ s_bh s !! i = Some h ∧ s_pb s !! i = Some b ∧ R n = r.

Lemma placed_maps_iff {A} root S (R : nid → A) h b : maps root S h b ↔ ∃ r, placed root S R h b r.
Proof.
  split.
  - intros (n & s & i & ? & ? & ? & ?). exists (R n), n, s, i. done.
  - intros (r & n & s & i & ? & ? & ? & ? & _). by exists n, s, i.
Qed.

Lemma split_placed {A} root S (Hc : core root S) n p w s sp h h2 k (R R' : nid → A) g b r :
  in_tree root S n → S !! n = Some s → S !! p = Some sp → s_parent s = Some p → head (s_bh s) = Some h →
  (0 < k < length (s_bh s))%nat → head (drop k (s_bh s)) = Some h2 → S !! w = None →
  (∀ x, in_tree root S x → R' x = R x) → R' w = R n →
  placed root (split_map S n p w s sp h h2 k) R' g b r ↔ placed root S R g b r.
Proof.
  intros Hn Hs Hsp Hp Hh Hk Hh2 Hw HR HRw. unfold placed. split.
  - intros (x & sx & i & Hx & Hsx & Hi & Hb & Hr).
    rewrite (split_in_tree root S Hc n p w s sp h h2 k) in Hx by done. rewrite split_lookup in Hsx by done.
    destruct (decide (x = w)) as [->|Hxw]; [|destruct (decide (x = n)) as [->|Hxn]; [|destruct (decide (x = p)) as [->|Hxp]]]; simplify_eq/=.
    + apply lookup_take_Some in Hi as [Hi _], Hb as [Hb _]. by exists n, s, i.
    + rewrite lookup_drop in Hi, Hb. exists n, s, (k + i)%nat. by rewrite HR.
    + destruct Hx as [Hx|]; [|done]. exists p, sp, i. by rewrite HR.
    + destruct Hx as [Hx|]; [|done]. exists x, sx, i. by rewrite HR.
  - intros (x & sx & i & Hx & Hsx & Hi & Hb & Hr).
    assert (x ≠ w) as Hxw by (intros ->; congruence).
    destruct (decide (x = n)) as [->|Hxn]; [simplify_eq; destruct (decide (i < k)%nat)|].
    + eexists w, _, i. split; [by apply split_in_w|]. rewrite split_lookup by done. rewrite decide_True by done.
      split_and!; [done|simpl; by rewrite lookup_take_lt..|done].
    + eexists n, _, (i - k)%nat. split; [apply split_in_tree; try done; by left|]. rewrite split_lookup by done.
      rewrite decide_False, decide_True by done. simpl. rewrite HR by done. split_and!; [done| | |done]; simpl; rewrite lookup_drop;
        by replace (k + (i - k))%nat with i by lia.
    + destruct (split_old root S Hc n p w s sp h h2 k Hn Hs Hsp Hp Hh Hk Hh2 Hw x sx Hsx) as (_ & sx' & Hsx' & Hsame).
      destruct (Hsame Hxn) as (E1 & E2 & _). exists x, sx', i. rewrite E1, E2, HR by done.
      split; [apply split_in_tree; try done; by left|done].
Qed.

Lemma link_placed {A} root S (Hc : core root S) p w sp bh pb h (R R' : nid → A) g b r :
  in_tree root S p → S !! p = Some sp → S !! w = None → length bh = length pb → head bh = Some h →
  chained (last (s_bh sp)) bh → dict_get h (s_children sp) = None → (∀ x, in_tree root S x → R' x = R x) →
  placed root (link_map S p w sp bh pb h) R' g b r ↔
    placed root S R g b r ∨ (∃ i, bh !! i = Some g ∧ pb !! i = Some b) ∧ R' w = r.
Proof.
  intros Hp Hsp Hw Hlen Hh Hch Hfree HR. unfold placed. split.
  - intros (x & sx & i & Hx & Hsx & Hi & Hb & Hr).
    rewrite (link_in_tree root S Hc p w sp bh pb h) in Hx by done. rewrite link_lookup in Hsx by done.
    destruct (decide (x = p)) as [->|Hxp]; [|destruct (decide (x = w)) as [->|Hxw]]; simplify_eq/=.
    + left. exists p, sp, i. by rewrite HR.
    + right. split; [by exists i|done].
    + destruct Hx as [Hx|]; [|done]. left. exists x, sx, i. by rewrite HR.
  - intros [(x & sx & i & Hx & Hsx & Hi & Hb & Hr)|[(i & Hi & Hb) Hr]].
    + destruct (link_old root S Hc p w sp bh pb h Hp Hsp Hw Hlen Hh Hch Hfree x sx Hsx) as (_ & sx' & Hsx' & E1 & E2 & _).
      exists x, sx', i. rewrite E1, E2, HR by done. split; [apply link_in_tree; try done; by left|done].
    + eexists w, _, i. split; [apply link_in_tree; try done; by right|]. rewrite link_lookup by done.
      rewrite decide_False by (intros ->; congruence). by rewrite decide_True.
Qed.

Lemma unlink_placed {A} root S (Hc : core root S) n p s sp h (R R' : nid → A) g b r :
  in_tree root S n → S !! n = Some s → s_parent s = Some p → S !! p = Some sp → head (s_bh s) = Some h →
  s_children s = [] → (∀ x, in_tree root S x → x ≠ n → R' x = R x) →
  placed root (unlink_map S n p s sp h) R' g b r ↔
    placed root S R g b r ∧ g ∉ s_bh s.
Proof.
  intros Hn Hs Hp Hsp Hh Hl HR. unfold placed. split.
  - intros (x & sx & i & Hx & Hsx & Hi & Hb & Hr). split.
    + rewrite (unlink_in_tree root S Hc n p s sp h) in Hx by done. destruct Hx as [Hx Hxn].
      rewrite unlink_lookup, decide_False in Hsx by done. rewrite <- Hr, HR by done.
      destruct (decide (x = p)) as [->|]; simplify_eq/=; [by exists p, sp, i|by exists x, sx, i].
    + intros [j Hj]%list_elem_of_lookup. eapply (unlink_gone root S Hc n p s sp h); try done. by exists x, sx, i.
  - intros [(x & sx & i & Hx & Hsx & Hi & Hb & Hr) Hg]. destruct (decide (x = n)) as [->|Hxn].
    { simplify_eq. destruct Hg. by eapply list_elem_of_lookup_2. }
    destruct (unlink_old root S Hc n p s sp h Hn Hs Hp Hsp Hh Hl x sx Hsx Hxn) as (sx' & Hsx' & E1 & E2 & _).
    exists x, sx', i. rewrite E1, E2, HR by done. split; [by apply unlink_in_tree|done].
Qed.

Lemma shorten_placed {A} root S (Hc : core root S) n s k (R R' : nid → A) g b r :
  in_tree root S n → S !! n = Some s → (0 < k < length (s_bh s))%nat → s_children s = [] →
  (∀ x, in_tree root S x → R' x = R x) →
  placed root (shorten_map S n s k) R' g b r ↔ placed root S R g b r ∧ g ∉ drop k (s_bh s).
Proof.
  intros Hn Hs Hk Hl HR. unfold placed. split.
  - intros (x & sx & i & Hx & Hsx & Hi & Hb & Hr). split.
    + rewrite (shorten_in_tree root S Hc n s k) in Hx by done. rewrite shorten_lookup in Hsx. rewrite <- Hr, HR by done.
      destruct (decide (x = n)) as [->|]; simplify_eq/=; [|by exists x, sx, i].
      apply lookup_take_Some in Hi as [Hi _], Hb as [Hb _]. by exists n, s, i.
    + intros [j Hj]%list_elem_of_lookup. eapply (shorten_gone root S Hc n s k); try done. by exists x, sx, i.
  - intros [(x & sx & i & Hx & Hsx & Hi & Hb & Hr) Hg]. assert (in_tree root (shorten_map S n s k) x) as Hx' by (by apply (shorten_in_tree root S Hc n s k)).
    destruct (decide (x = n)) as [->|Hxn].
    2:{ exists x, sx, i. rewrite shorten_lookup, decide_False, HR by done. done. }
    simplify_eq. eexists n, _, i. rewrite shorten_lookup, decide_True, HR by done. split; [done|].
    assert (i < k)%nat as Hik.
    { destruct (decide (i < k)%nat); [done|]. destruct Hg. apply (list_elem_of_lookup_2 _ (i - k)). rewrite lookup_drop.
      by replace (k + (i - k))%nat with i by lia. }
    split_and!; [done|simpl; by rewrite lookup_take_lt..|done].
Qed.

(** ** Runs of hashes over consecutive nodes *)

(** [l] is the hashes of some ancestors of [n], from the top, and of [n] itself. *)
Inductive run (root : nid) (S : Shapes) : nid → list Z → Prop :=
  | run_one n s : in_tree root S n → n ≠ root → S !! n = Some s → run root S n (s_bh s)
  | run_up n s p l :
      in_tree root S n → n ≠ root → S !! n = Some s → s_parent s = Some p → run root S p l →
      run root S n (l ++ s_bh s).

(** Mutations that keep the old nodes keep the runs. *)
Lemma run_mono root S S' n l :
  (∀ x s, in_tree root S x → S !! x = Some s → in_tree root S' x ∧
     ∃ s', S' !! x = Some s' ∧ s_bh s' = s_bh s ∧ s_parent s' = s_parent s) →
  run root S n l → run root S' n l.
Proof.
  intros HS. induction 1 as [n s Hn Hr Hs|n s p l Hn Hr Hs Hp Hrun IH].
  - destruct (HS n s Hn Hs) as (Hn' & s' & Hs' & E & _). rewrite <- E. by apply run_one.
  - destruct (HS n s Hn Hs) as (Hn' & s' & Hs' & E & Ep). rewrite <- E. eapply run_up; [done|done|done|by rewrite Ep|done].
Qed.

Lemma link_run_mono root S (Hc : core root S) p w sp bh pb h n l :
  in_tree root S p → S !! p = Some sp → S !! w = None → length bh = length pb → head bh = Some h →
  chained (last (s_bh sp)) bh → dict_get h (s_children sp) = None →
  run root S n l → run root (link_map S p w sp bh pb h) n l.
Proof.
  intros Hp Hsp Hw Hlen Hh Hch Hfree. apply run_mono. intros x s Hx Hs.
  destruct (link_old root S Hc p w sp bh pb h Hp Hsp Hw Hlen Hh Hch Hfree x s Hs) as (_ & s' & Hs' & E1 & _ & E3).
  split; [apply link_in_tree; try done; by left|by exists s'].
Qed.

(** A split puts one more node into the runs through the split node. *)
Lemma split_run_mono root S (Hc : core root S) n p w s sp h h2 k m l :
  in_tree root S n → S !! n = Some s → S !! p = Some sp → s_parent s = Some p → head (s_bh s) = Some h →
  (0 < k < length (s_bh s))%nat → head (drop k (s_bh s)) = Some h2 → S !! w = None →
  run root S m l → run root (split_map S n p w s sp h h2 k) m l.
Proof.
  intros Hn Hs Hsp Hp Hh Hk Hh2 Hw Hrun. set (S' := split_map S n p w s sp h h2 k).
  assert (∀ x, in_tree root S' x ↔ in_tree root S x ∨ x = w) as Hin by (intros x; by apply split_in_tree).
  assert (w ≠ root) as Hwr by (intros ->; destruct (co_root _ _ Hc) as (? & ? & _); congruence).
  assert (S' !! w = Some (Sh (take k (s_bh s)) (take k (s_pb s)) (Some p) [(h2, n)])) as Hw'.
  { unfold S'. rewrite split_lookup by done. by rewrite decide_True. }
  assert (S' !! n = Some (Sh (drop k (s_bh s)) (drop k (s_pb s)) (Some w) (s_children s))) as Hn'.
  { unfold S'. rewrite split_lookup by done. rewrite decide_False, decide_True by (done || (intros ->; congruence)). done. }
  induction Hrun as [m sm Hm Hr Hsm|m sm q l Hm Hr Hsm Hq Hrun IH].
  - destruct (decide (m = n)) as [->|Hmn].
    + simplify_eq. rewrite <- (take_drop k (s_bh s)). apply (run_up root S' n _ w (take k (s_bh s)) (proj2 (Hin n) (or_introl Hn)) Hr Hn' eq_refl).
      apply (run_one root S' w _ (proj2 (Hin w) (or_intror eq_refl)) Hwr Hw').
    + destruct (split_old root S Hc n p w s sp h h2 k Hn Hs Hsp Hp Hh Hk Hh2 Hw m sm Hsm) as (_ & sm' & Hsm' & Hsame).
      destruct (Hsame Hmn) as (<- & _ & _). apply run_one; [apply Hin; by left|done|done].
  - destruct (decide (m = n)) as [->|Hmn].
    + simplify_eq. rewrite <- (take_drop k (s_bh s)), app_assoc.
      apply (run_up root S' n _ w (l ++ take k (s_bh s)) (proj2 (Hin n) (or_introl Hn)) Hr Hn' eq_refl).
      by apply (run_up root S' w _ p l (proj2 (Hin w) (or_intror eq_refl)) Hwr Hw').
    + destruct (split_old root S Hc n p w s sp h h2 k Hn Hs Hsp Hp Hh Hk Hh2 Hw m sm Hsm) as (_ & sm' & Hsm' & Hsame).
      destruct (Hsame Hmn) as (<- & _ & Ep). eapply run_up; [apply Hin; by left|done|done|by rewrite Ep|done].
Qed.
End leaf.
