(* ===== verification/RadixWf.v ===== *)
(** * The invariant of the radix index

    [shapes] projects the store of [RadixTree] to the map studied in
    [RadixCore].  A computation that only touches cache metadata or the SWA
    fields is [quiet]: it keeps the shape of the tree and the use of its nodes
    (readiness, locks), whatever its outcome; quietness is inferred by type
    class resolution.  The SWA list is a doubly linked list over the nodes
    ([lru]).  [wf] is the invariant of the whole index. *)

From S2P Require Import Prelude PyFloat Block RadixTree RadixCore RadixLeaf.
Import RadixTree.RadixTree.
Local Open Scope Z_scope.

Module RadixWf.

(** ** Projections *)

Definition shape_of (x : RadixNode) : shape := Sh (block_hashes x) (physical_blocks x) (parent x) (children x).
Definition shapes (t : RadixTreeIndex) : Shapes := shape_of <$> store t.
Definition use_of (x : RadixNode) : bool * Z * Z := (is_ready x, lock_cnt x, swa_lock_ref x).
Definition uses (t : RadixTreeIndex) : gmap nid (bool * Z * Z) := use_of <$> store t.
Abbreviation tree t := (in_tree (root_node t) (shapes t)).

(** The fields fixed at construction. *)
Definition config (t : RadixTreeIndex) : nat * Z * Z * string * Z * nid * nid :=
  (tokens_per_block t, max_num_blocks t, hit_reward_seconds t, eviction_policy t, protected_threshold t,
   _swa_lru_head t, _swa_lru_tail t).

Lemma shapes_lookup t n : shapes t !! n = shape_of <$> store t !! n.
Proof. apply lookup_fmap. Qed.

Lemma shapes_nd t n s : shapes t !! n = Some s → s = shape_of (nd t n).
Proof. rewrite shapes_lookup. unfold nd. intros (x & -> & ->)%fmap_Some. done. Qed.

Lemma live_shapes t n : is_Some (store t !! n) ↔ shapes t !! n = Some (shape_of (nd t n)).
Proof.
  rewrite shapes_lookup. unfold nd. split; [by intros [x ->]|].
  intros (x & -> & _)%fmap_Some. by eexists.
Qed.

Lemma live_shapes_1 t n : is_Some (store t !! n) → shapes t !! n = Some (shape_of (nd t n)).
Proof. apply live_shapes. Qed.

Lemma shapes_live t n s : shapes t !! n = Some s → is_Some (store t !! n).
Proof. rewrite shapes_lookup. intros (x & -> & _)%fmap_Some. by eexists. Qed.

(** ** Quiet computations *)

Record quiet (t t' : RadixTreeIndex) : Prop := {
  q_shapes : shapes t' = shapes t;
  q_uses : uses t' = uses t;
  q_root : root_node t' = root_node t;
  q_leaf : leaf_nodes t' = leaf_nodes t;
  q_next : next_id t' = next_id t;
  q_config : config t' = config t;
}.

#[export] Instance quiet_preorder : PreOrder quiet.
Proof. split; [by intros t; split|]. intros x y z [] []. split; congruence. Qed.

Class QuietOp {A} (m : Op A) : Prop := quiet_op : ∀ t, quiet t (m t).2.

(** Mutations that keep shape and use of the node. *)
Class QuietUpd (f : RadixNode → RadixNode) : Prop := {
  qu_shape : ∀ x, shape_of (f x) = shape_of x;
  qu_use : ∀ x, use_of (f x) = use_of x;
}.
#[export] Hint Extern 1 (QuietUpd _) => (split; reflexivity) : typeclass_instances.

Lemma fmap_alter_same {B} (g : RadixNode → B) f n (m : gmap nid RadixNode) :
  (∀ x, g (f x) = g x) → g <$> alter f n m = g <$> m.
Proof.
  intros Hg. apply map_eq. intros i. rewrite !lookup_fmap.
  destruct (decide (i = n)) as [->|].
  - rewrite lookup_alter_eq. destruct (m !! n); simpl; by rewrite ?Hg.
  - by rewrite lookup_alter_ne.
Qed.

#[export] Instance quiet_upd n f `{!QuietUpd f} : QuietOp (upd n f).
Proof. intros t. split; try done; apply fmap_alter_same; apply QuietUpd0. Qed.
#[export] Instance quiet_ret {A} (a : A) : QuietOp (mret a).
Proof. by intros t. Qed.
#[export] Instance quiet_node n : QuietOp (node n).
Proof. by intros t. Qed.
#[export] Instance quiet_get : QuietOp get_state.
Proof. by intros t. Qed.
#[export] Instance quiet_raise {A} e : QuietOp (raise (A := A) e).
Proof. by intros t. Qed.
#[export] Instance quiet_lift {A} (r : result A) : QuietOp (lift_result r).
Proof. by intros t. Qed.
#[export] Instance quiet_assert b : QuietOp (assertM b).
Proof. by intros t. Qed.
#[export] Instance quiet_deref {A} (o : option A) : QuietOp (deref o).
Proof. intros t. by destruct o. Qed.
#[export] Instance quiet_not_none {A} (o : option A) : QuietOp (not_none o).
Proof. intros t. by destruct o. Qed.
#[export] Instance quiet_bind {A B} (m : Op A) (f : A → Op B) :
  QuietOp m → (∀ a, QuietOp (f a)) → QuietOp (m ≫= f).
Proof.
  intros Hm Hf t. rewrite M_bind_run. pose proof (Hm t) as H1. destruct (m t) as [[a|e] t1]; simpl in *; [|done].
  pose proof (Hf a t1). by etrans.
Qed.
#[export] Instance quiet_if {A} (b : bool) (m1 m2 : Op A) : QuietOp m1 → QuietOp m2 → QuietOp (if b then m1 else m2).
Proof. by destruct b. Qed.
#[export] Instance quiet_time clock : QuietOp (time_time clock).
Proof. by intros t. Qed.
#[export] Instance quiet_freed f : QuietOp (modify_state (with__freed_swa_slots f)).
Proof. by intros t. Qed.
#[export] Instance quiet_enabled f : QuietOp (modify_state (with__swa_enabled f)).
Proof. by intros t. Qed.

#[export] Instance quiet_swa_lru_remove n : QuietOp (_swa_lru_remove n).
Proof. unfold _swa_lru_remove. apply _. Qed.
#[export] Instance quiet_swa_lru_add_mru n : QuietOp (_swa_lru_add_mru n).
Proof. unfold _swa_lru_add_mru. apply _. Qed.
#[export] Instance quiet_record_freed n : QuietOp (record_freed_swa_slot n).
Proof. unfold record_freed_swa_slot. apply _. Qed.
#[export] Instance quiet_promote clock n : QuietOp (promote_swa clock n).
Proof. unfold promote_swa. apply _. Qed.
#[export] Instance quiet_set_swa clock n s : QuietOp (set_swa clock n s).
Proof. unfold set_swa. apply _. Qed.
#[export] Instance quiet_touch clock n : QuietOp (touch_node clock n).
Proof. unfold touch_node. apply _. Qed.
#[export] Instance quiet_drain : QuietOp drain_freed_swa_slots.
Proof. unfold drain_freed_swa_slots. apply _. Qed.

Lemma quiet_run {A} (m : Op A) `{!QuietOp m} t r t' : m t = (r, t') → quiet t t'.
Proof. intros E. pose proof (quiet_op (m := m) t) as H. by rewrite E in H. Qed.

Lemma quiet_nd_shape t t' n : quiet t t' → shape_of (nd t' n) = shape_of (nd t n).
Proof.
  intros Hq. pose proof (q_shapes _ _ Hq) as H. apply (f_equal (λ m, m !! n)) in H. rewrite !shapes_lookup in H.
  unfold nd. destruct (store t !! n), (store t' !! n); simpl in *; congruence.
Qed.

Lemma quiet_nd_use t t' n : quiet t t' → use_of (nd t' n) = use_of (nd t n).
Proof.
  intros Hq. pose proof (q_uses _ _ Hq) as H. apply (f_equal (λ m, m !! n)) in H. unfold uses in H. rewrite !lookup_fmap in H.
  unfold nd. destruct (store t !! n), (store t' !! n); simpl in *; congruence.
Qed.

Lemma quiet_live t t' n : quiet t t' → is_Some (store t' !! n) ↔ is_Some (store t !! n).
Proof.
  intros Hq. rewrite !live_shapes, (q_shapes _ _ Hq), (quiet_nd_shape _ _ n Hq). done.
Qed.

(** ** Looking at a node after mutations *)

Lemma nd_upd t n f m :
  is_Some (store t !! n) → nd (with_store (alter f n) t) m = if decide (m = n) then f (nd t n) else nd t m.
Proof.
  intros [x Hx]. unfold nd. simpl. case_decide as E.
  - subst. by rewrite lookup_alter_eq, Hx.
  - by rewrite lookup_alter_ne.
Qed.

(** Looks at one node through the equation of one mutation. *)
Ltac at_node E :=
  rewrite E; first [rewrite decide_True by (congruence || done) | rewrite decide_False by (congruence || done)].

Lemma live_upd t n f m : is_Some (store (with_store (alter f n) t) !! m) ↔ is_Some (store t !! m).
Proof. simpl. rewrite lookup_alter. case_decide; subst; [|done]. by rewrite fmap_is_Some. Qed.

(** ** The SWA list *)

(** Consecutive nodes of [l] point at each other. *)
Fixpoint links (t : RadixTreeIndex) (l : list nid) : Prop :=
  match l with
  | a :: ((b :: _) as l') => swa_lru_next (nd t a) = Some b ∧ swa_lru_prev (nd t b) = Some a ∧ links t l'
  | _ => True
  end.

Lemma links_app t l1 a l2 : links t (l1 ++ a :: l2) ↔ links t (l1 ++ [a]) ∧ links t (a :: l2).
Proof.
  induction l1 as [|x l1 IH]; [simpl; naive_solver|].
  destruct l1 as [|y l1]; [|cbn [app links] in *; naive_solver].
  cbn [app]. split.
  - intros (? & ? & ?). by split_and!.
  - intros [(? & ? & _) ?]. by split_and!.
Qed.

Lemma links_ext t t' l :
  (∀ a, a ∈ l → swa_lru_next (nd t' a) = swa_lru_next (nd t a) ∧ swa_lru_prev (nd t' a) = swa_lru_prev (nd t a)) →
  links t l → links t' l.
Proof.
  induction l as [|a l IH]; [done|]. intros H. destruct l as [|b l]; [done|].
  intros (H1 & H2 & H3). split_and!.
  - rewrite (proj1 (H a ltac:(left))). done.
  - rewrite (proj2 (H b ltac:(right; left))). done.
  - apply IH; [|done]. intros x Hx. apply H. by right.
Qed.

Record lru (t : RadixTreeIndex) (L : list nid) : Prop := {
  lru_links : links t (_swa_lru_head t :: L ++ [_swa_lru_tail t]);
  lru_nodup : NoDup (_swa_lru_head t :: L ++ [_swa_lru_tail t]);
  lru_live : ∀ n, n ∈ _swa_lru_head t :: L ++ [_swa_lru_tail t] → is_Some (store t !! n);
}.

(** The SWA view of a node. *)
Definition swa_of (x : RadixNode) : Z * bool * bool := (swa_host_slot x, swa_tombstone x, on_swa_lru x).


Lemma links_ext_ends t t' l :
  (∀ x, x ∈ take (length l - 1) l → swa_lru_next (nd t' x) = swa_lru_next (nd t x)) →
  (∀ y, y ∈ drop 1 l → swa_lru_prev (nd t' y) = swa_lru_prev (nd t y)) →
  links t l → links t' l.
Proof.
  induction l as [|a l IH]; [done|]. destruct l as [|b l]; [done|]. intros Hn Hp (H1 & H2 & H3).
  cbn [length] in Hn. rewrite Nat.sub_1_r in Hn. cbn [Nat.pred take] in Hn. split_and!.
  - rewrite Hn; [done|left].
  - rewrite Hp; [done|left].
  - apply IH; [| |done].
    + intros x Hx. apply Hn. right. cbn [length] in Hx. rewrite Nat.sub_1_r in Hx. done.
    + intros y Hy. apply Hp. cbn [drop] in *. right. by rewrite drop_0 in Hy || done.
Qed.

Lemma elem_of_take_in {A} (x : A) k l : x ∈ take k l → x ∈ l.
Proof. intros (i & Hi & _)%elem_of_take. by eapply list_elem_of_lookup_2. Qed.

Lemma take_snoc {A} (l : list A) x : take (length (l ++ [x]) - 1) (l ++ [x]) = l.
Proof. rewrite length_app. simpl. replace (length l + 1 - 1)%nat with (length l) by lia. apply take_app_length. Qed.

(** Neighbours of a member of the list. *)
Lemma lru_split t L n :
  lru t L → n ∈ L → ∃ c1 a b c2,
    _swa_lru_head t :: L ++ [_swa_lru_tail t] = c1 ++ a :: n :: b :: c2 ∧
    _swa_lru_head t :: filter (λ x, x ≠ n) L ++ [_swa_lru_tail t] = c1 ++ a :: b :: c2.
Proof.
  intros Hl Hin. apply list_elem_of_split in Hin as (l1 & l2 & ->).
  pose proof (lru_nodup _ _ Hl) as Hnd.
  assert (filter (λ x, x ≠ n) (l1 ++ n :: l2) = l1 ++ l2) as ->.
  { apply NoDup_cons in Hnd as [_ Hnd]. apply NoDup_app in Hnd as (Hnd & _ & _).
    apply NoDup_app in Hnd as (_ & H1 & H2). apply NoDup_cons in H2 as [H2 _].
    rewrite filter_app, filter_cons, decide_False by naive_solver. f_equal; apply list_filter_all || idtac.
    - clear -H1. induction l1 as [|x l1 IH]; [done|]. rewrite filter_cons, decide_True.
      + f_equal. apply IH. intros y Hy. apply H1. by right.
      + intros ->. apply (H1 n); [left|left].
    - clear -H2. induction l2 as [|x l2 IH]; [done|]. apply not_elem_of_cons in H2 as [? ?].
      rewrite filter_cons, decide_True by done. f_equal. by apply IH. }
  destruct (exists_last (l := _swa_lru_head t :: l1)) as (c1 & a & Ea); [done|].
  destruct l2 as [|b c2].
  - exists c1, a, (_swa_lru_tail t), []. rewrite <- app_assoc.
    change (_swa_lru_head t :: l1 ++ (n :: []) ++ [_swa_lru_tail t]) with ((_swa_lru_head t :: l1) ++ [n; _swa_lru_tail t]).
    rewrite app_nil_r. change (_swa_lru_head t :: l1 ++ [_swa_lru_tail t]) with ((_swa_lru_head t :: l1) ++ [_swa_lru_tail t]).
    rewrite Ea, <- !app_assoc. done.
  - exists c1, a, b, (c2 ++ [_swa_lru_tail t]). rewrite <- !app_assoc.
    change (_swa_lru_head t :: l1 ++ (n :: b :: c2) ++ [_swa_lru_tail t]) with ((_swa_lru_head t :: l1) ++ n :: b :: c2 ++ [_swa_lru_tail t]).
    change (_swa_lru_head t :: l1 ++ (b :: c2) ++ [_swa_lru_tail t]) with ((_swa_lru_head t :: l1) ++ b :: c2 ++ [_swa_lru_tail t]).
    rewrite Ea, <- !app_assoc. done.
Qed.

(** What the SWA operations do to one node and nothing else. *)
Definition set_on (b : bool) (v : Z * bool * bool) : Z * bool * bool := (v.1, b).

Record swa_step (n : nid) (f : Z * bool * bool → Z * bool * bool) (t t' : RadixTreeIndex) : Prop := {
  st_quiet : quiet t t';
  st_swa : ∀ x, swa_of (nd t' x) = if decide (x = n) then f (swa_of (nd t n)) else swa_of (nd t x);
}.

Lemma swa_lru_remove_ok t L n :
  lru t L → n ∈ L → on_swa_lru (nd t n) = true →
  ∃ t', _swa_lru_remove n t = (Ok tt, t') ∧ lru t' (filter (λ x, x ≠ n) L) ∧ swa_step n (set_on false) t t' ∧
    _freed_swa_slots t' = _freed_swa_slots t ∧ _swa_enabled t' = _swa_enabled t.
Proof.
  intros Hl Hin Hon. destruct (lru_split _ _ _ Hl Hin) as (c1 & a & b & c2 & Ec & Ec').
  pose proof (lru_links _ _ Hl) as Hlk. pose proof (lru_nodup _ _ Hl) as Hnd. pose proof (lru_live _ _ Hl) as Hlv.
  rewrite Ec in Hlk, Hnd, Hlv.
  apply links_app in Hlk as [Hlk1 (Han & Hna & Hnb & Hbn & Hlk2)].
  apply NoDup_app in Hnd as (Hnd1 & Hdis & Hnd2). apply NoDup_cons in Hnd2 as [Ha Hnd2].
  apply NoDup_cons in Hnd2 as [Hn Hnd2]. apply NoDup_cons in Hnd2 as [Hb Hnd2].
  assert (a ≠ n ∧ a ≠ b ∧ n ≠ b) as (Hne1 & Hne2 & Hne3) by (rewrite !not_elem_of_cons in *; naive_solver).
  assert (is_Some (store t !! a) ∧ is_Some (store t !! n) ∧ is_Some (store t !! b)) as (Hla & Hln & Hlb).
  { split_and!; apply Hlv; set_solver. }
  set (t1 := with_store (alter (λ p, set_swa_lru_next p (Some b)) a) t).
  assert (∀ x, nd t1 x = if decide (x = a) then set_swa_lru_next (nd t a) (Some b) else nd t x) as E1 by (intros; by apply nd_upd).
  set (t2 := with_store (alter (λ p, set_swa_lru_prev p (Some a)) b) t1).
  assert (∀ x, nd t2 x = if decide (x = b) then set_swa_lru_prev (nd t1 b) (Some a) else nd t1 x) as E2.
  { intros. apply nd_upd. by apply live_upd. }
  set (t3 := with_store (alter (λ p, set_swa_lru_prev p None) n) t2).
  assert (∀ x, nd t3 x = if decide (x = n) then set_swa_lru_prev (nd t2 n) None else nd t2 x) as E3.
  { intros. apply nd_upd. by do 2 apply live_upd. }
  set (t4 := with_store (alter (λ p, set_swa_lru_next p None) n) t3).
  assert (∀ x, nd t4 x = if decide (x = n) then set_swa_lru_next (nd t3 n) None else nd t3 x) as E4.
  { intros. apply nd_upd. by do 3 apply live_upd. }
  set (t5 := with_store (alter (λ p, set_on_swa_lru p false) n) t4).
  assert (∀ x, nd t5 x = if decide (x = n) then set_on_swa_lru (nd t4 n) false else nd t4 x) as E5.
  { intros. apply nd_upd. by do 4 apply live_upd. }
  assert (_swa_lru_remove n t = (Ok tt, t5)) as Erun.
  { unfold _swa_lru_remove. rewrite M_bind_run. cbn [node gets]. rewrite Hon. cbn [negb].
    rewrite M_bind_run, Hna. cbn [deref mret M_ret]. rewrite M_bind_run. cbn [upd modify_state]. rewrite Hnb. fold t1.
    rewrite M_bind_run. cbn [node gets]. rewrite (E1 n), decide_False by done. rewrite Hnb. rewrite M_bind_run.
    cbn [deref mret M_ret]. rewrite M_bind_run. cbn [upd modify_state]. rewrite Hna. fold t2.
    rewrite !M_bind_run. done. }
  exists t5. split; [done|].
  assert (∀ x, x ≠ a → x ≠ b → x ≠ n → nd t5 x = nd t x) as Eother.
  { intros x ? ? ?. by at_node E5; at_node E4; at_node E3; at_node E2; at_node E1. }
  assert (nd t5 a = set_swa_lru_next (nd t a) (Some b)) as Ea.
  { by at_node E5; at_node E4; at_node E3; at_node E2; at_node E1. }
  assert (nd t5 b = set_swa_lru_prev (nd t b) (Some a)) as Eb.
  { by at_node E5; at_node E4; at_node E3; at_node E2; at_node E1. }
  split; [|split; [|done]].
  - split; change (_swa_lru_head t5) with (_swa_lru_head t); change (_swa_lru_tail t5) with (_swa_lru_tail t).
    + rewrite Ec'. apply links_app. split; [|split_and!].
      * apply (links_ext_ends t); [| |done].
        -- intros x. rewrite take_snoc. intros Hx. rewrite Eother; [done|..]; intros ->; apply (Hdis _ Hx); set_solver.
        -- intros y Hy. assert (y ∈ c1 ∨ y = a) as [Hy'| ->].
           { destruct c1; simpl in Hy; set_solver. }
           ++ rewrite Eother; [done|..]; intros ->; apply (Hdis _ Hy'); set_solver.
           ++ by rewrite Ea.
      * by rewrite Ea.
      * by rewrite Eb.
      * apply (links_ext_ends t); [| |done].
        -- intros x Hx%elem_of_take_in. destruct (decide (x = b)) as [->|]; [by rewrite Eb|].
           rewrite Eother; [done|..]; intros ->; set_solver.
        -- intros y Hy. cbn [drop] in Hy. rewrite Eother; [done|..]; intros ->; set_solver.
    + rewrite Ec'. apply NoDup_app. split_and!; [done|set_solver|].
      apply NoDup_cons. split; [set_solver|]. by apply NoDup_cons.
    + rewrite Ec'. intros x Hx. do 5 apply live_upd. apply Hlv. set_solver.
  - split; [exact (quiet_run _ _ _ _ Erun)|]. intros x. destruct (decide (x = n)) as [->|Hx].
    + by at_node E5; at_node E4; at_node E3; at_node E2; at_node E1.
    + destruct (decide (x = a)) as [->|]; [by rewrite Ea|]. destruct (decide (x = b)) as [->|]; [by rewrite Eb|].
      by rewrite Eother.
Qed.

Lemma swa_lru_add_new t L n :
  lru t L → n ∉ _swa_lru_head t :: L ++ [_swa_lru_tail t] → is_Some (store t !! n) → on_swa_lru (nd t n) = false →
  ∃ t', _swa_lru_add_mru n t = (Ok tt, t') ∧ lru t' (n :: L) ∧ swa_step n (set_on true) t t' ∧
    _freed_swa_slots t' = _freed_swa_slots t ∧ _swa_enabled t' = _swa_enabled t.
Proof.
  intros Hl Hin Hln Hon.
  assert (∃ b c, L ++ [_swa_lru_tail t] = b :: c) as (b & c & Eb) by (destruct L; by eexists _, _).
  pose proof (lru_links _ _ Hl) as Hlk. pose proof (lru_nodup _ _ Hl) as Hnd. pose proof (lru_live _ _ Hl) as Hlv.
  rewrite Eb in Hlk, Hnd, Hlv, Hin. destruct Hlk as (Hhb & Hbh & Hlk).
  apply not_elem_of_cons in Hin as [Hnh Hin]. apply not_elem_of_cons in Hin as [Hnb Hnc].
  pose proof (proj1 (proj1 (NoDup_cons _ _) Hnd)) as Hh. apply not_elem_of_cons in Hh as [Hhb' Hhc].
  pose proof (proj2 (proj1 (NoDup_cons _ _) Hnd)) as [Hb Hc]%NoDup_cons.
  assert (is_Some (store t !! _swa_lru_head t) ∧ is_Some (store t !! b)) as [Hlh Hlb] by (split; apply Hlv; set_solver).
  set (hd := _swa_lru_head t) in *.
  set (t1 := with_store (alter (λ x, set_swa_lru_prev x (Some hd)) n) t).
  assert (∀ x, nd t1 x = if decide (x = n) then set_swa_lru_prev (nd t n) (Some hd) else nd t x) as E1 by (intros; by apply nd_upd).
  set (t2 := with_store (alter (λ x, set_swa_lru_next x (Some b)) n) t1).
  assert (∀ x, nd t2 x = if decide (x = n) then set_swa_lru_next (nd t1 n) (Some b) else nd t1 x) as E2.
  { intros. apply nd_upd. by apply live_upd. }
  set (t3 := with_store (alter (λ x, set_swa_lru_next x (Some n)) hd) t2).
  assert (∀ x, nd t3 x = if decide (x = hd) then set_swa_lru_next (nd t2 hd) (Some n) else nd t2 x) as E3.
  { intros. apply nd_upd. by do 2 apply live_upd. }
  set (t4 := with_store (alter (λ x, set_swa_lru_prev x (Some n)) b) t3).
  assert (∀ x, nd t4 x = if decide (x = b) then set_swa_lru_prev (nd t3 b) (Some n) else nd t3 x) as E4.
  { intros. apply nd_upd. by do 3 apply live_upd. }
  set (t5 := with_store (alter (λ x, set_on_swa_lru x true) n) t4).
  assert (∀ x, nd t5 x = if decide (x = n) then set_on_swa_lru (nd t4 n) true else nd t4 x) as E5.
  { intros. apply nd_upd. by do 4 apply live_upd. }
  assert (_swa_lru_add_mru n t = (Ok tt, t5)) as Erun.
  { unfold _swa_lru_add_mru. rewrite M_bind_run. cbn [node gets]. rewrite Hon. cbn [mret M_ret].
    cbv beta iota delta [mbind M_bind mret M_ret get_state upd modify_state]. fold hd. rewrite Hhb. done. }
  exists t5. split; [done|].
  assert (∀ x, x ≠ hd → x ≠ b → x ≠ n → nd t5 x = nd t x) as Eother.
  { intros x ? ? ?. by at_node E5; at_node E4; at_node E3; at_node E2; at_node E1. }
  assert (nd t5 hd = set_swa_lru_next (nd t hd) (Some n)) as Eh.
  { by at_node E5; at_node E4; at_node E3; at_node E2; at_node E1. }
  assert (nd t5 b = set_swa_lru_prev (nd t b) (Some n)) as Ebb.
  { by at_node E5; at_node E4; at_node E3; at_node E2; at_node E1. }
  assert (nd t5 n = set_on_swa_lru (set_swa_lru_next (set_swa_lru_prev (nd t n) (Some hd)) (Some b)) true) as En.
  { by at_node E5; at_node E4; at_node E3; at_node E2; at_node E1. }
  split; [|split; [|done]].
  - split; change (_swa_lru_head t5) with hd; change (_swa_lru_tail t5) with (_swa_lru_tail t); cbn [app]; rewrite Eb.
    + refine (conj _ (conj _ (conj _ (conj _ _)))); [by rewrite Eh|by rewrite En|by rewrite En|by rewrite Ebb|].
      change (links t5 (b :: c)). apply (links_ext_ends t); [| |done].
      * intros x Hx%elem_of_take_in. destruct (decide (x = b)) as [->|]; [by rewrite Ebb|].
        rewrite Eother; [done|..]; intros ->; set_solver.
      * intros y Hy. cbn [drop] in Hy. rewrite Eother; [done|..]; intros ->; set_solver.
    + rewrite !NoDup_cons. set_solver.
    + intros x Hx. do 5 apply live_upd. destruct (decide (x = n)) as [->|]; [done|]. apply Hlv. set_solver.
  - split; [exact (quiet_run _ _ _ _ Erun)|]. intros x. destruct (decide (x = n)) as [->|Hx]; [by rewrite En|].
    destruct (decide (x = hd)) as [->|]; [by rewrite Eh|]. destruct (decide (x = b)) as [->|]; [by rewrite Ebb|].
    by rewrite Eother.
Qed.

(** The list [L] holds exactly the nodes of [D] that have a slot. *)
Record swa_ok (D : nid → Prop) (t : RadixTreeIndex) (L : list nid) : Prop := {
  so_lru : lru t L;
  so_dom : ∀ n, n ∈ L → D n ∧ n ≠ root_node t;
  so_live : ∀ n, D n → is_Some (store t !! n) ∧ n ≠ _swa_lru_head t ∧ n ≠ _swa_lru_tail t;
  so_on : ∀ n, D n → on_swa_lru (nd t n) = bool_decide (n ∈ L);
  so_has : ∀ n, D n → has_swa (nd t n) = on_swa_lru (nd t n);
  so_tomb : ∀ n, D n → swa_tombstone (nd t n) = (swa_host_slot (nd t n) <? 0);
}.

Lemma swa_ok_weaken (D D' : nid → Prop) t L :
  swa_ok D t L → (∀ n, D' n → D n) → (∀ n, n ∈ L → D' n) → swa_ok D' t L.
Proof. intros [? Hd] ? ?. split; [done| |naive_solver..]. intros n Hn. split; [auto|]. by apply Hd. Qed.

Lemma quiet_heads t t' : quiet t t' → _swa_lru_head t' = _swa_lru_head t ∧ _swa_lru_tail t' = _swa_lru_tail t.
Proof. intros Hq. pose proof (q_config _ _ Hq) as Hcf. unfold config in Hcf. by injection Hcf. Qed.

Lemma lru_ext t t' L :
  quiet t t' → (∀ a, swa_lru_next (nd t' a) = swa_lru_next (nd t a) ∧ swa_lru_prev (nd t' a) = swa_lru_prev (nd t a)) →
  lru t L → lru t' L.
Proof.
  intros Hq He [H1 H2 H3]. destruct (quiet_heads _ _ Hq) as [Eh Et].
  split; rewrite Eh, Et; [|done|].
  - eapply links_ext; [|done]. intros a _. apply He.
  - intros n Hn. rewrite (quiet_live _ _ _ Hq). by apply H3.
Qed.

Lemma swa_of_inv x y : swa_of x = swa_of y →
  swa_host_slot x = swa_host_slot y ∧ swa_tombstone x = swa_tombstone y ∧ on_swa_lru x = on_swa_lru y ∧ has_swa x = has_swa y.
Proof. unfold swa_of, has_swa. intros [= -> -> ->]. done. Qed.

(** One SWA step keeps the invariant when the new view of the node agrees with the new list. *)
Lemma swa_ok_step D t t' L L' n f :
  swa_ok D t L → D n → n ≠ root_node t → lru t' L' → swa_step n f t t' →
  (∀ x, x ≠ n → x ∈ L' ↔ x ∈ L) →
  (let v := f (swa_of (nd t n)) in v.2 = bool_decide (n ∈ L') ∧ negb v.1.2 && (0 <=? v.1.1) = v.2 ∧ v.1.2 = (v.1.1 <? 0)) →
  swa_ok D t' L'.
Proof.
  intros [H1 H2 H3 H4 H5 H6] Hn Hr Hl' [Hq Hs] HL Hv. destruct (quiet_heads _ _ Hq) as [Hhd Htl].
  assert (∀ x, x ≠ n → swa_of (nd t' x) = swa_of (nd t x)) as Hsame.
  { intros x Hx. rewrite Hs. by rewrite decide_False. }
  assert (swa_of (nd t' n) = f (swa_of (nd t n))) as Hsn by (rewrite Hs; by rewrite decide_True).
  rewrite <- Hsn in Hv. clear Hs. split; [done|..].
  - intros x Hx. rewrite (q_root _ _ Hq). destruct (decide (x = n)) as [->|Hne]; [done|]. apply H2. by apply HL.
  - intros x Hx. rewrite (quiet_live _ _ _ Hq), Hhd, Htl. auto.
  - intros x Hx. destruct (decide (x = n)) as [->|Hne]; [apply Hv|].
    destruct (swa_of_inv _ _ (Hsame x Hne)) as (_ & _ & -> & _). rewrite H4 by done. apply bool_decide_ext. by rewrite HL.
  - intros x Hx. destruct (decide (x = n)) as [->|Hne]; [apply Hv|].
    destruct (swa_of_inv _ _ (Hsame x Hne)) as (_ & _ & -> & ->). auto.
  - intros x Hx. destruct (decide (x = n)) as [->|Hne]; [apply Hv|].
    destruct (swa_of_inv _ _ (Hsame x Hne)) as (-> & -> & _). auto.
Qed.

(** A mutation of SWA fields other than the links. *)
Lemma swa_upd_lru t L n f (Hf : QuietUpd f) :
  (∀ x, swa_lru_next (f x) = swa_lru_next x ∧ swa_lru_prev (f x) = swa_lru_prev x) →
  is_Some (store t !! n) → lru t L → lru (with_store (alter f n) t) L.
Proof.
  intros He Hln. apply lru_ext; [apply (quiet_upd n f)|]. intros a. rewrite nd_upd by done. case_decide; [subst; apply He|done].
Qed.

Lemma filter_notin {A} `{!EqDecision A} (L : list A) n : n ∉ L → filter (λ x, x ≠ n) L = L.
Proof.
  induction L as [|x L IH]; [done|]. intros [? ?]%not_elem_of_cons. rewrite filter_cons, decide_True by done. f_equal. auto.
Qed.

(** Removal whether or not the node is on the list. *)
Lemma swa_lru_remove_any t L n :
  lru t L → on_swa_lru (nd t n) = bool_decide (n ∈ L) → 
  ∃ t', _swa_lru_remove n t = (Ok tt, t') ∧ lru t' (filter (λ x, x ≠ n) L) ∧ swa_step n (set_on false) t t' ∧
    _freed_swa_slots t' = _freed_swa_slots t ∧ _swa_enabled t' = _swa_enabled t.
Proof.
  intros Hl Hon. destruct (decide (n ∈ L)) as [Hin|Hin].
  - apply swa_lru_remove_ok; [done|done|]. by rewrite Hon, bool_decide_eq_true.
  - exists t. rewrite bool_decide_eq_false_2 in Hon by done. unfold _swa_lru_remove. rewrite M_bind_run. cbn [node gets]. rewrite Hon.
    rewrite filter_notin by done. split_and!; [done|done| |done|done]. split; [done|].
    intros x. case_decide; [|done]. subst. unfold set_on, swa_of. by rewrite Hon.
Qed.

Lemma swa_step_trans n f g t1 t2 t3 : swa_step n f t1 t2 → swa_step n g t2 t3 → swa_step n (g ∘ f) t1 t3.
Proof.
  intros [Q1 H1] [Q2 H2]. split; [by etrans|]. intros x. rewrite H2. rewrite !H1. simpl. by repeat case_decide.
Qed.

Lemma swa_step_upd t n f g `{!QuietUpd f} :
  is_Some (store t !! n) → (∀ x, swa_of (f x) = g (swa_of x)) → swa_step n g t (with_store (alter f n) t).
Proof. intros Hln Hg. split; [apply (quiet_upd n f)|]. intros x. rewrite nd_upd by done. case_decide; [apply Hg|done]. Qed.

Lemma swa_step_same t t' n : quiet t t' → store t' = store t → swa_step n id t t'.
Proof. intros Hq Hs. split; [done|]. intros x. unfold nd. rewrite Hs. by case_decide; subst. Qed.

Lemma lru_same t t' L : quiet t t' → store t' = store t → lru t L → lru t' L.
Proof. intros Hq Hs. apply lru_ext; [done|]. unfold nd. by rewrite Hs. Qed.

(** Freeing the slot of a node: the slot moves to the free list, the node leaves the SWA list. *)
Lemma record_freed_ok D t L n :
  swa_ok D t L → D n → n ≠ root_node t →
  ∃ t', record_freed_swa_slot n t = (Ok tt, t') ∧ swa_ok D t' (filter (λ x, x ≠ n) L) ∧
    swa_step n (λ _, (-1, true, false)) t t' ∧
    _freed_swa_slots t' = _freed_swa_slots t ++ (if 0 <=? swa_host_slot (nd t n) then [swa_host_slot (nd t n)] else []) ∧
    _swa_enabled t' = _swa_enabled t.
Proof.
  intros Hok Hn Hr. destruct (so_live _ _ _ Hok n Hn) as [Hln _].
  set (t1 := if 0 <=? swa_host_slot (nd t n)
             then with__freed_swa_slots (λ l, l ++ [swa_host_slot (nd t n)]) t else t).
  assert (store t1 = store t) as Es by (unfold t1; by case_match).
  assert (quiet t t1) as Q1 by (unfold t1; by case_match; [split|]).
  assert (nd t1 n = nd t n) as En by (unfold nd; by rewrite Es).
  set (t2 := with_store (alter (λ x, set_swa_host_slot x (-1)) n) t1).
  set (t3 := with_store (alter (λ x, set_swa_tombstone x true) n) t2).
  assert (is_Some (store t1 !! n)) as Hl1 by (by rewrite Es).
  assert (is_Some (store t2 !! n)) as Hl2 by (by apply live_upd).
  assert (lru t3 L) as Hl3.
  { apply swa_upd_lru; [apply _|done|done|]. apply swa_upd_lru; [apply _|done|done|]. by apply (lru_same t), Hok. }
  assert (swa_step n (λ v, (-1, true, v.2)) t t3) as S3.
  { refine (swa_step_trans n (λ v, (-1, v.1.2, v.2)) (λ v, (v.1.1, true, v.2)) t t2 t3 _ _);
      [refine (swa_step_trans n id (λ v, (-1, v.1.2, v.2)) t t1 t2 _ _)|].
    - by apply swa_step_same.
    - by apply (swa_step_upd t1).
    - by apply (swa_step_upd t2). }
  destruct (swa_lru_remove_any t3 L n Hl3) as (t' & E & Hl' & S' & F & En').
  { rewrite <- (so_on _ _ _ Hok n Hn). pose proof (st_swa _ _ _ _ S3 n) as S. rewrite decide_True in S by done. by injection S. }
  exists t'. assert (swa_step n (λ _, (-1, true, false)) t t') as S by exact (swa_step_trans _ _ _ _ _ _ S3 S').
  split; [|split; [|split; [done|split]]].
  - unfold record_freed_swa_slot. rewrite M_bind_run. cbn [node gets]. rewrite <- E.
    subst t3 t2 t1. by destruct (0 <=? swa_host_slot (nd t n)).
  - eapply swa_ok_step; [done|done|done|done|done| |].
    + intros x Hx. rewrite list_elem_of_filter. naive_solver.
    + simpl. split; [|done]. symmetry. apply bool_decide_eq_false_2. rewrite list_elem_of_filter. naive_solver.
  - rewrite F. subst t3 t2 t1. destruct (0 <=? swa_host_slot (nd t n)); simpl; by rewrite ?app_nil_r.
  - rewrite En'. subst t3 t2 t1. by destruct (0 <=? swa_host_slot (nd t n)).
Qed.

(** Moving a node to the most recently used end. *)
Lemma swa_lru_add_ok D t L n :
  swa_ok D t L → D n →
  ∃ t', _swa_lru_add_mru n t = (Ok tt, t') ∧ lru t' (n :: filter (λ x, x ≠ n) L) ∧ swa_step n (set_on true) t t' ∧
    _freed_swa_slots t' = _freed_swa_slots t ∧ _swa_enabled t' = _swa_enabled t.
Proof.
  intros Hok Hn. destruct (so_live _ _ _ Hok n Hn) as (Hln & Hnh & Hnt). pose proof (so_lru _ _ _ Hok) as Hl.
  assert (∀ t1 L1, lru t1 L1 → quiet t t1 → n ∉ L1 → on_swa_lru (nd t1 n) = false →
    ∃ t', _swa_lru_add_mru n t1 = (Ok tt, t') ∧ lru t' (n :: L1) ∧ swa_step n (set_on true) t1 t' ∧
      _freed_swa_slots t' = _freed_swa_slots t1 ∧ _swa_enabled t' = _swa_enabled t1) as Hnew.
  { intros t1 L1 Hl1 Q Hnl Hon. destruct (quiet_heads _ _ Q) as [Eh Et]. apply swa_lru_add_new; [done| | |done].
    - rewrite Eh, Et. set_solver.
    - by apply (quiet_live _ _ _ Q). }
  destruct (decide (n ∈ L)) as [Hin|Hin].
  - assert (on_swa_lru (nd t n) = true) as Hon by (rewrite (so_on _ _ _ Hok n Hn); by apply bool_decide_eq_true).
    destruct (swa_lru_remove_ok t L n Hl Hin Hon) as (t1 & E1 & Hl1 & S1 & F1 & N1).
    pose proof (st_swa _ _ _ _ S1 n) as Sn. rewrite decide_True in Sn by done. injection Sn as _ _ Hon1.
    destruct (Hnew t1 (filter (λ x, x ≠ n) L)) as (t' & E & Hl' & S' & F & N); [done|apply S1| |done|].
    { rewrite list_elem_of_filter. naive_solver. }
    exists t'. split; [|split_and!; [done| |congruence|congruence]].
    + rewrite <- E. unfold _swa_lru_add_mru. cbv beta iota delta [mbind M_bind mret M_ret node gets].
      by rewrite Hon, Hon1, E1.
    + pose proof (swa_step_trans _ _ _ _ _ _ S1 S') as [Q S]. split; [done|]. intros x. rewrite S. by case_decide.
  - rewrite filter_notin by done. apply Hnew; [done|done|done|]. rewrite (so_on _ _ _ Hok n Hn). by apply bool_decide_eq_false.
Qed.

(** Mutations of cache metadata only. *)
Definition swa_links (x : RadixNode) : Z * bool * bool * option nid * option nid :=
  (swa_of x, swa_lru_next x, swa_lru_prev x).

Lemma swa_links_inv x y : swa_links x = swa_links y →
  swa_of x = swa_of y ∧ swa_lru_next x = swa_lru_next y ∧ swa_lru_prev x = swa_lru_prev y.
Proof. unfold swa_links, swa_of. intros [=]. split_and!; congruence. Qed.

Record calm (t t' : RadixTreeIndex) : Prop := {
  ca_quiet : quiet t t';
  ca_swa : ∀ n, swa_links (nd t' n) = swa_links (nd t n);
  ca_freed : _freed_swa_slots t' = _freed_swa_slots t;
  ca_enabled : _swa_enabled t' = _swa_enabled t;
}.

#[export] Instance calm_preorder : PreOrder calm.
Proof. split; [by intros t; split|]. intros x y z [] []. split; [by etrans|intros; congruence..]. Qed.

Lemma calm_upd t n f `{!QuietUpd f} : (∀ x, swa_links (f x) = swa_links x) → calm t (with_store (alter f n) t).
Proof.
  intros Hf. split; [apply (quiet_upd n f)| |done..]. intros m. unfold nd. simpl. rewrite lookup_alter.
  case_decide; [subst|done]. destruct (store t !! m); simpl; [apply Hf|done].
Qed.

Lemma swa_ok_calm D t t' L : calm t t' → swa_ok D t L → swa_ok D t' L.
Proof.
  intros [Q S _ _] [H1 H2 H3 H4 H5 H6]. destruct (quiet_heads _ _ Q) as [Hh Ht].
  assert (∀ n, swa_of (nd t' n) = swa_of (nd t n)) as So.
  { intros n. apply (swa_links_inv _ _ (S n)). }
  split.
  - eapply lru_ext; [done| |done]. intros a. apply (swa_links_inv _ _ (S a)).
  - by rewrite (q_root _ _ Q).
  - intros n Hn. rewrite (quiet_live _ _ _ Q), Hh, Ht. auto.
  - intros n Hn. destruct (swa_of_inv _ _ (So n)) as (_ & _ & -> & _). auto.
  - intros n Hn. destruct (swa_of_inv _ _ (So n)) as (_ & _ & -> & ->). auto.
  - intros n Hn. destruct (swa_of_inv _ _ (So n)) as (-> & -> & _). auto.
Qed.

Lemma touch_calm clock n t : ∃ t', touch_node clock n t = (Ok tt, t') ∧ calm t t'.
Proof.
  unfold touch_node. cbv beta iota delta [mbind M_bind mret M_ret get_state time_time put_state upd modify_state].
  eexists. split; [reflexivity|]. set (t0 := with_ticks S t). trans t0; [by split|].
  do 2 (etrans; [|by apply calm_upd]). by apply calm_upd.
Qed.

Section swa_ops.
Context (clock : nat → float).

Lemma promote_ok D t L n :
  swa_ok D t L → D n →
  ∃ t' L', promote_swa clock n t = (Ok tt, t') ∧ swa_ok D t' L' ∧ swa_step n id t t' ∧
    _freed_swa_slots t' = _freed_swa_slots t ∧ _swa_enabled t' = _swa_enabled t.
Proof.
  intros Hok Hn. unfold promote_swa. rewrite M_bind_run. cbn [get_state]. rewrite M_bind_run. cbn [node gets].
  destruct (bool_decide (n = root_node t)) eqn:Er; simpl.
  { exists t, L. split_and!; [done|done| |done|done]. by apply swa_step_same. }
  apply bool_decide_eq_false in Er. destruct (has_swa (nd t n)) eqn:Eh; simpl.
  2:{ exists t, L. split_and!; [done|done| |done|done]. by apply swa_step_same. }
  pose proof (so_has _ _ _ Hok n Hn) as Hh. pose proof (so_on _ _ _ Hok n Hn) as Ho. rewrite Eh in Hh. rewrite <- Hh in Ho.
  symmetry in Ho. apply bool_decide_eq_true in Ho.
  cbv beta iota delta [mbind M_bind mret M_ret get_state time_time put_state upd modify_state].
  set (t1 := with_store _ _).
  assert (calm t t1) as C1 by (trans (with_ticks S t); [by split|by apply calm_upd]).
  destruct (swa_lru_add_ok D t1 L n) as (t' & E & Hl & St & F & N); [by eapply swa_ok_calm|done|].
  exists t', (n :: filter (λ x, x ≠ n) L). split; [exact E|].
  assert (swa_of (nd t1 n) = swa_of (nd t n)) as Es.
  { apply (swa_links_inv _ _ (ca_swa _ _ C1 n)). }
  assert (swa_step n (set_on true) t t') as St'.
  { split; [etrans; [apply C1|apply St]|]. intros x. rewrite (st_swa _ _ _ _ St). case_decide; [by rewrite Es|].
    apply (swa_links_inv _ _ (ca_swa _ _ C1 x)). }
  split_and!; [| |rewrite F; apply C1|rewrite N; apply C1].
  - eapply swa_ok_step; [done|done|done|done|done| |].
    + intros x Hx. rewrite elem_of_cons, list_elem_of_filter. naive_solver.
    + simpl. split_and!.
      * symmetry. apply bool_decide_eq_true. left.
      * unfold has_swa in Eh. by rewrite Eh.
      * by apply (so_tomb _ _ _ Hok).
  - split; [apply St'|]. intros x. rewrite (st_swa _ _ _ _ St'). case_decide; [|done].
    unfold set_on, swa_of. simpl. by rewrite <- Hh.
Qed.

(** Attaching a slot to a node that has none. *)
Lemma set_swa_ok D t L n slot :
  swa_ok D t L → D n → n ≠ root_node t → 0 <= slot → swa_host_slot (nd t n) < 0 →
  ∃ t' L', set_swa clock n slot t = (Ok tt, t') ∧ swa_ok D t' L' ∧ swa_step n (λ _, (slot, false, true)) t t' ∧
    _freed_swa_slots t' = _freed_swa_slots t ∧ _swa_enabled t' = true.
Proof.
  intros Hok Hn Hr Hs Hneg. destruct (so_live _ _ _ Hok n Hn) as [Hln _].
  unfold set_swa. rewrite M_bind_run. cbn [get_state].
  rewrite (bool_decide_eq_false_2 (n = root_node t)) by done. cbn [negb assertM lift_result py_assert]. rewrite M_bind_run.
  cbn [assertM lift_result py_assert]. rewrite M_bind_run. cbn [node gets].
  rewrite (proj2 (Z.ltb_lt _ _) Hneg). cbn [orb]. rewrite M_bind_run. cbn [assertM lift_result py_assert].
  assert (on_swa_lru (nd t n) = false) as Hon.
  { rewrite <- (so_has _ _ _ Hok n Hn). unfold has_swa. rewrite (proj2 (Z.leb_gt _ _)) by lia. by rewrite andb_false_r. }
  set (t1 := with_store (alter (λ x, set_swa_host_slot x slot) n) t).
  set (t2 := with_store (alter (λ x, set_swa_tombstone x false) n) t1).
  set (t3 := with_ticks S t2).
  set (t4 := with_store (alter (λ x, set_swa_last_access_time x (clock (ticks t))) n) t3).
  assert (swa_step n (λ v, (slot, false, v.2)) t t4) as S4.
  { refine (swa_step_trans n (λ v, (slot, v.1.2, v.2)) (λ v, (v.1.1, false, v.2)) t t1 t4 _ _); [by apply (swa_step_upd t)|].
    refine (swa_step_trans n (λ v, (v.1.1, false, v.2)) id t1 t2 t4 _ _); [apply (swa_step_upd t1); [apply _|by apply live_upd|done]|].
    refine (swa_step_trans n id id t2 t3 t4 _ _); [by apply swa_step_same|].
    apply (swa_step_upd t3); [apply _|by do 2 apply live_upd|done]. }
  assert (lru t4 L) as Hl4.
  { repeat (apply swa_upd_lru; [apply _|done|by repeat apply live_upd|]). apply (lru_same t2); [by split|done|].
    repeat (apply swa_upd_lru; [apply _|done|by repeat apply live_upd|]). apply Hok. }
  assert (n ∉ L) as Hnl.
  { apply (bool_decide_eq_false (n ∈ L)). by rewrite <- (so_on _ _ _ Hok n Hn). }
  destruct (swa_lru_add_new t4 L n Hl4) as (t5 & E & Hl5 & S5 & F & N).
  { destruct (so_live _ _ _ Hok n Hn) as (_ & Hh & Ht). rewrite elem_of_cons, elem_of_app, list_elem_of_singleton. by intros [|[|]]. }
  { by do 2 (apply live_upd; try apply live_upd). }
  { pose proof (st_swa _ _ _ _ S4 n) as E. rewrite decide_True in E by done. injection E as _ _ E. by rewrite E. }
  pose proof (swa_step_trans _ _ _ _ _ _ S4 S5) as S.
  exists (with__swa_enabled (λ _, true) t5), (n :: L).
  assert (quiet t5 (with__swa_enabled (λ _, true) t5)) as Q by (by split).
  split_and!; [| | |exact F|done].
  - transitivity ((_swa_lru_add_mru n ;; modify_state (with__swa_enabled (λ _, true))) t4); [reflexivity|].
    by rewrite M_bind_run, E.
  - eapply (swa_ok_step D t _ L _ n (λ _, (slot, false, true))); [done|done|done|by apply (lru_same t5)| | |].
    + by refine (swa_step_trans _ _ id _ _ _ S (swa_step_same _ _ _ Q _)).
    + intros x Hx. rewrite elem_of_cons. naive_solver.
    + simpl. split_and!; [symmetry; apply bool_decide_eq_true; left|by apply Z.leb_le|]. symmetry. by apply Z.ltb_ge.
  - by refine (swa_step_trans _ _ id _ _ _ S (swa_step_same _ _ _ Q _)).
Qed.
End swa_ops.

(** ** The leaf table and the invariant *)

Section wf.
Context `{!PrefixHash}.

Record wf (t : RadixTreeIndex) : Prop := {
  wf_core : core (root_node t) (shapes t);
  wf_leaf : leaf_ok (root_node t) (shapes t) (leaf_nodes t);
  wf_next : ∀ n, is_Some (store t !! n) → (n < next_id t)%nat;
  wf_swa : ∃ L, swa_ok (tree t) t L;
}.

Lemma wf_quiet t t' : wf t → quiet t t' → (∃ L, swa_ok (tree t) t' L) → wf t'.
Proof.
  intros [H1 H2 H3 H4] Q HL. pose proof Q as [Q1 Q2 Q3 Q4 Q5 Q6]. split.
  - by rewrite Q1, Q3.
  - by rewrite Q1, Q3, Q4.
  - intros n. rewrite (quiet_live _ _ _ Q), Q5. auto.
  - by rewrite Q1, Q3.
Qed.

Lemma wf_calm t t' : wf t → calm t t' → wf t'.
Proof.
  intros Hwf C. eapply wf_quiet; [done|apply C|]. destruct (wf_swa _ Hwf) as [L HL]. exists L. by eapply swa_ok_calm.
Qed.

Lemma shape_head x : head_hash x = default 0 (head (s_bh (shape_of x))).
Proof. done. Qed.

(** A node of the tree, through the store. *)
Lemma tree_shape t n : wf t → tree t n → shapes t !! n = Some (shape_of (nd t n)).
Proof. intros Hwf Hn. destruct (in_tree_live _ _ (wf_core _ Hwf) _ Hn) as [s Hs]. rewrite Hs. by apply shapes_nd in Hs as ->. Qed.

Lemma tree_live t n : wf t → tree t n → is_Some (store t !! n).
Proof. intros Hwf Hn. by eapply shapes_live, tree_shape. Qed.

Lemma is_root_iff t n : wf t → tree t n → is_root (nd t n) = bool_decide (n = root_node t).
Proof.
  intros Hwf Hn. pose proof (root_iff _ _ (wf_core _ Hwf) n _ Hn (tree_shape _ _ Hwf Hn)) as Hr. simpl in Hr.
  unfold is_root. symmetry. destruct (parent (nd t n)).
  - apply bool_decide_eq_false. intros E. by apply Hr in E.
  - apply bool_decide_eq_true. by apply Hr.
Qed.

Lemma root_shape t : wf t → block_hashes (nd t (root_node t)) = [] ∧ physical_blocks (nd t (root_node t)) = [] ∧
  parent (nd t (root_node t)) = None.
Proof.
  intros Hwf. destruct (root_empty _ _ (wf_core _ Hwf) _ (tree_shape _ _ Hwf (in_root _ _))) as (? & ? & ?). done.
Qed.

(** A node of the tree other than the root, and its parent. *)
Lemma tree_parent t n : wf t → tree t n → n ≠ root_node t →
  ∃ p, parent (nd t n) = Some p ∧ tree t p ∧ p ≠ n ∧ head (block_hashes (nd t n)) = Some (head_hash (nd t n)) ∧
    dict_get (head_hash (nd t n)) (children (nd t p)) = Some n ∧
    chained (last (block_hashes (nd t p))) (block_hashes (nd t n)).
Proof.
  intros Hwf Hn Hr. pose proof (tree_shape _ _ Hwf Hn) as Hs.
  destruct (in_tree_parent _ _ (wf_core _ Hwf) _ _ Hn Hs Hr) as (p & sp & h & Hp & Htp & Hsp & Hh & Hd & Hc).
  apply shapes_nd in Hsp as ->. simpl in *. exists p. unfold head_hash. rewrite Hh. simpl. split_and!; try done.
  by eapply (parent_ne _ _ (wf_core _ Hwf)).
Qed.

Lemma tree_child t n h c : wf t → tree t n → dict_get h (children (nd t n)) = Some c →
  tree t c ∧ c ≠ root_node t ∧ parent (nd t c) = Some n ∧ head (block_hashes (nd t c)) = Some h ∧
    chained (last (block_hashes (nd t n))) (block_hashes (nd t c)).
Proof.
  intros Hwf Hn Hd. pose proof (tree_shape _ _ Hwf Hn) as Hs.
  assert (tree t c) as Hc by (by eapply in_child).
  destruct (co_child _ _ (wf_core _ Hwf) _ _ _ _ Hn Hs Hd) as (sc & Hsc & Hp & Hh & Hch).
  apply shapes_nd in Hsc as ->. simpl in *. split_and!; try done. intros ->.
  destruct (root_shape _ Hwf) as (E & _). rewrite E in Hh. done.
Qed.

Lemma tree_len t n : wf t → tree t n → length (block_hashes (nd t n)) = length (physical_blocks (nd t n)).
Proof. intros Hwf Hn. apply (co_len _ _ (wf_core _ Hwf) _ _ Hn (tree_shape _ _ Hwf Hn)). Qed.

Lemma next_fresh t : wf t → store t !! next_id t = None.
Proof. intros Hwf. apply eq_None_not_Some. intros Hl. apply (wf_next _ Hwf) in Hl. lia. Qed.

(** The initial index. *)
Lemma in_tree_empty root S s n : S !! root = Some s → s_children s = [] → in_tree root S n → n = root.
Proof.
  intros Hs Hc. induction 1 as [|q sq h c Hq IH Hsq Hd]; [done|]. subst. simplify_eq. by rewrite Hc in Hd.
Qed.

Lemma radix_init_wf clock tpb mb reward policy threshold :
  wf (RadixTreeIndex_init clock tpb mb reward policy threshold).
Proof.
  set (t := RadixTreeIndex_init _ _ _ _ _ _).
  assert (∀ n, tree t n → n = 0%nat) as Hroot.
  { intros n. by apply (in_tree_empty 0%nat (shapes t) (Sh [] [] None [])). }
  assert (∀ n s, shapes t !! n = Some s → s_bh s = [] ∧ s_parent s = None ∧ s_pb s = [] ∧ s_children s = [] ∧ (n < 3)%nat) as Hall.
  { intros n s. rewrite shapes_lookup. cbn [t store RadixTreeIndex_init]. rewrite !lookup_insert.
    repeat case_decide; subst; simpl; intros [= <-]; split_and!; (done || lia). }
  split.
  - split.
    + by exists (Sh [] [] None []).
    + intros p sp h c _ Hp Hd. destruct (Hall _ _ Hp) as (_ & _ & _ & E & _). by rewrite E in Hd.
    + intros n s _ Hs. destruct (Hall _ _ Hs) as (-> & _ & -> & _). done.
    + intros n s _ Hs. destruct (Hall _ _ Hs) as (_ & _ & _ & -> & _). apply NoDup_nil_2.
    + intros n s p Hs Hp. destruct (Hall _ _ Hs) as (_ & E & _). congruence.
    + exists (λ _, 0%nat). intros n s p Hs Hp. destruct (Hall _ _ Hs) as (_ & E & _). congruence.
  - split; [apply NoDup_nil_2|]. intros h n. split; [done|]. intros (_ & s & Hs & Hh & _).
    destruct (Hall _ _ Hs) as (E & _). by rewrite E in Hh.
  - intros n Hl%live_shapes. apply Hall in Hl. simpl. lia.
  - exists []. split.
    + split; [by vm_compute| |].
      * simpl. apply NoDup_cons. split; [set_solver|]. apply NoDup_singleton.
      * simpl. intros n [->|[->|[]%not_elem_of_nil]%elem_of_cons]%elem_of_cons; vm_compute; by eexists.
    + by intros n ?%not_elem_of_nil.
    + intros n ->%Hroot. split; [vm_compute; by eexists|done].
    + by intros n ->%Hroot.
    + by intros n ->%Hroot.
    + by intros n ->%Hroot.
Qed.
End wf.

(** ** The shapes after a mutation *)

Lemma shapes_upd t n f :
  is_Some (store t !! n) → shapes (with_store (alter f n) t) = <[n := shape_of (f (nd t n))]> (shapes t).
Proof.
  intros [x Hx]. unfold shapes, nd. simpl. rewrite Hx. simpl. rewrite <- fmap_insert. f_equal.
  apply map_eq. intros m. destruct (decide (m = n)) as [->|].
  - by rewrite lookup_alter_eq, lookup_insert_eq, Hx.
  - by rewrite lookup_alter_ne, lookup_insert_ne.
Qed.

Definition alloc_state (x : RadixNode) (t : RadixTreeIndex) : RadixTreeIndex :=
  with_next_id S (with_store <[next_id t := x]> t).

Lemma alloc_run x t : alloc x t = (Ok (next_id t), alloc_state x t).
Proof. done. Qed.

Lemma shapes_alloc x t : shapes (alloc_state x t) = <[next_id t := shape_of x]> (shapes t).
Proof. unfold shapes. simpl. by rewrite fmap_insert. Qed.

Lemma nd_alloc x t n : nd (alloc_state x t) n = if decide (n = next_id t) then x else nd t n.
Proof.
  unfold nd. simpl. case_decide; subst; [by rewrite lookup_insert_eq|by rewrite lookup_insert_ne].
Qed.

Lemma nd_upd_eq t n f : is_Some (store t !! n) → nd (with_store (alter f n) t) n = f (nd t n).
Proof. intros Hn. rewrite nd_upd by done. by rewrite decide_True. Qed.

Lemma nd_upd_ne t n f m : m ≠ n → nd (with_store (alter f n) t) m = nd t m.
Proof. intros Hmn. unfold nd. simpl. by rewrite lookup_alter_ne. Qed.

Lemma nd_alloc_eq x t : nd (alloc_state x t) (next_id t) = x.
Proof. rewrite nd_alloc. by rewrite decide_True. Qed.

Lemma nd_alloc_ne x t n : n ≠ next_id t → nd (alloc_state x t) n = nd t n.
Proof. intros. rewrite nd_alloc. by rewrite decide_False. Qed.

Lemma live_alloc x t n : is_Some (store (alloc_state x t) !! n) ↔ n = next_id t ∨ is_Some (store t !! n).
Proof.
  simpl. destruct (decide (n = next_id t)) as [->|]; [rewrite lookup_insert_eq|rewrite lookup_insert_ne by done].
  - split; [by left|by eexists].
  - naive_solver.
Qed.

Lemma nd_leaf f t n : nd (with_leaf_nodes f t) n = nd t n.
Proof. done. Qed.
Lemma nd_ticks f t n : nd (with_ticks f t) n = nd t n.
Proof. done. Qed.
Lemma shapes_leaf f t : shapes (with_leaf_nodes f t) = shapes t.
Proof. done. Qed.
Lemma shapes_ticks f t : shapes (with_ticks f t) = shapes t.
Proof. done. Qed.
Lemma live_leaf f t n : is_Some (store (with_leaf_nodes f t) !! n) ↔ is_Some (store t !! n).
Proof. done. Qed.
Lemma live_ticks f t n : is_Some (store (with_ticks f t) !! n) ↔ is_Some (store t !! n).
Proof. done. Qed.

(** Liveness of a node after mutations. *)
Ltac solve_live :=
  repeat first
    [ apply live_upd | apply live_leaf | apply live_ticks
    | apply live_alloc; first [by left | right] ];
  assumption.

(** Attribute access after mutations. *)
Ltac nd_simpl :=
  repeat first
    [ rewrite nd_upd_ne by congruence | rewrite nd_upd_eq by solve_live
    | rewrite nd_leaf | rewrite nd_ticks
    | rewrite nd_alloc_eq | rewrite nd_alloc_ne by congruence ].

(** The shapes after mutations, as insertions into the shapes before. *)
Ltac shapes_simpl :=
  repeat first
    [ rewrite shapes_upd by solve_live | rewrite shapes_leaf | rewrite shapes_ticks | rewrite shapes_alloc ];
  nd_simpl.

(** Equality of maps built by insertions. *)
Ltac solve_inserts :=
  apply map_eq; intros ?i; rewrite ?lookup_insert; repeat case_decide; try congruence; try done.

(** ** Computations that only add objects and rearrange the tree *)

Definition blank_swa : Z * bool * bool * option nid * option nid := (-1, true, false, None, None).

(** [t'] keeps the objects of [t], their use and their place in the SWA list; the new ones have no SWA state. *)
Record grown (t t' : RadixTreeIndex) : Prop := {
  g_live : ∀ n, is_Some (store t !! n) → is_Some (store t' !! n);
  g_old : ∀ n, is_Some (store t !! n) → swa_links (nd t' n) = swa_links (nd t n) ∧ use_of (nd t' n) = use_of (nd t n);
  g_new : ∀ n, store t !! n = None → is_Some (store t' !! n) → swa_links (nd t' n) = blank_swa;
  g_next : (∀ n, is_Some (store t !! n) → (n < next_id t)%nat) → (∀ n, is_Some (store t' !! n) → (n < next_id t')%nat);
  g_config : config t' = config t;
  g_root : root_node t' = root_node t;
  g_freed : _freed_swa_slots t' = _freed_swa_slots t;
  g_enabled : _swa_enabled t' = _swa_enabled t;
}.

#[export] Instance grown_preorder : PreOrder grown.
Proof.
  split; [intros t; split; try done; intros n Hn; by rewrite Hn; intros []|]. intros x y z [A1 A2 A3 A4 A5 A6 A7 A8] [B1 B2 B3 B4 B5 B6 B7 B8].
  split; [auto| | |auto|congruence..].
  - intros n Hn. destruct (A2 n Hn) as [<- <-]. auto.
  - intros n Hn Hz. destruct (store y !! n) eqn:E; [|auto]. destruct (B2 n) as [-> _]; [by eexists|]. apply A3; [done|by eexists].
Qed.

Lemma grown_upd t n f :
  (∀ x, swa_links (f x) = swa_links x ∧ use_of (f x) = use_of x) → grown t (with_store (alter f n) t).
Proof.
  intros Hf.
  assert (∀ m, swa_links (nd (with_store (alter f n) t) m) = swa_links (nd t m) ∧
               use_of (nd (with_store (alter f n) t) m) = use_of (nd t m)) as Hs.
  { intros m. unfold nd. simpl. rewrite lookup_alter. case_decide; [subst|done]. destruct (store t !! m); [apply Hf|done]. }
  split; try done.
  - intros m. by apply live_upd.
  - intros m Hm Hl. apply live_upd in Hl. rewrite Hm in Hl. by destruct Hl.
  - intros Hn m Hl. apply Hn. by apply live_upd in Hl.
Qed.

Lemma grown_alloc t x : store t !! next_id t = None → swa_links x = blank_swa → grown t (alloc_state x t).
Proof.
  intros Hf Hx. split; try done.
  - intros n Hn. simpl. destruct (decide (n = next_id t)) as [->|]; [by rewrite lookup_insert_eq|by rewrite lookup_insert_ne].
  - intros n Hn. rewrite nd_alloc. case_decide; [|done]. subst. rewrite Hf in Hn. by destruct Hn.
  - intros n Hn Hl. rewrite nd_alloc. case_decide; [done|]. simpl in Hl. rewrite lookup_insert_ne in Hl by done.
    rewrite Hn in Hl. by destruct Hl.
  - intros Hn n Hl. simpl in *. destruct (decide (n = next_id t)) as [->|]; [lia|]. rewrite lookup_insert_ne in Hl by done.
    specialize (Hn n Hl). lia.
Qed.

Lemma grown_same t t' :
  store t' = store t → next_id t' = next_id t → config t' = config t → root_node t' = root_node t →
  _freed_swa_slots t' = _freed_swa_slots t → _swa_enabled t' = _swa_enabled t → grown t t'.
Proof.
  intros Es En Ec Er Ef Ee. split; try done; rewrite ?Es, ?En; try done.
  - intros n _. unfold nd. by rewrite Es.
  - intros n Hn Hl. rewrite Hn in Hl. by destruct Hl.
Qed.

Section grown.
Context `{!PrefixHash}.

Lemma wf_grown t t' :
  wf t → grown t t' → core (root_node t) (shapes t') → leaf_ok (root_node t) (shapes t') (leaf_nodes t') →
  (∀ x, tree t x → in_tree (root_node t) (shapes t') x) →
  (∀ x, in_tree (root_node t) (shapes t') x → tree t x ∨ store t !! x = None) → wf t'.
Proof.
  intros Hwf [G1 G2 G3 G4 G5 G6 G7 G8] Hc HL Hin Hout. split; rewrite ?G6; try done.
  - apply G4, Hwf.
  - destruct (wf_swa _ Hwf) as [L [[Ll Ln Lv] H2 H3 H4 H5 H6]]. exists L.
    assert (_swa_lru_head t' = _swa_lru_head t ∧ _swa_lru_tail t' = _swa_lru_tail t) as [Eh Et].
    { unfold config in G5. by injection G5. }
    assert (∀ x, in_tree (root_node t) (shapes t') x → store t !! x = None → (x ∉ L) ∧ swa_of (nd t' x) = (-1, true, false)) as Hnew.
    { intros x Hx Hfr. split.
      - intros HxL. destruct (Lv x) as [? ?]; [set_solver|congruence].
      - destruct (in_tree_live _ _ Hc _ Hx) as [s Hs]. pose proof (G3 x Hfr (shapes_live _ _ _ Hs)) as E.
        unfold swa_links, blank_swa in E. congruence. }
    assert (∀ x, tree t x → swa_of (nd t' x) = swa_of (nd t x)) as Hold.
    { intros x Hx. apply swa_links_inv. apply G2. by apply tree_live. }
    split.
    + split; rewrite Eh, Et; [|done|by intros; apply G1, Lv]. eapply links_ext; [|done].
      intros a Ha. destruct (G2 a (Lv a Ha)) as [E _]. by apply swa_links_inv in E as (_ & ? & ?).
    + intros n Hn. destruct (H2 n Hn). rewrite G6. auto.
    + intros n Hn. destruct (in_tree_live _ _ Hc _ Hn) as [s Hs]. split; [by eapply shapes_live|]. rewrite Eh, Et.
      destruct (Hout n Hn) as [Ho|Ho]; [by apply H3|]. split; intros ->; [destruct (Lv (_swa_lru_head t))|destruct (Lv (_swa_lru_tail t))];
        [set_solver|congruence|set_solver|congruence].
    + intros n Hn. destruct (Hout n Hn) as [Ho|Ho].
      * destruct (swa_of_inv _ _ (Hold n Ho)) as (_ & _ & -> & _). auto.
      * destruct (Hnew n Hn Ho) as [Hl Hs]. injection Hs as _ _ ->. symmetry. by apply bool_decide_eq_false.
    + intros n Hn. destruct (Hout n Hn) as [Ho|Ho].
      * destruct (swa_of_inv _ _ (Hold n Ho)) as (_ & _ & -> & ->). auto.
      * destruct (Hnew n Hn Ho) as [Hl Hs]. unfold has_swa. by injection Hs as -> -> ->.
    + intros n Hn. destruct (Hout n Hn) as [Ho|Ho].
      * destruct (swa_of_inv _ _ (Hold n Ho)) as (-> & -> & _). auto.
      * destruct (Hnew n Hn Ho) as [Hl Hs]. by injection Hs as -> -> _.
Qed.
End grown.

Section slots.
Context `{!PrefixHash}.

(** ** The slots of the index

    Every SWA slot the index owns is mounted on a node of the tree or waits on the freed list.  [slots_are t l]:
    [l] lists them all, each as often as it occurs. *)
Definition slots_are (t : RadixTreeIndex) (l : list Z) : Prop :=
  ∃ L, swa_ok (tree t) t L ∧ l ≡ₚ _freed_swa_slots t ++ ((λ n, swa_host_slot (nd t n)) <$> L).

(** Slots only move between the two places. *)
Definition keeps_slots (t t' : RadixTreeIndex) : Prop := ∀ l, slots_are t l → slots_are t' l.

#[export] Instance keeps_slots_preorder : PreOrder keeps_slots.
Proof. split; [by intros t l|]. intros t1 t2 t3 K1 K2 l Hl. by apply K2, K1. Qed.

Definition slots_of (x : RadixNode) : list Z := if 0 <=? swa_host_slot x then [swa_host_slot x] else [].

Lemma mounted_iff t L n : swa_ok (tree t) t L → n ∈ L ↔ tree t n ∧ has_swa (nd t n) = true.
Proof.
  intros HL. split.
  - intros Hn. destruct (so_dom _ _ _ HL n Hn) as [Ht _]. split; [done|].
    by rewrite (so_has _ _ _ HL n Ht), (so_on _ _ _ HL n Ht), bool_decide_eq_true.
  - intros [Ht Hs]. by rewrite (so_has _ _ _ HL n Ht), (so_on _ _ _ HL n Ht), bool_decide_eq_true in Hs.
Qed.

Lemma mounted_NoDup t L D : swa_ok D t L → NoDup L.
Proof. intros [[_ Hnd _] _ _ _ _ _]. apply NoDup_cons in Hnd as [_ Hnd]. by apply NoDup_app in Hnd as [? _]. Qed.

(** The slots of the nodes [N] are freed, the other nodes keep theirs. *)
Lemma keeps_slots_freed t t' (N : list nid) :
  wf t → wf t' → NoDup N → (∀ n, n ∈ N → tree t n ∧ has_swa (nd t n) = true ∧ (tree t' n → has_swa (nd t' n) = false)) →
  _freed_swa_slots t' = _freed_swa_slots t ++ ((λ n, swa_host_slot (nd t n)) <$> N) →
  (∀ x, x ∉ N → tree t x → has_swa (nd t x) = true → tree t' x) →
  (∀ x, x ∉ N → tree t x → tree t' x → has_swa (nd t' x) = has_swa (nd t x) ∧
     (has_swa (nd t x) = true → swa_host_slot (nd t' x) = swa_host_slot (nd t x))) →
  (∀ x, tree t' x → tree t x ∨ has_swa (nd t' x) = false) → keeps_slots t t'.
Proof.
  intros Hwf Hwf' HN HNs Hfr Hkeep Hsw Hback l (L & HL & Hl). destruct (wf_swa _ Hwf') as [L' HL']. exists L'. split; [done|].
  assert (L ≡ₚ N ++ L') as Hp.
  { apply NoDup_Permutation; [by eapply mounted_NoDup| |].
    - apply NoDup_app. split_and!; [done| |by eapply mounted_NoDup]. intros n Hn (Ht & Hs)%(mounted_iff _ _ _ HL').
      destruct (HNs n Hn) as (_ & _ & Hno). rewrite Hno in Hs; done.
    - intros n. rewrite elem_of_app, (mounted_iff _ _ _ HL), (mounted_iff _ _ _ HL'). split.
      + intros [Ht Hs]. destruct (decide (n ∈ N)); [by left|right]. assert (tree t' n) as Ht' by (by apply Hkeep). split; [done|].
        destruct (Hsw n ltac:(done) Ht Ht') as [-> _]. done.
      + intros [Hn|[Ht Hs]]; [by destruct (HNs n Hn) as (? & ? & _)|]. destruct (Hback n Ht) as [Ht0|?]; [|congruence]. split; [done|].
        destruct (decide (n ∈ N)) as [Hn|Hn]; [by destruct (HNs n Hn) as (_ & ? & _)|].
        destruct (Hsw n Hn Ht0 Ht) as [<- _]. done. }
  rewrite Hl, Hfr, Hp, fmap_app, <- app_assoc. do 2 apply Permutation_app_head.
  apply (reflexive_eq (R := Permutation)), list_fmap_ext. intros i n Hi.
  assert (n ∈ L') as Hn by (by eapply list_elem_of_lookup_2). apply (mounted_iff _ _ _ HL') in Hn as Hn'. destruct Hn' as [Ht Hs].
  assert (n ∈ L) as HnL by (rewrite Hp, elem_of_app; by right). apply (mounted_iff _ _ _ HL) in HnL as [Ht0 _].
  assert (n ∉ N) as HnN by (intros HnN; destruct (HNs n HnN) as (_ & _ & Hno); rewrite Hno in Hs; done).
  destruct (Hsw n HnN Ht0 Ht) as [Eh Es]. symmetry. apply Es. congruence.
Qed.

(** No slot moves. *)
Lemma keeps_slots_same t t' :
  wf t → wf t' → _freed_swa_slots t' = _freed_swa_slots t →
  (∀ x, tree t x → tree t' x ∧ swa_of (nd t' x) = swa_of (nd t x)) →
  (∀ x, tree t' x → tree t x ∨ has_swa (nd t' x) = false) → keeps_slots t t'.
Proof.
  intros Hwf Hwf' Hfr Hold Hback. apply (keeps_slots_freed t t' []); try done.
  - apply NoDup_nil_2.
  - by intros n ?%elem_of_nil.
  - by rewrite Hfr, app_nil_r.
  - intros x _ Hx _. by apply Hold.
  - intros x _ Hx _. destruct (Hold x Hx) as [_ E]. apply swa_of_inv in E. naive_solver.
Qed.

(** The slot of one node is freed, if it has one. *)
Lemma keeps_slots_one t t' n :
  wf t → wf t' → tree t n → _freed_swa_slots t' = _freed_swa_slots t ++ slots_of (nd t n) →
  (tree t' n → has_swa (nd t' n) = false) →
  (∀ x, x ≠ n → tree t x → tree t' x) → (∀ x, x ≠ n → swa_of (nd t' x) = swa_of (nd t x)) →
  (∀ x, tree t' x → tree t x) → keeps_slots t t'.
Proof.
  intros Hwf Hwf' Hn Hfr Hno Hkeep Hsw Hback. destruct (wf_swa _ Hwf) as [L HL].
  assert (has_swa (nd t n) = (0 <=? swa_host_slot (nd t n))) as Eh.
  { unfold has_swa. rewrite (so_tomb _ _ _ HL n Hn). destruct (Z.ltb_spec (swa_host_slot (nd t n)) 0), (Z.leb_spec 0 (swa_host_slot (nd t n))); done || lia. }
  assert (n ∉ (if has_swa (nd t n) then [n] else []) → has_swa (nd t n) = false) as Hnn.
  { destruct (has_swa (nd t n)); [|done]. intros Hx. destruct Hx. left. }
  apply (keeps_slots_freed t t' (if has_swa (nd t n) then [n] else [])); try done.
  - destruct (has_swa (nd t n)); [apply NoDup_singleton|apply NoDup_nil_2].
  - intros m Hm. destruct (has_swa (nd t n)) eqn:E; [apply list_elem_of_singleton in Hm as ->; done|by apply elem_of_nil in Hm].
  - rewrite Hfr, Eh. unfold slots_of. by destruct (0 <=? swa_host_slot (nd t n)).
  - intros x Hx Ht Hs. apply Hkeep; [|done]. intros ->. rewrite Hnn in Hs; done.
  - intros x Hx Ht Ht'. destruct (decide (x = n)) as [->|Hne].
    + rewrite (Hno Ht'), (Hnn Hx). done.
    + pose proof (Hsw x Hne) as E. apply swa_of_inv in E. naive_solver.
  - intros x Hx. left. by apply Hback.
Qed.
End slots.

(** ** What an index stores *)

(** Hash [h] is cached in block [b]; [r] tells whether the block is ready. *)
Definition entry (t : RadixTreeIndex) : Z → Z → bool → Prop :=
  placed (root_node t) (shapes t) (λ n, is_ready (nd t n)).

End RadixWf.
