(* ===== verification/RadixMatch.v ===== *)
(** * Prefix matching

    [match_prefix] of [RadixTree] finds the longest cached prefix of a
    sequence, the blocks it is stored in, the part of it that is ready, the
    deepest usable SWA snapshot, and the anchor an insertion needs. *)

From S2P Require Import Prelude PyFloat Block RadixTree RadixCore RadixWf.
Import RadixTree.RadixTree RadixWf.RadixWf.
Local Open Scope Z_scope.

Module RadixMatch.

(** ** The binary search *)

Lemma mid_bounds l r : (l < r)%nat → (l <= (l + r) / 2 < r)%nat.
Proof. split; [apply Nat.div_le_lower_bound|apply Nat.Div0.div_lt_upper_bound]; lia. Qed.

(** On a predicate that holds up to some point of [0, n) it returns that point. *)
Lemma bsearch_spec (p : nat → bool) n fuel l r :
  (r - l < fuel)%nat → (l <= r <= n)%nat → (∀ i, (i < l)%nat → p i = true) →
  (r = n ∨ p r = false) → (∀ i j, (i <= j < n)%nat → p j = true → p i = true) →
  let m := bsearch fuel p l r in
  (l <= m <= n)%nat ∧ (∀ i, (i < m)%nat → p i = true) ∧ (m = n ∨ p m = false).
Proof.
  revert l r. induction fuel as [|fuel IH]; intros l r Hf Hlr Hl Hr Hmono; [lia|]. cbn [bsearch].
  destruct (Nat.ltb_spec l r) as [Hlt|Hge].
  - pose proof (mid_bounds _ _ Hlt) as Hm. destruct (p ((l + r) / 2)%nat) eqn:E.
    + destruct (IH (S ((l + r) / 2)) r) as (? & ? & ?); [lia|lia| |done|done|split_and!; [lia|lia|done|done]].
      intros j Hj. apply (Hmono j ((l + r) / 2)%nat); [lia|done].
    + apply IH; [lia|lia|done|by right|done].
  - assert (r = l) as -> by lia. split_and!; [lia|lia|done|done].
Qed.

Lemma bsearch_ext (p q : nat → bool) fuel l r : (∀ i, p i = q i) → bsearch fuel p l r = bsearch fuel q l r.
Proof.
  intros Hpq. revert l r. induction fuel as [|fuel IH]; intros l r; [done|]. cbn [bsearch]. by rewrite Hpq, !IH.
Qed.

Section match_prefix.
Context `{!PrefixHash} (XXH64 : list Z → Z) (clock : nat → float).

(** The hashes of a sequence, generated when the code needs them. *)
Definition hashes_of (sequence : SequenceMeta) : list Z :=
  Block.block_hashes (SequenceMeta_gen_hashes XXH64 sequence).

(** What [SequenceMeta_init] establishes: one hash per block, chained. *)
Definition seq_ok (sequence : SequenceMeta) : Prop :=
  length (hashes_of sequence) = num_blocks sequence ∧ chained None (hashes_of sequence).

Lemma num_blocks_gen sequence : num_blocks (SequenceMeta_gen_hashes XXH64 sequence) = num_blocks sequence.
Proof. unfold SequenceMeta_gen_hashes. destruct (_has_hashes sequence), (_create_initialized_hasher XXH64 sequence); done. Qed.

Lemma get_hash_hashes sequence i : seq_ok sequence →
  get_hash (SequenceMeta_gen_hashes XXH64 sequence) i = hashes_of sequence !! i.
Proof.
  intros [Hl _]. unfold get_hash. rewrite num_blocks_gen. case_decide; [|done].
  symmetry. apply lookup_ge_None. lia.
Qed.

(** Two runs of prefix hashes that agree somewhere agree before it. *)
Lemma agree_back p q l k d i j h :
  chained p l → chained q k → l !! i = Some h → k !! (d + i)%nat = Some h → (j <= i)%nat → l !! j = k !! (d + j)%nat.
Proof.
  intros Hl Hk. revert h. induction i as [|i IH]; intros h Hi Hki Hj.
  - assert (j = 0%nat) as -> by lia. congruence.
  - destruct (decide (j = S i)) as [->|]; [congruence|].
    pose proof (chained_lookup_pred _ _ _ _ Hl Hi) as P1. rewrite <- plus_n_Sm in Hki.
    pose proof (chained_lookup_pred _ _ _ _ Hk Hki) as P2. simpl in P1, P2.
    destruct (lookup_lt_is_Some_2 l i) as [g Hg]; [apply lookup_lt_Some in Hi; lia|].
    apply (IH g); [done|congruence|lia].
Qed.

Section spec.
Context (t : RadixTreeIndex) (Hwf : wf t) (hs : list Z) (Hhs : chained None hs).
Local Abbreviation root := (root_node t).

(** Block [j] of the sequence is block [i] of node [n]. *)
Definition holds_at (j : nat) (n : nid) (i : nat) : Prop :=
  tree t n ∧ ∃ h, hs !! j = Some h ∧ block_hashes (nd t n) !! i = Some h.

(** Node [n] ends exactly after [j] blocks of the sequence and has an SWA snapshot. *)
Definition swa_at (j : nat) (n : nid) : Prop :=
  has_swa (nd t n) = true ∧ (0 < j)%nat ∧ holds_at (j - 1) n (node_size (nd t n) - 1).

Lemma holds_at_inj j n i n' i' : holds_at j n i → holds_at j n' i' → n = n' ∧ i = i'.
Proof using All.
  intros (Hn & h & Hh & Hi) (Hn' & h' & Hh' & Hi'). simplify_eq.
  eapply (loc_inj _ _ (wf_core _ Hwf) h); [done|done|by apply tree_shape|by apply tree_shape|done|done].
Qed.

(** The state of the counters after [k] matched blocks. *)
Record ready_inv (k r : nat) (open : bool) (lr : nid) (sw : option nid) (sh : nat) : Prop := {
  ri_le : (r <= k)%nat;
  ri_open : if open then r = k else (r < k)%nat ∧ ∃ n i, holds_at r n i ∧ is_ready (nd t n) = false;
  ri_ready : ∀ j, (j < r)%nat → ∃ n i, holds_at j n i ∧ is_ready (nd t n) = true;
  ri_last : (r = 0%nat ∧ lr = root) ∨ ((0 < r)%nat ∧ is_ready (nd t lr) = true ∧ ∃ i, holds_at (r - 1) lr i);
  ri_swa : match sw with None => sh = 0%nat | Some n => (sh <= r)%nat ∧ swa_at sh n end;
  ri_deepest : ∀ j n, (sh < j <= r)%nat → ¬ swa_at j n;
}.

Lemma ready_init : ready_inv 0 0 true root None 0.
Proof. split; [done|done|lia|by left|done|lia]. Qed.

(** Consuming the first [m] blocks of the node [cur]. *)
Lemma ready_advance k r open lr sw sh cur m :
  ready_inv k r open lr sw sh → tree t cur → (0 < m <= node_size (nd t cur))%nat →
  (∀ i, (i < m)%nat → holds_at (k + i) cur i) →
  let x := nd t cur in
  let take_it := open && is_ready x in
  let hit := take_it && (m =? node_size x)%nat && has_swa x in
  ready_inv (k + m) (if take_it then r + m else r) (if take_it then open else if (0 <? m)%nat then false else open)
    (if take_it then cur else lr) (if hit then Some cur else sw) (if hit then r + m else sh).
Proof using All.
  intros [H1 H2 H3 H4 H5 H6] Hcur Hm Hag x take_it hit. subst hit.
  destruct take_it eqn:Et; subst take_it; simpl.
  - apply andb_true_iff in Et as [-> Hrd]. subst r.
    fold x in Hm.
    assert (∀ j n, (k < j <= k + m)%nat → swa_at j n → n = cur ∧ m = node_size x ∧ j = (k + m)%nat) as Hin.
    { intros j n Hj (Hsw & _ & Hat). pose proof (Hag (j - 1 - k)%nat ltac:(lia)) as Hc.
      replace (k + (j - 1 - k))%nat with (j - 1)%nat in Hc by lia.
      destruct (holds_at_inj _ _ _ _ _ Hat Hc) as [-> E]. fold x in E. split; [done|]. lia. }
    split.
    + done.
    + done.
    + intros j Hj. destruct (decide (j < k)%nat); [by apply H3|]. exists cur, (j - k)%nat. split; [|done].
      pose proof (Hag (j - k)%nat ltac:(lia)) as Hc. by replace (k + (j - k))%nat with j in Hc by lia.
    + right. split; [lia|]. split; [done|]. exists (m - 1)%nat. replace (k + m - 1)%nat with (k + (m - 1))%nat by lia. apply Hag. lia.
    + destruct ((m =? node_size x)%nat && has_swa x) eqn:E.
      * apply andb_true_iff in E as [Em Esw]. apply Nat.eqb_eq in Em. split; [lia|]. split; [done|]. split; [lia|].
        fold x. rewrite <- Em. replace (k + m - 1)%nat with (k + (m - 1))%nat by lia. apply Hag. lia.
      * destruct sw; [|done]. destruct H5. split; [lia|done].
    + destruct ((m =? node_size x)%nat && has_swa x) eqn:E; [lia|].
      intros j n Hj Hsw. destruct (decide (j <= k)%nat); [exact (H6 j n ltac:(lia) Hsw)|].
      destruct (Hin j n) as (-> & Em & ->); [lia|done|]. destruct Hsw as [Hsw _]. fold x in Hsw.
      rewrite Hsw, Em, Nat.eqb_refl in E. done.
  - rewrite (proj2 (Nat.ltb_lt 0 m)) by lia. split; [lia| |done|done|done|done].
    destruct open; simpl in Et.
    + subst r. split; [lia|]. exists cur, 0%nat. split; [|done].
      pose proof (Hag 0%nat ltac:(lia)) as Hc. by rewrite Nat.add_0_r in Hc.
    + destruct H2. split; [lia|done].
Qed.

(** ** Agreement of a node with the sequence *)

Definition agree (n : nid) (k m : nat) : Prop :=
  (m <= node_size (nd t n))%nat ∧ (k + m <= length hs)%nat ∧ take m (block_hashes (nd t n)) = take m (drop k hs).

Lemma agree_lookup n k m i : agree n k m → (i < m)%nat → block_hashes (nd t n) !! i = hs !! (k + i)%nat.
Proof.
  intros (_ & _ & E) Hi. apply (f_equal (.!! i)) in E. by rewrite !lookup_take_lt, lookup_drop in E.
Qed.

Lemma agree_holds n k m i : tree t n → agree n k m → (i < m)%nat → holds_at (k + i) n i.
Proof.
  intros Hn Ha Hi. split; [done|]. destruct (lookup_lt_is_Some_2 hs (k + i)) as [h Hh]; [destruct Ha as (_ & ? & _); lia|].
  exists h. split; [done|]. by rewrite (agree_lookup n k m).
Qed.

Lemma agree_of_lookup n k m :
  (m <= node_size (nd t n))%nat → (k + m <= length hs)%nat →
  (∀ i, (i < m)%nat → block_hashes (nd t n) !! i = hs !! (k + i)%nat) → agree n k m.
Proof.
  intros Hm Hk Hl. split_and!; [done|done|]. apply list_eq. intros i. destruct (decide (i < m)%nat).
  - by rewrite !lookup_take_lt, lookup_drop, Hl.
  - rewrite !lookup_take_ge by lia. done.
Qed.

Lemma tree_maps n : tree t n → Forall2 (maps root (shapes t)) (block_hashes (nd t n)) (physical_blocks (nd t n)).
Proof using Hwf.
  intros Hn. apply Forall2_same_length_lookup. split; [by apply tree_len|].
  intros i h b Hh Hb. exists n, (shape_of (nd t n)), i. split_and!; [done|by apply tree_shape|done|done].
Qed.

Lemma agree_maps n k m phys :
  tree t n → agree n k m → Forall2 (maps root (shapes t)) (take k hs) phys →
  Forall2 (maps root (shapes t)) (take (k + m) hs) (phys ++ take m (physical_blocks (nd t n))).
Proof using Hwf.
  intros Hn (Hm & Hk & E) Hp. rewrite <- take_take_drop, <- E. apply Forall2_app; [done|]. by apply Forall2_take, tree_maps.
Qed.

(** A child under the next hash: the whole node agrees. *)
Lemma descend_agree n k h c :
  tree t n → n ≠ root → hs !! (k + node_size (nd t n))%nat = Some h →
  dict_get h (children (nd t n)) = Some c → agree n k (node_size (nd t n)).
Proof using All.
  intros Hn Hr Hh Hc. pose proof (lookup_lt_Some _ _ _ Hh) as Hlt.
  apply agree_of_lookup; [done|lia|]. intros i Hi. set (x := nd t n) in *.
  destruct (tree_child _ _ _ _ Hwf Hn Hc) as (_ & _ & _ & Hhd & Hch). fold x in Hch.
  destruct (tree_parent _ _ Hwf Hn Hr) as (p & _ & _ & _ & Hne & _ & Hchn). fold x in Hne, Hchn.
  assert (ph_pred h = last (block_hashes x)) as Hp by (destruct (block_hashes (nd t c)); simplify_eq/=; naive_solver).
  destruct (last (block_hashes x)) as [g|] eqn:El; [|by apply last_None in El; rewrite El in Hne].
  apply last_lookup_size in El. fold (node_size x) in El.
  pose proof (chained_lookup_pred _ _ _ _ Hhs Hh) as Hp'.
  replace (k + node_size x)%nat with (S (k + (node_size x - 1)))%nat in Hp' by lia. simpl in Hp'. rewrite Hp in Hp'.
  eapply agree_back; [exact Hchn|exact Hhs|exact El|by symmetry|lia].
Qed.

(** Where the binary search stops. *)
Lemma matched_in_agree n k :
  tree t n → n ≠ root → head (block_hashes (nd t n)) = hs !! k → (k < length hs)%nat →
  let m := bsearch (S (Nat.min (node_size (nd t n)) (length hs - k)))
             (λ i, bool_decide (block_hashes (nd t n) !! i = hs !! (k + i)%nat)) 0
             (Nat.min (node_size (nd t n)) (length hs - k)) in
  (0 < m)%nat ∧ agree n k m ∧
  ((m < node_size (nd t n))%nat → (k + m < length hs)%nat → block_hashes (nd t n) !! m ≠ hs !! (k + m)%nat).
Proof using All.
  intros Hn Hr Hhd Hk m. set (x := nd t n) in *. set (cmp := Nat.min (node_size x) (length hs - k)) in *.
  destruct (tree_parent _ _ Hwf Hn Hr) as (p & _ & _ & _ & Hne & _ & Hchn). fold x in Hne, Hchn.
  destruct (bsearch_spec (λ i, bool_decide (block_hashes x !! i = hs !! (k + i)%nat)) cmp (S cmp) 0 cmp) as (Hm & Heq & Hend).
  { lia. } { lia. } { lia. } { by left. }
  { intros i j Hij. rewrite !bool_decide_eq_true. intros E.
    destruct (lookup_lt_is_Some_2 (block_hashes x) j) as [g Hg]; [unfold node_size in cmp; lia|].
    eapply agree_back; [exact Hchn|exact Hhs|exact Hg|congruence|lia]. }
  fold m in Hm, Heq, Hend. split_and!.
  - assert (0 < node_size x)%nat by (unfold node_size; destruct (block_hashes x); [done|simpl; lia]).
    destruct (decide (m = 0%nat)) as [E0|]; [|lia]. exfalso. rewrite E0 in Hend. destruct Hend as [E|E]; [lia|].
    apply bool_decide_eq_false in E. apply E. rewrite Nat.add_0_r, <- Hhd. by destruct (block_hashes x).
  - apply agree_of_lookup; fold x; [lia|lia|]. intros i Hi. specialize (Heq i Hi). by apply bool_decide_eq_true in Heq.
  - intros H1 H2. destruct Hend as [E|E]; [lia|]. by apply bool_decide_eq_false in E.
Qed.

(** ** Nothing after the stop is cached *)

Lemma unmapped_after j :
  (∀ b h, hs !! j = Some h → ¬ maps root (shapes t) h b) →
  ∀ i h b, (j <= i)%nat → hs !! i = Some h → ¬ maps root (shapes t) h b.
Proof using Hwf Hhs.
  intros H0 i. induction i as [|i IH]; intros h b Hi Hh Hm.
  - assert (j = 0%nat) as -> by lia. by eapply H0.
  - destruct (decide (j = S i)) as [->|]; [by eapply H0|].
    pose proof (chained_lookup_pred _ _ _ _ Hhs Hh) as Hp. simpl in Hp.
    destruct (lookup_lt_is_Some_2 hs i) as [g Hg]; [apply lookup_lt_Some in Hh; lia|]. rewrite Hg in Hp.
    destruct (maps_pred _ _ _ _ _ (wf_core _ Hwf) Hm Hp) as [b' Hb']. by apply (IH g b'); [lia| |].
Qed.

Lemma stop_root : dict_get (default 0 (hs !! 0%nat)) (children (nd t root)) = None ∨ hs = [] →
  ∀ b h, hs !! 0%nat = Some h → ¬ maps root (shapes t) h b.
Proof using Hwf Hhs.
  intros Hd b h Hh (x & s & i & Hx & Hs & Hi & _).
  pose proof (chained_lookup_pred _ _ _ _ Hhs Hh) as Hp. simpl in Hp.
  pose proof (pred_place _ _ (wf_core _ Hwf) _ _ _ _ Hx Hs Hi) as P. destruct i as [|i].
  - destruct P as (p & sp & _ & Hsp & Hc & Hpl & Hpr). assert (p = root) as -> by (apply Hpr; congruence).
    apply shapes_nd in Hsp as ->. destruct Hd as [Hd| ->]; [|done]. rewrite Hh in Hd. simpl in *. congruence.
  - destruct P as (g & _ & E). congruence.
Qed.

Lemma stop_node n k m :
  tree t n → (0 < m)%nat → agree n k m →
  ((m < node_size (nd t n))%nat → (k + m < length hs)%nat → block_hashes (nd t n) !! m ≠ hs !! (k + m)%nat) →
  (∀ h, hs !! (k + node_size (nd t n))%nat = Some h → dict_get h (children (nd t n)) = None) →
  ∀ b h, hs !! (k + m)%nat = Some h → ¬ maps root (shapes t) h b.
Proof using Hwf Hhs.
  intros Hn Hm Ha Hne Hd b h Hh (x & s & i & Hx & Hs & Hi & _).
  pose proof (chained_lookup_pred _ _ _ _ Hhs Hh) as Hp. replace (k + m)%nat with (S (k + (m - 1)))%nat in Hp by lia.
  simpl in Hp. pose proof (agree_lookup n k m (m - 1) Ha ltac:(lia)) as Hl. rewrite <- Hl in Hp.
  destruct (lookup_lt_is_Some_2 (block_hashes (nd t n)) (m - 1)) as [g Hg]; [destruct Ha; unfold node_size in *; lia|].
  rewrite Hg in Hp. pose proof (tree_shape _ _ Hwf Hn) as Hsn.
  pose proof (pred_place _ _ (wf_core _ Hwf) _ _ _ _ Hx Hs Hi) as P. destruct i as [|i].
  - destruct P as (p & sp & Htp & Hsp & Hc & Hpl & _). rewrite Hp in Hpl. symmetry in Hpl. apply last_lookup_size in Hpl.
    destruct (loc_inj _ _ (wf_core _ Hwf) g n p _ sp (m - 1)%nat _ Hn Htp Hsn Hsp Hg Hpl) as [<- E].
    apply shapes_nd in Hsp as ->. simpl in *.
    assert (m = node_size (nd t n)) as -> by (unfold node_size in *; destruct (block_hashes (nd t n)); [done|simpl in *; lia]).
    rewrite (Hd _ Hh) in Hc. done.
  - destruct P as (g' & Hg' & E). rewrite Hp in E. injection E as <-.
    destruct (loc_inj _ _ (wf_core _ Hwf) g n x _ s (m - 1)%nat i Hn Hx Hsn Hs Hg Hg') as [<- E].
    apply shapes_nd in Hs as ->. simpl in Hi. replace (S i) with m in Hi by lia.
    pose proof (lookup_lt_Some _ _ _ Hi). pose proof (lookup_lt_Some _ _ _ Hh). apply Hne; [done|done|congruence].
Qed.

(** ** The loop *)

(** Where an insertion after [k] blocks attaches: below the root, or [ml] blocks into the node [n]. *)
Definition anchor_ok (k : nat) (n : nid) (ml : nat) : Prop :=
  tree t n ∧ ((n = root ∧ ml = 0%nat ∧ k = 0%nat) ∨ (n ≠ root ∧ (0 < ml <= k)%nat ∧ agree n (k - ml) ml)).

Record match_inv (m : MatchState) : Prop := {
  mi_tree : tree t (current_node m);
  mi_place : (current_node m = root ∧ prefix_blocks_num m = 0%nat) ∨
             (current_node m ≠ root ∧ head (block_hashes (nd t (current_node m))) = hs !! prefix_blocks_num m);
  mi_le : (prefix_blocks_num m <= length hs)%nat;
  mi_maps : Forall2 (maps root (shapes t)) (take (prefix_blocks_num m) hs) (m_physical_blocks m);
  mi_ready : ready_inv (prefix_blocks_num m) (ready_prefix_blocks_num m) (ready_prefix_open m)
               (m_last_ready_node m) (m_last_swa_node m) (m_swa_hit_blocks m);
  mi_ml : m_last_node_matched_length m = 0%nat;
}.

Record match_final (m : MatchState) : Prop := {
  mf_le : (prefix_blocks_num m <= length hs)%nat;
  mf_maps : Forall2 (maps root (shapes t)) (take (prefix_blocks_num m) hs) (m_physical_blocks m);
  mf_longest : ∀ j h b, (prefix_blocks_num m <= j)%nat → hs !! j = Some h → ¬ maps root (shapes t) h b;
  mf_ready : ready_inv (prefix_blocks_num m) (ready_prefix_blocks_num m) (ready_prefix_open m)
               (m_last_ready_node m) (m_last_swa_node m) (m_swa_hit_blocks m);
  mf_anchor : anchor_ok (prefix_blocks_num m) (current_node m) (m_last_node_matched_length m);
}.

Lemma root_has_swa : has_swa (nd t root) = false.
Proof using Hwf.
  destruct (wf_swa _ Hwf) as [L HL]. rewrite (so_has _ _ _ HL) by constructor. rewrite (so_on _ _ _ HL) by constructor.
  apply bool_decide_eq_false. intros Hin. by destruct (so_dom _ _ _ HL _ Hin).
Qed.

Lemma root_size : node_size (nd t root) = 0%nat.
Proof using Hwf. unfold node_size. by destruct (root_shape _ Hwf) as (-> & _). Qed.

Lemma ready_root k r open lr sw sh (take_it : bool) :
  ready_inv k r open lr sw sh → (k = 0%nat) →
  ready_inv 0 (if take_it then r + 0 else r) (if take_it then open else open) (if take_it then root else lr) sw sh.
Proof using All.
  intros [H1 H2 H3 H4 H5 H6] ->. assert (r = 0%nat) as -> by lia. destruct take_it; simpl; split; try done; by left.
Qed.

Lemma descend_inv m c h :
  match_inv m → hs !! (prefix_blocks_num m + node_size (nd t (current_node m)))%nat = Some h →
  dict_get h (children (nd t (current_node m))) = Some c → match_inv (descend (nd t (current_node m)) c m).
Proof using All.
  intros [H1 H2 H3 H4 H5 H6] Hh Hc. set (n := current_node m) in *.
  destruct (tree_child _ _ _ _ Hwf H1 Hc) as (Hct & Hcr & _ & Hhd & _).
  pose proof (lookup_lt_Some _ _ _ Hh) as Hlt.
  split; simpl; [done| |lia| | |done].
  - right. by rewrite Hh.
  - destruct H2 as [[Er Ek]|[Hr _]].
    + rewrite Er, root_size, Ek. destruct (root_shape _ Hwf) as (_ & -> & _). rewrite app_nil_r. by rewrite Ek in H4.
    + pose proof (descend_agree _ _ _ _ H1 Hr Hh Hc) as Ha. pose proof (agree_maps _ _ _ _ H1 Ha H4) as Hm.
      rewrite (take_ge (physical_blocks _)) in Hm; [done|]. rewrite <- tree_len by done. done.
  - destruct H2 as [[Er Ek]|[Hr _]].
    + change (current_node m) with n. rewrite Er, root_size, root_has_swa, Ek, andb_false_r. cbn [Nat.ltb Nat.leb].
      eapply ready_root; [|reflexivity]. by rewrite <- Ek.
    + pose proof (descend_agree _ _ _ _ H1 Hr Hh Hc) as Ha.
      assert (0 < node_size (nd t n))%nat as Hpos.
      { destruct (tree_parent _ _ Hwf H1 Hr) as (_ & _ & _ & _ & Hne & _). unfold node_size.
        destruct (block_hashes (nd t n)); [done|simpl; lia]. }
      pose proof (ready_advance _ _ _ _ _ _ n (node_size (nd t n)) H5 H1) as Hadv. simpl in Hadv.
      rewrite Nat.eqb_refl, andb_true_r in Hadv. apply Hadv; [lia|]. intros i Hi. by apply (agree_holds _ _ _ _ H1 Ha).
Qed.

Lemma stop_inv m sequence :
  match_inv m → (prefix_blocks_num m < length hs)%nat →
  num_blocks sequence = length hs → (∀ i, get_hash sequence i = hs !! i) →
  (∀ h, hs !! (prefix_blocks_num m + node_size (nd t (current_node m)))%nat = Some h →
     dict_get h (children (nd t (current_node m))) = None) →
  match_final (stop_at (nd t (current_node m)) sequence m).
Proof using All.
  intros [H1 H2 H3 H4 H5 H6] Hlt Hnb Hget Hd. set (n := current_node m) in *. unfold stop_at.
  rewrite (is_root_iff _ _ Hwf H1). destruct H2 as [[Er Ek]|[Hr Hhd]].
  - rewrite bool_decide_eq_true_2 by done. rewrite Ek in *.
    assert (∀ b h, hs !! 0%nat = Some h → ¬ maps root (shapes t) h b) as Hun.
    { apply stop_root. destruct (hs !! 0%nat) as [h|] eqn:E; [left|].
      - rewrite <- Er. simpl. apply Hd. rewrite Er, root_size. done.
      - apply lookup_ge_None in E. lia. }
    split; cbn [prefix_blocks_num m_physical_blocks ready_prefix_blocks_num ready_prefix_open m_last_ready_node m_last_swa_node m_swa_hit_blocks current_node m_last_node_matched_length].
    + simpl. lia.
    + by rewrite app_nil_r.
    + intros j h b Hj. by apply (unmapped_after 0).
    + change (current_node m) with n. rewrite Er, root_size, root_has_swa, andb_false_r. cbn [Nat.ltb Nat.leb Nat.add].
      eapply (ready_root 0); [|done]. done.
    + split; [done|]. left. by split_and!.
  - rewrite bool_decide_eq_false_2 by done.
    assert (matched_in (nd t n) sequence (prefix_blocks_num m) =
      bsearch (S (Nat.min (node_size (nd t n)) (length hs - prefix_blocks_num m)))
             (λ i, bool_decide (block_hashes (nd t n) !! i = hs !! (prefix_blocks_num m + i)%nat)) 0
             (Nat.min (node_size (nd t n)) (length hs - prefix_blocks_num m))) as ->.
    { unfold matched_in. rewrite Hnb. apply bsearch_ext. intros i. unfold same_block. by rewrite Hget. }
    destruct (matched_in_agree _ _ H1 Hr Hhd Hlt) as (Hm & Ha & Hne). set (l := bsearch _ _ _ _) in *. clearbody l.
    split; cbn [prefix_blocks_num m_physical_blocks ready_prefix_blocks_num ready_prefix_open m_last_ready_node m_last_swa_node m_swa_hit_blocks current_node m_last_node_matched_length].
    + apply Ha.
    + by apply agree_maps.
    + intros j h b Hj. apply (unmapped_after (prefix_blocks_num m + l)); [|done]. by apply (stop_node n).
    + apply ready_advance; [done|done|destruct Ha; lia|]. intros i Hi. by apply (agree_holds _ _ _ _ H1 Ha).
    + split; [done|]. right. split; [done|]. split; [lia|]. by replace (prefix_blocks_num m + l - l)%nat with (prefix_blocks_num m) by lia.
Qed.

(** Metadata updates do not change what the loop reads. *)
Lemma calm_views t' n : calm t t' →
  shape_of (nd t' n) = shape_of (nd t n) ∧ is_ready (nd t' n) = is_ready (nd t n) ∧ has_swa (nd t' n) = has_swa (nd t n).
Proof using.
  intros C. split_and!; [apply quiet_nd_shape, C| |].
  - pose proof (quiet_nd_use _ _ n (ca_quiet _ _ C)) as E. unfold use_of in E. congruence.
  - destruct (swa_links_inv _ _ (ca_swa _ _ C n)) as (E & _). by apply swa_of_inv in E as (_ & _ & _ & ->).
Qed.

Lemma views_eq x y sequence m c :
  shape_of x = shape_of y → is_ready x = is_ready y → has_swa x = has_swa y →
  descend x c m = descend y c m ∧ stop_at x sequence m = stop_at y sequence m.
Proof using.
  intros Es Er Ew. unfold shape_of in Es. injection Es as Eb Ep Epa Ec.
  unfold descend, stop_at, matched_in, same_block, node_size, is_root. by rewrite Eb, Ep, Epa, Er, Ew.
Qed.

Lemma match_loop_ok fuel sequence upd m t' :
  calm t t' → match_inv m → num_blocks sequence = length hs → (∀ i, get_hash sequence i = hs !! i) →
  (length hs - prefix_blocks_num m + (if decide (current_node m = root) then 1 else 0) < fuel)%nat →
  ∃ m' t'', match_loop clock fuel sequence upd m t' = (Ok m', t'') ∧ calm t t'' ∧ match_final m'.
Proof using All.
  revert m t'. induction fuel as [|fuel IH]; intros m t' C Hm Hnb Hget Hf; [lia|]. cbn [match_loop]. rewrite Hnb.
  destruct (Nat.ltb_spec (prefix_blocks_num m) (length hs)) as [Hlt|Hge].
  - assert (∃ t1, (if upd then touch_node clock (current_node m) else mret tt) t' = (Ok tt, t1) ∧ calm t t1) as (t1 & E1 & C1).
    { destruct upd; [|by exists t']. destruct (touch_calm clock (current_node m) t') as (t1 & E1 & C1). exists t1. split; [done|]. by etrans. }
    rewrite M_bind_run, E1, M_bind_run. cbn [node gets]. destruct (calm_views t1 (current_node m) C1) as (Es & Er & Ew).
    assert (node_size (nd t1 (current_node m)) = node_size (nd t (current_node m)) ∧
            children (nd t1 (current_node m)) = children (nd t (current_node m))) as [Esz Ech].
    { unfold shape_of in Es. injection Es as Eb _ _ Ec. unfold node_size. by rewrite Eb. }
    rewrite Esz, Ech, Hget. set (n := current_node m) in *.
    destruct (hs !! (prefix_blocks_num m + node_size (nd t n))%nat) as [h|] eqn:Eh; simpl;
      [destruct (dict_get h (children (nd t n))) as [c|] eqn:Ec|].
    + destruct (views_eq _ _ sequence m c Es Er Ew) as [-> _]. pose proof (descend_inv _ _ _ Hm Eh Ec) as Hm'.
      apply IH; [done|done|done|done|]. simpl. destruct (tree_child _ _ _ _ Hwf (mi_tree _ Hm) Ec) as (_ & Hcr & _).
      rewrite (decide_False (P := c = root)) by done. destruct (mi_place _ Hm) as [[Er' Ek]|[Hr _]]; fold n in Er' || fold n in Hr.
      * rewrite decide_True in Hf by done. rewrite Er', root_size. lia.
      * rewrite decide_False in Hf by done. assert (0 < node_size (nd t n))%nat; [|lia].
        destruct (tree_parent _ _ Hwf (mi_tree _ Hm) Hr) as (_ & _ & _ & _ & Hne & _). fold n in Hne. unfold node_size.
        destruct (block_hashes (nd t n)); [done|simpl; lia].
    + destruct (views_eq _ _ sequence m n Es Er Ew) as [_ ->]. eexists _, t1. split; [done|]. split; [done|].
      apply stop_inv; [done|done|done|done|]. fold n. intros h'. rewrite Eh. intros [= <-]. done.
    + destruct (views_eq _ _ sequence m n Es Er Ew) as [_ ->]. eexists _, t1. split; [done|]. split; [done|].
      apply stop_inv; [done|done|done|done|]. fold n. intros h'. by rewrite Eh.
  - exists m, t'. split; [done|]. split; [done|]. destruct Hm as [H1 H2 H3 H4 H5 H6].
    assert (current_node m = root ∧ prefix_blocks_num m = 0%nat) as [Ec Ek].
    { destruct H2 as [?|[Hr Hh]]; [done|]. destruct (tree_parent _ _ Hwf H1 Hr) as (_ & _ & _ & _ & Hne & _).
      rewrite Hne in Hh. symmetry in Hh. apply lookup_lt_Some in Hh. lia. }
    split; [done|done| |done|].
    + intros j h b Hj Hh. apply lookup_lt_Some in Hh. lia.
    + rewrite H6. split; [done|]. by left.
Qed.

(** ** The specification *)

(** The result of a match, in terms of the function the tree denotes. *)
Record match_spec (r : MatchResult) : Prop := {
  ms_le : (num_matched_blocks r <= length hs)%nat;
  ms_maps : Forall2 (maps root (shapes t)) (take (num_matched_blocks r) hs) (mr_physical_blocks r);
  ms_longest : ∀ j h b, (num_matched_blocks r <= j)%nat → hs !! j = Some h → ¬ maps root (shapes t) h b;
  ms_ready : ∃ open lr, last_ready_node r = Some lr ∧
    ready_inv (num_matched_blocks r) (num_ready_matched_blocks r) open lr (last_swa_node r) (swa_hit_blocks r);
  ms_anchor : ∃ n, last_node r = Some n ∧ anchor_ok (num_matched_blocks r) n (last_node_matched_length r);
}.
End spec.

(** A call that may move nodes of the SWA list, and changes nothing else the callers see. *)
Record steady (t t' : RadixTreeIndex) : Prop := {
  sd_quiet : quiet t t';
  sd_swa : ∀ n, swa_of (nd t' n) = swa_of (nd t n);
  sd_freed : _freed_swa_slots t' = _freed_swa_slots t;
  sd_enabled : _swa_enabled t' = _swa_enabled t;
}.

Lemma match_prefix_ok t sequence upd :
  wf t → seq_ok sequence →
  ∃ r t', match_prefix XXH64 clock sequence upd t = (Ok r, t') ∧ wf t' ∧ steady t t' ∧ match_spec t (hashes_of sequence) r.
Proof.
  intros Hwf Hs. pose proof Hs as [Hlen Hch]. unfold match_prefix. rewrite M_bind_run. cbn [get_state].
  set (s := SequenceMeta_gen_hashes XXH64 sequence). set (m0 := mkMatchState _ _ _ _ _ _ _ _ _).
  assert (match_inv t (hashes_of sequence) m0) as H0.
  { split; simpl; [constructor|by left|lia|by rewrite take_0|apply ready_init|done]. }
  destruct (match_loop_ok t Hwf (hashes_of sequence) Hch (num_blocks s + 2) s upd m0 t) as (m & t1 & E & C & F).
  { done. } { done. } { unfold s. by rewrite num_blocks_gen, <- Hlen. } { intros i. by apply get_hash_hashes. }
  { unfold s. rewrite num_blocks_gen. simpl. case_decide; lia. }
  rewrite M_bind_run, E. destruct F as [F1 F2 F3 F4 F5].
  assert (wf t1) as Hwf1 by (by eapply wf_calm).
  assert (steady t t1) as S1.
  { split; [apply C| |apply C|apply C]. intros n. apply (swa_links_inv _ _ (ca_swa _ _ C n)). }
  assert (∃ t2, (match m_last_swa_node m with
     | Some n => if upd then promote_swa clock n else mret tt
     | None => mret tt end) t1 = (Ok tt, t2) ∧ wf t2 ∧ steady t t2) as (t2 & E2 & Hwf2 & S2).
  { destruct (m_last_swa_node m) as [n|] eqn:En; [|by exists t1]. destruct upd; [|by exists t1].
    destruct (wf_swa _ Hwf1) as [L HL].
    assert (tree t1 n) as Hn.
    { rewrite (q_shapes _ _ (ca_quiet _ _ C)), (q_root _ _ (ca_quiet _ _ C)).
      pose proof (ri_swa _ _ _ _ _ _ _ _ F4) as (_ & _ & _ & Hn & _). done. }
    destruct (promote_ok clock _ _ _ _ HL Hn) as (t2 & L2 & E2 & HL2 & St & Ef & Ee). exists t2. split; [done|].
    split; [eapply wf_quiet; [done|apply St|by exists L2]|]. destruct S1 as [Q W Fr En1]. split.
    - etrans; [done|apply St].
    - intros x. rewrite (st_swa _ _ _ _ St), <- W. by case_decide; subst.
    - congruence.
    - congruence. }
  eexists _, t2. rewrite M_bind_run, E2. split; [reflexivity|]. split; [done|]. split; [done|].
  split; simpl; [done|done|done| |by eexists].
  eexists _, _. split; [done|exact F4].
Qed.

End match_prefix.
End RadixMatch.
