(* ===== verification/RadixInsert.v ===== *)
(** * Insertion

    [insert] of [RadixTree] checks that the match result it is given still
    describes the tree, then links a new leaf, splitting the node the match ends
    in.  A stale result is rejected before anything is changed; an accepted one
    adds exactly the new blocks to the function the tree denotes. *)

From S2P Require Import Prelude PyFloat Block RadixTree RadixCore RadixLeaf RadixWf RadixMatch.
Import RadixTree.RadixTree RadixWf.RadixWf RadixMatch.RadixMatch.
Local Open Scope Z_scope.

Module RadixInsert.

Section insert.
Context `{!PrefixHash} (XXH64 : list Z → Z) (clock : nat → float).

(** ** Validation of the insertion point *)

Lemma size_shapes t : size (shapes t) = size (store t).
Proof. unfold shapes. by rewrite <- !size_dom, dom_fmap_L. Qed.

Lemma anchor_root_ok t n l fuel :
  up_chain (shapes t) (n :: l) → (length l < fuel)%nat →
  ∃ top, anchor_root fuel n t = (Ok top, t) ∧ last (n :: l) = Some top.
Proof.
  revert n fuel. induction l as [|p l IH]; intros n fuel Hu Hf; (destruct fuel as [|fuel]; [simpl in Hf; lia|]);
    cbn [anchor_root]; rewrite M_bind_run; cbn [node gets].
  - destruct Hu as (s & Hs & Hp). apply shapes_nd in Hs as ->. simpl in Hp. rewrite Hp. by exists n.
  - destruct Hu as (s & Hs & Hp & Hu). apply shapes_nd in Hs as ->. simpl in Hp. rewrite Hp.
    destruct (IH p fuel Hu) as (top & E & Hl); [simpl in Hf; lia|]. exists top. split; [done|]. by rewrite last_cons_cons.
Qed.

(** The walk reaches the root exactly from the nodes of the tree. *)
Lemma anchor_root_spec t n :
  wf t → is_Some (store t !! n) →
  ∃ top, anchor_root (S (size (store t))) n t = (Ok top, t) ∧ (top = root_node t ↔ tree t n).
Proof.
  intros Hwf Hn. apply live_shapes in Hn. destruct (up_chain_exists _ _ _ _ (wf_core _ Hwf) Hn) as (l & Hu & _ & Hl).
  rewrite size_shapes in Hl. destruct (anchor_root_ok t n l (S (size (store t))) Hu) as (top & E & Hlast); [simpl in Hl; lia|].
  exists top. split; [done|]. split.
  - intros ->. eapply up_chain_in_tree; [apply Hwf|done|done|left].
  - intros Ht. pose proof (in_tree_up_chain _ _ _ _ (wf_core _ Hwf) Hu Ht). congruence.
Qed.

(** The place where block [k] of a sequence can be attached: the first [k] blocks end [ml] blocks into [n],
    and the tree does not continue with block [k]. *)
Definition target_ok (t : RadixTreeIndex) (hs : list Z) (n : nid) (k ml : nat) : Prop :=
  anchor_ok t hs k n ml ∧
  ∀ h, hs !! k = Some h →
    if (ml <? node_size (nd t n))%nat then block_hashes (nd t n) !! ml ≠ Some h
    else dict_get h (children (nd t n)) = None.

Lemma raise_if_run b e (t : RadixTreeIndex) : raise_if b e t = (if b then Raise e else Ok tt, t).
Proof. by destruct b. Qed.

Lemma dict_mem_false h (d : list (Z * nid)) : dict_mem h d = false ↔ dict_get h d = None.
Proof. unfold dict_mem. rewrite bool_decide_eq_false, eq_None_not_Some. done. Qed.

(** The comparison of slices. *)
Lemma slice_agree t hs n k ml :
  (0 < ml <= node_size (nd t n))%nat → (ml <= k)%nat → (k <= length hs)%nat →
  (take ml (block_hashes (nd t n)) = py_slice (Some (Z.of_nat k - Z.of_nat ml)) (Some (Z.of_nat k)) hs ↔ agree t hs n (k - ml) ml).
Proof.
  intros Hm Hk Hl. rewrite py_slice_in by (unfold zlen; lia).
  replace (Z.to_nat (Z.of_nat k - (Z.of_nat k - Z.of_nat ml))) with ml by lia.
  replace (Z.to_nat (Z.of_nat k - Z.of_nat ml)) with (k - ml)%nat by lia. unfold agree. split; [|naive_solver].
  intros E. split_and!; [lia|lia|done].
Qed.

Definition conflicts (e : exn) : Prop := e = conflict ∨ e = child_conflict.

(** Validation accepts exactly the valid targets, and changes nothing. *)
Lemma validate_spec t sequence n k ml :
  wf t → is_Some (store t !! n) → seq_ok XXH64 sequence → (k < num_blocks sequence)%nat →
  let hs := hashes_of XXH64 sequence in
  let r := _validate_insert_target (SequenceMeta_gen_hashes XXH64 sequence) n k ml t in
  r.2 = t ∧ ((r.1 = Ok tt ∧ target_ok t hs n k ml) ∨ (∃ e, r.1 = Raise e ∧ conflicts e ∧ ¬ target_ok t hs n k ml)).
Proof.
  intros Hwf Hn Hs Hk hs r. subst r. destruct (anchor_root_spec t n Hwf Hn) as (top & Ea & Htop).
  pose proof Hs as [Hlen _]. fold hs in Hlen.
  destruct (lookup_lt_is_Some_2 hs k) as [h Hh]; [lia|].
  unfold _validate_insert_target. rewrite M_bind_run. cbn [get_state]. rewrite M_bind_run. cbn [node gets].
  rewrite M_bind_run, Ea, M_bind_run, raise_if_run. set (x := nd t n).
  destruct (bool_decide_reflect (top = root_node t)) as [Et|Et]; cbn [negb].
  2:{ split; [done|]. right. eexists. split; [done|]. split; [by left|]. intros [[Ht _] _]. by apply Et, Htop. }
  assert (tree t n) as Ht by (by apply Htop). rewrite M_bind_run. unfold x. rewrite (is_root_iff t n Hwf Ht). fold x.
  rewrite get_hash_hashes by done. fold hs. rewrite Hh.
  assert (∀ b, anchor_ok t hs k n ml ↔ b = true →
    let r := ((if b then Ok tt else Raise conflict, t) : result unit * RadixTreeIndex) in
    let r' := match r with
      | (Ok _, s') => ((target_hash ← not_none (Some h);
         if (ml <? node_size x)%nat then raise_if (bool_decide (block_hashes x !! ml = Some target_hash)) conflict
         else raise_if (dict_mem target_hash (children x)) child_conflict) : Op unit) s'
      | (Raise e, s') => (Raise e, s') end in
    r'.2 = t ∧ ((r'.1 = Ok tt ∧ target_ok t hs n k ml) ∨ (∃ e, r'.1 = Raise e ∧ conflicts e ∧ ¬ target_ok t hs n k ml))) as Hrest.
  { intros [] Hb; cbv beta iota zeta; cycle 1.
    { split; [done|]. right. eexists. split; [done|]. split; [by left|]. intros [Ha _]. by apply Hb in Ha. }
    rewrite M_bind_run. cbn [not_none mret M_ret]. unfold target_ok. fold x. destruct (ml <? node_size x)%nat; rewrite raise_if_run.
    - case_bool_decide as E; (split; [done|]).
      + right. eexists. split; [done|]. split; [by left|]. intros [_ Hf]. by apply (Hf h).
      + left. split; [done|]. split; [by apply Hb|]. intros h'. rewrite Hh. by intros [= <-].
    - destruct (dict_mem h (children x)) eqn:E; (split; [done|]).
      + right. eexists. split; [done|]. split; [by right|]. intros [_ Hf]. specialize (Hf h Hh). apply dict_mem_false in Hf. congruence.
      + left. split; [done|]. split; [by apply Hb|]. intros h'. rewrite Hh. intros [= <-]. by apply dict_mem_false. }
  destruct (bool_decide_reflect (n = root_node t)) as [Er|Er].
  - specialize (Hrest ((ml =? 0)%nat && (k =? 0)%nat)). rewrite raise_if_run.
    destruct ((ml =? 0)%nat) eqn:E1, ((k =? 0)%nat) eqn:E2; cbn [negb orb andb] in *; apply Hrest;
      rewrite ?Nat.eqb_eq, ?Nat.eqb_neq in *; unfold anchor_ok; split; try done; try (intros [_ [(_ & ? & ?)|(? & _)]]; done).
    intros _. split; [done|]. by left.
  - destruct (tree_parent _ _ Hwf Ht Er) as (p & Hp & _ & _ & _ & Hd & _). fold x in Hp, Hd. rewrite Hp.
    rewrite M_bind_run. cbn [node gets]. rewrite M_bind_run, raise_if_run.
    rewrite bool_decide_eq_true_2 by done. cbn [negb orb].
    destruct ((ml <=? 0)%nat || (node_size x <? ml)%nat) eqn:E1.
    { apply (Hrest false). split; [|done]. intros [_ [(? & _)|(_ & Hm & Ha & _)]]; [done|]. fold x in Ha.
      apply orb_true_iff in E1 as [E1%Nat.leb_le|E1%Nat.ltb_lt]; lia. }
    apply orb_false_iff in E1 as [E1%Nat.leb_gt E2%Nat.ltb_ge]. rewrite raise_if_run.
    destruct (Z.ltb_spec (Z.of_nat k - Z.of_nat ml) 0) as [E3|E3]; cbn [orb].
    { apply (Hrest false). split; [|done]. intros [_ [(? & _)|(_ & [_ Hm] & _)]]; [done|lia]. }
    assert (anchor_ok t hs k n ml ↔ agree t hs n (k - ml) ml) as Hiff.
    { unfold anchor_ok. split; [intros [_ [(? & _)|(_ & _ & ?)]]; done|]. intros. split; [done|]. right. split_and!; (done || lia). }
    unfold x. case_bool_decide as E4; cbn [negb]; fold x.
    + apply (Hrest true). rewrite Hiff. rewrite <- slice_agree by (fold x; lia). done.
    + apply (Hrest false). rewrite Hiff. rewrite <- slice_agree by (fold x; lia). done.
Qed.

(** ** The split *)

Definition prefix_node (x : RadixNode) (k : nat) : RadixNode :=
  mkRadixNode (take k (RadixTree.block_hashes x)) (take k (physical_blocks x)) (is_ready x) 0
    (grace_time x) (hit_count x) (creation_time x) (last_access_time x) None [] (-1) true 0 (f_of_Z 0) None None false.

Lemma split_run t n p k :
  is_Some (store t !! n) → is_Some (store t !! p) → p ≠ n → parent (nd t n) = Some p →
  (0 < k < node_size (nd t n))%nat → store t !! next_id t = None →
  let w := next_id t in
  ∃ t', split n k t = (Ok w, t') ∧ grown t t' ∧
    shapes t' = split_map (shapes t) n p w (shape_of (nd t n)) (shape_of (nd t p))
                  (head_hash (nd t n)) (default 0 (head (drop k (block_hashes (nd t n))))) k ∧
    leaf_nodes t' = leaf_nodes t ∧ next_id t' = S w ∧ parent (nd t' n) = Some w ∧
    block_hashes (nd t' n) = drop k (block_hashes (nd t n)) ∧
    is_ready (nd t' w) = is_ready (nd t n) ∧ is_Some (store t' !! w) ∧
    (∀ y, y ≠ w → y ≠ n → y ≠ p → nd t' y = nd t y).
Proof.
  intros Hn Hp Hpn Hpar Hk Hfr w.
  assert (w ≠ n ∧ w ≠ p) as [Hwn Hwp] by (split; intros E; unfold w in E; rewrite E in Hfr; destruct Hn, Hp; congruence).
  assert (n ≠ next_id t ∧ p ≠ next_id t) as [Hnw Hpw] by (by split; apply not_eq_sym).
  set (x := nd t n) in *. set (h := head_hash x). set (h2 := default 0 (head (drop k (block_hashes x)))).
  assert (default 0 (head (take k (block_hashes x))) = h) as Eh by (unfold h, head_hash; destruct k, (block_hashes x); (done || lia)).
  set (t1 := alloc_state (prefix_node x k) t).
  set (t3 := with_store (alter (λ y, set_physical_blocks y (drop k (physical_blocks y))) n)
               (with_store (alter (λ y, set_block_hashes y (drop k (block_hashes y))) n) t1)).
  set (t6 := with_store (alter (λ y, set_parent y (Some w)) n)
               (with_store (alter (λ y, set_parent y (Some p)) w)
                  (with_store (alter (λ y, set_children y (dict_set h w (children y))) p) t3))).
  set (t7 := with_store (alter (λ y, set_children y (dict_set h2 n (children y))) w) t6).
  assert (split n k t = (Ok w, t7)) as Erun.
  { unfold split. rewrite M_bind_run. cbn [node gets]. fold x.
    rewrite (proj2 (Nat.ltb_lt k _)), (proj2 (Nat.ltb_lt 0 k)) by lia.
    cbv beta iota delta [mbind M_bind mret M_ret node gets upd modify_state alloc get_state put_state assertM py_assert lift_result].
    rewrite Hpar. cbn [not_none mret M_ret]. fold w. fold (prefix_node x k).
    change (with_next_id S (with_store <[w:=prefix_node x k]> t)) with t1. fold t3.
    assert (head_hash (nd t3 w) = h) as ->.
    { unfold t3, t1. nd_simpl. exact Eh. }
    fold t6. assert (head_hash (nd t6 n) = h2) as ->; [|done].
    unfold t6, t3, t1. nd_simpl. done. }
  assert (shapes t7 = split_map (shapes t) n p w (shape_of x) (shape_of (nd t p)) h h2 k) as Esh.
  { unfold t7, t6, t3, t1. shapes_simpl. unfold split_map. fold x w. simpl. solve_inserts. }
  exists t7. split; [done|]. split; [|split; [done|]].
  - trans t1; [by apply grown_alloc|]. unfold t7, t6, t3. repeat (etrans; [|by apply grown_upd]). done.
  - split_and!; [done|done| | | | |]; unfold t7, t6, t3, t1; [nd_simpl; done..| |].
    + do 6 apply live_upd. apply live_alloc. by left.
    + intros y ? ? ?. assert (y ≠ next_id t) by done. nd_simpl. done.
Qed.

(** ** Linking the new leaf *)
Lemma link_run t p w :
  is_Some (store t !! p) → is_Some (store t !! w) → w ≠ p → children (nd t w) = [] →
  let h := head_hash (nd t w) in
  ∃ t', (upd w (λ y, set_parent y (Some p)) ;;
         y ← node w;
         upd p (λ q, set_children q (dict_set (head_hash y) w (children q))) ;;
         set_leaf (head_hash y) w ;;
         mret (Some w)) t = (Ok (Some w), t') ∧ grown t t' ∧
    shapes t' = <[p := shape_of (set_children (nd t p) (dict_set h w (children (nd t p))))]>
                  (<[w := shape_of (set_parent (nd t w) (Some p))]> (shapes t)) ∧
    leaf_nodes t' = dict_set h w (leaf_nodes t) ∧ use_of (nd t' w) = use_of (nd t w).
Proof.
  intros Hp Hw Hwp Hch h.
  set (t2 := with_store (alter (λ q, set_children q (dict_set h w (children q))) p)
               (with_store (alter (λ y, set_parent y (Some p)) w) t)).
  exists (with_leaf_nodes (dict_set h w) t2). split; [|split; [|split; [|split]]].
  - cbv beta iota delta [mbind M_bind mret M_ret node gets upd modify_state set_leaf]. nd_simpl. done.
  - trans t2; [|by apply grown_same]. unfold t2. repeat (etrans; [|by apply grown_upd]). done.
  - unfold t2. shapes_simpl. done.
  - done.
  - unfold t2. nd_simpl. done.
Qed.

(** ** The mutations of the shape behind an insertion *)

Lemma chained_slice hs k m : chained None hs → chained (last (take k hs)) (take m (drop k hs)).
Proof.
  intros Hc. rewrite <- (take_drop k hs), chained_app in Hc. destruct Hc as [_ Hc].
  rewrite <- (take_drop m (drop k hs)), chained_app in Hc. destruct Hc as [Hc _].
  unfold last_or in Hc. by destruct (last (take k hs)).
Qed.

(** The matched part of the node ends where the new blocks start. *)
Lemma anchor_last t hs n k ml :
  wf t → anchor_ok t hs k n ml → last (take ml (block_hashes (nd t n))) = last (take k hs).
Proof.
  intros Hwf [Hn [(-> & -> & ->)|(_ & Hm & (Hsz & Hl & E))]]; [done|].
  rewrite E. replace (take k hs) with (take (k - ml) hs ++ take ml (drop (k - ml) hs)).
  2:{ rewrite take_take_drop. f_equal. lia. }
  rewrite last_app. destruct (last (take ml (drop (k - ml) hs))) eqn:El; [done|].
  apply last_None in El. apply (f_equal length) in El. rewrite length_take, length_drop in El. simpl in El. lia.
Qed.

Lemma head_take (l : list Z) m : (0 < m)%nat → head (take m l) = head l.
Proof. destruct m, l; (done || lia). Qed.

Lemma head_take_drop (hs : list Z) k m : (0 < m)%nat → head (take m (drop k hs)) = hs !! k.
Proof. intros Hm. rewrite <- (Nat.add_0_r k), <- lookup_drop. destruct m; [lia|]. rewrite Nat.add_0_r. by destruct (drop k hs). Qed.

(** The blocks [bh], [pb] were attached in a new leaf [w] at the node [n] of [t]. *)
Record linked (t : RadixTreeIndex) (S : Shapes) (leaf : list (Z * nid)) (bh pb : list Z) (n w : nid) : Prop := {
  lk_core : core (root_node t) S;
  lk_leaf : leaf_ok (root_node t) S leaf;
  lk_old : ∀ x, tree t x → in_tree (root_node t) S x;
  lk_new : ∀ x, in_tree (root_node t) S x → tree t x ∨ store t !! x = None;
  lk_w : in_tree (root_node t) S w ∧ ∃ p, S !! w = Some (Sh bh pb (Some p) []);
  lk_placed : ∀ R R' : nid → bool, (∀ x, tree t x → R' x = R x) →
    (∀ y, in_tree (root_node t) S y → ¬ tree t y → y ≠ w → R' y = R n) →
    ∀ g b r, placed (root_node t) S R' g b r ↔
      placed (root_node t) (shapes t) R g b r ∨ ((∃ i, bh !! i = Some g ∧ pb !! i = Some b) ∧ R' w = r);
  lk_runs : ∀ m l, run (root_node t) (shapes t) m l → run (root_node t) S m l;
}.

Lemma fresh_shapes t n : wf t → (next_id t <= n)%nat → shapes t !! n = None ∧ store t !! n = None.
Proof.
  intros Hwf Hn. assert (store t !! n = None) as E.
  { apply eq_None_not_Some. intros Hl. apply (wf_next _ Hwf) in Hl. lia. }
  split; [|done]. by rewrite shapes_lookup, E.
Qed.

(** No split: the match ends at the end of [n]. *)
Lemma link_at_end t hs n k ml bh pb h w :
  wf t → target_ok t hs n k ml → chained None hs → (node_size (nd t n) <= ml)%nat →
  bh = take (length bh) (drop k hs) → length bh = length pb → hs !! k = Some h → (0 < length bh)%nat →
  (next_id t <= w)%nat →
  linked t (link_map (shapes t) n w (shape_of (nd t n)) bh pb h)
    (dict_set h w (if is_leaf (nd t n) && negb (is_root (nd t n)) then dict_pop (head_hash (nd t n)) (leaf_nodes t) else leaf_nodes t))
    bh pb n w.
Proof.
  intros Hwf [Ha Hfree] Hch Hsz Hbh Hlen Hh Hpos Hw. destruct (fresh_shapes t w Hwf Hw) as [Hws Hwst].
  pose proof (proj1 Ha) as Hn. pose proof (tree_shape _ _ Hwf Hn) as Hs. pose proof (wf_core _ Hwf) as Hc.
  assert (head bh = Some h) as Hhd by (rewrite Hbh, head_take_drop by done; done).
  assert (chained (last (s_bh (shape_of (nd t n)))) bh) as Hchn.
  { simpl. rewrite <- (take_ge (block_hashes (nd t n)) ml) by done. rewrite (anchor_last t hs n k ml) by done.
    rewrite Hbh. by apply chained_slice. }
  assert (dict_get h (s_children (shape_of (nd t n))) = None) as Hfr.
  { specialize (Hfree h Hh). by rewrite (proj2 (Nat.ltb_ge _ _)) in Hfree by done. }
  split.
  - by apply link_core.
  - assert (∀ a b, a = b → leaf_ok (root_node t) (link_map (shapes t) n w (shape_of (nd t n)) bh pb h) a → leaf_ok (root_node t) (link_map (shapes t) n w (shape_of (nd t n)) bh pb h) b) as Heq by (by intros ? ? ->).
    eapply Heq; [|apply link_leaf; [done|done|done|done|done|done|done|done|apply (wf_leaf _ Hwf)]]. f_equal.
    rewrite (is_root_iff t n Hwf Hn). simpl. destruct (decide (n = root_node t)) as [->|Hr].
    + destruct (root_shape _ Hwf) as (-> & _). simpl. rewrite bool_decide_eq_true_2 by done. by rewrite andb_false_r.
    + destruct (tree_parent _ _ Hwf Hn Hr) as (_ & _ & _ & _ & -> & _). rewrite bool_decide_eq_false_2 by done.
      unfold is_leaf, num_children. by destruct (children (nd t n)).
  - intros x Hx. apply (link_in_tree _ _ Hc n w); try done. by left.
  - intros x Hx. apply (link_in_tree _ _ Hc n w) in Hx; try done. destruct Hx as [?| ->]; [by left|by right].
  - split; [apply (link_in_tree _ _ Hc n w); try done; by right|]. exists n. rewrite link_lookup by done.
    rewrite decide_False by (intros ->; congruence). by rewrite decide_True.
  - intros R R' HR _ g b r. by apply link_placed.
  - intros m l. by apply link_run_mono.
Qed.

(** A split: the match ends inside [n]; [w2] is the prefix node. *)
Lemma link_in_split t hs n p k ml bh pb h w w2 :
  wf t → target_ok t hs n k ml → chained None hs → (ml < node_size (nd t n))%nat → parent (nd t n) = Some p →
  bh = take (length bh) (drop k hs) → length bh = length pb → hs !! k = Some h → (0 < length bh)%nat →
  (next_id t <= w)%nat → (next_id t <= w2)%nat → w ≠ w2 →
  let x := nd t n in
  let h2 := default 0 (head (drop ml (block_hashes x))) in
  let s2 := Sh (take ml (block_hashes x)) (take ml (physical_blocks x)) (Some p) [(h2, n)] in
  linked t (link_map (split_map (shapes t) n p w2 (shape_of x) (shape_of (nd t p)) (head_hash x) h2 ml) w2 w s2 bh pb h)
    (dict_set h w (if is_leaf x then dict_set h2 n (dict_pop (head_hash x) (leaf_nodes t)) else leaf_nodes t))
    bh pb n w.
Proof.
  intros Hwf [Ha Hfree] Hch Hsz Hpar Hbh Hlen Hh Hpos Hw Hw2 Hww x h2 s2.
  destruct (fresh_shapes t w Hwf Hw) as [Hws Hwst]. destruct (fresh_shapes t w2 Hwf Hw2) as [Hws2 Hwst2].
  pose proof (proj1 Ha) as Hn. pose proof (tree_shape _ _ Hwf Hn) as Hs. pose proof (wf_core _ Hwf) as Hc.
  assert (n ≠ root_node t) as Hr by (intros ->; rewrite root_size in Hsz by done; lia).
  destruct (tree_parent _ _ Hwf Hn Hr) as (p' & Hp' & Htp & _ & Hhn & _). assert (p' = p) as -> by congruence.
  pose proof (tree_shape _ _ Hwf Htp) as Hsp. fold x in Hs, Hsz, Hpar, Hhn.
  assert (0 < ml < length (s_bh (shape_of x)))%nat as Hk by (destruct Ha as [_ [(? & _)|(_ & ? & _)]]; [done|simpl; unfold node_size in Hsz; lia]).
  assert (head (drop ml (s_bh (shape_of x))) = Some h2) as Hh2.
  { unfold h2. simpl. destruct (drop ml (block_hashes x)) eqn:E; [|done]. apply (f_equal length) in E. rewrite length_drop in E. simpl in E, Hk. lia. }
  assert (s_parent (shape_of x) = Some p) as Hpar' by done.
  assert (head (s_bh (shape_of x)) = Some (head_hash x)) as Hhn' by done.
  set (S1 := split_map (shapes t) n p w2 (shape_of x) (shape_of (nd t p)) (head_hash x) h2 ml).
  assert (core (root_node t) S1) as Hc1 by (by apply split_core).
  assert (∀ y, in_tree (root_node t) S1 y ↔ tree t y ∨ y = w2) as Hin1 by (intros y; by apply split_in_tree).
  assert (S1 !! w2 = Some s2) as Hs2.
  { unfold S1. rewrite split_lookup by done. by rewrite decide_True. }
  assert (S1 !! w = None) as Hw1.
  { unfold S1. rewrite split_lookup by done. rewrite !decide_False; [done|..]; intros ->; congruence. }
  assert (in_tree (root_node t) S1 w2) as Hin2 by (apply Hin1; by right).
  assert (head bh = Some h) as Hhd by (rewrite Hbh, head_take_drop by done; done).
  assert (chained (last (s_bh s2)) bh) as Hchn.
  { simpl. unfold x. rewrite (anchor_last t hs n k ml) by done. rewrite Hbh. by apply chained_slice. }
  assert (dict_get h (s_children s2) = None) as Hfr.
  { specialize (Hfree h Hh). rewrite (proj2 (Nat.ltb_lt _ _)) in Hfree by done. simpl. rewrite decide_False; [done|]. intros ->.
    apply Hfree. fold x. simpl in Hh2. rewrite <- (Nat.add_0_r ml), <- lookup_drop. by destruct (drop ml (block_hashes x)). }
  assert (∀ y, in_tree (root_node t) (link_map S1 w2 w s2 bh pb h) y ↔ tree t y ∨ y = w2 ∨ y = w) as Hin.
  { intros y. rewrite (link_in_tree _ _ Hc1 w2 w) by done. rewrite Hin1. naive_solver. }
  split.
  - by apply link_core.
  - assert (leaf_ok (root_node t) S1 (if decide (s_children (shape_of x) = []) then dict_set h2 n (dict_pop (head_hash x) (leaf_nodes t)) else leaf_nodes t)) as HL1.
    { unfold S1. apply split_leaf; try done. apply (wf_leaf _ Hwf). }
    pose proof (link_leaf _ S1 w2 w s2 bh pb h _ Hc1 Hin2 Hs2 Hw1 Hlen Hhd Hchn Hfr HL1) as HL2.
    assert (head (s_bh s2) = Some (head_hash x)) as Ehd.
    { simpl. by rewrite head_take by lia. }
    rewrite Ehd in HL2. rewrite (decide_False (P := s_children s2 = [])) in HL2 by done.
    change (s_children (shape_of x)) with (children x) in HL2. unfold is_leaf, num_children.
    destruct (decide (children x = [])) as [E|E]; [by rewrite E|]. by destruct (children x).
  - intros y Hy. apply Hin. by left.
  - intros y Hy. apply Hin in Hy as [?|[-> | ->]]; [by left|by right|by right].
  - split; [apply Hin; by do 2 right|]. exists w2. rewrite link_lookup by done.
    rewrite decide_False by (intros ->; congruence). by rewrite decide_True.
  - intros R R' HR HRw g b r. rewrite (link_placed _ S1 Hc1 w2 w s2 bh pb h R' R') by done.
    unfold S1. rewrite (split_placed _ _ Hc n p w2 _ _ (head_hash x) h2 ml R R'); try done.
    apply HRw; [apply Hin; by right; left| |done]. intros Ht2. apply (tree_live _ _ Hwf) in Ht2. rewrite Hwst2 in Ht2. by destruct Ht2.
  - intros m l Hrun. apply link_run_mono; try done. by apply split_run_mono.
Qed.

(** ** The code after validation *)

Definition fresh_node (hashes pbs : list Z) (ready : bool) (now : PyFloat.float) : RadixNode :=
  mkRadixNode hashes pbs ready 0 now 0 now now None [] (-1) true 0 (f_of_Z 0) None None false.

Definition link_new (p w : nid) : Op (option nid) :=
  upd w (λ y, set_parent y (Some p)) ;;
  y ← node w;
  upd p (λ q, set_children q (dict_set (head_hash y) w (children q))) ;;
  set_leaf (head_hash y) w ;;
  mret (Some w).

Definition attach (last : nid) (size ml : nat) (last_leaf : bool) (w : nid) : Op (option nid) :=
  p ← (if (ml <? size)%nat then
         split last ml ;;
         y ← node last;
         (if last_leaf then set_leaf (head_hash y) last else mret tt) ;;
         not_none (parent y)
       else mret last);
  link_new p w.

Definition insert_rest (hashes pbs : list Z) (ready : bool) (last : nid) (ml : nat) : Op (option nid) :=
  now ← time_time clock;
  assertM (length hashes =? length pbs)%nat ;;
  w ← alloc (fresh_node hashes pbs ready now);
  x ← node last;
  let last_leaf := is_leaf x && negb (is_root x) in
  (if last_leaf then pop_leaf (head_hash x) else mret tt) ;;
  attach last (node_size x) ml last_leaf w.

(** What an insertion of the blocks [pbs] under the hashes [bh] achieves. *)
Record inserted (t t' : RadixTreeIndex) (bh pb : list Z) (ready : bool) (w : nid) : Prop := {
  ins_wf : wf t';
  ins_entry : ∀ g b r, entry t' g b r ↔ entry t g b r ∨ ((∃ i, bh !! i = Some g ∧ pb !! i = Some b) ∧ r = ready);
  ins_node : tree t' w ∧ w ≠ root_node t' ∧ block_hashes (nd t' w) = bh ∧ physical_blocks (nd t' w) = pb ∧ children (nd t' w) = [];
  ins_use : use_of (nd t' w) = (ready, 0, 0);
  ins_old : ∀ x, tree t x → tree t' x ∧ use_of (nd t' x) = use_of (nd t x);
  ins_grown : grown t t';
  ins_runs : ∀ n l, run (root_node t) (shapes t) n l → run (root_node t') (shapes t') n l;
  ins_slots : keeps_slots t t';
  ins_from : ∀ x, tree t' x → tree t x ∨ store t !! x = None;
}.

Lemma grown_slots t t' :
  wf t → wf t' → grown t t' → (∀ x, tree t x → tree t' x) → (∀ x, tree t' x → tree t x ∨ store t !! x = None) → keeps_slots t t'.
Proof.
  intros Hwf Hwf' G Hin Hout. apply keeps_slots_same; try done.
  - apply G.
  - intros x Hx. split; [by apply Hin|]. apply swa_links_inv. apply (g_old _ _ G). by apply tree_live.
  - intros x Hx. destruct (Hout x Hx) as [?|Hfr]; [by left|right].
    pose proof (g_new _ _ G x Hfr (tree_live _ _ Hwf' Hx)) as E. unfold swa_links, blank_swa, swa_of in E. unfold has_swa. by injection E as -> -> _.
Qed.

Lemma grown_use t t' x : wf t → grown t t' → tree t x → use_of (nd t' x) = use_of (nd t x).
Proof. intros Hwf G Hx. apply (g_old _ _ G). by apply tree_live. Qed.

Lemma grown_ready t t' x : wf t → grown t t' → tree t x → is_ready (nd t' x) = is_ready (nd t x).
Proof. intros Hwf G Hx. pose proof (grown_use t t' x Hwf G Hx) as E. unfold use_of in E. congruence. Qed.

Lemma inserted_intro t t' bh pb ready n w :
  wf t → grown t t' → linked t (shapes t') (leaf_nodes t') bh pb n w → use_of (nd t' w) = (ready, 0, 0) →
  (∀ y, tree t' y → ¬ tree t y → y ≠ w → is_ready (nd t' y) = is_ready (nd t n)) →
  inserted t t' bh pb ready w.
Proof.
  intros Hwf G [L1 L2 L3 L4 [L5 (p & L6)] L7 L8] Hu He. pose proof (g_root _ _ G) as Er. split.
  - by eapply wf_grown.
  - intros g b r. unfold entry. rewrite Er, (L7 (λ x, is_ready (nd t x)) (λ x, is_ready (nd t' x))).
    2:{ intros y Hy. by apply grown_ready. } 2:{ rewrite Er in He. done. }
    assert (is_ready (nd t' w) = ready) as -> by (unfold use_of in Hu; congruence). naive_solver.
  - rewrite Er. apply shapes_nd in L6 as E. unfold shape_of in E. injection E as E1 E2 E3 E4.
    split_and!; [done| |done..]. intros ->. destruct (root_empty _ _ L1 _ L6) as (_ & _ & ?). done.
  - done.
  - intros x Hx. rewrite Er. split; [by apply L3|by apply grown_use].
  - done.
  - rewrite Er. apply L8.
  - apply grown_slots; try done; [by eapply wf_grown|intros x; rewrite Er; apply L3|]. intros x. rewrite Er. apply L4.
  - intros x. rewrite Er. apply L4.
Qed.

Lemma insert_rest_ok t hs n k ml bh pb ready :
  wf t → target_ok t hs n k ml → chained None hs →
  bh = take (length bh) (drop k hs) → length bh = length pb → (0 < length bh)%nat → (k < length hs)%nat →
  ∃ w t', insert_rest bh pb ready n ml t = (Ok (Some w), t') ∧ store t !! w = None ∧ inserted t t' bh pb ready w.
Proof.
  intros Hwf Htar Hch Hbh Hlen Hpos Hk. destruct (lookup_lt_is_Some_2 hs k Hk) as [h Hh].
  pose proof (proj1 (proj1 Htar)) as Hn. pose proof (tree_live _ _ Hwf Hn) as Hln.
  pose proof (next_fresh _ Hwf) as Hfr. pose proof (wf_core _ Hwf) as Hc.
  assert (head bh = Some h) as Hhd by (rewrite Hbh, head_take_drop by done; done).
  set (w := next_id t). set (now := clock (ticks t)).
  set (x := nd t n). set (last_leaf := is_leaf x && negb (is_root x)).
  set (t1 := alloc_state (fresh_node bh pb ready now) (with_ticks S t)).
  set (t2 := if last_leaf then with_leaf_nodes (dict_pop (head_hash x)) t1 else t1).
  assert (n ≠ w) as Hnw by (intros E; rewrite E in Hln; unfold w in Hln; rewrite Hfr in Hln; by destruct Hln).
  assert (insert_rest bh pb ready n ml t = attach n (node_size x) ml last_leaf w t2) as ->.
  { unfold insert_rest, time_time. cbv beta iota delta [mbind M_bind mret M_ret node gets upd modify_state alloc get_state put_state assertM py_assert lift_result].
    rewrite (proj2 (Nat.eqb_eq _ _) Hlen).
    change (with_next_id S (with_store <[next_id (with_ticks S t):=fresh_node bh pb ready (clock (ticks t))]> (with_ticks S t))) with t1.
    assert (nd t1 n = x) as -> by (unfold t1; rewrite nd_alloc_ne by exact Hnw; done). fold last_leaf. unfold t2. by destruct last_leaf. }
  assert (∀ y, nd t2 y = if decide (y = w) then fresh_node bh pb ready now else nd t y) as End.
  { intros y. unfold t2. destruct last_leaf; rewrite ?nd_leaf; unfold t1; rewrite nd_alloc; done. }
  assert (∀ y, is_Some (store t2 !! y) ↔ y = w ∨ is_Some (store t !! y)) as El.
  { intros y. unfold t2. destruct last_leaf; rewrite ?live_leaf; unfold t1; rewrite live_alloc; done. }
  assert (shapes t2 = <[w := Sh bh pb None []]> (shapes t)) as Esh.
  { unfold t2. destruct last_leaf; rewrite ?shapes_leaf; unfold t1; rewrite shapes_alloc; done. }
  assert (grown t t2) as G2.
  { trans (with_ticks S t); [by apply grown_same|]. trans t1; [by apply grown_alloc|]. unfold t2. by destruct last_leaf; [apply grown_same|]. }
  assert (nd t2 n = x) as En by (by rewrite End, decide_False).
  assert (nd t2 w = fresh_node bh pb ready now) as Ew by (by rewrite End, decide_True).
  assert (leaf_nodes t2 = if last_leaf then dict_pop (head_hash x) (leaf_nodes t) else leaf_nodes t) as Elf.
  { unfold t2. by destruct last_leaf. }
  assert (next_id t2 = S w) as Enx by (unfold t2; by destruct last_leaf).
  unfold attach.
  destruct (Nat.ltb_spec ml (node_size x)) as [Hsz|Hsz].
  - assert (n ≠ root_node t) as Hr by (intros E; unfold x in Hsz; rewrite E, root_size in Hsz by done; lia).
    destruct (tree_parent _ _ Hwf Hn Hr) as (p & Hp & Htp & Hpn & _). fold x in Hp. pose proof (tree_live _ _ Hwf Htp) as Hlp.
    assert (p ≠ w) as Hpw by (intros E; rewrite E in Hlp; unfold w in Hlp; rewrite Hfr in Hlp; by destruct Hlp).
    assert (nd t2 p = nd t p) as Ep by (by rewrite End, decide_False).
    destruct (split_run t2 n p ml) as (t3 & E3 & G3 & S3 & L3 & N3 & P3 & B3 & R3 & W3 & O3).
    { apply El. by right. } { apply El. by right. } { done. } { by rewrite En. }
    { rewrite En. destruct (proj1 Htar) as [_ [(? & _)|(_ & ? & _)]]; [done|lia]. }
    { apply eq_None_not_Some. rewrite Enx. intros [?|Hl]%El; [lia|]. apply (wf_next _ Hwf) in Hl. unfold w in Hl. lia. }
    set (w2 := next_id t2) in *. rewrite En in B3, R3, S3. rewrite Ep in S3.
    set (h2 := default 0 (head (drop ml (block_hashes x)))) in *.
    set (t4 := if last_leaf then with_leaf_nodes (dict_set h2 n) t3 else t3).
    assert ((split n ml ;; y ← node n; (if last_leaf then set_leaf (head_hash y) n else mret tt) ;; not_none (parent y)) t2 = (Ok w2, t4)) as Erun.
    { rewrite M_bind_run, E3, M_bind_run. cbn [node gets]. rewrite M_bind_run. unfold head_hash at 1. rewrite B3, P3. fold h2.
      unfold t4. by destruct last_leaf. }
    assert (grown t t4) as G4.
    { trans t2; [done|]. trans t3; [done|]. unfold t4. by destruct last_leaf; [apply grown_same|]. }
    run_step Erun.
    assert (w2 = S w) as Ew2 by exact Enx. assert (w ≠ w2) as Hww by lia.
    assert (∀ y, nd t4 y = nd t3 y) as E43 by (intros y; unfold t4; by destruct last_leaf).
    assert (shapes t4 = shapes t3) as S43 by (unfold t4; by destruct last_leaf).
    assert (nd t4 w = fresh_node bh pb ready now) as Ew4.
    { rewrite E43, O3 by (done || by apply not_eq_sym). done. }
    assert (is_Some (store t4 !! w2)) as Hl2 by (unfold t4; by destruct last_leaf).
    assert (is_Some (store t4 !! w)) as Hlw.
    { assert (is_Some (store t3 !! w)) by (apply (g_live _ _ G3), El; by left). unfold t4; by destruct last_leaf. }
    destruct (link_run t4 w2 w Hl2 Hlw) as (t5 & E5 & G5 & S5 & L5 & U5); [done|by rewrite Ew4|].
    assert (head_hash (nd t4 w) = h) as Eh by (rewrite Ew4; unfold head_hash; simpl; by rewrite Hhd).
    rewrite Eh in *. exists w, t5. split; [exact E5|]. split; [done|].
    assert (grown t t5) as G by (by trans t4).
    set (s2 := Sh (take ml (block_hashes x)) (take ml (physical_blocks x)) (Some p) [(h2, n)]).
    set (S1 := split_map (shapes t) n p w2 (shape_of x) (shape_of (nd t p)) (head_hash x) h2 ml).
    assert (shapes t5 = link_map S1 w2 w s2 bh pb h) as Esh5.
    { assert (shape_of (nd t4 w2) = s2) as Es2.
      { symmetry. apply shapes_nd. rewrite S43, S3. unfold split_map. by rewrite lookup_insert_eq. }
      change (shape_of (set_children (nd t4 w2) (dict_set h w (children (nd t4 w2)))))
        with (Sh (s_bh (shape_of (nd t4 w2))) (s_pb (shape_of (nd t4 w2))) (s_parent (shape_of (nd t4 w2)))
                (dict_set h w (s_children (shape_of (nd t4 w2))))) in S5.
      rewrite Es2 in S5. rewrite S5, S43, S3, Esh, Ew4. unfold link_map, S1, split_map. fold h2. solve_inserts. }
    assert (is_root x = false) as Hxr by (unfold x; rewrite is_root_iff by done; by apply bool_decide_eq_false).
    assert (linked t (shapes t5) (leaf_nodes t5) bh pb n w) as HL.
    { rewrite Esh5, L5.
      assert (leaf_nodes t4 = if is_leaf x then dict_set h2 n (dict_pop (head_hash x) (leaf_nodes t)) else leaf_nodes t) as ->.
      { unfold t4, last_leaf in *. rewrite Hxr, andb_true_r in *. destruct (is_leaf x); simpl; by rewrite L3, Elf. }
      apply (link_in_split t hs n p k ml); try done; lia. }
    apply inserted_intro with (n := n); [done|done|done|by rewrite U5, Ew4|].
    intros y Hy Hny Hyw. destruct (decide (y = w2)) as [->|Hy2].
    { assert (is_ready (nd t5 w2) = is_ready (nd t3 w2)) as ->; [|by rewrite R3].
      destruct (g_old _ _ G5 w2 Hl2) as [_ Eu]. rewrite E43 in Eu. unfold use_of in Eu. congruence. }
    exfalso. destruct (lk_new _ _ _ _ _ _ _ HL y) as [?|Hny']; [by rewrite <- (g_root _ _ G)|done|].
    destruct (in_tree_live _ _ (lk_core _ _ _ _ _ _ _ HL) y) as [s Hs]; [by rewrite <- (g_root _ _ G)|].
    rewrite Esh5 in Hs. unfold link_map, S1, split_map in Hs.
    rewrite !lookup_insert_ne in Hs by (intros ->; done). rewrite shapes_lookup, Hny' in Hs. done.
  - rewrite M_bind_run. cbn [mret M_ret].
    destruct (link_run t2 n w) as (t5 & E5 & G5 & S5 & L5 & U5); [by apply El; right|by apply El; left|by apply not_eq_sym|by rewrite Ew|].
    assert (head_hash (nd t2 w) = h) as Eh by (rewrite Ew; unfold head_hash; simpl; by rewrite Hhd).
    rewrite Eh in *. exists w, t5. split; [exact E5|]. split; [done|].
    assert (grown t t5) as G by (by trans t2).
    assert (shapes t5 = link_map (shapes t) n w (shape_of x) bh pb h) as Esh5.
    { rewrite S5, Esh, Ew, En. unfold link_map. solve_inserts. }
    assert (linked t (shapes t5) (leaf_nodes t5) bh pb n w) as HL.
    { rewrite Esh5, L5, Elf. apply (link_at_end t hs n k ml); try done; lia. }
    apply inserted_intro with (n := n); [done|done|done|by rewrite U5, Ew|].
    intros y Hy Hny Hyw. exfalso. destruct (lk_new _ _ _ _ _ _ _ HL y) as [?|Hny']; [by rewrite <- (g_root _ _ G)|done|].
    destruct (in_tree_live _ _ (lk_core _ _ _ _ _ _ _ HL) y) as [s Hs]; [by rewrite <- (g_root _ _ G)|].
    rewrite Esh5 in Hs. unfold link_map in Hs.
    rewrite !lookup_insert_ne in Hs by (intros ->; done). rewrite shapes_lookup, Hny' in Hs. done.
Qed.

(** ** The whole call *)

Definition num_insert (sequence : SequenceMeta) (nib : Z) : Z :=
  if nib =? -1 then Z.of_nat (num_blocks sequence) else nib.

(** The hashes of the blocks to insert. *)
Definition new_hashes (sequence : SequenceMeta) (k : nat) (nib : Z) : list Z :=
  take (Z.to_nat (num_insert sequence nib) - k) (drop k (hashes_of XXH64 sequence)).

(** The arguments the code asserts. *)
Definition args_ok (sequence : SequenceMeta) (pbs : list Z) (nib : Z) (k : nat) : Prop :=
  0 <= num_insert sequence nib <= Z.of_nat (num_blocks sequence) ∧ zlen pbs = num_insert sequence nib - Z.of_nat k.

Lemma insert_unfold sequence pbs nib ready r n (t : RadixTreeIndex) :
  args_ok sequence pbs nib (num_matched_blocks r) → Z.of_nat (num_matched_blocks r) < num_insert sequence nib →
  last_node r = Some n → seq_ok XXH64 sequence →
  insert XXH64 clock sequence pbs nib ready (Some r) t =
    (_validate_insert_target (SequenceMeta_gen_hashes XXH64 sequence) n (num_matched_blocks r) (last_node_matched_length r) ;;
     insert_rest (new_hashes sequence (num_matched_blocks r) nib) pbs ready n (last_node_matched_length r)) t.
Proof.
  intros [Hni Hlen] Hlt Hn [Hhs _]. unfold insert. fold (num_insert sequence nib).
  rewrite (proj2 (Z.leb_le 0 _)), (proj2 (Z.leb_le (num_insert sequence nib) _)) by lia.
  rewrite M_bind_run. cbn [assertM andb py_assert lift_result]. rewrite M_bind_run. cbn [mret M_ret].
  rewrite M_bind_run, Hn. cbn [not_none mret M_ret]. rewrite M_bind_run. rewrite (proj2 (Z.eqb_eq _ _) Hlen).
  cbn [assertM py_assert lift_result]. rewrite (proj2 (Z.leb_gt _ _)) by done.
  rewrite !M_bind_run. destruct (_validate_insert_target _ _ _ _ t) as [[[]|e] t1]; [|done].
  fold (hashes_of XXH64 sequence).
  assert (py_slice (Some (Z.of_nat (num_matched_blocks r))) (Some (num_insert sequence nib)) (hashes_of XXH64 sequence)
    = new_hashes sequence (num_matched_blocks r) nib) as ->; [|done].
  unfold new_hashes. rewrite py_slice_in by (unfold zlen; lia). f_equal; [lia|]. f_equal. lia.
Qed.

Lemma new_hashes_length sequence pbs nib k :
  args_ok sequence pbs nib k → Z.of_nat k < num_insert sequence nib → seq_ok XXH64 sequence →
  length (new_hashes sequence k nib) = length pbs ∧ (0 < length (new_hashes sequence k nib))%nat ∧
  (k < length (hashes_of XXH64 sequence))%nat ∧ (k < num_blocks sequence)%nat.
Proof.
  intros [H1 H2] Hlt [Hl _]. unfold zlen in H2. unfold new_hashes. rewrite length_take, length_drop, Hl. lia.
Qed.

(** With a match result given: accepted exactly when it is still valid. *)
Lemma insert_with_result t sequence pbs nib ready r n :
  wf t → seq_ok XXH64 sequence → last_node r = Some n → is_Some (store t !! n) →
  args_ok sequence pbs nib (num_matched_blocks r) → Z.of_nat (num_matched_blocks r) < num_insert sequence nib →
  let k := num_matched_blocks r in let ml := last_node_matched_length r in
  (target_ok t (hashes_of XXH64 sequence) n k ml ∧
   ∃ w t', insert XXH64 clock sequence pbs nib ready (Some r) t = (Ok (Some w), t') ∧ store t !! w = None ∧
     inserted t t' (new_hashes sequence k nib) pbs ready w) ∨
  (¬ target_ok t (hashes_of XXH64 sequence) n k ml ∧
   ∃ e, conflicts e ∧ insert XXH64 clock sequence pbs nib ready (Some r) t = (Raise e, t)).
Proof.
  intros Hwf Hs Hn Hln Ha Hlt k ml. rewrite (insert_unfold _ _ _ _ _ n) by done. rewrite M_bind_run.
  destruct (new_hashes_length _ _ _ _ Ha Hlt Hs) as (Hlen & Hpos & Hk & Hkn).
  destruct (validate_spec t sequence n k ml Hwf Hln Hs Hkn) as [Hst Hr]. fold k ml.
  destruct (_validate_insert_target _ n k ml t) as [r1 t1]. simpl in Hst, Hr. subst t1.
  destruct Hr as [[-> Htar]|(e & -> & He & Htar)].
  - left. split; [done|]. apply (insert_rest_ok t (hashes_of XXH64 sequence) n k ml); try done; [apply Hs|].
    fold k in Hlen, Ha. rewrite Hlen. unfold new_hashes. f_equal. destruct Ha as [_ Ha]. unfold zlen in Ha. lia.
  - right. split; [done|]. by exists e.
Qed.

(** The match result the insertion works with. *)
Definition resolve (sequence : SequenceMeta) (mr : option MatchResult) : Op MatchResult :=
  match mr with Some r => mret r | None => match_prefix XXH64 clock (SequenceMeta_gen_hashes XXH64 sequence) true end.

Lemma gen_hashes_twice sequence :
  SequenceMeta_gen_hashes XXH64 (SequenceMeta_gen_hashes XXH64 sequence) = SequenceMeta_gen_hashes XXH64 sequence.
Proof.
  unfold SequenceMeta_gen_hashes at 2 3. destruct (_has_hashes sequence) eqn:E; [by unfold SequenceMeta_gen_hashes; rewrite E|].
  by destruct (_create_initialized_hasher XXH64 sequence).
Qed.

Lemma seq_ok_gen sequence : seq_ok XXH64 sequence → seq_ok XXH64 (SequenceMeta_gen_hashes XXH64 sequence).
Proof. unfold seq_ok, hashes_of. by rewrite gen_hashes_twice, num_blocks_gen. Qed.

(** The guards around a resolved insertion. *)
Lemma insert_guards t t1 sequence pbs nib ready mr r :
  seq_ok XXH64 sequence → resolve sequence mr t = (Ok r, t1) →
  (0 <= num_insert sequence nib <= Z.of_nat (num_blocks sequence) →
     insert XXH64 clock sequence pbs nib ready mr t = insert XXH64 clock sequence pbs nib ready (Some r) t1) ∧
  (¬ (0 <= num_insert sequence nib <= Z.of_nat (num_blocks sequence)) →
     insert XXH64 clock sequence pbs nib ready mr t = (Raise AssertionError, t)).
Proof.
  intros Hs Hr. unfold insert. fold (num_insert sequence nib). split; intros Hni.
  - rewrite (proj2 (Z.leb_le 0 _)), (proj2 (Z.leb_le (num_insert sequence nib) _)) by lia. cbn [andb].
    rewrite !(M_bind_run (assertM true)). cbn [assertM py_assert lift_result].
    rewrite !(M_bind_run (match _ with Some _ => _ | None => _ end)). unfold resolve in Hr. by rewrite Hr.
  - rewrite M_bind_run. destruct ((0 <=? num_insert sequence nib) && (num_insert sequence nib <=? Z.of_nat (num_blocks sequence))) eqn:E; [|done].
    apply andb_true_iff in E as [?%Z.leb_le ?%Z.leb_le]. lia.
Qed.

Lemma insert_not_none t sequence pbs nib ready r :
  seq_ok XXH64 sequence → 0 <= num_insert sequence nib <= Z.of_nat (num_blocks sequence) →
  (last_node r = None ∨ zlen pbs ≠ num_insert sequence nib - Z.of_nat (num_matched_blocks r) →
     insert XXH64 clock sequence pbs nib ready (Some r) t = (Raise AssertionError, t)) ∧
  (∀ n, last_node r = Some n → zlen pbs = num_insert sequence nib - Z.of_nat (num_matched_blocks r) →
     num_insert sequence nib <= Z.of_nat (num_matched_blocks r) →
     insert XXH64 clock sequence pbs nib ready (Some r) t = (Ok None, t)).
Proof.
  intros Hs Hni. unfold insert. fold (num_insert sequence nib).
  rewrite (proj2 (Z.leb_le 0 _)), (proj2 (Z.leb_le (num_insert sequence nib) _)) by lia. cbn [andb].
  rewrite !(M_bind_run (assertM true)). cbn [assertM py_assert lift_result].
  rewrite !(M_bind_run (mret r)). cbn [mret M_ret]. split.
  - intros [-> | Hl]; [done|]. rewrite M_bind_run. destruct (last_node r) as [n|]; [|done]. cbn [not_none mret M_ret].
    rewrite M_bind_run. rewrite (proj2 (Z.eqb_neq _ _)) by done. done.
  - intros n -> Hl Hle. rewrite M_bind_run. cbn [not_none mret M_ret]. rewrite M_bind_run, (proj2 (Z.eqb_eq _ _) Hl).
    cbn [assertM py_assert lift_result]. by rewrite (proj2 (Z.leb_le _ _) Hle).
Qed.

(** Every call: the index is only observed, or it grows by one new leaf. *)
Lemma insert_outcome t sequence pbs nib ready mr :
  wf t → seq_ok XXH64 sequence → (∀ r n, mr = Some r → last_node r = Some n → is_Some (store t !! n)) →
  let out := insert XXH64 clock sequence pbs nib ready mr t in
  ∃ t1, wf t1 ∧ steady t t1 ∧
    ((out.2 = t1 ∧ (∀ w, out.1 ≠ Ok (Some w))) ∨
     (∃ w k, out.1 = Ok (Some w) ∧ store t1 !! w = None ∧ inserted t1 out.2 (new_hashes sequence k nib) pbs ready w)).
Proof.
  intros Hwf Hs Hlive out. subst out.
  assert (steady t t) as Hrefl by (by split).
  assert (∃ r t1, resolve sequence mr t = (Ok r, t1) ∧ wf t1 ∧ steady t t1 ∧ (∀ n, last_node r = Some n → is_Some (store t1 !! n)))
    as (r & t1 & Er & Hwf1 & S1 & Hl1).
  { unfold resolve. destruct mr as [r|].
    - exists r, t. split_and!; [done|done|done|]. intros n. by apply Hlive.
    - destruct (match_prefix_ok XXH64 clock t (SequenceMeta_gen_hashes XXH64 sequence) true Hwf (seq_ok_gen _ Hs))
        as (r & t1 & E & Hwf1 & S1 & M). exists r, t1. split_and!; [done|done|done|]. intros n Hn.
      destruct (ms_anchor _ _ _ M) as (n' & Hn' & Ht & _). simplify_eq. rewrite (quiet_live _ _ _ (sd_quiet _ _ S1)). by apply tree_live. }
  destruct (insert_guards t t1 sequence pbs nib ready mr r Hs Er) as [G1 G2].
  destruct (decide (0 <= num_insert sequence nib <= Z.of_nat (num_blocks sequence))) as [Hni|Hni].
  2:{ rewrite G2 by done. exists t. split_and!; [done|done|]. left. done. }
  rewrite G1 by done. destruct (insert_not_none t1 sequence pbs nib ready r Hs Hni) as [N1 N2].
  exists t1. split; [done|]. split; [done|].
  destruct (last_node r) as [n|] eqn:En; [|left; by rewrite N1 by (by left)].
  destruct (decide (zlen pbs = num_insert sequence nib - Z.of_nat (num_matched_blocks r))) as [Hlen|Hlen]; [|left; by rewrite N1 by (by right)].
  destruct (decide (num_insert sequence nib <= Z.of_nat (num_matched_blocks r))) as [Hle|Hle]; [left; by rewrite (N2 n)|].
  destruct (insert_with_result t1 sequence pbs nib ready r n) as [[_ (w & t' & -> & Hw & Hin)]|[_ (e & _ & ->)]];
    [done|done|done|by apply Hl1|done|lia| |].
  - right. by exists w, (num_matched_blocks r).
  - by left.
Qed.

End insert.
End RadixInsert.
