(* ===== verification/RadixDetach.v ===== *)
(** * Removing leaves

    The sequence [evict], [evict_swa], [remove_unready_leaf] and the tombstone
    cascade share: unlink a leaf from its parent, drop it from the leaf table,
    free its SWA slot, and file the parent as a leaf when it has no child left.
    [removed] is what any series of such removals achieves. *)

From S2P Require Import Prelude PyFloat Block RadixTree RadixCore RadixLeaf RadixWf RadixMatch RadixInsert.
Import RadixTree.RadixTree RadixWf.RadixWf RadixMatch.RadixMatch RadixInsert.RadixInsert.
Local Open Scope Z_scope.

Module RadixDetach.

(** [t'] has the objects, the use of the objects and the settings of [t]. *)
Record stays (t t' : RadixTreeIndex) : Prop := {
  st_live : ∀ n, is_Some (store t' !! n) ↔ is_Some (store t !! n);
  st_use : ∀ n, use_of (nd t' n) = use_of (nd t n);
  st_config : config t' = config t;
  st_root : root_node t' = root_node t;
  st_next : next_id t' = next_id t;
  st_enabled : _swa_enabled t' = _swa_enabled t;
}.

#[export] Instance stays_preorder : PreOrder stays.
Proof.
  split; [by split|]. intros x y z [A1 A2 A3 A4 A5 A6] [B1 B2 B3 B4 B5 B6]. split; [|congruence..].
  intros n. by rewrite B1.
Qed.

Lemma stays_upd t n f : (∀ x, use_of (f x) = use_of x) → stays t (with_store (alter f n) t).
Proof.
  intros Hf. split; try done; [intros m; apply live_upd|]. intros m. unfold nd. simpl. rewrite lookup_alter.
  case_decide; [subst|done]. destruct (store t !! m); [apply Hf|done].
Qed.

Lemma stays_leaf t f : stays t (with_leaf_nodes f t).
Proof. by split. Qed.

Lemma stays_quiet t t' : quiet t t' → _swa_enabled t' = _swa_enabled t → stays t t'.
Proof.
  intros Q E. split; [intros n; by apply quiet_live|intros n; by apply quiet_nd_use|apply Q..|done].
Qed.

(** Mutations of the shape keep the SWA invariant on the same nodes. *)
Lemma swa_ok_links D t t' L :
  (∀ n, is_Some (store t' !! n) ↔ is_Some (store t !! n)) → config t' = config t → root_node t' = root_node t →
  (∀ n, swa_links (nd t' n) = swa_links (nd t n)) → swa_ok D t L → swa_ok D t' L.
Proof.
  intros S1 S3 S4 S [[L1 L2 L3] H2 H3 H4 H5 H6].
  assert (_swa_lru_head t' = _swa_lru_head t ∧ _swa_lru_tail t' = _swa_lru_tail t) as [Eh Et].
  { unfold config in S3. by injection S3. }
  assert (∀ n, swa_of (nd t' n) = swa_of (nd t n)) as So by (intros n; apply (swa_links_inv _ _ (S n))).
  split.
  - split; rewrite Eh, Et; [|done|by intros n Hn; apply S1, L3]. eapply links_ext; [|done].
    intros a _. apply (swa_links_inv _ _ (S a)).
  - by rewrite S4.
  - intros n Hn. rewrite S1, Eh, Et. auto.
  - intros n Hn. destruct (swa_of_inv _ _ (So n)) as (_ & _ & -> & _). auto.
  - intros n Hn. destruct (swa_of_inv _ _ (So n)) as (_ & _ & -> & ->). auto.
  - intros n Hn. destruct (swa_of_inv _ _ (So n)) as (-> & -> & _). auto.
Qed.

Lemma swa_ok_shape D t t' L :
  stays t t' → (∀ n, swa_links (nd t' n) = swa_links (nd t n)) → swa_ok D t L → swa_ok D t' L.
Proof. intros [S1 S2 S3 S4 S5 S6]. by apply swa_ok_links. Qed.

Lemma links_upd t n f m : (∀ x, swa_links (f x) = swa_links x) →
  swa_links (nd (with_store (alter f n) t) m) = swa_links (nd t m).
Proof.
  intros Hf. unfold nd. simpl. rewrite lookup_alter. case_decide; [subst|done]. destruct (store t !! m); [apply Hf|done].
Qed.

Section detach.
Context `{!PrefixHash}.

(** The tail of every removal. *)
Definition unlink_tail (n p : nid) : Op unit :=
  upd n (λ x, set_parent x None) ;; leaf_if_childless p.

(** The leaf [n], child of [p], was removed. *)
Record detached (t t' : RadixTreeIndex) (n p : nid) : Prop := {
  dt_wf : wf t';
  dt_stays : stays t t';
  dt_shapes : shapes t' = unlink_map (shapes t) n p (shape_of (nd t n)) (shape_of (nd t p)) (head_hash (nd t n));
  dt_swa : ∀ x, x ≠ n → swa_of (nd t' x) = swa_of (nd t x);
  dt_freed : _freed_swa_slots t' = _freed_swa_slots t ++ slots_of (nd t n);
}.

(** Any order of the steps before the tail that reaches this state. *)
Lemma unlink_tail_ok t t3 n p :
  wf t → tree t n → n ≠ root_node t → parent (nd t n) = Some p → children (nd t n) = [] →
  stays t t3 → (∃ L, swa_ok (tree t) t3 L ∧ n ∉ L) →
  shapes t3 = <[p := Sh (block_hashes (nd t p)) (physical_blocks (nd t p)) (parent (nd t p)) (dict_pop (head_hash (nd t n)) (children (nd t p)))]> (shapes t) →
  leaf_nodes t3 = dict_pop (head_hash (nd t n)) (leaf_nodes t) →
  (∀ x, x ≠ n → swa_of (nd t3 x) = swa_of (nd t x)) →
  _freed_swa_slots t3 = _freed_swa_slots t ++ slots_of (nd t n) →
  ∃ t', unlink_tail n p t3 = (Ok tt, t') ∧ detached t t' n p.
Proof.
  intros Hwf Hn Hr Hp Hch St (L & HL & HnL) Esh Elf Esw Efr.
  destruct (tree_parent _ _ Hwf Hn Hr) as (p' & Hp' & Htp & Hpn & Hhd & Hd & _). assert (p' = p) as -> by congruence.
  pose proof (tree_shape _ _ Hwf Hn) as Hs. pose proof (tree_shape _ _ Hwf Htp) as Hsp. pose proof (wf_core _ Hwf) as Hc.
  set (h := head_hash (nd t n)) in *.
  assert (is_Some (store t3 !! n)) as Hl3 by (apply St; by apply tree_live).
  set (t4 := with_store (alter (λ x, set_parent x None) n) t3).
  assert (shape_of (nd t3 n) = shape_of (nd t n)) as En3.
  { symmetry. apply shapes_nd. rewrite Esh, lookup_insert_ne by done. done. }
  assert (shapes t4 = unlink_map (shapes t) n p (shape_of (nd t n)) (shape_of (nd t p)) h) as Esh4.
  { unfold t4. rewrite shapes_upd by done. unfold unlink_map. rewrite Esh. f_equal.
    unfold shape_of in En3. injection En3 as E1 E2 E3 E4. unfold shape_of. simpl. by rewrite E1, E2, E4, Hch. }
  assert (shape_of (nd t4 p) = Sh (block_hashes (nd t p)) (physical_blocks (nd t p)) (parent (nd t p)) (dict_pop h (children (nd t p)))) as Ep4.
  { symmetry. apply shapes_nd. rewrite Esh4. rewrite unlink_lookup. rewrite decide_False, decide_True by done. done. }
  unfold shape_of in Ep4. injection Ep4 as P1 P2 P3 P4.
  set (t5 := if is_leaf (nd t4 p) && negb (is_root (nd t4 p)) then with_leaf_nodes (dict_set (head_hash (nd t4 p)) p) t4 else t4).
  assert (unlink_tail n p t3 = (Ok tt, t5)) as Erun.
  { unfold unlink_tail, leaf_if_childless. cbv beta iota delta [mbind M_bind mret M_ret node gets upd modify_state]. fold t4. unfold t5.
    by destruct (is_leaf (nd t4 p) && negb (is_root (nd t4 p))). }
  exists t5. split; [done|].
  assert (∀ x, nd t5 x = nd t4 x) as E54 by (intros x; unfold t5; by destruct (_ && _)).
  assert (shapes t5 = shapes t4) as S54 by (unfold t5; by destruct (_ && _)).
  assert (∀ x, swa_links (nd t5 x) = swa_links (nd t3 x)) as L53.
  { intros x. rewrite E54. by apply links_upd. }
  assert (stays t3 t5) as St35.
  { trans t4; [by apply stays_upd|]. unfold t5. destruct (_ && _); [apply stays_leaf|done]. }
  assert (stays t t5) as St5 by (by trans t3).
  assert (core (root_node t) (shapes t5)) as Hc5 by (rewrite S54, Esh4; by apply unlink_core).
  assert (∀ x, in_tree (root_node t) (shapes t5) x ↔ tree t x ∧ x ≠ n) as Hin.
  { intros x. rewrite S54, Esh4. by apply (unlink_in_tree _ _ Hc n p). }
  split; [|done|by rewrite S54| |].
  - split; rewrite ?(st_root _ _ St5); [done| | |].
    + assert (leaf_nodes t5 = match head (s_bh (shape_of (nd t p))) with
        | Some hp => if decide (dict_pop h (s_children (shape_of (nd t p))) = []) then dict_set hp p (dict_pop h (leaf_nodes t)) else dict_pop h (leaf_nodes t)
        | None => dict_pop h (leaf_nodes t) end) as ->.
      { rewrite <- Elf. unfold t5, is_leaf, num_children, is_root, head_hash. rewrite P1, P3, P4. simpl.
        destruct (decide (p = root_node t)) as [->|Hpr].
        - destruct (root_shape _ Hwf) as (-> & _ & ->). by rewrite andb_false_r.
        - destruct (tree_parent _ _ Hwf Htp Hpr) as (q & -> & _ & _ & -> & _). simpl. rewrite andb_true_r.
          by destruct (dict_pop h (children (nd t p))). }
      rewrite S54, Esh4. apply unlink_leaf; try done. apply (wf_leaf _ Hwf).
    + intros x. rewrite (st_live _ _ St5), (st_next _ _ St5). apply (wf_next _ Hwf).
    + exists L. eapply (swa_ok_weaken (tree t)).
      * exact (swa_ok_shape _ _ _ _ St35 L53 HL).
      * intros x Hx. by apply Hin in Hx as [? _].
      * intros x Hx. apply Hin. split; [by apply (so_dom _ _ _ HL)|]. by intros ->.
  - intros x Hx. rewrite <- Esw by done. apply (swa_links_inv _ _ (L53 x)).
  - rewrite <- Efr. unfold t5. by destruct (_ && _).
Qed.

(** The steps before the tail, in the two orders of the code. *)
Lemma popped_shapes t n p :
  is_Some (store t !! p) →
  shapes (with_leaf_nodes (dict_pop (head_hash (nd t n)))
           (with_store (alter (λ x, set_children x (dict_pop (head_hash (nd t n)) (children x))) p) t)) =
  <[p := Sh (block_hashes (nd t p)) (physical_blocks (nd t p)) (parent (nd t p)) (dict_pop (head_hash (nd t n)) (children (nd t p)))]> (shapes t).
Proof. intros Hp. rewrite shapes_leaf, shapes_upd by done. done. Qed.

Lemma filter_ne_notin (L : list nid) n : n ∉ filter (λ x, x ≠ n) L.
Proof. rewrite list_elem_of_filter. naive_solver. Qed.

(** Unlink, then free the slot: [evict], the cascade, [remove_unready_leaf]. *)
Lemma detach_ok {A} (k : Op A) t n p :
  wf t → tree t n → n ≠ root_node t → parent (nd t n) = Some p → children (nd t n) = [] →
  ∃ t', detached t t' n p ∧
    (pop_child p (head_hash (nd t n)) ;; pop_leaf (head_hash (nd t n)) ;; record_freed_swa_slot n ;;
     upd n (λ x, set_parent x None) ;; leaf_if_childless p ;; k) t = k t'.
Proof.
  intros Hwf Hn Hr Hp Hch.
  destruct (tree_parent _ _ Hwf Hn Hr) as (p' & Hp' & Htp & Hpn & _). assert (p' = p) as -> by congruence.
  set (h := head_hash (nd t n)).
  set (t1 := with_store (alter (λ x, set_children x (dict_pop h (children x))) p) t).
  set (t2 := with_leaf_nodes (dict_pop h) t1).
  assert (stays t t2) as S2 by (trans t1; [by apply stays_upd|apply stays_leaf]).
  assert (∀ x, swa_links (nd t2 x) = swa_links (nd t x)) as L2.
  { intros x. unfold t2. rewrite nd_leaf. by apply links_upd. }
  destruct (wf_swa _ Hwf) as [L HL]. pose proof (swa_ok_shape _ _ _ _ S2 L2 HL) as HL2.
  destruct (record_freed_ok (tree t) t2 L n HL2 Hn) as (t3 & E3 & HL3 & St3 & F3 & N3); [by rewrite (st_root _ _ S2)|].
  pose proof (swa_links_inv _ _ (L2 n)) as (En2 & _). apply swa_of_inv in En2 as (En2 & _).
  destruct (unlink_tail_ok t t3 n p) as (t' & E' & D'); try done.
  - trans t2; [done|]. apply stays_quiet; [apply St3|done].
  - exists (filter (λ x, x ≠ n) L). split; [done|]. apply filter_ne_notin.
  - rewrite (q_shapes _ _ (RadixWf.st_quiet _ _ _ _ St3)). unfold t2, t1. fold h. apply popped_shapes. by apply tree_live.
  - by rewrite (q_leaf _ _ (RadixWf.st_quiet _ _ _ _ St3)).
  - intros x Hx. rewrite (RadixWf.st_swa _ _ _ _ St3), decide_False by done. apply (swa_links_inv _ _ (L2 x)).
  - rewrite F3. unfold slots_of. by rewrite En2.
  - exists t'. split; [done|]. rewrite M_bind_run. cbn [pop_child upd modify_state]. fold t1.
    rewrite M_bind_run. cbn [pop_leaf modify_state]. fold t2. rewrite M_bind_run, E3.
    unfold unlink_tail in E'. rewrite M_bind_run in E'. rewrite M_bind_run. destruct (upd n _ t3) as [[[]|] t4]; [|done].
    by rewrite M_bind_run, E'.
Qed.

Lemma pop_child_strict_run (t : RadixTreeIndex) p h :
  is_Some (dict_get h (children (nd t p))) → pop_child_strict p h t = pop_child p h t.
Proof. intros Hd. unfold pop_child_strict. rewrite M_bind_run. cbn [node gets]. unfold dict_mem. by rewrite bool_decide_eq_true_2. Qed.

(** Free the slot, then unlink: [evict_swa]. *)
Lemma detach_swa_ok {A} (k : Op A) t n p :
  wf t → tree t n → n ≠ root_node t → parent (nd t n) = Some p → children (nd t n) = [] →
  ∃ t1 t', record_freed_swa_slot n t = (Ok tt, t1) ∧ detached t t' n p ∧
    (pop_child_strict p (head_hash (nd t n)) ;; pop_leaf (head_hash (nd t n)) ;;
     upd n (λ x, set_parent x None) ;; leaf_if_childless p ;; k) t1 = k t'.
Proof.
  intros Hwf Hn Hr Hp Hch.
  destruct (tree_parent _ _ Hwf Hn Hr) as (p' & Hp' & Htp & Hpn & _ & Hd & _). assert (p' = p) as -> by congruence.
  destruct (wf_swa _ Hwf) as [L HL].
  destruct (record_freed_ok (tree t) t L n HL Hn Hr) as (t1 & E1 & HL1 & St1 & F1 & N1).
  pose proof (RadixWf.st_quiet _ _ _ _ St1) as Q1.
  set (h := head_hash (nd t n)) in *.
  set (t2 := with_store (alter (λ x, set_children x (dict_pop h (children x))) p) t1).
  set (t3 := with_leaf_nodes (dict_pop h) t2).
  assert (stays t1 t3) as S3 by (trans t2; [by apply stays_upd|apply stays_leaf]).
  assert (∀ x, swa_links (nd t3 x) = swa_links (nd t1 x)) as L3.
  { intros x. unfold t3. rewrite nd_leaf. by apply links_upd. }
  assert (stays t t1) as S1 by (by apply stays_quiet).
  pose proof (quiet_nd_shape _ _ p Q1) as Ep. unfold shape_of in Ep. injection Ep as P1 P2 P3 P4.
  destruct (unlink_tail_ok t t3 n p) as (t' & E' & D'); try done.
  - by trans t1.
  - exists (filter (λ x, x ≠ n) L). split; [by eapply swa_ok_shape|]. apply filter_ne_notin.
  - unfold t3, t2. rewrite shapes_leaf, shapes_upd by (apply (st_live _ _ S1); by apply tree_live).
    rewrite (q_shapes _ _ Q1). unfold shape_of. simpl. by rewrite P1, P2, P3, P4.
  - unfold t3. simpl. by rewrite (q_leaf _ _ Q1).
  - intros x Hx. destruct (swa_links_inv _ _ (L3 x)) as [-> _]. by rewrite (RadixWf.st_swa _ _ _ _ St1), decide_False.
  - exists t1, t'. split; [done|]. split; [done|]. rewrite M_bind_run, pop_child_strict_run by (rewrite P4; by eexists).
    cbn [pop_child upd modify_state]. fold t2. rewrite M_bind_run. cbn [pop_leaf modify_state]. fold t3.
    unfold unlink_tail in E'. rewrite M_bind_run in E'. rewrite M_bind_run. destruct (upd n _ t3) as [[[]|] t4]; [|done].
    by rewrite M_bind_run, E'.
Qed.

(** ** What removals achieve *)

(** The nodes with a parent: the measure of the eviction loops. *)
Definition hanging (t : RadixTreeIndex) : gset nid :=
  dom (filter (λ ns, is_Some (s_parent ns.2)) (shapes t)).

Lemma elem_of_hanging t n : n ∈ hanging t ↔ ∃ s p, shapes t !! n = Some s ∧ s_parent s = Some p.
Proof.
  unfold hanging. rewrite elem_of_dom. split.
  - intros [s [Hs [p Hp]]%map_lookup_filter_Some]. by exists s, p.
  - intros (s & p & Hs & Hp). exists s. apply map_lookup_filter_Some. split; [done|]. by exists p.
Qed.

(** From [t] to [t'] the hashes [G], cached in the blocks [B], disappeared with nodes (or tails of nodes)
    satisfying [P]; everything else is as before. *)
Record removed (P : RadixNode → Prop) (t t' : RadixTreeIndex) (G B : list Z) : Prop := {
  rm_wf : wf t';
  rm_stays : stays t t';
  rm_entry : ∀ g b r, entry t' g b r ↔ entry t g b r ∧ g ∉ G;
  rm_maps : Forall2 (maps (root_node t) (shapes t)) G B;
  rm_nodup : NoDup G;
  rm_tree : ∀ x, tree t' x → tree t x ∧ block_hashes (nd t' x) `prefix_of` block_hashes (nd t x);
  rm_safe : ∀ x g, tree t x → g ∈ block_hashes (nd t x) → g ∈ G → P (nd t x);
  rm_hanging : hanging t' ⊆ hanging t;
  rm_freed : _freed_swa_slots t `prefix_of` _freed_swa_slots t';
  rm_slots : keeps_slots t t';
}.

(** [P] only looks at the use of the node. *)
Definition use_pred (P : RadixNode → Prop) : Prop := ∀ x y, use_of x = use_of y → P x → P y.

Lemma removed_refl P t : wf t → removed P t t [] [].
Proof.
  intros Hwf. split; try done.
  - intros. rewrite elem_of_nil. naive_solver.
  - apply NoDup_nil_2.
  - by intros x g _ _ ?%elem_of_nil.
Qed.

Lemma entry_maps t g b : maps (root_node t) (shapes t) g b ↔ ∃ r, entry t g b r.
Proof. apply placed_maps_iff. Qed.

Lemma removed_trans P t1 t2 t3 G1 B1 G2 B2 :
  use_pred P → wf t1 → removed P t1 t2 G1 B1 → removed P t2 t3 G2 B2 → removed P t1 t3 (G1 ++ G2) (B1 ++ B2).
Proof.
  intros HP Hwf [A1 A2 A3 A4 A5 A6 A7 A8 A9 A10] [C1 C2 C3 C4 C5 C6 C7 C8 C9 C10].
  assert (∀ g b, maps (root_node t2) (shapes t2) g b → maps (root_node t1) (shapes t1) g b ∧ g ∉ G1) as Hback.
  { intros g b [r Hr]%entry_maps. apply A3 in Hr as [Hr Hg]. split; [|done]. apply entry_maps. by exists r. }
  assert (∀ g, g ∈ G2 → ∃ b, maps (root_node t2) (shapes t2) g b) as HG2.
  { intros g [i Hi]%list_elem_of_lookup. destruct (Forall2_lookup_l _ _ _ _ _ C4 Hi) as (b & _ & Hb). by exists b. }
  split; [done|by trans t2| | | | | |by trans (hanging t2)|by trans (_freed_swa_slots t2)|by trans t2].
  - intros g b r. rewrite C3, A3, elem_of_app. naive_solver.
  - apply Forall2_app; [done|]. eapply Forall2_impl; [exact C4|]. intros g b Hm. by apply Hback.
  - apply NoDup_app. split; [done|]. split; [|done]. intros g Hg1 Hg2. destruct (HG2 g Hg2) as [b Hb]. by apply Hback in Hb as [_ ?].
  - intros x Hx. destruct (C6 x Hx) as [Hx2 Hp2]. destruct (A6 x Hx2) as [Hx1 Hp1]. split; [done|]. by trans (block_hashes (nd t2 x)).
  - intros x g Hx Hg [Hg1|Hg2]%elem_of_app; [by apply (A7 x g)|].
    destruct (HG2 g Hg2) as (b & y & sy & i & Hy & Hsy & Hi & _). apply shapes_nd in Hsy as ->. simpl in Hi.
    destruct (A6 y Hy) as [Hy1 Hp]. assert (y = x) as ->.
    { apply list_elem_of_lookup in Hg as [j Hj]. 
      assert (block_hashes (nd t1 y) !! i = Some g) as Hi1 by (by eapply prefix_lookup_Some).
      by destruct (loc_inj _ _ (wf_core _ Hwf) g y x _ _ i j Hy1 Hx (tree_shape _ _ Hwf Hy1) (tree_shape _ _ Hwf Hx) Hi1 Hj). }
    apply (HP (nd t2 x)); [apply A2|]. apply (C7 x g); [done| |done]. by eapply list_elem_of_lookup_2.
Qed.

Lemma detached_removed P t t' n p :
  wf t → tree t n → n ≠ root_node t → parent (nd t n) = Some p → children (nd t n) = [] → P (nd t n) →
  detached t t' n p → removed P t t' (block_hashes (nd t n)) (physical_blocks (nd t n)) ∧ hanging t' ⊂ hanging t.
Proof.
  intros Hwf Hn Hr Hp Hch HP [D1 D2 D3 D4 D5].
  destruct (tree_parent _ _ Hwf Hn Hr) as (p' & Hp' & Htp & Hpn & Hhd & Hd & _). assert (p' = p) as -> by congruence.
  pose proof (tree_shape _ _ Hwf Hn) as Hs. pose proof (tree_shape _ _ Hwf Htp) as Hsp. pose proof (wf_core _ Hwf) as Hc.
  pose proof (st_root _ _ D2) as Er.
  assert (∀ x, tree t' x ↔ tree t x ∧ x ≠ n) as Hin.
  { intros x. rewrite D3, Er. by apply (unlink_in_tree _ _ Hc n p). }
  assert (hanging t' ⊆ hanging t ∧ n ∉ hanging t') as [Hsub Hnot].
  { split.
    - intros x (s & q & Hsx & Hq)%elem_of_hanging. rewrite D3 in Hsx. apply elem_of_hanging.
      rewrite unlink_lookup in Hsx. repeat case_decide; simplify_eq/=; [by eexists _, _|by exists s, q].
    - intros (s & q & Hsx & Hq)%elem_of_hanging. rewrite D3, unlink_lookup, decide_True in Hsx by done. by simplify_eq. }
  split; [|split; [done|]].
  2:{ intros Hsup. apply Hnot, Hsup, elem_of_hanging. by eexists _, _. }
  split; try done.
  - intros g b r. unfold entry. rewrite D3, Er. apply (unlink_placed _ _ Hc n p); try done.
    intros x Hx Hxn. pose proof (st_use _ _ D2 x) as E. unfold use_of in E. congruence.
  - by apply RadixMatch.tree_maps.
  - apply NoDup_alt. intros i j g Hi Hj. by destruct (loc_inj _ _ Hc g n n _ _ i j Hn Hn Hs Hs Hi Hj).
  - intros x [Hx Hxn]%Hin. split; [done|].
    destruct (unlink_old _ _ Hc n p _ _ (head_hash (nd t n)) Hn Hs Hp Hsp Hhd Hch x _ (tree_shape _ _ Hwf Hx) Hxn) as (sx & Hsx & E & _).
    rewrite <- D3 in Hsx. apply shapes_nd in Hsx as ->. simpl in E. by rewrite E.
  - intros x g Hx Hg HgG. assert (x = n) as ->; [|done]. apply list_elem_of_lookup in Hg as [i Hi], HgG as [j Hj].
    by destruct (loc_inj _ _ Hc g x n _ _ i j Hx Hn (tree_shape _ _ Hwf Hx) Hs Hi Hj).
  - rewrite D5. by apply prefix_app_r.
  - apply (keeps_slots_one t t' n); try done; [by intros [_ ?]%Hin|intros x Hx Ht; by apply Hin|intros x [? _]%Hin; done].
Qed.

(** The leaves other than the removed one stay; only the parent can become a new one. *)
Lemma detached_leaves t t' n p :
  wf t → tree t n → n ≠ root_node t → parent (nd t n) = Some p → children (nd t n) = [] → detached t t' n p →
  (∀ c, tree t c → children (nd t c) = [] → c ≠ n → tree t' c ∧ shape_of (nd t' c) = shape_of (nd t c)) ∧
  (∀ x, tree t' x → children (nd t' x) = [] → x ≠ p → tree t x ∧ x ≠ n ∧ children (nd t x) = []) ∧
  tree t' p ∧ p ≠ n ∧ children (nd t p) ≠ [] ∧ tree t p ∧ ¬ tree t' n.
Proof.
  intros Hwf Hn Hr Hp Hch [D1 D2 D3 D4 D5].
  destruct (tree_parent _ _ Hwf Hn Hr) as (p' & Hp' & Htp & Hpn & Hhd & Hd & _). assert (p' = p) as -> by congruence.
  pose proof (st_root _ _ D2) as Er.
  pose proof (tree_shape _ _ Hwf Hn) as Hs. pose proof (tree_shape _ _ Hwf Htp) as Hsp.
  assert (∀ x, tree t' x ↔ tree t x ∧ x ≠ n) as Hin.
  { intros x. rewrite D3, Er. by apply (unlink_in_tree _ _ (wf_core _ Hwf) n p). }
  assert (∀ x, tree t x → x ≠ n → x ≠ p → shape_of (nd t' x) = shape_of (nd t x)) as Hother.
  { intros x Hx Hxn Hxp. symmetry. apply shapes_nd. rewrite D3, unlink_lookup, !decide_False by done. by apply tree_shape. }
  split_and!; try done.
  - intros c Hc Hcc Hcn. split; [by apply Hin|]. apply Hother; [done|done|]. intros ->. by rewrite Hcc in Hd.
  - intros x [Hx Hxn]%Hin Hxc Hxp. split; [done|]. split; [done|]. specialize (Hother x Hx Hxn Hxp).
    unfold shape_of in Hother. congruence.
  - by apply Hin.
  - intros E. by rewrite E in Hd.
  - by intros [_ ?]%Hin.
Qed.

(** ** The cascade *)

(** What [_iteratively_delete_tombstone_leaf] requires of a victim. *)
Definition deletable (x : RadixNode) : Prop := lock_cnt x = 0 ∧ is_ready x = true.

Lemma deletable_use : use_pred deletable.
Proof. unfold use_pred, deletable, use_of. intros x y [=] [? ?]. split; congruence. Qed.

Lemma use_pred_impl P Q t t' G B : (∀ x, P x → Q x) → removed P t t' G B → removed Q t t' G B.
Proof. intros HPQ [H1 H2 H3 H4 H5 H6 H7 H8 H9 H10]. split; try done. intros x g Hx Hg HgG. eapply HPQ, H7; eauto. Qed.

Lemma cascade_ok fuel : ∀ t n freed hashes,
  wf t → tree t n → (size (hanging t) < fuel)%nat →
  ∃ t' G B s, delete_tombstones fuel (Some n) freed hashes t = (Ok (freed ++ B, hashes ++ (f_of_Z <$> G), Some s), t') ∧
    removed deletable t t' G B ∧ tree t' s ∧
    (∀ c, tree t c → children (nd t c) = [] → c ≠ n → tree t' c ∧ shape_of (nd t' c) = shape_of (nd t c)) ∧
    (∀ x, tree t' x → children (nd t' x) = [] → x ≠ s → tree t x ∧ children (nd t x) = [] ∧ x ≠ n) ∧
    (s = n ∨ children (nd t s) ≠ []) ∧ tree t s ∧
    (G = [] → t' = t).
Proof.
  induction fuel as [|fuel IH]; intros t n freed hashes Hwf Hn Hf; [lia|]. cbn [delete_tombstones].
  rewrite M_bind_run. cbn [node gets]. set (x := nd t n).
  assert (∃ t' G B s, (mret (freed, hashes, Some n) : Op _) t = (Ok (freed ++ B, hashes ++ (f_of_Z <$> G), Some s), t') ∧
    removed deletable t t' G B ∧ tree t' s ∧
    (∀ c, tree t c → children (nd t c) = [] → c ≠ n → tree t' c ∧ shape_of (nd t' c) = shape_of (nd t c)) ∧
    (∀ x, tree t' x → children (nd t' x) = [] → x ≠ s → tree t x ∧ children (nd t x) = [] ∧ x ≠ n) ∧
    (s = n ∨ children (nd t s) ≠ []) ∧ tree t s ∧ (G = [] → t' = t)) as Hstop.
  { exists t, [], [], n. rewrite !app_nil_r. split_and!; try done; [by apply removed_refl|by left]. }
  destruct (negb (is_root x) && is_leaf x && swa_tombstone x && (lock_cnt x =? 0) && is_ready x) eqn:E; [|exact Hstop].
  clear Hstop. apply andb_true_iff in E as [E Erd]. apply andb_true_iff in E as [E Elk%Z.eqb_eq].
  apply andb_true_iff in E as [E _]. apply andb_true_iff in E as [Ert Elf].
  assert (n ≠ root_node t) as Hr.
  { intros Hr. unfold x in Ert. rewrite is_root_iff, bool_decide_eq_true_2 in Ert by done. done. }
  assert (children x = []) as Hch by (unfold is_leaf, num_children in Elf; by destruct (children x)).
  destruct (tree_parent _ _ Hwf Hn Hr) as (p & Hp & _). fold x in Hp. rewrite M_bind_run, Hp. cbn [not_none mret M_ret].
  destruct (detach_ok (delete_tombstones fuel (Some p) (freed ++ physical_blocks x) (hashes ++ (f_of_Z <$> block_hashes x))) t n p) as (t1 & D1 & Ek); try done.
  fold x in Ek. rewrite Ek. clear Ek.
  destruct (detached_removed deletable t t1 n p) as [R1 Hh]; try done.
  destruct (detached_leaves t t1 n p) as (K1 & N1 & Hp1 & Hpn & Hpc & Htp & Hgone); try done.
  destruct (IH t1 p (freed ++ physical_blocks x) (hashes ++ (f_of_Z <$> block_hashes x))) as (t2 & G2 & B2 & s & -> & R2 & Hs & K2 & N2 & Hsc & Hs1 & _).
  { apply D1. } { done. } { apply subset_size in Hh. lia. }
  exists t2, (block_hashes x ++ G2), (physical_blocks x ++ B2), s.
  split_and!; [by rewrite fmap_app, !app_assoc|by eapply (removed_trans _ t t1 t2); [apply deletable_use|..]|done| | | | |].
  - intros c Hc Hcc Hcn. destruct (K1 c Hc Hcc Hcn) as [Hc1 Es1]. destruct (K2 c) as [Hc2 Es2]; [done| | |by rewrite Es2].
    + unfold shape_of in Es1. congruence.
    + intros ->. done.
  - intros y Hy Hyc Hys. destruct (N2 y Hy Hyc Hys) as (Hy1 & Hyc1 & Hyp). destruct (N1 y Hy1 Hyc1 Hyp) as (? & ? & ?). done.
  - destruct Hsc as [->|Hsc]; [by right|]. destruct (decide (s = p)) as [->|Hsp]; [by right|]. right. intros E.
    destruct (K1 s) as [_ Es]; [by apply (rm_tree _ _ _ _ _ R1)|done| |unfold shape_of in Es; congruence].
    by intros ->.
  - by apply (rm_tree _ _ _ _ _ R1).
  - intros E. apply app_eq_nil in E as [E _]. destruct (tree_parent _ _ Hwf Hn Hr) as (_ & _ & _ & _ & Hhd & _). fold x in Hhd. by rewrite E in Hhd.
Qed.
End detach.
End RadixDetach.
