(* ===== verification/RadixEvict.v ===== *)
(** * Eviction

    [evict], [evict_swa] and [remove_unready_leaf] of [RadixTree]: what they
    remove, what they never touch, and that they finish.  The candidates of
    [evict] sit in a heap; a comparison of two of them may raise, which is the
    only way the call can fail. *)

From S2P Require Import Prelude PyFloat Block Heapq RadixTree RadixCore RadixLeaf RadixWf RadixMatch RadixInsert RadixDetach.
Import Heapq.Heapq.
Import RadixTree.RadixTree RadixWf.RadixWf RadixMatch.RadixMatch RadixInsert.RadixInsert RadixDetach.RadixDetach.
Local Open Scope Z_scope.

Module RadixEvict.

Section evict.
Context `{!PrefixHash}.

(** ** Shrinking a leaf *)

(** A node nobody uses: unlocked and ready. *)
Definition idle (x : RadixNode) : Prop := lock_cnt x <= 0 ∧ is_ready x = true.

Lemma idle_use : use_pred idle.
Proof. unfold use_pred, idle, use_of. intros x y [=] [? ?]. split; congruence. Qed.

Lemma evictable_inv x : evictable x = true → is_root x = false ∧ children x = [] ∧ in_use x = false ∧ idle x.
Proof.
  unfold evictable, is_leaf, num_children, in_use, idle. rewrite !andb_true_iff, !negb_true_iff. intros [[Hr Hl%Nat.eqb_eq] Hu].
  split_and!; [done|by destruct (children x)|done| |]; apply orb_false_iff in Hu as [Hu Hrd]; [|by destruct (is_ready x)].
  apply orb_false_iff in Hu as [Hu _]. by apply Z.ltb_ge in Hu.
Qed.

Lemma removed_quiet P t t1 t2 G B :
  removed P t t1 G B → quiet t1 t2 → wf t2 → _swa_enabled t2 = _swa_enabled t1 →
  _freed_swa_slots t1 `prefix_of` _freed_swa_slots t2 → keeps_slots t1 t2 → removed P t t2 G B.
Proof.
  intros [H1 H2 H3 H4 H5 H6 H7 H8 H9 H10] Q Hwf2 En Hfr Hsl. pose proof (q_root _ _ Q) as Er. split; try done.
  - trans t1; [done|by apply stays_quiet].
  - intros g b r. rewrite <- H3. unfold entry, placed. rewrite (q_shapes _ _ Q), Er.
    split; intros (n & s & i & ? & ? & ? & ? & <-); exists n, s, i; (do 4 (split; [done|]));
      pose proof (quiet_nd_use _ _ n Q) as E; unfold use_of in E; congruence.
  - intros x. rewrite (q_shapes _ _ Q), Er. intros Hx. destruct (H6 x Hx) as [Hx1 Hp]. split; [done|].
    pose proof (quiet_nd_shape _ _ x Q) as E. unfold shape_of in E. injection E as -> _ _ _. done.
  - unfold hanging. by rewrite (q_shapes _ _ Q).
  - by trans (_freed_swa_slots t1).
  - by trans t1.
Qed.

Lemma shrink_ok t n len :
  wf t → tree t n → evictable (nd t n) = true → (0 < len < node_size (nd t n))%nat →
  let rem := (node_size (nd t n) - len)%nat in
  let bh := drop rem (block_hashes (nd t n)) in let pb := drop rem (physical_blocks (nd t n)) in
  ∃ t', shrink n len t = (Ok (pb, bh), t') ∧ removed idle t t' bh pb ∧ zlen pb = Z.of_nat len ∧
    n ≠ root_node t ∧ tree t' n.
Proof.
  intros Hwf Hn He Hlen rem bh pb. destruct (evictable_inv _ He) as (Hnr & Hch & Hiu & Hidle).
  pose proof (tree_shape _ _ Hwf Hn) as Hs. pose proof (tree_len _ _ Hwf Hn) as Hl. pose proof (wf_core _ Hwf) as Hc.
  set (x := nd t n) in *.
  set (t1 := with_store (alter (λ y, set_block_hashes y (take rem (block_hashes y))) n) t).
  set (t2 := with_store (alter (λ y, set_physical_blocks y (take rem (physical_blocks y))) n) t1).
  assert (shrink n len t = (Ok (pb, bh), t2)) as Erun.
  { unfold shrink. rewrite M_bind_run. cbn [node gets]. fold x. rewrite (proj2 (Nat.ltb_lt len _)), (proj2 (Nat.ltb_lt 0 len)) by lia.
    unfold is_leaf, num_children. rewrite Hch, Hiu. done. }
  exists t2. split; [done|].
  assert (is_Some (store t !! n)) as Hln by (by apply tree_live).
  assert (is_Some (store t1 !! n)) as Hln1 by (by apply live_upd).
  assert (shapes t2 = shorten_map (shapes t) n (shape_of x) rem) as Esh.
  { unfold t2, t1. shapes_simpl. unfold shorten_map. fold x. unfold shape_of at 1 2. cbn. rewrite Hch. solve_inserts. }
  assert (0 < rem < length (s_bh (shape_of x)))%nat as Hrem by (unfold rem; simpl; unfold node_size in *; lia).
  assert (n ≠ root_node t) as Hr.
  { intros Hr. unfold x in Hnr. rewrite is_root_iff, bool_decide_eq_true_2 in Hnr by done. done. }
  assert (stays t t2) as St by (trans t1; by apply stays_upd).
  assert (∀ y, tree t2 y ↔ tree t y) as Hin.
  { intros y. rewrite Esh. change (root_node t2) with (root_node t). by apply (shorten_in_tree _ _ Hc n). }
  assert (wf t2) as Hwf2.
  { split.
    - rewrite Esh. by apply shorten_core.
    - rewrite Esh. apply shorten_leaf; try done. apply (wf_leaf _ Hwf).
    - intros y. rewrite (st_live _ _ St). apply (wf_next _ Hwf).
    - destruct (wf_swa _ Hwf) as [L HL]. exists L. eapply swa_ok_weaken.
      + eapply (swa_ok_shape (tree t) t t2); [done| |done]. intros y. unfold t2, t1. by rewrite !links_upd.
      + intros y. by rewrite Hin.
      + intros y Hy. apply Hin. by apply (so_dom _ _ _ HL). }
  split; [|split; [|split; [done|by apply Hin]]].
  - split; try done.
    + intros g b r. unfold entry. rewrite Esh. apply (shorten_placed _ _ Hc n); try done.
      intros y Hy. pose proof (st_use _ _ St y) as E. unfold use_of in E. congruence.
    + apply Forall2_drop. by apply RadixMatch.tree_maps.
    + apply NoDup_drop, NoDup_alt. intros i j g Hi Hj. by destruct (loc_inj _ _ Hc g n n _ _ i j Hn Hn Hs Hs Hi Hj).
    + intros y Hy. split; [by apply Hin|]. destruct (decide (y = n)) as [->|Hyn]; unfold t2, t1; nd_simpl; [|done].
      fold x. simpl. apply prefix_take.
    + intros y g Hy Hg HgG. assert (y = n) as ->; [|done].
      apply list_elem_of_lookup in Hg as [i Hi], HgG as [j Hj]. unfold bh in Hj. rewrite lookup_drop in Hj.
      by destruct (loc_inj _ _ Hc g y n _ _ i _ Hy Hn (tree_shape _ _ Hwf Hy) Hs Hi Hj).
    + intros y (s & q & Hsy & Hq)%elem_of_hanging. apply elem_of_hanging. rewrite Esh, shorten_lookup in Hsy.
      case_decide; simplify_eq/=; [by eexists _, _|by exists s, q].
    + assert (∀ y, swa_links (nd t2 y) = swa_links (nd t y)) as Hlk by (intros y; unfold t2, t1; by rewrite !links_upd).
      apply keeps_slots_same; try done.
      * intros y Hy. split; [by apply Hin|]. apply (swa_links_inv _ _ (Hlk y)).
      * intros y Hy. left. by apply Hin.
  - unfold pb, zlen. rewrite length_drop, <- Hl. unfold rem, node_size in *. lia.
Qed.

(** Freeing the slot of a node of the tree. *)
Lemma record_freed_wf t n :
  wf t → tree t n → n ≠ root_node t →
  ∃ t', record_freed_swa_slot n t = (Ok tt, t') ∧ wf t' ∧ quiet t t' ∧ _swa_enabled t' = _swa_enabled t ∧
    _freed_swa_slots t' = _freed_swa_slots t ++ slots_of (nd t n) ∧
    (∀ x, x ≠ n → swa_of (nd t' x) = swa_of (nd t x)) ∧ keeps_slots t t'.
Proof.
  intros Hwf Hn Hr. destruct (wf_swa _ Hwf) as [L HL].
  destruct (record_freed_ok _ _ _ _ HL Hn Hr) as (t' & E & HL' & St & F & N). exists t'. pose proof (RadixWf.st_quiet _ _ _ _ St) as Q.
  assert (wf t') as Hwf' by (eapply wf_quiet; [done|done|by eexists]).
  assert (∀ x, tree t' x ↔ tree t x) as Hin by (intros x; by rewrite (q_shapes _ _ Q), (q_root _ _ Q)).
  assert (∀ x, x ≠ n → swa_of (nd t' x) = swa_of (nd t x)) as Hsw.
  { intros x Hx. by rewrite (RadixWf.st_swa _ _ _ _ St), decide_False. }
  split_and!; try done. apply (keeps_slots_one t t' n); try done.
  - intros _. pose proof (RadixWf.st_swa _ _ _ _ St n) as En. rewrite decide_True in En by done. unfold has_swa.
    unfold swa_of in En. by injection En as -> -> _.
  - intros x _. apply Hin.
  - intros x. apply Hin.
Qed.

(** ** The candidates *)

Lemma leaf_values t : wf t →
  NoDup (leaf_nodes t).*2 ∧ ∀ n, n ∈ (leaf_nodes t).*2 ↔ ∃ h, is_leaf_of (root_node t) (shapes t) h n.
Proof.
  intros Hwf. destruct (wf_leaf _ Hwf) as [Hd Hl]. split.
  - apply NoDup_alt. intros i j n Hi Hj. rewrite !list_lookup_fmap in Hi, Hj.
    destruct (leaf_nodes t !! i) as [[h1 n1]|] eqn:E1; [|done]. destruct (leaf_nodes t !! j) as [[h2 n2]|] eqn:E2; [|done].
    injection Hi as ->. injection Hj as ->.
    assert (h1 = h2) as ->.
    { assert (dict_get h1 (leaf_nodes t) = Some n) as H1%Hl by (apply dict_elem_get; [done|by eapply list_elem_of_lookup_2]).
      assert (dict_get h2 (leaf_nodes t) = Some n) as H2%Hl by (apply dict_elem_get; [done|by eapply list_elem_of_lookup_2]).
      destruct H1 as (_ & s1 & ? & ? & _), H2 as (_ & s2 & ? & ? & _). congruence. }
    eapply (NoDup_lookup (leaf_nodes t).*1 i j h2); [done|by rewrite list_lookup_fmap, E1|by rewrite list_lookup_fmap, E2].
  - intros n. rewrite list_elem_of_fmap. split.
    + intros ([h m] & -> & Hin). exists h. apply Hl. by apply dict_elem_get.
    + intros (h & Hn%Hl%dict_get_Some_elem). by exists (h, n).
Qed.

Definition unknown_policy : exn := ValueError "Unknown eviction policy".

Lemma priority_raises t x e : _get_eviction_priority t x = Raise e → e = unknown_policy.
Proof. unfold _get_eviction_priority, unknown_policy. repeat case_match; congruence. Qed.

Lemma candidates_spec t l : ∀ acc,
  (∃ c, for_acc candidate acc l t = (Ok (acc ++ c), t) ∧ c.*2 = filter (λ n, evictable (nd t n) = true) l) ∨
  for_acc candidate acc l t = (Raise unknown_policy, t).
Proof.
  induction l as [|n l IH]; intros acc; cbn [for_acc].
  - left. exists []. by rewrite app_nil_r.
  - rewrite M_bind_run. unfold candidate at 1 3. rewrite !M_bind_run. cbn [node gets]. rewrite filter_cons.
    destruct (evictable (nd t n)) eqn:He.
    + rewrite !M_bind_run. cbn [get_state]. rewrite !M_bind_run. cbn [lift_result].
      destruct (_get_eviction_priority t (nd t n)) as [p|e] eqn:Ep; [|right; by apply priority_raises in Ep as ->].
      cbn [mret M_ret]. destruct (IH (acc ++ [(p, n)])) as [(c & -> & Hc)| ->]; [left|by right].
      exists ((p, n) :: c). rewrite <- app_assoc. split; [done|]. rewrite decide_True by done. csimpl. by rewrite Hc.
    + cbn [mret M_ret]. destruct (IH acc) as [(c & -> & Hc)| ->]; [left|by right]. exists c. split; [done|]. by rewrite decide_False.
Qed.

(** ** One eviction *)

Lemma entry_lt_raises t a b e : entry_lt t a b = Raise e → ∃ msg, e = ValueError msg.
Proof. unfold entry_lt. repeat case_match; intros [=]; subst; by eexists. Qed.

Lemma raises_value_error t l {B} (r : result B) :
  raises_from (entry_lt t) l r → (∃ b, r = Ok b) ∨ ∃ msg, r = Raise (ValueError msg).
Proof.
  unfold raises_from. destruct r as [b|e]; [left; by eexists|]. intros (x & y & _ & _ & E). right.
  destruct (entry_lt_raises _ _ _ _ E) as [msg ->]. by exists msg.
Qed.

Lemma in_use_eq x y : use_of x = use_of y → RadixTree.in_use x = RadixTree.in_use y.
Proof. unfold use_of, RadixTree.in_use. intros [= -> -> ->]. done. Qed.

Lemma evictable_iff t x : wf t → tree t x →
  evictable (nd t x) = true ↔ x ≠ root_node t ∧ children (nd t x) = [] ∧ RadixTree.in_use (nd t x) = false.
Proof.
  intros Hwf Hx. unfold evictable. rewrite (is_root_iff _ _ Hwf Hx), !andb_true_iff, !negb_true_iff, bool_decide_eq_false.
  unfold is_leaf, num_children. rewrite Nat.eqb_eq. destruct (children (nd t x)); naive_solver.
Qed.

(** The part after a node was unlinked: the cascade, when it is enabled. *)
Definition maybe_cascade (p : nid) (b : list Z) (h : list PyFloat.float) : Op (list Z * list PyFloat.float * option nid) :=
  t ← get_state;
  if _swa_enabled t then
    '(cb, ch, p) ← _iteratively_delete_tombstone_leaf p;
    mret (b ++ cb, h ++ ch, p)
  else mret (b, h, Some p).

Lemma hanging_size t : (size (hanging t) <= size (store t))%nat.
Proof.
  rewrite <- size_shapes, <- size_dom. apply subseteq_size. intros x (s & p & Hs & _)%elem_of_hanging.
  apply elem_of_dom. by exists s.
Qed.

Lemma maybe_cascade_ok t p b h :
  wf t → tree t p →
  ∃ t' G B s, maybe_cascade p b h t = (Ok (b ++ B, h ++ (f_of_Z <$> G), Some s), t') ∧
    removed deletable t t' G B ∧ tree t' s ∧
    (∀ c, tree t c → children (nd t c) = [] → c ≠ p → tree t' c ∧ shape_of (nd t' c) = shape_of (nd t c)) ∧
    (∀ x, tree t' x → children (nd t' x) = [] → x ≠ s → tree t x ∧ children (nd t x) = [] ∧ x ≠ p) ∧
    (s = p ∨ children (nd t s) ≠ []).
Proof.
  intros Hwf Hp. unfold maybe_cascade. rewrite M_bind_run. cbn [get_state]. destruct (_swa_enabled t).
  - unfold _iteratively_delete_tombstone_leaf. rewrite !M_bind_run. cbn [get_state].
    destruct (cascade_ok (S (size (store t))) t p [] [] Hwf Hp) as (t' & G & B & s & E & H1 & H2 & H3 & H4 & H5 & _).
    { pose proof (hanging_size t). lia. }
    rewrite E. by exists t', G, B, s.
  - exists t, [], [], p. rewrite !app_nil_r. split_and!; try done; [by apply removed_refl|by left].
Qed.

(** The state of the loop of [evict]. *)
Record evict_inv (num : Z) (t0 t : RadixTreeIndex) (cands : list (Priority * nid)) (blocks : list Z) (hashes : list PyFloat.float) : Prop := {
  ei_removed : ∃ G, removed idle t0 t G blocks ∧ hashes = f_of_Z <$> G;
  ei_cands : num <= zlen blocks ∨
    (NoDup cands.*2 ∧ ∀ x, x ∈ cands.*2 ↔ tree t x ∧ evictable (nd t x) = true);
}.

Definition push_survivor (s : option nid) (candidates : list (Priority * nid)) : Op (list (Priority * nid)) :=
  match s with
  | None => mret candidates
  | Some p =>
      y ← node p;
      if evictable y then
        t ← get_state;
        pr ← lift_result (_get_eviction_priority t y);
        lift_result (heappush (entry_lt t) (pr, p) candidates)
      else mret candidates
  end.

Lemma push_survivor_ok t s c1 :
  (∃ c2, push_survivor (Some s) c1 t = (Ok c2, t) ∧ c2.*2 ≡ₚ if evictable (nd t s) then s :: c1.*2 else c1.*2) ∨
  (∃ msg, push_survivor (Some s) c1 t = (Raise (ValueError msg), t)).
Proof.
  unfold push_survivor. rewrite M_bind_run. cbn [node gets]. destruct (evictable (nd t s)); [|left; by exists c1].
  rewrite M_bind_run. cbn [get_state]. rewrite M_bind_run. cbn [lift_result].
  destruct (_get_eviction_priority t (nd t s)) as [pr|e] eqn:Ep; [|right; apply priority_raises in Ep as ->; by eexists].
  destruct (raises_value_error t _ _ (heappush_raises (entry_lt t) (pr, s) c1)) as [[c2 E]|[msg E]]; rewrite E; [left|right; by exists msg].
  exists c2. split; [done|]. apply heappush_perm in E. by rewrite E.
Qed.

Definition evict_shrink (n : nid) (want : Z) (st : EvictState) : Op EvictState :=
  let '(candidates, blocks, hashes) := st in
  '(b, h) ← shrink n (Z.to_nat want);
  record_freed_swa_slot n ;;
  mret (candidates, blocks ++ b, hashes ++ (f_of_Z <$> h)).

Definition evict_whole (n : nid) (x : RadixNode) (st : EvictState) : Op EvictState :=
  let '(candidates, blocks, hashes) := st in
  p ← not_none (parent x);
  pop_child_strict p (head_hash x) ;;
  pop_leaf (head_hash x) ;;
  record_freed_swa_slot n ;;
  upd n (λ x, set_parent x None) ;;
  leaf_if_childless p ;;
  '(b, h, p) ← maybe_cascade p (physical_blocks x) (f_of_Z <$> block_hashes x);
  candidates ← push_survivor p candidates;
  mret (candidates, blocks ++ b, hashes ++ h).

Lemma evict_step_unfold num cands blocks hashes p n c1 t :
  heappop (entry_lt t) cands = Ok ((p, n), c1) →
  evict_step num (cands, blocks, hashes) t =
    (if num - zlen blocks <? Z.of_nat (node_size (nd t n))
     then evict_shrink n (num - zlen blocks) (c1, blocks, hashes) t
     else evict_whole n (nd t n) (c1, blocks, hashes) t).
Proof.
  intros E. unfold evict_step. rewrite M_bind_run. cbn [get_state]. rewrite M_bind_run. cbn [lift_result]. rewrite E.
  rewrite M_bind_run. cbn [node gets]. by destruct (_ <? _).
Qed.

Lemma evict_shrink_ok num t0 t n c1 blocks hashes G :
  wf t0 → removed idle t0 t G blocks → hashes = f_of_Z <$> G → tree t n → evictable (nd t n) = true →
  zlen blocks < num → num - zlen blocks < Z.of_nat (node_size (nd t n)) →
  ∃ b' h' t', evict_shrink n (num - zlen blocks) (c1, blocks, hashes) t = (Ok (c1, b', h'), t') ∧
    evict_inv num t0 t' c1 b' h' ∧ zlen b' = num.
Proof.
  intros Hwf0 R Hh Hn He Hlt Hw. pose proof (rm_wf _ _ _ _ _ R) as Hwf.
  destruct (shrink_ok t n (Z.to_nat (num - zlen blocks)) Hwf Hn He) as (t1 & E1 & R1 & Hl & Hr & Hn1); [lia|].
  set (bh := drop _ (block_hashes _)) in *. set (pb := drop _ (physical_blocks _)) in *.
  pose proof (rm_wf _ _ _ _ _ R1) as Hwf1. pose proof (rm_stays _ _ _ _ _ R1) as St1.
  destruct (record_freed_wf t1 n Hwf1 Hn1) as (t2 & E2 & Hwf2 & Q2 & N2 & F2 & _ & K2); [by rewrite (st_root _ _ St1)|].
  assert (zlen (blocks ++ pb) = num) as Hz by (rewrite zlen_app; lia).
  exists (blocks ++ pb), (hashes ++ (f_of_Z <$> bh)), t2. split; [|split; [|done]].
  - unfold evict_shrink. rewrite M_bind_run, E1, M_bind_run, E2. done.
  - split; [|left; lia]. exists (G ++ bh). split; [|by rewrite Hh, fmap_app].
    eapply removed_quiet; [|exact Q2|done|done|rewrite F2; by apply prefix_app_r|done]. eapply removed_trans; [apply idle_use|done|done|done].
Qed.

Lemma idle_deletable x : deletable x → idle x.
Proof. unfold deletable, idle. intros [-> ->]. done. Qed.

Lemma evict_whole_ok num t0 t n c1 cands blocks hashes G :
  wf t0 → removed idle t0 t G blocks → hashes = f_of_Z <$> G → tree t n → evictable (nd t n) = true →
  cands ≡ₚ n :: c1.*2 → NoDup cands → (∀ x, x ∈ cands ↔ tree t x ∧ evictable (nd t x) = true) →
  (∃ c2 b' h' t', evict_whole n (nd t n) (c1, blocks, hashes) t = (Ok (c2, b', h'), t') ∧
     evict_inv num t0 t' c2 b' h' ∧ (size (hanging t') < size (hanging t))%nat) ∨
  (∃ msg t' G' B', evict_whole n (nd t n) (c1, blocks, hashes) t = (Raise (ValueError msg), t') ∧ removed idle t0 t' G' B').
Proof.
  intros Hwf0 R Hh Hn He Hperm Hnd Hall. pose proof (rm_wf _ _ _ _ _ R) as Hwf. set (x := nd t n) in *.
  destruct (evictable_inv _ He) as (_ & Hch & Hiu & Hidle).
  destruct (proj1 (evictable_iff t n Hwf Hn) He) as (Hr & _ & _).
  destruct (tree_parent _ _ Hwf Hn Hr) as (p & Hp & _ & _ & _ & Hd & _). fold x in Hp, Hd.
  destruct (detach_ok ('(b, h, p) ← maybe_cascade p (physical_blocks x) (f_of_Z <$> block_hashes x);
    candidates ← push_survivor p c1; mret (candidates, blocks ++ b, hashes ++ h)) t n p) as (t1 & D1 & Ek); try done.
  fold x in Ek.
  assert (evict_whole n x (c1, blocks, hashes) t = ('(b, h, p) ← maybe_cascade p (physical_blocks x) (f_of_Z <$> block_hashes x);
    candidates ← push_survivor p c1; mret (candidates, blocks ++ b, hashes ++ h) : Op EvictState) t1) as ->.
  { etrans; [|exact Ek]. unfold evict_whole. rewrite M_bind_run, Hp. cbn [not_none mret M_ret].
    rewrite !(M_bind_run (pop_child_strict _ _)), pop_child_strict_run by (by eexists). done. }
  clear Ek. destruct (detached_removed idle t t1 n p) as [R1 Hh1]; try done.
  destruct (detached_leaves t t1 n p) as (K1 & N1 & Hp1 & Hpn & Hpc & Htp & Hgone); try done.
  pose proof (rm_wf _ _ _ _ _ R1) as Hwf1.
  destruct (maybe_cascade_ok t1 p (physical_blocks x) (f_of_Z <$> block_hashes x) Hwf1 Hp1) as (t2 & G2 & B2 & s & E2 & R2 & Hs & K2 & N2 & Hsc).
  pose proof (rm_wf _ _ _ _ _ R2) as Hwf2.
  assert (removed idle t0 t2 (G ++ block_hashes x ++ G2) (blocks ++ physical_blocks x ++ B2)) as R02.
  { eapply removed_trans; [apply idle_use|done|done|]. eapply removed_trans; [apply idle_use|done|done|].
    eapply use_pred_impl; [apply idle_deletable|done]. }
  assert (stays t t2) as St by (trans t1; [apply R1|apply R2]).
  pose proof (st_root _ _ St) as Er.
  assert (∀ c, c ∈ c1.*2 → c ≠ s ∧ tree t2 c ∧ evictable (nd t2 c) = true) as Hc1.
  { intros c Hc. assert (c ∈ cands) as Hcin by (rewrite Hperm; by right). apply Hall in Hcin as [Hct Hce].
    assert (c ≠ n) as Hcn by (intros ->; rewrite Hperm in Hnd; by apply NoDup_cons in Hnd as [? _]).
    destruct (proj1 (evictable_iff t c Hwf Hct) Hce) as (Hcr & Hcc & Hcu).
    destruct (K1 c Hct Hcc Hcn) as [Hct1 Es1]. assert (children (nd t1 c) = []) as Hcc1 by (unfold shape_of in Es1; congruence).
    assert (c ≠ p) as Hcp by (by intros ->). destruct (K2 c Hct1 Hcc1 Hcp) as [Hct2 Es2].
    split; [intros ->; by destruct Hsc|]. split; [done|]. apply evictable_iff; [done|done|]. rewrite Er.
    split; [done|]. split; [unfold shape_of in Es2; congruence|]. by rewrite (in_use_eq _ _ (st_use _ _ St c)). }
  assert (∀ y, tree t2 y → evictable (nd t2 y) = true → y ≠ s → y ∈ c1.*2) as Hback.
  { intros y Hy Hye Hys. destruct (proj1 (evictable_iff t2 y Hwf2 Hy) Hye) as (Hyr & Hyc & Hyu).
    destruct (N2 y Hy Hyc Hys) as (Hy1 & Hyc1 & Hyp). destruct (N1 y Hy1 Hyc1 Hyp) as (Hy0 & Hyn & Hyc0).
    assert (y ∈ cands) as Hyin.
    { apply Hall. split; [done|]. apply evictable_iff; [done|done|]. rewrite <- Er. split; [done|]. split; [done|].
      by rewrite <- (in_use_eq _ _ (st_use _ _ St y)). }
    rewrite Hperm in Hyin. by apply elem_of_cons in Hyin as [?|?]. }
  assert (size (hanging t2) < size (hanging t))%nat as Hsz.
  { apply subset_size in Hh1. pose proof (subseteq_size _ _ (rm_hanging _ _ _ _ _ R2)). lia. }
  rewrite M_bind_run, E2. cbv beta iota. rewrite M_bind_run.
  destruct (push_survivor_ok t2 s c1) as [(c2 & -> & Hc2)|(msg & ->)].
  2:{ right. by eexists _, _, _, _. }
  left. eexists _, _, _, _. split; [reflexivity|]. split; [|done]. split.
  - exists (G ++ block_hashes x ++ G2). split; [done|]. by rewrite Hh, !fmap_app.
  - right. assert (NoDup (s :: c1.*2)) as Hnd'.
    { apply NoDup_cons. split; [intros Hin; by destruct (Hc1 s Hin)|]. rewrite Hperm in Hnd. by apply NoDup_cons in Hnd as [_ ?]. }
    split.
    + rewrite Hc2. destruct (evictable (nd t2 s)); [done|]. by apply NoDup_cons in Hnd' as [_ ?].
    + intros y. rewrite Hc2. destruct (evictable (nd t2 s)) eqn:Es.
      * rewrite elem_of_cons. split; [intros [->|Hy]; [done|by apply Hc1]|]. intros [Hy Hye].
        destruct (decide (y = s)) as [->|]; [by left|]. right. by apply Hback.
      * split; [intros Hy; by apply Hc1|]. intros [Hy Hye]. apply Hback; [done|done|]. intros ->. congruence.
Qed.

(** ** The loop *)

Lemma evict_loop_ok num t0 fuel : ∀ t cands blocks hashes,
  wf t0 → evict_inv num t0 t cands blocks hashes → (size (hanging t) < fuel)%nat →
  (∃ c' b' h' t' G, evict_loop fuel num (cands, blocks, hashes) t = (Ok (c', b', h'), t') ∧
     removed idle t0 t' G b' ∧ h' = f_of_Z <$> G ∧
     (num <= zlen b' ∨ ∀ x, tree t' x → evictable (nd t' x) = false)) ∨
  (∃ msg t' G B, evict_loop fuel num (cands, blocks, hashes) t = (Raise (ValueError msg), t') ∧ removed idle t0 t' G B).
Proof.
  induction fuel as [|fuel IH]; intros t cands blocks hashes Hwf0 [(G & R & Hh) Hc] Hf; [lia|]. cbn [evict_loop].
  destruct (Z.ltb_spec (zlen blocks) num) as [Hlt|Hge]; cbn [andb].
  2:{ left. exists cands, blocks, hashes, t, G. split_and!; try done. by left. }
  destruct Hc as [?|[Hnd Hall]]; [lia|].
  destruct cands as [|[p0 n0] cs] eqn:Ec; cbn [length Nat.eqb negb].
  { left. exists [], blocks, hashes, t, G. split_and!; try done. right. intros x Hx.
    destruct (evictable (nd t x)) eqn:E; [|done]. assert (x ∈ ([] : list nid)) as Hin by (by apply Hall). by apply elem_of_nil in Hin. }
  rewrite <- Ec in *.
  destruct (raises_value_error t _ _ (heappop_raises (entry_lt t) cands ltac:(by rewrite Ec))) as [[[[p n] c1] E]|[msg E]].
  2:{ right. exists msg, t, G, blocks. split; [|done]. rewrite M_bind_run. unfold evict_step. rewrite M_bind_run. cbn [get_state].
      rewrite M_bind_run. cbn [lift_result]. by rewrite E. }
  pose proof (heappop_perm _ _ _ _ E) as Hp. apply (fmap_Permutation snd) in Hp. csimpl in Hp.
  assert (n ∈ cands.*2) as Hn by (rewrite Hp; left). apply Hall in Hn as [Hn He].
  rewrite M_bind_run, (evict_step_unfold _ _ _ _ _ _ _ _ E).
  destruct (Z.ltb_spec (num - zlen blocks) (Z.of_nat (node_size (nd t n)))) as [Hw|Hw].
  - destruct (evict_shrink_ok num t0 t n c1 blocks hashes G) as (b' & h' & t' & -> & Hinv & Hz); try done.
    destruct fuel as [|fuel].
    { destruct (tree_parent _ _ (rm_wf _ _ _ _ _ R) Hn) as (q & Hq & _).
      { by apply (evictable_iff t n (rm_wf _ _ _ _ _ R) Hn) in He as [? _]. }
      assert (n ∈ hanging t) as Hin by (apply elem_of_hanging; eexists _, q; split; [by apply tree_shape; [apply R|]|done]).
      assert (size (hanging t) ≠ 0%nat) by (apply size_non_empty_iff; set_solver). lia. }
    cbn [evict_loop]. rewrite Hz, Z.ltb_irrefl. cbn [andb]. destruct Hinv as [(G' & R' & Hh') _].
    left. exists c1, b', h', t', G'. split_and!; try done. left. lia.
  - destruct (evict_whole_ok num t0 t n c1 cands.*2 blocks hashes G) as [(c2 & b' & h' & t' & -> & Hinv & Hsz)|(msg & t' & G' & B' & -> & R')]; try done.
    + apply IH; [done|done|lia].
    + right. by exists msg, t', G', B'.
Qed.

(** The whole call. *)
Lemma evict_ok num t :
  wf t →
  (∃ blocks hashes t' G, evict num t = (Ok (blocks, hashes), t') ∧
     removed idle t t' G blocks ∧ hashes = f_of_Z <$> G ∧
     (num <= zlen blocks ∨ ∀ x, tree t' x → evictable (nd t' x) = false)) ∨
  (∃ msg t' G B, evict num t = (Raise (ValueError msg), t') ∧ removed idle t t' G B).
Proof.
  intros Hwf. unfold evict. rewrite M_bind_run. cbn [get_state]. rewrite M_bind_run. destruct (leaf_values t Hwf) as [Hnd Hl].
  destruct (candidates_spec t (leaf_nodes t).*2 []) as [(c & -> & Hc)| ->].
  2:{ right. exists "Unknown eviction policy"%string, t, [], []. split; [done|]. by apply removed_refl. }
  rewrite M_bind_run. cbn [get_state app]. rewrite M_bind_run. cbn [lift_result].
  destruct (raises_value_error t _ _ (heapify_raises (entry_lt t) c)) as [[c1 E]|[msg E]]; rewrite E.
  2:{ right. exists msg, t, [], []. split; [done|]. by apply removed_refl. }
  apply heapify_perm, (fmap_Permutation snd) in E. csimpl in E.
  assert (evict_inv num t t c1 [] []) as Hinv.
  { split; [exists []; split; [by apply removed_refl|done]|]. right. rewrite E, Hc. split; [by apply NoDup_filter|].
    intros x. rewrite E, Hc, list_elem_of_filter, Hl. split.
    - intros [He (h & Hx & _)]. done.
    - intros [Hx He]. split; [done|]. destruct (evictable_inv _ He) as (_ & Hch & _).
      destruct (proj1 (evictable_iff t x Hwf Hx) He) as (Hr & _).
      destruct (tree_parent _ _ Hwf Hx Hr) as (_ & _ & _ & _ & Hhd & _). eexists. split; [done|].
      exists (shape_of (nd t x)). split; [by apply tree_shape|]. done. }
  rewrite M_bind_run. destruct (evict_loop_ok num t (S (size (store t))) t c1 [] [] Hwf Hinv)
    as [(c' & b' & h' & t' & G & -> & H1 & H2 & H3)|(msg & t' & G & B & -> & R)].
  { pose proof (hanging_size t). lia. }
  - left. by exists b', h', t', G.
  - right. by exists msg, t', G, B.
Qed.

(** ** Unready leaves *)

Definition unready (x : RadixNode) : Prop := lock_cnt x <= 0 ∧ swa_lock_ref x <= 0 ∧ is_ready x = false.

Lemma remove_unready_leaf_ok t n :
  wf t → tree t n →
  ∃ blocks G t', remove_unready_leaf (Some n) t = (Ok blocks, t') ∧
    removed (λ x, unready x ∨ deletable x) t t' G blocks ∧
    (if (negb (is_root (nd t n)) && negb (is_ready (nd t n)) && negb (0 <? lock_cnt (nd t n)) && negb (0 <? swa_lock_ref (nd t n)) && is_leaf (nd t n))
     then block_hashes (nd t n) `prefix_of` G ∧ ¬ tree t' n else t' = t ∧ G = []).
Proof.
  intros Hwf Hn. unfold remove_unready_leaf. rewrite M_bind_run. cbn [node gets]. set (x := nd t n).
  assert (is_root x || is_ready x || (0 <? lock_cnt x) || (0 <? swa_lock_ref x) || negb (is_leaf x) =
    negb (negb (is_root x) && negb (is_ready x) && negb (0 <? lock_cnt x) && negb (0 <? swa_lock_ref x) && is_leaf x)) as ->.
  { by destruct (is_root x), (is_ready x), (0 <? lock_cnt x), (0 <? swa_lock_ref x), (is_leaf x). }
  destruct (_ && is_leaf x) eqn:E; cbn [negb].
  2:{ exists [], [], t. split; [done|]. split; [by apply removed_refl|done]. }
  apply andb_true_iff in E as [E Elf]. apply andb_true_iff in E as [E Esl%negb_true_iff%Z.ltb_ge].
  apply andb_true_iff in E as [E Elk%negb_true_iff%Z.ltb_ge]. apply andb_true_iff in E as [Ert Erd%negb_true_iff].
  assert (n ≠ root_node t) as Hr.
  { intros Hr. unfold x in Ert. rewrite is_root_iff, bool_decide_eq_true_2 in Ert by done. done. }
  assert (children x = []) as Hch by (unfold is_leaf, num_children in Elf; by destruct (children x)).
  destruct (tree_parent _ _ Hwf Hn Hr) as (p & Hp & _). fold x in Hp. rewrite M_bind_run, Hp. cbn [not_none mret M_ret].
  destruct (detach_ok (t ← get_state; if _swa_enabled t then
          '(cb, _, _) ← _iteratively_delete_tombstone_leaf p; mret (physical_blocks x ++ cb)
        else mret (physical_blocks x)) t n p) as (t1 & D1 & Ek); try done.
  fold x in Ek. rewrite Ek. clear Ek.
  destruct (detached_removed (λ x, unready x ∨ deletable x) t t1 n p) as [R1 _]; try done; [by left|].
  destruct (detached_leaves t t1 n p) as (_ & _ & Hp1 & _ & _ & _ & Hgone); try done.
  pose proof (rm_wf _ _ _ _ _ R1) as Hwf1.
  destruct (maybe_cascade_ok t1 p (physical_blocks x) [] Hwf1 Hp1) as (t2 & G2 & B2 & s & E2 & R2 & _).
  exists (physical_blocks x ++ B2), (block_hashes x ++ G2), t2. split; [|split; [|split]].
  - unfold maybe_cascade in E2. rewrite M_bind_run in E2. rewrite M_bind_run. cbn [get_state] in *.
    destruct (_swa_enabled t1); [|unfold mret, M_ret in *; congruence].
    rewrite M_bind_run in E2. rewrite M_bind_run. destruct (_iteratively_delete_tombstone_leaf p t1) as [[[[cb ch] q]|] t3]; [|done].
    unfold mret, M_ret in *. congruence.
  - eapply removed_trans; [|done|done|eapply use_pred_impl; [|done]; by right].
    unfold use_pred, unready, deletable, use_of. intros a b [= -> -> ->]. done.
  - apply prefix_app_r. done.
  - intros Hn2. by apply (rm_tree _ _ _ _ _ R2) in Hn2 as [? _].
Qed.

(** ** Evicting SWA snapshots *)

Definition unlocked_swa (t : RadixTreeIndex) (n : nid) : Prop := swa_lock_ref (nd t n) <= 0.
#[export] Instance unlocked_swa_dec t n : Decision (unlocked_swa t n).
Proof. unfold unlocked_swa. apply _. Defined.

(** The walk goes through the list backwards. *)
Lemma lru_walk_ok t : ∀ l fuel,
  links t (_swa_lru_head t :: l) → _swa_lru_head t ∉ l → (length l < fuel)%nat →
  ∀ x, last (_swa_lru_head t :: l) = Some x →
  lru_walk fuel (Some x) t = (Ok (head (filter (unlocked_swa t) (reverse l))), t).
Proof.
  intros l. induction l as [|a l IH] using rev_ind; intros fuel Hl Hnh Hf x Hx; (destruct fuel as [|fuel]; [lia|]).
  - injection Hx as <-. cbn [lru_walk]. rewrite M_bind_run. cbn [get_state]. by rewrite decide_True.
  - rewrite app_comm_cons, last_snoc in Hx. injection Hx as <-. rewrite length_app in Hf. simpl in Hf.
    cbn [lru_walk]. rewrite M_bind_run. cbn [get_state]. rewrite not_elem_of_app in Hnh. destruct Hnh as [Hnh Hna].
    rewrite decide_False by (intros [= E]; apply Hna; rewrite E; left). rewrite M_bind_run. cbn [deref mret M_ret].
    rewrite reverse_snoc, filter_cons. destruct (Z.ltb_spec 0 (swa_lock_ref (nd t a))) as [Hu|Hu].
    + rewrite decide_False by (unfold unlocked_swa; lia).
      destruct (exists_last (l := _swa_lru_head t :: l)) as (l0 & b & Eb); [done|].
      assert (links t (l0 ++ b :: [a])) as Hl' by (rewrite app_comm_cons, Eb, <- app_assoc in Hl; exact Hl).
      apply links_app in Hl' as [Hl0 (_ & Hp & _)]. rewrite Hp. apply IH; [by rewrite Eb|done|lia|]. by rewrite Eb, last_snoc.
    + by rewrite decide_True by done.
Qed.

Lemma lru_length t L : lru t L → (length L <= size (store t))%nat.
Proof.
  intros [_ Hnd Hlv]. rewrite <- size_shapes. apply NoDup_dom_length.
  - apply NoDup_cons in Hnd as [_ Hnd]. by apply NoDup_app in Hnd as [? _].
  - intros x Hx. rewrite shapes_lookup, fmap_is_Some. apply Hlv. set_solver.
Qed.

Lemma get_lru_unlocked_ok t L :
  lru t L → _swa_lru_get_lru_unlocked t = (Ok (head (filter (unlocked_swa t) (reverse L))), t).
Proof.
  intros Hl. pose proof (lru_length _ _ Hl). destruct Hl as [Hlk Hnd _]. unfold _swa_lru_get_lru_unlocked.
  rewrite M_bind_run. cbn [get_state].
  destruct (exists_last (l := _swa_lru_head t :: L)) as (l0 & b & Eb); [done|].
  rewrite app_comm_cons, Eb, <- app_assoc in Hlk. cbn [app] in Hlk. apply links_app in Hlk as [Hl0 (_ & Hp & _)].
  rewrite Hp. rewrite <- Eb in Hl0. apply lru_walk_ok; [done| |lia|by rewrite Eb, last_snoc].
  apply NoDup_cons in Hnd as [Hnd _]. set_solver.
Qed.

Definition unlocked (x : RadixNode) : Prop := lock_cnt x <= 0.

Lemma unlocked_use : use_pred unlocked.
Proof. unfold use_pred, unlocked, use_of. intros x y [=]. lia. Qed.

Lemma has_swa_slots x : has_swa x = true → slots_of x = [swa_host_slot x].
Proof. unfold has_swa, slots_of. intros [_ ->]%andb_true_iff. done. Qed.

(** The victim of one round: the least recently used node whose snapshot nobody holds. *)
Lemma swa_victim t :
  wf t → ∃ v, _swa_lru_get_lru_unlocked t = (Ok v, t) ∧
    match v with
    | Some n => tree t n ∧ n ≠ root_node t ∧ has_swa (nd t n) = true ∧ swa_lock_ref (nd t n) <= 0
    | None => ∀ x, tree t x → has_swa (nd t x) = true → 0 < swa_lock_ref (nd t x)
    end.
Proof.
  intros Hwf. destruct (wf_swa _ Hwf) as [L HL]. eexists. split; [apply get_lru_unlocked_ok, HL|].
  destruct (head _) as [n|] eqn:E.
  - assert (n ∈ filter (unlocked_swa t) (reverse L)) as Hin by (destruct (filter _ _); simplify_eq/=; left).
    apply list_elem_of_filter in Hin as [Hu Hin]. rewrite elem_of_reverse in Hin. destruct (so_dom _ _ _ HL n Hin) as [Hn Hr].
    split_and!; [done|done| |done]. rewrite (so_has _ _ _ HL) by done. rewrite (so_on _ _ _ HL) by done. by apply bool_decide_eq_true.
  - intros x Hx Hs. rewrite (so_has _ _ _ HL), (so_on _ _ _ HL), bool_decide_eq_true in Hs by done.
    destruct (decide (unlocked_swa t x)) as [Hu|Hu]; [|unfold unlocked_swa in Hu; lia]. exfalso.
    assert (x ∈ filter (unlocked_swa t) (reverse L)) as Hin by (apply list_elem_of_filter; split; [done|by rewrite elem_of_reverse]).
    destruct (filter _ _); [by apply elem_of_nil in Hin|done].
Qed.

(** One round: at least one slot is freed, and only unlocked leaves disappear. *)
Lemma evict_swa_round t n (k : list Z → Op (list Z * Z)) blocks :
  wf t → tree t n → n ≠ root_node t → has_swa (nd t n) = true →
  ∃ t' G B F,
    (let x := nd t n in
     (if negb (is_leaf x) || (0 <? lock_cnt x) then record_freed_swa_slot n ;; k blocks
      else
        record_freed_swa_slot n ;;
        p ← not_none (parent x);
        pop_child_strict p (head_hash x) ;;
        pop_leaf (head_hash x) ;;
        upd n (λ x, set_parent x None) ;;
        leaf_if_childless p ;;
        '(cb, _, _) ← _iteratively_delete_tombstone_leaf p;
        k (blocks ++ physical_blocks x ++ cb)) t) = k (blocks ++ B) t' ∧
    removed unlocked t t' G B ∧ _freed_swa_slots t' = _freed_swa_slots t ++ F ∧ 1 <= zlen F.
Proof.
  intros Hwf Hn Hr Hsw. cbv zeta. set (x := nd t n).
  destruct (negb (is_leaf x) || (0 <? lock_cnt x)) eqn:E.
  - destruct (record_freed_wf t n Hwf Hn Hr) as (t1 & E1 & Hwf1 & Q & N & F & _ & Ks).
    exists t1, [], [], (slots_of x). rewrite M_bind_run, E1, app_nil_r. rewrite has_swa_slots in * by done.
    split_and!; [done| |done|done]. eapply removed_quiet; [by apply removed_refl|done|done|done| |done]. rewrite F. by apply prefix_app_r.
  - apply orb_false_iff in E as [Elf%negb_false_iff Elk%Z.ltb_ge].
    assert (children x = []) as Hch by (unfold is_leaf, num_children in Elf; by destruct (children x)).
    destruct (tree_parent _ _ Hwf Hn Hr) as (p & Hp & _). fold x in Hp.
    destruct (detach_swa_ok ('(cb, _, _) ← _iteratively_delete_tombstone_leaf p; k (blocks ++ physical_blocks x ++ cb)) t n p)
      as (t1 & t2 & E1 & D & Ek); try done.
    destruct (detached_removed unlocked t t2 n p) as [R1 _]; try done.
    destruct (detached_leaves t t2 n p) as (_ & _ & Hp2 & _); try done. pose proof (rm_wf _ _ _ _ _ R1) as Hwf2.
    destruct (cascade_ok (S (size (store t2))) t2 p [] [] Hwf2 Hp2) as (t3 & G & B & s & E3 & R2 & _).
    { pose proof (hanging_size t2). lia. }
    destruct (rm_freed _ _ _ _ _ R2) as [F HF].
    exists t3, (block_hashes x ++ G), (physical_blocks x ++ B), (slots_of x ++ F). split; [|split; [|split]].
    + rewrite M_bind_run, E1, M_bind_run, Hp. cbn [not_none mret M_ret]. fold x in Ek. rewrite Ek.
      rewrite M_bind_run. unfold _iteratively_delete_tombstone_leaf. rewrite M_bind_run. cbn [get_state]. by rewrite E3.
    + eapply removed_trans; [apply unlocked_use|done|done|]. eapply use_pred_impl; [|done]. unfold deletable, unlocked. intros y [-> _]. done.
    + by rewrite HF, (dt_freed _ _ _ _ D), app_assoc.
    + rewrite has_swa_slots by done. unfold zlen. simpl. lia.
Qed.

Lemma evict_swa_loop_ok num fuel : ∀ t blocks freed,
  wf t → (Z.to_nat (num - freed) < fuel)%nat →
  ∃ freed' t' G B F, evict_swa_loop fuel num blocks freed t = (Ok (blocks ++ B, freed'), t') ∧
    removed unlocked t t' G B ∧ freed <= freed' <= Z.max num freed ∧
    (num <= freed' ∨ ∀ x, tree t' x → has_swa (nd t' x) = true → 0 < swa_lock_ref (nd t' x)) ∧
    _freed_swa_slots t' = _freed_swa_slots t ++ F ∧ freed' - freed <= zlen F.
Proof.
  induction fuel as [|fuel IH]; intros t blocks freed Hwf Hf; [lia|]. cbn [evict_swa_loop].
  destruct (Z.ltb_spec freed num) as [Hlt|Hge].
  2:{ exists freed, t, [], [], []. rewrite !app_nil_r. split_and!; first [done|by apply removed_refl|lia|by left|unfold zlen; simpl; lia]. }
  rewrite M_bind_run. destruct (swa_victim t Hwf) as (v & -> & Hv). destruct v as [n|].
  2:{ exists freed, t, [], [], []. rewrite !app_nil_r. split_and!; first [done|by apply removed_refl|lia|by right|unfold zlen; simpl; lia]. }
  destruct Hv as (Hn & Hr & Hsw & _). rewrite M_bind_run. cbn [node gets]. rewrite Hsw, M_bind_run. cbn [assertM py_assert lift_result].
  destruct (evict_swa_round t n (λ bl, evict_swa_loop fuel num bl (freed + 1)) blocks Hwf Hn Hr Hsw) as (t1 & G1 & B1 & F1 & E & R1 & HF1 & Hz1).
  destruct (IH t1 (blocks ++ B1) (freed + 1)) as (freed' & t2 & G2 & B2 & F2 & E2 & R2 & Hfr & Hend & HF2 & Hz2); [apply R1|lia|].
  exists freed', t2, (G1 ++ G2), (B1 ++ B2), (F1 ++ F2). split; [|split_and!].
  - etrans; [exact E|]. cbv beta. rewrite E2. by rewrite app_assoc.
  - eapply removed_trans; [apply unlocked_use|done|done|done].
  - lia.
  - lia.
  - done.
  - by rewrite HF2, HF1, app_assoc.
  - rewrite zlen_app. lia.
Qed.

Lemma evict_swa_ok num t :
  wf t →
  ∃ blocks nfreed t' G F, evict_swa num t = (Ok (blocks, nfreed), t') ∧ removed unlocked t t' G blocks ∧
    0 <= nfreed <= Z.max num 0 ∧
    (num <= nfreed ∨ ∀ x, tree t' x → has_swa (nd t' x) = true → 0 < swa_lock_ref (nd t' x)) ∧
    _freed_swa_slots t' = _freed_swa_slots t ++ F ∧ nfreed <= zlen F.
Proof.
  intros Hwf. unfold evict_swa. destruct (evict_swa_loop_ok num (S (Z.to_nat num)) t [] 0 Hwf) as (f & t' & G & B & F & E & R & Hf & He & HF & Hz); [lia|].
  exists B, f, t', G, F. rewrite Z.sub_0_r in Hz. done.
Qed.
End evict.
End RadixEvict.
