(* ===== verification/RadixReady.v ===== *)
(** * Readiness and locks

    [set_ready] marks a whole insertion ready, however many nodes later splits
    cut it into; [inc_lock_ref]/[dec_lock_ref] protect a path. *)

From S2P Require Import Prelude PyFloat Block RadixTree RadixCore RadixLeaf RadixWf RadixMatch RadixInsert RadixDetach.
Import RadixTree.RadixTree RadixWf.RadixWf RadixMatch.RadixMatch RadixInsert.RadixInsert RadixDetach.RadixDetach.
Local Open Scope Z_scope.

Module RadixReady.

Section ready.
Context `{!PrefixHash}.

(** [t'] is [t] with the nodes of [D] marked. *)
Record marked (D : list nid) (b : bool) (t t' : RadixTreeIndex) : Prop := {
  mk_nodes : ∀ x, nd t' x = if decide (x ∈ D) then set_is_ready (nd t x) b else nd t x;
  mk_live : ∀ x, is_Some (store t' !! x) ↔ is_Some (store t !! x);
  mk_rest : config t' = config t ∧ root_node t' = root_node t ∧ leaf_nodes t' = leaf_nodes t ∧ next_id t' = next_id t ∧
    _freed_swa_slots t' = _freed_swa_slots t ∧ _swa_enabled t' = _swa_enabled t;
}.

Lemma marked_upd t n b : is_Some (store t !! n) → marked [n] b t (with_store (alter (λ x, set_is_ready x b) n) t).
Proof.
  intros Hn. split; [|by intros; apply live_upd|done]. intros x. rewrite nd_upd by done.
  destruct (decide (x = n)) as [->|Hx]; [rewrite decide_True by left|rewrite decide_False by (by rewrite list_elem_of_singleton)]; done.
Qed.

Lemma marked_trans D D' b t t1 t2 : marked D b t t1 → marked D' b t1 t2 → marked (D ++ D') b t t2.
Proof.
  intros [A1 A2 (A3 & A4 & A5 & A6 & A7 & A8)] [B1 B2 (B3 & B4 & B5 & B6 & B7 & B8)]. split.
  - intros x. rewrite B1, A1. repeat case_decide; rewrite ?elem_of_app in *; (done || tauto).
  - intros x. by rewrite B2.
  - split_and!; congruence.
Qed.

Lemma marked_shapes D b t t' : marked D b t t' → shapes t' = shapes t.
Proof.
  intros [H1 H2 _]. apply map_eq. intros x. rewrite !shapes_lookup. specialize (H1 x). specialize (H2 x). unfold nd in H1.
  destruct (store t' !! x) eqn:E1, (store t !! x) eqn:E2; simpl in *.
  - rewrite H1. by case_decide.
  - destruct H2 as [H2 _]. by destruct H2; [eexists|].
  - destruct H2 as [_ H2]. by destruct H2; [eexists|].
  - done.
Qed.

Lemma marked_wf D b t t' : wf t → marked D b t t' → wf t'.
Proof.
  intros [H1 H2 H3 [L H4]] Hm. pose proof (marked_shapes _ _ _ _ Hm) as Es. destruct Hm as [M1 M2 (M3 & M4 & M5 & M6 & M7 & M8)].
  split; rewrite ?Es, ?M4, ?M5; try done.
  - intros x. rewrite M2, M6. apply H3.
  - exists L. eapply swa_ok_links; [done|done|done| |done]. intros x. rewrite M1. by case_decide.
Qed.

(** The nodes of a run are the holders of its hashes. *)
Definition holders (t : RadixTreeIndex) (D : list nid) (l : list Z) : Prop :=
  (∀ x, x ∈ D → tree t x) ∧ ∀ x g, tree t x → g ∈ block_hashes (nd t x) → x ∈ D ↔ g ∈ l.

Lemma holders_one t n : wf t → tree t n → holders t [n] (block_hashes (nd t n)).
Proof.
  intros Hwf Hn. split; [by intros x ->%list_elem_of_singleton|]. intros x g Hx Hg. rewrite list_elem_of_singleton. split; [by intros ->|].
  intros Hg'. apply list_elem_of_lookup in Hg as [i Hi], Hg' as [j Hj].
  by destruct (loc_inj _ _ (wf_core _ Hwf) g x n _ _ i j Hx Hn (tree_shape _ _ Hwf Hx) (tree_shape _ _ Hwf Hn) Hi Hj).
Qed.

Lemma holders_app t D D' l l' : holders t D l → holders t D' l' → holders t (D ++ D') (l ++ l').
Proof.
  intros [A1 A2] [B1 B2]. split; [intros x [?|?]%elem_of_app; auto|]. intros x g Hx Hg. rewrite !elem_of_app, A2, B2 by done. done.
Qed.

Lemma holders_comm t D l l' : holders t D (l ++ l') → holders t D (l' ++ l).
Proof. intros [A1 A2]. split; [done|]. intros x g Hx Hg. rewrite A2, !elem_of_app by done. naive_solver. Qed.

Lemma run_tree t n l : run (root_node t) (shapes t) n l → tree t n ∧ n ≠ root_node t.
Proof. by destruct 1. Qed.

(** What is left to mark above [n]. *)
Inductive above (t : RadixTreeIndex) : nid → list Z → Prop :=
  | above_nil n : tree t n → above t n []
  | above_run n p l : tree t n → parent (nd t n) = Some p → run (root_node t) (shapes t) p l → above t n l.

Lemma set_ready_loop_ok t0 fuel : ∀ n l c t D,
  wf t0 → marked D true t0 t → above t0 n l → up_chain (shapes t0) (n :: c) → (length c < fuel)%nat →
  ∃ t' D', set_ready_loop fuel n (Z.of_nat (length l)) t = (Ok tt, t') ∧ marked (D ++ D') true t0 t' ∧ holders t0 D' l.
Proof.
  induction fuel as [|fuel IH]; intros n l c t D Hwf Hm Ha Hu Hf; [lia|]. cbn [set_ready_loop].
  destruct Ha as [n Hn|n p l Hn Hp Hrun].
  { simpl. exists t, []. rewrite app_nil_r. split; [done|]. split; [done|]. split; [by intros x ?%elem_of_nil|]. intros x g _ _. split; by intros ?%elem_of_nil. }
  destruct (run_tree _ _ _ Hrun) as [Htp Hpr]. pose proof (tree_shape _ _ Hwf Hn) as Hs.
  assert (∀ x, shape_of (nd t x) = shape_of (nd t0 x)) as Esh by (intros x; rewrite (mk_nodes _ _ _ _ Hm); by case_decide).
  assert (∀ x, parent (nd t x) = parent (nd t0 x) ∧ block_hashes (nd t x) = block_hashes (nd t0 x)) as Epb.
  { intros x. specialize (Esh x). unfold shape_of in Esh. split; congruence. }
  assert (0 < length l)%nat as Hpos.
  { destruct Hrun as [p s _ _ Hs' | p s q l _ _ Hs' _ _]; apply shapes_nd in Hs' as ->; rewrite ?length_app;
      destruct (tree_parent _ _ Hwf Htp Hpr) as (_ & _ & _ & _ & Hhd & _); simpl;
      (destruct (block_hashes (nd t0 p)); [done|simpl; lia]). }
  rewrite (proj2 (Z.ltb_lt 0 _)) by lia. rewrite M_bind_run. cbn [node gets]. rewrite (proj1 (Epb n)), Hp, M_bind_run. cbn [not_none mret M_ret].
  rewrite M_bind_run. cbn [node gets]. rewrite M_bind_run. cbn [upd modify_state].
  set (t1 := with_store (alter (λ y, set_is_ready y true) p) t).
  assert (is_Some (store t !! p)) as Hlp by (apply (mk_live _ _ _ _ Hm); by apply tree_live).
  assert (marked (D ++ [p]) true t0 t1) as Hm1 by (eapply marked_trans; [done|by apply marked_upd]).
  destruct c as [|p' c].
  { destruct Hu as (s & Hs' & E). apply shapes_nd in Hs' as ->. simpl in E. congruence. }
  destruct Hu as (s & Hs' & E & Hu). apply shapes_nd in Hs' as ->. simpl in E. assert (p' = p) as -> by congruence.
  assert (∃ l1, l = l1 ++ block_hashes (nd t0 p) ∧ above t0 p l1) as (l1 & -> & Ha1).
  { destruct Hrun as [p s _ _ Hs' | p s q l _ _ Hs' Hq Hrun]; apply shapes_nd in Hs' as ->.
    - exists []. split; [done|]. by constructor.
    - exists l. split; [done|]. by econstructor. }
  unfold node_size. rewrite (proj2 (Epb p)), length_app.
  replace (Z.of_nat (length l1 + length (block_hashes (nd t0 p))) - Z.of_nat (length (block_hashes (nd t0 p)))) with (Z.of_nat (length l1)) by lia.
  destruct (IH p l1 c t1 (D ++ [p]) Hwf Hm1 Ha1 Hu) as (t' & D' & E' & Hm' & Hh'); [simpl in Hf; lia|].
  exists t', (p :: D'). split; [exact E'|]. split; [by rewrite <- app_assoc in Hm'|].
  apply holders_comm. apply (holders_app t0 [p] D'); [by apply holders_one|done].
Qed.

(** Marking the last node of a run with the length of the run marks the whole run and nothing else. *)
Lemma set_ready_ok t n l :
  wf t → run (root_node t) (shapes t) n l →
  ∃ t' D, set_ready n true (Z.of_nat (length l)) t = (Ok tt, t') ∧ marked D true t t' ∧ holders t D l.
Proof.
  intros Hwf Hrun. destruct (run_tree _ _ _ Hrun) as [Hn Hr]. pose proof (tree_shape _ _ Hwf Hn) as Hs.
  destruct (up_chain_exists _ _ _ _ (wf_core _ Hwf) Hs) as (c & Hu & _ & Hl). rewrite size_shapes in Hl.
  set (t1 := with_store (alter (λ x, set_is_ready x true) n) t).
  assert (marked [n] true t t1) as Hm1 by (apply marked_upd; by apply tree_live).
  assert (∃ l1, l = l1 ++ block_hashes (nd t n) ∧ above t n l1) as (l1 & -> & Ha).
  { destruct Hrun as [n s _ _ Hs' | n s q l _ _ Hs' Hq Hrun]; apply shapes_nd in Hs' as ->.
    - exists []. split; [done|]. by constructor.
    - exists l. split; [done|]. by econstructor. }
  destruct (tree_parent _ _ Hwf Hn Hr) as (_ & _ & _ & _ & Hhd & _).
  assert (0 < length (block_hashes (nd t n)))%nat as Hpos by (destruct (block_hashes (nd t n)); [done|simpl; lia]).
  assert (store t1 = alter (λ x, set_is_ready x true) n (store t)) as Est by done.
  assert (size (store t1) = size (store t)) as Esz by (rewrite <- !size_shapes; by rewrite (marked_shapes _ _ _ _ Hm1)).
  destruct (set_ready_loop_ok t (S (size (store t1))) n l1 c t1 [n] Hwf Hm1 Ha Hu) as (t' & D' & E & Hm & Hh); [simpl in Hl; lia|].
  exists t', ([n] ++ D'). split; [|split; [done|apply holders_comm; apply (holders_app t [n] D'); [by apply holders_one|done]]].
  unfold set_ready. rewrite M_bind_run. cbn [upd modify_state]. fold t1.
  rewrite (proj2 (Z.ltb_lt 0 _)) by (rewrite length_app; lia). rewrite M_bind_run. cbn [get_state]. rewrite M_bind_run. cbn [node gets].
  assert (node_size (nd t1 n) = length (block_hashes (nd t n))) as ->.
  { unfold node_size, t1. by rewrite nd_upd_eq by (by apply tree_live). }
  rewrite length_app. replace (Z.of_nat (length l1 + length (block_hashes (nd t n))) - Z.of_nat (length (block_hashes (nd t n)))) with (Z.of_nat (length l1)) by lia.
  exact E.
Qed.

(** In terms of entries. *)
Lemma marked_entries t t' D l :
  wf t → marked D true t t' → holders t D l →
  ∀ g b r, entry t' g b r ↔ (if decide (g ∈ l) then r = true ∧ ∃ r0, entry t g b r0 else entry t g b r).
Proof.
  intros Hwf Hm [H1 H2] g b r. unfold entry, placed. rewrite (marked_shapes _ _ _ _ Hm).
  destruct (mk_rest _ _ _ _ Hm) as (_ & Er & _). rewrite Er.
  assert (∀ n s i, tree t n → shapes t !! n = Some s → s_bh s !! i = Some g →
    is_ready (nd t' n) = if decide (g ∈ l) then true else is_ready (nd t n)) as Hrd.
  { intros n s i Hn Hs Hi. apply shapes_nd in Hs as ->. simpl in Hi. rewrite (mk_nodes _ _ _ _ Hm).
    assert (n ∈ D ↔ g ∈ l) as Hiff by (apply H2; [done|by eapply list_elem_of_lookup_2]). repeat case_decide; naive_solver. }
  split.
  - intros (n & s & i & Hn & Hs & Hi & Hb & <-). rewrite (Hrd n s i Hn Hs Hi). case_decide.
    + split; [done|]. exists (is_ready (nd t n)), n, s, i. done.
    + by exists n, s, i.
  - case_decide as Hg.
    + intros [-> (r0 & n & s & i & Hn & Hs & Hi & Hb & _)]. exists n, s, i. by rewrite (Hrd n s i Hn Hs Hi).
    + intros (n & s & i & Hn & Hs & Hi & Hb & <-). exists n, s, i. by rewrite (Hrd n s i Hn Hs Hi).
Qed.
End ready.
End RadixReady.
