(* ===== verification/RadixSpec.v ===== *)
(** * What the radix index promises

    The abstract state of an index is its set of [entry]s: prefix hash, block,
    readiness.  The theorems state each operation of [RadixTree] as an operation
    on that set, which is the contract the cache engine works with.  The last part is the step relation of the index, all
    operations included, and the invariant of its reachable states. *)

From S2P Require Import Prelude PyFloat Block RadixTree RadixCore RadixLeaf RadixWf RadixMatch RadixInsert RadixDetach RadixEvict RadixReady.
Import RadixTree.RadixTree RadixWf.RadixWf RadixMatch.RadixMatch RadixInsert.RadixInsert RadixDetach.RadixDetach RadixEvict.RadixEvict RadixReady.RadixReady.
Local Open Scope Z_scope.

(** ** Metadata-only computations *)

Record meta (t t' : RadixTreeIndex) : Prop := {
  me_shapes : shapes t' = shapes t;
  me_links : ∀ n, swa_links (nd t' n) = swa_links (nd t n);
  me_rest : config t' = config t ∧ root_node t' = root_node t ∧ leaf_nodes t' = leaf_nodes t ∧ next_id t' = next_id t ∧
    _freed_swa_slots t' = _freed_swa_slots t ∧ _swa_enabled t' = _swa_enabled t;
}.

#[export] Instance meta_preorder : PreOrder meta.
Proof. split; [by split|]. intros x y z [A1 A2 A3] [B1 B2 B3]. split; [congruence|congruence|]. destruct_and!. split_and!; congruence. Qed.

Class MetaOp {A} (m : Op A) : Prop := meta_op : ∀ t, meta t (m t).2.
Class MetaUpd (f : RadixNode → RadixNode) : Prop := meta_upd_node : ∀ x, shape_of (f x) = shape_of x ∧ swa_links (f x) = swa_links x.
#[export] Hint Extern 1 (MetaUpd _) => (split; reflexivity) : typeclass_instances.

#[export] Instance meta_upd n f `{!MetaUpd f} : MetaOp (upd n f).
Proof.
  intros t. split; [|intros m; apply links_upd; apply MetaUpd0|done]. apply fmap_alter_same. apply MetaUpd0.
Qed.
#[export] Instance meta_ret {A} (a : A) : MetaOp (mret a). Proof. by intros t. Qed.
#[export] Instance meta_node n : MetaOp (node n). Proof. by intros t. Qed.
#[export] Instance meta_get : MetaOp get_state. Proof. by intros t. Qed.
#[export] Instance meta_raise {A} e : MetaOp (raise (A := A) e). Proof. by intros t. Qed.
#[export] Instance meta_assert b : MetaOp (assertM b). Proof. by intros t. Qed.
#[export] Instance meta_not_none {A} (o : option A) : MetaOp (not_none o). Proof. intros t. by destruct o. Qed.
#[export] Instance meta_bind {A B} (m : Op A) (f : A → Op B) : MetaOp m → (∀ a, MetaOp (f a)) → MetaOp (m ≫= f).
Proof.
  intros Hm Hf t. rewrite M_bind_run. pose proof (Hm t) as H1. destruct (m t) as [[a|e] t1]; simpl in *; [|done].
  pose proof (Hf a t1). by etrans.
Qed.
#[export] Instance meta_if {A} (b : bool) (m1 m2 : Op A) : MetaOp m1 → MetaOp m2 → MetaOp (if b then m1 else m2).
Proof. by destruct b. Qed.

#[export] Instance meta_set_ready_loop fuel n l : MetaOp (set_ready_loop fuel n l).
Proof. revert n l. induction fuel as [|fuel IH]; intros n l; cbn [set_ready_loop]; apply _. Qed.
#[export] Instance meta_set_ready n b l : MetaOp (set_ready n b l).
Proof. unfold set_ready. apply _. Qed.
#[export] Instance meta_lock n : MetaOp (lock n). Proof. unfold lock. apply _. Qed.
#[export] Instance meta_unlock n : MetaOp (unlock n). Proof. unfold unlock. apply _. Qed.
#[export] Instance meta_inc_swa n : MetaOp (inc_swa_lock_ref n). Proof. unfold inc_swa_lock_ref. apply _. Qed.
#[export] Instance meta_dec_swa n : MetaOp (dec_swa_lock_ref n). Proof. unfold dec_swa_lock_ref. apply _. Qed.
#[export] Instance meta_inc_lock_loop fuel c b : MetaOp (inc_lock_loop fuel c b).
Proof. revert c b. induction fuel as [|fuel IH]; intros [c|] b; cbn [inc_lock_loop]; apply _. Qed.
#[export] Instance meta_inc_lock_ref n : MetaOp (inc_lock_ref n). Proof. unfold inc_lock_ref. apply _. Qed.
#[export] Instance meta_dec_lock_loop fuel c b s : MetaOp (dec_lock_loop fuel c b s).
Proof. revert c. induction fuel as [|fuel IH]; intros [c|]; cbn [dec_lock_loop]; apply _. Qed.
#[export] Instance meta_dec_lock_ref n b s : MetaOp (dec_lock_ref n b s). Proof. unfold dec_lock_ref. apply _. Qed.

Section spec.
Context `{!PrefixHash}.

Lemma wf_meta t t' : wf t → meta t t' → wf t'.
Proof.
  intros [H1 H2 H3 [L H4]] [Es El (M3 & M4 & M5 & M6 & M7 & M8)].
  assert (∀ x, is_Some (store t' !! x) ↔ is_Some (store t !! x)) as Hl.
  { intros x. apply (f_equal (.!! x)) in Es. rewrite !shapes_lookup in Es. rewrite <- (fmap_is_Some shape_of), Es. by rewrite fmap_is_Some. }
  split; rewrite ?Es, ?M4, ?M5; try done.
  - intros x. rewrite Hl, M6. apply H3.
  - exists L. by eapply swa_ok_links.
Qed.

(** ** Reset *)
Lemma reset_wf clock t : wf t → ∃ t', reset clock t = (Ok tt, t') ∧ wf t' ∧ (∀ g b r, ¬ entry t' g b r) ∧ _freed_swa_slots t' = [].
Proof.
  intros Hwf. set (r := next_id t). destruct (wf_swa _ Hwf) as [L HL]. pose proof (so_lru _ _ _ HL) as Hlru.
  set (hd := _swa_lru_head t). set (tl := _swa_lru_tail t).
  assert (is_Some (store t !! hd) ∧ is_Some (store t !! tl)) as [Hlh Hlt] by (split; apply (lru_live _ _ Hlru); set_solver).
  assert (hd ≠ r ∧ tl ≠ r) as [Hhr Htr].
  { split; intros E; [destruct Hlh as [x Hx]|destruct Hlt as [x Hx]]; rewrite E in Hx; unfold r in Hx; by rewrite next_fresh in Hx. }
  assert (hd ≠ tl) as Hht.
  { pose proof (lru_nodup _ _ Hlru) as Hnd. apply NoDup_cons in Hnd as [Hnd _]. intros E. apply Hnd. fold hd. rewrite E. set_solver. }
  set (t1 := with_leaf_nodes (λ _, []) (with_root_node (λ _, r) (alloc_state (blank_node (clock (ticks t))) (with_ticks S t)))).
  set (t2 := with_store (alter (λ n, set_swa_lru_prev n (Some hd)) tl) (with_store (alter (λ n, set_swa_lru_next n (Some tl)) hd) t1)).
  set (t3 := with__freed_swa_slots (λ _, []) t2).
  exists t3. split; [done|].
  assert (∀ y, nd t1 y = if decide (y = r) then blank_node (clock (ticks t)) else nd t y) as E1.
  { intros y. change (nd t1 y) with (nd (alloc_state (blank_node (clock (ticks t))) (with_ticks S t)) y). by rewrite nd_alloc. }
  assert (∀ y, is_Some (store t1 !! y) ↔ y = r ∨ is_Some (store t !! y)) as L1.
  { intros y. change (store t1) with (store (alloc_state (blank_node (clock (ticks t))) (with_ticks S t))). by rewrite live_alloc. }
  assert (shapes t3 = <[r := Sh [] [] None []]> (shapes t)) as Es.
  { change (shapes t3) with (shapes t2). unfold t2.
    rewrite !shapes_upd by (repeat apply live_upd; apply L1; by right).
    rewrite nd_upd_ne by done. rewrite !E1, !decide_False by done.
    change (shapes t1) with (shapes (alloc_state (blank_node (clock (ticks t))) (with_ticks S t))). rewrite shapes_alloc, shapes_ticks.
    change (shape_of (set_swa_lru_prev (nd t tl) (Some hd))) with (shape_of (nd t tl)).
    change (shape_of (set_swa_lru_next (nd t hd) (Some tl))) with (shape_of (nd t hd)).
    apply map_eq. intros y. rewrite !lookup_insert. change (next_id (with_ticks S t)) with r.
    repeat case_decide; subst; try done; symmetry; by apply live_shapes_1. }
  assert (shapes t !! r = None) as Hrn by (rewrite shapes_lookup; unfold r; by rewrite next_fresh).
  assert (∀ y, tree t3 y ↔ y = r) as Hin.
  { intros y. split; [|intros ->; constructor]. change (root_node t3) with r.
    apply (in_tree_empty r _ (Sh [] [] None [])); [by rewrite Es, lookup_insert_eq|done]. }
  assert (∀ y s, shapes t3 !! y = Some s → s_parent s ≠ Some r) as Hnp.
  { intros y s. rewrite Es, lookup_insert. case_decide; [by intros [= <-]|]. intros Hs Hp.
    destruct (co_depth _ _ (wf_core _ Hwf)) as [d Hd]. destruct (Hd _ _ _ Hs Hp) as [_ [? ?]]. congruence. }
  assert (wf t3) as Hwf3.
  { split.
    - split; change (root_node t3) with r.
      + exists (Sh [] [] None []). by rewrite Es, lookup_insert_eq.
      + intros p sp h c ->%Hin Hs Hd. rewrite Es, lookup_insert_eq in Hs. by injection Hs as <-.
      + intros n s ->%Hin Hs. rewrite Es, lookup_insert_eq in Hs. by injection Hs as <-.
      + intros n s ->%Hin Hs. rewrite Es, lookup_insert_eq in Hs. injection Hs as <-. apply NoDup_nil_2.
      + intros n s p Hs Hp ->%Hin. by apply Hnp in Hs.
      + destruct (co_depth _ _ (wf_core _ Hwf)) as [d Hd]. exists d. intros n s p Hs Hp. rewrite Es, lookup_insert in Hs.
        case_decide; [by injection Hs as <-|]. destruct (Hd _ _ _ Hs Hp) as [? Hl]. split; [done|]. rewrite Es, lookup_insert.
        case_decide; [by eexists|done].
    - split; [apply NoDup_nil_2|]. intros h n. split; [done|]. intros (->%Hin & s & Hs & Hh & _).
      rewrite Es, lookup_insert_eq in Hs. by injection Hs as <-.
    - intros n Hl. change (next_id t3) with (S (next_id t)). do 2 apply live_upd in Hl. apply L1 in Hl as [->|Hl]; [unfold r; lia|].
      apply (wf_next _ Hwf) in Hl. lia.
    - exists []. assert (nd t3 hd = set_swa_lru_next (nd t hd) (Some tl) ∧ nd t3 tl = set_swa_lru_prev (nd t tl) (Some hd) ∧ nd t3 r = blank_node (clock (ticks t))) as (N1 & N2 & N3).
      { change (nd t3) with (nd t2). unfold t2. assert (is_Some (store t1 !! hd)) by (apply L1; by right).
        assert (is_Some (store t1 !! tl)) by (apply L1; by right). nd_simpl. rewrite !E1, !decide_False by done. by rewrite decide_True. }
      assert (∀ y, is_Some (store t3 !! y) ↔ y = r ∨ is_Some (store t !! y)) as L3.
      { intros y. rewrite <- L1. change (store t3) with (store t2). unfold t2. by rewrite !live_upd. }
      split.
      + split; change (_swa_lru_head t3) with hd; change (_swa_lru_tail t3) with tl; cbn [app links].
        * rewrite N1, N2. done.
        * apply NoDup_cons. split; [by rewrite list_elem_of_singleton|apply NoDup_singleton].
        * intros n [->|[->|[]%not_elem_of_nil]%elem_of_cons]%elem_of_cons; apply L3; by right.
      + by intros n ?%elem_of_nil.
      + intros n ->%Hin. split; [apply L3; by left|]. split; by apply not_eq_sym.
      + intros n ->%Hin. by rewrite N3.
      + intros n ->%Hin. by rewrite N3.
      + intros n ->%Hin. by rewrite N3. }
  split; [done|]. split; [|done]. intros g b rr (n & s & i & ->%Hin & Hs & Hi & _). rewrite Es, lookup_insert_eq in Hs. by injection Hs as <-.
Qed.

(** ** Matching and inserting agree *)

Lemma chained_depth hs i j g h :
  chained None hs → hs !! i = Some g → hs !! j = Some h → (i < j)%nat → (ph_depth g < ph_depth h)%nat.
Proof.
  intros Hc Hi. revert h. induction j as [|j IH]; intros h Hj Hij; [lia|].
  pose proof (chained_lookup_pred _ _ _ _ Hc Hj) as Hp. simpl in Hp.
  destruct (lookup_lt_is_Some_2 hs j) as [k Hk]; [apply lookup_lt_Some in Hj; lia|]. rewrite Hk in Hp.
  pose proof (ph_pred_depth _ _ Hp). destruct (decide (i = j)) as [->|]; [by simplify_eq|].
  specialize (IH k Hk ltac:(lia)). lia.
Qed.

Lemma chained_inj hs i j h : chained None hs → hs !! i = Some h → hs !! j = Some h → i = j.
Proof.
  intros Hc Hi Hj. destruct (Nat.lt_trichotomy i j) as [Hl|[->|Hl]]; [|done|].
  - pose proof (chained_depth _ _ _ _ _ Hc Hi Hj Hl). lia.
  - pose proof (chained_depth _ _ _ _ _ Hc Hj Hi Hl). lia.
Qed.

Lemma target_ok_quiet t t' hs n k ml : quiet t t' → target_ok t hs n k ml → target_ok t' hs n k ml.
Proof.
  intros Q. pose proof (quiet_nd_shape _ _ n Q) as E. unfold shape_of in E. injection E as Eb _ _ Ec.
  unfold target_ok, anchor_ok, agree, node_size. rewrite Eb, Ec, (q_shapes _ _ Q), (q_root _ _ Q). done.
Qed.

Lemma entry_quiet t t' g b r : quiet t t' → entry t' g b r ↔ entry t g b r.
Proof.
  intros Q. unfold entry, placed. rewrite (q_shapes _ _ Q), (q_root _ _ Q).
  split; intros (n & s & i & ? & ? & ? & ? & <-); exists n, s, i; (do 4 (split; [done|]));
    pose proof (quiet_nd_use _ _ n Q) as E; unfold use_of in E; congruence.
Qed.

(** A fresh match result is a valid insertion point. *)
Lemma match_target t hs r :
  wf t → chained None hs → match_spec t hs r →
  ∃ n, last_node r = Some n ∧ tree t n ∧ target_ok t hs n (num_matched_blocks r) (last_node_matched_length r).
Proof.
  intros Hwf Hc [M1 M2 M3 M4 (n & Hn & Ha)]. exists n. split; [done|]. split; [apply Ha|]. split; [done|].
  intros h Hh. pose proof (proj1 Ha) as Ht.
  assert (∀ x i, tree t x → block_hashes (nd t x) !! i ≠ Some h) as Hun.
  { intros x i Hx Hi. destruct (placed_maps _ _ x _ i h (wf_core _ Hwf) Hx (tree_shape _ _ Hwf Hx) Hi) as [b Hb].
    by apply (M3 (num_matched_blocks r) h b). }
  destruct (last_node_matched_length r <? node_size (nd t n))%nat; [by apply Hun|].
  destruct (dict_get h (children (nd t n))) as [c|] eqn:Ed; [|done].
  destruct (tree_child _ _ _ _ Hwf Ht Ed) as (Hct & _ & _ & Hhd & _). exfalso. apply (Hun c 0%nat Hct). by destruct (block_hashes (nd t c)).
Qed.

Lemma Forall2_maps_fun t l k1 k2 :
  wf t → Forall2 (maps (root_node t) (shapes t)) l k1 → Forall2 (maps (root_node t) (shapes t)) l k2 → k1 = k2.
Proof.
  intros Hwf H1. revert k2. induction H1 as [|h b l k1 Hb _ IH]; intros k2 H2; inversion_clear H2 as [|? b' ? k2' Hb' Hl']; [done|].
  f_equal; [by eapply maps_fun; [apply Hwf|..]|by apply IH].
Qed.

Lemma roundtrip XXH64 clock t sequence pbs nib ready up r t1 :
  wf t → seq_ok XXH64 sequence → match_prefix XXH64 clock sequence true t = (Ok r, t1) →
  args_ok sequence pbs nib (num_matched_blocks r) → Z.of_nat (num_matched_blocks r) < num_insert sequence nib →
  ∃ w t2 r2 t3, insert XXH64 clock sequence pbs nib ready None t = (Ok (Some w), t2) ∧
    inserted t1 t2 (new_hashes XXH64 sequence (num_matched_blocks r) nib) pbs ready w ∧
    match_prefix XXH64 clock sequence up t2 = (Ok r2, t3) ∧
    num_matched_blocks r2 = Z.to_nat (num_insert sequence nib) ∧
    mr_physical_blocks r2 = mr_physical_blocks r ++ pbs.
Proof.
  intros Hwf Hs Em Ha Hlt. pose proof Hs as [Hlen Hch]. set (hs := hashes_of XXH64 sequence) in *. set (k := num_matched_blocks r) in *.
  destruct (match_prefix_ok XXH64 clock t sequence true Hwf Hs) as (r' & t1' & Em' & Hwf1 & S1 & M). fold hs in M.
  assert (r' = r ∧ t1' = t1) as [-> ->] by (split; congruence).
  destruct (match_target t hs r Hwf Hch M) as (n & Hn & Htn & Htar). fold k in Htar.
  pose proof (target_ok_quiet _ _ _ _ _ _ (sd_quiet _ _ S1) Htar) as Htar1.
  assert (resolve XXH64 clock sequence None t = (Ok r, t1)) as Er.
  { unfold resolve. rewrite <- Em. unfold match_prefix. by rewrite gen_hashes_twice. }
  destruct (insert_guards XXH64 clock t t1 sequence pbs nib ready None r Hs Er) as [G _]. specialize (G (proj1 Ha)).
  assert (is_Some (store t1 !! n)) as Hln by (rewrite (quiet_live _ _ _ (sd_quiet _ _ S1)); by apply tree_live).
  destruct (insert_with_result XXH64 clock t1 sequence pbs nib ready r n) as [[_ (w & t2 & E2 & Hw & Hins)]|[Hno _]]; try done.
  destruct (match_prefix_ok XXH64 clock t2 sequence up (ins_wf _ _ _ _ _ _ Hins) Hs) as (r2 & t3 & E3 & Hwf3 & S3 & M2). fold hs in M2.
  exists w, t2, r2, t3. split; [by rewrite G|]. split; [done|]. split; [done|].
  pose proof (ins_wf _ _ _ _ _ _ Hins) as Hwf2.
  set (ni := Z.to_nat (num_insert sequence nib)). set (bh := new_hashes XXH64 sequence k nib) in *.
  destruct Ha as [Hni Hz]. unfold zlen in Hz.
  assert (bh = take (ni - k) (drop k hs)) as Ebh by done.
  assert (∀ g b, maps (root_node t2) (shapes t2) g b ↔ maps (root_node t) (shapes t) g b ∨ ∃ i, bh !! i = Some g ∧ pbs !! i = Some b) as Hmaps.
  { intros g b. rewrite !entry_maps. setoid_rewrite (ins_entry _ _ _ _ _ _ Hins). setoid_rewrite (λ rr, entry_quiet t t1 g b rr (sd_quiet _ _ S1)). naive_solver. }
  assert (Forall2 (maps (root_node t2) (shapes t2)) (take ni hs) (mr_physical_blocks r ++ pbs)) as Hall.
  { replace ni with (k + (ni - k))%nat by lia. rewrite <- take_take_drop. apply Forall2_app.
    - eapply Forall2_impl; [apply (ms_maps _ _ _ M)|]. intros g b Hgb. apply Hmaps. by left.
    - rewrite <- Ebh. apply Forall2_same_length_lookup. split.
      + rewrite Ebh, length_take, length_drop. lia.
      + intros i g b Hg Hb. apply Hmaps. right. by exists i. }
  assert (num_matched_blocks r2 = ni) as Ek.
  { pose proof (ms_le _ _ _ M2) as Hle2. destruct (Nat.lt_trichotomy (num_matched_blocks r2) ni) as [Hl|[?|Hl]]; [exfalso|done|exfalso].
    - destruct (lookup_lt_is_Some_2 hs (num_matched_blocks r2)) as [h Hh]; [lia|].
      assert (take ni hs !! num_matched_blocks r2 = Some h) as Hh' by (by rewrite lookup_take_lt).
      destruct (Forall2_lookup_l _ _ _ _ _ Hall Hh') as (b & _ & Hb). by apply (ms_longest _ _ _ M2 (num_matched_blocks r2) h b).
    - destruct (lookup_lt_is_Some_2 hs ni) as [h Hh]; [lia|].
      assert (take (num_matched_blocks r2) hs !! ni = Some h) as Hh' by (by rewrite lookup_take_lt).
      destruct (Forall2_lookup_l _ _ _ _ _ (ms_maps _ _ _ M2) Hh') as (b & _ & Hb). apply Hmaps in Hb as [Hb|(i & Hi & _)].
      + apply (ms_longest _ _ _ M ni h b); [lia|done|done].
      + rewrite Ebh in Hi. apply lookup_take_Some in Hi as [Hi Hik]. rewrite lookup_drop in Hi.
        pose proof (chained_inj _ _ _ _ Hch Hh Hi). lia. }
  split; [done|]. eapply Forall2_maps_fun; [exact Hwf2| |exact Hall]. rewrite <- Ek. apply M2.
Qed.

(** ** The step relation *)

(** One call on the index, with the arguments its callers may pass: any match result they hold, any node of
    the tree, any count. *)
Inductive index_step (XXH64 : list Z → Z) (clock : nat → float) (t : RadixTreeIndex) : RadixTreeIndex → Prop :=
  | step_match s up : seq_ok XXH64 s → index_step XXH64 clock t (match_prefix XXH64 clock s up t).2
  | step_insert s pbs nib ready mr :
      seq_ok XXH64 s → (∀ r n, mr = Some r → last_node r = Some n → is_Some (store t !! n)) →
      index_step XXH64 clock t (insert XXH64 clock s pbs nib ready mr t).2
  | step_evict num : index_step XXH64 clock t (evict num t).2
  | step_evict_swa num : index_step XXH64 clock t (evict_swa num t).2
  | step_remove_unready n : tree t n → index_step XXH64 clock t (remove_unready_leaf (Some n) t).2
  | step_set_ready n b len : index_step XXH64 clock t (set_ready n b len t).2
  | step_lock n : index_step XXH64 clock t (lock n t).2
  | step_unlock n : index_step XXH64 clock t (unlock n t).2
  | step_inc_lock_ref n : index_step XXH64 clock t (inc_lock_ref n t).2
  | step_dec_lock_ref n b skip : index_step XXH64 clock t (dec_lock_ref n b skip t).2
  | step_inc_swa n : index_step XXH64 clock t (inc_swa_lock_ref n t).2
  | step_dec_swa n : index_step XXH64 clock t (dec_swa_lock_ref n t).2
  | step_dec_swa_only n : tree t n → n ≠ root_node t → index_step XXH64 clock t (dec_swa_lock_only (Some n) t).2
  | step_set_swa n slot :
      tree t n → n ≠ root_node t → 0 <= slot → swa_host_slot (nd t n) < 0 →
      index_step XXH64 clock t (set_swa clock n slot t).2
  | step_promote n : tree t n → index_step XXH64 clock t (promote_swa clock n t).2
  | step_record_freed n : tree t n → n ≠ root_node t → index_step XXH64 clock t (record_freed_swa_slot n t).2
  | step_drain : index_step XXH64 clock t (drain_freed_swa_slots t).2
  | step_reset : index_step XXH64 clock t (reset clock t).2.

Lemma dec_swa_only_wf t n : wf t → tree t n → n ≠ root_node t → wf (dec_swa_lock_only (Some n) t).2.
Proof.
  intros Hwf Hn Hr. unfold dec_swa_lock_only. rewrite M_bind_run. cbn [node gets]. rewrite M_bind_run. unfold assertM, lift_result, py_assert.
  destruct (0 <? swa_lock_ref (nd t n)); [|done]. rewrite M_bind_run. cbn [upd modify_state]. set (t1 := with_store _ t).
  assert (meta t t1) as M1 by (apply (meta_upd n (λ x, set_swa_lock_ref x (swa_lock_ref x - 1)) t)).
  assert (wf t1) as Hwf1 by (by eapply wf_meta). rewrite M_bind_run. cbn [node gets].
  destruct (_ && _); [|done].
  destruct (record_freed_wf t1 n Hwf1) as (t2 & E & Hwf2 & _).
  { rewrite (me_shapes _ _ M1). destruct (me_rest _ _ M1) as (_ & -> & _). done. }
  { destruct (me_rest _ _ M1) as (_ & -> & _). done. }
  by rewrite E.
Qed.

Lemma drain_calm_wf t : wf t → wf (drain_freed_swa_slots t).2.
Proof.
  intros Hwf. destruct (wf_swa _ Hwf) as [L HL]. eapply wf_quiet; [done|by split|]. exists L.
  by apply (swa_ok_links (tree t) t).
Qed.

Lemma index_step_wf XXH64 clock t t' : wf t → index_step XXH64 clock t t' → wf t'.
Proof.
  intros Hwf. destruct 1 as [s up Hs|s pbs nib ready mr Hs Hmr|num|num|n Hn|n b len|n|n|n|n b skip|n|n|n Hn Hr|n slot Hn Hr Hslot Hno|n Hn|n Hn Hr| |].
  - destruct (match_prefix_ok XXH64 clock t s up Hwf Hs) as (r & t1 & -> & ? & _). done.
  - destruct (insert_outcome XXH64 clock t s pbs nib ready mr Hwf Hs Hmr) as (t1 & Hwf1 & _ & [[-> _]|(w & k & _ & _ & Hin)]); [done|].
    apply (ins_wf _ _ _ _ _ _ Hin).
  - destruct (evict_ok num t Hwf) as [(b & h & t1 & G & -> & R & _)|(msg & t1 & G & B & -> & R)]; apply R.
  - destruct (evict_swa_ok num t Hwf) as (b & nf & t1 & G & F & -> & R & _). apply R.
  - destruct (remove_unready_leaf_ok t n Hwf Hn) as (b & G & t1 & -> & R & _). apply R.
  - eapply wf_meta; [done|apply meta_set_ready].
  - eapply wf_meta; [done|apply meta_lock].
  - eapply wf_meta; [done|apply meta_unlock].
  - eapply wf_meta; [done|apply meta_inc_lock_ref].
  - eapply wf_meta; [done|apply meta_dec_lock_ref].
  - eapply wf_meta; [done|apply meta_inc_swa].
  - eapply wf_meta; [done|apply meta_dec_swa].
  - by apply dec_swa_only_wf.
  - destruct (wf_swa _ Hwf) as [L HL]. destruct (set_swa_ok clock _ _ _ _ slot HL Hn Hr Hslot Hno) as (t1 & L1 & -> & HL1 & St & _).
    eapply wf_quiet; [done|apply St|by exists L1].
  - destruct (wf_swa _ Hwf) as [L HL]. destruct (promote_ok clock _ _ _ _ HL Hn) as (t1 & L1 & -> & HL1 & St & _).
    eapply wf_quiet; [done|apply St|by exists L1].
  - destruct (record_freed_wf t n Hwf Hn Hr) as (t1 & -> & ? & _). done.
  - by apply drain_calm_wf.
  - destruct (reset_wf clock t Hwf) as (t1 & -> & ? & _). done.
Qed.

(** ** Later insertions *)

(** Matches and insertions of other callers. *)
Definition grows (t t' : RadixTreeIndex) : Prop :=
  (wf t' ∧ steady t t') ∨ ∃ bh pb rd w, inserted t t' bh pb rd w.

Lemma run_steady t t' n l : steady t t' → run (root_node t) (shapes t) n l → run (root_node t') (shapes t') n l.
Proof. intros [Q _ _ _]. by rewrite (q_shapes _ _ Q), (q_root _ _ Q). Qed.

Lemma run_grows t t' n l : wf t → rtc grows t t' → run (root_node t) (shapes t) n l → wf t' ∧ run (root_node t') (shapes t') n l.
Proof.
  intros Hwf Hg. induction Hg as [t|t t1 t2 H1 _ IH]; intros Hrun; [done|].
  destruct H1 as [[Hwf1 S1]|(bh & pb & rd & w & Hin)]; apply IH.
  - done.
  - by eapply run_steady.
  - apply (ins_wf _ _ _ _ _ _ Hin).
  - by apply (ins_runs _ _ _ _ _ _ Hin).
Qed.

Lemma inserted_run t t' bh pb rd w : inserted t t' bh pb rd w → run (root_node t') (shapes t') w bh.
Proof.
  intros Hin. destruct (ins_node _ _ _ _ _ _ Hin) as (Hw & Hr & <- & _). 
  apply (run_one _ _ w (shape_of (nd t' w))); [done|done|]. apply tree_shape; [apply Hin|done].
Qed.
End spec.

(** ** A small index to run the theorems on

    Two insertions that share the prefix [1; 2]: the second one splits the node
    of the first.  The second leaf is not ready. *)
Definition toy_ph : PrefixHash := digest_PrefixHash toy_digest toy_undigest [] 1 (Nat.lt_0_succ 0) toy_undigest_digest.
Definition toy_clock (n : nat) : float := f_of_Z (Z.of_nat n).
Definition toy_seq (ids : list Z) : SequenceMeta :=
  SequenceMeta_gen_hashes toy_digest (mkSequenceMeta ids 1 [] false None None).
Definition toy_index0 : RadixTreeIndex := RadixTreeIndex_init toy_clock 1 100 0 "lru" 2.
Definition toy_index1 : RadixTreeIndex :=
  (insert toy_digest toy_clock (toy_seq [1; 2; 3; 4]) [10; 11; 12; 13] (-1) true None toy_index0).2.
Definition toy_index : RadixTreeIndex :=
  (insert toy_digest toy_clock (toy_seq [1; 2; 5]) [14] (-1) false None toy_index1).2.

Lemma toy_seq_ok ids : @seq_ok toy_ph toy_digest (toy_seq ids).
Proof.
  split; [exact (length_gen_hashes toy_digest ids 1 [])|].
  exact (gen_hashes_chained_lemma toy_digest toy_undigest [] 1 (Nat.lt_0_succ 0) toy_undigest_digest ids).
Qed.

Lemma toy_insert_wf t ids pbs nib ready :
  @wf toy_ph t → @wf toy_ph (insert toy_digest toy_clock (toy_seq ids) pbs nib ready None t).2.
Proof. intros Hwf. apply (@index_step_wf toy_ph toy_digest toy_clock t); [done|]. apply step_insert; [apply toy_seq_ok|done]. Qed.

Lemma toy_index_wf : @wf toy_ph toy_index.
Proof. do 2 apply toy_insert_wf. apply radix_init_wf. Qed.

(** Node 5 is the shared prefix, 3 and 4 the leaves. *)
Lemma toy_root : root_node toy_index = 0%nat.
Proof. by vm_compute. Qed.
Lemma toy_tree5 : in_tree (root_node toy_index) (shapes toy_index) 5%nat.
Proof.
  rewrite toy_root. eapply (in_child _ _ 0%nat _ 24); [apply in_root|vm_compute; reflexivity|vm_compute; reflexivity].
Qed.
Lemma toy_tree3 : in_tree (root_node toy_index) (shapes toy_index) 3%nat.
Proof. eapply (in_child _ _ 5%nat _ 100387); [apply toy_tree5|vm_compute; reflexivity|vm_compute; reflexivity]. Qed.
Lemma toy_tree4 : in_tree (root_node toy_index) (shapes toy_index) 4%nat.
Proof. eapply (in_child _ _ 5%nat _ 401548); [apply toy_tree5|vm_compute; reflexivity|vm_compute; reflexivity]. Qed.

(** ** The properties *)

(** [C20] On any reachable index [match_prefix] terminates normally, leaves the cached entries as they are, and
    returns the longest cached prefix of the sequence: every one of the matched blocks is cached in the
    physical block reported for it, and no later block of the sequence is cached. *)
Theorem match_prefix_longest `{!PrefixHash} XXH64 clock t sequence up :
  wf t → seq_ok XXH64 sequence →
  ∃ r t', match_prefix XXH64 clock sequence up t = (Ok r, t') ∧ wf t' ∧
    (∀ h b rd, entry t' h b rd ↔ entry t h b rd) ∧
    (num_matched_blocks r <= num_blocks sequence)%nat ∧
    Forall2 (λ h b, ∃ rd, entry t h b rd) (take (num_matched_blocks r) (hashes_of XXH64 sequence)) (mr_physical_blocks r) ∧
    (∀ j h, (num_matched_blocks r <= j)%nat → hashes_of XXH64 sequence !! j = Some h → ∀ b rd, ¬ entry t h b rd).
Proof.
  intros Hwf Hs. destruct (match_prefix_ok XXH64 clock t sequence up Hwf Hs) as (r & t' & E & Hwf' & S & M).
  exists r, t'. split_and!; [done|done| | | |].
  - intros. by apply entry_quiet, S.
  - destruct Hs as [<- _]. apply M.
  - eapply Forall2_impl; [apply M|]. intros h b Hm. by apply entry_maps.
  - intros j h Hj Hh b rd Hrd. apply (ms_longest _ _ _ M j h b Hj Hh), entry_maps. by exists rd.
Qed.

Lemma match_prefix_longest_witness :
  (∃ r t', match_prefix toy_digest toy_clock (toy_seq [1; 2; 3; 9]) true toy_index = (Ok r, t') ∧ num_matched_blocks r = 3%nat) ∧
  ∃ r t', match_prefix toy_digest toy_clock (toy_seq [1; 2; 3; 9]) true toy_index = (Ok r, t') ∧ @wf toy_ph t'.
Proof.
  split; [eexists _, _; split; [by vm_compute|done]|].
  destruct (@match_prefix_longest toy_ph toy_digest toy_clock toy_index (toy_seq [1; 2; 3; 9]) true toy_index_wf (toy_seq_ok _))
    as (r & t' & E & Hwf & _).
  exists r, t'. split; [exact E|exact Hwf].
Defined.

(** [C37] The ready count of a match is exact: the first [num_ready_matched_blocks] matched blocks are ready and, if
    blocks remain, the next one is not.  [last_swa_node] is the deepest node that ends inside the ready prefix and
    holds an SWA snapshot, and [swa_hit_blocks] is where it ends. *)
Theorem match_prefix_ready_prefix `{!PrefixHash} XXH64 clock t sequence up :
  wf t → seq_ok XXH64 sequence →
  ∃ r t', match_prefix XXH64 clock sequence up t = (Ok r, t') ∧
    (num_ready_matched_blocks r <= num_matched_blocks r)%nat ∧
    (∀ j h, (j < num_ready_matched_blocks r)%nat → hashes_of XXH64 sequence !! j = Some h → ∃ b, entry t h b true) ∧
    (∀ h, (num_ready_matched_blocks r < num_matched_blocks r)%nat →
       hashes_of XXH64 sequence !! num_ready_matched_blocks r = Some h → ∀ b rd, entry t h b rd → rd = false) ∧
    (∀ n, last_swa_node r = Some n → swa_at t (hashes_of XXH64 sequence) (swa_hit_blocks r) n ∧
       (swa_hit_blocks r <= num_ready_matched_blocks r)%nat) ∧
    (∀ j n, (swa_hit_blocks r < j <= num_ready_matched_blocks r)%nat → ¬ swa_at t (hashes_of XXH64 sequence) j n).
Proof.
  intros Hwf Hs. destruct (match_prefix_ok XXH64 clock t sequence up Hwf Hs) as (r & t' & E & _ & _ & M).
  destruct (ms_ready _ _ _ M) as (open & lr & _ & [R1 R2 R3 R4 R5 R6]). exists r, t'. split_and!; [done|done| | | |done].
  - intros j h Hj Hh. destruct (R3 j Hj) as (n & i & (Hn & h' & Hh' & Hi) & Hrd). assert (h' = h) as -> by congruence.
    destruct (lookup_lt_is_Some_2 (physical_blocks (nd t n)) i) as [b Hb]; [rewrite <- tree_len by done; by eapply lookup_lt_Some|].
    exists b, n, (shape_of (nd t n)), i. split_and!; [done|by apply tree_shape|done|done|done].
  - intros h Hlt Hh b rd (n & s & i & Hn & Hsn & Hi & _ & <-). destruct open; [lia|].
    destruct R2 as (_ & m & j & (Hm & h' & Hh' & Hj) & Hrd). assert (h' = h) as -> by congruence.
    destruct (loc_inj _ _ (wf_core _ Hwf) h n m s _ i j Hn Hm Hsn (tree_shape _ _ Hwf Hm) Hi Hj) as [-> _]. done.
  - intros n En. rewrite En in R5. by destruct R5.
Qed.

Lemma match_prefix_ready_prefix_witness :
  ∃ r t', match_prefix toy_digest toy_clock (toy_seq [1; 2; 5]) true toy_index = (Ok r, t') ∧
    (num_ready_matched_blocks r <= num_matched_blocks r)%nat.
Proof.
  destruct (@match_prefix_ready_prefix toy_ph toy_digest toy_clock toy_index (toy_seq [1; 2; 5]) true toy_index_wf (toy_seq_ok _))
    as (r & t' & E & Hle & _).
  exists r, t'. split; [exact E|exact Hle].
Defined.

(** [C21] Insert, then match: when a sequence has uncached blocks, inserting physical blocks for them succeeds, adds
    exactly these entries (with the readiness asked for), and a later match of the sequence returns the blocks
    matched before followed by the inserted ones. *)
Theorem insert_match_roundtrip `{!PrefixHash} XXH64 clock t sequence pbs nib ready up r t1 :
  wf t → seq_ok XXH64 sequence → match_prefix XXH64 clock sequence true t = (Ok r, t1) →
  args_ok sequence pbs nib (num_matched_blocks r) → Z.of_nat (num_matched_blocks r) < num_insert sequence nib →
  ∃ w t2 r2 t3, insert XXH64 clock sequence pbs nib ready None t = (Ok (Some w), t2) ∧ wf t2 ∧
    (∀ h b rd, entry t2 h b rd ↔ entry t h b rd ∨
       ((∃ i, new_hashes XXH64 sequence (num_matched_blocks r) nib !! i = Some h ∧ pbs !! i = Some b) ∧ rd = ready)) ∧
    match_prefix XXH64 clock sequence up t2 = (Ok r2, t3) ∧
    num_matched_blocks r2 = Z.to_nat (num_insert sequence nib) ∧
    mr_physical_blocks r2 = mr_physical_blocks r ++ pbs.
Proof.
  intros Hwf Hs Em Ha Hlt. destruct (roundtrip XXH64 clock t sequence pbs nib ready up r t1 Hwf Hs Em Ha Hlt) as (w & t2 & r2 & t3 & E2 & Hin & E3 & Hk & Hp).
  exists w, t2, r2, t3. split_and!; [done|apply Hin| |done|done|done].
  intros h b rd. rewrite (ins_entry _ _ _ _ _ _ Hin).
  destruct (match_prefix_ok XXH64 clock t sequence true Hwf Hs) as (r' & t1' & Em' & _ & S & _).
  assert (t1' = t1) as -> by congruence. by rewrite (entry_quiet t t1 h b rd (sd_quiet _ _ S)).
Qed.

Definition toy_match : MatchResult :=
  match match_prefix toy_digest toy_clock (toy_seq [1; 2; 3; 9]) true toy_index with
  | (Ok r, _) => r | _ => mkMatchResult 0 0 None None 0 [] None 0 end.
Definition toy_matched : RadixTreeIndex := (match_prefix toy_digest toy_clock (toy_seq [1; 2; 3; 9]) true toy_index).2.

Lemma insert_match_roundtrip_witness :
  ∃ w t2, insert toy_digest toy_clock (toy_seq [1; 2; 3; 9]) [77] (-1) true None toy_index = (Ok (Some w), t2) ∧ @wf toy_ph t2.
Proof.
  destruct (@insert_match_roundtrip toy_ph toy_digest toy_clock toy_index (toy_seq [1; 2; 3; 9]) [77] (-1) true true toy_match toy_matched
    toy_index_wf (toy_seq_ok _)) as (w & t2 & r2 & t3 & E & Hwf & _).
  - vm_compute. reflexivity.
  - vm_compute. split; [split; discriminate|reflexivity].
  - vm_compute. reflexivity.
  - exists w, t2. split; [exact E|exact Hwf].
Defined.

(** A match result may be stale when it is used: [insert] accepts it exactly when its node still is in the tree,
    still ends the matched prefix there, and the tree does not continue with the next block.  A rejected call raises
    one of the two conflict errors and changes nothing; an accepted one adds exactly the new entries. *)
Theorem insert_rejects_stale_match `{!PrefixHash} XXH64 clock t sequence pbs nib ready r n :
  wf t → seq_ok XXH64 sequence → last_node r = Some n → is_Some (store t !! n) →
  args_ok sequence pbs nib (num_matched_blocks r) → Z.of_nat (num_matched_blocks r) < num_insert sequence nib →
  let k := num_matched_blocks r in let ml := last_node_matched_length r in
  (target_ok t (hashes_of XXH64 sequence) n k ml ∧
   ∃ w t', insert XXH64 clock sequence pbs nib ready (Some r) t = (Ok (Some w), t') ∧ wf t' ∧
     (∀ h b rd, entry t' h b rd ↔ entry t h b rd ∨
        ((∃ i, new_hashes XXH64 sequence k nib !! i = Some h ∧ pbs !! i = Some b) ∧ rd = ready))) ∨
  (¬ target_ok t (hashes_of XXH64 sequence) n k ml ∧
   ∃ e, (e = conflict ∨ e = child_conflict) ∧ insert XXH64 clock sequence pbs nib ready (Some r) t = (Raise e, t)).
Proof.
  intros Hwf Hs Hn Hl Ha Hlt k ml.
  destruct (insert_with_result XXH64 clock t sequence pbs nib ready r n Hwf Hs Hn Hl Ha Hlt) as [[Ht (w & t' & E & _ & Hin)]|[Ht He]].
  - left. split; [done|]. exists w, t'. split; [done|]. split; [apply Hin|apply Hin].
  - by right.
Qed.

(** The match result of before the last insertion is stale: block 3 of the sequence is cached meanwhile. *)
Lemma insert_rejects_stale_match_witness :
  insert toy_digest toy_clock (toy_seq [1; 2; 3; 9]) [77] (-1) true (Some toy_match)
    (insert toy_digest toy_clock (toy_seq [1; 2; 3; 9]) [55] (-1) true None toy_index).2 =
  (Raise conflict, (insert toy_digest toy_clock (toy_seq [1; 2; 3; 9]) [55] (-1) true None toy_index).2).
Proof.
  set (t := (insert toy_digest toy_clock (toy_seq [1; 2; 3; 9]) [55] (-1) true None toy_index).2).
  destruct (@insert_rejects_stale_match toy_ph toy_digest toy_clock t (toy_seq [1; 2; 3; 9]) [77] (-1) true toy_match 3%nat)
    as [[Ht (w & t' & E & _)]|[Ht (e & [He|He] & E)]].
  - apply toy_insert_wf, toy_index_wf.
  - apply toy_seq_ok.
  - vm_compute. reflexivity.
  - apply live_shapes. vm_compute. reflexivity.
  - vm_compute. split; [split; discriminate|reflexivity].
  - vm_compute. reflexivity.
  - exfalso. apply (f_equal (λ x, is_ok x.1)) in E. vm_compute in E. discriminate.
  - rewrite E, He. reflexivity.
  - exfalso. apply (f_equal (λ x, x.1)) in E. rewrite He in E. vm_compute in E. discriminate.
Defined.

(** [C22] [evict n]: when it returns, the blocks it hands back are exactly those of the entries that disappeared, each
    once; only blocks of unlocked, ready nodes disappear; every other entry stays; and at least [n] blocks were
    freed unless no evictable leaf is left.  The only way it can fail is a [ValueError] (an unknown policy, or a heap
    comparison of two arrays), and the index stays well formed then. *)
Theorem evict_spec `{!PrefixHash} num t :
  wf t →
  (∃ blocks hashes t' G, evict num t = (Ok (blocks, hashes), t') ∧ hashes = f_of_Z <$> G ∧ wf t' ∧ NoDup G ∧
     Forall2 (λ h b, ∃ rd, entry t h b rd) G blocks ∧
     (∀ h b rd, entry t' h b rd ↔ entry t h b rd ∧ h ∉ G) ∧
     (∀ x h, tree t x → h ∈ RadixTree.block_hashes (nd t x) → h ∈ G → lock_cnt (nd t x) <= 0 ∧ is_ready (nd t x) = true) ∧
     (num <= zlen blocks ∨ ∀ x, tree t' x → evictable (nd t' x) = false)) ∨
  (∃ msg t', evict num t = (Raise (ValueError msg), t') ∧ wf t').
Proof.
  intros Hwf. destruct (evict_ok num t Hwf) as [(b & h & t' & G & E & R & Hh & Hend)|(msg & t' & G & B & E & R)]; [left|right].
  - exists b, h, t', G. split_and!; [done|done|apply R|apply R| |apply R|apply R|done].
    eapply Forall2_impl; [apply R|]. intros g x Hm. by apply entry_maps.
  - exists msg, t'. split; [done|apply R].
Qed.

Lemma evict_spec_witness :
  (∃ h t', evict 2 toy_index = (Ok ([12; 13], h), t')) ∧
  ((∃ blocks hashes t', evict 2 toy_index = (Ok (blocks, hashes), t') ∧ @wf toy_ph t') ∨
   (∃ msg t', evict 2 toy_index = (Raise (ValueError msg), t') ∧ @wf toy_ph t')).
Proof.
  split; [eexists _, _; vm_compute; reflexivity|].
  destruct (@evict_spec toy_ph 2 toy_index toy_index_wf) as [(b & h & t' & G & E & _ & Hwf & _)|(msg & t' & E & Hwf)]; [left|right].
  - exists b, h, t'. split; [exact E|exact Hwf].
  - exists msg, t'. split; [exact E|exact Hwf].
Defined.

(** [evict_swa n] never fails: it frees at most [n] slots, records at least as many as it counts, stops short of
    [n] only when every snapshot left is locked, and only the entries of unlocked nodes disappear, whose blocks it
    returns. *)
Theorem evict_swa_spec `{!PrefixHash} num t :
  wf t →
  ∃ blocks nfreed t' G F, evict_swa num t = (Ok (blocks, nfreed), t') ∧ wf t' ∧ 0 <= nfreed <= Z.max num 0 ∧
    _freed_swa_slots t' = _freed_swa_slots t ++ F ∧ nfreed <= zlen F ∧
    (num <= nfreed ∨ ∀ x, tree t' x → has_swa (nd t' x) = true → 0 < swa_lock_ref (nd t' x)) ∧
    NoDup G ∧ Forall2 (λ h b, ∃ rd, entry t h b rd) G blocks ∧
    (∀ h b rd, entry t' h b rd ↔ entry t h b rd ∧ h ∉ G) ∧
    (∀ x h, tree t x → h ∈ RadixTree.block_hashes (nd t x) → h ∈ G → lock_cnt (nd t x) <= 0).
Proof.
  intros Hwf. destruct (evict_swa_ok num t Hwf) as (b & nf & t' & G & F & E & R & Hn & Hend & HF & Hz).
  exists b, nf, t', G, F. split_and!; try apply Hn; try done; try apply R.
  eapply Forall2_impl; [apply R|]. intros g x Hm. by apply entry_maps.
Qed.

(** Node 3 gets the slot 6. *)
Definition toy_swa : RadixTreeIndex := (set_swa toy_clock 3%nat 6 toy_index).2.

Lemma toy_swa_wf : @wf toy_ph toy_swa.
Proof.
  apply (@index_step_wf toy_ph toy_digest toy_clock toy_index); [apply toy_index_wf|].
  apply step_set_swa; [apply toy_tree3|by vm_compute|done|by vm_compute].
Qed.

Lemma evict_swa_spec_witness :
  (∃ t', evict_swa 1 toy_swa = (Ok ([12; 13], 1), t')) ∧
  ∃ blocks nfreed t', evict_swa 1 toy_swa = (Ok (blocks, nfreed), t') ∧ @wf toy_ph t' ∧ nfreed <= 1.
Proof.
  split; [eexists; vm_compute; reflexivity|].
  destruct (@evict_swa_spec toy_ph 1 toy_swa toy_swa_wf) as (b & nf & t' & G & F & E & Hwf & Hn & _).
  exists b, nf, t'. split; [exact E|]. split; [exact Hwf|apply Hn].
Defined.

(** [remove_unready_leaf] (the clean-up after a failed transfer) removes an unready, unlocked leaf and returns its
    blocks; on any other node it does nothing.  Besides that leaf only unlocked ready nodes go with it, by the SWA
    cascade. *)
Theorem remove_unready_leaf_spec `{!PrefixHash} t n :
  wf t → tree t n →
  ∃ blocks G t', remove_unready_leaf (Some n) t = (Ok blocks, t') ∧ wf t' ∧
    Forall2 (λ h b, ∃ rd, entry t h b rd) G blocks ∧
    (∀ h b rd, entry t' h b rd ↔ entry t h b rd ∧ h ∉ G) ∧
    (∀ x h, tree t x → h ∈ RadixTree.block_hashes (nd t x) → h ∈ G → unready (nd t x) ∨ deletable (nd t x)) ∧
    (if negb (is_root (nd t n)) && negb (is_ready (nd t n)) && negb (0 <? lock_cnt (nd t n))
        && negb (0 <? swa_lock_ref (nd t n)) && is_leaf (nd t n)
     then RadixTree.block_hashes (nd t n) `prefix_of` G ∧ ¬ tree t' n else t' = t ∧ G = []).
Proof.
  intros Hwf Hn. destruct (remove_unready_leaf_ok t n Hwf Hn) as (b & G & t' & E & R & Hc).
  exists b, G, t'. split_and!; [done|apply R| |apply R|apply R|done].
  eapply Forall2_impl; [apply R|]. intros g x Hm. by apply entry_maps.
Qed.

Lemma remove_unready_leaf_spec_witness :
  (∃ t', remove_unready_leaf (Some 4%nat) toy_index = (Ok [14], t')) ∧
  ∃ blocks t', remove_unready_leaf (Some 4%nat) toy_index = (Ok blocks, t') ∧ @wf toy_ph t'.
Proof.
  split; [eexists; vm_compute; reflexivity|].
  destruct (@remove_unready_leaf_spec toy_ph toy_index 4%nat toy_index_wf toy_tree4) as (b & G & t' & E & Hwf & _).
  exists b, t'. split; [exact E|exact Hwf].
Defined.

(** A node returned by [insert] stands for its whole insertion: however often later insertions split it,
    [set_ready] with the inserted length marks exactly the inserted blocks ready and fails no assertion. *)
Theorem set_ready_marks_insertion `{!PrefixHash} t0 t1 t2 bh pb w :
  inserted t0 t1 bh pb false w → rtc grows t1 t2 →
  ∃ t3, set_ready w true (zlen bh) t2 = (Ok tt, t3) ∧ wf t3 ∧
    ∀ h b rd, entry t3 h b rd ↔ (if decide (h ∈ bh) then rd = true ∧ ∃ rd0, entry t2 h b rd0 else entry t2 h b rd).
Proof.
  intros Hin Hg. pose proof (ins_wf _ _ _ _ _ _ Hin) as Hwf1.
  destruct (run_grows t1 t2 w bh Hwf1 Hg (inserted_run _ _ _ _ _ _ Hin)) as [Hwf2 Hrun].
  destruct (set_ready_ok t2 w bh Hwf2 Hrun) as (t3 & D & E & Hm & Hh). exists t3. split_and!; [done|by eapply marked_wf|].
  by apply (marked_entries t2 t3 D bh).
Qed.

(** The unready insertion [3; 4] after [1; 2] is split by a later one. *)
Definition toy_unready : RadixTreeIndex :=
  (insert toy_digest toy_clock (toy_seq [1; 2; 3; 4]) [20; 21; 22; 23] (-1) false None toy_index0).2.
Definition toy_split : RadixTreeIndex :=
  (insert toy_digest toy_clock (toy_seq [1; 2; 5]) [24] (-1) true None toy_unready).2.

Lemma toy_inserted ids pbs ready t w :
  @wf toy_ph t → (insert toy_digest toy_clock (toy_seq ids) pbs (-1) ready None t).1 = Ok (Some w) →
  ∃ t1 k, @wf toy_ph t1 ∧ steady t t1 ∧
    @inserted toy_ph t1 (insert toy_digest toy_clock (toy_seq ids) pbs (-1) ready None t).2 (new_hashes toy_digest (toy_seq ids) k (-1)) pbs ready w.
Proof.
  intros Hwf Hok.
  destruct (@insert_outcome toy_ph toy_digest toy_clock t (toy_seq ids) pbs (-1) ready None Hwf (toy_seq_ok ids) ltac:(done))
    as (t1 & Hwf1 & S & [[_ Hn]|(w' & k & E & _ & Hin)]); [by apply Hn in Hok|].
  exists t1, k. assert (w' = w) as <- by congruence. done.
Qed.

Lemma toy_unready_wf : @wf toy_ph toy_unready.
Proof. unfold toy_unready. apply toy_insert_wf, radix_init_wf. Qed.

Lemma set_ready_marks_insertion_witness :
  ∃ bh : list Z, length bh = 4%nat ∧ ∃ t3, set_ready 3%nat true (zlen bh) toy_split = (Ok tt, t3) ∧ @wf toy_ph t3.
Proof.
  destruct (toy_inserted [1; 2; 3; 4] [20; 21; 22; 23] false toy_index0 3%nat (radix_init_wf _ _ _ _ _ _)) as (ta & k & _ & _ & Hin);
    [vm_compute; reflexivity|].
  destruct (toy_inserted [1; 2; 5] [24] true toy_unready 4%nat toy_unready_wf) as (tb & k' & Hwfb & Sb & Hin');
    [vm_compute; reflexivity|].
  set (bh := new_hashes toy_digest (toy_seq [1; 2; 3; 4]) k (-1)) in *.
  exists bh. split.
  - pose proof (tree_len _ _ (ins_wf _ _ _ _ _ _ Hin) (proj1 (ins_node _ _ _ _ _ _ Hin))) as Hl.
    destruct (ins_node _ _ _ _ _ _ Hin) as (_ & _ & E1 & E2 & _). rewrite E1, E2 in Hl. exact Hl.
  - destruct (@set_ready_marks_insertion toy_ph ta toy_unready toy_split bh _ 3%nat Hin) as (t3 & E & Hwf & _).
    + eapply rtc_l; [left; split; [exact Hwfb|exact Sb]|]. apply rtc_once. right. eexists _, _, _, _. exact Hin'.
    + exists t3. split; [exact E|exact Hwf].
Defined.

(** [C36] Whatever calls are made on a new index, with whatever stale match results, it stays well formed: the nodes
    form a tree whose children continue their parent's run of hashes and are filed under their first hash, the leaf
    table is exact, and the SWA list links exactly the nodes that have a slot. *)
Theorem index_invariant `{!PrefixHash} XXH64 clock tpb mb reward policy threshold t :
  rtc (index_step XXH64 clock) (RadixTreeIndex_init clock tpb mb reward policy threshold) t → wf t.
Proof.
  intros H1. remember (RadixTreeIndex_init clock tpb mb reward policy threshold) as t0 eqn:E0.
  assert (wf t0) as Hwf by (subst; apply radix_init_wf). clear E0.
  induction H1 as [t|t t1 t2 Hs _ IH]; [done|]. apply IH. by eapply index_step_wf.
Qed.

Lemma toy_step_insert ids pbs ready t :
  @index_step toy_ph toy_digest toy_clock t (insert toy_digest toy_clock (toy_seq ids) pbs (-1) ready None t).2.
Proof. apply step_insert; [apply toy_seq_ok|done]. Qed.

Lemma toy_step_swa : @index_step toy_ph toy_digest toy_clock toy_index toy_swa.
Proof.
  unfold toy_swa. apply step_set_swa; [apply toy_tree3|rewrite toy_root; discriminate|lia|vm_compute; reflexivity].
Qed.

Lemma index_invariant_witness : @wf toy_ph toy_swa.
Proof.
  apply (@index_invariant toy_ph toy_digest toy_clock 1 100 0 "lru" 2).
  apply (rtc_l _ _ toy_index1); [exact (toy_step_insert [1; 2; 3; 4] [10; 11; 12; 13] true toy_index0)|].
  apply (rtc_l _ _ toy_index); [exact (toy_step_insert [1; 2; 5] [14] false toy_index1)|].
  apply rtc_once. exact toy_step_swa.
Defined.
