(* ===== verification/CacheEngine.v ===== *)
(** * CacheEngine: one cache tier

    Models the class [CacheEngine] of [flexkv/cache/cache_engine.py] (the Python
    index) with [SWAPoolConfig.for_cache_tier] of [flexkv/common/config.py]: a
    [RadixTreeIndex], a [Mempool] and an optional [SWAHostPool], and the calls
    that keep the three in step.  Event and metrics collectors and the eviction
    log are outputs of the process, not state of the engine. *)

From S2P Require Import Prelude PyFloat Block Transfer Mempool SWAHostPool RadixTree RadixCore RadixLeaf RadixWf RadixMatch RadixInsert RadixDetach RadixEvict RadixReady RadixSpec.
Import RadixTree.RadixTree RadixWf.RadixWf RadixMatch.RadixMatch RadixInsert.RadixInsert RadixDetach.RadixDetach RadixEvict.RadixEvict RadixReady.RadixReady.
Local Open Scope Z_scope.

Module CacheEngine.

(** ** Configuration *)

(** The fields of [SWAPoolConfig] the control plane reads. *)
Record SWAPoolConfig : Type := mkSWAPoolConfig {
  enabled : bool;
  num_slots : Z;
  num_ssd_slots : Z;
  num_remote_slots : Z;
}.

Definition with_num_slots (n : Z) (c : SWAPoolConfig) : SWAPoolConfig :=
  mkSWAPoolConfig (enabled c) n (num_ssd_slots c) (num_remote_slots c).
Definition for_ssd_tier (c : SWAPoolConfig) : SWAPoolConfig := with_num_slots (num_ssd_slots c) c.
Definition for_remote_tier (c : SWAPoolConfig) : SWAPoolConfig := with_num_slots (num_remote_slots c) c.

Definition for_cache_tier (device_type : DeviceType) (c : SWAPoolConfig) : option SWAPoolConfig :=
  if negb (enabled c) then None
  else match device_type with
       | CPU => Some c
       | SSD => if 0 <? num_ssd_slots c then Some (for_ssd_tier c) else None
       | REMOTE => if 0 <? num_remote_slots c then Some (for_remote_tier c) else None
       | _ => None
       end.

Definition _VALID_EVICTION_POLICIES : list string := ["lru"; "lfu"; "slru"; "fifo"; "mru"; "filo"]%string.

(** ** State *)

Record CacheEngine : Type := mkEngine {
  device_type : DeviceType;
  index : RadixTreeIndex;
  mempool : Mempool.Mempool;
  num_total_blocks : Z;
  evict_ratio : float;
  evict_start_threshold : float;
  swa_pool : option SWAHostPool.SWAHostPool;
  tier_swa_config : option SWAPoolConfig;
}.

Definition with_index (t : RadixTreeIndex) (e : CacheEngine) : CacheEngine :=
  mkEngine (device_type e) t (mempool e) (num_total_blocks e) (evict_ratio e) (evict_start_threshold e) (swa_pool e) (tier_swa_config e).
Definition with_mempool (p : Mempool.Mempool) (e : CacheEngine) : CacheEngine :=
  mkEngine (device_type e) (index e) p (num_total_blocks e) (evict_ratio e) (evict_start_threshold e) (swa_pool e) (tier_swa_config e).
Definition with_swa_pool (p : option SWAHostPool.SWAHostPool) (e : CacheEngine) : CacheEngine :=
  mkEngine (device_type e) (index e) (mempool e) (num_total_blocks e) (evict_ratio e) (evict_start_threshold e) p (tier_swa_config e).

Abbreviation Engine := (M CacheEngine).

(** Calls on the parts. *)
Definition on_index {A} (m : Op A) : Engine A := λ e, let '(r, t) := m (index e) in (r, with_index t e).

Definition recycle_blocks (blocks : list Z) : Engine unit := λ e,
  match Mempool.recycle_blocks blocks (mempool e) with
  | Ok p => (Ok tt, with_mempool p e)
  | Raise x => (Raise x, e)
  end.
Definition allocate_blocks (num : Z) : Engine (list Z) := λ e,
  match Mempool.allocate_blocks num (mempool e) with
  | Ok (blocks, p) => (Ok blocks, with_mempool p e)
  | Raise x => (Raise x, e)
  end.
Definition num_free_blocks (e : CacheEngine) : Z := Mempool.num_free_blocks (mempool e).

Definition swa_allocate : Engine (option Z) := λ e,
  match swa_pool e with
  | None => (Raise AttributeError, e)
  | Some p => let '(s, p) := SWAHostPool.allocate p in (Ok s, with_swa_pool (Some p) e)
  end.

Section engine.
Context (XXH64 : list Z → Z) (clock : nat → float).

(** ** Construction *)

Definition is_power_of_two (n : Z) : bool := (0 <? n) && (Z.land n (n - 1) =? 0).

Definition CacheEngine_init (device_type : DeviceType) (num_total_blocks tokens_per_block : Z) (evict_ratio : float)
    (hit_reward_seconds : Z) (evict_start_threshold : float) (eviction_policy : string) (protected_threshold : Z)
    (swa_config : option SWAPoolConfig) : result CacheEngine :=
  if num_total_blocks <=? 0 then Raise (ValueError "Invalid num_total_blocks")
  else if negb (is_power_of_two tokens_per_block) then Raise (ValueError "Invalid tokens_per_block")
  else if negb (bool_decide (eviction_policy ∈ _VALID_EVICTION_POLICIES)) then Raise (ValueError "Invalid eviction_policy")
  else if protected_threshold <? 1 then Raise (ValueError "Invalid protected_threshold")
  else
    pool ← Mempool.init num_total_blocks;
    let tier := swa_config ≫= for_cache_tier device_type in
    mret (mkEngine device_type
            (RadixTreeIndex_init clock (Z.to_nat tokens_per_block) 1000000 hit_reward_seconds eviction_policy protected_threshold)
            pool num_total_blocks evict_ratio evict_start_threshold
            ((λ c, SWAHostPool.init (num_slots c)) <$> tier) tier).

Definition swa_enabled (e : CacheEngine) : bool :=
  match tier_swa_config e with Some c => enabled c | None => false end && bool_decide (is_Some (swa_pool e)).

(** ** Locks and the index *)

Definition lock_node (n : nid) : Engine unit := on_index (lock n).
Definition unlock (n : nid) : Engine unit := on_index (RadixTree.unlock n).
Definition set_ready (n : nid) (ready : bool) (ready_length : Z) : Engine unit := on_index (RadixTree.set_ready n ready ready_length).

Definition lock_opt (n : option nid) : Engine unit := match n with Some n => lock_node n | None => mret tt end.
Definition unlock_opt (n : option nid) : Engine unit := match n with Some n => unlock n | None => mret tt end.

Definition match_ (sequence_meta : SequenceMeta) : Engine MatchResult := on_index (match_prefix XXH64 clock sequence_meta true).

Definition insert (sequence_meta : SequenceMeta) (physical_block_ids : list Z) (num_insert_blocks : Z) (is_ready : bool)
    (match_result : option MatchResult) : Engine (option nid) :=
  on_index (RadixTree.insert XXH64 clock sequence_meta physical_block_ids num_insert_blocks is_ready match_result).

(** ** SWA slots *)

Definition _free_swa_slot (slot : Z) : Engine unit := λ e,
  match swa_pool e with
  | None => (Raise AttributeError, e)
  | Some p => match SWAHostPool.free slot p with
              | Ok p => (Ok tt, with_swa_pool (Some p) e)
              | Raise x => (Raise x, e)
              end
  end.

Definition _drain_unmounted_swa_slots : Engine unit :=
  e ← get_state;
  match swa_pool e with
  | None => mret tt
  | Some _ => slots ← on_index drain_freed_swa_slots; for_each _free_swa_slot slots
  end.

Definition _evict_swa_slots (num_swa_evicted : Z) : Engine Z :=
  e ← get_state;
  match swa_pool e with
  | None => mret 0
  | Some _ =>
      '(evicted_full, num_freed) ← on_index (evict_swa num_swa_evicted);
      (match evicted_full with [] => mret tt | _ => recycle_blocks evicted_full end) ;;
      _drain_unmounted_swa_slots ;;
      mret num_freed
  end.

Definition _alloc_swa_slot (protected_node : option nid) : Engine Z :=
  e ← get_state;
  match swa_pool e with
  | None => mret (-1)
  | Some _ =>
      slot ← swa_allocate;
      match slot with
      | Some slot => mret slot
      | None =>
          lock_opt protected_node ;;
          try_finally (_evict_swa_slots 1) (unlock_opt protected_node) ;;
          slot ← swa_allocate;
          mret (default (-1) slot)
      end
  end.

Definition _pin_swa_node (n : nid) : Engine unit :=
  lock_node n ;;
  on_exception (on_index (inc_swa_lock_ref n)) (unlock n).

(** ** Blocks *)

Definition reset : Engine unit :=
  on_index (RadixTree.reset clock) ;;
  modify_state (λ e, with_mempool (Mempool.reset (mempool e)) e) ;;
  modify_state (λ e, with_swa_pool (SWAHostPool.reset <$> swa_pool e) e).

(** The numbers [take] computes from the pool. *)
Definition utilization (e : CacheEngine) : float :=
  let total := Mempool.num_total_blocks (mempool e) in
  if 0 <? total then f_div (f_of_Z (total - num_free_blocks e)) (f_of_Z total) else f_of_Z 0.

Definition should_evict (num_required_blocks : Z) (e : CacheEngine) : bool :=
  f_leb (evict_start_threshold e) (utilization e) || (num_free_blocks e <? num_required_blocks).

Definition evict_block_num (num_required_blocks : Z) (e : CacheEngine) : Z :=
  let total := Mempool.num_total_blocks (mempool e) in
  let target_free_blocks := f_to_Z (f_mul (f_of_Z total) (f_sub (f_of_Z 1) (evict_start_threshold e))) in
  let evict_to_reach_target := Z.max 0 (target_free_blocks - num_free_blocks e) in
  Z.max (Z.max (num_required_blocks - num_free_blocks e) evict_to_reach_target)
        (if f_ltb (f_of_Z 0) (evict_ratio e) then f_to_Z (f_mul (f_of_Z total) (evict_ratio e)) else 0).

Definition evict_blocks (n : Z) : Engine unit :=
  '(evicted_blocks, _) ← on_index (evict n);
  recycle_blocks evicted_blocks ;;
  _drain_unmounted_swa_slots.

Definition make_room (num_required_blocks : Z) (protected_node : option nid) : Engine unit :=
  e ← get_state;
  if should_evict num_required_blocks e then
    lock_opt protected_node ;;
    e ← get_state;
    let n := evict_block_num num_required_blocks e in
    (if 0 <? n then evict_blocks n else mret tt) ;;
    unlock_opt protected_node
  else mret tt.

Definition take (num_required_blocks : Z) (protected_node : option nid) (strict : bool) : Engine (list Z) :=
  make_room num_required_blocks protected_node ;;
  e ← get_state;
  if strict && (num_free_blocks e <? num_required_blocks) then raise (RuntimeError "Not enough free blocks to take, ")
  else allocate_blocks (Z.min num_required_blocks (num_free_blocks e)).

Definition recycle (physical_blocks : list Z) : Engine unit :=
  recycle_blocks physical_blocks ;; _drain_unmounted_swa_slots.

Definition rollback_unready_insert (n : option nid) : Engine Z :=
  match n with
  | None => mret 0
  | Some _ =>
      freed ← on_index (remove_unready_leaf n);
      (match freed with [] => mret tt | _ => recycle freed end) ;;
      mret (zlen freed)
  end.
End engine.

(** ** Who owns a block, who owns a slot

    [hb] are the blocks handed out by [take] and not yet inserted or recycled (the transfer plans hold them),
    [hs] the SWA slots allocated and not yet mounted or freed. *)

Section owner.
Context `{!PrefixHash}.
Implicit Types (t : RadixTreeIndex) (p : Mempool.Mempool) (hb : gset Z) (hs : list Z).

Abbreviation cached t := (maps (root_node t) (shapes t)).

(** Every block of the pool is free, held, or cached under exactly one hash, and only one of the three. *)
Record block_owner t p hb : Prop := {
  bo_pool : Mempool.wf p;
  bo_inj : ∀ g g' b, cached t g b → cached t g' b → g = g';
  bo_cached : ∀ g b, cached t g b → b ∈ Mempool.all_ids (Mempool.num_total_blocks p) ∧ b ∉ Mempool.free p ∧ b ∉ hb;
  bo_held : hb ⊆ Mempool.all_ids (Mempool.num_total_blocks p) ∧ Mempool.free p ## hb;
  bo_all : ∀ b, b ∈ Mempool.all_ids (Mempool.num_total_blocks p) → b ∈ Mempool.free p ∨ b ∈ hb ∨ ∃ g, cached t g b;
}.

(** Every slot is free, held, or in the index, exactly once. *)
Definition slot_owner t (sp : option SWAHostPool.SWAHostPool) hs : Prop :=
  match sp with
  | None => slots_are t [] ∧ hs = []
  | Some p => ∃ l, slots_are t l ∧ l ++ SWAHostPool._free_slots p ++ hs ≡ₚ seqZ 0 (SWAHostPool._num_slots p)
  end.

Record owns (e : CacheEngine) hb hs : Prop := {
  ow_wf : wf (index e);
  ow_blocks : block_owner (index e) (mempool e) hb;
  ow_slots : slot_owner (index e) (swa_pool e) hs;
}.

(** *** Blocks *)

Lemma block_owner_same t t' p hb :
  (∀ g b, cached t' g b ↔ cached t g b) → block_owner t p hb → block_owner t' p hb.
Proof.
  intros E [B1 B2 B3 B4 B5]. split; [done| | |done|].
  - intros g g' b. rewrite !E. apply B2.
  - intros g b. rewrite E. apply B3.
  - intros b Hb. destruct (B5 b Hb) as [?|[?|[g Hg]]]; [by left|by right; left|]. right. right. exists g. by apply E.
Qed.

Lemma cached_removed P t t' G B g b : removed P t t' G B → cached t' g b ↔ cached t g b ∧ g ∉ G.
Proof.
  intros R. rewrite !entry_maps. setoid_rewrite (rm_entry _ _ _ _ _ R). naive_solver.
Qed.

Lemma removed_blocks P t t' p hb G B :
  wf t → block_owner t p hb → removed P t t' G B →
  NoDup B ∧ (∀ b, b ∈ B ↔ ∃ g, g ∈ G ∧ cached t g b) ∧ (∀ b, b ∈ B → b ∉ hb ∧ b ∉ Mempool.free p) ∧
  block_owner t' p (hb ∪ list_to_set B).
Proof.
  intros Hwf [B1 B2 B3 B4 B5] R. pose proof (rm_maps _ _ _ _ _ R) as Hm.
  assert (∀ b, b ∈ B ↔ ∃ g, g ∈ G ∧ cached t g b) as HB.
  { intros b. split.
    - intros [i Hi]%list_elem_of_lookup. destruct (Forall2_lookup_r _ _ _ _ _ Hm Hi) as (g & Hg & Hgb). exists g. split; [by eapply list_elem_of_lookup_2|done].
    - intros (g & [i Hi]%list_elem_of_lookup & Hgb). destruct (Forall2_lookup_l _ _ _ _ _ Hm Hi) as (b' & Hb' & Hgb').
      assert (b' = b) as -> by (eapply maps_fun; [apply Hwf|done|done]). by eapply list_elem_of_lookup_2. }
  assert (NoDup B) as HN.
  { apply NoDup_alt. intros i j b Hi Hj. destruct (Forall2_lookup_r _ _ _ _ _ Hm Hi) as (g & Hg & Hgb), (Forall2_lookup_r _ _ _ _ _ Hm Hj) as (g' & Hg' & Hgb').
    assert (g = g') as -> by (by eapply B2). exact (NoDup_lookup _ _ _ _ (rm_nodup _ _ _ _ _ R) Hg Hg'). }
  assert (∀ b, b ∈ B → b ∉ hb ∧ b ∉ Mempool.free p ∧ b ∈ Mempool.all_ids (Mempool.num_total_blocks p)) as Hfresh.
  { intros b (g & _ & Hg)%HB. destruct (B3 g b Hg) as (? & ? & ?). done. }
  split; [done|]. split; [done|]. split; [intros b Hb; by destruct (Hfresh b Hb) as (? & ? & _)|]. split.
  - done.
  - intros g g' b. rewrite !(cached_removed _ _ _ _ _ _ _ R). intros [? _] [? _]. by eapply B2.
  - intros g b. rewrite (cached_removed _ _ _ _ _ _ _ R). intros [Hg Hn]. destruct (B3 g b Hg) as (? & ? & ?). split; [done|]. split; [done|].
    rewrite elem_of_union, elem_of_list_to_set, HB. intros [?|(g' & Hg' & Hgb')]; [done|]. assert (g' = g) as -> by (by eapply B2). done.
  - destruct B4 as [? ?]. split.
    + intros b [?|Hb%elem_of_list_to_set]%elem_of_union; [set_solver|by apply Hfresh].
    + intros b Hb [?|Hb'%elem_of_list_to_set]%elem_of_union; [set_solver|]. by destruct (Hfresh b Hb') as (_ & ? & _).
  - intros b Hb. destruct (B5 b Hb) as [?|[?|[g Hg]]]; [by left|right; left; apply elem_of_union; by left|].
    right. destruct (decide (g ∈ G)) as [HgG|HgG].
    + left. apply elem_of_union. right. apply elem_of_list_to_set, HB. by exists g.
    + right. exists g. by apply (cached_removed _ _ _ _ _ _ _ R).
Qed.

Lemma recycle_owner t p hb (B : list Z) :
  block_owner t p hb → NoDup B → (∀ b, b ∈ B → b ∈ hb) →
  ∃ p', Mempool.recycle_blocks B p = Ok p' ∧ block_owner t p' (hb ∖ list_to_set B) ∧
    Mempool.num_total_blocks p' = Mempool.num_total_blocks p ∧ Mempool.num_free_blocks p' = Mempool.num_free_blocks p + zlen B.
Proof.
  intros [B1 B2 B3 [B4 B4'] B5] HN HB. destruct (Mempool.recycle_ok p B B1) as (p' & E & Hwf' & Hf & Ht & Hn).
  { intros b Hb. split; [apply Mempool.elem_of_all_ids; apply B4; auto|]. intros Hfr. apply (B4' b Hfr). auto. }
  exists p'. split; [done|]. split; [|split; [done|]].
  - split; rewrite ?Ht, ?Hf; try done.
    + intros g b Hg. destruct (B3 g b Hg) as (? & ? & Hh). split; [done|]. rewrite elem_of_union, elem_of_list_to_set, elem_of_difference.
      split; [intros [?|?%HB]; done|naive_solver].
    + split; set_solver.
    + intros b Hb. destruct (B5 b Hb) as [?|[?|?]]; [left; apply elem_of_union; by left| |by right; right].
      destruct (decide (b ∈ B)); [left; apply elem_of_union; right; by apply elem_of_list_to_set|].
      right. left. apply elem_of_difference. split; [done|]. by rewrite elem_of_list_to_set.
  - unfold Mempool.num_free_blocks, zlen. rewrite Hn. by rewrite size_list_to_set.
Qed.

Lemma allocate_owner t p hb num :
  block_owner t p hb → 0 <= num <= Mempool.num_free_blocks p →
  ∃ ids p', Mempool.allocate_blocks num p = Ok (ids, p') ∧ NoDup ids ∧ zlen ids = num ∧ (∀ b, b ∈ ids → b ∈ Mempool.free p) ∧
    block_owner t p' (hb ∪ list_to_set ids) ∧ Mempool.num_total_blocks p' = Mempool.num_total_blocks p.
Proof.
  intros [B1 B2 B3 [B4 B4'] B5] Hn. destruct (Mempool.allocate_ok p num B1 Hn) as (ids & p' & E & Hwf' & HN & Hl & Hsub & Hf & Ht & _).
  assert (∀ b, b ∈ ids → b ∈ Mempool.free p) as Hin by (intros b Hb; apply Hsub, elem_of_list_to_set, Hb).
  exists ids, p'. split_and!; try done. split; rewrite ?Ht, ?Hf; try done.
  - intros g b Hg. destruct (B3 g b Hg) as (? & Hnf & Hh). split; [done|].
    rewrite elem_of_union, elem_of_list_to_set, elem_of_difference. split; [naive_solver|]. intros [?|?%Hin]; done.
  - split; [|set_solver]. intros b [?|Hb%elem_of_list_to_set]%elem_of_union; [set_solver|].
    apply Mempool.elem_of_all_ids, Mempool.free_range; [done|by apply Hin].
  - intros b Hb. destruct (B5 b Hb) as [?|[?|?]]; [|right; left; apply elem_of_union; by left|by right; right].
    destruct (decide (b ∈ ids)); [right; left; apply elem_of_union; right; by apply elem_of_list_to_set|].
    left. apply elem_of_difference. split; [done|]. by rewrite elem_of_list_to_set.
Qed.

Lemma insert_owner t t' p hb bh pb rd w :
  block_owner t p hb → inserted t t' bh pb rd w → NoDup pb → (∀ b, b ∈ pb → b ∈ hb) → block_owner t' p (hb ∖ list_to_set pb).
Proof.
  intros [B1 B2 B3 [B4 B4'] B5] Hin HN HB.
  assert (∀ g b, cached t' g b ↔ cached t g b ∨ (∃ i, bh !! i = Some g ∧ pb !! i = Some b)) as Hc.
  { intros g b. rewrite !entry_maps. setoid_rewrite (ins_entry _ _ _ _ _ _ Hin). naive_solver. }
  assert (length bh = length pb) as Hl.
  { destruct (ins_node _ _ _ _ _ _ Hin) as (Hw & _ & <- & <- & _). apply tree_len; [apply Hin|done]. }
  split; [done| | | |].
  - intros g g' b. rewrite !Hc. intros [H1|(i & Hg & Hi)] [H2|(j & Hg' & Hj)].
    + by eapply B2.
    + apply list_elem_of_lookup_2 in Hj. by destruct (B3 g b H1) as (_ & _ & []); apply HB.
    + apply list_elem_of_lookup_2 in Hi. by destruct (B3 g' b H2) as (_ & _ & []); apply HB.
    + assert (i = j) as -> by (by eapply NoDup_lookup). congruence.
  - intros g b. rewrite Hc, elem_of_difference, elem_of_list_to_set. intros [H1|(i & Hg & Hi)].
    + destruct (B3 g b H1) as (? & ? & ?). split_and!; [done..|]. naive_solver.
    + apply list_elem_of_lookup_2 in Hi. specialize (HB b Hi). split; [by apply B4|]. split; [intros Hf; by apply (B4' b)|naive_solver].
  - split; set_solver.
  - intros b Hb. destruct (B5 b Hb) as [?|[?|[g Hg]]]; [by left| |].
    + destruct (decide (b ∈ pb)) as [Hp|Hp].
      * right. right. apply list_elem_of_lookup in Hp as [i Hi]. destruct (lookup_lt_is_Some_2 bh i) as [g Hg].
        { rewrite Hl. by eapply lookup_lt_Some. } exists g. apply Hc. right. by exists i.
      * right. left. apply elem_of_difference. split; [done|]. by rewrite elem_of_list_to_set.
    + right. right. exists g. apply Hc. by left.
Qed.

(** *** Slots *)

Lemma slot_owner_keeps t t' sp hs : keeps_slots t t' → slot_owner t sp hs → slot_owner t' sp hs.
Proof. intros K. destruct sp as [p|]; simpl; [intros (l & Hl & Hp)|intros [Hl ->]]; [exists l|]; eauto. Qed.

Lemma slots_wf t (sp : SWAHostPool.SWAHostPool) hs : slot_owner t (Some sp) hs → SWAHostPool.wf sp.
Proof.
  intros (l & _ & Hp). assert (NoDup (l ++ SWAHostPool._free_slots sp ++ hs)) as HN by (rewrite Hp; apply NoDup_seqZ).
  apply NoDup_app in HN as (_ & _ & HN). apply NoDup_app in HN as (HN & _ & _). split; [done|].
  intros i Hi. assert (i ∈ seqZ 0 (SWAHostPool._num_slots sp)) as Hz by (rewrite <- Hp, !elem_of_app; auto). apply elem_of_seqZ in Hz. lia.
Qed.

(** Freeing held slots. *)
Lemma free_slot_owner t (sp : SWAHostPool.SWAHostPool) hs hs' s :
  slot_owner t (Some sp) hs → hs ≡ₚ s :: hs' →
  ∃ sp', SWAHostPool.free s sp = Ok sp' ∧ slot_owner t (Some sp') hs' ∧ SWAHostPool.num_free sp' = SWAHostPool.num_free sp + 1.
Proof.
  intros (l & Hl & Hp) Hs.
  assert (l ++ SWAHostPool._free_slots sp ++ hs ≡ₚ s :: l ++ SWAHostPool._free_slots sp ++ hs') as Hp2 by (rewrite Hs; solve_Permutation).
  assert (s ∈ seqZ 0 (SWAHostPool._num_slots sp)) as Hr by (rewrite <- Hp, Hp2; left). apply elem_of_seqZ in Hr.
  assert (NoDup (s :: l ++ SWAHostPool._free_slots sp ++ hs')) as HN by (rewrite <- Hp2, Hp; apply NoDup_seqZ).
  apply NoDup_cons in HN as [Hns _]. rewrite !elem_of_app in Hns. unfold SWAHostPool.free.
  destruct (Z.ltb_spec s 0); [lia|]. destruct (Z.leb_spec (SWAHostPool._num_slots sp) s); [lia|]. cbn [orb].
  rewrite bool_decide_eq_false_2 by tauto. eexists. split; [done|]. split.
  - exists l. split; [done|]. simpl. rewrite <- Hp, Hp2. solve_Permutation.
  - unfold SWAHostPool.num_free. simpl. by rewrite zlen_app.
Qed.

Lemma allocate_slot_owner t (sp : SWAHostPool.SWAHostPool) hs :
  slot_owner t (Some sp) hs →
  (∃ s sp', SWAHostPool.allocate sp = (Some s, sp') ∧ slot_owner t (Some sp') (s :: hs) ∧ 0 <= s) ∨
  (SWAHostPool.allocate sp = (None, sp) ∧ SWAHostPool._free_slots sp = []).
Proof.
  intros (l & Hl & Hp). unfold SWAHostPool.allocate. destruct (last (SWAHostPool._free_slots sp)) as [s|] eqn:E.
  - left. apply last_Some in E as [k Ek]. rewrite Ek in *. eexists s, _. split; [done|]. split.
    + exists l. split; [done|]. simpl. rewrite length_app. simpl. replace (length k + 1 - 1)%nat with (length k) by lia.
      rewrite take_app_length, <- Hp. solve_Permutation.
    + assert (s ∈ seqZ 0 (SWAHostPool._num_slots sp)) as Hr.
      { rewrite <- Hp, !elem_of_app. right. left. right. left. }
      apply elem_of_seqZ in Hr. lia.
  - right. by apply last_None in E.
Qed.

Lemma drain_owner t sp hs :
  wf t → slot_owner t (Some sp) hs →
  ∃ t' F, drain_freed_swa_slots t = (Ok F, t') ∧ wf t' ∧ quiet t t' ∧ slot_owner t' (Some sp) (F ++ hs) ∧ calm (with__freed_swa_slots (λ _, []) t) t'.
Proof.
  intros Hwf (l & (L & HL & Hl) & Hp). eexists _, _. split; [done|]. set (t' := with__freed_swa_slots (λ _, []) t).
  assert (quiet t t') as Q by by split. assert (swa_ok (tree t') t' L) as HL' by (by apply (swa_ok_links (tree t) t)).
  split; [eapply wf_quiet; [done|done|by exists L]|]. split; [done|]. split; [|by split].
  exists ((λ n, swa_host_slot (nd t' n)) <$> L). split; [by exists L|]. rewrite <- Hp, Hl.
  change (nd t') with (nd t). solve_Permutation.
Qed.
End owner.

(** ** The calls of the engine, on the owners *)

Section engine_lemmas.
Context `{!PrefixHash}.
Implicit Types (e : CacheEngine) (t : RadixTreeIndex) (hb : gset Z) (hs : list Z).

(** The fields no call changes. *)
Record same_config e e' : Prop := {
  sc_ratio : evict_ratio e' = evict_ratio e;
  sc_threshold : evict_start_threshold e' = evict_start_threshold e;
  sc_tier : tier_swa_config e' = tier_swa_config e ∧ device_type e' = device_type e ∧ num_total_blocks e' = num_total_blocks e;
  sc_total : Mempool.num_total_blocks (mempool e') = Mempool.num_total_blocks (mempool e);
  sc_swa : is_Some (swa_pool e') ↔ is_Some (swa_pool e);
}.
#[export] Instance same_config_preorder : PreOrder same_config.
Proof. split; [by split|]. intros x y z [A1 A2 A3 A4 A5] [B1 B2 B3 B4 B5]. destruct_and!. split; [congruence..| |congruence|by rewrite B5]. split_and!; congruence. Qed.

Lemma same_config_index t e : same_config e (with_index t e). Proof. by split. Qed.

Lemma on_index_run {A} (m : Op A) e r t : m (index e) = (r, t) → on_index m e = (r, with_index t e).
Proof. unfold on_index. by intros ->. Qed.

(** Two indexes with the same entries, uses and nodes. *)
Record alike t t' : Prop := {
  al_entry : ∀ g b r, entry t' g b r ↔ entry t g b r;
  al_use : ∀ x, use_of (nd t' x) = use_of (nd t x);
  al_tree : ∀ x, tree t' x ↔ tree t x;
  al_shape : ∀ x, shape_of (nd t' x) = shape_of (nd t x);
  al_root : root_node t' = root_node t;
  al_swa : ∀ x, swa_of (nd t' x) = swa_of (nd t x);
}.
#[export] Instance alike_preorder : PreOrder alike.
Proof.
  split; [by split|]. intros x y z [A1 A2 A3 A4 A5 A6] [B1 B2 B3 B4 B5 B6].
  split; [intros; by rewrite B1|intros; congruence|intros; by rewrite B3|intros; congruence|congruence|intros; congruence].
Qed.

Lemma quiet_alike t t' : quiet t t' → (∀ x, swa_of (nd t' x) = swa_of (nd t x)) → alike t t'.
Proof.
  intros Q Hsw. split; [..|apply Q|done].
  - intros. by apply entry_quiet.
  - intros x. by apply quiet_nd_use.
  - intros x. by rewrite (q_shapes _ _ Q), (q_root _ _ Q).
  - intros x. by apply quiet_nd_shape.
Qed.

Lemma alike_owner t t' p hb : alike t t' → block_owner t p hb → block_owner t' p hb.
Proof. intros A. apply block_owner_same. intros g b. rewrite !entry_maps. by setoid_rewrite (al_entry _ _ A). Qed.

Lemma drain_unmounted_ok e hb hs :
  owns e hb hs →
  ∃ e', _drain_unmounted_swa_slots e = (Ok tt, e') ∧ owns e' hb hs ∧ alike (index e) (index e') ∧ mempool e' = mempool e ∧
    same_config e e' ∧ (∀ sp, swa_pool e = Some sp → ∃ sp', swa_pool e' = Some sp' ∧
      SWAHostPool.num_free sp' = SWAHostPool.num_free sp + zlen (_freed_swa_slots (index e))).
Proof.
  intros [Hwf Hb Hs]. unfold _drain_unmounted_swa_slots. rewrite M_bind_run. cbn [get_state].
  destruct (swa_pool e) as [sp|] eqn:Esp; [|exists e; split_and!; try done; by split; rewrite ?Esp].
  destruct (drain_owner _ _ _ Hwf Hs) as (t' & F & E & Hwf' & Q & Ho & C). rewrite M_bind_run. unfold on_index. rewrite E.
  assert (∀ F e1 sp1, swa_pool e1 = Some sp1 → slot_owner (index e1) (Some sp1) (F ++ hs) →
    ∃ sp2, for_each _free_swa_slot F e1 = (Ok tt, with_swa_pool (Some sp2) e1) ∧ slot_owner (index e1) (Some sp2) hs ∧
      SWAHostPool.num_free sp2 = SWAHostPool.num_free sp1 + zlen F) as Hloop.
  { clear. induction F as [|s F IH]; intros e1 sp1 E1 Ho.
    - exists sp1. split; [|split; [done|unfold zlen; simpl; lia]]. destruct e1. simpl in *. by subst.
    - destruct (free_slot_owner _ _ (s :: F ++ hs) (F ++ hs) s Ho) as (sp2 & E2 & Ho2 & Hn2); [done|].
      destruct (IH (with_swa_pool (Some sp2) e1) sp2 eq_refl Ho2) as (sp3 & E3 & Ho3 & Hn3). exists sp3. split; [|split; [done|unfold zlen in *; simpl; lia]].
      cbn [for_each]. rewrite M_bind_run. unfold _free_swa_slot at 1. rewrite E1, E2. rewrite E3. by destruct e1. }
  destruct (Hloop F (with_index t' e) sp Esp Ho) as (sp2 & E2 & Ho2 & Hn2). eexists. split; [exact E2|].
  assert (alike (index e) t') as A by (apply quiet_alike; [done|]; intros x; apply (swa_links_inv _ _ (ca_swa _ _ C x))).
  split; [split; simpl; [done|by eapply alike_owner|done]|]. split; [done|]. split; [done|]. split.
  - by split.
  - intros ? [= <-]. exists sp2. split; [done|]. unfold drain_freed_swa_slots in E. rewrite M_bind_run in E. cbn in E. by injection E as <- _.
Qed.

(** Blocks taken out of the index go back to the pool. *)
Lemma settle_ok P e t' G B hb hs :
  owns e hb hs → removed P (index e) t' G B →
  ∃ e', (recycle_blocks B ;; _drain_unmounted_swa_slots) (with_index t' e) = (Ok tt, e') ∧ owns e' hb hs ∧ alike t' (index e') ∧
    same_config e e' ∧ num_free_blocks e' = num_free_blocks e + zlen B.
Proof.
  intros [Hwf Hb Hs] R. destruct (removed_blocks _ _ _ _ _ _ _ Hwf Hb R) as (HN & _ & Hfr & Hb').
  destruct (recycle_owner _ _ _ B Hb' HN) as (p' & Ep & Hb2 & Ht & Hn); [set_solver|].
  assert ((hb ∪ list_to_set B) ∖ list_to_set B = hb) as Eh.
  { apply set_eq. intros b. rewrite elem_of_difference, elem_of_union, elem_of_list_to_set. specialize (Hfr b). tauto. }
  rewrite Eh in Hb2. rewrite M_bind_run. unfold recycle_blocks. simpl. rewrite Ep.
  destruct (drain_unmounted_ok (with_mempool p' (with_index t' e)) hb hs) as (e' & E & Ho & A & Em & Sc & _).
  { split; simpl; [apply R|done|eapply slot_owner_keeps; [apply R|done]]. }
  exists e'. split_and!; [done|done|exact A| |].
  - etrans; [|exact Sc]. by split.
  - unfold num_free_blocks. by rewrite Em.
Qed.

(** A removal whose blocks the caller never got: they stay with nobody. *)
Lemma leak_owns P e t' G B hb hs :
  owns e hb hs → removed P (index e) t' G B → owns (with_index t' e) (hb ∪ list_to_set B) hs ∧ (∀ b, b ∈ B → b ∉ hb) ∧
  (∀ b, b ∈ B → ∃ g, maps (root_node (index e)) (shapes (index e)) g b).
Proof.
  intros [Hwf Hb Hs] R. destruct (removed_blocks _ _ _ _ _ _ _ Hwf Hb R) as (HN & HB & Hfr & Hb').
  split; [|split; [intros b Hin; by apply Hfr|intros b (g & _ & Hg)%HB; by exists g]]. split; simpl; [apply R|done|eapply slot_owner_keeps; [apply R|done]].
Qed.

(** *** Locks *)

Lemma meta_slots t t' : wf t → meta t t' → keeps_slots t t'.
Proof.
  intros Hwf Hm. pose proof (wf_meta _ _ Hwf Hm) as Hwf'. pose proof Hm as [M1 M2 (M3 & M4 & M5 & M6 & M7 & M8)].
  apply keeps_slots_same; try done.
  - intros x. rewrite M1, M4. intros Hx. split; [done|]. by apply swa_links_inv.
  - intros x. rewrite M1, M4. by left.
Qed.

Lemma meta_shape t t' x : meta t t' → shape_of (nd t' x) = shape_of (nd t x).
Proof.
  intros [M1 _ _]. apply (f_equal (.!! x)) in M1. rewrite !shapes_lookup in M1. unfold nd.
  destruct (store t' !! x), (store t !! x); simpl in *; congruence.
Qed.

(** A change of a lock count. *)
Definition relock (n : nid) (d : Z) (x : RadixNode) : RadixNode := set_lock_cnt x (lock_cnt x + d).

Lemma relock_meta n d t : meta t (with_store (alter (relock n d) n) t).
Proof. exact (meta_upd n (relock n d) t). Qed.

Lemma relock_owns n d e hb hs :
  owns e hb hs → owns (with_index (with_store (alter (relock n d) n) (index e)) e) hb hs.
Proof.
  intros [Hwf Hb Hs]. pose proof (relock_meta n d (index e)) as Hm. split; simpl.
  - by eapply wf_meta.
  - eapply block_owner_same; [|done]. intros g b. destruct Hm as [-> _ (_ & -> & _)]. done.
  - eapply slot_owner_keeps; [by apply meta_slots|done].
Qed.

Lemma lock_node_run n e :
  0 <= lock_cnt (nd (index e) n) → lock_node n e = (Ok tt, with_index (with_store (alter (relock n 1) n) (index e)) e).
Proof.
  intros Hl. unfold lock_node, on_index, lock. rewrite M_bind_run. cbn [node gets]. rewrite (proj2 (Z.leb_le _ _) Hl). done.
Qed.

Lemma unlock_run n e :
  0 < lock_cnt (nd (index e) n) → unlock n e = (Ok tt, with_index (with_store (alter (relock n (-1)) n) (index e)) e).
Proof.
  intros Hl. unfold unlock, on_index, RadixTree.unlock. rewrite M_bind_run. cbn [node gets]. rewrite (proj2 (Z.ltb_lt _ _) Hl). done.
Qed.

(** *** Making room *)

(** What an eviction does to the index: the hashes [G] go, only from nodes satisfying [P], never from the protected one. *)
Record shrunk (P : RadixNode → Prop) (prot : option nid) e e' (G : list Z) : Prop := {
  sh_entry : ∀ g b r, entry (index e') g b r ↔ entry (index e) g b r ∧ g ∉ G;
  sh_use : ∀ x, use_of (nd (index e') x) = use_of (nd (index e) x);
  sh_root : root_node (index e') = root_node (index e);
  sh_tree : ∀ x, tree (index e') x → tree (index e) x ∧ block_hashes (nd (index e') x) `prefix_of` block_hashes (nd (index e) x);
  sh_safe : ∀ x g, tree (index e) x → g ∈ block_hashes (nd (index e) x) → g ∈ G → P (nd (index e) x) ∧ prot ≠ Some x;
  sh_config : same_config e e';
}.

(** A protected node must be a node of the tree with a sane lock count. *)
Definition protectable e (prot : option nid) : Prop :=
  ∀ n, prot = Some n → tree (index e) n ∧ 0 <= lock_cnt (nd (index e) n).

Definition locked_index e (prot : option nid) : RadixTreeIndex :=
  match prot with Some n => with_store (alter (relock n 1) n) (index e) | None => index e end.

Lemma lock_opt_run prot e : protectable e prot → lock_opt prot e = (Ok tt, with_index (locked_index e prot) e).
Proof.
  intros Hp. destruct prot as [n|]; [|by destruct e]. cbn [lock_opt locked_index]. apply lock_node_run. by apply Hp.
Qed.

Lemma locked_owns prot e hb hs : owns e hb hs → owns (with_index (locked_index e prot) e) hb hs.
Proof. intros Ho. destruct prot as [n|]; [by apply relock_owns|]. by destruct e. Qed.

Lemma locked_meta prot e : meta (index e) (locked_index e prot).
Proof. destruct prot as [n|]; [apply relock_meta|done]. Qed.

Lemma locked_nd prot e x : protectable e prot → wf (index e) →
  nd (locked_index e prot) x = if decide (prot = Some x) then relock x 1 (nd (index e) x) else nd (index e) x.
Proof.
  intros Hp Hwf. destruct prot as [n|]; [|by rewrite decide_False]. cbn [locked_index]. destruct (Hp n eq_refl) as [Ht _].
  rewrite nd_upd by (by apply tree_live). destruct (decide (x = n)) as [->|]; [by rewrite decide_True|by rewrite decide_False by congruence].
Qed.

Lemma meta_entry_iff t t' g b r : meta t t' → (∀ x, is_ready (nd t' x) = is_ready (nd t x)) → entry t' g b r ↔ entry t g b r.
Proof.
  intros [M1 _ (_ & M4 & _)] Hr. unfold entry, placed. rewrite M1, M4. by setoid_rewrite Hr.
Qed.

Lemma locked_ready prot e x : protectable e prot → wf (index e) → is_ready (nd (locked_index e prot) x) = is_ready (nd (index e) x).
Proof. intros Hp Hwf. rewrite locked_nd by done. by destruct (decide _). Qed.


Lemma locked_live t n : 0 < lock_cnt (nd t n) → is_Some (store t !! n).
Proof. unfold nd. destruct (store t !! n) as [x|]; [by eexists|done]. Qed.

(** After a removal on the locked index, the unlock succeeds and restores the lock count. *)
Lemma unlock_back P prot e e1 G B t1 hb hs :
  (∀ x, P x → lock_cnt x <= 0) → wf (index e) → protectable e prot → removed P (locked_index e prot) t1 G B → alike t1 (index e1) → same_config e e1 → owns e1 hb hs →
  ∃ e2, unlock_opt prot e1 = (Ok tt, e2) ∧ owns e2 hb hs ∧ shrunk P prot e e2 G ∧ mempool e2 = mempool e1 ∧
    meta (index e1) (index e2) ∧ (∀ x, prot ≠ Some x → nd (index e2) x = nd (index e1) x).
Proof.
  intros HP Hwf Hp R A Sc Ho. set (t := index e) in *. set (tl := locked_index e prot) in *.
  pose proof (locked_meta prot e) as Ml. fold t tl in Ml. destruct (me_rest _ _ Ml) as (_ & Erl & _).
  assert (∀ x, use_of (nd (index e1) x) = use_of (nd tl x)) as Hu1.
  { intros x. rewrite (al_use _ _ A). apply (st_use _ _ (rm_stays _ _ _ _ _ R)). }
  assert (∀ x, nd tl x = if decide (prot = Some x) then relock x 1 (nd t x) else nd t x) as Hnl by (intros x; by apply locked_nd).
  set (e2 := match prot with Some n => with_index (with_store (alter (relock n (-1)) n) (index e1)) e1 | None => e1 end).
  assert (unlock_opt prot e1 = (Ok tt, e2)) as Er.
  { destruct prot as [n|]; [|done]. cbn [unlock_opt]. apply unlock_run. specialize (Hu1 n). rewrite Hnl, decide_True in Hu1 by done.
    destruct (Hp n eq_refl) as [_ Hl]. unfold use_of, relock in Hu1. simpl in Hu1. injection Hu1 as _ E _. fold t in Hl. lia. }
  assert (meta (index e1) (index e2)) as M2 by (destruct prot; [apply relock_meta|done]).
  assert (∀ x, prot ≠ Some x → nd (index e2) x = nd (index e1) x) as Hne.
  { intros x Hx. destruct prot as [n|]; [|done]. simpl. apply nd_upd_ne. congruence. }
  assert (∀ x, use_of (nd (index e2) x) = use_of (nd t x)) as Hu2.
  { intros x. destruct (decide (prot = Some x)) as [Hx|Hx].
    - specialize (Hu1 x). rewrite Hnl, decide_True in Hu1 by done. subst prot. destruct (Hp x eq_refl) as [_ Hl]. fold t in Hl.
      unfold use_of, relock in Hu1. simpl in Hu1. injection Hu1 as E1 E2 E3. simpl. rewrite nd_upd_eq by (apply locked_live; lia).
      unfold use_of. simpl. rewrite E1, E2, E3. f_equal. f_equal. lia.
    - rewrite Hne by done. by rewrite Hu1, Hnl, decide_False. }
  exists e2. split; [done|]. split; [destruct prot; [by apply relock_owns|done]|].
  destruct (me_rest _ _ M2) as (_ & Er2 & _).
  assert (root_node (index e1) = root_node t) as Er1.
  { rewrite (al_root _ _ A), (st_root _ _ (rm_stays _ _ _ _ _ R)). done. }
  split; [|split; [by destruct prot|done]]. split.
  - intros g b r. rewrite (meta_entry_iff (index e1) (index e2)), (al_entry _ _ A), (rm_entry _ _ _ _ _ R).
    + rewrite (meta_entry_iff t tl); [done|done|]. intros x. by apply locked_ready.
    + done.
    + intros x. specialize (Hu2 x). specialize (Hu1 x). rewrite Hnl in Hu1. unfold use_of in *. 
      destruct (decide (prot = Some x)); simpl in *; congruence.
  - done.
  - by rewrite Er2, Er1.
  - intros x. rewrite (me_shapes _ _ M2), Er2. intros Hx. apply (al_tree _ _ A) in Hx. apply (rm_tree _ _ _ _ _ R) in Hx as [Hx Hpre].
    rewrite (me_shapes _ _ Ml), Erl in Hx. split; [done|].
    assert (∀ t1 t2 : RadixTreeIndex, shape_of (nd t2 x) = shape_of (nd t1 x) → block_hashes (nd t2 x) = block_hashes (nd t1 x)) as Eb.
    { intros t2 t3 E. unfold shape_of in E. congruence. }
    rewrite (Eb (index e1) (index e2)) by (by apply meta_shape). rewrite (Eb t1 (index e1)) by apply A.
    rewrite (Eb t tl) in Hpre by (by apply meta_shape). exact Hpre.
  - intros x g Hx Hg HgG. assert (block_hashes (nd tl x) = block_hashes (nd t x)) as Eb by (rewrite Hnl; by destruct (decide _)).
    assert (P (nd tl x)) as Hi.
    { apply (rm_safe _ _ _ _ _ R x g); [by rewrite (me_shapes _ _ Ml), Erl|by rewrite Eb|done]. }
    rewrite Hnl in Hi. destruct (decide (prot = Some x)) as [Hx2|Hx2]; [|done]. exfalso. destruct (Hp x Hx2) as [_ Hl].
    apply HP in Hi. unfold relock in Hi. simpl in Hi. fold t in Hl. lia.
  - etrans; [exact Sc|]. destruct prot; [apply same_config_index|done].
Qed.

Lemma idle_unlocked x : idle x → lock_cnt x <= 0. Proof. by intros [? _]. Qed.

(** *** [make_room] *)

Lemma shrunk_refl P prot e : shrunk P prot e e [].
Proof. split; try done; [intros; rewrite elem_of_nil; naive_solver|by intros x g _ _ ?%elem_of_nil]. Qed.

Lemma make_room_ok num prot e hb hs :
  owns e hb hs → protectable e prot →
  (∃ e' G, make_room num prot e = (Ok tt, e') ∧ owns e' hb hs ∧ shrunk idle prot e e' G ∧ num_free_blocks e <= num_free_blocks e' ∧
     (num <= num_free_blocks e' ∨ ∀ x, tree (index e') x → prot ≠ Some x → evictable (nd (index e') x) = false)) ∨
  (∃ msg e' B, make_room num prot e = (Raise (ValueError msg), e') ∧ owns e' (hb ∪ list_to_set B) hs ∧ (∀ b, b ∈ B → b ∉ hb) ∧
     (∀ b, b ∈ B → ∃ g, maps (root_node (index e)) (shapes (index e)) g b) ∧ same_config e e').
Proof.
  intros Ho Hp. unfold make_room. rewrite M_bind_run. cbn [get_state]. unfold should_evict.
  destruct (_ || _) eqn:Es.
  2:{ left. exists e, []. split; [done|]. split; [done|]. split; [apply shrunk_refl|]. split; [lia|]. left.
      apply orb_false_iff in Es as [_ Es%Z.ltb_ge]. lia. }
  rewrite M_bind_run, lock_opt_run by done. set (el := with_index (locked_index e prot) e).
  rewrite M_bind_run. cbn [get_state]. rewrite M_bind_run. set (n := evict_block_num num el).
  pose proof (locked_owns prot e hb hs Ho) as Hol. fold el in Hol. pose proof (ow_wf _ _ _ Hol) as Hwfl.
  pose proof (ow_wf _ _ _ Ho) as Hwf. change (index el) with (locked_index e prot) in Hwfl.
  assert (num - num_free_blocks e <= n) as Hn.
  { unfold n, evict_block_num. change (num_free_blocks el) with (num_free_blocks e). lia. }
  destruct (Z.ltb_spec 0 n) as [Hpos|Hneg].
  - unfold evict_blocks. rewrite M_bind_run.
    destruct (evict_ok n (locked_index e prot) Hwfl) as [(B & h & t1 & G & Ev & R & _ & Hend)|(msg & t1 & G & B & Ev & R)];
      rewrite (on_index_run (evict n) el _ _ Ev).
    + destruct (settle_ok idle el t1 G B hb hs Hol R) as (e1 & E1 & Ho1 & A1 & Sc1 & Hf1). rewrite E1.
      destruct (unlock_back idle prot e e1 G B t1 hb hs idle_unlocked Hwf Hp R A1) as (e2 & E2 & Ho2 & Sh & Em & M2 & Hne); [etrans; [|exact Sc1]; by split|done|].
      left. exists e2, G. split; [done|]. split; [done|]. split; [done|]. unfold num_free_blocks in *. rewrite Em.
      change (mempool el) with (mempool e) in Hf1. pose proof (zlen_nonneg B). split; [lia|].
      destruct Hend as [Hz|Hall]; [left; lia|right]. intros x Hx Hxp. rewrite Hne by done.
      destruct (me_rest _ _ M2) as (_ & Er2 & _). rewrite (me_shapes _ _ M2), Er2 in Hx. apply (al_tree _ _ A1) in Hx. specialize (Hall x Hx).
      pose proof (al_use _ _ A1 x) as U. pose proof (al_shape _ _ A1 x) as Sx. unfold evictable, is_root, is_leaf, num_children in *.
      unfold shape_of in Sx. injection Sx as _ _ -> ->. by rewrite (in_use_eq _ _ U).
    + right. destruct (leak_owns idle el t1 G B hb hs Hol R) as (Ho1 & Hd & HB). exists msg, (with_index t1 el), B.
      split; [reflexivity|]. split; [exact Ho1|]. split; [exact Hd|]. split; [|by split]. intros b Hin. destruct (HB b Hin) as [g Hg]. exists g.
      change (index el) with (locked_index e prot) in Hg. destruct (locked_meta prot e) as [Em _ (_ & Er & _)]. by rewrite Em, Er in Hg.
  - cbn [mret M_ret].
    destruct (unlock_back idle prot e el [] [] (locked_index e prot) hb hs idle_unlocked Hwf Hp) as (e2 & E2 & Ho2 & Sh & Em & _); try done.
    + by apply removed_refl.
    + left. exists e2, []. unfold num_free_blocks in *. rewrite Em. split_and!; try done. left. change (mempool el) with (mempool e). lia.
Qed.
End engine_lemmas.

Section take.
Context `{!PrefixHash}.
Implicit Types (e : CacheEngine) (hb : gset Z) (hs : list Z).

(** Nothing but the protected node could still be evicted. *)
Definition exhausted (prot : option nid) e : Prop :=
  ∀ x, tree (index e) x → prot ≠ Some x → evictable (nd (index e) x) = false.

Lemma shrunk_mempool P prot e e' p G : shrunk P prot e e' G → Mempool.num_total_blocks p = Mempool.num_total_blocks (mempool e') →
  shrunk P prot e (with_mempool p e') G.
Proof.
  intros [S1 S2 S3 S4 S5 S6] Ht. split; try done. etrans; [exact S6|]. split; try done.
Qed.

Lemma take_ok num prot strict e hb hs :
  owns e hb hs → protectable e prot →
  (∃ blocks e' G, take num prot strict e = (Ok blocks, e') ∧ 0 <= num ∧ NoDup blocks ∧ (∀ b, b ∈ blocks → b ∉ hb) ∧
     owns e' (hb ∪ list_to_set blocks) hs ∧ shrunk idle prot e e' G ∧ zlen blocks <= num ∧
     (zlen blocks = num ∨ strict = false ∧ num_free_blocks e' = 0 ∧ exhausted prot e')) ∨
  (∃ msg e' G, take num prot strict e = (Raise (RuntimeError msg), e') ∧ strict = true ∧ owns e' hb hs ∧ shrunk idle prot e e' G ∧
     num_free_blocks e' < num ∧ exhausted prot e') ∨
  (∃ msg e' B, take num prot strict e = (Raise (ValueError msg), e') ∧ owns e' (hb ∪ list_to_set B) hs ∧ (∀ b, b ∈ B → b ∉ hb) ∧
     (∀ b, b ∈ B → ∃ g, maps (root_node (index e)) (shapes (index e)) g b) ∧ same_config e e').
Proof.
  intros Ho Hp. unfold take. rewrite M_bind_run.
  destruct (make_room_ok num prot e hb hs Ho Hp) as [(e1 & G & -> & Ho1 & Sh & Hfree & Henough)|(msg & e1 & B & -> & Ho1 & Hd & HB & Sc)].
  2:{ right. right. by exists msg, e1, B. }
  rewrite M_bind_run. cbn [get_state].
  destruct (strict && (num_free_blocks e1 <? num)) eqn:Es.
  { apply andb_true_iff in Es as [Es Hlt%Z.ltb_lt]. right. left. eexists _, e1, G. split; [done|]. split_and!; try done.
    destruct Henough; [lia|done]. }
  unfold allocate_blocks. destruct (Z.ltb_spec num 0) as [Hneg|Hpos].
  { right. right. destruct (Mempool.allocate_err (mempool e1) (Z.min num (num_free_blocks e1)) ltac:(lia)) as [msg ->].
    exists msg, e1, []. split; [done|]. split; [by rewrite list_to_set_nil, union_empty_r_L|].
    split; [by intros b ?%elem_of_nil|]. split; [by intros b ?%elem_of_nil|apply Sh]. }
  pose proof Ho1 as [Hwf1 Hb1 Hs1]. pose proof (Mempool.wf_num_free _ (bo_pool _ _ _ Hb1)) as Hnn.
  destruct (allocate_owner _ _ _ (Z.min num (num_free_blocks e1)) Hb1) as (ids & p' & E & HN & Hl & Hin & Hb' & Ht).
  { unfold num_free_blocks, Mempool.num_free_blocks. lia. }
  rewrite E. left. exists ids, (with_mempool p' e1), G. split; [done|]. split; [done|]. split; [done|].
  split; [intros b Hb Hh; by apply (bo_held _ _ _ Hb1) in Hh; [|apply Hin]|]. split; [by split|]. split; [by apply shrunk_mempool|]. split; [lia|].
  destruct (decide (num <= num_free_blocks e1)) as [Hle|Hgt]; [left; lia|right].
  apply andb_false_iff in Es as [->|Hx%Z.ltb_ge]; [|lia]. split; [done|]. split.
  - pose proof (bo_pool _ _ _ Hb') as Hwfp. unfold num_free_blocks, Mempool.num_free_blocks in *. simpl.
    destruct (Mempool.allocate_ok (mempool e1) (Z.min num (Mempool._num_free (mempool e1))) (bo_pool _ _ _ Hb1) ltac:(lia))
      as (ids' & p2 & E' & _ & _ & _ & _ & _ & _ & Hn'). assert (p2 = p') as -> by congruence. lia.
  - destruct Henough; [lia|done].
Qed.

(** ** The other calls *)

Lemma recycle_run e hb hs B :
  owns e hb hs → NoDup B → (∀ b, b ∈ B → b ∈ hb) →
  ∃ e', recycle B e = (Ok tt, e') ∧ owns e' (hb ∖ list_to_set B) hs ∧ alike (index e) (index e') ∧ same_config e e'.
Proof.
  intros [Hwf Hb Hs] HN HB. destruct (recycle_owner _ _ _ B Hb HN HB) as (p' & Ep & Hb' & Ht & _).
  unfold recycle. rewrite M_bind_run. unfold recycle_blocks. rewrite Ep.
  destruct (drain_unmounted_ok (with_mempool p' e) (hb ∖ list_to_set B) hs) as (e' & E & Ho & A & _ & Sc & _); [by split|].
  exists e'. split_and!; [done|done|done|]. etrans; [|exact Sc]. by split.
Qed.

Lemma rollback_run e hb hs n :
  owns e hb hs → tree (index e) n →
  ∃ B G e' t', rollback_unready_insert (Some n) e = (Ok (zlen B), e') ∧ owns e' hb hs ∧
    removed (λ x, unready x ∨ deletable x) (index e) t' G B ∧ alike t' (index e') ∧ same_config e e' ∧
    (negb (is_root (nd (index e) n)) && negb (is_ready (nd (index e) n)) && negb (0 <? lock_cnt (nd (index e) n)) &&
       negb (0 <? swa_lock_ref (nd (index e) n)) && is_leaf (nd (index e) n) = true → ¬ tree (index e') n).
Proof.
  intros Ho Hn. pose proof (ow_wf _ _ _ Ho) as Hwf.
  destruct (remove_unready_leaf_ok (index e) n Hwf Hn) as (B & G & t' & E & R & Hc).
  unfold rollback_unready_insert. rewrite M_bind_run, (on_index_run _ _ _ _ E).
  assert (∃ e', (match B with [] => mret tt | _ => recycle B end) (with_index t' e) = (Ok tt, e') ∧ owns e' hb hs ∧ alike t' (index e') ∧ same_config e e')
    as (e' & E' & Ho' & A & Sc).
  { destruct B as [|b B'].
    - exists (with_index t' e). split; [done|]. split; [|done]. pose proof Ho as [_ Hb Hs]. split; simpl; [apply R| |eapply slot_owner_keeps; [apply R|done]].
      pose proof (removed_blocks _ _ _ _ _ _ _ Hwf Hb R) as (_ & _ & _ & Hb'). by rewrite list_to_set_nil, union_empty_r_L in Hb'.
    - destruct (settle_ok _ e t' G (b :: B') hb hs Ho R) as (e' & E' & Ho' & A & Sc & _). by exists e'. }
  exists B, G, e', t'. split; [by rewrite M_bind_run, E'|]. split_and!; try done. intros Hcond. rewrite Hcond in Hc.
  intros Ht. apply (al_tree _ _ A) in Ht. by apply Hc.
Qed.

(** Mounting a held slot on a node that has none. *)
Lemma set_swa_owner clock t (sp : SWAHostPool.SWAHostPool) n slot hs :
  wf t → slot_owner t (Some sp) (slot :: hs) → tree t n → n ≠ root_node t → 0 <= slot → swa_host_slot (nd t n) < 0 →
  ∃ t', set_swa clock n slot t = (Ok tt, t') ∧ wf t' ∧ quiet t t' ∧ slot_owner t' (Some sp) hs.
Proof.
  intros Hwf (l & (L & HL & Hl) & Hp) Hn Hr Hslot Hno.
  destruct (set_swa_ok clock _ _ _ _ slot HL Hn Hr Hslot Hno) as (t' & L' & E & HL' & St & Hfr & _).
  pose proof (RadixWf.st_quiet _ _ _ _ St) as Q.
  assert (∀ x, tree t' x ↔ tree t x) as Hin by (intros x; by rewrite (q_shapes _ _ Q), (q_root _ _ Q)).
  assert (swa_ok (tree t') t' L') as HL2.
  { eapply swa_ok_weaken; [exact HL'|intros x; apply Hin|]. intros x Hx. apply Hin. by apply (so_dom _ _ _ HL'). }
  exists t'. split; [done|]. split; [eapply wf_quiet; [done|done|by exists L']|]. split; [done|].
  exists (slot :: l). split.
  - exists L'. split; [done|].
    assert (L' ≡ₚ n :: L) as HLL.
    { assert (n ∉ L) as Hnl. { intros Hin'. apply (mounted_iff _ _ _ HL) in Hin' as [_ Hs]. unfold has_swa in Hs. apply andb_true_iff in Hs as [_ Hs%Z.leb_le]. lia. }
      apply NoDup_Permutation; [by eapply mounted_NoDup|apply NoDup_cons; split; [done|by eapply mounted_NoDup]|].
      intros x. rewrite elem_of_cons, (mounted_iff _ _ _ HL2), (mounted_iff _ _ _ HL), Hin.
      pose proof (RadixWf.st_swa _ _ _ _ St x) as Ex. destruct (decide (x = n)) as [->|Hx].
      + unfold swa_of in Ex. injection Ex as E1 E2 _. unfold has_swa at 1. rewrite E1, E2. rewrite (proj2 (Z.leb_le _ _) Hslot). naive_solver.
      + apply swa_of_inv in Ex as (_ & _ & _ & ->). naive_solver. }
    rewrite Hfr, HLL, Hl. cbn [fmap list_fmap].
    assert (swa_host_slot (nd t' n) = slot) as ->.
    { pose proof (RadixWf.st_swa _ _ _ _ St n) as Ex. rewrite decide_True in Ex by done. unfold swa_of in Ex. by injection Ex. }
    rewrite <- Permutation_middle. apply perm_skip, Permutation_app_head, (reflexive_eq (R := Permutation)), list_fmap_ext.
    intros i x Hx. assert (x ∈ L) as HxL by (by eapply list_elem_of_lookup_2).
    pose proof (RadixWf.st_swa _ _ _ _ St x) as Ex. rewrite decide_False in Ex; [by apply swa_of_inv in Ex as (-> & _)|].
    intros ->. apply (mounted_iff _ _ _ HL) in HxL as [_ Hs]. unfold has_swa in Hs. apply andb_true_iff in Hs as [_ Hs%Z.leb_le]. lia.
  - rewrite <- Hp. solve_Permutation.
Qed.
End take.

Section swa.
Context `{!PrefixHash}.
Implicit Types (e : CacheEngine) (hb : gset Z) (hs : list Z).

(** Every snapshot still mounted is pinned. *)
Definition all_pinned (t : RadixTreeIndex) : Prop := ∀ x, tree t x → has_swa (nd t x) = true → 0 < swa_lock_ref (nd t x).

Lemma evict_slots_run e num hb hs sp :
  owns e hb hs → swa_pool e = Some sp →
  ∃ k t1 G B e', _evict_swa_slots num e = (Ok k, e') ∧ owns e' hb hs ∧ removed unlocked (index e) t1 G B ∧ alike t1 (index e') ∧
    same_config e e' ∧ 0 <= k <= Z.max num 0 ∧ (num <= k ∨ all_pinned t1) ∧
    ∃ sp', swa_pool e' = Some sp' ∧ SWAHostPool.num_free sp + k <= SWAHostPool.num_free sp'.
Proof.
  intros Ho Esp. pose proof (ow_wf _ _ _ Ho) as Hwf. unfold _evict_swa_slots. rewrite M_bind_run. cbn [get_state]. rewrite Esp.
  destruct (evict_swa_ok num (index e) Hwf) as (B & k & t1 & G & F & E & R & Hk & Hend & HF & Hz).
  rewrite M_bind_run, (on_index_run _ _ _ _ E).
  assert (∃ p', (match B with [] => mret tt | _ => recycle_blocks B end) (with_index t1 e) = (Ok tt, with_mempool p' (with_index t1 e)) ∧
     owns (with_mempool p' (with_index t1 e)) hb hs ∧ Mempool.num_total_blocks p' = Mempool.num_total_blocks (mempool e)) as (p' & Ep & Ho1 & Ht).
  { destruct (leak_owns _ e t1 G B hb hs Ho R) as ([Hwf1 Hb1 Hs1] & Hd & _). destruct B as [|b B'] eqn:EB.
    - exists (mempool e). split; [by destruct e|]. split; [|done]. rewrite list_to_set_nil, union_empty_r_L in Hb1. by split.
    - rewrite <- EB in *. destruct (recycle_owner _ _ _ B Hb1) as (p' & E2 & Hb2 & Ht & _).
      { by apply (removed_blocks _ _ _ _ _ _ _ Hwf (ow_blocks _ _ _ Ho) R). } { set_solver. }
      exists p'. split; [unfold recycle_blocks; by rewrite E2|]. split; [|done]. split; [done| |done].
      assert ((hb ∪ list_to_set B) ∖ list_to_set B = hb) as Eh; [|by rewrite Eh in Hb2].
      apply set_eq. intros x. rewrite elem_of_difference, elem_of_union, elem_of_list_to_set. specialize (Hd x). tauto. }
  rewrite M_bind_run, Ep. destruct (drain_unmounted_ok _ hb hs Ho1) as (e' & E' & Ho' & A & _ & Sc & Hsp). rewrite M_bind_run, E'.
  exists k, t1, G, B, e'. split; [done|]. split; [done|]. split; [done|]. split; [exact A|]. split; [etrans; [|exact Sc]; by split|].
  split; [done|]. split; [done|]. destruct (Hsp sp Esp) as (sp' & E2 & Hn). exists sp'. split; [done|]. rewrite Hn. simpl. rewrite HF, zlen_app.
  pose proof (zlen_nonneg (_freed_swa_slots (index e))). lia.
Qed.

Lemma slot_taken e sp sp' s hb hs :
  owns e hb hs → swa_pool e = Some sp → SWAHostPool.allocate sp = (Some s, sp') → slot_owner (index e) (Some sp') (s :: hs) →
  swa_allocate e = (Ok (Some s), with_swa_pool (Some sp') e) ∧ owns (with_swa_pool (Some sp') e) hb (s :: hs) ∧ same_config e (with_swa_pool (Some sp') e).
Proof.
  intros [Hwf Hb Hs] E1 E2 Ho. unfold swa_allocate. rewrite E1, E2. split; [done|]. split; [by split|]. by split.
Qed.

Lemma unlocked_le x : unlocked x → lock_cnt x <= 0. Proof. done. Qed.

(** Allocation of a slot never fails with an exception; it returns -1 only without a pool, or when every slot is
    held by a plan or pinned. *)
Lemma alloc_slot_ok prot e hb hs :
  owns e hb hs → protectable e prot →
  ∃ s e' G, _alloc_swa_slot prot e = (Ok s, e') ∧ shrunk unlocked prot e e' G ∧
    ((0 <= s ∧ owns e' hb (s :: hs)) ∨ (s = -1 ∧ owns e' hb hs ∧ (swa_pool e = None ∨ all_pinned (index e')))).
Proof.
  intros Ho Hp. pose proof (ow_wf _ _ _ Ho) as Hwf. unfold _alloc_swa_slot. rewrite M_bind_run. cbn [get_state].
  destruct (swa_pool e) as [sp|] eqn:Esp.
  2:{ exists (-1), e, []. split; [done|]. split; [apply shrunk_refl|]. right. by split_and!; [| |left]. }
  assert (slot_owner (index e) (Some sp) hs) as Hs by (rewrite <- Esp; apply Ho).
  destruct (allocate_slot_owner _ _ _ Hs) as [(s & sp' & E & Hs' & Hpos)|[E Hempty]].
  { destruct (slot_taken e sp sp' s hb hs Ho Esp E Hs') as (E2 & Ho2 & Sc). rewrite M_bind_run, E2.
    exists s, (with_swa_pool (Some sp') e), []. split; [done|]. split; [|by left]. destruct (shrunk_refl unlocked prot e). split; done. }
  assert (swa_allocate e = (Ok None, e)) as E2.
  { unfold swa_allocate. rewrite Esp, E. destruct e. simpl in *. by subst. }
  rewrite M_bind_run, E2, M_bind_run, lock_opt_run by done. set (el := with_index (locked_index e prot) e).
  pose proof (locked_owns prot e hb hs Ho) as Hol. fold el in Hol.
  destruct (evict_slots_run el 1 hb hs sp Hol Esp) as (k & t1 & G & B & e1 & Ev & Ho1 & R & A & Sc & Hk & Hend & sp1 & Esp1 & Hnf).
  destruct (unlock_back unlocked prot e e1 G B t1 hb hs unlocked_le Hwf Hp R A) as (e2 & Eu & Ho2 & Sh & Em & M2 & Hne); [etrans; [|exact Sc]; by split|done|].
  rewrite M_bind_run. unfold try_finally. rewrite Ev, Eu. rewrite M_bind_run.
  assert (swa_pool e2 = Some sp1) as Esp2.
  { destruct prot as [n|]; cbn [unlock_opt] in Eu; [|by injection Eu as <-]. unfold unlock, on_index in Eu.
    destruct (RadixTree.unlock n (index e1)) as [r t2]. by injection Eu as _ <-. }
  assert (slot_owner (index e2) (Some sp1) hs) as Hs2 by (rewrite <- Esp2; apply Ho2).
  destruct (allocate_slot_owner _ _ _ Hs2) as [(s & sp2 & E3 & Hs3 & Hpos)|[E3 Hempty3]].
  - destruct (slot_taken e2 sp1 sp2 s hb hs Ho2 Esp2 E3 Hs3) as (E4 & Ho4 & Sc4). rewrite E4.
    exists s, (with_swa_pool (Some sp2) e2), G. split; [done|]. split; [|by left]. destruct Sh as [S1 S2 S3 S4 S5 S6]. split; try done. by trans e2.
  - assert (swa_allocate e2 = (Ok None, e2)) as ->.
    { unfold swa_allocate. rewrite Esp2, E3. clear -Esp2. destruct e2. simpl in *. by subst. }
    exists (-1), e2, G. split; [done|]. split; [done|]. right. split; [done|]. split; [done|]. right.
    assert (k <= 0) as Hk0.
    { unfold SWAHostPool.num_free in Hnf. rewrite Hempty, Hempty3 in Hnf. unfold zlen in Hnf. simpl in Hnf. lia. }
    destruct Hend as [?|Hall]; [lia|]. intros x Hx Hsx.
    destruct (me_rest _ _ M2) as (_ & Er2 & _). rewrite (me_shapes _ _ M2), Er2 in Hx. apply (al_tree _ _ A) in Hx.
    assert (swa_of (nd (index e2) x) = swa_of (nd t1 x)) as Esw.
    { destruct (swa_links_inv _ _ (me_links _ _ M2 x)) as [-> _]. apply (al_swa _ _ A). }
    assert (has_swa (nd t1 x) = true) as Hh by (by apply swa_of_inv in Esw as (_ & _ & _ & <-)).
    specialize (Hall x Hx Hh). pose proof (sh_use _ _ _ _ _ Sh x) as U2. pose proof (al_use _ _ A x) as U1.
    pose proof (st_use _ _ (rm_stays _ _ _ _ _ R) x) as U0. change (index el) with (locked_index e prot) in U0.
    rewrite (locked_nd prot e x Hp Hwf) in U0. unfold use_of in *. destruct (decide (prot = Some x)); simpl in *; congruence.
Qed.
End swa.

Section calls.
Context `{!PrefixHash} (XXH64 : list Z → Z) (clock : nat → float).
Implicit Types (e : CacheEngine) (hb : gset Z) (hs : list Z).

Lemma owns_index e t hb hs :
  owns e hb hs → wf t → (∀ g b, maps (root_node t) (shapes t) g b ↔ maps (root_node (index e)) (shapes (index e)) g b) →
  keeps_slots (index e) t → owns (with_index t e) hb hs.
Proof.
  intros [Hwf Hb Hs] Hwf' Hm Hk. split; simpl; [done|by eapply block_owner_same|by eapply slot_owner_keeps].
Qed.

Lemma steady_owns e t hb hs : owns e hb hs → wf t → steady (index e) t → owns (with_index t e) hb hs.
Proof.
  intros Ho Hwf' [Q Sw Fr _]. apply owns_index; try done.
  - by rewrite (q_shapes _ _ Q), (q_root _ _ Q).
  - apply keeps_slots_same; [apply Ho|done|done| |]; intros x; rewrite (q_shapes _ _ Q), (q_root _ _ Q); [done|by left].
Qed.

Lemma meta_owns e t hb hs : owns e hb hs → meta (index e) t → owns (with_index t e) hb hs.
Proof.
  intros Ho Hm. pose proof (ow_wf _ _ _ Ho) as Hwf. apply owns_index; [done|by eapply wf_meta| |by apply meta_slots].
  intros g b. destruct Hm as [-> _ (_ & -> & _)]. done.
Qed.

Lemma meta_op_owns {A} (m : Op A) `{!MetaOp m} e hb hs : owns e hb hs → owns (on_index m e).2 hb hs.
Proof. intros Ho. unfold on_index. pose proof (meta_op (index e)) as Hm. destruct (m (index e)) as [r t]. by apply meta_owns. Qed.

Lemma match_run e hb hs s :
  owns e hb hs → seq_ok XXH64 s →
  ∃ r t, match_ XXH64 clock s e = (Ok r, with_index t e) ∧ owns (with_index t e) hb hs ∧ steady (index e) t ∧
    match_spec (index e) (hashes_of XXH64 s) r.
Proof.
  intros Ho Hs. destruct (match_prefix_ok XXH64 clock (index e) s true (ow_wf _ _ _ Ho) Hs) as (r & t & E & Hwf & S & M).
  exists r, t. split; [unfold match_; by apply on_index_run|]. split; [by apply steady_owns|]. done.
Qed.

Lemma insert_run e hb hs s pbs nib ready mr :
  owns e hb hs → seq_ok XXH64 s → (∀ r n, mr = Some r → last_node r = Some n → is_Some (store (index e) !! n)) →
  NoDup pbs → (∀ b, b ∈ pbs → b ∈ hb) →
  let '(r, e') := insert XXH64 clock s pbs nib ready mr e in
  match r with
  | Ok (Some w) => owns e' (hb ∖ list_to_set pbs) hs ∧
      ∃ t1 k, steady (index e) t1 ∧ inserted t1 (index e') (new_hashes XXH64 s k nib) pbs ready w
  | _ => owns e' hb hs ∧ steady (index e) (index e')
  end.
Proof.
  intros Ho Hs Hl HN HB. unfold insert, on_index.
  destruct (insert_outcome XXH64 clock (index e) s pbs nib ready mr (ow_wf _ _ _ Ho) Hs Hl) as (t1 & Hwf1 & S1 & Hout).
  pose proof (steady_owns e t1 hb hs Ho Hwf1 S1) as Ho1.
  destruct (RadixTree.insert XXH64 clock s pbs nib ready mr (index e)) as [r t2]; simpl in Hout.
  destruct Hout as [[-> Hno]|(w & k & -> & _ & Hin)].
  - destruct r as [[w|]|x]; [by destruct (Hno w)|done|done].
  - split; [|by exists t1, k]. destruct Ho1 as [_ Hb1 Hs1]. simpl in *. split; simpl; [apply Hin| |].
    + by eapply insert_owner.
    + eapply slot_owner_keeps; [apply Hin|done].
Qed.

Lemma pool_reset_owner (p : Mempool.Mempool) : Mempool.wf p →
  Mempool.wf (Mempool.reset p) ∧ Mempool.free (Mempool.reset p) = Mempool.all_ids (Mempool.num_total_blocks p).
Proof. intros Hp. apply Mempool.fresh_wf, Hp. Qed.

(** An index without entries and slots next to fresh pools. *)
Lemma fresh_owner t n sp :
  0 < n → wf t → (∀ g b, ¬ maps (root_node t) (shapes t) g b) → slots_are t [] →
  block_owner t (Mempool.fresh n) ∅ ∧ slot_owner t (SWAHostPool.init <$> sp) [].
Proof.
  intros Hn Hwf Hno Hsl. destruct (Mempool.fresh_wf n Hn) as [Hp Hf]. split.
  - split; rewrite ?Hf; [done| | | |].
    + intros g g' b Hg. by apply Hno in Hg.
    + intros g b Hg. by apply Hno in Hg.
    + split; set_solver.
    + intros b Hb. by left.
  - destruct sp as [k|]; [|done]. exists []. split; [done|]. simpl. rewrite app_nil_r. unfold SWAHostPool.all_slots. by rewrite reverse_Permutation.
Qed.

Lemma empty_tree_slots t : wf t → (∀ x, tree t x → x = root_node t) → _freed_swa_slots t = [] → slots_are t [].
Proof.
  intros Hwf Hroot Hfr. destruct (wf_swa _ Hwf) as [L HL]. exists L. split; [done|]. rewrite Hfr.
  destruct L as [|x L]; [done|]. exfalso. destruct (so_dom _ _ _ HL x) as [Hx Hne]; [left|]. by apply Hne, Hroot.
Qed.

(** No entry means no node besides the root. *)
Lemma no_entry_root t : wf t → (∀ g b r, ¬ entry t g b r) → ∀ x, tree t x → x = root_node t.
Proof.
  intros Hwf Hno x Hx. destruct (decide (x = root_node t)) as [|Hne]; [done|exfalso].
  destruct (tree_parent _ _ Hwf Hx Hne) as (_ & _ & _ & _ & Hhd & _).
  assert (block_hashes (nd t x) !! 0%nat = Some (head_hash (nd t x))) as H0 by (by destruct (block_hashes (nd t x))).
  destruct (placed_maps _ _ _ _ _ _ (wf_core _ Hwf) Hx (tree_shape _ _ Hwf Hx) H0) as [b Hb].
  apply entry_maps in Hb as [r Hr]. by apply Hno in Hr.
Qed.

Lemma reset_run e hb hs : owns e hb hs → ∃ e', reset clock e = (Ok tt, e') ∧ owns e' ∅ [] ∧ same_config e e' ∧ (∀ g b r, ¬ entry (index e') g b r).
Proof.
  intros [Hwf Hb Hs]. destruct (reset_wf clock (index e) Hwf) as (t' & E & Hwf' & Hno & Hfr).
  unfold reset. rewrite M_bind_run, (on_index_run _ _ _ _ E). eexists. split; [reflexivity|]. 
  assert (∀ g b, ¬ maps (root_node t') (shapes t') g b) as Hnm by (intros g b [r Hr]%entry_maps; by apply Hno in Hr).
  assert (slots_are t' []) as Hsl by (apply empty_tree_slots; [done|by apply no_entry_root|done]).
  destruct (fresh_owner t' (Mempool.num_total_blocks (mempool e)) (SWAHostPool._num_slots <$> swa_pool e) (Mempool.wf_total _ (bo_pool _ _ _ Hb)) Hwf' Hnm Hsl) as [H1 H2].
  split; [|split; [|done]].
  - split; simpl; [done|done|]. by destruct (swa_pool e).
  - split; simpl; try done. destruct (swa_pool e); simpl; split; intros [? ?]; by eexists.
Qed.

Lemma init_owns dt n tpb ratio reward thr policy prot cfg e :
  CacheEngine_init clock dt n tpb ratio reward thr policy prot cfg = Ok e → owns e ∅ [].
Proof.
  unfold CacheEngine_init. destruct (Z.leb_spec n 0); [done|]. destruct (negb _); [done|]. destruct (negb _); [done|]. destruct (prot <? 1); [done|].
  unfold Mempool.init. rewrite (proj2 (Z.ltb_lt 0 n)) by done. simpl. intros [= <-].
  set (t := RadixTreeIndex_init clock _ _ _ _ _).
  assert (wf t) as Hwf by apply radix_init_wf.
  assert (∀ x, tree t x → x = root_node t) as Hroot.
  { intros x. eapply in_tree_empty; [unfold shapes; simpl; by rewrite fmap_insert, lookup_insert_eq|done]. }
  assert (∀ g b, ¬ maps (root_node t) (shapes t) g b) as Hno.
  { intros g b (x & s & i & Hx & Hs & Hi & _). apply Hroot in Hx as ->. unfold shapes in Hs. simpl in Hs.
    rewrite fmap_insert, lookup_insert_eq in Hs. by injection Hs as <-. }
  assert (slots_are t []) as Hsl by (apply empty_tree_slots; done).
  destruct (fresh_owner t n (num_slots <$> (cfg ≫= for_cache_tier dt)) ltac:(lia) Hwf Hno Hsl) as [H1 H2].
  split; simpl; [done|done|]. by destruct (cfg ≫= for_cache_tier dt).
Qed.
End calls.

(** ** Histories of an engine *)

Section steps.
Context `{!PrefixHash} (XXH64 : list Z → Z) (clock : nat → float).

(** A block that left the index and reached neither the pool nor the caller: an eviction was cut short. *)
Definition lost (e e' : CacheEngine) (b : Z) : Prop :=
  (∃ g, maps (root_node (index e)) (shapes (index e)) g b) ∧ ¬ (∃ g, maps (root_node (index e')) (shapes (index e')) g b) ∧
  b ∉ Mempool.free (mempool e').

(** An engine with the blocks and slots its clients hold. *)
Definition Held : Type := CacheEngine * gset Z * list Z.

(** One call, with the arguments its clients may pass: blocks and slots they hold, nodes of the tree. *)
Inductive engine_step : Held → Held → Prop :=
  | es_match e hb hs s : seq_ok XXH64 s → engine_step (e, hb, hs) ((match_ XXH64 clock s e).2, hb, hs)
  | es_insert e hb hs s pbs nib ready mr r e' :
      seq_ok XXH64 s → (∀ r n, mr = Some r → last_node r = Some n → is_Some (store (index e) !! n)) →
      NoDup pbs → (∀ b, b ∈ pbs → b ∈ hb) →
      insert XXH64 clock s pbs nib ready mr e = (r, e') →
      engine_step (e, hb, hs) (e', match r with Ok (Some _) => hb ∖ list_to_set pbs | _ => hb end, hs)
  | es_take e hb hs num prot strict blocks e' :
      protectable e prot → take num prot strict e = (Ok blocks, e') → engine_step (e, hb, hs) (e', hb ∪ list_to_set blocks, hs)
  | es_take_fails e hb hs num prot strict x e' (gone : gset Z) :
      protectable e prot → take num prot strict e = (Raise x, e') → (∀ b, b ∈ gone ↔ lost e e' b) →
      engine_step (e, hb, hs) (e', hb ∪ gone, hs)
  | es_recycle e hb hs B : NoDup B → (∀ b, b ∈ B → b ∈ hb) → engine_step (e, hb, hs) ((recycle B e).2, hb ∖ list_to_set B, hs)
  | es_rollback e hb hs n : tree (index e) n → engine_step (e, hb, hs) ((rollback_unready_insert (Some n) e).2, hb, hs)
  | es_alloc_slot e hb hs prot s e' :
      protectable e prot → _alloc_swa_slot prot e = (Ok s, e') → engine_step (e, hb, hs) (e', hb, if 0 <=? s then s :: hs else hs)
  | es_evict_slots e hb hs num : engine_step (e, hb, hs) ((_evict_swa_slots num e).2, hb, hs)
  | es_mount e hb hs n s :
      is_Some (swa_pool e) → tree (index e) n → n ≠ root_node (index e) → swa_host_slot (nd (index e) n) < 0 → 0 <= s →
      engine_step (e, hb, s :: hs) ((on_index (set_swa clock n s) e).2, hb, hs)
  | es_free_slot e hb hs s hs' : is_Some (swa_pool e) → hs ≡ₚ s :: hs' → engine_step (e, hb, hs) ((_free_swa_slot s e).2, hb, hs')
  | es_lock e hb hs n : engine_step (e, hb, hs) ((lock_node n e).2, hb, hs)
  | es_unlock e hb hs n : engine_step (e, hb, hs) ((unlock n e).2, hb, hs)
  | es_pin e hb hs n : engine_step (e, hb, hs) ((_pin_swa_node n e).2, hb, hs)
  | es_set_ready e hb hs n b len : engine_step (e, hb, hs) ((set_ready n b len e).2, hb, hs)
  | es_reset e hb hs : engine_step (e, hb, hs) ((reset clock e).2, ∅, []).

Lemma lost_exact e e' hb hs (B gone : gset Z) :
  owns e hb hs → owns e' (hb ∪ B) hs → B ## hb → same_config e e' →
  (∀ b, b ∈ B → ∃ g, maps (root_node (index e)) (shapes (index e)) g b) → (∀ b, b ∈ gone ↔ lost e e' b) → gone = B.
Proof.
  intros Ho Ho' Hd Sc HB Hg. destruct (ow_blocks _ _ _ Ho) as [_ _ C1 _ _], (ow_blocks _ _ _ Ho') as [_ _ C2 [C3 C3'] C4].
  apply set_eq. intros b. rewrite Hg. split.
  - intros ((g & Hgb) & Hno & Hnf). destruct (C1 g b Hgb) as (Hr & _ & Hnh). rewrite <- (sc_total _ _ Sc) in Hr.
    destruct (C4 b Hr) as [?|[Hx|?]]; [done| |done]. apply elem_of_union in Hx as [?|?]; done.
  - intros Hb. split; [by apply HB|]. split.
    + intros [g Hgb]. destruct (C2 g b Hgb) as (_ & _ & Hn). set_solver.
    + intros Hf. apply (C3' b Hf). set_solver.
Qed.

Lemma take_fails_owns num prot strict e hb hs x e' gone :
  owns e hb hs → protectable e prot → take num prot strict e = (Raise x, e') → (∀ b, b ∈ gone ↔ lost e e' b) → owns e' (hb ∪ gone) hs.
Proof.
  intros Ho Hp Ex Hg.
  assert (∃ B : gset Z, owns e' (hb ∪ B) hs ∧ B ## hb ∧ same_config e e' ∧
    ∀ b, b ∈ B → ∃ g, maps (root_node (index e)) (shapes (index e)) g b) as (B & Ho' & Hd & Sc & HB).
  { destruct (take_ok num prot strict e hb hs Ho Hp) as [(bl & e2 & G & E & _)|[(msg & e2 & G & E & _ & Ho' & Sh & _)|(msg & e2 & B & E & Ho' & Hd & HB & Sc)]];
      rewrite Ex in E; simplify_eq.
    - exists ∅. rewrite union_empty_r_L. split; [done|]. split; [set_solver|]. split; [apply Sh|set_solver].
    - exists (list_to_set B). split; [done|]. split; [set_solver|]. split; [done|]. intros b Hb%elem_of_list_to_set. by apply HB. }
  by rewrite (lost_exact e e' hb hs B gone Ho Ho' Hd Sc HB Hg).
Qed.

Lemma engine_step_owns s s' : engine_step s s' → owns s.1.1 s.1.2 s.2 → owns s'.1.1 s'.1.2 s'.2.
Proof.
  destruct 1 as [e hb hs s Hs|e hb hs s pbs nib ready mr r e' Hs Hl HN HB E|e hb hs num prot strict bl e' Hp E|e hb hs num prot strict x e' gone Hp E Hg
    |e hb hs B HN HB|e hb hs n Hn|e hb hs prot s e' Hp E|e hb hs num|e hb hs n s [sp Esp] Hn Hr Hno Hs|e hb hs s hs' [sp Esp] Hp|e hb hs n|e hb hs n|e hb hs n|e hb hs n b len|e hb hs];
    intros Ho; cbn [fst snd] in *.
  - destruct (match_run XXH64 clock e hb hs s Ho Hs) as (r & t & -> & Ho' & _). done.
  - pose proof (insert_run XXH64 clock e hb hs s pbs nib ready mr Ho Hs Hl HN HB) as Hi. rewrite E in Hi. destruct r as [[w|]|x]; apply Hi.
  - destruct (take_ok num prot strict e hb hs Ho Hp) as [(bl' & e2 & G & E' & _ & _ & _ & Ho' & _)|[(msg & e2 & G & E' & _)|(msg & e2 & B & E' & _)]];
      rewrite E in E'; simplify_eq; done.
  - by eapply take_fails_owns.
  - by destruct (recycle_run e hb hs B Ho HN HB) as (e' & -> & Ho' & _).
  - by destruct (rollback_run e hb hs n Ho Hn) as (B & G & e' & t' & -> & Ho' & _).
  - destruct (alloc_slot_ok prot e hb hs Ho Hp) as (s' & e2 & G & E' & _ & Hc). rewrite E in E'. injection E' as -> ->.
    destruct Hc as [[Hz Ho']|(-> & Ho' & _)]; [|done]. by rewrite (proj2 (Z.leb_le 0 s') Hz).
  - destruct (swa_pool e) as [sp|] eqn:Esp.
    + by destruct (evict_slots_run e num hb hs sp Ho Esp) as (k & t1 & G & B & e' & -> & Ho' & _).
    + unfold _evict_swa_slots. rewrite M_bind_run. cbn [get_state]. by rewrite Esp.
  - pose proof Ho as [Hwf Hb Hsl]. rewrite Esp in Hsl.
    destruct (set_swa_owner clock (index e) sp n s hs Hwf Hsl Hn Hr Hs Hno) as (t' & E & Hwf' & Q & Ho'). rewrite (on_index_run _ _ _ _ E). simpl.
    split; simpl; [done| |by rewrite Esp]. eapply block_owner_same; [|done]. by rewrite (q_shapes _ _ Q), (q_root _ _ Q).
  - pose proof Ho as [Hwf Hb Hsl]. rewrite Esp in Hsl. destruct (free_slot_owner _ sp hs hs' s Hsl Hp) as (sp' & E & Ho' & _).
    unfold _free_swa_slot. rewrite Esp, E. by split.
  - by apply (meta_op_owns (lock n)).
  - by apply (meta_op_owns (RadixTree.unlock n)).
  - unfold _pin_swa_node. rewrite M_bind_run. pose proof (meta_op_owns (lock n) e hb hs Ho) as H1.
    fold (lock_node n) in H1. destruct (lock_node n e) as [[[]|x] e1]; [|done]. simpl in H1. unfold on_exception.
    pose proof (meta_op_owns (inc_swa_lock_ref n) e1 hb hs H1) as H2. destruct (on_index (inc_swa_lock_ref n) e1) as [[[]|x] e2]; [done|]. simpl in H2.
    pose proof (meta_op_owns (RadixTree.unlock n) e2 hb hs H2) as H3. fold (unlock n) in H3. by destruct (unlock n e2) as [[[]|y] e3].
  - by apply (meta_op_owns (RadixTree.set_ready n b len)).
  - by destruct (reset_run clock e hb hs Ho) as (e' & -> & Ho' & _).
Qed.
End steps.

(** ** Construction *)

(** The slots the SWA configuration gives a tier, when it gives it any. *)
Inductive tier_slots : DeviceType → SWAPoolConfig → Z → Prop :=
| ts_cpu c : enabled c = true → tier_slots CPU c (num_slots c)
| ts_ssd c : enabled c = true → 0 < num_ssd_slots c → tier_slots SSD c (num_ssd_slots c)
| ts_remote c : enabled c = true → 0 < num_remote_slots c → tier_slots REMOTE c (num_remote_slots c).

Lemma tier_slots_some dt c c' : for_cache_tier dt c = Some c' → tier_slots dt c (num_slots c').
Proof.
  unfold for_cache_tier. destruct (enabled c) eqn:Ee; [cbn [negb]|done].
  destruct dt; try done; [by intros [= <-]; constructor|..]; (case_match eqn:El; [|done]); intros [= <-]; apply Z.ltb_lt in El; by constructor.
Qed.

Lemma tier_slots_none dt c s : for_cache_tier dt c = None → ¬ tier_slots dt c s.
Proof.
  unfold for_cache_tier. intros E H. revert E. destruct H as [c He|c He Hs|c He Hs]; rewrite He; [done|..]; cbn [negb];
    by rewrite (proj2 (Z.ltb_lt 0 _)).
Qed.

Lemma is_power_of_two_spec n : is_power_of_two n = true ↔ ∃ k, 0 <= k ∧ n = 2 ^ k.
Proof.
  unfold is_power_of_two. rewrite andb_true_iff, Z.ltb_lt, Z.eqb_eq. split.
  - intros [Hn H]. pose proof (Z.log2_nonneg n) as Hk. exists (Z.log2 n). split; [done|].
    destruct (Z.log2_spec n Hn) as [Hlo _]. destruct (decide (n = 2 ^ Z.log2 n)) as [|Hne]; [done|exfalso].
    assert (Z.log2 (n - 1) = Z.log2 n) as Hl.
    { apply Z.log2_unique; [done|]. pose proof (Z.log2_spec n Hn). lia. }
    assert (0 < 2 ^ Z.log2 n) by (by apply Z.pow_pos_nonneg).
    pose proof (Z.bit_log2 n Hn) as B1. pose proof (Z.bit_log2 (n - 1) ltac:(lia)) as B2. rewrite Hl in B2.
    pose proof (Z.land_spec n (n - 1) (Z.log2 n)) as B. by rewrite H, B1, B2, Z.bits_0 in B.
  - intros (k & Hk & ->). split; [by apply Z.pow_pos_nonneg|].
    rewrite Z.sub_1_r, <- Z.ones_equiv, Z.land_ones by done. apply Z_mod_same_full.
Qed.

Section construction.
Context `{!PrefixHash}.

(** What the guards let through, and the engine they build. *)
Lemma accepted_init clock dt n tpb ratio reward thr policy prot cfg e :
  CacheEngine_init clock dt n tpb ratio reward thr policy prot cfg = Ok e →
  0 < n ∧ is_power_of_two tpb = true ∧ policy ∈ _VALID_EVICTION_POLICIES ∧ 1 <= prot ∧
  e = mkEngine dt (RadixTreeIndex_init clock (Z.to_nat tpb) 1000000 reward policy prot) (Mempool.fresh n) n ratio thr
        ((λ c, SWAHostPool.init (num_slots c)) <$> (cfg ≫= for_cache_tier dt)) (cfg ≫= for_cache_tier dt).
Proof.
  unfold CacheEngine_init. destruct (Z.leb_spec n 0); [done|]. destruct (is_power_of_two tpb); [|done]. cbn [negb].
  destruct (bool_decide _) eqn:Ep; [|done]. apply bool_decide_eq_true in Ep. cbn [negb]. destruct (Z.ltb_spec prot 1); [done|].
  unfold Mempool.init. rewrite (proj2 (Z.ltb_lt 0 n)) by done. by intros [= <-].
Qed.

Lemma init_raise clock dt n tpb ratio reward thr policy prot cfg x :
  CacheEngine_init clock dt n tpb ratio reward thr policy prot cfg = Raise x →
  ¬ (0 < n ∧ is_power_of_two tpb = true ∧ policy ∈ _VALID_EVICTION_POLICIES ∧ 1 <= prot) ∧ ∃ msg, x = ValueError msg.
Proof.
  unfold CacheEngine_init. intros E.
  destruct (Z.leb_spec n 0); [injection E as <-; split; [lia|by eexists]|].
  destruct (is_power_of_two tpb); cbn [negb] in E; [|injection E as <-; split; [naive_solver|by eexists]].
  destruct (bool_decide _) eqn:Ep; cbn [negb] in E; [|injection E as <-; apply bool_decide_eq_false in Ep; split; [naive_solver|by eexists]].
  destruct (Z.ltb_spec prot 1); [injection E as <-; split; [lia|by eexists]|].
  unfold Mempool.init in E. by rewrite (proj2 (Z.ltb_lt 0 n)) in E.
Qed.

Lemma init_no_entry clock dt n tpb ratio reward thr policy prot cfg e :
  CacheEngine_init clock dt n tpb ratio reward thr policy prot cfg = Ok e → ∀ g b r, ¬ entry (index e) g b r.
Proof.
  intros (_ & _ & _ & _ & ->)%accepted_init g b r (x & s & i & Hx & Hs & Hi & _)%(λ H, proj2 (entry_maps _ _ _) (ex_intro _ r H)).
  cbn [index] in *. eapply in_tree_empty in Hx as ->; [|unfold shapes; simpl; by rewrite fmap_insert, lookup_insert_eq|done].
  unfold shapes in Hs. simpl in Hs. rewrite fmap_insert, lookup_insert_eq in Hs. by injection Hs as <-.
Qed.
End construction.

(** ** Concrete instances *)

(** A CPU tier of four blocks of one token and one SWA slot. *)
Definition toy_config : SWAPoolConfig := mkSWAPoolConfig true 1 0 0.
Definition toy_engine : CacheEngine :=
  match CacheEngine_init toy_clock CPU 4 1 (f_of_Z 0) 0 (f_of_Z 1) "lru" 2 (Some toy_config) with
  | Ok e => e
  | Raise _ => mkEngine CPU toy_index0 (Mempool.fresh 0) 0 (f_of_Z 0) (f_of_Z 0) None None
  end.
Definition toy_taken : CacheEngine := (take 3 None true toy_engine).2.
Definition toy_stored : CacheEngine := (insert toy_digest toy_clock (toy_seq [7; 8; 9]) [0; 1; 2] (-1) true None toy_taken).2.

Lemma toy_engine_init : CacheEngine_init toy_clock CPU 4 1 (f_of_Z 0) 0 (f_of_Z 1) "lru" 2 (Some toy_config) = Ok toy_engine.
Proof. by vm_compute. Qed.

Lemma toy_engine_owns : @owns toy_ph toy_engine ∅ [].
Proof. exact (@init_owns toy_ph toy_clock _ _ _ _ _ _ _ _ _ _ toy_engine_init). Qed.

Lemma toy_step_take : @engine_step toy_ph toy_digest toy_clock (toy_engine, ∅, []) (toy_taken, ∅ ∪ list_to_set [0; 1; 2], []).
Proof. apply (es_take _ _ _ _ _ 3 None true [0; 1; 2]); [by intros n|]. by vm_compute. Qed.

Lemma toy_step_store :
  @engine_step toy_ph toy_digest toy_clock (toy_taken, ∅ ∪ list_to_set [0; 1; 2], []) (toy_stored, (∅ ∪ list_to_set [0; 1; 2]) ∖ list_to_set [0; 1; 2], []).
Proof.
  apply (es_insert toy_digest toy_clock toy_taken (∅ ∪ list_to_set [0; 1; 2]) [] (toy_seq [7; 8; 9]) [0; 1; 2] (-1) true None (Ok (Some 3%nat))).
  - apply toy_seq_ok.
  - done.
  - apply (bool_decide_unpack _). by vm_compute.
  - intros b Hb. set_solver.
  - by vm_compute.
Qed.

Lemma toy_stored_owns : @owns toy_ph toy_stored ((∅ ∪ list_to_set [0; 1; 2]) ∖ list_to_set [0; 1; 2]) [].
Proof.
  apply (@engine_step_owns toy_ph _ _ _ _ toy_step_store), (@engine_step_owns toy_ph _ _ _ _ toy_step_take), toy_engine_owns.
Qed.

(** ** The properties *)

Section properties.
Context `{!PrefixHash}.

(** [C1] Ownership.  Start an engine and make any calls, with any arguments its clients may pass, failing calls
    included: at every moment each block of the tier is in exactly one place, free in the pool, held by a client that
    got it from [take] (or lost by an interrupted eviction), or cached under exactly one hash; and each SWA slot is, exactly once,
    free, held, or in the index.  So no block or slot is ever handed out twice, cached twice, or leaked by a completed call. *)
Theorem engine_ownership XXH64 clock dt n tpb ratio reward thr policy prot cfg e0 e hb hs :
  CacheEngine_init clock dt n tpb ratio reward thr policy prot cfg = Ok e0 →
  rtc (engine_step XXH64 clock) (e0, ∅, []) (e, hb, hs) →
  wf (index e) ∧ Mempool.wf (mempool e) ∧
  (∀ b, 0 <= b < Mempool.num_total_blocks (mempool e) →
     let free := b ∈ Mempool.free (mempool e) in let held := b ∈ hb in let cached := ∃ h r, entry (index e) h b r in
     (free ∧ ¬ held ∧ ¬ cached) ∨ (¬ free ∧ held ∧ ¬ cached) ∨ (¬ free ∧ ¬ held ∧ cached)) ∧
  (∀ h h' b r r', entry (index e) h b r → entry (index e) h' b r' → h = h') ∧
  (∀ sp, swa_pool e = Some sp → ∃ l, slots_are (index e) l ∧ l ++ SWAHostPool._free_slots sp ++ hs ≡ₚ seqZ 0 (SWAHostPool._num_slots sp)).
Proof.
  intros Hi Hr. apply init_owns in Hi.
  assert (owns e hb hs) as [Hwf [B1 B2 B3 [B4 B4'] B5] Hs].
  { change (owns (e, hb, hs).1.1 (e, hb, hs).1.2 (e, hb, hs).2). remember (e0, ∅ : gset Z, [] : list Z) as s0 eqn:E0.
    assert (owns s0.1.1 s0.1.2 s0.2) as H0 by (by subst). clear E0 Hi. induction Hr as [|s s1 s2 Hst _ IH]; [done|].
    by apply IH, (engine_step_owns XXH64 clock s). }
  split; [done|]. split; [done|]. split; [|split].
  - intros b Hb%Mempool.elem_of_all_ids free held cached.
    assert (cached ↔ ∃ g, maps (root_node (index e)) (shapes (index e)) g b) as Hc.
    { unfold cached. split.
      - intros (g & r & Hg). exists g. apply entry_maps. by exists r.
      - intros (g & [r Hg]%entry_maps). by exists g, r. }
    assert (cached → ¬ free ∧ ¬ held) as Hcached by (intros (g & Hg)%Hc; apply (B3 g b Hg)).
    assert (free → ¬ held) as Hfree by (intros Hf Hh; exact (B4' b Hf Hh)).
    specialize (B5 b Hb). destruct (decide (b ∈ Mempool.free (mempool e))), (decide (b ∈ hb)); unfold free, held in *; tauto.
  - intros h h' b r r' H1 H2. apply (B2 h h' b); apply entry_maps; by eexists.
  - intros sp Esp. by rewrite Esp in Hs.
Qed.

(** [C31] [take] hands out free blocks and nothing else.  It returns distinct blocks that nobody held, exactly as many as
    asked for, or in the non-strict mode all that can be had (the pool is empty then and nothing evictable is left but the protected node);
    the strict mode raises [RuntimeError] in that case and keeps every block accounted for.  Entries disappear only from
    unlocked, ready nodes, and never from the protected node, whose lock count is restored.  The remaining failure is the [ValueError] of a
    negative count or of an interrupted eviction. *)
Theorem take_spec num prot strict e hb hs :
  owns e hb hs → protectable e prot →
  let '(r, e') := take num prot strict e in
  match r with
  | Ok blocks =>
      0 <= num ∧ NoDup blocks ∧ (∀ b, b ∈ blocks → b ∉ hb) ∧ owns e' (hb ∪ list_to_set blocks) hs ∧ (∃ G, shrunk idle prot e e' G) ∧
      zlen blocks <= num ∧ (zlen blocks = num ∨ strict = false ∧ num_free_blocks e' = 0 ∧ exhausted prot e')
  | Raise (RuntimeError _) =>
      strict = true ∧ owns e' hb hs ∧ (∃ G, shrunk idle prot e e' G) ∧ num_free_blocks e' < num ∧ exhausted prot e'
  | Raise (ValueError _) => ∃ B : gset Z, owns e' (hb ∪ B) hs ∧ hb ## B
  | Raise _ => False
  end.
Proof.
  intros Ho Hp. destruct (take_ok num prot strict e hb hs Ho Hp)
    as [(bl & e' & G & -> & H1 & H2 & H3 & H4 & H5 & H6 & H7)|[(msg & e' & G & -> & H1 & H2 & H3 & H4)|(msg & e' & B & -> & Ho' & Hd & _)]].
  - split_and!; try done. by exists G.
  - split_and!; try done; [by exists G|apply H4..].
  - exists (list_to_set B). split; [done|]. set_solver.
Qed.

(** Allocating an SWA slot never raises: the result is a slot nobody else has, or -1, which means the tier has no
    pool or every snapshot in the index is pinned.  Making room for it removes entries of unlocked nodes only, never of the protected one. *)
Theorem alloc_swa_slot_spec prot e hb hs :
  owns e hb hs → protectable e prot →
  ∃ s e', _alloc_swa_slot prot e = (Ok s, e') ∧ (∃ G, shrunk unlocked prot e e' G) ∧
    ((0 <= s ∧ owns e' hb (s :: hs)) ∨ (s = -1 ∧ owns e' hb hs ∧ (swa_pool e = None ∨ all_pinned (index e')))).
Proof. intros Ho Hp. destruct (alloc_slot_ok prot e hb hs Ho Hp) as (s & e' & G & E & Sh & Hc). exists s, e'. split_and!; eauto. Qed.

(** [C40] Construction.  An engine is built exactly for a positive number of blocks, a block size [2^k], one of the six
    eviction policies and a threshold of at least 1; every other configuration raises [ValueError].  The engine starts
    empty: all its [n] blocks are free and its index holds no entry.  It has an SWA pool exactly when SWA is enabled and the tier has slots of its own
    (the CPU tier always, the SSD and remote tiers when their count is positive), and the pool then has as many slots as
    the configuration gives that tier, all free. *)
Theorem engine_init_valid clock dt n tpb ratio reward thr policy prot cfg :
  let r := CacheEngine_init clock dt n tpb ratio reward thr policy prot cfg in
  let valid := 0 < n ∧ (∃ k, 0 <= k ∧ tpb = 2 ^ k) ∧ policy ∈ ["lru"; "lfu"; "slru"; "fifo"; "mru"; "filo"]%string ∧ 1 <= prot in
  (valid → ∃ e, r = Ok e ∧ owns e ∅ [] ∧ Mempool.free (mempool e) = list_to_set (seqZ 0 n) ∧ num_free_blocks e = n ∧
     (∀ g b rd, ¬ entry (index e) g b rd) ∧ Z.of_nat (tokens_per_block (index e)) = tpb ∧ eviction_policy (index e) = policy ∧
     match swa_pool e with
     | Some p => ∃ c s, cfg = Some c ∧ tier_slots dt c s ∧ SWAHostPool._num_slots p = s ∧ SWAHostPool._free_slots p ≡ₚ seqZ 0 s
     | None => ∀ c s, cfg = Some c → ¬ tier_slots dt c s
     end) ∧
  (¬ valid → ∃ msg, r = Raise (ValueError msg)).
Proof.
  intros r valid. subst r. destruct (CacheEngine_init clock dt n tpb ratio reward thr policy prot cfg) as [e|x] eqn:E.
  - pose proof (init_owns clock _ _ _ _ _ _ _ _ _ _ E) as Ho. pose proof (init_no_entry clock _ _ _ _ _ _ _ _ _ _ E) as Hne.
    apply accepted_init in E as (Hn & Ht & Hp & Hpr & ->). apply is_power_of_two_spec in Ht. split; [|by intros []].
    intros _. eexists. split; [reflexivity|]. split; [done|]. split; [by apply Mempool.fresh_wf; lia|]. split; [done|]. split; [done|].
    split; [|split; [done|]].
    + cbn. apply Z2Nat.id. destruct Ht as (k & Hk & ->). lia.
    + cbn. destruct cfg as [c|]; [|done]. cbn. destruct (for_cache_tier dt c) as [c'|] eqn:Ec; cbn.
      * exists c, (num_slots c'). split_and!; [done|by apply tier_slots_some|done|]. unfold SWAHostPool.all_slots. by rewrite reverse_Permutation.
      * intros c0 s [= <-]. by apply tier_slots_none.
  - apply init_raise in E as [Hnv [msg ->]]. split; [|by intros _; exists msg].
    intros (Hn & Ht & Hp & Hpr). destruct Hnv. by rewrite is_power_of_two_spec.
Qed.
End properties.

Lemma engine_ownership_witness : @wf toy_ph (index toy_stored) ∧ Mempool.wf (mempool toy_stored).
Proof.
  destruct (@engine_ownership toy_ph toy_digest toy_clock _ _ _ _ _ _ _ _ _ toy_engine toy_stored
    ((∅ ∪ list_to_set [0; 1; 2]) ∖ list_to_set [0; 1; 2]) [] toy_engine_init) as (Hwf & Hm & _).
  - eapply rtc_l; [exact toy_step_take|]. apply rtc_once. exact toy_step_store.
  - split; [exact Hwf|exact Hm].
Defined.

(** Two blocks are asked for, one is free: the last block of the cached node is evicted. *)
Lemma take_spec_witness :
  (take 2 None true toy_stored).1 = Ok [2; 3] ∧
  let '(r, e') := take 2 None true toy_stored in
  match r with Ok blocks => NoDup blocks ∧ zlen blocks <= 2 | Raise _ => True end.
Proof.
  split; [vm_compute; reflexivity|].
  pose proof (@take_spec toy_ph 2 None true toy_stored _ _ toy_stored_owns ltac:(by intros n)) as Ht.
  destruct (take 2 None true toy_stored) as [[bl|x] e']; [|exact I]. destruct Ht as (_ & Hn & _ & _ & _ & Hl & _). split; [exact Hn|exact Hl].
Defined.

(** An SSD tier of four blocks of 16 tokens, with two SWA slots of its own. *)
Lemma engine_init_valid_witness :
  ∃ e p, CacheEngine_init toy_clock SSD 4 16 (f_of_Z 0) 0 (f_of_Z 1) "lfu" 2 (Some (mkSWAPoolConfig true 1 2 0)) = Ok e ∧
    num_free_blocks e = 4 ∧ swa_pool e = Some p ∧ SWAHostPool._num_slots p = 2.
Proof.
  destruct (@engine_init_valid toy_ph toy_clock SSD 4 16 (f_of_Z 0) 0 (f_of_Z 1) "lfu" 2 (Some (mkSWAPoolConfig true 1 2 0))) as [Hv _].
  destruct Hv as (e & E & _ & _ & Hf & _ & _ & _ & Hp).
  - split; [lia|]. split; [exists 4; split; [lia|reflexivity]|]. split; [|lia]. apply (bool_decide_unpack _). reflexivity.
  - exists e. destruct (swa_pool e) as [p|].
    + exists p. split; [exact E|]. split; [exact Hf|]. split; [reflexivity|].
      destruct Hp as (c & s & [= <-] & Hs & -> & _). inversion Hs. reflexivity.
    + exfalso. apply (Hp _ 2 eq_refl). constructor; reflexivity.
Defined.

Lemma alloc_swa_slot_spec_witness : ∃ s e', _alloc_swa_slot None toy_stored = (Ok s, e').
Proof.
  destruct (@alloc_swa_slot_spec toy_ph None toy_stored _ _ toy_stored_owns ltac:(by intros n)) as (s & e' & E & _).
  exists s, e'. exact E.
Defined.

End CacheEngine.
