(* ===== verification/GlobalCache.v ===== *)
(** * GlobalCache: the cache tiers together

    Models the state of [GlobalCacheEngine] ([flexkv/cache/cache_engine.py]) with the
    small operations its planners share: block ranges, the strategy of a
    request, matching on every tier, the SWA read reservation, the callbacks of
    a plan and what completes or aborts it.  The configuration is the one with
    the Python index ([index_accel = False]) and without peer-to-peer sharing;
    the planners themselves are in [GlobalPlan]. *)

From stdpp Require Import pretty.
From S2P Require Import Prelude PyFloat Block Transfer GraphBuild SWAOps Mempool SWAHostPool RadixTree RadixMatch CacheEngine.
Import GraphBuild.GraphBuild SWAOps.SWAOps RadixTree.RadixTree CacheEngine.CacheEngine.
Local Open Scope Z_scope.

Module GlobalCache.

(** ** Requests *)

Record CacheStrategy : Type := mkStrategy {
  ignore_gpu : bool;
  ignore_ssd : bool;
  ignore_remote : bool;
  ignore_gds : bool;
}.
Definition DEFAULT_CACHE_STRATEGY : CacheStrategy := mkStrategy false false false false.
Definition CPUONLY_CACHE_STRATEGY : CacheStrategy := mkStrategy false true true true.

Definition resolve_get_cache_strategy (use_mooncake_store_backend : bool) (temp_cache_strategy : CacheStrategy) : CacheStrategy :=
  if use_mooncake_store_backend && negb (ignore_gpu temp_cache_strategy) && negb (ignore_remote temp_cache_strategy)
  then mkStrategy (ignore_gpu temp_cache_strategy) (ignore_ssd temp_cache_strategy) true (ignore_gds temp_cache_strategy)
  else temp_cache_strategy.

(** [a[::step]] *)
Definition stride {A} (step : nat) (l : list A) : list A :=
  omap (λ i, l !! (i * step)%nat) (seq 0 ((length l + step - 1) / step)).

Definition slot_mapping_to_block_ids (slot_mapping : list Z) (tokens_per_block : nat) : list Z :=
  (λ s, s / Z.of_nat tokens_per_block) <$> stride tokens_per_block slot_mapping.

(** One SWA slot per window, and the window is a block. *)
Definition swa_slot_mapping_to_slot_ids (swa_slot_mapping : list Z) (tokens_per_block : nat) : list Z :=
  (λ s, s / Z.of_nat tokens_per_block) <$> stride tokens_per_block swa_slot_mapping.

(** [np.where(token_mask)[0]] *)
Fixpoint where_from (i : nat) (mask : list bool) : list nat :=
  match mask with
  | [] => []
  | b :: mask' => (if b then [i] else []) ++ where_from (S i) mask'
  end.

Definition _get_block_range (tokens_per_block : nat) (token_mask : list bool) : Z * Z :=
  let mask_idx := where_from 0 token_mask in
  match head mask_idx, last mask_idx with
  | Some first, Some final =>
      (Z.of_nat first / Z.of_nat tokens_per_block, Z.of_nat final / Z.of_nat tokens_per_block + 1)
  | _, _ => (0, 0)
  end.

Definition mask_sum (mask : list bool) : Z := zlen (where_from 0 mask).

(** The shape checks; the dtype and rank checks are the types here. *)
Definition _check_input (token_ids : list Z) (token_mask : list bool) (slot_mapping : list Z) : result unit :=
  py_assert (zlen token_ids =? zlen token_mask) ;;
  py_assert (zlen slot_mapping =? mask_sum token_mask).

(** ** State *)

Record CacheConfig : Type := mkConfig {
  enable_cpu : bool;
  enable_ssd : bool;
  enable_remote : bool;
  enable_gds : bool;
  enable_swa_transfer : bool;
  use_mooncake_store_backend : bool;
  tokens_per_block : nat;
  swa_configured : bool;
}.

Record GlobalCacheEngine : Type := mkGlobal {
  cache_config : CacheConfig;
  cpu_cache_engine : option CacheEngine;
  ssd_cache_engine : option CacheEngine;
  remote_cache_engine : option CacheEngine;
}.

(** [self.cache_engines] and the three attributes hold the same objects. *)
Definition engine_of (d : DeviceType) (g : GlobalCacheEngine) : option CacheEngine :=
  match d with
  | CPU => cpu_cache_engine g
  | SSD => ssd_cache_engine g
  | REMOTE => remote_cache_engine g
  | _ => None
  end.

Definition with_engine (d : DeviceType) (e : CacheEngine) (g : GlobalCacheEngine) : GlobalCacheEngine :=
  match d with
  | CPU => mkGlobal (cache_config g) (Some e) (ssd_cache_engine g) (remote_cache_engine g)
  | SSD => mkGlobal (cache_config g) (cpu_cache_engine g) (Some e) (remote_cache_engine g)
  | REMOTE => mkGlobal (cache_config g) (cpu_cache_engine g) (ssd_cache_engine g) (Some e)
  | _ => g
  end.

Abbreviation Global := (M GlobalCacheEngine).

(** A call on the engine of a tier; [x] is what Python raises when there is none. *)
Definition on_engine {A} (x : exn) (d : DeviceType) (m : Engine A) : Global A := λ g,
  match engine_of d g with
  | None => (Raise x, g)
  | Some e => let '(r, e') := m e in (r, with_engine d e' g)
  end.

(** [self.cpu_cache_engine.f()], and [self.cache_engines[d].f()]. *)
Abbreviation self_engine := (on_engine AttributeError).
Abbreviation cache_engines := (on_engine KeyError).

Definition is_not_None {A} (o : option A) : bool := match o with Some _ => true | None => false end.

Definition has_engine (d : DeviceType) (g : GlobalCacheEngine) : bool := is_not_None (engine_of d g).
Definition assert_engine (d : DeviceType) : Global unit := g ← get_state; assertM (has_engine d g).
Definition if_engine (d : DeviceType) (m : Global unit) : Global unit := g ← get_state; if has_engine d g then m else mret tt.

(** [m] on a value that must not be [None]. *)
Definition deref {St A} (o : option A) : M St A := match o with Some a => mret a | None => raise AttributeError end.

Definition _is_mooncake_swa_tier (g : GlobalCacheEngine) (d : DeviceType) : bool :=
  use_mooncake_store_backend (cache_config g) && bool_decide (d = REMOTE).

(** With the mooncake backend the engine of the REMOTE tier is not a [CacheEngine]: it has SWA when [cache_config.swa] says so. *)
Definition tier_swa_enabled (d : DeviceType) (g : GlobalCacheEngine) : bool :=
  match engine_of d g with
  | Some e => swa_enabled e
  | None => _is_mooncake_swa_tier g d && enable_remote (cache_config g) && swa_configured (cache_config g)
  end.

(** [SWAOpConstructor.enabled] *)
Definition swa_transfer_enabled (g : GlobalCacheEngine) : bool :=
  enable_swa_transfer (cache_config g) && tier_swa_enabled CPU g.

(** ** Plans *)

(** A callback of a plan, run under the cache tree lock. *)
Definition Callback : Type := Global unit.

Record SWAReadSource : Type := mkReadSource {
  hit_blocks : Z;
  host_slot : Z;
  source_node : option nid;
  source_tier : option DeviceType;
  mooncake_tail_hash : option string;
}.
Definition no_source : SWAReadSource := mkReadSource 0 (-1) None None None.

Definition is_mooncake (s : SWAReadSource) : bool := is_not_None (mooncake_tail_hash s).
Definition found (s : SWAReadSource) : bool :=
  if (hit_blocks s <=? 0) || negb (is_not_None (source_tier s)) then false
  else if is_mooncake s then bool_decide (source_tier s = Some REMOTE)
  else (0 <=? host_slot s) && is_not_None (source_node s).

Record SWAReadReservation : Type := mkReservation {
  source : SWAReadSource;
  staging_slot : Z;
  h2d_id : Z;
}.

Definition NodeMap : Type := list (DeviceType * (nid * Z)).

Record GetTransferPlan : Type := mkGetPlan {
  gp_transfer_graph : TransferOpGraph;
  gp_finished_ops_ids : list Z;
  gp_node_to_unlock : NodeMap;
  gp_op_callback_dict : list (Z * Callback);
  gp_buffer_to_free : list (DeviceType * list Z);
  gp_num_gpu_blocks_to_transfer : Z;
  gp_swa_reservation : option SWAReadReservation;
}.

Record PutTransferPlan : Type := mkPutPlan {
  pp_transfer_graph : TransferOpGraph;
  pp_finished_ops_ids : list Z;
  pp_node_to_unlock : NodeMap;
  pp_op_callback_dict : list (Z * Callback);
  pp_buffer_to_free : list (DeviceType * list Z);
  pp_num_gpu_blocks_to_transfer : Z;
  pp_skipped_gpu_blocks : Z;
  pp_swa_slots_to_free : list (DeviceType * Z);
}.

Definition empty_get_plan : M Ids GetTransferPlan :=
  g ← TransferOpGraph_init; mret (mkGetPlan g [] [] [] [] 0 None).
Definition empty_put_plan : M Ids PutTransferPlan :=
  g ← TransferOpGraph_init; mret (mkPutPlan g [] [] [] [] 0 0 []).

(** ** One-shot handles *)

Record TransferPlanHandle (St : Type) : Type := mkHandle {
  _complete : M St unit;
  _abort : M St unit;
  _consumed : bool;
}.
Arguments mkHandle {St}. Arguments _complete {St}. Arguments _abort {St}. Arguments _consumed {St}.

Definition consume {St} (h : TransferPlanHandle St) : TransferPlanHandle St := mkHandle (_complete h) (_abort h) true.

(** Runs [action] unless the handle was used; the flag is set before the action. *)
Definition handle_once {St} (action : TransferPlanHandle St → M St unit) : M (TransferPlanHandle St * St) unit := λ p,
  if _consumed p.1 then (Ok tt, p)
  else let '(r, s) := action p.1 p.2 in (r, (consume p.1, s)).
Definition handle_call {St} : M (TransferPlanHandle St * St) unit := handle_once (St := St) _complete.
Definition handle_abort {St} : M (TransferPlanHandle St * St) unit := handle_once (St := St) _abort.

(** ** The world of a request, and of a planner *)

(** The engine and the class-level id counters. *)
Definition World : Type := GlobalCacheEngine * Ids.

(** ... and the graph being built. *)
Definition Planning : Type := GlobalCacheEngine * Building.
Abbreviation Plan := (M Planning).

Definition on_global {A} (m : Global A) : Plan A := λ p, let '(r, g) := m p.1 in (r, (g, p.2)).
Definition on_build {A} (m : Build A) : Plan A := λ p, let '(r, b) := m p.2 in (r, (p.1, b)).
Definition world_global {A} (m : Global A) : M World A := λ w, let '(r, g) := m w.1 in (r, (g, w.2)).
Definition world_ids {A} (m : M Ids A) : M World A := λ w, let '(r, i) := m w.2 in (r, (w.1, i)).

(** [m] with a local graph, which is part of the answer. *)
Definition in_graph {A} (graph : TransferOpGraph) (m : Plan A) : M World (A * TransferOpGraph) := λ w,
  let '(r, (g, (ids, graph'))) := m (w.1, (w.2, graph)) in
  (match r with Ok a => Ok (a, graph') | Raise x => Raise x end, (g, ids)).

(** [op = TransferOp(...); graph.add_transfer_op(op); op.op_id] *)
Definition kv_op (ty : TransferType) (src dst : list Z) (dp : Z) : Plan Z :=
  on_build (op ← new_op ty src dst dp false None None; graph_add op ;; mret (op_id op)).

Definition depends_on (successor predecessor : Z) : Plan unit := on_build (graph_depend successor predecessor).

Section handlers.
Context (XXH64 : list Z → Z) (clock : nat → float).

(** ** Tiers *)

Definition reset : Global unit :=
  if_engine CPU (self_engine CPU (CacheEngine.reset clock)) ;;
  if_engine SSD (self_engine SSD (CacheEngine.reset clock)) ;;
  if_engine REMOTE (self_engine REMOTE (CacheEngine.reset clock)).

(** [MatchResult()] *)
Definition empty_match : MatchResult := mkMatchResult 0 0 None None 0 [] None 0.

Definition match_tier (d : DeviceType) (ignored : bool) (sequence_meta : SequenceMeta) : Global MatchResult :=
  g ← get_state;
  if has_engine d g && negb ignored then self_engine d (match_ XXH64 clock sequence_meta) else mret empty_match.

Definition match_local (sequence_meta : SequenceMeta) (s : CacheStrategy) : Global (MatchResult * MatchResult) :=
  cpu ← match_tier CPU false sequence_meta;
  ssd ← match_tier SSD (ignore_ssd s) sequence_meta;
  mret (cpu, ssd).

Definition match_all (sequence_meta : SequenceMeta) (s : CacheStrategy) : Global (MatchResult * MatchResult * MatchResult) :=
  cpu ← match_tier CPU false sequence_meta;
  ssd ← match_tier SSD (ignore_ssd s) sequence_meta;
  remote ← match_tier REMOTE (ignore_remote s) sequence_meta;
  mret (cpu, ssd, remote).

(** ** Callbacks *)

Definition _op_callback (d : DeviceType) (node_to_ready : nid) (ready_length : Z) : Callback :=
  match d with
  | CPU | SSD | REMOTE => assert_engine d ;; self_engine d (CacheEngine.set_ready node_to_ready true ready_length)
  | _ => mret tt
  end.

Definition _build_op_callback_dict (op_node_to_ready : list (Z * (DeviceType * nid * Z))) : list (Z * Callback) :=
  (λ '(op_id, (d, node, len)), (op_id, _op_callback d node len)) <$> op_node_to_ready.

Definition _append_op_callback {St} (op_callback_dict : list (Z * M St unit)) (op_id : Z) (callback : M St unit) : list (Z * M St unit) :=
  match dict_get op_id op_callback_dict with
  | None => dict_set op_id callback op_callback_dict
  | Some previous => dict_set op_id (previous ;; callback) op_callback_dict
  end.

Definition _publish_swa_put_slot (d : DeviceType) (node : option nid) (slot : Z) : Callback :=
  assertM (is_not_None node) ;;
  assertM (0 <=? slot) ;;
  node ← deref node;
  cache_engines d (on_index (set_swa clock node slot)).

Definition free_swa (d : DeviceType) (slot : Z) : Global unit :=
  if 0 <=? slot then self_engine d (_free_swa_slot slot) else mret tt.
Definition recycle_opt (d : DeviceType) (blocks : option (list Z)) : Global unit :=
  match blocks with Some blocks => self_engine d (recycle blocks) | None => mret tt end.

(** What [_fail_put_before_insert] gives back, before it returns the empty plan. *)
Definition _fail_put_before_insert (cpu_blocks : list Z) (cpu_swa_slot : Z) (ssd_blocks : option (list Z)) (ssd_swa_slot : Z)
    (remote_blocks : option (list Z)) (remote_swa_slot : Z) : Global unit :=
  free_swa CPU cpu_swa_slot ;;
  free_swa SSD ssd_swa_slot ;;
  free_swa REMOTE remote_swa_slot ;;
  self_engine CPU (recycle cpu_blocks) ;;
  recycle_opt SSD ssd_blocks ;;
  recycle_opt REMOTE remote_blocks.

(** ** SWA reads *)

(** [try: m except Exception: pass] *)
Definition suppress {St} (m : M St unit) : M St unit := λ s, (Ok tt, (m s).2).

(** [node] and [engine] of a source travel together; a mooncake source has neither. *)
Definition _swa_release_load_lock (node : option (DeviceType * nid)) (staging_slot : Z) : Global unit :=
  suppress (match node with
            | Some (d, n) =>
                g ← get_state;
                if match engine_of d g with Some e => 0 <? swa_lock_ref (nd (index e) n) | None => false end
                then cache_engines d (on_index (dec_swa_lock_ref n)) ;; cache_engines d (CacheEngine.unlock n)
                else mret tt
            | None => mret tt
            end) ;;
  suppress (if 0 <=? staging_slot then if_engine CPU (self_engine CPU (_free_swa_slot staging_slot)) else mret tt).

Definition source_of (s : SWAReadSource) : option (DeviceType * nid) :=
  match source_tier s, source_node s with Some d, Some n => Some (d, n) | _, _ => None end.

Definition _release_swa_read_reservation (reservation : option SWAReadReservation) : Global unit :=
  match reservation with
  | None => mret tt
  | Some r => _swa_release_load_lock (source_of (source r)) (staging_slot r)
  end.

(** The tiers whose deepest SWA node lies in the requested range, in the order of [tier_match_results]. *)
Fixpoint swa_candidates (block_mask_start block_mask_end : Z) (tiers : list (DeviceType * MatchResult)) : Global (list (Z * DeviceType * MatchResult)) :=
  match tiers with
  | [] => mret []
  | (d, r) :: tiers =>
      let swa_hit := Z.of_nat (swa_hit_blocks r) in
      if (swa_hit <=? block_mask_start) || (block_mask_end <? swa_hit) then swa_candidates block_mask_start block_mask_end tiers
      else
        g ← get_state;
        assertM (_is_mooncake_swa_tier g d || is_not_None (last_swa_node r)) ;;
        rest ← swa_candidates block_mask_start block_mask_end tiers;
        mret ((swa_hit, d, r) :: rest)
  end.

(** [sorted(..., key=lambda item: item[0], reverse=True)]: equal keys keep their order. *)
Fixpoint insert_by_hit (c : Z * DeviceType * MatchResult) (l : list (Z * DeviceType * MatchResult)) : list (Z * DeviceType * MatchResult) :=
  match l with
  | [] => [c]
  | c' :: l' => if c'.1.1 <=? c.1.1 then c :: l else c' :: insert_by_hit c l'
  end.
Definition sort_by_hit : list (Z * DeviceType * MatchResult) → list (Z * DeviceType * MatchResult) := foldr insert_by_hit [].

Fixpoint first_usable (block_mask_start : Z) (sequence_meta : SequenceMeta) (candidates : list (Z * DeviceType * MatchResult)) : Global (Z * SWAReadSource) :=
  match candidates with
  | [] => mret (block_mask_start, no_source)
  | (usable_end, d, r) :: candidates =>
      g ← get_state;
      if negb (tier_swa_enabled d g) then first_usable block_mask_start sequence_meta candidates
      else if _is_mooncake_swa_tier g d then
        match Block.block_hashes sequence_meta !! Z.to_nat (usable_end - 1) with
        | Some h => mret (usable_end, mkReadSource usable_end (-1) None (Some d) (Some (pretty h)))
        | None => raise IndexError
        end
      else
        n ← deref (last_swa_node r);
        let source_slot := match engine_of d g with Some e => swa_host_slot (nd (index e) n) | None => -1 end in
        assertM (0 <=? source_slot) ;;
        mret (usable_end, mkReadSource usable_end source_slot (Some n) (Some d) None)
  end.

Definition _select_swa_read_source (block_mask_start block_mask_end : Z) (tier_match_results : list (DeviceType * MatchResult))
    (sequence_meta : SequenceMeta) : Global (Z * SWAReadSource) :=
  g ← get_state;
  if negb (swa_transfer_enabled g) || bool_decide (tier_match_results = []) then mret (block_mask_start, no_source)
  else
    candidates ← swa_candidates block_mask_start block_mask_end tier_match_results;
    first_usable block_mask_start sequence_meta (sort_by_hit candidates).

Definition _SWA_GPU_PLACEHOLDER : list Z := [0].

(** The slots of the load chain: CPU, SSD and REMOTE. *)
Definition chain_slots (s : SWAReadSource) (staging_slot : Z) : list Z * list Z * list Z :=
  if bool_decide (source_tier s = Some CPU) then ([host_slot s], [], [])
  else if is_mooncake s then ([staging_slot], [], [0])
  else if bool_decide (source_tier s = Some SSD) then ([staging_slot], [host_slot s], [])
  else ([staging_slot], [], [host_slot s]).

Definition _reserve_swa_read_source (s : SWAReadSource) (protected_cpu_node : option nid) (dp : Z) : Plan (option SWAReadReservation) :=
  on_global (assert_engine CPU) ;;
  if negb (found s) then mret None
  else
    on_global (match source_of s with
               | Some (d, n) => cache_engines d (_pin_swa_node n)
               | None => mret tt
               end) ;;
    let release := λ slot, on_global (_swa_release_load_lock (source_of s) slot) in
    staging ← (if bool_decide (source_tier s = Some CPU) then mret (Some (-1))
               else
                 slot ← on_global (self_engine CPU (_alloc_swa_slot protected_cpu_node));
                 if slot <? 0 then release (-1) ;; mret None else mret (Some slot));
    match staging with
    | None => mret None
    | Some slot =>
        let '(cpu, ssd, remote) := chain_slots s slot in
        '(g, _) ← get_state;
        h2d ← on_build (build_get_chain (swa_transfer_enabled g) _SWA_GPU_PLACEHOLDER cpu (Some ssd) (Some remote) dp
                          (match mooncake_tail_hash s with Some h => Some [h] | None => None end));
        match h2d with
        | None => release slot ;; mret None
        | Some h2d => mret (Some (mkReservation s slot h2d))
        end
    end.

(** ** Completion and abort of a plan *)

(** The tiers in the order the code treats them. *)
Definition tiers : list DeviceType := [CPU; SSD; REMOTE].

Definition finish_node (node_to_unlock : NodeMap) (d : DeviceType) : Global unit :=
  match dict_get d node_to_unlock with
  | None => mret tt
  | Some (n, ready_length) =>
      assert_engine d ;;
      self_engine d (CacheEngine.unlock n) ;;
      if 0 <? ready_length then self_engine d (CacheEngine.set_ready n true ready_length) else mret tt
  end.

Definition finish_buffer (buffer_to_free : list (DeviceType * list Z)) (d : DeviceType) : Global unit :=
  match dict_get d buffer_to_free with
  | None => mret tt
  | Some blocks => assert_engine d ;; self_engine d (recycle blocks)
  end.

Definition _transfer_callback (node_to_unlock : NodeMap) (buffer_to_free : list (DeviceType * list Z)) : Callback :=
  for_each (finish_node node_to_unlock) tiers ;;
  for_each (finish_buffer buffer_to_free) tiers.

Definition abort_node (entry : DeviceType * (nid * Z)) : Global unit :=
  let '(d, (n, _)) := entry in
  cache_engines d (CacheEngine.unlock n) ;;
  cache_engines d (rollback_unready_insert (Some n)) ;;
  mret tt.

Definition abort_buffer (entry : DeviceType * list Z) : Global unit :=
  match entry.2 with [] => mret tt | blocks => cache_engines entry.1 (recycle blocks) end.

Definition abort_slot (entry : DeviceType * Z) : Global unit :=
  if 0 <=? entry.2 then cache_engines entry.1 (_free_swa_slot entry.2) else mret tt.

Definition _abort_transfer_plan (node_to_unlock : NodeMap) (buffer_to_free : list (DeviceType * list Z))
    (swa_reservation : option SWAReadReservation) (swa_slots_to_free : list (DeviceType * Z)) : Callback :=
  for_each abort_node node_to_unlock ;;
  for_each abort_buffer buffer_to_free ;;
  _release_swa_read_reservation swa_reservation ;;
  for_each abort_slot swa_slots_to_free.
End handlers.
End GlobalCache.
