(* ===== verification/GlobalPlan.v ===== *)
(** * GlobalPlan: planning a read and a write

    Models [GlobalCacheEngine.get], [put] and their four planners
    ([flexkv/cache/cache_engine.py]) without the mooncake backend: the match on
    each tier, the blocks taken and inserted, the graph of transfer ops, and the
    callbacks that publish or give back what the plan holds. *)

From S2P Require Import Prelude PyFloat Block Transfer GraphBuild SWAOps Mempool SWAHostPool RadixTree RadixMatch CacheEngine GlobalCache.
Import GraphBuild.GraphBuild SWAOps.SWAOps RadixTree.RadixTree CacheEngine.CacheEngine GlobalCache.GlobalCache.
Local Open Scope Z_scope.
Local Open Scope py_scope.

Module GlobalPlan.

(** ** Blocks of a request *)

(** [r.physical_blocks[:n][lo:hi]] *)
Definition blocks_in (r : MatchResult) (n : nat) (lo hi : Z) : list Z :=
  (mr_physical_blocks r).[: Z.of_nat n ].[lo : hi].
Definition ready_blocks (r : MatchResult) : Z → Z → list Z := blocks_in r (num_ready_matched_blocks r).
Definition matched_blocks (r : MatchResult) : Z → Z → list Z := blocks_in r (num_matched_blocks r).

(** [l[-n:]] and [l[:n]] *)
Definition last_n (n : Z) (l : list Z) : list Z := l.[- n :].
Definition first_n (n : Z) (l : list Z) : list Z := l.[: n].

(** Every matched block is ready, up to the start of the request at least: new blocks may be inserted after them. *)
Definition extendable (r : MatchResult) (block_mask_start : Z) : bool :=
  (block_mask_start <=? Z.of_nat (num_ready_matched_blocks r)) && (num_ready_matched_blocks r =? num_matched_blocks r)%nat.

Section planners.
Context (XXH64 : list Z → Z) (clock : nat → float).

(** ** Steps the planners share *)

(** [node.size()] *)
Definition size_of (d : DeviceType) (n : nid) : Plan Z :=
  on_global (e ← gets (engine_of d); e ← deref e; mret (zlen (RadixTree.block_hashes (nd (index e) n)))).

Definition insert_unready (d : DeviceType) (sequence_meta : SequenceMeta) (blocks : list Z) (num_insert_blocks : Z) (r : MatchResult) : Plan (nid * Z) :=
  n ← on_global (self_engine d (CacheEngine.insert XXH64 clock sequence_meta blocks num_insert_blocks false (Some r)));
  n ← deref n;
  size ← size_of d n;
  mret (n, size).

Definition unlock_entry (d : DeviceType) (n : option nid) : Plan NodeMap :=
  match n with None => mret [] | Some n => size ← size_of d n; mret [(d, (n, size))] end.

Definition take_blocks (d : DeviceType) (num : Z) (protected_node : option nid) (strict : bool) : Plan (list Z) :=
  on_global (self_engine d (CacheEngine.take num protected_node strict)).
Definition give_back (d : DeviceType) (blocks : list Z) : Plan unit := on_global (self_engine d (recycle blocks)).
Definition release (reservation : option SWAReadReservation) : Plan unit := on_global (_release_swa_read_reservation reservation).

(** The SWA part of a read: where the usable prefix ends, and the reserved load chain. *)
Definition swa_read (swa_aware enable_gpu : bool) (block_mask_start block_mask_end : Z) (tier_match_results : list (DeviceType * MatchResult))
    (sequence_meta : SequenceMeta) (cpu : MatchResult) (dp : Z) : Plan (Z * option SWAReadReservation) :=
  if negb swa_aware then mret (block_mask_end, None)
  else
    '(block_mask_end, s) ← on_global (_select_swa_read_source block_mask_start block_mask_end tier_match_results sequence_meta);
    let protected_cpu_node := if block_mask_start <? Z.of_nat (num_ready_matched_blocks cpu) then last_ready_node cpu else None in
    reservation ← (if enable_gpu then _reserve_swa_read_source s protected_cpu_node dp else mret None);
    mret (if enable_gpu && found s && negb (is_not_None reservation) then block_mask_start else block_mask_end, reservation).

(** The H2D of the SWA chain is a final op; its callback releases the source. *)
Definition swa_final (reservation : option SWAReadReservation) (num_gpu_blocks : Z) (finished_ops_ids : list Z)
    (op_callback_dict : list (Z * Callback)) : Plan (list Z * list (Z * Callback)) :=
  match reservation with
  | None => mret (finished_ops_ids, op_callback_dict)
  | Some r =>
      assertM (0 <? num_gpu_blocks) ;;
      mret (finished_ops_ids ++ [h2d_id r],
            dict_set (h2d_id r) (_swa_release_load_lock (source_of (source r)) (staging_slot r)) op_callback_dict)
  end.

(** A plan in a fresh graph; [None] is the empty plan, which has its own graph. *)
Definition plan_with {P} (empty : M Ids P) (m : Plan (option (TransferOpGraph → P))) : M World P :=
  graph ← world_ids TransferOpGraph_init;
  '(parts, graph) ← in_graph graph m;
  match parts with None => world_ids empty | Some parts => mret (parts graph) end.

(** ** [_get_impl_local] *)

(** CPU blocks for what only the SSD holds; a shortage gives everything back. *)
Definition stage_blocks (num : Z) (cpu : MatchResult) (reservation : option SWAReadReservation) : Plan (option (list Z)) :=
  blocks ← (if 0 <? num then take_blocks CPU num (last_node cpu) false else mret []);
  if zlen blocks <? num then give_back CPU blocks ;; release reservation ;; mret None else mret (Some blocks).

Record DiskStage : Type := mkDiskStage {
  ds_cpu_node : option nid;
  ds_op_node_to_ready : list (Z * (DeviceType * nid * Z));
  ds_cpu_blocks_to_free : list Z;
  ds_finished : list Z;
  ds_op_disk2h : option Z;
  ds_cpu_blocks : list Z;
}.

(** The blocks only the SSD holds: straight to the GPU with GDS, through the new CPU blocks otherwise. *)
Definition disk_stage (enable_gds : bool) (block_mask_start fragment2 fragment12 : Z) (sequence_meta : SequenceMeta) (cpu ssd : MatchResult)
    (allocated ssd_blocks gpu_blocks : list Z) (dp : Z) : Plan DiskStage :=
  if fragment2 <=? 0 then mret (mkDiskStage (last_ready_node cpu) [] [] [] None [])
  else if enable_gds then
    k ← kv_op DISK2D (last_n fragment2 ssd_blocks) (last_n fragment2 gpu_blocks) dp;
    n ← deref (last_ready_node ssd);
    size ← size_of SSD n;
    mret (mkDiskStage (last_ready_node cpu) [(k, (SSD, n, size))] [] [k] None [])
  else
    let fragment2_cpu_blocks := first_n fragment2 allocated in
    k ← kv_op DISK2H (last_n fragment2 ssd_blocks) fragment2_cpu_blocks dp;
    if extendable cpu block_mask_start then
      '(n, size) ← insert_unready CPU sequence_meta fragment2_cpu_blocks (fragment12 + block_mask_start) cpu;
      mret (mkDiskStage (Some n) [(k, (CPU, n, size))] [] [] (Some k) fragment2_cpu_blocks)
    else mret (mkDiskStage (last_ready_node cpu) [] fragment2_cpu_blocks [] (Some k) fragment2_cpu_blocks).

(** The op that fills the GPU, after the ops it waits for. *)
Definition h2d_op (enable_gpu : bool) (src dst : list Z) (waits_for : list (option Z)) (dp : Z) : Plan (list Z) :=
  if negb enable_gpu then mret []
  else
    k ← kv_op H2D src dst dp;
    for_each (depends_on k) (omap id waits_for) ;;
    mret [k].

(** The parts of a local read once its blocks are known. *)
Definition local_read_ops (enable_gpu enable_gds : bool) (block_mask_start fragment1 fragment2 fragment12 : Z) (sequence_meta : SequenceMeta)
    (cpu ssd : MatchResult) (allocated cpu_blocks ssd_blocks gpu_blocks : list Z) (reservation : option SWAReadReservation) (dp : Z)
    : Plan (TransferOpGraph → GetTransferPlan) :=
  disk ← disk_stage enable_gds block_mask_start fragment2 fragment12 sequence_meta cpu ssd allocated ssd_blocks gpu_blocks dp;
  h2d ← h2d_op enable_gpu
          (if enable_gds then cpu_blocks else cpu_blocks ++ ds_cpu_blocks disk)
          (if enable_gds then first_n fragment1 gpu_blocks else gpu_blocks)
          [ds_op_disk2h disk] dp;
  cpu_entry ← unlock_entry CPU (ds_cpu_node disk);
  ssd_entry ← unlock_entry SSD (last_ready_node ssd);
  let num_gpu_blocks := if enable_gpu then zlen gpu_blocks else 0 in
  '(finished, callbacks) ← swa_final reservation num_gpu_blocks (ds_finished disk ++ h2d) (_build_op_callback_dict (ds_op_node_to_ready disk));
  mret (λ graph, mkGetPlan graph finished (cpu_entry ++ ssd_entry) callbacks [(CPU, ds_cpu_blocks_to_free disk)] num_gpu_blocks reservation).

Definition local_read (s : CacheStrategy) (config : CacheConfig) (block_mask_start block_mask_end : Z) (gpu_block_ids : list Z)
    (sequence_meta : SequenceMeta) (cpu ssd : MatchResult) (swa_aware : bool) (dp : Z) : Plan (option (TransferOpGraph → GetTransferPlan)) :=
  let enable_gpu := negb (ignore_gpu s) in
  let enable_gds := enable_gds config && negb (ignore_gds s) in
  '(block_mask_end, reservation) ← swa_read swa_aware enable_gpu block_mask_start block_mask_end [(CPU, cpu); (SSD, ssd)] sequence_meta cpu dp;
  let cpu_blocks := ready_blocks cpu block_mask_start block_mask_end in
  let ssd_ready := ready_blocks ssd block_mask_start block_mask_end in
  let ssd_blocks := if zlen ssd_ready <? zlen cpu_blocks then [] else ssd_ready in
  let fragment12 := Z.max (zlen cpu_blocks) (zlen ssd_blocks) in
  let fragment2 := Z.max (zlen ssd_blocks - zlen cpu_blocks) 0 in
  if fragment12 =? 0 then release reservation ;; mret None
  else
    assertM (fragment12 <=? zlen gpu_block_ids) ;;
    allocated ← stage_blocks (if enable_gds then 0 else fragment2) cpu reservation;
    match allocated with
    | None => mret None
    | Some allocated =>
        parts ← local_read_ops enable_gpu enable_gds block_mask_start (zlen cpu_blocks) fragment2 fragment12 sequence_meta cpu ssd
                  allocated cpu_blocks ssd_blocks (first_n fragment12 gpu_block_ids) reservation dp;
        mret (Some parts)
    end.

Definition _get_impl_local (sequence_meta : SequenceMeta) (block_mask_start block_mask_end : Z) (gpu_block_ids : list Z)
    (s : CacheStrategy) (dp : Z) (swa_aware : bool) : M World GetTransferPlan :=
  config ← world_global (gets cache_config);
  assertM (enable_cpu config) ;;
  world_global (assert_engine CPU) ;;
  '(cpu, ssd) ← world_global (match_local XXH64 clock sequence_meta s);
  plan_with empty_get_plan (local_read s config block_mask_start block_mask_end gpu_block_ids sequence_meta cpu ssd swa_aware dp).

(** *** [_get_impl_global] *)

(** [take(..., strict=True)] under [except RuntimeError]. *)
Definition take_strict (num : Z) (protected_node : option nid) : Plan (option (list Z)) := λ p,
  match take_blocks CPU num protected_node true p with
  | (Ok blocks, p') => (Ok (Some blocks), p')
  | (Raise (RuntimeError _), p') => (Ok None, p')
  | (Raise x, p') => (Raise x, p')
  end.

(** CPU blocks for everything that is only on lower tiers. *)
Definition stage_strict (num : Z) (cpu : MatchResult) (reservation : option SWAReadReservation) : Plan (option (list Z)) :=
  if 0 <? num then
    blocks ← take_strict num (last_node cpu);
    match blocks with
    | None => release reservation ;; mret None
    | Some blocks =>
        if zlen blocks <? num then give_back CPU blocks ;; release reservation ;; mret None else mret (Some blocks)
    end
  else mret (Some []).

(** The staged blocks enter the CPU index, or are freed when the plan is done: the unlocked node, the node to
    make ready, the blocks to free. *)
Definition stage_insert (block_mask_start num fragment123 : Z) (sequence_meta : SequenceMeta) (cpu : MatchResult) (staged : list Z)
    : Plan (option nid * option (nid * Z) * list Z) :=
  if negb (0 <? num) then mret (last_ready_node cpu, None, [])
  else if extendable cpu block_mask_start then
    '(n, size) ← insert_unready CPU sequence_meta staged (fragment123 + block_mask_start) cpu;
    mret (Some n, Some (n, size), [])
  else mret (last_ready_node cpu, None, staged).

(** The write-through of remote blocks to the SSD: the op and the node it makes ready. *)
Definition promote_to_ssd (enable_ssd : bool) (block_mask_start fragment12 fragment123 fragment3 : Z) (sequence_meta : SequenceMeta)
    (ssd : MatchResult) (staged : list Z) (remote2h : option Z) (dp : Z) : Plan (option (Z * (nid * Z))) :=
  match remote2h with
  | Some remote2h =>
      if enable_ssd && extendable ssd block_mask_start && (Z.of_nat (num_matched_blocks ssd) =? block_mask_start + fragment12) then
        ssd_blocks ← take_blocks SSD fragment3 (last_node ssd) false;
        if zlen ssd_blocks <? fragment3 then give_back SSD ssd_blocks ;; mret None
        else
          k ← kv_op H2DISK (last_n fragment3 staged) ssd_blocks dp;
          depends_on k remote2h ;;
          node ← insert_unready SSD sequence_meta ssd_blocks (fragment123 + block_mask_start) ssd;
          mret (Some (k, node))
      else mret None
  | None => mret None
  end.

Definition stage_op (ty : TransferType) (wanted : bool) (src dst : list Z) (dp : Z) : Plan (option Z) :=
  if wanted then k ← kv_op ty src dst dp; mret (Some k) else mret None.

(** The op whose completion makes the staged host blocks ready. *)
Definition host_ready_op (ids : list Z) (dp : Z) : Plan (option Z) :=
  match ids with
  | [] => mret None
  | _ => k ← on_build (add_virtual_op_for_multiple_finished_ops ids dp); mret (Some k)
  end.

Definition ready_callback (d : DeviceType) (op : option Z) (node : option (nid * Z)) (callbacks : list (Z * Callback)) : Plan (list (Z * Callback)) :=
  match node with
  | None => mret callbacks
  | Some (n, size) =>
      assertM (is_not_None op) ;;
      k ← deref op;
      mret (_append_op_callback callbacks k (_op_callback d n size))
  end.

Definition global_read_ops (enable_gpu enable_ssd : bool) (block_mask_start fragment1 fragment2 fragment3 fragment12 fragment123 : Z)
    (sequence_meta : SequenceMeta) (cpu ssd remote : MatchResult) (staged cpu_matched ssd_blocks remote_blocks gpu_blocks : list Z)
    (reservation : option SWAReadReservation) (dp : Z) : Plan (TransferOpGraph → GetTransferPlan) :=
  '(cpu_node, cpu_ready, cpu_blocks_to_free) ← stage_insert block_mask_start (fragment2 + fragment3) fragment123 sequence_meta cpu staged;
  let cpu_blocks := cpu_matched ++ staged in
  disk2h ← stage_op DISK2H (0 <? fragment2) (last_n fragment2 ssd_blocks) cpu_blocks.[fragment1 : fragment12] dp;
  remote2h ← stage_op REMOTE2H (0 <? fragment3) (last_n fragment3 remote_blocks) (last_n fragment3 cpu_blocks) dp;
  promoted ← promote_to_ssd enable_ssd block_mask_start fragment12 fragment123 fragment3 sequence_meta ssd cpu_blocks remote2h dp;
  host_ready ← host_ready_op (omap id [disk2h; remote2h]) dp;
  let host_final := if enable_gpu then [] else option_list host_ready in
  callbacks ← ready_callback CPU host_ready cpu_ready [];
  callbacks ← ready_callback SSD (fst <$> promoted) (snd <$> promoted) callbacks;
  h2d ← h2d_op enable_gpu cpu_blocks gpu_blocks [disk2h; remote2h] dp;
  cpu_entry ← unlock_entry CPU cpu_node;
  ssd_entry ← unlock_entry SSD (match promoted with Some (_, (n, _)) => Some n | None => last_ready_node ssd end);
  remote_entry ← unlock_entry REMOTE (last_ready_node remote);
  let num_gpu_blocks := if enable_gpu then zlen gpu_blocks else 0 in
  '(finished, callbacks) ← swa_final reservation num_gpu_blocks (host_final ++ h2d) callbacks;
  mret (λ graph, mkGetPlan graph finished (cpu_entry ++ ssd_entry ++ remote_entry) callbacks [(CPU, cpu_blocks_to_free)] num_gpu_blocks reservation).

Definition global_read (s : CacheStrategy) (config : CacheConfig) (block_mask_start block_mask_end : Z) (gpu_block_ids : list Z)
    (sequence_meta : SequenceMeta) (cpu ssd remote : MatchResult) (swa_aware : bool) (dp : Z) : Plan (option (TransferOpGraph → GetTransferPlan)) :=
  let enable_gpu := negb (ignore_gpu s) in
  '(block_mask_end, reservation) ←
    swa_read swa_aware enable_gpu block_mask_start block_mask_end [(CPU, cpu); (SSD, ssd); (REMOTE, remote)] sequence_meta cpu dp;
  let cpu_blocks := ready_blocks cpu block_mask_start block_mask_end in
  let ssd_blocks := ready_blocks ssd block_mask_start block_mask_end in
  let remote_blocks := ready_blocks remote block_mask_start block_mask_end in
  let fragment12 := Z.max (zlen cpu_blocks) (zlen ssd_blocks) in
  let fragment123 := Z.max fragment12 (zlen remote_blocks) in
  let fragment2 := Z.max (zlen ssd_blocks - zlen cpu_blocks) 0 in
  let fragment3 := Z.max (zlen remote_blocks - fragment12) 0 in
  if fragment123 =? 0 then release reservation ;; mret None
  else
    assertM (fragment123 <=? zlen gpu_block_ids) ;;
    staged ← stage_strict (fragment2 + fragment3) cpu reservation;
    match staged with
    | None => mret None
    | Some staged =>
        parts ← global_read_ops enable_gpu (enable_ssd config) block_mask_start (zlen cpu_blocks) fragment2 fragment3 fragment12 fragment123
                  sequence_meta cpu ssd remote staged cpu_blocks ssd_blocks remote_blocks (first_n fragment123 gpu_block_ids) reservation dp;
        mret (Some parts)
    end.

Definition _get_impl_global (sequence_meta : SequenceMeta) (block_mask_start block_mask_end : Z) (gpu_block_ids : list Z)
    (s : CacheStrategy) (dp : Z) (swa_aware : bool) : M World GetTransferPlan :=
  config ← world_global (gets cache_config);
  assertM (enable_cpu config && (enable_remote config && negb (ignore_remote s))) ;;
  world_global (assert_engine CPU) ;;
  world_global (assert_engine REMOTE) ;;
  '(cpu, ssd, remote) ← world_global (match_all XXH64 clock sequence_meta DEFAULT_CACHE_STRATEGY);
  plan_with empty_get_plan (global_read s config block_mask_start block_mask_end gpu_block_ids sequence_meta cpu ssd remote swa_aware dp).

(** ** Writes *)

(** One slot per tier the snapshot is written to, [-1] for a slot that is not wanted or could not be had. *)
Definition put_swa_slots (cpu ssd remote : option nid) (to_ssd to_remote : bool) : Global (Z * Z * Z) :=
  g ← get_state;
  if negb (swa_transfer_enabled g) then mret (-1, -1, -1)
  else
    cpu_slot ← self_engine CPU (_alloc_swa_slot cpu);
    ssd_slot ← (if (0 <=? cpu_slot) && to_ssd then self_engine SSD (_alloc_swa_slot ssd) else mret (-1));
    remote_slot ← (if (0 <=? cpu_slot) && (negb to_ssd || (0 <=? ssd_slot)) && to_remote
                   then self_engine REMOTE (_alloc_swa_slot remote) else mret (-1));
    mret (cpu_slot, ssd_slot, remote_slot).

Definition slots_missing (g : GlobalCacheEngine) (cpu_slot ssd_slot remote_slot : Z) (to_ssd to_remote : bool) : bool :=
  swa_transfer_enabled g && ((cpu_slot <? 0) || (to_ssd && (ssd_slot <? 0)) || (to_remote && (remote_slot <? 0))).

(** What a write holds before anything is inserted; [None] for a tier that is not written. *)
Record Resources : Type := mkResources {
  rs_cpu : list Z;
  rs_ssd : option (list Z);
  rs_remote : option (list Z);
  rs_cpu_slot : Z;
  rs_ssd_slot : Z;
  rs_remote_slot : Z;
}.

(** The slots, or everything given back. *)
Definition with_slots (cpu ssd remote : option nid) (to_ssd to_remote : bool) (cpu_blocks : list Z) (ssd_blocks remote_blocks : option (list Z))
    : Global (option Resources) :=
  '(cpu_slot, ssd_slot, remote_slot) ← put_swa_slots cpu ssd remote to_ssd to_remote;
  g ← get_state;
  if slots_missing g cpu_slot ssd_slot remote_slot to_ssd to_remote then
    _fail_put_before_insert cpu_blocks cpu_slot ssd_blocks ssd_slot remote_blocks remote_slot ;; mret None
  else mret (Some (mkResources cpu_blocks ssd_blocks remote_blocks cpu_slot ssd_slot remote_slot)).

(** The CPU blocks behind [n] blocks of a lower tier: matched ones first when the new ones do not suffice. *)
Definition source_blocks (n : Z) (matched new : list Z) : list Z :=
  if zlen new <? n then last_n (n - zlen new) matched ++ new else last_n n new.

Definition one_slot (slot : Z) : list Z := if 0 <=? slot then [slot] else [].

(** A write-through op, after the D2H. *)
Definition store_op (ty : TransferType) (wanted : bool) (src dst : list Z) (d2h : Z) (dp : Z) : Plan (option Z) :=
  if wanted then k ← kv_op ty src dst dp; depends_on k d2h ;; mret (Some k) else mret None.

(** The SWA chain of a write and the assertions on it. *)
Definition put_swa_ops (cpu_slot ssd_slot remote_slot : Z) (to_ssd to_remote : bool) (dp : Z) : Plan SWAPutChainOpIds :=
  if cpu_slot <? 0 then mret (mkPutChain None None None)
  else
    '(g, _) ← get_state;
    ids ← on_build (build_put_chain_ids (swa_transfer_enabled g) _SWA_GPU_PLACEHOLDER [cpu_slot] (Some (one_slot ssd_slot)) (Some (one_slot remote_slot)) dp None);
    assertM (is_not_None (SWAOps.d2h_id ids)) ;;
    (if to_ssd then assertM (is_not_None (h2disk_id ids)) else mret tt) ;;
    (if to_remote && (0 <=? remote_slot) then assertM (is_not_None (h2remote_id ids)) else mret tt) ;;
    mret ids.

(** [op_node_to_ready] *)
Definition ReadyMap : Type := list (Z * (DeviceType * nid * Z)).

(** The unready node of a tier written by op [k]. *)
Definition store_node (wanted : bool) (d : DeviceType) (k : option Z) (sequence_meta : SequenceMeta) (blocks : list Z) (r : MatchResult) : Plan ReadyMap :=
  if wanted then
    '(n, size) ← insert_unready d sequence_meta blocks (-1) r;
    k ← deref k;
    mret [(k, (d, n, size))]
  else mret [].

Definition node_entries (op_node_to_ready : ReadyMap) : NodeMap := (λ '(_, (d, n, size)), (d, (n, size))) <$> op_node_to_ready.

(** The slot of a tier is mounted when the SWA op that fills it is done. *)
Definition publish_slot (d : DeviceType) (k : option Z) (slot : Z) (nodes : NodeMap) (callbacks : list (Z * Callback)) : list (Z * Callback) :=
  match k with
  | Some k => if 0 <=? slot then _append_op_callback callbacks k (_publish_swa_put_slot clock d (fst <$> dict_get d nodes) slot) else callbacks
  | None => callbacks
  end.

Definition held_slots (slots : list (DeviceType * Z)) : list (DeviceType * Z) := filter (λ e, 0 <= e.2) slots.

(** The graph and the insertions of a write, all resources in hand. *)
Definition write_ops (sequence_meta : SequenceMeta) (cpu ssd remote : MatchResult) (fragment2 fragment3 : Z) (to_ssd to_remote : bool)
    (matched_cpu gpu_blocks : list Z) (held : Resources) (dp : Z) : Plan (TransferOpGraph → PutTransferPlan) :=
  let cpu_blocks := rs_cpu held in
  let ssd_blocks := default [] (rs_ssd held) in
  let remote_blocks := default [] (rs_remote held) in
  d2h ← kv_op D2H gpu_blocks cpu_blocks dp;
  h2disk ← store_op H2DISK to_ssd (source_blocks fragment2 matched_cpu cpu_blocks) ssd_blocks d2h dp;
  h2remote ← store_op H2REMOTE to_remote (source_blocks fragment3 matched_cpu cpu_blocks) remote_blocks d2h dp;
  swa ← put_swa_ops (rs_cpu_slot held) (rs_ssd_slot held) (rs_remote_slot held) to_ssd to_remote dp;
  cpu_ready ← store_node true CPU (Some d2h) sequence_meta cpu_blocks cpu;
  ssd_ready ← store_node to_ssd SSD h2disk sequence_meta ssd_blocks ssd;
  remote_ready ← store_node to_remote REMOTE h2remote sequence_meta remote_blocks remote;
  let ready := cpu_ready ++ ssd_ready ++ remote_ready in
  let nodes := node_entries ready in
  let callbacks := publish_slot REMOTE (h2remote_id swa) (rs_remote_slot held) nodes
                    (publish_slot SSD (h2disk_id swa) (rs_ssd_slot held) nodes
                      (publish_slot CPU (SWAOps.d2h_id swa) (rs_cpu_slot held) nodes (_build_op_callback_dict ready))) in
  mret (λ graph, mkPutPlan graph (d2h :: option_list (SWAOps.d2h_id swa)) nodes callbacks [] (zlen gpu_blocks) (zlen matched_cpu)
                   (held_slots [(CPU, rs_cpu_slot held); (SSD, rs_ssd_slot held); (REMOTE, rs_remote_slot held)])).

(** *** [_put_impl_local] *)

(** Blocks on both tiers, or on none. *)
Definition local_resources (enable_ssd : bool) (fragment12 fragment2 : Z) (cpu ssd : MatchResult) : Global (option Resources) :=
  cpu_blocks ← self_engine CPU (CacheEngine.take fragment12 (last_node cpu) false);
  ssd_blocks ← (if enable_ssd then self_engine SSD (CacheEngine.take fragment2 (last_node ssd) false) else mret []);
  if (zlen cpu_blocks <? fragment12) || (zlen ssd_blocks <? fragment2) then
    self_engine CPU (recycle cpu_blocks) ;;
    (if enable_ssd then self_engine SSD (recycle ssd_blocks) else mret tt) ;;
    mret None
  else
    with_slots (last_node cpu) (last_node ssd) None (0 <? fragment2) false cpu_blocks (if enable_ssd then Some ssd_blocks else None) None.

Definition _put_impl_local (sequence_meta : SequenceMeta) (block_mask_start block_mask_end : Z) (gpu_block_ids : list Z)
    (s : CacheStrategy) (dp : Z) : M World PutTransferPlan :=
  config ← world_global (gets cache_config);
  let enable_ssd := enable_ssd config && negb (ignore_ssd s) in
  assertM (negb (ignore_gpu s)) ;;
  assertM (enable_cpu config) ;;
  world_global (assert_engine CPU) ;;
  '(cpu, ssd) ← world_global (match_local XXH64 clock sequence_meta s);
  let matched_cpu := matched_blocks cpu block_mask_start block_mask_end in
  let matched_ssd := matched_blocks ssd block_mask_start block_mask_end in
  let fragment12 := zlen gpu_block_ids - zlen matched_cpu in
  let fragment2 := if enable_ssd then zlen gpu_block_ids - zlen matched_ssd else 0 in
  if fragment12 =? 0 then world_ids empty_put_plan
  else
    held ← world_global (local_resources enable_ssd fragment12 fragment2 cpu ssd);
    match held with
    | None => world_ids empty_put_plan
    | Some held =>
        plan_with empty_put_plan
          (parts ← write_ops sequence_meta cpu ssd empty_match fragment2 0 (0 <? fragment2) false matched_cpu
                     gpu_block_ids.[zlen matched_cpu :] held dp;
           mret (Some parts))
    end.

(** *** [_put_impl_global] *)

(** [None] when the tier is short of blocks: what was taken goes back and the tier is not written. *)
Definition lower_blocks (d : DeviceType) (wanted : bool) (num : Z) (r : MatchResult) : Global (option (list Z)) :=
  if wanted then
    blocks ← self_engine d (CacheEngine.take num (last_node r) false);
    if zlen blocks =? num then mret (Some blocks) else self_engine d (recycle blocks) ;; mret None
  else mret None.

Definition global_resources (enable_ssd : bool) (fragment12 fragment2 fragment3 : Z) (cpu ssd remote : MatchResult) : Global (option Resources) :=
  cpu_blocks ← self_engine CPU (CacheEngine.take fragment12 (last_node cpu) false);
  if zlen cpu_blocks <? fragment12 then self_engine CPU (recycle cpu_blocks) ;; mret None
  else
    ssd_blocks ← lower_blocks SSD (enable_ssd && (0 <? fragment2)) fragment2 ssd;
    remote_blocks ← lower_blocks REMOTE (0 <? fragment3) fragment3 remote;
    with_slots (last_node cpu) (last_node ssd) (last_node remote) (is_not_None ssd_blocks) (is_not_None remote_blocks)
      cpu_blocks ssd_blocks remote_blocks.

Definition _put_impl_global (sequence_meta : SequenceMeta) (block_mask_start block_mask_end : Z) (gpu_block_ids : list Z)
    (s : CacheStrategy) (dp : Z) : M World PutTransferPlan :=
  config ← world_global (gets cache_config);
  let enable_ssd := enable_ssd config && negb (ignore_ssd s) in
  assertM (negb (ignore_gpu s)) ;;
  assertM (enable_cpu config) ;;
  assertM (enable_remote config && negb (ignore_remote s)) ;;
  world_global (assert_engine CPU) ;;
  world_global (assert_engine REMOTE) ;;
  '(cpu, ssd, remote) ← world_global (match_all XXH64 clock sequence_meta s);
  let matched_cpu := matched_blocks cpu block_mask_start block_mask_end in
  let matched_ssd := matched_blocks ssd block_mask_start block_mask_end in
  let matched_remote := matched_blocks remote block_mask_start block_mask_end in
  let fragment12 := zlen gpu_block_ids - zlen matched_cpu in
  let fragment2 := if enable_ssd then zlen gpu_block_ids - zlen matched_ssd else 0 in
  let fragment3 := zlen gpu_block_ids - zlen matched_remote in
  if fragment12 =? 0 then world_ids empty_put_plan
  else
    held ← world_global (global_resources enable_ssd fragment12 fragment2 fragment3 cpu ssd remote);
    match held with
    | None => world_ids empty_put_plan
    | Some held =>
        plan_with empty_put_plan
          (parts ← write_ops sequence_meta cpu ssd remote fragment2 fragment3 (is_not_None (rs_ssd held)) (is_not_None (rs_remote held)) matched_cpu
                     gpu_block_ids.[zlen matched_cpu :] held dp;
           mret (Some parts))
    end.

(** ** [get] and [put] *)

(** What the caller gets: the graph, the mask of the tokens it moves, the handle of the plan (for an empty
    request the code gives the bare callback, which has no abort), the callbacks of the ops, and the op that ends the task. *)
Record Response : Type := mkResponse {
  re_transfer_graph : TransferOpGraph;
  re_return_mask : list bool;
  re_callback : TransferPlanHandle GlobalCacheEngine;
  re_op_callback_dict : list (Z * Callback);
  re_task_end_op_id : Z;
}.

(** The request cut to whole blocks. *)
Definition aligned_length (tpb : nat) (token_ids : list Z) : nat := length token_ids / tpb * tpb.
Definition aligned_mask (n : nat) (token_mask : list bool) : list bool := firstn n token_mask ++ replicate (length token_mask - n) false.

(** [np.zeros_like(token_mask)] with [[lo:hi] = True]. *)
Definition mask_range (n : nat) (lo hi : Z) : list bool := (λ i, (lo <=? Z.of_nat i) && (Z.of_nat i <? hi)) <$> seq 0 n.

(** [add_virtual_op_for_multiple_finished_ops] on the graph of a plan. *)
Definition end_graph (graph : TransferOpGraph) (finished_ops_ids : list Z) (dp : Z) : M World (Z * TransferOpGraph) :=
  in_graph graph (on_build (add_virtual_op_for_multiple_finished_ops finished_ops_ids dp)).

Definition lock_nodes (node_to_unlock : NodeMap) : Global unit :=
  for_each (λ e, cache_engines e.1 (lock_node e.2.1)) node_to_unlock.

(** Blocks a plan prefetches from the remote tier. *)
Definition prefetch_blocks (graph : TransferOpGraph) : Z :=
  foldr Z.add 0 ((λ e, if bool_decide (transfer_type e.2 = REMOTE2H) && negb (is_swa e.2) then zlen (src_block_ids e.2) else 0) <$> _op_map graph).

Definition get_mask (s : CacheStrategy) (tpb len : nat) (graph : TransferOpGraph) (block_start_idx num_gpu_blocks : Z) : list bool :=
  let n := if ignore_gpu s && ignore_gds s then prefetch_blocks graph else num_gpu_blocks in
  mask_range len (block_start_idx * Z.of_nat tpb) ((block_start_idx + n) * Z.of_nat tpb).

Definition empty_response (len : nat) : M World Response :=
  graph ← world_ids TransferOpGraph_init;
  mret (mkResponse graph (replicate len false) (mkHandle (_transfer_callback [] []) (mret tt) false) [] (-1)).

Definition get_response (s : CacheStrategy) (tpb len : nat) (block_start_idx dp : Z) (plan : GetTransferPlan) : M World Response :=
  '(task_end_op_id, graph) ← end_graph (gp_transfer_graph plan) (gp_finished_ops_ids plan) dp;
  world_global (lock_nodes (gp_node_to_unlock plan)) ;;
  mret (mkResponse graph (get_mask s tpb len graph block_start_idx (gp_num_gpu_blocks_to_transfer plan))
          (mkHandle (_transfer_callback (gp_node_to_unlock plan) (gp_buffer_to_free plan))
                    (_abort_transfer_plan (gp_node_to_unlock plan) (gp_buffer_to_free plan) (gp_swa_reservation plan) []) false)
          (gp_op_callback_dict plan) task_end_op_id).

Definition get (token_ids : list Z) (token_mask : list bool) (slot_mapping : list Z) (dp : Z) (s : CacheStrategy)
    (namespace : option (list string)) (swa_aware : bool) : M World Response :=
  lift_result (_check_input token_ids token_mask slot_mapping) ;;
  config ← world_global (gets cache_config);
  let tpb := tokens_per_block config in
  let n := aligned_length tpb token_ids in
  let mask := aligned_mask n token_mask in
  if (n =? 0)%nat || negb (existsb id mask) then empty_response (length mask)
  else
    let '(block_start_idx, block_end_idx) := _get_block_range tpb mask in
    assertM (block_end_idx <=? Z.of_nat (n / tpb)) ;;
    let gpu_block_ids := first_n (block_end_idx - block_start_idx) (slot_mapping_to_block_ids slot_mapping tpb) in
    sequence_meta ← lift_result (SequenceMeta_init XXH64 (firstn n token_ids) tpb namespace);
    let s := resolve_get_cache_strategy (use_mooncake_store_backend config) s in
    plan ← (if negb (enable_remote config) || ignore_remote s
            then _get_impl_local sequence_meta block_start_idx block_end_idx gpu_block_ids s dp swa_aware
            else _get_impl_global sequence_meta block_start_idx block_end_idx gpu_block_ids s dp swa_aware);
    get_response s tpb (length mask) block_start_idx dp plan.

Definition put_response (tpb len : nat) (block_start_idx dp : Z) (plan : PutTransferPlan) : M World Response :=
  '(task_end_op_id, graph) ← end_graph (pp_transfer_graph plan) (pp_finished_ops_ids plan) dp;
  world_global (lock_nodes (pp_node_to_unlock plan)) ;;
  let first := block_start_idx + pp_skipped_gpu_blocks plan in
  mret (mkResponse graph (mask_range len (first * Z.of_nat tpb) ((first + pp_num_gpu_blocks_to_transfer plan) * Z.of_nat tpb))
          (mkHandle (_transfer_callback (pp_node_to_unlock plan) (pp_buffer_to_free plan))
                    (_abort_transfer_plan (pp_node_to_unlock plan) (pp_buffer_to_free plan) None (pp_swa_slots_to_free plan)) false)
          (pp_op_callback_dict plan) task_end_op_id).

Definition put (token_ids : list Z) (token_mask : list bool) (slot_mapping : list Z) (dp : Z) (s : CacheStrategy)
    (namespace : option (list string)) : M World Response :=
  lift_result (_check_input token_ids token_mask slot_mapping) ;;
  config ← world_global (gets cache_config);
  let tpb := tokens_per_block config in
  let n := aligned_length tpb token_ids in
  let mask := aligned_mask n token_mask in
  let '(block_start_idx, block_end_idx) := _get_block_range tpb mask in
  assertM (block_start_idx =? 0) ;;
  let gpu_block_ids := first_n (block_end_idx - block_start_idx) (slot_mapping_to_block_ids slot_mapping tpb) in
  sequence_meta ← lift_result (SequenceMeta_init XXH64 (firstn n token_ids) tpb namespace);
  assertM (negb (ignore_gpu s)) ;;
  plan ← (if negb (enable_remote config) || ignore_remote s
          then _put_impl_local sequence_meta block_start_idx block_end_idx gpu_block_ids s dp
          else _put_impl_global sequence_meta block_start_idx block_end_idx gpu_block_ids s dp);
  put_response tpb (length mask) block_start_idx dp plan.
End planners.
End GlobalPlan.
