(* ===== verification/Requests.v ===== *)
(** * Requests: tokens, slots and blocks of a request

    Proofs about the translation at the entrance of [GlobalCacheEngine.get] and
    [put] ([GlobalCache], [GlobalPlan]): the token mask and the slot mapping of a
    caller determine a block range and GPU block ids, and the mask of the answer
    is stated in the same terms. *)

From S2P Require Import Prelude PyFloat Block Transfer GraphBuild SWAOps CacheEngine GlobalCache GlobalPlan.
Import GlobalCache.GlobalCache GlobalPlan.GlobalPlan.
Local Open Scope Z_scope.

Module Requests.

(** ** Masks *)

Lemma where_from_app k m1 m2 : where_from k (m1 ++ m2) = where_from k m1 ++ where_from (k + length m1) m2.
Proof.
  revert k. induction m1 as [|b m1 IH]; intros k; simpl; [by rewrite Nat.add_0_r|].
  rewrite IH, <- app_assoc. by rewrite Nat.add_succ_comm.
Qed.

Lemma where_from_false k n : where_from k (replicate n false) = [].
Proof. revert k. induction n as [|n IH]; intros k; [done|apply IH]. Qed.

Lemma where_from_true k n : where_from k (replicate n true) = seq k n.
Proof. revert k. induction n as [|n IH]; intros k; simpl; [done|by rewrite IH]. Qed.

(** A range mask has three pieces. *)
Lemma mask_range_pieces n (lo hi : nat) :
  (lo <= hi <= n)%nat → mask_range n (Z.of_nat lo) (Z.of_nat hi) = replicate lo false ++ replicate (hi - lo) true ++ replicate (n - hi) false.
Proof.
  intros Hn. unfold mask_range. replace n with (lo + ((hi - lo) + (n - hi)))%nat at 1 by lia. rewrite !seq_app, !fmap_app.
  assert (∀ a m b, (∀ i, (a <= i < a + m)%nat → (Z.of_nat lo <=? Z.of_nat i) && (Z.of_nat i <? Z.of_nat hi) = b) →
    (λ i, (Z.of_nat lo <=? Z.of_nat i) && (Z.of_nat i <? Z.of_nat hi)) <$> seq a m = replicate m b) as Hc.
  { intros a m b Hb. symmetry. apply replicate_as_elem_of. split; [by rewrite length_fmap, length_seq|].
    intros x (i & -> & Hi)%list_elem_of_fmap. apply Hb. apply elem_of_seq in Hi. lia. }
  rewrite (Hc _ _ false), (Hc _ _ true), (Hc _ _ false); [done|intros i Hi..]; lia.
Qed.

Lemma where_mask_range n (lo hi : nat) :
  (lo <= hi <= n)%nat → where_from 0 (mask_range n (Z.of_nat lo) (Z.of_nat hi)) = seq lo (hi - lo).
Proof.
  intros Hn. rewrite mask_range_pieces, !where_from_app, !where_from_false, where_from_true, length_replicate by done.
  simpl. by rewrite app_nil_r.
Qed.

(** ** Slots *)

(** The slots of a block, and the slot mapping of a list of blocks. *)
Definition slots_of_block (tpb : nat) (b : Z) : list Z := (λ i, b * Z.of_nat tpb + Z.of_nat i) <$> seq 0 tpb.
Definition slots_of (tpb : nat) (blocks : list Z) : list Z := blocks ≫= slots_of_block tpb.

(** Every [tpb]-th element of chunks of length [tpb] is the head of each. *)
Lemma chunks_length {A B} tpb (f : A → list B) l : (∀ a, length (f a) = tpb) → length (l ≫= f) = (length l * tpb)%nat.
Proof. intros Hf. induction l as [|a l IH]; [done|]. csimpl. rewrite length_app, IH, Hf. lia. Qed.

Lemma stride_chunks {A B} tpb (f : A → list B) (g : A → B) l :
  (0 < tpb)%nat → (∀ a, length (f a) = tpb ∧ f a !! 0%nat = Some (g a)) → stride tpb (l ≫= f) = g <$> l.
Proof.
  intros Ht Hf. assert (∀ a, length (f a) = tpb) as Hlen by apply Hf. unfold stride. rewrite (chunks_length tpb) by done.
  assert ((length l * tpb + tpb - 1) / tpb = length l)%nat as ->.
  { symmetry. apply (Nat.div_unique _ _ _ (tpb - 1)); lia. }
  assert (∀ l' i a, l' !! i = Some a → (l' ≫= f) !! (i * tpb)%nat = Some (g a)) as Hlook.
  { induction l' as [|a' l' IH]; intros i a Hi; [done|]. csimpl. destruct i as [|i]; simpl in Hi.
    - simplify_eq. rewrite lookup_app_l by (rewrite Hlen; lia). apply Hf.
    - rewrite lookup_app_r by (rewrite Hlen; lia). rewrite Hlen. replace (S i * tpb - tpb)%nat with (i * tpb)%nat by lia. auto. }
  enough (∀ k l', (∀ i a, l' !! i = Some a → (l ≫= f) !! ((k + i) * tpb)%nat = Some (g a)) →
    omap (λ i, (l ≫= f) !! (i * tpb)%nat) (seq k (length l')) = g <$> l') as Hg by (apply Hg; intros i a Hi; by apply Hlook).
  intros k l'. revert k. induction l' as [|a l' IH]; intros k Hl; [done|]. csimpl.
  pose proof (Hl 0%nat a eq_refl) as E. rewrite Nat.add_0_r in E. rewrite E. f_equal. apply IH.
  intros i c Hi. rewrite Nat.add_succ_comm. by apply Hl.
Qed.

Lemma slots_of_length tpb blocks : length (slots_of tpb blocks) = (length blocks * tpb)%nat.
Proof. apply chunks_length. intros b. unfold slots_of_block. by rewrite length_fmap, length_seq. Qed.

Lemma stride_slots tpb blocks :
  (0 < tpb)%nat → stride tpb (slots_of tpb blocks) = (λ b, b * Z.of_nat tpb) <$> blocks.
Proof.
  intros Ht. apply stride_chunks; [done|]. intros b. unfold slots_of_block. rewrite length_fmap, length_seq. split; [done|].
  rewrite list_lookup_fmap, lookup_seq_lt by done. simpl. f_equal. lia.
Qed.

(** A request for the tokens of whole blocks is translated exactly: when the mask selects the tokens of the
    blocks [s, e) and the slot mapping lists the slots of the GPU blocks [blocks] in order, the input is accepted, the
    block range is [(s, e)], the GPU block ids are [blocks], the SWA slot ids too, cutting the request to whole
    blocks leaves the mask alone, and the mask of the answer, built from the range, is the mask of the request. *)
Theorem request_roundtrip (tpb n s e : nat) (blocks toks : list Z) :
  (0 < tpb)%nat → (s < e)%nat → (e * tpb <= n)%nat → length blocks = (e - s)%nat → length toks = n →
  let mask := mask_range n (Z.of_nat (s * tpb)) (Z.of_nat (e * tpb)) in
  let '(block_start_idx, block_end_idx) := _get_block_range tpb mask in
  _check_input toks mask (slots_of tpb blocks) = Ok () ∧
  (block_start_idx, block_end_idx) = (Z.of_nat s, Z.of_nat e) ∧
  first_n (block_end_idx - block_start_idx) (slot_mapping_to_block_ids (slots_of tpb blocks) tpb) = blocks ∧
  swa_slot_mapping_to_slot_ids (slots_of tpb blocks) tpb = blocks ∧
  aligned_mask (aligned_length tpb toks) mask = mask ∧
  mask_range n (block_start_idx * Z.of_nat tpb) (block_end_idx * Z.of_nat tpb) = mask.
Proof.
  intros Ht Hse Hen Hb Hl mask.
  assert (s * tpb < e * tpb)%nat as Hlt by nia.
  assert (where_from 0 mask = seq (s * tpb) (e * tpb - s * tpb)) as Ew by (apply where_mask_range; lia).
  assert (_get_block_range tpb mask = (Z.of_nat s, Z.of_nat e)) as ->.
  { unfold _get_block_range. rewrite Ew. replace (e * tpb - s * tpb)%nat with (S (e * tpb - s * tpb - 1)) by lia.
    rewrite seq_S, last_snoc, <- seq_S. simpl. rewrite <- !Nat2Z.inj_div. f_equal.
    - by rewrite Nat.div_mul by lia.
    - enough ((s * tpb + (e * tpb - s * tpb - 1)) / tpb = e - 1)%nat as -> by lia.
      symmetry. apply (Nat.div_unique _ _ _ (tpb - 1)); nia. }
  assert (length mask = n) as Elm by (unfold mask, mask_range; by rewrite length_fmap, length_seq).
  assert ((λ k, k / Z.of_nat tpb) <$> stride tpb (slots_of tpb blocks) = blocks) as Es.
  { rewrite stride_slots, <- list_fmap_compose by done. rewrite <- (list_fmap_id blocks) at 2. apply list_fmap_ext.
    intros i b _. simpl. apply Z.div_mul. lia. }
  split_and!.
  - unfold _check_input, py_assert, mask_sum. rewrite Ew. unfold zlen. rewrite Elm, Hl, Z.eqb_refl. cbn.
    rewrite slots_of_length, length_seq, Hb. rewrite (proj2 (Z.eqb_eq _ _)); [done|]. rewrite Nat.mul_sub_distr_r. done.
  - done.
  - unfold slot_mapping_to_block_ids, first_n. rewrite Es, <- Nat2Z.inj_sub by lia. rewrite py_slice_prefix. apply take_ge. lia.
  - exact Es.
  - assert (e * tpb <= aligned_length tpb toks <= n)%nat as Ha.
    { unfold aligned_length. rewrite Hl. split; [|rewrite Nat.mul_comm; apply Nat.Div0.mul_div_le].
      apply Nat.mul_le_mono_r. apply Nat.div_le_lower_bound; lia. }
    unfold aligned_mask. rewrite Elm. unfold mask. rewrite mask_range_pieces by lia.
    set (k := aligned_length tpb toks) in *.
    replace (n - e * tpb)%nat with ((k - e * tpb) + (n - k))%nat by lia.
    rewrite replicate_add, !app_assoc. rewrite take_app_length'; [done|]. rewrite !length_app, !length_replicate. lia.
  - by rewrite <- !Nat2Z.inj_mul.
Qed.

Lemma request_roundtrip_witness :
  _check_input [0; 1; 2; 3; 4; 5; 6] (mask_range 7 2 6) (slots_of 2 [9; 4]) = Ok () ∧
  first_n 2 (slot_mapping_to_block_ids (slots_of 2 [9; 4]) 2) = [9; 4] ∧
  slots_of 2 [9; 4] = [18; 19; 8; 9] ∧ _get_block_range 2 (mask_range 7 2 6) = (1, 3).
Proof.
  assert ((0 < 2)%nat ∧ (1 < 3)%nat ∧ (3 * 2 <= 7)%nat) as (H1 & H2 & H3) by lia.
  pose proof (request_roundtrip 2 7 1 3 [9; 4] [0; 1; 2; 3; 4; 5; 6] H1 H2 H3 eq_refl eq_refl) as P.
  destruct P as (P1 & _ & P3 & _). split; [exact P1|]. split; [exact P3|]. split; reflexivity.
Defined.
End Requests.
