(* ===== verification/PlanTier.v ===== *)
(** * PlanTier: one tier while a plan is made

    What the planners of [GlobalPlan] rely on between the match and the
    insertion: evicting for blocks or SWA slots with the matched node protected
    keeps the whole matched prefix and keeps the match result a valid
    insertion point ([anchored_shrunk]); [tier_at] follows one tier of a
    [GlobalCacheEngine] through the calls a plan makes on it. *)

From S2P Require Import Prelude PyFloat Block Transfer GraphBuild SWAOps Mempool SWAHostPool RadixTree RadixCore RadixLeaf RadixWf RadixMatch RadixInsert RadixDetach RadixEvict RadixReady RadixSpec CacheEngine GlobalCache GlobalPlan.
Import GraphBuild.GraphBuild SWAOps.SWAOps RadixTree.RadixTree RadixWf.RadixWf RadixMatch.RadixMatch RadixInsert.RadixInsert RadixDetach.RadixDetach RadixEvict.RadixEvict RadixReady.RadixReady CacheEngine.CacheEngine GlobalCache.GlobalCache GlobalPlan.GlobalPlan.
Local Open Scope Z_scope.

Module PlanTier.

Section tier.
Context `{!PrefixHash}.
Implicit Types (e : CacheEngine) (r : MatchResult) (hb : gset Z) (hs : list Z) (g : GlobalCacheEngine).

(** ** A match result that is still valid *)

(** The ready part of a match: its blocks are ready entries, and the node it ends in is there. *)
Record readable (hashes : list Z) e r : Prop := {
  rb_le : (num_ready_matched_blocks r <= num_matched_blocks r)%nat;
  rb_entry : ∀ i h b, (i < num_ready_matched_blocks r)%nat → hashes !! i = Some h → mr_physical_blocks r !! i = Some b → entry (index e) h b true;
  rb_node : ∃ n, last_ready_node r = Some n ∧ tree (index e) n ∧
    (n = root_node (index e) ∧ num_ready_matched_blocks r = 0%nat ∨ (0 < num_ready_matched_blocks r)%nat ∧
       ∃ i h, hashes !! (num_ready_matched_blocks r - 1)%nat = Some h ∧ block_hashes (nd (index e) n) !! i = Some h);
  rb_stop : ∀ h b, hashes !! num_ready_matched_blocks r = Some h → ¬ entry (index e) h b true;
}.

Record anchored (hashes : list Z) e r : Prop := {
  an_node : ∃ n, last_node r = Some n ∧ target_ok (index e) hashes n (num_matched_blocks r) (last_node_matched_length r);
  an_le : (num_matched_blocks r <= length hashes)%nat;
  an_maps : Forall2 (maps (root_node (index e)) (shapes (index e))) (List.firstn (num_matched_blocks r) hashes) (mr_physical_blocks r);
  an_free : ∀ j h b, (num_matched_blocks r <= j)%nat → hashes !! j = Some h → ¬ maps (root_node (index e)) (shapes (index e)) h b;
  an_readable : readable hashes e r;
}.

(** An entry is in one place: its readiness is that of the node of its hash. *)
Lemma entry_at_node t n i h b rd : wf t → entry t h b rd → tree t n → block_hashes (nd t n) !! i = Some h → rd = is_ready (nd t n).
Proof.
  intros Hwf (m & s & j & Hm & Hs & Hj & _ & <-) Hn Hi.
  by destruct (loc_inj _ _ (wf_core _ Hwf) h m n s _ j i Hm Hn Hs (tree_shape _ _ Hwf Hn) Hj Hi) as [-> _].
Qed.

Lemma entry_ready_fun t h b b' rd rd' : wf t → entry t h b rd → entry t h b' rd' → rd = rd'.
Proof.
  intros Hwf He (m & s & j & Hm & Hs & Hj & _ & <-). eapply entry_at_node; [done..|]. apply shapes_nd in Hs as ->. exact Hj.
Qed.

Lemma readable_match hashes e r t :
  wf (index e) → chained None hashes → match_spec (index e) hashes r → steady (index e) t → readable hashes (with_index t e) r.
Proof.
  intros Hwf Hc [M1 M2 M3 (open & lr & Hlr & [R1 R2 R3 R4 _ _]) M5] St. pose proof (sd_quiet _ _ St) as Q. split; simpl.
  - done.
  - intros i h b Hi Hh Hb. apply (entry_quiet (index e)); [done|]. destruct (R3 i Hi) as (n & j & (Hn & h' & Hh' & Hj) & Hr). assert (h' = h) as -> by congruence.
    assert (maps (root_node (index e)) (shapes (index e)) h b) as Hm.
    { eapply Forall2_lookup_lr; [exact M2| |exact Hb]. by apply lookup_take_Some; split; [|lia]. }
    apply entry_maps in Hm as [rd Hm]. by rewrite <- Hr, <- (entry_at_node _ _ _ _ _ _ Hwf Hm Hn Hj).
  - exists lr. split; [done|]. rewrite (q_root _ _ Q).
    assert (∀ n, tree (index e) n → in_tree (root_node (index e)) (shapes t) n) as Ht by (intros n; by rewrite (q_shapes _ _ Q)).
    destruct R4 as [[-> ->]|(Hr & _ & i & Hlt & h & Hh & Hi)]; [split; [apply Ht, in_root|by left]|].
    split; [by apply Ht|]. right. split; [done|]. exists i, h. split; [done|].
    pose proof (f_equal s_bh (quiet_nd_shape _ _ lr Q)) as Eb. simpl in Eb. by rewrite Eb.
  - intros h b Hh Hen%(entry_quiet (index e)); [|done]. destruct open.
    + rewrite R2 in Hh. apply (M3 _ _ b (le_n _) Hh). apply entry_maps. by exists true.
    + destruct R2 as [_ (n & i & (Hn & h' & Hh' & Hi) & Hr)]. assert (h' = h) as -> by congruence.
      pose proof (entry_at_node _ _ _ _ _ _ Hwf Hen Hn Hi). congruence.
Qed.

Lemma anchored_match hashes e r t :
  wf (index e) → chained None hashes → match_spec (index e) hashes r → steady (index e) t → anchored hashes (with_index t e) r.
Proof.
  intros Hwf Hc M St. pose proof (sd_quiet _ _ St) as Q.
  pose proof (readable_match _ _ _ _ Hwf Hc M St) as Hrd.
  destruct (match_target _ _ _ Hwf Hc M) as (n & Hn & _ & Ht). destruct M as [M1 M2 M3 M4 M5]. split; simpl.
  - exists n. split; [done|]. by eapply target_ok_quiet.
  - done.
  - by rewrite (q_shapes _ _ Q), (q_root _ _ Q).
  - rewrite (q_shapes _ _ Q), (q_root _ _ Q). done.
  - exact Hrd.
Qed.

(** A node none of whose blocks went away is still there, whole. *)
Lemma whole_node P prot e e' G n :
  wf (index e) → wf (index e') → shrunk P prot e e' G → tree (index e) n → (∀ h, h ∈ block_hashes (nd (index e) n) → h ∉ G) →
  tree (index e') n ∧ block_hashes (nd (index e') n) = block_hashes (nd (index e) n).
Proof.
  intros Hwf Hwf' Sh Hn Hkeep.
  assert (∀ i h, block_hashes (nd (index e) n) !! i = Some h → tree (index e') n ∧ block_hashes (nd (index e') n) !! i = Some h) as Hat.
  { intros i h Hi. destruct (placed_maps _ _ n _ i h (wf_core _ Hwf) Hn (tree_shape _ _ Hwf Hn) Hi) as [b Hb].
    apply entry_maps in Hb as [rd Hb]. assert (entry (index e') h b rd) as Hb'.
    { apply (sh_entry _ _ _ _ _ Sh). split; [done|]. apply Hkeep. by eapply list_elem_of_lookup_2. }
    destruct Hb' as (m & s & j & Hm & Hs & Hj & _). apply shapes_nd in Hs as ->. simpl in Hj.
    destruct (sh_tree _ _ _ _ _ Sh m Hm) as [Hmt Hpre]. pose proof (prefix_lookup_Some _ _ _ _ Hj Hpre) as Hj'.
    destruct (loc_inj _ _ (wf_core _ Hwf) h n m _ _ i j Hn Hmt (tree_shape _ _ Hwf Hn) (tree_shape _ _ Hwf Hmt) Hi Hj') as [<- <-]. done. }
  destruct (decide (n = root_node (index e))) as [->|Hr].
  - rewrite <- (sh_root _ _ _ _ _ Sh). split; [apply in_root|]. rewrite (proj1 (root_empty _ _ (wf_core _ Hwf') _ (tree_shape _ _ Hwf' (in_root _ _)))) at 1.
    rewrite (sh_root _ _ _ _ _ Sh). symmetry. apply (root_empty _ _ (wf_core _ Hwf) _ (tree_shape _ _ Hwf (in_root _ _))).
  - destruct (tree_parent _ _ Hwf Hn Hr) as (_ & _ & _ & _ & Hhd & _).
    assert (block_hashes (nd (index e) n) !! 0%nat = Some (head_hash (nd (index e) n))) as H0 by (by destruct (block_hashes _)).
    split; [by apply (Hat _ _ H0)|]. destruct (sh_tree _ _ _ _ _ Sh n) as [_ [l Hl]]; [by apply (Hat _ _ H0)|].
    destruct l as [|h l]; [by rewrite app_nil_r in Hl|].
    destruct (Hat (length (block_hashes (nd (index e') n))) h) as [_ E].
    + rewrite Hl. by rewrite lookup_app_r, Nat.sub_diag by lia.
    + apply lookup_lt_Some in E. lia.
Qed.

(** What an eviction leaves of the matched prefix is as ready as it was. *)
Lemma readable_shrunk P prot hashes e e' G r :
  wf (index e) → wf (index e') → shrunk P prot e e' G → readable hashes e r →
  Forall2 (maps (root_node (index e')) (shapes (index e'))) (List.firstn (num_matched_blocks r) hashes) (mr_physical_blocks r) → readable hashes e' r.
Proof.
  intros Hwf Hwf' Sh [H1 H2 (n & Hn & Htn & Hat) H4] Hm. split; [done| | |].
  - intros i h b Hi Hh Hb. assert (maps (root_node (index e')) (shapes (index e')) h b) as Hmap.
    { eapply Forall2_lookup_lr; [exact Hm| |exact Hb]. by apply lookup_take_Some; split; [|lia]. }
    apply entry_maps in Hmap as [rd Hrd]. pose proof (proj1 (proj1 (sh_entry _ _ _ _ _ Sh h b rd) Hrd)) as Hold.
    by rewrite (entry_ready_fun _ _ _ _ _ _ Hwf (H2 i h b Hi Hh Hb) Hold).
  - exists n. split; [done|]. destruct Hat as [[-> Hz]|(Hr & i & h & Hh & Hi)].
    { rewrite <- (sh_root _ _ _ _ _ Sh). split; [apply in_root|by left]. }
    assert (list.take (num_matched_blocks r) hashes !! (num_ready_matched_blocks r - 1)%nat = Some h) as Hj' by (apply lookup_take_Some; split; [done|lia]).
    destruct (Forall2_lookup_l _ _ _ _ _ Hm Hj') as (b & _ & (m & s & k & Hmt & Hs & Hk & _)). apply shapes_nd in Hs as ->. simpl in Hk.
    destruct (sh_tree _ _ _ _ _ Sh m Hmt) as [Hme Hpre]. pose proof (prefix_lookup_Some _ _ _ _ Hk Hpre) as Hk'.
    destruct (loc_inj _ _ (wf_core _ Hwf) h m n _ _ k i Hme Htn (tree_shape _ _ Hwf Hme) (tree_shape _ _ Hwf Htn) Hk' Hi) as [-> ->].
    split; [done|]. right. split; [done|]. by exists i, h.
  - intros h b Hh Hen. apply (H4 h b Hh). by apply (sh_entry _ _ _ _ _ Sh).
Qed.

(** Evicting with the match node protected keeps the matched prefix and the insertion point. *)
Lemma anchored_shrunk P hashes e e' G r :
  wf (index e) → wf (index e') → chained None hashes → anchored hashes e r → shrunk P (last_node r) e e' G → anchored hashes e' r.
Proof.
  intros Hwf Hwf' Hch [(n & Hn & Ht) Hle Hm Hf Hrd] Sh. set (k := num_matched_blocks r) in *. set (ml := last_node_matched_length r) in *.
  pose proof (proj1 (proj1 Ht)) as Htn.
  assert (∀ h b, maps (root_node (index e')) (shapes (index e')) h b → maps (root_node (index e)) (shapes (index e)) h b) as Hsub.
  { intros h b [rd Hb]%entry_maps. apply entry_maps. exists rd. by apply (sh_entry _ _ _ _ _ Sh) in Hb as [? _]. }
  destruct (whole_node P (last_node r) e e' G n Hwf Hwf' Sh Htn) as [Htn' Eb].
  { intros h Hh HG. by destruct (sh_safe _ _ _ _ _ Sh n h Htn Hh HG) as [_ []]. }
  pose proof (sh_root _ _ _ _ _ Sh) as Er.
  assert (∀ j h b, (k <= j)%nat → hashes !! j = Some h → ¬ maps (root_node (index e')) (shapes (index e')) h b) as Hf'.
  { intros j h b Hj Hh Hb%Hsub. by eapply Hf. }
  assert (anchor_ok (index e') hashes k n ml) as Ha.
  { split; [done|]. unfold agree, node_size. rewrite Eb, Er. apply Ht. }
  enough (Forall2 (maps (root_node (index e')) (shapes (index e'))) (List.firstn k hashes) (mr_physical_blocks r)) as Hm'.
  { split; [|done|exact Hm'|done|exact (readable_shrunk _ _ _ _ _ _ _ Hwf Hwf' Sh Hrd Hm')].
    exists n. split; [done|]. split; [done|]. intros h Hh.
    assert (∀ x i, tree (index e') x → block_hashes (nd (index e') x) !! i ≠ Some h) as Hun.
    { intros x i Hx Hi. destruct (placed_maps _ _ x _ i h (wf_core _ Hwf') Hx (tree_shape _ _ Hwf' Hx) Hi) as [b Hb]. by apply (Hf' k h b). }
    destruct (_ <? _)%nat; [by apply Hun|].
    destruct (dict_get h (children (nd (index e') n))) as [c|] eqn:Ed; [|done].
    destruct (tree_child _ _ _ _ Hwf' Htn' Ed) as (Hct & _ & _ & Hhd & _). exfalso. apply (Hun c 0%nat Hct). by destruct (block_hashes (nd (index e') c)). }
  assert (∀ i h, (i < k)%nat → hashes !! i = Some h → ∃ b, maps (root_node (index e')) (shapes (index e')) h b) as Hin.
    { destruct Ha as [_ [(_ & _ & E)|(_ & Hml & Hag)]]; [lia|].
      assert (∀ d i h, (i + d + 1 = k)%nat → hashes !! i = Some h → ∃ b, maps (root_node (index e')) (shapes (index e')) h b) as Hback.
      { intros d. induction d as [|d IH]; intros i h Hi Hh.
        - pose proof (agree_lookup _ _ _ _ _ (ml - 1) Hag ltac:(lia)) as El. replace (k - ml + (ml - 1))%nat with i in El by lia.
          rewrite Hh in El. by apply (placed_maps _ _ n _ (ml - 1) h (wf_core _ Hwf') Htn' (tree_shape _ _ Hwf' Htn')).
        - destruct (lookup_lt_is_Some_2 hashes (S i)) as [h' Hh']; [lia|].
          destruct (IH (S i) h' ltac:(lia) Hh') as [b Hb].
          pose proof (chained_lookup_pred _ _ _ _ Hch Hh') as Hp. simpl in Hp. rewrite Hh in Hp. by eapply maps_pred; [apply Hwf'|..]. }
      intros i h Hi. apply (Hback (k - i - 1)%nat). lia. }
  apply Forall2_same_length_lookup. split; [by eapply Forall2_length|]. intros i h b Hh Hb.
    pose proof (Forall2_lookup_lr _ _ _ _ _ _ Hm Hh Hb) as Hold.
    apply lookup_take_Some in Hh as [Hh Hi]. destruct (Hin i h Hi Hh) as [b' Hb'].
    assert (b = b') as -> by (by eapply maps_fun; [apply Hwf|exact Hold|apply Hsub]). done.
Qed.

(** ** A tier of the engine *)

(** The tier [d] holds [hb] and [hs]. *)
Definition owned g (d : DeviceType) hb hs : Prop := ∃ e, engine_of d g = Some e ∧ owns e hb hs.

(** ... and [r], a match of [hashes] on it, is still valid; [b] tells whether it has SWA slots. *)
Record tier_at (hashes : list Z) g (d : DeviceType) r hb hs (b : bool) : Prop := {
  ta_engine : ∃ e, engine_of d g = Some e ∧ owns e hb hs ∧ anchored hashes e r ∧ swa_enabled e = b ∧
    ∀ x, tree (index e) x → 0 <= lock_cnt (nd (index e) x);
}.

(** Only the tier [d] may have changed. *)
Record touches (d : DeviceType) g g' : Prop := {
  to_config : cache_config g' = cache_config g;
  to_others : ∀ d', d' ≠ d → engine_of d' g' = engine_of d' g;
}.

Lemma engine_of_with d e g : is_Some (engine_of d g) → engine_of d (with_engine d e g) = Some e.
Proof. destruct d; simpl; try done; by intros [? [=]]. Qed.

Lemma with_engine_touches d e g : touches d g (with_engine d e g).
Proof. split; [by destruct d|]. intros d' Hd. by destruct d, d'. Qed.

Lemma touches_refl d g : touches d g g. Proof. by split. Qed.
Lemma touches_trans d g1 g2 g3 : touches d g1 g2 → touches d g2 g3 → touches d g1 g3.
Proof. intros [A1 A2] [B1 B2]. split; [congruence|]. intros d' Hd. by rewrite B2, A2. Qed.

Lemma on_engine_run {A} x d (m : Engine A) g e o e' :
  engine_of d g = Some e → m e = (o, e') → on_engine x d m g = (o, with_engine d e' g).
Proof. unfold on_engine. by intros -> ->. Qed.

Lemma swa_enabled_same e e' : same_config e e' → swa_enabled e' = swa_enabled e.
Proof.
  intros Sc. unfold swa_enabled. rewrite (proj1 (sc_tier _ _ Sc)). f_equal. apply bool_decide_ext, Sc.
Qed.

Lemma tier_owned hashes g d r hb hs b : tier_at hashes g d r hb hs b → owned g d hb hs.
Proof. intros [(e & He & Ho & _)]. by exists e. Qed.

Lemma tier_other hashes g g' d d' r hb hs b : touches d g g' → d' ≠ d → tier_at hashes g d' r hb hs b → tier_at hashes g' d' r hb hs b.
Proof. intros T Hd [(e & He & R)]. split. exists e. split; [|done]. by rewrite (to_others _ _ _ T). Qed.
Lemma owned_other g g' d d' hb hs : touches d g g' → d' ≠ d → owned g d' hb hs → owned g' d' hb hs.
Proof. intros T Hd (e & He & R). exists e. split; [|done]. by rewrite (to_others _ _ _ T). Qed.

Lemma protectable_last hashes e r :
  anchored hashes e r → (∀ x, tree (index e) x → 0 <= lock_cnt (nd (index e) x)) → protectable e (last_node r).
Proof. intros [(n & Hn & Ht) _ _ _ _] Hl m Hm. assert (m = n) as -> by congruence. split; [apply Ht|]. apply Hl, Ht. Qed.

(** The tier after an eviction that protected the matched node. *)
Lemma tier_shrunk P hashes d g e e' G r hb hs b :
  engine_of d g = Some e → wf (index e) → chained None hashes → anchored hashes e r → swa_enabled e = b →
  (∀ x, tree (index e) x → 0 <= lock_cnt (nd (index e) x)) →
  owns e' hb hs → shrunk P (last_node r) e e' G → tier_at hashes (with_engine d e' g) d r hb hs b.
Proof.
  intros He Hwf Hc An Hb Hl Ho Sh. split. exists e'. split; [by apply engine_of_with|]. split; [done|].
  split; [eapply anchored_shrunk; [done|apply Ho|done|done|done]|]. split; [by rewrite (swa_enabled_same e e'), Hb by apply Sh|].
  intros x Hx. apply (sh_tree _ _ _ _ _ Sh) in Hx as [Hx _]. pose proof (sh_use _ _ _ _ _ Sh x) as U.
  unfold use_of in U. specialize (Hl x Hx). injection U as _ -> _. done.
Qed.

(** Nothing is left to evict on the tier [d] but the node [prot]. *)
Definition drained g (d : DeviceType) (prot : option nid) : Prop := ∃ e, engine_of d g = Some e ∧ exhausted prot e.

Lemma drained_other g g' d d' prot : touches d g g' → d' ≠ d → drained g d' prot → drained g' d' prot.
Proof. intros T Hd (e & He & R). exists e. split; [|done]. by rewrite (to_others _ _ _ T). Qed.

Lemma alike_evictable t t' x : alike t t' → evictable (nd t' x) = evictable (nd t x).
Proof.
  intros A. pose proof (al_use _ _ A x) as U. pose proof (al_shape _ _ A x) as Sx. unfold use_of, shape_of in U, Sx.
  injection U as E1 E2 E3. injection Sx as E4 E5 E6 E7. unfold evictable, is_root, is_leaf, in_use, num_children. by rewrite E1, E2, E3, ?E6, ?E7.
Qed.

Lemma take_tier x hashes d g r hb hs b num :
  chained None hashes → tier_at hashes g d r hb hs b →
  ∃ o g', on_engine x d (CacheEngine.take num (last_node r) false) g = (o, g') ∧ touches d g g' ∧
    ((∃ blocks, o = Ok blocks ∧ 0 <= num ∧ NoDup blocks ∧ (∀ c, c ∈ blocks → c ∉ hb) ∧ zlen blocks <= num ∧
        tier_at hashes g' d r (hb ∪ list_to_set blocks) hs b ∧ (zlen blocks = num ∨ drained g' d (last_node r))) ∨
     (∃ msg gone, o = Raise (ValueError msg) ∧ owned g' d (hb ∪ gone) hs)).
Proof.
  intros Hc [(e & He & Ho & An & Hb & Hl)]. pose proof (protectable_last _ _ _ An Hl) as Hp.
  destruct (take_ok num (last_node r) false e hb hs Ho Hp)
    as [(blocks & e' & G & E & H0 & HN & Hfr & Ho' & Sh & Hle & Hall)|[(msg & e' & G & _ & [=] & _)|(msg & e' & B & E & Ho' & _)]];
    eexists _, _; (split; [by eapply on_engine_run|]); (split; [apply with_engine_touches|]).
  - left. exists blocks. split_and!; try done.
    + by eapply tier_shrunk; [done|apply Ho|..].
    + destruct Hall as [?|(_ & _ & Hx)]; [by left|right]. exists e'. split; [by apply engine_of_with|done].
  - right. exists msg, (list_to_set B). split; [done|]. exists e'. split; [by apply engine_of_with|done].
Qed.

Lemma alloc_tier x hashes d g r hb hs b :
  chained None hashes → tier_at hashes g d r hb hs b →
  ∃ s g', on_engine x d (_alloc_swa_slot (last_node r)) g = (Ok s, g') ∧ touches d g g' ∧ -1 <= s ∧
    tier_at hashes g' d r hb (one_slot s ++ hs) b.
Proof.
  intros Hc [(e & He & Ho & An & Hb & Hl)]. pose proof (protectable_last _ _ _ An Hl) as Hp.
  destruct (alloc_slot_ok (last_node r) e hb hs Ho Hp) as (s & e' & G & E & Sh & Hs).
  exists s. eexists. split; [by eapply on_engine_run|]. split; [apply with_engine_touches|].
  destruct Hs as [(Hpos & Ho')|(-> & Ho' & _)].
  - split; [lia|]. unfold one_slot. rewrite (proj2 (Z.leb_le _ _)) by done. by eapply tier_shrunk; [done|apply Ho|..].
  - split; [lia|]. by eapply tier_shrunk; [done|apply Ho|..].
Qed.

(** The same nodes and the same cached blocks on every tier. *)
Definition same_nodes g g' : Prop :=
  ∀ d e', engine_of d g' = Some e' → ∃ e, engine_of d g = Some e ∧
    (∀ n, tree (index e') n ↔ tree (index e) n) ∧ (∀ h c rd, entry (index e') h c rd ↔ entry (index e) h c rd).

#[export] Instance same_nodes_preorder : PreOrder same_nodes.
Proof.
  split; [intros g d e He; by exists e|]. intros g1 g2 g3 A B d e3 He3. destruct (B d e3 He3) as (e2 & He2 & T2 & N2).
  destruct (A d e2 He2) as (e1 & He1 & T1 & N1). exists e1. split; [done|]. split; [intros n; by rewrite T2|intros h c rd; by rewrite N2].
Qed.

Lemma same_nodes_tier d g g' e e' :
  touches d g g' → engine_of d g = Some e → engine_of d g' = Some e' → (∀ n, tree (index e') n ↔ tree (index e) n) →
  (∀ h c rd, entry (index e') h c rd ↔ entry (index e) h c rd) → same_nodes g g'.
Proof.
  intros T He He' Ht Hn d' e2 He2. destruct (decide (d' = d)) as [->|Hd].
  - assert (e2 = e') as -> by congruence. by exists e.
  - rewrite (to_others _ _ _ T) in He2 by done. by exists e2.
Qed.

(** ... and nothing changed in their use either. *)
Definition alike_tiers g g' : Prop := ∀ d e', engine_of d g' = Some e' → ∃ e, engine_of d g = Some e ∧ alike (index e) (index e').

#[export] Instance alike_tiers_preorder : PreOrder alike_tiers.
Proof.
  split; [intros g d e He; by exists e|]. intros g1 g2 g3 A B d e3 He3. destruct (B d e3 He3) as (e2 & He2 & B2).
  destruct (A d e2 He2) as (e1 & He1 & A1). exists e1. split; [done|]. by etrans.
Qed.

Lemma drained_alike g g' d prot : has_engine d g' = true → alike_tiers g g' → drained g d prot → drained g' d prot.
Proof.
  unfold has_engine. intros Hh A (e & He & Hx). destruct (engine_of d g') as [e'|] eqn:He'; [|done].
  destruct (A d e' He') as (e1 & He1 & Al). assert (e1 = e) as -> by congruence. exists e'. split; [done|].
  intros x Hx' Hp. rewrite (alike_evictable _ _ _ Al). apply Hx; [by apply (al_tree _ _ Al)|done].
Qed.

Lemma drained_touch d g g' hb hs d' prot : touches d g g' → owned g' d hb hs → alike_tiers g g' → drained g d' prot → drained g' d' prot.
Proof.
  intros T (e & He & _) A Hx. destruct (decide (d' = d)) as [->|Hd]; [|by eapply drained_other].
  eapply drained_alike; [|done|done]. unfold has_engine. by rewrite He.
Qed.

Lemma alike_same_nodes g g' : alike_tiers g g' → same_nodes g g'.
Proof. intros A d e' He'. destruct (A d e' He') as (e & He & Al). exists e. split; [done|]. split; apply Al. Qed.

Lemma alike_tier d g g' e e' :
  touches d g g' → engine_of d g = Some e → engine_of d g' = Some e' → alike (index e) (index e') → alike_tiers g g'.
Proof.
  intros T He He' A d' e2 He2. destruct (decide (d' = d)) as [->|Hd].
  - assert (e2 = e') as -> by congruence. by exists e.
  - rewrite (to_others _ _ _ T) in He2 by done. by exists e2.
Qed.

Lemma recycle_tier x d g hb hs B :
  owned g d (hb ∪ list_to_set B) hs → NoDup B → (∀ c, c ∈ B → c ∉ hb) →
  ∃ g', on_engine x d (recycle B) g = (Ok (), g') ∧ touches d g g' ∧ owned g' d hb hs ∧ alike_tiers g g'.
Proof.
  intros (e & He & Ho) HN Hd. destruct (recycle_run e (hb ∪ list_to_set B) hs B Ho HN) as (e' & E & Ho' & A & _).
  { intros c Hc. apply elem_of_union. right. by apply elem_of_list_to_set. }
  pose proof (with_engine_touches d e' g) as T. pose proof (engine_of_with d e' g (mk_is_Some _ _ He)) as He'.
  eexists. split; [by eapply on_engine_run|]. split; [done|]. split; [|by eapply alike_tier].
  exists e'. split; [done|].
  replace ((hb ∪ list_to_set B) ∖ list_to_set B) with hb in Ho'; [done|]. apply set_eq. intros c. specialize (Hd c).
  rewrite elem_of_difference, elem_of_union, elem_of_list_to_set. tauto.
Qed.

Lemma free_slot_run x d g hb hs s :
  owned g d hb (one_slot s ++ hs) → ∃ g', (if 0 <=? s then on_engine x d (_free_swa_slot s) else mret ()) g = (Ok (), g') ∧ touches d g g' ∧ owned g' d hb hs ∧ alike_tiers g g'.
Proof.
  intros (e & He & Ho). unfold one_slot in Ho. destruct (Z.leb_spec 0 s) as [Hs|Hs].
  2:{ exists g. split; [done|]. split; [apply touches_refl|]. by split; [exists e|]. }
  destruct (swa_pool e) as [sp|] eqn:Esp.
  2:{ destruct Ho as [_ _ Ho]. rewrite Esp in Ho. by destruct Ho as [_ [=]]. }
  destruct (free_slot_owner (index e) sp (s :: hs) hs s) as (sp' & E & Ho' & _); [rewrite <- Esp; apply Ho|done|].
  exists (with_engine d (with_swa_pool (Some sp') e) g). split.
  { eapply on_engine_run; [done|]. unfold _free_swa_slot. by rewrite Esp, E. }
  pose proof (with_engine_touches d (with_swa_pool (Some sp') e) g) as T. pose proof (engine_of_with d (with_swa_pool (Some sp') e) g (mk_is_Some _ _ He)) as He'.
  split; [done|]. split; [|by eapply alike_tier]. eexists. split; [done|]. by split; [apply Ho|apply Ho|].
Qed.

Lemma free_swa_run d g hb hs s : owned g d hb (one_slot s ++ hs) → ∃ g', free_swa d s g = (Ok (), g') ∧ touches d g g' ∧ owned g' d hb hs ∧ same_nodes g g'.
Proof. intros Ho. destruct (free_slot_run AttributeError d g hb hs s Ho) as (g' & E & T & Ho' & A). exists g'. split; [exact E|]. split_and!; [done..|by apply alike_same_nodes]. Qed.

(** ** The match, and the insertion *)

Section ops.
Context (XXH64 : list Z → Z) (clock : nat → float).

(** A tier before a plan. *)
Definition tier_ok g (d : DeviceType) hb hs (b : bool) : Prop :=
  ∃ e, engine_of d g = Some e ∧ owns e hb hs ∧ swa_enabled e = b ∧ ∀ x, tree (index e) x → 0 <= lock_cnt (nd (index e) x).

(** The blocks the index of [d] gives for the hashes. *)
Definition tier_map g (d : DeviceType) (hashes blocks : list Z) : Prop :=
  ∃ e, engine_of d g = Some e ∧ Forall2 (maps (root_node (index e)) (shapes (index e))) hashes blocks.

Lemma tier_map_other g g' d d' l k : touches d g g' → d' ≠ d → tier_map g d' l k → tier_map g' d' l k.
Proof. intros T Hd (e & He & R). exists e. split; [|done]. by rewrite (to_others _ _ _ T). Qed.

Lemma tier_ok_other g g' d d' hb hs b : touches d g g' → d' ≠ d → tier_ok g d' hb hs b → tier_ok g' d' hb hs b.
Proof. intros T Hd (e & He & R). exists e. split; [|done]. by rewrite (to_others _ _ _ T). Qed.

Lemma match_tier_run d s g hb hs b :
  seq_ok XXH64 s → tier_ok g d hb hs b →
  ∃ r g', match_tier XXH64 clock d false s g = (Ok r, g') ∧ touches d g g' ∧ tier_at (hashes_of XXH64 s) g' d r hb hs b.
Proof.
  intros Hs (e & He & Ho & Hb & Hl). destruct (match_run XXH64 clock e hb hs s Ho Hs) as (r & t & E & Ho' & St & M).
  exists r. eexists. split.
  { unfold match_tier. rewrite M_bind_run. cbn [get_state]. unfold has_engine. rewrite He. simpl. by eapply on_engine_run. }
  split; [apply with_engine_touches|]. split. exists (with_index t e). split; [by apply engine_of_with|]. split; [done|].
  split; [apply (anchored_match _ _ _ _ (ow_wf _ _ _ Ho) (proj2 Hs) M St)|]. split; [done|].
  pose proof (sd_quiet _ _ St) as Q. intros x. simpl. rewrite (q_shapes _ _ Q), (q_root _ _ Q). intros Hx.
  pose proof (quiet_nd_use _ _ x Q) as U. unfold use_of in U. injection U as _ -> _. by apply Hl.
Qed.

Lemma match_tier_skip d ig s g : ig = true ∨ engine_of d g = None → match_tier XXH64 clock d ig s g = (Ok empty_match, g).
Proof.
  intros Hd. unfold match_tier. rewrite M_bind_run. cbn [get_state]. unfold has_engine.
  destruct Hd as [-> | ->]; [by rewrite andb_false_r|done].
Qed.

Lemma match_tier_on d s g hb hs b ig : tier_ok g d hb hs b → ig = false → match_tier XXH64 clock d ig s g = match_tier XXH64 clock d false s g.
Proof. by intros _ ->. Qed.

(** A new node of [d], as a plan leaves it. *)
Record stored g (d : DeviceType) (w : nid) (hashes blocks : list Z) : Prop := {
  so_node : ∃ e, engine_of d g = Some e ∧ tree (index e) w ∧ w ≠ root_node (index e) ∧ block_hashes (nd (index e) w) = hashes ∧
    physical_blocks (nd (index e) w) = blocks ∧ children (nd (index e) w) = [] ∧ use_of (nd (index e) w) = (false, 0, 0);
}.

Lemma stored_other g g' d d' w l k : touches d g g' → d' ≠ d → stored g d' w l k → stored g' d' w l k.
Proof. intros T Hd [(e & He & R)]. split. exists e. split; [|done]. by rewrite (to_others _ _ _ T). Qed.

(** [d] has the entry [h], [c], [rd]. *)
Definition tier_entry g (d : DeviceType) (h c : Z) (rd : bool) : Prop := ∃ e, engine_of d g = Some e ∧ entry (index e) h c rd.

Lemma tier_entry_other g g' d d' h c rd : touches d g g' → d' ≠ d → tier_entry g d' h c rd → tier_entry g' d' h c rd.
Proof. intros T Hd (e & He & R). exists e. split; [|done]. by rewrite (to_others _ _ _ T). Qed.

Lemma insert_tier x d g s r hb hs b B nib :
  seq_ok XXH64 s → tier_at (hashes_of XXH64 s) g d r (hb ∪ list_to_set B) hs b → NoDup B → (∀ c, c ∈ B → c ∉ hb) →
  0 <= num_insert s nib <= Z.of_nat (num_blocks s) → zlen B = num_insert s nib - Z.of_nat (num_matched_blocks r) → B ≠ [] →
  ∃ w g', on_engine x d (CacheEngine.insert XXH64 clock s B nib false (Some r)) g = (Ok (Some w), g') ∧ touches d g g' ∧
    owned g' d hb hs ∧ stored g' d w (new_hashes XXH64 s (num_matched_blocks r) nib) B ∧
    tier_map g' d (list.take (Z.to_nat (num_insert s nib)) (hashes_of XXH64 s)) (mr_physical_blocks r ++ B) ∧
    (∀ h c rd, tier_entry g d h c rd → tier_entry g' d h c rd).
Proof.
  intros Hs [(e & He & Ho & [(n & Hn & Ht) Hle Hm Hf _] & Hb & Hl)] HN Hd Hni Hsize HBne.
  set (k := num_matched_blocks r) in *. pose proof (ow_wf _ _ _ Ho) as Hwf.
  assert (Z.of_nat k < num_insert s nib) as Hlt by (unfold zlen in Hsize; destruct B; [done|simpl in Hsize; lia]).
  pose proof (tree_live _ _ Hwf (proj1 (proj1 Ht))) as Hlive.
  destruct (insert_with_result XXH64 clock (index e) s B nib false r n Hwf Hs Hn Hlive) as [(_ & w & t' & E & _ & Hin)|[[] _]]; [by split|done| |done].
  pose proof (insert_run XXH64 clock e (hb ∪ list_to_set B) hs s B nib false (Some r) Ho Hs) as R.
  assert (CacheEngine.insert XXH64 clock s B nib false (Some r) e = (Ok (Some w), with_index t' e)) as E' by (by apply on_index_run).
  rewrite E' in R. destruct R as [Ho' _].
  { intros r' m [= <-] Hm'. assert (m = n) as -> by congruence. done. } { done. }
  { intros c Hc. apply elem_of_union. right. by apply elem_of_list_to_set. }
  exists w. eexists. split; [by eapply on_engine_run|]. split; [apply with_engine_touches|].
  assert (engine_of d (with_engine d (with_index t' e) g) = Some (with_index t' e)) as He' by (by apply engine_of_with).
  split.
  { exists (with_index t' e). split; [done|].
    replace ((hb ∪ list_to_set B) ∖ list_to_set B) with hb in Ho'; [done|]. apply set_eq. intros c. specialize (Hd c).
    rewrite elem_of_difference, elem_of_union, elem_of_list_to_set. tauto. }
  split.
  { split. exists (with_index t' e). split; [done|]. simpl. destruct (ins_node _ _ _ _ _ _ Hin) as (? & ? & ? & ? & ?).
    split_and!; [done..|]. apply (ins_use _ _ _ _ _ _ Hin). }
  split; [|intros h c rd (e1 & He1 & Hen); assert (e1 = e) as -> by congruence; exists (with_index t' e); by split; [|apply (ins_entry _ _ _ _ _ _ Hin); left]].
  exists (with_index t' e). split; [done|]. simpl.
  assert (∀ h c, maps (root_node t') (shapes t') h c ↔ maps (root_node (index e)) (shapes (index e)) h c ∨ ∃ i, new_hashes XXH64 s k nib !! i = Some h ∧ B !! i = Some c) as Hmaps.
  { intros h c. rewrite !entry_maps. setoid_rewrite (ins_entry _ _ _ _ _ _ Hin). fold k. naive_solver. }
  assert (list.take (Z.to_nat (num_insert s nib)) (hashes_of XXH64 s) = list.take k (hashes_of XXH64 s) ++ new_hashes XXH64 s k nib) as ->.
  { unfold new_hashes. rewrite take_take_drop. f_equal. lia. }
  assert (length (new_hashes XXH64 s k nib) = length B) as HlB.
  { unfold new_hashes, zlen in *. rewrite length_take, length_drop, (proj1 Hs). lia. }
  apply Forall2_app.
  - eapply Forall2_impl; [exact Hm|]. intros h c Hh. apply Hmaps. by left.
  - apply Forall2_same_length_lookup. split; [done|]. intros i h c Hh Hc. apply Hmaps. right. by exists i.
Qed.
End ops.

(** ** Steps of a planner *)

(** The planner is at [g], with the graph [ops], [edges]. *)
Definition plan_at (p : Planning) g (ops : list TransferOp) (edges : list (Z * Z)) : Prop := p.1 = g ∧ holds p.2 ops edges.

Lemma on_global_run {A} (m : Global A) p o g' : m p.1 = (o, g') → on_global m p = (o, (g', p.2)).
Proof. unfold on_global. by intros ->. Qed.
Lemma on_build_run {A} (m : Build A) p o b' : m p.2 = (o, b') → on_build m p = (o, (p.1, b')).
Proof. unfold on_build. by intros ->. Qed.

Definition kv_lane (o : TransferOp) : TransferType * list Z * list Z := (transfer_type o, src_block_ids o, dst_block_ids o).

Lemma kv_op_run ty src dst dp p g ops edges :
  plan_at p g ops edges → length src = length dst →
  ∃ o p', kv_op ty src dst dp p = (Ok (op_id o), p') ∧ plan_at p' g (ops ++ [o]) edges ∧ kv_lane o = (ty, src, dst) ∧ is_swa o = false.
Proof.
  intros [<- Hh] Hl. destruct (holds_new p.2 ops edges ty src dst dp false None None Hh Hl) as (E1 & E2 & Hh' & _).
  exists (made p.2 ty src dst dp false None None). eexists. split.
  { unfold kv_op. apply on_build_run. rewrite M_bind_run, E1, M_bind_run, E2. done. }
  split; [by split|done].
Qed.

Lemma depends_on_run s k p g ops edges :
  plan_at p g ops edges → s ∈ op_id <$> ops → k ∈ op_id <$> ops →
  ∃ p', depends_on s k p = (Ok (), p') ∧ plan_at p' g ops ((s, k) :: edges).
Proof.
  intros [<- Hh] Hs Hk. destruct (holds_depend p.2 ops edges s k Hh Hs Hk) as (b' & E & _ & _ & Hh').
  eexists. split; [by apply on_build_run|]. by split.
Qed.

Lemma plan_global {A} (m : Global A) p g ops edges o g' :
  plan_at p g ops edges → m g = (o, g') → ∃ p', on_global m p = (o, p') ∧ plan_at p' g' ops edges.
Proof. intros [<- Hh] E. eexists. split; [by apply on_global_run|]. by split. Qed.

Lemma size_of_run d w g p ops edges l k :
  plan_at p g ops edges → stored g d w l k → size_of d w p = (Ok (zlen l), p).
Proof.
  intros [<- Hh] [(e & He & _ & _ & Hb & _)]. unfold size_of. destruct p as [g b]. simpl in *. unfold on_global. cbn [fst snd].
  unfold gets. rewrite M_bind_run, He. simpl. by rewrite Hb.
Qed.
End tier.
End PlanTier.
