(* ===== verification/PutPlan.v ===== *)
(** * PutPlan: what a write plan holds and leaves behind

    Proofs about [_put_impl_local] ([GlobalPlan]): every block and SWA slot the
    planner takes is either in a new node of its tier, listed in the plan, or
    given back, and the ops of the plan move each block between the places the
    tiers' indexes give for it. *)

From S2P Require Import Prelude PyFloat Block Transfer GraphBuild SWAOps Mempool SWAHostPool RadixTree RadixCore RadixLeaf RadixWf RadixMatch RadixInsert RadixDetach RadixEvict RadixReady RadixSpec CacheEngine GlobalCache GlobalPlan PlanTier.
Import GraphBuild.GraphBuild SWAOps.SWAOps RadixTree.RadixTree RadixWf.RadixWf RadixMatch.RadixMatch RadixInsert.RadixInsert CacheEngine.CacheEngine GlobalCache.GlobalCache GlobalPlan.GlobalPlan PlanTier.PlanTier.
Local Open Scope Z_scope.

Module PutPlan.

Section put.
Context `{!PrefixHash}.
Implicit Types (g : GlobalCacheEngine) (hb : gset Z) (hs : list Z) (blocks : option (list Z)).

(** ** Tiers with or without blocks in hand *)

Definition kept g (d : DeviceType) hb hs : Prop := engine_of d g = None ∨ owned g d hb hs.

(** The plan has [blocks] and [slot] of the tier in hand; [None] for a tier it does not use. *)
Definition in_hand (hashes : list Z) g (d : DeviceType) (r : MatchResult) hb hs (b : bool) blocks (slot : Z) : Prop :=
  match blocks with
  | None => slot = -1 ∧ kept g d hb hs
  | Some B => tier_at hashes g d r (hb ∪ list_to_set B) (one_slot slot ++ hs) b ∧ NoDup B ∧ (∀ c, c ∈ B → c ∉ hb)
  end.

(** The same, the slot gone and the match forgotten. *)
Definition blocks_in_hand g (d : DeviceType) hb hs blocks : Prop :=
  match blocks with
  | None => kept g d hb hs
  | Some B => owned g d (hb ∪ list_to_set B) hs ∧ NoDup B ∧ (∀ c, c ∈ B → c ∉ hb)
  end.

(** [blocks] and [slot] are held besides the books of the tier. *)
Definition goods g (d : DeviceType) hb hs blocks (slot : Z) : Prop :=
  match blocks with
  | None => slot = -1 ∧ kept g d hb hs
  | Some B => owned g d (hb ∪ list_to_set B) (one_slot slot ++ hs) ∧ NoDup B ∧ (∀ c, c ∈ B → c ∉ hb)
  end.

Lemma in_hand_goods hashes g d r hb hs b blocks slot : in_hand hashes g d r hb hs b blocks slot → goods g d hb hs blocks slot.
Proof. destruct blocks as [B|]; [|done]. intros (Ht & ? & ?). split; [by eapply tier_owned|done]. Qed.

Lemma kept_other g g' d d' hb hs : touches d g g' → d' ≠ d → kept g d' hb hs → kept g' d' hb hs.
Proof. intros T Hd [Hn|Ho]; [left; by rewrite (to_others _ _ _ T)|right; by eapply owned_other]. Qed.

Lemma in_hand_other hashes g g' d d' r hb hs b blocks slot :
  touches d g g' → d' ≠ d → in_hand hashes g d' r hb hs b blocks slot → in_hand hashes g' d' r hb hs b blocks slot.
Proof.
  intros T Hd. unfold in_hand. destruct blocks as [B|].
  - intros (Ht & ? & ?). split; [by eapply tier_other|done].
  - intros [? ?]. split; [done|]. by eapply kept_other.
Qed.

Lemma blocks_in_hand_other g g' d d' hb hs blocks :
  touches d g g' → d' ≠ d → blocks_in_hand g d' hb hs blocks → blocks_in_hand g' d' hb hs blocks.
Proof.
  intros T Hd. unfold blocks_in_hand. destruct blocks as [B|].
  - intros (Ht & ? & ?). split; [by eapply owned_other|done].
  - by eapply kept_other.
Qed.

Lemma alloc_in_hand hashes g d r hb hs b blocks (wanted : bool) node :
  chained None hashes → in_hand hashes g d r hb hs b blocks (-1) → (wanted = true → is_Some blocks ∧ node = last_node r) →
  ∃ s g', (if wanted then self_engine d (_alloc_swa_slot node) else mret (-1)) g = (Ok s, g') ∧ touches d g g' ∧ -1 <= s ∧
    (wanted = false → s = -1) ∧ in_hand hashes g' d r hb hs b blocks s.
Proof.
  intros Hc Hh Hw. destruct wanted.
  2:{ exists (-1), g. split; [done|]. split; [apply touches_refl|]. done. }
  destruct (Hw eq_refl) as [[B ->] ->]. destruct Hh as (Ht & HN & Hd).
  destruct (alloc_tier AttributeError hashes d g r _ _ b Hc Ht) as (s & g' & E & T & Hs & Ht').
  exists s, g'. split_and!; done.
Qed.

Lemma goods_other g g' d d' hb hs blocks slot : touches d g g' → d' ≠ d → goods g d' hb hs blocks slot → goods g' d' hb hs blocks slot.
Proof.
  intros T Hd. unfold goods. destruct blocks as [B|].
  - intros (Ht & ? & ?). split; [by eapply owned_other|done].
  - intros [? ?]. split; [done|]. by eapply kept_other.
Qed.

Lemma free_goods g d hb hs blocks slot :
  goods g d hb hs blocks slot → ∃ g', free_swa d slot g = (Ok (), g') ∧ touches d g g' ∧ blocks_in_hand g' d hb hs blocks ∧ alike_tiers g g'.
Proof.
  unfold goods. destruct blocks as [B|].
  - intros (Ho & HN & Hd). destruct (free_slot_run AttributeError d g (hb ∪ list_to_set B) hs slot Ho) as (g' & E & T & Ho' & A). by exists g'.
  - intros [-> Hk]. exists g. split; [done|]. split; [apply touches_refl|done].
Qed.

Lemma recycle_in_hand g d hb hs blocks :
  blocks_in_hand g d hb hs blocks →
  ∃ g', recycle_opt d blocks g = (Ok (), g') ∧ touches d g g' ∧ kept g' d hb hs ∧ alike_tiers g g' ∧ ∀ d' prot, drained g d' prot → drained g' d' prot.
Proof.
  unfold blocks_in_hand. destruct blocks as [B|].
  - intros (Ho & HN & Hd). destruct (recycle_tier AttributeError d g hb hs B Ho HN Hd) as (g' & E & T & Ho' & A).
    exists g'. split; [done|]. split; [done|]. split; [by right|]. split; [done|]. intros d' prot. by eapply drained_touch.
  - intros Hk. exists g. split; [done|]. split; [apply touches_refl|done].
Qed.

Lemma tier_swa hashes g r hb hs b : tier_at hashes g CPU r hb hs b → swa_transfer_enabled g = enable_swa_transfer (cache_config g) && b.
Proof. intros [(e & He & _ & _ & Hb & _)]. unfold swa_transfer_enabled, tier_swa_enabled. rewrite He. by rewrite Hb. Qed.

(** Only [CPU], [SSD] and [REMOTE] have engines: the three tiers in hand, and the configuration. *)
Record hands (hashes : list Z) (cfg : CacheConfig) g (rc rs rr : MatchResult) (W : DeviceType → gset Z * list Z) (bc bs br : bool)
    (Bc : list Z) (Bs Br : option (list Z)) (sc ss sr : Z) : Prop := {
  hd_cpu : in_hand hashes g CPU rc (W CPU).1 (W CPU).2 bc (Some Bc) sc;
  hd_ssd : in_hand hashes g SSD rs (W SSD).1 (W SSD).2 bs Bs ss;
  hd_remote : in_hand hashes g REMOTE rr (W REMOTE).1 (W REMOTE).2 br Br sr;
  hd_config : cache_config g = cfg;
}.

(** Every tier holds what it did. *)
Definition global_owns g (W : DeviceType → gset Z * list Z) : Prop := ∀ d, kept g d (W d).1 (W d).2.

Lemma global_owns_three g W :
  kept g CPU (W CPU).1 (W CPU).2 → kept g SSD (W SSD).1 (W SSD).2 → kept g REMOTE (W REMOTE).1 (W REMOTE).2 → global_owns g W.
Proof. intros ? ? ? d. destruct d; try done; by left. Qed.

(** The failure path gives everything back. *)
Lemma fail_goods_run cfg g W Bc Bs Br sc ss sr :
  goods g CPU (W CPU).1 (W CPU).2 (Some Bc) sc → goods g SSD (W SSD).1 (W SSD).2 Bs ss → goods g REMOTE (W REMOTE).1 (W REMOTE).2 Br sr →
  cache_config g = cfg →
  ∃ g', _fail_put_before_insert Bc sc Bs ss Br sr g = (Ok (), g') ∧ global_owns g' W ∧ cache_config g' = cfg ∧ alike_tiers g g'.
Proof.
  intros H1 H2 H3 Hcfg. unfold _fail_put_before_insert.
  destruct (free_goods _ _ _ _ _ _ H1) as (g1 & E1 & T1 & K1 & A1). run_step E1.
  destruct (free_goods g1 SSD (W SSD).1 (W SSD).2 Bs ss) as (g2 & E2 & T2 & K2 & A2); [by eapply goods_other|]. run_step E2.
  destruct (free_goods g2 REMOTE (W REMOTE).1 (W REMOTE).2 Br sr) as (g3 & E3 & T3 & K3 & A3).
  { eapply goods_other; [exact T2|done|]. by eapply goods_other. } run_step E3.
  destruct (recycle_in_hand g3 CPU (W CPU).1 (W CPU).2 (Some Bc)) as (g4 & E4 & T4 & K4 & A4 & _).
  { eapply blocks_in_hand_other; [exact T3|done|]. by eapply blocks_in_hand_other. }
  cbn [recycle_opt] in E4. run_step E4.
  destruct (recycle_in_hand g4 SSD (W SSD).1 (W SSD).2 Bs) as (g5 & E5 & T5 & K5 & A5 & _).
  { eapply blocks_in_hand_other; [exact T4|done|]. by eapply blocks_in_hand_other. } run_step E5.
  destruct (recycle_in_hand g5 REMOTE (W REMOTE).1 (W REMOTE).2 Br) as (g6 & E6 & T6 & K6 & A6 & _).
  { eapply blocks_in_hand_other; [exact T5|done|]. by eapply blocks_in_hand_other. }
  exists g6. split; [done|]. split; [|split].
  - apply global_owns_three; [|by eapply kept_other|done]. eapply kept_other; [exact T6|done|]. by eapply kept_other.
  - by rewrite (to_config _ _ _ T6), (to_config _ _ _ T5), (to_config _ _ _ T4), (to_config _ _ _ T3), (to_config _ _ _ T2), (to_config _ _ _ T1).
  - etrans; [exact A1|]. etrans; [exact A2|]. etrans; [exact A3|]. etrans; [exact A4|]. etrans; [exact A5|exact A6].
Qed.

Lemma fail_put_run hashes cfg g rc rs rr W bc bs br Bc Bs Br sc ss sr :
  hands hashes cfg g rc rs rr W bc bs br Bc Bs Br sc ss sr →
  ∃ g', _fail_put_before_insert Bc sc Bs ss Br sr g = (Ok (), g') ∧ global_owns g' W ∧ cache_config g' = cfg.
Proof.
  intros [H1 H2 H3 Hcfg]. destruct (fail_goods_run cfg g W Bc Bs Br sc ss sr) as (g' & E & Ho & C & _); [by eapply in_hand_goods..|done|]. by exists g'.
Qed.

(** The slots: one per tier that is written, or none and everything is given back. *)
Lemma with_slots_run hashes cfg g rc rs rr W bc bs br Bc Bs Br ns nr (to_ssd to_remote : bool) :
  chained None hashes → hands hashes cfg g rc rs rr W bc bs br Bc Bs Br (-1) (-1) (-1) →
  (to_ssd = true → is_Some Bs ∧ ns = last_node rs) → (to_remote = true → is_Some Br ∧ nr = last_node rr) →
  ∃ o g', with_slots (last_node rc) ns nr to_ssd to_remote Bc Bs Br g = (Ok o, g') ∧
    match o with
    | None => global_owns g' W ∧ cache_config g' = cfg ∧ enable_swa_transfer cfg && bc = true
    | Some R => ∃ sc ss sr, R = mkResources Bc Bs Br sc ss sr ∧ hands hashes cfg g' rc rs rr W bc bs br Bc Bs Br sc ss sr ∧
        (if enable_swa_transfer cfg && bc then 0 <= sc ∧ (0 <= ss ↔ to_ssd = true) ∧ (0 <= sr ↔ to_remote = true) else sc = -1 ∧ ss = -1 ∧ sr = -1) ∧
        -1 <= sc ∧ -1 <= ss ∧ -1 <= sr
    end.
Proof.
  intros Hc [H1 H2 H3 Hcfg] Hs Hr. unfold with_slots, put_swa_slots. rewrite !M_bind_run. cbn [get_state].
  pose proof (tier_swa _ _ _ _ _ _ (proj1 H1)) as Esw. rewrite Hcfg in Esw. rewrite Esw.
  destruct (enable_swa_transfer cfg && bc) eqn:Eon; cbn [negb].
  2:{ cbn [mret M_ret]. rewrite !M_bind_run. cbn [get_state]. unfold slots_missing. rewrite Esw. cbn [andb].
      eexists _, g. split; [done|]. exists (-1), (-1), (-1). split; [done|]. split; [by split|]. lia. }
  destruct (alloc_in_hand hashes g CPU rc _ _ bc (Some Bc) true (last_node rc) Hc H1) as (sc & g1 & E1 & T1 & B1 & _ & K1); [done|]. run_step E1.
  destruct (alloc_in_hand hashes g1 SSD rs (W SSD).1 (W SSD).2 bs Bs ((0 <=? sc) && to_ssd) ns Hc) as (ss & g2 & E2 & T2 & B2 & W2 & K2);
    [by eapply in_hand_other|by intros [_ ?]%andb_true_iff; apply Hs|]. run_step E2.
  destruct (alloc_in_hand hashes g2 REMOTE rr (W REMOTE).1 (W REMOTE).2 br Br ((0 <=? sc) && (negb to_ssd || (0 <=? ss)) && to_remote) nr Hc) as (sr & g3 & E3 & T3 & B3 & W3 & K3);
    [|by intros [_ ?]%andb_true_iff; apply Hr|].
  { eapply in_hand_other; [exact T2|done|]. by eapply in_hand_other. } run_step E3. cbn [mret M_ret]. rewrite !M_bind_run. cbn [get_state].
  assert (cache_config g3 = cfg) as Hcfg3 by (by rewrite (to_config _ _ _ T3), (to_config _ _ _ T2), (to_config _ _ _ T1)).
  assert (hands hashes cfg g3 rc rs rr W bc bs br Bc Bs Br sc ss sr) as Hh.
  { split; [|by eapply in_hand_other|done|done]. eapply in_hand_other; [exact T3|done|]. by eapply in_hand_other. }
  unfold slots_missing. rewrite (tier_swa _ _ _ _ _ _ (proj1 (hd_cpu _ _ _ _ _ _ _ _ _ _ _ _ _ _ _ _ Hh))), Hcfg3, Eon. cbn [andb].
  destruct (_ || _ || _) eqn:Em.
  { destruct (fail_put_run _ _ _ _ _ _ _ _ _ _ _ _ _ _ _ _ Hh) as (g4 & E4 & K4 & C4). run_step E4. by exists None, g4. }
  apply orb_false_iff in Em as [[Ec Es]%orb_false_iff Er]. apply Z.ltb_ge in Ec.
  eexists _, g3. split; [done|]. exists sc, ss, sr. split; [done|]. split; [done|].
  split; [|lia]. split; [done|].
  rewrite (proj2 (Z.leb_le 0 sc)) in W2, W3 by done.
  destruct to_ssd; cbn [andb negb orb] in *.
  - apply Z.ltb_ge in Es. split; [done|]. rewrite (proj2 (Z.leb_le 0 ss)) in W3 by done. cbn [andb] in W3.
    destruct to_remote; cbn [andb] in *; [by apply Z.ltb_ge in Er|]. specialize (W3 eq_refl). split; [lia|done].
  - specialize (W2 eq_refl). split; [split; [lia|done]|].
    destruct to_remote; cbn [andb] in *; [by apply Z.ltb_ge in Er|]. specialize (W3 eq_refl). split; [lia|done].
Qed.

(** ** Taking the blocks *)

(** The tiers hold [gone] besides what they did. *)
Definition lose (W : DeviceType → gset Z * list Z) (gone : DeviceType → gset Z) : DeviceType → gset Z * list Z := λ d, ((W d).1 ∪ gone d, (W d).2).

Lemma owned_eq g d hb hb' hs : hb = hb' → owned g d hb hs → owned g d hb' hs. Proof. by intros ->. Qed.

Lemma kept_lose g d (W : DeviceType → gset Z * list Z) gone : gone d = ∅ → kept g d (W d).1 (W d).2 → kept g d (lose W gone d).1 (lose W gone d).2.
Proof. unfold lose. intros ->. simpl. by rewrite union_empty_r_L. Qed.

(** The SSD blocks of a write, when it has an SSD tier. *)
Lemma take_ssd_run hashes g rs (W : DeviceType → gset Z * list Z) bs (enable_ssd : bool) f2 :
  chained None hashes →
  (if enable_ssd then tier_at hashes g SSD rs (W SSD).1 (W SSD).2 bs else kept g SSD (W SSD).1 (W SSD).2 ∧ f2 = 0) →
  ∃ o g', (if enable_ssd then self_engine SSD (CacheEngine.take f2 (last_node rs) false) else mret []) g = (o, g') ∧ touches SSD g g' ∧
    match o with
    | Raise x => (∃ msg, x = ValueError msg) ∧ ∃ gone, owned g' SSD ((W SSD).1 ∪ gone) (W SSD).2
    | Ok B => zlen B <= f2 ∧ in_hand hashes g' SSD rs (W SSD).1 (W SSD).2 bs (if enable_ssd then Some B else None) (-1) ∧
        (zlen B = f2 ∨ drained g' SSD (last_node rs))
    end.
Proof.
  intros Hc Hssd. destruct enable_ssd.
  - destruct (take_tier AttributeError hashes SSD g rs _ _ bs f2 Hc Hssd) as (o & g2 & E2 & T2 & Ho). exists o, g2. split; [done|]. split; [done|].
    destruct Ho as [(B & -> & _ & HN' & Hfr' & Hle' & Ht' & Hx)|(msg & gone & -> & Hown)]; [by split_and!|]. split; [by exists msg|by exists gone].
  - exists (Ok []), g. destruct Hssd as [Hk ->]. split; [done|]. split; [apply touches_refl|]. split; [done|]. split; [done|by left].
Qed.

(** A write that is short of blocks gives back what it took. *)
Lemma give_back_run hashes cfg g rc rs (W : DeviceType → gset Z * list Z) bc bs (enable_ssd : bool) Bc B :
  in_hand hashes g CPU rc (W CPU).1 (W CPU).2 bc (Some Bc) (-1) →
  in_hand hashes g SSD rs (W SSD).1 (W SSD).2 bs (if enable_ssd then Some B else None) (-1) →
  kept g REMOTE (W REMOTE).1 (W REMOTE).2 → cache_config g = cfg →
  ∃ g', (self_engine CPU (recycle Bc) ;; (if enable_ssd then self_engine SSD (recycle B) else mret ()) ;; mret (None : option Resources)) g = (Ok None, g') ∧
    cache_config g' = cfg ∧ global_owns g' W ∧ ∀ d prot, drained g d prot → drained g' d prot.
Proof.
  intros Hc Hs Hr Hcfg. destruct (recycle_in_hand g CPU (W CPU).1 (W CPU).2 (Some Bc)) as (g3 & E3 & T3 & K3 & _ & D3).
  { destruct Hc as (Ht2 & ? & ?). split; [by eapply tier_owned|done]. }
  cbn [recycle_opt] in E3. run_step E3.
  destruct (recycle_in_hand g3 SSD (W SSD).1 (W SSD).2 (if enable_ssd then Some B else None)) as (g4 & E4 & T4 & K4 & _ & D4).
  { eapply blocks_in_hand_other; [exact T3|done|]. destruct enable_ssd; [|apply Hs]. destruct Hs as (Ht2 & ? & ?). split; [by eapply tier_owned|done]. }
  assert ((if enable_ssd then self_engine SSD (recycle B) else mret ()) g3 = (Ok (), g4)) as E4' by (by destruct enable_ssd).
  run_step E4'. exists g4. split; [done|]. split; [by rewrite (to_config _ _ _ T4), (to_config _ _ _ T3)|]. split; [|by intros d prot ?%D3%D4].
  apply global_owns_three; [by eapply kept_other|done|]. eapply kept_other; [exact T4|done|]. by eapply kept_other.
Qed.

(** A tier has nothing left to evict but the node a match ended in. *)
Definition short_of_blocks g : Prop := ∃ d prot, (d = CPU ∨ d = SSD) ∧ drained g d prot.

Lemma local_resources_run hashes cfg g rc rs (W : DeviceType → gset Z * list Z) bc bs (enable_ssd : bool) f12 f2 :
  chained None hashes → tier_at hashes g CPU rc (W CPU).1 (W CPU).2 bc →
  (if enable_ssd then tier_at hashes g SSD rs (W SSD).1 (W SSD).2 bs else kept g SSD (W SSD).1 (W SSD).2 ∧ f2 = 0) →
  kept g REMOTE (W REMOTE).1 (W REMOTE).2 → cache_config g = cfg →
  ∃ o g', local_resources enable_ssd f12 f2 rc rs g = (o, g') ∧ cache_config g' = cfg ∧
    match o with
    | Raise x => (∃ msg, x = ValueError msg) ∧ ∃ gone, global_owns g' (lose W gone)
    | Ok None => global_owns g' W ∧ (short_of_blocks g' ∨ enable_swa_transfer cfg && bc = true)
    | Ok (Some R) => ∃ Bc Bs sc ss, R = mkResources Bc Bs None sc ss (-1) ∧
        hands hashes cfg g' rc rs empty_match W bc bs false Bc Bs None sc ss (-1) ∧ zlen Bc = f12 ∧
        (if enable_ssd then ∃ B, Bs = Some B ∧ zlen B = f2 else Bs = None) ∧
        (if enable_swa_transfer cfg && bc then 0 <= sc ∧ (0 <= ss ↔ 0 < f2) else sc = -1 ∧ ss = -1) ∧ -1 <= ss
    end.
Proof.
  intros Hc Hcpu Hssd Hrem Hcfg. unfold local_resources.
  destruct (take_tier AttributeError hashes CPU g rc _ _ bc f12 Hc Hcpu) as (o & g1 & E1 & T1 & Ho). rewrite M_bind_run, E1.
  destruct Ho as [(Bc & -> & H0 & HN & Hfr & Hle & Ht & Hx1)|(msg & gone & -> & Hown)].
  2:{ eexists _, g1. split; [done|]. split; [by rewrite (to_config _ _ _ T1)|]. split; [by exists msg|].
      exists (λ d, if decide (d = CPU) then gone else ∅). apply global_owns_three; [by right| |]; apply kept_lose; try done; (eapply kept_other; [exact T1|done|]); [|done].
      destruct enable_ssd; [right; by eapply tier_owned|apply Hssd]. }
  assert (in_hand hashes g1 CPU rc (W CPU).1 (W CPU).2 bc (Some Bc) (-1)) as Hc1 by by split.
  assert (kept g1 REMOTE (W REMOTE).1 (W REMOTE).2) as Hr1 by (by eapply kept_other).
  assert (cache_config g1 = cfg) as Hcfg1 by (by rewrite (to_config _ _ _ T1)).
  destruct (take_ssd_run hashes g1 rs W bs enable_ssd f2 Hc) as (o2 & g2 & E2 & T2 & Ho2).
  { destruct enable_ssd; [by eapply tier_other|]. destruct Hssd. split; [by eapply kept_other|done]. }
  rewrite M_bind_run, E2. assert (cache_config g2 = cfg) as Hcfg2 by (by rewrite (to_config _ _ _ T2)).
  assert (in_hand hashes g2 CPU rc (W CPU).1 (W CPU).2 bc (Some Bc) (-1)) as Hc2 by (by eapply in_hand_other).
  assert (kept g2 REMOTE (W REMOTE).1 (W REMOTE).2) as Hr2 by (by eapply kept_other).
  destruct o2 as [B|x].
  2:{ destruct Ho2 as [Hx [gone Hown]]. eexists _, g2. split; [done|]. split; [done|]. split; [done|].
      exists (λ d, if decide (d = CPU) then list_to_set Bc else if decide (d = SSD) then gone else ∅).
      apply global_owns_three; [right; unfold lose; simpl; by eapply tier_owned; apply Hc2|by right|by apply kept_lose]. }
  destruct Ho2 as (Hle2 & Hs2 & Hx2). destruct (_ || _) eqn:Es.
  { destruct (give_back_run hashes cfg g2 rc rs W bc bs enable_ssd Bc B Hc2 Hs2 Hr2 Hcfg2) as (g4 & E4 & C4 & K4 & D4).
    exists (Ok None), g4. split; [done|]. split; [done|]. split; [done|]. left. apply orb_true_iff in Es as [Es%Z.ltb_lt|Es%Z.ltb_lt].
    - destruct Hx1 as [?|Hx1]; [lia|]. exists CPU, (last_node rc). split; [by left|]. apply D4. by eapply drained_other.
    - destruct Hx2 as [?|Hx2]; [lia|]. exists SSD, (last_node rs). split; [by right|]. by apply D4. }
  apply orb_false_iff in Es as [Es1%Z.ltb_ge Es2%Z.ltb_ge]. set (Bs := if enable_ssd then Some B else None) in *.
  destruct (with_slots_run hashes cfg g2 rc rs empty_match W bc bs false Bc Bs None (last_node rs) None (0 <? f2) false Hc) as (o & g3 & E3 & Hr).
  { by split. }
  { intros Hpos%Z.ltb_lt. split; [|done]. unfold Bs. destruct enable_ssd; [by eexists|]. destruct Hssd. lia. }
  { done. }
  rewrite E3. exists (Ok o), g3. split; [done|]. destruct o as [R|].
  2:{ destruct Hr as (? & ? & ?). split; [done|]. split; [done|by right]. }
  destruct Hr as (sc & ss & sr & -> & Hh & Hsw & B1 & B2 & B3). split; [apply Hh|].
  assert (sr = -1) as -> by (destruct (_ && _); [destruct Hsw as (_ & _ & Hsr); destruct (decide (0 <= sr)) as [Hp|]; [by apply Hsr in Hp|lia]|lia]).
  exists Bc, Bs, sc, ss. split; [done|]. split; [done|]. split; [lia|]. split.
  - unfold Bs. destruct enable_ssd; [|done]. exists B. split; [done|lia].
  - split; [|done]. destruct (_ && _); [|lia]. destruct Hsw as (? & Hss & _). split; [done|]. by rewrite Hss, Z.ltb_lt.
Qed.

(** ** The ops *)

Lemma last_n_drop n (l : list Z) : 0 < n <= zlen l → last_n n l = drop (length l - Z.to_nat n) l.
Proof.
  unfold zlen. intros Hn. unfold last_n. rewrite <- (Z2Nat.id n) at 1 by lia. apply py_slice_suffix. lia.
Qed.

(** The blocks behind a lower tier are the tail of the sequence's CPU blocks. *)
Lemma source_blocks_tail n matched new :
  0 < n <= zlen (matched ++ new) → source_blocks n matched new = drop (length (matched ++ new) - Z.to_nat n) (matched ++ new).
Proof.
  intros Hn. rewrite length_app. rewrite zlen_app in Hn. unfold source_blocks. destruct (Z.ltb_spec (zlen new) n) as [Hlt|Hge].
  - rewrite last_n_drop by lia. rewrite drop_app_le by (unfold zlen in *; lia). f_equal. f_equal. unfold zlen in *. lia.
  - rewrite last_n_drop by lia. rewrite drop_app_ge by (unfold zlen in *; lia). f_equal. unfold zlen in *. lia.
Qed.

(** The ops of the full KV, and those of the SWA lane. *)
Definition kv_ops (ops : list TransferOp) : list (TransferType * list Z * list Z) := kv_lane <$> filter (λ o, is_swa o = false) ops.

Lemma kv_ops_app ops1 ops2 : kv_ops (ops1 ++ ops2) = kv_ops ops1 ++ kv_ops ops2.
Proof. unfold kv_ops. by rewrite filter_app, fmap_app. Qed.

Lemma kv_ops_swa ops : Forall (λ o, is_swa o = true) ops → kv_ops ops = [].
Proof.
  unfold kv_ops. intros Hf. induction Hf as [|o ops Ho _ IH]; [done|]. rewrite filter_cons_False by congruence. done.
Qed.

Lemma kv_ops_one o : is_swa o = false → kv_ops [o] = [kv_lane o].
Proof. intros Ho. unfold kv_ops. by rewrite filter_cons_True. Qed.

(** Every op of the plan waits for the D2H of its lane. *)
Definition after_d2h (ops : list TransferOp) (edges : list (Z * Z)) : Prop :=
  ∀ o, o ∈ ops → transfer_type o = D2H ∨ ∃ d, d ∈ ops ∧ transfer_type d = D2H ∧ is_swa d = is_swa o ∧ (op_id o, op_id d) ∈ edges.

Lemma store_op_run ty wanted src dst d2h dp p g ops edges :
  plan_at p g ops edges → length src = length dst ∨ wanted = false → d2h ∈ op_id <$> ops →
  ∃ new p', store_op ty wanted src dst d2h dp p = (Ok (head (op_id <$> new)), p') ∧
    plan_at p' g (ops ++ new) (((λ o, (op_id o, d2h)) <$> new) ++ edges) ∧
    kv_ops new = (if wanted then [(ty, src, dst)] else []) ∧ Forall (λ o, is_swa o = false) new ∧ length new = (if wanted then 1 else 0)%nat.
Proof.
  intros Hp Hl Hin. unfold store_op. destruct wanted.
  2:{ exists [], p. rewrite app_nil_r. split_and!; [done|done|done|constructor|done]. }
  destruct Hl as [Hl|]; [|done]. destruct (kv_op_run ty src dst dp p g ops edges Hp Hl) as (o & p1 & E1 & Hp1 & Hk & Hs). run_step E1.
  destruct (depends_on_run (op_id o) d2h p1 g (ops ++ [o]) edges Hp1) as (p2 & E2 & Hp2).
  { rewrite fmap_app, elem_of_app. right. left. } { rewrite fmap_app, elem_of_app. by left. }
  run_step E2. exists [o], p2. split; [done|]. split; [done|]. split; [by rewrite kv_ops_one, Hk|]. split; [by constructor|done].
Qed.

Lemma put_swa_ops_run hashes sc ss sr (to_ssd to_remote : bool) dp p g ops edges r hb hs b :
  plan_at p g ops edges → tier_at hashes g CPU r hb hs b →
  (if enable_swa_transfer (cache_config g) && b then 0 <= sc ∧ (0 <= ss ↔ to_ssd = true) ∧ (0 <= sr ↔ to_remote = true) else sc = -1 ∧ ss = -1 ∧ sr = -1) →
  ∃ ids new joins p', put_swa_ops sc ss sr to_ssd to_remote dp p = (Ok ids, p') ∧ plan_at p' g (ops ++ new) (joins ++ edges) ∧
    Forall (λ o, is_swa o = true) new ∧ (is_Some (SWAOps.d2h_id ids) ↔ 0 <= sc) ∧
    (∀ o, o ∈ new → transfer_type o = D2H ∨ ∃ d, d ∈ new ∧ transfer_type d = D2H ∧ (op_id o, op_id d) ∈ joins) ∧
    (∀ e, e ∈ joins → e.1 ∈ op_id <$> new) ∧ (∀ k, SWAOps.d2h_id ids = Some k → ∃ d, d ∈ new ∧ op_id d = k ∧ transfer_type d = D2H).
Proof.
  intros [<- Hh] Ht Hsl. pose proof (tier_swa _ _ _ _ _ _ Ht) as Esw. unfold put_swa_ops.
  destruct (enable_swa_transfer (cache_config p.1) && b) eqn:Eon.
  2:{ destruct Hsl as (-> & -> & ->). exists (mkPutChain None None None), [], [], p. rewrite app_nil_r. split; [done|]. split; [by split|].
      split; [constructor|]. split; [split; [by intros []|done]|]. split; [by intros o ?%elem_of_nil|]. split; [by intros o ?%elem_of_nil|done]. }
  destruct Hsl as (Hc & Hs & Hr). rewrite (proj2 (Z.ltb_ge sc 0)) by done.
  assert (∀ f, (get_state ≫= f : Plan SWAPutChainOpIds) p = f p p) as Eg by done. rewrite Eg. destruct p as [g b']. cbn [fst snd] in *. rewrite Esw.
  destruct (put_chain_run b' ops edges _SWA_GPU_PLACEHOLDER [sc] (Some (one_slot ss)) (Some (one_slot sr)) dp None Hh eq_refl ltac:(done))
    as (d2h & n1 & n2 & joins & b2 & E & X & J & L1 & L2 & L3).
  rewrite M_bind_run, (on_build_run _ (g, b') _ _ E). cbn [fst snd SWAOps.d2h_id is_not_None].
  rewrite M_bind_run. cbn [assertM py_assert lift_result].
  assert (∀ f ss', (0 <= ss' ↔ f = true) → ∀ (n : list TransferOp) ty, lane <$> n = store_lane ty (Some (one_slot ss')) [sc] None → f = true → is_not_None (head (op_id <$> n)) = true) as Hone.
  { intros f s' Hs' n ty Hn Hf. apply Hs' in Hf. unfold one_slot in Hn. rewrite (proj2 (Z.leb_le 0 s')) in Hn by done. by destruct n. }
  assert ((if to_ssd then assertM (is_not_None (h2disk_id (mkPutChain (Some (op_id d2h)) (head (op_id <$> n1)) (head (op_id <$> n2))))) else mret ()) (g, b2) = (Ok (), (g, b2))) as E1.
  { destruct to_ssd; [|done]. simpl. by rewrite (Hone true ss Hs n1 _ L2 eq_refl). }
  run_step E1.
  assert ((if to_remote && (0 <=? sr) then assertM (is_not_None (h2remote_id (mkPutChain (Some (op_id d2h)) (head (op_id <$> n1)) (head (op_id <$> n2))))) else mret ()) (g, b2) = (Ok (), (g, b2))) as E2.
  { destruct to_remote; [|done]. cbn [andb]. destruct (0 <=? sr); [|done]. simpl. by rewrite (Hone true sr Hr n2 _ L3 eq_refl). }
  run_step E2. eexists _, (d2h :: n1 ++ n2), joins, (g, b2). split; [done|]. split; [split; [done|apply X]|]. split; [apply X|].
  assert (transfer_type d2h = D2H) as Ed by (unfold lane in L1; congruence).
  split; [simpl; by split; [done|by eexists]|]. split.
  - intros o [->|Ho]%elem_of_cons; [by left|]. right. exists d2h. split; [left|]. split; [done|]. apply J. apply list_elem_of_fmap.
    exists (op_id o). split; [done|]. apply list_elem_of_fmap. by exists o.
  - split; [|intros k [= <-]; exists d2h; by split; [left|]]. intros e He%J. apply list_elem_of_fmap in He as (k & -> & Hk). cbn [fst].
    rewrite fmap_cons, elem_of_cons. by right.
Qed.

Section inserts.
Context (XXH64 : list Z → Z) (clock : nat → float).

Lemma store_node_run d (k : option Z) s g p ops edges r hb hs b B nodes :
  seq_ok XXH64 s → plan_at p g ops edges → tier_at (hashes_of XXH64 s) g d r (hb ∪ list_to_set B) hs b → NoDup B → (∀ c, c ∈ B → c ∉ hb) →
  zlen B = Z.of_nat (num_blocks s) - Z.of_nat (num_matched_blocks r) → B ≠ [] → k = Some nodes →
  ∃ w g' p', store_node XXH64 clock true d k s B r p = (Ok [(nodes, (d, w, zlen B))], p') ∧ plan_at p' g' ops edges ∧ touches d g g' ∧
    owned g' d hb hs ∧ stored g' d w (drop (num_matched_blocks r) (hashes_of XXH64 s)) B ∧
    tier_map g' d (hashes_of XXH64 s) (mr_physical_blocks r ++ B).
Proof.
  intros Hs Hp Ht HN Hd Hl Hne ->.
  destruct (insert_tier XXH64 clock AttributeError d g s r hb hs b B (-1) Hs Ht HN Hd) as (w & g' & E & T & Ho & St & Tm & _); [unfold num_insert; simpl; lia|done|done|].
  destruct (plan_global _ _ _ _ _ _ _ Hp E) as (p1 & E1 & Hp1).
  assert (zlen (new_hashes XXH64 s (num_matched_blocks r) (-1)) = zlen B ∧ new_hashes XXH64 s (num_matched_blocks r) (-1) = drop (num_matched_blocks r) (hashes_of XXH64 s)) as [Hz Eh].
  { unfold new_hashes, num_insert. simpl. rewrite Nat2Z.id.
    assert (list.take (num_blocks s - num_matched_blocks r) (drop (num_matched_blocks r) (hashes_of XXH64 s)) = drop (num_matched_blocks r) (hashes_of XXH64 s)) as ->.
    { apply take_ge. rewrite length_drop, (proj1 Hs). lia. }
    split; [|done]. unfold zlen in *. rewrite length_drop, (proj1 Hs). lia. }
  exists w, g', p1. unfold store_node, insert_unready. rewrite M_bind_run, M_bind_run, E1. rewrite M_bind_run. cbn [deref mret M_ret].
  rewrite M_bind_run, (size_of_run _ _ _ _ _ _ _ _ Hp1 St), Hz. split; [done|]. split; [done|]. split; [done|]. split; [done|].
  rewrite <- Eh. split; [done|].
  unfold num_insert in Tm. simpl in Tm. rewrite Nat2Z.id in Tm. rewrite <- (proj1 Hs), firstn_all in Tm. done.
Qed.

(** A tier that may be written: the node it ends with, and its part of the map of callbacks. *)
Record tier_written (s : SequenceMeta) g (d : DeviceType) (r : MatchResult) hb hs (wanted : bool) (k : option Z) (blocks : option (list Z)) (slot : Z) (ready : ReadyMap) : Prop := {
  tw_kept : kept g d hb (one_slot slot ++ hs);
  tw_node : wanted = true → ∃ w k' B, k = Some k' ∧ blocks = Some B ∧ ready = [(k', (d, w, zlen B))] ∧ stored g d w (drop (num_matched_blocks r) (hashes_of XXH64 s)) B ∧
    tier_map g d (hashes_of XXH64 s) (mr_physical_blocks r ++ B);
  tw_none : wanted = false → ready = [];
}.

Lemma tier_written_other s g g' d d' r hb hs wanted k blocks slot ready :
  touches d g g' → d' ≠ d → tier_written s g d' r hb hs wanted k blocks slot ready → tier_written s g' d' r hb hs wanted k blocks slot ready.
Proof.
  intros T Hd [W1 W2 W3]. split; [by eapply kept_other| |done]. intros Hw. destruct (W2 Hw) as (w & k' & B & ? & ? & ? & ? & ?).
  exists w, k', B. split_and!; [done|done|done|by eapply stored_other|by eapply tier_map_other].
Qed.

Lemma store_tier_run d wanted k s g p ops edges r hb hs b blocks slot :
  seq_ok XXH64 s → plan_at p g ops edges → in_hand (hashes_of XXH64 s) g d r hb hs b blocks slot →
  (wanted = true → is_Some k ∧ ∃ B, blocks = Some B ∧ B ≠ [] ∧ zlen B = Z.of_nat (num_blocks s) - Z.of_nat (num_matched_blocks r)) →
  (wanted = false → default [] blocks = []) →
  ∃ ready g' p', store_node XXH64 clock wanted d k s (default [] blocks) r p = (Ok ready, p') ∧ plan_at p' g' ops edges ∧ touches d g g' ∧
    tier_written s g' d r hb hs wanted k blocks slot ready.
Proof.
  intros Hs Hp Hh Hw Hn. destruct wanted.
  - destruct (Hw eq_refl) as ([k' ->] & B & -> & Hne & Hl). destruct Hh as (Ht & HN & Hd).
    destruct (store_node_run d (Some k') s g p ops edges r hb _ b B k' Hs Hp Ht HN Hd Hl Hne eq_refl) as (w & g' & p' & E & Hp' & T & Ho & St & Tm).
    exists [(k', (d, w, zlen B))], g', p'. split; [done|]. split; [done|]. split; [done|]. split; [by right| |done].
    intros _. exists w, k', B. done.
  - exists [], g, p. split; [done|]. split; [done|]. split; [apply touches_refl|]. split; [|done|done].
    specialize (Hn eq_refl). destruct blocks as [B|]; simpl in Hh, Hn.
    + subst B. destruct Hh as (Ht & _). right. apply tier_owned in Ht. eapply owned_eq; [|exact Ht]. by rewrite list_to_set_nil, union_empty_r_L.
    + by destruct Hh as [-> ?].
Qed.
End inserts.

Section write.
Context (XXH64 : list Z → Z) (clock : nat → float).

Lemma matched_length hashes g d r hb hs b : tier_at hashes g d r hb hs b → zlen (mr_physical_blocks r) = Z.of_nat (num_matched_blocks r).
Proof.
  intros [(e & _ & _ & [_ Hle Hm _ _] & _)]. apply Forall2_length in Hm. rewrite length_take in Hm. unfold zlen. lia.
Qed.

(** Before the ops of a write: the fresh graph, the blocks of every tier written, and their numbers. *)
Record write_ready (s : SequenceMeta) cfg g (rc rs rr : MatchResult) (W : DeviceType → gset Z * list Z) (bc bs br : bool)
    (gpu_blocks Bc : list Z) (Bs Br : option (list Z)) (f2 f3 : Z) (to_ssd to_remote : bool) (sc ss sr : Z) : Prop := {
  wr_hands : hands (hashes_of XXH64 s) cfg g rc rs rr W bc bs br Bc Bs Br sc ss sr;
  wr_cpu : Bc ≠ [] ∧ zlen Bc = Z.of_nat (num_blocks s) - Z.of_nat (num_matched_blocks rc) ∧ zlen gpu_blocks = zlen Bc;
  wr_ssd : if to_ssd then ∃ B, Bs = Some B ∧ B ≠ [] ∧ zlen B = f2 ∧ f2 = Z.of_nat (num_blocks s) - Z.of_nat (num_matched_blocks rs) else default [] Bs = [];
  wr_remote : if to_remote then ∃ B, Br = Some B ∧ B ≠ [] ∧ zlen B = f3 ∧ f3 = Z.of_nat (num_blocks s) - Z.of_nat (num_matched_blocks rr) else default [] Br = [];
  wr_slots : if enable_swa_transfer cfg && bc then 0 <= sc ∧ (0 <= ss ↔ to_ssd = true) ∧ (0 <= sr ↔ to_remote = true) else sc = -1 ∧ ss = -1 ∧ sr = -1;
}.

(** The source of a write-through op: the tail of the CPU blocks, as long as the tier's new blocks. *)
Lemma lower_source (wanted : bool) (B : option (list Z)) f n k (matched new : list Z) :
  zlen (matched ++ new) = Z.of_nat n → (k <= n)%nat →
  (if wanted then ∃ B', B = Some B' ∧ B' ≠ [] ∧ zlen B' = f ∧ f = Z.of_nat n - Z.of_nat k else default [] B = []) →
  (length (source_blocks f matched new) = length (default [] B) ∨ wanted = false) ∧
  (wanted = true → source_blocks f matched new = drop k (matched ++ new)).
Proof.
  intros Hl Hk Hw. destruct wanted; [|by split; [right|]]. destruct Hw as (B' & -> & Hne & Hz & Hf).
  assert (0 < f) by (rewrite <- Hz; unfold zlen; destruct B'; [done|simpl; lia]).
  assert (source_blocks f matched new = drop k (matched ++ new)) as E.
  { rewrite source_blocks_tail by lia. f_equal. unfold zlen in Hl. lia. }
  split; [left|done]. rewrite E, length_drop. simpl. unfold zlen in *. lia.
Qed.

Lemma after_d2h_app ops edges new joins d2h :
  after_d2h ops edges → d2h ∈ ops → transfer_type d2h = D2H → is_swa d2h = false → Forall (λ o, is_swa o = false) new →
  (∀ o, o ∈ new → (op_id o, op_id d2h) ∈ joins) → after_d2h (ops ++ new) (joins ++ edges).
Proof.
  intros Ha Hin Ht Hs Hn Hj o [Ho|Ho]%elem_of_app.
  - destruct (Ha o Ho) as [?|(d & ? & ? & ? & ?)]; [by left|right]. exists d. rewrite !elem_of_app. auto.
  - right. exists d2h. rewrite Forall_forall in Hn. rewrite Hs, (Hn o Ho), !elem_of_app. split_and!; [by left|done|done|left; by apply Hj].
Qed.

Lemma write_ops_run s cfg g rc rs rr W bc bs br gpu_blocks Bc Bs Br f2 f3 (to_ssd to_remote : bool) sc ss sr dp p :
  seq_ok XXH64 s → write_ready s cfg g rc rs rr W bc bs br gpu_blocks Bc Bs Br f2 f3 to_ssd to_remote sc ss sr → plan_at p g [] [] →
  (num_matched_blocks rs <= num_blocks s)%nat → (num_matched_blocks rr <= num_blocks s)%nat →
  let all := mr_physical_blocks rc ++ Bc in
  ∃ parts p' g' ops edges kc ks kr Rc Rs Rr callbacks finished,
    write_ops XXH64 clock s rc rs rr f2 f3 to_ssd to_remote (mr_physical_blocks rc) gpu_blocks (mkResources Bc Bs Br sc ss sr) dp p = (Ok parts, p') ∧
    plan_at p' g' ops edges ∧ cache_config g' = cfg ∧ after_d2h ops edges ∧
    kv_ops ops = (D2H, gpu_blocks, Bc) :: (if to_ssd then [(H2DISK, drop (num_matched_blocks rs) all, default [] Bs)] else []) ++
                                        (if to_remote then [(H2REMOTE, drop (num_matched_blocks rr) all, default [] Br)] else []) ∧
    tier_written XXH64 s g' CPU rc (W CPU).1 (W CPU).2 true kc (Some Bc) sc Rc ∧
    tier_written XXH64 s g' SSD rs (W SSD).1 (W SSD).2 to_ssd ks Bs ss Rs ∧
    tier_written XXH64 s g' REMOTE rr (W REMOTE).1 (W REMOTE).2 to_remote kr Br sr Rr ∧
    (∀ k, k ∈ finished → ∃ o, o ∈ ops ∧ op_id o = k ∧ transfer_type o = D2H) ∧ finished ≠ [] ∧
    (∀ graph, parts graph = mkPutPlan graph finished (node_entries (Rc ++ Rs ++ Rr)) callbacks [] (zlen gpu_blocks) (zlen (mr_physical_blocks rc))
                              (held_slots [(CPU, sc); (SSD, ss); (REMOTE, sr)])).
Proof.
  intros Hs [[Hc Hss Hr Hcfg] (HBne & HBc & Hgpu) Hws Hwr Hsl] Hp Hks Hkr all.
  pose proof (matched_length _ _ _ _ _ _ _ (proj1 Hc)) as Hmc. set (nn := num_blocks s) in *.
  assert (zlen all = Z.of_nat nn) as Hall by (unfold all; rewrite zlen_app; lia).
  destruct (lower_source to_ssd Bs f2 nn (num_matched_blocks rs) (mr_physical_blocks rc) Bc Hall Hks Hws) as [Hl2 Hs2].
  destruct (lower_source to_remote Br f3 nn (num_matched_blocks rr) (mr_physical_blocks rc) Bc Hall Hkr Hwr) as [Hl3 Hs3].
  unfold write_ops. cbn [rs_cpu rs_ssd rs_remote rs_cpu_slot rs_ssd_slot rs_remote_slot].
  destruct (kv_op_run D2H gpu_blocks Bc dp p g [] [] Hp) as (d2h & p1 & E1 & Hp1 & Hk1 & Hsw1); [unfold zlen in Hgpu; lia|]. run_step E1. simpl in Hp1.
  assert (transfer_type d2h = D2H) as Hty by (unfold kv_lane in Hk1; congruence).
  destruct (store_op_run H2DISK to_ssd (source_blocks f2 (mr_physical_blocks rc) Bc) (default [] Bs) (op_id d2h) dp p1 g [d2h] [] Hp1 Hl2) as (n2 & p2 & E2 & Hp2 & Hk2 & Hsw2 & Hn2); [left|]. run_step E2.
  destruct (store_op_run H2REMOTE to_remote (source_blocks f3 (mr_physical_blocks rc) Bc) (default [] Br) (op_id d2h) dp p2 g _ _ Hp2 Hl3) as (n3 & p3 & E3 & Hp3 & Hk3 & Hsw3 & Hn3); [rewrite fmap_app, elem_of_app; left; left|]. run_step E3.
  destruct (put_swa_ops_run (hashes_of XXH64 s) sc ss sr to_ssd to_remote dp p3 g _ _ rc _ _ bc Hp3 (proj1 Hc)) as (ids & n4 & joins & p4 & E4 & Hp4 & Hsw4 & Hid & Hd4 & Hj4 & Hfin); [by rewrite Hcfg|]. run_step E4.
  destruct (store_tier_run XXH64 clock CPU true (Some (op_id d2h)) s g p4 _ _ rc _ _ bc (Some Bc) sc Hs Hp4 Hc) as (Rc & g1 & p5 & E5 & Hp5 & T1 & Wc); [intros _; split; [by eexists|by exists Bc]|done|]. cbn [default] in E5. run_step E5.
  destruct (store_tier_run XXH64 clock SSD to_ssd (head (op_id <$> n2)) s g1 p5 _ _ rs (W SSD).1 (W SSD).2 bs Bs ss Hs Hp5) as (Rs & g2 & p6 & E6 & Hp6 & T2 & Ws).
  { by eapply in_hand_other. }
  { intros ->. destruct Hws as (B & -> & ? & ? & ?). split; [destruct n2; [done|by eexists]|]. exists B. split_and!; [done|done|lia]. }
  { by intros ->. } run_step E6.
  destruct (store_tier_run XXH64 clock REMOTE to_remote (head (op_id <$> n3)) s g2 p6 _ _ rr (W REMOTE).1 (W REMOTE).2 br Br sr Hs Hp6) as (Rr & g3 & p7 & E7 & Hp7 & T3 & Wr).
  { eapply in_hand_other; [exact T2|done|]. by eapply in_hand_other. }
  { intros ->. destruct Hwr as (B & -> & ? & ? & ?). split; [destruct n3; [done|by eexists]|]. exists B. split_and!; [done|done|lia]. }
  { by intros ->. } run_step E7.
  eexists _, p7, g3, _, _, (Some (op_id d2h)), (head (op_id <$> n2)), (head (op_id <$> n3)), Rc, Rs, Rr. eexists _, _.
  split; [reflexivity|]. split; [exact Hp7|].
  split; [by rewrite (to_config _ _ _ T3), (to_config _ _ _ T2), (to_config _ _ _ T1)|].
  split.
  { assert (after_d2h ((([d2h] ++ n2) ++ n3)) (((λ o, (op_id o, op_id d2h)) <$> n3) ++ ((λ o, (op_id o, op_id d2h)) <$> n2) ++ [])) as Ha.
    { assert (∀ n o, o ∈ n → (op_id o, op_id d2h) ∈ (λ o, (op_id o, op_id d2h)) <$> n) as Hfm by (intros n o Ho; apply list_elem_of_fmap; by exists o).
      apply (after_d2h_app _ _ n3 _ d2h); [|rewrite elem_of_app; left; left|done..|by apply Hfm].
      apply (after_d2h_app _ _ n2 _ d2h); [|left|done..|by apply Hfm]. intros o [->|?%elem_of_nil]%elem_of_cons; [by left|done]. }
    intros o [Ho|Ho]%elem_of_app.
    - destruct (Ha o Ho) as [?|(d & ? & ? & ? & ?)]; [by left|right]. exists d. split_and!; [apply elem_of_app; by left|done|done|apply elem_of_app; by right].
    - destruct (Hd4 o Ho) as [?|(d & ? & ? & ?)]; [by left|right]. rewrite Forall_forall in Hsw4. exists d. rewrite (Hsw4 o Ho), (Hsw4 d) by done.
      split_and!; [apply elem_of_app; by right|done|done|apply elem_of_app; by left]. }
  split.
  { rewrite !kv_ops_app, (kv_ops_swa n4), app_nil_r, Hk2, Hk3, (kv_ops_one _ Hsw1), Hk1 by done. simpl. f_equal.
    f_equal; [destruct to_ssd; [by rewrite Hs2|done]|destruct to_remote; [by rewrite Hs3|done]]. }
  split; [eapply tier_written_other; [exact T3|done|]; by eapply tier_written_other|]. split; [by eapply tier_written_other|]. split; [exact Wr|].
  split; [|split; [|intros graph; reflexivity]]; [|done].
  intros k [->|Hk]%elem_of_cons; [exists d2h; rewrite !elem_of_app; split; [left; left; left; left|done]|].
  destruct (SWAOps.d2h_id ids) as [k'|] eqn:Ek; simpl in Hk; [|by apply elem_of_nil in Hk]. apply list_elem_of_singleton in Hk as ->.
  destruct (Hfin k' eq_refl) as (d & Hd & ? & ?). exists d. rewrite elem_of_app. auto.
Qed.
End write.

(** ** The whole planner *)

Section plan.
Context (XXH64 : list Z → Z) (clock : nat → float).

Lemma world_global_run {A} (m : Global A) g ids o g' : m g = (o, g') → world_global m (g, ids) = (o, (g', ids)).
Proof. unfold world_global. cbn [fst snd]. by intros ->. Qed.

(** The graph of a plan starts empty. *)
Definition fresh_ids (ids : Ids) : Ids := mkIds (_next_op_id ids) (_next_graph_id ids + 1).
Definition fresh_graph (ids : Ids) : TransferOpGraph := mkGraph (_next_graph_id ids) [] ∅ ∅ [] [].
Definition fresh_planning g (ids : Ids) : Planning := (g, (fresh_ids ids, fresh_graph ids)).

Lemma fresh_plan_at g ids : plan_at (fresh_planning g ids) g [] [].
Proof. split; [done|]. split; [apply built_empty|constructor]. Qed.

Lemma plan_with_run {T} (empty : M Ids T) (m : Plan (option (TransferOpGraph → T))) g ids o p' :
  m (fresh_planning g ids) = (o, p') →
  plan_with empty m (g, ids) = match o with
    | Ok (Some parts) => (Ok (parts p'.2.2), (p'.1, p'.2.1))
    | Ok None => world_ids empty (p'.1, p'.2.1)
    | Raise x => (Raise x, (p'.1, p'.2.1))
    end.
Proof.
  intros E. unfold plan_with. rewrite M_bind_run. unfold world_ids at 1.
  change (TransferOpGraph_init (g, ids).2) with (Ok (fresh_graph ids), fresh_ids ids). cbn [fst snd].
  rewrite M_bind_run. unfold in_graph. cbn [fst snd].
  change (g, (_, _)) with (fresh_planning g ids). rewrite E. destruct p' as [g' [ids' graph']]. by destruct o as [[parts|]|x].
Qed.

Lemma matched_blocks_all r n :
  zlen (mr_physical_blocks r) = Z.of_nat (num_matched_blocks r) → (num_matched_blocks r <= n)%nat →
  matched_blocks r 0 (Z.of_nat n) = mr_physical_blocks r.
Proof.
  intros Hl Hn. unfold matched_blocks, blocks_in. rewrite py_slice_prefix by (unfold zlen in Hl; lia).
  rewrite take_ge by (unfold zlen in Hl; lia). rewrite (py_slice_nat _ 0 n), drop_0. apply take_ge. unfold zlen in Hl. lia.
Qed.

(** The SWA slots of a tier in the plan. *)
Definition slots_for (d : DeviceType) (l : list (DeviceType * Z)) : list Z := snd <$> filter (λ e, e.1 = d) l.

Lemma slots_for_held sc ss sr :
  let l := held_slots [(CPU, sc); (SSD, ss); (REMOTE, sr)] in
  slots_for CPU l = one_slot sc ∧ slots_for SSD l = one_slot ss ∧ slots_for REMOTE l = one_slot sr.
Proof.
  assert (∀ d s l, held_slots ((d, s) :: l) = if 0 <=? s then (d, s) :: held_slots l else held_slots l) as Hone.
  { intros d s l. unfold held_slots. destruct (Z.leb_spec 0 s); [by rewrite filter_cons_True|rewrite filter_cons_False by (simpl; lia); done]. }
  rewrite !Hone. unfold one_slot. by destruct (0 <=? sc), (0 <=? ss), (0 <=? sr).
Qed.

(** The tiers a local plan runs on: the CPU tier, and the SSD tier when it is configured. *)
Record local_tiers g (W : DeviceType → gset Z * list Z) (bc bs : bool) : Prop := {
  lt_cpu : tier_ok g CPU (W CPU).1 (W CPU).2 bc;
  lt_ssd : if enable_ssd (cache_config g) then tier_ok g SSD (W SSD).1 (W SSD).2 bs else engine_of SSD g = None;
  lt_remote : kept g REMOTE (W REMOTE).1 (W REMOTE).2;
  lt_enabled : enable_cpu (cache_config g) = true;
}.

Definition uses_ssd g (strat : CacheStrategy) : bool := enable_ssd (cache_config g) && negb (ignore_ssd strat).

Lemma match_local_run s strat g W bc bs :
  seq_ok XXH64 s → local_tiers g W bc bs →
  ∃ rc rs g', match_local XXH64 clock s strat g = (Ok (rc, rs), g') ∧ cache_config g' = cache_config g ∧
    tier_at (hashes_of XXH64 s) g' CPU rc (W CPU).1 (W CPU).2 bc ∧
    (if uses_ssd g strat then tier_at (hashes_of XXH64 s) g' SSD rs (W SSD).1 (W SSD).2 bs
     else kept g' SSD (W SSD).1 (W SSD).2 ∧ rs = empty_match) ∧
    kept g' REMOTE (W REMOTE).1 (W REMOTE).2.
Proof.
  intros Hs [Hcpu Hssd Hrem _]. unfold match_local, uses_ssd.
  destruct (match_tier_run XXH64 clock CPU s g _ _ bc Hs Hcpu) as (rc & g1 & E1 & T1 & A1). run_step E1.
  assert (kept g1 REMOTE (W REMOTE).1 (W REMOTE).2) as Hr1 by (by eapply kept_other).
  destruct (enable_ssd (cache_config g)) eqn:Ee; [destruct (ignore_ssd strat) eqn:Ei|].
  - rewrite M_bind_run, match_tier_skip by by left. exists rc, empty_match, g1. split; [done|]. split; [apply (to_config _ _ _ T1)|]. split; [done|].
    split; [|done]. split; [|done]. right. apply (tier_ok_other _ _ _ _ _ _ _ T1) in Hssd as (e & He & Ho & _); [by exists e|done].
  - assert (tier_ok g1 SSD (W SSD).1 (W SSD).2 bs) as Hs1 by (by eapply tier_ok_other).
    destruct (match_tier_run XXH64 clock SSD s g1 _ _ bs Hs Hs1) as (rs & g2 & E2 & T2 & A2). run_step E2.
    exists rc, rs, g2. split; [done|]. split; [by rewrite (to_config _ _ _ T2), (to_config _ _ _ T1)|].
    split; [by eapply tier_other|]. split; [done|]. by eapply kept_other.
  - assert (engine_of SSD g1 = None) as Hn1 by (by rewrite (to_others _ _ _ T1)).
    rewrite M_bind_run, match_tier_skip by by right. exists rc, empty_match, g1. split; [done|]. split; [apply (to_config _ _ _ T1)|]. split; [done|].
    split; [|done]. split; [by left|done].
Qed.

Lemma tier_at_map hashes g d r hb hs b : tier_at hashes g d r hb hs b → (length hashes <= num_matched_blocks r)%nat → tier_map g d hashes (mr_physical_blocks r).
Proof. intros [(e & He & _ & [_ _ Hm _ _] & _)] Hle. exists e. split; [done|]. by rewrite firstn_all2 in Hm. Qed.

Lemma tier_matched_le s g d r hb hs b : seq_ok XXH64 s → tier_at (hashes_of XXH64 s) g d r hb hs b → (num_matched_blocks r <= num_blocks s)%nat.
Proof. intros [<- _] [(e & _ & _ & [_ Hle _ _ _] & _)]. done. Qed.

(** What a write plan stores on a tier: the new node, its place in the sequence, and the blocks of the whole sequence. *)
Record stores (s : SequenceMeta) g (d : DeviceType) (plan : PutTransferPlan) (k : nat) (blocks : list Z) : Prop := {
  st_new : (k < num_blocks s)%nat;
  st_map : tier_map g d (hashes_of XXH64 s) blocks;
  st_node : ∃ w, stored g d w (drop k (hashes_of XXH64 s)) (drop k blocks) ∧ (d, (w, Z.of_nat (num_blocks s - k))) ∈ pp_node_to_unlock plan;
}.

Lemma tier_map_length s g d l : seq_ok XXH64 s → tier_map g d (hashes_of XXH64 s) l → length l = num_blocks s.
Proof. intros [<- _] (e & _ & Hf). symmetry. by eapply Forall2_length. Qed.

Lemma tier_stores s g d r hb hs k blocks slot ready plan m :
  seq_ok XXH64 s → tier_written XXH64 s g d r hb hs true k blocks slot ready → m = num_matched_blocks r → (m < num_blocks s)%nat →
  zlen (mr_physical_blocks r) = Z.of_nat m → (∀ e, e ∈ node_entries ready → e ∈ pp_node_to_unlock plan) →
  ∃ B, blocks = Some B ∧ stores s g d plan m (mr_physical_blocks r ++ B) ∧ drop m (mr_physical_blocks r ++ B) = B.
Proof.
  intros Hs [_ W2 _] -> Hm Hl Hsub. destruct (W2 eq_refl) as (w & k' & B & _ & -> & -> & St & Tm).
  assert (drop (num_matched_blocks r) (mr_physical_blocks r ++ B) = B) as Ed.
  { rewrite drop_app_ge by (unfold zlen in Hl; lia). replace (num_matched_blocks r - length (mr_physical_blocks r))%nat with 0%nat by (unfold zlen in Hl; lia). apply drop_0. }
  exists B. split; [done|]. split; [|done]. split; [done|done|]. exists w. rewrite Ed. split; [done|]. apply Hsub.
  pose proof (tier_map_length _ _ _ _ Hs Tm) as Hn. rewrite length_app in Hn. unfold zlen in *. unfold node_entries. simpl.
  replace (Z.of_nat (num_blocks s - num_matched_blocks r)) with (Z.of_nat (length B)) by lia. left.
Qed.

(** A write of the whole sequence: the blocks of every tier it uses, in the order of the sequence. *)
Record write_plan (s : SequenceMeta) g (gpu_block_ids : list Z) (plan : PutTransferPlan) (ssd : bool) : Prop := {
  wp_moves : ∃ ops edges k cpu lower, built (pp_transfer_graph plan) ops edges ∧ after_d2h ops edges ∧
    kv_ops ops = (D2H, drop k gpu_block_ids, drop k cpu) :: lower ∧ stores s g CPU plan k cpu ∧
    pp_skipped_gpu_blocks plan = Z.of_nat k ∧ pp_num_gpu_blocks_to_transfer plan = Z.of_nat (num_blocks s - k) ∧
    (lower = [] ∨ ssd = true ∧ ∃ j disk, lower = [(H2DISK, drop j cpu, drop j disk)] ∧ stores s g SSD plan j disk) ∧
    pp_finished_ops_ids plan ≠ [] ∧ (∀ i, i ∈ pp_finished_ops_ids plan → ∃ o, o ∈ ops ∧ op_id o = i ∧ transfer_type o = D2H);
}.

Definition is_empty_plan (plan : PutTransferPlan) : Prop :=
  ∃ gid, plan = mkPutPlan (mkGraph gid [] ∅ ∅ [] []) [] [] [] [] 0 0 [].

Lemma empty_plan_run g ids : ∃ plan ids', world_ids empty_put_plan (g, ids) = (Ok plan, (g, ids')) ∧ is_empty_plan plan.
Proof. eexists _, _. split; [reflexivity|]. by eexists. Qed.

(** [C18] A local write of a whole sequence keeps the books of every tier: it answers a plan, or it raises the
    [ValueError] of a heap tie during eviction, and nothing else.  A plan that moves something lists exactly the
    ops that are needed, each between the blocks the tiers' indexes now give for the sequence: one D2H of the blocks
    the CPU index lacked and, when the SSD lacked some, one H2DISK of those; every lower op waits for the D2H.  The
    new blocks are in new unready nodes listed in the plan, the SWA slots are those of the plan, and nothing else
    changed hands.  An empty plan holds nothing, whatever was taken went back, and it has a reason: the CPU index has
    the whole sequence, or a tier has nothing left to evict but the matched node, or SWA slots were needed.  When the [ValueError] is raised,
    blocks may be held that no plan lists (the leak of a failed eviction). *)
Theorem put_local_spec s g ids W bc bs gpu_block_ids strat dp :
  seq_ok XXH64 s → local_tiers g W bc bs → ignore_gpu strat = false → zlen gpu_block_ids = Z.of_nat (num_blocks s) →
  ∃ o g' ids', _put_impl_local XXH64 clock s 0 (Z.of_nat (num_blocks s)) gpu_block_ids strat dp (g, ids) = (o, (g', ids')) ∧
    match o with
    | Ok plan =>
        (is_empty_plan plan ∧ global_owns g' W ∧
         ((∃ all, tier_map g' CPU (hashes_of XXH64 s) all) ∨ short_of_blocks g' ∨ enable_swa_transfer (cache_config g) && bc = true)) ∨
        (write_plan s g' gpu_block_ids plan (uses_ssd g strat) ∧
         global_owns g' (λ d, ((W d).1, slots_for d (pp_swa_slots_to_free plan) ++ (W d).2)))
    | Raise x => (∃ msg, x = ValueError msg) ∧ ∃ gone, global_owns g' (lose W gone)
    end.
Proof.
  intros Hs Hlt Hgpu Hn. pose proof Hs as [Hlen Hch]. unfold _put_impl_local.
  rewrite M_bind_run. change (world_global (gets cache_config) (g, ids)) with (Ok (cache_config g), (g, ids)). cbv beta iota.
  rewrite M_bind_run, Hgpu. cbn [negb assertM py_assert lift_result]. rewrite M_bind_run, (lt_enabled _ _ _ _ Hlt). cbn [assertM py_assert lift_result].
  destruct (lt_cpu _ _ _ _ Hlt) as (e0 & He0 & _).
  assert (assert_engine CPU g = (Ok (), g)) as Ea by (unfold assert_engine; rewrite M_bind_run; cbn [get_state]; unfold has_engine; by rewrite He0).
  rewrite M_bind_run, (world_global_run _ g ids _ _ Ea). destruct (match_local_run s strat g W bc bs Hs Hlt) as (rc & rs & g1 & E1 & C1 & A1 & A2 & A3).
  rewrite M_bind_run, (world_global_run _ g ids _ _ E1). fold (uses_ssd g strat). set (en := uses_ssd g strat) in *.
  pose proof (matched_length _ _ _ _ _ _ _ A1) as Lc. pose proof (tier_matched_le s _ _ _ _ _ _ Hs A1) as Kc.
  assert (zlen (mr_physical_blocks rs) = Z.of_nat (num_matched_blocks rs) ∧ (num_matched_blocks rs <= num_blocks s)%nat) as [Ls Ks].
  { destruct en; [split; [by eapply matched_length|by eapply tier_matched_le]|]. destruct A2 as [_ ->]. simpl. split; [done|lia]. }
  rewrite (matched_blocks_all rc (num_blocks s)), (matched_blocks_all rs (num_blocks s)), Hn, Lc, Ls by done.
  set (kc := num_matched_blocks rc) in *. set (ks := num_matched_blocks rs) in *. set (n := num_blocks s) in *.
  destruct (Z.eqb_spec (Z.of_nat n - Z.of_nat kc) 0) as [Hz|Hz].
  { destruct (empty_plan_run g1 ids) as (plan & ids' & E & He). exists (Ok plan), g1, ids'. split; [done|]. left. split; [done|]. split.
    - apply global_owns_three; [right; by eapply tier_owned| |done]. destruct en; [right; by eapply tier_owned|apply A2].
    - left. exists (mr_physical_blocks rc). eapply tier_at_map; [exact A1|]. fold kc. lia. }
  destruct (local_resources_run (hashes_of XXH64 s) (cache_config g) g1 rc rs W bc bs en (Z.of_nat n - Z.of_nat kc) (if en then Z.of_nat n - Z.of_nat ks else 0))
    as (o & g2 & E2 & C2 & Ho); [done|done|by destruct en; [|destruct A2]|done|done|].
  rewrite M_bind_run, (world_global_run _ g1 ids _ _ E2). destruct o as [[R|]|x]; [| |by eexists _, g2, ids].
  2:{ destruct (empty_plan_run g2 ids) as (plan & ids' & E & He). exists (Ok plan), g2, ids'. split; [done|]. left. destruct Ho as [Ho1 Ho2]. split; [done|]. split; [done|]. by right. }
  destruct Ho as (Bc & Bs & sc & ss & -> & Hh & HBc & HBs & Hsl & Hss).
  set (f2 := if en then Z.of_nat n - Z.of_nat ks else 0) in *.
  assert (py_slice (Some (Z.of_nat kc)) None gpu_block_ids = drop kc gpu_block_ids) as ->.
  { unfold py_slice. simpl. unfold zlen in Hn. rewrite slice_bound_nonneg by lia. apply take_ge. rewrite length_drop. lia. }
  assert (write_ready XXH64 s (cache_config g) g2 rc rs empty_match W bc bs false (drop kc gpu_block_ids) Bc Bs None f2 0 (0 <? f2) false sc ss (-1)) as Hwr.
  { split; [done| | |done|].
    - fold kc n. split; [intros ->; unfold zlen in HBc; simpl in HBc; lia|]. split; [lia|]. rewrite HBc. unfold zlen in *. rewrite length_drop. lia.
    - fold ks n. unfold f2 in *. destruct en; [|by rewrite HBs]. destruct HBs as (B & -> & HB). destruct (Z.ltb_spec 0 (Z.of_nat n - Z.of_nat ks)) as [Hp|Hp].
      + exists B. split; [done|]. split; [intros ->; unfold zlen in HB; simpl in HB; lia|done].
      + simpl. destruct B; [done|]. unfold zlen in HB. simpl in HB. lia.
    - destruct (_ && _); [|by destruct Hsl as [-> ->]]. destruct Hsl as [? Hss2]. split; [done|]. split; [by rewrite Hss2, Z.ltb_lt|]. split; [lia|done]. }
  destruct (write_ops_run XXH64 clock s _ g2 rc rs empty_match W bc bs false _ Bc Bs None f2 0 _ false sc ss (-1) dp (fresh_planning g2 ids) Hs Hwr (fresh_plan_at g2 ids) Ks ltac:(simpl; lia))
    as (parts & p' & g' & ops & edges & k1 & k2 & k3 & Rc & Rs & Rr & callbacks & finished & E3 & [<- Hb] & C3 & Ha & Hkv & Wc & Ws & Wr & Hfin & Hfne & Hparts).
  erewrite plan_with_run by (rewrite M_bind_run, E3; reflexivity).
  eexists _, p'.1, p'.2.1. split; [reflexivity|]. right. rewrite Hparts.
  destruct (tier_stores s p'.1 CPU rc _ _ k1 (Some Bc) sc Rc (parts p'.2.2) kc Hs Wc eq_refl) as (B & [= <-] & Sc & Dc); [lia|done| |].
  { intros e He. rewrite Hparts. unfold node_entries in *. simpl. rewrite fmap_app, elem_of_app. by left. }
  rewrite Hparts in Sc. split.
  - split. exists ops, edges, kc, (mr_physical_blocks rc ++ Bc). eexists. split; [apply Hb|]. split; [exact Ha|]. rewrite Dc.
    split; [rewrite Hkv, app_nil_r; reflexivity|]. split; [exact Sc|]. split; [exact Lc|]. split.
    { simpl. unfold zlen in *. rewrite length_drop. lia. }
    split; [|by split].
    destruct (Z.ltb_spec 0 f2) as [Hp|Hp]; [right|by left].
    assert (en = true) as -> by (unfold f2 in Hp; destruct en; [done|lia]). split; [done|].
    destruct (tier_stores s p'.1 SSD rs _ _ k2 Bs ss Rs (parts p'.2.2) ks Hs Ws eq_refl) as (B & -> & Ss & Ds); [unfold f2 in Hp; lia|done| |].
    { intros e He. rewrite Hparts. unfold node_entries in *. simpl. rewrite !fmap_app, !elem_of_app. right. by left. }
    rewrite Hparts in Ss. exists ks, (mr_physical_blocks rs ++ B). rewrite Ds. done.
  - destruct (slots_for_held sc ss (-1)) as (S1 & S2 & S3). cbn [pp_swa_slots_to_free]. apply global_owns_three; cbv beta; cbn [fst snd]; rewrite ?S1, ?S2, ?S3; [apply Wc|apply Ws|apply Wr].
Qed.
End plan.
End put.

(** ** A concrete engine *)

Lemma locks_of_store `{!PrefixHash} (t : RadixTreeIndex) : map_Forall (λ _ x, 0 <= lock_cnt x) (store t) → ∀ x, tree t x → 0 <= lock_cnt (nd t x).
Proof. intros Hm x _. unfold nd. destruct (store t !! x) as [y|] eqn:E; [by eapply (Hm x)|done]. Qed.

Definition toy_cache_config : CacheConfig := mkConfig true false false false true false 1 true.
Definition toy_global : GlobalCacheEngine := mkGlobal toy_cache_config (Some toy_engine) None None.
Definition toy_ids : Ids := mkIds 0 0.
Definition toy_held : DeviceType → gset Z * list Z := λ _, (∅, []).

Lemma toy_tiers : @local_tiers toy_ph toy_global toy_held true false.
Proof.
  split; [|done|by left|done]. exists toy_engine. split; [done|]. split; [apply toy_engine_owns|]. split; [by vm_compute|].
  apply (@locks_of_store toy_ph). apply map_Forall_to_list. apply (bool_decide_unpack _). by vm_compute.
Qed.

Lemma put_local_spec_witness :
  ∃ plan g' ids', _put_impl_local toy_digest toy_clock (toy_seq [7; 8; 9]) 0 3 [20; 21; 22] DEFAULT_CACHE_STRATEGY 0 (toy_global, toy_ids) = (Ok plan, (g', ids')) ∧
    write_plan toy_digest (toy_seq [7; 8; 9]) g' [20; 21; 22] plan false.
Proof.
  destruct (@put_local_spec toy_ph toy_digest toy_clock (toy_seq [7; 8; 9]) toy_global toy_ids toy_held true false [20; 21; 22] DEFAULT_CACHE_STRATEGY 0
    (toy_seq_ok _) toy_tiers eq_refl eq_refl) as (o & g' & ids' & E & Ho).
  assert (match (_put_impl_local toy_digest toy_clock (toy_seq [7; 8; 9]) 0 3 [20; 21; 22] DEFAULT_CACHE_STRATEGY 0 (toy_global, toy_ids)).1 with
          | Ok plan => pp_num_gpu_blocks_to_transfer plan = 3 | Raise _ => False end) as Hn by (vm_compute; reflexivity).
  change (_put_impl_local toy_digest toy_clock (toy_seq [7; 8; 9]) 0 3 [20; 21; 22] DEFAULT_CACHE_STRATEGY 0 (toy_global, toy_ids) = (o, (g', ids'))) in E.
  rewrite E in Hn. destruct o as [plan|x]; [|destruct Hn]. exists plan, g', ids'. split; [done|].
  destruct Ho as [[[gid ->] _]|[Hw _]]; [done|exact Hw].
Defined.

End PutPlan.
