(* ===== verification/PlanEnd.v ===== *)
(** * PlanEnd: completing and aborting a plan

    Proofs about [TransferPlanHandle], [_transfer_callback] and
    [_abort_transfer_plan] ([GlobalCache]): a handle acts once, an abort gives
    back every block and slot the plan lists and removes its unpublished nodes,
    a completion publishes exactly the blocks of the plan's nodes. *)

From S2P Require Import Prelude PyFloat Block Transfer GraphBuild SWAOps Mempool SWAHostPool RadixTree RadixCore RadixLeaf RadixWf RadixMatch RadixInsert RadixDetach RadixEvict RadixReady RadixSpec CacheEngine GlobalCache GlobalPlan PlanTier PutPlan.
Import GraphBuild.GraphBuild SWAOps.SWAOps RadixTree.RadixTree RadixWf.RadixWf RadixMatch.RadixMatch RadixInsert.RadixInsert RadixDetach.RadixDetach RadixEvict.RadixEvict RadixReady.RadixReady CacheEngine.CacheEngine GlobalCache.GlobalCache GlobalPlan.GlobalPlan PlanTier.PlanTier PutPlan.PutPlan.
Local Open Scope Z_scope.

Module PlanEnd.

(** ** The handle *)

(** One use of a handle: [true] is the call, [false] is [abort()]; the caller sees the result and goes on. *)
Definition use {St} (call : bool) : M (TransferPlanHandle St * St) unit := if call then handle_call else handle_abort.
Definition uses_of {St} (calls : list bool) (p : TransferPlanHandle St * St) : TransferPlanHandle St * St :=
  foldl (λ p c, (use c p).2) p calls.

Lemma use_consumed {St} c (h : TransferPlanHandle St) (s : St) : _consumed h = true → use c (h, s) = (Ok (), (h, s)).
Proof. intros Hc. unfold use, handle_call, handle_abort, handle_once. destruct c; cbn [fst]; by rewrite Hc. Qed.

(** A fresh plan handle acts once: whatever the sequence of calls and aborts, even when the first one raises, the
    first use runs its action and every later use returns at once and changes nothing, so a plan is never both
    completed and aborted, and its resources are released at most once. *)
Theorem plan_handle_once {St} (h : TransferPlanHandle St) (s : St) (first : bool) (later : list bool) :
  _consumed h = false →
  let action := if first then _complete h else _abort h in
  use first (h, s) = ((action s).1, (consume h, (action s).2)) ∧
  uses_of (first :: later) (h, s) = (consume h, (action s).2) ∧
  ∀ c, use c (uses_of (first :: later) (h, s)) = (Ok (), uses_of (first :: later) (h, s)).
Proof.
  intros Hc action. assert (use first (h, s) = ((action s).1, (consume h, (action s).2))) as E.
  { unfold use, handle_call, handle_abort, handle_once, action. destruct first; cbn [fst snd]; rewrite Hc; [by destruct (_complete h s)|by destruct (_abort h s)]. }
  assert (∀ l, uses_of l (consume h, (action s).2) = (consume h, (action s).2)) as Hl.
  { intros l. induction l as [|c l IH]; [done|]. cbn [uses_of foldl] in *. rewrite use_consumed by done. exact IH. }
  split; [done|]. assert (uses_of (first :: later) (h, s) = (consume h, (action s).2)) as El.
  { cbn [uses_of foldl]. rewrite E. apply Hl. }
  split; [done|]. intros c. rewrite El. by apply use_consumed.
Qed.

Lemma plan_handle_once_witness :
  let h := mkHandle (modify_state (Z.add 1)) (modify_state (Z.add 10)) false in uses_of [true; false; true] (h, 0) = (consume h, 1).
Proof. exact (proj1 (proj2 (plan_handle_once (mkHandle (modify_state (Z.add 1)) (modify_state (Z.add 10)) false) 0 true [false; true] eq_refl))). Defined.

Section ends.
Context `{!PrefixHash}.
Implicit Types (g : GlobalCacheEngine) (hb : gset Z) (hs : list Z) (W : DeviceType → gset Z * list Z).

(** The tiers hold the blocks [B d] and the slots [Q d] besides what [W] says. *)
Definition also W (B Q : DeviceType → list Z) : DeviceType → gset Z * list Z := λ d, ((W d).1 ∪ list_to_set (B d), Q d ++ (W d).2).

(** ** Calls that only touch locks *)

Definition in_index g (d : DeviceType) (n : nid) : Prop := ∃ e, engine_of d g = Some e ∧ tree (index e) n.

(** A node a plan holds: it is there, and locked. *)
Definition held_node g (entry : DeviceType * (nid * Z)) : Prop :=
  ∃ e, engine_of entry.1 g = Some e ∧ tree (index e) entry.2.1 ∧ 0 < lock_cnt (nd (index e) entry.2.1).

(** Nobody else uses the node: an unready leaf that only this plan has locked. *)
Definition only_ours g (d : DeviceType) (n : nid) : Prop :=
  ∃ e, engine_of d g = Some e ∧ n ≠ root_node (index e) ∧ is_ready (nd (index e) n) = false ∧ lock_cnt (nd (index e) n) = 1 ∧
    swa_lock_ref (nd (index e) n) <= 0 ∧ is_leaf (nd (index e) n) = true.

Lemma held_other g g' d entry : touches d g g' → entry.1 ≠ d → held_node g entry → held_node g' entry.
Proof. intros T Hd (e & He & R). exists e. split; [|done]. by rewrite (to_others _ _ _ T). Qed.

Lemma unlock_tier x d n len g hb hs :
  owned g d hb hs → held_node g (d, (n, len)) →
  ∃ e g', engine_of d g = Some e ∧ on_engine x d (CacheEngine.unlock n) g = (Ok (), g') ∧ touches d g g' ∧ owned g' d hb hs ∧
    engine_of d g' = Some (with_index (with_store (alter (relock n (-1)) n) (index e)) e) ∧ wf (index e) ∧ tree (index e) n.
Proof.
  intros (e & He & Ho) (e' & He' & Ht & Hl). cbn [fst snd] in *. assert (e' = e) as -> by congruence. exists e. eexists. split; [done|].
  split; [eapply on_engine_run; [done|by apply unlock_run]|]. split; [apply with_engine_touches|].
  split; [eexists; split; [by apply engine_of_with|by apply relock_owns]|]. split; [by apply engine_of_with|]. split; [apply Ho|done].
Qed.

Lemma abort_node_run g d n len hb hs :
  owned g d hb hs → held_node g (d, (n, len)) →
  ∃ g', abort_node (d, (n, len)) g = (Ok (), g') ∧ touches d g g' ∧ owned g' d hb hs ∧ (only_ours g d n → ¬ in_index g' d n).
Proof.
  intros Ho Hn. destruct (unlock_tier KeyError d n len g hb hs Ho Hn) as (e & g1 & He & E1 & T1 & (e1 & He1 & Ho1) & He1' & Hwf & Ht).
  assert (e1 = with_index (with_store (alter (relock n (-1)) n) (index e)) e) as -> by congruence.
  pose proof (relock_meta n (-1) (index e)) as Mt. set (e1 := with_index _ _) in *.
  assert (tree (index e1) n) as Ht1 by (unfold e1; simpl; by rewrite (me_shapes _ _ Mt)).
  destruct (rollback_run e1 hb hs n Ho1 Ht1) as (B & G & e2 & t2 & E2 & Ho2 & _ & _ & _ & Hgone).
  eexists. unfold abort_node. rewrite M_bind_run, E1, M_bind_run, (on_engine_run _ _ _ _ _ _ _ He1 E2). split; [done|].
  split; [eapply touches_trans; [done|apply with_engine_touches]|].
  assert (engine_of d (with_engine d e2 g1) = Some e2) as He2 by (by apply engine_of_with).
  split; [by exists e2|]. intros (e' & He' & Hr & Hrd & Hlk & Hsw & Hleaf) (e2' & He2' & Hin). assert (e' = e) as -> by congruence.
  assert (e2' = e2) as -> by congruence. revert Hin. apply Hgone.
  assert (nd (index e1) n = relock n (-1) (nd (index e) n)) as -> by (unfold e1; simpl; by apply nd_upd_eq, tree_live).
  assert (is_root (relock n (-1) (nd (index e) n)) = false) as ->.
  { change (is_root (nd (index e) n) = false). rewrite is_root_iff by done. by apply bool_decide_eq_false. }
  change (is_ready (relock n (-1) (nd (index e) n))) with (is_ready (nd (index e) n)).
  change (is_leaf (relock n (-1) (nd (index e) n))) with (is_leaf (nd (index e) n)).
  change (swa_lock_ref (relock n (-1) (nd (index e) n))) with (swa_lock_ref (nd (index e) n)).
  rewrite Hrd, Hleaf, (proj2 (Z.ltb_ge 0 (swa_lock_ref _)) Hsw). unfold relock. simpl. by rewrite Hlk.
Qed.

Lemma abort_nodes_run W nodes : ∀ g,
  NoDup nodes.*1 → Forall (held_node g) nodes → global_owns g W →
  ∃ g', for_each abort_node nodes g = (Ok (), g') ∧ global_owns g' W ∧ (∀ d, has_engine d g' = has_engine d g) ∧
    (∀ d n len, (d, (n, len)) ∈ nodes → only_ours g d n → ¬ in_index g' d n) ∧ (∀ d, d ∉ nodes.*1 → engine_of d g' = engine_of d g).
Proof.
  induction nodes as [|[d [n len]] nodes IH]; intros g HN Hh Ho.
  { exists g. split; [done|]. split; [done|]. split; [done|]. split; [by intros d n len ?%elem_of_nil|done]. }
  apply NoDup_cons in HN as [Hd HN]. apply Forall_cons in Hh as [Hn Hh].
  assert (owned g d (W d).1 (W d).2) as Hod by (destruct Hn as (e & He & _); destruct (Ho d) as [Hx|Hx]; [cbn [fst] in He; by rewrite He in Hx|exact Hx]).
  destruct (abort_node_run g d n len _ _ Hod Hn) as (g1 & E1 & T1 & Ho1 & Hg1).
  destruct (IH g1 HN) as (g2 & E2 & Ho2 & Hh2 & Hg2 & Hk2).
  - rewrite Forall_forall in *. intros e He. eapply held_other; [done| |by apply Hh]. intros Eq. destruct Hd. apply list_elem_of_fmap. by exists e.
  - intros d'. destruct (decide (d' = d)) as [->|]; [by right|]. eapply kept_other; [done..|apply Ho].
  - exists g2. cbn [for_each]. rewrite M_bind_run, E1. split; [done|]. split; [done|]. split; [|split].
    + intros d'. rewrite Hh2. unfold has_engine. destruct (decide (d' = d)) as [->|]; [|by rewrite (to_others _ _ _ T1)].
      destruct Ho1 as (e1 & -> & _), Hod as (e & -> & _). done.
    + intros d' n' len' [[= -> -> ->]|Hin]%elem_of_cons Hon.
      * intros (e & He & Ht). apply (Hg1 Hon). exists e. split; [|done]. by rewrite <- (Hk2 d Hd).
      * assert (d' ≠ d) as Hne by (intros ->; destruct Hd; apply list_elem_of_fmap; by exists (d, (n', len'))).
        apply (Hg2 d' n' len' Hin). destruct Hon as (e & He & R). exists e. split; [|done]. by rewrite (to_others _ _ _ T1).
    + intros d'. cbn [fmap list_fmap fst]. rewrite elem_of_cons. intros Hn'. rewrite (Hk2 d') by tauto. apply (to_others _ _ _ T1). tauto.
Qed.

(** ** Giving back blocks and slots *)

Definition buffer_of (bl : list (DeviceType * list Z)) (d : DeviceType) : list Z := default [] (dict_get d bl).

Definition buffers_ok g W (bl : list (DeviceType * list Z)) : Prop :=
  ∀ d B, (d, B) ∈ bl → NoDup B ∧ (∀ c, c ∈ B → c ∉ (W d).1) ∧ has_engine d g = true.

Lemma kept_engine g d hb hs : has_engine d g = true → kept g d hb hs → owned g d hb hs.
Proof. unfold has_engine. intros He [Hn|?]; [by rewrite Hn in He|done]. Qed.

Lemma has_engine_touches d g g' hb hs : touches d g g' → owned g' d hb hs → has_engine d g = true → ∀ d', has_engine d' g' = has_engine d' g.
Proof.
  intros T (e & He & _) Hd d'. unfold has_engine in *. destruct (decide (d' = d)) as [->|]; [by rewrite He|by rewrite (to_others _ _ _ T)].
Qed.

Lemma abort_buffers_run W Q bl : ∀ g,
  NoDup bl.*1 → buffers_ok g W bl → global_owns g (also W (buffer_of bl) Q) →
  ∃ g', for_each abort_buffer bl g = (Ok (), g') ∧ global_owns g' (also W (λ _, []) Q) ∧ (∀ d, has_engine d g' = has_engine d g) ∧ alike_tiers g g'.
Proof.
  induction bl as [|[d B] bl IH]; intros g HN Hb Ho; [by exists g|]. apply NoDup_cons in HN as [Hd HN].
  destruct (Hb d B) as (HB & Hfr & He); [left|]. assert (dict_get d bl = None) as Hnone by (by apply dict_get_None).
  assert (∀ d', buffer_of ((d, B) :: bl) d' = if decide (d' = d) then B else buffer_of bl d') as Hbuf.
  { intros d'. unfold buffer_of. simpl. by case_decide. }
  assert (owned g d ((W d).1 ∪ list_to_set B) (Q d ++ (W d).2)) as Hod.
  { specialize (Ho d). apply kept_engine in Ho; [|done]. unfold also in Ho. rewrite Hbuf, decide_True in Ho by done. done. }
  assert (∃ g1, abort_buffer (d, B) g = (Ok (), g1) ∧ touches d g g1 ∧ owned g1 d (W d).1 (Q d ++ (W d).2) ∧ alike_tiers g g1) as (g1 & E1 & T1 & Ho1 & N1).
  { unfold abort_buffer. cbn [fst snd]. destruct B as [|c B].
    - exists g. split; [done|]. split; [apply touches_refl|]. split; [|done]. eapply owned_eq; [|exact Hod]. by rewrite list_to_set_nil, union_empty_r_L.
    - destruct (recycle_tier KeyError d g _ _ (c :: B) Hod HB Hfr) as (g1 & E & T & Ho1 & A). by exists g1. }
  pose proof (has_engine_touches _ _ _ _ _ T1 Ho1 He) as Hh1.
  destruct (IH g1 HN) as (g2 & E2 & Ho2 & Hh2 & N2).
  - intros d' B' Hin. rewrite Hh1. apply Hb. by right.
  - intros d'. unfold also. destruct (decide (d' = d)) as [->|Hne].
    + right. unfold buffer_of. rewrite Hnone. simpl. by rewrite union_empty_r_L.
    + eapply kept_other; [done|done|]. specialize (Ho d'). unfold also in Ho. rewrite Hbuf, decide_False in Ho by done. done.
  - exists g2. cbn [for_each]. rewrite M_bind_run, E1. split; [done|]. split; [done|]. split; [intros d'; by rewrite Hh2|]. by etrans.
Qed.

Lemma also_nil W d : also W (λ _, []) (λ _, []) d = W d.
Proof. unfold also. simpl. rewrite union_empty_r_L. by destruct (W d). Qed.

Lemma abort_slots_run W sl : ∀ g,
  (∀ d s, (d, s) ∈ sl → 0 <= s ∧ has_engine d g = true) → global_owns g (also W (λ _, []) (λ d, slots_for d sl)) →
  ∃ g', for_each abort_slot sl g = (Ok (), g') ∧ global_owns g' W ∧ alike_tiers g g'.
Proof.
  induction sl as [|[d s] sl IH]; intros g Hs Ho.
  { exists g. split; [done|]. split; [|done]. intros d. rewrite <- (also_nil W d). apply Ho. }
  destruct (Hs d s) as [Hpos He]; [left|].
  assert (∀ d', slots_for d' ((d, s) :: sl) = (if decide (d' = d) then [s] else []) ++ slots_for d' sl) as Hsl.
  { intros d'. unfold slots_for. rewrite filter_cons. simpl. case_decide; case_decide; congruence || done. }
  assert (owned g d ((W d).1 ∪ list_to_set []) (one_slot s ++ slots_for d sl ++ (W d).2)) as Hod.
  { specialize (Ho d). apply kept_engine in Ho; [|done]. unfold also in Ho. rewrite Hsl, decide_True in Ho by done.
    unfold one_slot. by rewrite (proj2 (Z.leb_le _ _)). }
  destruct (free_slot_run KeyError d g _ _ s Hod) as (g1 & E1 & T1 & Ho1 & N1). pose proof (has_engine_touches _ _ _ _ _ T1 Ho1 He) as Hh1.
  destruct (IH g1) as (g2 & E2 & Ho2 & N2).
  - intros d' s' Hin. rewrite Hh1. apply Hs. by right.
  - intros d'. unfold also. destruct (decide (d' = d)) as [->|Hne]; [by right|]. eapply kept_other; [done|done|].
    specialize (Ho d'). unfold also in Ho. rewrite Hsl, decide_False in Ho by done. done.
  - exists g2. cbn [for_each]. change (abort_slot (d, s) g = (Ok (), g1)) in E1. rewrite M_bind_run, E1. split; [done|]. split; [done|]. by etrans.
Qed.

(** ** The SWA read reservation *)

Lemma is_ready_upd n (f : RadixNode → RadixNode) t x :
  (∀ y, is_ready (f y) = is_ready y) → is_ready (nd (with_store (alter f n) t) x) = is_ready (nd t x).
Proof.
  intros Hf. unfold nd, with_store. cbn [store]. destruct (decide (x = n)) as [->|Hx].
  - rewrite lookup_alter_eq. destruct (store t !! n); simpl; [apply Hf|done].
  - by rewrite lookup_alter_ne.
Qed.

(** A call that only moves a lock counter of a node. *)
Definition lock_op (m : Op unit) : Prop := ∀ t, meta t (m t).2 ∧ ∀ x, is_ready (nd (m t).2 x) = is_ready (nd t x).

Lemma dec_swa_lock_op n : lock_op (dec_swa_lock_ref n).
Proof.
  intros t. split; [apply (meta_op t)|]. intros x. unfold dec_swa_lock_ref. rewrite M_bind_run. cbn [node gets].
  rewrite M_bind_run. destruct (0 <? swa_lock_ref (nd t n)); [|done]. cbn [assertM py_assert lift_result]. by apply is_ready_upd.
Qed.

Lemma unlock_lock_op n : lock_op (RadixTree.unlock n).
Proof.
  intros t. split; [apply (meta_op t)|]. intros x. unfold RadixTree.unlock. rewrite M_bind_run. cbn [node gets].
  rewrite M_bind_run. destruct (0 <? lock_cnt (nd t n)); [|done]. cbn [assertM py_assert lift_result]. by apply is_ready_upd.
Qed.

Lemma lock_op_tier (m : Op unit) d g W :
  lock_op m → global_owns g W → ∃ o g', cache_engines d (on_index m) g = (o, g') ∧ global_owns g' W ∧ same_nodes g g' ∧ ∀ d', has_engine d' g' = has_engine d' g.
Proof.
  intros Hm Ho. unfold on_engine. destruct (engine_of d g) as [e|] eqn:He; [|by exists (Raise KeyError), g].
  unfold on_index. destruct (m (index e)) as [o t] eqn:E. exists o. eexists. split; [reflexivity|].
  destruct (Hm (index e)) as [Mt Hr]. rewrite E in Mt, Hr. cbn [snd] in *. set (e' := with_index t e).
  pose proof (with_engine_touches d e' g) as T. pose proof (engine_of_with d e' g (mk_is_Some _ _ He)) as He'.
  split; [|split].
  - intros d'. destruct (decide (d' = d)) as [->|Hd]; [|by eapply kept_other]. right. exists e'. split; [done|].
    destruct (Ho d) as [Hn|(e2 & He2 & Ho2)]; [congruence|]. assert (e2 = e) as -> by congruence. by apply meta_owns.
  - eapply same_nodes_tier; [done..| |]; simpl.
    + intros n. destruct (me_rest _ _ Mt) as (_ & Er & _). by rewrite (me_shapes _ _ Mt), Er.
    + intros h c rd. by apply meta_entry_iff.
  - intros d'. unfold has_engine. destruct (decide (d' = d)) as [->|Hd]; [by rewrite He', He|by rewrite (to_others _ _ _ T)].
Qed.

Lemma suppress_run {St} (m : M St unit) s o s' : m s = (o, s') → suppress m s = (Ok (), s').
Proof. unfold suppress. by intros ->. Qed.

(** Releasing a read source never fails; the staging slot goes back to the CPU tier. *)
Definition staged (slot : Z) (d : DeviceType) : list Z := if decide (d = CPU) then one_slot slot else [].

(** The source is unpinned, whatever its counters are. *)
Definition release_source (node : option (DeviceType * nid)) : Global unit :=
  suppress (match node with
            | Some (d, n) =>
                g ← get_state;
                if match engine_of d g with Some e => 0 <? swa_lock_ref (nd (index e) n) | None => false end
                then cache_engines d (on_index (dec_swa_lock_ref n)) ;; cache_engines d (CacheEngine.unlock n)
                else mret tt
            | None => mret tt
            end).

Lemma release_source_run node g W :
  global_owns g W → ∃ g', release_source node g = (Ok (), g') ∧ global_owns g' W ∧ same_nodes g g' ∧ ∀ d, has_engine d g' = has_engine d g.
Proof.
  intros Ho. unfold release_source.
  enough (∃ o g1, match node with
            | Some (d, n) => (g ← get_state;
                if match engine_of d g with Some e => 0 <? swa_lock_ref (nd (index e) n) | None => false end
                then cache_engines d (on_index (dec_swa_lock_ref n)) ;; cache_engines d (CacheEngine.unlock n) else mret tt)
            | None => mret tt end g = (o, g1) ∧ global_owns g1 W ∧ same_nodes g g1 ∧ ∀ d, has_engine d g1 = has_engine d g) as (o & g1 & E1 & R).
  { exists g1. split; [by eapply suppress_run|done]. }
  destruct node as [[d n]|]; [|by exists (Ok ()), g]. rewrite M_bind_run. cbn [get_state].
  destruct (match engine_of d g with Some e => _ | None => false end); [|by exists (Ok ()), g].
  destruct (lock_op_tier _ d g W (dec_swa_lock_op n) Ho) as (o1 & g1 & E1 & Ho1 & N1 & H1). rewrite M_bind_run, E1.
  destruct o1; [|by exists (Raise e), g1].
  destruct (lock_op_tier _ d g1 W (unlock_lock_op n) Ho1) as (o2 & g2 & E2 & Ho2 & N2 & H2).
  exists o2, g2. split; [exact E2|]. split; [done|]. split; [by etrans|]. intros d'. by rewrite H2.
Qed.

Lemma release_staging_run slot g W :
  global_owns g (also W (λ _, []) (staged slot)) →
  ∃ g', suppress (if 0 <=? slot then if_engine CPU (self_engine CPU (_free_swa_slot slot)) else mret tt) g = (Ok (), g') ∧
    global_owns g' W ∧ alike_tiers g g' ∧ ∀ d, has_engine d g' = has_engine d g.
Proof.
  intros Ho.
  enough (∃ o g2, (if 0 <=? slot then if_engine CPU (self_engine CPU (_free_swa_slot slot)) else mret tt) g = (o, g2) ∧ global_owns g2 W ∧
    alike_tiers g g2 ∧ ∀ d, has_engine d g2 = has_engine d g) as (o & g2 & E & R).
  { exists g2. split; [by eapply suppress_run|done]. }
  assert (∀ d, d ≠ CPU → kept g d (W d).1 (W d).2) as Hoth.
  { intros d Hd. specialize (Ho d). unfold also, staged in Ho. rewrite decide_False in Ho by done. simpl in Ho. by rewrite union_empty_r_L in Ho. }
  pose proof (Ho CPU) as Hc. unfold also, staged in Hc. rewrite decide_True in Hc by done. simpl in Hc. rewrite union_empty_r_L in Hc.
  unfold if_engine. destruct (has_engine CPU g) eqn:He.
  - apply kept_engine in Hc; [|done]. destruct (free_slot_run AttributeError CPU g _ _ slot Hc) as (g2 & E2 & T2 & Ho2 & N2).
    exists (Ok ()), g2. split.
    { destruct (0 <=? slot); [|done]. rewrite M_bind_run. cbn [get_state]. by rewrite He. }
    split; [|split; [done|]].
    + intros d. destruct (decide (d = CPU)) as [->|]; [by right|]. by eapply kept_other, Hoth.
    + eapply has_engine_touches; [done..|exact He].
  - exists (Ok ()), g. split; [destruct (0 <=? slot); [|done]; rewrite M_bind_run; cbn [get_state]; by rewrite He|].
    split; [|done]. intros d. destruct (decide (d = CPU)) as [->|]; [|by apply Hoth]. left. unfold has_engine in He. by destruct (engine_of CPU g).
Qed.

Lemma release_lock_run node slot g W :
  global_owns g (also W (λ _, []) (staged slot)) →
  ∃ g', _swa_release_load_lock node slot g = (Ok (), g') ∧ global_owns g' W ∧ same_nodes g g' ∧ ∀ d, has_engine d g' = has_engine d g.
Proof.
  intros Ho. unfold _swa_release_load_lock. destruct (release_source_run node g _ Ho) as (g1 & E1 & Ho1 & N1 & H1).
  destruct (release_staging_run slot g1 W Ho1) as (g2 & E2 & Ho2 & A2 & H2). rewrite M_bind_run. fold (release_source node). rewrite E1, E2.
  exists g2. split; [done|]. split; [done|]. split; [|intros d; by rewrite H2]. etrans; [exact N1|by apply alike_same_nodes].
Qed.

Definition staging_of (reservation : option SWAReadReservation) : Z := match reservation with Some r => staging_slot r | None => -1 end.

Lemma release_reservation_run reservation g W :
  global_owns g (also W (λ _, []) (staged (staging_of reservation))) →
  ∃ g', _release_swa_read_reservation reservation g = (Ok (), g') ∧ global_owns g' W ∧ same_nodes g g' ∧ ∀ d, has_engine d g' = has_engine d g.
Proof.
  intros Ho. unfold _release_swa_read_reservation. destruct reservation as [r|]; [by apply release_lock_run|].
  exists g. split; [done|]. split; [|done]. intros d. specialize (Ho d). unfold also, staged, staging_of, one_slot in *. simpl in *.
  rewrite !union_empty_r_L in *. by destruct (decide (d = CPU)).
Qed.

Lemma same_nodes_in g g' d n : same_nodes g g' → in_index g' d n → in_index g d n.
Proof. intros N (e' & He' & Ht). destruct (N d e' He') as (e & He & Hn & _). exists e. split; [done|]. by apply Hn. Qed.

(** *** The locks of a plan *)

(** Every counter is as it was, less what [δ] says, and no node is new. *)
Definition unlocked_by (δ : DeviceType → nid → Z * Z) g g' : Prop :=
  ∀ d e', engine_of d g' = Some e' → ∃ e, engine_of d g = Some e ∧ ∀ n, (tree (index e') n → tree (index e) n) ∧
    is_ready (nd (index e') n) = is_ready (nd (index e) n) ∧
    lock_cnt (nd (index e') n) = lock_cnt (nd (index e) n) - (δ d n).1 ∧
    swa_lock_ref (nd (index e') n) = swa_lock_ref (nd (index e) n) - (δ d n).2.

Lemma unlocked_alike g g' : alike_tiers g g' → unlocked_by (λ _ _, (0, 0)) g g'.
Proof.
  intros A d e' He'. destruct (A d e' He') as (e & He & Al). exists e. split; [done|]. intros n. pose proof (al_use _ _ Al n) as U.
  unfold use_of in U. injection U as -> -> ->. split; [by intros ?%(al_tree _ _ Al)|]. simpl. split; [done|]. lia.
Qed.

Lemma unlocked_trans δ1 δ2 δ g1 g2 g3 :
  unlocked_by δ1 g1 g2 → unlocked_by δ2 g2 g3 → (∀ d n, δ d n = ((δ1 d n).1 + (δ2 d n).1, (δ1 d n).2 + (δ2 d n).2)) → unlocked_by δ g1 g3.
Proof.
  intros A B Hδ d e3 He3. destruct (B d e3 He3) as (e2 & He2 & B2). destruct (A d e2 He2) as (e1 & He1 & A1).
  exists e1. split; [done|]. intros n. destruct (A1 n) as (? & ? & ? & ?), (B2 n) as (? & ? & ? & ?). rewrite Hδ. simpl. split_and!; [auto|congruence|lia..].
Qed.

Lemma unlocked_tier δ d g g' e e' :
  touches d g g' → engine_of d g = Some e → engine_of d g' = Some e' →
  (∀ n, (tree (index e') n → tree (index e) n) ∧ use_of (nd (index e') n) =
     (is_ready (nd (index e) n), lock_cnt (nd (index e) n) - (δ d n).1, swa_lock_ref (nd (index e) n) - (δ d n).2)) →
  (∀ d' n, d' ≠ d → δ d' n = (0, 0)) → unlocked_by δ g g'.
Proof.
  intros T He He' Hu Hδ d' e2 He2. destruct (decide (d' = d)) as [->|Hd].
  - assert (e2 = e') as -> by congruence. exists e. split; [done|]. intros n. destruct (Hu n) as [Ht U]. unfold use_of in U. by injection U.
  - rewrite (to_others _ _ _ T) in He2 by done. exists e2. split; [done|]. intros n. rewrite Hδ by done. simpl. split; [done|]. split; [done|]. lia.
Qed.

(** How often the plan has locked a node: once per entry of its map. *)
Definition plan_locks (nodes : list (DeviceType * (nid * Z))) (d : DeviceType) (n : nid) : Z := zlen (filter (λ x : DeviceType * (nid * Z), x.1 = d ∧ x.2.1 = n) nodes).

Lemma plan_locks_cons d n len nodes d' n' :
  plan_locks ((d, (n, len)) :: nodes) d' n' = (if decide (d = d' ∧ n = n') then 1 else 0) + plan_locks nodes d' n'.
Proof. unfold plan_locks, zlen. rewrite filter_cons. cbn [fst snd]. case_decide; cbn [length]; lia. Qed.

Lemma relock_use n t x : is_Some (store t !! n) →
  use_of (nd (with_store (alter (relock n (-1)) n) t) x) =
    (is_ready (nd t x), lock_cnt (nd t x) - (if decide (x = n) then 1 else 0), swa_lock_ref (nd t x)).
Proof.
  intros Hn. destruct (decide (x = n)) as [->|Hx]; [by rewrite nd_upd_eq|]. rewrite nd_upd_ne by done. unfold use_of. f_equal. f_equal. lia.
Qed.

Lemma abort_node_unlocks g g' d n len hb hs :
  owned g d hb hs → held_node g (d, (n, len)) → abort_node (d, (n, len)) g = (Ok (), g') →
  unlocked_by (λ d' n', (if decide (d = d' ∧ n = n') then 1 else 0, 0)) g g'.
Proof.
  intros Ho Hn E. destruct (unlock_tier KeyError d n len g hb hs Ho Hn) as (e & g1 & He & E1 & T1 & (e1 & He1 & Ho1) & He1' & Hwf & Ht).
  assert (e1 = with_index (with_store (alter (relock n (-1)) n) (index e)) e) as -> by congruence.
  pose proof (relock_meta n (-1) (index e)) as Mt. set (e1 := with_index _ _) in *.
  assert (∀ x, tree (index e1) x ↔ tree (index e) x) as Ht1.
  { intros x. unfold e1. simpl. by rewrite (me_shapes _ _ Mt). }
  destruct (rollback_run e1 hb hs n Ho1 (proj2 (Ht1 n) Ht)) as (B & G & e2 & t2 & E2 & Ho2 & R & A & _ & _).
  unfold abort_node in E. rewrite M_bind_run, E1, M_bind_run, (on_engine_run _ _ _ _ _ _ _ He1 E2) in E. injection E as <-.
  eapply (unlocked_tier _ d g _ e e2); [eapply touches_trans; [done|apply with_engine_touches]|done|by apply engine_of_with| |].
  - intros x. split.
    + intros Hx%(al_tree _ _ A). apply (rm_tree _ _ _ _ _ R) in Hx as [Hx _]. by apply Ht1.
    + rewrite (al_use _ _ A), (st_use _ _ (rm_stays _ _ _ _ _ R)). unfold e1. simpl. rewrite relock_use by (by apply tree_live).
      f_equal; [f_equal|]; simpl; [|lia]. destruct (decide (x = n)) as [->|Hx]; [by rewrite decide_True|by rewrite decide_False by naive_solver].
  - intros d' x Hd. by rewrite decide_False by naive_solver.
Qed.

Lemma abort_nodes_unlock W nodes : ∀ g g',
  NoDup nodes.*1 → Forall (held_node g) nodes → global_owns g W → for_each abort_node nodes g = (Ok (), g') →
  unlocked_by (λ d n, (plan_locks nodes d n, 0)) g g'.
Proof.
  induction nodes as [|[d [n len]] nodes IH]; intros g g' HN Hh Ho E.
  { injection E as <-. by apply unlocked_alike. }
  apply NoDup_cons in HN as [Hd HN]. apply Forall_cons in Hh as [Hn Hh].
  assert (owned g d (W d).1 (W d).2) as Hod by (destruct Hn as (e & He & _); destruct (Ho d) as [Hx|Hx]; [cbn [fst] in He; by rewrite He in Hx|exact Hx]).
  destruct (abort_node_run g d n len _ _ Hod Hn) as (g1 & E1 & T1 & Ho1 & _). cbn [for_each] in E. rewrite M_bind_run, E1 in E.
  eapply unlocked_trans; [by eapply abort_node_unlocks|apply (IH g1); [done| | |exact E]|].
  - rewrite Forall_forall in *. intros e He. eapply held_other; [done| |by apply Hh]. intros Eq. destruct Hd. apply list_elem_of_fmap. by exists e.
  - intros d'. destruct (decide (d' = d)) as [->|]; [by right|]. eapply kept_other; [done..|apply Ho].
  - intros d' n'. simpl. by rewrite plan_locks_cons.
Qed.

(** The node an SWA read comes from, pinned and locked once by the reservation. *)
Definition read_source (reservation : option SWAReadReservation) : option (DeviceType * nid) := r ← reservation; source_of (source r).
Definition read_pins (source : option (DeviceType * nid)) (d : DeviceType) (n : nid) : Z := if decide (source = Some (d, n)) then 1 else 0.

Definition pinned g (d : DeviceType) (n : nid) (locks : Z) : Prop :=
  ∃ e, engine_of d g = Some e ∧ 0 < swa_lock_ref (nd (index e) n) ∧ locks < lock_cnt (nd (index e) n).

Lemma pinned_live t n : 0 < swa_lock_ref (nd t n) → is_Some (store t !! n).
Proof. unfold nd. destruct (store t !! n); [done|]. simpl. lia. Qed.

Lemma release_source_unlocks node g g' :
  release_source node g = (Ok (), g') → (∀ d n, node = Some (d, n) → pinned g d n 0) →
  unlocked_by (λ d n, (read_pins node d n, read_pins node d n)) g g'.
Proof.
  intros E Hp. destruct node as [[d n]|]; [|injection E as <-; by apply unlocked_alike].
  destruct (Hp d n eq_refl) as (e & He & Hs & Hl). pose proof (pinned_live _ _ Hs) as Hlive.
  set (t1 := with_store (alter (λ x, set_swa_lock_ref x (swa_lock_ref x - 1)) n) (index e)).
  set (e1 := with_index t1 e). set (g1 := with_engine d e1 g).
  assert (cache_engines d (on_index (dec_swa_lock_ref n)) g = (Ok (), g1)) as E1.
  { eapply on_engine_run; [done|]. unfold on_index, dec_swa_lock_ref. rewrite M_bind_run. cbn [node gets]. by rewrite (proj2 (Z.ltb_lt _ _) Hs). }
  assert (engine_of d g1 = Some e1) as He1 by (by apply engine_of_with).
  assert (nd t1 n = set_swa_lock_ref (nd (index e) n) (swa_lock_ref (nd (index e) n) - 1)) as En by (by apply nd_upd_eq).
  assert (cache_engines d (CacheEngine.unlock n) g1 = (Ok (), with_engine d (with_index (with_store (alter (relock n (-1)) n) t1) e1) g1)) as E2.
  { eapply on_engine_run; [done|]. apply unlock_run. unfold e1. cbn [index with_index]. by rewrite En. }
  unfold release_source, suppress in E. rewrite M_bind_run in E. cbn [get_state] in E. rewrite He, (proj2 (Z.ltb_lt _ _) Hs), M_bind_run, E1, E2 in E.
  cbn [snd] in E. injection E as <-.
  assert (shapes t1 = shapes (index e) ∧ root_node t1 = root_node (index e)) as [Es Er].
  { pose proof (meta_upd n (λ x, set_swa_lock_ref x (swa_lock_ref x - 1)) (index e)) as M1. split; [apply M1|done]. }
  eapply (unlocked_tier _ d g _ e); [eapply touches_trans; apply with_engine_touches|done|apply engine_of_with; by rewrite He1| |].
  - intros x. cbn [index with_index]. split.
    + rewrite (me_shapes _ _ (relock_meta n (-1) t1)), Es. cbn [root_node with_store]. done.
    + rewrite relock_use by (unfold t1; by apply live_upd). unfold read_pins.
      destruct (decide (x = n)) as [->|Hx]; [by rewrite En, decide_True by done|]. unfold t1. rewrite nd_upd_ne by done.
      rewrite decide_False by congruence. simpl. f_equal. lia.
  - intros d' x Hd. unfold read_pins. by rewrite decide_False by congruence.
Qed.

Lemma release_reservation_unlocks reservation g g' W :
  global_owns g (also W (λ _, []) (staged (staging_of reservation))) → _release_swa_read_reservation reservation g = (Ok (), g') →
  (∀ d n, read_source reservation = Some (d, n) → pinned g d n 0) →
  let pins := read_pins (read_source reservation) in unlocked_by (λ d n, (pins d n, pins d n)) g g'.
Proof.
  intros Ho E Hp pins. destruct reservation as [r|]; [|injection E as <-; by apply unlocked_alike].
  cbn [_release_swa_read_reservation] in E. unfold _swa_release_load_lock in E. fold (release_source (source_of (source r))) in E.
  destruct (release_source_run (source_of (source r)) g _ Ho) as (g1 & E1 & Ho1 & _). rewrite M_bind_run, E1 in E.
  destruct (release_staging_run (staging_slot r) g1 W Ho1) as (g2 & E2 & _ & A & _). rewrite E2 in E. injection E as <-.
  eapply unlocked_trans; [by apply (release_source_unlocks _ _ _ E1)|by apply unlocked_alike|]. intros d n. simpl. by rewrite !Z.add_0_r.
Qed.

(** [C29] Aborting a plan gives back all it lists: from a state in which the tiers hold, besides their
    books [W], exactly the buffers, the SWA slots and the staging slot of the plan, it never raises, it ends with the
    books [W] on every tier, and every node of the plan nobody else uses (an unready leaf that only the plan has
    locked) is out of its index; the blocks of such nodes are then free again, by the books.  It gives back the locks too: when the source of the
    plan's SWA read is pinned by it, every node loses exactly the lock the plan has on it and the source its pin and the lock that
    goes with it; all other counters, and the readiness of every node, are as before.  *)
Theorem abort_plan_spec g W nodes buffers reservation slots :
  NoDup nodes.*1 → Forall (held_node g) nodes → NoDup buffers.*1 → buffers_ok g W buffers →
  (∀ d s, (d, s) ∈ slots → 0 <= s ∧ has_engine d g = true) →
  let staging := match reservation with Some r => staging_slot r | None => -1 end in
  global_owns g (also W (buffer_of buffers) (λ d, staged staging d ++ slots_for d slots)) →
  ∃ g', _abort_transfer_plan nodes buffers reservation slots g = (Ok (), g') ∧ global_owns g' W ∧
    (∀ d n len, (d, (n, len)) ∈ nodes → only_ours g d n → ¬ in_index g' d n) ∧
    ((∀ d n, read_source reservation = Some (d, n) → pinned g d n (plan_locks nodes d n)) →
     let pins := read_pins (read_source reservation) in unlocked_by (λ d n, (plan_locks nodes d n + pins d n, pins d n)) g g').
Proof.
  intros HN Hh HB Hb Hs staging Ho. unfold _abort_transfer_plan.
  destruct (abort_nodes_run _ nodes g HN Hh Ho) as (g1 & E1 & Ho1 & H1 & G1 & _). run_step E1.
  destruct (abort_buffers_run W (λ d, staged staging d ++ slots_for d slots) buffers g1 HB) as (g2 & E2 & Ho2 & H2 & N2); [intros d B Hin; rewrite H1; by apply Hb|exact Ho1|]. run_step E2.
  set (W3 := also W (λ _, []) (λ d, slots_for d slots)).
  assert (global_owns g2 (also W3 (λ _, []) (staged staging))) as Ho2'.
  { intros d. specialize (Ho2 d). unfold also, W3 in *. simpl in *. rewrite !union_empty_r_L in *. by rewrite <- app_assoc in Ho2. }
  destruct (release_reservation_run reservation g2 W3 Ho2') as (g3 & E3 & Ho3 & N3 & H3).
  run_step E3. destruct (abort_slots_run W slots g3) as (g4 & E4 & Ho4 & N4); [intros d s Hin; rewrite H3, H2, H1; by apply Hs|exact Ho3|].
  exists g4. split; [done|]. split; [done|]. split.
  - intros d n len Hin Hou Hx. apply (G1 d n len Hin Hou).
    eapply same_nodes_in; [|exact Hx]. etrans; [exact (alike_same_nodes _ _ N2)|]. etrans; [exact N3|exact (alike_same_nodes _ _ N4)].
  - intros Hpin. set (pins := read_pins (read_source reservation)). pose proof (abort_nodes_unlock _ nodes g g1 HN Hh Ho E1) as U1. pose proof (unlocked_alike _ _ N2) as U2.
    assert (unlocked_by (λ d n, (pins d n, pins d n)) g2 g3) as U3; [|pose proof (unlocked_alike _ _ N4) as U4].
    { eapply release_reservation_unlocks; [exact Ho2'|exact E3|]. intros d n Hsrc. destruct (Hpin d n Hsrc) as (e & He & Hs1 & Hl1).
      assert (has_engine d g2 = true) as Hd by (rewrite H2, H1; unfold has_engine; by rewrite He). unfold has_engine in Hd.
      destruct (engine_of d g2) as [e2|] eqn:He2; [|done]. destruct (unlocked_trans _ _ (λ d n, (plan_locks nodes d n, 0)) _ _ _ U1 U2) with (d := d) (e' := e2)
        as (e' & He' & Hn); [intros ? ?; simpl; by rewrite Z.add_0_r|done|].
      assert (e' = e) as -> by congruence. destruct (Hn n) as (_ & _ & Hl2 & Hs2). simpl in Hl2, Hs2. exists e2. split; [done|]. lia. }
    eapply (unlocked_trans _ _ _ _ _ _ U1); [eapply (unlocked_trans _ _ _ _ _ _ U2);
      [eapply (unlocked_trans _ _ (λ d n, (pins d n, pins d n)) _ _ _ U3); [exact U4|]|]|]; intros d n; simpl; f_equal; lia.
Qed.

(** ** Completion *)

(** The plan's node of a tier ends a run of [l], whose length the plan recorded; no run for a recorded length of 0. *)
Definition plan_run g (nodes : NodeMap) (d : DeviceType) (l : list Z) : Prop :=
  match dict_get d nodes with
  | None => l = []
  | Some (n, len) => held_node g (d, (n, len)) ∧
      if 0 <? len then ∃ e, engine_of d g = Some e ∧ run (root_node (index e)) (shapes (index e)) n l ∧ zlen l = len else l = []
  end.

(** The entries of [l] are ready, the others as before; the plan's node lost one lock. *)
Definition published g g' (nodes : NodeMap) (d : DeviceType) (l : list Z) : Prop :=
  ∀ e', engine_of d g' = Some e' → ∃ e, engine_of d g = Some e ∧
    (∀ h b r, entry (index e') h b r ↔ if decide (h ∈ l) then r = true ∧ ∃ r0, entry (index e) h b r0 else entry (index e) h b r) ∧
    ∀ n len, dict_get d nodes = Some (n, len) → lock_cnt (nd (index e') n) = lock_cnt (nd (index e) n) - 1.

Lemma published_same g g' nodes d : dict_get d nodes = None → engine_of d g' = engine_of d g → published g g' nodes d [].
Proof.
  intros Hn He e' He'. exists e'. rewrite <- He. split; [done|]. split; [|by rewrite Hn].
  intros h b r. rewrite decide_False by apply not_elem_of_nil. done.
Qed.

Lemma published_other g0 g g' d d' nodes l : touches d g g' → d' ≠ d → published g0 g nodes d' l → published g0 g' nodes d' l.
Proof. intros T Hd P e' He'. apply P. by rewrite <- (to_others _ _ _ T). Qed.

Lemma published_from g0 g g' d d' nodes l : touches d g0 g → d' ≠ d → published g g' nodes d' l → published g0 g' nodes d' l.
Proof. intros T Hd P e' He'. destruct (P e' He') as (e & He & R). exists e. split; [|done]. by rewrite <- (to_others _ _ _ T). Qed.

Lemma published_alike g0 g g' nodes d l : alike_tiers g g' → published g0 g nodes d l → published g0 g' nodes d l.
Proof.
  intros A P e' He'. destruct (A d e' He') as (e1 & He1 & A1). destruct (P e1 He1) as (e & He & Hen & Hl). exists e. split; [done|]. split.
  - intros h b r. by rewrite (al_entry _ _ A1), Hen.
  - intros n len Hn. pose proof (al_use _ _ A1 n) as U. unfold use_of in U. injection U as _ -> _. by eapply Hl.
Qed.

Lemma plan_run_other g g' d d' nodes l : touches d g g' → d' ≠ d → plan_run g nodes d' l → plan_run g' nodes d' l.
Proof.
  intros T Hd. unfold plan_run. destruct (dict_get d' nodes) as [[n len]|]; [|done]. intros [Hh Hr]. split; [by eapply held_other|].
  destruct (0 <? len); [|done]. destruct Hr as (e & He & R). exists e. split; [|done]. by rewrite (to_others _ _ _ T).
Qed.

Lemma finish_node_run g nodes d l W :
  global_owns g W → plan_run g nodes d l →
  ∃ g', finish_node nodes d g = (Ok (), g') ∧ touches d g g' ∧ global_owns g' W ∧ published g g' nodes d l ∧ ∀ d', has_engine d' g' = has_engine d' g.
Proof.
  intros Ho. unfold plan_run, finish_node. destruct (dict_get d nodes) as [[n len]|] eqn:Ed.
  2:{ intros ->. exists g. split; [done|]. split; [apply touches_refl|]. split; [done|]. split; [by apply published_same|done]. }
  intros [Hh Hr].
  assert (owned g d (W d).1 (W d).2) as Hod by (destruct Hh as (e & He & _); cbn [fst] in He; destruct (Ho d) as [Hx|Hx]; [congruence|exact Hx]).
  assert (assert_engine d g = (Ok (), g)) as Ea.
  { destruct Hod as (e & He & _). unfold assert_engine. rewrite M_bind_run. cbn [get_state]. unfold has_engine. by rewrite He. }
  run_step Ea. destruct (unlock_tier AttributeError d n len g _ _ Hod Hh) as (e & g1 & He & E1 & T1 & Ho1 & He1 & Hwf & Ht). run_step E1.
  set (t1 := with_store (alter (relock n (-1)) n) (index e)) in *. pose proof (relock_meta n (-1) (index e)) as Mt.
  assert (∀ x, is_ready (nd t1 x) = is_ready (nd (index e) x)) as Hrd by (intros x; by apply is_ready_upd).
  assert (∀ h b r, entry t1 h b r ↔ entry (index e) h b r) as He1n by (intros; by apply meta_entry_iff).
  assert (lock_cnt (nd t1 n) = lock_cnt (nd (index e) n) - 1) as Hlk by (unfold t1; rewrite nd_upd_eq by (by apply tree_live); done).
  assert (∀ g2, touches d g g2 → owned g2 d (W d).1 (W d).2 → global_owns g2 W ∧ ∀ d', has_engine d' g2 = has_engine d' g) as Hall.
  { intros g2 T2 Ho2. split.
    - intros d'. destruct (decide (d' = d)) as [->|]; [by right|]. eapply kept_other; [done..|apply Ho].
    - eapply has_engine_touches; [done|exact Ho2|]. unfold has_engine. by rewrite He. }
  destruct (0 <? len) eqn:El.
  2:{ subst l. exists g1. split; [done|]. split; [done|]. destruct (Hall g1 T1 Ho1) as [Ho1' Hh1]. split; [done|]. split; [|done]. intros e' He'. assert (e' = with_index t1 e) as -> by congruence.
      exists e. split; [done|]. split; [intros h b r; rewrite decide_False by apply not_elem_of_nil; apply He1n|].
      intros n' len' Hn'. assert (n' = n) as -> by congruence. exact Hlk. }
  destruct Hr as (e2 & He2 & Hrun & Hlen). assert (e2 = e) as -> by congruence. destruct Ho1 as (e1 & He1' & Ho1). assert (e1 = with_index t1 e) as -> by congruence.
  assert (run (root_node t1) (shapes t1) n l) as Hrun1.
  { destruct (me_rest _ _ Mt) as (_ & Er & _). unfold t1. by rewrite (me_shapes _ _ Mt), Er. }
  destruct (set_ready_ok t1 n l (ow_wf _ _ _ Ho1) Hrun1) as (t2 & D & E2 & Mk & Hold). unfold zlen in Hlen. rewrite Hlen in E2.
  exists (with_engine d (with_index t2 (with_index t1 e)) g1). split.
  { eapply on_engine_run; [exact He1'|]. unfold CacheEngine.set_ready. by apply on_index_run. }
  pose proof (with_engine_touches d (with_index t2 (with_index t1 e)) g1) as T2. assert (touches d g (with_engine d (with_index t2 (with_index t1 e)) g1)) as T by (by eapply touches_trans).
  pose proof (engine_of_with d (with_index t2 (with_index t1 e)) g1 (mk_is_Some _ _ He1')) as He2'.
  split; [done|]. destruct (Hall _ T) as [Hg2 Hh2].
  { eexists. split; [done|].
    pose proof (meta_op_owns (RadixTree.set_ready n true len) _ _ _ Ho1) as Ho2. unfold on_index in Ho2. cbn [index with_index] in Ho2. by rewrite E2 in Ho2. }
  split; [done|]. split; [|done].
  - intros e' He'. assert (e' = with_index t2 (with_index t1 e)) as -> by congruence. exists e. split; [done|]. split.
    + intros h b r. simpl. rewrite (marked_entries t1 t2 D l (ow_wf _ _ _ Ho1) Mk Hold). destruct (decide (h ∈ l)); [|apply He1n]. by setoid_rewrite He1n.
    + intros n' len' Hn'. assert (n' = n) as -> by congruence. simpl. rewrite (mk_nodes _ _ _ _ Mk). by case_decide.
Qed.

Lemma finish_buffer_run g bl d W Q :
  buffers_ok g W bl → owned g d ((W d).1 ∪ list_to_set (buffer_of bl d)) (Q d) ∨ engine_of d g = None →
  ∃ g', finish_buffer bl d g = (Ok (), g') ∧ touches d g g' ∧ kept g' d (W d).1 (Q d) ∧ alike_tiers g g' ∧ has_engine d g' = has_engine d g.
Proof.
  intros Hb Ho. unfold finish_buffer, buffer_of in *. destruct (dict_get d bl) as [B|] eqn:Ed; simpl in Ho.
  - destruct (Hb d B) as (HN & Hd & He); [by apply dict_get_Some_elem|]. destruct Ho as [Ho|Hn]; [|unfold has_engine in He; by rewrite Hn in He].
    assert (assert_engine d g = (Ok (), g)) as Ea by (unfold assert_engine; rewrite M_bind_run; cbn [get_state]; by rewrite He).
    run_step Ea. destruct (recycle_tier AttributeError d g _ _ B Ho HN Hd) as (g' & E & T & Ho' & A).
    exists g'. split; [done|]. split; [done|]. split; [by right|]. split; [done|]. by eapply has_engine_touches.
  - exists g. split; [done|]. split; [apply touches_refl|]. split; [|done]. rewrite union_empty_r_L in Ho. destruct Ho; [by right|by left].
Qed.

Lemma finish_nodes_run g nodes (L : DeviceType → list Z) W :
  (∀ d, plan_run g nodes d (L d)) → global_owns g W →
  ∃ g', for_each (finish_node nodes) tiers g = (Ok (), g') ∧ global_owns g' W ∧ (∀ d, published g g' nodes d (L d)) ∧ ∀ d, has_engine d g' = has_engine d g.
Proof.
  intros Hr Ho. unfold tiers. cbn [for_each].
  destruct (finish_node_run g nodes CPU _ W Ho (Hr CPU)) as (g1 & E1 & T1 & Ho1 & P1 & H1). run_step E1.
  destruct (finish_node_run g1 nodes SSD (L SSD) W Ho1) as (g2 & E2 & T2 & Ho2 & P2 & H2); [by eapply plan_run_other|]. run_step E2.
  destruct (finish_node_run g2 nodes REMOTE (L REMOTE) W Ho2) as (g3 & E3 & T3 & Ho3 & P3 & H3).
  { eapply plan_run_other; [exact T2|done|]. by eapply plan_run_other. } run_step E3.
  exists g3. split; [done|]. split; [done|]. split; [|intros d; by rewrite H3, H2, H1]. intros d.
  destruct (decide (d = CPU)) as [->|]; [|destruct (decide (d = SSD)) as [->|]; [|destruct (decide (d = REMOTE)) as [->|]]].
  - eapply published_other; [exact T3|done|]. by eapply published_other.
  - eapply published_other; [exact T3|done|]. by eapply published_from.
  - eapply published_from; [exact T1|done|]. by eapply published_from.
  - intros e' He'. by destruct d.
Qed.

Lemma finish_buffers_run g bl W :
  buffers_ok g W bl → global_owns g (also W (buffer_of bl) (λ _, [])) →
  ∃ g', for_each (finish_buffer bl) tiers g = (Ok (), g') ∧ global_owns g' W ∧ alike_tiers g g' ∧ ∀ d, has_engine d g' = has_engine d g.
Proof.
  intros Hb Ho.
  assert (∀ g1, buffers_ok g1 W bl → ∀ d, kept g1 d ((W d).1 ∪ list_to_set (buffer_of bl d)) (W d).2 →
    ∃ g2, finish_buffer bl d g1 = (Ok (), g2) ∧ touches d g1 g2 ∧ kept g2 d (W d).1 (W d).2 ∧ alike_tiers g1 g2 ∧ (∀ d', has_engine d' g2 = has_engine d' g1) ∧ buffers_ok g2 W bl) as Hone.
  { intros g1 Hb1 d Hk. destruct (finish_buffer_run g1 bl d W (λ d, (W d).2) Hb1) as (g2 & E & T & K & A & Hh).
    { destruct Hk; [by right|by left]. }
    assert (∀ d', has_engine d' g2 = has_engine d' g1) as Hh2.
    { intros d'. destruct (decide (d' = d)) as [->|]; [done|]. unfold has_engine. by rewrite (to_others _ _ _ T). }
    exists g2. split_and!; try done. intros d' B Hin. rewrite Hh2. by apply Hb1. }
  destruct (Hone g Hb CPU (Ho CPU)) as (g1 & E1 & T1 & K1 & A1 & H1 & B1).
  destruct (Hone g1 B1 SSD) as (g2 & E2 & T2 & K2 & A2 & H2 & B2); [eapply kept_other; [exact T1|done|apply (Ho SSD)]|].
  destruct (Hone g2 B2 REMOTE) as (g3 & E3 & T3 & K3 & A3 & H3 & B3).
  { eapply kept_other; [exact T2|done|]. eapply kept_other; [exact T1|done|apply (Ho REMOTE)]. }
  exists g3. unfold tiers. cbn [for_each]. run_step E1. run_step E2. run_step E3. split; [done|]. split.
  - apply global_owns_three; [|by eapply kept_other|done]. eapply kept_other; [exact T3|done|]. by eapply kept_other.
  - split; [etrans; [exact A1|]; by etrans|]. intros d. by rewrite H3, H2, H1.
Qed.

(** [C30] Completing a plan publishes exactly what it stored: from a state in which the tiers hold the plan's buffers
    besides their books [W], and the plan's nodes are in their indexes, locked, ending runs [L d] of the recorded
    lengths (nodes may have been split since), the completion never raises, the buffers are free again, every entry
    of [L d] is ready, every other entry is as it was, and each node of the plan lost exactly one lock. *)
Theorem complete_plan_spec g W nodes buffers (L : DeviceType → list Z) :
  (∀ d, plan_run g nodes d (L d)) → buffers_ok g W buffers → global_owns g (also W (buffer_of buffers) (λ _, [])) →
  ∃ g', _transfer_callback nodes buffers g = (Ok (), g') ∧ global_owns g' W ∧ ∀ d, published g g' nodes d (L d).
Proof.
  intros Hr Hb Ho. unfold _transfer_callback.
  destruct (finish_nodes_run g nodes L _ Hr Ho) as (g3 & E3 & Ho3 & P3 & H3). run_step E3.
  destruct (finish_buffers_run g3 buffers W) as (g6 & E6 & Ho6 & A6 & _); [intros d B Hin; rewrite H3; by apply Hb|exact Ho3|].
  exists g6. split; [done|]. split; [done|]. intros d. eapply published_alike; [done|apply P3].
Qed.
End ends.

(** ** A concrete pending write *)

Definition toy_unready : CacheEngine := (CacheEngine.insert toy_digest toy_clock (toy_seq [7; 8; 9]) [0; 1; 2] (-1) false None toy_taken).2.
Definition toy_locked : CacheEngine := (CacheEngine.lock_node 3 toy_unready).2.
Definition toy_pending : GlobalCacheEngine := mkGlobal toy_cache_config (Some toy_locked) None None.

Lemma toy_locked_owns : @owns toy_ph toy_locked ((∅ ∪ list_to_set [0; 1; 2]) ∖ list_to_set [0; 1; 2]) [].
Proof.
  assert (@engine_step toy_ph toy_digest toy_clock (toy_taken, ∅ ∪ list_to_set [0; 1; 2], []) (toy_unready, (∅ ∪ list_to_set [0; 1; 2]) ∖ list_to_set [0; 1; 2], [])) as St.
  { apply (es_insert toy_digest toy_clock toy_taken (∅ ∪ list_to_set [0; 1; 2]) [] (toy_seq [7; 8; 9]) [0; 1; 2] (-1) false None (Ok (Some 3%nat))).
    - apply toy_seq_ok.
    - done.
    - apply (bool_decide_unpack _). by vm_compute.
    - intros b Hb. set_solver.
    - by vm_compute. }
  apply (@engine_step_owns toy_ph _ _ _ _ (es_lock toy_digest toy_clock _ _ _ 3%nat)), (@engine_step_owns toy_ph _ _ _ _ St), (@engine_step_owns toy_ph _ _ _ _ toy_step_take), toy_engine_owns.
Qed.

Definition toy_written : list Z := RadixTree.block_hashes (nd (index toy_locked) 3).

Lemma toy_node : tree (index toy_locked) 3%nat ∧ shapes (index toy_locked) !! 3%nat = Some (shape_of (nd (index toy_locked) 3)) ∧ 3%nat ≠ root_node (index toy_locked).
Proof.
  split; [|split; [by vm_compute|by vm_compute]].
  eapply (in_child _ _ (root_node (index toy_locked)) (shape_of (nd (index toy_locked) (root_node (index toy_locked)))) (head_hash (nd (index toy_locked) 3))).
  - apply in_root.
  - by vm_compute.
  - by vm_compute.
Qed.

Lemma toy_only_ours : only_ours toy_pending CPU 3.
Proof.
  exists toy_locked. split; [done|]. split; [apply toy_node|]. split; [by vm_compute|]. split; [by vm_compute|]. split; [by vm_compute|by vm_compute].
Qed.

Lemma toy_held_node : held_node toy_pending (CPU, (3%nat, 3)).
Proof. exists toy_locked. split; [done|]. split; [apply toy_node|by vm_compute]. Qed.

Lemma toy_pending_owns : @global_owns toy_ph toy_pending toy_held.
Proof.
  intros d. destruct d; try (by left). right. exists toy_locked. split; [done|]. pose proof toy_locked_owns as Ho.
  replace ((∅ ∪ list_to_set [0; 1; 2]) ∖ list_to_set [0; 1; 2]) with (∅ : gset Z) in Ho by set_solver. exact Ho.
Qed.

Lemma toy_pending_also B Q : (∀ d, B d = []) → (∀ d, Q d = []) → @global_owns toy_ph toy_pending (also toy_held B Q).
Proof.
  intros HB HQ d. pose proof (toy_pending_owns d) as Ho. unfold also. rewrite HB, HQ. simpl. by rewrite union_empty_r_L.
Qed.

(** A read of the cached prefix: its node is locked, and pinned for the SWA read that it is the source of. *)
Definition reading (n : nid) (e : CacheEngine) : CacheEngine := (_pin_swa_node n (CacheEngine.lock_node n e).2).2.
Abbreviation toy_reading_engine := (reading 3 toy_stored).
Definition toy_reading : GlobalCacheEngine := mkGlobal toy_cache_config (Some toy_reading_engine) None None.
Definition toy_reservation : SWAReadReservation := mkReservation (mkReadSource 3 0 (Some 3%nat) (Some CPU) None) (-1) 0.

Lemma reading_owns `{!PrefixHash} e hb hs n : owns e hb hs → owns (reading n e) hb hs.
Proof.
  intros Ho. apply (engine_step_owns (toy_digest) (toy_clock) _ _ (es_pin toy_digest toy_clock (CacheEngine.lock_node n e).2 hb hs n)).
  by apply (engine_step_owns (toy_digest) (toy_clock) _ _ (es_lock toy_digest toy_clock e hb hs n)).
Qed.

Lemma toy_reading_owns : @global_owns toy_ph toy_reading toy_held.
Proof.
  intros d. destruct d; try (by left). right. exists toy_reading_engine. split; [done|].
  pose proof (@reading_owns toy_ph toy_stored _ _ 3%nat toy_stored_owns) as Ho.
  replace ((∅ ∪ list_to_set [0; 1; 2]) ∖ list_to_set [0; 1; 2]) with (∅ : gset Z) in Ho by set_solver. exact Ho.
Qed.

Lemma toy_reading_node : held_node toy_reading (CPU, (3%nat, 0)).
Proof.
  exists toy_reading_engine. split; [done|]. split; [|by vm_compute].
  eapply (in_child _ _ (root_node (index toy_reading_engine)) (shape_of (nd (index toy_reading_engine) (root_node (index toy_reading_engine)))) (head_hash (nd (index toy_reading_engine) 3))).
  - apply in_root.
  - by vm_compute.
  - by vm_compute.
Qed.

Lemma toy_reading_counts : lock_cnt (nd (index toy_reading_engine) 3) = 2 ∧ swa_lock_ref (nd (index toy_reading_engine) 3) = 1.
Proof. by vm_compute. Qed.

Lemma toy_reading_engine_of : engine_of CPU toy_reading = Some toy_reading_engine.
Proof. reflexivity. Qed.

Lemma toy_reading_pinned : pinned toy_reading CPU 3 1.
Proof. exists toy_reading_engine. destruct toy_reading_counts as [-> ->]. done. Qed.

(** The write is taken back with its node; after the read the node is as free as it was before. *)
Lemma abort_plan_spec_witness :
  (∃ g', _abort_transfer_plan [(CPU, (3%nat, 3))] [] None [] toy_pending = (Ok (), g') ∧ @global_owns toy_ph g' toy_held ∧ ¬ in_index g' CPU 3) ∧
  ∃ g', _abort_transfer_plan [(CPU, (3%nat, 0))] [] (Some toy_reservation) [] toy_reading = (Ok (), g') ∧
    ∀ e', engine_of CPU g' = Some e' → lock_cnt (nd (index e') 3) = 0 ∧ swa_lock_ref (nd (index e') 3) = 0.
Proof.
  split.
  - destruct (@abort_plan_spec toy_ph toy_pending toy_held [(CPU, (3%nat, 3))] [] None []) as (g' & E & Ho & Hg & _).
    + apply NoDup_singleton.
    + constructor; [exact toy_held_node|constructor].
    + apply NoDup_nil_2.
    + intros d B Hin. destruct (not_elem_of_nil _ Hin).
    + intros d s Hin. destruct (not_elem_of_nil _ Hin).
    + apply toy_pending_also; [done|]. intros d. unfold staged. by case_decide.
    + exists g'. split; [exact E|]. split; [exact Ho|]. apply (Hg CPU 3%nat 3); [left|].
      exact toy_only_ours.
  - destruct (@abort_plan_spec toy_ph toy_reading toy_held [(CPU, (3%nat, 0))] [] (Some toy_reservation) []) as (g' & E & _ & _ & Hl).
    + apply NoDup_singleton.
    + constructor; [exact toy_reading_node|constructor].
    + apply NoDup_nil_2.
    + intros d B Hin. destruct (not_elem_of_nil _ Hin).
    + intros d s Hin. destruct (not_elem_of_nil _ Hin).
    + intros d. pose proof (toy_reading_owns d) as Ho. unfold also. simpl. rewrite union_empty_r_L.
      replace (staged (-1) d) with (@nil Z) by (unfold staged; by case_decide). exact Ho.
    + exists g'. split; [exact E|]. intros e' He'.
      assert (∀ d n, read_source (Some toy_reservation) = Some (d, n) → pinned toy_reading d n (plan_locks [(CPU, (3%nat, 0))] d n)) as Hp.
      { intros d n [= <- <-]. exact toy_reading_pinned. }
      destruct (Hl Hp CPU e' He') as (e & He & Hn). rewrite toy_reading_engine_of in He. assert (e = toy_reading_engine) as -> by congruence.
      destruct (Hn 3%nat) as (_ & _ & H1 & H2). destruct toy_reading_counts as [C1 C2]. rewrite H1, H2, C1, C2. split; reflexivity.
Defined.

Lemma complete_plan_spec_witness :
  ∃ g', _transfer_callback [(CPU, (3%nat, 3))] [] toy_pending = (Ok (), g') ∧ published toy_pending g' [(CPU, (3%nat, 3))] CPU toy_written.
Proof.
  destruct toy_node as (Ht & Hs & Hr).
  destruct (@complete_plan_spec toy_ph toy_pending toy_held [(CPU, (3%nat, 3))] [] (λ d, if decide (d = CPU) then toy_written else [])) as (g' & E & _ & P).
  - intros d. destruct (decide (d = CPU)) as [->|Hd].
    + unfold plan_run. cbn [dict_get]. rewrite decide_True by done. split; [exact toy_held_node|].
      exists toy_locked. split; [done|]. split; [exact (run_one _ _ 3%nat _ Ht Hr Hs)|by vm_compute].
    + unfold plan_run. cbn [dict_get]. by rewrite decide_False.
  - intros d B Hin. destruct (not_elem_of_nil _ Hin).
  - by apply toy_pending_also.
  - exists g'. split; [exact E|]. apply (P CPU).
Defined.

End PlanEnd.
