(* ===== verification/GetPlan.v ===== *)
(** * GetPlan: what a read plan moves and holds

    Proofs about [_get_impl_local] ([GlobalPlan]) for a read of the full KV: the
    ops of the plan fetch exactly the blocks the tiers' indexes give, as ready,
    for the prefix of the request that is cached, in order, into the GPU blocks
    of the caller; the blocks staged on the CPU are in a new unready node or
    in the buffer the plan frees, and nothing else changed hands. *)

From S2P Require Import Prelude PyFloat Block Transfer GraphBuild SWAOps Mempool SWAHostPool RadixTree RadixCore RadixLeaf RadixWf RadixMatch RadixInsert RadixDetach RadixEvict RadixReady RadixSpec CacheEngine GlobalCache GlobalPlan PlanTier PutPlan PlanEnd.
Import GraphBuild.GraphBuild SWAOps.SWAOps RadixTree.RadixTree RadixWf.RadixWf RadixMatch.RadixMatch RadixInsert.RadixInsert CacheEngine.CacheEngine GlobalCache.GlobalCache GlobalPlan.GlobalPlan PlanTier.PlanTier PutPlan.PutPlan PlanEnd.PlanEnd.
Local Open Scope Z_scope.

Module GetPlan.

(** ** Pieces of a range *)

Lemma ready_blocks_nat r (lo hi : nat) :
  ready_blocks r (Z.of_nat lo) (Z.of_nat hi) = list.take (hi - lo) (list.drop lo (list.take (num_ready_matched_blocks r) (mr_physical_blocks r))).
Proof. unfold ready_blocks, blocks_in. by rewrite py_slice_prefix, py_slice_nat. Qed.

Lemma first_n_nat l (n : nat) : first_n (Z.of_nat n) l = list.take n l.
Proof. apply py_slice_prefix. Qed.

Lemma last_n_rest l (c : nat) : (c < length l)%nat → last_n (zlen l - Z.of_nat c) l = list.drop c l.
Proof.
  intros Hc. unfold last_n, zlen. replace (Z.of_nat (length l) - Z.of_nat c) with (Z.of_nat (length l - c)) by lia.
  rewrite py_slice_suffix by lia. f_equal. lia.
Qed.

Section get.
Context `{!PrefixHash}.
Implicit Types (e : CacheEngine) (r : MatchResult) (g : GlobalCacheEngine) (hb : gset Z) (hs : list Z).

(** The tier [d] has each block as the ready entry of its hash. *)
Definition holds_ready g (d : DeviceType) (hashes blocks : list Z) : Prop := Forall2 (λ h b, tier_entry g d h b true) hashes blocks.

Lemma holds_ready_mono g g' d l k :
  (∀ h c rd, tier_entry g d h c rd → tier_entry g' d h c rd) → holds_ready g d l k → holds_ready g' d l k.
Proof. intros Hm Hf. eapply Forall2_impl; [exact Hf|]. intros h b Hh. by apply Hm. Qed.

Lemma holds_ready_drop g d l k n : holds_ready g d l k → holds_ready g d (list.drop n l) (list.drop n k).
Proof. apply Forall2_drop. Qed.

(** The blocks of a range that a match found ready. *)
Lemma ready_slice hashes g d r hb hs b (lo m : nat) :
  tier_at hashes g d r hb hs b →
  let l := list.take m (list.drop lo (list.take (num_ready_matched_blocks r) (mr_physical_blocks r))) in
  holds_ready g d (list.take (length l) (list.drop lo hashes)) l.
Proof.
  intros [(e & He & _ & [_ Hle Hm _ [Hr Hent _ _]] & _)] l.
  pose proof (Forall2_length _ _ _ Hm) as Hlen. rewrite length_take in Hlen.
  assert (length l <= length (list.drop lo hashes))%nat as Hll.
  { unfold l. rewrite length_take, !length_drop, length_take. lia. }
  apply Forall2_same_length_lookup. split; [rewrite length_take; lia|]. intros i h c Hh Hc. exists e. split; [done|].
  apply lookup_take_Some in Hh as [Hh _]. rewrite lookup_drop in Hh. unfold l in Hc.
  apply lookup_take_Some in Hc as [Hc _]. rewrite lookup_drop in Hc. apply lookup_take_Some in Hc as [Hc Hi]. by eapply Hent.
Qed.

Lemma empty_ready (lo m : nat) : list.take m (list.drop lo (list.take (num_ready_matched_blocks empty_match) (mr_physical_blocks empty_match))) = [].
Proof. simpl. by rewrite drop_nil, take_nil. Qed.

(** ** Steps of a read *)

Lemma in_index_other g g' d d' n : touches d g g' → d' ≠ d → in_index g d' n → in_index g' d' n.
Proof. intros T Hd (e & He & R). exists e. split; [|done]. by rewrite (to_others _ _ _ T). Qed.

Lemma tier_ready_node hashes g d r hb hs b : tier_at hashes g d r hb hs b → ∃ n, last_ready_node r = Some n ∧ in_index g d n.
Proof. intros [(e & He & _ & [_ _ _ _ [_ _ (n & Hn & Ht & _) _]] & _)]. exists n. split; [done|]. by exists e. Qed.

(** The recorded length of a node. *)
Definition node_length g (d : DeviceType) (n : nid) (len : Z) : Prop :=
  ∃ e, engine_of d g = Some e ∧ tree (index e) n ∧ len = zlen (RadixTree.block_hashes (nd (index e) n)).

Lemma size_of_node d n p g ops edges : plan_at p g ops edges → in_index g d n → ∃ len, size_of d n p = (Ok len, p) ∧ node_length g d n len.
Proof.
  intros [<- Hh] (e & He & Ht). exists (zlen (RadixTree.block_hashes (nd (index e) n))). split; [|by exists e].
  unfold size_of. destruct p as [g b]. simpl in *. unfold on_global. cbn [fst snd]. unfold gets. by rewrite M_bind_run, He.
Qed.

Lemma unlock_entry_run d n p g ops edges :
  plan_at p g ops edges → in_index g d n → ∃ len, unlock_entry d (Some n) p = (Ok [(d, (n, len))], p) ∧ node_length g d n len.
Proof.
  intros Hp Hn. destruct (size_of_node d n p g ops edges Hp Hn) as (len & E & Hl). exists len. split; [|done].
  unfold unlock_entry. by rewrite M_bind_run, E.
Qed.

(** Blocks for the staging, or none and nothing changed. *)
Lemma stage_blocks_run hashes num r hb hs b p g ops edges :
  chained None hashes → plan_at p g ops edges → tier_at hashes g CPU r hb hs b →
  ∃ o g' p', stage_blocks num r None p = (o, p') ∧ plan_at p' g' ops edges ∧ touches CPU g g' ∧
    match o with
    | Ok (Some B) => zlen B = Z.max num 0 ∧ NoDup B ∧ (∀ c, c ∈ B → c ∉ hb) ∧ tier_at hashes g' CPU r (hb ∪ list_to_set B) hs b
    | Ok None => owned g' CPU hb hs ∧ drained g' CPU (last_node r) ∧ 0 < num
    | Raise x => (∃ msg, x = ValueError msg) ∧ ∃ gone, owned g' CPU (hb ∪ gone) hs
    end.
Proof.
  intros Hc Hp Ht. unfold stage_blocks. destruct (Z.ltb_spec 0 num) as [Hn|Hn].
  2:{ exists (Ok (Some [])), g, p. rewrite M_bind_run. cbn [mret M_ret]. rewrite (proj2 (Z.ltb_ge (zlen []) num)) by (unfold zlen; simpl; lia).
      split; [done|]. split; [done|]. split; [apply touches_refl|]. split; [unfold zlen; simpl; lia|]. split; [constructor|].
      split; [by intros c ?%elem_of_nil|]. by rewrite list_to_set_nil, union_empty_r_L. }
  destruct (take_tier AttributeError hashes CPU g r hb hs b num Hc Ht) as (o & g1 & E & T & Ho).
  destruct (plan_global _ _ _ _ _ _ _ Hp E) as (p1 & E1 & Hp1). rewrite M_bind_run. unfold take_blocks. rewrite E1.
  destruct Ho as [(B & -> & H0 & HN & Hfr & Hle & Ht1 & Hx)|(msg & gone & -> & Ho)].
  2:{ eexists _, g1, p1. split; [done|]. split; [done|]. split; [done|]. split; [by exists msg|by exists gone]. }
  destruct (Z.ltb_spec (zlen B) num) as [Hs|Hs].
  - destruct (recycle_tier AttributeError CPU g1 hb hs B (tier_owned _ _ _ _ _ _ _ Ht1) HN Hfr) as (g2 & E2 & T2 & Ho2 & A2).
    destruct (plan_global _ _ _ _ _ _ _ Hp1 E2) as (p2 & E3 & Hp2). unfold give_back. rewrite M_bind_run, E3. unfold release. cbn.
    exists (Ok None), g2. eexists. split; [by destruct p2|]. split; [by destruct p2|]. split; [by eapply touches_trans|].
    split; [done|]. destruct Hx as [?|Hx]; [lia|]. split; [by eapply drained_touch|done].
  - exists (Ok (Some B)), g1, p1. split; [done|]. split; [done|]. split; [done|]. split; [lia|done].
Qed.

(** The op that fills the GPU, and the op it waits for. *)
Lemma h2d_op_run src dst (w : option Z) dp p g ops :
  plan_at p g ops [] → length src = length dst → (∀ k, w = Some k → k ∈ op_id <$> ops) →
  ∃ o p', h2d_op true src dst [w] dp p = (Ok [op_id o], p') ∧ plan_at p' g (ops ++ [o]) ((λ k, (op_id o, k)) <$> option_list w) ∧
    kv_lane o = (H2D, src, dst) ∧ is_swa o = false.
Proof.
  intros Hp Hl Hw. unfold h2d_op. cbn [negb]. destruct (kv_op_run H2D src dst dp p g ops [] Hp Hl) as (o & p1 & E1 & Hp1 & Hk & Hs). run_step E1.
  destruct w as [k|].
  - destruct (depends_on_run (op_id o) k p1 g (ops ++ [o]) [] Hp1) as (p2 & E2 & Hp2).
    { rewrite fmap_app, elem_of_app. right. left. } { rewrite fmap_app, elem_of_app. left. by apply Hw. }
    exists o, p2. split; [|done]. cbn [omap list_omap id]. cbn [for_each]. rewrite !M_bind_run, E2. done.
  - by exists o, p1.
Qed.

(** ** The blocks only the SSD has *)

Section staging.
Context (XXH64 : list Z → Z) (clock : nat → float).

(** After [disk_stage]: [disk] are the SSD blocks that follow the [c] blocks of the CPU, [B] the CPU blocks taken for
    them; the op that moves them, and where the taken blocks went. *)
Record disk_staged (gds : bool) (s : SequenceMeta) g hb hs (first : nat) (disk B dst : list Z) (st : DiskStage) (new : list TransferOp) : Prop := {
  dk_owned : owned g CPU (hb ∪ list_to_set (ds_cpu_blocks_to_free st)) hs;
  dk_free : NoDup (ds_cpu_blocks_to_free st) ∧ ∀ c, c ∈ ds_cpu_blocks_to_free st → c ∉ hb;
  dk_node : ∃ n, ds_cpu_node st = Some n ∧ in_index g CPU n;
  dk_kv : kv_ops new = match disk with [] => [] | _ => [if gds then (DISK2D, disk, dst) else (DISK2H, disk, B)] end;
  dk_swa : Forall (λ o, is_swa o = false) new;
  dk_blocks : ds_cpu_blocks st = B;
  dk_wait : ds_op_disk2h st = if gds then None else head (op_id <$> new);
  dk_finished : ds_finished st = if gds then op_id <$> new else [];
  dk_place : ds_cpu_blocks_to_free st = B ∨ ds_cpu_blocks_to_free st = [] ∧
    ∃ n, ds_cpu_node st = Some n ∧ stored g CPU n (list.take (length disk) (list.drop first (hashes_of XXH64 s))) B;
}.

Lemma disk_stage_run (gds : bool) (lo c : nat) s rc rs hb hs b B ssd_blocks gpu_blocks disk dst dp p g :
  seq_ok XXH64 s → plan_at p g [] [] → tier_at (hashes_of XXH64 s) g CPU rc (hb ∪ list_to_set B) hs b → NoDup B → (∀ c, c ∈ B → c ∉ hb) →
  length B = (if gds then 0 else length disk)%nat → (lo + c + length disk <= num_blocks s)%nat →
  (disk ≠ [] → last_n (zlen disk) ssd_blocks = disk ∧ last_n (zlen disk) gpu_blocks = dst ∧ length dst = length disk ∧
    (extendable rc (Z.of_nat lo) = true → num_matched_blocks rc = lo + c)%nat ∧ ∃ n, last_ready_node rs = Some n ∧ in_index g SSD n) →
  ∃ st g' p' new,
    disk_stage XXH64 clock gds (Z.of_nat lo) (zlen disk) (Z.of_nat c + zlen disk) s rc rs B ssd_blocks gpu_blocks dp p = (Ok st, p') ∧
    plan_at p' g' new [] ∧ touches CPU g g' ∧ (∀ h k rd, tier_entry g CPU h k rd → tier_entry g' CPU h k rd) ∧
    disk_staged gds s g' hb hs (lo + c) disk B dst st new.
Proof.
  intros Hs Hp Ht HN Hfr HB Hlen Hd. destruct (tier_ready_node _ _ _ _ _ _ _ Ht) as (lr & Hlr & Hin). pose proof (tier_owned _ _ _ _ _ _ _ Ht) as Ho.
  unfold disk_stage. destruct disk as [|x disk'] eqn:Ed.
  { assert (B = []) as -> by (destruct B; [done|]; by destruct gds).
    cbn [zlen length Z.of_nat]. exists (mkDiskStage (last_ready_node rc) [] [] [] None []), g, p, [].
    split; [done|]. split; [done|]. split; [apply touches_refl|]. split; [done|].
    split; [done|by split; [constructor|intros c0 ?%elem_of_nil]|by exists lr|done|constructor|done|by destruct gds|by destruct gds|by left]. }
  rewrite <- Ed in *. assert (disk ≠ []) as Hne by (by rewrite Ed). clear Ed x disk'.
  destruct (Hd Hne) as (E1 & E2 & Hdst & Hext & (nr & Hnr & Hinr)). rewrite E1, E2.
  assert (0 < zlen disk) as Hpos by (unfold zlen; destruct disk; [done|simpl; lia]). rewrite (proj2 (Z.leb_gt _ _)) by done.
  destruct gds.
  { destruct (kv_op_run DISK2D disk dst dp p g [] [] Hp) as (o & p1 & E & Hp1 & Hk & Hsw); [done|]. run_step E.
    rewrite Hnr. cbn [deref]. rewrite M_bind_run. cbn [mret M_ret].
    destruct (size_of_node SSD nr p1 g _ _ Hp1 Hinr) as (len & E3 & _). run_step E3. destruct B; [|done].
    eexists _, g, p1, [o]. split; [done|]. split; [done|]. split; [apply touches_refl|]. split; [done|].
    split; simpl; [done|by split; [constructor|intros c0 ?%elem_of_nil]|by exists lr|rewrite kv_ops_one, Hk by done; by destruct disk|by constructor|done..|by left]. }
  assert (first_n (zlen disk) B = B) as -> by (unfold zlen; rewrite first_n_nat; apply take_ge; lia).
  destruct (kv_op_run DISK2H disk B dp p g [] [] Hp) as (o & p1 & E & Hp1 & Hk & Hsw); [done|]. run_step E.
  assert (kv_ops [o] = match disk with [] => [] | _ => [(DISK2H, disk, B)] end) as Hkv by (rewrite kv_ops_one, Hk by done; by destruct disk).
  destruct (extendable rc (Z.of_nat lo)) eqn:Ee.
  - specialize (Hext eq_refl).
    assert (num_insert s (Z.of_nat c + zlen disk + Z.of_nat lo) = Z.of_nat (lo + c + length disk)) as Eni.
    { unfold num_insert. destruct (Z.eqb_spec (Z.of_nat c + zlen disk + Z.of_nat lo) (-1)); unfold zlen in *; lia. }
    destruct (insert_tier XXH64 clock AttributeError CPU g s rc hb hs b B (Z.of_nat c + zlen disk + Z.of_nat lo) Hs Ht HN Hfr) as (w & g' & Ei & T & Ho' & St & _ & Hkeep).
    { rewrite Eni. lia. } { rewrite Eni, Hext. unfold zlen. lia. } { intros ->. by destruct disk. }
    destruct (plan_global _ _ _ _ _ _ _ Hp1 Ei) as (p2 & Ei2 & Hp2). unfold insert_unready. rewrite M_bind_run, M_bind_run, Ei2.
    rewrite M_bind_run. cbn [deref mret M_ret]. rewrite M_bind_run, (size_of_run _ _ _ _ _ _ _ _ Hp2 St).
    eexists _, g', p2, [o]. split; [reflexivity|]. split; [done|]. split; [done|]. split; [done|].
    assert (new_hashes XXH64 s (num_matched_blocks rc) (Z.of_nat c + zlen disk + Z.of_nat lo) = list.take (length disk) (list.drop (lo + c) (hashes_of XXH64 s))) as Enh.
    { unfold new_hashes. rewrite Eni, Hext. f_equal. lia. }
    rewrite Enh in St. split; simpl; [|by split; [constructor|intros c0 ?%elem_of_nil]| |done|by constructor|done..|].
    + by rewrite union_empty_r_L.
    + exists w. split; [done|]. destruct St as [(e & He & Htw & _)]. by exists e.
    + right. split; [done|]. by exists w.
  - eexists _, g, p1, [o]. split; [reflexivity|]. split; [done|]. split; [apply touches_refl|]. split; [done|].
    split; simpl; [done|done|by exists lr|done|by constructor|done..|by left].
Qed.

(** ** The plan of a read *)

Lemma kv_ops_length ops : Forall (λ o, is_swa o = false) ops → length (kv_ops ops) = length ops.
Proof.
  unfold kv_ops. rewrite length_fmap. intros Hf. induction Hf as [|o ops Ho _ IH]; [done|]. rewrite filter_cons_True by done. simpl. by rewrite IH.
Qed.

(** A plan that reads the blocks [lo], [lo + 1], ... of the sequence into the first GPU blocks: [cpu] from the CPU,
    [disk], which follow them, from the SSD, through the CPU blocks [staged] or directly with GDS. *)
Record read_plan (s : SequenceMeta) g (lo : nat) (gpu_block_ids : list Z) (gds : bool) (plan : GetTransferPlan) : Prop := {
  rp_moves : ∃ ops edges cpu disk staged h2d,
    let n := (length cpu + length disk)%nat in
    let disk_hashes := list.take (length disk) (list.drop (lo + length cpu) (hashes_of XXH64 s)) in
    built (gp_transfer_graph plan) ops edges ∧ (0 < n)%nat ∧ gp_num_gpu_blocks_to_transfer plan = Z.of_nat n ∧
    holds_ready g CPU (list.take (length cpu) (list.drop lo (hashes_of XXH64 s))) cpu ∧ holds_ready g SSD disk_hashes disk ∧
    Forall (λ o, is_swa o = false) ops ∧
    kv_ops ops = match disk with [] => [] | _ =>
                   [if gds then (DISK2D, disk, list.drop (length cpu) (list.take n gpu_block_ids)) else (DISK2H, disk, staged)] end
                 ++ [(H2D, cpu ++ staged, list.take (if gds then length cpu else n) gpu_block_ids)] ∧
    length staged = (if gds then 0 else length disk)%nat ∧
    (buffer_of (gp_buffer_to_free plan) CPU = staged ∨
     buffer_of (gp_buffer_to_free plan) CPU = [] ∧ ∃ w, stored g CPU w disk_hashes staged ∧ (CPU, (w, zlen staged)) ∈ gp_node_to_unlock plan) ∧
    h2d ∈ ops ∧ transfer_type h2d = H2D ∧ op_id h2d ∈ gp_finished_ops_ids plan ∧
    ∀ o, o ∈ ops → op_id o ∈ gp_finished_ops_ids plan ∨ (op_id h2d, op_id o) ∈ edges;
  rp_nodes : ∀ d n len, (d, (n, len)) ∈ gp_node_to_unlock plan → node_length g d n len;
}.

(** The books while the plan is under way, as its completion and its abort expect them. *)
Definition read_holds g W (plan : GetTransferPlan) : Prop :=
  global_owns g (also W (buffer_of (gp_buffer_to_free plan)) (λ _, [])) ∧ buffers_ok g W (gp_buffer_to_free plan).

Lemma node_length_fun g d n len len' : node_length g d n len → node_length g d n len' → len = len'.
Proof. intros (e & He & _ & ->) (e' & He' & _ & ->). by simplify_eq. Qed.

Lemma stored_length g d w l k len : stored g d w l k → node_length g d w len → len = zlen l.
Proof. intros [(e & He & _ & _ & Hb & _)] (e' & He' & _ & ->). simplify_eq. done. Qed.

(** The second half of a read: all blocks known. *)
Lemma local_read_ops_run (gds : bool) (lo : nat) s rc rs W bc cpu B ssd_blocks gpu_blocks disk dp p g :
  seq_ok XXH64 s → plan_at p g [] [] → tier_at (hashes_of XXH64 s) g CPU rc ((W CPU).1 ∪ list_to_set B) (W CPU).2 bc → NoDup B → (∀ c, c ∈ B → c ∉ (W CPU).1) →
  kept g SSD (W SSD).1 (W SSD).2 → kept g REMOTE (W REMOTE).1 (W REMOTE).2 →
  let c := length cpu in
  length B = (if gds then 0 else length disk)%nat → (lo + c + length disk <= num_blocks s)%nat → (0 < c + length disk)%nat →
  length gpu_blocks = (c + length disk)%nat →
  holds_ready g CPU (list.take c (list.drop lo (hashes_of XXH64 s))) cpu →
  holds_ready g SSD (list.take (length disk) (list.drop (lo + c) (hashes_of XXH64 s))) disk →
  (disk ≠ [] → last_n (zlen disk) ssd_blocks = disk ∧ (extendable rc (Z.of_nat lo) = true → num_matched_blocks rc = lo + c)%nat ∧ is_Some (last_ready_node rs)) →
  (∀ n, last_ready_node rs = Some n → in_index g SSD n) →
  ∃ parts p' g', local_read_ops XXH64 clock true gds (Z.of_nat lo) (zlen cpu) (zlen disk) (zlen cpu + zlen disk) s rc rs B cpu ssd_blocks gpu_blocks None dp p = (Ok parts, p') ∧
    p'.1 = g' ∧ cache_config g' = cache_config g ∧ read_holds g' W (parts p'.2.2) ∧
    ∀ gpu_block_ids, gpu_blocks = list.take (c + length disk) gpu_block_ids → read_plan s g' lo gpu_block_ids gds (parts p'.2.2).
Proof.
  intros Hs Hp Ht HN Hfr Hkssd Hkrem c HB Hlen Hpos Hgpu Hcpu Hdisk Hd Hrn. unfold local_read_ops.
  destruct (disk_stage_run gds lo c s rc rs (W CPU).1 (W CPU).2 bc B ssd_blocks gpu_blocks disk (list.drop c gpu_blocks) dp p g Hs Hp Ht HN Hfr HB Hlen)
    as (st & g1 & p1 & new & E1 & Hp1 & T1 & K1 & D).
  { intros Hne. destruct (Hd Hne) as (D1 & D2 & n & Hn). split; [done|]. split.
    - replace (zlen disk) with (zlen gpu_blocks - Z.of_nat c) by (unfold zlen; lia). apply last_n_rest. destruct disk; [done|simpl in *; lia].
    - split; [rewrite length_drop; lia|]. split; [done|]. exists n. split; [done|by apply Hrn]. }
  run_step E1. pose proof (kv_ops_length _ (dk_swa _ _ _ _ _ _ _ _ _ _ _ D)) as Hnl. rewrite (dk_kv _ _ _ _ _ _ _ _ _ _ _ D) in Hnl.
  set (dst := if gds then first_n (zlen cpu) gpu_blocks else gpu_blocks).
  assert ((if gds then cpu else cpu ++ ds_cpu_blocks st) = cpu ++ B) as ->.
  { rewrite (dk_blocks _ _ _ _ _ _ _ _ _ _ _ D). destruct gds; [|done]. destruct B; [by rewrite app_nil_r|done]. }
  assert (dst = list.take (if gds then c else c + length disk) gpu_blocks) as Edst.
  { unfold dst. destruct gds; [apply first_n_nat|symmetry; apply take_ge; lia]. }
  destruct (h2d_op_run (cpu ++ B) dst (ds_op_disk2h st) dp p1 g1 new Hp1) as (h2d & p2 & E2 & Hp2 & Hk2 & Hs2).
  { rewrite Edst, length_app, length_take, Hgpu, HB. fold c. destruct gds; lia. }
  { intros k. rewrite (dk_wait _ _ _ _ _ _ _ _ _ _ _ D). destruct gds; [done|]. destruct new as [|o new]; [done|]. intros [= <-]. left. }
  run_step E2. destruct (dk_node _ _ _ _ _ _ _ _ _ _ _ D) as (n & Hn & Hin). rewrite Hn.
  destruct (unlock_entry_run CPU n p2 g1 _ _ Hp2 Hin) as (len & E3 & Hl3). run_step E3.
  assert (∃ ssd_entry, unlock_entry SSD (last_ready_node rs) p2 = (Ok ssd_entry, p2) ∧ ∀ d m l, (d, (m, l)) ∈ ssd_entry → node_length g1 d m l) as (ssd_entry & E4 & Hl4).
  { destruct (last_ready_node rs) as [m|] eqn:Em; [|exists []; split; [done|by intros d m l ?%elem_of_nil]].
    destruct (unlock_entry_run SSD m p2 g1 _ _ Hp2) as (l & E & Hl); [eapply in_index_other; [exact T1|done|by apply Hrn]|].
    exists [(SSD, (m, l))]. split; [done|]. by intros d m' l' [= -> -> ->]%list_elem_of_singleton. }
  run_step E4. cbn [swa_final]. rewrite M_bind_run. cbn [mret M_ret negb]. eexists _, p2, g1. split; [reflexivity|]. split; [apply Hp2|]. split; [apply (to_config _ _ _ T1)|].
  assert (∀ d, buffer_of [(CPU, ds_cpu_blocks_to_free st)] d = if decide (d = CPU) then ds_cpu_blocks_to_free st else []) as Hbuf.
  { intros d. unfold buffer_of. simpl. by case_decide. }
  split.
  { split; cbn [gp_buffer_to_free].
    - apply global_owns_three; unfold also; rewrite Hbuf; simpl; [right; apply (dk_owned _ _ _ _ _ _ _ _ _ _ _ D)| |]; rewrite union_empty_r_L; by eapply kept_other.
    - intros d B' [= -> ->]%list_elem_of_singleton. destruct (dk_free _ _ _ _ _ _ _ _ _ _ _ D) as [F1 F2]. split; [done|]. split; [done|].
      destruct Hin as (e & He & _). unfold has_engine. by rewrite He. }
  intros gpu_block_ids Egpu. split.
  2:{ intros d m l. cbn [gp_node_to_unlock]. rewrite elem_of_app. intros [Hm|Hm]; [by apply list_elem_of_singleton in Hm as [= -> -> ->]|by apply Hl4]. }
  exists (new ++ [h2d]). eexists. exists cpu, disk, B, h2d. cbn zeta. split; [apply Hp2|]. split; [exact Hpos|].
  split; [cbn; unfold zlen; by rewrite Hgpu|]. split; [by eapply holds_ready_mono|].
  split; [eapply holds_ready_mono; [|exact Hdisk]; intros h k rd; by apply (tier_entry_other g g1 CPU)|].
  split; [apply Forall_app; split; [apply (dk_swa _ _ _ _ _ _ _ _ _ _ _ D)|by constructor]|]. fold c. rewrite <- Egpu.
  split.
  { rewrite kv_ops_app, (dk_kv _ _ _ _ _ _ _ _ _ _ _ D), kv_ops_one, Hk2, Edst by done. f_equal. rewrite Egpu, take_take. f_equal. f_equal. f_equal. destruct gds; lia. }
  split; [done|]. split.
  { cbn [gp_buffer_to_free gp_node_to_unlock]. rewrite Hbuf, decide_True by done.
    destruct (dk_place _ _ _ _ _ _ _ _ _ _ _ D) as [?|(Hf & w & Hw & St)]; [by left|]. assert (w = n) as -> by congruence.
    destruct B as [|x B']; [by left|right]. split; [done|]. exists n. split; [done|]. pose proof (stored_length _ _ _ _ _ _ St Hl3) as ->.
    rewrite elem_of_app. left. assert (zlen (x :: B') = zlen (list.take (length disk) (list.drop (lo + c) (hashes_of XXH64 s)))) as ->; [|left].
    unfold zlen. rewrite length_take, length_drop, (proj1 Hs), HB. destruct gds; [done|lia]. }
  split; [rewrite elem_of_app; right; left|]. split; [unfold kv_lane in Hk2; congruence|]. cbn [gp_finished_ops_ids].
  split; [rewrite elem_of_app; right; left|]. intros o [Ho|Ho]%elem_of_app; [|apply list_elem_of_singleton in Ho as ->; left; rewrite elem_of_app; right; left].
  rewrite (dk_finished _ _ _ _ _ _ _ _ _ _ _ D), (dk_wait _ _ _ _ _ _ _ _ _ _ _ D). destruct gds.
  - left. rewrite elem_of_app. left. apply list_elem_of_fmap. by exists o.
  - right. destruct new as [|o' new]; [by apply elem_of_nil in Ho|]. destruct new as [|o'' new]; [|destruct disk; simpl in Hnl; lia].
    apply list_elem_of_singleton in Ho as ->. left.
Qed.

(** ** The whole read *)

Definition uses_gds g (strat : CacheStrategy) : bool := enable_gds (cache_config g) && negb (ignore_gds strat).

(** The first block of the range is ready on [d], and so is everything before it. *)
Definition hit g (d : DeviceType) (hashes : list Z) (lo hi : nat) : Prop :=
  (lo < hi)%nat ∧ ∀ i h, (i <= lo)%nat → hashes !! i = Some h → ∃ b, tier_entry g d h b true.

Lemma slice_length r (lo m : nat) :
  (num_ready_matched_blocks r <= length (mr_physical_blocks r))%nat →
  length (list.take m (list.drop lo (list.take (num_ready_matched_blocks r) (mr_physical_blocks r)))) = Nat.min m (num_ready_matched_blocks r - lo).
Proof. intros Hr. rewrite length_take, length_drop, length_take. lia. Qed.

Lemma tier_ready_le hashes g d r hb hs b : tier_at hashes g d r hb hs b →
  (num_ready_matched_blocks r <= num_matched_blocks r)%nat ∧ length (mr_physical_blocks r) = num_matched_blocks r.
Proof.
  intros [(e & _ & _ & [_ Hle Hm _ [Hr _ _ _]] & _)]. split; [done|]. apply Forall2_length in Hm. rewrite length_take in Hm. lia.
Qed.

Lemma no_hit hashes g d r hb hs b (lo hi : nat) :
  tier_at hashes g d r hb hs b → (hi <= length hashes)%nat →
  list.take (hi - lo) (list.drop lo (list.take (num_ready_matched_blocks r) (mr_physical_blocks r))) = [] → ¬ hit g d hashes lo hi.
Proof.
  intros Ht Hhi Hnil [Hlt Hall]. destruct (tier_ready_le _ _ _ _ _ _ _ Ht) as [Hr Hm]. apply (f_equal length) in Hnil. rewrite slice_length in Hnil by lia. simpl in Hnil.
  destruct (lookup_lt_is_Some_2 hashes (num_ready_matched_blocks r)) as [h Hh]; [lia|]. destruct (Hall (num_ready_matched_blocks r) h ltac:(lia) Hh) as (c & e & He & Hen).
  destruct Ht as [(e' & He' & _ & [_ _ _ _ [_ _ _ Hstop]] & _)]. simplify_eq. by eapply Hstop.
Qed.

(** Why a read found nothing to do: no tier it may use has the first block, or the CPU has no room to stage the
    blocks of the SSD. *)
Definition read_refused g (hashes : list Z) (lo hi : nat) (ssd gds : bool) : Prop :=
  ¬ hit g CPU hashes lo hi ∧ (ssd = true → ¬ hit g SSD hashes lo hi) ∨ ssd = true ∧ gds = false ∧ ∃ prot, drained g CPU prot.

Lemma ssd_slice s g rs hb hs b (ssd : bool) (lo m : nat) :
  (if ssd then tier_at (hashes_of XXH64 s) g SSD rs hb hs b else kept g SSD hb hs ∧ rs = empty_match) →
  let l := list.take m (list.drop lo (list.take (num_ready_matched_blocks rs) (mr_physical_blocks rs))) in
  holds_ready g SSD (list.take (length l) (list.drop lo (hashes_of XXH64 s))) l ∧ kept g SSD hb hs ∧ (l ≠ [] → ssd = true) ∧
  (∀ n, last_ready_node rs = Some n → in_index g SSD n).
Proof.
  intros Hs l. destruct ssd.
  - split; [by eapply ready_slice|]. split; [right; by eapply tier_owned|]. split; [done|]. intros n Hn.
    destruct (tier_ready_node _ _ _ _ _ _ _ Hs) as (n' & Hn' & Hin). congruence.
  - destruct Hs as [Hk ->]. unfold l. rewrite empty_ready. split; [by constructor|]. by split.
Qed.

Lemma local_read_run s g strat W bc bs rc rs (lo hi : nat) gpu_block_ids dp p :
  seq_ok XXH64 s → plan_at p g [] [] → tier_at (hashes_of XXH64 s) g CPU rc (W CPU).1 (W CPU).2 bc →
  (if uses_ssd g strat then tier_at (hashes_of XXH64 s) g SSD rs (W SSD).1 (W SSD).2 bs else kept g SSD (W SSD).1 (W SSD).2 ∧ rs = empty_match) →
  kept g REMOTE (W REMOTE).1 (W REMOTE).2 → ignore_gpu strat = false → (lo <= hi <= num_blocks s)%nat → length gpu_block_ids = (hi - lo)%nat →
  ∃ o p', local_read XXH64 clock strat (cache_config g) (Z.of_nat lo) (Z.of_nat hi) gpu_block_ids s rc rs false dp p = (o, p') ∧
    match o with
    | Ok (Some parts) => read_plan s p'.1 lo gpu_block_ids (uses_gds g strat) (parts p'.2.2) ∧ read_holds p'.1 W (parts p'.2.2)
    | Ok None => global_owns p'.1 W ∧ read_refused p'.1 (hashes_of XXH64 s) lo hi (uses_ssd g strat) (uses_gds g strat)
    | Raise x => (∃ msg, x = ValueError msg) ∧ ∃ gone, global_owns p'.1 (lose W gone)
    end.
Proof.
  intros Hs Hp Hcpu Hssd Hrem Hgpu [Hlo Hhi] Hlen. pose proof (proj1 Hs) as Hnum. pose proof (proj2 Hs) as Hch.
  destruct (ssd_slice s g rs _ _ bs _ lo (hi - lo) Hssd) as (Hs1 & Hkssd & Hs2 & Hrn).
  pose proof (ready_slice _ _ _ _ _ _ _ lo (hi - lo) Hcpu) as Hc1.
  unfold local_read. rewrite Hgpu. unfold swa_read. cbn [negb]. rewrite M_bind_run. cbn [mret M_ret]. fold (uses_gds g strat). set (gds := uses_gds g strat).
  cbv zeta. rewrite !ready_blocks_nat. set (cpu := list.take (hi - lo) (list.drop lo (list.take (num_ready_matched_blocks rc) (mr_physical_blocks rc)))) in *. set (sr := list.take (hi - lo) (list.drop lo (list.take (num_ready_matched_blocks rs) (mr_physical_blocks rs)))) in *.
  set (ssd_blocks := if zlen sr <? zlen cpu then [] else sr). set (disk := list.drop (length cpu) ssd_blocks).
  assert (Z.max (zlen cpu) (zlen ssd_blocks) = zlen cpu + zlen disk ∧ Z.max (zlen ssd_blocks - zlen cpu) 0 = zlen disk ∧ disk = list.drop (length cpu) sr) as (-> & -> & Ed).
  { unfold disk, ssd_blocks. destruct (Z.ltb_spec (zlen sr) (zlen cpu)); unfold zlen in *; rewrite ?drop_nil, ?length_drop; simpl; split_and!; try lia; [|done].
    symmetry. apply drop_ge. lia. }
  assert (length cpu + length disk <= hi - lo)%nat as Hle.
  { rewrite Ed, length_drop. assert (length cpu <= hi - lo)%nat by (unfold cpu; rewrite length_take; lia).
    assert (length sr <= hi - lo)%nat by (unfold sr; rewrite length_take; lia). lia. }
  assert (holds_ready g SSD (list.take (length disk) (list.drop (lo + length cpu) (hashes_of XXH64 s))) disk) as Hd.
  { rewrite Ed, length_drop. apply (holds_ready_drop _ _ _ _ (length cpu)) in Hs1. rewrite skipn_firstn_comm, drop_drop in Hs1. exact Hs1. }
  destruct (Z.eqb_spec (zlen cpu + zlen disk) 0) as [Hz|Hz].
  { exists (Ok None), p. unfold release. cbn. destruct p as [g0 b0]. destruct Hp as [Hp0 Hp1]. simpl in Hp0. subst g0. split; [done|]. cbn [fst].
    assert (cpu = []) as Ecpu by (destruct cpu; [done|unfold zlen in Hz; simpl in Hz; lia]).
    assert (sr = []) as Esr by (rewrite Ecpu in Ed; rewrite drop_0 in Ed; rewrite <- Ed; destruct disk; [done|unfold zlen in Hz; simpl in Hz; lia]).
    split; [apply global_owns_three; [right; by eapply tier_owned|done|done]|]. left. split; [eapply no_hit; [exact Hcpu|lia|exact Ecpu]|].
    intros Hu. rewrite Hu in Hssd. eapply no_hit; [exact Hssd|lia|exact Esr]. }
  rewrite M_bind_run. rewrite (proj2 (Z.leb_le (zlen cpu + zlen disk) (zlen gpu_block_ids))) by (unfold zlen; lia). cbn [assertM py_assert lift_result].
  destruct (stage_blocks_run _ (if gds then 0 else zlen disk) rc _ _ bc p g [] [] Hch Hp Hcpu) as (o & g1 & p1 & E1 & Hp1 & T1 & Ho). rewrite M_bind_run, E1.
  assert (p1.1 = g1) as Eg1 by apply Hp1.
  destruct o as [[B|]|x].
  2:{ eexists _, p1. split; [done|]. rewrite Eg1. destruct Ho as (Ho & Hx & Hpos). split; [apply global_owns_three; [by right| |]; by eapply kept_other|].
      right. destruct gds; [done|]. split; [apply Hs2; intros Hsr; rewrite Ed, Hsr, drop_nil in Hpos; done|]. split; [done|]. by exists (last_node rc). }
  2:{ destruct Ho as [Hx [gone Ho]]. eexists _, p1. split; [done|]. rewrite Eg1. split; [done|]. exists (λ d, if decide (d = CPU) then gone else ∅).
      apply global_owns_three; [by right| |]; apply kept_lose; try done; by eapply kept_other. }
  destruct Ho as (HB & HN & Hfr & Ht1).
  assert (first_n (zlen cpu + zlen disk) gpu_block_ids = list.take (length cpu + length disk) gpu_block_ids) as Efst.
  { unfold zlen. rewrite <- Nat2Z.inj_add. apply first_n_nat. }
  destruct (local_read_ops_run gds lo s rc rs W bc cpu B ssd_blocks (first_n (zlen cpu + zlen disk) gpu_block_ids) disk dp p1 g1 Hs Hp1 Ht1 HN Hfr)
    as (parts & p2 & g2 & E2 & Hg2 & C2 & Hh & Hplan).
  { by eapply kept_other. } { by eapply kept_other. } { destruct gds; unfold zlen in HB; lia. } { lia. } { unfold zlen in Hz. lia. }
  { rewrite Efst, length_take. lia. } { by apply (ready_slice _ _ _ _ _ _ _ lo (hi - lo) Ht1). }
  { eapply holds_ready_mono; [|exact Hd]. intros h k rd. by apply (tier_entry_other g g1 CPU). }
  { intros Hne. assert (length cpu < length sr)%nat as Hlt by (rewrite Ed in Hne; destruct (decide (length cpu < length sr)%nat); [done|destruct Hne; apply drop_ge; lia]).
    assert (ssd_blocks = sr) as -> by (unfold ssd_blocks; rewrite (proj2 (Z.ltb_ge _ _)); [done|unfold zlen; lia]).
    assert (sr ≠ []) as Hsr by (intros E; rewrite E in Hlt; simpl in Hlt; lia). specialize (Hs2 Hsr). rewrite Hs2 in Hssd. split; [|split].
    - rewrite Ed. replace (zlen (list.drop (length cpu) sr)) with (zlen sr - Z.of_nat (length cpu)) by (unfold zlen; rewrite length_drop; lia). by apply last_n_rest.
    - unfold extendable. intros [Hx1%Z.leb_le Hx2%Nat.eqb_eq]%andb_true_iff. destruct (tier_ready_le _ _ _ _ _ _ _ Hcpu) as [Hr Hm].
      assert (length cpu = Nat.min (hi - lo) (num_ready_matched_blocks rc - lo)) as Ec by (apply slice_length; lia).
      assert (length sr <= hi - lo)%nat by (unfold sr; rewrite length_take; lia). lia.
    - destruct (tier_ready_node _ _ _ _ _ _ _ Hssd) as (n & Hn & _). by exists n. }
  { intros n Hn. eapply in_index_other; [exact T1|done|by apply Hrn]. }
  rewrite M_bind_run, E2. eexists _, p2. split; [reflexivity|]. rewrite Hg2. split; [|done]. by apply Hplan.
Qed.

(** An empty plan: nothing to move, to hold or to run. *)
Definition is_empty_read (plan : GetTransferPlan) : Prop := ∃ gid, plan = mkGetPlan (mkGraph gid [] ∅ ∅ [] []) [] [] [] [] 0 None.

Lemma empty_read_run g ids : ∃ plan ids', world_ids empty_get_plan (g, ids) = (Ok plan, (g, ids')) ∧ is_empty_read plan.
Proof. eexists _, _. split; [reflexivity|]. by eexists. Qed.

(** [C19] A local read of the blocks [lo, hi) of a sequence (full KV) answers a plan, or it raises the [ValueError] of a
    heap tie during eviction.  The plan moves the data it says: its ops take the blocks the CPU index, and after them
    the SSD index, give as ready entries for the next blocks of the sequence, in order, to the first GPU blocks of
    the caller, by one H2D and one DISK2H into fresh CPU blocks, or one DISK2D with GDS; every op is final or waited
    for by the final H2D.  The fresh CPU blocks are in a new unready node of the plan or in the buffer the plan
    frees, so the books are those its completion and its abort expect.  The plan is empty only when no tier has the
    first block, or the CPU tier has nothing left to evict for the blocks of the SSD; the books are then unchanged. *)
Theorem get_local_spec s g ids W bc bs (lo hi : nat) gpu_block_ids strat dp :
  seq_ok XXH64 s → local_tiers g W bc bs → ignore_gpu strat = false → (lo <= hi <= num_blocks s)%nat → length gpu_block_ids = (hi - lo)%nat →
  ∃ o g' ids', _get_impl_local XXH64 clock s (Z.of_nat lo) (Z.of_nat hi) gpu_block_ids strat dp false (g, ids) = (o, (g', ids')) ∧
    match o with
    | Ok plan =>
        (is_empty_read plan ∧ global_owns g' W ∧ read_refused g' (hashes_of XXH64 s) lo hi (uses_ssd g strat) (uses_gds g strat)) ∨
        (read_plan s g' lo gpu_block_ids (uses_gds g strat) plan ∧ read_holds g' W plan)
    | Raise x => (∃ msg, x = ValueError msg) ∧ ∃ gone, global_owns g' (lose W gone)
    end.
Proof.
  intros Hs Hlt Hgpu Hb Hlen. unfold _get_impl_local.
  rewrite M_bind_run. change (world_global (gets cache_config) (g, ids)) with (Ok (cache_config g), (g, ids)). cbv beta iota.
  rewrite M_bind_run, (lt_enabled _ _ _ _ Hlt). cbn [assertM py_assert lift_result].
  destruct (lt_cpu _ _ _ _ Hlt) as (e0 & He0 & _).
  assert (assert_engine CPU g = (Ok (), g)) as Ea by (unfold assert_engine; rewrite M_bind_run; cbn [get_state]; unfold has_engine; by rewrite He0).
  rewrite M_bind_run, (world_global_run _ g ids _ _ Ea).
  destruct (match_local_run XXH64 clock s strat g W bc bs Hs Hlt) as (rc & rs & g1 & E1 & C1 & A1 & A2 & A3).
  rewrite M_bind_run, (world_global_run _ g ids _ _ E1). rewrite <- C1.
  assert (uses_ssd g strat = uses_ssd g1 strat ∧ uses_gds g strat = uses_gds g1 strat) as [E3 E4] by (unfold uses_ssd, uses_gds; by rewrite C1).
  rewrite E3 in *. rewrite E4 in *.
  destruct (local_read_run s g1 strat W bc bs rc rs lo hi gpu_block_ids dp (fresh_planning g1 ids) Hs (fresh_plan_at g1 ids) A1 A2 A3 Hgpu Hb Hlen) as (o & p' & E2 & Ho).
  rewrite (plan_with_run _ _ _ _ _ _ E2). destruct o as [[parts|]|x].
  - eexists _, p'.1, p'.2.1. split; [reflexivity|]. by right.
  - destruct (empty_read_run p'.1 p'.2.1) as (plan & ids' & E & He). exists (Ok plan), p'.1, ids'. split; [exact E|]. left. by split.
  - eexists _, p'.1, p'.2.1. split; [reflexivity|]. exact Ho.
Qed.
End staging.
End get.

(** ** A concrete read *)

Definition toy_cached : GlobalCacheEngine := mkGlobal toy_cache_config (Some toy_stored) None None.

Lemma toy_cached_tiers : @local_tiers toy_ph toy_cached toy_held true false.
Proof.
  split; [|done|by left|done]. exists toy_stored. split; [done|]. split.
  - pose proof toy_stored_owns as Ho. replace ((∅ ∪ list_to_set [0; 1; 2]) ∖ list_to_set [0; 1; 2]) with (∅ : gset Z) in Ho by set_solver. exact Ho.
  - split; [by vm_compute|]. apply (@locks_of_store toy_ph). apply map_Forall_to_list. apply (bool_decide_unpack _). by vm_compute.
Qed.

Lemma get_local_spec_witness :
  ∃ plan g' ids', _get_impl_local toy_digest toy_clock (toy_seq [7; 8; 9]) 1 3 [20; 21] DEFAULT_CACHE_STRATEGY 0 false (toy_cached, toy_ids) = (Ok plan, (g', ids')) ∧
    read_plan toy_digest (toy_seq [7; 8; 9]) g' 1 [20; 21] false plan.
Proof.
  assert (1 <= 3 <= 3)%nat as Hb by lia.
  destruct (@get_local_spec toy_ph toy_digest toy_clock (toy_seq [7; 8; 9]) toy_cached toy_ids toy_held true false 1 3 [20; 21] DEFAULT_CACHE_STRATEGY 0
    (toy_seq_ok _) toy_cached_tiers eq_refl Hb eq_refl) as (o & g' & ids' & E & Ho).
  assert (match (_get_impl_local toy_digest toy_clock (toy_seq [7; 8; 9]) 1 3 [20; 21] DEFAULT_CACHE_STRATEGY 0 false (toy_cached, toy_ids)).1 with
          | Ok plan => gp_num_gpu_blocks_to_transfer plan = 2 | Raise _ => False end) as Hn by (vm_compute; reflexivity).
  change (_get_impl_local toy_digest toy_clock (toy_seq [7; 8; 9]) 1 3 [20; 21] DEFAULT_CACHE_STRATEGY 0 false (toy_cached, toy_ids) = (o, (g', ids'))) in E.
  rewrite E in Hn. destruct o as [plan|x]; [|destruct Hn]. exists plan, g', ids'. split; [done|].
  destruct Ho as [[[gid ->] _]|[Hw _]]; [done|exact Hw].
Defined.
End GetPlan.
