(* ===== verification/CompletionAgg.v ===== *)
(** * CompletionAgg: the reports of several transfer managers become one

    Models the counting half of [KVTaskManager] ([flexkv/kvtask.py]):
    [_get_completed_ops] and [_merge_completed_op].  Every transfer handle (one
    per node) reports each op and each graph on its own; the rest of the task
    manager must see one message per op and one per graph, once all handles have
    reported.  The abstract aggregator at the end of the file keeps the reports
    themselves, and [aggregation_refines] shows the counters implement it. *)

From S2P Require Import Prelude Transfer.
Local Open Scope Z_scope.

Module CompletionAgg.

(** ** Merging two reports *)

(** [a or b] on strings. *)
Definition str_or (a b : option string) : option string :=
  match a with Some s => if String.eqb s "" then b else a | None => b end.

(** [len(results or ())] *)
Definition results_len (results : option (list bool)) : Z := zlen (default [] results).

(** A report of the wrong length says nothing about any block: it fails closed. *)
Definition normalize (expected_blocks : Z) (results : option (list bool)) : list bool :=
  match results with
  | Some l => if zlen l =? expected_blocks then l else replicate (Z.to_nat expected_blocks) false
  | None => replicate (Z.to_nat expected_blocks) false
  end.

(** [replace(c, transfer_type=..., num_blocks=..., num_bytes=..., block_results=...)] *)
Definition replace_results (transfer_type : option string) (num_blocks num_bytes : Z) (block_results : option (list bool))
    (c : CompletedOp) : CompletedOp :=
  {| co_graph_id := co_graph_id c; co_op_id := co_op_id c; co_transfer_type := transfer_type;
     co_num_blocks := num_blocks; co_num_bytes := num_bytes; co_block_results := block_results; co_failed := co_failed c |}.

Definition _merge_completed_op (current : option CompletedOp) (incoming : CompletedOp) : CompletedOp :=
  match current with
  | None =>
      match co_block_results incoming with
      | None => incoming
      | Some results =>
          let expected_blocks := if co_num_blocks incoming =? 0 then zlen results else co_num_blocks incoming in
          replace_results (co_transfer_type incoming) expected_blocks (co_num_bytes incoming)
            (Some (normalize expected_blocks (Some results))) incoming
      end
  | Some current =>
      let block_results :=
        match co_block_results current, co_block_results incoming with
        | None, None => None
        | ours, theirs =>
            let expected_blocks := Z.max (Z.max (co_num_blocks current) (co_num_blocks incoming))
                                         (Z.max (results_len ours) (results_len theirs)) in
            Some (zip_with andb (normalize expected_blocks ours) (normalize expected_blocks theirs))
        end in
      replace_results (str_or (co_transfer_type current) (co_transfer_type incoming))
        (Z.max (Z.max (co_num_blocks current) (co_num_blocks incoming)) (results_len block_results))
        (Z.max (co_num_bytes current) (co_num_bytes incoming)) block_results current
  end.

(** ** Counting *)

Record Aggregator : Type := mkAggregator {
  uncompleted_ops : gmap (Z * Z) Z;
  uncompleted_op_results : gmap (Z * Z) CompletedOp;
  uncompleted_graphs : gmap Z (Z * bool);
}.

Definition empty_aggregator : Aggregator := mkAggregator ∅ ∅ ∅.

(** The entries of the other graphs: what the purge of [graph_id] leaves. *)
Definition not_stale {A} (graph_id : Z) (m : gmap (Z * Z) A) : gmap (Z * Z) A := filter (λ e, e.1.1 ≠ graph_id) m.

Section counting.
(** One report per transfer handle is awaited. *)
Context (required_completed_count : Z).

Definition count_graph (c : CompletedOp) (a : Aggregator) : list CompletedOp * Aggregator :=
  let graph_id := co_graph_id c in
  let '(count, failed) := default (0, false) (uncompleted_graphs a !! graph_id) in
  let count := count + 1 in
  let failed := failed || is_graph_failed c in
  if count =? required_completed_count then
    let graphs := delete graph_id (uncompleted_graphs a) in
    if failed then
      ([failed_graph graph_id],
       mkAggregator (not_stale graph_id (uncompleted_ops a))
         (filter (λ e, ¬ (e.1.1 = graph_id ∧ is_Some (uncompleted_ops a !! e.1))) (uncompleted_op_results a)) graphs)
    else ([c], mkAggregator (uncompleted_ops a) (uncompleted_op_results a) graphs)
  else ([], mkAggregator (uncompleted_ops a) (uncompleted_op_results a) (<[graph_id := (count, failed)]> (uncompleted_graphs a))).

Definition count_op (c : CompletedOp) (a : Aggregator) : list CompletedOp * Aggregator :=
  let op_key := (co_graph_id c, co_op_id c) in
  let completed_count := default 0 (uncompleted_ops a !! op_key) + 1 in
  let aggregate := _merge_completed_op (uncompleted_op_results a !! op_key) c in
  if completed_count =? required_completed_count then
    ([aggregate], mkAggregator (delete op_key (uncompleted_ops a)) (delete op_key (uncompleted_op_results a)) (uncompleted_graphs a))
  else
    ([], mkAggregator (<[op_key := completed_count]> (uncompleted_ops a)) (<[op_key := aggregate]> (uncompleted_op_results a))
           (uncompleted_graphs a)).

Definition count_message (c : CompletedOp) (a : Aggregator) : list CompletedOp * Aggregator :=
  if co_op_id c =? -1 then count_graph c a else count_op c a.

Fixpoint count_messages (messages : list CompletedOp) (a : Aggregator) : list CompletedOp * Aggregator :=
  match messages with
  | [] => ([], a)
  | c :: messages =>
      let '(out, a) := count_message c a in
      let '(outs, a) := count_messages messages a in
      (out ++ outs, a)
  end.

(** One poll: [polled] is what the [wait] of each handle returned, in the order of the handles. *)
Definition _get_completed_ops (polled : list (list CompletedOp)) (a : Aggregator) : list CompletedOp * Aggregator :=
  count_messages (concat polled) a.
End counting.

(** ** The abstract aggregator: the reports are kept, and merged when the last one arrives *)

Record Reports : Type := mkReports {
  op_reports : gmap (Z * Z) (list CompletedOp);
  graph_reports : gmap Z (list CompletedOp);
}.

Definition no_reports : Reports := mkReports ∅ ∅.

(** All reports of an op, in the order of their arrival, as one. *)
Definition merge_reports (l : list CompletedOp) : option CompletedOp :=
  foldl (λ current c, Some (_merge_completed_op current c)) None l.

Definition op_key (c : CompletedOp) : Z * Z := (co_graph_id c, co_op_id c).

Section reference.
Context (handles : Z).

Definition gather (c : CompletedOp) (s : Reports) : list CompletedOp * Reports :=
  let g := co_graph_id c in
  if co_op_id c =? -1 then
    let l := default [] (graph_reports s !! g) ++ [c] in
    if zlen l =? handles then
      if existsb is_graph_failed l
      then ([failed_graph g], mkReports (not_stale g (op_reports s)) (delete g (graph_reports s)))
      else ([c], mkReports (op_reports s) (delete g (graph_reports s)))
    else ([], mkReports (op_reports s) (<[g := l]> (graph_reports s)))
  else
    let l := default [] (op_reports s !! op_key c) ++ [c] in
    if zlen l =? handles
    then (option_list (merge_reports l), mkReports (delete (op_key c) (op_reports s)) (graph_reports s))
    else ([], mkReports (<[op_key c := l]> (op_reports s)) (graph_reports s)).

Fixpoint gather_all (messages : list CompletedOp) (s : Reports) : list CompletedOp * Reports :=
  match messages with
  | [] => ([], s)
  | c :: messages =>
      let '(out, s) := gather c s in
      let '(outs, s) := gather_all messages s in
      (out ++ outs, s)
  end.
End reference.

(** What the counters of the code remember of the reports. *)
Definition counters (s : Reports) : Aggregator :=
  mkAggregator (zlen <$> op_reports s) (omap merge_reports (op_reports s))
    ((λ l, (zlen l, existsb is_graph_failed l)) <$> graph_reports s).

(** The consecutive groups of [n] elements of a list; an incomplete last group is left out. *)
Definition groups {A} (n : nat) (l : list A) : list (list A) :=
  (λ i, take n (drop (i * n) l)) <$> seq 0 (length l / n).

Section lemmas.
Context (n : Z).
Implicit Types (c : CompletedOp) (l messages : list CompletedOp) (s : Reports).

Lemma merge_reports_snoc l c : merge_reports (l ++ [c]) = Some (_merge_completed_op (merge_reports l) c).
Proof. unfold merge_reports. by rewrite foldl_app. Qed.

Lemma merge_reports_some l : l ≠ [] → is_Some (merge_reports l).
Proof. destruct l as [|c l] using rev_ind; [done|]. rewrite merge_reports_snoc. eauto. Qed.

Lemma zlen_snoc {A} (l : list A) x : zlen (l ++ [x]) = zlen l + 1.
Proof. rewrite zlen_app. done. Qed.

Lemma stale_counts {A} (g : Z) (m : gmap (Z * Z) A) (k : Z * Z) : not_stale g m !! k = if decide (k.1 = g) then None else m !! k.
Proof.
  unfold not_stale. destruct (m !! k) as [x|] eqn:E.
  - rewrite map_lookup_filter, E. simpl. by repeat case_decide.
  - rewrite map_lookup_filter, E. simpl. by case_decide.
Qed.

(** The three maps of the code after the purge of a failed graph. *)
Lemma stale_results s (g : Z) :
  filter (λ e, ¬ (e.1.1 = g ∧ is_Some ((zlen <$> op_reports s) !! e.1))) (omap merge_reports (op_reports s)) =
  omap merge_reports (not_stale g (op_reports s)).
Proof.
  apply map_eq. intros k. rewrite map_lookup_filter, !lookup_omap, stale_counts.
  destruct (op_reports s !! k) as [l|] eqn:El; simpl; [|by case_decide].
  destruct (merge_reports l) as [c|] eqn:E; simpl; [|case_decide; simpl; by rewrite ?E].
  assert (is_Some ((zlen <$> op_reports s) !! k)) as Hs by (rewrite lookup_fmap, El; eauto).
  destruct (decide (k.1 = g)) as [Hg|Hg]; simpl; [|rewrite E]; case_guard; naive_solver.
Qed.

Lemma count_message_gather c s :
  count_message n c (counters s) = let '(out, s') := gather n c s in (out, counters s').
Proof.
  unfold count_message, gather. destruct (Z.eqb_spec (co_op_id c) (-1)) as [Hg|Ho].
  - unfold count_graph. set (g := co_graph_id c). cbn [counters uncompleted_graphs uncompleted_ops uncompleted_op_results].
    rewrite lookup_fmap.
    assert (default (0, false) ((λ l, (zlen l, existsb is_graph_failed l)) <$> graph_reports s !! g) =
      (zlen (default [] (graph_reports s !! g)), existsb is_graph_failed (default [] (graph_reports s !! g)))) as ->
      by by destruct (graph_reports s !! g).
    set (l := default [] (graph_reports s !! g)). rewrite zlen_snoc, existsb_app. cbn [existsb]. rewrite orb_false_r.
    destruct (zlen l + 1 =? n); [destruct (existsb is_graph_failed l || is_graph_failed c)|];
      unfold counters; cbn [op_reports graph_reports]; rewrite ?fmap_delete, ?fmap_insert, ?zlen_snoc, ?existsb_app;
      cbn [existsb]; rewrite ?orb_false_r; do 3 f_equal.
    + apply map_eq. intros k. rewrite stale_counts, !lookup_fmap, stale_counts. by case_decide.
    + apply stale_results.
  - unfold count_op. cbn [counters uncompleted_graphs uncompleted_ops uncompleted_op_results].
    fold (op_key c). rewrite lookup_fmap, lookup_omap. set (o := op_reports s !! op_key c).
    assert (default 0 (zlen <$> o) + 1 = zlen (default [] o ++ [c])) as -> by (rewrite zlen_snoc; by destruct o).
    assert (merge_reports (default [] o ++ [c]) = Some (_merge_completed_op (o ≫= merge_reports) c)) as E
      by (rewrite merge_reports_snoc; by destruct o).
    rewrite E. destruct (zlen (default [] o ++ [c]) =? n); unfold counters; cbn [op_reports graph_reports option_list].
    + by rewrite fmap_delete, omap_delete.
    + rewrite fmap_insert. do 3 f_equal. apply map_eq. intros k. rewrite lookup_omap.
      destruct (decide (k = op_key c)) as [->|Hk].
      * rewrite !lookup_insert_eq. simpl. by rewrite E.
      * rewrite !lookup_insert_ne by done. by rewrite lookup_omap.
Qed.

Lemma groups_short {A} (m : nat) (l : list A) : (length l < m)%nat → groups m l = [].
Proof. intros Hl. unfold groups. by rewrite Nat.div_small. Qed.

Lemma groups_app {A} (m : nat) (l k : list A) : (0 < m)%nat → length l = m → groups m (l ++ k) = l :: groups m k.
Proof.
  intros Hm Hl. unfold groups. rewrite length_app, Hl.
  replace (m + length k)%nat with (length k + 1 * m)%nat by lia. rewrite Nat.div_add, Nat.add_1_r by lia. cbn [seq fmap list_fmap].
  rewrite Nat.mul_0_l, drop_0, take_app_le, take_ge by lia. f_equal.
  rewrite <- fmap_S_seq, <- list_fmap_compose. apply list_fmap_ext. intros i x _. simpl.
  rewrite drop_app_ge, Hl by lia. do 2 f_equal. lia.
Qed.

(** The reports kept for an op are reports of that op. *)
Definition filed s : Prop := map_Forall (λ k l, Forall (λ c, op_key c = k) l) (op_reports s).

Lemma merge_reports_key l c k : Forall (λ c, op_key c = k) l → merge_reports l = Some c → op_key c = k.
Proof.
  revert c. induction l as [|x l IH] using rev_ind; [done|]. intros c [Hl [Hx _]%Forall_cons]%Forall_app.
  rewrite merge_reports_snoc. intros [= <-]. unfold _merge_completed_op.
  destruct (merge_reports l) as [y|]; [exact (IH y Hl eq_refl)|].
  by destruct (co_block_results x).
Qed.

Lemma filed_pending s k : filed s → Forall (λ c, op_key c = k) (default [] (op_reports s !! k)).
Proof. intros Hs. destruct (op_reports s !! k) as [l|] eqn:E; [apply (Hs k l E)|constructor]. Qed.

Lemma filed_gather c s : filed s → filed (gather n c s).2.
Proof.
  intros Hs. unfold gather. destruct (co_op_id c =? -1).
  - destruct (_ =? n); [destruct (existsb _ _)|]; try exact Hs. intros k l. cbn. rewrite stale_counts. case_decide; [done|apply Hs].
  - destruct (_ =? n); intros k l; cbn.
    + intros [_ E]%lookup_delete_Some. by apply Hs.
    + intros [[<- <-]|[_ E]]%lookup_insert_Some; [|by apply Hs].
      apply Forall_app. split; [by apply filed_pending|by constructor].
Qed.

(** [batches n p l]: the groups completed while [l] arrives after [p], and what is left. *)
Fixpoint batches {A} (p l : list A) : list (list A) * list A :=
  match l with
  | [] => ([], p)
  | c :: l =>
      if zlen (p ++ [c]) =? n then let '(b, r) := batches [] l in ((p ++ [c]) :: b, r)
      else batches (p ++ [c]) l
  end.

Lemma batches_groups {A} (p l : list A) :
  0 < n → zlen p < n →
  batches p l = (groups (Z.to_nat n) (p ++ l), drop (length (p ++ l) / Z.to_nat n * Z.to_nat n) (p ++ l)).
Proof.
  intros Hn. revert p. induction l as [|c l IH]; intros p Hp; cbn [batches].
  { unfold zlen in Hp. rewrite app_nil_r, groups_short, Nat.div_small by lia. done. }
  rewrite (cons_middle c p l), app_assoc, zlen_snoc. destruct (Z.eqb_spec (zlen p + 1) n) as [Hfull|Hpart].
  - unfold zlen in Hfull. assert (length (p ++ [c]) = Z.to_nat n) as Hl by (rewrite length_app; simpl; lia).
    rewrite IH by (unfold zlen; simpl; lia). cbn [app]. rewrite groups_app by lia. f_equal.
    rewrite (length_app (p ++ [c])), Hl. replace (Z.to_nat n + length l)%nat with (length l + 1 * Z.to_nat n)%nat by lia.
    rewrite Nat.div_add, drop_app_ge by lia. f_equal. lia.
  - apply IH. rewrite zlen_snoc. lia.
Qed.

(** The messages of one key, when a step only looks at what is pending for the key. *)
Lemma gather_all_batches (k : Z * Z) (f : list CompletedOp → option CompletedOp) (pending : Reports → list CompletedOp)
    (I : Reports → Prop) (ok : CompletedOp → Prop) :
  (∀ c s, ok c → I s → op_key c = k → let q := pending s ++ [c] in let '(out, s') := gather n c s in I s' ∧
    filter (λ c, op_key c = k) out = (if zlen q =? n then option_list (f q) else []) ∧ pending s' = (if zlen q =? n then [] else q)) →
  (∀ c s, ok c → I s → op_key c ≠ k → let '(out, s') := gather n c s in I s' ∧
    filter (λ c, op_key c = k) out = [] ∧ pending s' = pending s) →
  ∀ messages s, Forall ok messages → I s → let '(out, s') := gather_all n messages s in
    (filter (λ c, op_key c = k) out, pending s') =
    let '(b, r) := batches (pending s) (filter (λ c, op_key c = k) messages) in (omap f b, r).
Proof.
  intros Hmine Hother messages. induction messages as [|c messages IH]; intros s Hok HI; cbn [gather_all]; [done|].
  apply Forall_cons in Hok as [Hc Hok]. destruct (decide (op_key c = k)) as [Hk|Hk].
  - specialize (Hmine c s Hc HI Hk). cbv zeta in Hmine. rewrite filter_cons_True by done. cbn [batches].
    destruct (gather n c s) as [out s1], Hmine as (HI1 & E1 & E2). specialize (IH s1 Hok HI1). rewrite E2 in IH.
    destruct (gather_all n messages s1) as [outs s2]. rewrite filter_app, E1.
    destruct (_ =? n); [|exact IH]. destruct (batches [] _) as [b r]. injection IH as -> ->. cbn [omap list_omap].
    by destruct (f _).
  - specialize (Hother c s Hc HI Hk). rewrite filter_cons_False by done.
    destruct (gather n c s) as [out s1], Hother as (HI1 & E1 & E2). specialize (IH s1 Hok HI1). rewrite E2 in IH.
    destruct (gather_all n messages s1) as [outs s2]. by rewrite filter_app, E1.
Qed.

(** What [n] terminal reports of a graph become. *)
Definition graph_outcome (g : Z) l : option CompletedOp :=
  if existsb is_graph_failed l then Some (failed_graph g) else last l.

Lemma filter_merged l (k k' : Z * Z) :
  Forall (λ c, op_key c = k') l →
  filter (λ c, op_key c = k) (option_list (merge_reports l)) = if decide (k' = k) then option_list (merge_reports l) else [].
Proof.
  intros Hl. destruct (merge_reports l) as [c|] eqn:E; cbn; [|by case_decide].
  rewrite (merge_reports_key l c k' Hl E). by case_decide.
Qed.

Lemma gather_all_graphs (g : Z) messages s :
  filed s → let '(out, s') := gather_all n messages s in
    (filter (λ c, op_key c = (g, -1)) out, default [] (graph_reports s' !! g)) =
    let '(b, r) := batches (default [] (graph_reports s !! g)) (filter (λ c, op_key c = (g, -1)) messages) in (omap (graph_outcome g) b, r).
Proof.
  intros Hs. apply (gather_all_batches (g, -1) (graph_outcome g) (λ s, default [] (graph_reports s !! g)) filed (λ _, True));
    [| |by apply Forall_true|done]; clear messages s Hs; intros c s _ Hs Hk; pose proof (filed_gather c s Hs) as Hs'; revert Hs';
    unfold gather; destruct (Z.eqb_spec (co_op_id c) (-1)) as [Ec|Ec].
  - injection Hk as Eg _. rewrite Eg. unfold graph_outcome. rewrite last_snoc.
    destruct (_ =? n); [destruct (existsb _ _)|]; intros Hs'; (split; [exact Hs'|]); cbn [graph_reports];
      rewrite ?lookup_delete_eq, ?lookup_insert_eq; split; try done.
    + by rewrite filter_cons_True.
    + rewrite filter_cons_True; [done|]. unfold op_key. congruence.
  - injection Hk as _ Ek. done.
  - assert (co_graph_id c ≠ g) as Hg by (intros Eg; apply Hk; unfold op_key; congruence).
    destruct (_ =? n); [destruct (existsb _ _)|]; intros Hs'; (split; [exact Hs'|]); cbn [graph_reports];
      rewrite ?lookup_delete_ne, ?lookup_insert_ne by done; split; try done.
    + rewrite filter_cons_False; [done|]. by intros [= ?].
    + by rewrite filter_cons_False.
  - destruct (_ =? n); intros Hs'; (split; [exact Hs'|]); [|done]. rewrite (filter_merged _ _ (op_key c)), decide_False by done || (
      apply Forall_app; split; [by apply filed_pending|by constructor]). done.
Qed.

Lemma gather_all_ops (g o : Z) messages s :
  o ≠ -1 → filed s → (∀ l, graph_reports s !! g = Some l → existsb is_graph_failed l = false) →
  Forall (λ c, co_graph_id c = g → is_graph_failed c = false) messages →
  let '(out, s') := gather_all n messages s in
    (filter (λ c, op_key c = (g, o)) out, default [] (op_reports s' !! (g, o))) =
    let '(b, r) := batches (default [] (op_reports s !! (g, o))) (filter (λ c, op_key c = (g, o)) messages) in (omap merge_reports b, r).
Proof.
  intros Ho Hs Hg Hok.
  apply (gather_all_batches (g, o) merge_reports (λ s, default [] (op_reports s !! (g, o)))
    (λ s, filed s ∧ ∀ l, graph_reports s !! g = Some l → existsb is_graph_failed l = false)
    (λ c, co_graph_id c = g → is_graph_failed c = false)); [| |done|done];
    clear messages s Hs Hg Hok; intros c s Hok [Hs Hg] Hk; pose proof (filed_gather c s Hs) as Hs'; revert Hs';
    unfold gather; destruct (Z.eqb_spec (co_op_id c) (-1)) as [Ec|Ec].
  - injection Hk as _ Ek. congruence.
  - rewrite Hk. assert (Forall (λ c, op_key c = (g, o)) (default [] (op_reports s !! (g, o)) ++ [c])) as Hf
      by (apply Forall_app; split; [by apply filed_pending|by constructor]).
    destruct (_ =? n); intros Hs'; (split; [by split|]); cbn [op_reports]; rewrite ?lookup_delete_eq, ?lookup_insert_eq; split; try done.
    by rewrite (filter_merged _ _ (g, o) Hf), decide_True.
  - assert (co_graph_id c = g → existsb is_graph_failed (default [] (graph_reports s !! co_graph_id c) ++ [c]) = false) as Hf.
    { intros Eg. rewrite existsb_app, Eg. cbn. rewrite Hok, !orb_false_r by done. destruct (graph_reports s !! g) as [l|]; [by apply Hg|done]. }
    destruct (_ =? n); [destruct (existsb _ _) eqn:Ef|]; intros Hs'; (split; [split; [exact Hs'|]|]); cbn [graph_reports op_reports].
    + by intros l [_ El%Hg]%lookup_delete_Some.
    + split; [rewrite filter_cons_False; [done|unfold op_key; cbn; congruence]|].
      rewrite stale_counts, decide_False; [done|]. cbn. intros Eg. specialize (Hf (eq_sym Eg)). congruence.
    + by intros l [_ El%Hg]%lookup_delete_Some.
    + split; [by rewrite filter_cons_False by done|done].
    + intros l [[Eg <-]|[_ El%Hg]]%lookup_insert_Some; [by apply Hf|done].
    + done.
  - destruct (_ =? n); intros Hs'; (split; [by split|]); cbn [op_reports]; rewrite ?lookup_delete_ne, ?lookup_insert_ne by done; split; try done.
    rewrite (filter_merged _ _ (op_key c)), decide_False; [done..|].
    apply Forall_app; split; [by apply filed_pending|by constructor].
Qed.
End lemmas.

(** ** The bitmap of the merged report *)

Section bitmaps.
Implicit Types (c : CompletedOp) (i : nat) (l bits : list bool) (reports : list CompletedOp).

Lemma normalize_true e (r : option (list bool)) i :
  0 <= e → normalize e r !! i = Some true → ∃ l, r = Some l ∧ zlen l = e ∧ l !! i = Some true.
Proof.
  intros He. unfold normalize. destruct r as [l|]; [destruct (Z.eqb_spec (zlen l) e); [eauto|]|]; by intros [? _]%lookup_replicate.
Qed.

Lemma normalize_length e r : 0 <= e → zlen (normalize e r) = e.
Proof.
  intros He. unfold normalize. destruct r as [l|]; [destruct (Z.eqb_spec (zlen l) e); [done|]|]; unfold zlen; rewrite length_replicate; lia.
Qed.

Lemma normalize_same e l : zlen l = e → normalize e (Some l) = l.
Proof. intros <-. unfold normalize. by rewrite Z.eqb_refl. Qed.

(** What a merged bitmap says of one report. *)
Definition confirms (bits : list bool) (i : nat) (c : CompletedOp) : Prop :=
  ∃ l, co_block_results c = Some l ∧ length l = length bits ∧ l !! i = Some true.

Lemma merge_first_bit c bits i :
  co_block_results (_merge_completed_op None c) = Some bits → bits !! i = Some true → confirms bits i c.
Proof.
  unfold _merge_completed_op, confirms. destruct (co_block_results c) as [l|] eqn:El; [|by rewrite El]. cbn.
  intros [= <-] Hi. exists l. revert Hi. set (e := if _ =? 0 then _ else _). unfold normalize.
  destruct (Z.eqb_spec (zlen l) e); [done|]. by intros [? _]%lookup_replicate.
Qed.

Lemma merge_next_bit current c bits i :
  co_block_results (_merge_completed_op (Some current) c) = Some bits → bits !! i = Some true →
  confirms bits i current ∧ confirms bits i c.
Proof.
  unfold _merge_completed_op. cbn [co_block_results replace_results].
  set (e := Z.max (Z.max (co_num_blocks current) (co_num_blocks c))
    (Z.max (results_len (co_block_results current)) (results_len (co_block_results c)))). intros Hb Hi.
  assert (0 <= e) as He by (unfold e, results_len, zlen; lia).
  assert (bits = zip_with andb (normalize e (co_block_results current)) (normalize e (co_block_results c))) as ->.
  { subst e. destruct (co_block_results current), (co_block_results c); by simplify_eq. }
  assert (zlen (zip_with andb (normalize e (co_block_results current)) (normalize e (co_block_results c))) = e) as Hlen.
  { unfold zlen. rewrite length_zip_with. pose proof (normalize_length e (co_block_results current) He).
    pose proof (normalize_length e (co_block_results c) He). unfold zlen in *. lia. }
  apply lookup_zip_with_Some in Hi as (b1 & b2 & Eb & H1 & H2). symmetry in Eb. apply andb_true_iff in Eb as [-> ->].
  apply normalize_true in H1 as (l1 & E1 & L1 & H1); [|done]. apply normalize_true in H2 as (l2 & E2 & L2 & H2); [|done].
  split; [exists l1|exists l2]; unfold zlen in *; split_and!; try done; lia.
Qed.

Lemma merged_bit_sound reports m bits i c :
  merge_reports reports = Some m → co_block_results m = Some bits → bits !! i = Some true → c ∈ reports → confirms bits i c.
Proof.
  revert m bits. induction reports as [|x reports IH] using rev_ind; [done|]. intros m bits. rewrite merge_reports_snoc.
  intros [= <-] Hb Hi Hc. destruct (merge_reports reports) as [y|] eqn:Ey.
  - destruct (merge_next_bit y x bits i Hb Hi) as [(yb & Eyb & Lyb & Hyb) Hx].
    apply elem_of_app in Hc as [Hc|Hc]; [|by apply list_elem_of_singleton in Hc as ->].
    destruct (IH y yb eq_refl Eyb Hyb Hc) as (r & Er & Lr & Hr). exists r. split_and!; [done|congruence|done].
  - destruct reports as [|z reports _] using rev_ind; [|by rewrite merge_reports_snoc in Ey].
    apply list_elem_of_singleton in Hc as ->. by apply merge_first_bit.
Qed.

(** Reports of equal length are merged position by position. *)
Definition sized (m : nat) (c : CompletedOp) : Prop :=
  (∃ l, co_block_results c = Some l ∧ length l = m) ∧ (co_num_blocks c = 0 ∨ co_num_blocks c = Z.of_nat m).

Definition bit (i : nat) (c : CompletedOp) : bool := default false (co_block_results c ≫= λ l, l !! i).

Lemma merged_bits reports (m : nat) :
  reports ≠ [] → Forall (sized m) reports →
  ∃ c bits, merge_reports reports = Some c ∧ co_block_results c = Some bits ∧ length bits = m ∧ co_num_blocks c = Z.of_nat m ∧
    ∀ i, (i < m)%nat → bits !! i = Some (forallb (bit i) reports).
Proof.
  induction reports as [|x reports IH] using rev_ind; [done|]. intros _ [Hl [[(xb & Ex & Lx) Hx] _]%Forall_cons]%Forall_app.
  rewrite merge_reports_snoc. destruct reports as [|z reports _] using rev_ind.
  - cbn [merge_reports foldl _merge_completed_op]. rewrite Ex. eexists _, (normalize (Z.of_nat m) (Some xb)).
    assert ((if co_num_blocks x =? 0 then zlen xb else co_num_blocks x) = Z.of_nat m) as ->.
    { unfold zlen. destruct (Z.eqb_spec (co_num_blocks x) 0); lia. }
    rewrite normalize_same by (unfold zlen; lia). split_and!; [done..|]. intros i Hi. cbn. unfold bit. rewrite Ex. cbn.
    destruct (lookup_lt_is_Some_2 xb i) as [b Eb]; [lia|]. rewrite Eb. cbn. by rewrite andb_true_r.
  - destruct IH as (c & bits & Ec & Eb & Lb & Nc & Hbits); [by destruct reports|done|]. rewrite Ec.
    cbn [_merge_completed_op co_block_results co_num_blocks replace_results]. rewrite Eb, Ex.
    change (results_len (Some bits)) with (zlen bits). change (results_len (Some xb)) with (zlen xb).
    assert (Z.max (Z.max (co_num_blocks c) (co_num_blocks x)) (Z.max (zlen bits) (zlen xb)) = Z.of_nat m) as -> by (unfold zlen; lia).
    rewrite !normalize_same by (unfold zlen; lia). eexists _, (zip_with andb bits xb).
    refine (conj eq_refl (conj eq_refl (conj _ (conj _ _)))); [rewrite length_zip_with; lia| |].
    + cbn [co_num_blocks replace_results]. unfold results_len, zlen. simpl. rewrite length_zip_with. lia.
    + intros i Hi. rewrite forallb_app. cbn [forallb]. rewrite andb_true_r. unfold bit at 2. rewrite Ex. cbn.
      destruct (lookup_lt_is_Some_2 xb i) as [b Exb]; [lia|]. rewrite Exb. cbn. apply lookup_zip_with_Some.
      exists (forallb (bit i) (reports ++ [z])), b. split_and!; [done|by apply Hbits|done].
Qed.
End bitmaps.

(** ** Properties *)

Lemma count_messages_gather n messages s :
  count_messages n messages (counters s) = let '(out, s') := gather_all n messages s in (out, counters s').
Proof.
  revert s. induction messages as [|c messages IH]; intros s; cbn [count_messages gather_all]; [done|].
  rewrite count_message_gather. destruct (gather n c s) as [out s1]. rewrite IH. by destruct (gather_all n messages s1).
Qed.

(** The aggregation of completions refines the abstract one.  The three maps of counters and partial
    results behave, on every sequence of polls and from every state, exactly as if all reports were kept until
    the last handle has reported: the messages handed to the task manager are the same, the merge of the kept
    reports replaces the running merge, and the counters stay the lengths of the kept lists. *)
Theorem aggregation_refines n polled s :
  _get_completed_ops n polled (counters s) = let '(out, s') := gather_all n (concat polled) s in (out, counters s').
Proof. apply count_messages_gather. Qed.

(** [C34] With [n] transfer handles, the task manager hears of everything once per [n] reports.  Whatever the
    interleaving of the reports: of the terminal reports of a graph, each group of [n] consecutive ones gives one
    message, a failure if one of the [n] is a failure and the last report otherwise; of the reports of an op, each
    group of [n] consecutive ones gives one message, their merge, as long as no handle reports a failure of the
    graph.  Nothing else is emitted, and an incomplete group is still counted. *)
Theorem completions_reported_once n messages g o :
  0 < n →
  let '(out, a) := count_messages n messages empty_aggregator in
  let terminal := filter (λ c, op_key c = (g, -1)) messages in
  let reports := filter (λ c, op_key c = (g, o)) messages in
  filter (λ c, op_key c = (g, -1)) out = omap (graph_outcome g) (groups (Z.to_nat n) terminal) ∧
  default 0 (fst <$> uncompleted_graphs a !! g) = zlen terminal mod n ∧
  (o ≠ -1 → (∀ c, c ∈ messages → co_graph_id c = g → is_graph_failed c = false) →
   filter (λ c, op_key c = (g, o)) out = omap merge_reports (groups (Z.to_nat n) reports) ∧
   default 0 (uncompleted_ops a !! (g, o)) = zlen reports mod n).
Proof.
  intros Hn. change empty_aggregator with (counters no_reports). rewrite count_messages_gather.
  assert (filed no_reports) as Hf by apply map_Forall_empty.
  assert (∀ l : list CompletedOp, zlen (drop (length l / Z.to_nat n * Z.to_nat n) l) = zlen l mod n) as Hrest.
  { intros l. destruct (Z_of_nat_complete n) as [k ->]; [lia|]. unfold zlen.
    rewrite Nat2Z.id, length_drop, <- Nat2Z.inj_mod. f_equal. pose proof (Nat.div_mod_eq (length l) k). lia. }
  pose proof (gather_all_graphs n g messages no_reports Hf) as Hgraph.
  pose proof (λ Ho Hg, gather_all_ops n g o messages no_reports Ho Hf Hg) as Hop.
  destruct (gather_all n messages no_reports) as [out s].
  cbn [no_reports graph_reports op_reports] in Hgraph, Hop. rewrite lookup_empty in Hgraph.
  rewrite batches_groups in Hgraph by (try done; unfold zlen; simpl; lia). injection Hgraph as E1 E2. cbn [app] in E1, E2.
  split_and!; [done| |].
  - rewrite <- Hrest, <- E2. cbn [counters uncompleted_graphs]. rewrite lookup_fmap. by destruct (graph_reports s !! g).
  - intros Ho Hok. assert (Forall (λ c, co_graph_id c = g → is_graph_failed c = false) messages) as Hok' by by apply Forall_forall.
    specialize (Hop Ho ltac:(by intros ?; rewrite lookup_empty) Hok'). rewrite lookup_empty in Hop.
    rewrite batches_groups in Hop by (try done; unfold zlen; simpl; lia). injection Hop as E3 E4. cbn [app] in E3, E4.
    split; [done|]. rewrite <- Hrest, <- E4. cbn [counters uncompleted_ops]. rewrite lookup_fmap. by destruct (op_reports s !! (g, o)).
Qed.

(** The merged bitmap is conservative and exact.  A block is reported as moved only if every report has a
    bitmap of the merged length that says so; a missing or ill-sized bitmap on one handle confirms nothing.  When
    every handle reports a bitmap of the same length [m], with a matching or zero block count, the merged report
    has [m] blocks and its bitmap is the conjunction of the bitmaps. *)
Theorem merged_report_spec reports (m : nat) :
  reports ≠ [] →
  ∃ c, merge_reports reports = Some c ∧
    (∀ bits i, co_block_results c = Some bits → bits !! i = Some true → Forall (confirms bits i) reports) ∧
    (Forall (sized m) reports → co_num_blocks c = Z.of_nat m ∧
       ∃ bits, co_block_results c = Some bits ∧ length bits = m ∧ ∀ i, (i < m)%nat → bits !! i = Some (forallb (bit i) reports)).
Proof.
  intros Hne. destruct (merge_reports_some reports Hne) as [c Hc]. exists c. split_and!; [done| |].
  - intros bits i Hb Hi. apply Forall_forall. intros r Hr. by apply (merged_bit_sound reports c).
  - intros Hs. destruct (merged_bits reports m Hne Hs) as (c' & bits & Ec & Hb & Hl & Hn & Hi). simplify_eq. eauto.
Qed.

(** ** Concrete instances *)

(** Two handles report op 4 of graph 1 (three blocks), and then its end, which fails on the second. *)
Definition demo_report (bits : list bool) : CompletedOp :=
  {| co_graph_id := 1; co_op_id := 4; co_transfer_type := Some "REMOTE2H"%string; co_num_blocks := 0; co_num_bytes := 64;
     co_block_results := Some bits; co_failed := false |}.
Definition demo_reports : list CompletedOp := [demo_report [true; true; false]; demo_report [true; false; true]].

Lemma completions_reported_once_witness :
  omap co_block_results (filter (λ c, op_key c = (1, 4)) (count_messages 2 demo_reports empty_aggregator).1) = [[true; false; false]].
Proof.
  pose proof (completions_reported_once 2 demo_reports 1 4 ltac:(lia)) as Hr.
  destruct (count_messages 2 demo_reports empty_aggregator) as [out a]. destruct Hr as (_ & _ & Hr).
  cbn [fst]. destruct Hr as [-> _]; [done| |vm_compute; reflexivity].
  intros c [->|[->|[]%elem_of_nil]%elem_of_cons]%elem_of_cons _; reflexivity.
Defined.

Lemma merged_report_spec_witness : ∃ c bits, merge_reports demo_reports = Some c ∧ co_block_results c = Some bits ∧
  length bits = 3%nat ∧ bits !! 0%nat = Some true ∧ bits !! 1%nat = Some false.
Proof.
  destruct (merged_report_spec demo_reports 3 ltac:(done)) as (c & Hc & _ & Hs).
  destruct Hs as (_ & bits & Hb & Hl & Hi).
  { repeat constructor; eauto. }
  exists c, bits. split_and!; [done..|apply (Hi 0%nat); lia|apply (Hi 1%nat); lia].
Defined.

Example failed_handle_fails_graph :
  count_messages 2 [completed_graph 1; failed_graph 1] empty_aggregator = ([failed_graph 1], empty_aggregator).
Proof. vm_compute. reflexivity. Qed.
End CompletionAgg.
