(* ===== verification/TaskManager.v ===== *)
(** * TaskManager: the life cycle of a request

    Models [KVTaskManager] and [KVTaskEngine] ([flexkv/kvtask.py]): the table of
    tasks, from the plan the cache engine makes for a request to the response the
    caller collects.  The cache engine is used through the class [CacheService],
    which [TaskEngine] instantiates with the [get], [put] and [reset] of
    [GlobalPlan]; the transfer managers are an output (the graphs [submitted] to
    each) and an input ([poll], the messages each [wait] returns).  [tasks] and
    [prefetch_tasks] are ExpiringDicts: they are finite maps here, and the expiry
    of an entry is a step of its own in the histories the theorems are about.
    Logging, tracing and metrics are left out. *)

From S2P Require Import Prelude PyFloat Block Transfer GraphBuild BatchMerge CacheEngine GlobalCache CompletionAgg.
Import GraphBuild.GraphBuild BatchMerge.BatchMerge GlobalCache.GlobalCache CompletionAgg.CompletionAgg.
Local Open Scope Z_scope.

Module TaskManager.

(** ** Data *)

Inductive TaskStatus : Type := UNREADY | READY | RUNNING | COMPLETED | CANCELLED | FAILED.
#[export] Instance TaskStatus_eq_dec : EqDecision TaskStatus.
Proof. solve_decision. Defined.

Inductive TaskType : Type := GET | PUT | PREFETCH | BATCH_GET | BATCH_PUT.
#[export] Instance TaskType_eq_dec : EqDecision TaskType.
Proof. solve_decision. Defined.

Inductive KVResponseStatus : Type := Success | NotFound | Unready | Timeout | Cancelled | Failed.
#[export] Instance KVResponseStatus_eq_dec : EqDecision KVResponseStatus.
Proof. solve_decision. Defined.

(** One mask, or the masks of the members of a batch. *)
Inductive ReturnMask : Type :=
  | Mask (mask : list bool)
  | Masks (masks : list ReturnMask).

Record KVResponse : Type := mkKVResponse {
  kr_status : KVResponseStatus;
  kr_task_id : Z;
  kr_return_mask : option ReturnMask;
}.

(** What the task manager reads of a pending deferred insert: its tier, and the blocks published for
    the request with the failure flag, once there is such a result. *)
Definition PendingInsert : Type := DeviceType * option (option Z * bool).

(** The callback of a plan: the one-shot handle, and the deferred inserts among its keywords, whose
    results the callback fills in. *)
Record PlanCallback (C : Type) : Type := mkPlanCallback {
  pc_handle : TransferPlanHandle C;
  pc_deferred_inserts : C → list PendingInsert;
}.
Arguments mkPlanCallback {C}. Arguments pc_handle {C}. Arguments pc_deferred_inserts {C}.

(** [Optional[Union[Callable, List[Callable]]]] *)
Inductive TaskCallback (C : Type) : Type :=
  | NoCallback
  | OneCallback (p : PlanCallback C)
  | CallbackList (l : list (TaskCallback C)).
Arguments NoCallback {C}. Arguments OneCallback {C}. Arguments CallbackList {C}.

(** What [get] and [put] of the cache engine answer. *)
Record Planned (C : Type) : Type := mkPlanned {
  pl_graph : TransferOpGraph;
  pl_return_mask : list bool;
  pl_callback : PlanCallback C;
  pl_op_callback_dict : list (Z * Callable C);
  pl_task_end_op_id : Z;
}.
Arguments mkPlanned {C}. Arguments pl_graph {C}. Arguments pl_return_mask {C}. Arguments pl_callback {C}.
Arguments pl_op_callback_dict {C}. Arguments pl_task_end_op_id {C}.

(** The operations of the cache engine that the task manager calls. *)
Class CacheService (C : Type) : Type := {
  cs_get : list Z → list bool → list Z → Z → CacheStrategy → option (list string) → bool → M (C * Ids) (Planned C);
  cs_put : list Z → list bool → list Z → Z → option (list string) → M (C * Ids) (Planned C);
  cs_reset : M C unit;
}.

Record KVTask (C : Type) : Type := mkTask {
  task_id : Z;
  task_type : TaskType;
  task_end_op_id : Z;
  task_end_op_finished : bool;
  status : TaskStatus;
  token_ids : option (list Z);
  slot_mapping : option (list Z);
  token_mask : option (list bool);
  graph : option TransferOpGraph;
  return_mask : ReturnMask;
  callback : TaskCallback C;
  op_callback_dict : list (Z * Callable C);
  transfer_failed : bool;
  swa_slot_mapping : option (list Z);
  request_returned : bool;
  prefetch_full_block_results : option (list bool);
  prefetch_swa_block_results : option (list bool);
  prefetch_has_swa_remote : bool;
  prefetch_namespace : option (list string);
  prefetch_swa_aware : bool;
}.
Arguments mkTask {C}. Arguments task_id {C}. Arguments task_type {C}. Arguments task_end_op_id {C}. Arguments task_end_op_finished {C}.
 Arguments status {C}. Arguments token_ids {C}. Arguments slot_mapping {C}. Arguments token_mask {C}.
 Arguments graph {C}. Arguments return_mask {C}. Arguments callback {C}. Arguments op_callback_dict {C}.
 Arguments transfer_failed {C}. Arguments swa_slot_mapping {C}. Arguments request_returned {C}. Arguments prefetch_full_block_results {C}.
 Arguments prefetch_swa_block_results {C}. Arguments prefetch_has_swa_remote {C}. Arguments prefetch_namespace {C}. Arguments prefetch_swa_aware {C}.


Section task_updates.
Context {C : Type}.
Implicit Types (t : KVTask C).
Abbreviation KVTask := (KVTask C).
Abbreviation TaskCallback := (TaskCallback C).

Definition with_status (s : TaskStatus) t : KVTask :=
  mkTask (task_id t) (task_type t) (task_end_op_id t) (task_end_op_finished t) s (token_ids t) (slot_mapping t)
    (token_mask t) (graph t) (return_mask t) (callback t) (op_callback_dict t) (transfer_failed t)
    (swa_slot_mapping t) (request_returned t) (prefetch_full_block_results t) (prefetch_swa_block_results t)
    (prefetch_has_swa_remote t) (prefetch_namespace t) (prefetch_swa_aware t).
Definition with_end_finished t : KVTask :=
  mkTask (task_id t) (task_type t) (task_end_op_id t) true (status t) (token_ids t) (slot_mapping t) (token_mask t)
    (graph t) (return_mask t) (callback t) (op_callback_dict t) (transfer_failed t) (swa_slot_mapping t)
    (request_returned t) (prefetch_full_block_results t) (prefetch_swa_block_results t) (prefetch_has_swa_remote t)
    (prefetch_namespace t) (prefetch_swa_aware t).
Definition with_failed t : KVTask :=
  mkTask (task_id t) (task_type t) (task_end_op_id t) (task_end_op_finished t) (status t) (token_ids t)
    (slot_mapping t) (token_mask t) (graph t) (return_mask t) (callback t) (op_callback_dict t) true
    (swa_slot_mapping t) (request_returned t) (prefetch_full_block_results t) (prefetch_swa_block_results t)
    (prefetch_has_swa_remote t) (prefetch_namespace t) (prefetch_swa_aware t).
Definition with_returned t : KVTask :=
  mkTask (task_id t) (task_type t) (task_end_op_id t) (task_end_op_finished t) (status t) (token_ids t)
    (slot_mapping t) (token_mask t) (graph t) (return_mask t) (callback t) (op_callback_dict t) (transfer_failed t)
    (swa_slot_mapping t) true (prefetch_full_block_results t) (prefetch_swa_block_results t)
    (prefetch_has_swa_remote t) (prefetch_namespace t) (prefetch_swa_aware t).
Definition with_graph (g : option TransferOpGraph) t : KVTask :=
  mkTask (task_id t) (task_type t) (task_end_op_id t) (task_end_op_finished t) (status t) (token_ids t)
    (slot_mapping t) (token_mask t) g (return_mask t) (callback t) (op_callback_dict t) (transfer_failed t)
    (swa_slot_mapping t) (request_returned t) (prefetch_full_block_results t) (prefetch_swa_block_results t)
    (prefetch_has_swa_remote t) (prefetch_namespace t) (prefetch_swa_aware t).
Definition with_slots (slots : list Z) t : KVTask :=
  mkTask (task_id t) (task_type t) (task_end_op_id t) (task_end_op_finished t) (status t) (token_ids t) (Some slots)
    (token_mask t) (graph t) (return_mask t) (callback t) (op_callback_dict t) (transfer_failed t)
    (swa_slot_mapping t) (request_returned t) (prefetch_full_block_results t) (prefetch_swa_block_results t)
    (prefetch_has_swa_remote t) (prefetch_namespace t) (prefetch_swa_aware t).
Definition with_mask (m : ReturnMask) t : KVTask :=
  mkTask (task_id t) (task_type t) (task_end_op_id t) (task_end_op_finished t) (status t) (token_ids t)
    (slot_mapping t) (token_mask t) (graph t) m (callback t) (op_callback_dict t) (transfer_failed t)
    (swa_slot_mapping t) (request_returned t) (prefetch_full_block_results t) (prefetch_swa_block_results t)
    (prefetch_has_swa_remote t) (prefetch_namespace t) (prefetch_swa_aware t).
Definition with_callback (cb : TaskCallback) t : KVTask :=
  mkTask (task_id t) (task_type t) (task_end_op_id t) (task_end_op_finished t) (status t) (token_ids t)
    (slot_mapping t) (token_mask t) (graph t) (return_mask t) cb (op_callback_dict t) (transfer_failed t)
    (swa_slot_mapping t) (request_returned t) (prefetch_full_block_results t) (prefetch_swa_block_results t)
    (prefetch_has_swa_remote t) (prefetch_namespace t) (prefetch_swa_aware t).
Definition without_op_callbacks t : KVTask :=
  mkTask (task_id t) (task_type t) (task_end_op_id t) (task_end_op_finished t) (status t) (token_ids t)
    (slot_mapping t) (token_mask t) (graph t) (return_mask t) (callback t) [] (transfer_failed t) (swa_slot_mapping t)
    (request_returned t) (prefetch_full_block_results t) (prefetch_swa_block_results t) (prefetch_has_swa_remote t)
    (prefetch_namespace t) (prefetch_swa_aware t).
Definition with_full_results (r : option (list bool)) t : KVTask :=
  mkTask (task_id t) (task_type t) (task_end_op_id t) (task_end_op_finished t) (status t) (token_ids t)
    (slot_mapping t) (token_mask t) (graph t) (return_mask t) (callback t) (op_callback_dict t) (transfer_failed t)
    (swa_slot_mapping t) (request_returned t) r (prefetch_swa_block_results t) (prefetch_has_swa_remote t)
    (prefetch_namespace t) (prefetch_swa_aware t).
Definition with_swa_results (r : option (list bool)) t : KVTask :=
  mkTask (task_id t) (task_type t) (task_end_op_id t) (task_end_op_finished t) (status t) (token_ids t)
    (slot_mapping t) (token_mask t) (graph t) (return_mask t) (callback t) (op_callback_dict t) (transfer_failed t)
    (swa_slot_mapping t) (request_returned t) (prefetch_full_block_results t) r true (prefetch_namespace t)
    (prefetch_swa_aware t).
Definition shed_heavy_resources t : KVTask :=
  mkTask (task_id t) (task_type t) (task_end_op_id t) (task_end_op_finished t) (status t) None None None None
    (return_mask t) NoCallback (op_callback_dict t) (transfer_failed t) (swa_slot_mapping t) (request_returned t)
    (prefetch_full_block_results t) (prefetch_swa_block_results t) (prefetch_has_swa_remote t) (prefetch_namespace t)
    (prefetch_swa_aware t).
End task_updates.

Definition is_completed {C} (t : KVTask C) : bool :=
  match status t with COMPLETED | CANCELLED | FAILED => true | _ => false end.

Definition convert_to_response_status (s : TaskStatus) : result KVResponseStatus :=
  match s with
  | COMPLETED => Ok Success
  | CANCELLED => Ok Cancelled
  | FAILED => Ok Failed
  | RUNNING => Ok Success
  | _ => Raise KeyError
  end.

Fixpoint _longest_success_prefix (block_results : list bool) : Z :=
  match block_results with
  | true :: rest => 1 + _longest_success_prefix rest
  | _ => 0
  end.

(** ** Completion messages and the task they concern *)

Section task_results.
Context {C : Type}.
Implicit Types (t : KVTask C) (c : CompletedOp).

(** [getattr(task.graph, "_op_map", {}).get(completed_op.op_id)] *)
Definition graph_op (t : KVTask C) (c : CompletedOp) : option TransferOp :=
  graph t ≫= λ g, dict_get (co_op_id c) (_op_map g).

Definition op_is (f : TransferOp → bool) (o : option TransferOp) : bool :=
  match o with Some o => f o | None => false end.

Definition is_remote_load t c : bool :=
  bool_decide (co_transfer_type c = Some (transfer_type_name REMOTE2H)) ||
  op_is (λ o, bool_decide (transfer_type o = REMOTE2H)) (graph_op t c).

Definition expects_block_results t c : bool :=
  op_is (λ o, is_not_None (mooncake_store_block_hashes o) || is_not_None (mooncake_store_swa_block_hashes o)) (graph_op t c).

(** The bitmap of a sliding-window load belongs to the prefetch alone; the bitmap of a main load may fail the task. *)
Definition note_swa_load c t : KVTask C :=
  if bool_decide (task_type t = PREFETCH)
  then with_swa_results (match co_block_results c with Some r => Some r | None => prefetch_swa_block_results t end) t
  else t.

Definition note_full_load c t : KVTask C :=
  let missing_results := negb (is_not_None (co_block_results c)) && expects_block_results t c in
  let failed_blocks := match co_block_results c with Some r => negb (forallb id r) | None => false end in
  let t :=
    if missing_results then with_failed t
    else if failed_blocks then
      if bool_decide (task_type t = PREFETCH)
      then if _longest_success_prefix (default [] (co_block_results c)) =? 0 then with_failed t else t
      else with_failed t
    else t in
  if bool_decide (task_type t = PREFETCH) && is_not_None (co_block_results c)
  then with_full_results (co_block_results c) t else t.

Definition note_results c t : KVTask C :=
  if is_remote_load t c then
    if op_is is_swa (graph_op t c) then note_swa_load c t else note_full_load c t
  else t.

(** ** The mask of a prefetch *)

(** [mask_range], with the numpy clamping of the bounds, over a mask of [n] tokens. *)
Definition narrow_mask (tpb : nat) (num_success_blocks : Z) (mask : list bool) : list bool :=
  if num_success_blocks <=? 0 then replicate (length mask) false
  else
    let true_idx := where_from 0 mask in
    match head true_idx, last true_idx with
    | Some start, Some final =>
        let end_ := Z.min (Z.min (Z.of_nat start + num_success_blocks * Z.of_nat tpb) (Z.of_nat final + 1)) (zlen mask) in
        (λ i, (Z.of_nat start <=? Z.of_nat i) && (Z.of_nat i <? end_)) <$> seq 0 (length mask)
    | _, _ => mask
    end.

Definition _narrow_return_mask_to_prefix_blocks (tpb : nat) (num_success_blocks : Z) t : KVTask C :=
  match return_mask t with
  | Mask mask => with_mask (Mask (narrow_mask tpb num_success_blocks mask)) t
  | Masks _ => t
  end.

(** [callbacks if isinstance(callbacks, list) else [callbacks]] *)
Definition callbacks_of (cb : TaskCallback C) : list (TaskCallback C) :=
  match cb with CallbackList l => l | _ => [cb] end.

(** The deferred inserts a callback carries, as they are now. *)
Definition pending_of (c : C) (cb : TaskCallback C) : list PendingInsert :=
  match cb with OneCallback p => pc_deferred_inserts p c | _ => [] end.

(** Blocks published so far, given one more pending insert: only CPU inserts with a tracker count. *)
Definition count_published (published : option Z) (pending : PendingInsert) : option Z :=
  match pending with
  | (CPU, Some (blocks, failed)) =>
      let blocks := if failed then 0 else default 0 blocks in
      Some (match published with None => blocks | Some p => Z.min p blocks end)
  | _ => published
  end.

Definition _prefetch_published_remote_blocks (c : C) t : option Z :=
  match callback t with
  | NoCallback => None
  | cb => foldl count_published None (callbacks_of cb ≫= pending_of c)
  end.

(** [min] of two lengths, when there are two. *)
Definition min_opt (a b : option Z) : option Z :=
  match a, b with
  | Some a, Some b => Some (Z.min a b)
  | None, _ => b
  | _, None => a
  end.

(** The number of blocks a prefetch reports: [None] leaves the planned mask. *)
Definition report_len (c : C) t : option Z :=
  let full_results := prefetch_full_block_results t in
  let mounted_full_len := min_opt (_longest_success_prefix <$> full_results) (_prefetch_published_remote_blocks c t) in
  if prefetch_has_swa_remote t then
    let swa_ok := match prefetch_swa_block_results t with
                  | Some r => (0 <? zlen r) && forallb id r
                  | None => false
                  end in
    match full_results with
    | None => Some 0
    | Some r =>
        if negb (bool_decide (mounted_full_len = Some (zlen r))) || negb swa_ok then Some 0 else mounted_full_len
    end
  else mounted_full_len.

Definition _finalize_prefetch_return_mask (tpb : nat) (c : C) t : KVTask C :=
  match report_len c t with
  | Some n => _narrow_return_mask_to_prefix_blocks tpb n t
  | None => t
  end.

(** ** Running and aborting the plans of a task *)

Definition use_callback (use : M (TransferPlanHandle C * C) unit) (p : PlanCallback C) (c : C) : result unit * (TaskCallback C * C) :=
  let '(r, (h, c)) := use (pc_handle p, c) in (r, (OneCallback (mkPlanCallback h (pc_deferred_inserts p)), c)).

(** [callback()]: [None] and a list are not callable. *)
Definition run_callback (cb : TaskCallback C) (c : C) : result unit * (TaskCallback C * C) :=
  match cb with
  | OneCallback p => use_callback handle_call p c
  | _ => (Raise TypeError, (cb, c))
  end.

(** [for callback in callbacks: try: callback() except Exception: ...]: whether some callback raised. *)
Fixpoint run_callbacks (cbs : list (TaskCallback C)) (c : C) : bool * (list (TaskCallback C) * C) :=
  match cbs with
  | [] => (false, ([], c))
  | cb :: cbs =>
      let '(r, (cb, c)) := run_callback cb c in
      let '(failed, (cbs, c)) := run_callbacks cbs c in
      (negb (is_ok r) || failed, (cb :: cbs, c))
  end.

(** [abort = getattr(callback, "abort", None)] *)
Definition abort_callback (cb : TaskCallback C) (c : C) : result unit * (TaskCallback C * C) :=
  match cb with
  | OneCallback p => use_callback handle_abort p c
  | _ => (Ok tt, (cb, c))
  end.

(** The first exception leaves the loop. *)
Fixpoint abort_callbacks (cbs : list (TaskCallback C)) (c : C) : result unit * (list (TaskCallback C) * C) :=
  match cbs with
  | [] => (Ok tt, ([], c))
  | cb :: cbs =>
      match abort_callback cb c with
      | (Ok _, (cb, c)) => let '(r, (cbs, c)) := abort_callbacks cbs c in (r, (cb :: cbs, c))
      | (Raise x, (cb, c)) => (Raise x, (cb :: cbs, c))
      end
  end.

(** The callbacks of a task after they were used; their structure is the one they had. *)
Definition rebuild (cb : TaskCallback C) (cbs : list (TaskCallback C)) : TaskCallback C :=
  match cb with CallbackList _ => CallbackList cbs | _ => default NoCallback (head cbs) end.
End task_results.

(** ** The manager *)

(** What a transfer handle is sent. *)
Inductive Submission : Type :=
  | Submit (transfer_graph : TransferOpGraph) (task_end_op_id : Z)
  | SubmitBatch (transfer_graphs : list TransferOpGraph).

(** The configuration the manager reads: which of its handles reach another node, and the settings it branches on. *)
Record Deployment : Type := mkDeployment {
  multi_node_handles : list bool;
  nnodes : Z;
  pp_size : Z;
  block_tokens : nat;
  enable_layerwise_transfer : bool;
}.

Record KVTaskManager (C : Type) : Type := mkManager {
  cache_engine : C;
  ids : Ids;
  tasks : gmap Z (KVTask C);
  prefetch_tasks : gmap Z Z;
  graph_to_task : gmap Z Z;
  completions : Aggregator;
  task_id_counter : Z;
  submitted : list (nat * Submission);
  polls : nat;
  clock_reads : nat;
}.
Arguments mkManager {C}. Arguments cache_engine {C}. Arguments ids {C}. Arguments tasks {C}. Arguments prefetch_tasks {C}.
Arguments graph_to_task {C}. Arguments completions {C}. Arguments task_id_counter {C}. Arguments submitted {C}.
Arguments polls {C}. Arguments clock_reads {C}.

(** [KVTaskManager.__init__], on a fresh cache engine. *)
Definition new_manager {C} (c : C) (i : Ids) : KVTaskManager C := mkManager c i ∅ ∅ ∅ empty_aggregator 0 [] 0 0.

Section manager.
Context {C : Type} `{!CacheService C}.
Context (XXH64 : list Z → Z).
Context (clock : nat → float).
(** What the [n]-th [wait] on a transfer handle returns. *)
Context (poll : nat → list CompletedOp).
Context (deployment : Deployment).
Abbreviation Manager := (M (KVTaskManager C)).
Implicit Types (t : KVTask C) (m : KVTaskManager C).

Definition required_completed_count : Z := zlen (multi_node_handles deployment).

(** *** State *)

Definition with_world (w : C * Ids) m : KVTaskManager C :=
  mkManager w.1 w.2 (tasks m) (prefetch_tasks m) (graph_to_task m) (completions m) (task_id_counter m) (submitted m)
    (polls m) (clock_reads m).
Definition with_tasks (f : gmap Z (KVTask C) → gmap Z (KVTask C)) m : KVTaskManager C :=
  mkManager (cache_engine m) (ids m) (f (tasks m)) (prefetch_tasks m) (graph_to_task m) (completions m) (task_id_counter m)
    (submitted m) (polls m) (clock_reads m).
Definition with_graph_to_task (f : gmap Z Z → gmap Z Z) m : KVTaskManager C :=
  mkManager (cache_engine m) (ids m) (tasks m) (prefetch_tasks m) (f (graph_to_task m)) (completions m) (task_id_counter m)
    (submitted m) (polls m) (clock_reads m).
Definition with_prefetch_tasks (f : gmap Z Z → gmap Z Z) m : KVTaskManager C :=
  mkManager (cache_engine m) (ids m) (tasks m) (f (prefetch_tasks m)) (graph_to_task m) (completions m) (task_id_counter m)
    (submitted m) (polls m) (clock_reads m).
Definition with_completions (a : Aggregator) (polled : nat) m : KVTaskManager C :=
  mkManager (cache_engine m) (ids m) (tasks m) (prefetch_tasks m) (graph_to_task m) a (task_id_counter m)
    (submitted m) (polls m + polled) (clock_reads m).
Definition with_counter (n : Z) m : KVTaskManager C :=
  mkManager (cache_engine m) (ids m) (tasks m) (prefetch_tasks m) (graph_to_task m) (completions m) n
    (submitted m) (polls m) (clock_reads m).
Definition with_submitted (l : list (nat * Submission)) m : KVTaskManager C :=
  mkManager (cache_engine m) (ids m) (tasks m) (prefetch_tasks m) (graph_to_task m) (completions m) (task_id_counter m)
    (submitted m ++ l) (polls m) (clock_reads m).
Definition with_clock_read m : KVTaskManager C :=
  mkManager (cache_engine m) (ids m) (tasks m) (prefetch_tasks m) (graph_to_task m) (completions m) (task_id_counter m)
    (submitted m) (polls m) (S (clock_reads m)).

Definition on_world {A} (op : M (C * Ids) A) : Manager A := λ m,
  let '(r, w) := op (cache_engine m, ids m) in (r, with_world w m).
Definition on_cache {A} (op : M C A) : Manager A := λ m,
  let '(r, c) := op (cache_engine m) in (r, with_world (c, ids m) m).
Definition on_task_ids {A} (op : M Ids A) : Manager A := λ m,
  let '(r, i) := op (ids m) in (r, with_world (cache_engine m, i) m).

(** [self.tasks[task_id]], and an assignment to an attribute of the task. *)
Definition task_of (task_id : Z) : Manager (KVTask C) := λ m,
  match tasks m !! task_id with Some t => (Ok t, m) | None => (Raise KeyError, m) end.
Definition set_task (task_id : Z) (t : KVTask C) : Manager unit := modify_state (with_tasks (insert task_id t)).
Definition alter_task (task_id : Z) (f : KVTask C → KVTask C) : Manager unit := modify_state (with_tasks (alter f task_id)).
Definition map_graph (graph_id task_id : Z) : Manager unit := modify_state (with_graph_to_task (insert graph_id task_id)).
Definition unmap_graph (graph_id : Z) : Manager unit := modify_state (with_graph_to_task (delete graph_id)).

(** [time.time()] *)
Definition now : Manager float := λ m, (Ok (clock (clock_reads m)), with_clock_read m).

(** [try: m except Exception]: whether it raised. *)
Definition raises {St} (op : M St unit) : M St bool := λ s, let '(r, s) := op s in (Ok (negb (is_ok r)), s).

(** [if b: m] *)
Definition when {St} (b : bool) (op : M St unit) : M St unit := if b then op else mret tt.

(** *** Ending a task *)

Definition _release_task (task_id : Z) : Manager unit := λ m,
  match tasks m !! task_id with
  | None => (Ok tt, m)
  | Some t =>
      let m := match graph t with Some g => with_graph_to_task (delete (graph_id g)) m | None => m end in
      (Ok tt, with_tasks (delete task_id) m)
  end.

(** Runs [use] on the callbacks of a task, which keep their state. *)
Definition on_callbacks {A} (use : list (TaskCallback C) → C → A * (list (TaskCallback C) * C)) (task_id : Z) : Manager A :=
  t ← task_of task_id;
  m ← get_state;
  let '(a, (cbs, c)) := use (callbacks_of (callback t)) (cache_engine m) in
  on_cache (put_state c) ;;
  alter_task task_id (with_callback (rebuild (callback t) cbs)) ;;
  mret a.

Definition _abort_task_plans (task_id : Z) : Manager unit :=
  r ← on_callbacks abort_callbacks task_id; lift_result r.

(** The end of [_fail_task] and [_mark_completed]. *)
Definition end_task (task_id : Z) (s : TaskStatus) : Manager unit :=
  alter_task task_id (λ t, with_end_finished (with_status s t)) ;;
  t ← task_of task_id;
  g ← deref (graph t);
  unmap_graph (graph_id g) ;;
  alter_task task_id shed_heavy_resources ;;
  when (request_returned t) (_release_task task_id).

Definition _fail_task (task_id : Z) : Manager unit :=
  m ← get_state;
  match tasks m !! task_id with
  | None => mret tt
  | Some t =>
      if is_completed t then mret tt
      else _abort_task_plans task_id ;; end_task task_id FAILED
  end.

Definition _cancel_task (task_id : Z) : Manager unit :=
  m ← get_state;
  match tasks m !! task_id with
  | None => mret tt
  | Some t =>
      when (negb (is_completed t))
        (when (bool_decide (status t = UNREADY) || bool_decide (status t = READY)) (_abort_task_plans task_id) ;;
         alter_task task_id (with_status CANCELLED)) ;;
      _release_task task_id
  end.

(** [if task.callback:] *)
Definition has_callback t : bool := match callback t with NoCallback | CallbackList [] => false | _ => true end.

Definition _mark_completed (task_id : Z) : Manager unit :=
  t ← task_of task_id;
  if is_completed t then mret tt
  else
    (if has_callback t
     then failed ← on_callbacks run_callbacks task_id; when failed (alter_task task_id with_failed)
     else mret tt) ;;
    m ← get_state;
    when (bool_decide (task_type t = PREFETCH))
      (alter_task task_id (_finalize_prefetch_return_mask (block_tokens deployment) (cache_engine m))) ;;
    t ← task_of task_id;
    end_task task_id (if transfer_failed t then FAILED else COMPLETED).

Definition _process_empty_graph (task_id : Z) : Manager unit :=
  t ← task_of task_id;
  match graph t with
  | None => mret tt
  | Some g => when (num_ops g =? 0) (_mark_completed task_id)
  end.

(** The task object may have left the table: then it was completed. *)
Definition check_completed (task_id : Z) (completely : bool) : Manager bool :=
  t ← task_of task_id;
  _process_empty_graph task_id ;;
  m ← get_state;
  mret (match tasks m !! task_id with
        | None => true
        | Some t =>
            if bool_decide (task_type t = PREFETCH) || completely || transfer_failed t then is_completed t
            else is_completed t || task_end_op_finished t
        end).

(** *** Completion messages *)

(** One poll of every transfer handle. *)
Definition poll_handles : Manager (list CompletedOp) := λ m,
  let n := length (multi_node_handles deployment) in
  let '(out, a) := _get_completed_ops required_completed_count ((λ i, poll (polls m + i)) <$> seq 0 n) (completions m) in
  (Ok out, with_completions a n m).

Definition run_op_callback (task_id : Z) (c : CompletedOp) : Manager unit :=
  t ← task_of task_id;
  match dict_get (co_op_id c) (op_callback_dict t) with
  | None => mret tt
  | Some cb =>
      failed ← raises (on_cache (invoke_op_callback cb (Some c)));
      when failed (alter_task task_id with_failed)
  end.

(** [task.status == TaskStatus.CANCELLED and task.callback is None] *)
Definition detached t : bool :=
  bool_decide (status t = CANCELLED) && match callback t with NoCallback => true | _ => false end.

Definition update_task (c : CompletedOp) : Manager unit :=
  m ← get_state;
  match graph_to_task m !! co_graph_id c with
  | None => mret tt
  | Some task_id =>
      t ← task_of task_id;
      if is_graph_failed c then _fail_task task_id
      else
        alter_task task_id (note_results c) ;;
        t ← task_of task_id;
        if detached t then mret tt
        else
          run_op_callback task_id c ;;
          if is_graph_completed c then _mark_completed task_id
          else when (co_op_id c =? task_end_op_id t) (alter_task task_id with_end_finished)
  end.

Definition _update_tasks : Manager unit :=
  completed_ops ← poll_handles;
  for_each update_task completed_ops.

(** *** Creating tasks *)

Definition _gen_task_id : Manager Z := λ m, (Ok (task_id_counter m), with_counter (task_id_counter m + 1) m).

(** [if task_id == -1: task_id = self._gen_task_id()] *)
Definition resolve_task_id (task_id : Z) : Manager Z := if task_id =? -1 then _gen_task_id else mret task_id.

Definition assert_new (task_id : Z) : Manager unit :=
  m ← get_state;
  match tasks m !! task_id with
  | Some _ => raise (ValueError "Task ID already exists")
  | None => mret tt
  end.

Definition new_task (task_id : Z) (ty : TaskType) (s : TaskStatus) (tokens slots : list Z) (mask : list bool)
    (has_swa_remote : bool) (namespace : option (list string)) (swa_aware : bool) (p : Planned C) : KVTask C :=
  mkTask task_id ty (pl_task_end_op_id p) false s (Some tokens) (Some slots) (Some mask) (Some (pl_graph p))
    (Mask (pl_return_mask p)) (OneCallback (pl_callback p)) (pl_op_callback_dict p) false None false None None
    has_swa_remote namespace swa_aware.

Definition create_get_task (task_id : Z) (tokens slots : list Z) (dp : Z) (mask : list bool) (is_fake_slot_mapping : bool)
    (s : CacheStrategy) (namespace : option (list string)) (swa_aware : bool) : Manager unit :=
  assert_new task_id ;;
  p ← on_world (cs_get tokens mask slots dp s namespace swa_aware);
  set_task task_id (new_task task_id GET (if is_fake_slot_mapping then UNREADY else READY) tokens slots mask false None false p) ;;
  map_graph (graph_id (pl_graph p)) task_id.

Definition create_put_task (task_id : Z) (tokens slots : list Z) (dp : Z) (mask : list bool) (is_fake_slot_mapping : bool)
    (namespace : option (list string)) : Manager unit :=
  assert_new task_id ;;
  p ← on_world (cs_put tokens mask slots dp namespace);
  set_task task_id (new_task task_id PUT (if is_fake_slot_mapping then UNREADY else READY) tokens slots mask false None false p) ;;
  map_graph (graph_id (pl_graph p)) task_id.

(** [np.zeros_like(token_ids)], [np.ones_like(token_ids)] *)
Definition zeros_like (l : list Z) : list Z := replicate (length l) 0.
Definition ones_like (l : list Z) : list bool := replicate (length l) true.

Definition has_swa_remote_load (g : TransferOpGraph) : bool :=
  existsb (λ e, bool_decide (transfer_type e.2 = REMOTE2H) && is_swa e.2) (_op_map g).

Definition create_prefetch_task (task_id : Z) (tokens : list Z) (dp : Z) (namespace : option (list string)) (swa_aware : bool) : Manager unit :=
  assert_new task_id ;;
  let s := mkStrategy true (ignore_ssd DEFAULT_CACHE_STRATEGY) (ignore_remote DEFAULT_CACHE_STRATEGY) true in
  p ← on_world (cs_get tokens (ones_like tokens) (zeros_like tokens) dp s namespace swa_aware);
  set_task task_id (new_task task_id PREFETCH READY tokens (zeros_like tokens) (ones_like tokens)
                      (has_swa_remote_load (pl_graph p)) namespace swa_aware p) ;;
  modify_state (with_prefetch_tasks (insert (hash_token XXH64 tokens namespace) task_id)) ;;
  map_graph (graph_id (pl_graph p)) task_id.

(** *** Launching tasks *)

Definition set_gpu_blocks_of (task_id : Z) (gpu_blocks : list Z) (swa_gpu_blocks : option (list Z)) : Manager unit :=
  t ← task_of task_id;
  g ← deref (graph t);
  let '(r, g) := set_gpu_blocks gpu_blocks swa_gpu_blocks g in
  alter_task task_id (with_graph (Some g)) ;;
  lift_result r.

Definition _set_slot_mapping_impl (task_id : Z) (slots : list Z) (swa_slots : option (list Z)) : Manager unit :=
  t ← task_of task_id;
  if negb (bool_decide (status t = UNREADY)) then mret tt
  else
    let tpb := block_tokens deployment in
    let swa_sm := match swa_slots with Some l => Some l | None => swa_slot_mapping t end in
    set_gpu_blocks_of task_id (slot_mapping_to_block_ids slots tpb) ((λ l, slot_mapping_to_block_ids l tpb) <$> swa_sm) ;;
    alter_task task_id (with_slots slots) ;;
    alter_task task_id (with_status READY).

Definition set_slot_mappings (task_ids : list Z) (slot_mappings : list (list Z)) (swa_slot_mappings : option (list (option (list Z)))) : Manager unit :=
  let swa := match swa_slot_mappings with Some l => l | None => replicate (length task_ids) None end in
  for_each (λ e, _set_slot_mapping_impl e.1.1 e.1.2 e.2) (zip (zip task_ids slot_mappings) swa).

Definition check_task_ready (task_id : Z) : Manager (option TransferOpGraph) :=
  t ← task_of task_id;
  if is_completed t then mret None
  else if negb (bool_decide (status t = READY)) then raise (ValueError "Task cannot be launched")
  else alter_task task_id (with_status RUNNING) ;; mret (graph t).

(** [transfer_handle.submit(...)] on the handle at position [i] *)
Definition submit (g : TransferOpGraph) (end_op : Z) (handle : nat * bool) : Manager unit :=
  let '(i, multi_node) := handle in
  if multi_node && (1 <? nnodes deployment) && (1 <? pp_size deployment) then
    let '(r, cleared) := clear_gpu_blocks g in
    lift_result r ;;
    modify_state (with_submitted [(i, Submit cleared end_op)])
  else modify_state (with_submitted [(i, Submit g end_op)]).

(** [enumerate(self.transfer_handles)] *)
Definition handles : list (nat * bool) := imap pair (multi_node_handles deployment).

Definition _launch_task (task_id : Z) : Manager unit :=
  transfer_graph ← check_task_ready task_id;
  match transfer_graph with
  | None => mret tt
  | Some g =>
      if 0 <? num_ops g
      then for_each (λ h, t ← task_of task_id; submit g (task_end_op_id t) h) handles
      else mret tt
  end.

(** The graphs, end ops, op callbacks, plan callbacks and masks a batch collects from its members. *)
Record Members : Type := mkMembers {
  mb_graphs : list TransferOpGraph;
  mb_task_end_op_ids : list Z;
  mb_op_callback_dict : list (Z * Callable C);
  mb_callbacks : list (TaskCallback C);
  mb_return_masks : list ReturnMask;
}.

(** [d.update(d')] *)
Definition dict_update {V} (d d' : list (Z * V)) : list (Z * V) := foldl (λ d e, dict_set e.1 e.2 d) d d'.

Definition collect_member (expected_type : TaskType) (mb : Members) (task_id : Z) : Manager Members :=
  t ← task_of task_id;
  assertM (bool_decide (task_type t = expected_type)) ;;
  transfer_graph ← check_task_ready task_id;
  match transfer_graph with
  | None => mret mb
  | Some g =>
      if 0 <? num_ops g
      then mret (mkMembers (mb_graphs mb ++ [g]) (mb_task_end_op_ids mb ++ [task_end_op_id t])
                   (dict_update (mb_op_callback_dict mb) (op_callback_dict t)) (mb_callbacks mb ++ [callback t])
                   (mb_return_masks mb ++ [return_mask t]))
      else mret mb
  end.

(** [np.concatenate(arrays)]: it needs an array, and [None] counts as a zero-dimensional one. *)
Definition concatenate {A} (arrays : list (option (list A))) : result (list A) :=
  match arrays with
  | [] => Raise (ValueError "need at least one array to concatenate")
  | _ => match mapM id arrays with
         | Some l => Ok (concat l)
         | None => Raise (ValueError "zero-dimensional arrays cannot be concatenated")
         end
  end.

(** [np.concatenate([f(self.tasks[task_id]) for task_id in task_ids])] *)
Definition concatenate_of {A} (f : KVTask C → option (list A)) (task_ids : list Z) : Manager (list A) :=
  arrays ← for_acc (λ l task_id, t ← task_of task_id; mret (l ++ [f t])) [] task_ids;
  lift_result (concatenate arrays).

Definition remove_member (task_id : Z) : Manager unit :=
  t ← task_of task_id;
  match graph t with Some g => unmap_graph (graph_id g) | None => mret tt end ;;
  modify_state (with_tasks (delete task_id)).

Definition merge_to_batch_kvtask (batch_id : Z) (task_ids : list Z) (batch_task_type : TaskType) (layerwise_transfer : bool)
    (counter_id : Z) : Manager TransferOpGraph :=
  let expected_type := if bool_decide (batch_task_type = BATCH_GET) then GET else PUT in
  mb ← for_acc (collect_member expected_type) (mkMembers [] [] [] [] []) task_ids;
  '(g, end_op, callbacks) ← on_task_ids (merge_to_batch_graph (mb_graphs mb) (mb_task_end_op_ids mb) (mb_op_callback_dict mb)
                                           layerwise_transfer counter_id);
  tokens ← concatenate_of token_ids task_ids;
  slots ← concatenate_of slot_mapping task_ids;
  mask ← concatenate_of token_mask task_ids;
  set_task batch_id (mkTask batch_id batch_task_type end_op false READY (Some tokens) (Some slots) (Some mask) (Some g)
                       (Masks (mb_return_masks mb)) (CallbackList (mb_callbacks mb)) callbacks false None false None None false None false) ;;
  map_graph (graph_id g) batch_id ;;
  for_each remove_member task_ids ;;
  mret g.

(** [all(self.tasks[tid].task_type == ty for tid in task_ids)]: it stops at the first that is not. *)
Fixpoint all_of_type (ty : TaskType) (task_ids : list Z) : Manager bool :=
  match task_ids with
  | [] => mret true
  | id :: task_ids =>
      t ← task_of id;
      if bool_decide (task_type t = ty) then all_of_type ty task_ids else mret false
  end.

(** The graphs of tasks that are launched one by one. *)
Definition collect_graph (graphs : list TransferOpGraph) (task_id : Z) : Manager (list TransferOpGraph) :=
  transfer_graph ← check_task_ready task_id;
  mret (match transfer_graph with Some g => if 0 <? num_ops g then graphs ++ [g] else graphs | None => graphs end).

Definition submit_batch (graphs : list TransferOpGraph) : Manager unit :=
  match graphs with
  | [] => mret tt
  | _ => for_each (λ h : nat * bool, modify_state (with_submitted [(h.1, SubmitBatch graphs)])) handles
  end.

Definition launch_tasks (task_ids : list Z) (slot_mappings : list (list Z)) (swa_slot_mappings : option (list (option (list Z))))
    (as_batch : bool) (batch_id : Z) (layerwise_transfer : bool) (counter_id : Z) : Manager (list Z) :=
  (match slot_mappings with [] => raise IndexError | _ => mret tt end) ;;
  set_slot_mappings task_ids slot_mappings swa_slot_mappings ;;
  all_get ← all_of_type GET task_ids;
  all_put ← all_of_type PUT task_ids;
  if ((1 <? zlen task_ids) || layerwise_transfer) && as_batch && (all_get || all_put) then
    batch_id ← resolve_task_id batch_id;
    let layerwise := layerwise_transfer && enable_layerwise_transfer deployment && all_get in
    g ← merge_to_batch_kvtask batch_id task_ids (if all_get : bool then BATCH_GET else BATCH_PUT) layerwise counter_id;
    task_of batch_id ;;
    alter_task batch_id (with_status RUNNING) ;;
    submit_batch [g] ;;
    mret [batch_id]
  else
    graphs ← for_acc collect_graph [] task_ids;
    submit_batch graphs ;;
    mret task_ids.

(** *** The calls of a client *)

(** [self.tasks[task_id].return_mask] *)
Definition return_mask_of (task_id : Z) : Manager ReturnMask := t ← task_of task_id; mret (return_mask t).

Definition _get_match_impl (tokens slots : list Z) (dp : Z) (is_fake_slot_mapping : bool) (mask : option (list bool)) (cpu_only : bool)
    (task_id : Z) (namespace : option (list string)) (swa_aware : bool) : Manager (Z * ReturnMask) :=
  let mask := default (ones_like tokens) mask in
  task_id ← resolve_task_id task_id;
  create_get_task task_id tokens slots dp mask is_fake_slot_mapping
    (if cpu_only then CPUONLY_CACHE_STRATEGY else DEFAULT_CACHE_STRATEGY) namespace swa_aware ;;
  _process_empty_graph task_id ;;
  r ← return_mask_of task_id;
  mret (task_id, r).

Definition _put_match_impl (tokens slots : list Z) (dp : Z) (is_fake_slot_mapping : bool) (mask : option (list bool))
    (task_id : Z) (namespace : option (list string)) : Manager (Z * ReturnMask) :=
  let mask := default (ones_like tokens) mask in
  task_id ← resolve_task_id task_id;
  create_put_task task_id tokens slots dp mask is_fake_slot_mapping namespace ;;
  _process_empty_graph task_id ;;
  r ← return_mask_of task_id;
  mret (task_id, r).

Definition get_async (tokens slots : list Z) (dp : Z) (mask : option (list bool)) (task_id : Z) (namespace : option (list string)) : Manager (Z * ReturnMask) :=
  '(task_id, r) ← _get_match_impl tokens slots dp false mask false task_id namespace false;
  _launch_task task_id ;;
  mret (task_id, r).

Definition put_async (tokens slots : list Z) (dp : Z) (mask : option (list bool)) (task_id : Z) (namespace : option (list string)) : Manager (Z * ReturnMask) :=
  '(task_id, r) ← _put_match_impl tokens slots dp false mask task_id namespace;
  _launch_task task_id ;;
  mret (task_id, r).

(** The slots are not known yet: zeros, one per token of [token_ids[token_mask]]. *)
Definition get_match (tokens : list Z) (dp : Z) (mask : option (list bool)) (cpu_only : bool) (task_id : Z)
    (namespace : option (list string)) (swa_aware : bool) : Manager (Z * ReturnMask) :=
  _update_tasks ;;
  let mask := default (ones_like tokens) mask in
  (if (length tokens =? length mask)%nat then mret tt else raise IndexError) ;;
  let fake_slot_mapping := replicate (length (where_from 0 mask)) 0 in
  _get_match_impl tokens fake_slot_mapping dp true (Some mask) cpu_only task_id namespace swa_aware.

Definition put_match (tokens : list Z) (dp : Z) (mask : option (list bool)) (task_id : Z) (namespace : option (list string)) : Manager (Z * ReturnMask) :=
  _update_tasks ;;
  _put_match_impl tokens (zeros_like tokens) dp true mask task_id namespace.

Definition prefetch_async (tokens : list Z) (dp : Z) (task_id : Z) (namespace : option (list string)) (swa_aware : bool) : Manager Z :=
  task_id ← resolve_task_id task_id;
  create_prefetch_task task_id tokens dp namespace swa_aware ;;
  _process_empty_graph task_id ;;
  _launch_task task_id ;;
  mret task_id.

Definition cancel_tasks (task_ids : list Z) : Manager unit := for_each _cancel_task task_ids.

(** Every task that is not completed loses its callbacks and is cancelled; its graph stays mapped. *)
Definition detach t : KVTask C :=
  if is_completed t then t else with_status CANCELLED (without_op_callbacks (with_callback NoCallback t)).

Definition reset_cache : Manager unit :=
  modify_state (with_tasks (fmap detach)) ;;
  on_cache cs_reset.

(** *** Waiting *)

Definition respond (s : KVResponseStatus) (task_id : Z) (mask : option ReturnMask) : option KVResponse := Some (mkKVResponse s task_id mask).

(** The answer for a task that [check_completed] accepts; a completed task leaves the table. *)
Definition collect_response (task_id : Z) : Manager KVResponse :=
  t ← task_of task_id;
  s ← lift_result (convert_to_response_status (status t));
  alter_task task_id with_returned ;;
  when (is_completed t) (_release_task task_id) ;;
  mret (mkKVResponse s task_id (Some (return_mask t))).

(** [while True] for one task; [is_timeout] stays set for the tasks after it. *)
Fixpoint wait_one (fuel : nat) (start timeout : float) (completely only_return_finished : bool) (task_id : Z) (is_timeout : bool) :
    Manager (option KVResponse * bool) :=
  match fuel with
  | O => raise RecursionLimit
  | S fuel =>
      m ← get_state;
      match tasks m !! task_id with
      | None => mret (respond NotFound task_id None, is_timeout)
      | Some t =>
          if bool_decide (status t = UNREADY) then mret (respond Unready task_id None, is_timeout)
          else
            done ← check_completed task_id completely;
            if done : bool then r ← collect_response task_id; mret (Some r, is_timeout)
            else if only_return_finished then mret (None, is_timeout)
            else
              time ← now;
              let is_timeout := is_timeout || f_ltb timeout (f_sub time start) in
              if is_timeout then mret (respond Timeout task_id None, is_timeout)
              else _update_tasks ;; wait_one fuel start timeout completely only_return_finished task_id is_timeout
      end
  end.

Fixpoint wait_all (fuel : nat) (start timeout : float) (completely only_return_finished : bool) (task_ids : list Z) (is_timeout : bool)
    (return_responses : list (Z * KVResponse)) : Manager (list (Z * KVResponse)) :=
  match task_ids with
  | [] => mret return_responses
  | task_id :: task_ids =>
      '(r, is_timeout) ← wait_one fuel start timeout completely only_return_finished task_id is_timeout;
      wait_all fuel start timeout completely only_return_finished task_ids is_timeout
        (match r with Some r => dict_set task_id r return_responses | None => return_responses end)
  end.

Definition _wait_impl (fuel : nat) (task_ids : list Z) (timeout : float) (completely only_return_finished : bool) : Manager (list (Z * KVResponse)) :=
  start_time ← now;
  let is_timeout := f_eqb timeout (f_of_Z 0) in
  _update_tasks ;;
  wait_all fuel start_time timeout completely only_return_finished task_ids is_timeout [].

Definition default_timeout : float := f_of_Z 20.

Definition try_wait (fuel : nat) (task_ids : list Z) : Manager (list (Z * KVResponse)) := _wait_impl fuel task_ids default_timeout false true.

Definition wait (fuel : nat) (task_ids : list Z) (timeout : float) (completely : bool) : Manager (list (Z * KVResponse)) :=
  _wait_impl fuel task_ids timeout completely false.

Definition _sync_prefetch (fuel : nat) (tokens : list Z) (namespace : option (list string)) : Manager unit :=
  m ← get_state;
  match prefetch_tasks m !! hash_token XXH64 tokens namespace with
  | None => mret tt
  | Some task_id => wait fuel [task_id] default_timeout true ;; mret tt
  end.
End manager.
End TaskManager.
