(* ===== verification/BatchFrame.v ===== *)
(** * BatchFrame: what the graph builders leave alone

    Frame facts about the graph operations of [Transfer] and [GraphBuild] and about
    the batch merge ([BatchMerge]), for their clients: the id of the graph being
    built stays, the counter of graph ids moves only when a graph is made, binding
    GPU blocks keeps the ops, and a callback of a batch is one of its members'
    callbacks or a combination of them. *)

From S2P Require Import Prelude Transfer GraphBuild BatchMerge.
Import GraphBuild.GraphBuild BatchMerge.BatchMerge.
Local Open Scope Z_scope.

Module BatchFrame.

(** [m] keeps [I], whether it returns or raises. *)
Definition keeps {St A} (I : St → Prop) (m : M St A) : Prop := triple I I m (λ _, I).

Section keeps.
Context {St : Type} (I : St → Prop).

Lemma keeps_bind {A B} (m : M St A) (f : A → M St B) : keeps I m → (∀ a, keeps I (f a)) → keeps I (m ≫= f).
Proof. intros Hm Hf. eapply triple_bind; [exact Hm|exact Hf]. Qed.

Lemma keeps_ret {A} (a : A) : keeps I (mret a).
Proof. by apply triple_ret. Qed.

Lemma keeps_raise {A} x : keeps I (raise x : M St A).
Proof. by apply triple_raise. Qed.

Lemma keeps_lift {A} (r : result A) : keeps I (lift_result r).
Proof. by apply triple_lift. Qed.

Lemma keeps_get_state : keeps I get_state.
Proof. by apply triple_get_state. Qed.

Lemma keeps_modify f : (∀ s, I s → I (f s)) → keeps I (modify_state f).
Proof. intros Hf. by apply triple_modify. Qed.

Lemma keeps_for_each {X} (f : X → M St unit) l : (∀ x, x ∈ l → keeps I (f x)) → keeps I (for_each f l).
Proof. intros Hf. by apply triple_for_each. Qed.

Lemma keeps_for_acc {A X} (f : A → X → M St A) acc l : (∀ acc x, keeps I (f acc x)) → keeps I (for_acc f acc l).
Proof. intros Hf. apply (triple_for_acc I (λ _ _ _, I)). intros pre acc' x post. apply Hf. Qed.
End keeps.

Create HintDb keeps.
#[export] Hint Resolve keeps_bind keeps_ret keeps_raise keeps_lift keeps_get_state keeps_modify keeps_for_each keeps_for_acc : keeps.

(** Splits a term of the monad into its steps. *)
Ltac keeps_steps :=
  repeat match goal with
  | |- keeps _ (_ ≫= _) => apply keeps_bind; [|intros ?]
  | |- keeps _ (mret _) => apply keeps_ret
  | |- keeps _ (raise _) => apply keeps_raise
  | |- keeps _ (lift_result _) => apply keeps_lift
  | |- keeps _ (assertM _) => apply keeps_lift
  | |- keeps _ get_state => apply keeps_get_state
  | |- keeps _ (match ?x with _ => _ end) => destruct x
  end.

(** ** Graphs *)

(** The graph being built, and the counter of graph ids. *)
Definition same_graph (gid next : Z) (b : Building) : Prop := graph_id b.2 = gid ∧ _next_graph_id b.1 = next.

Section building.
Context (gid next : Z).

Lemma keeps_new_ids {A} (m : M Ids A) : (∀ i, _next_graph_id (m i).2 = _next_graph_id i) → keeps (same_graph gid next) (on_ids m).
Proof. intros Hm b [Hg Hn]. unfold on_ids. specialize (Hm b.1). destruct (m b.1) as [[a|x] i]; by split; cbn in *; rewrite ?Hm. Qed.

Lemma op_init_ids g ty src dst dp swa kv swa_hashes tail i :
  _next_graph_id (TransferOp_init g ty src dst dp swa kv swa_hashes tail i).2 = _next_graph_id i.
Proof. unfold TransferOp_init. rewrite M_bind_run. by destruct (negb (bool_decide (ty = VIRTUAL)) && _). Qed.

Lemma layerwise_init_ids g dp f i : _next_graph_id (LayerwiseTransferOp_init g dp f i).2 = _next_graph_id i.
Proof.
  unfold LayerwiseTransferOp_init. rewrite M_bind_run. pose proof (op_init_ids g LAYERWISE [] [] dp false None None (Some f) i) as Hi.
  destruct (TransferOp_init g LAYERWISE [] [] dp false None None (Some f) i) as [[o|x] j]; [|done]. cbn in Hi.
  unfold assertM, lift_result, py_assert. repeat (rewrite M_bind_run; destruct (_ =? _); [|done]). done.
Qed.

Lemma add_op_graph_id o g : graph_id (add_transfer_op o g) = graph_id g.
Proof. unfold add_transfer_op. by repeat case_match. Qed.

Lemma keeps_graph_add o : keeps (same_graph gid next) (graph_add o).
Proof. intros b [Hg Hn]. split; [exact (eq_trans (add_op_graph_id o b.2) Hg)|exact Hn]. Qed.

Lemma keeps_on_graph {A} (m : M TransferOpGraph A) :
  keeps (λ g, graph_id g = gid) m → keeps (same_graph gid next) (on_graph m).
Proof. intros Hm b [Hg Hn]. unfold on_graph. specialize (Hm b.2 Hg). destruct (m b.2) as [[a|x] g]; by split. Qed.

Lemma keeps_graph_depend s p : keeps (same_graph gid next) (graph_depend s p).
Proof. apply keeps_on_graph. unfold add_dependency. keeps_steps; apply keeps_modify; by intros g. Qed.

Lemma keeps_virtual_barrier l dp : keeps (same_graph gid next) (virtual_barrier l dp).
Proof.
  unfold virtual_barrier, new_op. keeps_steps; [apply keeps_new_ids; intros; apply op_init_ids|apply keeps_graph_add|].
  apply keeps_for_each. intros. apply keeps_graph_depend.
Qed.

Lemma keeps_end_op l dp : keeps (same_graph gid next) (add_virtual_op_for_multiple_finished_ops l dp).
Proof. unfold add_virtual_op_for_multiple_finished_ops. keeps_steps. apply keeps_virtual_barrier. Qed.

Lemma keeps_sink l dp : keeps (same_graph gid next) (_add_batch_sink l dp).
Proof. unfold _add_batch_sink. keeps_steps. apply keeps_virtual_barrier. Qed.

Lemma keeps_add_op o : keeps (same_graph gid next) (add_op o).
Proof. unfold add_op. keeps_steps. apply keeps_graph_add. Qed.

Lemma keeps_depend s p : keeps (same_graph gid next) (depend s p).
Proof. unfold depend. keeps_steps. apply keeps_graph_depend. Qed.
End building.

#[export] Hint Resolve keeps_graph_add keeps_graph_depend keeps_virtual_barrier keeps_end_op keeps_sink keeps_add_op keeps_depend : keeps.

Lemma keeps_get_graph gid next a b c d e f dp : keeps (same_graph gid next) (get_graph a b c d e f dp).
Proof. unfold get_graph. keeps_steps; auto with keeps. Qed.

Lemma keeps_put_graph gid next a b c d e f dp : keeps (same_graph gid next) (put_graph a b c d e f dp).
Proof. unfold put_graph. keeps_steps; auto with keeps. Qed.

Lemma keeps_layerwise_graph gid next a b c d e f dp n : keeps (same_graph gid next) (layerwise_graph a b c d e f dp n).
Proof. unfold layerwise_graph. keeps_steps; auto with keeps. apply keeps_new_ids. intros. apply layerwise_init_ids. Qed.

(** ** Binding GPU blocks keeps the ops and the id *)

Definition same_ops (g0 g : TransferOpGraph) : Prop := graph_id g = graph_id g0 ∧ (_op_map g).*1 = (_op_map g0).*1.

Lemma same_ops_num g0 g : same_ops g0 g → num_ops g = num_ops g0.
Proof. intros [_ Hk]. unfold num_ops, zlen. by rewrite <- (length_fmap fst (_op_map g)), Hk, length_fmap. Qed.

Lemma keeps_alter_op g0 f k : keeps (same_ops g0) (modify_state (alter_op f k)).
Proof. apply keeps_modify. intros g [Hg Hk]. split; [done|]. cbn. by rewrite dict_keys_alter. Qed.

Lemma keeps_get_op (I : TransferOpGraph → Prop) k : keeps I (get_op k).
Proof. intros g Hg. unfold get_op. by destruct (dict_get k (_op_map g)). Qed.

Lemma keeps_set_gpu_blocks g0 gpu swa : keeps (same_ops g0) (set_gpu_blocks gpu swa).
Proof.
  unfold set_gpu_blocks. keeps_steps. apply keeps_for_acc. intros acc k. unfold set_gpu_blocks_step.
  keeps_steps; auto using keeps_get_op, keeps_alter_op.
Qed.

Lemma set_gpu_blocks_same gpu swa g : same_ops g (set_gpu_blocks gpu swa g).2.
Proof. pose proof (keeps_set_gpu_blocks g gpu swa g) as Hk. destruct (set_gpu_blocks gpu swa g) as [[a|x] g']; by apply Hk. Qed.

(** ** Callbacks of a batch *)

Section batch.
Context {St : Type} (P : Callable St → Prop).

(** [P] holds of a combination of callbacks it holds of. *)
Context (combine : ∀ cbs spans, Forall P cbs → P (CompletionAwareCallback (λ completed, combined_callback spans completed 0 cbs))).

Definition dict_all (d : list (Z * Callable St)) : Prop := Forall (λ e, P e.2) d.

Lemma dict_all_set k cb d : P cb → dict_all d → dict_all (dict_set k cb d).
Proof.
  intros Hcb. induction d as [|[k' cb'] d IH]; intros Hd; cbn; [by constructor|]. apply Forall_cons in Hd as [H1 H2].
  case_decide; constructor; auto. by apply IH.
Qed.

Lemma dict_all_get k cb d : dict_all d → dict_get k d = Some cb → P cb.
Proof. intros Hd Hk. apply dict_get_Some_elem in Hk. unfold dict_all in Hd. rewrite Forall_forall in Hd. by apply Hd in Hk. Qed.

Lemma combined_all callbacks spans cb : Forall P callbacks → _make_combined_callback callbacks spans = Ok cb → P cb.
Proof. intros Hc. unfold _make_combined_callback. repeat case_match; intros [= <-]; by apply combine. Qed.

Lemma attach_combined_all op callbacks d d' :
  Forall P callbacks → dict_all d → _attach_combined_callback op callbacks d = Ok d' → dict_all d'.
Proof.
  intros Hc Hd. unfold _attach_combined_callback. destruct callbacks as [|cb [|cb' l]]; [by intros [= <-]| |].
  - intros [= <-]. apply Forall_cons in Hc as [Hc _]. by apply dict_all_set.
  - intros (x & Hx & [= <-])%result_bind_inv. apply dict_all_set; [by eapply combined_all|done].
Qed.

Lemma by_op_id_all (callbacks : list (TransferOp * Callable St)) : Forall (λ e, P e.2) callbacks → dict_all (callback_by_op_id callbacks).
Proof.
  unfold callback_by_op_id. assert (dict_all []) as Hd by constructor. revert Hd. generalize (@nil (Z * Callable St)) as d.
  induction callbacks as [|[o cb] callbacks IH]; intros d Hd Hc; [done|]. apply Forall_cons in Hc as [Hcb Hc]. cbn. apply IH; [by apply dict_all_set|done].
Qed.

Lemma spans_all by_id offset ops : dict_all by_id → Forall P (spans_from by_id offset ops).*1.
Proof.
  intros Hd. revert offset. induction ops as [|o ops IH]; intros offset; cbn; [constructor|].
  destruct (dict_get (op_id o) by_id) as [cb|] eqn:E; cbn; [|apply IH]. constructor; [by eapply dict_all_get|apply IH].
Qed.

Lemma attach_merged_all op ops (callbacks : list (TransferOp * Callable St)) d d' :
  Forall (λ e, P e.2) callbacks → dict_all d → _attach_merged_callbacks op ops callbacks d = Ok d' → dict_all d'.
Proof.
  intros Hc Hd. pose proof (spans_all _ 0 ops (by_op_id_all _ Hc)) as Hs. unfold _attach_merged_callbacks.
  destruct callbacks as [|c0 l]; [by intros [= <-]|]. set (merged := spans_from _ 0 ops) in *. case_match.
  - destruct merged as [|[cb sp] merged]; [done|]. intros [= <-]. apply Forall_cons in Hs as [Hs _]. by apply dict_all_set.
  - intros (x & Hx & [= <-])%result_bind_inv. apply dict_all_set; [by eapply combined_all|done].
Qed.

(** The buckets hold callbacks of the members. *)
Definition sorted_all (l : list (TransferType * list (TransferOp * Callable St))) : Prop :=
  ∀ ty cbs, dict_get ty l = Some cbs → Forall (λ e, P e.2) cbs.
Definition buckets_all (bk : Buckets (St := St)) : Prop := sorted_all (callbacks_by_type bk) ∧ sorted_all (swa_callbacks_by_type bk).

Lemma push_all ty (x : option (TransferOp * Callable St)) l :
  (∀ e, x = Some e → P e.2) → sorted_all l → sorted_all (push_some ty x l).
Proof.
  intros Hx Hl. destruct x as [e|]; [|done]. intros ty' cbs. cbn. unfold push. rewrite dict_get_alter. case_decide; [|by apply Hl].
  destruct (dict_get ty' l) as [cbs'|] eqn:E; intros [= <-]. apply Forall_app. split; [by apply (Hl ty')|constructor; [by apply Hx|done]].
Qed.

Lemma bucket_all_all d bk bk' ops : dict_all d → buckets_all bk → bucket_all d bk ops = Ok bk' → buckets_all bk'.
Proof.
  intros Hd. revert bk. induction ops as [|o ops IH]; intros bk Hb; cbn [bucket_all]; [by intros [= <-]|].
  intros (b1 & E & Hrest)%result_bind_inv. apply (IH b1); [|done]. unfold bucket_op in E.
  destruct (bool_decide _); [by injection E as <-|]. destruct (negb _); [done|]. injection E as <-.
  assert (∀ e : TransferOp * Callable St, (λ c, (o, c)) <$> dict_get (op_id o) d = Some e → P e.2) as He.
  { intros e. destruct (dict_get (op_id o) d) as [cb|] eqn:Ecb; [|done]. intros [= <-]. by eapply dict_all_get. }
  destruct (is_swa o); split; cbn; try apply Hb; apply push_all; auto; apply Hb.
Qed.

Lemma bucket_forall ty l : sorted_all l → Forall (λ e, P e.2) (bucket ty l).
Proof. intros Hl. unfold bucket. destruct (dict_get ty l) eqn:E; [by apply (Hl ty)|constructor]. Qed.

(** The local objects of a merge. *)
Definition batch_all (gid next : Z) (b : Batch St) : Prop := same_graph gid next (b_build b) ∧ dict_all (b_new b) ∧ dict_all (b_local b).

Lemma keeps_in_build {A} gid next (m : Build A) : keeps (same_graph gid next) m → keeps (batch_all gid next) (in_build m).
Proof. intros Hm b (Hg & Hn & Hl). unfold in_build. specialize (Hm _ Hg). destruct (m (b_build b)) as [[a|x] g]; by split. Qed.

Lemma merge_lane_ids (ops : list TransferOp) (swa : bool) ty gid (callbacks : list (TransferOp * Callable St)) d i :
  Forall (λ e, P e.2) callbacks → dict_all d →
  let '(r, i') := (if swa then _merge_swa_ops ops ty gid callbacks d else _merge_ops ops ty gid callbacks d : M Ids _) i in
  _next_graph_id i' = _next_graph_id i ∧ ∀ x, r = Ok x → dict_all x.2.
Proof.
  intros Hc Hd. assert (∀ (r : result (option TransferOp * list (Z * Callable St))) (o : M Ids TransferOp),
    (∀ i, _next_graph_id (o i).2 = _next_graph_id i) →
    let '(r, i') := (op ← o; d ← lift_result (_attach_merged_callbacks op ops callbacks d); mret (Some op, d)) i in
    _next_graph_id i' = _next_graph_id i ∧ ∀ x, r = Ok x → dict_all x.2) as Hend.
  { intros _ o Ho. rewrite M_bind_run. specialize (Ho i). destruct (o i) as [[op|x] i1]; [|done]. rewrite M_bind_run. unfold lift_result.
    destruct (_attach_merged_callbacks op ops callbacks d) as [d'|x] eqn:E; [|done]. split; [done|]. intros x [= <-].
    by eapply attach_merged_all. }
  destruct swa; unfold _merge_swa_ops, _merge_ops; (destruct ops as [|o0 ops']; [split; [done|by intros x [= <-]]|]);
    (rewrite M_bind_run; destruct (existsb _ _); [done|]); cbn [mret M_ret];
    (rewrite M_bind_run; destruct (existsb _ _); [done|]); cbn [mret M_ret]; rewrite M_bind_run; unfold lift_result at 1.
  - destruct (merged_tails ty (o0 :: ops')) as [tails|x]; [|done]. apply (Hend (Raise KeyError)). intros j. apply op_init_ids.
  - destruct (merged_hashes (o0 :: ops')) as [hashes|x]; [|done]. apply (Hend (Raise KeyError)). intros j. apply op_init_ids.
Qed.

(** Storing the answer of a lane. *)
Lemma store_lane gid next (local : bool) (m : M Ids (option TransferOp * list (Z * Callable St))) (b : Batch St) :
  batch_all gid next b →
  (let '(r, i') := m (b_build b).1 in _next_graph_id i' = _next_graph_id (b_build b).1 ∧ ∀ x, r = Ok x → dict_all x.2) →
  batch_all gid next (('(op, d) ← in_build (on_ids m); b ← get_state;
    put_state (if local then mkBatch (b_build b) (b_new b) d else mkBatch (b_build b) d (b_local b)) ;; mret op) b).2.
Proof.
  intros ([Hg Hn] & Hnew & Hl) Hm. rewrite M_bind_run. unfold in_build, on_ids. destruct (m (b_build b).1) as [[[op d]|x] i'], Hm as [Hi Hx].
  - rewrite M_bind_run. cbn [get_state]. rewrite M_bind_run. cbn [put_state mret M_ret snd]. specialize (Hx _ eq_refl).
    destruct local; (split; [split; cbn; [done|congruence]|by split]).
  - split; [split; cbn; [done|congruence]|by split].
Qed.

Lemma keeps_state {A} (I : Batch St → Prop) (m : M (Batch St) A) : (∀ b, I b → I (m b).2) → keeps I m.
Proof. intros Hm b Hb. specialize (Hm b Hb). by destruct (m b) as [[a|x] b']. Qed.

Lemma keeps_merge_lane gid next local swa ty bk : buckets_all bk → keeps (batch_all gid next) (merge_lane local swa ty bk).
Proof.
  intros [Hb Hs]. apply keeps_state. intros b Hall. unfold merge_lane. rewrite M_bind_run. cbn [get_state].
  apply (store_lane gid next local _ b Hall). destruct Hall as (_ & Hnew & Hl).
  assert (dict_all (if local then b_local b else b_new b)) as Hd by by destruct local.
  destruct swa; [apply (merge_lane_ids _ true)|apply (merge_lane_ids _ false)]; by try apply bucket_forall.
Qed.

Lemma keeps_merge_get gid next bk lw dp counter : buckets_all bk → keeps (batch_all gid next) (merge_get bk lw dp counter).
Proof.
  intros Hb. unfold merge_get. do 6 (apply keeps_bind; [by apply keeps_merge_lane|intros ?]). destruct lw.
  - apply keeps_bind; [apply keeps_in_build, keeps_layerwise_graph|]. intros op b (Hg & Hn & Hl). rewrite M_bind_run. cbn [get_state].
    rewrite M_bind_run. unfold lift_result. destruct (_attach_combined_callback op (layerwise_callbacks bk) (b_new b)) as [d|x] eqn:E; [|done].
    rewrite M_bind_run. cbn [put_state]. split; [done|]. split; [|done]. cbn. eapply attach_combined_all; [|exact Hn|exact E].
    unfold layerwise_callbacks. destruct Hb as [Hb Hs].
    repeat (apply Forall_app; split); apply Forall_fmap; by apply bucket_forall.
  - apply keeps_in_build, keeps_get_graph.
Qed.

Lemma keeps_merge_put gid next bk dp : buckets_all bk → keeps (batch_all gid next) (merge_put bk dp).
Proof.
  intros Hb. unfold merge_put. do 6 (apply keeps_bind; [by apply keeps_merge_lane|intros ?]). apply keeps_in_build, keeps_put_graph.
Qed.

Lemma empty_buckets_all : buckets_all empty_buckets.
Proof. split; intros ty cbs; cbn; repeat case_decide; intros [= <-]; constructor. Qed.

Lemma graph_init_run i : TransferOpGraph_init i = (Ok (mkGraph (_next_graph_id i) [] ∅ ∅ [] []), mkIds (_next_op_id i) (_next_graph_id i + 1)).
Proof. reflexivity. Qed.

(** The batch graph is new, and its callbacks come from those of the members. *)
Lemma merge_frame graphs ends d lw counter i :
  dict_all d →
  let '(r, i') := merge_to_batch_graph graphs ends d lw counter i in
  _next_graph_id i <= _next_graph_id i' ∧
  ∀ g e dict, r = Ok (g, e, dict) → graph_id g = _next_graph_id i ∧ _next_graph_id i < _next_graph_id i' ∧ dict_all dict.
Proof.
  intros Hd. unfold merge_to_batch_graph. destruct graphs as [|g0 graphs].
  { rewrite M_bind_run, graph_init_run. cbn. split; [lia|]. intros g e dict [= <- <- <-]. cbn. split_and!; [done|lia|constructor]. }
  rewrite M_bind_run. destruct (negb _); [cbn; split; [lia|done]|]. cbn [mret M_ret].
  rewrite M_bind_run, graph_init_run, M_bind_run. unfold lift_result at 1. destruct (bucket_all d empty_buckets _) as [bk|x] eqn:Eb; [|cbn; split; [lia|done]].
  apply bucket_all_all in Eb; [|done|apply empty_buckets_all]. rewrite M_bind_run. unfold lift_result at 1.
  destruct (check_kinds _ _ _) as [[]|x]; [|cbn; split; [lia|done]]. rewrite M_bind_run. cbn [get_state].
  set (b0 := mkBatch _ _ _). set (m := if _bucket_has get_types bk then _ else _).
  assert (keeps (batch_all (_next_graph_id i) (_next_graph_id i + 1)) m) as Hm.
  { unfold m. destruct (_bucket_has get_types bk); [by apply keeps_merge_get|]. destruct (_bucket_has put_types bk); [by apply keeps_merge_put|apply keeps_ret]. }
  assert (batch_all (_next_graph_id i) (_next_graph_id i + 1) b0) as H0 by (split; [by split|by split; constructor]).
  specialize (Hm b0 H0). destruct (m b0) as [r b]. rewrite M_bind_run. cbn [put_state]. rewrite M_bind_run. unfold lift_result.
  destruct r as [e|x]; destruct Hm as ([Hg Hn] & Hnew & _); cbn; rewrite Hn; (split; [lia|]); [|done].
  intros g e' dict [= <- <- <-]. split_and!; [done|lia|done].
Qed.
End batch.
End BatchFrame.
