(* ===== verification/TaskLife.v ===== *)
(** * TaskLife: the table of tasks over a history

    Proofs about [TaskManager].  The cache engine is any [CacheService] that hands
    out fresh graph ids ([CacheServiceLaws]); [traced] instruments it with a log of
    the plans it makes and of the plans that are settled (completed or aborted),
    without changing what it does.  [Inv] is the invariant of the table: live tasks
    are exactly the ones completions are routed to, and every plan is settled at
    most once.  [manager_step] are the steps of a history: all calls of a client,
    with the polls they make, and the expiry of entries. *)

From S2P Require Import Prelude PyFloat Block Transfer GraphBuild BatchMerge CacheEngine GlobalCache CompletionAgg TaskManager.
Import GraphBuild.GraphBuild BatchMerge.BatchMerge GlobalCache.GlobalCache CompletionAgg.CompletionAgg TaskManager.TaskManager.
Local Open Scope Z_scope.

Module TaskLife.

(** ** What the task manager relies on *)

(** [get] and [put] answer with a graph whose id was never used, and a handle that was not used yet. *)
Definition fresh_answer {C} (i : Ids) (answer : result (Planned C) * (C * Ids)) : Prop :=
  let '(r, (_, i')) := answer in
  _next_graph_id i <= _next_graph_id i' ∧
  match r with
  | Ok p => _next_graph_id i <= graph_id (pl_graph p) < _next_graph_id i' ∧ _consumed (pc_handle (pl_callback p)) = false
  | Raise _ => True
  end.

Class CacheServiceLaws (C : Type) `{!CacheService C} : Prop := {
  cs_get_fresh tokens mask slots dp s namespace swa_aware c i : fresh_answer i (cs_get tokens mask slots dp s namespace swa_aware (c, i));
  cs_put_fresh tokens mask slots dp namespace c i : fresh_answer i (cs_put tokens mask slots dp namespace (c, i));
}.

(** ** Instrumentation *)

(** Plans are numbered in the order they are made; [settled] lists the ones that were completed ([true]) or aborted. *)
Record Trace : Type := mkTrace {
  next_plan : Z;
  settled : list (Z * bool);
}.

Section instrument.
Context {C : Type}.

Definition untraced {A} (m : M C A) : M (C * Trace) A := λ s, let '(r, c) := m s.1 in (r, (c, s.2)).

Definition log_settle (p : Z) (completed : bool) (m : M C unit) : M (C * Trace) unit := λ s,
  let '(r, c) := m s.1 in (r, (c, mkTrace (next_plan s.2) (settled s.2 ++ [(p, completed)]))).

Definition trace_handle (p : Z) (h : TransferPlanHandle C) : TransferPlanHandle (C * Trace) :=
  mkHandle (log_settle p true (_complete h)) (log_settle p false (_abort h)) (_consumed h).

Definition trace_callable (cb : Callable C) : Callable (C * Trace) :=
  match cb with
  | Plain f => Plain (untraced f)
  | CompletionAwareCallback f => CompletionAwareCallback (λ completed, untraced (f completed))
  end.

Definition trace_planned (p : Z) (pl : Planned C) : Planned (C * Trace) :=
  mkPlanned (pl_graph pl) (pl_return_mask pl)
    (mkPlanCallback (trace_handle p (pc_handle (pl_callback pl))) (λ c, pc_deferred_inserts (pl_callback pl) c.1))
    ((λ e, (e.1, trace_callable e.2)) <$> pl_op_callback_dict pl) (pl_task_end_op_id pl).

(** A plan that is made gets the next number. *)
Definition trace_plan (m : M (C * Ids) (Planned C)) : M ((C * Trace) * Ids) (Planned (C * Trace)) := λ w,
  let '(c, tr, i) := w in
  let '(r, (c, i)) := m (c, i) in
  match r with
  | Ok pl => (Ok (trace_planned (next_plan tr) pl), (c, mkTrace (next_plan tr + 1) (settled tr), i))
  | Raise x => (Raise x, (c, tr, i))
  end.

#[export] Instance traced `{!CacheService C} : CacheService (C * Trace) := {|
  cs_get tokens mask slots dp s namespace swa_aware := trace_plan (cs_get tokens mask slots dp s namespace swa_aware);
  cs_put tokens mask slots dp namespace := trace_plan (cs_put tokens mask slots dp namespace);
  cs_reset := untraced cs_reset;
|}.
End instrument.

(** ** The invariant *)

Section invariant.
Context {C : Type}.
Implicit Types (t : KVTask (C * Trace)) (m : KVTaskManager (C * Trace)) (tr : Trace) (pc : PlanCallback (C * Trace)).

Definition settled_plans tr : list Z := (settled tr).*1.

(** [pc] is the handle of plan [p]: it is consumed exactly when the plan is settled. *)
Definition carries tr pc (p : Z) : Prop :=
  0 <= p < next_plan tr ∧ (_consumed (pc_handle pc) = true ↔ p ∈ settled_plans tr) ∧ ∃ h : TransferPlanHandle C, pc_handle pc = trace_handle p h.

Definition as_handle (cb : TaskCallback (C * Trace)) : option (PlanCallback (C * Trace)) :=
  match cb with OneCallback p => Some p | _ => None end.

Definition handles_of (cb : TaskCallback (C * Trace)) : list (PlanCallback (C * Trace)) := omap as_handle (callbacks_of cb).

(** An op callback settles no plan. *)
Definition harmless (cb : Callable (C * Trace)) : Prop := ∀ completed s, (invoke_op_callback cb completed s).2.2 = s.2.

Definition ended t : bool := bool_decide (status t = COMPLETED) || bool_decide (status t = FAILED).

Definition batched t : bool := bool_decide (task_type t = BATCH_GET) || bool_decide (task_type t = BATCH_PUT).

(** A task of the table: [ps] are the plans it holds, [exempt] a task that was just created. *)
Record task_ok (exempt : option Z) tr (routes : gmap Z Z) (id : Z) t (ps : list Z) : Prop := {
  ok_id : task_id t = id;
  ok_plans : Forall2 (carries tr) (handles_of (callback t)) ps;
  ok_ops : Forall (λ e, harmless e.2) (op_callback_dict t);
  ok_ended : ended t = true → graph t = None ∧ task_end_op_finished t = true;
  ok_routed : ended t = false → ∃ g, graph t = Some g ∧ routes !! graph_id g = Some id;
  ok_detached : is_completed t = true → callback t = NoCallback;
  ok_shape : is_completed t = false →
    if batched t then ∃ pcs, callback t = CallbackList (OneCallback <$> pcs) else ∃ pc, callback t = OneCallback pc;
  ok_nonempty g : exempt ≠ Some id → is_completed t = false → batched t = false → graph t = Some g → 0 < num_ops g;
}.

(** The plans of different tasks differ. *)
Definition plans_disjoint (held : gmap Z (list Z)) : Prop :=
  map_Forall (λ _ ps, NoDup ps) held ∧
  ∀ id1 id2 ps1 ps2 p, held !! id1 = Some ps1 → held !! id2 = Some ps2 → p ∈ ps1 → p ∈ ps2 → id1 = id2.

(** What has been settled was planned, and settled once. *)
Definition trace_ok tr : Prop := NoDup (settled_plans tr) ∧ Forall (λ p, 0 <= p < next_plan tr) (settled_plans tr) ∧ 0 <= next_plan tr.

(** Completions are routed to the task whose graph they report on; only an expired task can be missing. *)
Definition routes_ok (gone : gset Z) (next_graph : Z) (table : gmap Z (KVTask (C * Trace))) (routes : gmap Z Z) : Prop :=
  ∀ g id, routes !! g = Some id → g < next_graph ∧ (id ∉ gone → is_Some (table !! id)) ∧
    ∀ t, table !! id = Some t → ∃ gr, graph t = Some gr ∧ graph_id gr = g.

(** No plan is lost: it is settled, or some task of the table holds it. *)
Definition none_lost tr (held : gmap Z (list Z)) (table : gmap Z (KVTask (C * Trace))) : Prop :=
  ∀ p, 0 <= p < next_plan tr → p ∈ settled_plans tr ∨ ∃ id ps, held !! id = Some ps ∧ p ∈ ps ∧ is_Some (table !! id).

Definition trace_of m : Trace := (cache_engine m).2.

(** With [careful] also that no plan is lost, which holds as long as the client does not cancel a launched task or reset. *)
Record Inv (careful : bool) (gone : gset Z) (exempt : option Z) m : Prop := {
  inv_trace : trace_ok (trace_of m);
  inv_routes : routes_ok gone (_next_graph_id (ids m)) (tasks m) (graph_to_task m);
  inv_held : ∃ held, plans_disjoint held ∧
    (∀ id t, tasks m !! id = Some t → ∃ ps, held !! id = Some ps ∧ task_ok exempt (trace_of m) (graph_to_task m) id t ps) ∧
    (careful = true → none_lost (trace_of m) held (tasks m));
}.
End invariant.

(** ** Settling plans *)

Section settling.
Context {C : Type}.
Implicit Types (t : KVTask (C * Trace)) (tr : Trace) (pc : PlanCallback (C * Trace)) (ps : list Z).

(** From [tr] to [tr'] some of the plans [ps] that were open are settled, and nothing else happens. *)
Definition settles ps tr tr' : Prop :=
  next_plan tr' = next_plan tr ∧
  ∃ l, settled tr' = settled tr ++ l ∧ NoDup l.*1 ∧ ∀ p, p ∈ l.*1 → p ∈ ps ∧ p ∉ settled_plans tr.

Lemma settles_refl ps tr : settles ps tr tr.
Proof. split; [done|]. exists []. rewrite app_nil_r. split_and!; [done|constructor|]. by intros p ?%elem_of_nil. Qed.

Lemma settles_trans ps qs tr tr' tr'' : settles ps tr tr' → settles qs tr' tr'' → settles (ps ++ qs) tr tr''.
Proof.
  intros (N1 & l & E1 & D1 & H1) (N2 & k & E2 & D2 & H2). split; [congruence|]. exists (l ++ k).
  assert (settled_plans tr' = settled_plans tr ++ l.*1) as Es by (unfold settled_plans; by rewrite E1, fmap_app).
  rewrite E2, E1, app_assoc, fmap_app. split_and!; [done| |].
  - apply NoDup_app. split_and!; [done| |done]. intros p Hp Hq. apply H2 in Hq as [_ Hn]. apply Hn. rewrite Es. set_solver.
  - intros p [Hp|Hp]%elem_of_app; [apply H1 in Hp|apply H2 in Hp; rewrite Es in Hp]; set_solver.
Qed.

Lemma settles_mono ps tr tr' p : settles ps tr tr' → p ∈ settled_plans tr → p ∈ settled_plans tr'.
Proof. intros (_ & l & E & _) Hp. unfold settled_plans in *. rewrite E, fmap_app. set_solver. Qed.

Lemma settles_trace_ok ps tr tr' : settles ps tr tr' → Forall (λ p, 0 <= p < next_plan tr) ps → trace_ok tr → trace_ok tr'.
Proof.
  intros (N & l & E & D & Hl) Hps (Hd & Hb & Hn). unfold trace_ok, settled_plans in *. rewrite E, fmap_app, N. split_and!; [| |done].
  - apply NoDup_app. split_and!; [done| |done]. intros p Hp Hq. by apply Hl in Hq as [_ Hq].
  - apply Forall_app. split; [done|]. apply Forall_forall. intros p [Hp _]%Hl. by rewrite Forall_forall in Hps; apply Hps.
Qed.

(** A plan that is not among those settled keeps its handle. *)
Lemma carries_settles ps tr tr' pc p : settles ps tr tr' → p ∉ ps → carries tr pc p → carries tr' pc p.
Proof.
  intros (N & l & E & _ & Hl) Hp (Hb & Hc & Hh). split; [lia|]. split; [|done]. rewrite Hc. unfold settled_plans. rewrite E, fmap_app, elem_of_app.
  split; [by left|]. intros [?|Hin]; [done|]. by apply Hl in Hin as [? _].
Qed.

Lemma carries_all ps tr tr' pcs qs :
  settles ps tr tr' → (∀ p, p ∈ qs → p ∉ ps) → Forall2 (carries tr) pcs qs → Forall2 (carries (C := C) tr') pcs qs.
Proof.
  intros Hs Hd Hf. apply (Forall2_impl (λ pc p, carries tr pc p ∧ p ∈ qs)); [|intros pc p [Hc Hin]; apply (carries_settles ps tr); auto].
  clear Hd. induction Hf as [|pc p pcs qs Hc Hf IH]; constructor; [set_solver|]. eapply Forall2_impl; [exact IH|]. set_solver.
Qed.

(** One handle: [call] chooses between completing and aborting. *)
Lemma use_callback_settles (call : bool) pc p c tr :
  carries tr pc p →
  ∃ r pc' c' tr', use_callback (if call then handle_call else handle_abort) pc (c, tr) = (r, (OneCallback pc', (c', tr'))) ∧
    settles [p] tr tr' ∧ p ∈ settled_plans tr' ∧ carries (C := C) tr' pc' p.
Proof.
  intros (Hb & Hc & h & Hh). unfold use_callback.
  assert ((if call then handle_call else handle_abort) (pc_handle pc, (c, tr)) =
    if _consumed (pc_handle pc) then (Ok tt, (pc_handle pc, (c, tr)))
    else let '(r, s) := log_settle p call (if call then _complete h else _abort h) (c, tr) in (r, (consume (pc_handle pc), s))) as ->.
  { destruct call; cbn; rewrite Hh; reflexivity. }
  destruct (_consumed (pc_handle pc)) eqn:Ec.
  - eexists _, _, _, _. split; [reflexivity|]. refine (conj (settles_refl _ _) (conj (proj1 Hc eq_refl) _)).
    unfold carries. cbn. rewrite Ec. eauto.
  - assert (p ∉ settled_plans tr) as Hn by (rewrite <- Hc; done).
    unfold log_settle. cbn [fst snd]. destruct ((if call then _complete h else _abort h) c) as [r c'].
    eexists _, _, _, _. split; [reflexivity|]. unfold carries, settles, settled_plans. cbn. rewrite fmap_app. cbn. split_and!.
    + done.
    + exists [(p, call)]. cbn. split_and!; [done|apply NoDup_singleton|]. intros q ->%list_elem_of_singleton. split; [left|done].
    + set_solver.
    + lia. + lia. + set_solver.
    + exists (mkHandle (_complete h) (_abort h) true). by rewrite Hh.
Qed.

Lemma run_callbacks_settles pcs ps c tr :
  Forall2 (carries tr) pcs ps → NoDup ps →
  ∃ failed pcs' c' tr', run_callbacks (OneCallback <$> pcs) (c, tr) = (failed, (OneCallback <$> pcs', (c', tr'))) ∧
    settles ps tr tr' ∧ Forall (λ p, p ∈ settled_plans tr') ps ∧ Forall2 (carries (C := C) tr') pcs' ps.
Proof.
  revert ps c tr. induction pcs as [|pc pcs IH]; intros ps c tr Hf Hn.
  { apply Forall2_nil_inv_l in Hf as ->. exists false, [], c, tr. split_and!; [done|apply settles_refl|constructor..]. }
  apply Forall2_cons_inv_l in Hf as (p & ps' & Hc & Hf & ->). apply NoDup_cons in Hn as [Hp Hn].
  destruct (use_callback_settles true pc p c tr Hc) as (r & pc1 & c1 & tr1 & E1 & S1 & M1 & C1).
  destruct (IH ps' c1 tr1) as (failed & pcs' & c2 & tr2 & E2 & S2 & M2 & C2); [apply (carries_all [p] tr); [done|by intros q Hq ->%list_elem_of_singleton|done]|done|].
  exists (negb (is_ok r) || failed), (pc1 :: pcs'), c2, tr2. cbn [fmap list_fmap run_callbacks run_callback]. rewrite E1. cbn [fmap list_fmap] in E2. rewrite E2.
  split_and!; [done|by apply (settles_trans [p] ps' tr tr1)| |]; constructor; [by eapply settles_mono|done| |done].
  by apply (carries_settles ps' tr1).
Qed.

Lemma abort_callbacks_settles pcs ps c tr :
  Forall2 (carries tr) pcs ps → NoDup ps →
  ∃ r pcs' c' tr', abort_callbacks (OneCallback <$> pcs) (c, tr) = (r, (OneCallback <$> pcs', (c', tr'))) ∧
    settles ps tr tr' ∧ Forall2 (carries (C := C) tr') pcs' ps ∧ (is_ok r = true → Forall (λ p, p ∈ settled_plans tr') ps).
Proof.
  revert ps c tr. induction pcs as [|pc pcs IH]; intros ps c tr Hf Hn.
  { apply Forall2_nil_inv_l in Hf as ->. exists (Ok tt), [], c, tr. split_and!; [done|apply settles_refl|constructor..]. }
  apply Forall2_cons_inv_l in Hf as (p & ps' & Hc & Hf & ->). apply NoDup_cons in Hn as [Hp Hn].
  destruct (use_callback_settles false pc p c tr Hc) as (r & pc1 & c1 & tr1 & E1 & S1 & M1 & C1).
  assert (Forall2 (carries tr1) pcs ps') as Hf1 by (apply (carries_all [p] tr); [done|by intros q Hq ->%list_elem_of_singleton|done]).
  cbn [fmap list_fmap abort_callbacks abort_callback]. rewrite E1. destruct r as [[]|x].
  - destruct (IH ps' c1 tr1 Hf1 Hn) as (r & pcs' & c2 & tr2 & E2 & S2 & C2 & M2). cbn [fmap list_fmap] in E2. rewrite E2.
    exists r, (pc1 :: pcs'), c2, tr2. split_and!; [done|by apply (settles_trans [p] ps' tr tr1)| |].
    + constructor; [by apply (carries_settles ps' tr1)|done].
    + intros Hr. constructor; [by eapply settles_mono|by apply M2].
  - exists (Raise x), (pc1 :: pcs), c1, tr1. split_and!; [done| |by constructor|done].
    eapply (settles_trans [p] ps' tr tr1); [done|apply settles_refl].
Qed.
End settling.

(** ** The table, one task at a time *)

Section table.
Context {C : Type}.
Implicit Types (t : KVTask (C * Trace)) (m : KVTaskManager (C * Trace)) (tr : Trace) (careful : bool) (gone : gset Z) (exempt : option Z).

(** Tasks that differ only in results and flags. *)
Record alike t t' : Prop := {
  al_id : task_id t' = task_id t;
  al_type : task_type t' = task_type t;
  al_status : status t' = status t;
  al_graph : graph t' = graph t;
  al_callback : callback t' = callback t;
  al_ops : op_callback_dict t' = op_callback_dict t;
  al_finished : task_end_op_finished t = true → task_end_op_finished t' = true;
}.

Lemma alike_refl t : alike t t.
Proof. by split. Qed.

Lemma alike_trans t t' t'' : alike t t' → alike t' t'' → alike t t''.
Proof. intros [] []. split; try congruence. auto. Qed.

Lemma alike_flags t : alike t (with_failed t) ∧ alike t (with_end_finished t) ∧ alike t (with_returned t) ∧ ∀ mask, alike t (with_mask mask t).
Proof. by repeat split. Qed.

Lemma alike_results t : (∀ r, alike t (with_full_results r t)) ∧ ∀ r, alike t (with_swa_results r t).
Proof. by repeat split. Qed.

Lemma alike_finalize tpb c t : alike t (_finalize_prefetch_return_mask tpb c t).
Proof.
  unfold _finalize_prefetch_return_mask. destruct (report_len c t); [|apply alike_refl].
  unfold _narrow_return_mask_to_prefix_blocks. destruct (return_mask t); [apply alike_flags|apply alike_refl].
Qed.

Lemma alike_note c t : alike t (note_results c t).
Proof.
  unfold note_results, note_swa_load, note_full_load.
  repeat match goal with |- context [if ?b then _ else _] => destruct b end;
    try apply alike_refl; try apply alike_flags; try apply alike_results.
  all: by split.
Qed.

Lemma task_ok_alike exempt tr routes id t t' ps : alike t t' → task_ok exempt tr routes id t ps → task_ok exempt tr routes id t' ps.
Proof.
  intros [Ei Et Es Eg Ec Eo Ef] [Hid Hp Ho He Hr Hd Hs Hn].
  assert (ended t' = ended t) as E1 by (unfold ended; by rewrite Es).
  assert (is_completed t' = is_completed t) as E2 by (unfold is_completed; by rewrite Es).
  assert (batched t' = batched t) as E3 by (unfold batched; by rewrite Et).
  split; rewrite ?E1, ?E2, ?E3, ?Eg, ?Ec, ?Eo, ?Ei; try done.
  intros E. destruct (He E) as [? ?]. auto.
Qed.

(** One task changes, and keeps its graph id. *)
Lemma inv_update careful gone exempt m m' id t t' :
  Inv careful gone exempt m → tasks m !! id = Some t → tasks m' = <[id := t']> (tasks m) → graph_to_task m' = graph_to_task m →
  _next_graph_id (ids m) <= _next_graph_id (ids m') → trace_of m' = trace_of m →
  (∀ g, graph t = Some g → ∃ g', graph t' = Some g' ∧ graph_id g' = graph_id g) →
  (∀ ps, task_ok exempt (trace_of m) (graph_to_task m) id t ps → task_ok exempt (trace_of m) (graph_to_task m) id t' ps) →
  Inv careful gone exempt m'.
Proof.
  intros [Ht Hr (held & Hd & Hh & Hl)] Eid Et Er Ei Etr Hg Hok. split; rewrite ?Et, ?Er, ?Etr; [done| |].
  - intros g k Ek. destruct (Hr g k Ek) as (Hlt & Hgo & Hk). split; [lia|]. split.
    { intros Hk'. rewrite lookup_insert_is_Some. destruct (decide (id = k)); auto. }
    intros u [[<- <-]|[Hne Eu]]%lookup_insert_Some; [|by apply Hk]. destruct (Hk t Eid) as (gr & Egr & <-). by apply Hg.
  - exists held. split_and!; [done| |].
    + intros k u [[<- <-]|[Hne Eu]]%lookup_insert_Some; [|by apply Hh].
      destruct (Hh id t Eid) as (ps & Eps & Hps). eauto.
    + intros Hc p Hp. destruct (Hl Hc p Hp) as [?|(k & ps & Ek & Hin & Hk)]; [by left|right]. exists k, ps. split_and!; [done..|].
      rewrite lookup_insert_is_Some. destruct (decide (id = k)); auto.
Qed.

(** A task of another world: the cache engine changed without settling plans. *)
Lemma inv_world careful gone exempt m m' :
  Inv careful gone exempt m → tasks m' = tasks m → graph_to_task m' = graph_to_task m →
  _next_graph_id (ids m) <= _next_graph_id (ids m') → trace_of m' = trace_of m → Inv careful gone exempt m'.
Proof.
  intros [Ht Hr Hh] Et Er Ei Etr. split; rewrite ?Et, ?Er, ?Etr; [done| |done]. intros g k Ek. destruct (Hr g k Ek) as [Hlt Hk]. split; [lia|done].
Qed.

Definition spent t : Prop := Forall (λ pc, _consumed (pc_handle pc) = true) (handles_of (callback t)).

Lemma spent_settled tr t ps :
  spent t → Forall2 (carries tr) (handles_of (callback t)) ps → Forall (λ p, p ∈ settled_plans tr) ps.
Proof.
  unfold spent. intros Hs Hf. induction Hf as [|pc p pcs ps Hc Hf IH]; [constructor|].
  apply Forall_cons in Hs as [Hpc Hs]. constructor; [by apply Hc|auto].
Qed.

Lemma settled_spent tr t ps :
  Forall2 (carries tr) (handles_of (callback t)) ps → Forall (λ p, p ∈ settled_plans tr) ps → spent t.
Proof.
  unfold spent. intros Hf. induction Hf as [|pc p pcs ps Hc Hf IH]; intros Hs; constructor; apply Forall_cons in Hs as [Hp Hs]; [by apply Hc|auto].
Qed.

(** A task leaves the table with its route. *)
Lemma inv_drop careful gone exempt m m' id t :
  Inv careful gone exempt m → tasks m !! id = Some t → (careful = true → spent t) →
  tasks m' = delete id (tasks m) →
  graph_to_task m' = match graph t with Some g => delete (graph_id g) (graph_to_task m) | None => graph_to_task m end →
  _next_graph_id (ids m) <= _next_graph_id (ids m') → trace_of m' = trace_of m → Inv careful gone exempt m'.
Proof.
  intros [Ht Hr (held & Hd & Hh & Hl)] Eid Hsp Et Er Ei Etr. destruct (Hh id t Eid) as (ps & Eps & Hps).
  assert (∀ g k, graph_to_task m' !! g = Some k → graph_to_task m !! g = Some k) as Hsub.
  { intros g k. rewrite Er. destruct (graph t); [by intros [_ ?]%lookup_delete_Some|done]. }
  split; rewrite ?Et, ?Etr; [done| |].
  - intros g k Ek. destruct (Hr g k (Hsub g k Ek)) as (Hlt & Hgo & Hk). split; [lia|].
    assert (k ≠ id) as Hne.
    { intros ->. destruct (Hk t Eid) as (gr & Egr & Eg). rewrite Er, Egr in Ek. apply lookup_delete_Some in Ek as [? _]. done. }
    rewrite lookup_delete_ne by done. done.
  - exists held. split_and!; [done| |].
    + intros k u [Hne Eu]%lookup_delete_Some. destruct (Hh k u Eu) as (qs & Eqs & [Hid Hp Ho He Hro Hde Hs Hn]). exists qs. split; [done|].
      split; try done. intros En. destruct (Hro En) as (g & Eg & Hg). exists g. split; [done|]. rewrite Er.
      destruct (graph t) as [gt|] eqn:Egt; [|done]. apply lookup_delete_Some. split; [|done]. intros Egg.
      destruct (ended t) eqn:Ent.
      * apply (ok_ended _ _ _ _ _ _ Hps) in Ent as [? _]. congruence.
      * apply (ok_routed _ _ _ _ _ _ Hps) in Ent as (gt' & ? & Hgt). simplify_eq. rewrite Egg in Hgt. congruence.
    + intros Hc p Hp. specialize (Hsp Hc). destruct (Hl Hc p Hp) as [?|(k & qs & Ek & Hin & Hk)]; [by left|].
      destruct (decide (k = id)) as [->|Hne].
      * left. simplify_eq. pose proof (spent_settled _ _ _ Hsp (ok_plans _ _ _ _ _ _ Hps)) as Hall.
        rewrite Forall_forall in Hall. auto.
      * right. exists k, qs. split_and!; [done..|]. by rewrite lookup_delete_ne.
Qed.

(** Some of the plans of a live task are settled. *)
Lemma inv_settle careful gone exempt m m' id t cb :
  Inv careful gone exempt m → tasks m !! id = Some t → is_completed t = false →
  tasks m' = <[id := with_callback cb t]> (tasks m) → graph_to_task m' = graph_to_task m → ids m' = ids m →
  (if batched t then ∃ pcs, cb = CallbackList (OneCallback <$> pcs) else ∃ pc, cb = OneCallback pc) →
  (∀ ps, Forall2 (carries (trace_of m)) (handles_of (callback t)) ps → NoDup ps →
     settles ps (trace_of m) (trace_of m') ∧ Forall2 (carries (trace_of m')) (handles_of cb) ps) →
  Inv careful gone exempt m'.
Proof.
  intros [Ht Hr (held & Hd & Hh & Hl)] Eid Hlive Et Er Ei Hshape Hset. destruct (Hh id t Eid) as (ps & Eps & Hps).
  pose proof (ok_plans _ _ _ _ _ _ Hps) as Hcar. destruct (Hset ps Hcar) as [Hs Hc]; [by apply (proj1 Hd id)|].
  assert (Forall (λ p, 0 <= p < next_plan (trace_of m)) ps) as Hbound.
  { apply Forall_forall. intros p [i Hi]%list_elem_of_lookup. by apply (Forall2_lookup_r _ _ _ _ _ Hcar) in Hi as (pc & _ & Hb & _). }
  split; rewrite ?Et, ?Er, ?Ei.
  - by eapply settles_trace_ok.
  - intros g k Ek. destruct (Hr g k Ek) as (Hlt & Hgo & Hk). split; [done|]. split.
    { intros Hk'. rewrite lookup_insert_is_Some. destruct (decide (id = k)); auto. }
    intros u [[<- <-]|[Hne Eu]]%lookup_insert_Some; [exact (Hk t Eid)|by apply Hk].
  - exists held. split_and!; [done| |].
    + intros k u [[<- <-]|[Hne Eu]]%lookup_insert_Some.
      * exists ps. split; [done|]. destruct Hps as [Hid Hp Ho He Hro Hde Hsh Hn]. split; try done.
        intros Hco. change (is_completed t = true) in Hco. congruence.
      * destruct (Hh k u Eu) as (qs & Eqs & [Hid Hp Ho He Hro Hde Hsh Hn]). exists qs. split; [done|]. split; try done.
        apply (carries_all ps (trace_of m)); [done| |done]. intros p Hq Hp'. apply Hne. by apply (proj2 Hd id k ps qs p).
    + intros Hca p Hp. rewrite (proj1 Hs) in Hp. destruct (Hl Hca p Hp) as [?|(k & qs & Ek & Hin & Hk)]; [left; by eapply settles_mono|right].
      exists k, qs. split_and!; [done..|]. rewrite lookup_insert_is_Some. destruct (decide (id = k)); auto.
Qed.

(** The task that was just created is like any other once it is seen not to be empty. *)
Lemma inv_unexempt careful gone id m :
  Inv careful gone (Some id) m →
  (∀ t g, tasks m !! id = Some t → is_completed t = false → graph t = Some g → 0 < num_ops g) → Inv careful gone None m.
Proof.
  intros [Ht Hr (held & Hd & Hh & Hl)] Hne. split; [done..|]. exists held. split_and!; [done| |done].
  intros k u Eu. destruct (Hh k u Eu) as (qs & Eqs & [Hid Hp Ho He Hro Hde Hsh Hn]). exists qs. split; [done|]. split; try done.
  intros g _ Hc Hb Hg. destruct (decide (k = id)) as [->|Hk]; [by eapply Hne|]. apply Hn; congruence.
Qed.

Lemma inv_exempt careful gone exempt m : Inv careful gone None m → Inv careful gone exempt m.
Proof.
  intros [Ht Hr (held & Hd & Hh & Hl)]. split; [done..|]. exists held. split_and!; [done| |done].
  intros k u Eu. destruct (Hh k u Eu) as (qs & Eqs & [Hid Hp Ho He Hro Hde Hsh Hn]). exists qs. split; [done|]. split; try done.
  intros g _. by apply Hn.
Qed.
End table.

(** ** Ending and releasing tasks *)

Section ending.
Context {C : Type} (deployment : Deployment).
Implicit Types (t : KVTask (C * Trace)) (m : KVTaskManager (C * Trace)) (careful : bool) (gone : gset Z) (exempt : option Z).
Abbreviation Nothing := (λ _ : KVTaskManager (C * Trace), False).

Definition at_task (id : Z) (P : KVTask (C * Trace) → Prop) m : Prop := ∃ t, tasks m !! id = Some t ∧ P t.
Definition live t : Prop := is_completed t = false.
(** The task is completed, or gone. *)
Definition over (id : Z) m : Prop := ∀ t, tasks m !! id = Some t → is_completed t = true.

Lemma task_of_triple (I : KVTaskManager (C * Trace) → Prop) id (P : KVTaskManager (C * Trace) → Prop) :
  (∀ m, P m → I m) → triple I P (task_of id) (λ t m, P m ∧ tasks m !! id = Some t).
Proof. intros HI m Hm. unfold task_of. destruct (tasks m !! id) eqn:E; [done|auto]. Qed.

Lemma bind_assoc_run {St A B D} (op : M St A) (f : A → M St B) (k : B → M St D) s :
  ((op ≫= f) ≫= k) s = (op ≫= λ a, f a ≫= k) s.
Proof. unfold mbind, M_bind. by destruct (op s) as [[a|x] s']. Qed.

Lemma alter_present {A} (f : A → A) (id : Z) (x : A) (T : gmap Z A) : T !! id = Some x → alter f id T = <[id := f x]> T.
Proof.
  intros E. apply map_eq. intros k. destruct (decide (id = k)) as [<-|Hk].
  - by rewrite lookup_alter_eq, E, lookup_insert_eq.
  - by rewrite lookup_alter_ne, lookup_insert_ne.
Qed.

Lemma alter_absent {A} (f : A → A) (id : Z) (T : gmap Z A) : T !! id = None → alter f id T = T.
Proof.
  intros E. apply map_eq. intros k. destruct (decide (id = k)) as [<-|Hk]; [by rewrite lookup_alter_eq, E|by rewrite lookup_alter_ne].
Qed.

Lemma with_tasks_id m : with_tasks id m = m.
Proof. by destruct m. Qed.

(** A benign change keeps the invariant, and the properties of the task that do not look at the flags. *)
Lemma alter_alike careful gone exempt id f m :
  (∀ t, alike t (f t)) → Inv careful gone exempt m → Inv careful gone exempt (with_tasks (alter f id) m).
Proof.
  intros Hf Hi. destruct (tasks m !! id) as [t|] eqn:Et.
  - eapply (inv_update _ _ _ m _ id t (f t)); try done; [cbn; by apply alter_present| |].
    + intros g Eg. exists g. split; [|done]. by rewrite (al_graph _ _ (Hf t)).
    + intros ps. by apply task_ok_alike.
  - eapply (inv_world _ _ _ m); [done|cbn; by apply alter_absent|done..].
Qed.

Lemma at_alter id (P Q : KVTask (C * Trace) → Prop) f m :
  at_task id P m → (∀ t, P t → Q (f t)) → at_task id Q (with_tasks (alter f id) m).
Proof. intros (t & Et & Ht) Hf. exists (f t). split; [|by apply Hf]. cbn. by rewrite lookup_alter_eq, Et. Qed.

Lemma alike_live t t' : alike t t' → live t → live t'.
Proof. intros Ha. unfold live, is_completed. by rewrite (al_status _ _ Ha). Qed.

Lemma alike_spent t t' : alike t t' → spent t → spent t'.
Proof. intros Ha. unfold spent. by rewrite (al_callback _ _ Ha). Qed.

Lemma as_handles (l : list (PlanCallback (C * Trace))) : omap as_handle (OneCallback <$> l) = l.
Proof. induction l as [|x l IH]; csimpl; [done|by rewrite IH]. Qed.

(** The handles of a live task, as [callbacks_of] lists them. *)
Lemma shaped_callbacks t :
  (if batched t then ∃ pcs, callback t = CallbackList (OneCallback <$> pcs) else ∃ pc, callback t = OneCallback pc) →
  callbacks_of (callback t) = OneCallback <$> handles_of (callback t) ∧
  ∀ pcs, length pcs = length (handles_of (callback t)) →
    handles_of (rebuild (callback t) (OneCallback <$> pcs)) = pcs ∧
    if batched t then ∃ pcs', rebuild (callback t) (OneCallback <$> pcs) = CallbackList (OneCallback <$> pcs')
    else ∃ pc, rebuild (callback t) (OneCallback <$> pcs) = OneCallback pc.
Proof.
  unfold handles_of. destruct (batched t).
  - intros (pcs & ->). cbn [callbacks_of rebuild]. rewrite as_handles. split; [done|]. intros pcs' _. split; [apply as_handles|eauto].
  - intros (pc & ->). cbn. split; [done|]. intros [|pc' [|]] ?; try done. cbn. eauto.
Qed.

(** Running a settling loop over the callbacks of a live task; [A] is its answer. *)
Lemma on_callbacks_inv {A} (use : list (TaskCallback (C * Trace)) → C * Trace → A * (list (TaskCallback (C * Trace)) * (C * Trace)))
    (all : A → bool) careful gone exempt id :
  (∀ pcs ps s, Forall2 (carries s.2) pcs ps → NoDup ps →
     ∃ a pcs' s', use (OneCallback <$> pcs) s = (a, (OneCallback <$> pcs', s')) ∧ settles ps s.2 s'.2 ∧
       Forall2 (carries (C := C) s'.2) pcs' ps ∧ (all a = true → Forall (λ p, p ∈ settled_plans s'.2) ps)) →
  triple Nothing (λ m, Inv careful gone exempt m ∧ at_task id live m) (on_callbacks use id)
    (λ a m, Inv careful gone exempt m ∧ at_task id (λ t, live t ∧ (all a = true → spent t)) m).
Proof.
  intros Huse. apply triple_total. intros m (Hi & t & Et & Hlive). pose proof Hi as [Htr Hr (held & Hd & Hh & Hl)].
  destruct (Hh id t Et) as (ps & Eps & Hps). pose proof (ok_shape _ _ _ _ _ _ Hps Hlive) as Hsh.
  destruct (shaped_callbacks t Hsh) as [Ecb Hre]. pose proof (ok_plans _ _ _ _ _ _ Hps) as Hcar.
  destruct (Huse (handles_of (callback t)) ps (cache_engine m) Hcar) as (a & pcs' & s' & E & Hs & Hc & Hall); [by apply (proj1 Hd id)|].
  assert (length pcs' = length (handles_of (callback t))) as Hlen
    by by rewrite (Forall2_length _ _ _ Hc), (Forall2_length _ _ _ Hcar).
  destruct (Hre pcs' Hlen) as [Eh Hshape].
  set (t' := with_callback (rebuild (callback t) (OneCallback <$> pcs')) t).
  set (m' := with_tasks (alter (with_callback (rebuild (callback t) (OneCallback <$> pcs'))) id) (with_world (s', ids m) m)).
  exists a, m'. split.
  { unfold on_callbacks. rewrite M_bind_run. unfold task_of. rewrite Et, M_bind_run. cbn [get_state]. rewrite Ecb, E. reflexivity. }
  assert (tasks m' = <[id := t']> (tasks m)) as Em' by (cbn; by apply alter_present).
  split.
  - eapply (inv_settle _ _ _ m m' id t); [done|done|done|exact Em'|done|done|exact Hshape|]. rewrite Eh. intros qs Hqs Hn.
    destruct (Huse (handles_of (callback t)) qs (cache_engine m) Hqs Hn) as (a2 & pcs2 & s2 & E2 & Hs2 & Hc2 & _).
    rewrite E in E2. injection E2 as <- Ep <-.
    apply (f_equal (omap as_handle)) in Ep. rewrite !as_handles in Ep. by subst pcs2.
  - exists t'. rewrite Em', lookup_insert_eq. split; [done|]. split; [done|]. intros Ha. eapply settled_spent; [|by apply Hall].
    cbn. by rewrite Eh.
Qed.

(** An ended task without plans can be put back. *)
Lemma inv_insert_ended careful gone exempt m m' id t :
  Inv careful gone exempt m → tasks m !! id = None → (∀ g, graph_to_task m !! g ≠ Some id) →
  tasks m' = <[id := t]> (tasks m) → graph_to_task m' = graph_to_task m → ids m' = ids m → trace_of m' = trace_of m →
  task_id t = id → ended t = true → graph t = None → task_end_op_finished t = true → callback t = NoCallback →
  Forall (λ e, harmless e.2) (op_callback_dict t) → Inv careful gone exempt m'.
Proof.
  intros [Ht Hr (held & Hd & Hh & Hl)] Eid Hn Et Er Ei Etr Hid Hend Hg Hf Hcb Hops. split; rewrite ?Et, ?Er, ?Ei, ?Etr; [done| |].
  - intros g k Ek. destruct (Hr g k Ek) as (Hlt & Hgo & Hk). assert (id ≠ k) as Hne by (intros <-; by destruct (Hn g)).
    rewrite lookup_insert_ne by done. done.
  - exists (<[id := []]> held). split; [split|split].
    + apply map_Forall_insert_2; [constructor|apply Hd].
    + intros k1 k2 ps1 ps2 p [[<- <-]|[Hk1 E1]]%lookup_insert_Some [[<- <-]|[Hk2 E2]]%lookup_insert_Some; try done;
        [by intros ?%elem_of_nil|by intros _ ?%elem_of_nil|by apply (proj2 Hd)].
    + intros k u [[<- <-]|[Hne Eu]]%lookup_insert_Some.
      * exists []. rewrite lookup_insert_eq. split; [done|]. assert (is_completed t = true) as Hc.
        { unfold ended, is_completed in *. destruct (status t); done. }
        split; try done; try congruence. by rewrite Hcb.
      * rewrite lookup_insert_ne by done. by apply Hh.
    + intros Hc p Hp. destruct (Hl Hc p Hp) as [?|(k & ps & Ek & Hin & Hk)]; [by left|right]. exists k, ps.
      assert (k ≠ id) by (intros ->; rewrite Eid in Hk; by destruct Hk). by rewrite !lookup_insert_ne.
Qed.

Lemma end_task_inv careful gone exempt id s :
  s = COMPLETED ∨ s = FAILED →
  triple Nothing (λ m, Inv careful gone exempt m ∧ at_task id (λ t, live t ∧ (careful = true → spent t)) m) (end_task id s)
    (λ _ m, Inv careful gone exempt m ∧ over id m).
Proof.
  intros Hs. apply triple_total. intros m (Hi & t & Et & Hlive & Hsp).
  pose proof Hi as [_ Hr (held & _ & Hh & _)]. destruct (Hh id t Et) as (ps & _ & Hps).
  destruct (ok_routed _ _ _ _ _ _ Hps) as (g & Eg & Hg); [unfold ended; unfold live, is_completed in Hlive; by destruct (status t)|].
  set (t' := shed_heavy_resources (with_end_finished (with_status s t))).
  set (m1 := with_tasks (delete id) (with_graph_to_task (delete (graph_id g)) m)).
  assert (end_task id s m = (Ok tt, if request_returned t then m1 else with_tasks (insert id t') m1)) as E.
  { assert (alter shed_heavy_resources id (alter (λ t, with_end_finished (with_status s t)) id (tasks m)) = <[id := t']> (tasks m)) as Ea.
    { rewrite (alter_present _ id t (tasks m) Et). rewrite (alter_present _ id _ _ (lookup_insert_eq _ _ _)). apply insert_insert_eq. }
    unfold end_task, mbind, M_bind, alter_task, unmap_graph, modify_state, task_of. cbn [tasks with_tasks].
    rewrite lookup_alter_eq, Et. cbn [fmap option_fmap option_map graph with_end_finished with_status].
    rewrite Eg. cbn [deref mret M_ret]. unfold when. cbn [request_returned with_end_finished with_status]. destruct (request_returned t).
    - unfold _release_task. cbn [tasks with_tasks with_graph_to_task]. rewrite Ea, lookup_insert_eq. cbn [graph shed_heavy_resources t'].
      unfold with_tasks, with_graph_to_task, m1. cbn. by rewrite Ea, delete_insert_eq.
    - unfold with_tasks, with_graph_to_task, m1. cbn. by rewrite Ea, insert_delete_eq. }
  exists tt. eexists. split; [exact E|].
  assert (Inv careful gone exempt m1) as Hi1 by (eapply (inv_drop _ _ _ m m1 id t); try done; cbn; by rewrite Eg).
  destruct (request_returned t).
  - split; [done|]. intros u. cbn. by rewrite lookup_delete_eq.
  - split.
    + eapply (inv_insert_ended _ _ _ m1 _ id t'); try done.
      * cbn. by rewrite lookup_delete_eq.
      * intros k. cbn. intros [Hne Ek]%lookup_delete_Some. destruct (Hr k id Ek) as (_ & _ & Hk).
        destruct (Hk t Et) as (gr & Egr & <-). congruence.
      * apply (ok_id _ _ _ _ _ _ Hps).
      * unfold ended. cbn. by destruct Hs as [-> | ->].
      * apply (ok_ops _ _ _ _ _ _ Hps).
    + intros u. cbn. rewrite lookup_insert_eq. intros [= <-]. unfold is_completed. cbn. by destruct Hs as [-> | ->].
Qed.

Lemma mark_completed_inv careful gone exempt id :
  triple Nothing (λ m, Inv careful gone exempt m ∧ is_Some (tasks m !! id)) (_mark_completed deployment id)
    (λ _ m, Inv careful gone exempt m ∧ over id m).
Proof.
  apply triple_state. intros m (Hi & t & Et). apply triple_total. intros ? ->. unfold _mark_completed.
  rewrite M_bind_run. unfold task_of at 1. rewrite Et. destruct (is_completed t) eqn:Hc.
  { exists tt, m. split_and!; [done..|]. intros u Eu. by simplify_eq. }
  pose proof Hi as [_ _ (held & _ & Hh & _)]. destruct (Hh id t Et) as (ps & _ & Hps).
  apply (triple_run (λ m', m' = m)); [|done].
  set (Q := λ m, Inv careful gone exempt m ∧ at_task id (λ t, live t ∧ spent t) m).
  eapply (triple_bind _ _ _ _ (λ _, Q)).
  { destruct (has_callback t) eqn:Hcb.
    - eapply triple_bind; [eapply triple_weaken; [apply (on_callbacks_inv run_callbacks (λ _, true) careful gone exempt)| |intros a m' Hm'; exact Hm']|].
      + intros pcs qs [c tr] Hf Hn. destruct (run_callbacks_settles pcs qs c tr Hf Hn) as (failed & pcs' & c' & tr' & E & Hs & Ha & Hf').
        exists failed, pcs', (c', tr'). auto.
      + intros ? ->. split; [done|]. by exists t.
      + intros failed. unfold when. destruct failed; [apply triple_modify|apply triple_ret]; intros m' (Hi' & Hat).
        * split; [apply alter_alike; [intros; apply alike_flags|done]|]. apply (at_alter _ _ _ _ _ Hat). intros u [Hu1 Hu2].
          split; [by eapply alike_live; [apply alike_flags|]|by eapply alike_spent; [apply alike_flags|auto]].
        * split; [done|]. destruct Hat as (u & Eu & Hu1 & Hu2). exists u. auto.
    - apply triple_ret. intros ? ->. split; [done|]. exists t. split_and!; [done..|]. unfold has_callback in Hcb. unfold spent.
      pose proof (ok_shape _ _ _ _ _ _ Hps Hc) as Hsh. destruct (callback t) as [| |[|? ?]]; by try constructor. }
  intros []. eapply (triple_bind _ _ _ _ (λ _, Q)); [by apply triple_get_state|]. intros m1.
  eapply (triple_bind _ _ _ _ (λ _, Q)).
  { unfold when. destruct (bool_decide _); [apply triple_modify|by apply triple_ret]. intros m' (Hi' & Hat).
    split; [apply alter_alike; [intros; apply alike_finalize|done]|]. apply (at_alter _ _ _ _ _ Hat). intros u [Hu1 Hu2].
    split; [by eapply alike_live; [apply alike_finalize|]|by eapply alike_spent; [apply alike_finalize|]]. }
  intros []. eapply (triple_bind _ _ _ _ (λ _, Q)).
  { apply triple_total. intros m' (Hi' & u & Eu & Hu). exists u, m'. split; [unfold task_of; by rewrite Eu|]. split; [done|]. by exists u. }
  intros u. eapply triple_weaken; [apply (end_task_inv careful gone exempt id (if transfer_failed u then FAILED else COMPLETED))| |done].
  - destruct (transfer_failed u); auto.
  - intros m' (Hi' & v & Ev & Hv1 & Hv2). split; [done|]. exists v. auto.
Qed.

Lemma process_empty_inv careful gone exempt id :
  triple Nothing (λ m, Inv careful gone exempt m ∧ is_Some (tasks m !! id)) (_process_empty_graph deployment id)
    (λ _ m, Inv careful gone exempt m ∧ ∀ t g, tasks m !! id = Some t → live t → graph t = Some g → 0 < num_ops g).
Proof.
  apply triple_state. intros m (Hi & t & Et). apply triple_total. intros ? ->. unfold _process_empty_graph.
  rewrite M_bind_run. unfold task_of. rewrite Et. destruct (graph t) as [g|] eqn:Eg.
  - unfold when. destruct (Z.eqb_spec (num_ops g) 0) as [E0|E0].
    + apply (triple_run (λ m, Inv careful gone exempt m ∧ is_Some (tasks m !! id))); [|split; [done|by eexists]].
      eapply triple_weaken; [apply (mark_completed_inv careful gone exempt id)|done|]. intros [] m' [Hi' Ho]. split; [done|].
      intros u gu Eu Hl. specialize (Ho u Eu). unfold live in Hl. congruence.
    + exists tt, m. split_and!; [done..|]. intros u gu Eu _ Egu. simplify_eq. unfold num_ops, zlen in *. lia.
  - exists tt, m. split_and!; [done..|]. intros u gu Eu _ Egu. congruence.
Qed.

Lemma abort_plans_inv careful gone exempt id :
  triple (Inv (C := C) careful gone exempt) (λ m, Inv careful gone exempt m ∧ at_task id live m) (_abort_task_plans id)
    (λ _ m, Inv careful gone exempt m ∧ at_task id (λ t, live t ∧ spent t) m).
Proof.
  unfold _abort_task_plans. eapply triple_bind.
  - eapply triple_exn; [apply (on_callbacks_inv abort_callbacks is_ok careful gone exempt id)|done].
    intros pcs ps [c tr] Hf Hn. destruct (abort_callbacks_settles pcs ps c tr Hf Hn) as (r & pcs' & c' & tr' & E & Hs & Hf' & Ha).
    exists r, pcs', (c', tr'). auto.
  - intros r. apply triple_lift; [by intros m [Hi _]|]. intros [] m -> (Hi & t & Et & Hl & Hs). split; [done|]. exists t. auto.
Qed.

Lemma fail_task_inv careful gone exempt id : triple (Inv (C := C) careful gone exempt) (Inv careful gone exempt) (_fail_task id) (λ _, Inv careful gone exempt).
Proof.
  apply triple_state. intros m Hi. unfold _fail_task. intros ? ->. rewrite M_bind_run. cbn [get_state].
  destruct (tasks m !! id) as [t|] eqn:Et; [|done]. destruct (is_completed t) eqn:Hc; [done|].
  assert (triple (Inv (C := C) careful gone exempt) (λ m, Inv careful gone exempt m ∧ at_task id live m) (_abort_task_plans id ;; end_task id FAILED)
    (λ _, Inv careful gone exempt)) as Ht.
  - eapply triple_bind; [apply abort_plans_inv|]. intros []. eapply triple_weaken.
    + eapply triple_exn; [apply (end_task_inv careful gone exempt id FAILED); by right|done].
    + intros m' (Hi' & u & Eu & Hl & Hs). split; [done|]. exists u. auto.
    + by intros [] m' [? _].
  - apply Ht. split; [done|]. by exists t.
Qed.

Lemma release_run id m t :
  tasks m !! id = Some t →
  _release_task id m = (Ok tt, with_tasks (delete id) (with_graph_to_task (λ r, match graph t with Some g => delete (graph_id g) r | None => r end) m)).
Proof. intros Et. unfold _release_task. rewrite Et. destruct (graph t); [done|]. unfold with_tasks, with_graph_to_task. by destruct m. Qed.

Lemma release_inv careful gone exempt id m :
  Inv careful gone exempt m → (∀ t, tasks m !! id = Some t → careful = true → spent t) → Inv careful gone exempt (_release_task id m).2.
Proof.
  intros Hi Hs. destruct (tasks m !! id) as [t|] eqn:Et.
  - rewrite (release_run _ _ _ Et). pose proof (Hs t eq_refl). eapply (inv_drop _ _ _ m _ id t); done.
  - unfold _release_task. by rewrite Et.
Qed.

(** A completed task holds no plan. *)
Lemma completed_spent careful gone exempt m id t : Inv careful gone exempt m → tasks m !! id = Some t → is_completed t = true → spent t.
Proof.
  intros [_ _ (held & _ & Hh & _)] Et Hc. destruct (Hh id t Et) as (ps & _ & Hps). unfold spent.
  by rewrite (ok_detached _ _ _ _ _ _ Hps Hc).
Qed.

Lemma cancel_release_inv careful gone exempt id m :
  Inv careful gone exempt m → (∀ t, tasks m !! id = Some t → careful = true → spent t) →
  ∃ m', (alter_task id (with_status CANCELLED) ;; _release_task id) m = (Ok tt, m') ∧ Inv careful gone exempt m' ∧ tasks m' !! id = None.
Proof.
  intros Hi Hs. pose proof (release_inv careful gone exempt id m Hi Hs) as Hr.
  rewrite M_bind_run. cbn [alter_task modify_state]. destruct (tasks m !! id) as [t|] eqn:Et.
  - rewrite (release_run _ _ _ Et) in Hr. rewrite (release_run id _ (with_status CANCELLED t)) by (cbn; by rewrite lookup_alter_eq, Et).
    eexists. split; [reflexivity|]. assert (∀ T : gmap Z (KVTask (C * Trace)), delete id (alter (with_status CANCELLED) id T) = delete id T) as Ed
      by (intros T; by rewrite delete_alter, decide_True).
    unfold with_tasks, with_graph_to_task in *. cbn in *. rewrite Ed. split; [done|]. by rewrite lookup_delete_eq.
  - unfold _release_task in *. rewrite Et in Hr. cbn [tasks with_tasks]. rewrite (alter_absent _ _ _ Et), Et. eexists. split; [reflexivity|].
    split; [|cbn; by rewrite (alter_absent _ _ _ Et)]. eapply (inv_world _ _ _ m); try done. cbn. by apply alter_absent.
Qed.

Lemma cancel_task_inv careful gone exempt id :
  triple (Inv (C := C) careful gone exempt) (λ m, Inv careful gone exempt m ∧ (careful = true → ∀ t, tasks m !! id = Some t → status t ≠ RUNNING)) (_cancel_task id)
    (λ _ m, Inv careful gone exempt m ∧ tasks m !! id = None).
Proof.
  apply triple_state. intros m (Hi & Hrun). unfold _cancel_task. intros ? ->. rewrite M_bind_run. cbn [get_state].
  destruct (tasks m !! id) as [t|] eqn:Et; [|done]. unfold when at 1. destruct (is_completed t) eqn:Hc; cbn [negb].
  - pose proof (release_inv careful gone exempt id m Hi) as Hr. rewrite M_bind_run. cbn [mret M_ret].
    rewrite (release_run _ _ _ Et) in Hr |- *. split.
    + apply Hr. intros u Eu _. by eapply completed_spent; [|done|simplify_eq].
    + cbn. by rewrite lookup_delete_eq.
  - assert (∀ P : KVTaskManager (C * Trace) → Prop,
      (∀ m', P m' → Inv careful gone exempt m' ∧ ∀ t, tasks m' !! id = Some t → careful = true → spent t) →
      triple (Inv (C := C) careful gone exempt) P (alter_task id (with_status CANCELLED) ;; _release_task id)
        (λ _ m, Inv careful gone exempt m ∧ tasks m !! id = None)) as Hend.
    { intros P HP. eapply triple_exn; [|done]. apply triple_total. intros m' Hm'. destruct (HP m' Hm') as [Hi' Hs'].
      destruct (cancel_release_inv careful gone exempt id m' Hi' Hs') as (m2 & E2 & Hi2). eauto. }
    rewrite bind_assoc_run. unfold when.
    destruct (bool_decide (status t = UNREADY) || bool_decide (status t = READY)) eqn:Hst.
    + apply (triple_bind _ _ _ _ _ _ (abort_plans_inv careful gone exempt id)); [|by split; [|exists t]].
      intros []. apply Hend. intros m' (Hi' & u & Eu & Hl & Hs). split; [done|]. intros v Ev _. by simplify_eq.
    + rewrite M_bind_run. cbn [mret M_ret]. apply (Hend (λ m', m' = m)); [|done]. intros ? ->. split; [done|]. intros u Eu ->.
      specialize (Hrun eq_refl t eq_refl). simplify_eq. unfold is_completed in Hc. by destruct (status t).
Qed.

(** ** Completion messages *)

Definition present (id : Z) m : Prop := is_Some (tasks m !! id).

Lemma run_op_callback_inv careful gone exempt id c :
  triple Nothing (λ m, Inv careful gone exempt m ∧ present id m) (run_op_callback id c) (λ _ m, Inv careful gone exempt m ∧ present id m).
Proof.
  apply triple_state. intros m (Hi & t & Et). apply triple_total. intros ? ->. unfold run_op_callback.
  rewrite M_bind_run. unfold task_of. rewrite Et. destruct (dict_get (co_op_id c) (op_callback_dict t)) as [cb|] eqn:Ecb;
    [|exists tt, m; split_and!; [done..|by exists t]].
  pose proof Hi as [_ _ (held & _ & Hh & _)]. destruct (Hh id t Et) as (ps & _ & Hps).
  assert (harmless cb) as Hcb.
  { pose proof (ok_ops _ _ _ _ _ _ Hps) as Ho. rewrite Forall_forall in Ho. by apply dict_get_Some_elem, Ho in Ecb. }
  specialize (Hcb (Some c) (cache_engine m)). rewrite M_bind_run. unfold raises, on_cache.
  destruct (invoke_op_callback cb (Some c) (cache_engine m)) as [r s] eqn:E.
  assert (Inv careful gone exempt (with_world (s, ids m) m)) as Hi' by by eapply (inv_world _ _ _ m).
  assert (present id (with_world (s, ids m) m)) as Hpr by by exists t.
  unfold when. destruct (negb (is_ok r)); (eexists _, _; split; [reflexivity|]); [|by split].
  split; [apply alter_alike; [intros; apply alike_flags|done]|]. exists (with_failed t). cbn. by rewrite lookup_alter_eq, Et.
Qed.

Lemma alter_alike_triple careful gone exempt id f (I : KVTaskManager (C * Trace) → Prop) :
  (∀ t, alike t (f t)) →
  triple I (λ m, Inv careful gone exempt m ∧ present id m) (alter_task id f) (λ _ m, Inv careful gone exempt m ∧ present id m).
Proof.
  intros Hf. apply triple_modify. intros m (Hi & t & Et). split; [by apply alter_alike|]. exists (f t). cbn. by rewrite lookup_alter_eq, Et.
Qed.

(** A message about a task of the table, other than the failure of its graph. *)
Definition deliver (id : Z) (c : CompletedOp) : M (KVTaskManager (C * Trace)) unit :=
  alter_task id (note_results c) ;;
  t ← task_of id;
  if detached t then mret tt
  else
    run_op_callback id c ;;
    if is_graph_completed c then _mark_completed deployment id
    else when (co_op_id c =? task_end_op_id t) (alter_task id with_end_finished).

Lemma deliver_inv careful gone exempt id c :
  triple Nothing (λ m, Inv (C := C) careful gone exempt m ∧ present id m) (deliver id c) (λ _, Inv careful gone exempt).
Proof.
  set (Q := λ m, Inv (C := C) careful gone exempt m ∧ present id m).
  unfold deliver. eapply triple_bind; [apply alter_alike_triple; intros; apply alike_note|]. intros [].
  eapply (triple_bind _ _ _ _ (λ _, Q)).
  { apply triple_total. intros m' [Hi' [u Eu]]. exists u, m'. split; [unfold task_of; by rewrite Eu|]. split; [done|by exists u]. }
  intros u. destruct (detached u); [apply triple_ret; by intros m' [? _]|].
  eapply triple_bind; [apply run_op_callback_inv|]. intros [].
  destruct (is_graph_completed c).
  - eapply triple_weaken; [apply mark_completed_inv|intros m' Hm'; exact Hm'|]. by intros [] m' [? _].
  - unfold when. destruct (_ =? _); [|apply triple_ret; by intros m' [? _]].
    eapply triple_weaken; [apply alter_alike_triple; intros; apply alike_flags|intros m' Hm'; exact Hm'|]. by intros [] m' [? _].
Qed.

Lemma update_task_run c m id t :
  graph_to_task m !! co_graph_id c = Some id → tasks m !! id = Some t →
  update_task deployment c m = (if is_graph_failed c then _fail_task id else deliver id c) m.
Proof.
  intros Eg Et. unfold update_task. rewrite M_bind_run. cbn [get_state]. rewrite Eg, M_bind_run. unfold task_of at 1. by rewrite Et.
Qed.

Lemma update_task_inv careful gone exempt c :
  triple (Inv (C := C) careful gone exempt) (Inv careful gone exempt) (update_task deployment c) (λ _, Inv careful gone exempt).
Proof.
  intros m Hi. destruct (graph_to_task m !! co_graph_id c) as [id|] eqn:Eg.
  - destruct (tasks m !! id) as [t|] eqn:Et.
    + rewrite (update_task_run c m id t Eg Et). destruct (is_graph_failed c); [by apply fail_task_inv|].
      apply (triple_exn Nothing _ _ _ _ (deliver_inv careful gone exempt id c)); [done|]. split; [done|by exists t].
    + unfold update_task. rewrite M_bind_run. cbn [get_state]. rewrite Eg, M_bind_run. unfold task_of at 1. by rewrite Et.
  - unfold update_task. rewrite M_bind_run. cbn [get_state]. by rewrite Eg.
Qed.

Lemma update_tasks_inv poll careful gone exempt :
  triple (Inv (C := C) careful gone exempt) (Inv careful gone exempt) (_update_tasks poll deployment) (λ _, Inv careful gone exempt).
Proof.
  unfold _update_tasks. eapply (triple_bind _ _ _ _ (λ _, Inv careful gone exempt)).
  - intros m Hi. unfold poll_handles. destruct (_get_completed_ops _ _ _) as [out a]. eapply (inv_world _ _ _ m); done.
  - intros ops. apply triple_for_each. intros c _. apply update_task_inv.
Qed.
End ending.
End TaskLife.
