(* ===== verification/TaskSteps.v ===== *)
(** * TaskSteps: every call of a client keeps the table of tasks

    The calls of [KVTaskEngine] ([TaskManager]) as steps of a history, and the
    proof that each keeps the invariant of [TaskLife]: creating and launching
    tasks, merging them into a batch, cancelling, resetting, waiting.  The two
    theorems at the end are about all histories. *)

From S2P Require Import Prelude PyFloat Block Transfer GraphBuild BatchMerge BatchFrame CacheEngine GlobalCache CompletionAgg TaskManager TaskLife.
Import GraphBuild.GraphBuild BatchMerge.BatchMerge BatchFrame.BatchFrame GlobalCache.GlobalCache CompletionAgg.CompletionAgg.
Import TaskManager.TaskManager TaskLife.TaskLife.
Local Open Scope Z_scope.

Module TaskSteps.

(** ** Op callbacks and plans of the instrumented cache engine *)

Section harmless.
Context {C : Type}.

Lemma harmless_keeps (cb : Callable (C * Trace)) : harmless cb ↔ ∀ completed tr, keeps (λ s, s.2 = tr) (invoke_op_callback cb completed).
Proof.
  split.
  - intros Hc completed tr s <-. specialize (Hc completed s). by destruct (invoke_op_callback cb completed s) as [[[]|x] s'].
  - intros Hc completed s. specialize (Hc completed s.2 s eq_refl). by destruct (invoke_op_callback cb completed s) as [[[]|x] s'].
Qed.

Lemma combined_harmless cbs spans :
  Forall (harmless (C := C)) cbs → harmless (CompletionAwareCallback (λ completed, combined_callback spans completed 0 cbs)).
Proof.
  intros Hc. apply harmless_keeps. intros completed tr. cbn [invoke_op_callback]. generalize 0%nat as idx.
  induction Hc as [|cb cbs Hcb _ IH]; intros idx; cbn [combined_callback]; [apply keeps_ret|].
  keeps_steps; try (by apply IH); by apply harmless_keeps.
Qed.

Lemma untraced_keeps {A} (m : M C A) tr : keeps (λ s : C * Trace, s.2 = tr) (untraced m).
Proof. intros s Hs. unfold untraced. by destruct (m s.1) as [[a|x] c]. Qed.

Lemma trace_callable_harmless (cb : Callable C) : harmless (trace_callable cb).
Proof. apply harmless_keeps. intros completed tr. destruct cb; apply untraced_keeps. Qed.

(** A plan of the instrumented engine is recorded under the next number. *)
Lemma trace_plan_run (op : M (C * Ids) (Planned C)) (m : KVTaskManager (C * Trace)) :
  (∀ c i, fresh_answer i (op (c, i))) →
  ∃ r c i tr, on_world (trace_plan op) m = (r, with_world ((c, tr), i) m) ∧ _next_graph_id (ids m) <= _next_graph_id i ∧
    match r with
    | Ok p => tr = mkTrace (next_plan (trace_of m) + 1) (settled (trace_of m)) ∧
        _next_graph_id (ids m) <= graph_id (pl_graph p) < _next_graph_id i ∧
        (∃ h, pc_handle (pl_callback p) = trace_handle (next_plan (trace_of m)) h ∧ _consumed h = false) ∧
        Forall (λ e, harmless e.2) (pl_op_callback_dict p)
    | Raise _ => tr = trace_of m
    end.
Proof.
  intros Hf. unfold on_world, trace_plan, trace_of. destruct (cache_engine m) as [c tr]. specialize (Hf c (ids m)).
  destruct (op (c, ids m)) as [[pl|x] [c' i']]; destruct Hf as [Hle Hf].
  - eexists _, _, _, _. split; [reflexivity|]. cbn. split; [done|]. split; [done|]. split; [apply Hf|]. split.
    + eexists. split; [reflexivity|apply Hf].
    + apply Forall_fmap, Forall_forall. intros e _. apply trace_callable_harmless.
  - eexists _, _, _, _. split; [reflexivity|]. done.
Qed.
End harmless.

(** ** Creating tasks *)

Section creating.
Context {C : Type} `{!CacheService C, !CacheServiceLaws C}.
Context (XXH64 : list Z → Z) (deployment : Deployment).
Implicit Types (t : KVTask (C * Trace)) (m : KVTaskManager (C * Trace)) (careful : bool) (gone : gset Z).

Lemma inv_create careful gone m m' id t pc h :
  Inv careful gone None m → tasks m !! id = None → id ∉ gone →
  _next_graph_id (ids m) <= _next_graph_id (ids m') →
  trace_of m' = mkTrace (next_plan (trace_of m) + 1) (settled (trace_of m)) →
  tasks m' = <[id := t]> (tasks m) →
  (∃ g, graph t = Some g ∧ _next_graph_id (ids m) <= graph_id g < _next_graph_id (ids m') ∧
     graph_to_task m' = <[graph_id g := id]> (graph_to_task m)) →
  task_id t = id → live t → batched t = false → callback t = OneCallback pc →
  pc_handle pc = trace_handle (next_plan (trace_of m)) h → _consumed h = false →
  Forall (λ e, harmless e.2) (op_callback_dict t) → Inv careful gone (Some id) m'.
Proof.
  intros [Ht Hr (held & Hd & Hh & Hl)] Eid Hgone Hle Etr Et (g & Eg & Hg & Er) Hid Hlive Hb Hcb Hpc Hh0 Hops.
  set (p := next_plan (trace_of m)) in *. destruct Ht as (Hnd & Hbd & Hp0).
  assert (settled_plans (trace_of m') = settled_plans (trace_of m)) as Es by (unfold settled_plans; by rewrite Etr).
  assert (next_plan (trace_of m') = p + 1) as En by by rewrite Etr.
  assert (p ∉ settled_plans (trace_of m)) as Hp by (intros Hin; rewrite Forall_forall in Hbd; apply Hbd in Hin; lia).
  assert (∀ pc q, carries (trace_of m) pc q → carries (C := C) (trace_of m') pc q) as Hcar.
  { intros pc' q (Hq & Hc & He). unfold carries. rewrite Es, En. split; [lia|done]. }
  assert (∀ k u, tasks m !! k = Some u → k ≠ id) as Hne by (intros k u Eu ->; congruence).
  split; rewrite ?Et, ?Er.
  - unfold trace_ok. rewrite Es, En. split; [done|]. split; [|lia]. eapply Forall_impl; [exact Hbd|]. cbn. lia.
  - intros g' k [[<- <-]|[Hg' Ek]]%lookup_insert_Some.
    + split; [lia|]. rewrite lookup_insert_eq. split; [by eexists|]. intros u [= <-]. by exists g.
    + destruct (Hr g' k Ek) as (Hlt & Hgo & Hk). assert (id ≠ k) as Hk' by (intros <-; destruct (Hgo Hgone); congruence).
      rewrite lookup_insert_ne by done. split; [lia|done].
  - exists (<[id := [p]]> (filter (λ e, is_Some (tasks m !! e.1)) held)). split; [split|split].
    + apply map_Forall_insert_2; [apply NoDup_singleton|]. intros k ps [Ek _]%map_lookup_filter_Some. by apply (proj1 Hd k).
    + assert (∀ k ps q, filter (λ e, is_Some (tasks m !! e.1)) held !! k = Some ps → q ∈ ps → q ≠ p) as Hfresh.
      { intros k ps q [Ek [u Eu]]%map_lookup_filter_Some Hq ->. destruct (Hh k u Eu) as (ps' & Eps & Hps). rewrite Ek in Eps. injection Eps as <-.
        apply list_elem_of_lookup in Hq as [i Hi]. apply (Forall2_lookup_r _ _ _ _ _ (ok_plans _ _ _ _ _ _ Hps)) in Hi as (pc' & _ & Hq & _). lia. }
      intros k1 k2 ps1 ps2 q [[<- <-]|[Hk1 E1]]%lookup_insert_Some [[<- <-]|[Hk2 E2]]%lookup_insert_Some; [done| | |].
      * intros ->%list_elem_of_singleton Hq. by destruct (Hfresh _ _ _ E2 Hq).
      * intros Hq ->%list_elem_of_singleton. by destruct (Hfresh _ _ _ E1 Hq).
      * apply map_lookup_filter_Some in E1 as [E1 _], E2 as [E2 _]. by apply (proj2 Hd).
    + intros k u [[<- <-]|[Hk Eu]]%lookup_insert_Some.
      * exists [p]. rewrite lookup_insert_eq. split; [done|]. unfold live in Hlive. split; try done.
        -- rewrite Hcb. cbn. constructor; [|constructor]. unfold carries. rewrite Es, En, Hpc. split; [lia|]. split; [|by eexists].
           cbn. rewrite Hh0. split; [done|]. by intros ?%Hp.
        -- intros He. unfold ended, is_completed in *. destruct (status t); done.
        -- intros _. exists g. split; [done|]. by rewrite lookup_insert_eq.
        -- congruence.
        -- intros _. rewrite Hb. eauto.
      * rewrite lookup_insert_ne by done. destruct (Hh k u Eu) as (ps & Eps & [Hid' Hp' Ho He Hro Hde Hsh Hn]). exists ps.
        split; [apply map_lookup_filter_Some; split; [done|by eexists]|]. split; try done.
        -- eapply Forall2_impl; [exact Hp'|]. intros; by apply Hcar.
        -- intros Hend. destruct (Hro Hend) as (gk & Egk & Hgk). exists gk. split; [done|]. destruct (Hr _ _ Hgk) as [Hlt _].
           rewrite lookup_insert_ne by lia. done.
        -- intros g' _. by apply Hn.
    + intros Hc q Hq. rewrite En in Hq. rewrite Es. destruct (decide (q = p)) as [->|Hqp].
      * right. exists id, [p]. rewrite !lookup_insert_eq. split_and!; [done|left|by eexists].
      * destruct (Hl Hc q) as [?|(k & ps & Ek & Hin & Hk)]; [unfold p in *; lia|by left|right]. exists k, ps.
        assert (id ≠ k) by (intros <-; rewrite Eid in Hk; by destruct Hk). rewrite !lookup_insert_ne by done.
        split_and!; [|done|done]. by apply map_lookup_filter_Some.
Qed.

(** What the three kinds of creation have in common; [extra] is what a prefetch records besides. *)
Lemma create_triple careful gone id (op : M (C * Ids) (Planned C)) (mk : Planned (C * Trace) → KVTask (C * Trace))
    (extra : KVTaskManager (C * Trace) → KVTaskManager (C * Trace)) :
  (∀ c i, fresh_answer i (op (c, i))) →
  (∀ p, task_id (mk p) = id ∧ live (mk p) ∧ batched (mk p) = false ∧ callback (mk p) = OneCallback (pl_callback p) ∧
     graph (mk p) = Some (pl_graph p) ∧ op_callback_dict (mk p) = pl_op_callback_dict p) →
  (∀ m, tasks (extra m) = tasks m ∧ graph_to_task (extra m) = graph_to_task m ∧ ids (extra m) = ids m ∧ cache_engine (extra m) = cache_engine m) →
  triple (Inv (C := C) careful gone None) (λ m, Inv careful gone None m ∧ id ∉ gone)
    (assert_new id ;; p ← on_world (trace_plan op); set_task id (mk p) ;; modify_state extra ;; map_graph (graph_id (pl_graph p)) id)
    (λ _ m, Inv careful gone (Some id) m ∧ present id m).
Proof.
  intros Hop Hmk Hextra m [Hi Hgone]. rewrite M_bind_run. unfold assert_new. rewrite (M_bind_run get_state). cbn [get_state].
  destruct (tasks m !! id) as [t|] eqn:Et; [done|]. cbn [mret M_ret]. rewrite M_bind_run.
  destruct (trace_plan_run op m Hop) as (r & c & i & tr & -> & Hle & Hr). destruct r as [p|x].
  - destruct Hr as (Etr & Hg & (h & Hh & Hc) & Hops). destruct (Hmk p) as (Hid & Hl & Hb & Hcb & Hgr & Hd).
    set (m1 := with_tasks (insert id (mk p)) (with_world (c, tr, i) m)). destruct (Hextra m1) as (E1 & E2 & E3 & E4).
    assert (Inv careful gone (Some id) (with_graph_to_task (insert (graph_id (pl_graph p)) id) (extra m1)) ∧
      present id (with_graph_to_task (insert (graph_id (pl_graph p)) id) (extra m1))); [|done]. split.
    + eapply (inv_create careful gone m _ id (mk p) (pl_callback p) h); try done.
      * cbn [ids with_graph_to_task]. by rewrite E3.
      * unfold trace_of at 1. cbn [cache_engine with_graph_to_task]. rewrite E4. exact Etr.
      * exists (pl_graph p). split; [done|]. cbn [ids graph_to_task with_graph_to_task]. rewrite E2, E3. done.
      * by rewrite Hd.
    + exists (mk p). cbn [tasks with_graph_to_task]. rewrite E1. cbn. by rewrite lookup_insert_eq.
  - eapply (inv_world _ _ _ m); try done.
Qed.

Lemma new_task_spec id ty s tokens slots mask swa ns aware (p : Planned (C * Trace)) :
  ty ≠ BATCH_GET → ty ≠ BATCH_PUT → s = UNREADY ∨ s = READY →
  let t := new_task id ty s tokens slots mask swa ns aware p in
  task_id t = id ∧ live t ∧ batched t = false ∧ callback t = OneCallback (pl_callback p) ∧ graph t = Some (pl_graph p) ∧
  op_callback_dict t = pl_op_callback_dict p.
Proof.
  intros Hty1 Hty2 Hs. split; [done|]. split; [unfold live, is_completed; cbn; by destruct Hs as [-> | ->]|]. split; [|done].
  unfold batched. cbn. by rewrite !bool_decide_eq_false_2.
Qed.

Lemma create_get_inv careful gone id tokens slots dp mask fake s ns aware :
  triple (Inv (C := C) careful gone None) (λ m, Inv careful gone None m ∧ id ∉ gone)
    (create_get_task id tokens slots dp mask fake s ns aware) (λ _ m, Inv careful gone (Some id) m ∧ present id m).
Proof.
  apply (create_triple careful gone id (cs_get tokens mask slots dp s ns aware)
    (λ p, new_task id GET (if fake then UNREADY else READY) tokens slots mask false None false p) (λ m, m)); [intros; apply cs_get_fresh| |done].
  intros p. apply new_task_spec; [done..|]. destruct fake; auto.
Qed.

Lemma create_put_inv careful gone id tokens slots dp mask fake ns :
  triple (Inv (C := C) careful gone None) (λ m, Inv careful gone None m ∧ id ∉ gone)
    (create_put_task id tokens slots dp mask fake ns) (λ _ m, Inv careful gone (Some id) m ∧ present id m).
Proof.
  apply (create_triple careful gone id (cs_put tokens mask slots dp ns)
    (λ p, new_task id PUT (if fake then UNREADY else READY) tokens slots mask false None false p) (λ m, m)); [intros; apply cs_put_fresh| |done].
  intros p. apply new_task_spec; [done..|]. destruct fake; auto.
Qed.

Lemma create_prefetch_inv careful gone id tokens dp ns aware :
  triple (Inv (C := C) careful gone None) (λ m, Inv careful gone None m ∧ id ∉ gone)
    (create_prefetch_task XXH64 id tokens dp ns aware) (λ _ m, Inv careful gone (Some id) m ∧ present id m).
Proof.
  apply (create_triple careful gone id (cs_get tokens (ones_like tokens) (zeros_like tokens) dp
      (mkStrategy true (ignore_ssd DEFAULT_CACHE_STRATEGY) (ignore_remote DEFAULT_CACHE_STRATEGY) true) ns aware)
    (λ p, new_task id PREFETCH READY tokens (zeros_like tokens) (ones_like tokens) (has_swa_remote_load (pl_graph p)) ns aware p)
    (with_prefetch_tasks (insert (hash_token XXH64 tokens ns) id))); [intros; apply cs_get_fresh| |done].
  intros p. apply new_task_spec; auto.
Qed.

(** A task without ops completes at once; then every task of the table is like any other. *)
Lemma process_new_inv careful gone id :
  triple (Inv (C := C) careful gone None) (λ m, Inv careful gone (Some id) m ∧ present id m) (_process_empty_graph deployment id)
    (λ _, Inv careful gone None).
Proof.
  eapply triple_exn; [|intros m Hm; exact (False_ind _ Hm)]. eapply triple_weaken; [apply process_empty_inv|intros m Hm; exact Hm|].
  intros [] m [Hi Hne]. by eapply inv_unexempt.
Qed.

Lemma resolve_id_inv careful gone id :
  triple (Inv (C := C) careful gone None) (λ m, Inv careful gone None m ∧ (if id =? -1 then task_id_counter m else id) ∉ gone)
    (resolve_task_id id) (λ id' m, Inv careful gone None m ∧ id' ∉ gone).
Proof.
  intros m [Hi Hg]. unfold resolve_task_id. destruct (id =? -1); [|done]. cbn. split; [by eapply (inv_world _ _ _ m)|done].
Qed.

(** The id the call will use is not that of an expired task that is still routed to. *)
Definition usable gone id m : Prop := (if id =? -1 then task_id_counter m else id) ∉ gone.

Lemma mask_of_inv careful gone id :
  triple (Inv (C := C) careful gone None) (Inv careful gone None) (return_mask_of id) (λ _, Inv careful gone None).
Proof. intros m Hi. unfold return_mask_of. rewrite M_bind_run. unfold task_of. by destruct (tasks m !! id). Qed.

Lemma get_match_impl_inv careful gone tokens slots dp fake mask cpu id ns aware :
  triple (Inv (C := C) careful gone None) (λ m, Inv careful gone None m ∧ usable gone id m)
    (_get_match_impl deployment tokens slots dp fake mask cpu id ns aware) (λ _, Inv careful gone None).
Proof.
  unfold _get_match_impl. eapply triple_bind; [apply resolve_id_inv|]. intros id'.
  eapply triple_bind; [apply create_get_inv|]. intros []. eapply triple_bind; [apply process_new_inv|]. intros [].
  eapply triple_bind; [apply mask_of_inv|]. intros r. by apply triple_ret.
Qed.

Lemma put_match_impl_inv careful gone tokens slots dp fake mask id ns :
  triple (Inv (C := C) careful gone None) (λ m, Inv careful gone None m ∧ usable gone id m)
    (_put_match_impl deployment tokens slots dp fake mask id ns) (λ _, Inv careful gone None).
Proof.
  unfold _put_match_impl. eapply triple_bind; [apply resolve_id_inv|]. intros id'.
  eapply triple_bind; [apply create_put_inv|]. intros []. eapply triple_bind; [apply process_new_inv|]. intros [].
  eapply triple_bind; [apply mask_of_inv|]. intros r. by apply triple_ret.
Qed.
End creating.

(** ** Launching tasks *)

Section launching.
Context {C : Type} (deployment : Deployment).
Implicit Types (t : KVTask (C * Trace)) (m : KVTaskManager (C * Trace)) (careful : bool) (gone : gset Z).

(** A change of graph (keeping its id and ops), slots or live status. *)
Record relaunch t t' : Prop := {
  rl_id : task_id t' = task_id t;
  rl_type : task_type t' = task_type t;
  rl_live : live t → live t';
  rl_graph g : graph t = Some g → ∃ g', graph t' = Some g' ∧ graph_id g' = graph_id g ∧ num_ops g' = num_ops g;
  rl_callback : callback t' = callback t;
  rl_ops : op_callback_dict t' = op_callback_dict t;
}.

Lemma inv_relaunch careful gone exempt m id t t' :
  Inv careful gone exempt m → tasks m !! id = Some t → live t → relaunch t t' →
  Inv (C := C) careful gone exempt (with_tasks (alter (λ _, t') id) m).
Proof.
  intros Hi Et Hl R. eapply (inv_update _ _ _ m _ id t t'); try done; [cbn; exact (alter_present (λ _, t') id t _ Et)| |].
  - intros g Eg. destruct (rl_graph _ _ R g Eg) as (g' & ? & ? & _). eauto.
  - intros ps [Hid Hp Ho He Hro Hde Hsh Hn]. pose proof (rl_live _ _ R Hl) as Hl'. unfold live in *.
    assert (ended t = false ∧ ended t' = false) as [E1 E2] by (unfold ended, is_completed in *; by destruct (status t), (status t')).
    assert (batched t' = batched t) as Eb by (unfold batched; by rewrite (rl_type _ _ R)).
    destruct (Hro E1) as (g & Eg & Hg). destruct (rl_graph _ _ R g Eg) as (g' & Eg' & Egi & Hnum).
    split; rewrite ?Eb, ?(rl_callback _ _ R), ?(rl_ops _ _ R), ?(rl_id _ _ R); try done; try congruence.
    + intros _. exists g'. split; [done|]. by rewrite Egi.
    + intros _. by apply Hsh.
    + intros g2 Hx _ Hb Eg2. rewrite Eg' in Eg2. injection Eg2 as <-. rewrite Hnum. by apply Hn.
Qed.

Lemma relaunch_status s t : s = READY ∨ s = RUNNING → relaunch t (with_status s t).
Proof.
  intros Hs. split; try done; [|intros g Eg; exists g; auto]. intros _. unfold live, is_completed. cbn. by destruct Hs as [-> | ->].
Qed.

(** [alter] with a constant is [alter] with the function that gives it. *)
Lemma alter_at {A} (f : A → A) (id : Z) (x : A) (T : gmap Z A) : T !! id = Some x → alter f id T = alter (λ _, f x) id T.
Proof. intros E. by rewrite (alter_present f id x), (alter_present (λ _, f x) id x). Qed.

Lemma alter_twice {A} (f h : A → A) (id : Z) (T : gmap Z A) : alter f id (alter h id T) = alter (f ∘ h) id T.
Proof.
  apply map_eq. intros k. destruct (decide (id = k)) as [<-|Hk].
  - rewrite !lookup_alter_eq. by destruct (T !! id).
  - by rewrite !lookup_alter_ne.
Qed.

Lemma set_slot_inv careful gone id slots swa :
  triple (Inv (C := C) careful gone None) (Inv careful gone None) (_set_slot_mapping_impl deployment id slots swa) (λ _, Inv careful gone None).
Proof.
  intros m Hi. unfold _set_slot_mapping_impl. rewrite M_bind_run. unfold task_of at 1.
  destruct (tasks m !! id) as [t|] eqn:Et; [|done]. destruct (negb (bool_decide (status t = UNREADY))) eqn:Hst; [done|].
  apply negb_false_iff, bool_decide_eq_true_1 in Hst.
  assert (live t) as Hl by (unfold live, is_completed; by rewrite Hst).
  rewrite M_bind_run. unfold set_gpu_blocks_of at 1. rewrite M_bind_run. unfold task_of at 1. rewrite Et, M_bind_run.
  destruct (graph t) as [g|] eqn:Eg; [|done]. cbn [deref mret M_ret].
  set (gpu := slot_mapping_to_block_ids _ _). set (sw := fmap _ _).
  pose proof (set_gpu_blocks_same gpu sw g) as Hs. destruct (set_gpu_blocks gpu sw g) as [r g']. cbn in Hs.
  rewrite M_bind_run. cbn [alter_task modify_state]. unfold lift_result.
  assert (∀ s, s = UNREADY ∨ s = READY → relaunch t (with_status s (with_slots slots (with_graph (Some g') t)))) as R1.
  { intros s Hs'. split; try done; [intros _; unfold live, is_completed; cbn; by destruct Hs' as [-> | ->]|].
    intros g0 Eg0. simplify_eq. exists g'. split_and!; [done|apply Hs|by apply same_ops_num]. }
  assert (relaunch t (with_graph (Some g') t)) as R0.
  { split; try done. intros g0 Eg0. simplify_eq. exists g'. split_and!; [done|apply Hs|by apply same_ops_num]. }
  destruct r as [[]|x].
  - rewrite M_bind_run. cbn [alter_task modify_state].
    assert (with_tasks (alter (with_status READY) id) (with_tasks (alter (with_slots slots) id) (with_tasks (alter (with_graph (Some g')) id) m)) =
      with_tasks (alter (λ _, with_status READY (with_slots slots (with_graph (Some g') t))) id) m) as ->.
    { unfold with_tasks. cbn. f_equal. rewrite !alter_twice. by rewrite (alter_at _ id t). }
    apply (inv_relaunch _ _ _ m id t); auto.
  - assert (with_tasks (alter (with_graph (Some g')) id) m = with_tasks (alter (λ _, with_graph (Some g') t) id) m) as ->.
    { unfold with_tasks. f_equal. by apply alter_at. }
    by apply (inv_relaunch _ _ _ m id t).
Qed.

Lemma set_slots_inv careful gone task_ids slots swa :
  triple (Inv (C := C) careful gone None) (Inv careful gone None) (set_slot_mappings deployment task_ids slots swa) (λ _, Inv careful gone None).
Proof. unfold set_slot_mappings. apply triple_for_each. intros e _. apply set_slot_inv. Qed.

(** A launch hands out the graph of a task that becomes RUNNING, or nothing. *)
Lemma check_ready_inv careful gone id :
  triple (Inv (C := C) careful gone None) (Inv careful gone None) (check_task_ready id) (λ _, Inv careful gone None).
Proof.
  intros m Hi. unfold check_task_ready. rewrite M_bind_run. unfold task_of. destruct (tasks m !! id) as [t|] eqn:Et; [|done].
  destruct (is_completed t) eqn:Hc; [done|]. destruct (negb _); [done|]. rewrite M_bind_run. cbn [alter_task modify_state mret M_ret].
  assert (with_tasks (alter (with_status RUNNING) id) m = with_tasks (alter (λ _, with_status RUNNING t) id) m) as ->.
  { unfold with_tasks. f_equal. by apply alter_at. }
  apply (inv_relaunch _ _ _ m id t); [done..|]. apply relaunch_status. auto.
Qed.

Lemma submitted_inv careful gone l m : Inv (C := C) careful gone None m → Inv careful gone None (with_submitted l m).
Proof. intros Hi. by eapply (inv_world _ _ _ m). Qed.

Lemma launch_task_inv careful gone id :
  triple (Inv (C := C) careful gone None) (Inv careful gone None) (_launch_task deployment id) (λ _, Inv careful gone None).
Proof.
  unfold _launch_task. eapply triple_bind; [apply check_ready_inv|]. intros [g|]; [|by apply triple_ret].
  destruct (0 <? num_ops g); [|by apply triple_ret]. apply triple_for_each. intros [i multi] _.
  eapply (triple_bind _ _ _ _ (λ _, Inv careful gone None)).
  { intros m Hi. unfold task_of. by destruct (tasks m !! id). }
  intros t. unfold submit. destruct (multi && _ && _).
  - destruct (clear_gpu_blocks g) as [r cleared]. eapply triple_bind; [by apply (triple_lift _ _ _ (λ _, Inv careful gone None))|].
    intros []. apply triple_modify. intros m. apply submitted_inv.
  - apply triple_modify. intros m. apply submitted_inv.
Qed.

Lemma submit_batch_inv careful gone graphs :
  triple (Inv (C := C) careful gone None) (Inv careful gone None) (submit_batch deployment graphs) (λ _, Inv careful gone None).
Proof.
  unfold submit_batch. destruct graphs; [by apply triple_ret|]. apply triple_for_each. intros h _. apply triple_modify. intros m. apply submitted_inv.
Qed.

Lemma all_type_inv careful gone ty task_ids :
  triple (Inv (C := C) careful gone None) (Inv careful gone None) (all_of_type ty task_ids) (λ _, Inv careful gone None).
Proof.
  induction task_ids as [|id task_ids IH]; cbn [all_of_type]; [by apply triple_ret|].
  eapply (triple_bind _ _ _ _ (λ _, Inv careful gone None)); [intros m Hi; unfold task_of; by destruct (tasks m !! id)|].
  intros t. destruct (bool_decide _); [apply IH|by apply triple_ret].
Qed.

Lemma collect_graphs_inv careful gone task_ids :
  triple (Inv (C := C) careful gone None) (Inv careful gone None) (for_acc collect_graph [] task_ids) (λ _, Inv careful gone None).
Proof.
  apply (triple_for_acc _ (λ _ _ _, Inv careful gone None)). intros pre acc id post. unfold collect_graph.
  eapply triple_bind; [apply check_ready_inv|]. intros g. by apply triple_ret.
Qed.
End launching.

(** ** Merging tasks into a batch *)

Section batching.
Context {C : Type} (deployment : Deployment).
Implicit Types (t : KVTask (C * Trace)) (m : KVTaskManager (C * Trace)) (careful : bool) (gone : gset Z).

(** The members of a batch with the handle each brings along; [ids] are all tasks it replaces. *)
Definition members m (task_ids : list Z) (ms : list (Z * PlanCallback (C * Trace))) : Prop :=
  NoDup ms.*1 ∧
  Forall (λ e, e.1 ∈ task_ids ∧ at_task e.1 (λ t, live t ∧ callback t = OneCallback e.2) m) ms ∧
  (∀ id t, id ∈ task_ids → tasks m !! id = Some t → live t → id ∈ ms.*1).

(** The plans the members hold, in the order of the members. *)
Lemma members_plans careful gone m task_ids ms :
  Inv careful gone None m → members m task_ids ms →
  ∀ held, plans_disjoint held →
  (∀ id t, tasks m !! id = Some t → ∃ ps, held !! id = Some ps ∧ task_ok None (trace_of m) (graph_to_task m) id t ps) →
  ∃ ps, Forall2 (carries (C := C) (trace_of m)) ms.*2 ps ∧ NoDup ps ∧
    (∀ p, p ∈ ps → ∃ id, id ∈ ms.*1 ∧ id ∈ task_ids ∧ held !! id = Some [p]) ∧ (∀ id qs, id ∈ ms.*1 → held !! id = Some qs → ∀ q, q ∈ qs → q ∈ ps).
Proof.
  intros Hi (Hnd & Hms & _) held Hd Hh. induction ms as [|[id pc] ms IH]; cbn in *.
  - exists []. split_and!; [constructor|constructor|by intros p ?%elem_of_nil|by intros id qs ?%elem_of_nil].
  - apply NoDup_cons in Hnd as [Hn Hnd]. apply Forall_cons in Hms as [(Hin & t & Et & Hl & Hcb) Hms].
    destruct (IH Hnd Hms) as (ps & Hc & Hps & Hfrom & Hall). destruct (Hh id t Et) as (qs & Eqs & Hok).
    pose proof (ok_plans _ _ _ _ _ _ Hok) as Hcar. rewrite Hcb in Hcar. cbn in Hcar.
    apply Forall2_cons_inv_l in Hcar as (p & qs' & Hp & Hnil & ->). apply Forall2_nil_inv_l in Hnil as ->.
    exists (p :: ps). split_and!.
    + by constructor.
    + constructor; [|done]. intros Hin'. destruct (Hfrom p Hin') as (k & Hk & _ & Ek).
      assert (id = k) as -> by (apply (proj2 Hd id k [p] [p] p); try done; left). done.
    + intros q [-> |Hq]%elem_of_cons; [exists id; split_and!; [left|done|done]|].
      destruct (Hfrom q Hq) as (k & Hk & Hk' & Ek). exists k. split_and!; [by right|done|done].
    + intros k qs [-> |Hk]%elem_of_cons Eq q Hq; [|right; by eapply Hall]. rewrite Eqs in Eq. injection Eq as <-.
      apply list_elem_of_singleton in Hq as ->. left.
Qed.

(** The batch takes the place of its members. *)
Lemma inv_batch careful gone m m' batch t g task_ids ms :
  Inv careful gone None m → members m task_ids ms →
  tasks m !! batch = None → batch ∉ gone → ids m' = ids m → trace_of m' = trace_of m →
  (∀ k, tasks m' !! k = if decide (k ∈ task_ids) then None else (<[batch := t]> (tasks m)) !! k) → batch ∉ task_ids →
  graph t = Some g → (∀ k, graph_to_task m !! graph_id g ≠ Some k) → graph_id g < _next_graph_id (ids m) →
  (∀ g' k, graph_to_task m' !! g' = Some k ↔ (g' = graph_id g ∧ k = batch) ∨ (graph_to_task m !! g' = Some k ∧ k ∉ task_ids)) →
  task_id t = batch → live t → batched t = true → callback t = CallbackList (OneCallback <$> ms.*2) →
  Forall (λ e, harmless e.2) (op_callback_dict t) → Inv (C := C) careful gone None m'.
Proof.
  intros Hi Hms Eb Hbg Ei Etr Et Hbt Eg Hgfresh Hglt Er Hid Hlive Hbat Hcb Hops.
  pose proof Hi as [Ht Hr (held & Hd & Hh & Hl)].
  destruct (members_plans careful gone m task_ids ms Hi Hms held Hd Hh) as (ps & Hcar & Hnd & Hfrom & Hall).
  assert (∀ k, k ∉ task_ids → k ≠ batch → tasks m' !! k = tasks m !! k) as Hother.
  { intros k Hk Hkb. rewrite Et, decide_False by done. by rewrite lookup_insert_ne. }
  assert (tasks m' !! batch = Some t) as Ebt by (rewrite Et, decide_False by done; by rewrite lookup_insert_eq).
  assert (∀ k u, tasks m' !! k = Some u → (k = batch ∧ u = t) ∨ (k ≠ batch ∧ k ∉ task_ids ∧ tasks m !! k = Some u)) as Htab.
  { intros k u. rewrite Et. case_decide as Hk; [done|]. intros [[<- <-]|[Hne Eu]]%lookup_insert_Some; auto. }
  split; rewrite ?Ei, ?Etr; [done| |].
  - intros g' k [[-> ->]|[Ek Hk]]%Er.
    + split; [done|]. rewrite Ebt. split; [by eexists|]. intros u [= <-]. by exists g.
    + destruct (Hr g' k Ek) as (Hlt & Hgo & Hk'). split; [done|]. assert (k ≠ batch) as Hkb.
      { intros ->. destruct (Hgo Hbg). congruence. }
      rewrite Hother by done. done.
  - exists (<[batch := ps]> (filter (λ e, e.1 ∉ task_ids) held)). split; [split|split].
    + apply map_Forall_insert_2; [done|]. intros k qs [Ek _]%map_lookup_filter_Some. by apply (proj1 Hd k).
    + assert (∀ k qs q, filter (λ e, e.1 ∉ task_ids) held !! k = Some qs → q ∈ qs → q ∉ ps) as Hsep.
      { intros k qs q [Ek Hk]%map_lookup_filter_Some Hq Hin. destruct (Hfrom q Hin) as (id & _ & Hid' & Eid).
        apply Hk. cbn. rewrite (proj2 Hd k id qs [q] q); [done..|left]. }
      intros k1 k2 ps1 ps2 q [[<- <-]|[Hk1 E1]]%lookup_insert_Some [[<- <-]|[Hk2 E2]]%lookup_insert_Some; [done| | |].
      * intros Hq Hq2. by destruct (Hsep _ _ _ E2 Hq2).
      * intros Hq Hq2. by destruct (Hsep _ _ _ E1 Hq).
      * apply map_lookup_filter_Some in E1 as [E1 _], E2 as [E2 _]. by apply (proj2 Hd).
    + intros k u Eu. destruct (Htab k u Eu) as [[-> ->]|(Hkb & Hk & Eu')].
      * exists ps. rewrite lookup_insert_eq. split; [done|]. unfold live in Hlive.
        assert (ended t = false) as He by (unfold ended, is_completed in *; by destruct (status t)).
        split; try done; try congruence.
        -- rewrite Hcb. unfold handles_of. cbn [callbacks_of]. by rewrite as_handles.
        -- intros _. exists g. split; [done|]. apply Er. by left.
        -- intros _. rewrite Hbat. eauto.
      * rewrite lookup_insert_ne by done. destruct (Hh k u Eu') as (qs & Eqs & [Hid' Hp' Ho He Hro Hde Hsh Hn]). exists qs.
        split; [by apply map_lookup_filter_Some|]. split; try done. intros Hend. destruct (Hro Hend) as (gk & Egk & Hgk).
        exists gk. split; [done|]. apply Er. by right.
    + intros Hc q Hq. destruct (Hl Hc q Hq) as [?|(k & qs & Ek & Hin & [u Eu])]; [by left|right].
      destruct (decide (k ∈ task_ids)) as [Hk|Hk].
      * exists batch, ps. rewrite lookup_insert_eq, Ebt. split; [done|]. split; [|by eexists].
        destruct (is_completed u) eqn:Hcu.
        -- destruct (Hh k u Eu) as (qs' & Eqs & Hok). rewrite Ek in Eqs. injection Eqs as <-.
           pose proof (ok_plans _ _ _ _ _ _ Hok) as Hf. rewrite (ok_detached _ _ _ _ _ _ Hok Hcu) in Hf. cbn in Hf.
           apply Forall2_nil_inv_l in Hf as ->. by apply elem_of_nil in Hin.
        -- destruct Hms as (_ & _ & Hcov). by apply (Hall k qs (Hcov k u Hk Eu Hcu) Ek).
      * assert (k ≠ batch) as Hkb by congruence. exists k, qs. rewrite lookup_insert_ne by done.
        split_and!; [by apply map_lookup_filter_Some|done|]. rewrite Hother by done. by eexists.
Qed.

(** Removing the members one by one. *)
Lemma remove_member_run id m t :
  tasks m !! id = Some t →
  remove_member id m = (Ok tt, with_tasks (delete id) (with_graph_to_task (λ r, match graph t with Some g => delete (graph_id g) r | None => r end) m)).
Proof.
  intros Et. unfold remove_member. rewrite M_bind_run. unfold task_of. rewrite Et. destruct (graph t) as [g|]; [done|].
  unfold mbind, M_bind, modify_state. cbn. unfold with_tasks, with_graph_to_task. by destruct m.
Qed.

Lemma remove_members_run task_ids m :
  NoDup task_ids → Forall (λ id, present id m) task_ids →
  ∃ m', for_each remove_member task_ids m = (Ok tt, m') ∧ ids m' = ids m ∧ cache_engine m' = cache_engine m ∧
    (∀ k, tasks m' !! k = if decide (k ∈ task_ids) then None else tasks m !! k) ∧
    (∀ g k, graph_to_task m' !! g = Some k ↔ graph_to_task m !! g = Some k ∧
       ∀ id t gr, id ∈ task_ids → tasks m !! id = Some t → graph t = Some gr → graph_id gr ≠ g).
Proof.
  revert m. induction task_ids as [|id task_ids IH]; intros m Hn Hp.
  { exists m. split_and!; try done. intros g k. split; [|by intros [? _]]. intros E. split; [done|]. by intros ? ? ? ?%elem_of_nil. }
  apply NoDup_cons in Hn as [Hid Hn]. apply Forall_cons in Hp as [[t Et] Hp]. cbn [for_each]. rewrite M_bind_run, (remove_member_run id m t Et).
  set (m1 := with_tasks (delete id) _).
  destruct (IH m1) as (m' & E & Ei & Ec & Ht & Hr); [done| |].
  { apply Forall_forall. intros k Hk. rewrite Forall_forall in Hp. destruct (Hp k Hk) as [u Eu]. exists u. cbn.
    rewrite lookup_delete_ne; [done|]. by intros <-. }
  exists m'. rewrite E. split_and!; [done|by rewrite Ei|by rewrite Ec| |].
  - intros k. rewrite Ht. cbn. destruct (decide (k ∈ task_ids)) as [Hk|Hk]; [by rewrite decide_True by (by right)|].
    destruct (decide (k = id)) as [->|Hne].
    + rewrite decide_True by left. by rewrite lookup_delete_eq.
    + rewrite decide_False by (intros [->|?]%elem_of_cons; done). by rewrite lookup_delete_ne.
  - intros g k. rewrite Hr. cbn. destruct (graph t) as [gt|] eqn:Egt.
    + rewrite lookup_delete_Some. split.
      * intros [[Hne Ek] Hall]. split; [done|]. intros id' t' gr [->|Hin]%elem_of_cons Et' Eg'; [congruence|].
        apply (Hall id' t' gr); [done| |done]. rewrite lookup_delete_ne; [done|]. by intros <-.
      * intros [Ek Hall]. split; [split; [|done]|].
        -- apply (Hall id t gt); [left|done|done].
        -- intros id' t' gr Hin [_ Et']%lookup_delete_Some Eg'. apply (Hall id' t' gr); [by right|done|done].
    + split.
      * intros [Ek Hall]. split; [done|]. intros id' t' gr [->|Hin]%elem_of_cons Et' Eg'; [congruence|].
        apply (Hall id' t' gr); [done| |done]. rewrite lookup_delete_ne; [done|]. by intros <-.
      * intros [Ek Hall]. split; [done|]. intros id' t' gr Hin [_ Et']%lookup_delete_Some Eg'. apply (Hall id' t' gr); [by right|done|done].
Qed.

(** Collecting the members. *)
Definition collected task_ids (acc : Members) m : Prop :=
  ∃ ms, members m task_ids ms ∧ mb_callbacks acc = OneCallback <$> ms.*2 ∧ Forall (λ e, harmless e.2) (mb_op_callback_dict acc) ∧
    Forall (λ id, present id m) task_ids.

Lemma dict_update_harmless (d d' : list (Z * Callable (C * Trace))) :
  Forall (λ e, harmless e.2) d → Forall (λ e, harmless e.2) d' → Forall (λ e, harmless e.2) (dict_update d d').
Proof.
  intros Hd Hd'. unfold dict_update. revert d Hd. induction Hd' as [|e d' He _ IH]; intros d Hd; cbn; [done|].
  apply IH. by apply (dict_all_set harmless).
Qed.

Lemma collected_nil m : collected [] (mkMembers [] [] [] [] []) m.
Proof.
  exists []. split; [split; [constructor|split; [constructor|]]|split_and!; [done|constructor..]]. by intros id t ?%elem_of_nil.
Qed.

(** Members stay what they are when another task changes. *)
Lemma members_other m m' task_ids ms :
  (∀ id, id ∈ task_ids → tasks m' !! id = tasks m !! id) → members m task_ids ms → members m' task_ids ms.
Proof.
  intros He (Hn & Hf & Hc). split; [done|]. split.
  - eapply Forall_impl; [exact Hf|]. intros e (Hin & t & Et & Ht). split; [done|]. exists t. by rewrite He.
  - intros id t Hin Et. rewrite He in Et by done. by apply Hc.
Qed.

Lemma collected_skip m task_ids id t acc :
  collected task_ids acc m → tasks m !! id = Some t → ¬ live t → collected (task_ids ++ [id]) acc m.
Proof.
  intros (ms & (Hn & Hf & Hc) & Hcb & Hd & Hp) Et Hl. exists ms. split_and!; [|done|done|].
  - split; [done|]. split.
    + eapply Forall_impl; [exact Hf|]. intros e [Hin He]. split; [set_solver|done].
    + intros k u [Hk| ->%list_elem_of_singleton]%elem_of_app Eu Hu; [by eapply Hc|]. congruence.
  - apply Forall_app. split; [done|]. constructor; [by exists t|constructor].
Qed.

Lemma collected_add m task_ids id t t' pc acc acc' :
  collected task_ids acc m → id ∉ task_ids → live t' → callback t' = OneCallback pc →
  mb_callbacks acc' = mb_callbacks acc ++ [OneCallback pc] → Forall (λ e, harmless e.2) (mb_op_callback_dict acc') →
  tasks m !! id = Some t → collected (task_ids ++ [id]) acc' (with_tasks (alter (λ _, t') id) m).
Proof.
  intros (ms & Hms & Hcb & Hd & Hp) Hid Hl Hpc Ecb Hd' Et. set (m' := with_tasks _ m).
  assert (∀ k, k ∈ task_ids → tasks m' !! k = tasks m !! k) as Hsame
    by (intros k Hk; cbn; rewrite lookup_alter_ne; [done|]; by intros <-).
  assert (tasks m' !! id = Some t') as Et' by (cbn; by rewrite lookup_alter_eq, Et).
  apply (members_other m m' _ _ Hsame) in Hms as (Hn & Hf & Hc). exists (ms ++ [(id, pc)]).
  assert (id ∉ ms.*1) as Hout.
  { intros ([k p] & -> & Hk)%list_elem_of_fmap. rewrite Forall_forall in Hf. by apply Hf in Hk as [? _]. }
  split_and!; [|by rewrite Ecb, Hcb, !fmap_app|done|].
  - split; [rewrite fmap_app; cbn; apply NoDup_app; split_and!; [done|by intros k Hk ->%list_elem_of_singleton|apply NoDup_singleton]|].
    split.
    + apply Forall_app. split; [eapply Forall_impl; [exact Hf|]; intros e [Hin He]; split; [set_solver|done]|].
      constructor; [|constructor]. split; [set_solver|]. exists t'. done.
    + intros k u Hk Eu Hu. rewrite fmap_app. apply elem_of_app in Hk as [Hk| ->%list_elem_of_singleton]; [|set_solver].
      apply elem_of_app. left. by eapply Hc.
  - apply Forall_app. split; [|constructor; [by exists t'|constructor]]. rewrite Forall_forall in Hp |- *. intros k Hk.
    destruct (Hp k Hk) as [u Eu]. exists u. by rewrite Hsame.
Qed.

Lemma collect_member_inv careful gone ty pre acc id post :
  ty = GET ∨ ty = PUT →
  triple (Inv (C := C) careful gone None) (λ m, Inv careful gone None m ∧ NoDup (pre ++ id :: post) ∧ collected pre acc m)
    (collect_member ty acc id) (λ acc' m, Inv careful gone None m ∧ NoDup ((pre ++ [id]) ++ post) ∧ collected (pre ++ [id]) acc' m).
Proof.
  intros Hty m (Hi & Hn & Hc). rewrite <- (assoc_L app). cbn [app]. unfold collect_member. rewrite M_bind_run. unfold task_of at 1.
  destruct (tasks m !! id) as [t|] eqn:Et; [|done]. rewrite M_bind_run. unfold assertM, lift_result, py_assert.
  destruct (bool_decide (task_type t = ty)) eqn:Ety; [|done]. apply bool_decide_eq_true_1 in Ety.
  rewrite M_bind_run. unfold check_task_ready. rewrite M_bind_run. unfold task_of. rewrite Et.
  destruct (is_completed t) eqn:Hco.
  { cbn. split_and!; [done..|]. eapply collected_skip; [done..|]. unfold live. congruence. }
  destruct (negb _); [done|]. rewrite M_bind_run. cbn [alter_task modify_state mret M_ret].
  assert (with_tasks (alter (with_status RUNNING) id) m = with_tasks (alter (λ _, with_status RUNNING t) id) m) as ->.
  { unfold with_tasks. f_equal. by apply alter_at. }
  pose proof Hi as [_ _ (held & _ & Hh & _)]. destruct (Hh id t Et) as (ps & _ & Hok).
  assert (batched t = false) as Hb by (unfold batched; rewrite Ety; by destruct Hty as [-> | ->]).
  pose proof (ok_shape _ _ _ _ _ _ Hok Hco) as Hsh. rewrite Hb in Hsh. destruct Hsh as [pc Hpc].
  destruct (ok_routed _ _ _ _ _ _ Hok) as (g & Eg & _); [unfold ended; unfold is_completed in Hco; by destruct (status t)|].
  rewrite Eg. pose proof (ok_nonempty _ _ _ _ _ _ Hok g) as Hne. rewrite (proj2 (Z.ltb_lt 0 (num_ops g))) by by apply Hne.
  split; [apply (inv_relaunch _ _ _ m id t); [done..|]; apply relaunch_status; auto|]. split; [done|].
  apply NoDup_app in Hn as (_ & Hn & _).
  eapply (collected_add m pre id t (with_status RUNNING t) pc acc); [done| |done|done|cbn; by rewrite Hpc| |done].
  - intros Hin. apply (Hn id Hin). left.
  - cbn. apply dict_update_harmless; [by destruct Hc as (? & _ & _ & ? & _)|]. apply (ok_ops _ _ _ _ _ _ Hok).
Qed.

(** Concatenating reads the table only. *)
Lemma concatenate_reads {A} (f : KVTask (C * Trace) → option (list A)) task_ids m0 :
  triple (λ m, m = m0) (λ m, m = m0) (concatenate_of f task_ids) (λ _ m, m = m0).
Proof.
  unfold concatenate_of. eapply (triple_bind _ _ _ _ (λ _ m, m = m0)); [|intros l; by apply triple_lift].
  apply (triple_for_acc _ (λ _ _ _ m, m = m0)). intros pre acc id post m ->. rewrite M_bind_run. unfold task_of. by destruct (tasks m0 !! id).
Qed.

(** The graph of a task of the table was made before now. *)
Lemma graph_before careful gone exempt m id t g :
  Inv (C := C) careful gone exempt m → tasks m !! id = Some t → graph t = Some g →
  graph_id g < _next_graph_id (ids m) ∧ graph_to_task m !! graph_id g = Some id.
Proof.
  intros [_ Hr (held & _ & Hh & _)] Et Eg. destruct (Hh id t Et) as (ps & _ & Hok).
  destruct (ended t) eqn:He; [apply (ok_ended _ _ _ _ _ _ Hok) in He as [? _]; congruence|].
  destruct (ok_routed _ _ _ _ _ _ Hok He) as (g' & Eg' & Hg). simplify_eq. split; [by apply (Hr _ _ Hg)|done].
Qed.

(** The batch task is put in, its members are taken out. *)
Lemma replace_members_inv careful gone m0 batch task_ids acc t g i :
  Inv careful gone None m0 → NoDup task_ids → collected task_ids acc m0 → tasks m0 !! batch = None → batch ∉ gone →
  graph_id g = _next_graph_id (ids m0) → _next_graph_id (ids m0) < _next_graph_id i →
  task_id t = batch → live t → batched t = true → graph t = Some g → callback t = CallbackList (mb_callbacks acc) →
  Forall (λ e, harmless e.2) (op_callback_dict t) →
  triple (Inv (C := C) careful gone None) (λ m, m = with_world (cache_engine m0, i) m0)
    (set_task batch t ;; map_graph (graph_id g) batch ;; for_each remove_member task_ids ;; mret g)
    (λ _ m, Inv careful gone None m ∧ at_task batch live m).
Proof.
  intros Hi Hnd (ms & Hms & Hcb & _ & Hp) Eb Hbg Egid Hlt Hid Hlive Hbat Eg Ecb Hops m ->.
  set (m1 := with_world (cache_engine m0, i) m0). rewrite M_bind_run. cbn [set_task modify_state]. rewrite M_bind_run. cbn [map_graph modify_state].
  set (m2 := with_graph_to_task _ _).
  assert (batch ∉ task_ids) as Hb.
  { intros Hin. rewrite Forall_forall in Hp. destruct (Hp _ Hin) as [u Eu]. congruence. }
  assert (Inv careful gone None m1) as Hi1 by (eapply (inv_world _ _ _ m0); try done; cbn; lia).
  assert (∀ k, k ≠ batch → tasks m2 !! k = tasks m0 !! k) as Hm2 by (intros k Hk; cbn; by rewrite lookup_insert_ne).
  destruct (remove_members_run task_ids m2 Hnd) as (m3 & E & Ei & Ec & Et & Er).
  { rewrite Forall_forall in Hp |- *. intros k Hk. destruct (Hp k Hk) as [u Eu]. exists u. rewrite Hm2; [done|]. by intros ->. }
  rewrite M_bind_run, E. cbn [mret M_ret]. assert (tasks m3 !! batch = Some t) as Ebt.
  { rewrite Et, decide_False by done. cbn. by rewrite lookup_insert_eq. }
  split; [|by exists t]. pose proof Hi as [_ Hr _].
  eapply (inv_batch careful gone m1 m3 batch t g task_ids ms); try done.
  - unfold trace_of. by rewrite Ec.
  - intros k Ek. destruct (Hr _ _ Ek) as [? _]. lia.
  - rewrite Egid. exact Hlt.
  - intros g' k. rewrite Er. cbn [graph_to_task m2 with_graph_to_task with_tasks m1 with_world]. split.
    + intros [[[<- <-]|[Hne Ek]]%lookup_insert_Some Hall]; [by left|right]. split; [done|]. intros Hk.
      rewrite Forall_forall in Hp. destruct (Hp k Hk) as [u Eu]. destruct (Hr g' k Ek) as (_ & _ & Hu). destruct (Hu u Eu) as (gr & Egr & Egg).
      apply (Hall k u gr Hk); [|done|done]. rewrite Hm2; [done|]. by intros ->.
    + intros Hcase. split.
      * apply lookup_insert_Some. destruct Hcase as [[-> ->]|[Ek Hk]]; [by left|right]. split; [|done]. destruct (Hr _ _ Ek) as [? _]. lia.
      * intros id u gr Hin Eu Egr. rewrite Hm2 in Eu by by intros ->. destruct (graph_before careful gone None m0 id u gr Hi Eu Egr) as [Hgl Hgr].
        destruct Hcase as [[-> ->]|[Ek Hk]]; [lia|]. intros <-. rewrite Hgr in Ek. injection Ek as ->. done.
  - by rewrite Ecb, Hcb.
Qed.

Lemma collect_member_absent ty acc id batch :
  keeps (λ m : KVTaskManager (C * Trace), tasks m !! batch = None) (collect_member ty acc id).
Proof.
  intros m Eb. unfold collect_member. rewrite M_bind_run. unfold task_of at 1.
  destruct (tasks m !! id) as [t|] eqn:Et; [|done]. rewrite M_bind_run. unfold assertM, lift_result.
  destruct (py_assert _) as [[]|x]; [|done]. rewrite M_bind_run. unfold check_task_ready. rewrite M_bind_run. unfold task_of. rewrite Et.
  destruct (is_completed t); [done|]. destruct (negb _); [done|]. rewrite M_bind_run. cbn [alter_task modify_state mret M_ret].
  assert (tasks (with_tasks (alter (with_status RUNNING) id) m) !! batch = None) as Ea by (cbn; rewrite lookup_alter_ne; [done|congruence]).
  destruct (graph t) as [g|]; [|done]. by destruct (0 <? num_ops g).
Qed.

Lemma collect_members_inv careful gone ty batch task_ids :
  ty = GET ∨ ty = PUT →
  triple (Inv (C := C) careful gone None) (λ m, Inv careful gone None m ∧ NoDup task_ids ∧ tasks m !! batch = None)
    (for_acc (collect_member ty) (mkMembers [] [] [] [] []) task_ids)
    (λ acc m, Inv careful gone None m ∧ collected task_ids acc m ∧ tasks m !! batch = None).
Proof.
  intros Hty.
  assert (triple (Inv careful gone None) (λ m, Inv careful gone None m ∧ NoDup ([] ++ task_ids) ∧ collected [] (mkMembers [] [] [] [] []) m)
    (for_acc (collect_member ty) (mkMembers [] [] [] [] []) task_ids)
    (λ acc m, Inv (C := C) careful gone None m ∧ NoDup (task_ids ++ []) ∧ collected task_ids acc m)) as H1.
  { apply (triple_for_acc _ (λ pre acc post m, Inv careful gone None m ∧ NoDup (pre ++ post) ∧ collected pre acc m)).
    intros pre acc id post. by apply collect_member_inv. }
  assert (keeps (λ m : KVTaskManager (C * Trace), tasks m !! batch = None) (for_acc (collect_member ty) (mkMembers [] [] [] [] []) task_ids)) as H2.
  { apply keeps_for_acc. intros acc id. apply collect_member_absent. }
  eapply triple_weaken; [eapply triple_exn; [exact (triple_and _ _ _ _ _ _ _ H1 H2)|]| |].
  - by intros m [Hm _].
  - intros m (Hi & Hn & Eb). split_and!; [done|done|apply collected_nil|done].
  - intros acc m [(Hi & _ & Hc) Eb]. done.
Qed.

Lemma merge_batch_inv careful gone batch task_ids ty lw counter :
  ty = BATCH_GET ∨ ty = BATCH_PUT → batch ∉ gone → NoDup task_ids →
  triple (Inv (C := C) careful gone None) (λ m, Inv careful gone None m ∧ tasks m !! batch = None)
    (merge_to_batch_kvtask batch task_ids ty lw counter) (λ _ m, Inv careful gone None m ∧ at_task batch live m).
Proof.
  intros Hty Hgone Hnd. unfold merge_to_batch_kvtask. eapply triple_bind.
  { eapply triple_weaken; [apply (collect_members_inv careful gone _ batch task_ids)| |intros acc m Hm; exact Hm].
    - destruct Hty as [-> | ->]; cbn; auto.
    - intros m (Hi & Eb). done. }
  intros acc. apply triple_state. intros m0 (Hi & Hc & Eb).
  eapply (triple_bind _ _ _ _ (λ r m, ∃ i, m = with_world (cache_engine m0, i) m0 ∧ graph_id r.1.1 = _next_graph_id (ids m0) ∧
    _next_graph_id (ids m0) < _next_graph_id i ∧ Forall (λ e, harmless e.2) r.2)).
  { intros ? ->. unfold on_task_ids.
    pose proof (merge_frame harmless combined_harmless (mb_graphs acc) (mb_task_end_op_ids acc) (mb_op_callback_dict acc) lw counter (ids m0)) as Hm.
    destruct (merge_to_batch_graph _ _ _ _ _ _) as [[[[g e] d]|x] i]; (destruct Hm as [Hle Hm]; [by destruct Hc as (? & _ & _ & ? & _)|]).
    - destruct (Hm g e d eq_refl) as (Egid & Hlt & Hd). by exists i.
    - by eapply (inv_world _ _ _ m0). }
  intros [[g e] d]. apply triple_state. intros m1 (i & Em1 & Egid & Hlt & Hd). cbn [fst snd] in *.
  assert (Inv careful gone None m1) as Hi1 by (subst m1; eapply (inv_world _ _ _ m0); try done; cbn; lia).
  assert (∀ A (f : KVTask (C * Trace) → option (list A)), triple (Inv careful gone None) (λ m, m = m1) (concatenate_of f task_ids) (λ _ m, m = m1)) as Hread.
  { intros A f. eapply triple_exn; [apply concatenate_reads|]. by intros ? ->. }
  eapply triple_bind; [apply Hread|]. intros tokens. eapply triple_bind; [apply Hread|]. intros slots.
  eapply triple_bind; [apply Hread|]. intros mask. rewrite Em1.
  apply (replace_members_inv careful gone m0 batch task_ids acc); try done.
  unfold batched. cbn. by destruct Hty as [-> | ->].
Qed.
End batching.

(** ** The calls of a client *)

Section calls.
Context {C : Type} `{!CacheService C, !CacheServiceLaws C}.
Context (XXH64 : list Z → Z) (clock : nat → float) (poll : nat → list CompletedOp) (deployment : Deployment).
Implicit Types (t : KVTask (C * Trace)) (m : KVTaskManager (C * Trace)) (careful : bool) (gone : gset Z).

(** Reading and altering the table leave [F] alone, a property of the counter and of which tasks are absent. *)
Definition absent (batch n : Z) m : Prop := tasks m !! batch = None ∧ task_id_counter m = n.

Lemma absent_task_of batch n id : keeps (absent batch n) (task_of id).
Proof. intros m Hm. unfold task_of. by destruct (tasks m !! id). Qed.

Lemma absent_alter batch n id f : keeps (absent batch n) (alter_task id f).
Proof. apply keeps_modify. intros m [Eb En]. split; [|done]. cbn. destruct (decide (id = batch)) as [->|Hne]; [by rewrite lookup_alter_eq, Eb|by rewrite lookup_alter_ne]. Qed.

Lemma absent_set_slots batch n task_ids slots swa : keeps (absent batch n) (set_slot_mappings deployment task_ids slots swa).
Proof.
  apply keeps_for_each. intros e _. unfold _set_slot_mapping_impl, set_gpu_blocks_of.
  keeps_steps; auto using absent_task_of, absent_alter. unfold deref. keeps_steps.
Qed.

Lemma absent_all_type batch n ty task_ids : keeps (absent batch n) (all_of_type ty task_ids).
Proof. induction task_ids; cbn [all_of_type]; keeps_steps; auto using absent_task_of. Qed.

(** The batch the call would make is a new task. *)
Definition new_batch gone batch_id m : Prop :=
  let id := if batch_id =? -1 then task_id_counter m else batch_id in tasks m !! id = None ∧ id ∉ gone.

Lemma launch_batch_inv careful gone task_ids ty lw counter batch :
  ty = BATCH_GET ∨ ty = BATCH_PUT → batch ∉ gone → NoDup task_ids →
  triple (Inv (C := C) careful gone None) (λ m, Inv careful gone None m ∧ tasks m !! batch = None)
    (g ← merge_to_batch_kvtask batch task_ids ty lw counter; task_of batch ;; alter_task batch (with_status RUNNING) ;;
     submit_batch deployment [g] ;; mret [batch]) (λ _, Inv careful gone None).
Proof.
  intros Hty Hgone Hnd. eapply triple_bind; [by apply merge_batch_inv|]. intros g.
  eapply (triple_bind _ _ _ _ (λ _ m, Inv careful gone None m ∧ at_task batch live m)).
  { intros m [Hi Ht]. unfold task_of. by destruct (tasks m !! batch). }
  intros u. eapply (triple_bind _ _ _ _ (λ _, Inv careful gone None)).
  { apply triple_modify. intros m (Hi & t & Et & Hl).
    assert (with_tasks (alter (with_status RUNNING) batch) m = with_tasks (alter (λ _, with_status RUNNING t) batch) m) as ->.
    { unfold with_tasks. f_equal. by apply alter_at. }
    apply (inv_relaunch _ _ _ m batch t); [done..|]. apply relaunch_status. auto. }
  intros []. eapply triple_bind; [apply submit_batch_inv|]. intros []. by apply triple_ret.
Qed.

Lemma launch_tasks_inv careful gone task_ids slots swa as_batch batch_id lw counter :
  triple (Inv (C := C) careful gone None)
    (λ m, Inv careful gone None m ∧ (as_batch = true → NoDup task_ids ∧ new_batch gone batch_id m))
    (launch_tasks deployment task_ids slots swa as_batch batch_id lw counter) (λ _, Inv careful gone None).
Proof.
  apply triple_state. intros m0 (Hi & Hbatch).
  set (id := if batch_id =? -1 then task_id_counter m0 else batch_id) in *.
  set (Q := λ m, Inv careful gone None m ∧ (as_batch = true → absent id (task_id_counter m0) m)).
  assert (∀ A (op : M (KVTaskManager (C * Trace)) A), triple (Inv careful gone None) (Inv careful gone None) op (λ _, Inv careful gone None) →
    keeps (absent id (task_id_counter m0)) op → triple (Inv careful gone None) Q op (λ _, Q)) as Hstep.
  { intros A op H1 H2 m [Hm Ha]. specialize (H1 m Hm). destruct as_batch.
    - specialize (H2 m (Ha eq_refl)). destruct (op m) as [[a|x] m']; [|done]. by split.
    - destruct (op m) as [[a|x] m']; [|done]. by split. }
  apply (triple_weaken _ Q _ _ (λ _, Inv careful gone None)); [|intros ? ->; split; [done|]; intros E; by destruct (Hbatch E) as (_ & ? & _)|done].
  unfold launch_tasks. eapply (triple_bind _ _ _ _ (λ _, Q)).
  { destruct slots; [by apply triple_raise; intros m [? _]|by apply triple_ret]. }
  intros []. eapply triple_bind; [apply Hstep; [apply set_slots_inv|apply absent_set_slots]|]. intros [].
  eapply triple_bind; [apply Hstep; [apply all_type_inv|apply absent_all_type]|]. intros all_get.
  eapply triple_bind; [apply Hstep; [apply all_type_inv|apply absent_all_type]|]. intros all_put.
  destruct (_ && as_batch && _) eqn:Hcase.
  - assert (as_batch = true) as Hb by (destruct as_batch; [done|]; by rewrite andb_false_r in Hcase).
    destruct (Hbatch Hb) as (Hnd & _ & Hgone).
    eapply (triple_bind _ _ _ _ (λ b m, b = id ∧ Inv careful gone None m ∧ tasks m !! b = None)).
    { intros m [Hm Ha]. destruct (Ha Hb) as [Ea En]. unfold resolve_task_id, id. destruct (batch_id =? -1) eqn:Eid; cbn.
      - rewrite En. split_and!; [done| |done]. by eapply (inv_world _ _ _ m).
      - done. }
    intros b. apply triple_state. intros m (-> & Hm & Em).
    eapply triple_weaken; [apply (launch_batch_inv careful gone task_ids (if all_get then BATCH_GET else BATCH_PUT) _ counter id)| |done].
    + destruct all_get; auto.
    + done.
    + done.
    + by intros ? ->.
  - eapply (triple_bind _ _ _ _ (λ _, Inv careful gone None)).
    { eapply triple_weaken; [apply collect_graphs_inv|by intros m [? _]|done]. }
    intros graphs. eapply triple_bind; [apply submit_batch_inv|]. intros []. by apply triple_ret.
Qed.
(** The counter of task ids moves only when an id is made, the clock when it is read. *)
Definition counter_is (n : Z * nat) m : Prop := task_id_counter m = n.1 ∧ clock_reads m = n.2.

Lemma counter_task_of n id : keeps (counter_is n) (task_of id).
Proof. intros m Hm. unfold task_of. by destruct (tasks m !! id). Qed.

Lemma counter_alter n id f : keeps (counter_is n) (alter_task id f).
Proof. by apply keeps_modify. Qed.

Lemma counter_unmap n g : keeps (counter_is n) (unmap_graph g).
Proof. by apply keeps_modify. Qed.

Lemma counter_on_cache n {A} (op : M (C * Trace) A) : keeps (counter_is n) (on_cache op).
Proof. intros m Hm. unfold on_cache. by destruct (op (cache_engine m)) as [[a|x] c]. Qed.

Lemma counter_release n id : keeps (counter_is n) (_release_task id).
Proof. intros m Hm. unfold _release_task. destruct (tasks m !! id) as [t|]; [|done]. by destruct (graph t). Qed.

Lemma counter_on_callbacks n {A} (use : list (TaskCallback (C * Trace)) → C * Trace → A * _) id : keeps (counter_is n) (on_callbacks use id).
Proof.
  unfold on_callbacks. keeps_steps; auto using counter_task_of, counter_on_cache, counter_alter.
Qed.

Lemma keeps_when {St} (I : St → Prop) b (op : M St unit) : keeps I op → keeps I (when b op).
Proof. intros Ho. unfold when. destruct b; [done|apply keeps_ret]. Qed.

Hint Resolve counter_task_of counter_alter counter_unmap counter_on_cache counter_release counter_on_callbacks keeps_when : keeps.

Lemma counter_end_task n id s : keeps (counter_is n) (end_task id s).
Proof. unfold end_task. keeps_steps; auto with keeps. unfold deref. keeps_steps. Qed.
Hint Resolve counter_end_task : keeps.

Lemma counter_mark n id : keeps (counter_is n) (_mark_completed deployment id).
Proof. unfold _mark_completed. keeps_steps; auto with keeps. Qed.

Lemma counter_fail n id : keeps (counter_is n) (_fail_task id).
Proof. unfold _fail_task, _abort_task_plans. keeps_steps; auto with keeps. Qed.

Lemma counter_update_tasks n : keeps (counter_is n) (_update_tasks poll deployment).
Proof.
  unfold _update_tasks. apply keeps_bind.
  - intros m Hm. unfold poll_handles. by destruct (_get_completed_ops _ _ _).
  - intros ops. apply keeps_for_each. intros c _. unfold update_task, run_op_callback.
    keeps_steps; auto using counter_mark, counter_fail with keeps.
    intros m Hm. unfold raises. pose proof (counter_on_cache n (invoke_op_callback c0 (Some c)) m Hm) as Hk.
    by destruct (on_cache _ m) as [[? | ?] m'].
Qed.

Lemma update_usable careful gone id :
  triple (Inv (C := C) careful gone None) (λ m, Inv careful gone None m ∧ usable gone id m) (_update_tasks poll deployment)
    (λ _ m, Inv careful gone None m ∧ usable gone id m).
Proof.
  apply triple_state. intros m0 (Hi & Hu). intros ? ->. pose proof (update_tasks_inv deployment poll careful gone None m0 Hi) as H1.
  pose proof (counter_update_tasks (task_id_counter m0, clock_reads m0) m0 (conj eq_refl eq_refl)) as H2. destruct (_update_tasks poll deployment m0) as [[a|x] m]; [|done].
  split; [done|]. unfold usable. by rewrite (proj1 H2).
Qed.

Lemma get_match_inv careful gone tokens dp mask cpu id ns aware :
  triple (Inv (C := C) careful gone None) (λ m, Inv careful gone None m ∧ usable gone id m)
    (get_match poll deployment tokens dp mask cpu id ns aware) (λ _, Inv careful gone None).
Proof.
  unfold get_match. eapply triple_bind; [apply update_usable|]. intros []. eapply (triple_bind _ _ _ _ (λ _ m, Inv careful gone None m ∧ usable gone id m)).
  { destruct (_ =? _)%nat; [by apply triple_ret|apply triple_raise; by intros m [? _]]. }
  intros []. apply get_match_impl_inv.
Qed.

Lemma put_match_inv careful gone tokens dp mask id ns :
  triple (Inv (C := C) careful gone None) (λ m, Inv careful gone None m ∧ usable gone id m)
    (put_match poll deployment tokens dp mask id ns) (λ _, Inv careful gone None).
Proof. unfold put_match. eapply triple_bind; [apply update_usable|]. intros []. apply put_match_impl_inv. Qed.

Lemma get_async_inv careful gone tokens slots dp mask id ns :
  triple (Inv (C := C) careful gone None) (λ m, Inv careful gone None m ∧ usable gone id m)
    (get_async deployment tokens slots dp mask id ns) (λ _, Inv careful gone None).
Proof.
  unfold get_async. eapply triple_bind; [apply get_match_impl_inv|]. intros [id' r]. eapply triple_bind; [apply launch_task_inv|].
  intros []. by apply triple_ret.
Qed.

Lemma put_async_inv careful gone tokens slots dp mask id ns :
  triple (Inv (C := C) careful gone None) (λ m, Inv careful gone None m ∧ usable gone id m)
    (put_async deployment tokens slots dp mask id ns) (λ _, Inv careful gone None).
Proof.
  unfold put_async. eapply triple_bind; [apply put_match_impl_inv|]. intros [id' r]. eapply triple_bind; [apply launch_task_inv|].
  intros []. by apply triple_ret.
Qed.

Lemma prefetch_async_inv careful gone tokens dp id ns aware :
  triple (Inv (C := C) careful gone None) (λ m, Inv careful gone None m ∧ usable gone id m)
    (prefetch_async XXH64 deployment tokens dp id ns aware) (λ _, Inv careful gone None).
Proof.
  unfold prefetch_async. eapply triple_bind; [apply resolve_id_inv|]. intros id'.
  eapply triple_bind; [apply create_prefetch_inv|]. intros []. eapply triple_bind; [apply process_new_inv|]. intros [].
  eapply triple_bind; [apply launch_task_inv|]. intros []. by apply triple_ret.
Qed.

(** Cancelling a task leaves the others as they are. *)
Definition task_is k (o : option (KVTask (C * Trace))) m : Prop := tasks m !! k = o.

Lemma cancel_task_other k o id : k ≠ id → keeps (task_is k o) (_cancel_task id).
Proof.
  intros Hk.
  assert (∀ f, keeps (task_is k o) (alter_task id f)) as Halter.
  { intros f. apply keeps_modify. intros m Hm. unfold task_is. cbn. by rewrite lookup_alter_ne. }
  assert (keeps (task_is k o) (_release_task id)) as Hrel.
  { intros m Hm. unfold _release_task, task_is in *. destruct (tasks m !! id) as [t|]; [|done]. by destruct (graph t); cbn; rewrite lookup_delete_ne. }
  assert (keeps (task_is k o) (_abort_task_plans id)) as Hab.
  { unfold _abort_task_plans, on_callbacks. keeps_steps; auto.
    - intros m Hm. unfold task_of. by destruct (tasks m !! id).
    - intros m Hm. done. }
  unfold _cancel_task. keeps_steps; auto. unfold when. destruct (negb _); keeps_steps; auto; destruct (_ || _); auto; apply keeps_ret.
Qed.

(** Cancelling is careful when no task that is RUNNING is cancelled. *)
Definition none_running (task_ids : list Z) m : Prop := ∀ id t, id ∈ task_ids → tasks m !! id = Some t → status t ≠ RUNNING.

Lemma cancel_tasks_inv gone careful task_ids :
  triple (Inv (C := C) careful gone None) (λ m, Inv careful gone None m ∧ (careful = true → none_running task_ids m))
    (cancel_tasks task_ids) (λ _, Inv careful gone None).
Proof.
  eapply triple_weaken; [apply (triple_for_each _ (λ m, Inv careful gone None m ∧ (careful = true → none_running task_ids m)))|done|by intros [] m [? _]].
  intros id Hin. apply triple_state. intros m0 (Hi & Hrun). intros ? ->.
  assert (Inv careful gone None m0 ∧ (careful = true → ∀ t, tasks m0 !! id = Some t → status t ≠ RUNNING)) as Hpre.
  { split; [done|]. intros Hca t. by apply Hrun. }
  pose proof (cancel_task_inv careful gone None id m0 Hpre) as Hc.
  assert (∀ k, k ≠ id → tasks (_cancel_task id m0).2 !! k = tasks m0 !! k) as Hother.
  { intros k Hk. pose proof (cancel_task_other k _ id Hk m0 eq_refl) as Ho. by destruct (_cancel_task id m0) as [[? | ?] m']. }
  destruct (_cancel_task id m0) as [[[]|x] m]; [|done]. destruct Hc as [Hi' Hgone]. split; [done|].
  intros Hca k t Hk Et. destruct (decide (k = id)) as [->|Hne]; [congruence|]. cbn in Hother. rewrite Hother in Et by done. by eapply Hrun.
Qed.

(** A reset drops the plans of the tasks that are not completed. *)
Lemma reset_inv gone : triple (Inv (C := C) false gone None) (Inv false gone None) reset_cache (λ _, Inv false gone None).
Proof.
  unfold reset_cache. eapply (triple_bind _ _ _ _ (λ _, Inv false gone None)).
  - apply triple_modify. intros m [Ht Hr (held & Hd & Hh & Hl)].
    assert (∀ t, graph (detach t) = graph t) as Hg by (intros t; unfold detach; by destruct (is_completed t)).
    split; [done| |].
    + intros g id Eg. destruct (Hr g id Eg) as (Hlt & Hgo & Hk). split; [done|]. cbn. split.
      * intros Hn. destruct (Hgo Hn) as [u Eu]. rewrite lookup_fmap, Eu. by eexists.
      * intros t. rewrite lookup_fmap. destruct (tasks m !! id) as [u|] eqn:Eu; [|done]. intros [= <-]. rewrite Hg. by apply Hk.
    + exists ((λ _, []) <$> held). split_and!; [split| |done].
      * intros k ps. rewrite lookup_fmap. destruct (held !! k); intros [= <-]. constructor.
      * intros k1 k2 ps1 ps2 p. rewrite !lookup_fmap. destruct (held !! k1); intros [= <-]. by intros _ ?%elem_of_nil.
      * intros id t. cbn. rewrite lookup_fmap. destruct (tasks m !! id) as [u|] eqn:Eu; [|done]. intros [= <-].
        destruct (Hh id u Eu) as (ps & Eps & Hok). exists []. rewrite lookup_fmap, Eps. split; [done|]. unfold detach.
        destruct Hok as [Hid Hp Ho He Hro Hde Hsh Hn]. destruct (is_completed u) eqn:Hc.
        -- split; try done; try congruence; by rewrite (Hde eq_refl).
        -- split; try done; try (by constructor). intros _. apply Hro. unfold ended, is_completed in *. by destruct (status u).
  - intros []. intros m Hi. unfold on_cache. cbn. unfold untraced.
    destruct (cs_reset (cache_engine m).1) as [[a|x] c]; by eapply (inv_world _ _ _ m).
Qed.

(** An entry of the table expires. *)
Lemma expire_inv careful gone id m :
  Inv careful gone None m → Inv (C := C) false ({[id]} ∪ gone) None (with_tasks (delete id) m).
Proof.
  intros [Ht Hr (held & Hd & Hh & Hl)]. split; [done| |].
  - intros g k Ek. destruct (Hr g k Ek) as (Hlt & Hgo & Hk). split; [done|]. cbn. split.
    + intros Hn. rewrite lookup_delete_ne by set_solver. apply Hgo. set_solver.
    + intros t [_ Et]%lookup_delete_Some. by apply Hk.
  - exists held. split_and!; [done| |done]. cbn. intros k t [_ Et]%lookup_delete_Some. by apply Hh.
Qed.

(** Answering for a task, and waiting. *)
Lemma keep_table_of careful gone id : triple (Inv (C := C) careful gone None) (Inv careful gone None) (task_of id) (λ t m, Inv careful gone None m ∧ tasks m !! id = Some t).
Proof. intros m Hi. unfold task_of. destruct (tasks m !! id) eqn:E; done. Qed.

Lemma collect_response_inv careful gone id :
  triple (Inv (C := C) careful gone None) (Inv careful gone None) (collect_response id) (λ _, Inv careful gone None).
Proof.
  unfold collect_response. eapply triple_bind; [apply keep_table_of|]. intros t. apply triple_state. intros m (Hi & Et).
  eapply (triple_bind _ _ _ _ (λ _ m', m' = m)); [apply triple_lift; [by intros ? ->|done]|]. intros s.
  eapply (triple_bind _ _ _ _ (λ _ m', m' = with_tasks (alter with_returned id) m)); [apply triple_modify; by intros ? ->|]. intros [].
  eapply (triple_bind _ _ _ _ (λ _, Inv careful gone None)); [|intros []; by apply triple_ret].
  assert (Inv careful gone None (with_tasks (alter with_returned id) m)) as Hi'.
  { apply alter_alike; [intros; apply alike_flags|done]. }
  unfold when. destruct (is_completed t) eqn:Hc; [|apply triple_ret; by intros ? ->].
  intros ? ->. pose proof (release_inv careful gone None id _ Hi') as Hr.
  assert (tasks (with_tasks (alter with_returned id) m) !! id = Some (with_returned t)) as Et' by (cbn; by rewrite lookup_alter_eq, Et).
  rewrite (release_run _ _ _ Et') in Hr |- *. apply Hr. intros u Eu _. by eapply (completed_spent careful gone None); [exact Hi'|exact Eu|simplify_eq].
Qed.

Lemma check_completed_inv careful gone id completely :
  triple (Inv (C := C) careful gone None) (Inv careful gone None) (check_completed deployment id completely) (λ _, Inv careful gone None).
Proof.
  unfold check_completed. eapply triple_bind; [apply keep_table_of|]. intros t.
  eapply (triple_bind _ _ _ _ (λ _, Inv careful gone None)).
  - eapply triple_weaken; [eapply triple_exn; [apply (process_empty_inv deployment careful gone None id)|intros m Hm; exact (False_ind _ Hm)]| |by intros [] m [? _]].
    intros m (Hi & Et). split; [done|by exists t].
  - intros []. eapply (triple_bind _ _ _ _ (λ _, Inv careful gone None)); [by apply triple_get_state|]. intros m. by apply triple_ret.
Qed.

Lemma wait_one_inv careful gone fuel start timeout completely only id is_timeout :
  triple (Inv (C := C) careful gone None) (Inv careful gone None)
    (wait_one clock poll deployment fuel start timeout completely only id is_timeout) (λ _, Inv careful gone None).
Proof.
  revert is_timeout. induction fuel as [|fuel IH]; intros is_timeout; cbn [wait_one]; [by apply triple_raise|].
  eapply (triple_bind _ _ _ _ (λ _, Inv careful gone None)); [by apply triple_get_state|]. intros m0.
  destruct (tasks m0 !! id) as [t|]; [|by apply triple_ret]. destruct (bool_decide _); [by apply triple_ret|].
  eapply triple_bind; [apply check_completed_inv|]. intros completed. destruct completed.
  { eapply triple_bind; [apply collect_response_inv|]. intros r. by apply triple_ret. }
  destruct only; [by apply triple_ret|].
  eapply (triple_bind _ _ _ _ (λ _, Inv careful gone None)).
  { intros m Hi. by eapply (inv_world _ _ _ m). }
  intros time. destruct (_ || _); [by apply triple_ret|]. eapply triple_bind; [apply update_tasks_inv|]. intros []. apply IH.
Qed.

Lemma wait_impl_inv careful gone fuel task_ids timeout completely only :
  triple (Inv (C := C) careful gone None) (Inv careful gone None)
    (_wait_impl clock poll deployment fuel task_ids timeout completely only) (λ _, Inv careful gone None).
Proof.
  unfold _wait_impl. eapply (triple_bind _ _ _ _ (λ _, Inv careful gone None)).
  { intros m Hi. by eapply (inv_world _ _ _ m). }
  intros start. eapply triple_bind; [apply update_tasks_inv|]. intros [].
  generalize (f_eqb timeout (f_of_Z 0)) as is_timeout. generalize (@nil (Z * KVResponse)) as acc.
  induction task_ids as [|id task_ids IH]; intros acc is_timeout; cbn [wait_all]; [by apply triple_ret|].
  eapply triple_bind; [apply wait_one_inv|]. intros [r b]. apply IH.
Qed.

Lemma sync_prefetch_inv careful gone fuel tokens ns :
  triple (Inv (C := C) careful gone None) (Inv careful gone None)
    (_sync_prefetch XXH64 clock poll deployment fuel tokens ns) (λ _, Inv careful gone None).
Proof.
  unfold _sync_prefetch. eapply (triple_bind _ _ _ _ (λ _, Inv careful gone None)); [by apply triple_get_state|]. intros m0.
  destruct (prefetch_tasks m0 !! _); [|by apply triple_ret]. eapply triple_bind; [apply wait_impl_inv|]. intros r. by apply triple_ret.
Qed.
End calls.
End TaskSteps.
