(* ===== verification/TaskHistory.v ===== *)
(** * TaskHistory: all histories of the task manager

    [client_call] lists the calls a client can make on [KVTaskEngine], with what the
    client must respect; [manager_step] adds the expiry of entries of the two
    ExpiringDicts; a [history] is any sequence of steps from a new manager.  The
    theorems hold of every history, over every cache engine with
    [CacheServiceLaws], whatever the transfer managers report ([poll]) and whenever
    the client asks ([clock]).  A toy engine instantiates the class for the
    witnesses. *)

From S2P Require Import Prelude PyFloat Block Transfer GraphBuild BatchMerge BatchFrame CacheEngine GlobalCache CompletionAgg TaskManager TaskLife TaskSteps.
Import GraphBuild.GraphBuild BatchMerge.BatchMerge BatchFrame.BatchFrame GlobalCache.GlobalCache CompletionAgg.CompletionAgg.
Import TaskManager.TaskManager TaskLife.TaskLife TaskSteps.TaskSteps.
Local Open Scope Z_scope.

Module TaskHistory.

Section histories.
Context {C : Type} `{!CacheService C}.
Context (XXH64 : list Z → Z) (clock : nat → float) (poll : nat → list CompletedOp) (deployment : Deployment).
Abbreviation Manager := (M (KVTaskManager (C * Trace))).
Implicit Types (t : KVTask (C * Trace)) (m : KVTaskManager (C * Trace)) (careful : bool) (gone : gset Z).

(** ** Steps *)

(** The calls.  Ids must not be those of expired tasks that completions are still routed to; a batch is made of
    different tasks, under a new id.  A [careful] client neither cancels launched tasks nor resets the cache. *)
Inductive client_call careful gone m : ∀ {A}, Manager A → Prop :=
  | call_get_async tokens slots dp mask id ns :
      usable gone id m → client_call careful gone m (get_async deployment tokens slots dp mask id ns)
  | call_put_async tokens slots dp mask id ns :
      usable gone id m → client_call careful gone m (put_async deployment tokens slots dp mask id ns)
  | call_get_match tokens dp mask cpu id ns aware :
      usable gone id m → client_call careful gone m (get_match poll deployment tokens dp mask cpu id ns aware)
  | call_put_match tokens dp mask id ns :
      usable gone id m → client_call careful gone m (put_match poll deployment tokens dp mask id ns)
  | call_prefetch_async tokens dp id ns aware :
      usable gone id m → client_call careful gone m (prefetch_async XXH64 deployment tokens dp id ns aware)
  | call_launch_tasks task_ids slots swa as_batch batch_id lw counter :
      (as_batch = true → NoDup task_ids ∧ new_batch gone batch_id m) →
      client_call careful gone m (launch_tasks deployment task_ids slots swa as_batch batch_id lw counter)
  | call_cancel_tasks task_ids :
      (careful = true → none_running task_ids m) → client_call careful gone m (cancel_tasks task_ids)
  | call_reset_cache : careful = false → client_call careful gone m reset_cache
  | call_try_wait fuel task_ids : client_call careful gone m (try_wait clock poll deployment fuel task_ids)
  | call_wait fuel task_ids timeout completely :
      client_call careful gone m (wait clock poll deployment fuel task_ids timeout completely)
  | call_sync_prefetch fuel tokens ns : client_call careful gone m (_sync_prefetch XXH64 clock poll deployment fuel tokens ns).

(** The state of a history: the manager, and the ids of the tasks that expired. *)
Inductive manager_step careful : gset Z * KVTaskManager (C * Trace) → gset Z * KVTaskManager (C * Trace) → Prop :=
  | step_call gone m A (op : Manager A) :
      client_call careful gone m op → manager_step careful (gone, m) (gone, (op m).2)
  | step_prefetch_expires gone m key :
      manager_step careful (gone, m) (gone, with_prefetch_tasks (delete key) m)
  | step_task_expires gone m id :
      careful = false → manager_step careful (gone, m) ({[id]} ∪ gone, with_tasks (delete id) m).

Definition history careful (c : C) (i : Ids) : gset Z * KVTaskManager (C * Trace) → Prop :=
  rtc (manager_step careful) (∅, new_manager (c, mkTrace 0 []) i).

Context `{!CacheServiceLaws C}.

Lemma call_keeps_inv careful gone m A (op : Manager A) :
  client_call careful gone m op → Inv careful gone None m → Inv careful gone None (op m).2.
Proof.
  intros Hcall Hi.
  assert (∀ B (o : Manager B) P, triple (Inv careful gone None) P o (λ _, Inv careful gone None) → P m → Inv careful gone None (o m).2) as Ht.
  { intros B o P Ho HP. specialize (Ho m HP). by destruct (o m) as [[a|x] m']. }
  destruct Hcall.
  - by eapply Ht; [apply get_async_inv|].
  - by eapply Ht; [apply put_async_inv|].
  - by eapply Ht; [apply get_match_inv|].
  - by eapply Ht; [apply put_match_inv|].
  - by eapply Ht; [apply prefetch_async_inv|].
  - by eapply Ht; [apply launch_tasks_inv|].
  - by eapply Ht; [apply cancel_tasks_inv|].
  - subst careful. by eapply Ht; [apply reset_inv|].
  - by eapply Ht; [apply wait_impl_inv|].
  - by eapply Ht; [apply wait_impl_inv|].
  - by eapply Ht; [apply sync_prefetch_inv|].
Qed.

Lemma new_manager_inv careful c i : Inv careful ∅ None (new_manager (C := C * Trace) (c, mkTrace 0 []) i).
Proof.
  split.
  - split_and!; [constructor|constructor|done].
  - intros g id. cbn. by rewrite lookup_empty.
  - exists ∅. split_and!; [split|..].
    + apply map_Forall_empty.
    + intros id1 id2 ps1 ps2 p. by rewrite lookup_empty.
    + intros id t. cbn. by rewrite lookup_empty.
    + intros _ p. cbn. lia.
Qed.

Lemma history_inv careful c i gone m : history careful c i (gone, m) → Inv careful gone None m.
Proof.
  intros Hh. refine (rtc_ind_r (λ s, Inv careful s.1 None s.2) _ _ _ _ Hh); [apply new_manager_inv|].
  intros s s' _ Hs Hi. destruct Hs as [gone' m' A op Hc|gone' m' key|gone' m' id ->]; cbn in *.
  - by apply call_keeps_inv.
  - by eapply (inv_world _ _ _ m').
  - by eapply expire_inv.
Qed.

(** ** Theorems *)

(** [C5] The table of tasks over any history.  Every task is stored under its id.  A task that is not
    completed has a graph, its completions are routed to it, and it still has its callback.  A task that
    completed or failed is shed: no graph, no callback, and its end op counts as finished.  And whatever
    is routed goes to the task of the table whose graph has that id, unless the entry expired. *)
Theorem table_invariant careful c i gone m :
  history careful c i (gone, m) →
  (∀ id t, tasks m !! id = Some t →
     task_id t = id ∧
     (is_completed t = false →
        (∃ g, graph t = Some g ∧ graph_to_task m !! graph_id g = Some id) ∧ callback t ≠ NoCallback) ∧
     (status t = COMPLETED ∨ status t = FAILED → graph t = None ∧ callback t = NoCallback ∧ task_end_op_finished t = true)) ∧
  (∀ g id, graph_to_task m !! g = Some id →
     id ∈ gone ∨ ∃ t gr, tasks m !! id = Some t ∧ graph t = Some gr ∧ graph_id gr = g).
Proof.
  intros [_ Hr (held & _ & Hh & _)]%history_inv. split.
  - intros id t Et. destruct (Hh id t Et) as (ps & _ & [Hid _ _ He Hro Hde Hsh _]). split; [done|]. split.
    + intros Hc. split; [apply Hro; unfold ended, is_completed in *; by destruct (status t)|].
      specialize (Hsh Hc). destruct (batched t), Hsh as [? ->]; done.
    + intros Hs. assert (ended t = true) as E by (unfold ended; by destruct Hs as [-> | ->]).
      destruct (He E) as [-> ->]. split_and!; [done| |done]. apply Hde. unfold is_completed. by destruct Hs as [-> | ->].
  - intros g id Eg. destruct (Hr g id Eg) as (_ & Hgo & Hk). destruct (decide (id ∈ gone)) as [?|Hn]; [by left|right].
    destruct (Hgo Hn) as [t Et]. destruct (Hk t Et) as (gr & ? & ?). eauto.
Qed.

(** [C6] Over any history no plan of the cache engine is settled twice: among completions and aborts of
    plans, whichever way they were caused, each plan occurs at most once; and only plans that were made
    are settled. *)
Theorem plans_settled_once careful c i gone m :
  history careful c i (gone, m) →
  NoDup (settled (trace_of m)).*1 ∧ ∀ p, p ∈ (settled (trace_of m)).*1 → 0 <= p < next_plan (trace_of m).
Proof.
  intros [(Hn & Hb & _) _ _]%history_inv. split; [done|]. intros p Hp. unfold settled_plans in *. rewrite Forall_forall in Hb. by apply Hb.
Qed.

(** A plan of a careful history is settled, or a task that is not completed holds it. *)
Definition plan_kept (p : Z) m : Prop :=
  p ∈ (settled (trace_of m)).*1 ∨
  ∃ id t pc h, tasks m !! id = Some t ∧ is_completed t = false ∧ pc ∈ handles_of (callback t) ∧
    pc_handle pc = trace_handle p h ∧ _consumed h = false.

Lemma careful_keeps_plans c i gone m p : history true c i (gone, m) → 0 <= p < next_plan (trace_of m) → plan_kept p m.
Proof.
  intros [_ _ (held & _ & Hh & Hl)]%history_inv Hp. destruct (decide (p ∈ settled_plans (trace_of m))) as [?|Hns]; [by left|right].
  destruct (Hl eq_refl p Hp) as [?|(id & ps & Eps & Hin & [t Et])]; [done|]. destruct (Hh id t Et) as (ps' & Eps' & Hok). simplify_eq.
  apply list_elem_of_lookup in Hin as [k Hk]. destruct (Forall2_lookup_r _ _ _ _ _ (ok_plans _ _ _ _ _ _ Hok) Hk) as (pc & Hpc & _ & Hc & h & Eh).
  exists id, t, pc, h. split_and!; [done| |by eapply list_elem_of_lookup_2|done|].
  - destruct (is_completed t) eqn:Hco; [|done]. rewrite (ok_detached _ _ _ _ _ _ Hok Hco) in Hpc. by destruct k.
  - destruct (_consumed h) eqn:Hh0; [|done]. destruct Hns. apply Hc. by rewrite Eh.
Qed.

(** [C7] Over a careful history no plan is lost: a plan that was made has been completed or aborted, or a
    task of the table that is not completed yet holds its handle, not consumed, so that its end will
    settle it.  (So locks and staged blocks of a plan are never forgotten.) *)
Theorem no_plan_lost c i gone m p :
  history true c i (gone, m) → 0 <= p < next_plan (trace_of m) →
  p ∈ (settled (trace_of m)).*1 ∨
  ∃ id t pc h, tasks m !! id = Some t ∧ is_completed t = false ∧ pc ∈ handles_of (callback t) ∧
    pc_handle pc = trace_handle p h ∧ _consumed h = false.
Proof. apply careful_keeps_plans. Qed.
End histories.

(** ** What a careless client loses *)

Section careless.
Context {C : Type} (deployment : Deployment).
Implicit Types (t : KVTask C) (m : KVTaskManager C).

(** Cancelling a task that is RUNNING drops its plan: the task and the route of its graph leave the tables, the
    plan is neither completed nor aborted (the cache engine is not called), and every later message about the
    graph is ignored, its op callbacks included. *)
Theorem cancel_running_drops_plan id m t g :
  tasks m !! id = Some t → status t = RUNNING → graph t = Some g →
  ∃ m', cancel_tasks [id] m = (Ok tt, m') ∧
    tasks m' = delete id (tasks m) ∧ graph_to_task m' = delete (graph_id g) (graph_to_task m) ∧ cache_engine m' = cache_engine m ∧
    ∀ c, co_graph_id c = graph_id g → update_task deployment c m' = (Ok tt, m').
Proof.
  intros Et Es Eg. set (m' := with_tasks (delete id) (with_graph_to_task (delete (graph_id g)) (with_tasks (alter (with_status CANCELLED) id) m))).
  exists m'. assert (is_completed t = false) as Hc by (unfold is_completed; by rewrite Es).
  assert (_cancel_task id m = (Ok tt, m')) as E.
  { unfold _cancel_task. rewrite M_bind_run. cbn [get_state]. rewrite Et, Hc, Es. unfold when. cbn [negb bool_decide orb].
    rewrite !bool_decide_eq_false_2 by done. cbn [orb]. rewrite M_bind_run. rewrite M_bind_run. cbn [mret M_ret alter_task modify_state].
    unfold _release_task. cbn [tasks with_tasks]. rewrite lookup_alter_eq, Et. cbn [fmap option_fmap option_map graph with_status]. by rewrite Eg. }
  split_and!; [cbn; by rewrite M_bind_run, E| |done|done|].
  - cbn. by rewrite delete_alter, decide_True.
  - intros c Hg. unfold update_task. rewrite M_bind_run. cbn [get_state graph_to_task m' with_tasks with_graph_to_task].
    by rewrite Hg, lookup_delete_eq.
Qed.
End careless.

(** ** A toy engine *)

(** It counts the plans that hold a lock; every plan has a graph of one H2D op, and every token is in the cache. *)
Definition toy_unlock : M Z unit := modify_state (λ locks, locks - 1).

Definition toy_plan (tokens : list Z) : M (Z * Ids) (Planned Z) := λ w,
  let '(r, i) := (g ← TransferOpGraph_init; o ← TransferOp_init (graph_id g) H2D [1] [2] 0 false None None None;
                  mret (add_transfer_op o g, op_id o)) w.2 in
  match r with
  | Ok (g, e) => (Ok (mkPlanned g (ones_like tokens) (mkPlanCallback (mkHandle toy_unlock toy_unlock false) (λ _, [])) [] e), (w.1 + 1, i))
  | Raise x => (Raise x, (w.1, i))
  end.

#[export] Instance toy_service : CacheService Z := {|
  cs_get tokens mask slots dp s namespace swa_aware := toy_plan tokens;
  cs_put tokens mask slots dp namespace := toy_plan tokens;
  cs_reset := put_state 0;
|}.

#[export] Instance toy_laws : CacheServiceLaws Z.
Proof.
  assert (∀ tokens c i, fresh_answer i (toy_plan tokens (c, i))) as Hf; [|by split; intros; apply Hf].
  intros tokens c [o g]. assert (g <= g + 1 ∧ g < g + 1) as [H1 H2] by lia. exact (conj H1 (conj (conj (Z.le_refl g) H2) eq_refl)).
Qed.

Definition toy_hash (l : list Z) : Z := foldl Z.add 0 l.
Definition toy_clock (n : nat) : float := f_of_Z (Z.of_nat n).
Definition toy_deployment : Deployment := mkDeployment [false] 1 1 1 false.

(** Nothing at the first poll; then graph 1 completes. *)
Definition toy_poll (n : nat) : list CompletedOp :=
  match n with 1%nat => [completed_op 1 1; completed_graph 1] | _ => [] end.

Definition toy_start : KVTaskManager (Z * Trace) := new_manager (0, mkTrace 0 []) (mkIds 1 1).

(** A read is launched, another is matched and cancelled before its launch, and the first is waited for. *)
Definition toy_read : M (KVTaskManager (Z * Trace)) (Z * ReturnMask) := get_async toy_deployment [7] [3] 0 None (-1) None.
Definition toy_match : M (KVTaskManager (Z * Trace)) (Z * ReturnMask) := get_match toy_poll toy_deployment [8] 0 None false (-1) None false.

Definition toy_run1 : KVTaskManager (Z * Trace) := (toy_read toy_start).2.
Definition toy_run2 : KVTaskManager (Z * Trace) := (toy_match toy_run1).2.
Definition toy_run3 : KVTaskManager (Z * Trace) := (cancel_tasks [1] toy_run2).2.
Definition toy_run4 : KVTaskManager (Z * Trace) := (wait toy_clock toy_poll toy_deployment 5 [0] default_timeout true toy_run3).2.

Abbreviation toy_history := (history toy_hash toy_clock toy_poll toy_deployment true 0 (mkIds 1 1)).

Lemma toy_history2 : toy_history (∅, toy_run2).
Proof.
  assert (∀ m : KVTaskManager (Z * Trace), usable ∅ (-1) m) as Hu by (intros m; unfold usable; apply not_elem_of_empty).
  apply (rtc_l _ _ (∅, toy_run1)); [|apply rtc_once].
  - apply (step_call _ _ _ _ true ∅ toy_start _ toy_read). apply call_get_async, Hu.
  - apply (step_call _ _ _ _ true ∅ toy_run1 _ toy_match). apply call_get_match, Hu.
Qed.

Lemma toy_history3 : toy_history (∅, toy_run3).
Proof.
  apply (rtc_r _ (∅, toy_run2)); [apply toy_history2|].
  apply (step_call _ _ _ _ true ∅ toy_run2 _ (cancel_tasks [1])). apply call_cancel_tasks.
  intros _ id t ->%list_elem_of_singleton. vm_compute. by intros [= <-].
Qed.

Lemma toy_history4 : toy_history (∅, toy_run4).
Proof.
  apply (rtc_r _ (∅, toy_run3)); [apply toy_history3|].
  apply (step_call _ _ _ _ true ∅ toy_run3 _ (wait toy_clock toy_poll toy_deployment 5 [0] default_timeout true)). apply call_wait.
Qed.

Lemma table_invariant_witness :
  (∃ t g, tasks toy_run2 !! 0 = Some t ∧ status t = RUNNING ∧ graph t = Some g ∧ graph_to_task toy_run2 !! graph_id g = Some 0) ∧
  ∃ t, tasks toy_run2 !! 1 = Some t ∧ status t = UNREADY ∧ callback t ≠ NoCallback.
Proof.
  pose proof (table_invariant _ _ _ _ _ _ _ _ _ toy_history2) as [Ht _].
  assert (∃ t, tasks toy_run2 !! 0 = Some t ∧ status t = RUNNING) as (t & Et & Es) by (eexists; split; vm_compute; reflexivity).
  assert (∃ t, tasks toy_run2 !! 1 = Some t ∧ status t = UNREADY) as (u & Eu & Eus) by (eexists; split; vm_compute; reflexivity).
  destruct (Ht 0 t Et) as (_ & Hl & _), (Ht 1 u Eu) as (_ & Hlu & _). unfold is_completed in *. rewrite Es in Hl. rewrite Eus in Hlu.
  destruct (Hl eq_refl) as ((g & Eg & Hg) & _), (Hlu eq_refl) as (_ & Hc). eauto 10.
Defined.

Lemma plans_settled_once_witness : settled (trace_of toy_run4) = [(1, false); (0, true)] ∧ NoDup (settled (trace_of toy_run4)).*1.
Proof.
  split; [vm_compute; reflexivity|]. exact (proj1 (plans_settled_once _ _ _ _ _ _ _ _ _ toy_history4)).
Defined.

Lemma no_plan_lost_witness : ∃ id t pc h, tasks toy_run2 !! id = Some t ∧ is_completed t = false ∧ pc ∈ handles_of (callback t) ∧
  pc_handle pc = trace_handle 0 h ∧ _consumed h = false.
Proof.
  destruct (no_plan_lost _ _ _ _ _ _ _ _ 0 toy_history2) as [Hs|Hh]; [vm_compute; split; [discriminate|reflexivity]| |exact Hh].
  exfalso. revert Hs. vm_compute. apply not_elem_of_nil.
Defined.

(** The first read of the toy history is cancelled while it runs: its lock stays. *)
Lemma cancel_running_drops_plan_witness :
  ∃ m', cancel_tasks [0] toy_run2 = (Ok tt, m') ∧ tasks m' !! 0 = None ∧ (cache_engine m').1 = 2.
Proof.
  assert (∃ t g, tasks toy_run2 !! 0 = Some t ∧ status t = RUNNING ∧ graph t = Some g) as (t & g & Et & Es & Eg)
    by (eexists _, _; split_and!; vm_compute; reflexivity).
  destruct (cancel_running_drops_plan toy_deployment 0 toy_run2 t g Et Es Eg) as (m' & E & Ht & _ & Hc & _).
  exists m'. split; [exact E|]. rewrite Ht, Hc. split; [apply lookup_delete_eq|vm_compute; reflexivity].
Defined.
End TaskHistory.
