(* ===== verification/TaskWait.v ===== *)
(** * TaskWait: waiting for tasks

    [wait] on the task manager ([TaskManager]): it always returns, once the clock
    passes the timeout, and answers every task asked about exactly once.  First what
    a poll leaves alone ([stable] properties of the tasks), then that polls do not
    raise, then the loop. *)

From S2P Require Import Prelude PyFloat Block Transfer GraphBuild BatchMerge BatchFrame CacheEngine GlobalCache CompletionAgg TaskManager TaskLife TaskSteps TaskHistory.
Import GraphBuild.GraphBuild BatchMerge.BatchMerge BatchFrame.BatchFrame GlobalCache.GlobalCache CompletionAgg.CompletionAgg.
Import TaskManager.TaskManager TaskLife.TaskLife TaskSteps.TaskSteps TaskHistory.TaskHistory.
Local Open Scope Z_scope.

Module TaskWait.

Section stable.
Context {C : Type} (deployment : Deployment).
Implicit Types (t : KVTask C) (m : KVTaskManager C) (cb : TaskCallback C).

(** ** Properties of tasks that polls keep *)

(** A callback after it was used: the same handle, perhaps consumed. *)
Definition used cb cb' : Prop :=
  match cb, cb' with
  | OneCallback p, OneCallback p' => pc_handle p' = pc_handle p ∨ pc_handle p' = consume (pc_handle p)
  | _, _ => cb' = cb
  end.

(** The changes a poll makes to a task. *)
Inductive touched t : KVTask C → Prop :=
  | touch_flags t' : task_type t' = task_type t → status t' = status t → graph t' = graph t → callback t' = callback t → touched t t'
  | touch_end s : s = COMPLETED ∨ s = FAILED → touched t (with_end_finished (with_status s t))
  | touch_shed : touched t (shed_heavy_resources t)
  | touch_callbacks cbs : Forall2 used (callbacks_of (callback t)) cbs → touched t (with_callback (rebuild (callback t) cbs) t).

Definition stable (P : Z → KVTask C → Prop) : Prop := ∀ id t t', touched t t' → P id t → P id t'.
Definition all_tasks (P : Z → KVTask C → Prop) m : Prop := ∀ id t, tasks m !! id = Some t → P id t.

Context (P : Z → KVTask C → Prop) (Hstable : stable P).

Lemma all_task_of id : keeps (all_tasks P) (task_of id).
Proof. intros m Hm. unfold task_of. by destruct (tasks m !! id). Qed.

Lemma all_on_cache {A} (op : M C A) : keeps (all_tasks P) (on_cache op).
Proof. intros m Hm. unfold on_cache. by destruct (op (cache_engine m)) as [[a|x] c]. Qed.

Lemma all_alter id f : (∀ t, touched t (f t)) → keeps (all_tasks P) (alter_task id f).
Proof.
  intros Hf. apply keeps_modify. intros m Hm k t. cbn. intros Ek. destruct (decide (id = k)) as [<-|Hne].
  - rewrite lookup_alter_eq in Ek. destruct (tasks m !! id) as [u|] eqn:Eu; [|done]. injection Ek as <-. eapply Hstable; [apply Hf|by apply Hm].
  - rewrite lookup_alter_ne in Ek by done. by apply Hm.
Qed.

Lemma all_unmap g : keeps (all_tasks P) (unmap_graph g).
Proof. by apply keeps_modify. Qed.

Lemma all_release id : keeps (all_tasks P) (_release_task id).
Proof.
  intros m Hm. unfold _release_task. destruct (tasks m !! id) as [t|]; [|done].
  destruct (graph t); intros k u; cbn; intros [_ Ek]%lookup_delete_Some; by apply Hm.
Qed.

Lemma run_callback_used cb c : used cb (run_callback cb c).2.1.
Proof.
  destruct cb as [|p|l]; [done| |done]. cbn. unfold use_callback, handle_call, handle_once. cbn [fst snd].
  destruct (_consumed (pc_handle p)); [by left|]. destruct (_complete (pc_handle p) c). by right.
Qed.

Lemma abort_callback_used cb c : used cb (abort_callback cb c).2.1.
Proof.
  destruct cb as [|p|l]; [done| |done]. cbn. unfold use_callback, handle_abort, handle_once. cbn [fst snd].
  destruct (_consumed (pc_handle p)); [by left|]. destruct (_abort (pc_handle p) c). by right.
Qed.

Lemma used_refl cb : used cb cb.
Proof. destruct cb; try done. by left. Qed.

Lemma run_callbacks_used cbs c : Forall2 used cbs (run_callbacks cbs c).2.1.
Proof.
  revert c. induction cbs as [|cb cbs IH]; intros c; cbn; [constructor|]. pose proof (run_callback_used cb c) as Hu.
  destruct (run_callback cb c) as [r [cb' c']]. specialize (IH c'). destruct (run_callbacks cbs c') as [b [cbs' c'']]. by constructor.
Qed.

Lemma abort_callbacks_used cbs c : Forall2 used cbs (abort_callbacks cbs c).2.1.
Proof.
  revert c. induction cbs as [|cb cbs IH]; intros c; cbn; [constructor|]. pose proof (abort_callback_used cb c) as Hu.
  destruct (abort_callback cb c) as [[[]|x] [cb' c']].
  - specialize (IH c'). destruct (abort_callbacks cbs c') as [r [cbs' c'']]. by constructor.
  - constructor; [done|]. apply Forall2_same_length_lookup_2; [done|]. intros i x1 x2 E1 E2. simplify_eq. apply used_refl.
Qed.

(** The loops over the callbacks of a task. *)
Lemma all_on_callbacks {A} (use : list (TaskCallback C) → C → A * (list (TaskCallback C) * C)) id :
  (∀ cbs c, Forall2 used cbs (use cbs c).2.1) → keeps (all_tasks P) (on_callbacks use id).
Proof.
  intros Hu m Hm. unfold on_callbacks. rewrite M_bind_run. unfold task_of. destruct (tasks m !! id) as [t|] eqn:Et; [|done].
  rewrite M_bind_run. cbn [get_state]. specialize (Hu (callbacks_of (callback t)) (cache_engine m)).
  destruct (use _ _) as [a [cbs c]]. rewrite M_bind_run. unfold on_cache. cbn [put_state]. rewrite M_bind_run. cbn [alter_task modify_state mret M_ret].
  intros k u. cbn. destruct (decide (id = k)) as [<-|Hne].
  - rewrite lookup_alter_eq, Et. intros [= <-]. eapply Hstable; [by apply touch_callbacks|by apply Hm].
  - rewrite lookup_alter_ne by done. apply Hm.
Qed.

Hint Resolve all_task_of all_on_cache all_unmap all_release keeps_when keeps_ret : keeps.

Lemma all_end_task id s : s = COMPLETED ∨ s = FAILED → keeps (all_tasks P) (end_task id s).
Proof.
  intros Hs. unfold end_task. keeps_steps; auto with keeps.
  - apply all_alter. intros t. by apply touch_end.
  - unfold deref. keeps_steps.
  - apply all_alter. intros t. apply touch_shed.
Qed.

Lemma all_fail id : keeps (all_tasks P) (_fail_task id).
Proof.
  unfold _fail_task, _abort_task_plans. keeps_steps; [|by apply all_end_task; right]. apply all_on_callbacks, abort_callbacks_used.
Qed.

Lemma touch_finalize tpb c t : touched t (_finalize_prefetch_return_mask tpb c t).
Proof.
  unfold _finalize_prefetch_return_mask. destruct (report_len c t); [|by apply touch_flags].
  unfold _narrow_return_mask_to_prefix_blocks. destruct (return_mask t); by apply touch_flags.
Qed.

Lemma touch_note c t : touched t (note_results c t).
Proof.
  unfold note_results, note_swa_load, note_full_load.
  repeat match goal with |- context [if ?b then _ else _] => destruct b end; by apply touch_flags.
Qed.

Lemma all_mark id : keeps (all_tasks P) (_mark_completed deployment id).
Proof.
  unfold _mark_completed. keeps_steps; auto with keeps.
  - apply all_on_callbacks, run_callbacks_used.
  - apply keeps_when, all_alter. intros t. by apply touch_flags.
  - apply keeps_when, all_alter. intros t. apply touch_finalize.
  - apply all_end_task. destruct (transfer_failed _); auto.
Qed.

Lemma all_update_task c : keeps (all_tasks P) (update_task deployment c).
Proof.
  unfold update_task, run_op_callback. keeps_steps; auto using all_fail, all_mark with keeps.
  - apply all_alter. intros t. apply touch_note.
  - intros m Hm. unfold raises. pose proof (all_on_cache (invoke_op_callback c0 (Some c)) m Hm) as Hk.
    by destruct (on_cache _ m) as [[? | ?] m'].
  - apply keeps_when, all_alter. intros t. by apply touch_flags.
  - apply keeps_when, all_alter. intros t. by apply touch_flags.
Qed.
End stable.

(** ** A poll removes only tasks that were answered *)

Section unanswered.
Context {C : Type} (poll : nat → list CompletedOp) (deployment : Deployment) (k : Z).
Implicit Types (t : KVTask C) (m : KVTaskManager C).

(** The task [k] is in the table, and no answer was given for it. *)
Definition unanswered m : Prop := ∃ t, tasks m !! k = Some t ∧ request_returned t = false.

Lemma unanswered_same (f : KVTaskManager C → KVTaskManager C) : (∀ m, tasks (f m) = tasks m) → keeps unanswered (modify_state f).
Proof. intros Hf. apply keeps_modify. intros m. unfold unanswered. by rewrite Hf. Qed.

Lemma unanswered_alter id f : (∀ t, request_returned (f t) = request_returned t) → keeps unanswered (alter_task id f).
Proof.
  intros Hf. apply keeps_modify. intros m (t & Et & Er). unfold unanswered. cbn. destruct (decide (id = k)) as [->|Hne].
  - exists (f t). by rewrite lookup_alter_eq, Et, Hf.
  - exists t. by rewrite lookup_alter_ne.
Qed.

Lemma unanswered_task_of id : keeps unanswered (task_of id).
Proof. intros m Hm. unfold task_of. by destruct (tasks m !! id). Qed.

Lemma unanswered_on_cache {A} (op : M C A) : keeps unanswered (on_cache op).
Proof. intros m Hm. unfold on_cache. by destruct (op (cache_engine m)) as [[a|x] c]. Qed.

Lemma unanswered_when b (op : M (KVTaskManager C) unit) : keeps unanswered op → keeps unanswered (when b op).
Proof. intros Ho. unfold when. destruct b; [done|apply keeps_ret]. Qed.

Lemma unanswered_raises (op : M (KVTaskManager C) unit) : keeps unanswered op → keeps unanswered (raises op).
Proof. intros Ho m Hm. unfold raises. specialize (Ho m Hm). by destruct (op m) as [[a|x] m']. Qed.

Lemma unanswered_release id : id ≠ k → keeps unanswered (_release_task id).
Proof.
  intros Hne m (t & Et & Er). unfold _release_task. destruct (tasks m !! id) as [u|]; [|by exists t].
  exists t. split; [|done]. destruct (graph u); cbn; by rewrite lookup_delete_ne.
Qed.

(** What is read of the task [k] says that no answer was given. *)
Lemma unanswered_read id : triple unanswered unanswered (task_of id) (λ t m, unanswered m ∧ (id = k → request_returned t = false)).
Proof.
  intros m Hm. unfold task_of. destruct (tasks m !! id) as [u|] eqn:Eu; [|done]. split; [done|]. intros ->.
  destruct Hm as (t & Et & Er). by simplify_eq.
Qed.

Create HintDb unanswered.
Hint Resolve unanswered_task_of unanswered_on_cache unanswered_when unanswered_raises keeps_ret : unanswered.
Hint Extern 1 (keeps unanswered (modify_state _)) => apply unanswered_same; intros ?; reflexivity : unanswered.
Hint Extern 1 (keeps unanswered (alter_task _ _)) => apply unanswered_alter; intros ?; reflexivity : unanswered.

Lemma unanswered_end_task id s : keeps unanswered (end_task id s).
Proof.
  unfold end_task. apply keeps_bind; [auto with unanswered|]. intros [].
  eapply triple_bind; [apply unanswered_read|]. intros t. cbn beta.
  assert (∀ b, (id = k → b = false) → keeps unanswered
    (g ← deref (graph t); unmap_graph (graph_id g) ;; alter_task id shed_heavy_resources ;; when b (_release_task id))) as Hk.
  { intros b Hb. unfold deref, unmap_graph. keeps_steps; auto with unanswered. unfold when. destruct b; [|apply keeps_ret].
    apply unanswered_release. intros E. by specialize (Hb E). }
  apply triple_state. intros m [Hm Hr]. eapply triple_weaken; [exact (Hk (request_returned t) Hr)| |done]. by intros ? ->.
Qed.

Lemma unanswered_on_callbacks {A} (use : list (TaskCallback C) → C → A * (list (TaskCallback C) * C)) id : keeps unanswered (on_callbacks use id).
Proof. unfold on_callbacks. keeps_steps; auto with unanswered. Qed.

Lemma finalize_returned tpb c t : request_returned (_finalize_prefetch_return_mask tpb c t) = request_returned t.
Proof. unfold _finalize_prefetch_return_mask, _narrow_return_mask_to_prefix_blocks. by repeat case_match. Qed.

Lemma note_returned c t : request_returned (note_results c t) = request_returned t.
Proof. unfold note_results, note_swa_load, note_full_load. by repeat case_match. Qed.

Lemma unanswered_fail id : keeps unanswered (_fail_task id).
Proof. unfold _fail_task, _abort_task_plans. keeps_steps; auto using unanswered_on_callbacks, unanswered_end_task with unanswered. Qed.

Lemma unanswered_mark id : keeps unanswered (_mark_completed deployment id).
Proof.
  unfold _mark_completed. keeps_steps; auto using unanswered_on_callbacks, unanswered_end_task with unanswered.
  apply unanswered_when, unanswered_alter. intros t. apply finalize_returned.
Qed.

Lemma unanswered_update : keeps unanswered (_update_tasks poll deployment).
Proof.
  unfold _update_tasks. apply keeps_bind.
  - intros m Hm. unfold poll_handles. by destruct (_get_completed_ops _ _ _).
  - intros ops. apply keeps_for_each. intros c _. unfold update_task, run_op_callback.
    keeps_steps; auto using unanswered_fail, unanswered_mark with unanswered. apply unanswered_alter. intros t. apply note_returned.
Qed.

Lemma unanswered_collect id : id ≠ k → keeps unanswered (collect_response id).
Proof.
  intros Hne. unfold collect_response. keeps_steps; auto using unanswered_release with unanswered.
  apply keeps_modify. intros m (t & Et & Er). exists t. cbn. by rewrite lookup_alter_ne.
Qed.
End unanswered.

(** ** Polls do not raise *)

Section polling.
Context {C : Type} (clock : nat → float) (poll : nat → list CompletedOp) (deployment : Deployment).
Implicit Types (t : KVTask (C * Trace)) (m : KVTaskManager (C * Trace)) (careful : bool).

(** Aborting the plan does not raise. *)
Definition aborts_quietly (cb : TaskCallback (C * Trace)) : Prop :=
  ∀ p s, cb = OneCallback p → (_abort (pc_handle p) s).1 = Ok tt.

(** What waiting for [ids] relies on: aborts that do not raise, no empty graph that is still live (it is completed when
    it is made), and that the tasks asked about were launched, if their slots are known. *)
Definition waitable (ids : list Z) (id : Z) t : Prop :=
  Forall aborts_quietly (callbacks_of (callback t)) ∧
  (∀ g, is_completed t = false → graph t = Some g → 0 < num_ops g) ∧
  (id ∈ ids → status t ≠ READY).

Lemma used_quiet cb cb' : used cb cb' → aborts_quietly cb → aborts_quietly cb'.
Proof.
  destruct cb as [|p|l], cb' as [|p'|l']; cbn; try done; try (by intros [= ->]).
  intros [Hp|Hp] Hq q s [= <-]; rewrite Hp; by apply (Hq p).
Qed.

Lemma used_all_quiet cbs cbs' : Forall2 (used (C := C * Trace)) cbs cbs' → Forall aborts_quietly cbs → Forall aborts_quietly cbs'.
Proof.
  induction 1 as [|cb cb' cbs cbs' Hu _ IH]; [done|]. intros [H1 H2]%Forall_cons. constructor; [by eapply used_quiet|auto].
Qed.

Lemma waitable_stable ids : stable (waitable ids).
Proof.
  intros id t t' Ht (Ha & Hn & Hr). destruct Ht as [t' Ety Es Eg Ec|s Hs| |cbs Hu].
  - unfold waitable, is_completed in *. by rewrite Es, Eg, Ec.
  - split; [done|]. split; [|intros _; cbn; by destruct Hs as [-> | ->]].
    intros g. unfold is_completed. cbn. by destruct Hs as [-> | ->].
  - split; [|done]. cbn. constructor; [|constructor]. by intros p s.
  - split; [|done]. cbn [callback with_callback]. pose proof (used_all_quiet _ _ Hu Ha) as Hq.
    destruct (callback t) as [|p|l]; cbn in *; [| |done].
    + apply Forall2_cons_inv_l in Hu as (cb & cbs' & Hu & Hnil & ->). apply Forall2_nil_inv_l in Hnil as ->. cbn. by destruct cb.
    + apply Forall2_cons_inv_l in Hu as (cb & cbs' & Hu & Hnil & ->). apply Forall2_nil_inv_l in Hnil as ->. cbn. by destruct cb.
Qed.

Lemma abort_callbacks_ok cbs (s : C * Trace) : Forall aborts_quietly cbs → (abort_callbacks cbs s).1 = Ok tt.
Proof.
  intros Hq. revert s. induction Hq as [|cb cbs Hcb _ IH]; intros s; cbn; [done|].
  assert ((abort_callback cb s).1 = Ok tt) as E.
  { destruct cb as [|p|l]; [done| |done]. cbn. unfold use_callback, handle_abort, handle_once. cbn [fst snd].
    destruct (_consumed (pc_handle p)); [done|]. specialize (Hcb p s eq_refl). by destruct (_abort (pc_handle p) s). }
  destruct (abort_callback cb s) as [[[]|x] [cb' s']]; [|done]. specialize (IH s'). by destruct (abort_callbacks cbs s') as [r [cbs' s'']].
Qed.

Lemma abort_plans_ok id m t :
  tasks m !! id = Some t → Forall aborts_quietly (callbacks_of (callback t)) → (_abort_task_plans id m).1 = Ok tt.
Proof.
  intros Et Hq. unfold _abort_task_plans, on_callbacks. rewrite M_bind_run, M_bind_run. unfold task_of. rewrite Et, M_bind_run. cbn [get_state].
  pose proof (abort_callbacks_ok _ (cache_engine m) Hq) as E. destruct (abort_callbacks _ _) as [r [cbs s]]. cbn in E. by subst r.
Qed.

Lemma fail_task_ok careful ids id m :
  Inv careful ∅ None m → all_tasks (waitable ids) m → (_fail_task id m).1 = Ok tt.
Proof.
  intros Hi Hw. unfold _fail_task. rewrite M_bind_run. cbn [get_state]. destruct (tasks m !! id) as [t|] eqn:Et; [|done].
  destruct (is_completed t) eqn:Hc; [done|]. rewrite M_bind_run. destruct (Hw id t Et) as (Hq & _).
  pose proof (abort_plans_ok id m t Et Hq) as E. pose proof (abort_plans_inv careful ∅ None id m) as Ha.
  destruct (_abort_task_plans id m) as [[[]|x] m1]; [|done].
  destruct (triple_run _ _ _ m1 (end_task_inv careful ∅ None id FAILED (or_intror eq_refl))) as ([] & m2 & -> & _); [|done].
  destruct Ha as (Hi1 & u & Eu & Hl & Hs); [by split; [|exists t]|]. split; [done|]. exists u. auto.
Qed.

Lemma update_task_ok careful ids c m :
  Inv careful ∅ None m → all_tasks (waitable ids) m → (update_task deployment c m).1 = Ok tt.
Proof.
  intros Hi Hw. destruct (graph_to_task m !! co_graph_id c) as [id|] eqn:Eg.
  - destruct (inv_routes _ _ _ _ Hi _ _ Eg) as (_ & Hp & _). destruct Hp as [t Et]; [apply not_elem_of_empty|].
    rewrite (update_task_run deployment c m id t Eg Et). destruct (is_graph_failed c); [by eapply fail_task_ok|].
    destruct (triple_run _ _ _ m (deliver_inv deployment careful ∅ None id c)) as ([] & m2 & -> & _); [|done]. split; [done|by exists t].
  - unfold update_task. rewrite M_bind_run. cbn [get_state]. by rewrite Eg.
Qed.

(** The table during a wait. *)
Definition waiting careful (ids : list Z) m : Prop := Inv careful ∅ None m ∧ all_tasks (waitable ids) m.

Lemma update_tasks_total careful ids :
  triple (λ _, False) (waiting careful ids) (_update_tasks poll deployment) (λ _, waiting careful ids).
Proof.
  unfold _update_tasks. eapply (triple_bind _ _ _ _ (λ _, waiting careful ids)).
  - intros m [Hi Hw]. unfold poll_handles. destruct (_get_completed_ops _ _ _) as [out a]. split; [by eapply (inv_world _ _ _ m)|done].
  - intros ops. apply triple_for_each. intros c _ m [Hi Hw].
    pose proof (update_task_ok careful ids c m Hi Hw) as E. pose proof (update_task_inv deployment careful ∅ None c m Hi) as Hi'.
    pose proof (all_update_task deployment _ (waitable_stable ids) c m Hw) as Hw'.
    destruct (update_task deployment c m) as [[[]|x] m']; [by split|done].
Qed.
End polling.

(** ** The loop *)

Section frames.
Context {C : Type} (clock : nat → float) (poll : nat → list CompletedOp) (deployment : Deployment).
Context (P : Z → KVTask C → Prop) (Hstable : stable P).
Implicit Types (t : KVTask C) (m : KVTaskManager C).

Hint Resolve all_task_of all_on_cache all_unmap all_release keeps_when keeps_ret : keeps.

Lemma all_update_tasks : keeps (all_tasks P) (_update_tasks poll deployment).
Proof.
  unfold _update_tasks. apply keeps_bind.
  - intros m Hm. unfold poll_handles. by destruct (_get_completed_ops _ _ _).
  - intros ops. apply keeps_for_each. intros c _. by apply all_update_task.
Qed.

Lemma all_collect id : keeps (all_tasks P) (collect_response id).
Proof. unfold collect_response. keeps_steps; auto with keeps. apply all_alter; [done|]. intros t. by apply touch_flags. Qed.

Lemma all_now : keeps (all_tasks P) (now clock : M (KVTaskManager C) float).
Proof. by intros m Hm. Qed.

Lemma all_wait_one fuel start timeout completely only id is_timeout :
  keeps (all_tasks P) (wait_one clock poll deployment fuel start timeout completely only id is_timeout).
Proof.
  revert is_timeout. induction fuel as [|fuel IH]; intros is_timeout; cbn [wait_one]; [apply keeps_raise|].
  unfold check_completed, _process_empty_graph. keeps_steps; auto using all_mark, all_collect, all_update_tasks, all_now with keeps.
Qed.
End frames.

Section waiting.
Context {C : Type}.
Context (clock : nat → float) (poll : nat → list CompletedOp) (deployment : Deployment).
Implicit Types (t : KVTask (C * Trace)) (m : KVTaskManager (C * Trace)) (careful : bool) (ids : list Z).

(** A completed task is accepted, and otherwise one whose end op finished, unless only its graph's end counts. *)
Definition answerable (completely : bool) t : bool :=
  if bool_decide (task_type t = PREFETCH) || completely || transfer_failed t then is_completed t
  else is_completed t || task_end_op_finished t.

Lemma check_completed_run ids id m t completely :
  all_tasks (waitable ids) m → tasks m !! id = Some t →
  check_completed deployment id completely m = (Ok (answerable completely t), m).
Proof.
  intros Hw Et. unfold check_completed. rewrite M_bind_run. unfold task_of at 1. rewrite Et, M_bind_run.
  assert (_process_empty_graph deployment id m = (Ok tt, m)) as ->.
  { unfold _process_empty_graph. rewrite M_bind_run. unfold task_of at 1. rewrite Et. destruct (graph t) as [g|] eqn:Eg; [|done].
    unfold when. destruct (Z.eqb_spec (num_ops g) 0) as [E0|]; [|done]. unfold _mark_completed. rewrite M_bind_run. unfold task_of at 1. rewrite Et.
    destruct (is_completed t) eqn:Hc; [done|]. destruct (Hw id t Et) as (_ & Hn & _). specialize (Hn g Hc Eg). lia. }
  rewrite M_bind_run. cbn [get_state]. by rewrite Et.
Qed.

Lemma collect_response_run id m t s :
  tasks m !! id = Some t → convert_to_response_status (status t) = Ok s →
  collect_response id m = (Ok (mkKVResponse s id (Some (return_mask t))),
    let m1 := with_tasks (alter with_returned id) m in if is_completed t then (_release_task id m1).2 else m1).
Proof.
  intros Et Es. unfold collect_response. rewrite M_bind_run. unfold task_of at 1. rewrite Et, M_bind_run, Es.
  cbn [lift_result]. rewrite M_bind_run. cbn [alter_task modify_state]. rewrite M_bind_run. unfold when. destruct (is_completed t); [|done].
  rewrite (release_run id _ (with_returned t)); [done|]. cbn. by rewrite lookup_alter_eq, Et.
Qed.

Context (start timeout : float) (completely : bool) (first last : nat).

(** The timeout was zero, or was seen to have passed. *)
Definition expired : Prop :=
  f_eqb timeout (f_of_Z 0) = true ∨ ∃ k, (first < k)%nat ∧ f_ltb timeout (f_sub (clock k) start) = true.

(** *** The states of a wait

    What the manager does while it waits for [ids]: it looks at the clock, polls, and hands out the answer of a task. *)
Inductive wait_step (ids : list Z) : KVTaskManager (C * Trace) → KVTaskManager (C * Trace) → Prop :=
  | wait_clock m : wait_step ids m (with_clock_read m)
  | wait_poll m : wait_step ids m (_update_tasks poll deployment m).2
  | wait_collect m id : id ∈ ids → wait_step ids m (collect_response id m).2.

(** The status an answer gives for the status of a task that is over, or running with its end op finished. *)
Inductive status_says : TaskStatus → KVResponseStatus → Prop :=
  | says_completed : status_says COMPLETED Success
  | says_running : status_says RUNNING Success
  | says_cancelled : status_says CANCELLED Cancelled
  | says_failed : status_says FAILED Failed.

(** The answer for the task [id] in the state [m]. *)
Inductive answer_in (id : Z) m : KVResponse → Prop :=
  | answer_unknown : tasks m !! id = None → answer_in id m (mkKVResponse NotFound id None)
  | answer_unlaunched t : tasks m !! id = Some t → status t = UNREADY → answer_in id m (mkKVResponse Unready id None)
  | answer_over t s :
      tasks m !! id = Some t → answerable completely t = true → status_says (status t) s →
      answer_in id m (mkKVResponse s id (Some (return_mask t)))
  | answer_late t :
      tasks m !! id = Some t → status t ≠ UNREADY → answerable completely t = false → expired →
      answer_in id m (mkKVResponse Timeout id None).

(** The answer [r] for [id], of a wait for [ids] that began in [m0] and is now in [m]: it was right in a state [m1] in
    between, before which no answer for [id] was given; a task that was over then has left the table. *)
Definition sound_answer (ids : list Z) m0 (id : Z) (r : KVResponse) m : Prop :=
  ∃ m1, rtc (wait_step (filter (λ k, k ≠ id) ids)) m0 m1 ∧ rtc (wait_step ids) m1 m ∧ answer_in id m1 r ∧
    (∀ t, kr_return_mask r ≠ None → tasks m1 !! id = Some t → is_completed t = true → tasks m !! id = None).

(** The clock passes the timeout at the read [last]; until then the loop has not given up. *)
Definition on_clock (is_timeout : bool) m : Prop :=
  (first < clock_reads m)%nat ∧ (is_timeout = true → expired) ∧ (is_timeout = false → (clock_reads m <= last)%nat).

Context (Hlast : f_ltb timeout (f_sub (clock last) start) = true).

Lemma clock_update m : clock_reads (_update_tasks poll deployment m).2 = clock_reads m.
Proof.
  pose proof (counter_update_tasks poll deployment (task_id_counter m, clock_reads m) m (conj eq_refl eq_refl)) as Hk.
  by destruct (_update_tasks poll deployment m) as [[? | ?] m']; destruct Hk as [_ Hk].
Qed.

Lemma collect_answer careful ids id m t :
  waiting careful ids m → id ∈ ids → tasks m !! id = Some t → status t ≠ UNREADY → answerable completely t = true →
  ∃ r m', collect_response id m = (Ok r, m') ∧ waiting careful ids m' ∧ clock_reads m' = clock_reads m ∧ answer_in id m r ∧
    (is_completed t = true → tasks m' !! id = None).
Proof.
  intros [Hi Hw] Hid Et Hu Ha. destruct (Hw id t Et) as (_ & _ & Hr). specialize (Hr Hid).
  assert (∃ s, convert_to_response_status (status t) = Ok s ∧ status_says (status t) s) as (s & Es & Hs).
  { destruct (status t); try done; eexists; (split; [reflexivity|constructor]). }
  pose proof (collect_response_inv careful ∅ id m Hi) as Hi'. pose proof (all_collect _ (waitable_stable ids) id m Hw) as Hw'.
  rewrite (collect_response_run id m t s Et Es) in Hi', Hw' |- *. cbn zeta in *. eexists _, _. split; [reflexivity|]. split; [done|].
  assert (tasks (with_tasks (alter with_returned id) m) !! id = Some (with_returned t)) as Et' by (cbn; by rewrite lookup_alter_eq, Et).
  rewrite (release_run id _ _ Et'). split; [by destruct (is_completed t)|]. split; [by apply answer_over|].
  intros ->. cbn. by rewrite lookup_delete_eq.
Qed.

Lemma steps_sub ids ids' m m' : ids ⊆ ids' → rtc (wait_step ids) m m' → rtc (wait_step ids') m m'.
Proof.
  intros Hs. apply rtc_subrel. clear m m'. intros m m' [m1|m1|m1 id Hid]; [apply wait_clock|apply wait_poll|]. apply wait_collect. by apply Hs.
Qed.

Lemma wait_one_spec careful ids m0 id fuel is_timeout :
  id ∈ ids → (1 <= fuel)%nat →
  triple (λ _, False)
    (λ m, waiting careful ids m ∧ on_clock is_timeout m ∧ (is_timeout = false → (last < fuel + clock_reads m)%nat) ∧ rtc (wait_step []) m0 m)
    (wait_one clock poll deployment fuel start timeout completely false id is_timeout)
    (λ out m, waiting careful ids m ∧ on_clock out.2 m ∧ ∃ r m1, out.1 = Some r ∧ rtc (wait_step []) m0 m1 ∧ rtc (wait_step [id]) m1 m ∧
       answer_in id m1 r ∧ (∀ t, kr_return_mask r ≠ None → tasks m1 !! id = Some t → is_completed t = true → tasks m !! id = None)).
Proof.
  intros Hid. revert is_timeout. induction fuel as [|fuel IH]; intros is_timeout Hfuel; [lia|]. intros m (Hw & Hc & Hf & Hst).
  cbn [wait_one]. rewrite M_bind_run. cbn [get_state]. destruct (tasks m !! id) as [t|] eqn:Et.
  2:{ split; [done|]. split; [done|]. eexists _, m. split_and!; [done|done|done|by apply answer_unknown|done]. }
  case_bool_decide as Hu.
  { split; [done|]. split; [done|]. eexists _, m. split_and!; [done|done|done|by eapply answer_unlaunched|done]. }
  rewrite M_bind_run, (check_completed_run ids id m t completely (proj2 Hw) Et). destruct (answerable completely t) eqn:Ha.
  { destruct (collect_answer careful ids id m t Hw Hid Et Hu Ha) as (r & m' & E & Hw' & Ek & Hr & Hg). rewrite M_bind_run, E. cbn [mret M_ret].
    split; [done|]. split; [unfold on_clock in *; cbn; by rewrite Ek|]. exists r, m. split_and!; [done|done| |done|].
    - apply rtc_once. replace m' with ((collect_response id m).2) by by rewrite E. apply wait_collect. left.
    - intros u _ Eu. simplify_eq. exact Hg. }
  rewrite M_bind_run. cbn [now]. destruct Hc as (Hc1 & Hc2 & Hc3).
  assert (waiting careful ids (with_clock_read m)) as Hw1 by (split; [eapply (inv_world _ _ _ m); [apply Hw|done..]|apply Hw]).
  assert (rtc (wait_step []) m0 (with_clock_read m)) as Hst1 by (eapply rtc_r; [exact Hst|apply wait_clock]).
  destruct (is_timeout || f_ltb timeout (f_sub (clock (clock_reads m)) start)) eqn:Hto.
  { assert expired as Hex.
    { apply orb_true_iff in Hto as [-> |Hto]; [by apply Hc2|]. right. eauto. }
    split; [done|]. split; [split; cbn; [lia|done]|]. eexists _, (with_clock_read m). split_and!; [done|done|done|by eapply answer_late|done]. }
  apply orb_false_iff in Hto as [-> Hto]. specialize (Hc3 eq_refl). specialize (Hf eq_refl).
  assert (clock_reads m ≠ last) by congruence.
  rewrite M_bind_run. pose proof (update_tasks_total poll deployment careful ids (with_clock_read m) Hw1) as Hup.
  pose proof (clock_update (with_clock_read m)) as Ek. pose proof (wait_poll [] (with_clock_read m)) as Hstep.
  destruct (_update_tasks poll deployment (with_clock_read m)) as [[[]|x] m2]; [|done].
  cbn in Ek. apply IH; [lia|]. split; [done|]. split; [unfold on_clock; rewrite Ek; split_and!; [lia|done|lia]|]. rewrite Ek.
  split; [lia|]. by eapply rtc_r.
Qed.

(** Answers that were given stay true: a task that left the table does not come back. *)
Lemma sound_later ids m0 id r m m' :
  sound_answer ids m0 id r m → rtc (wait_step ids) m m' → (tasks m !! id = None → tasks m' !! id = None) → sound_answer ids m0 id r m'.
Proof. intros (m1 & H1 & H2 & Ha & Hg) Hm Hk. exists m1. split_and!; [done|by etrans|done|]. intros t Hr Et Hc. by eapply Hk, Hg. Qed.

Lemma gone_stable k : stable (C := C * Trace) (λ id _, id ≠ k).
Proof. by intros id t t' _. Qed.

Lemma gone_all k m : all_tasks (λ id _, id ≠ k) m ↔ tasks m !! k = None.
Proof.
  split.
  - intros Ha. destruct (tasks m !! k) as [t|] eqn:Et; [|done]. by destruct (Ha k t Et).
  - intros E id t Et ->. congruence.
Qed.

Lemma wait_all_spec careful ids m0 fuel todo :
  (1 <= fuel)%nat → (last <= fuel + first)%nat →
  ∀ acc is_timeout, acc.*1 ++ todo = ids → NoDup ids →
  triple (λ _, False)
    (λ m, waiting careful ids m ∧ on_clock is_timeout m ∧ rtc (wait_step acc.*1) m0 m ∧ Forall (λ e, sound_answer ids m0 e.1 e.2 m) acc)
    (wait_all clock poll deployment fuel start timeout completely false todo is_timeout acc)
    (λ rs m, waiting careful ids m ∧ rs.*1 = ids ∧ Forall (λ e, sound_answer ids m0 e.1 e.2 m) rs).
Proof.
  intros Hfuel Hlf. induction todo as [|id todo IH]; intros acc is_timeout Hids Hnd; cbn [wait_all].
  { apply triple_ret. intros m (Hw & _ & _ & Hs). rewrite app_nil_r in Hids. done. }
  intros m (Hw & Hc & Hst & Hs). rewrite M_bind_run.
  assert (id ∈ ids) as Hid by (rewrite <- Hids; set_solver).
  assert (is_timeout = false → (last < fuel + clock_reads m)%nat) as Hf by (destruct Hc as (? & _); lia).
  pose proof (wait_one_spec careful ids m id fuel is_timeout Hid Hfuel m (conj Hw (conj Hc (conj Hf (rtc_refl _ _))))) as Ho.
  assert (∀ k, tasks m !! k = None → tasks (wait_one clock poll deployment fuel start timeout completely false id is_timeout m).2 !! k = None) as Hgone.
  { intros k Hk%gone_all. apply gone_all.
    pose proof (all_wait_one clock poll deployment _ (gone_stable k) fuel start timeout completely false id is_timeout m Hk) as Hall.
    by destruct (wait_one _ _ _ _ _ _ _ _ _ _ m) as [[? | ?] m']. }
  destruct (wait_one _ _ _ _ _ _ _ _ _ _ m) as [[[o b]|x] m']; [|done].
  destruct Ho as (Hw' & Hc' & r & m1 & Er & Hs1 & Hs2 & Hr & Hg). cbn in Er, Hc', Hgone. subst o.
  assert (id ∉ acc.*1) as Hnew.
  { rewrite <- Hids in Hnd. apply NoDup_app in Hnd as (_ & Hd & _). intros Hin. apply (Hd id Hin). left. }
  assert (∀ l, rtc (wait_step l) m m1) as Hs0 by (intros l; eapply steps_sub; [apply list_subseteq_nil|exact Hs1]).
  assert (rtc (wait_step ids) m m') as Hst' by (etrans; [apply Hs0|]; eapply steps_sub; [|exact Hs2]; by intros k ->%list_elem_of_singleton).
  assert (∀ k, k ∈ acc.*1 → k ∈ ids ∧ k ≠ id) as Hsub.
  { intros k Hk. split; [rewrite <- Hids; apply elem_of_app; by left|]. by intros ->. }
  rewrite dict_set_new by done. apply IH; [by rewrite fmap_app, <- (assoc_L app)|done|]. split; [done|]. split; [done|]. split.
  { rewrite fmap_app. etrans; [eapply steps_sub; [|exact Hst]; intros k Hk; apply elem_of_app; by left|]. etrans; [apply Hs0|].
    eapply steps_sub; [|exact Hs2]. intros k Hk. apply elem_of_app. by right. }
  apply Forall_app. split.
  - eapply Forall_impl; [exact Hs|]. intros e He. eapply sound_later; [exact He|exact Hst'|exact (Hgone _)].
  - constructor; [|constructor]. exists m1. split_and!; [|eapply steps_sub; [|exact Hs2]; by intros k ->%list_elem_of_singleton|done|done].
    etrans; [eapply steps_sub; [|exact Hst]|apply Hs0]. intros k Hk. apply list_elem_of_filter. split; [by apply Hsub|by apply Hsub].
Qed.
End waiting.

Section theorem.
Context {C : Type} `{!CacheService C, !CacheServiceLaws C}.
Context (XXH64 : list Z → Z) (clock : nat → float) (poll : nat → list CompletedOp) (deployment : Deployment).

(** The task of an unknown one was answered before, or was not there. *)
Lemma unanswered_steps ids k m m' : k ∉ ids → rtc (wait_step poll deployment ids) m m' → unanswered (C := C * Trace) k m → unanswered k m'.
Proof.
  intros Hk. induction 1 as [|m m1 m' Hs _ IH]; [done|]. intros Hm. apply IH. destruct Hs as [m|m|m id Hid].
  - exact Hm.
  - pose proof (unanswered_update poll deployment k m Hm) as Ho. by destruct (_update_tasks poll deployment m) as [[[]|x] m1].
  - assert (id ≠ k) as Hne by (by intros ->). pose proof (unanswered_collect k id Hne m Hm) as Ho. by destruct (collect_response id m) as [[r|x] m1].
Qed.

(** [C17] [wait] returns, and answers every task asked about, once and in order.  It returns as soon as some read of
    the clock (the [last]-th, within the fuel) is past the timeout, whatever the transfer managers report.  Every
    answer was right when it was given, in a state [m1] that the manager went through: not-found for a task that is not
    in the table, unready for one that was not launched, a timeout for a launched one that is not over yet when the
    timeout has passed, and otherwise the mask of the task and its status, where success means completed, or running
    with its end op finished if the caller does not wait completely.  A task answered when it was over has left the
    table, and with [completely] every task answered with a mask has; and a task that was in the table, and had no
    answer from an earlier wait, is never not-found.  (Entries must not have expired, and aborting a plan must not raise.) *)
Theorem wait_answers careful c i m ids timeout completely fuel last :
  history XXH64 clock poll deployment careful c i (∅, m) →
  all_tasks (waitable ids) m → NoDup ids →
  (clock_reads m < last)%nat → f_ltb timeout (f_sub (clock last) (clock (clock_reads m))) = true →
  (last <= fuel + clock_reads m)%nat →
  ∃ rs m', wait clock poll deployment fuel ids timeout completely m = (Ok rs, m') ∧ rs.*1 = ids ∧
    ∀ id r, (id, r) ∈ rs → ∃ m1,
      rtc (wait_step poll deployment (filter (λ k, k ≠ id) ids)) m m1 ∧ rtc (wait_step poll deployment ids) m1 m' ∧
      answer_in clock (clock (clock_reads m)) timeout completely (clock_reads m) id m1 r ∧
      (∀ t, kr_return_mask r ≠ None → tasks m1 !! id = Some t → is_completed t = true ∨ completely = true → tasks m' !! id = None) ∧
      (kr_status r = NotFound → ∀ t, tasks m !! id = Some t → request_returned t = true).
Proof.
  intros Hh Hw Hnd Hlt Hlast Hfuel. pose proof (history_inv XXH64 clock poll deployment careful c i ∅ m Hh) as Hi. unfold wait, _wait_impl. rewrite M_bind_run. cbn [now].
  set (m1 := with_clock_read m).
  assert (waiting careful ids m1) as Hw1 by (split; [by eapply (inv_world _ _ _ m)|done]).
  pose proof (update_tasks_total poll deployment careful ids m1 Hw1) as Hup. pose proof (clock_update poll deployment m1) as Ek.
  assert (rtc (wait_step poll deployment []) m (_update_tasks poll deployment m1).2) as Hst by (eapply rtc_l; [apply wait_clock|]; apply rtc_once, wait_poll).
  rewrite M_bind_run. destruct (_update_tasks poll deployment m1) as [[[]|x] m2]; [|done]. cbn in Ek, Hst.
  destruct (triple_run _ _ _ m2 (wait_all_spec clock poll deployment (clock (clock_reads m)) timeout completely (clock_reads m) last Hlast
    careful ids m fuel ids ltac:(lia) ltac:(lia) [] (f_eqb timeout (f_of_Z 0)) eq_refl Hnd)) as (rs & m3 & E & _ & Hk & Hs).
  - split; [done|]. split; [|split; [exact Hst|constructor]]. unfold on_clock. rewrite Ek. split_and!; [lia|by left|lia].
  - exists rs, m3. split_and!; [done|done|]. intros id r Hin. rewrite Forall_forall in Hs. destruct (Hs _ Hin) as (m4 & H1 & H2 & Ha & Hg). cbn [fst snd] in H1, Ha, Hg.
    exists m4. split_and!; [done|done|done| |].
    + intros t Hr Et [Hc|Hc]; [by eapply Hg|]. apply (Hg t Hr Et). destruct Ha as [Hno|u Eu _|u s' Eu Hans _|u Eu _ _ _]; try done. simplify_eq.
        unfold answerable in Hans. by rewrite orb_true_r in Hans.
    + intros Hn t Et. destruct (request_returned t) eqn:Er; [done|]. exfalso.
      destruct (unanswered_steps (filter (λ k, k ≠ id) ids) id m m4) as (u & Eu & _); [by intros [? _]%list_elem_of_filter|done|by exists t|].
      destruct Ha as [Hnone|u'|u' s _ _ Hsays|u']; try done; [cbn in *; congruence|]. cbn in Hn. subst s. inversion Hsays.
Qed.
End theorem.

(** ** A concrete wait *)

Lemma toy_waitable : all_tasks (waitable [0]) toy_run3.
Proof.
  assert (map_Forall (λ id t, waitable [0] id t) (tasks toy_run3)) as Hf; [|intros id t Et; by apply (Hf id t)].
  assert (∃ t, tasks toy_run3 = {[0 := t]} ∧ waitable [0] 0 t) as (t & -> & Ht); [|by apply map_Forall_singleton].
  eexists. split; [vm_compute; reflexivity|]. split; [|split].
  - constructor; [|constructor]. intros p s [= <-]. by destruct s.
  - intros g _ [= <-]. reflexivity.
  - done.
Qed.

Lemma wait_answers_witness :
  ∃ r m', wait toy_clock toy_poll toy_deployment 30 [0] default_timeout true toy_run3 = (Ok [(0, r)], m') ∧ kr_task_id r = 0.
Proof.
  destruct (wait_answers toy_hash toy_clock toy_poll toy_deployment true 0 (mkIds 1 1) toy_run3 [0] default_timeout true 30 25
    toy_history3 toy_waitable (NoDup_singleton 0)) as (rs & m' & E & Hk & Hs); [vm_compute; lia|vm_compute; reflexivity|vm_compute; lia|].
  destruct rs as [|[k r] [|]]; try done. injection Hk as ->. exists r, m'. split; [exact E|].
  destruct (Hs 0 r) as (m1 & _ & _ & Ha & _); [left|]. by destruct Ha.
Defined.

End TaskWait.
