(* ===== verification/PrefetchMask.v ===== *)
(** * PrefetchMask: what a finished prefetch reports

    Proofs about [_finalize_prefetch_return_mask] and its helpers ([TaskManager]):
    the planned mask, a range of tokens as [GlobalPlan] makes it, is cut back to the
    blocks that were both loaded and published. *)

From S2P Require Import Prelude PyFloat Block Transfer GraphBuild BatchMerge CacheEngine GlobalCache GlobalPlan Requests CompletionAgg TaskManager.
Import GraphBuild.GraphBuild BatchMerge.BatchMerge GlobalCache.GlobalCache GlobalPlan.GlobalPlan Requests.Requests.
Import CompletionAgg.CompletionAgg TaskManager.TaskManager.
Local Open Scope Z_scope.

Module PrefetchMask.

Lemma mask_range_empty n lo hi : hi <= lo → mask_range n lo hi = replicate n false.
Proof.
  intros Hle. symmetry. apply replicate_as_elem_of. unfold mask_range. split; [by rewrite length_fmap, length_seq|].
  intros x (i & -> & _)%list_elem_of_fmap. lia.
Qed.

Lemma length_mask_range n lo hi : length (mask_range n lo hi) = n.
Proof. unfold mask_range. by rewrite length_fmap, length_seq. Qed.

(** Narrowing keeps the first [blocks] blocks of the range. *)
Lemma narrow_range tpb blocks n (lo hi : nat) :
  (lo <= hi <= n)%nat →
  narrow_mask tpb blocks (mask_range n (Z.of_nat lo) (Z.of_nat hi)) =
    mask_range n (Z.of_nat lo) (Z.min (Z.of_nat hi) (Z.of_nat lo + Z.max 0 blocks * Z.of_nat tpb)).
Proof.
  intros Hn. unfold narrow_mask. rewrite length_mask_range. destruct (Z.leb_spec blocks 0) as [Hb|Hb].
  { rewrite mask_range_empty; [done|]. lia. }
  rewrite where_mask_range by done. destruct (decide (lo = hi)) as [->|Hne].
  { rewrite Nat.sub_diag. cbn. f_equal. nia. }
  replace (hi - lo)%nat with (S (hi - lo - 1)) by lia.
  assert (head (seq lo (S (hi - lo - 1))) = Some lo) as -> by done.
  assert (last (seq lo (S (hi - lo - 1))) = Some (hi - 1)%nat) as ->.
  { rewrite seq_S, last_snoc. f_equal. lia. }
  unfold zlen. rewrite length_mask_range. unfold mask_range.
  replace (Z.min (Z.min (Z.of_nat lo + blocks * Z.of_nat tpb) (Z.of_nat (hi - 1) + 1)) (Z.of_nat n))
    with (Z.min (Z.of_nat hi) (Z.of_nat lo + Z.max 0 blocks * Z.of_nat tpb)) by lia.
  done.
Qed.

Section report.
Context {C : Type} (tpb : nat).
Implicit Types (t : KVTask C) (c : C).

Lemma finalize_run c t n (lo hi : nat) :
  (lo <= hi <= n)%nat → return_mask t = Mask (mask_range n (Z.of_nat lo) (Z.of_nat hi)) →
  return_mask (_finalize_prefetch_return_mask tpb c t) = Mask (mask_range n (Z.of_nat lo)
    (match report_len c t with
     | Some blocks => Z.min (Z.of_nat hi) (Z.of_nat lo + Z.max 0 blocks * Z.of_nat tpb)
     | None => Z.of_nat hi
     end)).
Proof.
  intros Hn Hm. unfold _finalize_prefetch_return_mask. destruct (report_len c t) as [blocks|]; [|done].
  unfold _narrow_return_mask_to_prefix_blocks. rewrite Hm. cbn. by rewrite narrow_range.
Qed.

Lemma success_prefix_bound l : 0 <= _longest_success_prefix l <= zlen l.
Proof. induction l as [|[] l IH]; unfold zlen in *; cbn [_longest_success_prefix length] in *; lia. Qed.

(** The prefix is all [true], and ends at a block that failed. *)
Lemma success_prefix_spec l i : Z.of_nat i < _longest_success_prefix l → l !! i = Some true.
Proof.
  revert i. induction l as [|[] l IH]; intros i; cbn; try lia. intros Hi. destruct i as [|i]; [done|]. apply IH. lia.
Qed.

Lemma success_prefix_maximal l : l !! Z.to_nat (_longest_success_prefix l) ≠ Some true.
Proof.
  induction l as [|[] l IH]; cbn [_longest_success_prefix]; [done| |done]. pose proof (success_prefix_bound l).
  by replace (Z.to_nat (1 + _longest_success_prefix l)) with (S (Z.to_nat (_longest_success_prefix l))) by lia.
Qed.

(** The deferred inserts of a task's plans, and the numbers of blocks the CPU ones among them published. *)
Definition staged_insert c t (p : PendingInsert) : Prop :=
  ∃ pc, (callback t = OneCallback pc ∨ ∃ l, callback t = CallbackList l ∧ OneCallback pc ∈ l) ∧ p ∈ pc_deferred_inserts pc c.
Definition insert_count (p : PendingInsert) (m : Z) : Prop :=
  ∃ blocks (failed : bool), p = (CPU, Some (blocks, failed)) ∧ m = if failed then 0 else default 0 blocks.
Definition published_count c t (m : Z) : Prop := ∃ p, staged_insert c t p ∧ insert_count p m.

(** The least number with a property. *)
Definition least (P : Z → Prop) (m : Z) : Prop := P m ∧ ∀ x, P x → m <= x.

(** The number of blocks loaded before the first that was not. *)
Definition loaded_prefix (r : list bool) (k : nat) : Prop := (∀ i, (i < k)%nat → r !! i = Some true) ∧ r !! k ≠ Some true.

(** Every number of blocks the report of a task may not exceed. *)
Definition limit c t (m : Z) : Prop :=
  published_count c t m ∨ ∃ r k, prefetch_full_block_results t = Some r ∧ loaded_prefix r k ∧ m = Z.of_nat k.

(** A load with a sliding window did all its work: results for the blocks and for the window, all of them good,
    and every deferred insert published that many blocks. *)
Definition complete c t (r : list bool) : Prop :=
  prefetch_full_block_results t = Some r ∧ Forall (eq true) r ∧
  (∃ w, prefetch_swa_block_results t = Some w ∧ w ≠ [] ∧ Forall (eq true) w) ∧ ∀ m, published_count c t m → zlen r <= m.

Lemma count_fold l acc :
  match foldl count_published acc l with
  | Some m => least (λ m, acc = Some m ∨ ∃ p, p ∈ l ∧ insert_count p m) m
  | None => acc = None ∧ ∀ p m, p ∈ l → ¬ insert_count p m
  end.
Proof.
  revert acc. induction l as [|p l IH]; intros acc; cbn [foldl].
  { destruct acc as [m|]; [|split; [done|set_solver]]. split; [by left|]. intros x [[= ->]|(p & Hp & _)]; [lia|set_solver]. }
  specialize (IH (count_published acc p)).
  assert ((∀ m, ¬ insert_count p m) ∧ count_published acc p = acc ∨
          ∃ m, (∀ x, insert_count p x ↔ x = m) ∧ count_published acc p = Some (match acc with None => m | Some a => Z.min a m end)) as Hp.
  { unfold count_published. destruct p as [[] [[blocks failed]|]]; try (left; split; [|done]; intros m (? & ? & ? & _); done).
    right. exists (if failed then 0 else default 0 blocks). split; [|by destruct acc]. intros x. split; [|intros ->; by exists blocks, failed].
    by intros (? & ? & [= <- <-] & ->). }
  destruct (foldl _ _ l) as [m|].
  - destruct IH as [Hm Hall]. destruct Hp as [[Hno Eacc]|(k & Hk & Eacc)]; rewrite Eacc in *.
    + split; [set_solver|]. intros x [?|(q & [->|Hq]%elem_of_cons & Hx)]; [apply Hall; by left|by apply Hno in Hx|apply Hall; right; by exists q].
    + assert (∀ x, acc = Some x ∨ insert_count p x → m <= x) as H1.
      { intros x Hx. etrans; [by apply Hall; left|]. destruct Hx as [->| ->%Hk]; [lia|destruct acc; lia]. }
      split; [|intros x [?|(q & [->|Hq]%elem_of_cons & Hx)]; [apply H1; by left|apply H1; by right|apply Hall; right; by exists q]].
      destruct Hm as [[= Hm]|(q & Hq & Hm)]; [|right; exists q; split; [set_solver|done]].
      destruct acc as [a|]; [destruct (Z.min_spec a k) as [[_ E]|[_ E]]; rewrite E in Hm|]; subst m;
        [by left|right; exists p; split; [set_solver|by apply Hk]..].
  - destruct IH as [E Hl]. destruct Hp as [[Hno Eacc]|(k & _ & Eacc)]; rewrite Eacc in E; [|done]. split; [done|].
    intros q m [->|Hq]%elem_of_cons; [apply Hno|by apply Hl].
Qed.

Lemma staged_insert_list c t p : staged_insert c t p ↔ p ∈ callbacks_of (callback t) ≫= pending_of c.
Proof.
  unfold staged_insert. rewrite list_elem_of_bind. unfold callbacks_of, pending_of. split.
  - intros (pc & [->|(l & -> & Hl)] & Hp); (exists (OneCallback pc); split; [done|]); [apply list_elem_of_singleton|]; done.
  - intros (cb & Hp & Hcb). destruct (callback t) as [|pc|l] eqn:Ecb; [apply list_elem_of_singleton in Hcb; subst cb; set_solver| |].
    + apply list_elem_of_singleton in Hcb as ->. exists pc. split; [by left|done].
    + destruct cb as [|pc|]; [set_solver| |set_solver]. exists pc. split; [right; by exists l|done].
Qed.

Lemma published_least c t :
  match _prefetch_published_remote_blocks c t with
  | Some m => least (published_count c t) m
  | None => ∀ m, ¬ published_count c t m
  end.
Proof.
  assert (_prefetch_published_remote_blocks c t = foldl count_published None (callbacks_of (callback t) ≫= pending_of c)) as ->.
  { unfold _prefetch_published_remote_blocks. by destruct (callback t). }
  pose proof (count_fold (callbacks_of (callback t) ≫= pending_of c) None) as H. destruct (foldl _ _ _) as [m|].
  - destruct H as [[?|(p & Hp%staged_insert_list & Hm)] Hl]; [done|]. split; [by exists p|].
    intros x (q & Hq%staged_insert_list & Hx). apply Hl. right. by exists q.
  - intros m (p & Hp%staged_insert_list & Hm). by apply H in Hm.
Qed.

Lemma loaded_prefix_eq r k : loaded_prefix r k ↔ Z.of_nat k = _longest_success_prefix r.
Proof.
  pose proof (success_prefix_bound r) as Hb. pose proof (success_prefix_maximal r) as Hm. pose proof (success_prefix_spec r) as Hs. split.
  - intros [Ha Hk]. destruct (Z.lt_trichotomy (Z.of_nat k) (_longest_success_prefix r)) as [Hlt|[?|Hlt]]; [|done|].
    + by apply Hs in Hlt.
    + destruct Hm. apply Ha. lia.
  - intros E. split; [intros i Hi; apply Hs; lia|]. by rewrite <- E, Nat2Z.id in Hm.
Qed.

(** Every block was loaded: the prefix is the whole list. *)
Lemma loaded_all r : Forall (eq true) r ↔ _longest_success_prefix r = zlen r.
Proof.
  pose proof (success_prefix_spec r) as Hs. split.
  - induction 1 as [|? r <- _ IH]; [done|]. unfold zlen in *. cbn [_longest_success_prefix length]. pose proof (success_prefix_spec r). 
    rewrite IH by done. lia.
  - intros E. apply Forall_lookup. intros i x Hi. rewrite (Hs i) in Hi by (apply lookup_lt_Some in Hi; unfold zlen in *; lia). by injection Hi.
Qed.

(** The length both reports are cut to is the least limit. *)
Lemma mounted_least c t :
  match min_opt (_longest_success_prefix <$> prefetch_full_block_results t) (_prefetch_published_remote_blocks c t) with
  | Some m => least (limit c t) m
  | None => ∀ m, ¬ limit c t m
  end.
Proof.
  pose proof (published_least c t) as Hp. unfold limit. destruct (prefetch_full_block_results t) as [r|]; cbn [fmap option_fmap option_map].
  - pose proof (success_prefix_bound r) as Hb. set (k := _longest_success_prefix r) in *.
    assert (∀ m, (∃ r' k', Some r = Some r' ∧ loaded_prefix r' k' ∧ m = Z.of_nat k') ↔ m = k) as Hk.
    { intros m. split; [intros (r' & k' & [= <-] & Hl%loaded_prefix_eq & ->); exact Hl|]. intros ->. exists r, (Z.to_nat k).
      split; [done|]. rewrite loaded_prefix_eq. fold k. lia. }
    destruct (_prefetch_published_remote_blocks c t) as [p|]; cbn [min_opt].
    + destruct Hp as [Hp1 Hp2]. split.
      * destruct (Z.min_spec k p) as [[_ ->]|[_ ->]]; [right; by apply Hk|by left].
      * intros x [Hx%Hp2|Hx%Hk]; lia.
    + split; [right; by apply Hk|]. intros x [Hx|Hx%Hk]; [by apply Hp in Hx|lia].
  - destruct (_prefetch_published_remote_blocks c t) as [p|]; cbn [min_opt].
    + destruct Hp as [Hp1 Hp2]. split; [by left|]. intros x [Hx%Hp2|(? & ? & ? & _)]; [lia|done].
    + intros m [Hx|(? & ? & ? & _)]; [by apply Hp in Hx|done].
Qed.

Lemma swa_report c t :
  prefetch_has_swa_remote t = true →
  (∃ r, complete c t r ∧ report_len c t = Some (zlen r)) ∨ (∀ r, ¬ complete c t r) ∧ report_len c t = Some 0.
Proof.
  intros Hw. unfold report_len, complete. rewrite Hw. pose proof (published_least c t) as Hp.
  destruct (prefetch_full_block_results t) as [r|]; [|right; split; [by intros ? [? _]|done]]. cbn [fmap option_fmap option_map].
  pose proof (success_prefix_bound r) as Hb. set (mounted := min_opt _ _).
  assert (mounted = Some (zlen r) ↔ Forall (eq true) r ∧ ∀ m, published_count c t m → zlen r <= m) as Hmt.
  { rewrite loaded_all. unfold mounted. destruct (_prefetch_published_remote_blocks c t) as [p|]; cbn [min_opt].
    - destruct Hp as [Hp1 Hp2]. split; [intros [= E]; split; [lia|intros m Hm%Hp2; lia]|]. intros [E Hm]. specialize (Hm p Hp1). f_equal. lia.
    - split; [intros [= E]; split; [lia|intros m Hm; by apply Hp in Hm]|]. intros [E _]. by f_equal. }
  set (swa_ok := match prefetch_swa_block_results t with Some _ => _ | None => _ end).
  assert (swa_ok = true ↔ ∃ w, prefetch_swa_block_results t = Some w ∧ w ≠ [] ∧ Forall (eq true) w) as Hok.
  { unfold swa_ok. destruct (prefetch_swa_block_results t) as [w|]; [|split; [done|by intros (? & ? & _)]].
    rewrite andb_true_iff, Z.ltb_lt, forallb_forall. split.
    - intros [Hl Ha]. exists w. split; [done|]. split; [by intros ->|]. apply Forall_forall. intros x Hx%list_elem_of_In. symmetry. by apply Ha.
    - intros (w' & [= <-] & Hne & Ha). split; [destruct w; [done|unfold zlen; cbn; lia]|]. intros x Hx%list_elem_of_In.
      rewrite Forall_forall in Ha. symmetry. by apply Ha. }
  destruct (decide (mounted = Some (zlen r))) as [Em|Em].
  - rewrite (bool_decide_eq_true_2 _ Em). apply Hmt in Em as H1. destruct swa_ok; cbn [negb orb].
    + left. exists r. split; [|done]. split; [done|]. destruct H1. split; [done|]. split; [by apply Hok|done].
    + right. split; [|done]. intros r' (_ & _ & H2 & _). apply Hok in H2. done.
  - rewrite (bool_decide_eq_false_2 _ Em). cbn [negb orb]. right. split; [|done]. intros r' (Er & H1 & _ & H2).
    injection Er as <-. destruct Em. by apply Hmt.
Qed.

(** [C35] What a finished prefetch reports.  Its planned mask is a range of tokens; the mask it reports is the
    range cut after a number of blocks, so the tokens it claims are a prefix of the planned ones and every block
    they reach was loaded, if the main load reported block results.  Without a sliding-window load the number is exactly the least of the limits: the
    number of blocks loaded before the first failure, if there are results, and the number published by each
    deferred insert into the CPU tier (0 for one that failed); with no limit the planned mask stays.  With a
    sliding-window load the report is all or nothing: every loaded block when the main load, the window and the inserts are complete, else no token. *)
Theorem prefetch_report_spec c t n (lo hi : nat) :
  (lo <= hi <= n)%nat → return_mask t = Mask (mask_range n (Z.of_nat lo) (Z.of_nat hi)) →
  let cut blocks := Z.min (Z.of_nat hi) (Z.of_nat lo + Z.max 0 blocks * Z.of_nat tpb) in
  ∃ claimed,
    return_mask (_finalize_prefetch_return_mask tpb c t) = Mask (mask_range n (Z.of_nat lo) claimed) ∧
    Z.of_nat lo <= claimed <= Z.of_nat hi ∧
    (∀ r i, prefetch_full_block_results t = Some r → Z.of_nat lo + Z.of_nat i * Z.of_nat tpb < claimed → r !! i = Some true) ∧
    if prefetch_has_swa_remote t
    then (∃ r, complete c t r ∧ claimed = cut (zlen r)) ∨ (∀ r, ¬ complete c t r) ∧ claimed = Z.of_nat lo
    else (∃ m, least (limit c t) m ∧ claimed = cut m) ∨ (∀ m, ¬ limit c t m) ∧ claimed = Z.of_nat hi.
Proof.
  intros Hn Hm cut. rewrite (finalize_run c t n lo hi Hn Hm). eexists. split; [reflexivity|].
  destruct (prefetch_has_swa_remote t) eqn:Ew.
  - destruct (swa_report c t Ew) as [(r & Hc & ->)|[Hc ->]].
    + split; [lia|]. split; [|left; by exists r]. intros r' i Er Hi. destruct Hc as (Er' & Ha & _). rewrite Er in Er'. injection Er' as ->.
      apply success_prefix_spec. rewrite (proj1 (loaded_all r) Ha). nia.
    + split; [lia|]. split; [|right; split; [done|nia]]. intros r i _ Hi. nia.
  - pose proof (mounted_least c t) as Hl. unfold report_len. rewrite Ew. destruct (min_opt _ _) as [m|].
    + split; [lia|]. split; [|left; by exists m]. intros r i Er Hi. apply success_prefix_spec.
      pose proof (success_prefix_bound r). assert (m <= _longest_success_prefix r); [|nia]. apply Hl. right.
      exists r, (Z.to_nat (_longest_success_prefix r)). split; [done|]. rewrite loaded_prefix_eq. lia.
    + split; [lia|]. split; [|by right]. intros r i Er _. destruct (Hl (_longest_success_prefix r)). right.
      exists r, (Z.to_nat (_longest_success_prefix r)). pose proof (success_prefix_bound r). split; [done|]. rewrite loaded_prefix_eq. lia.
Qed.
End report.

(** ** A concrete prefetch: three blocks of two tokens were planned, the second of them failed *)

Definition demo_task : KVTask unit :=
  mkTask 0 PREFETCH 5 true RUNNING None None None None (Mask (mask_range 8 2 8)) NoCallback [] false None false
    (Some [true; false; true]) None false None false.

Lemma prefetch_report_spec_witness :
  return_mask (_finalize_prefetch_return_mask 2 tt demo_task) = Mask (mask_range 8 2 4).
Proof.
  destruct (prefetch_report_spec 2 tt demo_task 8 2 8 ltac:(lia) eq_refl) as (claimed & E & _ & _ & [(m & [Hm Hl] & Ec)|[Hno _]]).
  - rewrite E, Ec. assert (m = 1) as ->; [|reflexivity].
    destruct Hm as [(p & (pc & [Hpc|(l & Hpc & _)] & _) & _)|(r & k & [= <-] & [Hk Hkn] & ->)]; [discriminate Hpc|discriminate Hpc|].
    destruct k as [|[|k]]; [destruct Hkn; reflexivity|reflexivity|discriminate (Hk 1%nat ltac:(lia))].
  - destruct (Hno 1). right. exists [true; false; true], 1%nat. split; [reflexivity|]. split; [|reflexivity]. split; [|discriminate].
    intros [|i] Hi; [reflexivity|lia].
Defined.
End PrefetchMask.
