(* ===== verification/PlanFrame.v ===== *)
(** * PlanFrame: the graph of a plan

    Frame facts about the planners of [GlobalPlan], for their clients: whatever
    [get] and [put] do to the cache, the graph of their answer is one they made (its
    id was never used before), its id is not changed while the plan is built, and
    the handle of the answer was not used. *)

From S2P Require Import Prelude PyFloat Block Transfer GraphBuild BatchMerge BatchFrame SWAOps CacheEngine GlobalCache GlobalPlan.
Import GraphBuild.GraphBuild BatchFrame.BatchFrame SWAOps.SWAOps CacheEngine.CacheEngine GlobalCache.GlobalCache GlobalPlan.GlobalPlan.
Local Open Scope Z_scope.

Module PlanFrame.

Section planning.
Context (XXH64 : list Z → Z) (clock : nat → float) (gid next : Z).

(** The graph being planned, and the counter of graph ids. *)
Definition planning (p : Planning) : Prop := same_graph gid next p.2.
Abbreviation quiet := (keeps planning).

Lemma quiet_global {A} (op : Global A) : quiet (on_global op).
Proof. intros p Hp. unfold on_global. by destruct (op p.1) as [[a|x] g]. Qed.

Lemma quiet_build {A} (op : Build A) : keeps (same_graph gid next) op → quiet (on_build op).
Proof. intros Ho p Hp. unfold on_build. specialize (Ho p.2 Hp). by destruct (op p.2) as [[a|x] b]. Qed.

Lemma keeps_new_op ty src dst dp swa kv hashes : keeps (same_graph gid next) (new_op ty src dst dp swa kv hashes).
Proof. unfold new_op. keeps_steps. apply keeps_new_ids. intros. apply op_init_ids. Qed.

Lemma quiet_kv_op ty src dst dp : quiet (kv_op ty src dst dp).
Proof. apply quiet_build. keeps_steps; auto using keeps_new_op with keeps. Qed.

Lemma quiet_depends s p : quiet (depends_on s p).
Proof. apply quiet_build, keeps_graph_depend. Qed.

Lemma quiet_for_each {X} (f : X → Plan unit) l : (∀ x, quiet (f x)) → quiet (for_each f l).
Proof. intros Hf. apply keeps_for_each. auto. Qed.

Lemma quiet_deref {A} (o : option A) : quiet (deref o).
Proof. unfold deref. keeps_steps. Qed.

Hint Resolve quiet_global quiet_kv_op quiet_depends quiet_deref keeps_new_op : keeps.

Lemma keeps_swa_op enabled ty src dst dp hashes : keeps (same_graph gid next) (build_swa_op enabled ty src dst dp hashes).
Proof. unfold build_swa_op. keeps_steps; auto with keeps. Qed.
Hint Resolve keeps_swa_op : keeps.

Lemma keeps_get_chain enabled gpu cpu ssd remote dp hashes : keeps (same_graph gid next) (build_get_chain enabled gpu cpu ssd remote dp hashes).
Proof. unfold build_get_chain, staging_op. keeps_steps; auto with keeps. Qed.

Lemma keeps_put_chain enabled gpu cpu ssd remote dp hashes : keeps (same_graph gid next) (build_put_chain_ids enabled gpu cpu ssd remote dp hashes).
Proof. unfold build_put_chain_ids, write_through_op. keeps_steps; auto with keeps. Qed.

Lemma quiet_swa_read aware gpu a b tiers seq cpu dp : quiet (swa_read aware gpu a b tiers seq cpu dp).
Proof.
  unfold swa_read, _reserve_swa_read_source. keeps_steps; auto with keeps. apply quiet_build, keeps_get_chain.
Qed.

Lemma quiet_insert d seq blocks n r : quiet (insert_unready XXH64 clock d seq blocks n r).
Proof. unfold insert_unready, size_of. keeps_steps; auto with keeps. Qed.

Lemma quiet_unlock_entry d n : quiet (unlock_entry d n).
Proof. unfold unlock_entry, size_of. keeps_steps; auto with keeps. Qed.

Lemma quiet_take d num n strict : quiet (take_blocks d num n strict).
Proof. apply quiet_global. Qed.

Lemma quiet_give_back d blocks : quiet (give_back d blocks).
Proof. apply quiet_global. Qed.

Lemma quiet_release r : quiet (release r).
Proof. apply quiet_global. Qed.

Lemma quiet_swa_final r n ids d : quiet (swa_final r n ids d).
Proof. unfold swa_final. keeps_steps. Qed.

Lemma quiet_h2d gpu src dst waits dp : quiet (h2d_op gpu src dst waits dp).
Proof. unfold h2d_op. keeps_steps; auto using quiet_for_each with keeps. Qed.

Hint Resolve quiet_swa_read quiet_insert quiet_unlock_entry quiet_take quiet_give_back quiet_release quiet_swa_final quiet_h2d : keeps.

Lemma quiet_stage_blocks num cpu r : quiet (stage_blocks num cpu r).
Proof. unfold stage_blocks. keeps_steps; auto with keeps. Qed.

Lemma quiet_disk_stage gds a b c seq cpu ssd l1 l2 l3 dp : quiet (disk_stage XXH64 clock gds a b c seq cpu ssd l1 l2 l3 dp).
Proof. unfold disk_stage, size_of. keeps_steps; auto with keeps. Qed.

Lemma quiet_stage_strict num cpu r : quiet (stage_strict num cpu r).
Proof.
  unfold stage_strict. keeps_steps; auto with keeps. intros p Hp. unfold take_strict.
  match goal with |- context [take_blocks CPU num ?n true p] => pose proof (quiet_take CPU num n true p Hp) as Ht end.
  by destruct (take_blocks _ _ _ _ p) as [[l|[]] p'].
Qed.

Lemma quiet_stage_insert a b c seq cpu staged : quiet (stage_insert XXH64 clock a b c seq cpu staged).
Proof. unfold stage_insert. keeps_steps; auto with keeps. Qed.

Lemma quiet_promote en a b c d seq ssd staged r dp : quiet (promote_to_ssd XXH64 clock en a b c d seq ssd staged r dp).
Proof. unfold promote_to_ssd. keeps_steps; auto with keeps. Qed.

Lemma quiet_stage_op ty wanted src dst dp : quiet (stage_op ty wanted src dst dp).
Proof. unfold stage_op. keeps_steps; auto with keeps. Qed.

Lemma quiet_host_ready ids dp : quiet (host_ready_op ids dp).
Proof. unfold host_ready_op. keeps_steps. apply quiet_build, keeps_end_op. Qed.

Lemma quiet_ready_callback d op node callbacks : quiet (ready_callback d op node callbacks).
Proof. unfold ready_callback. keeps_steps; auto with keeps. Qed.

Lemma quiet_store_op ty wanted src dst d2h dp : quiet (store_op ty wanted src dst d2h dp).
Proof. unfold store_op. keeps_steps; auto with keeps. Qed.

Lemma quiet_put_swa_ops a b c d e dp : quiet (put_swa_ops a b c d e dp).
Proof. unfold put_swa_ops. keeps_steps; auto with keeps. apply quiet_build, keeps_put_chain. Qed.

Lemma quiet_store_node wanted d k seq blocks r : quiet (store_node XXH64 clock wanted d k seq blocks r).
Proof. unfold store_node. keeps_steps; auto with keeps. Qed.

Hint Resolve quiet_stage_blocks quiet_disk_stage quiet_stage_strict quiet_stage_insert quiet_promote quiet_stage_op quiet_host_ready
  quiet_ready_callback quiet_store_op quiet_put_swa_ops quiet_store_node : keeps.

(** ** The parts of a plan go into its own graph *)

(** [op] keeps the graph, and what it answers satisfies [Q]. *)
Definition builds {A} (Q : A → Prop) (op : Plan A) : Prop := triple planning planning op (λ a p, planning p ∧ Q a).

Lemma builds_bind {A B} (Q : B → Prop) (op : Plan A) (f : A → Plan B) : quiet op → (∀ a, builds Q (f a)) → builds Q (op ≫= f).
Proof. intros Ho Hf. eapply triple_bind; [exact Ho|exact Hf]. Qed.

Lemma builds_ret {A} (Q : A → Prop) a : Q a → builds Q (mret a).
Proof. intros Ha. by apply triple_ret. Qed.

Definition parts_get (f : TransferOpGraph → GetTransferPlan) : Prop := ∀ g, gp_transfer_graph (f g) = g.
Definition parts_put (f : TransferOpGraph → PutTransferPlan) : Prop := ∀ g, pp_transfer_graph (f g) = g.

Ltac builds_steps :=
  repeat match goal with
  | |- builds _ (_ ≫= _) => apply builds_bind; [solve [auto with keeps | keeps_steps; auto with keeps]|intros ?]
  | |- builds _ (mret _) => apply builds_ret
  | |- builds _ (match ?x with _ => _ end) => destruct x
  end.

Lemma local_ops_builds a b c d e f seq cpu ssd l1 l2 l3 l4 r dp :
  builds parts_get (local_read_ops XXH64 clock a b c d e f seq cpu ssd l1 l2 l3 l4 r dp).
Proof. unfold local_read_ops. builds_steps. by intros g. Qed.

Lemma global_ops_builds a b c d e f h i seq cpu ssd remote l1 l2 l3 l4 l5 r dp :
  builds parts_get (global_read_ops XXH64 clock a b c d e f h i seq cpu ssd remote l1 l2 l3 l4 l5 r dp).
Proof. unfold global_read_ops. builds_steps. by intros g. Qed.

Lemma write_ops_builds seq cpu ssd remote a b c d l1 l2 held dp :
  builds parts_put (write_ops XXH64 clock seq cpu ssd remote a b c d l1 l2 held dp).
Proof. unfold write_ops. builds_steps. by intros g. Qed.

Definition some_parts {P} (Q : (TransferOpGraph → P) → Prop) (o : option (TransferOpGraph → P)) : Prop := match o with Some f => Q f | None => True end.

Lemma builds_some {P} (Q : (TransferOpGraph → P) → Prop) (op : Plan (TransferOpGraph → P)) :
  builds Q op → builds (some_parts Q) (parts ← op; mret (Some parts)).
Proof. intros Ho. eapply triple_bind; [exact Ho|]. intros f. by apply triple_ret. Qed.

Lemma local_read_builds s config a b l seq cpu ssd aware dp :
  builds (some_parts parts_get) (local_read XXH64 clock s config a b l seq cpu ssd aware dp).
Proof. unfold local_read. builds_steps; try done. apply builds_some, local_ops_builds. Qed.

Lemma global_read_builds s config a b l seq cpu ssd remote aware dp :
  builds (some_parts parts_get) (global_read XXH64 clock s config a b l seq cpu ssd remote aware dp).
Proof. unfold global_read. builds_steps; try done. apply builds_some, global_ops_builds. Qed.
End planning.

(** ** Fresh graphs *)

Section fresh.
Context (XXH64 : list Z → Z) (clock : nat → float) (next : Z).

(** The counter of graph ids has not gone below [next]. *)
Definition above (w : World) : Prop := next <= _next_graph_id w.2.

(** [op] answers with something whose graph was made by it. *)
Definition fresh_graph {A} (graph_of : A → TransferOpGraph) (op : M World A) : Prop :=
  triple above above op (λ a w, above w ∧ next <= graph_id (graph_of a) < _next_graph_id w.2).

Lemma above_global {A} (op : Global A) : keeps above (world_global op).
Proof. intros w Hw. unfold world_global. by destruct (op w.1) as [[a|x] g]. Qed.

Lemma above_assert b : keeps above (assertM b).
Proof. apply keeps_lift. Qed.

Lemma fresh_bind {A B} (graph_of : B → TransferOpGraph) (op : M World A) (f : A → M World B) :
  keeps above op → (∀ a, fresh_graph graph_of (f a)) → fresh_graph graph_of (op ≫= f).
Proof. intros Ho Hf. eapply triple_bind; [exact Ho|exact Hf]. Qed.

Lemma fresh_empty {P} (graph_of : P → TransferOpGraph) (mk : TransferOpGraph → P) :
  (∀ g, graph_of (mk g) = g) → fresh_graph graph_of (world_ids (g ← TransferOpGraph_init; mret (mk g))).
Proof.
  intros Hmk w Hw. unfold world_ids. rewrite M_bind_run, graph_init_run. cbn. rewrite Hmk. unfold above in *. cbn. lia.
Qed.

Lemma fresh_plan {P} (graph_of : P → TransferOpGraph) (mk : TransferOpGraph → P) (m : Plan (option (TransferOpGraph → P))) :
  (∀ g, graph_of (mk g) = g) → (∀ gid n, builds gid n (some_parts (λ f, ∀ g, graph_of (f g) = g)) m) →
  fresh_graph graph_of (plan_with (g ← TransferOpGraph_init; mret (mk g)) m).
Proof.
  intros Hmk Hm w Hw. unfold plan_with. rewrite M_bind_run. unfold world_ids at 1. rewrite graph_init_run. rewrite M_bind_run.
  unfold in_graph. cbn [fst snd]. set (g0 := mkGraph _ _ _ _ _ _). set (i0 := mkIds _ _).
  assert (planning (_next_graph_id w.2) (_next_graph_id w.2 + 1) (w.1, (i0, g0))) as Hp by done.
  specialize (Hm _ _ _ Hp). destruct (m (w.1, (i0, g0))) as [[o|x] [g [i gr]]].
  - destruct Hm as [[Hg Hn] Ho]. cbn in Hg, Hn. destruct o as [f|].
    + cbn. rewrite (Ho gr). unfold above in *. cbn. lia.
    + apply fresh_empty; [done|]. unfold above in *. cbn. lia.
  - destruct Hm as [_ Hn]. cbn in Hn. unfold above in *. cbn. lia.
Qed.

Ltac fresh_steps :=
  repeat match goal with
  | |- fresh_graph _ (_ ≫= _) => apply fresh_bind; [solve [apply above_global | apply above_assert | apply keeps_lift]|intros ?]
  | |- fresh_graph _ (match ?x with _ => _ end) => destruct x
  end.

Lemma get_local_fresh seq a b l s dp aware : fresh_graph gp_transfer_graph (_get_impl_local XXH64 clock seq a b l s dp aware).
Proof. unfold _get_impl_local, empty_get_plan. fresh_steps. apply fresh_plan; [done|]. intros. apply local_read_builds. Qed.

Lemma get_global_fresh seq a b l s dp aware : fresh_graph gp_transfer_graph (_get_impl_global XXH64 clock seq a b l s dp aware).
Proof. unfold _get_impl_global, empty_get_plan. fresh_steps. apply fresh_plan; [done|]. intros. apply global_read_builds. Qed.

Lemma put_local_fresh seq a b l s dp : fresh_graph pp_transfer_graph (_put_impl_local XXH64 clock seq a b l s dp).
Proof.
  unfold _put_impl_local, empty_put_plan. fresh_steps; try by apply fresh_empty.
  apply fresh_plan; [done|]. intros. apply builds_some, write_ops_builds.
Qed.

Lemma put_global_fresh seq a b l s dp : fresh_graph pp_transfer_graph (_put_impl_global XXH64 clock seq a b l s dp).
Proof.
  unfold _put_impl_global, empty_put_plan. fresh_steps; try by apply fresh_empty.
  apply fresh_plan; [done|]. intros. apply builds_some, write_ops_builds.
Qed.

(** The end op goes into the graph of the plan. *)
Lemma end_graph_fresh g ops dp :
  triple above (λ w, above w ∧ next <= graph_id g < _next_graph_id w.2) (end_graph g ops dp)
    (λ r w, above w ∧ next <= graph_id r.2 < _next_graph_id w.2).
Proof.
  intros w [Hw Hg]. unfold end_graph, in_graph, on_build. cbn [fst snd].
  pose proof (keeps_end_op (graph_id g) (_next_graph_id w.2) ops dp (w.2, g) (conj eq_refl eq_refl)) as Hk.
  destruct (add_virtual_op_for_multiple_finished_ops ops dp (w.2, g)) as [[k|x] [i g']]; destruct Hk as [Hg' Hn]; cbn in *;
    unfold above in *; cbn; rewrite Hn, ?Hg'; lia.
Qed.

(** The answer: a graph of its own, and a handle that is still to be used. *)
Definition fresh_response (op : M World Response) : Prop :=
  triple above above op (λ r w, above w ∧ next <= graph_id (re_transfer_graph r) < _next_graph_id w.2 ∧ _consumed (re_callback r) = false).

Lemma response_fresh {P} (op : M World P) (graph_of : P → TransferOpGraph) (ops_of : P → list Z) (unlock : P → NodeMap) dp
    (mk : P → Z → TransferOpGraph → Response) :
  fresh_graph graph_of op → (∀ p k g, re_transfer_graph (mk p k g) = g ∧ _consumed (re_callback (mk p k g)) = false) →
  fresh_response (p ← op; '(k, g) ← end_graph (graph_of p) (ops_of p) dp; world_global (lock_nodes (unlock p)) ;; mret (mk p k g)).
Proof.
  intros Ho Hmk. eapply triple_bind; [exact Ho|]. intros p. eapply triple_bind; [apply end_graph_fresh|]. intros [k g].
  eapply (triple_bind _ _ _ _ (λ _ w, above w ∧ next <= graph_id g < _next_graph_id w.2)).
  - intros w [Hw Hg]. unfold world_global. by destruct (lock_nodes (unlock p) w.1) as [[a|x] e].
  - intros []. apply triple_ret. intros w [Hw Hg]. destruct (Hmk p k g) as [-> ->]. done.
Qed.

Lemma get_fresh tokens mask slots dp s ns aware : fresh_response (get XXH64 clock tokens mask slots dp s ns aware).
Proof.
  unfold get. eapply triple_bind; [apply (keeps_lift above)|]. intros []. eapply triple_bind; [apply above_global|]. intros config.
  destruct (_ || _).
  - intros w Hw. unfold empty_response. rewrite M_bind_run. unfold world_ids. rewrite graph_init_run. cbn. unfold above in *. cbn. lia.
  - destruct (_get_block_range _ _) as [first last]. eapply triple_bind; [apply (keeps_lift above)|]. intros [].
    eapply triple_bind; [apply (keeps_lift above)|]. intros seq. unfold get_response.
    apply (response_fresh _ gp_transfer_graph gp_finished_ops_ids gp_node_to_unlock); [|done].
    destruct (_ || _); [apply get_local_fresh|apply get_global_fresh].
Qed.

Lemma put_fresh tokens mask slots dp s ns : fresh_response (put XXH64 clock tokens mask slots dp s ns).
Proof.
  unfold put. eapply triple_bind; [apply (keeps_lift above)|]. intros []. eapply triple_bind; [apply above_global|]. intros config.
  destruct (_get_block_range _ _) as [first last]. eapply triple_bind; [apply (keeps_lift above)|]. intros [].
  eapply triple_bind; [apply (keeps_lift above)|]. intros seq. eapply triple_bind; [apply (keeps_lift above)|]. intros [].
  unfold put_response. apply (response_fresh _ pp_transfer_graph pp_finished_ops_ids pp_node_to_unlock); [|done].
  destruct (_ || _); [apply put_local_fresh|apply put_global_fresh].
Qed.
End fresh.
End PlanFrame.
