(* ===== verification/TaskEngine.v ===== *)
(** * TaskEngine: the task manager on the cache engine

    [TaskManager] over the [get], [put] and [reset] of [GlobalPlan] and
    [GlobalCache]: the engine is a [CacheService] and has the [CacheServiceLaws], so
    the theorems of [TaskHistory] and [TaskWait] hold of it.  Then what happens at
    the seam: a masked [put_match], and a request that is written, waited for and
    found again. *)

From S2P Require Import Prelude PyFloat Block Transfer GraphBuild BatchMerge BatchFrame RadixSpec CacheEngine GlobalCache GlobalPlan PutPlan PlanFrame CompletionAgg TaskManager TaskLife TaskSteps TaskHistory.
Import GraphBuild.GraphBuild BatchMerge.BatchMerge BatchFrame.BatchFrame GlobalCache.GlobalCache GlobalPlan.GlobalPlan PlanFrame.PlanFrame CompletionAgg.CompletionAgg.
Import TaskManager.TaskManager TaskLife.TaskLife TaskSteps.TaskSteps TaskHistory.TaskHistory.
Local Open Scope Z_scope.

Module TaskEngine.

Section engine.
Context (XXH64 : list Z → Z) (clock : nat → float).

(** The answer of the engine as the task manager unpacks it.  (Deferred inserts come with the Mooncake backend.) *)
Definition planned_of (r : Response) : Planned GlobalCacheEngine :=
  mkPlanned (re_transfer_graph r) (re_return_mask r) (mkPlanCallback (re_callback r) (λ _, []))
    ((λ e, (e.1, Plain e.2)) <$> re_op_callback_dict r) (re_task_end_op_id r).

#[export] Instance engine_service : CacheService GlobalCacheEngine := {|
  cs_get tokens mask slots dp s namespace swa_aware :=
    r ← get XXH64 clock tokens mask slots dp s namespace swa_aware; mret (planned_of r);
  cs_put tokens mask slots dp namespace :=
    r ← put XXH64 clock tokens mask slots dp DEFAULT_CACHE_STRATEGY namespace; mret (planned_of r);
  cs_reset := reset clock;
|}.

Lemma planned_fresh (op : M World Response) g i :
  (∀ next, fresh_response next op) → fresh_answer i ((r ← op; mret (planned_of r)) (g, i)).
Proof.
  intros Ho. specialize (Ho (_next_graph_id i) (g, i) (Z.le_refl _)). rewrite M_bind_run.
  destruct (op (g, i)) as [[r|x] [g' i']]; cbn in *; [|done]. destruct Ho as (Ha & Hg & Hc). done.
Qed.

#[export] Instance engine_laws : CacheServiceLaws GlobalCacheEngine.
Proof.
  split; intros; apply planned_fresh; intros next; [apply get_fresh|apply put_fresh].
Qed.

(** A mask with a hole has fewer slots than tokens. *)
Lemma masked_fewer k mask : false ∈ mask → zlen (where_from k mask) < zlen mask.
Proof.
  assert (∀ k m, zlen (where_from k m) <= zlen m) as Hle.
  { clear k mask. intros k m. revert k. induction m as [|b m IH]; intros k; [done|]. specialize (IH (S k)). unfold zlen in *. cbn. rewrite length_app.
    destruct b; cbn; lia. }
  revert k. induction mask as [|b mask IH]; intros k Hin; [by apply elem_of_nil in Hin|]. cbn [where_from].
  specialize (Hle (S k) mask). unfold zlen in *. rewrite length_app. cbn [length]. destruct b; cbn; [|lia].
  apply elem_of_cons in Hin as [?|Hin]; [done|]. specialize (IH (S k) Hin). lia.
Qed.

Context (poll : nat → list CompletedOp) (deployment : Deployment).

(** The first phase of a masked write cannot be used: [put_match] makes up one slot per token, not per token
    that the mask selects ([get_match] does), so the input check of the cache engine fails for every mask with a
    token that is left out.  No task is made. *)
Theorem masked_put_match_raises m m' tokens dp mask id ns :
  _update_tasks poll deployment m = (Ok tt, m') →
  tasks m' !! (if id =? -1 then task_id_counter m' else id) = None → length mask = length tokens → false ∈ mask →
  ∃ m'', put_match poll deployment tokens dp (Some mask) id ns m = (Raise AssertionError, m'') ∧
    tasks m'' = tasks m' ∧ graph_to_task m'' = graph_to_task m' ∧ cache_engine m'' = cache_engine m'.
Proof.
  intros Eu Hnew Hlen Hin. pose proof (masked_fewer 0 mask Hin) as Hs. unfold put_match. rewrite M_bind_run, Eu. unfold _put_match_impl.
  change (default (ones_like tokens) (Some mask)) with mask. cbn zeta.
  assert (_check_input tokens mask (zeros_like tokens) = Raise AssertionError) as Hc.
  { unfold _check_input, py_assert, zeros_like, mask_sum, zlen in *. rewrite length_replicate.
    destruct (Z.of_nat (length tokens) =? Z.of_nat (length mask)); [|done]. cbn. rewrite (proj2 (Z.eqb_neq _ _)); [done|]. cbn in Hs. lia. }
  assert (∀ i m1, tasks m1 !! i = None → tasks m1 = tasks m' → graph_to_task m1 = graph_to_task m' → cache_engine m1 = cache_engine m' →
    ∃ m'', create_put_task i tokens (zeros_like tokens) dp mask true ns m1 = (Raise AssertionError, m'') ∧
      tasks m'' = tasks m' ∧ graph_to_task m'' = graph_to_task m' ∧ cache_engine m'' = cache_engine m') as Hcreate.
  { intros i m1 Ei Et Eg Ec. unfold create_put_task. rewrite M_bind_run. unfold assert_new. rewrite M_bind_run. cbn [get_state]. rewrite Ei.
    cbn [mret M_ret]. rewrite M_bind_run. unfold on_world. cbn [cs_put engine_service]. rewrite M_bind_run. unfold put at 1. rewrite M_bind_run.
    unfold lift_result at 1. rewrite Hc. eexists. split; [reflexivity|]. done. }
  unfold resolve_task_id. destruct (id =? -1) eqn:Ei; rewrite M_bind_run; cbn [_gen_task_id mret M_ret].
  - destruct (Hcreate (task_id_counter m') (with_counter (task_id_counter m' + 1) m')) as (m'' & E & Hrest); [done..|].
    rewrite M_bind_run, E. eauto.
  - destruct (Hcreate id m') as (m'' & E & Hrest); [done..|]. rewrite M_bind_run, E. eauto.
Qed.
End engine.

(** ** A request through the whole stack *)

Section round.
#[local] Instance toy_engine_service : CacheService GlobalCacheEngine := engine_service toy_digest RadixSpec.toy_clock.

(** The first graph completes, op by op. *)
Definition engine_poll (n : nat) : list CompletedOp :=
  match n with 1%nat => [completed_op 0 0; completed_op 0 1; completed_op 0 2; completed_graph 0] | _ => [] end.

Definition engine_start : KVTaskManager GlobalCacheEngine := new_manager PutPlan.toy_global PutPlan.toy_ids.
Definition engine_written : KVTaskManager GlobalCacheEngine :=
  (put_async toy_deployment [7; 8; 9] [0; 1; 2] 0 None (-1) None engine_start).2.
Definition engine_waited := wait RadixSpec.toy_clock engine_poll toy_deployment 5 [0] default_timeout true engine_written.

(** Three blocks are written and waited for; a read of four tokens then finds the first three. *)
Example written_then_found :
  engine_waited.1 = Ok [(0, mkKVResponse Success 0 (Some (Mask [true; true; true])))] ∧
  (get_match engine_poll toy_deployment [7; 8; 9; 5] 0 None false (-1) None false engine_waited.2).1 = Ok (1, Mask [true; true; true; false]).
Proof. split; vm_compute; reflexivity. Qed.

(** Before the write has completed, nothing is found. *)
Example unfinished_not_found :
  (get_match (λ _, []) toy_deployment [7; 8; 9; 5] 0 None false (-1) None false engine_written).1 = Ok (1, Mask [false; false; false; false]).
Proof. vm_compute. reflexivity. Qed.

Lemma masked_put_match_raises_witness :
  ∃ m'', put_match engine_poll toy_deployment [7; 8; 9] 0 (Some [true; true; false]) (-1) None engine_start = (Raise AssertionError, m'') ∧
    tasks m'' = ∅.
Proof.
  destruct (masked_put_match_raises toy_digest RadixSpec.toy_clock engine_poll toy_deployment engine_start
    (_update_tasks engine_poll toy_deployment engine_start).2 [7; 8; 9] 0 [true; true; false] (-1) None) as (m'' & E & Et & _).
  - vm_compute. reflexivity.
  - vm_compute. reflexivity.
  - reflexivity.
  - apply elem_of_cons. right. apply elem_of_cons. right. apply elem_of_cons. by left.
  - exists m''. split; [exact E|]. rewrite Et. vm_compute. reflexivity.
Defined.

(** A read that misses has an empty graph, so its task is completed, and shed, when it is matched.  Launching it in a
    batch with a read that hits fails on its missing tokens, after the other task was set to RUNNING: that one is in
    no graph that was submitted, and can be launched no more. *)
Definition engine_hit := (get_match engine_poll toy_deployment [7; 8; 9] 0 None false (-1) None false engine_waited.2).2.
Definition engine_hit_miss := (get_match engine_poll toy_deployment [4; 4; 4] 0 None false (-1) None false engine_hit).2.
Definition engine_launch : M (KVTaskManager GlobalCacheEngine) (list Z) := launch_tasks toy_deployment [1; 2] [[0; 1; 2]; [3; 4; 5]] None true (-1) false 0.

Example batch_with_missed_read_raises :
  is_ok (engine_launch engine_hit_miss).1 = false ∧
  status <$> tasks (engine_launch engine_hit_miss).2 !! 1 = Some RUNNING ∧
  length (submitted (engine_launch engine_hit_miss).2) = length (submitted engine_hit_miss) ∧
  is_ok (_launch_task toy_deployment 1 (engine_launch engine_hit_miss).2).1 = false.
Proof. split_and!; vm_compute; reflexivity. Qed.
End round.
End TaskEngine.
