(* ===== verification/TransferEngine.v ===== *)
(** * TransferEngine: the scheduling thread of the data plane

    Models the control logic of [flexkv/transfer/transfer_engine.py]: the body of
    [_scheduler_loop] with its handlers, the routing of ops to workers, the slots
    of the shared op buffer, and the entry points other threads call; and the
    messages of [flexkv/transfer/worker_op.py].

    A worker is named by its [worker_id]; [sent] collects what was written to the
    pipes of the workers, [(worker, message)].  What the workers report arrives in
    [finished_ops_queue] at any moment between two iterations.

    An op lives in a graph of the scheduler and in [op_id_to_op] at once.  The
    scheduler writes its status and predecessors, this thread its slots, counter
    and block results, and neither reads what the other writes: the two sides hold
    one record each.  Profiling ranges, traces and logs are left out. *)

From S2P Require Import Prelude Block RingBuffer Transfer Scheduler.
Local Open Scope Z_scope.

Module TransferEngine.
Import RingBuffer Scheduler.

(** ** Messages *)

(** [worker_op.WorkerTransferResult] *)
Record WorkerTransferResult : Type := mkWorkerTransferResult {
  transfer_op_id : Z;
  result_blocks : option (list bool);
}.

(** What the workers put on [finished_ops_queue]: a result, a bare op id, or a tuple that
    starts with either and tells success (its metrics only feed the trace). *)
Inductive Payload : Type :=
  | PResult (r : WorkerTransferResult)
  | PInt (op_id : Z)
  | PTuple (first : Z + WorkerTransferResult) (op_succeeded : bool).

(** [(op_id, op_succeeded, block_results)] *)
Definition read_payload (payload : Payload) : Z * bool * option (list bool) :=
  match payload with
  | PResult r => (transfer_op_id r, true, result_blocks r)
  | PTuple (inr r) ok => (transfer_op_id r, ok, result_blocks r)
  | PTuple (inl op_id) ok => (op_id, ok, None)
  | PInt op_id => (op_id, true, None)
  end.

(** [worker_op.WorkerTransferOp] *)
Record WorkerTransferOp : Type := mkWorkerTransferOp {
  w_op_id : Z;
  w_graph_id : Z;
  w_transfer_type : TransferType;
  w_src_slot_id : Z;
  w_dst_slot_id : Z;
  w_valid_block_num : Z;
  w_src_block_ids : list Z;
  w_dst_block_ids : list Z;
  w_block_hashes : option (list Z);
  w_swa_block_hashes : option (list string);
}.

(** Block ids travel in the message unless both ends have a slot and no hashes are carried. *)
Definition WorkerTransferOp_init (o : TransferOp) : WorkerTransferOp :=
  let carry :=
    (src_slot_id o =? -1) || (dst_slot_id o =? -1) ||
    bool_decide (is_Some (mooncake_store_block_hashes o)) ||
    bool_decide (is_Some (mooncake_store_swa_block_hashes o)) in
  {| w_op_id := op_id o; w_graph_id := op_graph_id o; w_transfer_type := transfer_type o;
     w_src_slot_id := src_slot_id o; w_dst_slot_id := dst_slot_id o;
     w_valid_block_num := valid_block_num o;
     w_src_block_ids := if carry then src_block_ids o else [];
     w_dst_block_ids := if carry then dst_block_ids o else [];
     w_block_hashes := mooncake_store_block_hashes o;
     w_swa_block_hashes := mooncake_store_swa_block_hashes o |}.

(** [worker_op.WorkerLayerwiseTransferOp] *)
Record WorkerLayerwiseTransferOp : Type := mkWorkerLayerwiseTransferOp {
  wl_op_id : Z;
  wl_graph_id : Z;
  wl_fields : LayerwiseFields;
}.

Inductive WorkerMessage : Type :=
  | PlainMessage (m : WorkerTransferOp)
  | LayerwiseMessage (m : WorkerLayerwiseTransferOp).

Definition message_op_id (m : WorkerMessage) : Z :=
  match m with PlainMessage w => w_op_id w | LayerwiseMessage w => wl_op_id w end.

(** ** State *)

(** [common.transfer.WorkerKey] *)
Record WorkerKey : Type := mkWorkerKey { wk_dp_client_id : Z; pp_rank : Z }.
#[export] Instance WorkerKey_eq_dec : EqDecision WorkerKey.
Proof. solve_decision. Defined.

(** A value of [_worker_map]: one worker, or one per (dp, pp) slice. *)
Inductive WorkerEntry : Type :=
  | Single (worker : Z)
  | PerKey (workers : list (WorkerKey * Z)).

(** What [__init__] and [_init_workers] fix: [_swa_worker_map] only exists with SWA. *)
Record EngineConfig : Type := mkEngineConfig {
  _worker_map : list (TransferType * WorkerEntry);
  _swa_worker_map : option (list (TransferType * WorkerEntry));
  tokens_per_block : Z;
  token_size_in_bytes : Z;
  num_layers : Z;
  _num_layers_for_local_pp_stage : Z;
  enable_layerwise_transfer : bool;
  has_layer_groups : bool;
  h2d_workers : list (WorkerKey * Z);
  d2h_workers : list (WorkerKey * Z);
}.

Record TransferEngine : Type := mkTransferEngine {
  scheduler : TransferScheduler;
  task_queue : list (list TransferOpGraph);
  finished_ops_queue : list Payload;
  completed_queue : list CompletedOp;
  op_id_to_op : list (Z * TransferOp);
  pin_buffer : SharedOpPool;
  _child_id_to_child : list (Z * TransferOp);
  _child_to_parent_op_id : list (Z * Z);
  _failed_graph_ids : gset Z;
  _failed_parent_op_ids : gset Z;
  _gpu_mappings_suspended : bool;
  gpu_handle_groups : list WorkerKey;
  op_ids : Ids;
  sent : list (Z * WorkerMessage);
}.

Abbreviation Eng := (M TransferEngine).

Definition with_scheduler x e := mkTransferEngine x (task_queue e) (finished_ops_queue e) (completed_queue e)
  (op_id_to_op e) (pin_buffer e) (_child_id_to_child e) (_child_to_parent_op_id e) (_failed_graph_ids e)
  (_failed_parent_op_ids e) (_gpu_mappings_suspended e) (gpu_handle_groups e) (op_ids e) (sent e).
Definition with_task_queue f e := mkTransferEngine (scheduler e) (f (task_queue e)) (finished_ops_queue e) (completed_queue e)
  (op_id_to_op e) (pin_buffer e) (_child_id_to_child e) (_child_to_parent_op_id e) (_failed_graph_ids e)
  (_failed_parent_op_ids e) (_gpu_mappings_suspended e) (gpu_handle_groups e) (op_ids e) (sent e).
Definition with_finished f e := mkTransferEngine (scheduler e) (task_queue e) (f (finished_ops_queue e)) (completed_queue e)
  (op_id_to_op e) (pin_buffer e) (_child_id_to_child e) (_child_to_parent_op_id e) (_failed_graph_ids e)
  (_failed_parent_op_ids e) (_gpu_mappings_suspended e) (gpu_handle_groups e) (op_ids e) (sent e).
Definition with_completed f e := mkTransferEngine (scheduler e) (task_queue e) (finished_ops_queue e) (f (completed_queue e))
  (op_id_to_op e) (pin_buffer e) (_child_id_to_child e) (_child_to_parent_op_id e) (_failed_graph_ids e)
  (_failed_parent_op_ids e) (_gpu_mappings_suspended e) (gpu_handle_groups e) (op_ids e) (sent e).
Definition with_ops f e := mkTransferEngine (scheduler e) (task_queue e) (finished_ops_queue e) (completed_queue e)
  (f (op_id_to_op e)) (pin_buffer e) (_child_id_to_child e) (_child_to_parent_op_id e) (_failed_graph_ids e)
  (_failed_parent_op_ids e) (_gpu_mappings_suspended e) (gpu_handle_groups e) (op_ids e) (sent e).
Definition with_pool x e := mkTransferEngine (scheduler e) (task_queue e) (finished_ops_queue e) (completed_queue e)
  (op_id_to_op e) x (_child_id_to_child e) (_child_to_parent_op_id e) (_failed_graph_ids e)
  (_failed_parent_op_ids e) (_gpu_mappings_suspended e) (gpu_handle_groups e) (op_ids e) (sent e).
Definition with_children f h e := mkTransferEngine (scheduler e) (task_queue e) (finished_ops_queue e) (completed_queue e)
  (op_id_to_op e) (pin_buffer e) (f (_child_id_to_child e)) (h (_child_to_parent_op_id e)) (_failed_graph_ids e)
  (_failed_parent_op_ids e) (_gpu_mappings_suspended e) (gpu_handle_groups e) (op_ids e) (sent e).
Definition with_failed_graphs f e := mkTransferEngine (scheduler e) (task_queue e) (finished_ops_queue e) (completed_queue e)
  (op_id_to_op e) (pin_buffer e) (_child_id_to_child e) (_child_to_parent_op_id e) (f (_failed_graph_ids e))
  (_failed_parent_op_ids e) (_gpu_mappings_suspended e) (gpu_handle_groups e) (op_ids e) (sent e).
Definition with_failed_parents f e := mkTransferEngine (scheduler e) (task_queue e) (finished_ops_queue e) (completed_queue e)
  (op_id_to_op e) (pin_buffer e) (_child_id_to_child e) (_child_to_parent_op_id e) (_failed_graph_ids e)
  (f (_failed_parent_op_ids e)) (_gpu_mappings_suspended e) (gpu_handle_groups e) (op_ids e) (sent e).
Definition with_gpu suspended groups e := mkTransferEngine (scheduler e) (task_queue e) (finished_ops_queue e) (completed_queue e)
  (op_id_to_op e) (pin_buffer e) (_child_id_to_child e) (_child_to_parent_op_id e) (_failed_graph_ids e)
  (_failed_parent_op_ids e) suspended groups (op_ids e) (sent e).
Definition with_op_ids x e := mkTransferEngine (scheduler e) (task_queue e) (finished_ops_queue e) (completed_queue e)
  (op_id_to_op e) (pin_buffer e) (_child_id_to_child e) (_child_to_parent_op_id e) (_failed_graph_ids e)
  (_failed_parent_op_ids e) (_gpu_mappings_suspended e) (gpu_handle_groups e) x (sent e).
Definition with_sent f e := mkTransferEngine (scheduler e) (task_queue e) (finished_ops_queue e) (completed_queue e)
  (op_id_to_op e) (pin_buffer e) (_child_id_to_child e) (_child_to_parent_op_id e) (_failed_graph_ids e)
  (_failed_parent_op_ids e) (_gpu_mappings_suspended e) (gpu_handle_groups e) (op_ids e) (f (sent e)).

Definition on_scheduler {A} (m : M TransferScheduler A) : Eng A := λ e,
  let '(r, s) := m (scheduler e) in (r, with_scheduler s e).
Definition on_pool {A} (m : M SharedOpPool A) : Eng A := λ e,
  let '(r, p) := m (pin_buffer e) in (r, with_pool p e).
Definition on_op_ids {A} (m : M Ids A) : Eng A := λ e,
  let '(r, i) := m (op_ids e) in (r, with_op_ids i e).

(** [self.op_id_to_op[k]], and the in-place update of that object. *)
Definition live_op (k : Z) : Eng TransferOp := λ e,
  match dict_get k (op_id_to_op e) with Some o => (Ok o, e) | None => (Raise KeyError, e) end.
Definition alter_live (f : TransferOp → TransferOp) (k : Z) : Eng unit := modify_state (with_ops (dict_alter f k)).

Definition notify (c : CompletedOp) : Eng unit := modify_state (with_completed (λ l, l ++ [c])).

(** *** Updates of an op by this thread *)
Section op_fields.
Variable o : TransferOp.
Definition op_with_slots s d := mkTransferOp (op_id o) (op_graph_id o) (transfer_type o) (src_block_ids o)
  (dst_block_ids o) (predecessors o) (successors o) (op_status o) (dp_client_id o) s d
  (valid_block_num o) (pending_count o) (is_swa o) (mooncake_store_block_hashes o)
  (mooncake_store_swa_block_hashes o) (block_results o) (layerwise o).
Definition op_with_pending n := mkTransferOp (op_id o) (op_graph_id o) (transfer_type o) (src_block_ids o)
  (dst_block_ids o) (predecessors o) (successors o) (op_status o) (dp_client_id o) (src_slot_id o) (dst_slot_id o)
  (valid_block_num o) n (is_swa o) (mooncake_store_block_hashes o)
  (mooncake_store_swa_block_hashes o) (block_results o) (layerwise o).
Definition op_with_results r := mkTransferOp (op_id o) (op_graph_id o) (transfer_type o) (src_block_ids o)
  (dst_block_ids o) (predecessors o) (successors o) (op_status o) (dp_client_id o) (src_slot_id o) (dst_slot_id o)
  (valid_block_num o) (pending_count o) (is_swa o) (mooncake_store_block_hashes o)
  (mooncake_store_swa_block_hashes o) r (layerwise o).
End op_fields.

(** ** Slots of the shared op buffer *)

(** GPU 1, CPU 2, SSD 3, remote 4, peer CPU 5, peer SSD 6. *)
Definition transfer_type_to_devices (t : TransferType) : Z * Z :=
  match t with
  | D2H => (1, 2) | H2D => (2, 1) | H2DISK => (2, 3) | DISK2H => (3, 2) | DISK2D => (3, 1) | D2DISK => (1, 3)
  | H2REMOTE => (2, 4) | REMOTE2H => (4, 2) | PEERH2H => (5, 2) | H2PEERH => (2, 5)
  | PEERSSD2H => (6, 2) | H2PEERSSD => (2, 6)
  | VIRTUAL | LAYERWISE => (0, 0)
  end.

Definition free_op_from_buffer (o : TransferOp) : M SharedOpPool unit :=
  (if src_slot_id o =? -1 then mret tt else free_slot (src_slot_id o)) ;;
  (if dst_slot_id o =? -1 then mret tt else free_slot (dst_slot_id o)).

(** [_merge_block_results]: a block succeeds when every worker says so. *)
Definition _merge_block_results (o : TransferOp) (results : option (list bool)) : TransferOp :=
  match results with
  | None => o
  | Some rs =>
      let normalized := if zlen rs =? zlen (src_block_ids o) then rs
                        else replicate (length (src_block_ids o)) false in
      op_with_results o (Some match block_results o with
                              | None => normalized
                              | Some old => zip_with andb old normalized
                              end)
  end.

(** [_match_pp_siblings]: the keys of one DP slice. *)
Definition _match_pp_siblings (worker_map : list (WorkerKey * Z)) (dp_client_id : Z) : list WorkerKey :=
  (filter (λ kv : WorkerKey * Z, wk_dp_client_id kv.1 = dp_client_id) worker_map).*1.

(** [WorkerHandle.submit_transfer] of worker [w]. *)
Definition submit_transfer (w : Z) (o : TransferOp) : Eng unit :=
  match layerwise o with
  | Some f =>
      assertM (bool_decide (transfer_type o = LAYERWISE)) ;;
      modify_state (with_sent (λ l, l ++ [(w, LayerwiseMessage (mkWorkerLayerwiseTransferOp (op_id o) (op_graph_id o) f))]))
  | None => modify_state (with_sent (λ l, l ++ [(w, PlainMessage (WorkerTransferOp_init o))]))
  end.

Section engine.
Context `{!SetOrder} (XXH64 : list Z → Z) (cfg : EngineConfig).

Definition register_op_to_buffer (o : TransferOp) : M SharedOpPool TransferOp := λ p,
  if decide (transfer_type o = LAYERWISE) then (Ok o, p)
  else
    let '(src_device, dst_device) := transfer_type_to_devices (transfer_type o) in
    let '(s, p) := allocate_slot XXH64 (src_block_ids o) src_device p in
    let '(d, p) := allocate_slot XXH64 (dst_block_ids o) dst_device p in
    (Ok (op_with_slots o s d), p).

(** ** Routing *)

(** The worker map lookup of an op, [None] when the type has no entry. *)
Definition resolved_worker (o : TransferOp) : result (option WorkerEntry) :=
  if is_swa o then
    match _swa_worker_map cfg with
    | None => Raise AttributeError
    | Some m => Ok (dict_get (transfer_type o) m)
    end
  else Ok (dict_get (transfer_type o) (_worker_map cfg)).

Definition _op_buffer_registered_here (o : TransferOp) : Eng bool :=
  w ← lift_result (resolved_worker o);
  mret match w with Some (Single _) => true | _ => false end.

(** The replica of an op for one PP sibling, in the three places that make one. *)
Definition main_replica (o : TransferOp) : M Ids TransferOp :=
  TransferOp_init (op_graph_id o) (transfer_type o) (src_block_ids o) (dst_block_ids o) (dp_client_id o) false
    (mooncake_store_block_hashes o) None None.
Definition swa_replica (o : TransferOp) : M Ids TransferOp :=
  TransferOp_init (op_graph_id o) (transfer_type o) (src_block_ids o) (dst_block_ids o) (dp_client_id o) true
    None (mooncake_store_swa_block_hashes o) None.
Definition layerwise_replica (o : TransferOp) (f : LayerwiseFields) : M Ids TransferOp :=
  LayerwiseTransferOp_init (op_graph_id o) (dp_client_id o) f.

(** One iteration of the fan-out loop. *)
Definition send_replica (make : M Ids TransferOp) (parent : Z) (workers : list (WorkerKey * Z)) (wk : WorkerKey) : Eng unit :=
  replica ← on_op_ids make;
  replica ← on_pool (register_op_to_buffer replica);
  modify_state (with_children (dict_set (op_id replica) replica) (dict_set (op_id replica) parent)) ;;
  alter_live (λ o, op_with_pending o (pending_count o + 1)) parent ;;
  match dict_get wk workers with
  | Some w => submit_transfer w replica
  | None => raise KeyError
  end.

Definition fan_out (make : M Ids TransferOp) (o : TransferOp) (workers : list (WorkerKey * Z)) (err : string) : Eng unit :=
  match _match_pp_siblings workers (dp_client_id o) with
  | [] => raise (ValueError err)
  | keys => for_each (send_replica make (op_id o) workers) keys
  end.

Definition send_single (o : TransferOp) (w : Z) : Eng unit :=
  alter_live (λ o, op_with_pending o (pending_count o + 1)) (op_id o) ;;
  submit_transfer w o.

Definition _assign_layerwise_op_to_workers (o : TransferOp) : Eng unit :=
  match layerwise o, dict_get LAYERWISE (_worker_map cfg) with
  | None, _ => raise AssertionError
  | Some _, None => raise KeyError
  | Some _, Some (Single _) => raise AssertionError
  | Some f, Some (PerKey ws) => fan_out (layerwise_replica o f) o ws "No LAYERWISE worker found"
  end.

Definition _assign_swa_op_to_worker (o : TransferOp) : Eng unit :=
  match _swa_worker_map cfg with
  | None => raise AttributeError
  | Some m =>
      match dict_get (transfer_type o) m with
      | None => raise (ValueError "Unsupported SWA transfer type")
      | Some (PerKey ws) => fan_out (swa_replica o) o ws "No SWA worker found"
      | Some (Single w) => send_single o w
      end
  end.

Definition _assign_op_to_worker (o : TransferOp) : Eng unit :=
  if decide (transfer_type o = VIRTUAL) then mret tt
  else if is_swa o then _assign_swa_op_to_worker o
  else
    match dict_get (transfer_type o) (_worker_map cfg) with
    | None => raise (ValueError "Unsupported transfer type")
    | Some entry =>
        if decide (transfer_type o = LAYERWISE) then _assign_layerwise_op_to_workers o
        else
          match entry with
          | PerKey ws => fan_out (main_replica o) o ws "No MAIN_KV worker found"
          | Single w => send_single o w
          end
    end.

(** The body of [for op in next_ops]. *)
Definition dispatch (o : TransferOp) : Eng unit :=
  if decide (transfer_type o = VIRTUAL) then notify (completed_op (op_graph_id o) (op_id o))
  else
    modify_state (with_ops (dict_set (op_id o) o)) ;;
    here ← _op_buffer_registered_here o;
    if here : bool then
      o' ← on_pool (register_op_to_buffer o);
      modify_state (with_ops (dict_set (op_id o) o')) ;;
      _assign_op_to_worker o'
    else _assign_op_to_worker o.

(** ** Completion and failure *)

(** The loop's local [finished_ops]: references [(graph id, op id)]. *)
Definition Finished : Type := list (Z * Z).

Definition op_num_bytes (o : TransferOp) : Z :=
  zlen (src_block_ids o) * tokens_per_block cfg *
  (_num_layers_for_local_pp_stage cfg * (token_size_in_bytes cfg `div` Z.max 1 (num_layers cfg))).

(** The completion message of a data op. *)
Definition op_completed (o : TransferOp) : CompletedOp :=
  {| co_graph_id := op_graph_id o; co_op_id := op_id o;
     co_transfer_type := if decide (transfer_type o = VIRTUAL) then None else Some (transfer_type_name (transfer_type o));
     co_num_blocks := zlen (src_block_ids o); co_num_bytes := op_num_bytes o;
     co_block_results := block_results o; co_failed := false |}.

Definition free_if_registered (o : TransferOp) : Eng unit :=
  here ← _op_buffer_registered_here o;
  if here : bool then on_pool (free_op_from_buffer o) else mret tt.

Definition _finalize_op (o : TransferOp) (finished : Finished) : Eng Finished :=
  free_if_registered o ;;
  notify (op_completed o) ;;
  live_op (op_id o) ;;
  modify_state (with_ops (dict_pop (op_id o))) ;;
  mret (finished ++ [(op_graph_id o, op_id o)]).

Definition _discard_failed_op (o : TransferOp) : Eng unit :=
  free_if_registered o ;;
  modify_state (with_ops (dict_pop (op_id o))) ;;
  modify_state (with_failed_parents (λ f, f ∖ {[op_id o]})).

Definition _finalize_or_discard (o : TransferOp) (finished : Finished) : Eng Finished :=
  failed ← gets (λ e, bool_decide (op_id o ∈ _failed_parent_op_ids e));
  if failed : bool then _discard_failed_op o ;; mret finished else _finalize_op o finished.

(** [pending_count -= 1] on a live op, after merging [results] into it; the op it leaves. *)
Definition settle (results : option (list bool)) (k : Z) : Eng TransferOp :=
  live_op k ;;
  alter_live (λ o, let o' := _merge_block_results o results in op_with_pending o' (pending_count o' - 1)) k ;;
  live_op k.

(** [self._child_to_parent_op_id.pop(k)] and [self._child_id_to_child.pop(k)]. *)
Definition pop_child (k : Z) : Eng TransferOp :=
  e ← get_state;
  modify_state (with_children id (dict_pop k)) ;;
  match dict_get k (_child_id_to_child e) with
  | None => raise KeyError
  | Some child => modify_state (with_children (dict_pop k) id) ;; mret child
  end.

Definition _handle_failed_op (k : Z) : Eng unit :=
  e ← get_state;
  graph ← match dict_get k (_child_to_parent_op_id e) with
    | Some parent =>
        child ← pop_child k;
        on_pool (free_op_from_buffer child) ;;
        e ← get_state;
        match dict_get parent (op_id_to_op e) with
        | None => mret None
        | Some _ =>
            o ← settle None parent;
            modify_state (with_failed_parents (λ f, {[parent]} ∪ f)) ;;
            (if pending_count o =? 0 then _discard_failed_op o else mret tt) ;;
            mret (Some (op_graph_id o))
        end
    | None =>
        match dict_get k (op_id_to_op e) with
        | None => mret None
        | Some _ =>
            o ← settle None k;
            modify_state (with_failed_parents (λ f, {[k]} ∪ f)) ;;
            (if pending_count o =? 0 then _discard_failed_op o else mret tt) ;;
            mret (Some (op_graph_id o))
        end
    end;
  match graph with
  | None => mret tt
  | Some gid =>
      modify_state (with_failed_graphs (λ f, {[gid]} ∪ f)) ;;
      on_scheduler (modify_state (fail_graph gid))
  end.

(** The body of the drain loop of [finished_ops_queue]. *)
Definition handle_payload (finished : Finished) (payload : Payload) : Eng Finished :=
  let '(k, op_succeeded, results) := read_payload payload in
  if negb op_succeeded then _handle_failed_op k ;; mret finished
  else
    e ← get_state;
    match dict_get k (_child_to_parent_op_id e) with
    | Some parent =>
        child ← pop_child k;
        let child := _merge_block_results child results in
        on_pool (free_op_from_buffer child) ;;
        o ← settle (block_results child) parent;
        if pending_count o =? 0 then _finalize_or_discard o finished else mret finished
    | None =>
        o ← settle results k;
        if pending_count o =? 0 then _finalize_or_discard o finished else mret finished
    end.

Definition _emit_drained_graph_failures : Eng unit :=
  e ← get_state;
  for_each (λ gid,
    e ← get_state;
    if existsb (λ kv : Z * TransferOp, op_graph_id kv.2 =? gid) (op_id_to_op e) then mret tt
    else notify (failed_graph gid) ;; modify_state (with_failed_graphs (λ f, f ∖ {[gid]})))
    (set_order (_failed_graph_ids e)).

(** ** The loop *)

Inductive Event : Type := EvShutdown | EvNewGraph | EvFinishedOp.

(** [finished_ops_queue.get_nowait()] until it is empty: an exception leaves the rest queued. *)
Definition collect_finished (finished : Finished) : Eng Finished :=
  e ← get_state;
  for_acc (λ finished payload, modify_state (with_finished tail) ;; handle_payload finished payload)
    finished (finished_ops_queue e).

Definition collect_graphs : Eng Z :=
  e ← get_state;
  modify_state (with_task_queue (λ _, [])) ;;
  modify_state (λ e', with_scheduler (foldl (λ s g, add_transfer_graph g s) (scheduler e') (concat (task_queue e))) e') ;;
  mret (zlen (concat (task_queue e))).

(** The loop's locals: [finished_ops], [new_graphs_num], [should_shutdown]. *)
Fixpoint handle_events (acc : Finished * Z) (events : list Event) : Eng (Finished * Z * bool) :=
  match events with
  | [] => mret (acc, false)
  | EvShutdown :: _ => mret (acc, true)
  | EvNewGraph :: events => n ← collect_graphs; handle_events (acc.1, acc.2 + n) events
  | EvFinishedOp :: events => finished ← collect_finished acc.1; handle_events (finished, acc.2) events
  end.

(** The op a reference of [next_ops] stands for: what this thread reads of it does not
    change while the scheduler runs. *)
Definition op_ref (s : TransferScheduler) (ref : Z * Z) : option TransferOp :=
  g ← dict_get ref.1 (_transfer_graphs s); dict_get ref.2 (_op_map g).

Definition schedule_next (finished : Finished) : Eng unit :=
  s ← gets scheduler;
  r ← on_scheduler (schedule finished);
  for_each dispatch (omap (op_ref s) r.2) ;;
  for_each (λ gid, notify (completed_graph gid)) r.1.

(** One iteration: [true] when the loop is to stop. *)
Definition loop_body (events : list Event) : Eng bool :=
  r ← handle_events ([], 0) events;
  let '(finished, new_graphs_num, should_shutdown) := r in
  if should_shutdown : bool then mret true
  else
    (if negb (bool_decide (finished = [])) || (0 <? new_graphs_num) then schedule_next finished else mret tt) ;;
    e ← get_state;
    (if bool_decide (_failed_graph_ids e = ∅) then mret tt else _emit_drained_graph_failures) ;;
    mret false.

(** [_scheduler_loop] on the events of successive [select] calls; an exception is logged
    and the loop goes on. *)
Definition tick (events : list Event) (e : TransferEngine) : bool * TransferEngine :=
  match loop_body events e with (Ok stop, e') => (stop, e') | (Raise _, e') => (false, e') end.

Fixpoint _scheduler_loop (selects : list (list Event)) (e : TransferEngine) : TransferEngine :=
  match selects with
  | [] => e
  | events :: selects => let '(stop, e') := tick events e in if stop : bool then e' else _scheduler_loop selects e'
  end.

(** ** Calls from other threads *)

Definition submit_transfer_graph (transfer_graph : TransferOpGraph + list TransferOpGraph) : Eng unit :=
  modify_state (with_task_queue (λ q, q ++ [match transfer_graph with inl g => [g] | inr gs => gs end])).

(** Everything that is available; the blocking variant only waits before it. *)
Definition get_completed_graphs_and_ops : Eng (list CompletedOp) :=
  e ← get_state; modify_state (with_completed (λ _, [])) ;; mret (completed_queue e).

(** [control] is the reply of a worker to a control command. *)
Definition suspend_gpu_mappings (control : Z → Z) : Eng Z :=
  e ← get_state;
  if _gpu_mappings_suspended e then mret 0
  else if enable_layerwise_transfer cfg || has_layer_groups cfg || bool_decide (is_Some (_swa_worker_map cfg))
  then raise NotImplementedError
  else if negb (bool_decide (op_id_to_op e = [])) || negb (bool_decide (task_queue e = []))
  then raise (RuntimeError "Cannot suspend GPU mappings with transfers in flight")
  else
    modify_state (λ e, with_gpu true (gpu_handle_groups e) e) ;;
    mret (foldl (λ n kv, n + control kv.2) 0 (h2d_workers cfg ++ d2h_workers cfg)).

Definition resume_gpu_mappings (control : Z → Z) (groups : list WorkerKey) : Eng Z :=
  e ← get_state;
  if negb (_gpu_mappings_suspended e) then raise (RuntimeError "GPU mappings are not suspended")
  else if negb (forallb (λ k, bool_decide (k ∈ gpu_handle_groups e)) groups &&
                forallb (λ k, bool_decide (k ∈ groups)) (gpu_handle_groups e))
  then raise (ValueError "GPU worker groups changed across sleep")
  else
    imported ← for_acc (λ n key,
      match dict_get key (h2d_workers cfg), dict_get key (d2h_workers cfg) with
      | Some h, Some d => mret (n + control h + control d)
      | _, _ => raise KeyError
      end) 0 groups;
    modify_state (with_gpu false groups) ;;
    mret imported.
End engine.
End TransferEngine.
