(* ===== verification/EngineTasks.v ===== *)
(** * Tasks in flight of the transfer engine

    A task is what a worker owes a report for: a replica of a fanned-out op, or an
    op sent to a single worker.  [tasks_ok] is the invariant of the tables of
    [TransferEngine] that follow the tasks ([op_id_to_op], the two child tables and
    the shared slots), and the lemmas say how a report and a submission move it. *)

From S2P Require Import Prelude Block RingBuffer Transfer Scheduler TransferEngine.
Local Open Scope Z_scope.

Module EngineTasks.
Import RingBuffer TransferEngine.

(** ** Dictionaries as multisets *)
Section dict_perm.
Context {K V : Type} `{!EqDecision K}.
Implicit Types d : list (K * V).

Lemma dict_get_perm k v d : dict_get k d = Some v → d ≡ₚ (k, v) :: dict_pop k d.
Proof.
  induction d as [|[k' v'] d IH]; simpl; [done|]. case_decide as Hk; subst; [by intros [= ->]|].
  intros Hk'%IH. etrans; [by apply perm_skip, Hk'|]. apply perm_swap.
Qed.

Lemma dict_set_absent k v d : dict_get k d = None → dict_set k v d = d ++ [(k, v)].
Proof. induction d as [|[k' v'] d IH]; simpl; [done|]. case_decide; [done|]. intros Hk. by rewrite IH. Qed.

Lemma dict_set_perm k v w d : dict_get k d = Some w → dict_set k v d ≡ₚ (k, v) :: dict_pop k d.
Proof.
  intros Hk. rewrite <- (dict_pop_set k v) by by rewrite Hk. apply dict_get_perm, dict_get_set_eq.
Qed.

Lemma dict_keys_pop k d x : dict_wf d → x ∈ (dict_pop k d).*1 ↔ x ≠ k ∧ x ∈ d.*1.
Proof.
  intros Hd. split.
  - intros Hx. split; [|by eapply dict_keys_pop_subseteq]. intros ->.
    destruct (dict_key_get _ _ Hx) as [v Hv]. by rewrite dict_get_pop_eq in Hv.
  - intros [Hx (v & Hv)%dict_key_get]. apply (dict_get_Some_key x v). by rewrite dict_get_pop_ne.
Qed.

Lemma dict_keys_pop_eq {W} k d (d' : list (K * W)) : d.*1 = d'.*1 → (dict_pop k d).*1 = (dict_pop k d').*1.
Proof.
  revert d'. induction d as [|[k1 v1] d IH]; intros [|[k2 v2] d']; csimpl; try done.
  intros [= -> Hl]. case_decide; csimpl; [done|]. f_equal. auto.
Qed.

Lemma dict_get_is_Some_key k d : is_Some (dict_get k d) ↔ k ∈ d.*1.
Proof. split; [intros [v Hv]; by eapply dict_get_Some_key|apply dict_key_get]. Qed.
End dict_perm.

(** ** Ops and their slots *)

Section tasks.
Context (XXH64 : list Z → Z) (U : list Z → Prop) (U_inj : ∀ a b, U a → U b → XXH64 a = XXH64 b → a = b).
Context (cfg : EngineConfig).

(** Sent to a single worker. *)
Definition here (o : TransferOp) : bool :=
  match resolved_worker cfg o with Ok (Some (Single _)) => true | _ => false end.

Definition layerwise_sizes (f : LayerwiseFields) : Prop :=
  zlen (src_block_ids_h2d f) = zlen (dst_block_ids_h2d f) ∧
  zlen (src_block_ids_disk2h f) = zlen (dst_block_ids_disk2h f) ∧
  zlen (swa_src_block_ids_h2d f) = zlen (swa_dst_block_ids_h2d f) ∧
  zlen (swa_src_block_ids_disk2h f) = zlen (swa_dst_block_ids_disk2h f).

(** The worker maps serve the op; [U] is where the slot digest has no collision. *)
Record routable (o : TransferOp) : Prop := {
  rt_data : transfer_type o ≠ VIRTUAL;
  rt_sizes : zlen (src_block_ids o) = zlen (dst_block_ids o);
  rt_inputs : transfer_type o ≠ LAYERWISE →
    U ((transfer_type_to_devices (transfer_type o)).1 :: src_block_ids o) ∧
    U ((transfer_type_to_devices (transfer_type o)).2 :: dst_block_ids o);
  rt_entry : match resolved_worker cfg o with
             | Ok (Some (Single _)) => transfer_type o ≠ LAYERWISE
             | Ok (Some (PerKey ws)) => dict_wf ws ∧ _match_pp_siblings ws (dp_client_id o) ≠ []
             | _ => False
             end;
  rt_layerwise : match layerwise o with
                 | Some f => transfer_type o = LAYERWISE ∧ is_swa o = false ∧ layerwise_sizes f
                 | None => transfer_type o ≠ LAYERWISE
                 end;
}.

Definition slot_handle (s device : Z) (ids : list Z) : list Handle :=
  if decide (s = -1) then [] else [(s, (device, ids))].

Definition op_handles (o : TransferOp) : list Handle :=
  slot_handle (src_slot_id o) (transfer_type_to_devices (transfer_type o)).1 (src_block_ids o) ++
  slot_handle (dst_slot_id o) (transfer_type_to_devices (transfer_type o)).2 (dst_block_ids o).

(** The tasks that hold slots: every replica, and every op sent to a single worker. *)
Definition task_ops (ops kids : list (Z * TransferOp)) : list TransferOp :=
  kids.*2 ++ filter (λ o, here o = true) ops.*2.
Definition handles (ops kids : list (Z * TransferOp)) : list Handle := task_ops ops kids ≫= op_handles.

(** Replicas of [k] in flight. *)
Definition replicas (par : list (Z * Z)) (k : Z) : Z := zlen (filter (λ kv : Z * Z, kv.2 = k) par).

(** A replica has no results of its own yet, and moves the blocks of the op. *)
Definition replica_of (o c : TransferOp) : Prop :=
  block_results c = None ∧ (transfer_type o ≠ LAYERWISE → src_block_ids c = src_block_ids o).

(** [out] are the task ids owed a report; [hole] an op whose tasks are being sent. *)
Record tasks_ok (hole : option Z) (out : list Z) (ops kids : list (Z * TransferOp)) (par : list (Z * Z))
    (pool : SharedOpPool) (next : Z) : Prop := {
  tk_ops : dict_wf ops;
  tk_kids : dict_wf kids;
  tk_same : par.*1 = kids.*1;
  tk_parent : ∀ c p, dict_get c par = Some p → ∃ o, dict_get p ops = Some o ∧ here o = false;
  tk_op : ∀ k o, dict_get k ops = Some o → op_id o = k ∧ routable o;
  tk_kid : ∀ c o, dict_get c kids = Some o → op_id o = c;
  tk_count : ∀ k o, dict_get k ops = Some o → pending_count o = replicas par k + (if here o then 1 else 0);
  tk_positive : ∀ k o, dict_get k ops = Some o → hole ≠ Some k → 0 < pending_count o;
  tk_out_nodup : NoDup out;
  tk_out : ∀ t, t ∈ out ↔ t ∈ kids.*1 ∨ ∃ o, dict_get t ops = Some o ∧ here o = true;
  tk_disjoint : ∀ c, c ∈ kids.*1 → dict_get c ops = None;
  tk_pool : owned XXH64 U (handles ops kids) pool;
  tk_next : ∀ k, k ∈ ops.*1 ∨ k ∈ kids.*1 → k < next;
  tk_replica : ∀ c p o co, dict_get c par = Some p → dict_get p ops = Some o → dict_get c kids = Some co → replica_of o co;
}.

(** ** Helper lemmas *)

Lemma replicas_pop par c p k : dict_get c par = Some p →
  replicas (dict_pop c par) k = replicas par k - (if decide (p = k) then 1 else 0).
Proof.
  intros Hc. unfold replicas, zlen. rewrite (dict_get_perm _ _ _ Hc) at 2. rewrite filter_cons. simpl.
  case_decide; simpl; lia.
Qed.

Lemma replicas_set par c p k : dict_get c par = None →
  replicas (dict_set c p par) k = replicas par k + (if decide (p = k) then 1 else 0).
Proof.
  intros Hc. unfold replicas, zlen. rewrite dict_set_absent, filter_app by done. rewrite filter_cons, filter_nil, length_app. simpl.
  case_decide; simpl; lia.
Qed.

Lemma replicas_zero par k : (∀ c, dict_get c par ≠ Some k) → dict_wf par → replicas par k = 0.
Proof.
  intros Hn Hw. unfold replicas, zlen. replace (filter _ par) with (@nil (Z * Z)); [done|]. symmetry.
  destruct (filter _ par) as [|[c p] l] eqn:E; [done|].
  assert ((c, p) ∈ filter (λ kv : Z * Z, kv.2 = k) par) as Hin by (rewrite E; left).
  apply list_elem_of_filter in Hin as [Hp Hin]. simpl in Hp. subst. by destruct (Hn c (dict_elem_get _ _ _ Hw Hin)).
Qed.

Lemma replicas_nonneg par k : 0 <= replicas par k.
Proof. apply zlen_nonneg. Qed.

Lemma replicas_pos par c p : dict_get c par = Some p → 0 < replicas par p.
Proof.
  intros Hc. pose proof (replicas_pop par c p p Hc) as H. rewrite decide_True in H by done.
  pose proof (replicas_nonneg (dict_pop c par) p). lia.
Qed.

(** What the thread changes of an op keeps its routing. *)
Definition settled (results : option (list bool)) (o : TransferOp) : TransferOp :=
  op_with_pending (_merge_block_results o results) (pending_count (_merge_block_results o results) - 1).

Lemma op_results_eta o : op_with_results o (block_results o) = o.
Proof. by destruct o. Qed.

Lemma settled_form results o : ∃ r, settled results o = op_with_pending (op_with_results o r) (pending_count o - 1).
Proof.
  unfold settled, _merge_block_results. destruct results as [rs|]; [by eexists|].
  exists (block_results o). by rewrite op_results_eta.
Qed.

Lemma settled_eta results o :
  settled results o = op_with_pending (op_with_results o (block_results (settled results o))) (pending_count o - 1).
Proof. by destruct (settled_form results o) as [r ->]. Qed.

Lemma here_pending o r n : here (op_with_pending (op_with_results o r) n) = here o.
Proof. reflexivity. Qed.

Lemma routable_fields o r n s d :
  routable o → routable (op_with_slots (op_with_pending (op_with_results o r) n) s d).
Proof. intros []. by split. Qed.

Lemma routable_settled results o : routable o → routable (settled results o).
Proof. destruct (settled_form results o) as [r ->]. intros []. by split. Qed.

Lemma routable_slots o s d : routable o → routable (op_with_slots o s d).
Proof. intros []. by split. Qed.

Lemma routable_pending o n : routable o → routable (op_with_pending o n).
Proof. intros []. by split. Qed.

Lemma settled_facts results o :
  op_id (settled results o) = op_id o ∧ op_graph_id (settled results o) = op_graph_id o ∧
  here (settled results o) = here o ∧ op_handles (settled results o) = op_handles o ∧
  pending_count (settled results o) = pending_count o - 1 ∧
  transfer_type (settled results o) = transfer_type o ∧ src_block_ids (settled results o) = src_block_ids o ∧
  free_op_from_buffer (settled results o) = free_op_from_buffer o.
Proof. destruct (settled_form results o) as [r ->]. done. Qed.

Lemma registered_here_run o e : routable o → _op_buffer_registered_here cfg o e = (Ok (here o), e).
Proof.
  intros [_ _ _ He _]. unfold _op_buffer_registered_here, here. rewrite M_bind_run. unfold lift_result.
  by destruct (resolved_worker cfg o) as [[[]|]|].
Qed.

(** *** Slots *)

Lemma devices_nonzero o : transfer_type o ≠ VIRTUAL → transfer_type o ≠ LAYERWISE →
  (transfer_type_to_devices (transfer_type o)).1 ≠ 0 ∧ (transfer_type_to_devices (transfer_type o)).2 ≠ 0.
Proof. by destruct (transfer_type o). Qed.

Lemma owned_perm held held' p : held ≡ₚ held' → owned XXH64 U held p → owned XXH64 U held' p.
Proof.
  intros Hp [H1 H2 H3 H4]. split; [done|done| |].
  - intros s Hs. rewrite <- (holders_perm _ _ s Hp). auto.
  - intros s pfx ids Hin. apply H4. by rewrite Hp.
Qed.

Lemma allocate_handle held p ids pfx s p' :
  owned XXH64 U held p → pfx ≠ 0 → U (pfx :: ids) → allocate_slot XXH64 ids pfx p = (s, p') →
  owned XXH64 U (slot_handle s pfx ids ++ held) p'.
Proof.
  intros Ho Hpfx HU E. pose proof (owned_allocate XXH64 U U_inj _ _ _ _ _ _ Ho Hpfx HU E) as H.
  unfold slot_handle. by case_decide.
Qed.

(** [register_op_to_buffer] takes one handle per slot it is given. *)
Lemma register_run o held p :
  owned XXH64 U held p → routable o →
  (transfer_type o = LAYERWISE → src_slot_id o = -1 ∧ dst_slot_id o = -1) →
  ∃ s d p', register_op_to_buffer XXH64 o p = (Ok (op_with_slots o s d), p') ∧
    owned XXH64 U (op_handles (op_with_slots o s d) ++ held) p'.
Proof.
  intros Ho Hr Hl. unfold register_op_to_buffer. case_decide as Ht.
  { destruct (Hl Ht) as [Hs Hd]. exists (-1), (-1), p. split; [|done]. f_equal. f_equal.
    destruct o; simpl in *; by subst. }
  destruct (rt_inputs _ Hr Ht) as [HU1 HU2]. destruct (devices_nonzero o) as [N1 N2]; [apply Hr|done|].
  destruct (transfer_type_to_devices (transfer_type o)) as [d1 d2] eqn:Ed. simpl in *.
  destruct (allocate_slot XXH64 (src_block_ids o) d1 p) as [s p1] eqn:E1.
  destruct (allocate_slot XXH64 (dst_block_ids o) d2 p1) as [d p2] eqn:E2.
  exists s, d, p2. split; [done|].
  pose proof (allocate_handle _ _ _ _ _ _ Ho N1 HU1 E1) as Ho1.
  pose proof (allocate_handle _ _ _ _ _ _ Ho1 N2 HU2 E2) as Ho2.
  eapply owned_perm; [|exact Ho2]. unfold op_handles. simpl. rewrite Ed. simpl.
  rewrite app_assoc. apply Permutation_app_tail, Permutation_app_comm.
Qed.

Lemma free_handle s device ids held p :
  owned XXH64 U (slot_handle s device ids ++ held) p →
  ∃ p', (if s =? -1 then mret tt else free_slot s) p = (Ok tt, p') ∧ owned XXH64 U held p'.
Proof.
  unfold slot_handle. destruct (Z.eqb_spec s (-1)) as [->|Hn]; [by exists p|]. rewrite decide_False by done.
  intros Ho. apply (owned_free XXH64 U _ held p (s, (device, ids)) Ho). done.
Qed.

(** [free_op_from_buffer] gives back exactly what was taken. *)
Lemma free_run o held p :
  owned XXH64 U (op_handles o ++ held) p →
  ∃ p', free_op_from_buffer o p = (Ok tt, p') ∧ owned XXH64 U held p'.
Proof.
  unfold op_handles. rewrite <- app_assoc. intros Ho. destruct (free_handle _ _ _ _ _ Ho) as (p1 & E1 & Ho1).
  destruct (free_handle _ _ _ _ _ Ho1) as (p2 & E2 & Ho2). exists p2. split; [|done].
  unfold free_op_from_buffer. by rewrite M_bind_run, E1.
Qed.

Lemma handles_perm ops ops' kids kids' : ops ≡ₚ ops' → kids ≡ₚ kids' → handles ops kids ≡ₚ handles ops' kids'.
Proof.
  intros Ho Hk. unfold handles, task_ops. rewrite !bind_app. apply Permutation_app.
  - by apply bind_Permutation, fmap_Permutation.
  - by apply bind_Permutation, filter_Permutation, fmap_Permutation.
Qed.

Definition own_handles (o : TransferOp) : list Handle := if here o then op_handles o else [].

Lemma handles_cons_op k o ops kids : handles ((k, o) :: ops) kids ≡ₚ own_handles o ++ handles ops kids.
Proof.
  unfold handles, task_ops, own_handles. csimpl. rewrite !bind_app, filter_cons.
  destruct (here o); simpl; [|done]. apply Permutation_app_swap_app.
Qed.

Lemma handles_cons_kid c o ops kids : handles ops ((c, o) :: kids) = op_handles o ++ handles ops kids.
Proof. reflexivity. Qed.

Lemma handles_pop_kid c o ops kids : dict_get c kids = Some o →
  handles ops kids ≡ₚ op_handles o ++ handles ops (dict_pop c kids).
Proof. intros Hc. rewrite <- (handles_cons_kid c). by apply handles_perm, dict_get_perm. Qed.

Lemma handles_pop_op k o ops kids : dict_get k ops = Some o →
  handles ops kids ≡ₚ own_handles o ++ handles (dict_pop k ops) kids.
Proof. intros Hk. rewrite <- (handles_cons_op k). by apply handles_perm; [apply dict_get_perm|]. Qed.

Lemma handles_set_op k o o' ops kids : dict_get k ops = Some o → own_handles o' = own_handles o →
  handles (dict_set k o' ops) kids ≡ₚ handles ops kids.
Proof.
  intros Hk E. rewrite (handles_pop_op k o ops) by done. rewrite <- E, <- (handles_cons_op k).
  apply handles_perm; [by eapply dict_set_perm|done].
Qed.

Lemma handles_add_op k o ops kids : dict_get k ops = None →
  handles (dict_set k o ops) kids ≡ₚ own_handles o ++ handles ops kids.
Proof.
  intros Hk. rewrite <- (handles_cons_op k). apply handles_perm; [|done].
  rewrite dict_set_absent by done. apply Permutation_app_comm.
Qed.

Lemma handles_add_kid c o ops kids : dict_get c kids = None →
  handles ops (dict_set c o kids) ≡ₚ op_handles o ++ handles ops kids.
Proof.
  intros Hc. rewrite <- (handles_cons_kid c). apply handles_perm; [done|].
  rewrite dict_set_absent by done. apply Permutation_app_comm.
Qed.

(** ** A report arrives *)

Section reports.
Variables (out : list Z) (ops kids : list (Z * TransferOp)) (par : list (Z * Z)) (pool : SharedOpPool) (next : Z).

Lemma task_cases hole t :
  tasks_ok hole out ops kids par pool next → t ∈ out →
  (∃ p c o, dict_get t par = Some p ∧ dict_get t kids = Some c ∧ dict_get p ops = Some o ∧ here o = false) ∨
  (dict_get t par = None ∧ ∃ o, dict_get t ops = Some o ∧ here o = true).
Proof.
  intros Ht [Hk|(o & Ho & Hh)]%(tk_out _ _ _ _ _ _ _ Ht).
  - left. destruct (dict_key_get _ _ Hk) as [c Hc]. rewrite <- (tk_same _ _ _ _ _ _ _ Ht) in Hk.
    destruct (dict_key_get _ _ Hk) as [p Hp]. destruct (tk_parent _ _ _ _ _ _ _ Ht _ _ Hp) as (o & Ho & Hh).
    by exists p, c, o.
  - right. split; [|by exists o]. apply dict_get_None. rewrite (tk_same _ _ _ _ _ _ _ Ht). intros Hk.
    by rewrite (tk_disjoint _ _ _ _ _ _ _ Ht _ Hk) in Ho.
Qed.

(** The slots of a reported replica are free again. *)
Lemma free_kid hole t c :
  tasks_ok hole out ops kids par pool next → dict_get t kids = Some c →
  ∃ pool', free_op_from_buffer c pool = (Ok tt, pool') ∧ owned XXH64 U (handles ops (dict_pop t kids)) pool'.
Proof.
  intros Ht Hc. apply free_run. eapply owned_perm; [|apply Ht]. by apply handles_pop_kid.
Qed.

Lemma free_single hole t o :
  tasks_ok hole out ops kids par pool next → dict_get t ops = Some o → here o = true →
  ∃ pool', free_op_from_buffer o pool = (Ok tt, pool') ∧ owned XXH64 U (handles (dict_pop t ops) kids) pool'.
Proof.
  intros Ht Ho Hh. apply free_run. eapply owned_perm; [|apply Ht]. rewrite (handles_pop_op t o) by done.
  unfold own_handles. by rewrite Hh.
Qed.

(** A replica reported and its op still has others in flight. *)
Lemma kid_reported_more t p c o results out' pool' :
  tasks_ok None out ops kids par pool next → out ≡ₚ t :: out' →
  dict_get t par = Some p → dict_get t kids = Some c → dict_get p ops = Some o → here o = false →
  owned XXH64 U (handles ops (dict_pop t kids)) pool' → pending_count o ≠ 1 →
  tasks_ok None out' (dict_set p (settled results o) ops) (dict_pop t kids) (dict_pop t par) pool' next.
Proof.
  intros Ht Hp Hpar Hc Ho Hh Hpool Hn. destruct (settled_facts results o) as (E1 & E2 & E3 & E4 & E5 & _).
  pose proof (tk_count _ _ _ _ _ _ _ Ht _ _ Ho) as Hcnt. rewrite Hh in Hcnt.
  pose proof (replicas_pos _ _ _ Hpar) as Hpos.
  split.
  - apply dict_wf_set, Ht.
  - apply dict_wf_pop, Ht.
  - apply dict_keys_pop_eq, Ht.
  - intros c' p' Hc'. assert (dict_get c' par = Some p') as Hc2.
    { destruct (decide (t = c')) as [<-|]; [|by rewrite dict_get_pop_ne in Hc' by done].
      rewrite dict_get_pop_eq in Hc'; [done|]. unfold dict_wf. rewrite (tk_same _ _ _ _ _ _ _ Ht). apply Ht. }
    destruct (tk_parent _ _ _ _ _ _ _ Ht _ _ Hc2) as (o' & Ho' & Hh'). rewrite dict_get_set.
    case_decide; [subst; eexists; split; [done|]; by rewrite E3|by exists o'].
  - intros k o'. rewrite dict_get_set. case_decide as Hk; [|apply Ht]. intros [= <-]. subst k. rewrite E1.
    destruct (tk_op _ _ _ _ _ _ _ Ht _ _ Ho). split; [done|by apply routable_settled].
  - intros c' o' Hc'. apply (tk_kid _ _ _ _ _ _ _ Ht). rewrite dict_get_pop in Hc' by apply Ht. by case_decide.
  - intros k o'. rewrite dict_get_set, (replicas_pop _ _ _ _ Hpar). case_decide as Hk.
    + intros [= <-]. subst k. rewrite E5, E3, Hh. lia.
    + intros Ho'. rewrite (tk_count _ _ _ _ _ _ _ Ht _ _ Ho'). lia.
  - intros k o'. rewrite dict_get_set. case_decide as Hk; [|apply Ht]. intros [= <-] _. subst k. rewrite E5.
    lia.
  - pose proof (tk_out_nodup _ _ _ _ _ _ _ Ht) as Hnd. rewrite Hp in Hnd. by apply NoDup_cons in Hnd as [_ ?].
  - intros t'. pose proof (tk_out_nodup _ _ _ _ _ _ _ Ht) as Hnd. rewrite Hp in Hnd. apply NoDup_cons in Hnd as [Hnt _].
    pose proof (tk_out _ _ _ _ _ _ _ Ht t') as Hout. rewrite Hp, elem_of_cons in Hout.
    rewrite dict_keys_pop by apply Ht.
    assert ((∃ o', dict_get t' (dict_set p (settled results o) ops) = Some o' ∧ here o' = true) ↔
            ∃ o', dict_get t' ops = Some o' ∧ here o' = true) as Hs.
    { rewrite dict_get_set. case_decide as Hk; [subst t'|done]. split; intros (o' & Ho' & Hh'); simplify_eq; congruence. }
    rewrite Hs. destruct (decide (t' = t)) as [->|Hne]; [|naive_solver].
    split; [done|]. intros [[? _]|(o' & Ho' & _)]; [done|].
    rewrite (tk_disjoint _ _ _ _ _ _ _ Ht t) in Ho'; [done|by eapply dict_get_Some_key].
  - intros c' Hc'%dict_keys_pop_subseteq. pose proof (tk_disjoint _ _ _ _ _ _ _ Ht _ Hc') as Hd.
    rewrite dict_get_set. case_decide; [subst; congruence|done].
  - eapply owned_perm; [|exact Hpool]. symmetry. eapply handles_set_op; [done|]. unfold own_handles. by rewrite E3, E4.
  - intros k [Hk|Hk%dict_keys_pop_subseteq].
    + rewrite dict_keys_set, decide_True in Hk by by eapply dict_get_Some_key. apply (tk_next _ _ _ _ _ _ _ Ht). by left.
    + apply (tk_next _ _ _ _ _ _ _ Ht). by right.
  - intros c' p' o' co Hp' Ho' Hc'. rewrite dict_get_pop in Hc' by apply Ht. case_decide as Hne; [done|]. rewrite dict_get_pop_ne in Hp' by done.
    rewrite dict_get_set in Ho'. case_decide; [|by eapply (tk_replica _ _ _ _ _ _ _ Ht)]. injection Ho' as <-. subst p'.
    destruct (settled_facts results o) as (_ & _ & _ & _ & _ & E6 & E7 & _). unfold replica_of. rewrite E6, E7.
    by eapply (tk_replica _ _ _ _ _ _ _ Ht).
Qed.

(** The op leaves the table when its last task has reported. *)
Lemma op_removed t p par' kids' o out' pool' :
  tasks_ok None out ops kids par pool next → out ≡ₚ t :: out' →
  dict_get p ops = Some o →
  (par', kids') = (dict_pop t par, dict_pop t kids) ∧ dict_get t par = Some p ∧ here o = false ∨
  (par', kids', p) = (par, kids, t) ∧ here o = true →
  pending_count o = 1 →
  owned XXH64 U (handles (dict_pop p ops) kids') pool' →
  tasks_ok None out' (dict_pop p ops) kids' par' pool' next.
Proof.
  intros Ht Hp Ho Hcase Hn Hpool. pose proof (tk_count _ _ _ _ _ _ _ Ht _ _ Ho) as Hcnt.
  assert (dict_wf par) as Hwp by (unfold dict_wf; rewrite (tk_same _ _ _ _ _ _ _ Ht); apply Ht).
  assert (dict_wf kids' ∧ par'.*1 = kids'.*1 ∧ (∀ c q, dict_get c par' = Some q → dict_get c par = Some q ∧ q ≠ p) ∧
    (∀ c q, dict_get c kids' = Some q → dict_get c kids = Some q) ∧ (∀ k, k ≠ p → replicas par' k = replicas par k) ∧
    (∀ c, c ∈ kids'.*1 ↔ c ≠ t ∧ c ∈ kids.*1)) as (Hwk & Hsame & Hpar & Hkid & Hrep & Hkeys).
  { destruct Hcase as [([= -> ->] & Htp & Hh)|([= -> -> ->] & Hh)].
    - rewrite Hh in Hcnt. split_and!.
      + apply dict_wf_pop, Ht.
      + apply dict_keys_pop_eq, Ht.
      + intros c q. rewrite dict_get_pop by done. case_decide as Hct; [done|]. intros Hc. split; [done|]. intros ->.
        pose proof (replicas_pop par t p p Htp) as E1. rewrite decide_True in E1 by done.
        assert (dict_get c (dict_pop t par) = Some p) as Hc' by by rewrite dict_get_pop_ne.
        pose proof (replicas_pos _ _ _ Hc'). lia.
      + intros c q. rewrite dict_get_pop by apply Ht. by case_decide.
      + intros k Hk. rewrite (replicas_pop _ _ _ _ Htp), decide_False by done. lia.
      + intros c. apply dict_keys_pop, Ht.
    - split_and!; try apply Ht; try done.
      + intros c q Hc. split; [done|]. intros ->. destruct (tk_parent _ _ _ _ _ _ _ Ht _ _ Hc) as (o' & Ho' & ?). congruence.
      + intros c. split; [|naive_solver]. intros Hc. split; [|done]. intros ->.
        by rewrite (tk_disjoint _ _ _ _ _ _ _ Ht _ Hc) in Ho. }
  assert (∀ k o', dict_get k (dict_pop p ops) = Some o' ↔ k ≠ p ∧ dict_get k ops = Some o') as Hget.
  { intros k o'. rewrite dict_get_pop by apply Ht. case_decide; naive_solver. }
  pose proof (tk_out_nodup _ _ _ _ _ _ _ Ht) as Hnd. rewrite Hp in Hnd. apply NoDup_cons in Hnd as [Hnt Hnd].
  split.
  - apply dict_wf_pop, Ht.
  - done.
  - done.
  - intros c q [Hc Hq]%Hpar. destruct (tk_parent _ _ _ _ _ _ _ Ht _ _ Hc) as (o' & Ho' & Hh'). exists o'. by rewrite Hget.
  - intros k o' [_ Ho']%Hget. exact (tk_op _ _ _ _ _ _ _ Ht _ _ Ho').
  - intros c o' Hc%Hkid. exact (tk_kid _ _ _ _ _ _ _ Ht _ _ Hc).
  - intros k o' [Hk Ho']%Hget. rewrite Hrep by done. exact (tk_count _ _ _ _ _ _ _ Ht _ _ Ho').
  - intros k o' [Hk Ho']%Hget _. by apply (tk_positive _ _ _ _ _ _ _ Ht k).
  - done.
  - intros t'. pose proof (tk_out _ _ _ _ _ _ _ Ht t') as Hout. rewrite Hp, elem_of_cons in Hout. rewrite Hkeys.
    setoid_rewrite Hget. destruct (decide (t' = t)) as [->|Hne].
    + split; [done|]. intros [[? _]|(o' & [Hne Ho'] & Hh')]; [done|].
      destruct Hcase as [(_ & Htp & Hh)|([= _ _ ->] & _)]; [|done].
      rewrite (tk_disjoint _ _ _ _ _ _ _ Ht t) in Ho'; [done|].
      rewrite <- (tk_same _ _ _ _ _ _ _ Ht). by eapply dict_get_Some_key.
    + assert (t' = p → here o = false) as Hpf by (intros ->; destruct Hcase as [(_ & _ & ?)|([= _ _ ->] & _)]; done).
      split; [|naive_solver]. intros Hin. destruct (proj1 Hout (or_intror Hin)) as [?|(o' & Ho' & Hh')]; [by left|].
      right. exists o'. split; [|done]. split; [|done]. intros ->. rewrite Ho in Ho'. injection Ho' as <-.
      rewrite Hpf in Hh'; done.
  - intros c [_ Hc]%Hkeys. apply dict_get_None. intros Hin%dict_keys_pop_subseteq%dict_key_get.
    rewrite (tk_disjoint _ _ _ _ _ _ _ Ht _ Hc) in Hin. by destruct Hin.
  - done.
  - intros k [Hk%dict_keys_pop_subseteq|Hk%Hkeys]; apply (tk_next _ _ _ _ _ _ _ Ht); naive_solver.
  - intros c q o' co [Hc _]%Hpar [_ Ho']%Hget Hk%Hkid. by eapply (tk_replica _ _ _ _ _ _ _ Ht).
Qed.
End reports.

(** ** An op is sent *)

Section submissions.
Variables (out : list Z) (ops kids : list (Z * TransferOp)) (par : list (Z * Z)) (pool : SharedOpPool) (next : Z).

(** An op enters the table: complete when it goes to a single worker, otherwise with
    its replicas still to be made. *)
Lemma op_added k o pool' :
  tasks_ok None out ops kids par pool next → dict_get k ops = None → (k ∉ kids.*1) → k < next →
  op_id o = k → routable o → pending_count o = (if here o then 1 else 0) →
  owned XXH64 U (own_handles o ++ handles ops kids) pool' →
  tasks_ok (if here o then None else Some k) (out ++ if here o then [k] else []) (dict_set k o ops) kids par pool' next.
Proof.
  intros Ht Hk Hkk Hlt Hid Hr Hcnt Hpool.
  assert (∀ c p, dict_get c par = Some p → p ≠ k) as Hpar.
  { intros c p Hc ->. destruct (tk_parent _ _ _ _ _ _ _ Ht _ _ Hc) as (o' & Ho' & _). congruence. }
  assert (replicas par k = 0) as Hr0.
  { apply replicas_zero; [intros c Hc; by destruct (Hpar c k Hc)|].
    unfold dict_wf. rewrite (tk_same _ _ _ _ _ _ _ Ht). apply Ht. }
  assert (k ∉ out) as Hko.
  { intros [?|(o' & Ho' & _)]%(tk_out _ _ _ _ _ _ _ Ht); [done|congruence]. }
  split.
  - apply dict_wf_set, Ht.
  - apply Ht.
  - apply Ht.
  - intros c p Hc. destruct (tk_parent _ _ _ _ _ _ _ Ht _ _ Hc) as (o' & Ho' & Hh'). exists o'.
    rewrite dict_get_set_ne; [done|]. intros <-. congruence.
  - intros j o'. rewrite dict_get_set. case_decide as Hj; [|apply Ht]. intros [= <-]. by subst.
  - apply Ht.
  - intros j o'. rewrite dict_get_set. case_decide as Hj; [|apply Ht]. intros [= <-]. subst j. rewrite Hr0. lia.
  - intros j o'. rewrite dict_get_set. case_decide as Hj.
    + intros [= <-] Hhole. subst j. destruct (here o); [lia|done].
    + intros Ho' _. by apply (tk_positive _ _ _ _ _ _ _ Ht j).
  - apply NoDup_app. split_and!; [apply Ht| |destruct (here o); [apply NoDup_singleton|apply NoDup_nil_2]].
    intros x Hx Hin. destruct (here o); [|by apply not_elem_of_nil in Hin]. apply list_elem_of_singleton in Hin. by subst.
  - intros t. rewrite elem_of_app, (tk_out _ _ _ _ _ _ _ Ht t), dict_get_set. case_decide as Hj.
    + subst t. split.
      * intros [[?|(o' & Ho' & _)]|Hin]; [done|congruence|]. right. exists o. split; [done|].
        destruct (here o); [done|by apply not_elem_of_nil in Hin].
      * intros [?|(o' & [= <-] & Hh)]; [done|]. right. rewrite Hh. left.
    + assert (t ∉ (if here o then [k] else [])); [|naive_solver].
      destruct (here o); [rewrite list_elem_of_singleton; naive_solver|apply not_elem_of_nil].
  - intros c Hc. rewrite dict_get_set_ne by (intros ->; done). by apply Ht.
  - eapply owned_perm; [|exact Hpool]. symmetry. by apply handles_add_op.
  - intros j [Hj|Hj]; [|apply (tk_next _ _ _ _ _ _ _ Ht); by right].
    rewrite dict_keys_set in Hj. case_decide; [apply (tk_next _ _ _ _ _ _ _ Ht); by left|].
    apply elem_of_app in Hj as [Hj| ->%list_elem_of_singleton]; [apply (tk_next _ _ _ _ _ _ _ Ht); by left|done].
  - intros c q o' co Hc Ho' Hkc. rewrite dict_get_set_ne in Ho' by (intros <-; by apply (Hpar c k)). by eapply (tk_replica _ _ _ _ _ _ _ Ht).
Qed.

(** A replica of the op [p] is sent; its id is the next of the counter. *)
Lemma replica_added p o c pool' :
  tasks_ok (Some p) out ops kids par pool next → dict_get p ops = Some o → here o = false → op_id c = next → replica_of o c →
  owned XXH64 U (op_handles c ++ handles ops kids) pool' →
  tasks_ok (Some p) (out ++ [next]) (dict_set p (op_with_pending o (pending_count o + 1)) ops)
    (dict_set next c kids) (dict_set next p par) pool' (next + 1).
Proof.
  intros Ht Ho Hh Hid Hrep Hpool.
  assert ((next ∉ ops.*1) ∧ (next ∉ kids.*1)) as [Hno Hnk].
  { split; intros Hin; pose proof (tk_next _ _ _ _ _ _ _ Ht next) as Hlt; specialize (Hlt ltac:(auto)); lia. }
  assert (dict_get next ops = None) as Hno' by by apply dict_get_None.
  assert (dict_get next kids = None) as Hnk' by by apply dict_get_None.
  assert (dict_get next par = None) as Hnp by (apply dict_get_None; by rewrite (tk_same _ _ _ _ _ _ _ Ht)).
  assert (next ∉ out) as Hout.
  { intros [?|(o' & Ho' & _)]%(tk_out _ _ _ _ _ _ _ Ht); [done|congruence]. }
  set (o1 := op_with_pending o (pending_count o + 1)).
  destruct (tk_op _ _ _ _ _ _ _ Ht _ _ Ho) as [Hop Hr].
  split.
  - apply dict_wf_set, Ht.
  - apply dict_wf_set, Ht.
  - rewrite !dict_keys_set, (tk_same _ _ _ _ _ _ _ Ht). by rewrite decide_False.
  - intros c' p'. rewrite dict_get_set. case_decide as Hc.
    + intros [= <-]. exists o1. by rewrite dict_get_set_eq.
    + intros Hc'. destruct (tk_parent _ _ _ _ _ _ _ Ht _ _ Hc') as (o' & Ho' & Hh'). rewrite dict_get_set.
      case_decide; [subst; by exists o1|by exists o'].
  - intros k o'. rewrite dict_get_set. case_decide as Hk; [|apply Ht]. intros [= <-]. subst k.
    split; [done|by apply routable_pending].
  - intros c' o'. rewrite dict_get_set. case_decide; [intros [= <-]; by subst|apply Ht].
  - intros k o'. rewrite dict_get_set, (replicas_set _ _ _ _ Hnp). case_decide as Hk.
    + intros [= <-]. subst k. pose proof (tk_count _ _ _ _ _ _ _ Ht _ _ Ho) as Hcnt. rewrite Hh in Hcnt.
      change (here o1) with (here o). rewrite Hh. simpl. lia.
    + intros Ho'. rewrite (tk_count _ _ _ _ _ _ _ Ht _ _ Ho'). lia.
  - intros k o'. rewrite dict_get_set. case_decide as Hk; [intros _ Hn; by subst|]. intros Ho' _.
    apply (tk_positive _ _ _ _ _ _ _ Ht k); [done|]. by intros [= ->].
  - apply NoDup_app. split_and!; [apply Ht| |apply NoDup_singleton]. by intros x Hx ->%list_elem_of_singleton.
  - intros t. rewrite elem_of_app, list_elem_of_singleton, (tk_out _ _ _ _ _ _ _ Ht t), dict_keys_set, decide_False by done.
    rewrite elem_of_app, list_elem_of_singleton, dict_get_set. case_decide as Hj; [|naive_solver].
    subst t. assert (∀ x : TransferOp, Some o1 = Some x ∧ here x = true ↔ False) as E1.
    { intros x. split; [|done]. intros [[= <-] Hx]. by change (here o1) with (here o) in Hx; rewrite Hh in Hx. }
    setoid_rewrite E1. rewrite Ho. split; [|naive_solver].
    intros [[?|(x & [= <-] & Hx)]|?]; [by left; left|congruence|by left; right].
  - intros c' Hc'. rewrite dict_get_set. rewrite dict_keys_set, decide_False in Hc' by done.
    assert (dict_get c' ops = None) as Hc2.
    { apply elem_of_app in Hc' as [Hc'| ->%list_elem_of_singleton]; [by apply Ht|done]. }
    case_decide; [subst; congruence|done].
  - eapply owned_perm; [|exact Hpool].
    rewrite <- (handles_add_kid next) by done. symmetry. by eapply handles_set_op.
  - intros k [Hk|Hk].
    + rewrite dict_keys_set, decide_True in Hk by by eapply dict_get_Some_key.
      pose proof (tk_next _ _ _ _ _ _ _ Ht k (or_introl Hk)). lia.
    + rewrite dict_keys_set, decide_False in Hk by done. apply elem_of_app in Hk as [Hk| ->%list_elem_of_singleton]; [|lia].
      pose proof (tk_next _ _ _ _ _ _ _ Ht k (or_intror Hk)). lia.
  - intros c' p' o' co. rewrite !dict_get_set. case_decide as Hc.
    + intros [= <-]. rewrite decide_True by done. by intros [= <-] [= <-].
    + intros Hp' Ho' Hk. case_decide; [|by eapply (tk_replica _ _ _ _ _ _ _ Ht)]. injection Ho' as <-. subst p'.
      exact (tk_replica _ _ _ _ _ _ _ Ht _ _ _ _ Hp' Ho Hk).
Qed.

(** The fan-out is over. *)
Lemma hole_closed p o :
  tasks_ok (Some p) out ops kids par pool next → dict_get p ops = Some o → 0 < pending_count o →
  tasks_ok None out ops kids par pool next.
Proof.
  intros Ht Ho Hpos. split; try apply Ht. intros k o' Ho' _. destruct (decide (k = p)) as [->|Hk]; [congruence|].
  apply (tk_positive _ _ _ _ _ _ _ Ht k); [done|]. by intros [= ->].
Qed.

Lemma next_weaken hole next' :
  tasks_ok hole out ops kids par pool next → next <= next' → tasks_ok hole out ops kids par pool next'.
Proof. intros Ht Hle. split; try apply Ht. intros k Hk. pose proof (tk_next _ _ _ _ _ _ _ Ht k Hk). lia. Qed.
End submissions.

(** Nothing in flight, nothing held. *)
Lemma tasks_idle ops kids par pool next :
  tasks_ok None [] ops kids par pool next →
  ops = [] ∧ kids = [] ∧ par = [] ∧ ∀ s, 0 <= s < max_op_num pool → s ∈ free_slots pool.
Proof.
  intros Ht. assert (kids = []) as ->.
  { destruct kids as [|[c o] kids]; [done|]. exfalso. apply (not_elem_of_nil c), (tk_out _ _ _ _ _ _ _ Ht). left. left. }
  assert (par = []) as -> by (apply fmap_nil_inv with (f := fst); apply Ht).
  assert (ops = []) as ->.
  { destruct ops as [|[k o] ops]; [done|]. exfalso.
    assert (dict_get k ((k, o) :: ops) = Some o) as Ho by (simpl; by rewrite decide_True).
    pose proof (tk_count _ _ _ _ _ _ _ Ht _ _ Ho) as Hc. pose proof (tk_positive _ _ _ _ _ _ _ Ht _ _ Ho) as Hp.
    destruct (here o) eqn:Hh; [|unfold replicas, zlen in Hc; simpl in Hc; specialize (Hp ltac:(done)); lia].
    apply (not_elem_of_nil k), (tk_out _ _ _ _ _ _ _ Ht). right. by exists o. }
  split_and!; try done. intros s Hs. pose proof (tk_pool _ _ _ _ _ _ _ Ht) as Ho. change (handles [] []) with (@nil Handle) in Ho.
  destruct (wf_cover _ (own_wf _ _ _ _ Ho) _ Hs) as [|[h Hh]]; [done|].
  destruct (wf_used _ (own_wf _ _ _ _ Ho) _ _ Hh) as (_ & _ & Hpos & _).
  rewrite (own_refs _ _ _ _ Ho) in Hpos by done. done.
Qed.
End tasks.
End EngineTasks.
