(* ===== verification/EngineGraphs.v ===== *)
(** * Graphs of the transfer engine

    [graphs_ok] relates the graphs the engine knows (queued, or in the scheduler) to
    the ops in flight: a data op of a known graph is running exactly when it is in
    [op_id_to_op], or listed in [limbo], the references that are on their way between
    the two (finished ops not yet reported, ops handed out not yet dispatched).
    [fails_ok] is the invariant of the failure bookkeeping. *)

From S2P Require Import Prelude Block RingBuffer Transfer Scheduler TransferEngine EngineTasks.
Local Open Scope Z_scope.

Module EngineGraphs.
Import RingBuffer Scheduler TransferEngine EngineTasks.

Section schedule_effect.
Context `{!SetOrder}.

(** [schedule] as the engine sees it. *)
Record scheduled (s : TransferScheduler) (F : list (Z * Z)) (dn : list Z) (N : list (Z * Z)) (s' : TransferScheduler) : Prop := {
  se_wf : sched_wf s';
  se_nodup : NoDup N;
  se_back : ∀ gid g, graph_at s' gid = Some g → (gid ∉ dn) ∧ ∃ g0, graph_at s gid = Some g0 ∧ evolves g0 g;
  se_done : ∀ gid, gid ∈ dn → is_Some (graph_at s gid) ∧ graph_at s' gid = None;
  se_kept : ∀ gid g, graph_at s gid = Some g → gid ∈ dn ∨ is_Some (graph_at s' gid);
  se_new : ∀ gid k, (gid, k) ∈ N → ∃ g0 o, graph_at s gid = Some g0 ∧ op_at g0 k = Some o ∧ op_status o = PENDING ∧
    (transfer_type o ≠ VIRTUAL → is_Some (graph_at s' gid));
  se_status : ∀ gid g g0 k o o0, graph_at s gid = Some g0 → graph_at s' gid = Some g → op_at g0 k = Some o0 →
    op_at g k = Some o → transfer_type o ≠ VIRTUAL →
    op_status o = RUNNING ↔ (gid, k) ∈ N ∨ (op_status o0 = RUNNING ∧ (gid, k) ∉ F);
  se_finished : ∀ gid g0 k o, gid ∈ dn → graph_at s gid = Some g0 → op_at g0 k = Some o →
    transfer_type o ≠ VIRTUAL → op_status o = RUNNING → (gid, k) ∈ F;
}.

Lemma schedule_ok s F :
  sched_wf s → finished_ok s F →
  ∃ dn N s', schedule F s = (Ok (dn, N), s') ∧ scheduled s F dn N s' ∧ _dirty_graph_ids s' = [].
Proof.
  intros Hs HF. destruct (schedule_during s F Hs HF) as (dn & N & s' & E & Hd & Hc).
  exists dn, N, s'. split; [done|]. split; [|done].
  pose proof (schedule_reported s F dn N s' Hs HF E) as Hrep.
  assert (∀ gid g, graph_at s' gid = Some g → (gid ∉ dn) ∧ ∃ g0, graph_at s gid = Some g0 ∧ outcome F N gid g0 g) as Hback.
  { intros gid g Hg. destruct (graph_at s gid) as [g0|] eqn:Hg0; [|by rewrite (proj1 (du_none _ _ _ _ _ Hd _ Hg0)) in Hg].
    destruct (du_graph _ _ _ _ _ Hd _ _ Hg0) as (g2 & Ho & [[Hn Hg2]|(_ & Hg2 & _)]); [|congruence].
    simplify_eq. split; [done|]. by exists g0. }
  (* a data op completed now was completed before or reported *)
  assert (∀ gid g0 g k o0 o, outcome F N gid g0 g → op_at g0 k = Some o0 → op_at g k = Some o → transfer_type o ≠ VIRTUAL →
    op_status o = COMPLETED → op_status o0 = COMPLETED ∨ (gid, k) ∈ F) as Hdone.
  { intros gid g0 g k o0 o Ho Ho0 Hk Hv Hc'.
    destruct (oc_done _ _ _ _ _ Ho _ _ Hk Hc') as [(o2 & ? & ?)|[?|[? ?]]]; [left; by simplify_eq|by right|done]. }
  split.
  - by eapply during_wf.
  - apply Hd.
  - intros gid g Hg. destruct (Hback _ _ Hg) as (? & g0 & Hg0 & Ho). split; [done|]. exists g0. split; [done|apply Ho].
  - intros gid Hin. destruct (graph_at s gid) as [g0|] eqn:Hg0; [|by destruct (du_none _ _ _ _ _ Hd _ Hg0) as (_ & ? & _)].
    destruct (du_graph _ _ _ _ _ Hd _ _ Hg0) as (g2 & Ho & [[Hn Hg2]|(_ & Hg2 & _)]); [done|]. by split.
  - intros gid g0 Hg0. destruct (du_graph _ _ _ _ _ Hd _ _ Hg0) as (g2 & Ho & [[Hn Hg2]|(? & _)]); [right; by rewrite Hg2|by left].
  - intros gid k Hin. destruct (graph_at s gid) as [g0|] eqn:Hg0; [|by destruct (du_none _ _ _ _ _ Hd _ Hg0) as (_ & _ & Hx); destruct (Hx k)].
    destruct (du_graph _ _ _ _ _ Hd _ _ Hg0) as (g & Ho & Hcase).
    pose proof (proj1 (oc_taken _ _ _ _ _ Ho k) Hin) as [(o & Hk & Hp)%is_pending_alt Hn].
    exists g0, o. split_and!; [done|done|done|]. intros Hv. destruct Hcase as [[_ Hg2]|(_ & _ & Hall)]; [by rewrite Hg2|].
    destruct (ev_fwd _ _ (oc_evolves _ _ _ _ _ Ho) _ _ Hk) as (o' & Hk' & Hle).
    assert (op_status o' = COMPLETED) as Hc'.
    { unfold all_transfer_ops_completed in Hall. rewrite forallb_forall in Hall.
      apply dict_get_Some_elem, list_elem_of_In in Hk'. by apply Hall, bool_decide_eq_true in Hk'. }
    rewrite <- (le_type _ _ Hle) in Hv.
    destruct (Hdone _ _ _ _ _ _ Ho Hk Hk' Hv Hc') as [?|Hf]; [congruence|].
    pose proof (proj2 HF gid k g0 o Hf Hg0 Hk). congruence.
  - intros gid g g0 k o o0 Hg0 Hg Hk0 Hk Hv. destruct (Hback _ _ Hg) as (_ & g0' & Hg0' & Ho). simplify_eq.
    destruct (ev_bwd _ _ (oc_evolves _ _ _ _ _ Ho) _ _ Hk) as (o0' & Hk0' & Hle). simplify_eq.
    pose proof (oc_taken _ _ _ _ _ Ho k) as Htk. rewrite !is_pending_alt in Htk.
    pose proof (Hdone _ _ _ _ _ _ Ho Hk0 Hk Hv) as Hd'.
    split.
    + intros Hr. destruct (decide (op_status o0 = PENDING)) as [Hp|Hp].
      { left. apply Htk. split; [by exists o0|]. intros (o2 & ? & ?). simplify_eq. congruence. }
      destruct (decide ((gid, k) ∈ F)) as [Hf|Hf]; [by rewrite (Hrep gid k g o Hf Hg Hk) in Hr|].
      right. split; [|done]. destruct (op_status o0) eqn:E0; [done|done|].
      by rewrite (le_done _ _ Hle E0) in Hr.
    + intros [Hin|[Hr Hf]].
      * apply Htk in Hin as [(o2 & ? & Hp) Hn]. simplify_eq.
        destruct (op_status o) eqn:Es; [by destruct Hn; exists o|done|].
        destruct Hd' as [?|Hf]; [done|congruence|].
        pose proof (proj2 HF gid k g0 _ Hf Hg0 Hk0). congruence.
      * destruct (op_status o) eqn:Es; [|done|by destruct Hd'; [done|congruence|]].
        by destruct (le_started _ _ Hle ltac:(congruence)).
  - intros gid g0 k o Hin Hg0 Hk Hv Hr.
    destruct (du_graph _ _ _ _ _ Hd _ _ Hg0) as (g & Ho & [[Hn _]|(_ & _ & Hall)]); [done|].
    destruct (ev_fwd _ _ (oc_evolves _ _ _ _ _ Ho) _ _ Hk) as (o' & Hk' & Hle).
    assert (op_status o' = COMPLETED) as Hc'.
    { unfold all_transfer_ops_completed in Hall. rewrite forallb_forall in Hall.
      apply dict_get_Some_elem, list_elem_of_In in Hk'. by apply Hall, bool_decide_eq_true in Hk'. }
    rewrite <- (le_type _ _ Hle) in Hv.
    destruct (Hdone _ _ _ _ _ _ Ho Hk Hk' Hv Hc'); [congruence|done].
Qed.
End schedule_effect.

(** ** The invariant *)

Section graphs.
Context `{!SetOrder} (U : list Z → Prop) (cfg : EngineConfig).

Definition known (sched : TransferScheduler) (queue : list (list TransferOpGraph)) (gid : Z) (g : TransferOpGraph) : Prop :=
  graph_at sched gid = Some g ∨ (g ∈ concat queue ∧ graph_id g = gid).

(** An op of a graph before it is dispatched. *)
Definition planned (gid k : Z) (o : TransferOp) : Prop :=
  op_id o = k ∧ op_graph_id o = gid ∧ pending_count o = 0 ∧ (transfer_type o = VIRTUAL ∨ routable U cfg o).

Record graphs_ok (limbo : list (Z * Z)) (ops kids : list (Z * TransferOp)) (sched : TransferScheduler)
    (queue : list (list TransferOpGraph)) (next : Z) : Prop := {
  gr_sched : sched_wf sched;
  gr_queue : NoDup (graph_id <$> concat queue);
  gr_fresh : ∀ g, g ∈ concat queue → graph_at sched (graph_id g) = None;
  gr_unstarted : ∀ g k o, g ∈ concat queue → op_at g k = Some o → op_status o ≠ RUNNING;
  gr_wf : ∀ gid g, known sched queue gid g → graph_wf g ∧ no_virtual_running g;
  gr_op : ∀ gid g k o, known sched queue gid g → op_at g k = Some o → planned gid k o ∧ k < next ∧ k ∉ kids.*1;
  gr_unique : ∀ gid g gid' g' k, known sched queue gid g → known sched queue gid' g' →
    is_Some (op_at g k) → is_Some (op_at g' k) → gid = gid';
  gr_live : ∀ gid g k o op, known sched queue gid g → op_at g k = Some o → dict_get k ops = Some op →
    op_graph_id op = gid ∧ transfer_type o ≠ VIRTUAL;
  gr_home : ∀ k op g, dict_get k ops = Some op → known sched queue (op_graph_id op) g → is_Some (op_at g k);
  gr_status : ∀ gid g k o, known sched queue gid g → op_at g k = Some o → transfer_type o ≠ VIRTUAL →
    op_status o = RUNNING ↔ is_Some (dict_get k ops) ∨ (gid, k) ∈ limbo;
  gr_limbo : NoDup limbo.*2;
  gr_limbo_data : ∀ gid k, (gid, k) ∈ limbo → dict_get k ops = None ∧
    ∀ g o, known sched queue gid g → op_at g k = Some o → transfer_type o ≠ VIRTUAL;
}.

Lemma known_fun limbo ops kids sched queue next gid g g' :
  graphs_ok limbo ops kids sched queue next → known sched queue gid g → known sched queue gid g' → g = g'.
Proof.
  intros Hg [H1|[H1 E1]] [H2|[H2 E2]].
  - congruence.
  - rewrite <- E2 in H1. by rewrite (gr_fresh _ _ _ _ _ _ Hg _ H2) in H1.
  - rewrite <- E1 in H2. by rewrite (gr_fresh _ _ _ _ _ _ Hg _ H1) in H2.
  - pose proof (gr_queue _ _ _ _ _ _ Hg) as Hnd.
    apply list_elem_of_lookup in H1 as [i Hi], H2 as [j Hj].
    assert (i = j) as ->; [|congruence].
    apply (NoDup_lookup _ i j gid Hnd); rewrite list_lookup_fmap; [by rewrite Hi, <- E1|by rewrite Hj, <- E2].
Qed.

(** The references the scheduler is told about are of running ops. *)
Lemma limbo_finished ops kids sched queue next limbo :
  graphs_ok limbo ops kids sched queue next → finished_ok sched limbo.
Proof.
  intros Hg. split; [eapply NoDup_fmap_1, Hg|]. intros gid k g o Hin Hgr Ho.
  assert (known sched queue gid g) as Hk by by left.
  apply (gr_status _ _ _ _ _ _ Hg _ _ _ _ Hk Ho); [|by right].
  by apply (proj2 (gr_limbo_data _ _ _ _ _ _ Hg _ _ Hin) g).
Qed.

(** Knowing fewer graphs. *)
Lemma graphs_fewer limbo ops kids sched queue sched' queue' next :
  graphs_ok limbo ops kids sched queue next → sched_wf sched' → NoDup (graph_id <$> concat queue') →
  (∀ g, g ∈ concat queue' → g ∈ concat queue ∧ graph_at sched' (graph_id g) = None) →
  (∀ gid g, known sched' queue' gid g → known sched queue gid g) →
  graphs_ok limbo ops kids sched' queue' next.
Proof.
  intros Hg Hs Hq Hf Hk. split; try done.
  - intros g [_ ?]%Hf. done.
  - intros g k o [? _]%Hf. by apply (gr_unstarted _ _ _ _ _ _ Hg).
  - intros gid g ?%Hk. by apply (gr_wf _ _ _ _ _ _ Hg gid).
  - intros gid g k o ?%Hk. by apply (gr_op _ _ _ _ _ _ Hg).
  - intros gid g gid' g' k ?%Hk ?%Hk. by apply (gr_unique _ _ _ _ _ _ Hg gid g gid' g').
  - intros gid g k o op ?%Hk. by apply (gr_live _ _ _ _ _ _ Hg).
  - intros k op g Ho ?%Hk. by apply (gr_home _ _ _ _ _ _ Hg k op).
  - intros gid g k o ?%Hk. by apply (gr_status _ _ _ _ _ _ Hg).
  - apply Hg.
  - intros gid k Hin. destruct (gr_limbo_data _ _ _ _ _ _ Hg _ _ Hin) as [? Hd]. split; [done|].
    intros g o ?%Hk. by apply Hd.
Qed.

Lemma fail_graph_ok limbo ops kids sched queue next gid :
  graphs_ok limbo ops kids sched queue next → (∀ g, g ∈ concat queue → graph_id g ≠ gid) →
  graphs_ok limbo ops kids (fail_graph gid sched) queue next ∧
  ∀ gid' g, known (fail_graph gid sched) queue gid' g ↔ gid' ≠ gid ∧ known sched queue gid' g.
Proof.
  intros Hg Hq.
  assert (∀ gid', graph_at (fail_graph gid sched) gid' = if decide (gid = gid') then None else graph_at sched gid') as Hat.
  { intros gid'. apply dict_get_pop. apply (gr_sched _ _ _ _ _ _ Hg). }
  assert (∀ gid' g, known (fail_graph gid sched) queue gid' g ↔ gid' ≠ gid ∧ known sched queue gid' g) as Hk.
  { intros gid' g. unfold known. rewrite Hat. case_decide as Hd; [subst gid'|naive_solver].
    split; [|naive_solver]. intros [?|[Hin He]]; [done|]. by destruct (Hq g Hin). }
  split; [|done]. eapply graphs_fewer; [exact Hg| | | |].
  - apply fail_graph_wf, Hg.
  - apply Hg.
  - intros g Hin. split; [done|]. rewrite Hat. case_decide; [done|]. by apply (gr_fresh _ _ _ _ _ _ Hg).
  - intros gid' g ?%Hk. naive_solver.
Qed.

(** The queue is drained into the scheduler. *)
Lemma collect_ok limbo ops kids sched queue next :
  graphs_ok limbo ops kids sched queue next →
  graphs_ok limbo ops kids (foldl (λ s g, add_transfer_graph g s) sched (concat queue)) [] next ∧
  ∀ gid g, known (foldl (λ s g, add_transfer_graph g s) sched (concat queue)) [] gid g ↔ known sched queue gid g.
Proof.
  intros Hg.
  enough (∀ gs, NoDup (graph_id <$> gs) → (∀ g, g ∈ gs → graph_at sched (graph_id g) = None) →
    (∀ g, g ∈ gs → graph_wf g ∧ no_virtual_running g) →
    sched_wf (foldl (λ s g, add_transfer_graph g s) sched gs) ∧
    ∀ gid g, graph_at (foldl (λ s g, add_transfer_graph g s) sched gs) gid = Some g ↔ known sched [gs] gid g) as Hfold.
  { destruct (Hfold (concat queue)) as [Hs Hk].
    - apply Hg.
    - apply (gr_fresh _ _ _ _ _ _ Hg).
    - intros g Hin. apply (gr_wf _ _ _ _ _ _ Hg (graph_id g)). by right.
    - assert (∀ gid g, known (foldl (λ s g, add_transfer_graph g s) sched (concat queue)) [] gid g ↔ known sched queue gid g) as Hk'.
      { intros gid g. transitivity (known sched [concat queue] gid g).
        - rewrite <- Hk. unfold known. simpl. split; [intros [?|[?%not_elem_of_nil ?]]; done|by left].
        - unfold known. simpl. by rewrite app_nil_r. }
      split; [|done]. eapply graphs_fewer; [exact Hg|done|apply NoDup_nil_2| |by intros; apply Hk'].
      intros g Hin. by apply not_elem_of_nil in Hin. }
  intros gs. assert (sched_wf sched) as Hs0 by apply Hg. clear Hg. revert sched Hs0. induction gs as [|g gs IH]; intros sched Hs Hnd Hfr Hwf; simpl.
  - split; [done|]. intros gid g. unfold known. simpl. split; [by left|intros [?|[?%not_elem_of_nil ?]]; done].
  - apply NoDup_cons in Hnd as [Hn Hnd]. destruct (Hwf g) as [Hw Hv]; [left|].
    destruct (IH (add_transfer_graph g sched)) as [Hs' Hk].
    + by apply add_transfer_graph_wf.
    + done.
    + intros g' Hin. simpl. rewrite dict_get_set. case_decide as Hd; [|apply Hfr; by right].
      destruct Hn. rewrite Hd. by apply list_elem_of_fmap_2.
    + intros g' Hin. apply Hwf. by right.
    + split; [done|]. intros gid g'. rewrite Hk. unfold known. simpl. rewrite !app_nil_r, dict_get_set.
      case_decide as Hd.
      * subst gid. rewrite (Hfr g) by left. split.
        -- intros [[= <-]|[Hin He]]; right; [split; [left|done]|]. split; [by right|done].
        -- intros [?|[[->|Hin]%elem_of_cons He]]; [done|by left|by right].
      * split; [naive_solver set_solver|]. intros [?|[[->|Hin]%elem_of_cons He]]; [by left|done|by right].
Qed.

(** *** Changes of the ops in flight *)

(** An op in flight is updated in place, and a replica is gone. *)
Lemma graphs_update limbo ops kids kids' sched queue next p o o' :
  graphs_ok limbo ops kids sched queue next → dict_get p ops = Some o → op_graph_id o' = op_graph_id o →
  (∀ c, c ∈ kids'.*1 → c ∈ kids.*1) →
  graphs_ok limbo (dict_set p o' ops) kids' sched queue next.
Proof.
  intros Hg Ho E Hkid.
  assert (∀ k, is_Some (dict_get k (dict_set p o' ops)) ↔ is_Some (dict_get k ops)) as Hsome.
  { intros k. rewrite dict_get_set. case_decide; [subst; rewrite Ho; split; by eexists|done]. }
  assert (∀ k op, dict_get k (dict_set p o' ops) = Some op →
    ∃ op', dict_get k ops = Some op' ∧ op_graph_id op = op_graph_id op') as Hget.
  { intros k op. rewrite dict_get_set. case_decide; [intros [= <-]; subst; by exists o|by exists op]. }
  split; try apply Hg.
  - intros gid g k x Hk Hx. destruct (gr_op _ _ _ _ _ _ Hg _ _ _ _ Hk Hx) as (? & ? & Hn). split_and!; [done..|]. by intros ?%Hkid.
  - intros gid g k x op Hk Hx (op' & Hop' & ->)%Hget. by apply (gr_live _ _ _ _ _ _ Hg gid g k x).
  - intros k op g (op' & Hop' & ->)%Hget. by apply (gr_home _ _ _ _ _ _ Hg).
  - intros gid g k x. rewrite Hsome. apply (gr_status _ _ _ _ _ _ Hg).
  - intros gid k Hin. destruct (gr_limbo_data _ _ _ _ _ _ Hg _ _ Hin) as [Hn Hd]. split; [|done].
    destruct (dict_get k (dict_set p o' ops)) eqn:E2; [|done].
    destruct (proj1 (Hsome k)) as [? ?]; [by eexists|congruence].
Qed.

(** An op leaves [op_id_to_op]: reported finished, or of a graph that is no longer known. *)
Lemma graphs_removed limbo ops kids kids' sched queue next p o (fin : bool) :
  graphs_ok limbo ops kids sched queue next → dict_wf ops → dict_get p ops = Some o →
  (∀ c, c ∈ kids'.*1 → c ∈ kids.*1) →
  (if fin then True else ∀ g, ¬ known sched queue (op_graph_id o) g) →
  graphs_ok (limbo ++ if fin then [(op_graph_id o, p)] else []) (dict_pop p ops) kids' sched queue next.
Proof.
  intros Hg Hw Ho Hkid Hfin.
  assert (∀ k op, dict_get k (dict_pop p ops) = Some op ↔ k ≠ p ∧ dict_get k ops = Some op) as Hget.
  { intros k op. rewrite dict_get_pop by done. case_decide; naive_solver. }
  split; try apply Hg.
  - intros gid g k x Hk Hx. destruct (gr_op _ _ _ _ _ _ Hg _ _ _ _ Hk Hx) as (? & ? & Hn). split_and!; [done..|]. by intros ?%Hkid.
  - intros gid g k x op Hk Hx [_ Hop]%Hget. by apply (gr_live _ _ _ _ _ _ Hg gid g k x).
  - intros k op g [_ Hop]%Hget. by apply (gr_home _ _ _ _ _ _ Hg).
  - intros gid g k x Hk Hx Hv. rewrite (gr_status _ _ _ _ _ _ Hg _ _ _ _ Hk Hx Hv), elem_of_app.
    destruct (decide (k = p)) as [->|Hne].
    + destruct (gr_live _ _ _ _ _ _ Hg _ _ _ _ _ Hk Hx Ho) as [<- _]. destruct fin.
      * split; [|left; by rewrite Ho]. intros _. right. right. left.
      * by destruct (Hfin g).
    + rewrite dict_get_pop_ne by done. split; [naive_solver|].
      intros [?|[?|Hin]]; [by left|by right|]. destruct fin; [|by apply not_elem_of_nil in Hin].
      apply list_elem_of_singleton in Hin. congruence.
  - rewrite fmap_app. apply NoDup_app. split_and!; [apply Hg| |destruct fin; [apply NoDup_singleton|apply NoDup_nil_2]].
    intros x ([gid x'] & -> & Hx)%list_elem_of_fmap Hin. destruct fin; [|by apply not_elem_of_nil in Hin].
    apply list_elem_of_singleton in Hin. simpl in Hin. subst. destruct (gr_limbo_data _ _ _ _ _ _ Hg _ _ Hx). congruence.
  - intros gid k [Hin|Hin]%elem_of_app.
    + destruct (gr_limbo_data _ _ _ _ _ _ Hg _ _ Hin) as [Hn Hd]. split; [|done].
      destruct (decide (p = k)) as [<-|]; [by apply dict_get_pop_eq|by rewrite dict_get_pop_ne].
    + destruct fin; [|by apply not_elem_of_nil in Hin]. apply list_elem_of_singleton in Hin as [= -> ->].
      split; [by apply dict_get_pop_eq|]. intros g x Hk Hx. by apply (gr_live _ _ _ _ _ _ Hg _ _ _ _ _ Hk Hx Ho).
Qed.

(** An op handed out enters [op_id_to_op]. *)
Lemma graphs_dispatched limbo ops kids sched queue next gid k o :
  graphs_ok ((gid, k) :: limbo) ops kids sched queue next → op_graph_id o = gid →
  (∃ g, known sched queue gid g ∧ is_Some (op_at g k)) →
  graphs_ok limbo (dict_set k o ops) kids sched queue next.
Proof.
  intros Hg Hgid (g0 & Hk0 & Ho0).
  destruct (gr_limbo_data _ _ _ _ _ _ Hg gid k) as [Hno Hdata]; [left|].
  pose proof (gr_limbo _ _ _ _ _ _ Hg) as Hnd. simpl in Hnd. apply NoDup_cons in Hnd as [Hnl Hnd].
  assert (∀ gid' g, known sched queue gid' g → is_Some (op_at g k) → gid' = gid) as Huniq.
  { intros gid' g Hk Hx. by apply (gr_unique _ _ _ _ _ _ Hg gid' g gid g0 k). }
  split; try apply Hg.
  - intros gid' g j x op Hk Hx. rewrite dict_get_set. case_decide as Hj; [|by apply (gr_live _ _ _ _ _ _ Hg _ g)].
    intros [= <-]. subst j. assert (gid' = gid) as -> by (by eapply Huniq). split; [done|]. by apply (Hdata g).
  - intros j op g. rewrite dict_get_set. case_decide as Hj; [|by apply (gr_home _ _ _ _ _ _ Hg)].
    intros [= <-] Hk. subst j. rewrite Hgid in Hk.
    by rewrite (known_fun _ _ _ _ _ _ _ _ _ Hg Hk Hk0).
  - intros gid' g j x Hk Hx Hv. rewrite (gr_status _ _ _ _ _ _ Hg _ _ _ _ Hk Hx Hv), elem_of_cons, dict_get_set.
    case_decide as Hj; [|naive_solver]. subst j. assert (gid' = gid) as -> by (by eapply Huniq).
    split; [left; by eexists|]. intros _. by right; left.
  - done.
  - intros gid' j Hin. destruct (gr_limbo_data _ _ _ _ _ _ Hg gid' j) as [Hn Hd]; [by right|]. split; [|done].
    rewrite dict_get_set. case_decide as Hj; [|done]. subst j.
    destruct Hnl. by apply (list_elem_of_fmap_2 snd _ (gid', k)).
Qed.

(** A replica is made. *)
Lemma graphs_kid limbo ops kids sched queue next c :
  graphs_ok limbo ops kids sched queue next → graphs_ok limbo ops (dict_set next c kids) sched queue (next + 1).
Proof.
  intros Hg. split; try apply Hg. intros gid g k o Hk Ho.
  destruct (gr_op _ _ _ _ _ _ Hg _ _ _ _ Hk Ho) as (? & ? & Hn). split_and!; [done|lia|].
  rewrite dict_keys_set. case_decide; [done|]. rewrite elem_of_app, list_elem_of_singleton. intros [?|?]; [done|lia].
Qed.

(** *** The scheduler runs *)

(** The data ops among the references handed out. *)
Definition data_refs (s : TransferScheduler) (refs : list (Z * Z)) : list (Z * Z) :=
  filter (λ ref, transfer_type <$> op_ref s ref ≠ Some VIRTUAL) refs.

Lemma op_ref_at s gid k g : graph_at s gid = Some g → op_ref s (gid, k) = op_at g k.
Proof. intros Hg. unfold op_ref. simpl. by rewrite Hg. Qed.

Lemma static_fields o o' : op_le o o' → op_id o' = op_id o ∧ op_graph_id o' = op_graph_id o ∧
  pending_count o' = pending_count o ∧ (routable U cfg o → routable U cfg o').
Proof.
  intros [E _ _]. split_and!; [exact (f_equal op_id E)|exact (f_equal op_graph_id E)|exact (f_equal pending_count E)|].
  intros Hr. assert (routable U cfg (op_static o)) as Hr' by (destruct Hr; by split). rewrite <- E in Hr'.
  destruct Hr'. by split.
Qed.

Lemma planned_le gid k o o' : op_le o o' → planned gid k o → planned gid k o'.
Proof.
  intros Hle (H1 & H2 & H3 & H4). destruct (static_fields _ _ Hle) as (E1 & E2 & E3 & E4).
  split_and!; [congruence..|]. destruct H4; [left; by rewrite (le_type _ _ Hle)|right; by apply E4].
Qed.

Section run.
Variables (F N : list (Z * Z)) (ops kids : list (Z * TransferOp)) (sched sched' : TransferScheduler)
  (queue : list (list TransferOpGraph)) (next : Z) (dn : list Z).
Hypothesis Hg : graphs_ok F ops kids sched queue next.
Hypothesis Hs : scheduled sched F dn N sched'.

Lemma known_back gid g : known sched' queue gid g → ∃ g0, known sched queue gid g0 ∧ evolves g0 g.
Proof.
  intros [H1|H1]; [|exists g; split; [by right|reflexivity]].
  destruct (se_back _ _ _ _ _ Hs _ _ H1) as (_ & g0 & Hg0 & Hev). exists g0. split; [by left|done].
Qed.

(** A graph reported complete has no op in flight. *)
Lemma done_not_live k op : dict_get k ops = Some op → op_graph_id op ∉ dn.
Proof.
  intros Ho Hin. destruct (se_done _ _ _ _ _ Hs _ Hin) as [[g0 Hg0] _].
  assert (known sched queue (op_graph_id op) g0) as Hk by by left.
  destruct (gr_home _ _ _ _ _ _ Hg _ _ _ Ho Hk) as [o Hx].
  destruct (gr_live _ _ _ _ _ _ Hg _ _ _ _ _ Hk Hx Ho) as [_ Hv].
  assert (op_status o = RUNNING) as Hr by (apply (gr_status _ _ _ _ _ _ Hg _ _ _ _ Hk Hx Hv); left; by rewrite Ho).
  pose proof (se_finished _ _ _ _ _ Hs _ _ _ _ Hin Hg0 Hx Hv Hr) as Hf.
  destruct (gr_limbo_data _ _ _ _ _ _ Hg _ _ Hf). congruence.
Qed.

Lemma data_ref_new gid k : (gid, k) ∈ data_refs sched N →
  ∃ g0 o g, graph_at sched gid = Some g0 ∧ op_at g0 k = Some o ∧ op_status o = PENDING ∧ transfer_type o ≠ VIRTUAL ∧
    graph_at sched' gid = Some g ∧ is_Some (op_at g k).
Proof.
  intros [Hv Hin]%list_elem_of_filter. destruct (se_new _ _ _ _ _ Hs _ _ Hin) as (g0 & o & Hg0 & Ho & Hp & Hkept).
  rewrite (op_ref_at _ _ _ _ Hg0), Ho in Hv. simpl in Hv.
  assert (transfer_type o ≠ VIRTUAL) as Hv' by congruence. destruct (Hkept Hv') as [g Hgr].
  exists g0, o, g. split_and!; [done..|].
  destruct (se_back _ _ _ _ _ Hs _ _ Hgr) as (_ & g0' & Hg0' & Hev). simplify_eq.
  destruct (ev_fwd _ _ Hev _ _ Ho) as (o' & -> & _). by eexists.
Qed.

Lemma graphs_scheduled : graphs_ok (data_refs sched N) ops kids sched' queue next.
Proof.
  split.
  - apply Hs.
  - apply Hg.
  - intros g Hin. destruct (graph_at sched' (graph_id g)) as [g1|] eqn:E; [|done].
    destruct (se_back _ _ _ _ _ Hs _ _ E) as (_ & g0 & Hg0 & _). by rewrite (gr_fresh _ _ _ _ _ _ Hg _ Hin) in Hg0.
  - apply (gr_unstarted _ _ _ _ _ _ Hg).
  - intros gid g [H1|H1]; [|by apply (gr_wf _ _ _ _ _ _ Hg gid); right].
    destruct (sw_graph _ (se_wf _ _ _ _ _ Hs) _ _ H1) as (? & _ & ?). done.
  - intros gid g k o (g0 & Hk & Hev)%known_back Ho. destruct (ev_bwd _ _ Hev _ _ Ho) as (o0 & Ho0 & Hle).
    destruct (gr_op _ _ _ _ _ _ Hg _ _ _ _ Hk Ho0) as (? & ? & ?). split_and!; [by eapply planned_le|done|done].
  - intros gid g gid' g' k (g0 & Hk & Hev)%known_back (g0' & Hk' & Hev')%known_back [o Ho] [o' Ho'].
    destruct (ev_bwd _ _ Hev _ _ Ho) as (x & Hx & _). destruct (ev_bwd _ _ Hev' _ _ Ho') as (x' & Hx' & _).
    apply (gr_unique _ _ _ _ _ _ Hg gid g0 gid' g0' k); [done..|by eexists|by eexists].
  - intros gid g k o op (g0 & Hk & Hev)%known_back Ho Hop. destruct (ev_bwd _ _ Hev _ _ Ho) as (o0 & Ho0 & Hle).
    rewrite (le_type _ _ Hle). by apply (gr_live _ _ _ _ _ _ Hg gid g0 k o0).
  - intros k op g Hop (g0 & Hk & Hev)%known_back. destruct (gr_home _ _ _ _ _ _ Hg _ _ _ Hop Hk) as [o Ho].
    destruct (ev_fwd _ _ Hev _ _ Ho) as (o' & -> & _). by eexists.
  - intros gid g k o Hk Ho Hv. destruct Hk as [Hgr|Hq].
    + destruct (se_back _ _ _ _ _ Hs _ _ Hgr) as (_ & g0 & Hg0 & Hev). destruct (ev_bwd _ _ Hev _ _ Ho) as (o0 & Ho0 & Hle).
      pose proof Hv as Hv0. rewrite (le_type _ _ Hle) in Hv0.
      rewrite (se_status _ _ _ _ _ Hs _ _ _ _ _ _ Hg0 Hgr Ho0 Ho Hv).
      assert (known sched queue gid g0) as Hk0 by by left.
      rewrite (gr_status _ _ _ _ _ _ Hg _ _ _ _ Hk0 Ho0 Hv0).
      assert ((gid, k) ∈ data_refs sched N ↔ (gid, k) ∈ N) as ->.
      { unfold data_refs. rewrite list_elem_of_filter, (op_ref_at _ _ _ _ Hg0), Ho0. simpl. naive_solver. }
      split; [naive_solver|]. intros [[op Hop]|?]; [|by left]. right. split; [left; by eexists|].
      intros Hf. destruct (gr_limbo_data _ _ _ _ _ _ Hg _ _ Hf). congruence.
    + assert (known sched queue gid g) as Hk by by right. destruct Hq as [Hq Hid].
      pose proof (gr_unstarted _ _ _ _ _ _ Hg _ _ _ Hq Ho) as Hn.
      pose proof (gr_status _ _ _ _ _ _ Hg _ _ _ _ Hk Ho Hv) as Hst. split; [done|].
      intros [?|(g0 & _ & _ & Hg0 & _)%data_ref_new]; [naive_solver|].
      rewrite <- Hid in Hg0. by rewrite (gr_fresh _ _ _ _ _ _ Hg _ Hq) in Hg0.
  - assert (NoDup (data_refs sched N)) as Hnd by (apply NoDup_filter, Hs).
    apply NoDup_fmap_2_strong; [|done]. intros [gid k] [gid' k'] Hin Hin' E. simpl in E. subst k'.
    destruct (data_ref_new _ _ Hin) as (g0 & o & _ & Hg0 & Ho & _), (data_ref_new _ _ Hin') as (g0' & o' & _ & Hg0' & Ho' & _).
    f_equal. apply (gr_unique _ _ _ _ _ _ Hg gid g0 gid' g0' k); [by left|by left|by eexists|by eexists].
  - intros gid k Hin. destruct (data_ref_new _ _ Hin) as (g0 & o & g & Hg0 & Ho & Hp & Hv & Hgr & _).
    assert (known sched queue gid g0) as Hk0 by by left. split.
    + destruct (dict_get k ops) as [op|] eqn:Hop; [|done].
      assert (op_status o = RUNNING) as Hr; [|congruence].
      apply (gr_status _ _ _ _ _ _ Hg _ _ _ _ Hk0 Ho Hv). left. by eexists.
    + intros g1 o1 (g2 & Hk2 & Hev)%known_back Ho1. destruct (ev_bwd _ _ Hev _ _ Ho1) as (o2 & Ho2 & Hle).
      rewrite (le_type _ _ Hle). rewrite (known_fun _ _ _ _ _ _ _ _ _ Hg Hk2 Hk0) in Ho2. congruence.
Qed.
End run.

(** ** Failures *)

Record fails_ok (ops : list (Z * TransferOp)) (sched : TransferScheduler) (queue : list (list TransferOpGraph))
    (failed fpar : gset Z) : Prop := {
  fl_failed : ∀ gid g, gid ∈ failed → ¬ known sched queue gid g;
  fl_live : ∀ k op, dict_get k ops = Some op →
    (∃ g, graph_at sched (op_graph_id op) = Some g) ∨ op_graph_id op ∈ failed;
  fl_parent : ∀ p, p ∈ fpar → ∃ o, dict_get p ops = Some o ∧ op_graph_id o ∈ failed;
}.

(** The graph of an op in flight is not queued. *)
Lemma live_not_queued limbo ops kids sched queue next k op g :
  graphs_ok limbo ops kids sched queue next → dict_get k ops = Some op → g ∈ concat queue → graph_id g ≠ op_graph_id op.
Proof.
  intros Hg Ho Hin E. assert (known sched queue (op_graph_id op) g) as Hk by by right.
  destruct (gr_home _ _ _ _ _ _ Hg _ _ _ Ho Hk) as [o Hx].
  destruct (gr_live _ _ _ _ _ _ Hg _ _ _ _ _ Hk Hx Ho) as [_ Hv].
  apply (gr_unstarted _ _ _ _ _ _ Hg _ _ _ Hin Hx). apply (gr_status _ _ _ _ _ _ Hg _ _ _ _ Hk Hx Hv). left. by rewrite Ho.
Qed.

Lemma fails_scheduled F N ops kids sched sched' queue next dn failed fpar :
  graphs_ok F ops kids sched queue next → scheduled sched F dn N sched' →
  fails_ok ops sched queue failed fpar → fails_ok ops sched' queue failed fpar.
Proof.
  intros Hg Hs Hf. split; [| |apply Hf].
  - intros gid g Hin (g0 & Hk & _)%(known_back _ _ _ _ _ _ Hs). by apply (fl_failed _ _ _ _ _ Hf gid g0).
  - intros k op Ho. destruct (fl_live _ _ _ _ _ Hf _ _ Ho) as [[g Hgr]|?]; [|by right]. left.
    destruct (se_kept _ _ _ _ _ Hs _ _ Hgr) as [Hin|[g' Hg']]; [|by exists g'].
    by destruct (done_not_live _ _ _ _ _ _ _ _ _ Hg Hs _ _ Ho).
Qed.
End graphs.
End EngineGraphs.
