(* ===== verification/EngineReports.v ===== *)
(** * The transfer engine hears from its workers

    The invariant [inv] of the scheduling thread, and what one worker report does to
    the state: [report_spec]. *)

From S2P Require Import Prelude Block RingBuffer Transfer Scheduler TransferEngine EngineTasks EngineGraphs.
Local Open Scope Z_scope.

Module EngineReports.
Import RingBuffer Scheduler TransferEngine EngineTasks EngineGraphs.

Section reports.
Context `{!SetOrder} (XXH64 : list Z → Z) (U : list Z → Prop).
Context (cfg : EngineConfig).

(** [limbo]: references between the thread's tables and the scheduler; [out]: the tasks
    whose report has not been handled. *)
Record inv (limbo : list (Z * Z)) (out : list Z) (e : TransferEngine) : Prop := {
  iv_tasks : tasks_ok XXH64 U cfg None out (op_id_to_op e) (_child_id_to_child e) (_child_to_parent_op_id e)
               (pin_buffer e) (_next_op_id (op_ids e));
  iv_graphs : graphs_ok U cfg limbo (op_id_to_op e) (_child_id_to_child e) (scheduler e) (task_queue e)
               (_next_op_id (op_ids e));
  iv_fails : fails_ok (op_id_to_op e) (scheduler e) (task_queue e) (_failed_graph_ids e) (_failed_parent_op_ids e);
}.

(** The op a task belongs to. *)
Definition owner (e : TransferEngine) (t : Z) : Z := default t (dict_get t (_child_to_parent_op_id e)).

(** ** Runs of the small steps *)

Lemma pop_child_run t c e : dict_get t (_child_id_to_child e) = Some c →
  pop_child t e = (Ok c, with_children (dict_pop t) (dict_pop t) e).
Proof. intros Hc. unfold pop_child. rewrite M_bind_run. cbn [get_state]. rewrite M_bind_run. cbn [modify_state]. by rewrite Hc. Qed.

Lemma on_pool_run {A} (m : M SharedOpPool A) a p' e : m (pin_buffer e) = (Ok a, p') → on_pool m e = (Ok a, with_pool p' e).
Proof. unfold on_pool. by intros ->. Qed.

Lemma live_op_run k o e : dict_get k (op_id_to_op e) = Some o → live_op k e = (Ok o, e).
Proof. unfold live_op. by intros ->. Qed.

Lemma alter_live_run f k o e : dict_get k (op_id_to_op e) = Some o →
  alter_live f k e = (Ok tt, with_ops (dict_set k (f o)) e).
Proof. intros Ho. unfold alter_live, modify_state, with_ops, dict_alter. by rewrite Ho. Qed.

Lemma settle_run r k o e : dict_get k (op_id_to_op e) = Some o →
  settle r k e = (Ok (settled r o), with_ops (dict_set k (settled r o)) e).
Proof.
  intros Ho. unfold settle. run_step (live_op_run _ _ _ Ho).
  run_step (alter_live_run (λ o, let o' := _merge_block_results o r in op_with_pending o' (pending_count o' - 1)) _ _ _ Ho).
  apply live_op_run. apply dict_get_set_eq.
Qed.

Lemma free_if_registered_run o e pool' :
  routable U cfg o → (if here cfg o then free_op_from_buffer o (pin_buffer e) = (Ok tt, pool') else pool' = pin_buffer e) →
  free_if_registered cfg o e = (Ok tt, with_pool pool' e).
Proof.
  intros Hr Hp. unfold free_if_registered. run_step (registered_here_run U cfg o e Hr).
  destruct (here cfg o); [by apply on_pool_run|]. subst. by destruct e.
Qed.

Lemma finalize_op_run o x fin e pool' :
  routable U cfg o → (if here cfg o then free_op_from_buffer o (pin_buffer e) = (Ok tt, pool') else pool' = pin_buffer e) →
  dict_get (op_id o) (op_id_to_op e) = Some x →
  _finalize_op cfg o fin e = (Ok (fin ++ [(op_graph_id o, op_id o)]),
    with_ops (dict_pop (op_id o)) (with_completed (λ l, l ++ [op_completed cfg o]) (with_pool pool' e))).
Proof.
  intros Hr Hp Hx. unfold _finalize_op. run_step (free_if_registered_run _ _ _ Hr Hp).
  rewrite M_bind_run. cbn [notify modify_state]. by run_step (live_op_run (op_id o) x (with_completed (λ l, l ++ [op_completed cfg o]) (with_pool pool' e)) Hx).
Qed.

Lemma discard_run o e pool' :
  routable U cfg o → (if here cfg o then free_op_from_buffer o (pin_buffer e) = (Ok tt, pool') else pool' = pin_buffer e) →
  _discard_failed_op cfg o e = (Ok tt,
    with_failed_parents (λ f, f ∖ {[op_id o]}) (with_ops (dict_pop (op_id o)) (with_pool pool' e))).
Proof. intros Hr Hp. unfold _discard_failed_op. by run_step (free_if_registered_run _ _ _ Hr Hp). Qed.

(** ** The failure bookkeeping *)

(** The tables after a report of [p]: [last] when none of its tasks is left. *)
Definition ops_after (last : bool) (p : Z) (o' : TransferOp) (ops : list (Z * TransferOp)) : list (Z * TransferOp) :=
  if last then dict_pop p ops else dict_set p o' ops.

Lemma ops_after_get last p o o' ops k x : dict_wf ops → dict_get p ops = Some o → op_graph_id o' = op_graph_id o →
  dict_get k (ops_after last p o' ops) = Some x →
  ∃ y, dict_get k ops = Some y ∧ op_graph_id x = op_graph_id y ∧ (last = true → k ≠ p).
Proof.
  intros Hw Ho E. unfold ops_after. destruct last.
  - rewrite dict_get_pop by done. case_decide; [done|]. intros Hx. by exists x.
  - rewrite dict_get_set. case_decide; [intros [= <-]; subst; by exists o|]. intros Hx. by exists x.
Qed.

Lemma fails_success last p o o' ops sched queue failed fpar :
  fails_ok ops sched queue failed fpar → dict_wf ops → dict_get p ops = Some o → op_graph_id o' = op_graph_id o →
  fails_ok (ops_after last p o' ops) sched queue failed (if last then fpar ∖ {[p]} else fpar).
Proof.
  intros Hf Hw Ho E. split; [apply Hf| |].
  - intros k x (y & Hy & -> & _)%(ops_after_get _ _ o); [|done..]. by apply (fl_live _ _ _ _ _ Hf k).
  - intros q Hq. assert (q ∈ fpar ∧ (last = true → q ≠ p)) as [Hq' Hne] by (destruct last; set_solver).
    destruct (fl_parent _ _ _ _ _ Hf _ Hq') as (x & Hx & Hin). unfold ops_after. destruct last.
    + exists x. rewrite dict_get_pop_ne by (intros ->; by apply Hne). done.
    + rewrite dict_get_set. case_decide; [subst q|by exists x]. exists o'. split; [done|]. congruence.
Qed.

Lemma fails_failure last p o o' ops kids limbo next sched queue failed fpar :
  graphs_ok U cfg limbo ops kids sched queue next →
  fails_ok ops sched queue failed fpar → dict_wf ops → dict_get p ops = Some o → op_graph_id o' = op_graph_id o →
  fails_ok (ops_after last p o' ops) (fail_graph (op_graph_id o) sched) queue ({[op_graph_id o]} ∪ failed)
    (if last then ({[p]} ∪ fpar) ∖ {[p]} else {[p]} ∪ fpar).
Proof.
  intros Hg Hf Hw Ho E.
  destruct (fail_graph_ok _ _ _ _ _ _ _ _ (op_graph_id o) Hg) as [_ Hk].
  { intros g Hin. by apply (live_not_queued _ _ _ _ _ _ _ _ _ _ _ Hg Ho). }
  split.
  - intros gid g [->%elem_of_singleton|Hin]%elem_of_union [Hne Hkn]%Hk; [done|]. by apply (fl_failed _ _ _ _ _ Hf gid g).
  - intros k x (y & Hy & -> & _)%(ops_after_get _ _ o); [|done..].
    destruct (decide (op_graph_id y = op_graph_id o)) as [->|Hne]; [right; set_solver|].
    destruct (fl_live _ _ _ _ _ Hf _ _ Hy) as [[g Hgr]|?]; [left|right; set_solver]. exists g.
    simpl. by rewrite dict_get_pop_ne.
  - intros q Hq. assert ((q = p ∨ q ∈ fpar) ∧ (last = true → q ≠ p)) as [Hq' Hne] by (destruct last; set_solver).
    unfold ops_after. destruct (decide (q = p)) as [->|Hqp].
    + destruct last; [by destruct Hne|]. exists o'. rewrite dict_get_set_eq. split; [done|]. set_solver.
    + destruct Hq' as [?|Hq']; [done|]. destruct (fl_parent _ _ _ _ _ Hf _ Hq') as (x & Hx & Hin). exists x.
      split; [|set_solver]. destruct last; [by rewrite dict_get_pop_ne|by rewrite dict_get_set_ne].
Qed.

(** ** The tail shared by the handlers *)

Lemma free_merged o results : free_op_from_buffer (_merge_block_results o results) = free_op_from_buffer o.
Proof. by destruct results. Qed.

(** The state when the op [p], now [o'], has one task less; [fp] are the ops with a failed task. *)
Definition after (last good : bool) (p : Z) (o' : TransferOp) (fp : gset Z) (pool' : SharedOpPool) (e : TransferEngine) : TransferEngine :=
  mkTransferEngine (scheduler e) (task_queue e) (finished_ops_queue e)
    (completed_queue e ++ if last && good then [op_completed cfg o'] else [])
    (ops_after last p o' (op_id_to_op e)) pool' (_child_id_to_child e) (_child_to_parent_op_id e)
    (_failed_graph_ids e) (if last then fp ∖ {[p]} else fp)
    (_gpu_mappings_suspended e) (gpu_handle_groups e) (op_ids e) (sent e).

(** What is needed to free the op's own slots when its last task is gone. *)
Definition released (o : TransferOp) (pool pool' : SharedOpPool) : Prop :=
  if bool_decide (pending_count o = 1) && here cfg o then free_op_from_buffer o pool = (Ok tt, pool') else pool' = pool.

Lemma pending_zero r o : (pending_count (settled r o) =? 0) = bool_decide (pending_count o = 1).
Proof.
  destruct (settled_facts cfg r o) as (_ & _ & _ & _ & -> & _). case_bool_decide; [by apply Z.eqb_eq; lia|apply Z.eqb_neq; lia].
Qed.

Lemma released_settled r o pool pool' :
  bool_decide (pending_count o = 1) = true → released o pool pool' →
  if here cfg (settled r o) then free_op_from_buffer (settled r o) pool = (Ok tt, pool') else pool' = pool.
Proof.
  intros E. unfold released. rewrite E. simpl. destruct (settled_facts cfg r o) as (_ & _ & -> & _ & _ & _ & _ & ->). done.
Qed.

Lemma settle_tail_run r p o fin e pool' :
  dict_get p (op_id_to_op e) = Some o → op_id o = p → routable U cfg o → released o (pin_buffer e) pool' →
  let last := bool_decide (pending_count o = 1) in
  let good := bool_decide (p ∉ _failed_parent_op_ids e) in
  (o' ← settle r p; if pending_count o' =? 0 then _finalize_or_discard cfg o' fin else mret fin) e =
  (Ok (fin ++ if last && good then [(op_graph_id o, p)] else []),
   after last good p (settled r o) (_failed_parent_op_ids e) pool' e).
Proof.
  intros Ho Hid Hr Hpool last good. run_step (settle_run r p o e Ho). rewrite pending_zero. fold last.
  destruct (settled_facts cfg r o) as (E1 & E2 & _). unfold after, ops_after.
  destruct last eqn:El.
  - pose proof (released_settled r o _ _ El Hpool) as Hrel.
    assert (dict_pop p (dict_set p (settled r o) (op_id_to_op e)) = dict_pop p (op_id_to_op e)) as Hpop.
    { apply dict_pop_set. by rewrite Ho. }
    unfold _finalize_or_discard. rewrite M_bind_run. cbn [gets fst snd]. rewrite E1, Hid.
    change (_failed_parent_op_ids (with_ops (dict_set p (settled r o)) e)) with (_failed_parent_op_ids e).
    subst good. case_bool_decide as Hin; [rewrite bool_decide_eq_false_2 by naive_solver|rewrite bool_decide_eq_true_2 by done].
    + run_step (discard_run (settled r o) (with_ops (dict_set p (settled r o)) e) pool' (routable_settled U cfg _ _ Hr) Hrel).
      rewrite E1, Hid. simpl. rewrite !app_nil_r. unfold with_failed_parents, with_ops, with_pool. simpl. by rewrite Hpop.
    + rewrite (finalize_op_run (settled r o) (settled r o) fin (with_ops (dict_set p (settled r o)) e) pool' (routable_settled U cfg _ _ Hr) Hrel).
      * rewrite E1, E2, Hid. simpl. unfold with_ops, with_completed, with_pool. simpl. rewrite Hpop.
        rewrite difference_disjoint_L by set_solver. done.
      * rewrite E1, Hid. apply dict_get_set_eq.
  - unfold released in Hpool. fold last in Hpool. rewrite El in Hpool. simpl in Hpool. subst pool'.
    simpl. rewrite !app_nil_r. done.
Qed.

Lemma fail_tail_run p o e pool' :
  dict_get p (op_id_to_op e) = Some o → op_id o = p → routable U cfg o → released o (pin_buffer e) pool' →
  (o' ← settle None p;
   modify_state (with_failed_parents (λ f, {[p]} ∪ f)) ;;
   (if pending_count o' =? 0 then _discard_failed_op cfg o' else mret tt) ;;
   mret (Some (op_graph_id o'))) e =
  (Ok (Some (op_graph_id o)),
   after (bool_decide (pending_count o = 1)) false p (settled None o) ({[p]} ∪ _failed_parent_op_ids e) pool' e).
Proof.
  intros Ho Hid Hr Hpool. run_step (settle_run None p o e Ho). rewrite M_bind_run. cbn [modify_state].
  rewrite pending_zero. destruct (settled_facts cfg None o) as (E1 & E2 & _). unfold after, ops_after.
  destruct (bool_decide (pending_count o = 1)) eqn:El.
  - pose proof (released_settled None o _ _ El Hpool) as Hrel.
    run_step (discard_run (settled None o) (with_failed_parents (λ f, {[p]} ∪ f) (with_ops (dict_set p (settled None o)) e)) pool'
      (routable_settled U cfg _ _ Hr) Hrel).
    rewrite E1, E2, Hid. unfold with_failed_parents, with_ops, with_pool. simpl. rewrite app_nil_r.
    rewrite dict_pop_set; [done|]. by rewrite Ho.
  - unfold released in Hpool. rewrite El in Hpool. simpl in Hpool. subst pool'. rewrite M_bind_run. cbn [mret M_ret]. simpl.
    by rewrite app_nil_r.
Qed.

(** ** What a report does *)

(** The block results that reach the op. *)
Definition report_results (e : TransferEngine) (t : Z) (ok : bool) (results : option (list bool)) : option (list bool) :=
  if ok then
    match dict_get t (_child_to_parent_op_id e), dict_get t (_child_id_to_child e) with
    | Some _, Some child => block_results (_merge_block_results child results)
    | _, _ => results
    end
  else None.

(** The results [new] of the op [o] after a report of [reported]: a block has succeeded when it had until now and
    the report says so, with one bit per block. *)
Definition merged (o : TransferOp) (reported new : option (list bool)) : Prop :=
  match reported with
  | None => new = block_results o
  | Some rs => ∃ l, new = Some l ∧
      (∀ i, l !! i = Some true ↔
         (∀ old, block_results o = Some old → old !! i = Some true) ∧ length rs = length (src_block_ids o) ∧ rs !! i = Some true) ∧
      ((∀ old, block_results o = Some old → length old = length (src_block_ids o)) → length l = length (src_block_ids o))
  end.

Lemma andb_true_lookup l l' i : zip_with andb l l' !! i = Some true ↔ l !! i = Some true ∧ l' !! i = Some true.
Proof. rewrite lookup_zip_with_Some. split; [|by intros [? ?]; exists true, true]. by intros ([] & [] & ? & ? & ?). Qed.

Lemma merge_merged o rs : merged o rs (block_results (_merge_block_results o rs)).
Proof.
  destruct rs as [rs|]; [|done]. cbn. set (n := length (src_block_ids o)).
  set (norm := if zlen rs =? zlen (src_block_ids o) then rs else replicate n false).
  assert (length norm = n ∧ ∀ i, norm !! i = Some true ↔ length rs = n ∧ rs !! i = Some true) as [Hl Hn].
  { unfold norm, zlen, n. destruct (Z.eqb_spec (Z.of_nat (length rs)) (Z.of_nat (length (src_block_ids o)))) as [E|E].
    - split; [lia|]. intros i. split; [intros ?; split; [lia|done]|by intros [_ ?]].
    - split; [by rewrite length_replicate|]. intros i. rewrite lookup_replicate. split; [by intros [? _]|intros [? _]; lia]. }
  destruct (block_results o) as [old|]; eexists; (split; [reflexivity|]).
  - split; [|intros Ho; rewrite length_zip_with, (Ho old eq_refl); fold n; lia]. intros i. rewrite andb_true_lookup, Hn.
    split; [intros (H1 & H2); split; [by intros ? [= <-]|done]|intros [H1 H2]; split; [by apply H1|done]].
  - split; [|done]. intros i. rewrite Hn. naive_solver.
Qed.

(** A replica's results reach its op as they were reported. *)
Lemma replica_merged o c rs : replica_of o c → transfer_type o ≠ LAYERWISE →
  merged o rs (block_results (_merge_block_results o (block_results (_merge_block_results c rs)))).
Proof.
  intros [Hn Hs] Ht. specialize (Hs Ht). destruct rs as [rs|]; [|cbn; by rewrite Hn].
  destruct (merge_merged c (Some rs)) as (l & -> & Hl & Hlen). rewrite Hn, Hs in *. specialize (Hlen ltac:(done)).
  destruct (merge_merged o (Some l)) as (l' & -> & Hl' & Hlen'). exists l'. split; [done|]. split; [|done].
  intros i. rewrite Hl', Hl. naive_solver.
Qed.

Lemma report_merged limbo out e t o (ok : bool) results :
  inv limbo out e → t ∈ out → dict_get (owner e t) (op_id_to_op e) = Some o → transfer_type o ≠ LAYERWISE →
  merged o (if ok then results else None) (block_results (settled (report_results e t ok results) o)).
Proof.
  intros [Ht _ _] Hin Ho Hty. unfold settled. cbn [block_results op_with_pending].
  unfold report_results, owner in *. destruct ok; [|done].
  destruct (dict_get t (_child_to_parent_op_id e)) as [p|] eqn:Hp; [|apply merge_merged].
  destruct (dict_get t (_child_id_to_child e)) as [c|] eqn:Hc; [|apply merge_merged].
  apply replica_merged; [|done]. by eapply (tk_replica _ _ _ _ _ _ _ _ _ _ Ht).
Qed.

(** The tables follow a report of [t]. *)
Lemma tasks_report limbo out out' t e :
  inv limbo out e → out ≡ₚ t :: out' →
  ∃ o, dict_get (owner e t) (op_id_to_op e) = Some o ∧ op_id o = owner e t ∧ routable U cfg o ∧
   ∃ kids' par' pool1 pool2,
    (∀ c, c ∈ kids'.*1 → c ∈ (_child_id_to_child e).*1) ∧
    match dict_get t (_child_to_parent_op_id e) with
    | Some p => ∃ c, dict_get t (_child_id_to_child e) = Some c ∧ free_op_from_buffer c (pin_buffer e) = (Ok tt, pool1) ∧
        (kids', par') = (dict_pop t (_child_id_to_child e), dict_pop t (_child_to_parent_op_id e))
    | None => pool1 = pin_buffer e ∧ (kids', par') = (_child_id_to_child e, _child_to_parent_op_id e)
    end ∧ released o pool1 pool2 ∧
    ∀ r, tasks_ok XXH64 U cfg None out' (ops_after (bool_decide (pending_count o = 1)) (owner e t) (settled r o) (op_id_to_op e))
      kids' par' pool2 (_next_op_id (op_ids e)).
Proof.
  intros [Ht _ _] Hp. assert (t ∈ out) as Hin by (rewrite Hp; left).
  destruct (task_cases _ _ _ _ _ _ _ _ _ _ t Ht Hin) as [(p & c & o & Hpar & Hc & Ho & Hh)|(Hpar & o & Ho & Hh)];
    unfold owner; rewrite Hpar; simpl; destruct (tk_op _ _ _ _ _ _ _ _ _ _ Ht _ _ Ho) as [Hid Hr]; exists o;
    (split; [done|]; split; [done|]; split; [done|]).
  - destruct (free_kid _ _ _ _ _ _ _ _ _ _ t c Ht Hc) as (pool1 & E & Hown).
    exists (dict_pop t (_child_id_to_child e)), (dict_pop t (_child_to_parent_op_id e)), pool1, pool1.
    split; [intros x; apply dict_keys_pop_subseteq|]. split; [by exists c|].
    split; [unfold released; by rewrite Hh, andb_false_r|]. intros r. unfold ops_after. case_bool_decide as Hl.
    + eapply (op_removed _ _ _ _ _ _ _ _ _ t p); [exact Ht|done|done|by left|done|].
      eapply owned_perm; [|exact Hown]. rewrite (handles_pop_op cfg p o) by done. unfold own_handles. by rewrite Hh.
    + by eapply kid_reported_more.
  - destruct (free_single _ _ _ _ _ _ _ _ _ _ t o Ht Ho Hh) as (pool2 & E & Hown).
    assert (pending_count o = 1) as Hl.
    { rewrite (tk_count _ _ _ _ _ _ _ _ _ _ Ht _ _ Ho), Hh, replicas_zero; [lia| |].
      - intros c Hc. destruct (tk_parent _ _ _ _ _ _ _ _ _ _ Ht _ _ Hc) as (o' & Ho' & ?). congruence.
      - unfold dict_wf. rewrite (tk_same _ _ _ _ _ _ _ _ _ _ Ht). apply Ht. }
    exists (_child_id_to_child e), (_child_to_parent_op_id e), (pin_buffer e), pool2.
    split; [done|]. split; [done|]. split; [unfold released; by rewrite bool_decide_eq_true_2, Hh|].
    intros r. unfold ops_after. rewrite bool_decide_eq_true_2 by done.
    eapply (op_removed _ _ _ _ _ _ _ _ _ t t); [exact Ht|done|done|by right|done|done].
Qed.

(** The state after the report [t]. *)
Definition reported (e : TransferEngine) (t : Z) (o : TransferOp) (ok : bool) (results : option (list bool))
    (kids' : list (Z * TransferOp)) (par' : list (Z * Z)) (pool' : SharedOpPool) : TransferEngine :=
  let e' := after (bool_decide (pending_count o = 1)) (ok && bool_decide (owner e t ∉ _failed_parent_op_ids e)) (owner e t)
    (settled (report_results e t ok results) o) (if ok then _failed_parent_op_ids e else {[owner e t]} ∪ _failed_parent_op_ids e)
    pool' (with_children (λ _, kids') (λ _, par') e) in
  if ok then e'
  else with_scheduler (fail_graph (op_graph_id o) (scheduler e)) (with_failed_graphs (λ f, {[op_graph_id o]} ∪ f) e').

Lemma handle_payload_run limbo out out' payload t ok results e fin :
  inv limbo out e → out ≡ₚ t :: out' → read_payload payload = (t, ok, results) →
  ∃ o kids' par' pool', dict_get (owner e t) (op_id_to_op e) = Some o ∧ op_id o = owner e t ∧
    (∀ c, c ∈ kids'.*1 → c ∈ (_child_id_to_child e).*1) ∧
    handle_payload cfg fin payload e =
      (Ok (fin ++ if bool_decide (pending_count o = 1) && (ok && bool_decide (owner e t ∉ _failed_parent_op_ids e))
                  then [(op_graph_id o, owner e t)] else []), reported e t o ok results kids' par' pool') ∧
    ∀ r, tasks_ok XXH64 U cfg None out' (ops_after (bool_decide (pending_count o = 1)) (owner e t) (settled r o) (op_id_to_op e))
      kids' par' pool' (_next_op_id (op_ids e)).
Proof.
  intros Hinv Hp Hread. destruct (tasks_report _ _ _ t e Hinv Hp) as (o & Ho & Hid & Hr & kids' & par' & pool1 & pool' & Hkid & Hcase & Hrel & Htasks).
  exists o, kids', par', pool'. split; [done|]. split; [done|]. split; [done|]. split; [|exact Htasks].
  unfold handle_payload. rewrite Hread. unfold reported, report_results, owner in *.
  destruct (dict_get t (_child_to_parent_op_id e)) as [p|] eqn:Hpar; simpl in Ho, Hid |- *.
  - destruct Hcase as (c & Hc & Hfree & [= -> ->]).
    set (e1 := with_pool pool1 (with_children (dict_pop t) (dict_pop t) e)).
    destruct ok; simpl.
    + rewrite M_bind_run. cbn [get_state]. rewrite Hpar. run_step (pop_child_run _ _ _ Hc). rewrite Hc.
      rewrite <- (free_merged c results) in Hfree.
      run_step (on_pool_run (free_op_from_buffer (_merge_block_results c results)) tt pool1
        (with_children (dict_pop t) (dict_pop t) e) Hfree).
      exact (settle_tail_run (block_results (_merge_block_results c results)) p o fin e1 pool' Ho Hid Hr Hrel).
    + rewrite andb_false_r, app_nil_r. rewrite M_bind_run. unfold _handle_failed_op. rewrite M_bind_run. cbn [get_state]. rewrite Hpar.
      assert ((child ← pop_child t; on_pool (free_op_from_buffer child) ;; e ← get_state;
        match dict_get p (op_id_to_op e) with
        | None => mret None
        | Some _ =>
            o ← settle None p; modify_state (with_failed_parents (λ f, {[p]} ∪ f)) ;;
            (if pending_count o =? 0 then _discard_failed_op cfg o else mret tt) ;; mret (Some (op_graph_id o))
        end) e = (Ok (Some (op_graph_id o)),
          after (bool_decide (pending_count o = 1)) false p (settled None o) ({[p]} ∪ _failed_parent_op_ids e) pool' e1)) as E.
      { run_step (pop_child_run _ _ _ Hc).
        run_step (on_pool_run (free_op_from_buffer c) tt pool1 (with_children (dict_pop t) (dict_pop t) e) Hfree).
        rewrite M_bind_run. cbn [get_state]. change (op_id_to_op (with_pool _ _)) with (op_id_to_op e). rewrite Ho.
        exact (fail_tail_run p o e1 pool' Ho Hid Hr Hrel). }
      run_step E. rewrite M_bind_run. cbn [modify_state]. done.
  - destruct Hcase as (-> & [= -> ->]). assert (with_children (λ _, _child_id_to_child e) (λ _, _child_to_parent_op_id e) e = e) as Heta by by destruct e.
    destruct ok; simpl.
    + rewrite M_bind_run. cbn [get_state]. rewrite Hpar. rewrite Heta.
      rewrite (settle_tail_run results t o fin e pool' Ho Hid Hr Hrel). done.
    + rewrite andb_false_r, app_nil_r. rewrite M_bind_run. unfold _handle_failed_op. rewrite M_bind_run. cbn [get_state]. rewrite Hpar, Ho.
      run_step (fail_tail_run t o e pool' Ho Hid Hr Hrel). rewrite M_bind_run. cbn [modify_state]. rewrite Heta. done.
Qed.

(** Every report keeps the invariant. *)
Lemma report_inv limbo out out' t e o ok results kids' par' pool' :
  inv limbo out e → out ≡ₚ t :: out' → dict_get (owner e t) (op_id_to_op e) = Some o → op_id o = owner e t →
  (∀ c, c ∈ kids'.*1 → c ∈ (_child_id_to_child e).*1) →
  (∀ r, tasks_ok XXH64 U cfg None out' (ops_after (bool_decide (pending_count o = 1)) (owner e t) (settled r o) (op_id_to_op e))
      kids' par' pool' (_next_op_id (op_ids e))) →
  inv (limbo ++ if bool_decide (pending_count o = 1) && (ok && bool_decide (owner e t ∉ _failed_parent_op_ids e))
       then [(op_graph_id o, owner e t)] else []) out' (reported e t o ok results kids' par' pool').
Proof.
  intros Hinv Hp Ho Hid Hkid Htasks. pose proof (iv_tasks _ _ _ Hinv) as Ht. pose proof (iv_graphs _ _ _ Hinv) as Hg.
  pose proof (iv_fails _ _ _ Hinv) as Hf. pose proof (tk_ops _ _ _ _ _ _ _ _ _ _ Ht) as Hw.
  set (p := owner e t) in *. set (last := bool_decide (pending_count o = 1)) in *.
  set (r := report_results e t ok results).
  assert (op_graph_id (settled r o) = op_graph_id o) as Eg by apply (settled_facts cfg).
  assert (∀ sched, graphs_ok U cfg limbo (op_id_to_op e) (_child_id_to_child e) sched (task_queue e) (_next_op_id (op_ids e)) →
    (last && (ok && bool_decide (p ∉ _failed_parent_op_ids e)) = false → last = true →
       ∀ g, ¬ known sched (task_queue e) (op_graph_id o) g) →
    graphs_ok U cfg (limbo ++ if last && (ok && bool_decide (p ∉ _failed_parent_op_ids e)) then [(op_graph_id o, p)] else [])
      (ops_after last p (settled r o) (op_id_to_op e)) kids' sched (task_queue e) (_next_op_id (op_ids e))) as Hgraphs.
  { intros sched Hgs Hunk. unfold ops_after. destruct last eqn:El; simpl.
    - eapply graphs_removed; [exact Hgs|exact Hw|exact Ho|exact Hkid|].
      destruct (ok && bool_decide (p ∉ _failed_parent_op_ids e)); [done|]. by apply Hunk.
    - rewrite app_nil_r. eapply graphs_update; [exact Hgs|exact Ho|exact Eg|exact Hkid]. }
  unfold reported. fold p last r. destruct ok; simpl in *.
  - split; simpl.
    + apply Htasks.
    + apply Hgraphs; [done|]. intros Hn Hl g. rewrite Hl in Hn. simpl in Hn. apply bool_decide_eq_false in Hn.
      apply dec_stable in Hn. destruct (fl_parent _ _ _ _ _ Hf _ Hn) as (x & Hx & Hin).
      assert (x = o) as -> by congruence. by apply (fl_failed _ _ _ _ _ Hf).
    + by apply (fails_success _ _ o).
  - split; simpl.
    + apply Htasks.
    + rewrite andb_false_r in Hgraphs |- *.
      destruct (fail_graph_ok _ _ _ _ _ _ _ _ (op_graph_id o) Hg) as [Hg' Hk].
      { intros g Hin. by apply (live_not_queued _ _ _ _ _ _ _ _ _ _ _ Hg Ho). }
      apply Hgraphs; [done|]. intros _ _ g [? _]%Hk. done.
    + by eapply (fails_failure _ _ o).
Qed.
End reports.
End EngineReports.
