(* ===== verification/EngineDispatch.v ===== *)
(** * The transfer engine sends work

    What [dispatch] does with an op the scheduler hands out: one task per worker that
    must take part, each with its slots, and the op's counter equal to their number. *)

From S2P Require Import Prelude Block RingBuffer Transfer Scheduler TransferEngine EngineTasks EngineGraphs EngineReports.
Local Open Scope Z_scope.

Module EngineDispatch.
Import RingBuffer Scheduler TransferEngine EngineTasks EngineGraphs EngineReports.

(** The ids of what was sent. *)
Definition sent_ids (l : list (Z * WorkerMessage)) : list Z := (λ x : Z * WorkerMessage, message_op_id x.2) <$> l.

Lemma sent_ids_app l l' : sent_ids (l ++ l') = sent_ids l ++ sent_ids l'.
Proof. apply fmap_app. Qed.

(** What sending leaves alone. *)
Record undisturbed (e e' : TransferEngine) : Prop := {
  ud_scheduler : scheduler e' = scheduler e;
  ud_task_queue : task_queue e' = task_queue e;
  ud_finished : finished_ops_queue e' = finished_ops_queue e;
  ud_failed : _failed_graph_ids e' = _failed_graph_ids e;
  ud_fpar : _failed_parent_op_ids e' = _failed_parent_op_ids e;
}.

#[export] Instance undisturbed_preorder : PreOrder undisturbed.
Proof. split; [by intros e; split|]. intros x y z [] []. split; congruence. Qed.

Section dispatch.
Context `{!SetOrder} (XXH64 : list Z → Z) (U : list Z → Prop) (U_inj : ∀ a b, U a → U b → XXH64 a = XXH64 b → a = b).
Context (cfg : EngineConfig).

(** ** Replicas *)

(** [make] draws the next id for a replica that is routed as [o] is. *)
Definition makes (make : M Ids TransferOp) (o : TransferOp) : Prop :=
  ∀ ids, ∃ c, make ids = (Ok c, mkIds (_next_op_id ids + 1) (_next_graph_id ids)) ∧ op_id c = _next_op_id ids ∧
    routable U cfg c ∧ replica_of o c ∧ src_slot_id c = -1 ∧ dst_slot_id c = -1.

Lemma replica_init_run gid tt src dst dp swa kv sw lw ids :
  zlen src = zlen dst →
  TransferOp_init gid tt src dst dp swa kv sw lw ids =
  (Ok {| op_id := _next_op_id ids; op_graph_id := gid; transfer_type := tt;
         src_block_ids := src; dst_block_ids := dst; predecessors := ∅; successors := ∅;
         op_status := PENDING; dp_client_id := dp; src_slot_id := -1; dst_slot_id := -1;
         valid_block_num := zlen src; pending_count := 0; is_swa := swa;
         mooncake_store_block_hashes := kv; mooncake_store_swa_block_hashes := sw;
         block_results := None; layerwise := lw |}, mkIds (_next_op_id ids + 1) (_next_graph_id ids)).
Proof.
  intros E. unfold TransferOp_init. rewrite M_bind_run.
  replace (negb (bool_decide (tt = VIRTUAL)) && negb (zlen src =? zlen dst)) with false; [done|].
  rewrite E, Z.eqb_refl. by rewrite andb_false_r.
Qed.

Lemma main_makes o : routable U cfg o → is_swa o = false → transfer_type o ≠ LAYERWISE → makes (main_replica o) o.
Proof.
  intros Hr Hswa Ht ids. pose proof Hr as [H1 H2 H3 H4 H5]. eexists. unfold main_replica. rewrite replica_init_run by done.
  split; [done|]. split; [done|]. split; [|by repeat split]. unfold resolved_worker in H4. rewrite Hswa in H4. by split.
Qed.

Lemma swa_makes o : routable U cfg o → is_swa o = true → makes (swa_replica o) o.
Proof.
  intros Hr Hswa ids. pose proof Hr as [H1 H2 H3 H4 H5]. eexists. unfold swa_replica. rewrite replica_init_run by done.
  split; [done|]. split; [done|]. split; [|by repeat split]. unfold resolved_worker in H4. rewrite Hswa in H4. split; try done.
  simpl. destruct (layerwise o) as [f|]; [|done]. by destruct H5 as (_ & ? & _); congruence.
Qed.

Lemma layerwise_makes o f : routable U cfg o → layerwise o = Some f → makes (layerwise_replica o f) o.
Proof.
  intros Hr Hf ids. pose proof Hr as [H1 H2 H3 H4 H5]. rewrite Hf in H5. destruct H5 as (Ht & Hs & (S1 & S2 & S3 & S4)).
  eexists. unfold layerwise_replica, LayerwiseTransferOp_init.
  run_step (replica_init_run (op_graph_id o) LAYERWISE [] [] (dp_client_id o) false None None (Some f) ids eq_refl).
  rewrite S1, S2, S3, S4, !Z.eqb_refl. split; [reflexivity|]. split; [done|]. split; [|by repeat split].
  unfold resolved_worker in H4. rewrite Hs, Ht in H4. by split.
Qed.

(** The state while the replicas of [p] are being sent. *)
Record sending (limbo : list (Z * Z)) (p : Z) (out : list Z) (e : TransferEngine) : Prop := {
  sn_tasks : tasks_ok XXH64 U cfg (Some p) out (op_id_to_op e) (_child_id_to_child e) (_child_to_parent_op_id e)
               (pin_buffer e) (_next_op_id (op_ids e));
  sn_graphs : graphs_ok U cfg limbo (op_id_to_op e) (_child_id_to_child e) (scheduler e) (task_queue e)
               (_next_op_id (op_ids e));
  sn_fails : fails_ok (op_id_to_op e) (scheduler e) (task_queue e) (_failed_graph_ids e) (_failed_parent_op_ids e);
}.

Lemma submit_run w c e : routable U cfg c →
  ∃ m, submit_transfer w c e = (Ok tt, with_sent (λ l, l ++ [(w, m)]) e) ∧ message_op_id m = op_id c.
Proof.
  intros Hr. unfold submit_transfer. pose proof (rt_layerwise _ _ _ Hr) as Hl. destruct (layerwise c) as [f|].
  - destruct Hl as (Ht & _). rewrite M_bind_run. unfold assertM, lift_result, py_assert. rewrite bool_decide_eq_true_2 by done.
    by eexists.
  - by eexists.
Qed.

Lemma fails_update limbo_op o o' sched queue failed fpar ops :
  fails_ok ops sched queue failed fpar → dict_get limbo_op ops = Some o → op_graph_id o' = op_graph_id o →
  fails_ok (dict_set limbo_op o' ops) sched queue failed fpar.
Proof.
  intros Hf Ho E. split; [apply Hf| |].
  - intros k x. rewrite dict_get_set. case_decide; [intros [= <-]; subst; rewrite E; by apply (fl_live _ _ _ _ _ Hf k)|].
    by apply (fl_live _ _ _ _ _ Hf k).
  - intros p Hp. destruct (fl_parent _ _ _ _ _ Hf p Hp) as (x & Hx & Hin). rewrite dict_get_set.
    case_decide; [subst p; exists o'; split; [done|]; congruence|by exists x].
Qed.

(** One turn of the fan-out loop. *)
Lemma send_replica_ok limbo p out e o make ws wk w :
  makes make o → sending limbo p out e → dict_get p (op_id_to_op e) = Some o → here cfg o = false →
  dict_get wk ws = Some w →
  ∃ m e', send_replica XXH64 make p ws wk e = (Ok tt, e') ∧ sent e' = sent e ++ [(w, m)] ∧
    sending limbo p (out ++ [message_op_id m]) e' ∧ undisturbed e e' ∧ completed_queue e' = completed_queue e ∧
    dict_get p (op_id_to_op e') = Some (op_with_pending o (pending_count o + 1)).
Proof.
  intros Hmake [Ht Hg Hf] Ho Hh Hwk. destruct (Hmake (op_ids e)) as (c & Ec & Hid & Hr & Hrep & Hs & Hd).
  pose proof (tk_pool _ _ _ _ _ _ _ _ _ _ Ht) as Hpool.
  destruct (register_run XXH64 U U_inj cfg c _ _ Hpool Hr ltac:(done)) as (s & d & pool' & Er & Hown).
  set (c' := op_with_slots c s d) in *.
  assert (routable U cfg c') as Hr' by by apply routable_slots.
  unfold send_replica.
  assert (on_op_ids make e = (Ok c, with_op_ids (mkIds (_next_op_id (op_ids e) + 1) (_next_graph_id (op_ids e))) e)) as E1.
  { unfold on_op_ids. by rewrite Ec. }
  run_step E1. set (e1 := with_op_ids _ e).
  run_step (on_pool_run (register_op_to_buffer XXH64 c) c' pool' e1 Er). rewrite M_bind_run. cbn [modify_state].
  set (e2 := with_children _ _ _).
  assert (dict_get p (op_id_to_op e2) = Some o) as Ho2 by done.
  run_step (alter_live_run (λ o, op_with_pending o (pending_count o + 1)) _ _ _ Ho2). rewrite Hwk.
  destruct (submit_run w c' (with_ops (dict_set p (op_with_pending o (pending_count o + 1))) e2) Hr') as (m & Em & Hm).
  rewrite Em. exists m. eexists. split; [reflexivity|].
  assert (message_op_id m = _next_op_id (op_ids e)) as -> by (rewrite Hm; exact Hid).
  split; [done|]. split; [|split; [done|split; [done|apply dict_get_set_eq]]].
  assert (op_id c' = _next_op_id (op_ids e)) as Hid' by exact Hid.
  split; simpl.
  - rewrite Hid. eapply replica_added; [exact Ht|exact Ho|exact Hh|exact Hid'|exact Hrep|exact Hown].
  - rewrite Hid. eapply graphs_update; [by apply graphs_kid|done|done|done].
  - by eapply fails_update.
Qed.

(** The workers of one DP slice. *)
Definition slice_workers (ws : list (WorkerKey * Z)) (dp : Z) : list Z :=
  (filter (λ kv : WorkerKey * Z, wk_dp_client_id kv.1 = dp) ws).*2.

Lemma makes_mono make o o' : makes make o → (∀ c, replica_of o c → replica_of o' c) → makes make o'.
Proof. intros Hm Hr i. destruct (Hm i) as (c & E & H1 & H2 & H3 & H4). exists c. split_and!; [done..|by apply Hr| |]; apply H4. Qed.

Lemma fan_out_ok limbo p out e o o0 make ws err :
  makes make o → (∀ c, replica_of o c → replica_of o0 c) → sending limbo p out e → dict_get p (op_id_to_op e) = Some o0 → here cfg o0 = false →
  pending_count o0 = 0 → op_id o = p → dict_wf ws → _match_pp_siblings ws (dp_client_id o) ≠ [] →
  ∃ l e', fan_out XXH64 make o ws err e = (Ok tt, e') ∧ sent e' = sent e ++ l ∧ l.*1 = slice_workers ws (dp_client_id o) ∧
    inv XXH64 U cfg limbo (out ++ sent_ids l) e' ∧ undisturbed e e' ∧ completed_queue e' = completed_queue e ∧
    ∃ o', dict_get p (op_id_to_op e') = Some o' ∧ pending_count o' = zlen l.
Proof.
  intros Hmake Hrep0 Hs Ho Hh Hpend Hid Hw Hne. unfold fan_out. set (ks := filter (λ kv : WorkerKey * Z, wk_dp_client_id kv.1 = dp_client_id o) ws).
  assert (_match_pp_siblings ws (dp_client_id o) = ks.*1) as Eks by done. rewrite Eks in *.
  destruct (for_each_ok (λ keys s, ∃ l done todo, ks = done ++ todo ∧ keys = todo.*1 ∧ l.*1 = done.*2 ∧
      sent s = sent e ++ l ∧ sending limbo p (out ++ sent_ids l) s ∧ undisturbed e s ∧ completed_queue s = completed_queue e ∧
      ∃ o', dict_get p (op_id_to_op s) = Some o' ∧ here cfg o' = false ∧ pending_count o' = zlen l ∧ (∀ c, replica_of o c → replica_of o' c))
    (send_replica XXH64 make (op_id o) ws) ks.*1 e) as (e' & E & l & dn & todo & Eq & Et & El & Es & Hs' & Hu & Hc & o' & Ho' & Hh' & Hp' & Hrep').
  - exists [], [], ks. simpl. rewrite !app_nil_r. split_and!; try done. by exists o0.
  - intros wk keys s (l & dn & todo & Eq & Et & El & Es & Hs' & Hu & Hc & o' & Ho' & Hh' & Hp' & Hrep').
    destruct todo as [|[wk' w] todo]; [done|]. simpl in Et. injection Et as -> ->.
    assert (dict_get wk' ws = Some w) as Hwk.
    { apply dict_elem_get; [done|]. assert ((wk', w) ∈ ks) as Hin by (rewrite Eq; set_solver).
      by apply list_elem_of_filter in Hin as [_ ?]. }
    destruct (send_replica_ok limbo p _ s o' make ws wk' w (makes_mono _ _ _ Hmake Hrep') Hs' Ho' Hh' Hwk) as (m & s' & E & Es1 & Hs1 & Hu1 & Hc1 & Ho1).
    exists s'. rewrite Hid. split; [done|]. exists (l ++ [(w, m)]), (dn ++ [(wk', w)]), todo. split_and!.
    + by rewrite <- app_assoc.
    + done.
    + by rewrite !fmap_app, El.
    + by rewrite Es1, Es, <- app_assoc.
    + rewrite sent_ids_app, app_assoc. exact Hs1.
    + by etrans.
    + congruence.
    + exists (op_with_pending o' (pending_count o' + 1)). split; [done|]. split; [done|]. split; [|exact Hrep']. rewrite zlen_app. simpl.
      unfold zlen at 2. simpl. lia.
  - destruct ks as [|kv ks'] eqn:Ek; [done|]. exists l, e'. split; [exact E|]. split; [done|].
    destruct todo; [|done]. rewrite app_nil_r in Eq. subst dn. split; [unfold slice_workers; by rewrite El; fold ks; rewrite Ek|].
    assert (0 < zlen l) as Hpos.
    { destruct l; [done|]. unfold zlen. simpl. lia. }
    split; [|split; [done|split; [done|by exists o']]].
    destruct Hs' as [Ht Hg Hf]. split; [|done|done]. eapply hole_closed; [done|done|lia].
Qed.

(** ** One op *)

(** The workers an op goes to. *)
Definition op_workers (o : TransferOp) : list Z :=
  match resolved_worker cfg o with
  | Ok (Some (Single w)) => [w]
  | Ok (Some (PerKey ws)) => slice_workers ws (dp_client_id o)
  | _ => []
  end.

Lemma fails_added k o sched queue failed fpar ops :
  fails_ok ops sched queue failed fpar → dict_get k ops = None → is_Some (graph_at sched (op_graph_id o)) →
  fails_ok (dict_set k o ops) sched queue failed fpar.
Proof.
  intros Hf Hk [g Hg]. split; [apply Hf| |].
  - intros j x. rewrite dict_get_set. case_decide; [intros [= <-]; left; by exists g|]. by apply (fl_live _ _ _ _ _ Hf j).
  - intros p Hp. destruct (fl_parent _ _ _ _ _ Hf p Hp) as (x & Hx & Hin). exists x.
    rewrite dict_get_set_ne; [done|]. intros <-. congruence.
Qed.

(** An op to be dispatched. *)
Record dispatchable (limbo : list (Z * Z)) (out : list Z) (o : TransferOp) (e : TransferEngine) : Prop := {
  dp_inv : inv XXH64 U cfg ((op_graph_id o, op_id o) :: limbo) out e;
  dp_routable : routable U cfg o;
  dp_pending : pending_count o = 0;
  dp_graph : ∃ g, graph_at (scheduler e) (op_graph_id o) = Some g ∧ is_Some (op_at g (op_id o));
}.

(** The tables admit a new version [o'] of the op. *)
Lemma dispatched_tables limbo out o e o' pool' :
  dispatchable limbo out o e → op_id o' = op_id o → op_graph_id o' = op_graph_id o → routable U cfg o' →
  pending_count o' = (if here cfg o' then 1 else 0) →
  owned XXH64 U (own_handles cfg o' ++ handles cfg (op_id_to_op e) (_child_id_to_child e)) pool' →
  tasks_ok XXH64 U cfg (if here cfg o' then None else Some (op_id o)) (out ++ if here cfg o' then [op_id o] else [])
    (dict_set (op_id o) o' (op_id_to_op e)) (_child_id_to_child e) (_child_to_parent_op_id e) pool' (_next_op_id (op_ids e)) ∧
  graphs_ok U cfg limbo (dict_set (op_id o) o' (op_id_to_op e)) (_child_id_to_child e) (scheduler e) (task_queue e) (_next_op_id (op_ids e)) ∧
  fails_ok (dict_set (op_id o) o' (op_id_to_op e)) (scheduler e) (task_queue e) (_failed_graph_ids e) (_failed_parent_op_ids e).
Proof.
  intros [[Ht Hg Hf] Hr Hp (g & Hgr & [x Hx])] Hid Hgid Hr' Hp' Hown.
  assert (known (scheduler e) (task_queue e) (op_graph_id o) g) as Hk by by left.
  destruct (gr_op _ _ _ _ _ _ _ _ Hg _ _ _ _ Hk Hx) as (_ & Hlt & Hkid).
  destruct (gr_limbo_data _ _ _ _ _ _ _ _ Hg (op_graph_id o) (op_id o)) as [Hno _]; [left|].
  split_and!.
  - eapply op_added; [exact Ht|done..].
  - eapply graphs_dispatched; [exact Hg|done|]. exists g. split; [done|by eexists].
  - apply fails_added; [done..|]. rewrite Hgid. by eexists.
Qed.

Lemma dispatch_ok limbo out o e :
  dispatchable limbo out o e →
  ∃ l e' o', dispatch XXH64 cfg o e = (Ok tt, e') ∧ sent e' = sent e ++ l ∧ l.*1 = op_workers o ∧
    inv XXH64 U cfg limbo (out ++ sent_ids l) e' ∧ undisturbed e e' ∧ completed_queue e' = completed_queue e ∧
    dict_get (op_id o) (op_id_to_op e') = Some o' ∧ pending_count o' = zlen l.
Proof.
  intros Hd. pose proof Hd as [[Ht Hg Hf] Hr Hp Hgr]. unfold dispatch. rewrite decide_False by apply Hr.
  rewrite M_bind_run. cbn [modify_state]. run_step (registered_here_run U cfg o (with_ops (dict_set (op_id o) o) e) Hr).
  pose proof (rt_entry _ _ _ Hr) as Hentry. unfold op_workers.
  destruct (here cfg o) eqn:Hh.
  - (* single worker *)
    assert (∃ w, resolved_worker cfg o = Ok (Some (Single w))) as [w Hw].
    { unfold here in Hh. destruct (resolved_worker cfg o) as [[[w|]|]|]; try done. by exists w. }
    rewrite Hw in Hentry |- *. pose proof (tk_pool _ _ _ _ _ _ _ _ _ _ Ht) as Hpool.
    destruct (register_run XXH64 U U_inj cfg o _ _ Hpool Hr ltac:(done)) as (s & d & pool' & Er & Hown).
    set (o1 := op_with_slots o s d) in *.
    run_step (on_pool_run (register_op_to_buffer XXH64 o) o1 pool' (with_ops (dict_set (op_id o) o) e) Er).
    rewrite M_bind_run. cbn [modify_state]. set (e1 := with_ops (dict_set (op_id o) o1) _).
    assert (_assign_op_to_worker XXH64 cfg o1 e1 = send_single o1 w e1) as ->.
    { unfold _assign_op_to_worker. change (transfer_type o1) with (transfer_type o). change (is_swa o1) with (is_swa o).
      rewrite decide_False by apply Hr. unfold resolved_worker in Hw. destruct (is_swa o).
      - unfold _assign_swa_op_to_worker. change (transfer_type o1) with (transfer_type o).
        destruct (_swa_worker_map cfg) as [m|]; [|done]. injection Hw as ->. done.
      - injection Hw as ->. by rewrite decide_False. }
    unfold send_single. assert (dict_get (op_id o1) (op_id_to_op e1) = Some o1) as Ho1 by apply dict_get_set_eq.
    run_step (alter_live_run (λ o, op_with_pending o (pending_count o + 1)) _ _ _ Ho1).
    destruct (submit_run w o1 (with_ops (dict_set (op_id o1) (op_with_pending o1 (pending_count o1 + 1))) e1)
      (routable_slots _ _ _ _ _ Hr)) as (m & Em & Hm).
    set (o2 := op_with_pending o1 (pending_count o1 + 1)) in *.
    rewrite Em. exists [(w, m)]. eexists _, o2. split; [reflexivity|]. split; [done|]. split; [done|].
    assert (pending_count o2 = 1) as Hp2 by (change (pending_count o2) with (pending_count o + 1); lia).
    destruct (dispatched_tables limbo out o e o2 pool' Hd) as (Ht' & Hg' & Hf').
    { done. } { done. } { by apply routable_pending, routable_slots. }
    { change (here cfg o2) with (here cfg o). by rewrite Hh. }
    { change (own_handles cfg o2) with (if here cfg o then op_handles o1 else []). by rewrite Hh. }
    change (here cfg o2) with (here cfg o) in Ht'. rewrite Hh in Ht'.
    assert (dict_set (op_id o) o2 (dict_set (op_id o) o1 (dict_set (op_id o) o (op_id_to_op e))) = dict_set (op_id o) o2 (op_id_to_op e)) as Eset.
    { by rewrite !dict_set_set. }
    split.
    + split; simpl; rewrite ?Hm; rewrite ?Eset; [exact Ht'|exact Hg'|exact Hf'].
    + split; [done|]. split; [done|]. simpl. rewrite Eset. split; [apply dict_get_set_eq|exact Hp2].
  - (* one worker per stage *)
    assert (∃ ws, resolved_worker cfg o = Ok (Some (PerKey ws))) as [ws Hw].
    { unfold here in Hh. destruct (resolved_worker cfg o) as [[[w|ws]|]|]; try done. by exists ws. }
    rewrite Hw in Hentry |- *. destruct Hentry as [Hwf Hne].
    set (e1 := with_ops (dict_set (op_id o) o) e).
    destruct (dispatched_tables limbo out o e o (pin_buffer e) Hd) as (Ht' & Hg' & Hf'); [done|done|done|by rewrite Hh|..].
    { unfold own_handles. rewrite Hh. apply Ht. }
    rewrite Hh, app_nil_r in Ht'.
    assert (sending limbo (op_id o) out e1) as Hs by by split.
    assert (∃ make err, makes make o ∧ _assign_op_to_worker XXH64 cfg o e1 = fan_out XXH64 make o ws err e1) as (make & err & Hmake & ->).
    { unfold _assign_op_to_worker. rewrite decide_False by apply Hr. unfold resolved_worker in Hw. destruct (is_swa o) eqn:Hswa.
      - unfold _assign_swa_op_to_worker. destruct (_swa_worker_map cfg) as [m|]; [|done]. injection Hw as ->.
        eexists _, _. split; [by apply swa_makes|done].
      - injection Hw as Hw. rewrite Hw. case_decide as Hl.
        + unfold _assign_layerwise_op_to_workers. rewrite <- Hl, Hw. pose proof (rt_layerwise _ _ _ Hr) as Hlw.
          destruct (layerwise o) as [f|] eqn:Hf2; [|done]. eexists _, _. split; [by apply layerwise_makes|done].
        + eexists _, _. split; [by apply main_makes|done]. }
    assert (dict_get (op_id o) (op_id_to_op e1) = Some o) as Ho1 by apply dict_get_set_eq.
    destruct (fan_out_ok limbo (op_id o) out e1 o o make ws err Hmake (λ _ H, H) Hs Ho1 Hh Hp eq_refl Hwf Hne)
      as (l & e' & E & Es & El & Hinv & Hu & Hc & o' & Ho' & Hp').
    exists l, e', o'. split_and!; try done. destruct Hu. by split.
Qed.
End dispatch.
End EngineDispatch.
