(* ===== verification/EngineLoop.v ===== *)
(** * The scheduling loop of the transfer engine

    One iteration of [_scheduler_loop] keeps the invariant and never raises; the
    engine, the workers and the submitting threads together are the relation
    [engine_reach]. *)

From S2P Require Import Prelude Block RingBuffer Transfer Scheduler TransferEngine EngineTasks EngineGraphs EngineReports EngineDispatch.
Local Open Scope Z_scope.

Module EngineLoop.
Import RingBuffer Scheduler TransferEngine EngineTasks EngineGraphs EngineReports EngineDispatch.

Definition report_id (p : Payload) : Z := (read_payload p).1.1.
Definition report_ids (l : list Payload) : list Z := report_id <$> l.

(** A failed graph is reported as soon as it has drained. *)
Definition drained (e : TransferEngine) : Prop :=
  ∀ gid, gid ∈ _failed_graph_ids e → ∃ k o, dict_get k (op_id_to_op e) = Some o ∧ op_graph_id o = gid.

Section emit.
Context `{!SetOrder}.

(** ** Failures are reported when they have drained *)

Definition graph_live (e : TransferEngine) (gid : Z) : bool :=
  existsb (λ kv : Z * TransferOp, op_graph_id kv.2 =? gid) (op_id_to_op e).

Definition drained_graphs (e : TransferEngine) : list Z :=
  filter (λ gid, graph_live e gid = false) (set_order (_failed_graph_ids e)).

Lemma graph_live_false e gid :
  dict_wf (op_id_to_op e) → graph_live e gid = false ↔ ∀ k o, dict_get k (op_id_to_op e) = Some o → op_graph_id o ≠ gid.
Proof.
  intros Hw. unfold graph_live. rewrite <- not_true_iff_false, existsb_exists. split.
  - intros Hn k o Ho%dict_get_Some_elem E. apply Hn. exists (k, o). split; [by apply list_elem_of_In|]. by apply Z.eqb_eq.
  - intros Hn ([k o] & Hin & E%Z.eqb_eq). apply (Hn k o); [|done]. apply dict_elem_get; [done|]. by apply list_elem_of_In.
Qed.

(** The effect of [_emit_drained_graph_failures], in any state. *)
Lemma emit_run e :
  _emit_drained_graph_failures e = (Ok tt,
    with_failed_graphs (λ f, f ∖ list_to_set (drained_graphs e))
      (with_completed (λ q, q ++ (failed_graph <$> drained_graphs e)) e)).
Proof.
  unfold _emit_drained_graph_failures. rewrite M_bind_run. cbn [get_state]. unfold drained_graphs.
  enough (∀ l s, op_id_to_op s = op_id_to_op e →
    for_each (λ gid, e ← get_state;
      if existsb (λ kv : Z * TransferOp, op_graph_id kv.2 =? gid) (op_id_to_op e) then mret tt
      else notify (failed_graph gid) ;; modify_state (with_failed_graphs (λ f, f ∖ {[gid]}))) l s =
    (Ok tt, with_failed_graphs (λ f, f ∖ list_to_set (filter (λ gid, graph_live e gid = false) l))
      (with_completed (λ q, q ++ (failed_graph <$> filter (λ gid, graph_live e gid = false) l)) s))) as Hl by by apply Hl.
  induction l as [|gid l IH]; intros s Hs; simpl.
  - unfold with_failed_graphs, with_completed. simpl. rewrite app_nil_r, difference_empty_L. by destruct s.
  - rewrite M_bind_run. rewrite M_bind_run. cbn [get_state]. rewrite Hs. fold (graph_live e gid). rewrite filter_cons.
    destruct (graph_live e gid) eqn:El.
    + rewrite decide_False by done. cbn [mret M_ret]. by apply IH.
    + rewrite decide_True by done. rewrite M_bind_run. cbn [notify modify_state]. rewrite IH by done.
      unfold with_failed_graphs, with_completed. simpl. rewrite <- app_assoc. f_equal. f_equal.
      apply set_eq. intros x. set_solver.
Qed.
End emit.

Section loop.
Context `{!SetOrder} (XXH64 : list Z → Z) (U : list Z → Prop) (U_inj : ∀ a b, U a → U b → XXH64 a = XXH64 b → a = b).
Context (cfg : EngineConfig).
Abbreviation inv := (inv XXH64 U cfg).

(** ** The events *)

(** Reports that are not yet handled count as owed. *)
Lemma inv_finished limbo out q e : inv limbo out e → inv limbo out (with_finished q e).
Proof. intros []. by split. Qed.

Lemma inv_perm limbo out out' e : out ≡ₚ out' → inv limbo out e → inv limbo out' e.
Proof.
  intros Hp [Ht Hg Hf]. split; [|done|done]. split; try apply Ht.
  - rewrite <- Hp. apply Ht.
  - intros t. rewrite <- Hp. apply Ht.
Qed.

Lemma collect_finished_ok limbo aw e :
  inv limbo (aw ++ report_ids (finished_ops_queue e)) e →
  ∃ limbo' e', collect_finished cfg limbo e = (Ok limbo', e') ∧ inv limbo' aw e' ∧ finished_ops_queue e' = [] ∧
    sent e' = sent e ∧ task_queue e' = task_queue e ∧ _dirty_graph_ids (scheduler e') = _dirty_graph_ids (scheduler e).
Proof.
  intros Hinv. unfold collect_finished. rewrite M_bind_run. cbn [get_state].
  destruct (for_acc_ok (λ fin l s, inv fin (aw ++ report_ids l) s ∧ finished_ops_queue s = l ∧ sent s = sent e ∧
      task_queue s = task_queue e ∧ _dirty_graph_ids (scheduler s) = _dirty_graph_ids (scheduler e))
    (λ fin payload, modify_state (with_finished tail) ;; handle_payload cfg fin payload) limbo (finished_ops_queue e) e)
    as (fin & e' & E & Hinv' & Hq & Hsent & Htq & Hdirty).
  - by split_and!.
  - intros fin payload l s (Hi & Hq & Hsent & Htq & Hdirty). rewrite M_bind_run. cbn [modify_state].
    set (s1 := with_finished tail s).
    destruct (read_payload payload) as [[t ok] results] eqn:Er.
    assert (aw ++ report_ids (payload :: l) ≡ₚ t :: (aw ++ report_ids l)) as Hp.
    { unfold report_ids. csimpl. unfold report_id at 1. rewrite Er. simpl. symmetry. apply Permutation_middle. }
    assert (inv fin (aw ++ report_ids (payload :: l)) s1) as Hi1 by by apply inv_finished.
    destruct (handle_payload_run XXH64 U cfg fin _ _ payload t ok results s1 fin Hi1 Hp Er)
      as (o & kids' & par' & pool' & Ho & Hid & Hkid & E & Htasks).
    rewrite E. eexists _, _. split; [reflexivity|].
    split; [by apply (report_inv XXH64 U cfg fin _ _ t s1 o ok results kids' par' pool' Hi1 Hp)|].
    unfold reported. destruct ok; simpl; by rewrite ?Hq.
  - rewrite app_nil_r in Hinv'. by exists fin, e'.
Qed.

Lemma collect_graphs_ok limbo out e :
  inv limbo out e →
  ∃ e', collect_graphs e = (Ok (zlen (concat (task_queue e))), e') ∧ inv limbo out e' ∧ task_queue e' = [] ∧
    finished_ops_queue e' = finished_ops_queue e ∧ sent e' = sent e ∧
    (zlen (concat (task_queue e)) = 0 → scheduler e' = scheduler e).
Proof.
  intros [Ht Hg Hf]. unfold collect_graphs. rewrite M_bind_run. cbn [get_state]. rewrite M_bind_run. cbn [modify_state].
  rewrite M_bind_run. cbn [modify_state]. eexists. split; [reflexivity|].
  destruct (collect_ok _ _ _ _ _ _ _ _ Hg) as [Hg' Hk]. split; [|split; [done|split; [done|split; [done|]]]].
  - split; simpl; [exact Ht|exact Hg'|]. split; [|intros k op Ho|apply Hf].
    + intros gid g Hin Hkn. apply (fl_failed _ _ _ _ _ Hf gid g Hin). by apply Hk.
    + destruct (fl_live _ _ _ _ _ Hf k op Ho) as [[g Hgr]|?]; [left|by right]. exists g.
      assert (known (scheduler e) (task_queue e) (op_graph_id op) g) as Hkn by by left.
      apply Hk in Hkn as [?|[Hin _]]; [done|by apply not_elem_of_nil in Hin].
  - destruct (concat (task_queue e)) eqn:E; [done|]. unfold zlen. simpl. lia.
Qed.

(** All the events of an iteration that is not the last. *)
Lemma handle_events_ok events : ∀ limbo n aw e,
  EvShutdown ∉ events → 0 <= n → inv limbo (aw ++ report_ids (finished_ops_queue e)) e →
  ∃ limbo' n' e', handle_events cfg (limbo, n) events e = (Ok (limbo', n', false), e') ∧
    inv limbo' (aw ++ report_ids (finished_ops_queue e')) e' ∧ sent e' = sent e ∧ n <= n' ∧
    (n' = n → _dirty_graph_ids (scheduler e') = _dirty_graph_ids (scheduler e)).
Proof.
  induction events as [|ev events IH]; intros limbo n aw e Hne Hn Hinv; simpl.
  - exists limbo, n, e. by split_and!.
  - apply not_elem_of_cons in Hne as [Hev Hne]. destruct ev; [done| |].
    + destruct (collect_graphs_ok _ _ _ Hinv) as (e1 & E & Hi & Htq & Hfq & Hs & Hsch). run_step E.
      pose proof (zlen_nonneg (concat (task_queue e))) as Hz. rewrite <- Hfq in Hi.
      destruct (IH limbo (n + zlen (concat (task_queue e))) aw e1 Hne ltac:(lia) Hi) as (limbo' & n' & e' & E' & Hi' & Hs' & Hle & Hd).
      exists limbo', n', e'. split; [exact E'|]. split; [done|]. split; [congruence|]. split; [lia|].
      intros ->. rewrite Hd by lia. by rewrite Hsch by lia.
    + destruct (collect_finished_ok _ _ _ Hinv) as (limbo1 & e1 & E & Hi & Hfq & Hs & Htq & Hd1). run_step E.
      assert (inv limbo1 (aw ++ report_ids (finished_ops_queue e1)) e1) as Hi1 by (rewrite Hfq; simpl; by rewrite app_nil_r).
      destruct (IH limbo1 n aw e1 Hne Hn Hi1) as (limbo' & n' & e' & E' & Hi' & Hs' & Hle & Hd).
      exists limbo', n', e'. split; [exact E'|]. split; [done|]. split; [congruence|]. split; [done|].
      intros Hnn. rewrite Hd by done. done.
Qed.

(** ** The next ops *)

Lemma planned_data gid k o : planned U cfg gid k o → transfer_type o ≠ VIRTUAL → routable U cfg o.
Proof. by intros (_ & _ & _ & [?|?]). Qed.

(** The virtual ops among the references: they complete on the spot. *)
Definition virtual_refs (s : TransferScheduler) (refs : list (Z * Z)) : list (Z * Z) :=
  filter (λ ref, transfer_type <$> op_ref s ref = Some VIRTUAL) refs.

Lemma virtual_refs_cons s ref refs o : op_ref s ref = Some o →
  virtual_refs s (ref :: refs) = (if decide (transfer_type o = VIRTUAL) then [ref] else []) ++ virtual_refs s refs.
Proof.
  intros E. unfold virtual_refs. rewrite filter_cons, E. simpl. destruct (decide (transfer_type o = VIRTUAL)) as [Hv|Hv].
  - by rewrite decide_True by congruence.
  - by rewrite decide_False by congruence.
Qed.

(** The ops behind the references, as far as this thread is concerned. *)
Definition resolves (s : TransferScheduler) (refs : list (Z * Z)) (os : list TransferOp) : Prop :=
  Forall2 (λ ref o, op_ref s ref = Some o ∧ op_graph_id o = ref.1 ∧ op_id o = ref.2 ∧ planned U cfg ref.1 ref.2 o) refs os.

Lemma omap_resolves s refs os : resolves s refs os → omap (op_ref s) refs = os.
Proof. induction 1 as [|ref o refs os (E & _) _ IH]; csimpl; [done|]. by rewrite E, IH. Qed.

Lemma data_refs_cons s ref refs o : op_ref s ref = Some o →
  data_refs s (ref :: refs) = (if decide (transfer_type o = VIRTUAL) then [] else [ref]) ++ data_refs s refs.
Proof.
  intros E. unfold data_refs. rewrite filter_cons, E. simpl. destruct (decide (transfer_type o = VIRTUAL)) as [Hv|Hv].
  - by rewrite decide_False by (rewrite Hv; naive_solver).
  - by rewrite decide_True by congruence.
Qed.

Lemma dispatch_all_ok s0 refs os : ∀ out e,
  resolves s0 refs os → inv (data_refs s0 refs) out e →
  (∀ ref, ref ∈ data_refs s0 refs → ∃ g, graph_at (scheduler e) ref.1 = Some g ∧ is_Some (op_at g ref.2)) →
  ∃ l e', for_each (dispatch XXH64 cfg) os e = (Ok tt, e') ∧ sent e' = sent e ++ l ∧ inv [] (out ++ sent_ids l) e' ∧ undisturbed e e' ∧
    completed_queue e' = completed_queue e ++ ((λ ref, completed_op ref.1 ref.2) <$> virtual_refs s0 refs).
Proof.
  revert os. induction refs as [|[gid k] refs IH]; intros os out e Hres Hinv Hgr; inversion Hres as [|? o ? os' (E & Hgid & Hid & Hpl) Hres']; subst.
  - exists [], e. simpl. rewrite !app_nil_r. by split_and!.
  - rewrite (data_refs_cons _ _ _ _ E) in Hinv, Hgr. rewrite (virtual_refs_cons _ _ _ _ E). simpl in Hgid, Hid. subst. simpl.
    destruct (decide (transfer_type o = VIRTUAL)) as [Hv|Hv]; simpl in Hinv, Hgr.
    + assert (dispatch XXH64 cfg o e = (Ok tt, with_completed (λ l, l ++ [completed_op (op_graph_id o) (op_id o)]) e)) as Ed.
      { unfold dispatch. by rewrite decide_True. }
      run_step Ed. set (e1 := with_completed _ e).
      assert (inv (data_refs s0 refs) out e1) as Hi1 by (destruct Hinv; by split).
      destruct (IH os' out e1 Hres' Hi1 Hgr) as (l & e' & E' & Hs & Hi & Hu & Hc). exists l, e'. split_and!; try done.
      * destruct Hu. by split.
      * rewrite Hc. simpl. by rewrite <- app_assoc.
    + assert (dispatchable XXH64 U cfg (data_refs s0 refs) out o e) as Hd.
      { split; [done|by eapply planned_data|apply Hpl|]. apply (Hgr (op_graph_id o, op_id o)). left. }
      destruct (dispatch_ok XXH64 U U_inj cfg _ _ _ _ Hd) as (l & e1 & o' & Ed & Hs1 & _ & Hi1 & Hu1 & Hc1 & _). run_step Ed.
      destruct (IH os' (out ++ sent_ids l) e1 Hres' Hi1) as (l' & e' & E' & Hs & Hi & Hu & Hc).
      { intros ref Hin. rewrite (ud_scheduler _ _ Hu1). apply Hgr. by right. }
      exists (l ++ l'), e'. split; [done|]. split; [by rewrite Hs, Hs1, app_assoc|]. split; [|split; [by etrans|by rewrite Hc, Hc1]].
      by rewrite sent_ids_app, app_assoc.
Qed.

Lemma notify_all_run f (l : list Z) : ∀ e,
  for_each (λ gid, notify (f gid)) l e = (Ok tt, with_completed (λ q, q ++ (f <$> l)) e).
Proof.
  induction l as [|x l IH]; intros e; simpl; [unfold with_completed; rewrite app_nil_r; by destruct e|].
  rewrite M_bind_run. cbn [notify modify_state]. rewrite IH. unfold with_completed. simpl. by rewrite <- app_assoc.
Qed.

(** The scheduler's answer, before it is acted on. *)
Lemma scheduled_inv limbo out e :
  inv limbo out e →
  ∃ dn N s', schedule limbo (scheduler e) = (Ok (dn, N), s') ∧ scheduled (scheduler e) limbo dn N s' ∧ _dirty_graph_ids s' = [] ∧
    inv (data_refs (scheduler e) N) out (with_scheduler s' e).
Proof.
  intros [Ht Hg Hf]. pose proof (limbo_finished _ _ _ _ _ _ _ _ Hg) as Hfin.
  destruct (schedule_ok (scheduler e) limbo (gr_sched _ _ _ _ _ _ _ _ Hg) Hfin) as (dn & N & s' & E & Hsch & Hdirty).
  exists dn, N, s'. split_and!; [done..|]. split; simpl; [done|by eapply graphs_scheduled|by eapply fails_scheduled].
Qed.

Lemma schedule_next_ok limbo out e :
  inv limbo out e →
  ∃ dn N l e', schedule_next XXH64 cfg limbo e = (Ok tt, e') ∧ scheduled (scheduler e) limbo dn N (scheduler e') ∧
    sent e' = sent e ++ l ∧ inv [] (out ++ sent_ids l) e' ∧ finished_ops_queue e' = finished_ops_queue e ∧
    _dirty_graph_ids (scheduler e') = [] ∧ _failed_graph_ids e' = _failed_graph_ids e ∧
    completed_queue e' = completed_queue e ++ ((λ ref, completed_op ref.1 ref.2) <$> virtual_refs (scheduler e) N) ++
      (completed_graph <$> dn).
Proof.
  intros Hi. destruct (scheduled_inv _ _ _ Hi) as (dn & N & s' & E & Hsch & Hdirty & Hi1). pose proof (iv_graphs _ _ _ _ _ _ Hi) as Hg.
  unfold schedule_next. rewrite M_bind_run. cbn [gets].
  assert (on_scheduler (schedule limbo) e = (Ok (dn, N), with_scheduler s' e)) as E1 by (unfold on_scheduler; by rewrite E).
  run_step E1. cbn [fst snd]. set (e1 := with_scheduler s' e).
  (* every reference resolves to an op of the graphs before the call *)
  assert (∃ os, resolves (scheduler e) N os) as [os Hres].
  { pose proof (se_new _ _ _ _ _ Hsch) as Hnew. clear E E1 Hsch Hi1. induction N as [|[gid k] N IH]; [exists []; constructor|].
    destruct IH as [os Hos]; [intros; apply Hnew; by right|].
    destruct (Hnew gid k) as (g0 & o & Hg0 & Ho & _); [left|]. exists (o :: os). constructor; [|done].
    assert (known (scheduler e) (task_queue e) gid g0) as Hk by by left.
    destruct (gr_op _ _ _ _ _ _ _ _ Hg _ _ _ _ Hk Ho) as (Hpl & _). rewrite (op_ref_at _ _ _ _ Hg0). split_and!; [done|apply Hpl|apply Hpl|done]. }
  rewrite (omap_resolves _ _ _ Hres).
  destruct (dispatch_all_ok (scheduler e) N os out e1 Hres Hi1) as (l & e2 & E2 & Hs2 & Hi2 & Hu2 & Hc2).
  { intros [gid k] Hin. destruct (data_ref_new _ _ _ _ _ Hsch _ _ Hin) as (_ & _ & g & _ & _ & _ & _ & Hgr & Hop). by exists g. }
  run_step E2. rewrite notify_all_run. eexists dn, N, l, _. split; [reflexivity|].
  simpl. rewrite (ud_finished _ _ Hu2), (ud_scheduler _ _ Hu2), (ud_failed _ _ Hu2).
  split; [done|]. split; [done|]. split; [destruct Hi2; by split|].
  split; [done|]. split; [done|]. split; [done|]. by rewrite Hc2, <- app_assoc.
Qed.

Lemma emit_ok limbo out e :
  inv limbo out e →
  ∃ e', _emit_drained_graph_failures e = (Ok tt, e') ∧ inv limbo out e' ∧ drained e' ∧ sent e' = sent e ∧
    finished_ops_queue e' = finished_ops_queue e ∧ scheduler e' = scheduler e.
Proof.
  intros [Ht Hg Hf]. eexists. split; [apply emit_run|].
  pose proof (tk_ops _ _ _ _ _ _ _ _ _ _ Ht) as Hw.
  assert (∀ gid, gid ∈ list_to_set (C := gset Z) (drained_graphs e) ↔ gid ∈ _failed_graph_ids e ∧ graph_live e gid = false) as Hdr.
  { intros gid. unfold drained_graphs. rewrite elem_of_list_to_set, list_elem_of_filter, set_order_perm, elem_of_elements. naive_solver. }
  split; [|split; [|done]].
  - split; simpl; [done|done|]. split.
    + intros gid g [Hin _]%elem_of_difference. by apply (fl_failed _ _ _ _ _ Hf).
    + intros k op Ho. destruct (fl_live _ _ _ _ _ Hf k op Ho) as [?|Hin]; [by left|]. right.
      apply elem_of_difference. split; [done|]. intros [_ Hl]%Hdr.
      by apply (proj1 (graph_live_false e _ Hw) Hl k op Ho).
    + intros p Hp. destruct (fl_parent _ _ _ _ _ Hf p Hp) as (o & Ho & Hin). exists o. split; [done|].
      apply elem_of_difference. split; [done|]. intros [_ Hl]%Hdr.
      by apply (proj1 (graph_live_false e _ Hw) Hl p o Ho).
  - intros gid [Hin Hn]%elem_of_difference. destruct (graph_live e gid) eqn:El.
    + unfold graph_live in El. apply existsb_exists in El as ([k o] & Hko & E%Z.eqb_eq). exists k, o. split; [|done].
      simpl. apply dict_elem_get; [done|]. by apply list_elem_of_In.
    + destruct Hn. by apply Hdr.
Qed.

(** ** One iteration *)

Lemma loop_body_ok events aw e :
  EvShutdown ∉ events → inv [] (aw ++ report_ids (finished_ops_queue e)) e → _dirty_graph_ids (scheduler e) = [] →
  ∃ l e', loop_body XXH64 cfg events e = (Ok false, e') ∧ sent e' = sent e ++ l ∧
    inv [] ((aw ++ sent_ids l) ++ report_ids (finished_ops_queue e')) e' ∧ _dirty_graph_ids (scheduler e') = [] ∧ drained e'.
Proof.
  intros Hev Hinv Hd. unfold loop_body.
  destruct (handle_events_ok events [] 0 aw e Hev ltac:(lia) Hinv) as (fin & n & e1 & E1 & Hi1 & Hs1 & Hn & Hd1). run_step E1.
  assert (∃ l e2, (if negb (bool_decide (fin = [])) || (0 <? n) then schedule_next XXH64 cfg fin else mret tt) e1 = (Ok tt, e2) ∧
    sent e2 = sent e ++ l ∧ inv [] ((aw ++ sent_ids l) ++ report_ids (finished_ops_queue e2)) e2 ∧ _dirty_graph_ids (scheduler e2) = [])
    as (l & e2 & E2 & Hs2 & Hi2 & Hd2).
  { destruct (negb (bool_decide (fin = [])) || (0 <? n)) eqn:Eb.
    - destruct (schedule_next_ok _ _ _ Hi1) as (dn & N & l & e2 & E2 & _ & Hs2 & Hi2 & Hq2 & Hd2 & _).
      exists l, e2. split; [done|]. split; [congruence|]. split; [|done]. rewrite Hq2. eapply inv_perm; [|exact Hi2].
      rewrite <- !app_assoc. apply Permutation_app_head, Permutation_app_comm.
    - apply orb_false_iff in Eb as [Ef%negb_false_iff%bool_decide_eq_true En%Z.ltb_ge]. subst fin.
      exists [], e1. simpl. rewrite !app_nil_r. split_and!; [done|done|done|]. rewrite Hd1 by lia. done. }
  run_step E2. clear E2. rewrite M_bind_run. cbn [get_state]. case_bool_decide as Hf.
  - rewrite M_bind_run. cbn [mret M_ret]. exists l, e2. split; [reflexivity|]. split; [done|]. split; [done|]. split; [done|].
    intros gid Hin. rewrite Hf in Hin. set_solver.
  - destruct (emit_ok _ _ _ Hi2) as (e3 & E3 & Hi3 & Hdr & Hs3 & Hq3 & Hsch3). run_step E3.
    exists l, e3. split_and!; [done|congruence| |by rewrite Hsch3|done]. by rewrite Hq3.
Qed.
End loop.
End EngineLoop.
