(* ===== verification/EngineRuns.v ===== *)
(** * Runs of the transfer engine

    [engine_reach] closes the engine, its workers and the threads that submit graphs
    under their steps.  The properties: no iteration raises, slots are held exactly
    by the tasks in flight, a graph in flight always has a report coming, and what
    every report and every dispatch does.  The last section shows what the shared id
    counter and the routing are needed for. *)

From S2P Require Import Prelude Block RingBuffer Transfer Scheduler TransferEngine EngineTasks EngineGraphs EngineReports EngineDispatch EngineLoop.
Local Open Scope Z_scope.

Module EngineRuns.
Import RingBuffer Scheduler TransferEngine EngineTasks EngineGraphs EngineReports EngineDispatch EngineLoop.

(** The engine after [__init__]: 2048 slots of [m] block ids. *)
Definition engine_init (m : Z) (rows : list (list Z)) (groups : list WorkerKey) (ids : Ids) : TransferEngine :=
  {| scheduler := Scheduler.init; task_queue := []; finished_ops_queue := []; completed_queue := []; op_id_to_op := [];
     pin_buffer := RingBuffer.init 2048 m rows; _child_id_to_child := []; _child_to_parent_op_id := [];
     _failed_graph_ids := ∅; _failed_parent_op_ids := ∅; _gpu_mappings_suspended := false; gpu_handle_groups := groups;
     op_ids := ids; sent := [] |}.

Section runs.
Context `{!SetOrder} (XXH64 : list Z → Z) (U : list Z → Prop).
Context (cfg : EngineConfig).

(** What the submitting threads promise: well-formed graphs none of whose ops has started,
    with ids that were drawn before from the counter this engine shares and that nothing
    in flight has, for ops the worker maps serve. *)
Record submittable (e : TransferEngine) (gs : list TransferOpGraph) : Prop := {
  sb_ids : NoDup (graph_id <$> gs);
  sb_wf : ∀ g, g ∈ gs → graph_wf g;
  sb_op : ∀ g k o, g ∈ gs → op_at g k = Some o →
    planned U cfg (graph_id g) k o ∧ op_status o ≠ RUNNING ∧ k < _next_op_id (op_ids e) ∧
    (k ∉ (_child_id_to_child e).*1) ∧ dict_get k (op_id_to_op e) = None;
  sb_new : ∀ g, g ∈ gs → (∀ g', ¬ known (scheduler e) (task_queue e) (graph_id g) g') ∧ (graph_id g ∉ _failed_graph_ids e) ∧
    ∀ k op, dict_get k (op_id_to_op e) = Some op → op_graph_id op ≠ graph_id g;
  sb_unique : ∀ g gid' g' k, g ∈ gs →
    known (scheduler e) (task_queue e) gid' g' ∨ (g' ∈ gs ∧ graph_id g' = gid') →
    is_Some (op_at g k) → is_Some (op_at g' k) → gid' = graph_id g;
}.

(** [awaited]: the tasks the workers have not reported. *)
Inductive engine_reach : list Z → TransferEngine → Prop :=
  | er_init m rows groups ids :
      zlen rows = 2048 → Forall (λ row, zlen row = m) rows →
      engine_reach [] (engine_init m rows groups ids)
  (* ops and graphs are made elsewhere in the process *)
  | er_ids awaited e ids :
      engine_reach awaited e → _next_op_id (op_ids e) <= _next_op_id ids → engine_reach awaited (with_op_ids ids e)
  | er_submit awaited e gs :
      engine_reach awaited e → submittable e gs → engine_reach awaited (submit_transfer_graph (inr gs) e).2
  | er_report awaited awaited' e t payload :
      engine_reach awaited e → awaited ≡ₚ t :: awaited' → report_id payload = t →
      engine_reach awaited' (with_finished (λ q, q ++ [payload]) e)
  | er_tick awaited e events e' :
      engine_reach awaited e → EvShutdown ∉ events → e' = (tick XXH64 cfg events e).2 →
      engine_reach (awaited ++ sent_ids (drop (length (sent e)) (sent e'))) e'
  | er_take awaited e :
      engine_reach awaited e → engine_reach awaited (get_completed_graphs_and_ops e).2.

(** ** The invariant of the runs *)

Hypothesis U_inj : ∀ a b, U a → U b → XXH64 a = XXH64 b → a = b.

Record run_ok (awaited : list Z) (e : TransferEngine) : Prop := {
  ro_inv : inv XXH64 U cfg [] (awaited ++ report_ids (finished_ops_queue e)) e;
  ro_clean : _dirty_graph_ids (scheduler e) = [];
  ro_drained : drained e;
}.

Lemma init_ok m rows groups ids :
  zlen rows = 2048 → Forall (λ row, zlen row = m) rows → run_ok [] (engine_init m rows groups ids).
Proof.
  intros Hr Hm. split; [|done|by intros gid ?%not_elem_of_empty]. split; simpl.
  - split; simpl; try done; try apply NoDup_nil_2.
    + intros t. split; [by intros ?%not_elem_of_nil|]. intros [?%not_elem_of_nil|(o & ? & _)]; done.
    + apply (pool_reach_owned XXH64 U U_inj [] (RingBuffer.init 2048 m rows)). by apply reach_init.
    + by intros k [?%not_elem_of_nil|?%not_elem_of_nil].
  - assert (∀ gid g, ¬ known Scheduler.init [] gid g) as Hn by (intros gid g [?|[?%not_elem_of_nil _]]; done).
    split; simpl; try done; try apply NoDup_nil_2.
    + apply scheduler_init_wf.
    + intros g ? ? ?%not_elem_of_nil. done.
    + intros gid g ?%Hn. done.
    + intros gid g k o ?%Hn. done.
    + intros gid g gid' g' k ?%Hn. done.
    + intros gid g k o ?%Hn. done.
    + intros gid k ?%not_elem_of_nil. done.
  - split; simpl; [by intros gid g ?%not_elem_of_empty|done|by intros p ?%not_elem_of_empty].
Qed.

Lemma submit_ok awaited e gs : run_ok awaited e → submittable e gs → run_ok awaited (submit_transfer_graph (inr gs) e).2.
Proof.
  intros [[Ht Hg Hf] Hc Hd] Hs. split; [|done|done]. split; simpl; [done| |].
  - assert (concat (task_queue e ++ [gs]) = concat (task_queue e) ++ gs) as Eq by (rewrite concat_app; simpl; by rewrite app_nil_r).
    assert (∀ gid g, known (scheduler e) (task_queue e ++ [gs]) gid g ↔
      known (scheduler e) (task_queue e) gid g ∨ (g ∈ gs ∧ graph_id g = gid)) as Hk.
    { intros gid g. unfold known. rewrite Eq, elem_of_app. naive_solver. }
    split; try apply Hg.
    + rewrite Eq, fmap_app. apply NoDup_app. split_and!; [apply Hg| |apply Hs].
      intros gid (g & -> & Hin)%list_elem_of_fmap (g' & E & Hin')%list_elem_of_fmap.
      apply (proj1 (sb_new _ _ Hs _ Hin') g). right. by rewrite E.
    + intros g. rewrite Eq. intros [Hin|Hin]%elem_of_app; [by apply (gr_fresh _ _ _ _ _ _ _ _ Hg)|].
      destruct (graph_at (scheduler e) (graph_id g)) as [g'|] eqn:E; [|done].
      destruct (proj1 (sb_new _ _ Hs _ Hin) g'). by left.
    + intros g k o. rewrite Eq. intros [Hin|Hin]%elem_of_app Ho; [by eapply (gr_unstarted _ _ _ _ _ _ _ _ Hg)|].
      by destruct (sb_op _ _ Hs _ _ _ Hin Ho) as (_ & ? & _).
    + intros gid g [Hkn|[Hin _]]%Hk; [by apply (gr_wf _ _ _ _ _ _ _ _ Hg gid)|]. split; [by apply Hs|].
      intros k o Ho _. by destruct (sb_op _ _ Hs _ _ _ Hin Ho) as (_ & ? & _).
    + intros gid g k o [Hkn|[Hin <-]]%Hk Ho; [by apply (gr_op _ _ _ _ _ _ _ _ Hg gid g)|].
      by destruct (sb_op _ _ Hs _ _ _ Hin Ho) as (? & _ & ? & ? & _).
    + intros gid g gid' g' k [Hkn|[Hin <-]]%Hk [Hkn'|[Hin' <-]]%Hk Ho Ho'.
      * by apply (gr_unique _ _ _ _ _ _ _ _ Hg gid g gid' g' k).
      * by apply (sb_unique _ _ Hs g' gid g k Hin'); [left|..].
      * symmetry. by apply (sb_unique _ _ Hs g gid' g' k Hin); [left|..].
      * symmetry. by apply (sb_unique _ _ Hs g (graph_id g') g' k Hin); [right|..].
    + intros gid g k o op [Hkn|[Hin <-]]%Hk Ho Hop; [by apply (gr_live _ _ _ _ _ _ _ _ Hg gid g k)|].
      destruct (sb_op _ _ Hs _ _ _ Hin Ho) as (_ & _ & _ & _ & Hno). congruence.
    + intros k op g Hop [Hkn|[Hin E]]%Hk; [by apply (gr_home _ _ _ _ _ _ _ _ Hg k op)|].
      by destruct (proj2 (proj2 (sb_new _ _ Hs _ Hin)) k op Hop).
    + intros gid g k o [Hkn|[Hin <-]]%Hk Ho Hv; [by apply (gr_status _ _ _ _ _ _ _ _ Hg gid g)|].
      destruct (sb_op _ _ Hs _ _ _ Hin Ho) as (_ & Hn & _ & _ & Hno). rewrite Hno.
      split; [done|]. intros [[? ?]|?%not_elem_of_nil]; done.
    + intros gid k ?%not_elem_of_nil. done.
  - split; [|apply (fl_live _ _ _ _ _ Hf)|apply (fl_parent _ _ _ _ _ Hf)].
    intros gid g Hin [Hg'|[Hin' E]]; [apply (fl_failed _ _ _ _ _ Hf gid g Hin); by left|].
    rewrite concat_app in Hin'. simpl in Hin'. rewrite app_nil_r in Hin'. apply elem_of_app in Hin' as [Hin'|Hin'].
    + apply (fl_failed _ _ _ _ _ Hf gid g Hin). by right.
    + destruct (proj1 (proj2 (sb_new _ _ Hs _ Hin'))). by rewrite E.
Qed.

Lemma ids_ok awaited e ids : run_ok awaited e → _next_op_id (op_ids e) <= _next_op_id ids → run_ok awaited (with_op_ids ids e).
Proof.
  intros [[Ht Hg Hf] Hc Hd] Hle. split; [|done|done]. split; simpl; [by eapply next_weaken| |done].
  split; try apply Hg. intros gid g k o Hk Ho. destruct (gr_op _ _ _ _ _ _ _ _ Hg _ _ _ _ Hk Ho) as (? & ? & ?). split_and!; [done|lia|done].
Qed.

Lemma engine_reach_ok awaited e : engine_reach awaited e → run_ok awaited e.
Proof.
  induction 1 as [m rows groups ids Hr Hm|aw e ids _ IH Hle|aw e gs _ IH Hs|aw aw' e t payload _ IH Hp Hid|aw e events e' _ IH Hev ->|aw e _ IH].
  - by apply init_ok.
  - by apply ids_ok.
  - by apply submit_ok.
  - destruct IH as [Hi Hc Hd]. split; [|done|done]. apply inv_finished. eapply inv_perm; [|exact Hi].
    simpl. unfold report_ids. rewrite fmap_app. simpl. rewrite Hid, Hp. simpl.
    rewrite app_assoc. apply Permutation_cons_append.
  - destruct IH as [Hi Hc Hd]. destruct (loop_body_ok XXH64 U U_inj cfg events aw e Hev Hi Hc) as (l & e' & E & Hs & Hi' & Hc' & Hd').
    unfold tick. rewrite E. simpl. rewrite Hs, drop_app_length. by split.
  - destruct IH as [[Ht Hg Hf] Hc Hd]. by split; [split|..].
Qed.
End runs.

(** ** A concrete engine *)

(** Two pipeline stages, each with its own GPU worker; one worker per other route. *)
Definition stage (k : Z) : WorkerKey := mkWorkerKey 0 k.
Definition toy_engine : EngineConfig :=
  {| _worker_map := [(D2H, PerKey [(stage 0, 1); (stage 1, 2)]); (H2DISK, Single 3); (H2REMOTE, Single 4); (DISK2H, Single 5)];
     _swa_worker_map := None; tokens_per_block := 16; token_size_in_bytes := 64; num_layers := 4;
     _num_layers_for_local_pp_stage := 2; enable_layerwise_transfer := false; has_layer_groups := false;
     h2d_workers := []; d2h_workers := [(stage 0, 1); (stage 1, 2)] |}.
Definition toy_start (next : Z) : TransferEngine :=
  engine_init 4 (replicate 2048 (replicate 4 0)) [stage 0; stage 1] (mkIds next 0).
Definition toy_submitted : TransferEngine := (submit_transfer_graph (inr [diamond]) (toy_start 5)).2.
Definition toy_collected : TransferEngine := (collect_graphs toy_submitted).2.
Definition toy_one : TransferEngine := (tick toy_digest toy_engine [EvNewGraph] toy_submitted).2.

Lemma toy_digest_inj a b : True → True → toy_digest a = toy_digest b → a = b.
Proof. intros _ _ Hab. apply (f_equal toy_undigest) in Hab. rewrite !toy_undigest_digest in Hab. congruence. Qed.

Lemma toy_start_reach : engine_reach toy_digest (λ _, True) toy_engine [] (toy_start 5).
Proof. apply er_init; [reflexivity|]. apply Forall_replicate. reflexivity. Qed.

Lemma toy_routable o :
  transfer_type o = D2H ∨ transfer_type o = H2DISK ∨ transfer_type o = H2REMOTE →
  is_swa o = false → layerwise o = None → dp_client_id o = 0 → zlen (src_block_ids o) = zlen (dst_block_ids o) →
  routable (λ _, True) toy_engine o.
Proof.
  intros Ht Hs Hl Hd Hz. split; [|done|done| |].
  - destruct Ht as [->|[->| ->]]; discriminate.
  - unfold resolved_worker. rewrite Hs. destruct Ht as [->|[->| ->]]; [|discriminate..]. rewrite Hd. simpl. split; [|discriminate].
    apply (bool_decide_unpack _). vm_compute. exact I.
  - rewrite Hl. destruct Ht as [->|[->| ->]]; discriminate.
Qed.

Lemma toy_submittable : submittable (λ _, True) toy_engine (toy_start 5) [diamond].
Proof.
  split.
  - apply NoDup_singleton.
  - intros g ->%list_elem_of_singleton. apply diamond_wf.
  - intros g k o ->%list_elem_of_singleton Ho. apply dict_get_Some_elem, list_elem_of_In in Ho. vm_compute in Ho.
    repeat match type of Ho with _ ∨ _ => destruct Ho as [Ho|Ho] end; [| | | |destruct Ho]; injection Ho as <- <-;
      (split; [unfold planned; split; [reflexivity|]; split; [reflexivity|]; split; [reflexivity|]; first [left; reflexivity|right; apply toy_routable; simpl; [tauto|reflexivity..]]|
               split; [discriminate|split; [reflexivity|split; [apply not_elem_of_nil|reflexivity]]]]).
  - intros g ->%list_elem_of_singleton. split; [|split; [apply not_elem_of_empty|discriminate]].
    intros g' [Hg|[Hin _]]; [discriminate Hg|by apply not_elem_of_nil in Hin].
  - intros g gid' g' k ->%list_elem_of_singleton [[Hg|[Hin _]]|[->%list_elem_of_singleton <-]]; [discriminate Hg|by apply not_elem_of_nil in Hin|done].
Qed.

Lemma toy_submitted_reach : engine_reach toy_digest (λ _, True) toy_engine [] toy_submitted.
Proof. apply er_submit; [exact toy_start_reach|exact toy_submittable]. Qed.

Lemma toy_reach : engine_reach toy_digest (λ _, True) toy_engine [5; 6] toy_one.
Proof.
  replace [5; 6] with ([] ++ sent_ids (drop (length (sent toy_submitted)) (sent toy_one))) by (vm_compute; reflexivity).
  apply (er_tick _ _ _ _ toy_submitted [EvNewGraph]); [exact toy_submitted_reach| |reflexivity].
  intros [?|?%not_elem_of_nil]%elem_of_cons; done.
Qed.

Lemma toy_one_inv : inv toy_digest (λ _, True) toy_engine [] [5; 6] toy_one.
Proof. exact (ro_inv _ _ _ _ _ (engine_reach_ok _ _ _ toy_digest_inj _ _ toy_reach)). Qed.

Lemma toy_collected_inv : inv toy_digest (λ _, True) toy_engine [] [] toy_collected.
Proof.
  pose proof (ro_inv _ _ _ _ _ (engine_reach_ok _ _ _ toy_digest_inj _ _ toy_submitted_reach)) as Hi.
  destruct (collect_graphs_ok _ _ _ _ _ _ Hi) as (e' & E & Hi' & _). unfold toy_collected. by rewrite E.
Qed.

(** The first op of the diamond, handed out and not yet dispatched. *)
Definition toy_handed : TransferEngine := with_scheduler (schedule [] (scheduler toy_collected)).2 toy_collected.

Lemma toy_dispatchable : dispatchable toy_digest (λ _, True) toy_engine [] [] (plain_op 1 D2H [7] [5]) toy_handed.
Proof.
  destruct (scheduled_inv _ _ _ _ _ _ toy_collected_inv) as (dn & N & s' & E & _ & _ & Hi).
  assert ((schedule [] (scheduler toy_collected)).1 = Ok (dn, N)) as Hv by by rewrite E.
  vm_compute in Hv. injection Hv as <- <-.
  split.
  - unfold toy_handed. rewrite E. exact Hi.
  - apply toy_routable; [by left|reflexivity..].
  - reflexivity.
  - destruct (graph_at (scheduler toy_handed) 0) as [g|] eqn:Hg; [|vm_compute in Hg; discriminate Hg].
    exists g. split; [exact Hg|]. vm_compute in Hg. injection Hg as <-. vm_compute. by eexists.
Qed.

(** ** Properties *)

Section properties.
Context `{!SetOrder} (XXH64 : list Z → Z) (U : list Z → Prop) (U_inj : ∀ a b, U a → U b → XXH64 a = XXH64 b → a = b).
Context (cfg : EngineConfig).

Lemma owed_task limbo out e k o :
  inv XXH64 U cfg limbo out e → dict_get k (op_id_to_op e) = Some o → ∃ t, t ∈ out ∧ owner e t = k.
Proof.
  intros [Ht _ _] Ho. pose proof (tk_count _ _ _ _ _ _ _ _ _ _ Ht _ _ Ho) as Hc.
  pose proof (tk_positive _ _ _ _ _ _ _ _ _ _ Ht _ _ Ho ltac:(done)) as Hp. destruct (here cfg o) eqn:Hh.
  - exists k. split; [apply (tk_out _ _ _ _ _ _ _ _ _ _ Ht); right; by exists o|]. unfold owner.
    destruct (dict_get k (_child_to_parent_op_id e)) as [p|] eqn:E; [|done].
    assert (k ∈ (_child_id_to_child e).*1) as Hk by (rewrite <- (tk_same _ _ _ _ _ _ _ _ _ _ Ht); by eapply dict_get_Some_key).
    by rewrite (tk_disjoint _ _ _ _ _ _ _ _ _ _ Ht _ Hk) in Ho.
  - unfold replicas in Hc. destruct (filter _ (_child_to_parent_op_id e)) as [|[c p] l] eqn:E; [unfold zlen in Hc; simpl in Hc; lia|].
    assert ((c, p) ∈ filter (λ kv : Z * Z, kv.2 = k) (_child_to_parent_op_id e)) as Hin by (rewrite E; left).
    apply list_elem_of_filter in Hin as [Hpk Hin]. simpl in Hpk. subst p.
    assert (dict_wf (_child_to_parent_op_id e)) as Hw by (unfold dict_wf; rewrite (tk_same _ _ _ _ _ _ _ _ _ _ Ht); apply Ht).
    pose proof (dict_elem_get _ _ _ Hw Hin) as Hget. exists c. split; [|unfold owner; by rewrite Hget].
    apply (tk_out _ _ _ _ _ _ _ _ _ _ Ht). left. rewrite <- (tk_same _ _ _ _ _ _ _ _ _ _ Ht). by eapply dict_get_Some_key.
Qed.

Lemma slot_of_task held s device ids pool :
  owned XXH64 U held pool → slot_handle s device ids ⊆ held → s ≠ -1 → slot_holds pool s ids.
Proof.
  intros Ho Hsub Hs. unfold slot_handle in Hsub. rewrite decide_False in Hsub by done.
  apply (own_held _ _ _ _ Ho s device ids). apply Hsub. left.
Qed.

(** [C2] The engine is safe in every run: no iteration of the loop raises, whatever the
    workers reported; the slot of every task in flight holds the block ids of that
    task, and the reference count of a slot is the number of tasks on it, so no
    slot is freed twice or reused while a worker may read it; and when no report is
    owed, nothing is left in any table and every slot is free.  It rests on the
    submitters' promise that op ids are unique, and on the slot digest having no
    collision on the ids in use. *)
Theorem engine_safety awaited e :
  engine_reach XXH64 U cfg awaited e →
  (∀ events, EvShutdown ∉ events → ∃ e', loop_body XXH64 cfg events e = (Ok false, e')) ∧
  (∀ o, o ∈ task_ops cfg (op_id_to_op e) (_child_id_to_child e) →
     (src_slot_id o ≠ -1 → slot_holds (pin_buffer e) (src_slot_id o) (src_block_ids o)) ∧
     (dst_slot_id o ≠ -1 → slot_holds (pin_buffer e) (dst_slot_id o) (dst_block_ids o))) ∧
  (∀ s, 0 <= s < max_op_num (pin_buffer e) →
     ref_of (pin_buffer e) s = holders (handles cfg (op_id_to_op e) (_child_id_to_child e)) s) ∧
  (awaited ++ report_ids (finished_ops_queue e) = [] →
     op_id_to_op e = [] ∧ _child_id_to_child e = [] ∧ _child_to_parent_op_id e = [] ∧ _failed_graph_ids e = ∅ ∧
     ∀ s, 0 <= s < max_op_num (pin_buffer e) → s ∈ free_slots (pin_buffer e)).
Proof.
  intros Hr. destruct (engine_reach_ok XXH64 U cfg U_inj _ _ Hr) as [Hi Hc Hd]. pose proof (iv_tasks _ _ _ _ _ _ Hi) as Ht.
  pose proof (tk_pool _ _ _ _ _ _ _ _ _ _ Ht) as Ho. split_and!.
  - intros events Hev. destruct (loop_body_ok XXH64 U U_inj cfg events awaited e Hev Hi Hc) as (l & e' & E & _). by exists e'.
  - intros o Hin. assert (op_handles o ⊆ handles cfg (op_id_to_op e) (_child_id_to_child e)) as Hsub.
    { intros h Hh. unfold handles. apply list_elem_of_bind. by exists o. }
    unfold op_handles in Hsub. split; intros Hs.
    + eapply slot_of_task; [exact Ho| |done]. etrans; [|exact Hsub]. apply list_subseteq_app_l. reflexivity.
    + eapply slot_of_task; [exact Ho| |done]. etrans; [|exact Hsub]. apply list_subseteq_app_r. reflexivity.
  - apply Ho.
  - intros Hnil. rewrite Hnil in Ht. destruct (tasks_idle _ _ _ _ _ _ _ _ Ht) as (E1 & E2 & E3 & E4). split_and!; try done.
    apply set_eq. intros gid. split; [|by intros ?%not_elem_of_empty]. intros (k & o & Hk & _)%Hd. by rewrite E1 in Hk.
Qed.

(** [C12] No graph is stuck: in every run, a graph of the scheduler whose edges are acyclic
    has an op in flight with a task whose report is owed by a worker or already queued,
    and so has every failed graph that was not reported, so each will be reported. *)
Theorem engine_progress awaited e :
  engine_reach XXH64 U cfg awaited e →
  (∀ gid g, graph_at (scheduler e) gid = Some g → acyclic g →
     ∃ t o, t ∈ awaited ++ report_ids (finished_ops_queue e) ∧ dict_get (owner e t) (op_id_to_op e) = Some o ∧
       op_graph_id o = gid ∧ 0 < pending_count o) ∧
  (∀ gid, gid ∈ _failed_graph_ids e →
     ∃ t o, t ∈ awaited ++ report_ids (finished_ops_queue e) ∧ dict_get (owner e t) (op_id_to_op e) = Some o ∧
       op_graph_id o = gid ∧ 0 < pending_count o).
Proof.
  intros Hr. destruct (engine_reach_ok XXH64 U cfg U_inj _ _ Hr) as [Hi Hc Hd]. destruct (Hi) as [Ht Hg Hf].
  assert (∀ k o, dict_get k (op_id_to_op e) = Some o →
    ∃ t o', t ∈ awaited ++ report_ids (finished_ops_queue e) ∧ dict_get (owner e t) (op_id_to_op e) = Some o' ∧
      op_graph_id o' = op_graph_id o ∧ 0 < pending_count o') as Howed.
  { intros k o Ho. destruct (owed_task _ _ _ _ _ Hi Ho) as (t & Hin & Hk). exists t, o. rewrite Hk. split_and!; try done.
    by apply (tk_positive _ _ _ _ _ _ _ _ _ _ Ht k). }
  split.
  - intros gid g Hgr Hac. pose proof (gr_sched _ _ _ _ _ _ _ _ Hg) as Hs.
    destruct (sw_graph _ Hs _ _ Hgr) as (Hwf & _ & Hnv).
    destruct (sw_settled _ Hs _ _ Hgr) as [Hset Hall]; [by rewrite Hc|].
    assert (∃ k o, op_at g k = Some o ∧ op_status o ≠ COMPLETED) as (k & o & Ho & Hn).
    { unfold all_transfer_ops_completed in Hall.
      destruct (decide (Forall (λ kv : Z * TransferOp, op_status kv.2 = COMPLETED) (_op_map g))) as [HF|HF].
      - apply not_true_iff_false in Hall. destruct Hall. apply forallb_forall. intros kv Hin.
        apply bool_decide_eq_true. eapply Forall_forall in HF; [done|]. by apply list_elem_of_In.
      - apply not_Forall_Exists, Exists_exists in HF as ([k o] & Hin & Hn); [|apply _].
        exists k, o. split; [|done]. apply dict_elem_get; [apply Hwf|done]. }
    destruct (progress_lemma g k o Hwf Hac Ho Hn) as (j & [He|(oj & Hj & Hrun)]); [by destruct (Hset j)|].
    assert (known (scheduler e) (task_queue e) gid g) as Hk by by left.
    assert (transfer_type oj ≠ VIRTUAL) as Hv by (intros Hv; by apply (Hnv _ _ Hj Hv)).
    apply (gr_status _ _ _ _ _ _ _ _ Hg _ _ _ _ Hk Hj Hv) in Hrun as [[op Hop]|Hin]; [|by apply not_elem_of_nil in Hin].
    destruct (gr_live _ _ _ _ _ _ _ _ Hg _ _ _ _ _ Hk Hj Hop) as [<- _]. by eapply Howed.
  - intros gid (k & o & Ho & <-)%Hd. by eapply Howed.
Qed.

(** [C13] What one worker report does.  It takes one from the counter of its op and merges the
    block results: a block has succeeded so far when it had before and the report, with one bit per
    block, says so; a failure or a report without results leaves the results alone, and nothing
    else of the op changes.  The last report of an op completes it, with a message to the upper
    layer that carries the merged results and a reference for the scheduler, exactly when every one of its tasks
    succeeded; otherwise it only removes the op, and its successors never run.  A
    failure also drops the op's graph from the scheduler and marks it for a report.
    (Layerwise ops carry no block ids of their own: their results are not stated.) *)
Theorem report_spec limbo out out' payload t ok results e :
  inv XXH64 U cfg limbo out e → out ≡ₚ t :: out' → read_payload payload = (t, ok, results) →
  let p := owner e t in
  ∃ o o' e', dict_get p (op_id_to_op e) = Some o ∧
    o' = op_with_pending (op_with_results o (block_results o')) (pending_count o - 1) ∧
    (transfer_type o ≠ LAYERWISE → merged o (if ok then results else None) (block_results o')) ∧
    let last := bool_decide (pending_count o = 1) in
    let good := ok && bool_decide (p ∉ _failed_parent_op_ids e) in
    let c := op_completed cfg o' in
    co_op_id c = p ∧ co_graph_id c = op_graph_id o ∧ co_block_results c = block_results o' ∧ co_failed c = false ∧
    handle_payload cfg limbo payload e = (Ok (limbo ++ if last && good then [(op_graph_id o, p)] else []), e') ∧
    inv XXH64 U cfg (limbo ++ if last && good then [(op_graph_id o, p)] else []) out' e' ∧
    op_id_to_op e' = (if last then dict_pop p (op_id_to_op e) else dict_set p o' (op_id_to_op e)) ∧
    completed_queue e' = completed_queue e ++ (if last && good then [c] else []) ∧
    scheduler e' = (if ok then scheduler e else fail_graph (op_graph_id o) (scheduler e)) ∧
    _failed_graph_ids e' = (if ok then _failed_graph_ids e else {[op_graph_id o]} ∪ _failed_graph_ids e) ∧
    (last = false → _failed_parent_op_ids e' = if ok then _failed_parent_op_ids e else {[p]} ∪ _failed_parent_op_ids e) ∧
    sent e' = sent e ∧ finished_ops_queue e' = finished_ops_queue e.
Proof.
  intros Hi Hp Hread. destruct (handle_payload_run XXH64 U cfg limbo _ _ payload t ok results e limbo Hi Hp Hread)
    as (o & kids' & par' & pool' & Ho & Hid & Hkid & E & Htasks).
  set (o' := settled (report_results e t ok results) o).
  exists o, o', (reported cfg e t o ok results kids' par' pool'). split; [done|].
  split; [by apply settled_eta|]. split; [by apply (report_merged XXH64 U cfg limbo out); [|rewrite Hp; left|]|].
  split; [cbn; rewrite <- Hid; by apply (settled_facts cfg)|]. split; [by apply (settled_facts cfg)|]. split; [done|]. split; [done|].
  split; [exact E|]. split; [by apply (report_inv XXH64 U cfg limbo out out' t e o ok results kids' par' pool')|].
  unfold reported. destruct ok; simpl; [|rewrite andb_false_r]; split_and!; try done; by intros ->.
Qed.

(** [C25] Dispatching an op sends one task to every worker that must take part (the worker of
    its route, or one per pipeline stage of its DP slice) and sets its counter to their
    number; nothing is reported, and the invariant holds with the new tasks owed. *)
Theorem dispatch_spec limbo out o e :
  dispatchable XXH64 U cfg limbo out o e →
  ∃ l e' o', dispatch XXH64 cfg o e = (Ok tt, e') ∧ sent e' = sent e ++ l ∧ l.*1 = op_workers cfg o ∧
    dict_get (op_id o) (op_id_to_op e') = Some o' ∧ pending_count o' = zlen l ∧ 0 < zlen l ∧
    completed_queue e' = completed_queue e ∧ inv XXH64 U cfg limbo (out ++ sent_ids l) e'.
Proof.
  intros Hd. destruct (dispatch_ok XXH64 U U_inj cfg _ _ _ _ Hd) as (l & e' & o' & E & Hs & El & Hi & _ & Hc & Ho' & Hp).
  exists l, e', o'. split_and!; try done. rewrite <- Hp.
  by apply (tk_positive _ _ _ _ _ _ _ _ _ _ (iv_tasks _ _ _ _ _ _ Hi) (op_id o)).
Qed.

(** [C26] Graph completion is reported only when it is true: the messages of one scheduling step
    are those of the virtual ops handed out and one per completed graph; such a
    graph leaves the scheduler, and no op of it is in flight afterwards. *)
Theorem graph_completion_spec limbo out e :
  inv XXH64 U cfg limbo out e →
  ∃ dn N e', schedule_next XXH64 cfg limbo e = (Ok tt, e') ∧
    completed_queue e' = completed_queue e ++ ((λ ref, completed_op ref.1 ref.2) <$> virtual_refs (scheduler e) N) ++
      (completed_graph <$> dn) ∧
    (∀ gid, gid ∈ dn → is_Some (graph_at (scheduler e) gid) ∧ graph_at (scheduler e') gid = None ∧
       ∀ k o, dict_get k (op_id_to_op e') = Some o → op_graph_id o ≠ gid) ∧
    (∀ gid g, graph_at (scheduler e) gid = Some g → gid ∉ dn → is_Some (graph_at (scheduler e') gid)).
Proof.
  intros Hi. destruct (schedule_next_ok XXH64 U U_inj cfg _ _ _ Hi) as (dn & N & l & e' & E & Hsch & _ & Hi' & _ & _ & Hfl & Hc).
  exists dn, N, e'. split; [done|]. split; [done|]. split.
  - intros gid Hin. destruct (se_done _ _ _ _ _ Hsch _ Hin) as [[g Hg] Hn]. split; [by eexists|]. split; [done|].
    intros k o Ho Hgid. destruct (fl_live _ _ _ _ _ (iv_fails _ _ _ _ _ _ Hi') k o Ho) as [[g' Hg']|Hf].
    + rewrite Hgid in Hg'. congruence.
    + rewrite Hfl, Hgid in Hf. apply (fl_failed _ _ _ _ _ (iv_fails _ _ _ _ _ _ Hi) gid g Hf). by left.
  - intros gid g Hg Hn. by destruct (se_kept _ _ _ _ _ Hsch _ _ Hg).
Qed.

(** [C24] A failed graph is reported once, and only when it has drained: the step reports, in
    some order and each once, exactly the failed graphs with no op in flight, takes
    them off the list, and keeps the others for later. *)
Theorem failed_graph_spec e :
  dict_wf (op_id_to_op e) →
  ∃ gone e', _emit_drained_graph_failures e = (Ok tt, e') ∧ NoDup gone ∧
    completed_queue e' = completed_queue e ++ (failed_graph <$> gone) ∧
    (∀ gid, gid ∈ gone ↔ gid ∈ _failed_graph_ids e ∧ ∀ k o, dict_get k (op_id_to_op e) = Some o → op_graph_id o ≠ gid) ∧
    (∀ gid, gid ∈ _failed_graph_ids e' ↔ gid ∈ _failed_graph_ids e ∧ gid ∉ gone) ∧
    op_id_to_op e' = op_id_to_op e ∧ scheduler e' = scheduler e.
Proof.
  intros Hw. exists (drained_graphs e). eexists. split; [apply emit_run|].
  split; [unfold drained_graphs; apply NoDup_filter; rewrite set_order_perm; apply NoDup_elements|]. split; [done|].
  split; [|split; [|done]].
  - intros gid. unfold drained_graphs. rewrite list_elem_of_filter, set_order_perm, elem_of_elements, graph_live_false by done. naive_solver.
  - intros gid. simpl. rewrite elem_of_difference, elem_of_list_to_set. done.
Qed.
End properties.

(** ** Witnesses *)

Lemma engine_safety_witness :
  engine_reach toy_digest (λ _, True) toy_engine [5; 6] toy_one ∧
  (∃ e', loop_body toy_digest toy_engine [EvFinishedOp] toy_one = (Ok false, e')) ∧
  ref_of (pin_buffer toy_one) 0 = 2.
Proof.
  split; [exact toy_reach|].
  destruct (engine_safety toy_digest (λ _, True) toy_digest_inj toy_engine [5; 6] toy_one toy_reach) as (H1 & _ & H2 & _).
  split; [apply H1; intros [?|?%not_elem_of_nil]%elem_of_cons; done|].
  rewrite H2 by (vm_compute; split; [discriminate|reflexivity]). vm_compute. reflexivity.
Defined.

Lemma engine_progress_witness :
  engine_reach toy_digest (λ _, True) toy_engine [5; 6] toy_one ∧
  ∃ t o, t ∈ [5; 6] ++ report_ids (finished_ops_queue toy_one) ∧
    dict_get (owner toy_one t) (op_id_to_op toy_one) = Some o ∧ op_graph_id o = 0 ∧ 0 < pending_count o.
Proof.
  split; [exact toy_reach|].
  destruct (engine_progress toy_digest (λ _, True) toy_digest_inj toy_engine [5; 6] toy_one toy_reach) as (H1 & _).
  destruct (graph_at (scheduler toy_one) 0) as [g|] eqn:Hg; [|vm_compute in Hg; discriminate Hg].
  apply (H1 0 g Hg). exists Z.to_nat. vm_compute in Hg. injection Hg as <-. intros k o t Ho Ht.
  apply dict_get_Some_elem in Ho. apply list_elem_of_In in Ho. vm_compute in Ho.
  repeat match type of Ho with _ ∨ _ => destruct Ho as [Ho|Ho] end; [| | | |destruct Ho];
    injection Ho as <- <-; apply elem_of_elements, list_elem_of_In in Ht; vm_compute in Ht;
    repeat match type of Ht with _ ∨ _ => destruct Ht as [Ht|Ht] end; subst; try destruct Ht;
    apply Nat.ltb_lt; vm_compute; reflexivity.
Defined.

(** The first of two stages reports that its block moved: one is left, nothing is completed,
    and the op remembers the result. *)
Lemma report_spec_witness :
  inv toy_digest (λ _, True) toy_engine [] [5; 6] toy_one ∧
  ∃ o' e', handle_payload toy_engine [] (PTuple (inr (mkWorkerTransferResult 5 (Some [true]))) true) toy_one = (Ok [], e') ∧
    completed_queue e' = [] ∧ inv toy_digest (λ _, True) toy_engine [] [6] e' ∧
    dict_get 1 (op_id_to_op e') = Some o' ∧ ∃ l, block_results o' = Some l ∧ l !! 0%nat = Some true.
Proof.
  split; [exact toy_one_inv|].
  destruct (report_spec toy_digest (λ _, True) toy_engine [] [5; 6] [6] (PTuple (inr (mkWorkerTransferResult 5 (Some [true]))) true)
    5 true (Some [true]) toy_one toy_one_inv (Permutation_refl _) eq_refl)
    as (o & o' & e' & Ho & _ & Hm & _ & _ & _ & _ & E & Hi & Hops & Hc & _).
  exists o', e'. vm_compute in Ho. injection Ho as <-.
  split; [exact E|]. split; [rewrite Hc; vm_compute; reflexivity|]. split; [exact Hi|]. split; [rewrite Hops; apply dict_get_set_eq|].
  destruct (Hm ltac:(discriminate)) as (l & El & Hl & _). exists l. split; [exact El|]. apply Hl.
  split; [discriminate|]. split; reflexivity.
Defined.

Lemma dispatch_spec_witness :
  dispatchable toy_digest (λ _, True) toy_engine [] [] (plain_op 1 D2H [7] [5]) toy_handed ∧
  ∃ l e', dispatch toy_digest toy_engine (plain_op 1 D2H [7] [5]) toy_handed = (Ok tt, e') ∧ l.*1 = [1; 2] ∧
    sent e' = sent toy_handed ++ l.
Proof.
  split; [exact toy_dispatchable|].
  destruct (dispatch_spec toy_digest (λ _, True) toy_digest_inj toy_engine [] [] _ _ toy_dispatchable)
    as (l & e' & o' & E & Hs & Hl & _).
  exists l, e'. split; [exact E|]. split; [exact Hl|exact Hs].
Defined.

Lemma graph_completion_spec_witness :
  inv toy_digest (λ _, True) toy_engine [] [] toy_collected ∧
  ∃ e', schedule_next toy_digest toy_engine [] toy_collected = (Ok tt, e') ∧ is_Some (graph_at (scheduler e') 0).
Proof.
  split; [exact toy_collected_inv|].
  destruct (graph_completion_spec toy_digest (λ _, True) toy_digest_inj toy_engine [] [] toy_collected toy_collected_inv)
    as (dn & N & e' & E & _ & Hdn & Hk).
  exists e'. split; [exact E|].
  destruct (graph_at (scheduler toy_collected) 0) as [g|] eqn:Hg; [|vm_compute in Hg; discriminate Hg].
  apply (Hk 0 g Hg). intros Hin. destruct (Hdn 0 Hin) as (_ & Hn & _).
  assert (graph_at (scheduler (schedule_next toy_digest toy_engine [] toy_collected).2) 0 = None) as Hv by (rewrite E; exact Hn).
  vm_compute in Hv. discriminate Hv.
Defined.

Lemma failed_graph_spec_witness :
  dict_wf (op_id_to_op (with_failed_graphs (λ _, {[9]}) (toy_start 5))) ∧
  ∃ e', _emit_drained_graph_failures (with_failed_graphs (λ _, {[9]}) (toy_start 5)) = (Ok tt, e') ∧
    completed_queue e' = [failed_graph 9].
Proof.
  assert (dict_wf (op_id_to_op (with_failed_graphs (λ _, {[9]}) (toy_start 5)))) as Hw by apply NoDup_nil_2.
  split; [exact Hw|].
  destruct (failed_graph_spec _ Hw) as (gone & e' & E & _). exists e'. split; [exact E|].
  assert (completed_queue (_emit_drained_graph_failures (with_failed_graphs (λ _, {[9]}) (toy_start 5))).2 = completed_queue e') as <- by by rewrite E.
  vm_compute. reflexivity.
Defined.

(** ** What the promises are needed for *)

Definition single_op_graph (gid k : Z) (t : TransferType) (src dst : list Z) : TransferOpGraph :=
  add_transfer_op (op_with_graph (plain_op k t src dst) gid t) (mkGraph gid [] ∅ ∅ [] []).

(** Op ids that are not drawn from this engine's own counter, as when the engine runs in a
    process of its own and its counter starts at 0 while the ops of the graphs were
    numbered in the submitting process.  Op 0 copies GPU blocks through two stages
    (replicas 0 and 1), op 1 reads a disk block.  The disk worker reports op 1 and the
    first stage reports its replica 0. *)
Definition own_counter : TransferEngine :=
  let e := (submit_transfer_graph (inr [single_op_graph 0 0 D2H [7] [5]; single_op_graph 1 1 DISK2H [9] [6]]) (toy_start 0)).2 in
  with_finished (λ _, [PTuple (inl 1) true; PTuple (inl 0) true]) (tick toy_digest toy_engine [EvNewGraph] e).2.

(** The GPU copy and its graph are reported complete while the second stage is still
    copying, the slots it reads are free, and the disk read that did finish is not. *)
Example own_counter_completes_early :
  let e := (tick toy_digest toy_engine [EvFinishedOp] own_counter).2 in
  (λ x : Z * WorkerMessage, (x.1, message_op_id x.2)) <$> sent e = [(1, 0); (2, 1); (5, 1)] ∧
  to_tuple <$> completed_queue e = [(0, 0); (0, -1)] ∧
  (op_id_to_op e).*1 = [1] ∧ ref_of (pin_buffer e) 0 = 0.
Proof. vm_compute. done. Qed.

(** An op no worker serves raises out of the dispatch loop: the ops handed out after it in the
    same call are never sent although the scheduler counts them as running, their
    graph is clean, and neither graph is ever reported. *)
Definition unrouted : TransferEngine :=
  (tick toy_digest toy_engine [EvNewGraph]
    (submit_transfer_graph (inr [single_op_graph 0 0 PEERH2H [7] [5]; single_op_graph 1 1 DISK2H [9] [6]]) (toy_start 5)).2).2.

Example unrouted_op_strands_others :
  sent unrouted = [] ∧ completed_queue unrouted = [] ∧ (op_id_to_op unrouted).*1 = [0] ∧
  _dirty_graph_ids (scheduler unrouted) = [] ∧
  (λ kv : Z * TransferOpGraph, (kv.1, (λ o : Z * TransferOp, op_status o.2) <$> _op_map kv.2)) <$> _transfer_graphs (scheduler unrouted) =
    [(0, [RUNNING]); (1, [RUNNING])] ∧
  tick toy_digest toy_engine [EvNewGraph; EvFinishedOp] unrouted = (false, unrouted).
Proof. vm_compute. done. Qed.
End EngineRuns.
