(* ===== verification/Deferred.v ===== *)
(** * Deferred: blocks that enter the index after their transfer

    Models the deferred insertion of [flexkv/cache/cache_engine.py]: the classes
    [MooncakeLoadResult], [DeferredPublishResult] and [DeferredCacheInsert],
    [GlobalCacheEngine._commit_deferred_insert] with its helpers, and
    [_transfer_callback] and [_abort_transfer_plan] of a plan that has some.

    A load result is shared: the callback of the REMOTE2H op fills it, and the CPU
    and the SSD insertion of one plan read it.  A publish result is read by the
    task manager.  Both are entries of the store [Outcomes], named by numbers. *)

From S2P Require Import Prelude PyFloat Block Transfer Mempool SWAHostPool RadixTree CacheEngine GlobalCache.
Import RadixTree.RadixTree CacheEngine.CacheEngine GlobalCache.GlobalCache.
Local Open Scope Z_scope.
Local Open Scope py_scope.

Module Deferred.

(** ** Outcomes of a load and of a publication *)

Record MooncakeLoadResult : Type := mkLoadResult { block_results : option (list bool) }.

Definition load_record (completed_op : option CompletedOp) (r : MooncakeLoadResult) : MooncakeLoadResult :=
  mkLoadResult (completed_op ≫= co_block_results).

Fixpoint leading (results : list bool) : Z :=
  match results with true :: results => 1 + leading results | _ => 0 end.

Definition successful_prefix (expected_blocks : Z) (r : MooncakeLoadResult) : Z :=
  match block_results r with
  | None => 0
  | Some results => if negb (zlen results =? expected_blocks) then 0 else leading results
  end.

Record DeferredPublishResult : Type := mkPublishResult {
  published_remote_blocks : option Z;
  failed : bool;
  reason : string;
}.
Definition unpublished : DeferredPublishResult := mkPublishResult None false "".

Definition publish_record (blocks : Z) (reason : string) (failed : bool) (r : DeferredPublishResult) : DeferredPublishResult :=
  mkPublishResult (Some blocks) failed reason.
Definition record_failure (reason : string) : DeferredPublishResult → DeferredPublishResult := publish_record 0 reason true.

(** The objects, by number. *)
Record Outcomes : Type := mkOutcomes {
  loads : gmap nat MooncakeLoadResult;
  publications : gmap nat DeferredPublishResult;
}.

Record DeferredCacheInsert : Type := mkDeferred {
  di_device_type : DeviceType;
  di_sequence_meta : SequenceMeta;
  physical_blocks : list Z;
  staged_start_block : Z;
  remote_start_block : Z;
  requested_end_block : Z;
  load_result : option nat;
  swa_slot : Z;
  publish_to_peer : bool;
  swa_anchor_block : Z;
  swa_load_result : option nat;
  publish_result : option nat;
}.

(** [replace(pending, swa_slot=-1)] *)
Definition without_swa (p : DeferredCacheInsert) : DeferredCacheInsert :=
  mkDeferred (di_device_type p) (di_sequence_meta p) (physical_blocks p) (staged_start_block p) (remote_start_block p)
    (requested_end_block p) (load_result p) (-1) (publish_to_peer p) (swa_anchor_block p) (swa_load_result p) (publish_result p).

(** ** On one tier *)

Abbreviation Commit := (M (CacheEngine * Outcomes)).

Definition on_tier {A} (m : Engine A) : Commit A := λ s, let '(r, e) := m s.1 in (r, (e, s.2)).

Definition update_publication (f : DeferredPublishResult → DeferredPublishResult) (k : nat) (o : Outcomes) : Outcomes :=
  mkOutcomes (loads o) (alter f k (publications o)).

Definition load_of (o : Outcomes) (k : nat) : MooncakeLoadResult := default (mkLoadResult None) (loads o !! k).

(** The matched node when the match ends on its last block. *)
Definition _matched_boundary_node (current_match : MatchResult) (matched_blocks : Z) (e : CacheEngine) : option nid :=
  if negb (Z.of_nat (num_matched_blocks current_match) =? matched_blocks) then None
  else
    match last_node current_match with
    | None => None
    | Some n => if (last_node_matched_length current_match =? node_size (nd (index e) n))%nat then Some n else None
    end.

Definition _release_pending_swa_slot (p : DeferredCacheInsert) : Engine unit :=
  if 0 <=? swa_slot p then _free_swa_slot (swa_slot p) else mret tt.

Definition _discard_deferred_insert (p : DeferredCacheInsert) (blocks : list Z) : Engine unit :=
  recycle blocks ;; _release_pending_swa_slot p.

(** [reason] and the block where publication ended. *)
Definition _record_deferred_publish (p : DeferredCacheInsert) (published_end_block : Z) (reason : string) (failed : bool) : Commit unit :=
  match publish_result p with
  | None => mret tt
  | Some k =>
      modify_state (λ s, (s.1, update_publication (publish_record (Z.max 0 (published_end_block - remote_start_block p)) reason failed) k s.2))
  end.

(** The end of what was loaded: everything without a load result, the successful prefix with one. *)
Definition publish_end (o : Outcomes) (p : DeferredCacheInsert) : Z :=
  match load_result p with
  | None => requested_end_block p
  | Some k => remote_start_block p + successful_prefix (requested_end_block p - remote_start_block p) (load_of o k)
  end.

(** The SWA load reported success. *)
Definition swa_loaded (o : Outcomes) (p : DeferredCacheInsert) : bool :=
  match swa_load_result p ≫= block_results ∘ load_of o with
  | None => false
  | Some results => (0 <? zlen results) && forallb id results
  end.

Definition joint_ok (o : Outcomes) (p : DeferredCacheInsert) : bool :=
  (swa_anchor_block p + 1 <=? publish_end o p) && swa_loaded o p.

(** [raise ... startswith("radix insert conflict:")] *)
Definition is_conflict (x : exn) : bool :=
  match x with RuntimeError msg => String.prefix "radix insert conflict:" msg | _ => false end.

(** [m except Exception: h; raise] with a test that turns some exceptions into an answer. *)
Definition catch {A} (test : exn → bool) (m : Commit A) (answer : Commit A) (h : Commit unit) : Commit A := λ s,
  match m s with
  | (Ok a, s) => (Ok a, s)
  | (Raise x, s) => if test x then answer s else on_exception (raise x) h s
  end.

Section commit.
Context (XXH64 : list Z → Z) (clock : nat → float).

Definition _publish_pending_swa_slot (p : DeferredCacheInsert) (node : option nid) : Engine unit :=
  if swa_slot p <? 0 then mret tt
  else
    e ← get_state;
    match node with
    | None => _free_swa_slot (swa_slot p)
    | Some n =>
        if has_swa (nd (index e) n) then _free_swa_slot (swa_slot p)
        else on_index (set_swa clock n (swa_slot p)) ;; _drain_unmounted_swa_slots
    end.

(** The tree covers what was loaded: the staged copies are redundant. *)
Definition commit_covered (p : DeferredCacheInsert) (publish_end : Z) (r : MatchResult) : Commit (option nid) :=
  on_tier (recycle (physical_blocks p)) ;;
  boundary_node ← gets (λ s, _matched_boundary_node r (requested_end_block p) s.1);
  (if 0 <=? swa_slot p then
     if negb (is_not_None boundary_node) || negb (publish_end =? requested_end_block p) then on_tier (_release_pending_swa_slot p)
     else on_tier (_publish_pending_swa_slot p boundary_node)
   else mret tt) ;;
  _record_deferred_publish p publish_end "already_covered" false ;;
  mret boundary_node.

(** After the insertion: the rest goes back, the node becomes ready, the slot is mounted. *)
Definition commit_inserted (p : DeferredCacheInsert) (publish_end : Z) (unused_blocks : list Z) (inserted : Z) (n : nid) : Commit (option nid) :=
  (if 0 <? zlen unused_blocks then on_tier (recycle unused_blocks) else mret tt) ;;
  on_exception (on_tier (CacheEngine.set_ready n true inserted))
    (on_tier (_release_pending_swa_slot p) ;; _record_deferred_publish p (remote_start_block p) "set_ready_error" true) ;;
  (if 0 <=? swa_slot p then
     if publish_end =? requested_end_block p then on_tier (_publish_pending_swa_slot p (Some n)) else on_tier (_release_pending_swa_slot p)
   else mret tt) ;;
  (* a [CacheEngine] has no [local_index] *)
  (if publish_to_peer p then raise AttributeError else mret tt) ;;
  _record_deferred_publish p publish_end "ok" false ;;
  mret (Some n).

Definition commit_insert (p : DeferredCacheInsert) (publish_end : Z) (r : MatchResult) : Commit (option nid) :=
  let skipped_blocks := Z.of_nat (num_matched_blocks r) - staged_start_block p in
  let successful_staged_blocks := publish_end - staged_start_block p in
  let blocks_to_insert := (physical_blocks p).[skipped_blocks : successful_staged_blocks] in
  let refused reason := on_tier (_discard_deferred_insert p (physical_blocks p)) ;;
                        _record_deferred_publish p (remote_start_block p) reason false in
  node ← catch is_conflict
           (n ← on_tier (insert XXH64 clock (di_sequence_meta p) blocks_to_insert publish_end false (Some r)); mret (Some n))
           (refused "insert_conflict" ;; mret None)
           (on_tier (_release_pending_swa_slot p) ;; _record_deferred_publish p (remote_start_block p) "insert_error" true);
  match node with
  | None => mret None
  | Some None => refused "insert_none" ;; mret None
  | Some (Some n) =>
      commit_inserted p publish_end
        ((physical_blocks p).[: skipped_blocks] ++ (physical_blocks p).[successful_staged_blocks :]) (zlen blocks_to_insert) n
  end.

(** The joint guard: a slot whose snapshot does not go with the published blocks is freed. *)
Definition guard_swa (p : DeferredCacheInsert) : Commit DeferredCacheInsert :=
  o ← gets snd;
  if (0 <=? swa_slot p) && (0 <=? swa_anchor_block p) && negb (joint_ok o p)
  then on_tier (_free_swa_slot (swa_slot p)) ;; mret (without_swa p)
  else mret p.

Definition rematch (p : DeferredCacheInsert) : Commit MatchResult :=
  on_exception (on_tier (match_ XXH64 clock (di_sequence_meta p)))
    (on_tier (_discard_deferred_insert p (physical_blocks p)) ;; _record_deferred_publish p (remote_start_block p) "rematch_error" true).

Definition range_ok (p : DeferredCacheInsert) : bool :=
  (requested_end_block p - staged_start_block p =? zlen (physical_blocks p)) &&
  (staged_start_block p <=? remote_start_block p) && (remote_start_block p <=? requested_end_block p).

Definition _commit_deferred_insert (p : DeferredCacheInsert) : Commit (option nid) :=
  if negb (range_ok p) then
    on_tier (_discard_deferred_insert p (physical_blocks p)) ;;
    _record_deferred_publish p (remote_start_block p) "invalid_range" true ;;
    mret None
  else
    o ← gets snd;
    let publish_end := publish_end o p in
    p ← guard_swa p;
    r ← rematch p;
    let current_blocks := Z.of_nat (num_matched_blocks r) in
    let ready_blocks := Z.of_nat (num_ready_matched_blocks r) in
    if negb (current_blocks =? ready_blocks) || (current_blocks <? staged_start_block p) then
      on_tier (_discard_deferred_insert p (physical_blocks p)) ;;
      _record_deferred_publish p (remote_start_block p) "rematch_stale" false ;;
      mret None
    else if publish_end <=? current_blocks then commit_covered p publish_end r
    else if publish_end - staged_start_block p <=? 0 then
      on_tier (_discard_deferred_insert p (physical_blocks p)) ;;
      _record_deferred_publish p (remote_start_block p) "zero_prefix" false ;;
      mret None
    else commit_insert p publish_end r.

(** ** On all tiers *)

Abbreviation Deferring := (M (GlobalCacheEngine * Outcomes)).

Definition on_globals {A} (m : Global A) : Deferring A := λ s, let '(r, g) := m s.1 in (r, (g, s.2)).

(** [self.cache_engines[pending.device_type]] *)
Definition commit_on (p : DeferredCacheInsert) : Deferring (option nid) := λ s,
  match engine_of (di_device_type p) s.1 with
  | None => (Raise KeyError, s)
  | Some e => let '(r, (e', o)) := _commit_deferred_insert p (e, s.2) in (r, (with_engine (di_device_type p) e' s.1, o))
  end.

(** One pending insertion of a finished graph; no exception leaves it. *)
Definition commit_one (p : DeferredCacheInsert) : Deferring unit := λ s,
  match commit_on p s with
  | (Ok _, s) => (Ok tt, s)
  | (Raise _, (g, o)) =>
      (Ok tt, (g, match publish_result p with
                  | Some k => if is_not_None (publications o !! k ≫= published_remote_blocks) then o
                              else update_publication (record_failure "callback_error") k o
                  | None => o
                  end))
  end.

Definition _transfer_callback (node_to_unlock : NodeMap) (buffer_to_free : list (DeviceType * list Z))
    (deferred_inserts : list DeferredCacheInsert) : Deferring unit :=
  try_finally (for_each commit_one deferred_inserts) (on_globals (GlobalCache._transfer_callback node_to_unlock buffer_to_free)).

Definition discard_one (p : DeferredCacheInsert) : Global unit :=
  cache_engines (di_device_type p) (_discard_deferred_insert p (physical_blocks p)).

Definition _abort_transfer_plan (node_to_unlock : NodeMap) (buffer_to_free : list (DeviceType * list Z))
    (deferred_inserts : list DeferredCacheInsert) (swa_reservation : option SWAReadReservation)
    (swa_slots_to_free : list (DeviceType * Z)) : Global unit :=
  for_each abort_node node_to_unlock ;;
  for_each abort_buffer buffer_to_free ;;
  for_each discard_one deferred_inserts ;;
  _release_swa_read_reservation swa_reservation ;;
  for_each abort_slot swa_slots_to_free.
End commit.
End Deferred.
