(* ===== verification/DeferredCommit.v ===== *)
(** * What a deferred insertion publishes

    Proofs about [_commit_deferred_insert] ([Deferred]): it never fails, accounts
    for every staged block and for the SWA slot, makes a run of loaded blocks
    readable and nothing else, and reports what a later match will find. *)

From S2P Require Import Prelude PyFloat Block Transfer Mempool SWAHostPool RadixTree RadixCore RadixLeaf RadixWf RadixMatch RadixInsert RadixDetach RadixEvict RadixReady RadixSpec CacheEngine GlobalCache GlobalPlan PlanTier Deferred.
Import RadixTree.RadixTree RadixWf.RadixWf RadixMatch.RadixMatch RadixInsert.RadixInsert RadixDetach.RadixDetach RadixReady.RadixReady CacheEngine.CacheEngine GlobalCache.GlobalCache PlanTier.PlanTier Deferred.Deferred.
Local Open Scope Z_scope.

Module DeferredCommit.

(** ** Runs of loaded blocks *)

Lemma leading_bounds l : 0 <= leading l <= zlen l.
Proof. unfold zlen. induction l as [|[] l IH]; simpl; lia. Qed.

Lemma leading_true l i : Z.of_nat i < leading l → l !! i = Some true.
Proof. revert i. induction l as [|[] l IH]; intros [|i]; simpl; intros Hi; try lia; [done|]. apply IH. lia. Qed.

Lemma leading_stop l : leading l < zlen l → l !! Z.to_nat (leading l) = Some false.
Proof.
  unfold zlen. induction l as [|[] l IH]; simpl; intros Hl; [lia| |done].
  pose proof (leading_bounds l). replace (Z.to_nat (1 + leading l)) with (S (Z.to_nat (leading l))) by lia. apply IH. lia.
Qed.

Lemma successful_prefix_bounds n r : 0 <= n → 0 <= successful_prefix n r <= n.
Proof.
  intros Hn. unfold successful_prefix. destruct (block_results r) as [l|]; [|lia]. destruct (Z.eqb_spec (zlen l) n) as [<-|]; simpl; [|lia].
  apply leading_bounds.
Qed.

Section commit.
Context `{!PrefixHash} (XXH64 : list Z → Z) (clock : nat → float).
Implicit Types (e : CacheEngine) (o : Outcomes) (p : DeferredCacheInsert) (hb : gset Z) (hs : list Z).

Abbreviation seq_of p := (di_sequence_meta p).
Abbreviation hashes p := (hashes_of XXH64 (di_sequence_meta p)).

(** The slot of [p] is one of [hs], and [hs'] are the others. *)
Definition slot_held p hs hs' : Prop :=
  if decide (0 <= swa_slot p) then hs ≡ₚ swa_slot p :: hs' ∧ 0 < requested_end_block p else hs' = hs.

(** What an owner of a pending insertion knows about it. *)
Record pending_ok e hb hs hs' p : Prop := {
  po_owns : owns e hb hs;
  po_seq : seq_ok XXH64 (seq_of p);
  po_nodup : NoDup (physical_blocks p);
  po_blocks : ∀ b, b ∈ physical_blocks p → b ∈ hb;
  po_slot : slot_held p hs hs';
  po_range : range_ok p = true;
  po_bounds : 0 <= staged_start_block p ∧ requested_end_block p <= Z.of_nat (num_blocks (seq_of p));
  po_peer : publish_to_peer p = false;
}.

Lemma range_ok_inv p : range_ok p = true →
  zlen (physical_blocks p) = requested_end_block p - staged_start_block p ∧ staged_start_block p <= remote_start_block p <= requested_end_block p.
Proof. unfold range_ok. intros [[H1%Z.eqb_eq H2%Z.leb_le]%andb_true_iff H3%Z.leb_le]%andb_true_iff. lia. Qed.

Lemma publish_end_bounds o p : range_ok p = true → remote_start_block p <= publish_end o p <= requested_end_block p.
Proof.
  intros [_ Hr]%range_ok_inv. unfold publish_end. destruct (load_result p) as [k|]; [|lia].
  pose proof (successful_prefix_bounds (requested_end_block p - remote_start_block p) (load_of o k)). lia.
Qed.

(** ** Giving back *)

Lemma pool_of_slot e hb hs hs' p : owns e hb hs → slot_held p hs hs' → 0 <= swa_slot p → is_Some (swa_pool e).
Proof.
  intros [_ _ Hs] Hp Hz. unfold slot_held in Hp. rewrite decide_True in Hp by done. destruct Hp as [Hp _].
  destruct (swa_pool e); [done|]. destruct Hs as [_ ->]. by apply Permutation_nil_cons in Hp.
Qed.

Lemma free_held_run e hb hs hs' s : owns e hb hs → hs ≡ₚ s :: hs' →
  ∃ e', _free_swa_slot s e = (Ok tt, e') ∧ owns e' hb hs' ∧ index e' = index e.
Proof.
  intros [Hwf Hb Hs] Hp. destruct (swa_pool e) as [sp|] eqn:Esp; [|by destruct Hs as [_ ->]; apply Permutation_nil_cons in Hp].
  destruct (free_slot_owner _ _ _ _ _ Hs Hp) as (sp' & E & Ho & _). exists (with_swa_pool (Some sp') e).
  unfold _free_swa_slot. rewrite Esp, E. split; [done|]. by split.
Qed.

Lemma release_slot_run e hb hs hs' p : owns e hb hs → slot_held p hs hs' →
  ∃ e', _release_pending_swa_slot p e = (Ok tt, e') ∧ owns e' hb hs' ∧ index e' = index e.
Proof.
  intros Ho Hp. unfold _release_pending_swa_slot, slot_held in *. destruct (Z.leb_spec 0 (swa_slot p)).
  - rewrite decide_True in Hp by done. by apply (free_held_run e hb hs); [|apply Hp].
  - rewrite decide_False in Hp by lia. subst. by exists e.
Qed.

Lemma discard_pending_run e hb hs hs' p : pending_ok e hb hs hs' p →
  ∃ e', _discard_deferred_insert p (physical_blocks p) e = (Ok tt, e') ∧ owns e' (hb ∖ list_to_set (physical_blocks p)) hs' ∧ alike (index e) (index e').
Proof.
  intros [Ho _ HN HB Hsl _ _ _]. destruct (recycle_run e hb hs _ Ho HN HB) as (e1 & E1 & Ho1 & A1 & _).
  destruct (release_slot_run e1 _ hs hs' p Ho1 Hsl) as (e2 & E2 & Ho2 & Ei). exists e2. unfold _discard_deferred_insert.
  rewrite M_bind_run, E1. rewrite Ei. done.
Qed.
(** ** Plans keep their nodes *)

(** The nodes of [t] are still there, as often locked, and end the same runs. *)
Record keeps t t' : Prop := {
  kp_tree : ∀ n, tree t n → tree t' n;
  kp_lock : ∀ n, tree t n → lock_cnt (nd t' n) = lock_cnt (nd t n);
  kp_run : ∀ n l, run (root_node t) (shapes t) n l → run (root_node t') (shapes t') n l;
}.
#[export] Instance keeps_preorder : PreOrder keeps.
Proof.
  split; [by split|]. intros t1 t2 t3 [A1 A2 A3] [B1 B2 B3]. split; [auto| |auto]. intros n Hn. rewrite B2, A2 by auto. done.
Qed.

Lemma same_lock x y : use_of x = use_of y → lock_cnt x = lock_cnt y.
Proof. unfold use_of. congruence. Qed.

Lemma keeps_same t t' :
  wf t → wf t' → root_node t' = root_node t → (∀ n, tree t' n ↔ tree t n) → (∀ n, shape_of (nd t' n) = shape_of (nd t n)) →
  (∀ n, lock_cnt (nd t' n) = lock_cnt (nd t n)) → keeps t t'.
Proof.
  intros Hwf Hwf' Er Ht Hs Hl. split; [by intros n ?%Ht|done|]. intros n l. rewrite Er. apply run_mono. intros x s Hx Hxs.
  rewrite (tree_shape _ _ Hwf Hx) in Hxs. injection Hxs as <-. apply Ht in Hx. rewrite <- Er at 1. split; [done|].
  exists (shape_of (nd t x)). by rewrite (tree_shape _ _ Hwf' Hx), Hs.
Qed.

Lemma keeps_alike t t' : wf t → wf t' → alike t t' → keeps t t'.
Proof. intros Hwf Hwf' A. apply keeps_same; [done|done|apply (al_root _ _ A)|apply (al_tree _ _ A)|apply (al_shape _ _ A)|]. intros n. apply same_lock, (al_use _ _ A). Qed.

Lemma keeps_inserted t t' bh pb rd w : inserted t t' bh pb rd w → keeps t t'.
Proof.
  intros Hin. pose proof (ins_old _ _ _ _ _ _ Hin) as Ho. split; [intros n Hn; by apply Ho| |apply (ins_runs _ _ _ _ _ _ Hin)].
  intros n Hn. apply same_lock. by apply Ho.
Qed.

(** ** Mounting the snapshot *)

(** The index [t'] differs from [t] by a snapshot that node [n] may have got. *)
Record mounts (t t' : RadixTreeIndex) (n : nid) (slot : Z) : Prop := {
  mo_entry : ∀ g b r, entry t' g b r ↔ entry t g b r;
  mo_tree : ∀ x, tree t' x ↔ tree t x;
  mo_shape : ∀ x, shape_of (nd t' x) = shape_of (nd t x);
  mo_root : root_node t' = root_node t;
  mo_lock : ∀ x, lock_cnt (nd t' x) = lock_cnt (nd t x);
  mo_swa : ∀ x, swa_of (nd t' x) = swa_of (nd t x) ∨ (x = n ∧ 0 <= slot ∧ swa_of (nd t' x) = (slot, false, true));
}.

Lemma alike_mounts t t' n slot : alike t t' → mounts t t' n slot.
Proof. intros [A1 A2 A3 A4 A5 A6]. split; [done..|intros x; by apply same_lock|]. intros x. left. apply A6. Qed.

Lemma mounts_alike t t1 t2 n slot : mounts t t1 n slot → alike t1 t2 → mounts t t2 n slot.
Proof.
  intros [M1 M2 M3 M5 M6 M4] [A1 A2 A3 A4 A5 A6].
  split; [intros; by rewrite A1|intros; by rewrite A3|intros; by rewrite A4|congruence|intros x; by rewrite (same_lock _ _ (A2 x))|intros x; rewrite A6; apply M4].
Qed.

Lemma publish_slot_run e hb hs hs' p n :
  owns e hb hs → slot_held p hs hs' → tree (index e) n → n ≠ root_node (index e) →
  ∃ e', _publish_pending_swa_slot clock p (Some n) e = (Ok tt, e') ∧ owns e' hb hs' ∧ mounts (index e) (index e') n (swa_slot p).
Proof.
  intros Ho Hsl Hn Hr. unfold _publish_pending_swa_slot. destruct (Z.ltb_spec (swa_slot p) 0) as [Hneg|Hpos].
  { unfold slot_held in Hsl. rewrite decide_False in Hsl by lia. subst. exists e. split; [done|]. split; [done|]. by apply alike_mounts. }
  pose proof (pool_of_slot _ _ _ _ _ Ho Hsl Hpos) as [sp Esp]. unfold slot_held in Hsl. rewrite decide_True in Hsl by done. destruct Hsl as [Hp _].
  rewrite M_bind_run. cbn [get_state]. destruct (has_swa (nd (index e) n)) eqn:Hh.
  { destruct (free_held_run e hb hs hs' _ Ho Hp) as (e' & E & Ho' & Ei). exists e'. rewrite Ei. split; [done|]. split; [done|]. by apply alike_mounts. }
  pose proof Ho as [Hwf Hb Hs]. rewrite Esp in Hs. destruct (wf_swa _ Hwf) as [L HL].
  assert (swa_host_slot (nd (index e) n) < 0) as Hno.
  { pose proof (so_tomb _ _ _ HL n Hn) as Ht. unfold has_swa in Hh. rewrite Ht in Hh.
    destruct (Z.ltb_spec (swa_host_slot (nd (index e) n)) 0); [done|]. apply andb_false_iff in Hh as [?|Hx%Z.leb_gt]; [done|lia]. }
  assert (slot_owner (index e) (Some sp) (swa_slot p :: hs')) as Hs2.
  { destruct Hs as (l & Hl & Hl2). exists l. split; [done|]. by rewrite <- Hl2, Hp. }
  destruct (set_swa_owner clock _ _ n (swa_slot p) hs' Hwf Hs2 Hn Hr Hpos Hno) as (t1 & E1 & Hwf1 & Q & Hs1).
  destruct (set_swa_ok clock _ _ _ n (swa_slot p) HL Hn Hr Hpos Hno) as (t1' & L' & E1' & _ & [_ Sw] & _).
  assert (t1' = t1) as -> by congruence.
  assert (owns (with_index t1 e) hb hs') as Ho1.
  { split; simpl; [done| |by rewrite Esp]. eapply block_owner_same; [|done]. by rewrite (q_shapes _ _ Q), (q_root _ _ Q). }
  destruct (drain_unmounted_ok _ hb hs' Ho1) as (e2 & E2 & Ho2 & A2 & _). exists e2.
  rewrite M_bind_run, (on_index_run _ _ _ _ E1), E2. split; [done|]. split; [done|]. apply (mounts_alike _ t1); [|done]. split.
  - intros. by apply entry_quiet.
  - intros x. by rewrite (q_shapes _ _ Q), (q_root _ _ Q).
  - intros x. by apply quiet_nd_shape.
  - apply Q.
  - intros x. by apply same_lock, quiet_nd_use.
  - intros x. rewrite Sw. case_decide as Hx; [right|by left]. subst. done.
Qed.
(** ** The tree already covers what was loaded *)

Lemma alike_holds t t' l j n i : alike t t' → holds_at t l j n i → holds_at t' l j n i.
Proof.
  intros A (Hn & h & Hh & Hi). split; [by apply (al_tree _ _ A)|]. exists h. split; [done|].
  pose proof (f_equal s_bh (al_shape _ _ A n)) as E. simpl in E. by rewrite E.
Qed.

Lemma mounts_holds t t' m slot l j n i : mounts t t' m slot → holds_at t l j n i → holds_at t' l j n i.
Proof.
  intros A (Hn & h & Hh & Hi). split; [by apply (mo_tree _ _ _ _ A)|]. exists h. split; [done|].
  pose proof (f_equal s_bh (mo_shape _ _ _ _ A n)) as E. simpl in E. by rewrite E.
Qed.

Lemma same_size t t' n : shape_of (nd t' n) = shape_of (nd t n) → node_size (nd t' n) = node_size (nd t n).
Proof. intros E. pose proof (f_equal s_bh E) as Eb. simpl in Eb. unfold node_size. by rewrite Eb. Qed.

Lemma boundary_ends l e e2 r j n :
  anchored l e r → alike (index e) (index e2) → _matched_boundary_node r j e2 = Some n → 0 < j →
  tree (index e) n ∧ n ≠ root_node (index e) ∧ holds_at (index e) l (Z.to_nat j - 1) n (node_size (nd (index e) n) - 1).
Proof.
  intros [(m & Hm & Ha & _) _ _ _ _] A Hb Hj. unfold _matched_boundary_node in Hb.
  destruct (Z.eqb_spec (Z.of_nat (num_matched_blocks r)) j) as [Ej|]; [|done]. rewrite Hm in Hb. simpl in Hb.
  destruct (Nat.eqb_spec (last_node_matched_length r) (node_size (nd (index e2) m))) as [Es|]; [|done]. injection Hb as ->.
  rewrite (same_size (index e) (index e2)) in Es by apply A. destruct Ha as (Ht & [(_ & _ & Hk)|(Hne & Hml & Hag)]); [lia|].
  split; [done|]. split; [done|]. rewrite <- Es.
  replace (Z.to_nat j - 1)%nat with ((num_matched_blocks r - last_node_matched_length r) + (last_node_matched_length r - 1))%nat by lia.
  eapply agree_holds; [done|done|lia].
Qed.

(** What a commit leaves behind: the blocks [k .. fin) of the sequence are new. *)
Record outcome o p e e' hb hs' (k fin : Z) : Prop := {
  oc_owns : owns e' (hb ∖ list_to_set (physical_blocks p)) hs';
  oc_entry : ∀ h b rd, entry (index e') h b rd ↔ entry (index e) h b rd ∨
    (rd = true ∧ ∃ j : nat, k <= Z.of_nat j < fin ∧ hashes p !! j = Some h ∧
       physical_blocks p !! Z.to_nat (Z.of_nat j - staged_start_block p) = Some b);
  oc_swa : ∀ n, tree (index e') n → has_swa (nd (index e') n) = true →
    (tree (index e) n ∧ has_swa (nd (index e) n) = true ∧ swa_host_slot (nd (index e') n) = swa_host_slot (nd (index e) n)) ∨
    (0 <= swa_slot p ∧ swa_host_slot (nd (index e') n) = swa_slot p ∧ publish_end o p = requested_end_block p ∧
     swa_at (index e') (hashes p) (Z.to_nat (requested_end_block p)) n);
  oc_keeps : keeps (index e) (index e');
}.

Lemma outcome_alike o p e e' hb hs' k : wf (index e) → alike (index e) (index e') → owns e' (hb ∖ list_to_set (physical_blocks p)) hs' → outcome o p e e' hb hs' k k.
Proof.
  intros Hwf A Ho. split; [done| | |apply keeps_alike; [done|apply Ho|done]].
  - intros h b rd. rewrite (al_entry _ _ A). split; [by left|]. intros [?|(_ & j & ? & _)]; [done|lia].
  - intros n Hn Hs. left. split; [by apply (al_tree _ _ A)|]. pose proof (al_swa _ _ A n) as E. apply swa_of_inv in E as (E1 & _ & _ & E4).
    by rewrite <- E4.
Qed.

(** ... and one that mounted the snapshot on the node that ends the request. *)
Lemma outcome_mounts o p e e' hb hs' k n :
  wf (index e) → mounts (index e) (index e') n (swa_slot p) → owns e' (hb ∖ list_to_set (physical_blocks p)) hs' →
  publish_end o p = requested_end_block p → 0 < requested_end_block p →
  holds_at (index e) (hashes p) (Z.to_nat (requested_end_block p) - 1) n (node_size (nd (index e) n) - 1) →
  outcome o p e e' hb hs' k k.
Proof.
  intros Hwf M Ho Hpe Hpos Hh. split; [done| | |apply keeps_same; [done|apply Ho|exact (mo_root _ _ _ _ M)|exact (mo_tree _ _ _ _ M)|exact (mo_shape _ _ _ _ M)|exact (mo_lock _ _ _ _ M)]].
  - intros h b rd. rewrite (mo_entry _ _ _ _ M). split; [by left|]. intros [?|(_ & j & ? & _)]; [done|lia].
  - intros x Hx Hs. destruct (mo_swa _ _ _ _ M x) as [E|(-> & Hz & E)].
    + left. split; [by apply (mo_tree _ _ _ _ M)|]. apply swa_of_inv in E as (E1 & _ & _ & E4). by rewrite <- E4.
    + right. split; [done|]. unfold swa_of in E. injection E as E _ _. split; [done|]. split; [done|]. split; [done|]. split; [lia|].
      rewrite (same_size (index e) (index e')) by apply M. by eapply mounts_holds.
Qed.

Lemma outcome_after o p e e1 e2 hb hs' k fin : wf (index e) → wf (index e1) → alike (index e) (index e1) → outcome o p e1 e2 hb hs' k fin → outcome o p e e2 hb hs' k fin.
Proof.
  intros Hwf Hwf1 A [O1 O2 O3 O4]. split; [done| | |etrans; [by apply keeps_alike|done]].
  - intros h b rd. rewrite O2, (al_entry _ _ A). done.
  - intros x Hx Hs. destruct (O3 x Hx Hs) as [(Ht & H1 & H2)|?]; [left|by right].
    split; [by apply (al_tree _ _ A)|]. pose proof (al_swa _ _ A x) as E. apply swa_of_inv in E as (E1 & _ & _ & E4). by rewrite <- E4, <- E1.
Qed.

Definition published o p (fin : Z) (why : string) : Outcomes :=
  match publish_result p with
  | None => o
  | Some k => update_publication (publish_record (Z.max 0 (fin - remote_start_block p)) why false) k o
  end.

Lemma record_run o e p fin why : _record_deferred_publish p fin why false (e, o) = (Ok tt, (e, published o p fin why)).
Proof. unfold _record_deferred_publish, published. by destruct (publish_result p). Qed.

Lemma covered_run o e hb hs hs' p r :
  pending_ok e hb hs hs' p → anchored (hashes p) e r →
  ∃ n e', commit_covered clock p (publish_end o p) r (e, o) = (Ok n, (e', published o p (publish_end o p) "already_covered")) ∧
    outcome o p e e' hb hs' 0 0.
Proof.
  intros Hp An. pose proof Hp as [Ho _ HN HB Hsl _ _ _]. destruct (recycle_run e hb hs _ Ho HN HB) as (e1 & E1 & Ho1 & A1 & _).
  unfold commit_covered. rewrite M_bind_run. unfold on_tier at 1. cbn [fst snd]. rewrite E1, M_bind_run. cbn [gets fst].
  set (bn := _matched_boundary_node r (requested_end_block p) e1). exists bn.
  assert (∃ e2, (if 0 <=? swa_slot p then
      if negb (is_not_None bn) || negb (publish_end o p =? requested_end_block p) then on_tier (_release_pending_swa_slot p)
      else on_tier (_publish_pending_swa_slot clock p bn) else mret tt) (e1, o) = (Ok tt, (e2, o)) ∧ outcome o p e e2 hb hs' 0 0) as (e2 & E2 & Hout).
  - destruct (Z.leb_spec 0 (swa_slot p)) as [Hpos|Hneg].
    2:{ exists e1. split; [done|]. unfold slot_held in Hsl. rewrite decide_False in Hsl by lia. subst. apply outcome_alike; [apply Ho|done|done]. }
    destruct (negb (is_not_None bn) || negb (publish_end o p =? requested_end_block p)) eqn:Eb.
    + destruct (release_slot_run e1 _ hs hs' p Ho1 Hsl) as (e2 & E2 & Ho2 & Ei). exists e2. unfold on_tier. cbn [fst snd]. rewrite E2. split; [done|].
      apply outcome_alike; [apply Ho|by rewrite Ei|done].
    + apply orb_false_iff in Eb as [Eb1 Eb2]. apply negb_false_iff in Eb1, Eb2. apply Z.eqb_eq in Eb2.
      destruct bn as [n|] eqn:En; [|done].
      assert (0 < requested_end_block p) as Hre by (unfold slot_held in Hsl; rewrite decide_True in Hsl by done; apply Hsl).
      destruct (boundary_ends _ _ _ _ _ n An A1 En Hre) as (Hn & Hr & Hh).
      destruct (publish_slot_run e1 _ hs hs' p n Ho1 Hsl) as (e2 & E2 & Ho2 & M2).
      { by apply (al_tree _ _ A1). } { by rewrite (al_root _ _ A1). }
      exists e2. unfold on_tier. cbn [fst snd]. rewrite E2. split; [done|].
      apply (outcome_after o p e e1); [apply Ho|apply Ho1|done|]. apply (outcome_mounts _ _ _ _ _ _ _ n); [apply Ho1|done..|].
      rewrite (same_size (index e) (index e1)) by apply A1. by eapply alike_holds.
  - exists e2. split; [|done]. rewrite M_bind_run, E2, M_bind_run, record_run. done.
Qed.
(** ** Publishing what is missing *)

Lemma set_ready_node e hb hs n l :
  owns e hb hs → tree (index e) n → n ≠ root_node (index e) → block_hashes (nd (index e) n) = l →
  ∃ e', CacheEngine.set_ready n true (zlen l) e = (Ok tt, e') ∧ owns e' hb hs ∧ meta (index e) (index e') ∧
    (∀ x, lock_cnt (nd (index e') x) = lock_cnt (nd (index e) x)) ∧
    ∀ h b rd, entry (index e') h b rd ↔ (if decide (h ∈ l) then rd = true ∧ ∃ rd0, entry (index e) h b rd0 else entry (index e) h b rd).
Proof.
  intros Ho Hn Hr <-. pose proof (ow_wf _ _ _ Ho) as Hwf.
  assert (run (root_node (index e)) (shapes (index e)) n (block_hashes (nd (index e) n))) as Hrun.
  { by apply (run_one _ _ n (shape_of (nd (index e) n))); [..|apply tree_shape]. }
  destruct (set_ready_ok _ n _ Hwf Hrun) as (t & D & E & Hm & Hh).
  pose proof (meta_op_owns (RadixTree.set_ready n true (zlen (block_hashes (nd (index e) n)))) e hb hs Ho) as Ho'.
  pose proof (meta_set_ready n true (zlen (block_hashes (nd (index e) n))) (index e)) as Mt.
  unfold zlen in *. rewrite E in Mt. exists (with_index t e). unfold CacheEngine.set_ready. rewrite (on_index_run _ _ _ _ E) in Ho' |- *.
  split; [done|]. split; [done|]. split; [done|]. split; [|by apply (marked_entries (index e) t D)].
  intros x. simpl. rewrite (mk_nodes _ _ _ _ Hm). by case_decide.
Qed.

Lemma slice_split (l : list Z) (a b : nat) : (a <= b)%nat → (b <= length l)%nat →
  l ≡ₚ list.take (b - a) (drop a l) ++ (list.take a l ++ drop b l).
Proof.
  intros Hab Hb. rewrite <- (take_drop b l) at 1. rewrite <- (take_drop a (list.take b l)), take_take, Nat.min_l by done.
  rewrite skipn_firstn_comm. solve_Permutation.
Qed.

(** The staged blocks of a commit: the inserted ones and the rest. *)
Lemma staged_split o p r :
  range_ok p = true → staged_start_block p <= Z.of_nat (num_matched_blocks r) < publish_end o p →
  let a := Z.to_nat (Z.of_nat (num_matched_blocks r) - staged_start_block p) in
  let b := Z.to_nat (publish_end o p - staged_start_block p) in
  (a <= b)%nat ∧ (b <= length (physical_blocks p))%nat ∧
  py_slice (Some (Z.of_nat (num_matched_blocks r) - staged_start_block p)) (Some (publish_end o p - staged_start_block p)) (physical_blocks p) =
    list.take (b - a) (drop a (physical_blocks p)) ∧
  py_slice None (Some (Z.of_nat (num_matched_blocks r) - staged_start_block p)) (physical_blocks p) = list.take a (physical_blocks p) ∧
  py_slice (Some (publish_end o p - staged_start_block p)) None (physical_blocks p) = drop b (physical_blocks p).
Proof.
  intros Hr Hk a b. pose proof (range_ok_inv _ Hr) as [Hl Hs]. pose proof (publish_end_bounds o p Hr) as Hpe. unfold zlen in Hl.
  assert ((a <= b)%nat ∧ (b <= length (physical_blocks p))%nat) as [H1 H2] by (unfold a, b; lia).
  assert (Z.of_nat (num_matched_blocks r) - staged_start_block p = Z.of_nat a) as -> by lia.
  assert (publish_end o p - staged_start_block p = Z.of_nat b) as -> by lia.
  split; [done|]. split; [done|]. split; [apply py_slice_nat|]. split; [apply py_slice_prefix|].
  unfold py_slice. simpl. rewrite slice_bound_nonneg by done. rewrite firstn_all2; [done|]. rewrite length_drop. lia.
Qed.
(** The insertion of a commit always succeeds: the match is fresh. *)
Lemma commit_insert_step o e hb hs hs' p r :
  pending_ok e hb hs hs' p → anchored (hashes p) e r → staged_start_block p <= Z.of_nat (num_matched_blocks r) < publish_end o p →
  let k := num_matched_blocks r in
  let a := Z.to_nat (Z.of_nat k - staged_start_block p) in
  let b := Z.to_nat (publish_end o p - staged_start_block p) in
  let B := list.take (b - a) (drop a (physical_blocks p)) in
  let bh := new_hashes XXH64 (seq_of p) k (publish_end o p) in
  ∃ w e1, insert XXH64 clock (seq_of p) B (publish_end o p) false (Some r) e = (Ok (Some w), e1) ∧
    owns e1 (hb ∖ list_to_set B) hs ∧ inserted (index e) (index e1) bh B false w ∧ length bh = length B ∧
    (∀ h c rd, h ∈ bh → ¬ entry (index e) h c rd).
Proof.
  intros Hp An Hk k a b B bh. pose proof Hp as [Ho Hs HN HB _ Hr [H0 Hbnd] _]. pose proof (ow_wf _ _ _ Ho) as Hwf.
  pose proof An as [(n & Hn & Ht) Hle Hm Hf _]. pose proof (range_ok_inv _ Hr) as [Hl Hso]. pose proof (publish_end_bounds o p Hr) as Hpe.
  destruct (staged_split o p r Hr Hk) as (Hab & Hbl & _). fold k a b in Hab, Hbl. unfold zlen in Hl.
  assert (num_insert (seq_of p) (publish_end o p) = publish_end o p) as Eni by (unfold num_insert; destruct (Z.eqb_spec (publish_end o p) (-1)); lia).
  assert (length B = (b - a)%nat) as HlB by (unfold B; rewrite length_take, length_drop; lia).
  assert (args_ok (seq_of p) B (publish_end o p) k) as Ha by (split; rewrite Eni; unfold zlen; lia).
  assert (Z.of_nat k < num_insert (seq_of p) (publish_end o p)) as Hlt by (rewrite Eni; lia).
  destruct (new_hashes_length XXH64 _ _ _ _ Ha Hlt Hs) as (Hlen & _ & _ & _).
  pose proof (tree_live _ _ Hwf (proj1 (proj1 Ht))) as Hlive.
  destruct (insert_with_result XXH64 clock (index e) (seq_of p) B (publish_end o p) false r n Hwf Hs Hn Hlive Ha Hlt) as [(_ & w & t' & E & _ & Hin)|[[] _]]; [|done].
  pose proof (insert_run XXH64 clock e hb hs (seq_of p) B (publish_end o p) false (Some r) Ho Hs) as R.
  assert (insert XXH64 clock (seq_of p) B (publish_end o p) false (Some r) e = (Ok (Some w), with_index t' e)) as E' by (by apply on_index_run).
  rewrite E' in R. destruct R as [Ho' _].
  { intros r' m [= <-] Hm'. assert (m = n) as -> by congruence. done. }
  { eapply sublist_NoDup; [exact HN|]. etrans; [apply sublist_take|apply sublist_drop]. }
  { intros c [i Hi]%list_elem_of_lookup. apply lookup_take_Some in Hi as [Hi _]. rewrite lookup_drop in Hi. by apply HB, (list_elem_of_lookup_2 _ _ _ Hi). }
  exists w, (with_index t' e). split_and!; [done|done|done|done|].
  intros h c rd [i Hi]%list_elem_of_lookup He. unfold bh, new_hashes in Hi. apply lookup_take_Some in Hi as [Hi _]. rewrite lookup_drop in Hi.
  apply (Hf (k + i)%nat h c); [lia|done|]. apply entry_maps. by exists rd.
Qed.

(** The new hashes are the blocks [k .. publish_end) of the sequence. *)
Lemma new_block o p r h c :
  range_ok p = true → 0 <= staged_start_block p <= Z.of_nat (num_matched_blocks r) → Z.of_nat (num_matched_blocks r) < publish_end o p →
  let k := num_matched_blocks r in
  let a := Z.to_nat (Z.of_nat k - staged_start_block p) in
  let b := Z.to_nat (publish_end o p - staged_start_block p) in
  (∃ i, new_hashes XXH64 (seq_of p) k (publish_end o p) !! i = Some h ∧ list.take (b - a) (drop a (physical_blocks p)) !! i = Some c) ↔
  (∃ j : nat, Z.of_nat k <= Z.of_nat j < publish_end o p ∧ hashes p !! j = Some h ∧
     physical_blocks p !! Z.to_nat (Z.of_nat j - staged_start_block p) = Some c).
Proof.
  intros Hr H0 Hlt k a b. pose proof (publish_end_bounds o p Hr) as Hpe. pose proof (range_ok_inv _ Hr) as [_ Hs].
  assert (num_insert (seq_of p) (publish_end o p) = publish_end o p) as Eni by (unfold num_insert; destruct (Z.eqb_spec (publish_end o p) (-1)); lia).
  unfold new_hashes. rewrite Eni. split.
  - intros (i & Hh & Hc). apply lookup_take_Some in Hh as [Hh Hi], Hc as [Hc _]. rewrite lookup_drop in Hh, Hc.
    exists (k + i)%nat. split; [lia|]. split; [done|]. rewrite <- Hc. f_equal. lia.
  - intros (j & Hj & Hh & Hc). exists (j - k)%nat. split; apply lookup_take_Some; rewrite lookup_drop; (split; [|lia]).
    + rewrite <- Hh. f_equal. lia.
    + rewrite <- Hc. f_equal. lia.
Qed.
Lemma recycle_rest e o hb hs (l B U : list Z) :
  owns e (hb ∖ list_to_set B) hs → NoDup l → (∀ b, b ∈ l → b ∈ hb) → l ≡ₚ B ++ U →
  ∃ e', (if 0 <? zlen U then on_tier (recycle U) else mret tt) (e, o) = (Ok tt, (e', o)) ∧
    owns e' (hb ∖ list_to_set l) hs ∧ alike (index e) (index e').
Proof.
  intros Ho HN HB HP. assert (hb ∖ list_to_set l = (hb ∖ list_to_set B) ∖ list_to_set U) as Es.
  { apply set_eq. intros b. rewrite !elem_of_difference, !elem_of_list_to_set, HP, elem_of_app. tauto. }
  rewrite HP in HN. apply NoDup_app in HN as (_ & Hd & HNU). rewrite Es. unfold zlen. destruct U as [|u U].
  { exists e. rewrite list_to_set_nil, difference_empty_L. done. }
  destruct (recycle_run e _ hs (u :: U) Ho HNU) as (e' & E & Ho' & A & _).
  { intros b Hb. rewrite elem_of_difference, elem_of_list_to_set. split; [|intros HbB; by apply (Hd b)].
    apply HB. rewrite HP, elem_of_app. by right. }
  exists e'. cbn [length]. rewrite (proj2 (Z.ltb_lt 0 _)) by lia. unfold on_tier. cbn [fst snd]. by rewrite E.
Qed.

(** The SWA view of a node that an insertion left in the tree. *)
Lemma inserted_swa t t' bh pb rd w x :
  inserted t t' bh pb rd w → tree t' x → has_swa (nd t' x) = true →
  tree t x ∧ has_swa (nd t x) = true ∧ swa_host_slot (nd t' x) = swa_host_slot (nd t x).
Proof.
  intros Hin Hx Hs. pose proof (ins_grown _ _ _ _ _ _ Hin) as G. pose proof (ins_wf _ _ _ _ _ _ Hin) as Hwf'.
  destruct (store t !! x) as [y|] eqn:Ey.
  - assert (is_Some (store t !! x)) as Hl by by eexists. destruct (g_old _ _ G x Hl) as [E _].
    destruct (ins_from _ _ _ _ _ _ Hin x Hx) as [Ht|?]; [|congruence]. split; [done|].
    apply swa_links_inv in E as [E _]. apply swa_of_inv in E as (E1 & _ & _ & E4). by rewrite <- E4.
  - exfalso. pose proof (g_new _ _ G x Ey (tree_live _ _ Hwf' Hx)) as E. unfold swa_links, blank_swa, swa_of in E. unfold has_swa in Hs.
    injection E as E1 E2 _. by rewrite E1, E2 in Hs.
Qed.

Lemma commit_insert_run o e hb hs hs' p r :
  pending_ok e hb hs hs' p → anchored (hashes p) e r → staged_start_block p <= Z.of_nat (num_matched_blocks r) < publish_end o p →
  ∃ n e', commit_insert XXH64 clock p (publish_end o p) r (e, o) = (Ok n, (e', published o p (publish_end o p) "ok")) ∧
    outcome o p e e' hb hs' (Z.of_nat (num_matched_blocks r)) (publish_end o p).
Proof.
  intros Hp An Hk. pose proof Hp as [Ho Hs HN HB Hsl Hr [H0 Hbnd] Hpeer]. pose proof (publish_end_bounds o p Hr) as Hpe.
  destruct (staged_split o p r Hr Hk) as (Hab & Hbl & S1 & S2 & S3).
  destruct (commit_insert_step o e hb hs hs' p r Hp An Hk) as (w & e1 & E1 & Ho1 & Hin & Hlen & Hnew).
  pose proof (λ h c, new_block o p r h c Hr (conj H0 (proj1 Hk)) (proj2 Hk)) as Hnb. cbv zeta in Hnb.
  set (k := num_matched_blocks r) in *. set (a := Z.to_nat (Z.of_nat k - staged_start_block p)) in *.
  set (b := Z.to_nat (publish_end o p - staged_start_block p)) in *.
  set (B := list.take (b - a) (drop a (physical_blocks p))) in *. set (bh := new_hashes XXH64 (seq_of p) k (publish_end o p)) in *.
  unfold commit_insert. fold k. rewrite S1, S2, S3. cbv zeta. rewrite M_bind_run.
  unfold catch at 1. rewrite M_bind_run. unfold on_tier at 1. cbn [fst snd]. fold B. rewrite E1. cbn [mret M_ret].
  unfold commit_inserted. rewrite M_bind_run.
  destruct (recycle_rest e1 o hb hs _ B (list.take a (physical_blocks p) ++ drop b (physical_blocks p)) Ho1 HN HB) as (e2 & E2 & Ho2 & A2).
  { by apply slice_split. }
  rewrite E2, M_bind_run. destruct (ins_node _ _ _ _ _ _ Hin) as (Hw & Hwr & Hwb & _ & _).
  destruct (set_ready_node e2 _ hs w bh Ho2) as (e3 & E3 & Ho3 & M3 & L3 & En3).
  { by apply (al_tree _ _ A2). } { by rewrite (al_root _ _ A2). }
  { pose proof (f_equal s_bh (al_shape _ _ A2 w)) as E. simpl in E. by rewrite E. }
  assert (zlen B = zlen bh) as -> by (unfold zlen; by rewrite Hlen).
  unfold on_exception, on_tier at 1. cbn [fst snd]. rewrite E3, M_bind_run.
  (* what the three steps did to the index *)
  assert (∀ h c rd, entry (index e3) h c rd ↔ entry (index e) h c rd ∨ (rd = true ∧ ∃ j : nat, Z.of_nat k <= Z.of_nat j < publish_end o p ∧
    hashes p !! j = Some h ∧ physical_blocks p !! Z.to_nat (Z.of_nat j - staged_start_block p) = Some c)) as Hent.
  { intros h c rd. rewrite En3. setoid_rewrite <- Hnb.
    assert (∀ rd, entry (index e2) h c rd ↔ entry (index e) h c rd ∨ (∃ i, bh !! i = Some h ∧ B !! i = Some c) ∧ rd = false) as H2.
    { intros rd'. by rewrite (al_entry _ _ A2), (ins_entry _ _ _ _ _ _ Hin). }
    destruct (decide (h ∈ bh)) as [Hh|Hh].
    - setoid_rewrite H2. specialize (Hnew h). naive_solver.
    - rewrite H2. split; [intros [?|[(i & Hi & _) _]]; [by left|by apply list_elem_of_lookup_2 in Hi]|].
      intros [?|(_ & i & Hi & _)]; [by left|by apply list_elem_of_lookup_2 in Hi]. }
  assert (∀ x, tree (index e3) x ↔ tree (index e1) x) as Htr.
  { intros x. destruct (me_rest _ _ M3) as (_ & Er & _). rewrite (me_shapes _ _ M3), Er. apply (al_tree _ _ A2). }
  assert (∀ x, swa_of (nd (index e3) x) = swa_of (nd (index e1) x)) as Hsw.
  { intros x. destruct (swa_links_inv _ _ (me_links _ _ M3 x)) as [-> _]. apply (al_swa _ _ A2). }
  assert (∀ x, tree (index e3) x → has_swa (nd (index e3) x) = true →
    tree (index e) x ∧ has_swa (nd (index e) x) = true ∧ swa_host_slot (nd (index e3) x) = swa_host_slot (nd (index e) x)) as Hswa.
  { intros x Hx%Htr Hh. specialize (Hsw x). apply swa_of_inv in Hsw as (Es & _ & _ & Eh). rewrite Es. rewrite Eh in Hh. by eapply inserted_swa. }
  assert (∀ e4, owns e4 (hb ∖ list_to_set (physical_blocks p)) hs' → outcome o p e3 e4 hb hs' 0 0 →
    outcome o p e e4 hb hs' (Z.of_nat k) (publish_end o p)) as Hfin.
  { intros e4 Ho4 [_ O2 O3 O4]. split; [done| | |].
    - intros h c rd. rewrite O2, Hent. split; [intros [?|(_ & j & ? & _)]; [done|lia]|by left].
    - intros x Hx Hh. destruct (O3 x Hx Hh) as [(Ht & H1 & H2)|?]; [left|by right]. destruct (Hswa x Ht H1) as (? & ? & ?).
      split; [done|]. split; [done|]. congruence.
    - etrans; [by eapply keeps_inserted|]. etrans; [apply keeps_alike; [apply Ho1|apply Ho2|done]|]. etrans; [|exact O4].
      apply keeps_same; [apply Ho2|apply Ho3|apply (me_rest _ _ M3)| |by intros; apply meta_shape|done].
      intros x. by rewrite Htr, (al_tree _ _ A2). }
  assert (∃ e4, (if 0 <=? swa_slot p then if publish_end o p =? requested_end_block p then on_tier (_publish_pending_swa_slot clock p (Some w))
     else on_tier (_release_pending_swa_slot p) else mret tt) (e3, o) = (Ok tt, (e4, o)) ∧ outcome o p e3 e4 hb hs' 0 0) as (e4 & E4 & O4).
  { destruct (Z.leb_spec 0 (swa_slot p)) as [Hpos|Hneg].
    2:{ exists e3. split; [done|]. unfold slot_held in Hsl. rewrite decide_False in Hsl by lia. subst. apply outcome_alike; [apply Ho3|done|done]. }
    destruct (Z.eqb_spec (publish_end o p) (requested_end_block p)) as [Ee|Ee].
    - destruct (me_rest _ _ M3) as (_ & Er & _).
      destruct (publish_slot_run e3 _ hs hs' p w Ho3 Hsl) as (e4 & E4 & Ho4 & M4); [by apply Htr|by rewrite Er, (al_root _ _ A2)|].
      exists e4. unfold on_tier. cbn [fst snd]. rewrite E4. split; [done|]. eapply outcome_mounts; [apply Ho3|done|done|done|lia|].
      pose proof (f_equal s_bh (meta_shape _ _ w M3)) as Es3. pose proof (f_equal s_bh (al_shape _ _ A2 w)) as Es2. simpl in Es3, Es2.
      split; [by apply Htr|]. unfold node_size. rewrite Es3, Es2, Hwb, <- Ee.
      assert (0 < length bh)%nat as Hpos' by (rewrite Hlen; unfold B; rewrite length_take, length_drop; lia).
      destruct (lookup_lt_is_Some_2 bh (length bh - 1)) as [h Hh]; [lia|]. exists h. split; [|done].
      assert (num_insert (seq_of p) (publish_end o p) = publish_end o p) as Eni by (unfold num_insert; destruct (Z.eqb_spec (publish_end o p) (-1)); lia).
      pose proof Hh as Hh2. set (i := (length bh - 1)%nat) in Hh2. unfold bh, new_hashes in Hh2. rewrite Eni in Hh2. apply lookup_take_Some in Hh2 as [Hh2 _]. rewrite lookup_drop in Hh2.
      assert (length bh = (b - a)%nat) as Hlb by (rewrite Hlen; unfold B; rewrite length_take, length_drop; lia).
      replace (Z.to_nat (publish_end o p) - 1)%nat with (k + i)%nat by (unfold i; rewrite Hlb; unfold a, b; lia). exact Hh2.
    - destruct (release_slot_run e3 _ hs hs' p Ho3 Hsl) as (e4 & E4 & Ho4 & Ei). exists e4. unfold on_tier. cbn [fst snd]. rewrite E4. split; [done|].
      apply outcome_alike; [apply Ho3|by rewrite Ei|done]. }
  exists (Some w), e4. rewrite E4, M_bind_run, Hpeer. cbn [mret M_ret]. rewrite M_bind_run, record_run. split; [done|].
  apply Hfin; [apply O4|done].
Qed.
(** ** The whole commit *)

Lemma slot_without p hs' : slot_held (without_swa p) hs' hs'.
Proof. unfold slot_held. rewrite decide_False; [done|]. cbn. lia. Qed.

Lemma guard_run o e hb hs hs' p : pending_ok e hb hs hs' p →
  ∃ p' hs1 e', guard_swa p (e, o) = (Ok p', (e', o)) ∧ pending_ok e' hb hs1 hs' p' ∧ index e' = index e ∧
    (p' = p ∧ (0 <= swa_slot p → 0 <= swa_anchor_block p → joint_ok o p = true) ∨ p' = without_swa p).
Proof.
  intros Hp. unfold guard_swa. rewrite M_bind_run. cbn [gets snd].
  destruct ((0 <=? swa_slot p) && (0 <=? swa_anchor_block p) && negb (joint_ok o p)) eqn:Eg.
  - apply andb_true_iff in Eg as [[Hz%Z.leb_le _]%andb_true_iff _]. pose proof Hp as [Ho Hs HN HB Hsl Hr Hb Hpe].
    pose proof Hsl as Hsl'. unfold slot_held in Hsl'. rewrite decide_True in Hsl' by done. destruct Hsl' as [HP _].
    destruct (free_held_run e hb hs hs' _ Ho HP) as (e' & E & Ho' & Ei). exists (without_swa p), hs', e'. rewrite M_bind_run.
    unfold on_tier. cbn [fst snd]. rewrite E. cbn [mret M_ret]. split; [done|]. split; [|split; [done|by right]].
    split; [done|done|done|done|apply slot_without|done|done|done].
  - exists p, hs, e. split; [done|]. split; [done|]. split; [done|]. left. split; [done|]. intros H1%Z.leb_le H2%Z.leb_le.
    rewrite H1, H2 in Eg. simpl in Eg. by apply negb_false_iff in Eg.
Qed.

Lemma rematch_run o e hb hs hs' p : pending_ok e hb hs hs' p →
  ∃ r e', rematch XXH64 clock p (e, o) = (Ok r, (e', o)) ∧ pending_ok e' hb hs hs' p ∧ alike (index e) (index e') ∧ anchored (hashes p) e' r.
Proof.
  intros [Ho Hs HN HB Hsl Hr Hb Hpe]. destruct (match_run XXH64 clock e hb hs _ Ho Hs) as (r & t & E & Ho' & St & M).
  exists r, (with_index t e). unfold rematch, on_exception, on_tier. cbn [fst snd]. rewrite E. split; [done|]. split; [by split|]. split.
  - apply quiet_alike; [apply St|apply (sd_swa _ _ St)].
  - by apply anchored_match; [apply Ho|apply Hs| |].
Qed.

(** Block [j] of the sequence is in the staged copies: a peer had it, or its load succeeded. *)
Definition loaded o p (j : nat) : Prop :=
  match load_result p with
  | None => True
  | Some l => Z.of_nat j < remote_start_block p ∨
      ∃ rs, block_results (load_of o l) = Some rs ∧ zlen rs = requested_end_block p - remote_start_block p ∧
        rs !! Z.to_nat (Z.of_nat j - remote_start_block p) = Some true
  end.

Lemma publish_end_loaded o p (j : nat) : Z.of_nat j < publish_end o p → loaded o p j.
Proof.
  unfold publish_end, loaded. destruct (load_result p) as [l|]; [|done]. intros Hj. destruct (Z.ltb_spec (Z.of_nat j) (remote_start_block p)); [by left|right].
  unfold successful_prefix in Hj. destruct (block_results (load_of o l)) as [rs|]; [|lia]. exists rs. split; [done|].
  destruct (Z.eqb_spec (zlen rs) (requested_end_block p - remote_start_block p)); simpl in Hj; [|lia]. split; [done|]. apply leading_true. lia.
Qed.

(** The hashes of the first [fin] blocks are ready. *)
Definition ready_upto (t : RadixTreeIndex) (l : list Z) (fin : Z) : Prop :=
  ∀ (j : nat) h, Z.of_nat j < fin → l !! j = Some h → ∃ b, entry t h b true.

Lemma anchored_ready l e r : anchored l e r → (num_matched_blocks r <= num_ready_matched_blocks r)%nat → ready_upto (index e) l (Z.of_nat (num_matched_blocks r)).
Proof.
  intros [_ Hle Hm _ Hrd] Hcr j h Hj Hh. pose proof (Forall2_length _ _ _ Hm) as Hlen. rewrite length_take in Hlen.
  destruct (lookup_lt_is_Some_2 (mr_physical_blocks r) j) as [b Hb]; [lia|]. exists b. eapply rb_entry; [done| |done|done]. lia.
Qed.

(** How a commit ended. *)
Inductive ending o p e' (k : Z) : Z → Z → string → Prop :=
| end_ok : staged_start_block p <= k < publish_end o p → ready_upto (index e') (hashes p) (publish_end o p) →
    ending o p e' k (publish_end o p) (publish_end o p) "ok"
| end_covered : ready_upto (index e') (hashes p) (publish_end o p) → ending o p e' k k (publish_end o p) "already_covered"
| end_stale : ending o p e' k k (remote_start_block p) "rematch_stale".

Lemma commit_rest o e hb hs hs' p r :
  pending_ok e hb hs hs' p → anchored (hashes p) e r →
  ∃ n e' k top fin why,
    (if negb (Z.of_nat (num_matched_blocks r) =? Z.of_nat (num_ready_matched_blocks r)) || (Z.of_nat (num_matched_blocks r) <? staged_start_block p) then
       on_tier (_discard_deferred_insert p (physical_blocks p)) ;;
       _record_deferred_publish p (remote_start_block p) "rematch_stale" false ;; mret None
     else if publish_end o p <=? Z.of_nat (num_matched_blocks r) then commit_covered clock p (publish_end o p) r
     else if publish_end o p - staged_start_block p <=? 0 then
       on_tier (_discard_deferred_insert p (physical_blocks p)) ;;
       _record_deferred_publish p (remote_start_block p) "zero_prefix" false ;; mret None
     else commit_insert XXH64 clock p (publish_end o p) r) (e, o) = (Ok n, (e', published o p fin why)) ∧
    outcome o p e e' hb hs' k top ∧ ending o p e' k top fin why.
Proof.
  intros Hp An. destruct (Z.eqb_spec (Z.of_nat (num_matched_blocks r)) (Z.of_nat (num_ready_matched_blocks r))) as [Ecr|]; cbn [negb orb].
  2:{ destruct (discard_pending_run e hb hs hs' p Hp) as (e' & E & Ho & A). exists None, e', 0, 0, (remote_start_block p), "rematch_stale"%string.
      rewrite M_bind_run. unfold on_tier. cbn [fst snd]. rewrite E, M_bind_run, record_run. split; [done|]. split; [apply outcome_alike; [apply Hp|done|done]|constructor]. }
  destruct (Z.ltb_spec (Z.of_nat (num_matched_blocks r)) (staged_start_block p)).
  { destruct (discard_pending_run e hb hs hs' p Hp) as (e' & E & Ho & A). exists None, e', 0, 0, (remote_start_block p), "rematch_stale"%string.
    rewrite M_bind_run. unfold on_tier. cbn [fst snd]. rewrite E, M_bind_run, record_run. split; [done|]. split; [apply outcome_alike; [apply Hp|done|done]|constructor]. }
  assert (ready_upto (index e) (hashes p) (Z.of_nat (num_matched_blocks r))) as Hrd by (apply anchored_ready; [done|lia]).
  destruct (Z.leb_spec (publish_end o p) (Z.of_nat (num_matched_blocks r))).
  { destruct (covered_run o e hb hs hs' p r Hp An) as (n & e' & E & O). exists n, e', 0, 0, (publish_end o p), "already_covered"%string.
    split; [done|]. split; [done|]. constructor. intros j h Hj Hh. destruct (Hrd j h) as [b Hb]; [lia|done|]. exists b. apply (oc_entry _ _ _ _ _ _ _ _ O). by left. }
  destruct (Z.leb_spec (publish_end o p - staged_start_block p) 0); [lia|].
  destruct (commit_insert_run o e hb hs hs' p r Hp An) as (n & e' & E & O); [lia|].
  exists n, e', (Z.of_nat (num_matched_blocks r)), (publish_end o p), (publish_end o p), "ok"%string. split; [done|]. split; [done|]. constructor; [lia|].
  intros j h Hj Hh. setoid_rewrite (oc_entry _ _ _ _ _ _ _ _ O). destruct (Z.ltb_spec (Z.of_nat j) (Z.of_nat (num_matched_blocks r))) as [Hlt|Hge].
  - destruct (Hrd j h Hlt Hh) as [b Hb]. exists b. by left.
  - pose proof (range_ok_inv _ (po_range _ _ _ _ _ Hp)) as [Hl _]. pose proof (publish_end_bounds o p (po_range _ _ _ _ _ Hp)). unfold zlen in Hl.
    destruct (lookup_lt_is_Some_2 (physical_blocks p) (Z.to_nat (Z.of_nat j - staged_start_block p))) as [b Hb]; [lia|].
    exists b. right. split; [done|]. exists j. done.
Qed.

(** Facts shared by the two forms of a pending insertion, with and without its slot. *)
Record committed o p e e' hb hs' (k top : Z) : Prop := {
  cm_owns : owns e' (hb ∖ list_to_set (physical_blocks p)) hs';
  cm_entry : ∀ h b rd, entry (index e') h b rd ↔ entry (index e) h b rd ∨
    (rd = true ∧ ∃ j : nat, k <= Z.of_nat j < top ∧ loaded o p j ∧ hashes p !! j = Some h ∧
       physical_blocks p !! Z.to_nat (Z.of_nat j - staged_start_block p) = Some b);
  cm_swa : ∀ n, tree (index e') n → has_swa (nd (index e') n) = true →
    (tree (index e) n ∧ has_swa (nd (index e) n) = true ∧ swa_host_slot (nd (index e') n) = swa_host_slot (nd (index e) n)) ∨
    (0 <= swa_slot p ∧ swa_host_slot (nd (index e') n) = swa_slot p ∧ publish_end o p = requested_end_block p ∧
     swa_at (index e') (hashes p) (Z.to_nat (requested_end_block p)) n ∧ (0 <= swa_anchor_block p → joint_ok o p = true));
  cm_keeps : keeps (index e) (index e');
}.

Lemma committed_outcome o p p' e e' hb hs' k top :
  p' = p ∧ (0 <= swa_slot p → 0 <= swa_anchor_block p → joint_ok o p = true) ∨ p' = without_swa p →
  top <= publish_end o p ∨ top <= k → outcome o p' e e' hb hs' k top → committed o p e e' hb hs' k top.
Proof.
  intros Hp Ht O. assert (∀ j : nat, k <= Z.of_nat j < top → loaded o p j) as Hl by (intros j Hj; apply publish_end_loaded; lia).
  destruct Hp as [[-> Hj]| ->]; destruct O as [O1 O2 O3 O4]; (split; [exact O1| | |exact O4]).
  1,3: intros h b rd; rewrite O2; cbn; naive_solver.
  - intros n Hn Hs. destruct (O3 n Hn Hs) as [?|(? & ? & ? & ?)]; [by left|right]. split_and!; [done..|]. by intros; apply Hj.
  - intros n Hn Hs. destruct (O3 n Hn Hs) as [?|(Hz & _)]; [by left|]. simpl in Hz. lia.
Qed.

Lemma commit_deferred_run e o hb hs hs' p :
  pending_ok e hb hs hs' p →
  ∃ n e' k top fin why,
    _commit_deferred_insert XXH64 clock p (e, o) = (Ok n, (e', published o p fin why)) ∧
    committed o p e e' hb hs' k top ∧ ending o p e' k top fin why.
Proof.
  intros Hp. unfold _commit_deferred_insert. rewrite (po_range _ _ _ _ _ Hp). cbn [negb]. rewrite M_bind_run. cbn [gets snd]. rewrite M_bind_run.
  destruct (guard_run o e hb hs hs' p Hp) as (p' & hs1 & e1 & E1 & Hp1 & Ei & Hd). rewrite E1, M_bind_run.
  destruct (rematch_run o e1 hb hs1 hs' p' Hp1) as (r & e2 & E2 & Hp2 & A2 & An). rewrite E2.
  destruct (commit_rest o e2 hb hs1 hs' p' r Hp2 An) as (n & e3 & k & top & fin & why & E3 & O & En).
  apply (outcome_after o p' e) in O; [|apply Hp|apply Hp2|by rewrite <- Ei].
  assert (publish_end o p' = publish_end o p) as Epe by (by destruct Hd as [[-> _]| ->]).
  exists n, e3, k, top, fin, why. rewrite Epe in E3. split; [|split].
  - destruct Hd as [[-> _]| ->]; exact E3.
  - eapply committed_outcome; [exact Hd| |exact O]. rewrite <- Epe. destruct En; lia.
  - destruct Hd as [[-> _]| ->]; (destruct En as [R1 R2|R1|]; [exact (end_ok o p e3 k R1 R2)|exact (end_covered o p e3 k R1)|exact (end_stale o p e3 k)]).
Qed.

(** [C3] A deferred insertion ends well. Whatever the state of the tree when the transfer completes, [_commit_deferred_insert] raises nothing and reports
    one of three reasons: "ok", "already_covered" or "rematch_stale" (an insertion conflict, a refused insertion and an empty prefix cannot happen, since
    the match is fresh). Every staged block is in the tree or in the pool afterwards, and so is the SWA slot. The tree maps what it mapped before and, ready
    to be read, the staged blocks of a run that ends where the first failed load is: nothing that was not loaded is ever published. What is reported as
    published is readable at once in this tier. The snapshot goes on the node that ends the request, when all of it was loaded, and, when it has an anchor,
    only if the loaded prefix reaches it and the snapshot itself was loaded. *)
Theorem commit_deferred_spec o e hb hs hs' p :
  pending_ok e hb hs hs' p →
  ∃ n e' k top fin why,
    _commit_deferred_insert XXH64 clock p (e, o) = (Ok n, (e', published o p fin why)) ∧
    committed o p e e' hb hs' k top ∧ ending o p e' k top fin why.
Proof. apply commit_deferred_run. Qed.
End commit.

(** ** A concrete commit *)

(** Three blocks of four were loaded of the [7; 8; 9; 3] that one request staged; the last load failed, and a slot waits. *)
Definition toy_load : MooncakeLoadResult := mkLoadResult (Some [true; true; true; false]).
Definition toy_outcomes : Outcomes := mkOutcomes {[ 0%nat := toy_load; 1%nat := mkLoadResult (Some [true]) ]} {[ 0%nat := unpublished ]}.
Definition toy_staged : CacheEngine := (take 4 None true toy_engine).2.
Definition toy_pending : DeferredCacheInsert :=
  mkDeferred CPU (toy_seq [7; 8; 9; 3]) [0; 1; 2; 3] 0 0 4 (Some 0%nat) (-1) false (-1) None (Some 0%nat).

Lemma toy_staged_owns : @owns toy_ph toy_staged (list_to_set [0; 1; 2; 3]) [].
Proof.
  assert (@engine_step toy_ph toy_digest toy_clock (toy_engine, ∅, []) (toy_staged, ∅ ∪ list_to_set [0; 1; 2; 3], [])) as St.
  { apply (es_take _ _ _ _ _ 4 None true [0; 1; 2; 3]); [by intros n|]. by vm_compute. }
  rewrite (left_id_L ∅ (∪)) in St. exact (@engine_step_owns toy_ph _ _ _ _ St toy_engine_owns).
Qed.

Lemma toy_pending_ok : @pending_ok toy_ph toy_digest toy_staged (list_to_set [0; 1; 2; 3]) [] [] toy_pending.
Proof.
  split.
  - apply toy_staged_owns.
  - apply toy_seq_ok.
  - apply (bool_decide_unpack _). by vm_compute.
  - intros b Hb. by apply elem_of_list_to_set.
  - done.
  - by vm_compute.
  - by vm_compute.
  - done.
Qed.

Lemma commit_deferred_spec_witness :
  @pending_ok toy_ph toy_digest toy_staged (list_to_set [0; 1; 2; 3]) [] [] toy_pending ∧
  ∃ n e', _commit_deferred_insert toy_digest toy_clock toy_pending (toy_staged, toy_outcomes) =
    (Ok n, (e', published toy_outcomes toy_pending 3 "ok")).
Proof.
  split; [apply toy_pending_ok|].
  destruct (@commit_deferred_spec toy_ph toy_digest toy_clock toy_outcomes _ _ _ _ _ toy_pending_ok) as (n & e' & k & top & fin & why & E & _ & _).
  exists n, e'. rewrite E.
  assert ((_commit_deferred_insert toy_digest toy_clock toy_pending (toy_staged, toy_outcomes)).2.2 = published toy_outcomes toy_pending 3 "ok") as Hv
    by (by vm_compute).
  rewrite E in Hv. simpl in Hv. by rewrite Hv.
Defined.
End DeferredCommit.
