(* ===== verification/DeferredEnd.v ===== *)
(** * Ending a plan that has deferred insertions

    Proofs about [_transfer_callback] and [_abort_transfer_plan] of [Deferred]: the
    commits of a finished plan fail nowhere, leak nothing, leave the nodes of the
    plan to the completion and report what can be read; an abort gives everything
    back. *)

From S2P Require Import Prelude PyFloat Block Transfer GraphBuild SWAOps Mempool SWAHostPool RadixTree RadixCore RadixLeaf RadixWf RadixMatch RadixInsert RadixDetach RadixEvict RadixReady RadixSpec CacheEngine GlobalCache GlobalPlan PlanTier PutPlan PlanEnd Deferred DeferredCommit.
Import RadixTree.RadixTree RadixWf.RadixWf RadixMatch.RadixMatch CacheEngine.CacheEngine GlobalCache.GlobalCache GlobalPlan.GlobalPlan PlanTier.PlanTier PutPlan.PutPlan PlanEnd.PlanEnd Deferred.Deferred DeferredCommit.DeferredCommit.
Local Open Scope Z_scope.

Module DeferredEnd.

(** ** What the pending insertions hold *)

Fixpoint staged_blocks (ps : list DeferredCacheInsert) (d : DeviceType) : list Z :=
  match ps with
  | [] => []
  | p :: ps => (if decide (di_device_type p = d) then physical_blocks p else []) ++ staged_blocks ps d
  end.
Fixpoint staged_slots (ps : list DeferredCacheInsert) (d : DeviceType) : list Z :=
  match ps with
  | [] => []
  | p :: ps => (if decide (di_device_type p = d) then one_slot (swa_slot p) else []) ++ staged_slots ps d
  end.

Lemma one_slot_decide s : one_slot s = if decide (0 <= s) then [s] else [].
Proof. unfold one_slot. case_decide; destruct (Z.leb_spec 0 s); done || lia. Qed.

Section ends.
Context `{!PrefixHash} (XXH64 : list Z → Z) (clock : nat → float).
Implicit Types (g : GlobalCacheEngine) (o : Outcomes) (p : DeferredCacheInsert) (ps : list DeferredCacheInsert) (W : DeviceType → gset Z * list Z).

Abbreviation seq_of p := (di_sequence_meta p).
Abbreviation dev p := (di_device_type p).
Abbreviation hashes p := (hashes_of XXH64 (di_sequence_meta p)).

(** A pending insertion as the planner makes it. *)
Record planned_insert p : Prop := {
  pl_seq : seq_ok XXH64 (seq_of p);
  pl_range : range_ok p = true;
  pl_bounds : 0 <= staged_start_block p ∧ requested_end_block p <= Z.of_nat (num_blocks (seq_of p));
  pl_slot : 0 <= swa_slot p → 0 < requested_end_block p;
  pl_peer : publish_to_peer p = false;
}.

(** Their staged blocks are distinct, and nobody else's. *)
Record pendings_ok g W ps : Prop := {
  ps_each : ∀ p, p ∈ ps → planned_insert p ∧ has_engine (dev p) g = true;
  ps_blocks : ∀ d, NoDup (staged_blocks ps d) ∧ ∀ b, b ∈ staged_blocks ps d → b ∉ (W d).1;
}.

Definition holding W ps : DeviceType → gset Z * list Z := also W (staged_blocks ps) (staged_slots ps).

Lemma pendings_tail g g' W p ps : (∀ d, has_engine d g' = has_engine d g) → pendings_ok g W (p :: ps) → pendings_ok g' W ps.
Proof.
  intros Hh [H1 H2]. split.
  - intros q Hq. rewrite Hh. apply H1. by right.
  - intros d. destruct (H2 d) as [HN Hd]. simpl in *. apply NoDup_app in HN as (_ & _ & HN). split; [done|]. intros b Hb. apply Hd, elem_of_app. by right.
Qed.

(** The head of the list as the owner of a pending insertion sees it. *)
Lemma pending_head g W p ps :
  pendings_ok g W (p :: ps) → global_owns g (holding W (p :: ps)) →
  ∃ e, engine_of (dev p) g = Some e ∧
    pending_ok XXH64 e (holding W (p :: ps) (dev p)).1 (holding W (p :: ps) (dev p)).2 (holding W ps (dev p)).2 p ∧
    (holding W (p :: ps) (dev p)).1 ∖ list_to_set (physical_blocks p) = (holding W ps (dev p)).1.
Proof.
  intros [H1 H2] Ho. destruct (H1 p) as [[P1 P2 P3 P4 P5] He]; [left|]. specialize (Ho (dev p)). apply kept_engine in Ho; [|done].
  destruct Ho as (e & Ee & Ho). exists e. split; [done|]. destruct (H2 (dev p)) as [HN Hd]. simpl in HN, Hd. rewrite decide_True in HN, Hd by done.
  apply NoDup_app in HN as (HN & Hx & _). unfold holding, also in *. simpl in *. rewrite decide_True in * by done. split; [split; try done|].
  - intros b Hb. set_solver.
  - unfold slot_held. rewrite one_slot_decide. repeat case_decide; try done. split; [reflexivity|by apply P4].
  - apply set_eq. intros b. specialize (Hx b). specialize (Hd b). rewrite elem_of_app in Hd.
    rewrite elem_of_difference, !elem_of_union, !elem_of_list_to_set, elem_of_app. tauto.
Qed.

(** The other tiers, and this one, when one insertion is through. *)
Lemma holding_tail g g' W p ps e' :
  global_owns g (holding W (p :: ps)) → touches (dev p) g g' → engine_of (dev p) g' = Some e' →
  owns e' (holding W ps (dev p)).1 (holding W ps (dev p)).2 → global_owns g' (holding W ps).
Proof.
  intros Ho T He' Ho' d. destruct (decide (d = dev p)) as [->|Hd]; [right; by exists e'|].
  eapply kept_other; [done|done|]. specialize (Ho d). unfold holding, also in *. simpl in *. by rewrite !decide_False in Ho by done.
Qed.
(** ** One commit *)

Lemma loads_published o p fin why : loads (DeferredCommit.published o p fin why) = loads o.
Proof. unfold DeferredCommit.published. by destruct (publish_result p). Qed.

Lemma loaded_published o p q fin why j : loaded (DeferredCommit.published o p fin why) q j ↔ loaded o q j.
Proof. unfold loaded, load_of. by rewrite loads_published. Qed.

Lemma commit_one_run g o W p ps :
  pendings_ok g W (p :: ps) → global_owns g (holding W (p :: ps)) →
  ∃ e e' g' k top fin why,
    commit_one XXH64 clock p (g, o) = (Ok tt, (g', DeferredCommit.published o p fin why)) ∧
    engine_of (dev p) g = Some e ∧ engine_of (dev p) g' = Some e' ∧ touches (dev p) g g' ∧
    committed XXH64 o p e e' (holding W (p :: ps) (dev p)).1 (holding W ps (dev p)).2 k top ∧ ending XXH64 o p e' k top fin why ∧
    global_owns g' (holding W ps) ∧ ∀ d, has_engine d g' = has_engine d g.
Proof.
  intros Hps Ho. destruct (pending_head g W p ps Hps Ho) as (e & He & Hp & Es).
  destruct (commit_deferred_run XXH64 clock e o _ _ _ p Hp) as (n & e' & k & top & fin & why & E & C & En).
  set (g' := with_engine (dev p) e' g). pose proof (engine_of_with (dev p) e' g (mk_is_Some _ _ He)) as He'.
  pose proof (with_engine_touches (dev p) e' g) as T. exists e, e', g', k, top, fin, why. split.
  { unfold commit_one, commit_on. cbn [fst snd]. by rewrite He, E. }
  pose proof (cm_owns _ _ _ _ _ _ _ _ _ C) as Ho'. rewrite Es in Ho'. split_and!; try done.
  - by eapply holding_tail.
  - eapply has_engine_touches; [done|exists e'; by split|]. apply Hps. left.
Qed.

(** ** All commits *)

(** A block that was staged by one of [ps] for tier [d], and loaded. *)
Definition staged_entry o ps (d : DeviceType) (h b : Z) : Prop :=
  ∃ p (j : nat), p ∈ ps ∧ dev p = d ∧ loaded o p j ∧ hashes p !! j = Some h ∧
    physical_blocks p !! Z.to_nat (Z.of_nat j - staged_start_block p) = Some b.

(** What the commits of [ps] made of the indexes. *)
Definition grown_tiers o ps g g' : Prop := ∀ d e', engine_of d g' = Some e' → ∃ e, engine_of d g = Some e ∧ keeps (index e) (index e') ∧
  (∀ h b r, entry (index e) h b r → entry (index e') h b r) ∧
  (∀ h b r, entry (index e') h b r → entry (index e) h b r ∨ r = true ∧ staged_entry o ps d h b).

(** The first [n] blocks after the remote start of [p] can be read. *)
Definition reported g p (n : Z) : Prop :=
  0 <= n ∧ (0 < n → ∃ e, engine_of (dev p) g = Some e ∧ ready_upto (index e) (hashes p) (remote_start_block p + n)).

Lemma grown_report o ps g g' p n : (∀ d, has_engine d g' = has_engine d g) → grown_tiers o ps g g' → reported g p n → reported g' p n.
Proof.
  intros Hh G [H0 Hn]. split; [done|]. intros Hpos. destruct (Hn Hpos) as (e & He & Hr).
  specialize (Hh (dev p)). unfold has_engine in Hh. rewrite He in Hh. destruct (engine_of (dev p) g') as [e'|] eqn:He'; [|done].
  exists e'. split; [done|]. destruct (G _ _ He') as (e2 & He2 & _ & Hgr & _). assert (e2 = e) as -> by congruence.
  intros j h Hj Hh'. destruct (Hr j h Hj Hh') as [b Hb]. exists b. by apply Hgr.
Qed.

Lemma ending_report o p g e' k top fin why :
  range_ok p = true → engine_of (dev p) g = Some e' → ending XXH64 o p e' k top fin why → reported g p (Z.max 0 (fin - remote_start_block p)).
Proof.
  intros Hr He En. pose proof (publish_end_bounds o p Hr) as Hb. split; [lia|]. intros Hpos. exists e'. split; [done|].
  destruct En as [_ Hu|Hu|]; [..|lia]; intros j h Hj; apply Hu; lia.
Qed.
Lemma step_grown o p ps g g' e e' hb hs' k top :
  engine_of (dev p) g = Some e → engine_of (dev p) g' = Some e' → touches (dev p) g g' →
  committed XXH64 o p e e' hb hs' k top → p ∈ ps → grown_tiers o ps g g'.
Proof.
  intros He He' T C Hp d e2 He2. destruct (decide (d = dev p)) as [->|Hd].
  - assert (e2 = e') as -> by congruence. exists e. split; [done|]. split; [apply C|]. pose proof (cm_entry _ _ _ _ _ _ _ _ _ C) as Hen.
    split; [intros h b r Hh; apply Hen; by left|]. intros h b r [?|(-> & j & _ & Hl & Hh & Hb)]%Hen; [by left|right]. split; [done|]. by exists p, j.
  - exists e2. rewrite <- (to_others _ _ _ T) by done. split; [done|]. split; [done|]. split; [done|]. intros h b r ?. by left.
Qed.

Lemma grown_trans o ps g1 g2 g3 : grown_tiers o ps g1 g2 → grown_tiers o ps g2 g3 → grown_tiers o ps g1 g3.
Proof.
  intros A B d e3 He3. destruct (B d e3 He3) as (e2 & He2 & K2 & M2 & N2). destruct (A d e2 He2) as (e1 & He1 & K1 & M1 & N1).
  exists e1. split; [done|]. split; [by etrans|]. split; [auto|]. intros h b r [H'|H']%N2; [by apply N1|by right].
Qed.

Lemma grown_weaken o o' ps ps' g g' : loads o' = loads o → (∀ p, p ∈ ps → p ∈ ps') → grown_tiers o' ps g g' → grown_tiers o ps' g g'.
Proof.
  intros El Hs A d e' He'. destruct (A d e' He') as (e & He & K & M & N). exists e. split; [done|]. split; [done|]. split; [done|].
  intros h b r [?|(Hr & q & j & Hq & Hd & Hl & R)]%N; [by left|right]. split; [done|]. exists q, j. split; [by apply Hs|]. split; [done|]. split; [|done].
  unfold loaded, load_of in *. by rewrite <- El.
Qed.

Lemma published_other_result o p fin why k :
  publish_result p ≠ Some k → publications (DeferredCommit.published o p fin why) !! k = publications o !! k.
Proof.
  unfold DeferredCommit.published. destruct (publish_result p) as [k'|]; [|done]. intros Hk. simpl. apply lookup_alter_ne. congruence.
Qed.

(** Every pending insertion with a publish result got a report that is true of [g]. *)
Definition reports o g ps : Prop :=
  ∀ p k, p ∈ ps → publish_result p = Some k → is_Some (publications o !! k) →
    ∃ n why, publications o !! k = Some (mkPublishResult (Some n) false why) ∧ reported g p n.

Lemma commits_run ps : ∀ g o W,
  pendings_ok g W ps → NoDup (omap publish_result ps) → global_owns g (holding W ps) →
  ∃ g' o', for_each (commit_one XXH64 clock) ps (g, o) = (Ok tt, (g', o')) ∧ global_owns g' (holding W []) ∧
    (∀ d, has_engine d g' = has_engine d g) ∧ grown_tiers o ps g g' ∧ loads o' = loads o ∧ reports o' g' ps ∧
    (∀ k, k ∉ omap publish_result ps → publications o' !! k = publications o !! k).
Proof.
  induction ps as [|p ps IH]; intros g o W Hps HN Ho.
  { exists g, o. split; [done|]. split; [done|]. split; [done|]. split; [|split; [done|split; [by intros q k ?%elem_of_nil|done]]].
    intros d e' He'. exists e'. split; [done|]. split; [done|]. split; [done|]. intros. by left. }
  destruct (commit_one_run g o W p ps Hps Ho) as (e & e' & g1 & kk & top & fin & why & E & He & He' & T & C & En & Ho1 & Hh1).
  assert (NoDup (omap publish_result ps) ∧ ∀ k, publish_result p = Some k → k ∉ omap publish_result ps) as [HN' Hk].
  { simpl in HN. destruct (publish_result p); [|by split]. apply NoDup_cons in HN as [? ?]. split; [done|]. by intros ? [= <-]. }
  destruct (IH g1 (DeferredCommit.published o p fin why) W (pendings_tail _ _ _ _ _ Hh1 Hps) HN' Ho1) as (g2 & o2 & E2 & Ho2 & Hh2 & G2 & L2 & R2 & K2).
  rewrite loads_published in L2.
  assert (grown_tiers o (p :: ps) g1 g2) as G2'.
  { eapply grown_weaken; [|intros q Hq; by right|exact G2]. apply loads_published. }
  assert (∀ d, has_engine d g2 = has_engine d g) as Hh by (intros d; by rewrite Hh2).
  exists g2, o2. cbn [for_each]. rewrite M_bind_run, E. split; [done|]. split; [done|]. split; [done|]. split; [|split; [done|split]].
  - eapply grown_trans; [|exact G2']. eapply step_grown; try done. left.
  - intros q k [->|Hq]%elem_of_cons Hr Hsome; [|by eapply R2].
    rewrite (K2 k (Hk k Hr)) in Hsome |- *. unfold DeferredCommit.published in Hsome |- *. rewrite Hr in Hsome |- *. simpl in Hsome |- *.
    rewrite lookup_alter_eq in Hsome |- *. destruct (publications o !! k); simpl in *; [|by destruct Hsome].
    exists (Z.max 0 (fin - remote_start_block p)), why. split; [done|]. eapply grown_report; [exact Hh2|exact G2'|].
    eapply ending_report; [|exact He'|exact En]. apply Hps. left.
  - intros k Hk'. simpl in Hk'. rewrite K2 by (destruct (publish_result p); [set_solver|done]).
    apply published_other_result. destruct (publish_result p); [set_solver|done].
Qed.

(** ** The completion *)

Lemma grown_plan_run o ps g g' nodes d l : (∀ d, has_engine d g' = has_engine d g) → grown_tiers o ps g g' → plan_run g nodes d l → plan_run g' nodes d l.
Proof.
  intros Hh G. unfold plan_run. destruct (dict_get d nodes) as [[n len]|]; [|done]. intros [(e & He & Ht & Hl) Hr]. cbn [fst snd] in *.
  pose proof (Hh d) as Hd. unfold has_engine in Hd. rewrite He in Hd. destruct (engine_of d g') as [e'|] eqn:He'; [|done].
  destruct (G d e' He') as (e2 & He2 & [K1 K2 K3] & _). assert (e2 = e) as -> by congruence. split.
  - exists e'. split; [done|]. cbn [fst snd]. split; [by apply K1|]. by rewrite K2.
  - destruct (0 <? len); [|done]. destruct Hr as (e2 & He2' & R & Hlen). assert (e2 = e) as -> by congruence. exists e'. split; [done|]. split; [by apply K3|done].
Qed.

Lemma published_report g g' nodes p l n :
  (∀ d, has_engine d g' = has_engine d g) → PlanEnd.published g g' nodes (dev p) l → reported g p n → reported g' p n.
Proof.
  intros Hh P [H0 Hn]. split; [done|]. intros Hpos. destruct (Hn Hpos) as (e & He & Hr).
  specialize (Hh (dev p)). unfold has_engine in Hh. rewrite He in Hh. destruct (engine_of (dev p) g') as [e'|] eqn:He'; [|done].
  exists e'. split; [done|]. destruct (P e' He') as (e2 & He2 & Hen & _). assert (e2 = e) as -> by congruence.
  intros j h Hj Hh'. destruct (Hr j h Hj Hh') as [b Hb]. exists b. apply Hen. case_decide; [|done]. split; [done|]. by exists true.
Qed.
(** [C11] Completing a plan with deferred insertions loses nothing and claims nothing untrue. From a state in which the tiers hold, besides their books
    [W], the staged blocks and slots of the pending insertions and the plan's buffers, and the plan's nodes end runs [L d], [_transfer_callback] returns:
    no commit raises, the books are [W] again, each node of the plan lost exactly one lock, an entry that is new is a staged block whose load succeeded,
    and every publish result says how many remote blocks a match finds ready in the tier now. *)
Theorem deferred_completion_spec g o W nodes buffers (L : DeviceType → list Z) ps :
  (∀ d, plan_run g nodes d (L d)) → buffers_ok g W buffers → NoDup (omap publish_result ps) →
  pendings_ok g (also W (buffer_of buffers) (λ _, [])) ps → global_owns g (holding (also W (buffer_of buffers) (λ _, [])) ps) →
  ∃ g' o', _transfer_callback XXH64 clock nodes buffers ps (g, o) = (Ok tt, (g', o')) ∧ global_owns g' W ∧
    (∀ d e', engine_of d g' = Some e' → ∃ e, engine_of d g = Some e ∧
       (∀ h b r, entry (index e') h b r → (∃ r0, entry (index e) h b r0 ∧ (r0 = r ∨ h ∈ L d)) ∨ staged_entry o ps d h b) ∧
       (∀ n len, dict_get d nodes = Some (n, len) → lock_cnt (nd (index e') n) = lock_cnt (nd (index e) n) - 1)) ∧
    reports o' g' ps.
Proof.
  intros Hr Hb HN Hps Ho. destruct (commits_run ps g o _ Hps HN Ho) as (g1 & o1 & E1 & Ho1 & H1 & G1 & _ & R1 & _).
  destruct (finish_nodes_run g1 nodes L (also W (buffer_of buffers) (λ _, []))) as (g2 & E2 & Ho2 & P2 & H2).
  { intros d. by eapply grown_plan_run. } { intros d. pose proof (Ho1 d) as Hd. unfold holding in Hd. change (staged_blocks []) with (λ _ : DeviceType, @nil Z) in Hd.
    change (staged_slots []) with (λ _ : DeviceType, @nil Z) in Hd. by rewrite also_nil in Hd. }
  destruct (finish_buffers_run g2 buffers W) as (g3 & E3 & Ho3 & A3 & H6); [intros d B Hin; rewrite H2, H1; by apply Hb|done|].
  assert (∀ d, PlanEnd.published g1 g3 nodes d (L d)) as P3 by (intros d; by eapply published_alike).
  assert (∀ d, has_engine d g3 = has_engine d g1) as H3 by (intros d; by rewrite H6, H2).
  exists g3, o1. split; [|split; [done|split]].
  - unfold _transfer_callback, try_finally. rewrite E1. unfold on_globals, GlobalCache._transfer_callback. cbn [fst snd].
    rewrite M_bind_run, E2, E3. done.
  - intros d e' He'. destruct (P3 d e' He') as (e1 & He1 & Hen & Hl). destruct (G1 d e1 He1) as (e & He & [K1 K2 K3] & M & N). exists e.
    split; [done|]. split.
    + intros h b r Hh%Hen. assert (∀ r0, entry (index e1) h b r0 → (r0 = r ∨ h ∈ L d) →
        (∃ r1, entry (index e) h b r1 ∧ (r1 = r ∨ h ∈ L d)) ∨ staged_entry o ps d h b) as Hone.
      { intros r0 [Hr0|[_ Hs]]%N Hq; [left; by exists r0|by right]. }
      case_decide; [destruct Hh as [_ [r0 Hh]]; apply (Hone r0); [done|by right]|apply (Hone r); [done|by left]].
    + intros n len Hn. rewrite (Hl n len Hn). f_equal. apply K2. pose proof (Hr d) as Hd. unfold plan_run in Hd. rewrite Hn in Hd.
      destruct Hd as [(e2 & He2 & Ht & _) _]. cbn [fst snd] in *. assert (e2 = e) as -> by congruence. done.
  - intros p k Hp Hk Hsome. destruct (R1 p k Hp Hk Hsome) as (n & why & E & Hrep). exists n, why. split; [done|].
    by eapply published_report; [exact H3|apply P3|].
Qed.
(** ** Abort *)

Lemma discard_one_run g W p ps :
  pendings_ok g W (p :: ps) → global_owns g (holding W (p :: ps)) →
  ∃ g', discard_one p g = (Ok tt, g') ∧ global_owns g' (holding W ps) ∧ same_nodes g g' ∧ ∀ d, has_engine d g' = has_engine d g.
Proof.
  intros Hps Ho. destruct (pending_head g W p ps Hps Ho) as (e & He & Hp & Es). destruct (discard_pending_run _ e _ _ _ p Hp) as (e' & E & Ho' & A).
  rewrite Es in Ho'. exists (with_engine (dev p) e' g). pose proof (with_engine_touches (dev p) e' g) as T.
  pose proof (engine_of_with (dev p) e' g (mk_is_Some _ _ He)) as He'. split; [by eapply on_engine_run|]. split; [by eapply holding_tail|].
  split; [|eapply has_engine_touches; [done|by exists e'|apply Hps; left]].
  eapply same_nodes_tier; [done..| |]; simpl; [intros n; apply (al_tree _ _ A)|intros h c rd; apply (al_entry _ _ A)].
Qed.

Lemma discards_run W ps : ∀ g,
  pendings_ok g W ps → global_owns g (holding W ps) →
  ∃ g', for_each discard_one ps g = (Ok tt, g') ∧ global_owns g' (holding W []) ∧ same_nodes g g' ∧ ∀ d, has_engine d g' = has_engine d g.
Proof.
  induction ps as [|p ps IH]; intros g Hps Ho; [by exists g|]. destruct (discard_one_run g W p ps Hps Ho) as (g1 & E1 & Ho1 & N1 & H1).
  destruct (IH g1 (pendings_tail _ _ _ _ _ H1 Hps) Ho1) as (g2 & E2 & Ho2 & N2 & H2). exists g2. cbn [for_each]. rewrite M_bind_run, E1.
  split; [done|]. split; [done|]. split; [by etrans|]. intros d. by rewrite H2.
Qed.

(** [C27] Aborting a plan with deferred insertions gives back all it lists, also what the transfers were still filling: the staged blocks and the slots of
    the pending insertions besides the buffers, the slots and the staging slot of the read reservation. It raises nothing, ends with the books [W], and
    the nodes only the plan used are gone from their indexes. *)
Theorem deferred_abort_spec g W nodes buffers ps reservation slots :
  NoDup nodes.*1 → Forall (held_node g) nodes → NoDup buffers.*1 →
  let W1 := also W (λ _, []) (λ d, staged (staging_of reservation) d ++ slots_for d slots) in
  (∀ d s, (d, s) ∈ slots → 0 <= s ∧ has_engine d g = true) →
  buffers_ok g (holding W ps) buffers → pendings_ok g W1 ps →
  global_owns g (also (holding W1 ps) (buffer_of buffers) (λ _, [])) →
  ∃ g', _abort_transfer_plan nodes buffers ps reservation slots g = (Ok (), g') ∧ global_owns g' W ∧
    ∀ d n len, (d, (n, len)) ∈ nodes → only_ours g d n → ¬ in_index g' d n.
Proof.
  intros HN Hh HB W1 Hs Hb Hps Ho. unfold _abort_transfer_plan.
  destruct (abort_nodes_run _ nodes g HN Hh Ho) as (g1 & E1 & Ho1 & H1 & G1 & _). run_step E1.
  destruct (abort_buffers_run (holding W1 ps) (λ _, []) buffers g1 HB) as (g2 & E2 & Ho2 & H2 & N2).
  { intros d B Hin. rewrite H1. destruct (Hb d B Hin) as (? & Hd & ?). split; [done|]. split; [|done]. intros c Hc. specialize (Hd c Hc).
    unfold holding, W1, also in *. simpl in *. by rewrite union_empty_r_L. }
  { exact Ho1. }
  run_step E2. destruct (discards_run W1 ps g2) as (g3 & E3 & Ho3 & N3 & H3).
  { destruct Hps as [P1 P2]. split; [intros p Hp; rewrite H2, H1; by apply P1|done]. }
  { intros d. rewrite <- (also_nil (holding W1 ps) d). apply Ho2. }
  run_step E3. set (W4 := also W (λ _, []) (λ d, slots_for d slots)).
  destruct (release_reservation_run reservation g3 W4) as (g4 & E4 & Ho4 & N4 & H4).
  { intros d. specialize (Ho3 d). unfold holding, W1, W4, also in *. simpl in *. rewrite !union_empty_r_L in *. by rewrite <- app_assoc in Ho3. }
  run_step E4. destruct (abort_slots_run W slots g4) as (g5 & E5 & Ho5 & N5); [intros d s Hin; rewrite H4, H3, H2, H1; by apply Hs|exact Ho4|].
  exists g5. split; [done|]. split; [done|]. intros d n len Hin Hou Hx. apply (G1 d n len Hin Hou).
  eapply same_nodes_in; [|exact Hx]. etrans; [exact (alike_same_nodes _ _ N2)|]. etrans; [exact N3|]. etrans; [exact N4|exact (alike_same_nodes _ _ N5)].
Qed.
End ends.
(** ** A concrete plan *)

(** A CPU tier where the four staged blocks of one request wait, one of them not loaded. *)
Definition toy_waiting : GlobalCacheEngine := mkGlobal toy_cache_config (Some toy_staged) None None.

Lemma toy_waiting_holding : @global_owns toy_ph toy_waiting (holding (also toy_held (λ _, []) (λ _, [])) [DeferredCommit.toy_pending]).
Proof.
  intros d. destruct d; try (by left). right. exists toy_staged. split; [done|]. pose proof toy_staged_owns as Ho.
  replace (holding _ _ CPU).1 with (list_to_set [0; 1; 2; 3] : gset Z) by (unfold holding, also; simpl; set_solver). exact Ho.
Qed.

Lemma toy_waiting_ok W : (∀ d, (W d).1 = ∅) → @pendings_ok toy_ph toy_digest toy_waiting W [DeferredCommit.toy_pending].
Proof.
  intros HW. split.
  - intros p ->%list_elem_of_singleton. destruct toy_pending_ok as [_ P1 _ _ _ P2 P3 P4]. split; [|done]. by split.
  - intros d. rewrite HW. split; [|by intros b _ ?%elem_of_empty]. destruct d; apply (bool_decide_unpack _); by vm_compute.
Qed.

Lemma deferred_completion_spec_witness :
  ∃ g' o', _transfer_callback toy_digest toy_clock [] [] [DeferredCommit.toy_pending] (toy_waiting, toy_outcomes) = (Ok tt, (g', o')) ∧
    publications o' !! 0%nat = Some (mkPublishResult (Some 3) false "ok") ∧ @global_owns toy_ph g' toy_held.
Proof.
  destruct (@deferred_completion_spec toy_ph toy_digest toy_clock toy_waiting toy_outcomes toy_held [] [] (λ _, []) [DeferredCommit.toy_pending])
    as (g' & o' & E & Ho & _).
  - done.
  - intros d B Hin. destruct (not_elem_of_nil _ Hin).
  - apply NoDup_singleton.
  - apply toy_waiting_ok. intros d. unfold also, toy_held. simpl. set_solver.
  - exact toy_waiting_holding.
  - exists g', o'. split; [exact E|]. split; [|exact Ho].
    assert (publications (_transfer_callback toy_digest toy_clock [] [] [DeferredCommit.toy_pending] (toy_waiting, toy_outcomes)).2.2 !! 0%nat =
      Some (mkPublishResult (Some 3) false "ok")) as Hv by (by vm_compute).
    rewrite E in Hv. exact Hv.
Defined.

Lemma deferred_abort_spec_witness :
  ∃ g', _abort_transfer_plan [] [] [DeferredCommit.toy_pending] None [] toy_waiting = (Ok (), g') ∧ @global_owns toy_ph g' toy_held.
Proof.
  destruct (@deferred_abort_spec toy_ph toy_digest toy_waiting toy_held [] [] [DeferredCommit.toy_pending] None []) as (g' & E & Ho & _).
  - apply NoDup_nil_2.
  - constructor.
  - apply NoDup_nil_2.
  - intros d s Hin. destruct (not_elem_of_nil _ Hin).
  - intros d B Hin. destruct (not_elem_of_nil _ Hin).
  - apply toy_waiting_ok. intros d. unfold also, toy_held. simpl. set_solver.
  - intros d. pose proof (toy_waiting_holding d) as Hd. destruct d; try (by left). exact Hd.
  - exists g'. split; [exact E|exact Ho].
Defined.
End DeferredEnd.
