(* ===== verification/Mooncake.v ===== *)
(** * Mooncake: the key-addressed remote tier

    Models the mooncake-store backend: the keys of [flexkv/external/mooncake_store_keys.py],
    [MooncakeStoreClient] and [MooncakeStoreCacheEngine] of
    [flexkv/external/mooncake_store_utils.py], the fault injection of
    [flexkv/external/mooncake_fault_inject.py], and [MooncakeStoreTransferWorker.launch_transfer]
    of [flexkv/transfer/worker.py].

    The store itself is the third-party SDK: [MooncakeDistributedStore] is its
    interface, and nothing is assumed of what it answers.  Its
    setup, the registration of buffers, and timing are left out. *)

From stdpp Require Import pretty.
From S2P Require Import Prelude Block Transfer TransferEngine.
Import TransferEngine.TransferEngine.
Local Open Scope Z_scope.

Module Mooncake.

(** ** Keys *)

Inductive PoolKind : Type := KV | SWA.
#[export] Instance PoolKind_eq_dec : EqDecision PoolKind.
Proof. solve_decision. Defined.

Definition pool_value (k : PoolKind) : string := match k with KV => "FlexKV" | SWA => "FlexKV_swa" end.

(** Which part of the model this process stores. *)
Record KeyConfig : Type := mkKeyConfig {
  pp_rank : Z;
  pp_size : Z;
  node_layer_start : Z;
  node_layer_end : Z;
  total_layers : Z;
}.

Definition build_key (block_hash : string) (kind : PoolKind) (c : KeyConfig) : string :=
  let base := block_hash +:+ "_" +:+ pool_value kind in
  if (0 <? total_layers c) && (node_layer_end c - node_layer_start c =? total_layers c) then base
  else if 1 <? pp_size c then base +:+ "_pp_rank_" +:+ pretty (pp_rank c) +:+ "_of_" +:+ pretty (pp_size c)
  else base.

(** ** The SDK *)

Class MooncakeDistributedStore (Store : Type) : Type := {
  batch_is_exist : list string → M Store (list Z);
  batch_put_from : list string → list Z → list Z → M Store (list Z);
  batch_get_into : list string → list Z → list Z → M Store (list Z);
}.

(** ** [MooncakeStoreClient] *)

Section client.
Context {Store : Type} `{!MooncakeDistributedStore Store}.

Definition batch_exists_impl (keys_strs : list string) : M Store (list Z) := batch_is_exist keys_strs.
Definition zero_copy_put_impl (keys_strs : list string) (buffer_ptrs buffer_sizes : list Z) : M Store (list Z) :=
  batch_put_from keys_strs buffer_ptrs buffer_sizes.
Definition zero_copy_get_impl (keys_strs : list string) (buffer_ptrs buffer_sizes : list Z) : M Store (list Z) :=
  batch_get_into keys_strs buffer_ptrs buffer_sizes.

Definition _check_success (results : list Z) (is_set_operate : bool) : list bool :=
  (λ k_res, if is_set_operate then k_res =? 0 else 0 <? k_res) <$> results.

(** How many keys exist from the first one on; a short answer raises. *)
Fixpoint existing_prefix (keys_strs : list string) (exit_results : list Z) : result Z :=
  match keys_strs, exit_results with
  | [], _ => mret 0
  | _ :: _, [] => Raise IndexError
  | _ :: keys, r :: results => if negb (r =? 1) then mret 0 else n ← existing_prefix keys results; mret (1 + n)
  end.

Definition batch_exists (keys_strs : list string) : M Store Z :=
  exit_results ← batch_exists_impl keys_strs;
  lift_result (existing_prefix keys_strs exit_results).

(** [put] compares the list of codes with 0: the comparison is always false. *)
Definition put (key : string) (buffer_ptr buffer_size : Z) : M Store bool :=
  exist_result ← batch_exists [key];
  if exist_result =? 1 then mret true
  else
    _ ← batch_put_from [key] [buffer_ptr] [buffer_size];
    mret false.

Definition get (key : string) (buffer_ptr buffer_size : Z) : M Store bool :=
  ret_code ← batch_get_into [key] [buffer_ptr] [buffer_size];
  match ret_code with r :: _ => mret (0 <=? r) | [] => raise IndexError end.

(** A block to write: its key, its address, its size. *)
Abbreviation Item := (string * Z * Z)%type.

(** The blocks whose key is not there, with their indices. *)
Fixpoint missing_items (i : nat) (items : list Item) (exist_results : list Z) : result (list (nat * Item)) :=
  match items, exist_results with
  | [], _ => mret []
  | _ :: _, [] => Raise IndexError
  | it :: items, r :: results =>
      rest ← missing_items (S i) items results;
      mret (if negb (r =? 1) then (i, it) :: rest else rest)
  end.

(** [set_results[set_indices[i]] = put_results[i]] *)
Fixpoint scatter (indices : list nat) (values results : list Z) : result (list Z) :=
  match indices, values with
  | [], _ => mret results
  | _ :: _, [] => Raise IndexError
  | i :: indices, v :: values => scatter indices values (<[i := v]> results)
  end.

Definition batch_put (key_strs : list string) (buffer_ptrs buffer_sizes : list Z) : M Store (list bool) :=
  assertM ((zlen key_strs =? zlen buffer_ptrs) && (zlen buffer_ptrs =? zlen buffer_sizes)) ;;
  exist_results ← batch_exists_impl key_strs;
  set_items ← lift_result (missing_items 0 (zip (zip key_strs buffer_ptrs) buffer_sizes) exist_results);
  let set_results := (λ r, if negb (r =? 1) then -1 else 0) <$> take (length key_strs) exist_results in
  set_results ←
    (if 0 <? zlen set_items then
       put_results ← zero_copy_put_impl ((λ x, x.2.1.1) <$> set_items) ((λ x, x.2.1.2) <$> set_items) ((λ x, x.2.2) <$> set_items);
       lift_result (scatter set_items.*1 put_results set_results)
     else mret set_results);
  mret (_check_success set_results true).

Definition batch_get (key_strs : list string) (buffer_ptrs buffer_sizes : list Z) : M Store (list bool) :=
  get_results ← zero_copy_get_impl key_strs buffer_ptrs buffer_sizes;
  mret (_check_success get_results false).

(** ** [MooncakeStoreCacheEngine] *)

Record MooncakeStoreCacheEngine : Type := mkMooncake {
  keys : KeyConfig;
  swa_enabled : bool;
}.

Definition _build_pool_key (m : MooncakeStoreCacheEngine) (block_hash : string) (kind : PoolKind) : string := build_key block_hash kind (keys m).

(** [for i in range(n_blocks)] up to the first [exists[i] != 1]; a short list raises. *)
Fixpoint _longest_kv_prefix (exists_ : list Z) (n_blocks : nat) {struct n_blocks} : result nat :=
  match n_blocks with
  | 0%nat => mret 0%nat
  | S n => match exists_ with
           | [] => Raise IndexError
           | r :: exists_ => if r =? 1 then m ← _longest_kv_prefix exists_ n; mret (S m) else mret 0%nat
           end
  end.

(** [for L in range(L, 0, -1)]: the first with [swa_exists[L - 1] == 1], or 0. *)
Fixpoint last_snapshot (swa_exists : list Z) (L : nat) : result nat :=
  match L with
  | 0%nat => mret 0%nat
  | S L' => match swa_exists !! L' with
            | None => Raise IndexError
            | Some r => if r =? 1 then mret L else last_snapshot swa_exists L'
            end
  end.

(** [(joint_matched, kv_matched, swa_hit_blocks)] *)
Definition _joint_match_length (m : MooncakeStoreCacheEngine) (block_hashes : list string) : M Store (nat * nat * nat) :=
  let n_blocks := length block_hashes in
  if (n_blocks =? 0)%nat then mret (0, 0, 0)%nat
  else
    let kv_keys := (λ h, _build_pool_key m h KV) <$> block_hashes in
    if negb (swa_enabled m) then
      kv_matched ← batch_exists kv_keys;
      mret (Z.to_nat kv_matched, Z.to_nat kv_matched, 0%nat)
    else
      let swa_keys := (λ h, _build_pool_key m h SWA) <$> block_hashes in
      raw ← batch_exists_impl (kv_keys ++ swa_keys);
      kv_matched ← lift_result (_longest_kv_prefix (take n_blocks raw) n_blocks);
      if (kv_matched =? 0)%nat then mret (0, 0, 0)%nat
      else
        joint_matched ← lift_result (last_snapshot (drop n_blocks raw) kv_matched);
        mret (joint_matched, kv_matched, joint_matched).

Definition swa_tail_key_exists (m : MooncakeStoreCacheEngine) (tail_hash : string) : M Store bool :=
  if negb (swa_enabled m) then mret false
  else n ← batch_exists [_build_pool_key m tail_hash SWA]; mret (0 <? n).

(** [MatchResultAccel] as [match] fills it; it has no nodes. *)
Record MatchResultAccel : Type := mkMatchAccel {
  ma_num_ready_matched_blocks : nat;
  ma_num_matched_blocks : nat;
  ma_kv_matched_blocks : nat;
  ma_swa_hit_blocks : nat;
  ma_last_node_matched_length : nat;
  ma_physical_blocks : list Z;
  ma_matched_pos : string;
}.

(** [(hit, slot, node)]; there is no node. *)
Definition match_swa_from_result (match_result : option MatchResultAccel) (upper_bound_blocks : Z) : Z * Z :=
  let swa_hit := match match_result with Some r => Z.of_nat (ma_swa_hit_blocks r) | None => 0 end in
  if (swa_hit <=? 0) || (upper_bound_blocks <=? 0) then (0, -1)
  else (Z.min swa_hit upper_bound_blocks, 0).

Definition match_swa_locked (upper_bound_blocks : Z) : Z * Z := match_swa_from_result None upper_bound_blocks.

Definition match_ (m : MooncakeStoreCacheEngine) (sequence_meta : SequenceMeta) : M Store MatchResultAccel :=
  let n_blocks := num_blocks sequence_meta in
  if (n_blocks =? 0)%nat then mret (mkMatchAccel 0 0 0 0 0 [] "global")
  else
    if (length (Block.block_hashes sequence_meta) <? n_blocks)%nat then raise IndexError
    else
      '(joint_matched, kv_matched, swa_hit) ← _joint_match_length m (pretty <$> take n_blocks (Block.block_hashes sequence_meta));
      mret (mkMatchAccel joint_matched joint_matched kv_matched swa_hit joint_matched (Z.of_nat <$> seq 0 joint_matched) "global").

(** The store manages its own blocks: [take] answers placeholders, and the other calls do nothing. *)
Definition take_ (num_required_blocks : nat) : list Z := replicate num_required_blocks 0.
Definition recycle (block_ids : list Z) : M Store unit := mret tt.

(** ** Fault injection *)

(** The environment, with what the generator draws. *)
Record FaultEnv : Type := mkFault {
  fault_mode : string;
  fault_op : string;
  fault_applies : bool;
  fault_tail_n : Z;
  fault_draws : nat → bool;
}.
Definition no_fault : FaultEnv := mkFault "" "both" true 1 (λ _, true).

Definition is_mooncake_fault_inject_enabled (env : FaultEnv) : bool :=
  negb (bool_decide (fault_mode env = ""%string)) && negb (bool_decide (fault_mode env = "none"%string)).

Definition _normalize_op_name (transfer_type : TransferType) : string :=
  match transfer_type with REMOTE2H => "get" | H2REMOTE => "put" | _ => "" end.

Definition inject_mooncake_fault (env : FaultEnv) (results : list bool) (transfer_type : TransferType) : list bool :=
  let op_name := _normalize_op_name transfer_type in
  let n := length results in
  if negb (is_mooncake_fault_inject_enabled env) then results
  else if bool_decide (fault_op env = "get"%string) && negb (bool_decide (op_name = "get"%string)) then results
  else if bool_decide (fault_op env = "put"%string) && negb (bool_decide (op_name = "put"%string)) then results
  else if (n =? 0)%nat then results
  else if negb (fault_applies env) then results
  else if bool_decide (fault_mode env = "full_fail"%string) then replicate n false
  else if bool_decide (fault_mode env = "first_ok"%string) then true :: replicate (n - 1) false
  else if bool_decide (fault_mode env = "tail_fail"%string) then
    let tail_n := Z.to_nat (Z.max 1 (Z.min (Z.of_nat n) (fault_tail_n env))) in
    replicate (n - tail_n) true ++ replicate tail_n false
  else if bool_decide (fault_mode env = "random"%string) then fault_draws env <$> seq 0 n
  else results.

(** ** [MooncakeStoreTransferWorker] *)

Record MooncakeStoreTransferWorker : Type := mkWorker {
  worker_keys : KeyConfig;
  pool_kind : PoolKind;
  base_ptr : Z;
  block_size_bytes : Z;
  fault_env : FaultEnv;
}.

Definition _transfer_impl (w : MooncakeStoreTransferWorker) (cpu_ptrs block_sizes : list Z) (ks : list string) (transfer_type : TransferType)
    : M Store (list bool) :=
  match transfer_type with
  | H2REMOTE => batch_put ks cpu_ptrs block_sizes
  | REMOTE2H =>
      get_results ← batch_get ks cpu_ptrs block_sizes;
      mret (if is_mooncake_fault_inject_enabled (fault_env w) then inject_mooncake_fault (fault_env w) get_results transfer_type else get_results)
  | _ => raise (ValueError "MooncakeStoreTransferWorker only supports H2REMOTE/REMOTE2H")
  end.

(** The host side of the op. *)
Definition cpu_block_ids (o : WorkerTransferOp) : list Z :=
  match w_transfer_type o with REMOTE2H => w_dst_block_ids o | _ => w_src_block_ids o end.

Definition cpu_ptr (w : MooncakeStoreTransferWorker) (blk_id : Z) : Z := base_ptr w + blk_id * block_size_bytes w.

(** [(cpu_ptrs, block_sizes, keys)]: the i-th host block goes with the i-th hash. *)
Fixpoint addressed (w : MooncakeStoreTransferWorker) (blocks : list Z) (hashes : list string) (kind : PoolKind) : result (list Z * list Z * list string) :=
  match blocks, hashes with
  | [], _ => mret ([], [], [])
  | _ :: _, [] => Raise IndexError
  | b :: blocks, h :: hashes =>
      '(ptrs, sizes, ks) ← addressed w blocks hashes kind;
      mret (cpu_ptr w b :: ptrs, block_size_bytes w :: sizes, build_key h kind (worker_keys w) :: ks)
  end.

Definition _preprocess_kv (w : MooncakeStoreTransferWorker) (o : WorkerTransferOp) : result (list Z * list Z * list string) :=
  match w_block_hashes o with
  | None => Raise AssertionError
  | Some hashes => addressed w (cpu_block_ids o) (pretty <$> hashes) KV
  end.

Definition _preprocess_swa (w : MooncakeStoreTransferWorker) (o : WorkerTransferOp) : result (list Z * list Z * list string) :=
  match w_swa_block_hashes o with
  | None => Raise (ValueError "SWA mooncake transfer requires mooncake_store_swa_block_hashes")
  | Some tail_hashes =>
      if negb (zlen tail_hashes =? zlen (cpu_block_ids o))
      then Raise (ValueError "SWA mooncake transfer requires len(swa_block_hashes) == len(cpu_block_ids)")
      else addressed w (cpu_block_ids o) tail_hashes SWA
  end.

Definition preprocess (w : MooncakeStoreTransferWorker) (o : WorkerTransferOp) : result (list Z * list Z * list string) :=
  match pool_kind w with SWA => _preprocess_swa w o | KV => _preprocess_kv w o end.

(** The [try] block that moves the data. *)
Definition attempt_transfer (w : MooncakeStoreTransferWorker) (o : WorkerTransferOp) : M Store (list bool) :=
  let expected_blocks := zlen (w_src_block_ids o) in
  '(cpu_ptrs, block_sizes, ks) ← lift_result (preprocess w o);
  if negb (zlen ks =? expected_blocks) then raise (ValueError "Mooncake key count does not match transfer block count")
  else
    block_results ← _transfer_impl w cpu_ptrs block_sizes ks (w_transfer_type o);
    if negb (zlen block_results =? expected_blocks) then raise (ValueError "Mooncake result count does not match transfer block count")
    else mret block_results.

(** [sum(block_sizes)]: nothing was addressed when the preprocessing raised. *)
Definition transfer_size (w : MooncakeStoreTransferWorker) (o : WorkerTransferOp) : Z :=
  match preprocess w o with Ok (_, block_sizes, _) => foldr Z.add 0 block_sizes | Raise _ => 0 end.

(** Whatever fails, the op is reported: all its blocks as unsuccessful.  [_log_transfer_performance] writes a log
    record from the op, the size and the clock; all that matters of it is whether it raises. *)
Definition launch_transfer (_log_transfer_performance : WorkerTransferOp → Z → result unit) (w : MooncakeStoreTransferWorker)
    (o : WorkerTransferOp) : M Store WorkerTransferResult := λ s,
  let all_failed := replicate (length (w_src_block_ids o)) false in
  let '(r, s) := attempt_transfer w o s in
  let normalized_results := match r with Ok block_results => block_results | Raise _ => all_failed end in
  let normalized_results := match _log_transfer_performance o (transfer_size w o) with Ok _ => normalized_results | Raise _ => all_failed end in
  (Ok (mkWorkerTransferResult (w_op_id o) (Some normalized_results)), s).
End client.
End Mooncake.
