(* ===== verification/MooncakeSpec.v ===== *)
(** * What the remote tier answers

    Proofs about [Mooncake]: keys of different blocks, pools and pipeline ranks never
    meet; a match ends at the deepest snapshot inside the longest stored prefix; the
    worker reports every op once, and reports a block as moved only when the store
    confirmed that very block. *)

From Stdlib Require Import Ascii.
From stdpp Require Import pretty.
From S2P Require Import Prelude Block Transfer TransferEngine Mooncake.
Import TransferEngine.TransferEngine Mooncake.Mooncake.
Local Open Scope Z_scope.

Module MooncakeSpec.

(** ** Strings without an underscore *)

Fixpoint no_underscore (s : string) : bool :=
  match s with
  | EmptyString => true
  | String a s => negb (bool_decide (a = "_"%char)) && no_underscore s
  end.

Lemma split_underscore s t x y :
  no_underscore s → no_underscore t → s +:+ "_" +:+ x = t +:+ "_" +:+ y → s = t ∧ x = y.
Proof.
  revert t. induction s as [|a s IH]; intros [|b t] Hs Ht E; simpl in E; injection E; clear E.
  - intros E. by split.
  - by intros _ <-.
  - by intros _ ->.
  - intros E <-. cbn [no_underscore] in Hs, Ht. apply andb_True in Hs as [_ Hs], Ht as [_ Ht]. by destruct (IH t Hs Ht E) as [-> ->].
Qed.

Lemma no_underscore_N_go x s : no_underscore s → no_underscore (pretty_N_go x s).
Proof.
  revert s. induction (N.lt_wf_0 x) as [x _ IH]; intros s Hs. assert (x = 0 ∨ 0 < x)%N as [->|Hx] by lia; [done|].
  rewrite pretty_N_go_step by done. apply IH; [by apply N.div_lt|]. unfold pretty_N_char. by repeat case_match.
Qed.

Lemma no_underscore_pretty (n : Z) : no_underscore (pretty n).
Proof.
  assert (∀ m : N, no_underscore (pretty m)) as HN.
  { intros m. unfold pretty, pretty_N. case_decide; [done|]. by apply no_underscore_N_go. }
  destruct n; [done|apply HN|exact (HN _)].
Qed.

Lemma append_inj_r (s x y : string) : s +:+ x = s +:+ y → x = y.
Proof. induction s; simpl; intros; simplify_eq; auto. Qed.

(** ** Keys *)

(** This process stores all layers under the bare key. *)
Definition sole (c : KeyConfig) : bool :=
  ((0 <? total_layers c) && (node_layer_end c - node_layer_start c =? total_layers c)) || negb (1 <? pp_size c).

(** Two processes that share their keys. *)
Definition same_part (c c' : KeyConfig) : Prop :=
  sole c = sole c' ∧ (sole c = false → pp_rank c = pp_rank c' ∧ pp_size c = pp_size c').

Definition suffix (c : KeyConfig) : string :=
  if sole c then "" else "_" +:+ "pp_rank_" +:+ pretty (pp_rank c) +:+ "_" +:+ "of_" +:+ pretty (pp_size c).

Lemma append_assoc (s t u : string) : (s +:+ t) +:+ u = s +:+ (t +:+ u).
Proof. induction s as [|a s IH]; [reflexivity|]. exact (f_equal (String a) IH). Qed.

Lemma append_nil (s : string) : s +:+ "" = s.
Proof. induction s as [|a s IH]; [reflexivity|]. exact (f_equal (String a) IH). Qed.

Lemma build_key_suffix h k c : build_key h k c = h +:+ "_" +:+ (pool_value k +:+ suffix c).
Proof.
  unfold build_key, suffix, sole. destruct ((0 <? total_layers c) && _); simpl.
  - by rewrite append_nil.
  - destruct (1 <? pp_size c); simpl; [|by rewrite append_nil]. rewrite append_assoc. simpl. by rewrite !append_assoc.
Qed.

Lemma suffix_inj c c' : suffix c = suffix c' ↔ same_part c c'.
Proof.
  unfold suffix, same_part. destruct (sole c), (sole c'); try (split; [done|by intros []]).
  split; [|intros [_ H]; by destruct H as [-> ->]]. intros H. split; [done|]. intros _.
  apply append_inj_r in H. apply append_inj_r in H. apply split_underscore in H as [H1 H2]; [|apply no_underscore_pretty..].
  apply append_inj_r in H2. split; by eapply (inj pretty).
Qed.

(** Keys of the store never collide: two blocks share a key exactly when their hashes are equal, they are of the same pool (full KV or SWA snapshot), and
    the two processes hold the same part of the model (both all layers or no pipeline, or the same rank of the same number of ranks). So a
    snapshot is never read as a KV block, nor a layer range of one rank as that of another. *)
Theorem build_key_inj (h h' : Z) k k' c c' :
  build_key (pretty h) k c = build_key (pretty h') k' c' ↔ h = h' ∧ k = k' ∧ same_part c c'.
Proof.
  rewrite !build_key_suffix, <- suffix_inj. split; [|by intros (-> & -> & ->)]. intros H.
  apply split_underscore in H as [H1 H2]; [|apply no_underscore_pretty..]. split; [by eapply (inj pretty)|].
  destruct k, k'; simpl in H2; simplify_eq; try done.
  - exfalso. revert H2. unfold suffix. by destruct (sole c).
  - exfalso. revert H2. unfold suffix. by destruct (sole c').
Qed.
(** ** Matching *)

(** [k] is the length of the longest prefix of the first [n] numbers on which [there] holds. *)
Definition longest (there : nat → Prop) (n k : nat) : Prop :=
  (k <= n)%nat ∧ (∀ i, (i < k)%nat → there i) ∧ ((k < n)%nat → ¬ there k).

(** [j] is the largest of 1 .. [k] with a snapshot of the [j]-th block, or 0. *)
Definition deepest (snap : nat → Prop) (k j : nat) : Prop :=
  (j <= k)%nat ∧ ((0 < j)%nat → snap (j - 1)%nat) ∧ ∀ i, (j < i <= k)%nat → ¬ snap (i - 1)%nat.

Section store.
Context {Store : Type} `{!MooncakeDistributedStore Store}.
Implicit Types (s : Store) (m : MooncakeStoreCacheEngine).

Lemma longest_S there n k : there 0%nat → longest (λ i, there (S i)) n k → longest there (S n) (S k).
Proof.
  intros H0 (H1 & H2 & H3). split; [lia|]. split; [intros [|i] Hi; [done|apply H2; lia]|]. intros Hk. apply H3. lia.
Qed.

Lemma existing_prefix_run (ks : list string) (Ans : string → Z) :
  ∃ n, existing_prefix ks (Ans <$> ks) = Ok (Z.of_nat n) ∧ longest (λ i, ∃ k, ks !! i = Some k ∧ Ans k = 1) (length ks) n.
Proof.
  induction ks as [|k ks (n & E & L)]; [exists 0%nat; split; [done|]; split; [done|]; split; simpl; intros; lia|]. rewrite fmap_cons. cbn [existing_prefix length].
  destruct (Z.eqb_spec (Ans k) 1) as [Hk|Hk]; cbn [negb].
  - exists (S n). rewrite E. split; [cbn; f_equal; lia|]. apply longest_S; [by exists k|done].
  - exists 0%nat. split; [done|]. split; [lia|]. split; [intros; lia|]. intros _ (? & [= <-] & ?). done.
Qed.

Lemma longest_prefix_run (r : list Z) n :
  (n <= length r)%nat → ∃ k, _longest_kv_prefix r n = Ok k ∧ longest (λ i, r !! i = Some 1) n k.
Proof.
  revert r. induction n as [|n IH]; intros r Hn; [exists 0%nat; split; [done|]; split; [done|]; split; intros; lia|].
  destruct r as [|x r]; simpl in *; [lia|]. destruct (Z.eqb_spec x 1) as [->|Hx].
  - destruct (IH r) as (k & E & L); [lia|]. exists (S k). rewrite E. split; [done|]. by apply longest_S.
  - exists 0%nat. split; [done|]. split; [lia|]. split; [intros; lia|]. intros _ [= ->]. done.
Qed.

Lemma last_snapshot_run (r : list Z) L :
  (L <= length r)%nat → ∃ j, last_snapshot r L = Ok j ∧ deepest (λ i, r !! i = Some 1) L j.
Proof.
  induction L as [|L IH]; intros Hl; [exists 0%nat; split; [done|]; split; [done|]; split; intros; lia|].
  simpl. destruct (lookup_lt_is_Some_2 r L) as [x Hx]; [lia|]. rewrite Hx. destruct (Z.eqb_spec x 1) as [->|Hn].
  - exists (S L). split; [done|]. split; [done|]. replace (S L - 1)%nat with L by lia. split; [done|]. intros; lia.
  - destruct IH as (j & E & D1 & D2 & D3); [lia|]. exists j. split; [done|]. split; [lia|]. split; [done|]. intros i Hi.
    destruct (decide (i = S L)) as [->|]; [|apply D3; lia]. replace (S L - 1)%nat with L by lia. rewrite Hx. congruence.
Qed.

Lemma longest_iff P Q n k : (∀ i, (i < n)%nat → P i ↔ Q i) → longest P n k → longest Q n k.
Proof. intros HPQ (H1 & H2 & H3). split; [done|]. split; [intros i Hi; apply HPQ; [lia|by apply H2]|]. intros Hk. rewrite <- HPQ by done. by apply H3. Qed.

Lemma deepest_iff P Q n k : (∀ i, (i < n)%nat → P i ↔ Q i) → deepest P n k → deepest Q n k.
Proof.
  intros HPQ (H1 & H2 & H3). split; [done|]. split; [intros Hk; apply HPQ; [lia|by apply H2]|]. intros i Hi. rewrite <- HPQ by lia. by apply H3.
Qed.

(** The store has the entry of pool [kind] for block [i]. *)
Definition stored m (Ans : string → Z) (hashes : list string) (kind : PoolKind) (i : nat) : Prop :=
  ∃ h, hashes !! i = Some h ∧ Ans (build_key h kind (keys m)) = 1.

Lemma stored_lookup m Ans hashes kind i : (Ans <$> ((λ h, _build_pool_key m h kind) <$> hashes)) !! i = Some 1 ↔ stored m Ans hashes kind i.
Proof.
  rewrite !list_lookup_fmap. unfold stored, _build_pool_key. destruct (hashes !! i) as [h|]; simpl; [|split; [done|by intros (? & ? & _)]].
  split; [intros [= Hx]; by exists h|]. intros (? & [= <-] & Hx). f_equal. exact Hx.
Qed.

Lemma joint_run m (Ans : string → Z) (hashes : list string) s :
  (∀ ks, batch_is_exist ks s = (Ok (Ans <$> ks), s)) →
  ∃ joint kv hit, _joint_match_length m hashes s = (Ok (joint, kv, hit), s) ∧ longest (stored m Ans hashes KV) (length hashes) kv ∧
    if swa_enabled m then deepest (stored m Ans hashes SWA) kv joint ∧ hit = joint else joint = kv ∧ hit = 0%nat.
Proof.
  intros HA. unfold _joint_match_length. destruct (Nat.eqb_spec (length hashes) 0) as [E0|E0].
  { exists 0%nat, 0%nat, 0%nat. rewrite E0. split; [done|]. split; [split; [done|]; split; intros; lia|].
    destruct (swa_enabled m); [|done]. split; [|done]. split; [done|]. split; intros; lia. }
  destruct (swa_enabled m) eqn:Es; simpl.
  2:{ unfold batch_exists, batch_exists_impl. rewrite !M_bind_run, HA.
      destruct (existing_prefix_run ((λ h, _build_pool_key m h KV) <$> hashes) Ans) as (n & E & L). rewrite E. cbn [lift_result].
      exists n, n, 0%nat. rewrite Nat2Z.id. split; [done|]. split; [|done]. rewrite length_fmap in L. eapply longest_iff; [|exact L]. intros i Hi. cbn beta.
      rewrite <- stored_lookup. rewrite !list_lookup_fmap. destruct (hashes !! i) as [h|]; simpl; [|split; [by intros (? & ? & _)|done]].
      split; [by intros (? & [= <-] & ->)|]. intros [= Hx]. by exists (_build_pool_key m h KV). }
  unfold batch_exists_impl. rewrite M_bind_run, HA, fmap_app. rewrite take_app_length', drop_app_length' by (by rewrite !length_fmap).
  rewrite M_bind_run. destruct (longest_prefix_run (Ans <$> ((λ h, _build_pool_key m h KV) <$> hashes)) (length hashes)) as (kv & E & L).
  { by rewrite !length_fmap. }
  rewrite E. cbn [lift_result].
  assert (longest (stored m Ans hashes KV) (length hashes) kv) as L' by (eapply longest_iff; [|exact L]; intros; apply stored_lookup).
  destruct (Nat.eqb_spec kv 0) as [->|Hk].
  { exists 0%nat, 0%nat, 0%nat. split; [done|]. split; [done|]. split; [|done]. split; [done|]. split; intros; lia. }
  rewrite M_bind_run. destruct (last_snapshot_run (Ans <$> ((λ h, _build_pool_key m h SWA) <$> hashes)) kv) as (j & Ej & D).
  { rewrite !length_fmap. apply L. }
  rewrite Ej. cbn [lift_result]. exists j, kv, j. split; [done|]. split; [done|]. split; [|done].
  eapply deepest_iff; [|exact D]. intros; apply stored_lookup.
Qed.

(** The full-KV length of a match, which the answered length does not exceed. *)
Lemma match_kv_longest m (seq : SequenceMeta) (Ans : string → Z) s r s' :
  (∀ ks, batch_is_exist ks s = (Ok (Ans <$> ks), s)) → (num_blocks seq <= length (Block.block_hashes seq))%nat → match_ m seq s = (Ok r, s') →
  longest (stored m Ans (pretty <$> take (num_blocks seq) (Block.block_hashes seq)) KV) (num_blocks seq) (ma_kv_matched_blocks r) ∧
  (ma_kv_matched_blocks r = 0 → ma_num_matched_blocks r = 0)%nat.
Proof.
  intros HA Hl. unfold match_. set (hashes := pretty <$> _). destruct (Nat.eqb_spec (num_blocks seq) 0) as [E0|E0].
  { intros [= <- _]. rewrite E0. cbn. split; [|done]. split; [done|]. split; intros; lia. }
  rewrite (proj2 (Nat.ltb_ge _ _)) by done. rewrite M_bind_run. destruct (joint_run m Ans hashes s HA) as (j & kv & hit & E & L & D).
  rewrite E. intros [= <- _]. cbn. assert (length hashes = num_blocks seq) as El by (unfold hashes; rewrite length_fmap, length_take; lia). rewrite El in L.
  split; [done|]. intros ->. destruct (swa_enabled m); [destruct D as [(D & _) _]; lia|by destruct D as [-> _]].
Qed.

(** [C16] A match on the remote tier: whatever the store holds, [match] asks it once and changes nothing; the full-KV length is the longest prefix of the request
    whose KV keys are all there; with SWA, the answered length is the largest one inside that prefix with a snapshot of its last block (0 without one), so the
    snapshot it promises exists and lies under full KV; without SWA it is that prefix. All of it is ready, with one placeholder per block. *)
Theorem mooncake_match_spec m (seq : SequenceMeta) (Ans : string → Z) s :
  (∀ ks, batch_is_exist ks s = (Ok (Ans <$> ks), s)) → (num_blocks seq <= length (Block.block_hashes seq))%nat →
  let hashes := pretty <$> take (num_blocks seq) (Block.block_hashes seq) in
  ∃ r, match_ m seq s = (Ok r, s) ∧ ma_num_ready_matched_blocks r = ma_num_matched_blocks r ∧
    length (ma_physical_blocks r) = ma_num_matched_blocks r ∧
    longest (stored m Ans hashes KV) (num_blocks seq) (ma_kv_matched_blocks r) ∧
    if swa_enabled m then deepest (stored m Ans hashes SWA) (ma_kv_matched_blocks r) (ma_num_matched_blocks r) ∧ ma_swa_hit_blocks r = ma_num_matched_blocks r
    else ma_num_matched_blocks r = ma_kv_matched_blocks r ∧ ma_swa_hit_blocks r = 0%nat.
Proof.
  intros HA Hl hashes. unfold match_. destruct (Nat.eqb_spec (num_blocks seq) 0) as [E0|E0].
  { eexists. split; [done|]. simpl. rewrite E0. split; [done|]. split; [done|]. split; [split; [done|]; split; intros; lia|].
    destruct (swa_enabled m); [|done]. split; [|done]. split; [done|]. split; intros; lia. }
  rewrite (proj2 (Nat.ltb_ge _ _)) by done. rewrite M_bind_run. destruct (joint_run m Ans hashes s HA) as (j & kv & hit & E & L & D).
  fold hashes. rewrite E. eexists. split; [done|]. simpl. split; [done|]. split; [by rewrite length_fmap, length_seq|].
  assert (length hashes = num_blocks seq) as El by (unfold hashes; rewrite length_fmap, length_take; lia). rewrite El in L.
  split; [done|]. by destruct (swa_enabled m).
Qed.
(** ** Writing *)

Lemma missing_spec (items : list (string * Z * Z)) : ∀ codes i l,
  missing_items i items codes = Ok l →
  (length items <= length codes)%nat ∧
  (∀ j x, l !! j = Some x → (i <= x.1)%nat ∧ items !! (x.1 - i)%nat = Some x.2) ∧
  (∀ k c, (k < length items)%nat → codes !! k = Some c → c = 1 ∨ (i + k)%nat ∈ l.*1).
Proof.
  induction items as [|it items IH]; intros codes i l H.
  { injection H as <-. split; [simpl; lia|]. split; [done|]. simpl. intros; lia. }
  destruct codes as [|c codes]; [done|]. cbn [missing_items] in H. apply result_bind_inv in H as (rest & Hr & H). injection H as H.
  destruct (IH _ _ _ Hr) as (Hlen & H1 & H2). split; [simpl; lia|]. split.
  - intros j x Hx. assert ((∃ j', rest !! j' = Some x) ∨ x = (i, it)) as [[j' Hj]| ->].
    { subst l. destruct (negb (c =? 1)); [|by left; exists j]. destruct j as [|j]; [right; by injection Hx|left; by exists j]. }
    + destruct (H1 j' x Hj) as [Hi Hit]. split; [lia|]. replace (x.1 - i)%nat with (S (x.1 - S i)) by lia. done.
    + simpl. split; [done|]. by rewrite Nat.sub_diag.
  - intros [|k] d Hk Hd; simpl in *.
    + injection Hd as ->. rewrite Nat.add_0_r. subst l. destruct (Z.eqb_spec d 1); [by left|right]. left.
    + destruct (H2 k d) as [?|Hin]; [lia|done|by left|right]. replace (i + S k)%nat with (S i + k)%nat by lia. subst l.
      destruct (negb (c =? 1)); [by right|done].
Qed.

Lemma scatter_spec (indices : list nat) : ∀ values l l',
  scatter indices values l = Ok l' → length l' = length l ∧
  ∀ k v, l' !! k = Some v → (¬ k ∈ indices ∧ l !! k = Some v) ∨ (∃ j, indices !! j = Some k ∧ values !! j = Some v).
Proof.
  induction indices as [|i indices IH]; intros values l l' H.
  { injection H as <-. split; [done|]. intros k v Hk. left. split; [apply not_elem_of_nil|done]. }
  destruct values as [|x values]; [done|]. cbn [scatter] in H. destruct (IH _ _ _ H) as [Hlen Hl]. rewrite length_insert in Hlen. split; [done|].
  intros k v Hk. destruct (Hl k v Hk) as [[Hn Hv]|(j & Hj & Hv)]; [|right; by exists (S j)].
  destruct (decide (k = i)) as [->|Hne].
  - right. exists 0%nat. split; [done|]. apply list_lookup_insert_Some in Hv as [(_ & -> & _)|[? _]]; done.
  - left. rewrite list_lookup_insert_ne in Hv by done. split; [|done]. rewrite elem_of_cons. tauto.
Qed.

(** What the SDK said about one block in a call that started in [s]. *)
Definition read_confirmed (s : Store) (i : nat) (it : string * Z * Z) : Prop :=
  ∃ ks ptrs sizes codes s', batch_get_into ks ptrs sizes s = (Ok codes, s') ∧
    zip (zip ks ptrs) sizes !! i = Some it ∧ ∃ c, codes !! i = Some c ∧ 0 < c.
Definition write_confirmed (s : Store) (i : nat) (it : string * Z * Z) : Prop :=
  ∃ ks codes s1, batch_is_exist ks s = (Ok codes, s1) ∧ ks !! i = Some it.1.1 ∧
    (codes !! i = Some 1 ∨
     ∃ (its : list (string * Z * Z)) j results s2, batch_put_from ((λ x, x.1.1) <$> its) ((λ x, x.1.2) <$> its) ((λ x, x.2) <$> its) s1 = (Ok results, s2) ∧
       its !! j = Some it ∧ results !! j = Some 0).

Lemma batch_put_spec ks ptrs sizes s bits s' :
  batch_put ks ptrs sizes s = (Ok bits, s') → length bits = length ks ∧
  ∀ i, bits !! i = Some true → ∃ it, zip (zip ks ptrs) sizes !! i = Some it ∧ write_confirmed s i it.
Proof.
  unfold batch_put. rewrite M_bind_run. unfold assertM, lift_result at 1, py_assert.
  destruct ((zlen ks =? zlen ptrs) && (zlen ptrs =? zlen sizes)) eqn:El; [|done]. apply andb_true_iff in El as [E1%Z.eqb_eq E2%Z.eqb_eq].
  unfold zlen in E1, E2. rewrite M_bind_run. unfold batch_exists_impl. destruct (batch_is_exist ks s) as [[codes|] s1] eqn:Ex; [|done].
  rewrite M_bind_run. unfold lift_result at 1. set (items := zip (zip ks ptrs) sizes).
  assert (length items = length ks) as Hit by (unfold items; rewrite !length_zip_with; lia).
  destruct (missing_items 0 items codes) as [l|] eqn:Em; [|done]. destruct (missing_spec _ _ _ _ Em) as (Hlen & Hm1 & Hm2).
  set (r0 := (λ r, if negb (r =? 1) then -1 else 0) <$> take (length ks) codes).
  assert (length r0 = length ks) as Hr0 by (unfold r0; rewrite length_fmap, length_take; lia).
  assert (∀ k v, r0 !! k = Some v → ∃ c, codes !! k = Some c ∧ (k < length ks)%nat ∧ (v = 0 → c = 1)) as Hr0v.
  { intros k v Hk. unfold r0 in Hk. rewrite list_lookup_fmap in Hk. destruct (take (length ks) codes !! k) as [c|] eqn:Ec; [|done].
    apply lookup_take_Some in Ec as [Ec Hkl]. exists c. split; [done|]. split; [done|]. injection Hk as <-. destruct (Z.eqb_spec c 1); simpl; [done|lia]. }
  assert (∀ i it, items !! i = Some it → ks !! i = Some it.1.1) as Hks.
  { intros i it Hi. unfold items in Hi. apply lookup_zip_with_Some in Hi as (x & y & -> & Hx & _). by apply lookup_zip_with_Some in Hx as (? & ? & -> & ? & _). }
  assert (∀ i, (i < length ks)%nat → ∃ it, items !! i = Some it) as Hsome by (intros i Hi; apply lookup_lt_is_Some_2; lia).
  rewrite M_bind_run. destruct (Z.ltb_spec 0 (zlen l)) as [Hl|Hl].
  - unfold zero_copy_put_impl. rewrite M_bind_run. destruct (batch_put_from _ _ _ s1) as [[results|] s2] eqn:Ep; [|done].
    unfold lift_result at 1. destruct (scatter l.*1 results r0) as [r1|] eqn:Es; [|done]. destruct (scatter_spec _ _ _ _ Es) as [Hl1 Hs1].
    cbn [mret M_ret]. intros [= <- <-]. unfold _check_success. split; [by rewrite length_fmap, Hl1|]. intros i Hi. rewrite list_lookup_fmap in Hi.
    destruct (r1 !! i) as [v|] eqn:Ev; [|done]. injection Hi as Hi. apply Z.eqb_eq in Hi. subst v.
    pose proof (lookup_lt_Some _ _ _ Ev) as Hlt. rewrite Hl1, Hr0 in Hlt. destruct (Hsome i Hlt) as [it Hiti]. exists it. split; [done|].
    exists ks, codes, s1. split; [done|]. split; [by apply Hks|]. destruct (Hs1 i 0 Ev) as [[_ Hz]|(j & Hj & Hz)].
    + left. destruct (Hr0v i 0 Hz) as (c & Hc & _ & Hc1). by rewrite Hc, Hc1.
    + right. exists l.*2, j, results, s2. rewrite <- !list_fmap_compose. split; [exact Ep|]. split; [|done].
      rewrite list_lookup_fmap in Hj. rewrite list_lookup_fmap. destruct (l !! j) as [x|] eqn:Ex'; [|done]. injection Hj as Hj. simpl.
      destruct (Hm1 j x Ex') as [_ Hx]. rewrite Nat.sub_0_r, Hj, Hiti in Hx. by injection Hx as ->.
  - cbn [mret M_ret]. intros [= <- <-]. unfold _check_success. split; [by rewrite length_fmap|]. intros i Hi. rewrite list_lookup_fmap in Hi.
    destruct (r0 !! i) as [v|] eqn:Ev; [|done]. injection Hi as Hi. apply Z.eqb_eq in Hi. subst v. destruct (Hr0v i 0 Ev) as (c & Hc & Hlt & Hc1).
    destruct (Hsome i Hlt) as [it Hiti]. exists it. split; [done|]. exists ks, codes, s1. split; [done|]. split; [by apply Hks|]. left. by rewrite Hc, Hc1.
Qed.

(** The keys that are not there are the ones written. *)
Lemma missing_run (Ans : string → Z) (items : list (string * Z * Z)) : ∀ i,
  ∃ l, missing_items i items ((λ it, Ans it.1.1) <$> items) = Ok l ∧ ∀ x, x ∈ l → Ans x.2.1.1 ≠ 1.
Proof.
  induction items as [|it items IH]; intros i; [exists []; split; [done|set_solver]|]. destruct (IH (S i)) as (l & El & Hl).
  cbn [missing_items fmap list_fmap]. rewrite El. cbn. eexists. split; [reflexivity|].
  destruct (Z.eqb_spec (Ans it.1.1) 1); cbn; [done|]. intros x [->|Hx]%elem_of_cons; [done|by apply Hl].
Qed.

Lemma scatter_run (indices : list nat) : ∀ values l, length values = length indices → ∃ l', scatter indices values l = Ok l'.
Proof. induction indices as [|i indices IH]; intros [|v values] l H; try done; [by eexists|]. apply IH. by injection H. Qed.

(** A write to a store that answers each key for itself: [Ans] on existence, [Put] on the put. *)
Lemma batch_put_exact (Ans Put : string → Z) ks ptrs sizes s s1 :
  length ptrs = length ks → length sizes = length ks → batch_is_exist ks s = (Ok (Ans <$> ks), s1) →
  (∀ its : list (string * Z * Z), ∃ s2,
     batch_put_from ((λ x, x.1.1) <$> its) ((λ x, x.1.2) <$> its) ((λ x, x.2) <$> its) s1 = (Ok ((λ x, Put x.1.1) <$> its), s2)) →
  ∃ s2, batch_put ks ptrs sizes s = (Ok ((λ k, bool_decide (Ans k = 1 ∨ Put k = 0)) <$> ks), s2).
Proof.
  intros Hp Hs Ex Hput. set (items := zip (zip ks ptrs) sizes).
  assert (length items = length ks) as Hit by (unfold items; rewrite !length_zip_with; lia).
  assert ((λ it, it.1.1) <$> items = ks) as Eks.
  { change ((fst ∘ fst) <$> items = ks). rewrite list_fmap_compose. unfold items. rewrite fst_zip by (rewrite length_zip_with; lia). apply fst_zip. lia. }
  unfold batch_put. rewrite M_bind_run. unfold assertM, lift_result at 1, py_assert.
  rewrite (proj2 (Z.eqb_eq (zlen ks) (zlen ptrs))), (proj2 (Z.eqb_eq (zlen ptrs) (zlen sizes))) by (unfold zlen; lia). cbn [andb].
  rewrite M_bind_run. unfold batch_exists_impl. rewrite Ex. rewrite M_bind_run. unfold lift_result at 1. fold items.
  destruct (missing_run Ans items 0) as (l & El & Hne). change ((λ it : string * Z * Z, Ans it.1.1) <$> items) with ((Ans ∘ (λ it : string * Z * Z, it.1.1)) <$> items) in El. rewrite list_fmap_compose, Eks in El. rewrite El.
  destruct (missing_spec _ _ _ _ El) as (_ & Hm1 & Hm2). rewrite firstn_all2 by (rewrite length_fmap; lia).
  set (r0 := _ <$> (Ans <$> ks)). assert (length r0 = length ks) as Hr0 by (unfold r0; by rewrite !length_fmap).
  assert (∀ r1, length r1 = length ks → (∀ k v, r1 !! k = Some v → (¬ k ∈ l.*1 ∧ r0 !! k = Some v) ∨ ∃ j x, l !! j = Some x ∧ x.1 = k ∧ v = Put x.2.1.1) →
    _check_success r1 true = (λ k, bool_decide (Ans k = 1 ∨ Put k = 0)) <$> ks) as Hend.
  { intros r1 Hl1 H1. apply list_eq. intros k. unfold _check_success. rewrite !list_lookup_fmap.
    destruct (r1 !! k) as [v|] eqn:Ev; [|apply lookup_ge_None in Ev; by rewrite (proj2 (lookup_ge_None ks k)) by lia].
    destruct (lookup_lt_is_Some_2 ks k) as [key Hkey]; [apply lookup_lt_Some in Ev; lia|]. rewrite Hkey. cbn. f_equal.
    destruct (H1 k v Ev) as [[Hn Hv]|(j & x & Hx & <- & ->)].
    - unfold r0 in Hv. rewrite !list_lookup_fmap, Hkey in Hv. injection Hv as <-.
      destruct (Hm2 k (Ans key)) as [E|Hin]; [apply lookup_lt_Some in Hkey; lia|by rewrite list_lookup_fmap, Hkey| |by destruct Hn].
      rewrite E. cbn. symmetry. apply bool_decide_eq_true. by left.
    - destruct (Hm1 j x Hx) as [_ Hi]. rewrite Nat.sub_0_r in Hi. assert (key = x.2.1.1) as ->.
      { assert (((λ it : string * Z * Z, it.1.1) <$> items) !! x.1 = Some x.2.1.1) as H2 by (by rewrite list_lookup_fmap, Hi). rewrite Eks in H2. congruence. }
      pose proof (Hne x ltac:(by eapply list_elem_of_lookup_2)). destruct (Z.eqb_spec (Put x.2.1.1) 0); symmetry; [apply bool_decide_eq_true; by right|].
      apply bool_decide_eq_false. tauto. }
  rewrite M_bind_run. destruct (Z.ltb_spec 0 (zlen l)) as [Hl|Hl].
  - destruct (Hput l.*2) as [s2 Ep]. rewrite <- !list_fmap_compose in Ep. unfold zero_copy_put_impl. rewrite M_bind_run.
    erewrite (Ep : batch_put_from ((λ x, x.2.1.1) <$> l) ((λ x, x.2.1.2) <$> l) ((λ x, x.2.2) <$> l) s1 = _). unfold lift_result at 1.
    destruct (scatter_run l.*1 (((λ x : string * Z * Z, Put x.1.1) ∘ snd) <$> l) r0) as [r1 Es]; [by rewrite !length_fmap|]. rewrite Es. exists s2.
    destruct (scatter_spec _ _ _ _ Es) as [Hl1 Hs1]. rewrite (Hend r1); [done|lia|].
    intros k v Hv. destruct (Hs1 k v Hv) as [?|(j & Hj & Hw)]; [by left|right]. rewrite list_lookup_fmap in Hj. rewrite list_lookup_fmap in Hw.
    destruct (l !! j) as [x|] eqn:Ex'; [|done]. injection Hj as <-. injection Hw as <-. by exists j, x.
  - exists s1. cbn [mret M_ret]. rewrite (Hend r0); [done|done|]. intros k v Hv. left. split; [|done].
    assert (l = []) as -> by (destruct l; [done|unfold zlen in Hl; cbn in Hl; lia]). apply not_elem_of_nil.
Qed.

(** ** The worker *)

Implicit Types (w : MooncakeStoreTransferWorker) (o : WorkerTransferOp).

(** The hashes an op carries for the pool of the worker. *)
Definition op_hashes w o : option (list string) :=
  match pool_kind w with KV => match w_block_hashes o with Some l => Some (pretty <$> l) | None => None end | SWA => w_swa_block_hashes o end.

(** The key, the address and the size of the [i]-th block of an op. *)
Definition block_item w o (i : nat) : option (string * Z * Z) :=
  hs ← op_hashes w o; h ← hs !! i; b ← cpu_block_ids o !! i;
  Some (build_key h (pool_kind w) (worker_keys w), cpu_ptr w b, block_size_bytes w).

Lemma addressed_run w kind blocks : ∀ hashes,
  addressed w blocks hashes kind =
    if bool_decide (length blocks <= length hashes)%nat
    then Ok (cpu_ptr w <$> blocks, replicate (length blocks) (block_size_bytes w), (λ h, build_key h kind (worker_keys w)) <$> take (length blocks) hashes)
    else Raise IndexError.
Proof.
  induction blocks as [|b blocks IH]; intros hashes; [by destruct hashes|]. destruct hashes as [|h hashes]; [done|]. cbn [addressed]. rewrite IH.
  cbn [length]. case_bool_decide as H1; case_bool_decide as H2; try lia; done.
Qed.

Lemma preprocess_inv w o r : preprocess w o = Ok r → ∃ hs, op_hashes w o = Some hs ∧ addressed w (cpu_block_ids o) hs (pool_kind w) = Ok r.
Proof.
  unfold preprocess, op_hashes, _preprocess_kv, _preprocess_swa. intros H. destruct (pool_kind w).
  - destruct (w_block_hashes o) as [l|]; [|done]. by exists (pretty <$> l).
  - destruct (w_swa_block_hashes o) as [l|]; [|done]. destruct (negb _); [done|]. by exists l.
Qed.

Lemma preprocess_ok w o hs :
  op_hashes w o = Some hs → length hs = length (cpu_block_ids o) →
  preprocess w o = Ok (cpu_ptr w <$> cpu_block_ids o, replicate (length hs) (block_size_bytes w), (λ h, build_key h (pool_kind w) (worker_keys w)) <$> hs).
Proof.
  intros Hh Hl. assert (addressed w (cpu_block_ids o) hs (pool_kind w) = Ok (cpu_ptr w <$> cpu_block_ids o, replicate (length hs) (block_size_bytes w),
    (λ h, build_key h (pool_kind w) (worker_keys w)) <$> hs)) as Ha.
  { rewrite addressed_run, bool_decide_true by lia. by rewrite <- Hl, firstn_all. }
  unfold preprocess, op_hashes, _preprocess_kv, _preprocess_swa in *. destruct (pool_kind w).
  - destruct (w_block_hashes o) as [l|]; [|done]. injection Hh as <-. exact Ha.
  - destruct (w_swa_block_hashes o) as [l|]; [|done]. injection Hh as ->. rewrite (proj2 (Z.eqb_eq _ _)) by (unfold zlen; lia). exact Ha.
Qed.

Lemma preprocess_run w o ptrs sizes ks :
  preprocess w o = Ok (ptrs, sizes, ks) → ∀ i it, zip (zip ks ptrs) sizes !! i = Some it → block_item w o i = Some it.
Proof.
  intros H i it Hi. destruct (preprocess_inv _ _ _ H) as (hs & Hh & Ha). rewrite addressed_run in Ha. case_bool_decide; [|done]. injection Ha as <- <- <-.
  apply lookup_zip_with_Some in Hi as (x & sz & -> & Hx & Hsz). apply lookup_zip_with_Some in Hx as (k & ptr & -> & Hk & Hp).
  apply lookup_replicate in Hsz as [-> _]. rewrite list_lookup_fmap in Hk. rewrite list_lookup_fmap in Hp. destruct (take _ hs !! i) as [h|] eqn:Et; [|done]. injection Hk as <-.
  apply lookup_take_Some in Et as [Et _]. destruct (cpu_block_ids o !! i) as [b|] eqn:Eb; [|done]. injection Hp as <-.
  unfold block_item. rewrite Hh. simpl. rewrite Et. simpl. by rewrite Eb.
Qed.

Lemma transfer_sound w o s ptrs sizes ks bits s' :
  is_mooncake_fault_inject_enabled (fault_env w) = false → length ptrs = length ks → length sizes = length ks → length bits = length ks →
  _transfer_impl w ptrs sizes ks (w_transfer_type o) s = (Ok bits, s') →
  ∀ i, bits !! i = Some true → ∃ it, zip (zip ks ptrs) sizes !! i = Some it ∧
    match w_transfer_type o with REMOTE2H => read_confirmed s i it | H2REMOTE => write_confirmed s i it | _ => False end.
Proof.
  intros Hf Hp Hs Hb H i Hi. unfold _transfer_impl in H. rewrite Hf in H. destruct (w_transfer_type o); try done.
  - unfold batch_get, zero_copy_get_impl in H. rewrite !M_bind_run in H. destruct (batch_get_into ks ptrs sizes s) as [[codes|] s1] eqn:E; [|done].
    cbn [mret M_ret] in H. injection H as <- <-. assert (i < length ks)%nat as Hlt by (apply lookup_lt_Some in Hi; lia).
    destruct (lookup_lt_is_Some_2 (zip (zip ks ptrs) sizes) i) as [it Hit]; [rewrite !length_zip_with; lia|]. exists it. split; [done|].
    exists ks, ptrs, sizes, codes, s1. split; [done|]. split; [done|]. unfold _check_success in Hi. rewrite list_lookup_fmap in Hi.
    destruct (codes !! i) as [c|]; [|done]. exists c. split; [done|]. injection Hi as Hi. by apply Z.ltb_lt.
  - by destruct (batch_put_spec _ _ _ _ _ _ H) as [_ Hw]; apply Hw.
Qed.

(** What the transfer itself answers when it is not interfered with. *)
Lemma attempt_true w o s bits s1 i :
  is_mooncake_fault_inject_enabled (fault_env w) = false → attempt_transfer w o s = (Ok bits, s1) → bits !! i = Some true →
  ∃ it, block_item w o i = Some it ∧
    match w_transfer_type o with REMOTE2H => read_confirmed s i it | H2REMOTE => write_confirmed s i it | _ => False end.
Proof.
  intros Hf E Hi. unfold attempt_transfer in E. rewrite M_bind_run in E. unfold lift_result in E.
  destruct (preprocess w o) as [[[ptrs sizes] ks]|] eqn:Ep; [|done]. destruct (Z.eqb_spec (zlen ks) (zlen (w_src_block_ids o))) as [Ek|]; [|done].
  cbn [negb] in E. rewrite M_bind_run in E. destruct (_transfer_impl w ptrs sizes ks (w_transfer_type o) s) as [[bits'|] s2] eqn:Et; [|done].
  destruct (Z.eqb_spec (zlen bits') (zlen (w_src_block_ids o))) as [Eb|]; [|done]. cbn in E. injection E as <- <-. unfold zlen in Ek, Eb.
  destruct (preprocess_inv _ _ _ Ep) as (hs & Hh & Ha). rewrite addressed_run in Ha. case_bool_decide as Hle; [|done]. injection Ha as Hptr Hsz Hks.
  destruct (transfer_sound w o s ptrs sizes ks bits' s2 Hf) with (i := i) as (it & Hit & Hc);
    [subst; rewrite !length_fmap, length_take; lia|subst; rewrite length_fmap, length_replicate, length_take; lia|lia|done|done|].
  exists it. split; [|done]. by eapply preprocess_run.
Qed.

Lemma attempt_length w o s bits s1 : attempt_transfer w o s = (Ok bits, s1) → length bits = length (w_src_block_ids o).
Proof.
  intros E. unfold attempt_transfer in E. rewrite M_bind_run in E. unfold lift_result in E.
  destruct (preprocess w o) as [[[ptrs sizes] ks]|]; [|done]. destruct (negb _); [done|].
  rewrite M_bind_run in E. destruct (_transfer_impl w ptrs sizes ks (w_transfer_type o) s) as [[bits'|] s2]; [|done].
  destruct (Z.eqb_spec (zlen bits') (zlen (w_src_block_ids o))) as [Eb|]; [|done]. cbn in E. injection E as <- _. unfold zlen in Eb. lia.
Qed.

(** An op whose hashes, host blocks and source blocks are as many reaches the store. *)
Definition well_formed w o (hs : list string) : Prop :=
  op_hashes w o = Some hs ∧ length hs = length (cpu_block_ids o) ∧ length hs = length (w_src_block_ids o).

Lemma attempt_run w o s hs bits s1 :
  well_formed w o hs →
  _transfer_impl w (cpu_ptr w <$> cpu_block_ids o) (replicate (length hs) (block_size_bytes w))
    ((λ h, build_key h (pool_kind w) (worker_keys w)) <$> hs) (w_transfer_type o) s = (Ok bits, s1) →
  length bits = length hs → attempt_transfer w o s = (Ok bits, s1).
Proof.
  intros (Hh & Hl1 & Hl2) Et Hb. unfold attempt_transfer. rewrite M_bind_run. unfold lift_result. rewrite (preprocess_ok w o hs Hh Hl1).
  rewrite (proj2 (Z.eqb_eq _ _)) by (unfold zlen; rewrite length_fmap; lia). cbn [negb]. rewrite M_bind_run, Et.
  by rewrite (proj2 (Z.eqb_eq _ _)) by (unfold zlen; lia).
Qed.

Lemma sum_replicate n x : foldr Z.add 0 (replicate n x) = Z.of_nat n * x.
Proof. induction n as [|n IH]; [done|]. cbn [replicate foldr]. rewrite IH. lia. Qed.

Lemma transfer_size_run w o hs : well_formed w o hs → transfer_size w o = zlen hs * block_size_bytes w.
Proof. intros (Hh & Hl & _). unfold transfer_size. rewrite (preprocess_ok w o hs Hh Hl). apply sum_replicate. Qed.

(** [C15] The worker reports each op exactly once and truthfully. [launch_transfer] never raises, whatever the SDK and the performance log do: it answers with
    the op's id and one bit per block, all of them false when the transfer or the log raised. Provided fault injection (a test facility, off by default) is
    off, a set bit means that the store confirmed this very block in this call: for a read, the SDK returned a positive count for the key of the block's
    hash and its host address; for a write, the key was there already, or the put of that key from that address returned 0. And for a well-formed op the bits
    are exact unless the log, given the total size, raises: when the SDK answers a read with one code per key, a bit is set exactly if the code is positive;
    when it answers a write for each key, exactly if the key was there or its put returned 0. *)
Theorem launch_transfer_spec (log : WorkerTransferOp → Z → result unit) w o s :
  let all_failed := replicate (length (w_src_block_ids o)) false in
  ∃ bits s', launch_transfer log w o s = (Ok (mkWorkerTransferResult (w_op_id o) (Some bits)), s') ∧ length bits = length (w_src_block_ids o) ∧
    ((∀ size, log o size ≠ Ok tt) ∨ (∃ x s1, attempt_transfer w o s = (Raise x, s1)) → bits = all_failed) ∧
    (is_mooncake_fault_inject_enabled (fault_env w) = false →
     (∀ i, bits !! i = Some true → ∃ it, block_item w o i = Some it ∧
        match w_transfer_type o with REMOTE2H => read_confirmed s i it | H2REMOTE => write_confirmed s i it | _ => False end) ∧
     (∀ hs, well_formed w o hs →
        let keys := (λ h, build_key h (pool_kind w) (worker_keys w)) <$> hs in
        let reported l := match log o (zlen hs * block_size_bytes w) with Ok _ => l | Raise _ => all_failed end in
        (∀ codes s1, w_transfer_type o = REMOTE2H → length codes = length hs →
           batch_get_into keys (cpu_ptr w <$> cpu_block_ids o) (replicate (length hs) (block_size_bytes w)) s = (Ok codes, s1) →
           bits = reported ((λ c, 0 <? c) <$> codes) ∧ s' = s1) ∧
        (∀ (Ans Put : string → Z) s1, w_transfer_type o = H2REMOTE → batch_is_exist keys s = (Ok (Ans <$> keys), s1) →
           (∀ its : list (string * Z * Z), ∃ s2,
              batch_put_from ((λ x, x.1.1) <$> its) ((λ x, x.1.2) <$> its) ((λ x, x.2) <$> its) s1 = (Ok ((λ x, Put x.1.1) <$> its), s2)) →
           bits = reported ((λ k, bool_decide (Ans k = 1 ∨ Put k = 0)) <$> keys)))).
Proof.
  intros all_failed. unfold launch_transfer. fold all_failed. destruct (attempt_transfer w o s) as [r s1] eqn:E.
  set (bits := match log o (transfer_size w o) with Ok _ => _ | Raise _ => _ end). exists bits, s1. split; [done|].
  assert (bits = all_failed ∨ r = Ok bits) as Hb by (unfold bits; destruct r, (log o (transfer_size w o)); auto).
  split; [destruct Hb as [Hb|Hb]; [rewrite Hb; apply length_replicate|eapply attempt_length; by rewrite <- Hb]|]. split.
  { unfold bits. destruct r as [l|x]; [|by destruct (log o _)]. intros [Hlog|(x & s2 & ?)]; [|done]. specialize (Hlog (transfer_size w o)). by destruct (log o _) as [[]|]. }
  intros Hf. split.
  - intros i Hi. destruct Hb as [Hb|Hb].
    + rewrite Hb in Hi. by apply lookup_replicate in Hi as [? _].
    + apply (attempt_true w o s bits s1 i Hf); [by rewrite <- Hb|done].
  - intros hs Hw. set (keys := (λ h, build_key h (pool_kind w) (worker_keys w)) <$> hs).
    set (reported := λ l, match log o (zlen hs * block_size_bytes w) with Ok _ => l | Raise _ => all_failed end).
    assert (∀ l s2, _transfer_impl w (cpu_ptr w <$> cpu_block_ids o) (replicate (length hs) (block_size_bytes w)) keys (w_transfer_type o) s = (Ok l, s2) →
      length l = length hs → bits = reported l ∧ s1 = s2) as Hrun.
    { intros l s2 Et Hl. pose proof (attempt_run w o s hs l s2 Hw Et Hl) as E'. rewrite E in E'. injection E' as -> ->.
      split; [|done]. unfold bits, reported. by rewrite (transfer_size_run w o hs Hw). }
    split.
    + intros codes s2 Hty Hl Hg. apply Hrun; [|unfold _check_success; by rewrite length_fmap].
      unfold _transfer_impl, batch_get, zero_copy_get_impl. by rewrite Hty, Hf, !M_bind_run, Hg.
    + intros Ans Put s2 Hty Hx Hput. destruct (batch_put_exact Ans Put keys (cpu_ptr w <$> cpu_block_ids o) (replicate (length hs) (block_size_bytes w)) s s2)
        as [s3 Ep]; [unfold keys; rewrite !length_fmap; by destruct Hw as (_ & -> & _)|unfold keys; by rewrite length_replicate, length_fmap|done|done|].
      destruct (Hrun ((λ k, bool_decide (Ans k = 1 ∨ Put k = 0)) <$> keys) s3) as [Hr _]; [unfold _transfer_impl; rewrite Hty; exact Ep|unfold keys; by rewrite !length_fmap|exact Hr].
Qed.
End store.
(** ** A concrete store *)

(** A store that holds a list of keys, and finds a value of 4 bytes under each. *)
#[local] Instance toy_store : MooncakeDistributedStore (list string) := {
  batch_is_exist ks := λ s, (Ok ((λ k, if bool_decide (k ∈ s) then 1 else 0) <$> ks), s);
  batch_put_from ks _ _ := λ s, (Ok ((λ _, 0) <$> ks), ks ++ s);
  batch_get_into ks _ _ := λ s, (Ok ((λ k, if bool_decide (k ∈ s) then 4 else -1) <$> ks), s);
}.

Definition toy_keys : KeyConfig := mkKeyConfig 0 2 0 4 8.
Definition toy_mooncake : MooncakeStoreCacheEngine := mkMooncake toy_keys true.
Definition toy_request : SequenceMeta := mkSequenceMeta [7; 8; 9] 1 [41; 42; 43] true None None.
(** Two blocks are there, and a snapshot after the first one. *)
Definition toy_held_keys : list string := [build_key "41" KV toy_keys; build_key "42" KV toy_keys; build_key "41" SWA toy_keys].

Lemma mooncake_match_spec_witness :
  ∃ r, match_ toy_mooncake toy_request toy_held_keys = (Ok r, toy_held_keys) ∧ ma_kv_matched_blocks r = 2%nat ∧ ma_num_matched_blocks r = 1%nat.
Proof.
  destruct (mooncake_match_spec toy_mooncake toy_request (λ k, if bool_decide (k ∈ toy_held_keys) then 1 else 0) toy_held_keys) as (r & E & _).
  - intros ks. reflexivity.
  - apply (bool_decide_unpack _). by vm_compute.
  - exists r. split; [exact E|].
    assert ((λ r, match r with Ok r => (ma_kv_matched_blocks r, ma_num_matched_blocks r) | Raise _ => (0, 0)%nat end)
      (match_ toy_mooncake toy_request toy_held_keys).1 = (2, 1)%nat) as Hv by (by vm_compute).
    rewrite E in Hv. simpl in Hv. by injection Hv as -> ->.
Defined.

(** A worker of the KV pool that reads two blocks, one of which is missing. *)
Definition toy_worker : MooncakeStoreTransferWorker := mkWorker toy_keys KV 4096 64 no_fault.
Definition toy_op : WorkerTransferOp := mkWorkerTransferOp 5 1 REMOTE2H 0 0 2 [0; 1] [3; 4] (Some [42; 43]) None.
Definition toy_write : WorkerTransferOp := mkWorkerTransferOp 6 1 H2REMOTE 0 0 2 [3; 4] [0; 1] (Some [42; 43]) None.

(** The read finds one block of two; the write stores the other, but its log raises and it is reported as failed. *)
Lemma launch_transfer_spec_witness :
  (∃ s', launch_transfer (λ _ _, Ok tt) toy_worker toy_op toy_held_keys = (Ok (mkWorkerTransferResult 5 (Some [true; false])), s') ∧
    ∃ it, block_item toy_worker toy_op 0 = Some it ∧ read_confirmed toy_held_keys 0 it) ∧
  (∃ s', launch_transfer (λ _ _, Ok tt) toy_worker toy_write toy_held_keys = (Ok (mkWorkerTransferResult 6 (Some [true; true])), s')) ∧
  ∃ s', launch_transfer (λ _ _, Raise (RuntimeError "log")) toy_worker toy_write toy_held_keys = (Ok (mkWorkerTransferResult 6 (Some [false; false])), s').
Proof.
  split; [|split].
  - destruct (launch_transfer_spec (λ _ _, Ok tt) toy_worker toy_op toy_held_keys) as (bits & s' & E & _ & _ & H). specialize (H eq_refl) as [H1 H2].
    assert (well_formed toy_worker toy_op (pretty <$> [42; 43])) as Hw by (split_and!; reflexivity).
    destruct (H2 _ Hw) as [Hr _]. destruct (Hr [4; -1] toy_held_keys eq_refl eq_refl eq_refl) as [-> ->]. exists toy_held_keys. split; [exact E|].
    apply (H1 0%nat). reflexivity.
  - destruct (launch_transfer_spec (λ _ _, Ok tt) toy_worker toy_write toy_held_keys) as (bits & s' & E & _ & _ & H). specialize (H eq_refl) as [_ H2].
    assert (well_formed toy_worker toy_write (pretty <$> [42; 43])) as Hw by (split_and!; reflexivity).
    destruct (H2 _ Hw) as [_ Hp].
    specialize (Hp (λ k, if bool_decide (k ∈ toy_held_keys) then 1 else 0) (λ _, 0) toy_held_keys eq_refl eq_refl).
    exists s'. rewrite E, Hp; [reflexivity|]. intros its. eexists. cbn. rewrite <- list_fmap_compose. reflexivity.
  - destruct (launch_transfer_spec (λ _ _, Raise (RuntimeError "log")) toy_worker toy_write toy_held_keys) as (bits & s' & E & _ & H & _).
    exists s'. rewrite E, H; [reflexivity|]. left. discriminate.
Defined.
End MooncakeSpec.
