(* ===== verification/MooncakePlan.v ===== *)
(** * MooncakePlan: planning with the key-addressed remote tier

    Models [_put_impl_global] and [_get_impl_global] of [flexkv/cache/cache_engine.py] as
    they run with the mooncake backend, and [get] and [put] around them: new blocks are
    staged outside the index and become pending insertions ([Deferred]), remote blocks
    are addressed by the hashes of the request, and a prefetch may fetch the snapshot of
    the sliding window with the blocks.

    The REMOTE engine is [mc]; the [remote_cache_engine] of the record, a [CacheEngine],
    is absent.  The [insert], [recycle], [lock_node] and [set_ready] of [mc] do nothing. *)

From stdpp Require Import pretty.
From S2P Require Import Prelude PyFloat Block Transfer GraphBuild SWAOps BatchMerge Mempool SWAHostPool RadixTree RadixMatch CacheEngine GlobalCache GlobalPlan Deferred Mooncake.
Import GraphBuild.GraphBuild SWAOps.SWAOps RadixTree.RadixTree CacheEngine.CacheEngine GlobalCache.GlobalCache GlobalPlan.GlobalPlan Deferred.Deferred.
Local Open Scope Z_scope.
Local Open Scope py_scope.

Module MooncakePlan.

(** ** Matches of the remote tier *)

(** The fields both classes of match results have; there are no nodes. *)
Definition as_match (r : Mooncake.MatchResultAccel) : MatchResult :=
  mkMatchResult (Mooncake.ma_num_ready_matched_blocks r) (Mooncake.ma_num_matched_blocks r) None None (Mooncake.ma_last_node_matched_length r)
    (Mooncake.ma_physical_blocks r) None (Mooncake.ma_swa_hit_blocks r).

(** [l[i]]: a negative index counts from the end. *)
Definition py_index {A} (l : list A) (i : Z) : result A :=
  let i := if i <? 0 then i + zlen l else i in
  if i <? 0 then Raise IndexError else match l !! Z.to_nat i with Some a => Ok a | None => Raise IndexError end.

(** An op whose remote side is keyed by block hashes. *)
Definition keyed_op (ty : TransferType) (src dst hashes : list Z) (dp : Z) : Plan Z :=
  on_build (op ← new_op ty src dst dp false (Some hashes) None; graph_add op ;; mret (op_id op)).

Definition after_op (k : Z) (before : option Z) : Plan unit :=
  match before with Some p => depends_on k p | None => mret tt end.

(** ** Writes *)

Record DeferredPutPlan : Type := mkDeferredPut {
  dpp_plan : PutTransferPlan;
  dpp_deferred_inserts : list DeferredCacheInsert;
}.

Definition empty_deferred_put : M Ids DeferredPutPlan := p ← empty_put_plan; mret (mkDeferredPut p []).

(** What a write holds: the blocks of the two tiers ([None] for an SSD that is not written), a slot on each, and the key of the snapshot. *)
Record Staging : Type := mkStaging {
  sg_cpu : list Z;
  sg_ssd : option (list Z);
  sg_cpu_slot : Z;
  sg_ssd_slot : Z;
  sg_tail : option string;
}.

Section planners.
Context (XXH64 : list Z → Z) (clock : nat → float).

(** [kv_matched_blocks or num_matched_blocks], cut to the request. *)
Definition put_hit_blocks (num_gpu block_mask_start : Z) (remote : Mooncake.MatchResultAccel) : Z :=
  let kv_hit := if (Mooncake.ma_kv_matched_blocks remote =? 0)%nat then Mooncake.ma_num_matched_blocks remote else Mooncake.ma_kv_matched_blocks remote in
  Z.max 0 (Z.min num_gpu (Z.of_nat kv_hit - block_mask_start)).

Definition staged_ssd (wanted : bool) (num : Z) (ssd : MatchResult) : Global (option (list Z)) :=
  if wanted then
    blocks ← self_engine SSD (CacheEngine.take num (last_ready_node ssd) false);
    if zlen blocks =? num then mret (Some blocks) else self_engine SSD (recycle blocks) ;; mret None
  else mret None.

(** One slot per tier that is written; the remote snapshot is keyed by the hash of the last block of the request. *)
Definition staging_slots (sequence_meta : SequenceMeta) (tail_idx : Z) (cpu ssd : MatchResult) (to_ssd to_remote : bool) : Global (Z * Z * option string) :=
  g ← get_state;
  if negb (swa_transfer_enabled g) then mret (-1, -1, None)
  else
    cpu_slot ← self_engine CPU (_alloc_swa_slot (last_ready_node cpu));
    ssd_slot ← (if (0 <=? cpu_slot) && to_ssd then self_engine SSD (_alloc_swa_slot (last_ready_node ssd)) else mret (-1));
    tail ← (if (0 <=? cpu_slot) && (negb to_ssd || (0 <=? ssd_slot)) && to_remote
            then h ← lift_result (py_index (Block.block_hashes sequence_meta) tail_idx); mret (Some (pretty h)) else mret None);
    mret (cpu_slot, ssd_slot, tail).

Definition staging_slots_missing (g : GlobalCacheEngine) (cpu_slot ssd_slot : Z) (tail : option string) (to_ssd to_remote : bool) : bool :=
  swa_transfer_enabled g && ((cpu_slot <? 0) || (to_ssd && (ssd_slot <? 0)) || (to_remote && negb (is_not_None tail))).

(** Blocks and slots, or everything given back. *)
Definition stage_write (sequence_meta : SequenceMeta) (tail_idx : Z) (enable_ssd : bool) (fragment12 fragment2 fragment3 : Z) (cpu ssd : MatchResult)
    : Global (option Staging) :=
  cpu_blocks ← self_engine CPU (CacheEngine.take fragment12 (last_ready_node cpu) false);
  if zlen cpu_blocks <? fragment12 then self_engine CPU (recycle cpu_blocks) ;; mret None
  else
    ssd_blocks ← staged_ssd (enable_ssd && (0 <? fragment2)) fragment2 ssd;
    let to_ssd := is_not_None ssd_blocks in
    let to_remote := 0 <? fragment3 in
    '(cpu_slot, ssd_slot, tail) ← staging_slots sequence_meta tail_idx cpu ssd to_ssd to_remote;
    g ← get_state;
    if staging_slots_missing g cpu_slot ssd_slot tail to_ssd to_remote then
      _fail_put_before_insert cpu_blocks cpu_slot ssd_blocks ssd_slot None (-1) ;; mret None
    else mret (Some (mkStaging cpu_blocks ssd_blocks cpu_slot ssd_slot tail)).

(** The SWA chain of a write: its D2H is a final op. *)
Definition staged_swa_ops (st : Staging) (to_remote : bool) (dp : Z) : Plan (list Z) :=
  if sg_cpu_slot st <? 0 then mret []
  else
    '(g, _) ← get_state;
    let remote_slot_ids := if is_not_None (sg_tail st) then [0] else [] in
    ids ← on_build (build_put_chain_ids (swa_transfer_enabled g) _SWA_GPU_PLACEHOLDER [sg_cpu_slot st] (Some (one_slot (sg_ssd_slot st))) (Some remote_slot_ids) dp
                      (match sg_tail st with Some h => Some [h] | None => None end));
    assertM (is_not_None (SWAOps.d2h_id ids)) ;;
    (if is_not_None (sg_ssd st) then assertM (is_not_None (h2disk_id ids)) else mret tt) ;;
    (if to_remote && is_not_None (sg_tail st) then assertM (is_not_None (h2remote_id ids)) else mret tt) ;;
    d2h ← deref (SWAOps.d2h_id ids);
    mret [d2h].

(** The ops of a write, and those its task waits for. *)
Definition staged_write_ops (sequence_meta : SequenceMeta) (block_mask_start hit fragment12 fragment2 fragment3 : Z) (matched_cpu gpu_blocks : list Z) (st : Staging) (dp : Z)
    : Plan (list Z) :=
  let cpu_blocks := sg_cpu st in
  d2h ← (if 0 <? fragment12 then k ← kv_op D2H gpu_blocks cpu_blocks dp; mret (Some k) else mret None);
  h2disk ← (match sg_ssd st with
            | Some ssd_blocks => k ← kv_op H2DISK (source_blocks fragment2 matched_cpu cpu_blocks) ssd_blocks dp; after_op k d2h ;; mret (Some k)
            | None => mret None
            end);
  h2remote ← (if 0 <? fragment3 then
                k ← keyed_op H2REMOTE (source_blocks fragment3 matched_cpu cpu_blocks) (Mooncake.take_ (Z.to_nat fragment3))
                      (Block.block_hashes sequence_meta).[block_mask_start + hit : block_mask_start + hit + fragment3] dp;
                after_op k d2h ;; mret (Some k)
              else mret None);
  swa ← staged_swa_ops st (0 <? fragment3) dp;
  mret (match d2h with Some k => [k] | None => option_list h2disk ++ option_list h2remote end ++ swa).

(** What the completion inserts. *)
Definition staged_inserts (sequence_meta : SequenceMeta) (block_mask_start num_gpu : Z) (matched_cpu matched_ssd : list Z) (st : Staging) : list DeferredCacheInsert :=
  let staged d blocks start slot := mkDeferred d sequence_meta blocks start start (block_mask_start + num_gpu) None slot false (-1) None None in
  (if (0 <? num_gpu - zlen matched_cpu) || (0 <=? sg_cpu_slot st)
   then [staged CPU (sg_cpu st) (block_mask_start + zlen matched_cpu) (sg_cpu_slot st)] else []) ++
  match sg_ssd st with
  | Some ssd_blocks => [staged SSD ssd_blocks (block_mask_start + zlen matched_ssd) (sg_ssd_slot st)]
  | None => []
  end.

(** Blocks of the index that feed the ops are pinned by their deepest node. *)
Definition anchor_entry (d : DeviceType) (wanted : bool) (r : MatchResult) : NodeMap :=
  match last_ready_node r with Some n => if wanted then [(d, (n, 0))] else [] | None => [] end.

(** ** Reads *)

Record DeferredGetPlan : Type := mkDeferredGet {
  dgp_plan : GetTransferPlan;
  dgp_load_results : list (Z * nat);
  dgp_deferred_inserts : list DeferredCacheInsert;
}.

(** A plan without pending insertions. *)
Definition undeferred (plan : GetTransferPlan) : DeferredGetPlan := mkDeferredGet plan [] [].
Definition empty_deferred_get : M Ids DeferredGetPlan := p ← empty_get_plan; mret (undeferred p).

(** The result objects of a plan, by number: the load, the load of the snapshot, the publication. *)
Record NewOutcomes : Type := mkNewOutcomes {
  no_load_result : nat;
  no_swa_load_result : nat;
  no_publish_result : nat;
}.
Definition new_outcomes (o : Outcomes) : NewOutcomes :=
  let k := fresh (dom (loads o) : gset nat) in
  mkNewOutcomes k (fresh ({[ k ]} ∪ dom (loads o) : gset nat)) (fresh (dom (publications o) : gset nat)).

(** [MooncakeLoadResult()] and [DeferredPublishResult()] of the pending insertions. *)
Definition register_outcomes (pendings : list DeferredCacheInsert) (o : Outcomes) : Outcomes :=
  foldl (λ o p,
    let add k m := match k with Some k => <[k := mkLoadResult None]> m | None => m end in
    mkOutcomes (add (load_result p) (add (swa_load_result p) (loads o)))
      (match publish_result p with Some k => <[k := unpublished]> (publications o) | None => publications o end)) o pendings.

(** As [GlobalPlan.swa_read], with the selected source. *)
Definition swa_read_source (swa_aware enable_gpu : bool) (block_mask_start block_mask_end : Z) (tier_match_results : list (DeviceType * MatchResult))
    (sequence_meta : SequenceMeta) (cpu : MatchResult) (dp : Z) : Plan (Z * SWAReadSource * option SWAReadReservation) :=
  if negb swa_aware then mret (block_mask_end, no_source, None)
  else
    '(block_mask_end, s) ← on_global (_select_swa_read_source block_mask_start block_mask_end tier_match_results sequence_meta);
    let protected_cpu_node := if block_mask_start <? Z.of_nat (num_ready_matched_blocks cpu) then last_ready_node cpu else None in
    reservation ← (if enable_gpu then _reserve_swa_read_source s protected_cpu_node dp else mret None);
    mret (if enable_gpu && found s && negb (is_not_None reservation) then block_mask_start else block_mask_end, s, reservation).

(** The write-through of remote blocks to the SSD, outside its index. *)
Definition staged_promotion (enable_ssd : bool) (block_mask_start fragment12 fragment3 : Z) (ssd : MatchResult) (cpu_blocks : list Z) (remote2h dp : Z)
    : Plan (option (list Z)) :=
  if enable_ssd && extendable ssd block_mask_start && (Z.of_nat (num_matched_blocks ssd) =? block_mask_start + fragment12) then
    ssd_blocks ← take_blocks SSD fragment3 (last_node ssd) false;
    if zlen ssd_blocks <? fragment3 then give_back SSD ssd_blocks ;; mret None
    else
      k ← kv_op H2DISK (last_n fragment3 cpu_blocks) ssd_blocks dp;
      depends_on k remote2h ;;
      mret (Some ssd_blocks)
  else mret None.

(** The snapshot of a joint prefetch: its CPU slot and the op that fills it. *)
Definition joint_prefetch (wanted : bool) (s : SWAReadSource) (cpu : MatchResult) (dp : Z) : Plan (option (Z * Z)) :=
  '(g, _) ← get_state;
  if wanted && found s && is_mooncake s && swa_transfer_enabled g then
    slot ← on_global (self_engine CPU (_alloc_swa_slot (last_ready_node cpu)));
    if slot <? 0 then mret None
    else
      k ← on_build (build_swa_op (swa_transfer_enabled g) REMOTE2H [0] [slot] dp (option_map (λ h, [h]) (mooncake_tail_hash s)));
      match k with
      | None => on_global (self_engine CPU (_free_swa_slot slot)) ;; mret None
      | Some k => mret (Some (slot, k))
      end
  else mret None.

(** What the completion of a read inserts. *)
Definition loaded_inserts (sequence_meta : SequenceMeta) (block_mask_start fragment1 fragment12 fragment123 : Z) (staged : list Z) (promoted : option (list Z))
    (s : SWAReadSource) (snapshot : option (Z * Z)) (new : NewOutcomes) : list DeferredCacheInsert :=
  let remote_start := block_mask_start + fragment12 in
  let requested_end := block_mask_start + fragment123 in
  mkDeferred CPU sequence_meta staged (block_mask_start + fragment1) remote_start requested_end (Some (no_load_result new))
    (from_option fst (-1) snapshot) false (if is_not_None snapshot then hit_blocks s - 1 else -1)
    ((λ _, no_swa_load_result new) <$> snapshot) (Some (no_publish_result new)) ::
  match promoted with
  | Some ssd_blocks => [mkDeferred SSD sequence_meta ssd_blocks remote_start remote_start requested_end (Some (no_load_result new)) (-1) false (-1) None None]
  | None => []
  end.

(** Nodes that are pinned only: nothing becomes ready. *)
Definition pin_entry (d : DeviceType) (r : MatchResult) : NodeMap := match last_ready_node r with Some n => [(d, (n, 0))] | None => [] end.

(** The parts of a read of remote blocks once its CPU blocks are taken. *)
Definition remote_read_ops (swa_aware enable_gpu enable_ssd : bool) (block_mask_start fragment1 fragment2 fragment3 fragment12 fragment123 : Z)
    (sequence_meta : SequenceMeta) (cpu ssd : MatchResult) (staged cpu_matched ssd_blocks remote_blocks gpu_blocks : list Z)
    (s : SWAReadSource) (reservation : option SWAReadReservation) (new : NewOutcomes) (dp : Z) : Plan (TransferOpGraph → DeferredGetPlan) :=
  let cpu_blocks := cpu_matched ++ staged in
  disk2h ← stage_op DISK2H (0 <? fragment2) (last_n fragment2 ssd_blocks) cpu_blocks.[fragment1 : fragment12] dp;
  remote2h ← keyed_op REMOTE2H (last_n fragment3 remote_blocks) (last_n fragment3 cpu_blocks)
               (Block.block_hashes sequence_meta).[block_mask_start + fragment12 : block_mask_start + fragment12 + fragment3] dp;
  promoted ← staged_promotion enable_ssd block_mask_start fragment12 fragment3 ssd cpu_blocks remote2h dp;
  host_ready ← host_ready_op (option_list disk2h ++ [remote2h]) dp;
  let host_final := if enable_gpu then [] else option_list host_ready in
  h2d ← h2d_op enable_gpu cpu_blocks gpu_blocks [disk2h; Some remote2h] dp;
  let num_gpu_blocks := if enable_gpu then zlen gpu_blocks else 0 in
  snapshot ← joint_prefetch (swa_aware && negb enable_gpu && negb (is_not_None reservation)) s cpu dp;
  '(finished, callbacks) ← swa_final reservation num_gpu_blocks (host_final ++ h2d ++ option_list (snd <$> snapshot)) [];
  mret (λ graph,
    mkDeferredGet (mkGetPlan graph finished (pin_entry CPU cpu ++ pin_entry SSD ssd) callbacks [(CPU, [])] num_gpu_blocks reservation)
      (option_list ((λ e, (e.2, no_swa_load_result new)) <$> snapshot) ++ [(remote2h, no_load_result new)])
      (loaded_inserts sequence_meta block_mask_start fragment1 fragment12 fragment123 staged promoted s snapshot new)).

Definition mooncake_read (s : CacheStrategy) (config : CacheConfig) (block_mask_start block_mask_end : Z) (gpu_block_ids : list Z)
    (sequence_meta : SequenceMeta) (cpu ssd remote : MatchResult) (swa_aware : bool) (new : NewOutcomes) (dp : Z)
    : Plan (option (TransferOpGraph → DeferredGetPlan)) :=
  let enable_gpu := negb (ignore_gpu s) in
  '(block_mask_end, src, reservation) ←
    swa_read_source swa_aware enable_gpu block_mask_start block_mask_end [(CPU, cpu); (SSD, ssd); (REMOTE, remote)] sequence_meta cpu dp;
  let cpu_blocks := ready_blocks cpu block_mask_start block_mask_end in
  let ssd_blocks := ready_blocks ssd block_mask_start block_mask_end in
  let remote_blocks := ready_blocks remote block_mask_start block_mask_end in
  let fragment12 := Z.max (zlen cpu_blocks) (zlen ssd_blocks) in
  let fragment123 := Z.max fragment12 (zlen remote_blocks) in
  let fragment2 := Z.max (zlen ssd_blocks - zlen cpu_blocks) 0 in
  let fragment3 := Z.max (zlen remote_blocks - fragment12) 0 in
  if fragment123 =? 0 then release reservation ;; mret None
  else
    assertM (fragment123 <=? zlen gpu_block_ids) ;;
    staged ← stage_strict (fragment2 + fragment3) cpu reservation;
    match staged with
    | None => mret None
    | Some staged =>
        let gpu_blocks := first_n fragment123 gpu_block_ids in
        if 0 <? fragment3 then
          parts ← remote_read_ops swa_aware enable_gpu (enable_ssd config) block_mask_start (zlen cpu_blocks) fragment2 fragment3 fragment12 fragment123
                    sequence_meta cpu ssd staged cpu_blocks ssd_blocks remote_blocks gpu_blocks src reservation new dp;
          mret (Some parts)
        else
          parts ← global_read_ops XXH64 clock enable_gpu (enable_ssd config) block_mask_start (zlen cpu_blocks) fragment2 fragment3 fragment12 fragment123
                    sequence_meta cpu ssd remote staged cpu_blocks ssd_blocks remote_blocks gpu_blocks reservation dp;
          mret (Some (λ graph, undeferred (parts graph)))
    end.

(** ** Planning with the store *)

Context {Store : Type} `{!Mooncake.MooncakeDistributedStore Store} (mc : Mooncake.MooncakeStoreCacheEngine).

Definition on_world {A} (m : M World A) : M (World * Store) A := λ s, let '(r, w) := m s.1 in (r, (w, s.2)).
Definition on_store {A} (m : M Store A) : M (World * Store) A := λ s, let '(r, st) := m s.2 in (r, (s.1, st)).

Definition _get_impl_global (sequence_meta : SequenceMeta) (block_mask_start block_mask_end : Z) (gpu_block_ids : list Z)
    (s : CacheStrategy) (swa_aware : bool) (new : NewOutcomes) (dp : Z) : M (World * Store) DeferredGetPlan :=
  config ← on_world (world_global (gets cache_config));
  assertM (enable_cpu config && (enable_remote config && negb (ignore_remote s))) ;;
  on_world (world_global (assert_engine CPU)) ;;
  '(cpu, ssd) ← on_world (world_global (match_local XXH64 clock sequence_meta DEFAULT_CACHE_STRATEGY));
  remote ← on_store (Mooncake.match_ mc sequence_meta);
  on_world (plan_with empty_deferred_get
    (mooncake_read s config block_mask_start block_mask_end gpu_block_ids sequence_meta cpu ssd (as_match remote) swa_aware new dp)).

Definition _put_impl_global (sequence_meta : SequenceMeta) (block_mask_start block_mask_end : Z) (gpu_block_ids : list Z) (s : CacheStrategy) (dp : Z)
    : M (World * Store) DeferredPutPlan :=
  config ← on_world (world_global (gets cache_config));
  let enable_ssd := enable_ssd config && negb (ignore_ssd s) in
  assertM (negb (ignore_gpu s)) ;;
  assertM (enable_cpu config) ;;
  assertM (enable_remote config && negb (ignore_remote s)) ;;
  on_world (world_global (assert_engine CPU)) ;;
  '(cpu, ssd) ← on_world (world_global (match_local XXH64 clock sequence_meta s));
  remote ← on_store (Mooncake.match_ mc sequence_meta);
  let matched_cpu := ready_blocks cpu block_mask_start block_mask_end in
  let matched_ssd := ready_blocks ssd block_mask_start block_mask_end in
  let num_gpu := zlen gpu_block_ids in
  let fragment12 := num_gpu - zlen matched_cpu in
  let fragment2 := if enable_ssd then num_gpu - zlen matched_ssd else 0 in
  let hit := put_hit_blocks num_gpu block_mask_start remote in
  let fragment3 := num_gpu - hit in
  if (fragment12 =? 0) && (fragment2 =? 0) && (fragment3 =? 0) then on_world (world_ids empty_deferred_put)
  else
    st ← on_world (world_global (stage_write sequence_meta (block_mask_start + num_gpu - 1) enable_ssd fragment12 fragment2 fragment3 cpu ssd));
    match st with
    | None => on_world (world_ids empty_deferred_put)
    | Some st =>
        let gpu_blocks := gpu_block_ids.[zlen matched_cpu :] in
        on_world (plan_with empty_deferred_put
          (finished ← staged_write_ops sequence_meta block_mask_start hit fragment12 fragment2 fragment3 matched_cpu gpu_blocks st dp;
           let nodes := anchor_entry CPU (0 <? zlen matched_cpu) cpu ++ anchor_entry SSD (is_not_None (sg_ssd st) && (0 <? zlen matched_ssd)) ssd in
           mret (Some (λ graph, mkDeferredPut (mkPutPlan graph finished nodes [] [] (zlen gpu_blocks) (zlen matched_cpu) [])
                                  (staged_inserts sequence_meta block_mask_start num_gpu matched_cpu matched_ssd st)))))
    end.

(** ** [get] and [put] *)

(** The engine with the ids, the store, and the result objects. *)
Definition Setting : Type := World * Store * Outcomes.

Definition on_setting {A} (m : M (World * Store) A) : M Setting A := λ s, let '(r, w) := m s.1 in (r, (w, s.2)).
Definition on_engine_ids {A} (m : M World A) : M Setting A := on_setting (on_world m).
Definition on_outcomes (f : Outcomes → Outcomes) : M Setting unit := modify_state (λ s, (s.1, f s.2)).

(** [Response] with a handle and callbacks that also work on the result objects. *)
Record DeferredResponse : Type := mkDeferredResponse {
  dr_transfer_graph : TransferOpGraph;
  dr_return_mask : list bool;
  dr_callback : TransferPlanHandle (GlobalCacheEngine * Outcomes);
  dr_op_callback_dict : list (Z * BatchMerge.Callable (GlobalCacheEngine * Outcomes));
  dr_task_end_op_id : Z;
}.

(** [CompletionAwareCallback(load_result.record)] *)
Definition record_load (k : nat) : BatchMerge.Callable (GlobalCacheEngine * Outcomes) :=
  BatchMerge.CompletionAwareCallback (λ completed_op,
    modify_state (λ s, (s.1, mkOutcomes (alter (load_record completed_op) k (loads s.2)) (publications s.2)))).

Definition plain_callback (c : Callback) : BatchMerge.Callable (GlobalCacheEngine * Outcomes) := BatchMerge.Plain (on_globals c).

Definition deferred_handle (node_to_unlock : NodeMap) (buffer_to_free : list (DeviceType * list Z)) (pendings : list DeferredCacheInsert)
    (swa_reservation : option SWAReadReservation) (swa_slots_to_free : list (DeviceType * Z)) : TransferPlanHandle (GlobalCacheEngine * Outcomes) :=
  mkHandle (Deferred._transfer_callback XXH64 clock node_to_unlock buffer_to_free pendings)
    (on_globals (Deferred._abort_transfer_plan node_to_unlock buffer_to_free pendings swa_reservation swa_slots_to_free)) false.

(** The remote part of a prefetch starts where the CPU insertion says. *)
Definition prefetch_start (block_start_idx : Z) (pendings : list DeferredCacheInsert) : Z :=
  match List.find (λ p, bool_decide (di_device_type p = CPU)) pendings with Some p => remote_start_block p | None => block_start_idx end.

Definition deferred_get_mask (s : CacheStrategy) (tpb len : nat) (graph : TransferOpGraph) (block_start_idx : Z) (plan : DeferredGetPlan) : list bool :=
  let start := if ignore_gpu s && ignore_gds s then prefetch_start block_start_idx (dgp_deferred_inserts plan) else block_start_idx in
  get_mask s tpb len graph start (gp_num_gpu_blocks_to_transfer (dgp_plan plan)).

Definition deferred_get_response (s : CacheStrategy) (tpb len : nat) (block_start_idx dp : Z) (plan : DeferredGetPlan) : M World DeferredResponse :=
  let p := dgp_plan plan in
  '(task_end_op_id, graph) ← end_graph (gp_transfer_graph p) (gp_finished_ops_ids p) dp;
  world_global (lock_nodes (gp_node_to_unlock p)) ;;
  mret (mkDeferredResponse graph (deferred_get_mask s tpb len graph block_start_idx plan)
          (deferred_handle (gp_node_to_unlock p) (gp_buffer_to_free p) (dgp_deferred_inserts plan) (gp_swa_reservation p) [])
          ((prod_map id record_load <$> dgp_load_results plan) ++ (prod_map id plain_callback <$> gp_op_callback_dict p)) task_end_op_id).

Definition empty_deferred_response (len : nat) : M World DeferredResponse :=
  graph ← world_ids TransferOpGraph_init;
  mret (mkDeferredResponse graph (replicate len false) (deferred_handle [] [] [] None []) [] (-1)).

Definition get (token_ids : list Z) (token_mask : list bool) (slot_mapping : list Z) (dp : Z) (s : CacheStrategy)
    (namespace : option (list string)) (swa_aware : bool) : M Setting DeferredResponse :=
  lift_result (_check_input token_ids token_mask slot_mapping) ;;
  config ← on_engine_ids (world_global (gets cache_config));
  let tpb := tokens_per_block config in
  let n := aligned_length tpb token_ids in
  let mask := aligned_mask n token_mask in
  if (n =? 0)%nat || negb (existsb id mask) then on_engine_ids (empty_deferred_response (length mask))
  else
    let '(block_start_idx, block_end_idx) := _get_block_range tpb mask in
    assertM (block_end_idx <=? Z.of_nat (n / tpb)) ;;
    let gpu_block_ids := first_n (block_end_idx - block_start_idx) (slot_mapping_to_block_ids slot_mapping tpb) in
    sequence_meta ← lift_result (SequenceMeta_init XXH64 (firstn n token_ids) tpb namespace);
    let s := resolve_get_cache_strategy (use_mooncake_store_backend config) s in
    o ← gets snd;
    plan ← on_setting
             (if negb (enable_remote config) || ignore_remote s
              then p ← on_world (_get_impl_local XXH64 clock sequence_meta block_start_idx block_end_idx gpu_block_ids s dp swa_aware); mret (undeferred p)
              else _get_impl_global sequence_meta block_start_idx block_end_idx gpu_block_ids s swa_aware (new_outcomes o) dp);
    on_outcomes (register_outcomes (dgp_deferred_inserts plan)) ;;
    on_engine_ids (deferred_get_response s tpb (length mask) block_start_idx dp plan).

Definition deferred_put_response (tpb len : nat) (block_start_idx dp : Z) (plan : DeferredPutPlan) : M World DeferredResponse :=
  let p := dpp_plan plan in
  '(task_end_op_id, graph) ← end_graph (pp_transfer_graph p) (pp_finished_ops_ids p) dp;
  world_global (lock_nodes (pp_node_to_unlock p)) ;;
  let first := block_start_idx + pp_skipped_gpu_blocks p in
  mret (mkDeferredResponse graph (mask_range len (first * Z.of_nat tpb) ((first + pp_num_gpu_blocks_to_transfer p) * Z.of_nat tpb))
          (deferred_handle (pp_node_to_unlock p) (pp_buffer_to_free p) (dpp_deferred_inserts plan) None (pp_swa_slots_to_free p))
          (prod_map id plain_callback <$> pp_op_callback_dict p) task_end_op_id).

Definition put (token_ids : list Z) (token_mask : list bool) (slot_mapping : list Z) (dp : Z) (s : CacheStrategy)
    (namespace : option (list string)) : M Setting DeferredResponse :=
  lift_result (_check_input token_ids token_mask slot_mapping) ;;
  config ← on_engine_ids (world_global (gets cache_config));
  let tpb := tokens_per_block config in
  let n := aligned_length tpb token_ids in
  let mask := aligned_mask n token_mask in
  let '(block_start_idx, block_end_idx) := _get_block_range tpb mask in
  assertM (block_start_idx =? 0) ;;
  let gpu_block_ids := first_n (block_end_idx - block_start_idx) (slot_mapping_to_block_ids slot_mapping tpb) in
  sequence_meta ← lift_result (SequenceMeta_init XXH64 (firstn n token_ids) tpb namespace);
  assertM (negb (ignore_gpu s)) ;;
  plan ← on_setting
           (if negb (enable_remote config) || ignore_remote s
            then p ← on_world (_put_impl_local XXH64 clock sequence_meta block_start_idx block_end_idx gpu_block_ids s dp); mret (mkDeferredPut p [])
            else _put_impl_global sequence_meta block_start_idx block_end_idx gpu_block_ids s dp);
  on_engine_ids (deferred_put_response tpb (length mask) block_start_idx dp plan).
End planners.
End MooncakePlan.
