(* ===== verification/MooncakePut.v ===== *)
(** * MooncakePut: what a write plan with the mooncake store holds

    Proofs about [_put_impl_global] of [MooncakePlan].  A plan of this mode inserts
    nothing: it works against the ready part of the matches, which an eviction that
    protects the last ready node leaves alone ([grounded]), and its blocks and slots are
    in pending insertions, as [DeferredEnd] wants them. *)

From stdpp Require Import pretty.
From S2P Require Import Prelude PyFloat Block Transfer GraphBuild SWAOps Mempool SWAHostPool RadixTree RadixCore RadixLeaf RadixWf RadixMatch RadixInsert RadixDetach RadixEvict RadixReady RadixSpec CacheEngine GlobalCache GlobalPlan PlanTier PutPlan PlanEnd Deferred DeferredCommit DeferredEnd Mooncake MooncakeSpec MooncakePlan.
Import GraphBuild.GraphBuild SWAOps.SWAOps RadixTree.RadixTree RadixWf.RadixWf RadixMatch.RadixMatch RadixInsert.RadixInsert RadixDetach.RadixDetach RadixEvict.RadixEvict RadixReady.RadixReady CacheEngine.CacheEngine GlobalCache.GlobalCache GlobalPlan.GlobalPlan PlanTier.PlanTier PutPlan.PutPlan PlanEnd.PlanEnd Deferred.Deferred DeferredEnd.DeferredEnd MooncakePlan.MooncakePlan.
Local Open Scope Z_scope.

Module MooncakePut.

Section tier.
Context `{!PrefixHash}.
Implicit Types (e : CacheEngine) (r : MatchResult) (hb : gset Z) (hs hashes : list Z) (g : GlobalCacheEngine) (d : DeviceType) (W : DeviceType → gset Z * list Z).

(** ** The ready part of a match *)

(** The ready blocks of the match are ready entries still, and they are all of the path to its last ready node. *)
Record grounded hashes e r : Prop := {
  gr_le : (num_ready_matched_blocks r <= length hashes)%nat ∧ (num_ready_matched_blocks r <= length (mr_physical_blocks r))%nat;
  gr_entry : ∀ i h b, (i < num_ready_matched_blocks r)%nat → hashes !! i = Some h → mr_physical_blocks r !! i = Some b → entry (index e) h b true;
  gr_node : ∃ n, last_ready_node r = Some n ∧ tree (index e) n ∧
    (n = root_node (index e) ∧ num_ready_matched_blocks r = 0%nat ∨ (0 < num_ready_matched_blocks r)%nat ∧
       ∃ i h, hashes !! (num_ready_matched_blocks r - 1)%nat = Some h ∧ block_hashes (nd (index e) n) !! i = Some h);
}.

Lemma anchored_grounded hashes e r : anchored hashes e r → grounded hashes e r.
Proof.
  intros [_ Hle Hm _ [R1 R2 R3 _]]. apply Forall2_length in Hm. rewrite length_take in Hm. split; [split; lia|done..].
Qed.

(** The blocks up to one that is cached are cached. *)
Lemma maps_downward t hashes i k h b : wf t → chained None hashes → (i <= k)%nat → hashes !! k = Some h → maps (root_node t) (shapes t) h b →
  ∀ h', hashes !! i = Some h' → ∃ b', maps (root_node t) (shapes t) h' b'.
Proof.
  intros Hwf Hc Hle Hk Hb. remember (k - i)%nat as n eqn:En. revert i Hle En. induction n as [|n IH]; intros i Hle En h' Hh'.
  { assert (i = k) as -> by lia. rewrite Hk in Hh'. injection Hh' as <-. by exists b. }
  destruct (lookup_lt_is_Some_2 hashes (S i)) as [h1 Hh1]; [apply lookup_lt_Some in Hk; lia|].
  destruct (IH (S i) ltac:(lia) ltac:(lia) h1 Hh1) as [b1 Hb1].
  pose proof (chained_lookup_pred _ _ _ _ Hc Hh1) as Hp. simpl in Hp. rewrite Hh' in Hp. by eapply maps_pred; [apply Hwf|..].
Qed.

Lemma grounded_shrunk P hashes e e' G r :
  wf (index e) → wf (index e') → chained None hashes → grounded hashes e r → shrunk P (last_ready_node r) e e' G → grounded hashes e' r.
Proof.
  intros Hwf Hwf' Hc [Hle Hen (n & Hn & Htn & Hat)] Sh.
  destruct (whole_node P (last_ready_node r) e e' G n Hwf Hwf' Sh Htn) as [Htn' Eb].
  { intros h Hh HG. by destruct (sh_safe _ _ _ _ _ Sh n h Htn Hh HG) as [_ []]. }
  split; [done| |].
  - intros i h b Hi Hh Hb. destruct Hat as [[_ Hz]|(Hr & j & hl & Hhl & Hj)]; [lia|].
    rewrite <- Eb in Hj. destruct (placed_maps _ _ n _ j hl (wf_core _ Hwf') Htn' (tree_shape _ _ Hwf' Htn') Hj) as [bl Hbl].
    destruct (maps_downward (index e') hashes i (num_ready_matched_blocks r - 1) hl bl Hwf' Hc ltac:(lia) Hhl Hbl h Hh) as [b' Hb'].
    apply entry_maps in Hb' as [rd Hrd]. pose proof (proj1 (proj1 (sh_entry _ _ _ _ _ Sh h b' rd) Hrd)) as Hold.
    pose proof (Hen i h b Hi Hh Hb) as Hnew. rewrite <- (entry_ready_fun _ _ _ _ _ _ Hwf Hnew Hold) in *.
    assert (b' = b) as -> by (eapply maps_fun; [apply Hwf|apply entry_maps; by eexists|apply entry_maps; by eexists]). done.
  - exists n. split; [done|]. split; [done|]. rewrite Eb. destruct Hat as [[-> Hz]|Hat]; [left; by rewrite (sh_root _ _ _ _ _ Sh)|by right].
Qed.

(** ** A tier whose ready part is in use *)

Record ready_at hashes g d r hb hs (b : bool) : Prop := {
  rt_engine : ∃ e, engine_of d g = Some e ∧ owns e hb hs ∧ grounded hashes e r ∧ swa_enabled e = b ∧
    ∀ x, tree (index e) x → 0 <= lock_cnt (nd (index e) x);
}.

Lemma tier_ready hashes g d r hb hs b : tier_at hashes g d r hb hs b → ready_at hashes g d r hb hs b.
Proof. intros [(e & He & Ho & An & R)]. split. exists e. split; [done|]. split; [done|]. split; [by apply anchored_grounded|done]. Qed.

Lemma ready_owned hashes g d r hb hs b : ready_at hashes g d r hb hs b → owned g d hb hs.
Proof. intros [(e & He & Ho & _)]. by exists e. Qed.

Lemma ready_other hashes g g' d d' r hb hs b : touches d g g' → d' ≠ d → ready_at hashes g d' r hb hs b → ready_at hashes g' d' r hb hs b.
Proof. intros T Hd [(e & He & R)]. split. exists e. split; [|done]. by rewrite (to_others _ _ _ T). Qed.

Lemma ready_swa hashes g r hb hs b : ready_at hashes g CPU r hb hs b → swa_transfer_enabled g = enable_swa_transfer (cache_config g) && b.
Proof. intros [(e & He & _ & _ & Hb & _)]. unfold swa_transfer_enabled, tier_swa_enabled. rewrite He. by rewrite Hb. Qed.

Lemma protectable_ready hashes e r :
  grounded hashes e r → (∀ x, tree (index e) x → 0 <= lock_cnt (nd (index e) x)) → protectable e (last_ready_node r).
Proof. intros [_ _ (n & Hn & Ht & _)] Hl m Hm. assert (m = n) as -> by congruence. split; [done|by apply Hl]. Qed.

Lemma ready_shrunk P hashes d g e e' G r hb hs b :
  engine_of d g = Some e → wf (index e) → chained None hashes → grounded hashes e r → swa_enabled e = b →
  (∀ x, tree (index e) x → 0 <= lock_cnt (nd (index e) x)) →
  owns e' hb hs → shrunk P (last_ready_node r) e e' G → ready_at hashes (with_engine d e' g) d r hb hs b.
Proof.
  intros He Hwf Hc Gr Hb Hl Ho Sh. split. exists e'. split; [by apply engine_of_with|]. split; [done|].
  split; [eapply grounded_shrunk; [done|apply Ho|done|done|done]|]. split; [by rewrite (swa_enabled_same e e'), Hb by apply Sh|].
  intros x Hx. apply (sh_tree _ _ _ _ _ Sh) in Hx as [Hx _]. pose proof (sh_use _ _ _ _ _ Sh x) as U.
  unfold use_of in U. specialize (Hl x Hx). injection U as _ -> _. done.
Qed.

Lemma take_ready x hashes d g r hb hs b num :
  chained None hashes → ready_at hashes g d r hb hs b →
  ∃ o g', on_engine x d (CacheEngine.take num (last_ready_node r) false) g = (o, g') ∧ touches d g g' ∧
    ((∃ blocks, o = Ok blocks ∧ NoDup blocks ∧ (∀ c, c ∈ blocks → c ∉ hb) ∧ zlen blocks <= num ∧
        ready_at hashes g' d r (hb ∪ list_to_set blocks) hs b ∧ (zlen blocks = num ∨ drained g' d (last_ready_node r))) ∨
     (∃ msg gone, o = Raise (ValueError msg) ∧ owned g' d (hb ∪ gone) hs)).
Proof.
  intros Hc [(e & He & Ho & Gr & Hb & Hl)]. pose proof (protectable_ready _ _ _ Gr Hl) as Hp.
  destruct (take_ok num (last_ready_node r) false e hb hs Ho Hp)
    as [(blocks & e' & G & E & H0 & HN & Hfr & Ho' & Sh & Hle & Hall)|[(msg & e' & G & _ & [=] & _)|(msg & e' & B & E & Ho' & _)]];
    eexists _, _; (split; [by eapply on_engine_run|]); (split; [apply with_engine_touches|]).
  - left. exists blocks. split_and!; try done.
    + by eapply ready_shrunk; [done|apply Ho|..].
    + destruct Hall as [?|(_ & _ & Hx)]; [by left|right]. exists e'. split; [by apply engine_of_with|done].
  - right. exists msg, (list_to_set B). split; [done|]. exists e'. split; [by apply engine_of_with|done].
Qed.

(** Every snapshot in the tier is in use. *)
Definition pinned_out g d : Prop := ∃ e, engine_of d g = Some e ∧ all_pinned (index e).

Lemma pinned_out_other g g' d d' : touches d g g' → d' ≠ d → pinned_out g d' → pinned_out g' d'.
Proof. intros T Hd (e & He & R). exists e. split; [|done]. by rewrite (to_others _ _ _ T). Qed.

Lemma pinned_out_alike g g' d : alike_tiers g g' → has_engine d g' = true → pinned_out g d → pinned_out g' d.
Proof.
  unfold has_engine. intros A Hd (e & He & Hp). destruct (engine_of d g') as [e'|] eqn:He'; [|done].
  destruct (A d e' He') as (e1 & He1 & Al). assert (e1 = e) as -> by congruence. exists e'. split; [done|].
  intros x Hx Hs. pose proof (al_use _ _ Al x) as U. unfold use_of in U. injection U as _ _ ->.
  apply Hp; [by apply (al_tree _ _ Al)|]. pose proof (al_swa _ _ Al x) as S. apply swa_of_inv in S as (_ & _ & _ & Es). by rewrite <- Es.
Qed.

Lemma alloc_ready x hashes d g r hb hs b :
  chained None hashes → ready_at hashes g d r hb hs b →
  ∃ s g', on_engine x d (_alloc_swa_slot (last_ready_node r)) g = (Ok s, g') ∧ touches d g g' ∧ -1 <= s ∧
    ready_at hashes g' d r hb (one_slot s ++ hs) b ∧ (s < 0 → b = true → pinned_out g' d).
Proof.
  intros Hc [(e & He & Ho & Gr & Hb & Hl)]. pose proof (protectable_ready _ _ _ Gr Hl) as Hp.
  destruct (alloc_slot_ok (last_ready_node r) e hb hs Ho Hp) as (s & e' & G & E & Sh & Hs).
  exists s. eexists. split; [by eapply on_engine_run|]. split; [apply with_engine_touches|].
  destruct Hs as [(Hpos & Ho')|(-> & Ho' & Hx)].
  - split; [lia|]. unfold one_slot. rewrite (proj2 (Z.leb_le _ _)) by done. split; [by eapply ready_shrunk; [done|apply Ho|..]|lia].
  - split; [lia|]. split; [by eapply ready_shrunk; [done|apply Ho|..]|]. intros _ Hbt. exists e'. split; [by apply engine_of_with|].
    destruct Hx as [Hx|Hx]; [|done]. rewrite <- Hb in Hbt. unfold swa_enabled in Hbt. rewrite Hx, andb_false_r in Hbt. done.
Qed.

(** ** Blocks and slots in hand *)

Definition staged_hand hashes g d r hb hs (b : bool) (blocks : option (list Z)) (slot : Z) : Prop :=
  match blocks with
  | None => slot = -1 ∧ kept g d hb hs
  | Some B => ready_at hashes g d r (hb ∪ list_to_set B) (one_slot slot ++ hs) b ∧ NoDup B ∧ (∀ c, c ∈ B → c ∉ hb)
  end.

Lemma staged_goods hashes g d r hb hs b blocks slot : staged_hand hashes g d r hb hs b blocks slot → goods g d hb hs blocks slot.
Proof. destruct blocks as [B|]; [|done]. intros (Ht & ? & ?). split; [by eapply ready_owned|done]. Qed.

Lemma staged_other hashes g g' d d' r hb hs b blocks slot :
  touches d g g' → d' ≠ d → staged_hand hashes g d' r hb hs b blocks slot → staged_hand hashes g' d' r hb hs b blocks slot.
Proof.
  intros T Hd. unfold staged_hand. destruct blocks as [B|].
  - intros (Ht & ? & ?). split; [by eapply ready_other|done].
  - intros [? ?]. split; [done|]. by eapply kept_other.
Qed.

Lemma alloc_staged hashes g d r hb hs b blocks (wanted : bool) :
  chained None hashes → staged_hand hashes g d r hb hs b blocks (-1) → (wanted = true → is_Some blocks) →
  ∃ s g', (if wanted then self_engine d (_alloc_swa_slot (last_ready_node r)) else mret (-1)) g = (Ok s, g') ∧ touches d g g' ∧ -1 <= s ∧
    (wanted = false → s = -1 ∧ g' = g) ∧ staged_hand hashes g' d r hb hs b blocks s ∧ (wanted = true → s < 0 → b = true → pinned_out g' d).
Proof.
  intros Hc Hh Hw. destruct wanted.
  2:{ exists (-1), g. split; [done|]. split; [apply touches_refl|]. done. }
  destruct (Hw eq_refl) as [B ->]. destruct Hh as (Ht & HN & Hd).
  destruct (alloc_ready AttributeError hashes d g r _ _ b Hc Ht) as (s & g' & E & T & Hs & Ht' & Hx).
  exists s, g'. split_and!; try done.
Qed.

(** What the tiers hold while a write is staged. *)
Record staged_tiers hashes cfg g (rc rs : MatchResult) W (bc bs : bool) (Bc : list Z) (Bs : option (list Z)) (sc ss : Z) : Prop := {
  sd_cpu : staged_hand hashes g CPU rc (W CPU).1 (W CPU).2 bc (Some Bc) sc;
  sd_ssd : staged_hand hashes g SSD rs (W SSD).1 (W SSD).2 bs Bs ss;
  sd_remote : kept g REMOTE (W REMOTE).1 (W REMOTE).2;
  sd_config : cache_config g = cfg;
}.

(** Which tiers there are does not change. *)
Definition keeps_engines (m : Global unit) : Prop := ∀ g d, has_engine d (m g).2 = has_engine d g.

Lemma engines_bind (m1 m2 : Global unit) : keeps_engines m1 → keeps_engines m2 → keeps_engines (m1 ;; m2).
Proof.
  intros H1 H2 g d. rewrite M_bind_run. specialize (H1 g d). destruct (m1 g) as [[[]|x] g1]; [|done]. simpl in H1. rewrite <- H1. apply H2.
Qed.

Lemma keeps_on_engine x d (m : Engine unit) : keeps_engines (on_engine x d m).
Proof.
  intros g d'. unfold on_engine. destruct (engine_of d g) as [e|] eqn:He; [|done]. destruct (m e) as [o e']. simpl. unfold has_engine.
  destruct (decide (d' = d)) as [->|Hd]; [by rewrite engine_of_with, He|by rewrite (to_others _ _ _ (with_engine_touches d e' g))].
Qed.

Lemma fail_keeps Bc sc Bs ss Br sr : keeps_engines (_fail_put_before_insert Bc sc Bs ss Br sr).
Proof.
  unfold _fail_put_before_insert, free_swa, recycle_opt.
  repeat apply engines_bind; first [apply keeps_on_engine|case_match; [apply keeps_on_engine|by intros ? ?]].
Qed.

Lemma staged_fail hashes cfg g rc rs W bc bs Bc Bs sc ss :
  staged_tiers hashes cfg g rc rs W bc bs Bc Bs sc ss →
  ∃ g', _fail_put_before_insert Bc sc Bs ss None (-1) g = (Ok (), g') ∧ global_owns g' W ∧ cache_config g' = cfg ∧ alike_tiers g g'.
Proof. intros [H1 H2 H3 Hcfg]. by apply fail_goods_run; [eapply staged_goods..| |]. Qed.

(** The SSD blocks: all of them, or none. *)
Lemma staged_ssd_run hashes g rs W bs (en wanted : bool) num :
  chained None hashes → (if en then ready_at hashes g SSD rs (W SSD).1 (W SSD).2 bs else kept g SSD (W SSD).1 (W SSD).2) → (wanted = true → en = true) →
  ∃ o g', staged_ssd wanted num rs g = (o, g') ∧ touches SSD g g' ∧
    match o with
    | Raise x => (∃ msg, x = ValueError msg) ∧ ∃ gone, owned g' SSD ((W SSD).1 ∪ gone) (W SSD).2
    | Ok Bs => staged_hand hashes g' SSD rs (W SSD).1 (W SSD).2 bs Bs (-1) ∧ (∀ B, Bs = Some B → wanted = true ∧ zlen B = num) ∧
        (Bs = None → wanted = false ∨ drained g' SSD (last_ready_node rs))
    end.
Proof.
  intros Hc Hs Hw. unfold staged_ssd. destruct wanted.
  2:{ exists (Ok None), g. split; [done|]. split; [apply touches_refl|]. split; [|split; [done|by left]]. split; [done|]. destruct en; [right; by eapply ready_owned|done]. }
  rewrite (Hw eq_refl) in Hs. destruct (take_ready AttributeError hashes SSD g rs _ _ bs num Hc Hs) as (o & g1 & E1 & T1 & Ho). rewrite M_bind_run, E1.
  destruct Ho as [(B & -> & HN & Hd & Hle & Ht & Hx)|(msg & gone & -> & Hown)].
  2:{ eexists _, g1. split; [done|]. split; [done|]. split; [by exists msg|by exists gone]. }
  destruct (Z.eqb_spec (zlen B) num) as [Hz|Hz].
  - exists (Ok (Some B)), g1. split; [done|]. split; [done|]. split; [by split|]. split; [by intros ? [= <-]|done].
  - destruct (recycle_tier AttributeError SSD g1 (W SSD).1 (W SSD).2 B) as (g2 & E2 & T2 & Ho2 & A2); [by eapply ready_owned|done|done|].
    run_step E2. exists (Ok None), g2. split; [done|]. split; [by eapply touches_trans|]. split; [split; [done|by right]|]. split; [done|].
    intros _. right. destruct Hx as [?|Hx]; [done|]. by eapply drained_touch.
Qed.

Definition swa_on (cfg : CacheConfig) (bc : bool) : bool := enable_swa_transfer cfg && bc.

(** A snapshot slot is missing on a tier that is to be written: the tier has none, or every one of its snapshots is in use. *)
Definition slots_short g (bs : bool) (to_ssd : bool) : Prop := pinned_out g CPU ∨ to_ssd = true ∧ (bs = true → pinned_out g SSD).

(** What the slots of a write are: one for each tier that is written, when snapshots are kept. *)
Definition slots_done (on to_ssd to_remote : bool) (tail_hash : Z) (sc ss : Z) (tail : option string) : Prop :=
  if on then 0 <= sc ∧ (0 <= ss ↔ to_ssd = true) ∧ tail = (if to_remote then Some (pretty tail_hash) else None) else sc = -1 ∧ ss = -1 ∧ tail = None.

Lemma staging_slots_run hashes cfg g rc rs W bc bs Bc Bs (s : SequenceMeta) i h (to_remote : bool) :
  chained None hashes → staged_tiers hashes cfg g rc rs W bc bs Bc Bs (-1) (-1) →
  (to_remote = true → 0 <= i ∧ Block.block_hashes s !! Z.to_nat i = Some h) →
  ∃ sc ss tail g', staging_slots s i rc rs (is_not_None Bs) to_remote g = (Ok (sc, ss, tail), g') ∧
    staged_tiers hashes cfg g' rc rs W bc bs Bc Bs sc ss ∧
    (is_not_None Bs = false → touches CPU g g') ∧
    (if staging_slots_missing g' sc ss tail (is_not_None Bs) to_remote then swa_on cfg bc = true ∧ slots_short g' bs (is_not_None Bs)
     else slots_done (swa_on cfg bc) (is_not_None Bs) to_remote h sc ss tail).
Proof.
  intros Hc [H1 H2 H3 Hcfg] Hh. unfold staging_slots. rewrite M_bind_run. cbn [get_state].
  pose proof (ready_swa _ _ _ _ _ _ (proj1 H1)) as Esw. rewrite Hcfg in Esw. fold (swa_on cfg bc) in Esw. rewrite Esw.
  destruct (swa_on cfg bc) eqn:Eon; cbn [negb].
  2:{ exists (-1), (-1), None, g. split; [done|]. split; [by split|]. split; [intros _; apply touches_refl|]. unfold staging_slots_missing. rewrite Esw. done. }
  destruct (alloc_staged hashes g CPU rc _ _ bc (Some Bc) true Hc H1) as (sc & g1 & E1 & T1 & B1 & _ & K1 & X1); [done|]. run_step E1.
  destruct (alloc_staged hashes g1 SSD rs (W SSD).1 (W SSD).2 bs Bs ((0 <=? sc) && is_not_None Bs) Hc) as (ss & g2 & E2 & T2 & B2 & W2 & K2 & X2);
    [by eapply staged_other|by destruct Bs; [by eexists|rewrite andb_false_r]|]. run_step E2.
  assert (cache_config g2 = cfg) as Hcfg2 by (by rewrite (to_config _ _ _ T2), (to_config _ _ _ T1)).
  assert (staged_tiers hashes cfg g2 rc rs W bc bs Bc Bs sc ss) as Hst.
  { split; [by eapply staged_other|done| |done]. eapply kept_other; [exact T2|done|]. by eapply kept_other. }
  set (want := (0 <=? sc) && (negb (is_not_None Bs) || (0 <=? ss)) && to_remote).
  exists sc, ss, (if want then Some (pretty h) else None), g2. split.
  { unfold want. destruct (_ && _ && to_remote) eqn:Ew; [|done]. apply andb_true_iff in Ew as [_ Ew]. destruct (Hh Ew) as [Hi Hlk].
    rewrite !M_bind_run. unfold py_index. rewrite (proj2 (Z.ltb_ge i 0)), (proj2 (Z.ltb_ge i 0)), Hlk by done. done. }
  split; [done|]. split; [intros HB; rewrite HB, andb_false_r in W2; by destruct (W2 eq_refl) as [_ ->]|].
  unfold staging_slots_missing. rewrite (ready_swa _ _ _ _ _ _ (proj1 (sd_cpu _ _ _ _ _ _ _ _ _ _ _ _ Hst))), Hcfg2.
  fold (swa_on cfg bc). rewrite Eon. cbn [andb]. destruct (_ || _ || _) eqn:Em.
  { split; [done|]. unfold swa_on in Eon. apply andb_true_iff in Eon as [_ Hbc]. destruct (Z.ltb_spec sc 0) as [Hlt|Hge].
    - left. eapply pinned_out_other; [exact T2|done|by apply X1].
    - right. unfold want in Em. rewrite (proj2 (Z.leb_le 0 sc)) in Em, X2 by done. destruct (is_not_None Bs) eqn:EB; cbn [andb orb negb] in *.
      + split; [done|]. destruct (Z.ltb_spec ss 0) as [Hs0|Hs0]; [intros Hb; by apply X2|]. rewrite (proj2 (Z.leb_le 0 ss)) in Em by done. by destruct to_remote.
      + by destruct to_remote. }
  apply orb_false_iff in Em as [[Ec%Z.ltb_ge Es]%orb_false_iff Er]. unfold slots_done. split; [done|]. rewrite (proj2 (Z.leb_le 0 sc)) in W2 by done.
  unfold want in *. rewrite (proj2 (Z.leb_le 0 sc)) in * by done. cbn [andb] in *. destruct (is_not_None Bs) eqn:EB; cbn [andb negb orb] in *.
  - apply Z.ltb_ge in Es. rewrite (proj2 (Z.leb_le 0 ss)) by done. by split.
  - destruct (W2 eq_refl) as [-> _]. split; [split; [lia|done]|done].
Qed.

(** Everything a write needs, or everything given back. *)
Lemma stage_write_run hashes cfg g rc rs W bc bs (s : SequenceMeta) i h (en : bool) f12 f2 f3 :
  chained None hashes → ready_at hashes g CPU rc (W CPU).1 (W CPU).2 bc →
  (if en then ready_at hashes g SSD rs (W SSD).1 (W SSD).2 bs else kept g SSD (W SSD).1 (W SSD).2) →
  kept g REMOTE (W REMOTE).1 (W REMOTE).2 → cache_config g = cfg → (0 < f3 → 0 <= i ∧ Block.block_hashes s !! Z.to_nat i = Some h) →
  ∃ o g', stage_write s i en f12 f2 f3 rc rs g = (o, g') ∧ cache_config g' = cfg ∧
    match o with
    | Raise x => (∃ msg, x = ValueError msg) ∧ ∃ gone, global_owns g' (lose W gone)
    | Ok None => global_owns g' W ∧ (drained g' CPU (last_ready_node rc) ∨ swa_on cfg bc = true ∧ slots_short g' bs en)
    | Ok (Some st) => staged_tiers hashes cfg g' rc rs W bc bs (sg_cpu st) (sg_ssd st) (sg_cpu_slot st) (sg_ssd_slot st) ∧ zlen (sg_cpu st) = f12 ∧
        (∀ B, sg_ssd st = Some B → en = true ∧ 0 < f2 ∧ zlen B = f2) ∧
        (sg_ssd st = None → en = true → 0 < f2 → drained g' SSD (last_ready_node rs)) ∧
        slots_done (swa_on cfg bc) (is_not_None (sg_ssd st)) (0 <? f3) h (sg_cpu_slot st) (sg_ssd_slot st) (sg_tail st)
    end.
Proof.
  intros Hc Hcpu Hssd Hrem Hcfg Hh. unfold stage_write.
  destruct (take_ready AttributeError hashes CPU g rc _ _ bc f12 Hc Hcpu) as (o & g1 & E1 & T1 & Ho). rewrite M_bind_run, E1.
  assert (cache_config g1 = cfg) as C1 by (by rewrite (to_config _ _ _ T1)).
  assert (kept g1 REMOTE (W REMOTE).1 (W REMOTE).2) as R1 by (by eapply kept_other).
  assert (if en then ready_at hashes g1 SSD rs (W SSD).1 (W SSD).2 bs else kept g1 SSD (W SSD).1 (W SSD).2) as S1.
  { destruct en; [by eapply ready_other|by eapply kept_other]. }
  destruct Ho as [(Bc & -> & HN & Hfr & Hle & Ht & Hx)|(msg & gone & -> & Hown)].
  2:{ eexists _, g1. split; [done|]. split; [done|]. split; [by exists msg|]. exists (λ d, if decide (d = CPU) then gone else ∅).
      apply global_owns_three; [by right| |]; apply kept_lose; try done. destruct en; [right; by eapply ready_owned|done]. }
  destruct (Z.ltb_spec (zlen Bc) f12) as [Hlt|Hge].
  { destruct (recycle_tier AttributeError CPU g1 (W CPU).1 (W CPU).2 Bc) as (g2 & E2 & T2 & Ho2 & A2); [by eapply ready_owned|done|done|].
    run_step E2. exists (Ok None), g2. split; [done|]. split; [by rewrite (to_config _ _ _ T2)|]. split.
    - apply global_owns_three; [by right| |by eapply kept_other]. eapply kept_other; [exact T2|done|]. destruct en; [right; by eapply ready_owned|done].
    - left. destruct Hx as [?|Hx]; [lia|]. by eapply drained_touch. }
  destruct (staged_ssd_run hashes g1 rs W bs en (en && (0 <? f2)) f2 Hc S1) as (o & g2 & E2 & T2 & Ho); [by destruct en|].
  assert (cache_config g2 = cfg) as C2 by (by rewrite (to_config _ _ _ T2)).
  assert (staged_hand hashes g2 CPU rc (W CPU).1 (W CPU).2 bc (Some Bc) (-1)) as Hc2 by (eapply staged_other; [exact T2|done|by split]).
  assert (kept g2 REMOTE (W REMOTE).1 (W REMOTE).2) as R2 by (by eapply kept_other).
  rewrite M_bind_run, E2. destruct o as [Bs|x].
  2:{ destruct Ho as [Hx' [gone Hown]]. eexists _, g2. split; [done|]. split; [done|]. split; [done|].
      exists (λ d, if decide (d = CPU) then list_to_set Bc else if decide (d = SSD) then gone else ∅).
      apply global_owns_three; [right; unfold lose; simpl; by eapply ready_owned; apply Hc2|by right|by apply kept_lose]. }
  destruct Ho as (Hs2 & HBs & Hdr). assert (staged_tiers hashes cfg g2 rc rs W bc bs Bc Bs (-1) (-1)) as Hst by by split.
  destruct (staging_slots_run hashes cfg g2 rc rs W bc bs Bc Bs s i h (0 <? f3) Hc Hst) as (sc & ss & tail & g3 & E3 & Hst3 & T3 & Hm).
  { intros Hf%Z.ltb_lt. by apply Hh. }
  run_step E3. rewrite !M_bind_run. cbn [get_state]. destruct (staging_slots_missing _ _ _ _ _ _).
  { destruct (staged_fail _ _ _ _ _ _ _ _ _ _ _ _ Hst3) as (g4 & E4 & K4 & C4 & A4). run_step E4. exists (Ok None), g4.
    split; [done|]. split; [done|]. split; [done|]. right. destruct Hm as [Hon Hsh]. split; [done|].
    assert (∀ d, has_engine d g3 = true → has_engine d g4 = true) as Hh4.
    { intros d Hd. pose proof (fail_keeps Bc sc Bs ss None (-1) g3 d) as Hk. rewrite E4 in Hk. simpl in Hk. by rewrite Hk. }
    destruct Hsh as [Hp|[HB Hp]].
    - left. eapply pinned_out_alike; [exact A4|apply Hh4|exact Hp]. destruct Hp as (e & He & _). unfold has_engine. by rewrite He.
    - right. destruct Bs as [B|]; [|done]. destruct (HBs B eq_refl) as [[-> _]%andb_true_iff _]. split; [done|]. intros Hb. specialize (Hp Hb).
      eapply pinned_out_alike; [exact A4|apply Hh4|exact Hp]. destruct Hp as (e & He & _). unfold has_engine. by rewrite He. }
  eexists (Ok (Some _)), g3. split; [done|]. split; [apply Hst3|]. cbn [sg_cpu sg_ssd sg_cpu_slot sg_ssd_slot sg_tail].
  split; [done|]. split; [lia|]. split; [intros B HB; destruct (HBs B HB) as [[-> ?%Z.ltb_lt]%andb_true_iff ?]; done|]. split; [|done].
  intros HN' Hen Hf2. rewrite HN', Hen, (proj2 (Z.ltb_lt 0 f2)) in Hdr by done. destruct (Hdr eq_refl) as [?|Hd]; [done|].
  eapply drained_other; [apply T3; by rewrite HN'|done|exact Hd].
Qed.

End tier.

(** ** The ops *)

Section ops.
Context `{!PrefixHash}.
Implicit Types (hb : gset Z) (hs hashes : list Z) (g : GlobalCacheEngine).

(** What an op of the full KV moves, and the keys of its remote side; the ops of a graph on each of the two lanes. *)
Definition keyed_lane (o : TransferOp) : TransferType * list Z * list Z * option (list Z) := (kv_lane o, mooncake_store_block_hashes o).
Definition keyed_ops (ops : list TransferOp) := keyed_lane <$> filter (λ o, is_swa o = false) ops.
Definition swa_ops (ops : list TransferOp) := lane <$> filter (λ o, is_swa o = true) ops.

Lemma keyed_ops_app ops1 ops2 : keyed_ops (ops1 ++ ops2) = keyed_ops ops1 ++ keyed_ops ops2.
Proof. unfold keyed_ops. by rewrite filter_app, fmap_app. Qed.
Lemma swa_ops_app ops1 ops2 : swa_ops (ops1 ++ ops2) = swa_ops ops1 ++ swa_ops ops2.
Proof. unfold swa_ops. by rewrite filter_app, fmap_app. Qed.

Lemma lanes_kv ops : Forall (λ o, is_swa o = false) ops → keyed_ops ops = keyed_lane <$> ops ∧ swa_ops ops = [].
Proof.
  unfold keyed_ops, swa_ops. intros Hf. induction Hf as [|o ops Ho _ [IH1 IH2]]; [done|]. rewrite filter_cons_True, filter_cons_False by congruence.
  by rewrite fmap_cons, IH1.
Qed.
Lemma lanes_swa ops : Forall (λ o, is_swa o = true) ops → keyed_ops ops = [] ∧ swa_ops ops = lane <$> ops.
Proof.
  unfold keyed_ops, swa_ops. intros Hf. induction Hf as [|o ops Ho _ [IH1 IH2]]; [done|]. rewrite filter_cons_False, filter_cons_True by congruence.
  by rewrite fmap_cons, IH2.
Qed.

Lemma made_op_run ty src dst kv dp p g ops edges :
  plan_at p g ops edges → length src = length dst →
  ∃ o p', (on_build (op ← new_op ty src dst dp false kv None; graph_add op ;; mret (op_id op)) : Plan Z) p = (Ok (op_id o), p') ∧
    plan_at p' g (ops ++ [o]) edges ∧ keyed_lane o = (ty, src, dst, kv) ∧ is_swa o = false.
Proof.
  intros [<- Hh] Hl. destruct (holds_new p.2 ops edges ty src dst dp false kv None Hh Hl) as (E1 & E2 & Hh' & _).
  exists (made p.2 ty src dst dp false kv None). eexists. split.
  { apply on_build_run. rewrite M_bind_run, E1, M_bind_run, E2. done. }
  split; [by split|done].
Qed.

(** An op that is there when it has blocks, and waits for the ops [before], of which there is one at most. *)
Definition joined (new before : list TransferOp) : list (Z * Z) := o ← new; (λ d, (op_id o, op_id d)) <$> before.

Lemma wanted_op_run (wanted : bool) ty src dst kv dp p g ops edges before :
  plan_at p g ops edges → (wanted = true → length src = length dst) → (length before <= 1)%nat → (∀ d, d ∈ before → d ∈ ops) →
  ∃ new p', (if wanted then (k ← on_build (op ← new_op ty src dst dp false kv None; graph_add op ;; mret (op_id op));
                              after_op k (head (op_id <$> before)) ;; mret (Some k)) else mret None : Plan (option Z)) p = (Ok (head (op_id <$> new)), p') ∧
    plan_at p' g (ops ++ new) (joined new before ++ edges) ∧ keyed_lane <$> new = (if wanted then [(ty, src, dst, kv)] else []) ∧ Forall (λ o, is_swa o = false) new.
Proof.
  intros Hp Hl Hb Hin. destruct wanted.
  2:{ exists [], p. rewrite app_nil_r. by split_and!. }
  destruct (made_op_run ty src dst kv dp p g ops edges Hp (Hl eq_refl)) as (o & p1 & E1 & Hp1 & Hk & Hs). run_step E1.
  destruct before as [|d [|? ?]]; [| |simpl in Hb; lia].
  - exists [o], p1. split; [done|]. split; [done|]. split; [by rewrite <- Hk|by constructor].
  - destruct (depends_on_run (op_id o) (op_id d) p1 g (ops ++ [o]) edges Hp1) as (p2 & E2 & Hp2).
    { rewrite fmap_app, elem_of_app. right. left. }
    { apply list_elem_of_fmap. exists d. split; [done|]. apply elem_of_app. left. apply Hin. left. }
    run_step E2. exists [o], p2. split; [done|]. split; [done|]. split; [by rewrite <- Hk|by constructor].
Qed.

(** Every op of [ops] is awaited, or waits for one that is. *)
Definition awaited (finished : list Z) (ops : list TransferOp) (edges : list (Z * Z)) : Prop :=
  (∀ k, k ∈ finished → k ∈ op_id <$> ops) ∧
  ∀ o, o ∈ ops → op_id o ∈ finished ∨ ∃ d, d ∈ ops ∧ op_id d ∈ finished ∧ transfer_type d = D2H ∧ (op_id o, op_id d) ∈ edges.

Lemma awaited_app f1 f2 ops1 ops2 e1 e2 : awaited f1 ops1 e1 → awaited f2 ops2 e2 → awaited (f1 ++ f2) (ops1 ++ ops2) (e2 ++ e1).
Proof.
  intros [A1 A2] [B1 B2]. split.
  - intros k [?%A1|?%B1]%elem_of_app; rewrite fmap_app, elem_of_app; auto.
  - intros o [Ho|Ho]%elem_of_app; [destruct (A2 o Ho) as [?|(d & ? & ? & ? & ?)]|destruct (B2 o Ho) as [?|(d & ? & ? & ? & ?)]];
      try (left; rewrite elem_of_app; by auto); right; exists d; rewrite !elem_of_app; auto.
Qed.

(** The SWA lane of a write. *)
Definition snapshot_lanes (on to_ssd to_remote : bool) (h sc ss : Z) : list Lane :=
  if on then (D2H, [0], [sc], None) :: (if to_ssd then [(H2DISK, [sc], [ss], None)] else []) ++ (if to_remote then [(H2REMOTE, [sc], [0], Some [pretty h])] else [])
  else [].

Lemma staged_swa_run hashes g r hb hs bc st h (to_remote : bool) dp p ops edges :
  plan_at p g ops edges → ready_at hashes g CPU r hb hs bc →
  slots_done (swa_on (cache_config g) bc) (is_not_None (sg_ssd st)) to_remote h (sg_cpu_slot st) (sg_ssd_slot st) (sg_tail st) →
  ∃ finished new joins p', staged_swa_ops st to_remote dp p = (Ok finished, p') ∧ plan_at p' g (ops ++ new) (joins ++ edges) ∧
    Forall (λ o, is_swa o = true) new ∧ awaited finished new joins ∧
    lane <$> new = snapshot_lanes (swa_on (cache_config g) bc) (is_not_None (sg_ssd st)) to_remote h (sg_cpu_slot st) (sg_ssd_slot st).
Proof.
  intros [<- Hh] Ht Hsl. pose proof (ready_swa _ _ _ _ _ _ Ht) as Esw. fold (swa_on (cache_config p.1) bc) in Esw. unfold staged_swa_ops.
  destruct (swa_on (cache_config p.1) bc) eqn:Eon; cbn [slots_done] in Hsl.
  2:{ destruct Hsl as (Esc & _ & _). rewrite Esc. exists [], [], [], p. rewrite app_nil_r. split; [done|]. split; [by split|].
      split; [constructor|]. split; [split; [by intros k ?%elem_of_nil|by intros o ?%elem_of_nil]|done]. }
  destruct Hsl as (Hc & Hs & Htail). rewrite (proj2 (Z.ltb_ge (sg_cpu_slot st) 0)) by done.
  assert (∀ f, (get_state ≫= f : Plan (list Z)) p = f p p) as Eg by done. rewrite Eg. destruct p as [g' b']. cbn [fst snd] in *. rewrite Esw, Htail.
  set (tails := match (if to_remote then Some (pretty h) else None) with Some h => Some [h] | None => None end).
  set (remote := if is_not_None (if to_remote then Some (pretty h) else None) then [0] else []).
  destruct (put_chain_run b' ops edges _SWA_GPU_PLACEHOLDER [sg_cpu_slot st] (Some (one_slot (sg_ssd_slot st))) (Some remote) dp tails Hh eq_refl ltac:(done))
    as (d2h & n1 & n2 & joins & b2 & E & X & J & L1 & L2 & L3).
  rewrite M_bind_run, (on_build_run _ (g', b') _ _ E). cbn [fst snd SWAOps.d2h_id h2disk_id h2remote_id is_not_None].
  rewrite M_bind_run. cbn [assertM py_assert lift_result].
  assert (lane <$> n1 = (if is_not_None (sg_ssd st) then [(H2DISK, [sg_cpu_slot st], [sg_ssd_slot st], None)] else [])) as L2'.
  { rewrite L2. unfold store_lane, one_slot. destruct (is_not_None (sg_ssd st)).
    - by rewrite (proj2 (Z.leb_le 0 (sg_ssd_slot st))) by (by apply Hs).
    - destruct (Z.leb_spec 0 (sg_ssd_slot st)) as [Hp|]; [by apply Hs in Hp|done]. }
  assert (lane <$> n2 = (if to_remote then [(H2REMOTE, [sg_cpu_slot st], [0], Some [pretty h])] else [])) as L3' by (rewrite L3; unfold store_lane, remote, tails; by destruct to_remote).
  assert ((if is_not_None (sg_ssd st) then assertM (is_not_None (head (op_id <$> n1))) else mret ()) (g', b2) = (Ok (), (g', b2))) as E1.
  { destruct (is_not_None (sg_ssd st)); [|done]. by destruct n1. }
  run_step E1.
  assert ((if to_remote && is_not_None (if to_remote then Some (pretty h) else None) then assertM (is_not_None (head (op_id <$> n2))) else mret ()) (g', b2) = (Ok (), (g', b2))) as E2.
  { destruct to_remote; [|done]. by destruct n2. }
  run_step E2. exists [op_id d2h], (d2h :: n1 ++ n2), joins, (g', b2). split; [done|]. split; [split; [done|apply X]|]. split; [apply X|]. split.
  - split; [by intros k ->%list_elem_of_singleton; left|]. intros o [->|Ho]%elem_of_cons; [left; left|]. right. exists d2h.
    split; [left|]. split; [left|]. split; [unfold lane in L1; congruence|]. apply J. apply list_elem_of_fmap. exists (op_id o).
    split; [done|]. apply list_elem_of_fmap. by exists o.
  - rewrite fmap_cons, fmap_app, L1, L2', L3'. done.
Qed.

(** What the ops of the full KV are, for a write of [n] blocks whose CPU blocks are [all]: the last [f2] go to the SSD, the last [f3] to the store. *)
Definition write_lanes (gpu_blocks new : list Z) (ssd : option (list Z)) (all : list Z) (n f12 f2 f3 : Z) (keys : list Z)
    : list (TransferType * list Z * list Z * option (list Z)) :=
  (if 0 <? f12 then [(D2H, gpu_blocks, new, None)] else []) ++
  match ssd with Some B => [(H2DISK, drop (Z.to_nat (n - f2)) all, B, None)] | None => [] end ++
  (if 0 <? f3 then [(H2REMOTE, drop (Z.to_nat (n - f3)) all, replicate (Z.to_nat f3) 0, Some keys)] else []).

Lemma awaited_lower d2h ops low2 low3 :
  (length d2h <= 1)%nat → (∀ d, d ∈ d2h → transfer_type d = D2H) → ops = d2h ++ low2 ++ low3 →
  awaited (match head (op_id <$> d2h) with Some k => [k] | None => option_list (head (op_id <$> low2)) ++ option_list (head (op_id <$> low3)) end) ops
    (joined low3 d2h ++ joined low2 d2h) ∨ ¬ ((length low2 <= 1)%nat ∧ (length low3 <= 1)%nat).
Proof.
  intros Hl Ht ->. destruct (decide (length low2 <= 1 ∧ length low3 <= 1)%nat) as [[H2 H3]|Hn]; [left|by right].
  assert (∀ low : list TransferOp, (length low <= 1)%nat → option_list (head (op_id <$> low)) = op_id <$> low) as Hone.
  { intros [|o [|? ?]] Hlow; simpl in *; [done|done|lia]. }
  destruct d2h as [|d [|? ?]]; [| |simpl in Hl; lia]; simpl.
  - rewrite !Hone by done. rewrite <- fmap_app. split; [done|]. intros o Ho. left. apply list_elem_of_fmap. by exists o.
  - split; [intros k ->%list_elem_of_singleton; left|]. intros o [->|Ho]%elem_of_cons; [left; left|]. right. exists d. split; [left|]. split; [left|].
    split; [apply Ht; left|]. unfold joined. rewrite elem_of_app, !list_elem_of_bind. apply elem_of_app in Ho as [Ho|Ho]; [right|left]; exists o; (split; [left|done]).
Qed.

Lemma staged_write_run hashes g r hb hs bc (s : SequenceMeta) hit n matched gpu_blocks st h f12 f2 f3 dp p :
  plan_at p g [] [] → ready_at hashes g CPU r hb hs bc → zlen gpu_blocks = f12 → zlen (sg_cpu st) = f12 → zlen (matched ++ sg_cpu st) = n →
  (∀ B, sg_ssd st = Some B → 0 < f2 <= n ∧ zlen B = f2) → 0 <= f3 <= n →
  slots_done (swa_on (cache_config g) bc) (is_not_None (sg_ssd st)) (0 <? f3) h (sg_cpu_slot st) (sg_ssd_slot st) (sg_tail st) →
  let all := matched ++ sg_cpu st in
  ∃ finished p' ops edges, staged_write_ops s 0 hit f12 f2 f3 matched gpu_blocks st dp p = (Ok finished, p') ∧ plan_at p' g ops edges ∧
    keyed_ops ops = write_lanes gpu_blocks (sg_cpu st) (sg_ssd st) all n f12 f2 f3 (py_slice (Some (0 + hit)) (Some (0 + hit + f3)) (Block.block_hashes s)) ∧
    swa_ops ops = snapshot_lanes (swa_on (cache_config g) bc) (is_not_None (sg_ssd st)) (0 <? f3) h (sg_cpu_slot st) (sg_ssd_slot st) ∧
    awaited finished ops edges.
Proof.
  intros Hp Ht Hg Hc Hn Hssd Hf3 Hsl all. unfold staged_write_ops.
  assert (∀ f, 0 < f <= n → source_blocks f matched (sg_cpu st) = drop (Z.to_nat (n - f)) all) as Hsrc.
  { intros f Hf. rewrite source_blocks_tail by (by rewrite Hn). f_equal. unfold zlen in Hn. lia. }
  assert (∀ f, 0 <= f <= n → length (drop (Z.to_nat (n - f)) all) = Z.to_nat f) as Hlen.
  { intros f Hf. rewrite length_drop. unfold zlen in Hn. fold all in Hn. lia. }
  destruct (wanted_op_run (0 <? f12) D2H gpu_blocks (sg_cpu st) None dp p g [] [] [] Hp) as (n1 & p1 & E1 & Hp1 & L1 & K1);
    [unfold zlen in *; lia|simpl; lia|by intros d ?%elem_of_nil|].
  assert ((if 0 <? f12 then k ← kv_op D2H gpu_blocks (sg_cpu st) dp; mret (Some k) else mret None : Plan (option Z)) p = (Ok (head (op_id <$> n1)), p1)) as E1'.
  { rewrite <- E1. by destruct (0 <? f12). }
  run_step E1'. assert ((length n1 <= 1)%nat ∧ ∀ d, d ∈ n1 → transfer_type d = D2H) as [H1 T1].
  { destruct (0 <? f12), n1 as [|o [|? ?]]; try done; simpl in *; (split; [lia|]); [|by intros d ?%elem_of_nil].
    intros d ->%list_elem_of_singleton. unfold keyed_lane, kv_lane in L1. congruence. }
  destruct (wanted_op_run (is_not_None (sg_ssd st)) H2DISK (source_blocks f2 matched (sg_cpu st)) (default [] (sg_ssd st)) None dp p1 g _ _ n1 Hp1)
    as (n2 & p2 & E2 & Hp2 & L2 & K2); [|done|by intros d Hd; rewrite app_nil_l|].
  { destruct (sg_ssd st) as [B|]; [|done]. intros _. destruct (Hssd B eq_refl) as [Hf2 HB]. rewrite Hsrc, Hlen by lia. simpl. unfold zlen in HB. lia. }
  assert (match sg_ssd st with
          | Some ssd_blocks => k ← kv_op H2DISK (source_blocks f2 matched (sg_cpu st)) ssd_blocks dp; after_op k (head (op_id <$> n1)) ;; mret (Some k)
          | None => mret None
          end p1 = (Ok (head (op_id <$> n2)), p2)) as E2' by (rewrite <- E2; by destruct (sg_ssd st)).
  run_step E2'.
  destruct (wanted_op_run (0 <? f3) H2REMOTE (source_blocks f3 matched (sg_cpu st)) (Mooncake.take_ (Z.to_nat f3))
              (Some (py_slice (Some (0 + hit)) (Some (0 + hit + f3)) (Block.block_hashes s))) dp p2 g _ _ n1 Hp2)
    as (n3 & p3 & E3 & Hp3 & L3 & K3); [|done|by intros d Hd; rewrite app_nil_l, elem_of_app; left|].
  { intros Hpos%Z.ltb_lt. rewrite Hsrc, Hlen by lia. unfold Mooncake.take_. by rewrite length_replicate. }
  run_step E3.
  destruct (staged_swa_run hashes g r hb hs bc st h (0 <? f3) dp p3 _ _ Hp3 Ht Hsl) as (fin & n4 & joins & p4 & E4 & Hp4 & K4 & A4 & L4).
  run_step E4. eexists _, p4, _, _. split; [reflexivity|]. split; [exact Hp4|].
  destruct (lanes_kv _ K1) as [V1 S1]. destruct (lanes_kv _ K2) as [V2 S2]. destruct (lanes_kv _ K3) as [V3 S3]. destruct (lanes_swa _ K4) as [V4 S4].
  split; [|split].
  - rewrite !keyed_ops_app, V1, V2, V3, V4, L1, L2, L3, app_nil_r. unfold write_lanes. simpl app at 1. rewrite <- !app_assoc. f_equal. f_equal.
    + destruct (sg_ssd st) as [B|]; [|done]. simpl. rewrite Hsrc by (by destruct (Hssd B eq_refl)). done.
    + destruct (Z.ltb_spec 0 f3) as [Hpos|]; [|done]. rewrite Hsrc by lia. done.
  - rewrite !swa_ops_app, S1, S2, S3, S4, L4. done.
  - destruct (awaited_lower n1 ((([] ++ n1) ++ n2) ++ n3) n2 n3 H1 T1) as [A|[]].
    { by rewrite app_nil_l, <- app_assoc. }
    + assert (joined n1 [] = []) as Ej by (unfold joined; clear; induction n1; simpl; done).
      rewrite Ej, app_nil_r. by apply awaited_app.
    + destruct (is_not_None _), n2 as [|? [|? ?]], (0 <? f3), n3 as [|? [|? ?]]; simpl in *; try done; split; lia.
Qed.
End ops.

(** ** The whole planner *)

Section put.
Context `{!PrefixHash} (XXH64 : list Z → Z) (clock : nat → float) {Store : Type} `{!Mooncake.MooncakeDistributedStore Store} (mc : Mooncake.MooncakeStoreCacheEngine).
Implicit Types (r : MatchResult) (hb : gset Z) (hs hashes : list Z) (g : GlobalCacheEngine) (d : DeviceType) (s : SequenceMeta) (W : DeviceType → gset Z * list Z).

Lemma ready_count s g d r hb hs b : seq_ok XXH64 s → tier_at (hashes_of XXH64 s) g d r hb hs b →
  (num_ready_matched_blocks r <= num_blocks s)%nat ∧ (num_ready_matched_blocks r <= length (mr_physical_blocks r))%nat.
Proof. intros [<- _] Ht%tier_ready. destruct Ht as [(e & _ & _ & [Hle _ _] & _)]. done. Qed.

Lemma ready_blocks_all r n : (num_ready_matched_blocks r <= n)%nat → (num_ready_matched_blocks r <= length (mr_physical_blocks r))%nat →
  ready_blocks r 0 (Z.of_nat n) = list.take (num_ready_matched_blocks r) (mr_physical_blocks r).
Proof.
  intros Hn Hl. unfold ready_blocks, blocks_in. rewrite py_slice_prefix, (py_slice_nat _ 0 n), drop_0. apply take_ge. rewrite length_take. lia.
Qed.

(** The node that keeps the first [k] blocks of the sequence in the tier while the plan runs. *)
Definition pinned g d hashes (k : nat) (nodes : NodeMap) : Prop :=
  if decide (k = 0%nat) then nodes = []
  else ∃ x e, nodes = [(d, (x, 0))] ∧ engine_of d g = Some e ∧ tree (index e) x ∧ 0 <= lock_cnt (nd (index e) x) ∧
         ∃ i h, hashes !! (k - 1)%nat = Some h ∧ block_hashes (nd (index e) x) !! i = Some h.

Lemma anchor_pinned hashes g d r hb hs b (wanted : bool) :
  (wanted = true → ready_at hashes g d r hb hs b) →
  pinned g d hashes (if wanted then num_ready_matched_blocks r else 0%nat) (anchor_entry d (wanted && (0 <? Z.of_nat (num_ready_matched_blocks r))) r).
Proof.
  intros Hr. unfold pinned. destruct wanted; [|by destruct (last_ready_node r) eqn:E; unfold anchor_entry; rewrite E].
  destruct (Hr eq_refl) as [(e & He & _ & [_ _ (n & Hn & Ht & Hat)] & _ & Hl)]. unfold anchor_entry. rewrite Hn. case_decide as Hz.
  - by rewrite Hz.
  - rewrite (proj2 (Z.ltb_lt _ _)) by lia. exists n, e. destruct Hat as [[_ ?]|[_ Hat]]; [done|]. split_and!; try done. by apply Hl.
Qed.

(** The first [k] of [blocks] can be read. *)
Definition ready_prefix g d hashes (k : nat) (blocks : list Z) : Prop :=
  ∀ i h b, (i < k)%nat → hashes !! i = Some h → blocks !! i = Some b → tier_entry g d h b true.

Lemma ready_at_prefix hashes g d r hb hs b new :
  ready_at hashes g d r hb hs b → ready_prefix g d hashes (num_ready_matched_blocks r) (list.take (num_ready_matched_blocks r) (mr_physical_blocks r) ++ new).
Proof.
  intros [(e & He & _ & [Hle Hen _] & _)] i h b' Hi Hh Hb. exists e. split; [done|]. apply (Hen i h b' Hi Hh).
  rewrite lookup_app_l in Hb by (rewrite length_take; lia). by apply lookup_take_Some in Hb as [? _].
Qed.

(** The pending insertions of a write from the block [kc] on the CPU tier, from [ks] on the SSD. *)
Definition write_inserts s (kc ks : nat) (new : list Z) (disk : option (list Z)) (sc ss : Z) : list DeferredCacheInsert :=
  let n := Z.of_nat (num_blocks s) in
  let staged d blocks start slot := mkDeferred d s blocks (Z.of_nat start) (Z.of_nat start) n None slot false (-1) None None in
  (if (0 <? n - Z.of_nat kc) || (0 <=? sc) then [staged CPU new kc sc] else []) ++ match disk with Some B => [staged SSD B ks ss] | None => [] end.

Lemma staged_pendings s cfg g rc rs W bc bs Bc Bs sc ss (kc ks : nat) :
  seq_ok XXH64 s → staged_tiers (hashes_of XXH64 s) cfg g rc rs W bc bs Bc Bs sc ss → (0 < num_blocks s)%nat ∨ sc = -1 ∧ ss = -1 → (kc <= num_blocks s)%nat → (ks <= num_blocks s)%nat →
  zlen Bc = Z.of_nat (num_blocks s) - Z.of_nat kc → (∀ B, Bs = Some B → zlen B = Z.of_nat (num_blocks s) - Z.of_nat ks) →
  let ps := write_inserts s kc ks Bc Bs sc ss in pendings_ok XXH64 g W ps ∧ global_owns g (holding W ps).
Proof.
  intros Hs [H1 H2 H3 _] Hn Hkc Hks Hc HB ps. destruct H1 as (T1 & N1 & F1). set (n := num_blocks s) in *.
  assert (∀ d, d ≠ CPU → d ≠ SSD → staged_blocks ps d = [] ∧ staged_slots ps d = []) as Hrest.
  { intros d Hd1 Hd2. unfold ps, write_inserts. destruct (_ || _), Bs; simpl; repeat case_decide; done. }
  assert (staged_blocks ps CPU = Bc ∧ staged_slots ps CPU = one_slot sc) as [Ec1 Ec2].
  { unfold ps, write_inserts. fold n. destruct (_ || _) eqn:Ew; destruct Bs; simpl; rewrite ?app_nil_r; try done;
      (apply orb_false_iff in Ew as [Ew1%Z.ltb_ge Ew2]; unfold one_slot; rewrite Ew2; destruct Bc; [done|unfold zlen in Hc; simpl in Hc; lia]). }
  assert (staged_blocks ps SSD = default [] Bs ∧ staged_slots ps SSD = (if is_not_None Bs then one_slot ss else [])) as [Es1 Es2].
  { unfold ps, write_inserts. destruct (_ || _); destruct Bs; simpl; by rewrite ?app_nil_r. }
  assert (∀ p, p ∈ ps → planned_insert XXH64 p ∧ has_engine (di_device_type p) g = true) as Heach.
  { assert (∀ d B k sl, zlen B = Z.of_nat n - Z.of_nat k → (k <= n)%nat → (0 <= sl → (0 < n)%nat) →
      planned_insert XXH64 (mkDeferred d s B (Z.of_nat k) (Z.of_nat k) (Z.of_nat n) None sl false (-1) None None)) as Hpl.
    { intros d B k sl HB' Hk Hsl. split; simpl; [done| |unfold n in *; lia|lia|done]. unfold range_ok. simpl. rewrite HB', Z.eqb_refl, Z.leb_refl. cbn [andb]. apply Z.leb_le. lia. }
    intros p [Hp|Hp]%elem_of_app.
    - destruct (_ || _); [|by apply elem_of_nil in Hp]. apply list_elem_of_singleton in Hp as ->. split; [apply Hpl; [done|done|lia]|].
      destruct (ready_owned _ _ _ _ _ _ _ T1) as (e & He & _). unfold has_engine. cbn [di_device_type]. by rewrite He.
    - destruct Bs as [B|]; [|by apply elem_of_nil in Hp]. apply list_elem_of_singleton in Hp as ->. split; [apply Hpl; [by apply HB|done|lia]|].
      destruct H2 as (T2 & _). destruct (ready_owned _ _ _ _ _ _ _ T2) as (e & He & _). unfold has_engine. cbn [di_device_type]. by rewrite He. }
  split; [split; [exact Heach|]|].
  - intros d. destruct (decide (d = CPU)) as [->|Hd1]; [by rewrite Ec1|]. destruct (decide (d = SSD)) as [->|Hd2].
    + rewrite Es1. destruct Bs as [B|]; simpl; [by destruct H2 as (_ & ? & ?)|]. split; [constructor|by intros b ?%elem_of_nil].
    + destruct (Hrest d Hd1 Hd2) as [-> _]. split; [constructor|by intros b ?%elem_of_nil].
  - apply global_owns_three; unfold holding, also; cbn [fst snd].
    + rewrite Ec1, Ec2. right. by eapply ready_owned.
    + rewrite Es1, Es2. destruct Bs as [B|]; simpl; [destruct H2 as (T2 & _); right; by eapply ready_owned|]. destruct H2 as [_ H2]. by rewrite union_empty_r_L.
    + destruct (Hrest REMOTE ltac:(done) ltac:(done)) as [-> ->]. simpl. by rewrite union_empty_r_L.
Qed.

Lemma hashes_left s (hit : nat) : seq_ok XXH64 s → _has_hashes s = true → (hit <= num_blocks s)%nat →
  py_slice (Some (0 + Z.of_nat hit)) (Some (0 + Z.of_nat hit + (Z.of_nat (num_blocks s) - Z.of_nat hit))) (Block.block_hashes s) = drop hit (hashes_of XXH64 s).
Proof.
  intros [Hl _] Hhas Hh. replace (0 + Z.of_nat hit + _) with (Z.of_nat (num_blocks s)) by lia. rewrite Z.add_0_l, py_slice_nat.
  unfold hashes_of, SequenceMeta_gen_hashes in *. rewrite Hhas in *. apply take_ge. rewrite length_drop. lia.
Qed.

(** A write of the whole sequence. The first [kc] blocks are on the CPU tier and [all] is where the sequence is in host memory; the store has the first [hit].
    [disk] is where the SSD blocks from [ks] on go, when they go anywhere. *)
Record deferred_write s cfg g W (bc : bool) (gpu_block_ids : list Z) (hit kc ks : nat) (disk : option (list Z)) (plan : DeferredPutPlan) : Prop := {
  dw_moves : ∃ ops edges all sc ss nc ns h,
    let p := dpp_plan plan in
    let hashes := hashes_of XXH64 s in
    let n := num_blocks s in
    length all = n ∧ ready_prefix g CPU hashes kc all ∧
    (∀ B, disk = Some B → (ks < n)%nat ∧ length B = (n - ks)%nat) ∧
    built (pp_transfer_graph p) ops edges ∧ awaited (pp_finished_ops_ids p) ops edges ∧
    keyed_ops ops = write_lanes (drop kc gpu_block_ids) (drop kc all) disk all (Z.of_nat n) (Z.of_nat (n - kc)) (Z.of_nat (n - ks)) (Z.of_nat (n - hit)) (drop hit hashes) ∧
    (0 < n → hashes !! (n - 1) = Some h)%nat ∧ swa_ops ops = snapshot_lanes (swa_on cfg bc) (is_not_None disk) (0 <? Z.of_nat (n - hit)) h sc ss ∧
    pp_skipped_gpu_blocks p = Z.of_nat kc ∧ pp_num_gpu_blocks_to_transfer p = Z.of_nat (n - kc) ∧
    pp_node_to_unlock p = nc ++ ns ∧ pinned g CPU hashes kc nc ∧ pinned g SSD hashes (if is_not_None disk then ks else 0%nat) ns ∧
    pp_buffer_to_free p = [] ∧ pp_swa_slots_to_free p = [] ∧ pp_op_callback_dict p = [] ∧
    dpp_deferred_inserts plan = write_inserts s kc ks (drop kc all) disk sc ss;
  dw_holds : pendings_ok XXH64 g W (dpp_deferred_inserts plan) ∧ global_owns g (holding W (dpp_deferred_inserts plan));
}.

Definition is_empty_deferred (plan : DeferredPutPlan) : Prop := is_empty_plan (dpp_plan plan) ∧ dpp_deferred_inserts plan = [].

Lemma empty_deferred_run g ids : ∃ plan ids', world_ids empty_deferred_put (g, ids) = (Ok plan, (g, ids')) ∧ is_empty_deferred plan.
Proof. eexists _, _. split; [reflexivity|]. split; [by eexists|done]. Qed.

(** The plan, once everything it needs is in hand. *)
Lemma staged_plan_run s cfg g ids rc rs W bc bs gpu_block_ids hit f2 h st dp :
  seq_ok XXH64 s → _has_hashes s = true →
  let n := num_blocks s in let kc := num_ready_matched_blocks rc in let ks := num_ready_matched_blocks rs in
  let matched_cpu := list.take kc (mr_physical_blocks rc) in let matched_ssd := list.take ks (mr_physical_blocks rs) in
  (kc <= n ∧ kc <= length (mr_physical_blocks rc))%nat → (ks <= n ∧ ks <= length (mr_physical_blocks rs))%nat → (hit <= n)%nat → zlen gpu_block_ids = Z.of_nat n →
  staged_tiers (hashes_of XXH64 s) cfg g rc rs W bc bs (sg_cpu st) (sg_ssd st) (sg_cpu_slot st) (sg_ssd_slot st) →
  zlen (sg_cpu st) = Z.of_nat n - Z.of_nat kc → (∀ B, sg_ssd st = Some B → f2 = Z.of_nat n - Z.of_nat ks ∧ 0 < f2 ∧ zlen B = f2) →
  (0 < n → hashes_of XXH64 s !! (n - 1) = Some h)%nat → (0 < n)%nat →
  slots_done (swa_on cfg bc) (is_not_None (sg_ssd st)) (0 <? Z.of_nat n - Z.of_nat hit) h (sg_cpu_slot st) (sg_ssd_slot st) (sg_tail st) →
  ∃ plan ids', plan_with empty_deferred_put
      (finished ← staged_write_ops s 0 (Z.of_nat hit) (Z.of_nat n - Z.of_nat kc) f2 (Z.of_nat n - Z.of_nat hit) matched_cpu
                    (py_slice (Some (zlen matched_cpu)) None gpu_block_ids) st dp;
       let nodes := anchor_entry CPU (0 <? zlen matched_cpu) rc ++ anchor_entry SSD (is_not_None (sg_ssd st) && (0 <? zlen matched_ssd)) rs in
       mret (Some (λ graph, mkDeferredPut (mkPutPlan graph finished nodes [] [] (zlen (py_slice (Some (zlen matched_cpu)) None gpu_block_ids)) (zlen matched_cpu) [])
                              (staged_inserts s 0 (zlen gpu_block_ids) matched_cpu matched_ssd st)))) (g, ids) = (Ok plan, (g, ids')) ∧
    deferred_write s cfg g W bc gpu_block_ids hit kc ks (sg_ssd st) plan.
Proof.
  intros Hs Hhas n kc ks mcb msb [Hkc Lc] [Hks Ls] Hhit Hg Hst Hc HB Hh Hn Hsl.
  assert (zlen mcb = Z.of_nat kc) as Zc by (unfold zlen, mcb; rewrite length_take; lia).
  assert (zlen msb = Z.of_nat ks) as Zs by (unfold zlen, msb; rewrite length_take; lia).
  assert (py_slice (Some (zlen mcb)) None gpu_block_ids = drop kc gpu_block_ids) as ->.
  { rewrite Zc. unfold py_slice. simpl. unfold zlen in Hg. rewrite slice_bound_nonneg by lia. apply take_ge. rewrite length_drop. lia. }
  set (all := mcb ++ sg_cpu st). assert (zlen all = Z.of_nat n) as Hall by (unfold all; rewrite zlen_app; lia).
  assert (drop kc all = sg_cpu st) as Edrop.
  { unfold all. rewrite drop_app_ge by (unfold zlen in Zc; lia). replace (kc - length mcb)%nat with 0%nat by (unfold zlen in Zc; lia). apply drop_0. }
  pose proof (sd_cpu _ _ _ _ _ _ _ _ _ _ _ _ Hst) as (Hcpu & _).
  destruct (staged_write_run (hashes_of XXH64 s) g rc _ _ bc s (Z.of_nat hit) (Z.of_nat n) mcb (drop kc gpu_block_ids) st h
              (Z.of_nat n - Z.of_nat kc) f2 (Z.of_nat n - Z.of_nat hit) dp (fresh_planning g ids) (fresh_plan_at g ids) Hcpu)
    as (finished & p' & ops & edges & E & [Ep Hb] & Hk & Hsw & Haw).
  { unfold zlen in *. rewrite length_drop. lia. } { done. } { done. } { intros B HB'. destruct (HB B HB') as (? & ? & ?). lia. } { lia. }
  { by rewrite (sd_config _ _ _ _ _ _ _ _ _ _ _ _ Hst). }
  erewrite plan_with_run by (rewrite M_bind_run, E; reflexivity). rewrite Ep.
  assert (staged_inserts s 0 (zlen gpu_block_ids) mcb msb st = write_inserts s kc ks (sg_cpu st) (sg_ssd st) (sg_cpu_slot st) (sg_ssd_slot st)) as Ei.
  { unfold staged_inserts, write_inserts. by rewrite Hg, Zc, Zs, !Z.add_0_l. }
  eexists _, p'.2.1. split; [reflexivity|]. cbv zeta. rewrite Ei. split.
  - exists ops, edges, all, (sg_cpu_slot st), (sg_ssd_slot st). do 2 eexists. exists h. cbn [dpp_plan dpp_deferred_inserts pp_transfer_graph pp_finished_ops_ids
      pp_node_to_unlock pp_op_callback_dict pp_buffer_to_free pp_num_gpu_blocks_to_transfer pp_skipped_gpu_blocks pp_swa_slots_to_free]. rewrite Edrop. fold n.
    split; [unfold zlen in Hall; lia|]. split; [by eapply ready_at_prefix|]. split.
    { intros B HB'. destruct (HB B HB') as (? & ? & ?). unfold zlen in *. lia. }
    split; [apply Hb|]. split; [done|]. split.
    { pose proof (hashes_left s hit Hs Hhas Hhit) as Eh. fold n in Eh. rewrite Hk, Eh, !Nat2Z.inj_sub by done. destruct (sg_ssd st) as [B|] eqn:EB; [by destruct (HB B eq_refl) as [-> _]|done]. }
    split; [done|]. split; [by rewrite Hsw, Nat2Z.inj_sub, (sd_config _ _ _ _ _ _ _ _ _ _ _ _ Hst) by done|].
    split; [done|]. split; [unfold zlen in *; rewrite length_drop; lia|]. split; [reflexivity|]. rewrite Zc, Zs. split; [|split].
    + pose proof (anchor_pinned (hashes_of XXH64 s) g CPU rc _ _ bc true (λ _, Hcpu)) as P. exact P.
    + apply (anchor_pinned (hashes_of XXH64 s) g SSD rs ((W SSD).1 ∪ list_to_set (default [] (sg_ssd st))) (one_slot (sg_ssd_slot st) ++ (W SSD).2) bs (is_not_None (sg_ssd st))).
      pose proof (sd_ssd _ _ _ _ _ _ _ _ _ _ _ _ Hst) as Hss. destruct (sg_ssd st); [|done]. intros _. apply Hss.
    + done.
  - eapply staged_pendings; [done|done|by left|done|done|done|]. intros B HB'. destruct (HB B HB') as (? & ? & ?). lia.
Qed.

Lemma on_world_run {A} (m : M World A) w (st : Store) o w' : m w = (o, w') → on_world m (w, st) = (o, (w', st)).
Proof. unfold on_world. cbn [fst snd]. by intros ->. Qed.

(** The whole sequence can be read from the tier. *)
Definition cached g d s : Prop := ∀ h, h ∈ hashes_of XXH64 s → ∃ b, tier_entry g d h b true.

Lemma ready_cached s g d r hb hs b : seq_ok XXH64 s → tier_at (hashes_of XXH64 s) g d r hb hs b → num_ready_matched_blocks r = num_blocks s → cached g d s.
Proof.
  intros [Hl _] Ht%tier_ready Hk. destruct Ht as [(e & He & _ & [[_ Hle] Hen _] & _)]. intros h Hh. apply list_elem_of_lookup in Hh as [i Hi].
  pose proof (lookup_lt_Some _ _ _ Hi) as Hlt. destruct (lookup_lt_is_Some_2 (mr_physical_blocks r) i) as [b' Hb']; [lia|].
  exists b', e. split; [done|]. apply (Hen i); [lia|done|done].
Qed.

(** What the planner knows after its matches. *)
Record matched_tiers s cfg g (en : bool) (rc rs : MatchResult) W (bc bs : bool) : Prop := {
  mt_cpu : tier_at (hashes_of XXH64 s) g CPU rc (W CPU).1 (W CPU).2 bc;
  mt_ssd : if en then tier_at (hashes_of XXH64 s) g SSD rs (W SSD).1 (W SSD).2 bs else kept g SSD (W SSD).1 (W SSD).2 ∧ rs = empty_match;
  mt_remote : kept g REMOTE (W REMOTE).1 (W REMOTE).2;
  mt_config : cache_config g = cfg;
}.

Lemma matched_kept s cfg g en rc rs W bc bs : matched_tiers s cfg g en rc rs W bc bs → global_owns g W.
Proof. intros [A1 A2 A3 _]. apply global_owns_three; [right; by eapply tier_owned| |done]. destruct en; [right; by eapply tier_owned|apply A2]. Qed.

(** Why a write that moves nothing moves nothing: it is everywhere, or the CPU tier is short of blocks, or a tier of snapshot slots. *)
Definition no_write_reason s g (en : bool) (hit : nat) (cfg : CacheConfig) (bc bs : bool) : Prop :=
  hit = num_blocks s ∧ cached g CPU s ∧ (en = true → cached g SSD s) ∨ (∃ prot, drained g CPU prot) ∨ swa_on cfg bc = true ∧ slots_short g bs en.

(** Why a write leaves out the SSD: it is not in use, has the whole sequence, or is short of blocks. *)
Definition no_disk_reason s g (en : bool) (ks : nat) : Prop := en = false ∨ ks = num_blocks s ∨ ∃ prot, drained g SSD prot.

(** The planner after its matches. *)
Lemma planned_write_run s cfg g ids (en : bool) rc rs W bc bs gpu_block_ids (hit : nat) dp :
  seq_ok XXH64 s → _has_hashes s = true → matched_tiers s cfg g en rc rs W bc bs → zlen gpu_block_ids = Z.of_nat (num_blocks s) → (hit <= num_blocks s)%nat →
  let n := Z.of_nat (num_blocks s) in let matched_cpu := ready_blocks rc 0 n in let matched_ssd := ready_blocks rs 0 n in
  let fragment12 := zlen gpu_block_ids - zlen matched_cpu in let fragment2 := if en then zlen gpu_block_ids - zlen matched_ssd else 0 in
  let fragment3 := zlen gpu_block_ids - Z.of_nat hit in
  ∃ o g' ids', (if (fragment12 =? 0) && (fragment2 =? 0) && (fragment3 =? 0) then world_ids empty_deferred_put
    else
      st ← world_global (stage_write s (0 + zlen gpu_block_ids - 1) en fragment12 fragment2 fragment3 rc rs);
      match st with
      | None => world_ids empty_deferred_put
      | Some st =>
          plan_with empty_deferred_put
            (finished ← staged_write_ops s 0 (Z.of_nat hit) fragment12 fragment2 fragment3 matched_cpu (py_slice (Some (zlen matched_cpu)) None gpu_block_ids) st dp;
             let nodes := anchor_entry CPU (0 <? zlen matched_cpu) rc ++ anchor_entry SSD (is_not_None (sg_ssd st) && (0 <? zlen matched_ssd)) rs in
             mret (Some (λ graph, mkDeferredPut (mkPutPlan graph finished nodes [] [] (zlen (py_slice (Some (zlen matched_cpu)) None gpu_block_ids)) (zlen matched_cpu) [])
                                    (staged_inserts s 0 (zlen gpu_block_ids) matched_cpu matched_ssd st))))
      end) (g, ids) = (o, (g', ids')) ∧
    match o with
    | Ok plan => (is_empty_deferred plan ∧ global_owns g' W ∧ no_write_reason s g' en hit cfg bc bs) ∨
        ∃ disk, deferred_write s cfg g' W bc gpu_block_ids hit (num_ready_matched_blocks rc) (num_ready_matched_blocks rs) disk plan ∧
          (is_Some disk → en = true) ∧ (disk = None → no_disk_reason s g' en (num_ready_matched_blocks rs))
    | Raise x => (∃ msg, x = ValueError msg) ∧ ∃ gone, global_owns g' (lose W gone)
    end.
Proof.
  intros Hs Hhas Hm Hg Hhit n. pose proof Hm as [A1 A2 A3 Hcfg]. set (kc := num_ready_matched_blocks rc). set (ks := num_ready_matched_blocks rs).
  pose proof (ready_count s _ _ _ _ _ _ Hs A1) as [Kc Lc]. assert (ks <= num_blocks s ∧ ks <= length (mr_physical_blocks rs))%nat as [Ks Ls].
  { destruct en; [by eapply ready_count|]. unfold ks. destruct A2 as [_ ->]. simpl. lia. }
  intros mcb msb. assert (mcb = list.take kc (mr_physical_blocks rc)) as Emc by (by apply ready_blocks_all).
  assert (msb = list.take ks (mr_physical_blocks rs)) as Ems by (by apply ready_blocks_all).
  assert (zlen mcb = Z.of_nat kc ∧ zlen msb = Z.of_nat ks) as [Zc Zs] by (rewrite Emc, Ems; unfold zlen; rewrite !length_take; fold kc ks in Kc, Lc; lia).
  cbv zeta. rewrite Zc, Zs, Hg. fold n.
  destruct (_ && _ && _) eqn:Ez.
  { destruct (empty_deferred_run g ids) as (plan & ids' & E & He). exists (Ok plan), g, ids'. split; [done|]. left. split; [done|]. split; [by eapply matched_kept|]. left.
    apply andb_true_iff in Ez as [[Ez1%Z.eqb_eq Ez2%Z.eqb_eq]%andb_true_iff Ez3%Z.eqb_eq]. split; [lia|]. split; [eapply ready_cached; [done|done|fold kc; lia]|].
    intros ->. eapply ready_cached; [done|done|fold ks; lia]. }
  set (h := default 0 (hashes_of XXH64 s !! (num_blocks s - 1)%nat)).
  assert ((0 < num_blocks s)%nat → hashes_of XXH64 s !! (num_blocks s - 1)%nat = Some h) as Hh.
  { intros Hp. unfold h. destruct (lookup_lt_is_Some_2 (hashes_of XXH64 s) (num_blocks s - 1)) as [x ->]; [destruct Hs; lia|done]. }
  destruct (stage_write_run (hashes_of XXH64 s) cfg g rc rs W bc bs s (0 + n - 1) h en (n - Z.of_nat kc) (if en then n - Z.of_nat ks else 0) (n - Z.of_nat hit) (proj2 Hs))
    as (o & g2 & E2 & C2 & Ho); [by apply tier_ready|by destruct en; [apply tier_ready|destruct A2]|done|done| |].
  { intros Hp. unfold n in *. split; [lia|]. replace (Z.to_nat _) with (num_blocks s - 1)%nat by lia. rewrite <- (Hh ltac:(lia)).
    unfold hashes_of, SequenceMeta_gen_hashes. by rewrite Hhas. }
  rewrite M_bind_run, (world_global_run _ g ids _ _ E2). destruct o as [[st|]|x]; [| |by eexists _, g2, ids].
  2:{ destruct (empty_deferred_run g2 ids) as (plan & ids' & E & He). exists (Ok plan), g2, ids'. split; [done|]. left. destruct Ho as [Ho1 Ho2]. split; [done|]. split; [done|].
      right. destruct Ho2 as [Ho2|Ho2]; [left; by eexists|by right]. }
  destruct Ho as (Hst & HBc & HBs & Hdr & Hsl).
  destruct (staged_plan_run s cfg g2 ids rc rs W bc bs gpu_block_ids hit (if en then n - Z.of_nat ks else 0) h st dp Hs Hhas) as (plan & ids' & E & Hw); try done.
  { intros B HB. destruct (HBs B HB) as (-> & ? & ?). done. }
  { destruct (decide (0 < num_blocks s)%nat) as [|Hz]; [done|]. exfalso. revert Ez. assert (n - Z.of_nat kc = 0) as -> by (unfold n, kc in *; lia).
    assert ((if en then n - Z.of_nat ks else 0) = 0) as -> by (destruct en; unfold n; lia). assert (n - Z.of_nat hit = 0) as -> by (unfold n; lia). done. }
  exists (Ok plan), g2, ids'. fold kc ks in E. rewrite <- Emc, <- Ems, Zc, Zs, Hg in E. split; [exact E|]. right. exists (sg_ssd st).
  split; [exact Hw|]. split; [intros [B HB]; by apply (HBs B)|]. intros HN. unfold no_disk_reason. fold ks. destruct en; [right|by left].
  destruct (decide (ks = num_blocks s)) as [?|Hne]; [by left|right]. eexists. apply Hdr; [done|done|unfold n; lia].
Qed.

(** *** To the end of the plan *)

(** [get] and [put] lock the nodes of the plan; the completion, and an abort, then give back what it holds. *)
Definition settles g W (plan : DeferredPutPlan) : Prop :=
  let p := dpp_plan plan in
  ∃ g1, lock_nodes (pp_node_to_unlock p) g = (Ok tt, g1) ∧
    (∀ o, ∃ g2 o2, Deferred._transfer_callback XXH64 clock (pp_node_to_unlock p) (pp_buffer_to_free p) (dpp_deferred_inserts plan) (g1, o) = (Ok tt, (g2, o2)) ∧ global_owns g2 W) ∧
    ∃ g2, Deferred._abort_transfer_plan (pp_node_to_unlock p) (pp_buffer_to_free p) (dpp_deferred_inserts plan) None (pp_swa_slots_to_free p) g1 = (Ok tt, g2) ∧ global_owns g2 W.

Lemma lock_pinned g d hashes k nodes W :
  pinned g d hashes k nodes → global_owns g W →
  ∃ g', lock_nodes nodes g = (Ok tt, g') ∧ touches d g g' ∧ global_owns g' W ∧ (∀ d', has_engine d' g' = has_engine d' g) ∧
    Forall (held_node g') nodes ∧ (nodes = [] ∨ ∃ x, nodes = [(d, (x, 0))]).
Proof.
  unfold pinned. intros Hp Ho. case_decide as Hk.
  { subst nodes. exists g. split; [done|]. split; [apply touches_refl|]. split_and!; try done. by left. }
  destruct Hp as (x & e & -> & He & Ht & Hl & _). set (e' := with_index (with_store (alter (relock x 1) x) (index e)) e).
  pose proof (with_engine_touches d e' g) as T. pose proof (engine_of_with d e' g (mk_is_Some _ _ He)) as He'.
  assert (owned g d (W d).1 (W d).2) as (e0 & He0 & Ho0) by (apply kept_engine; [unfold has_engine; by rewrite He|apply Ho]).
  assert (e0 = e) as -> by congruence. assert (owned (with_engine d e' g) d (W d).1 (W d).2) as Ho' by (exists e'; split; [done|by apply relock_owns]).
  exists (with_engine d e' g). split.
  { unfold lock_nodes. cbn [for_each fst snd]. rewrite M_bind_run, (on_engine_run _ _ _ _ _ _ _ He (lock_node_run x e Hl)). done. }
  split; [done|]. split; [|split; [|split; [|right; by exists x]]].
  - intros d'. destruct (decide (d' = d)) as [->|]; [by right|by eapply kept_other].
  - eapply has_engine_touches; [done|done|]. unfold has_engine. by rewrite He.
  - constructor; [|constructor]. exists e'. split; [done|]. cbn [fst snd].
    destruct (relock_meta x 1 (index e)) as [M1 _ _]. simpl. rewrite M1. split; [done|].
    rewrite nd_upd by (by apply tree_live; [apply Ho0|]). rewrite decide_True by done. unfold relock. simpl. lia.
Qed.

Lemma write_settles s cfg g W bc gpu_block_ids hit kc ks disk plan : deferred_write s cfg g W bc gpu_block_ids hit kc ks disk plan → settles g W plan.
Proof.
  intros [(ops & edges & all & sc & ss & nc & ns & h & _ & _ & _ & _ & _ & _ & _ & _ & _ & _ & En & Pc & Ps & Eb & Es & _ & Ei) [Hps Ho]].
  set (ps := dpp_deferred_inserts plan) in *. unfold settles. fold ps. rewrite En, Eb, Es.
  destruct (lock_pinned g CPU _ _ nc (holding W ps) Pc Ho) as (g1 & E1 & T1 & Ho1 & H1 & F1 & N1).
  assert (pinned g1 SSD (hashes_of XXH64 s) (if is_not_None disk then ks else 0%nat) ns) as Ps1.
  { unfold pinned in *. case_decide; [done|]. destruct Ps as (x & e & -> & He & R). exists x, e. split; [done|]. split; [|done]. by rewrite (to_others _ _ _ T1). }
  destruct (lock_pinned g1 SSD _ _ ns (holding W ps) Ps1 Ho1) as (g2 & E2 & T2 & Ho2 & H2 & F2 & N2).
  exists g2. split.
  { destruct N1 as [->|[x ->]]; [change (lock_nodes [] g) with (@Ok unit tt, g) in E1; injection E1 as <-; exact E2|]. unfold lock_nodes in *. cbn [for_each app] in *. rewrite M_bind_run in E1 |- *.
    destruct (cache_engines _ _ g) as [[[]|?] g0]; [|done]. injection E1 as <-. exact E2. }
  assert (Forall (held_node g2) nc) as F1'.
  { destruct N1 as [->|[x ->]]; [done|]. apply Forall_cons in F1 as [F1 _]. constructor; [|constructor]. by apply (held_other g1 g2 SSD (CPU, (x, 0)) T2). }
  assert (∀ d, plan_run g2 (nc ++ ns) d []) as Hr.
  { intros d. unfold plan_run. destruct N1 as [->|[x ->]], N2 as [->|[y ->]]; destruct d; simpl; try done; (split; [|done]); by eapply Forall_cons_1. }
  assert (∀ g', global_owns g' (holding W []) → global_owns g' W) as Hnil by (intros g' Hg' d; rewrite <- (also_nil W d); apply Hg').
  assert (NoDup (omap publish_result ps)) as HN by (rewrite Ei; unfold write_inserts; destruct (_ || _), disk; constructor).
  assert (NoDup (nc ++ ns).*1) as HNn by (destruct N1 as [->|[x ->]], N2 as [->|[y ->]]; apply (bool_decide_unpack _); done).
  assert (pendings_ok XXH64 g2 W ps) as Hps2 by (destruct Hps as [P1 P2]; split; [intros p Hp; rewrite H2, H1; by apply P1|done]).
  split.
  - intros o. destruct (commits_run XXH64 clock ps g2 o W Hps2 HN Ho2) as (g3 & o3 & E3 & Ho3 & H3 & G3 & _).
    destruct (finish_nodes_run g3 (nc ++ ns) (λ _, []) W) as (g4 & E4 & Ho4 & _ & H4); [intros d; by eapply grown_plan_run|by apply Hnil|].
    destruct (finish_buffers_run g4 [] W) as (g5 & E5 & Ho5 & _); [by intros d B ?%elem_of_nil|intros d; rewrite also_nil; apply Ho4|].
    exists g5, o3. split; [|done]. unfold Deferred._transfer_callback, try_finally. rewrite E3. unfold on_globals, GlobalCache._transfer_callback. cbn [fst snd].
    rewrite M_bind_run, E4, E5. done.
  - unfold Deferred._abort_transfer_plan. destruct (abort_nodes_run (holding W ps) (nc ++ ns) g2) as (g3 & E3 & Ho3 & H3 & _); [done|by apply Forall_app|done|].
    run_step E3. cbn [for_each]. destruct (discards_run XXH64 W ps g3) as (g4 & E4 & Ho4 & _).
    { destruct Hps2 as [P1 P2]. split; [intros p Hp; rewrite H3; by apply P1|done]. } { done. }
    rewrite M_bind_run. cbn [mret M_ret]. run_step E4. exists g4. split; [done|by apply Hnil].
Qed.

(** *** What the tiers have *)

(** The first [k] blocks of the sequence can be read from the tier, and the next one cannot. *)
Definition readable_prefix g d s (k : nat) : Prop :=
  (k <= num_blocks s)%nat ∧ (∀ i h, (i < k)%nat → hashes_of XXH64 s !! i = Some h → ∃ b, tier_entry g d h b true) ∧
  ∀ h b, hashes_of XXH64 s !! k = Some h → ¬ tier_entry g d h b true.

Definition same_entries g g' : Prop := ∀ d h c rd, tier_entry g' d h c rd ↔ tier_entry g d h c rd.

Lemma match_tier_entries d ig s g hb hs b r g' :
  seq_ok XXH64 s → tier_ok g d hb hs b → match_tier XXH64 clock d ig s g = (Ok r, g') → same_entries g g'.
Proof.
  intros Hs (e & He & Ho & _) E. unfold match_tier in E. rewrite M_bind_run in E. cbn [get_state] in E.
  destruct (has_engine d g && negb ig); [|by injection E as <- <-].
  destruct (match_run XXH64 clock e hb hs s Ho Hs) as (r' & t & Em & _ & St & _). rewrite (on_engine_run _ _ _ _ _ _ _ He Em) in E. injection E as <- <-.
  intros d' h c rd. unfold tier_entry. destruct (decide (d' = d)) as [->|Hd].
  - rewrite engine_of_with by (by rewrite He). split.
    + intros (e' & [= <-] & Hen). exists e. split; [done|]. by apply (entry_quiet (index e) t h c rd (sd_quiet _ _ St)).
    + intros (e' & He' & Hen). assert (e' = e) as -> by congruence. eexists. split; [done|]. by apply (entry_quiet (index e) t h c rd (sd_quiet _ _ St)).
  - by rewrite (to_others _ _ _ (with_engine_touches d _ g)).
Qed.

Lemma match_local_entries s strat g W bc bs rc rs g' :
  seq_ok XXH64 s → local_tiers g W bc bs → match_local XXH64 clock s strat g = (Ok (rc, rs), g') → same_entries g g'.
Proof.
  intros Hs [Hcpu Hssd _ _] E. unfold match_local in E.
  destruct (match_tier_run XXH64 clock CPU s g _ _ bc Hs Hcpu) as (rc1 & g1 & E1 & T1 & _).
  apply M_bind_inv in E as (rc2 & g2 & E2 & E). pose proof (match_tier_entries _ _ _ _ _ _ _ _ _ Hs Hcpu E2) as S1.
  apply M_bind_inv in E as (rs2 & g3 & E3 & E). injection E as <- <- <-.
  assert (same_entries g2 g3) as S2.
  { assert (g2 = g1) as Eg by congruence. rewrite Eg in *. clear Eg. destruct (enable_ssd (cache_config g)).
    - assert (tier_ok g1 SSD (W SSD).1 (W SSD).2 bs) as Hs1 by (by eapply tier_ok_other). eapply match_tier_entries; [exact Hs|exact Hs1|exact E3].
    - rewrite match_tier_skip in E3 by (right; by rewrite (to_others _ _ _ T1)). injection E3 as <- <-. by intros d h c rd. }
  intros d h c rd. by rewrite (S2 d h c rd), (S1 d h c rd).
Qed.

Lemma ready_readable s g g' d r hb hs b :
  seq_ok XXH64 s → same_entries g g' → tier_at (hashes_of XXH64 s) g' d r hb hs b → readable_prefix g d s (num_ready_matched_blocks r).
Proof.
  intros Hs Hsame Ht. destruct (ready_count s _ _ _ _ _ _ Hs Ht) as [Hk Hl]. destruct Ht as [(e & He & _ & [_ _ _ _ [_ Hen _ Hstop]] & _)].
  split; [done|]. split.
  - intros i h Hi Hh. destruct (lookup_lt_is_Some_2 (mr_physical_blocks r) i) as [c Hc]; [lia|]. exists c. apply Hsame. exists e. split; [done|]. by eapply Hen.
  - intros h c Hh Hx%Hsame. destruct Hx as (e' & He' & Hx). assert (e' = e) as -> by congruence. by eapply Hstop.
Qed.

(** What is needed of a write: [kc] and [ks] blocks are on the local tiers before it. *)
Record needs s g g' (en : bool) (kc ks : nat) (disk : option (list Z)) : Prop := {
  nd_cpu : readable_prefix g CPU s kc;
  nd_ssd : if en then readable_prefix g SSD s ks else disk = None;
  nd_disk : disk = None → no_disk_reason s g' en ks;
}.

(** What the store has: the full-KV length of the match (the answered length when that is 0), in the request.  When the store answers for each key,
    it is the longest prefix of blocks whose keys are there. *)
Definition store_has s (remote : Mooncake.MatchResultAccel) (st : Store) (hit : nat) : Prop :=
  hit = Nat.min (num_blocks s) (if decide (Mooncake.ma_kv_matched_blocks remote = 0%nat) then Mooncake.ma_num_matched_blocks remote else Mooncake.ma_kv_matched_blocks remote) ∧
  ∀ Ans : string → Z, (∀ ks, Mooncake.batch_is_exist ks st = (Ok (Ans <$> ks), st)) →
    MooncakeSpec.longest (MooncakeSpec.stored mc Ans (pretty <$> hashes_of XXH64 s) Mooncake.KV) (num_blocks s) hit.

Lemma put_hit_store s st remote st' :
  seq_ok XXH64 s → _has_hashes s = true → Mooncake.match_ mc s st = (Ok remote, st') →
  store_has s remote st (Z.to_nat (put_hit_blocks (Z.of_nat (num_blocks s)) 0 remote)).
Proof.
  intros [Hl _] Hhas E. set (hit := Z.to_nat _).
  assert (hit = Nat.min (num_blocks s) (if decide (Mooncake.ma_kv_matched_blocks remote = 0%nat) then Mooncake.ma_num_matched_blocks remote else Mooncake.ma_kv_matched_blocks remote)) as Eh.
  { unfold hit, put_hit_blocks. destruct (Nat.eqb_spec (Mooncake.ma_kv_matched_blocks remote) 0); case_decide; try done; lia. }
  split; [exact Eh|]. intros Ans HA.
  assert (hashes_of XXH64 s = Block.block_hashes s) as Ehs by (unfold hashes_of, SequenceMeta_gen_hashes; by rewrite Hhas).
  rewrite Ehs in Hl |- *. destruct (MooncakeSpec.match_kv_longest mc s Ans st remote st' HA ltac:(lia) E) as [L Hk0].
  rewrite take_ge in L by lia. assert (hit = Mooncake.ma_kv_matched_blocks remote) as ->; [|exact L].
  pose proof (proj1 L). rewrite Eh. case_decide as Hz; [rewrite Hk0 by done; lia|lia].
Qed.

(** [C4] A write of a whole sequence with the mooncake store loses nothing, whatever the store answers. It answers a plan, or it raises what the match on the store raised
    with every tier's books as they were, or the [ValueError] of a heap tie during eviction.  A plan that moves something lists exactly the ops that are needed:
    one D2H of the blocks after the longest prefix that can be read from the CPU tier, one H2DISK of those after the longest such prefix of the SSD, unless that is not in use or has no room, and
    one H2REMOTE of those after the prefix the store has (its full-KV match: the longest prefix of blocks the store has when it answers for each key), each with the
    right blocks of the sequence and the H2REMOTE with their hashes as keys; when snapshots are kept, one SWA op per tier written, the remote one keyed by the hash of the
    last block; the task waits for every op or for the D2H it depends on; the blocks of the indexes that feed the ops can be read and their node is listed to be pinned.
    Nothing is inserted: the new blocks and slots are those of the pending insertions, and nothing else changed hands; with its nodes locked, the plan can be completed,
    whatever the transfers report, and aborted, and both end with the books as they were.  An empty plan holds nothing and has a reason: everything is on every tier, the CPU tier has nothing left to evict,
    or snapshots are kept and a tier to be written has no snapshot slot left that is not in use. *)
Theorem mooncake_put_spec s g ids st W bc bs gpu_block_ids strat dp :
  seq_ok XXH64 s → _has_hashes s = true → local_tiers g W bc bs → enable_remote (cache_config g) = true →
  ignore_gpu strat = false → ignore_remote strat = false → zlen gpu_block_ids = Z.of_nat (num_blocks s) →
  let asked := Mooncake.match_ mc s st in
  ∃ o g' ids', _put_impl_global XXH64 clock mc s 0 (Z.of_nat (num_blocks s)) gpu_block_ids strat dp ((g, ids), st) = (o, ((g', ids'), asked.2)) ∧
    match o with
    | Ok plan => ∃ remote hit, asked.1 = Ok remote ∧ store_has s remote st hit ∧
        ((is_empty_deferred plan ∧ global_owns g' W ∧ no_write_reason s g' (uses_ssd g strat) hit (cache_config g) bc bs) ∨
         ∃ kc ks disk, needs s g g' (uses_ssd g strat) kc ks disk ∧
           deferred_write s (cache_config g) g' W bc gpu_block_ids hit kc ks disk plan ∧ settles g' W plan)
    | Raise x => asked.1 = Raise x ∧ global_owns g' W ∨ (∃ msg, x = ValueError msg) ∧ ∃ gone, global_owns g' (lose W gone)
    end.
Proof.
  intros Hs Hhas Hlt Hrem Hgpu Hign Hg asked. unfold _put_impl_global.
  rewrite M_bind_run. change (on_world (world_global (gets cache_config)) (g, ids, st)) with (Ok (cache_config g), (g, ids, st)). cbv beta iota.
  rewrite M_bind_run, Hgpu. cbn [negb assertM py_assert lift_result]. rewrite M_bind_run, (lt_enabled _ _ _ _ Hlt). cbn [assertM py_assert lift_result].
  rewrite M_bind_run, Hrem, Hign. cbn [negb andb assertM py_assert lift_result].
  destruct (lt_cpu _ _ _ _ Hlt) as (e0 & He0 & _).
  assert (assert_engine CPU g = (Ok (), g)) as Ea by (unfold assert_engine; rewrite M_bind_run; cbn [get_state]; unfold has_engine; by rewrite He0).
  rewrite M_bind_run, (on_world_run _ _ _ _ _ (world_global_run _ g ids _ _ Ea)).
  destruct (match_local_run XXH64 clock s strat g W bc bs Hs Hlt) as (rc & rs & g1 & E1 & C1 & A1 & A2 & A3).
  pose proof (match_local_entries _ _ _ _ _ _ _ _ _ Hs Hlt E1) as Hsame.
  assert (matched_tiers s (cache_config g) g1 (uses_ssd g strat) rc rs W bc bs) as Hm by by split.
  rewrite M_bind_run, (on_world_run _ _ _ _ _ (world_global_run _ g ids _ _ E1)). rewrite M_bind_run. unfold on_store at 1. cbn [fst snd].
  fold asked. destruct asked as [[remote|x] st'] eqn:Eask.
  2:{ exists (Raise x), g1, ids. split; [done|]. left. split; [done|]. by eapply matched_kept. }
  set (hit := Z.to_nat (put_hit_blocks (Z.of_nat (num_blocks s)) 0 remote)).
  assert (put_hit_blocks (zlen gpu_block_ids) 0 remote = Z.of_nat hit ∧ (hit <= num_blocks s)%nat) as [Eh Hh] by (rewrite Hg; unfold hit, put_hit_blocks; lia).
  destruct (planned_write_run s (cache_config g) g1 ids (uses_ssd g strat) rc rs W bc bs gpu_block_ids hit dp Hs Hhas Hm Hg Hh) as (o & g2 & ids2 & E2 & Ho).
  exists o, g2, ids2. split.
  - cbv zeta. fold (uses_ssd g strat). rewrite Eh. cbv zeta in E2. cbn [snd].
    destruct (_ && _ && _); [by apply on_world_run|].
    rewrite M_bind_run in E2. destruct (world_global (stage_write _ _ _ _ _ _ _ _) (g1, ids)) as [[[st1|]|x] w1] eqn:E3;
      rewrite M_bind_run, (on_world_run _ _ _ _ _ E3); [by apply on_world_run|by apply on_world_run|by injection E2 as <- <-].
  - destruct o as [plan|x]; [|by right]. exists remote, hit. split; [done|]. split; [by eapply put_hit_store|].
    destruct Ho as [Ho|(disk & Hw & Hen & Hd)]; [by left|right]. eexists _, _, disk. split; [|split; [exact Hw|by eapply write_settles]].
    split; [by eapply ready_readable| |exact Hd]. destruct (uses_ssd g strat); [by eapply ready_readable|].
    destruct disk as [B|]; [|done]. by discriminate (Hen (mk_is_Some _ _ eq_refl)).
Qed.
End put.

(** ** A concrete write *)

#[local] Existing Instance MooncakeSpec.toy_store.

(** A CPU tier with snapshots, in front of a store that has the first block of the request. *)
Definition toy_mooncake_config : CacheConfig := mkConfig true false true false true true 1 true.
Definition toy_mooncake_global : GlobalCacheEngine := mkGlobal toy_mooncake_config (Some toy_engine) None None.
Definition toy_write : SequenceMeta := toy_seq [7; 8; 9].
Definition toy_put : result DeferredPutPlan * (World * list string) :=
  _put_impl_global toy_digest toy_clock MooncakeSpec.toy_mooncake toy_write 0 3 [20; 21; 22] DEFAULT_CACHE_STRATEGY 0
    ((toy_mooncake_global, toy_ids), [Mooncake.build_key (pretty (default 0 (head (Block.block_hashes toy_write)))) Mooncake.KV MooncakeSpec.toy_keys]).

Lemma toy_mooncake_tiers : @local_tiers toy_ph toy_mooncake_global toy_held true false.
Proof.
  split; [|done|by left|done]. exists toy_engine. split; [done|]. split; [apply toy_engine_owns|]. split; [by vm_compute|].
  apply (@locks_of_store toy_ph). apply map_Forall_to_list. apply (bool_decide_unpack _). by vm_compute.
Qed.

Lemma mooncake_put_spec_witness :
  ∃ plan g' ids' st', toy_put = (Ok plan, ((g', ids'), st')) ∧ keyed_ops (snd <$> _op_map (pp_transfer_graph (dpp_plan plan))) =
      [(D2H, [20; 21; 22], [0; 1; 2], None); (H2REMOTE, [1; 2], [0; 0], Some (drop 1 (Block.block_hashes toy_write)))] ∧
    @settles toy_ph toy_digest toy_clock g' toy_held plan.
Proof.
  destruct (@mooncake_put_spec toy_ph toy_digest toy_clock (list string) MooncakeSpec.toy_store MooncakeSpec.toy_mooncake toy_write toy_mooncake_global toy_ids
    [Mooncake.build_key (pretty (default 0 (head (Block.block_hashes toy_write)))) Mooncake.KV MooncakeSpec.toy_keys] toy_held true false [20; 21; 22] DEFAULT_CACHE_STRATEGY 0
    (toy_seq_ok _) eq_refl toy_mooncake_tiers eq_refl eq_refl eq_refl eq_refl) as (o & g' & ids' & E & Ho).
  assert (match toy_put.1 with
          | Ok plan => keyed_ops (snd <$> _op_map (pp_transfer_graph (dpp_plan plan))) =
              [(D2H, [20; 21; 22], [0; 1; 2], None); (H2REMOTE, [1; 2], [0; 0], Some (drop 1 (Block.block_hashes toy_write)))]
          | Raise _ => False end) as Hn by (vm_compute; reflexivity).
  change (toy_put = (o, ((g', ids'), (Mooncake.match_ MooncakeSpec.toy_mooncake toy_write
    [Mooncake.build_key (pretty (default 0 (head (Block.block_hashes toy_write)))) Mooncake.KV MooncakeSpec.toy_keys]).2))) in E.
  rewrite E in Hn. destruct o as [plan|x]; [|destruct Hn]. cbn [fst] in Hn. exists plan, g', ids'. eexists. split; [exact E|]. split; [exact Hn|].
  destruct Ho as (remote & hit & _ & _ & [([[gid Heq] _] & _)|(kc & ks & disk & _ & _ & Hw)]); [by rewrite Heq in Hn|exact Hw].
Defined.
End MooncakePut.
