(* ===== verification/KvManager.v ===== *)
(** * KvManager: the facade an inference engine calls

    Models [KVManager] ([flexkv/kvmanager.py]) in its direct mode, where the task
    engine lives in the process: every method forwards to [KVTaskEngine]
    ([TaskManager]) with its defaults filled in.  [KVManagerService] states what a
    connector calls, [KVManagerLaws] what it may rely on: new tasks get new ids, a
    launch answers with the ids it was given or with the id of one batch, and a wait
    answers for tasks it was asked about, once each, a blocking one for all of them.  [direct_manager] and
    [direct_laws] discharge both for every cache engine.  In the client-server mode
    the same calls travel to a server process, which is not modelled. *)

From S2P Require Import Prelude PyFloat Block Transfer GraphBuild BatchMerge BatchFrame CacheEngine GlobalCache CompletionAgg TaskManager.
Import GraphBuild.GraphBuild BatchMerge.BatchMerge BatchFrame.BatchFrame GlobalCache.GlobalCache CompletionAgg.CompletionAgg.
Import TaskManager.TaskManager.
Local Open Scope Z_scope.

Module KvManager.

(** ** The interface *)

(** What a connector calls.  A slot mapping that was never set is [None]. *)
Class KVManagerService (S : Type) : Type := {
  km_get_match : list Z → option (list bool) → option (list string) → M S (Z * list bool);
  km_put_match : list Z → option (list bool) → option (list string) → M S (Z * list bool);
  km_launch : list Z → list (option (list Z)) → bool → M S (list Z);
  km_cancel : list Z → M S unit;
  km_try_wait : list Z → M S (list (Z * KVResponse));
  km_wait : list Z → M S (list (Z * KVResponse));
  km_reset : M S unit;
}.

(** What holds of the answer of a call, of the state it was made in and of the state it left. *)
Definition answers {S A} (op : M S A) (s : S) (Q : A → S → Prop) : Prop :=
  match op s with (Ok a, s') => Q a s' | (Raise _, _) => True end.

(** The contract, in both directions.  [km_pending ks s] is what a connector keeps in return: the tasks [ks] were matched
    and neither launched nor cancelled, and only such tasks are launched or cancelled.  A reset may be ruled out. *)
Class KVManagerLaws (S : Type) `{!KVManagerService S} : Type := {
  (** Every id handed out so far is below it. *)
  km_next : S → Z;
  km_pending : list Z → S → Prop;
  km_resets : bool;
  km_pending_perm ks ks' s : ks ≡ₚ ks' → km_pending ks s → km_pending ks' s;
  km_get_match_new toks mask ns ks s :
    km_pending ks s → answers (km_get_match toks mask ns) s (λ r s', km_next s <= r.1 < km_next s' ∧ km_pending (r.1 :: ks) s');
  km_put_match_new toks mask ns ks s :
    km_pending ks s → answers (km_put_match toks mask ns) s (λ r s', km_next s <= r.1 < km_next s' ∧ km_pending (r.1 :: ks) s');
  km_launch_ids ids slots as_batch ks s :
    km_pending (ids ++ ks) s →
    answers (km_launch ids slots as_batch) s (λ r s', km_pending ks s' ∧ km_next s <= km_next s' ∧
      (r = ids ∨ as_batch = true ∧ ∃ b, r = [b] ∧ km_next s <= b < km_next s'));
  km_cancel_next ids ks s :
    km_pending (ids ++ ks) s → answers (km_cancel ids) s (λ _ s', km_pending ks s' ∧ km_next s <= km_next s');
  km_try_wait_asked ids ks s :
    km_pending ks s →
    answers (km_try_wait ids) s (λ r s', km_pending ks s' ∧ km_next s <= km_next s' ∧ NoDup r.*1 ∧ r.*1 ⊆ ids);
  km_wait_asked ids ks s :
    km_pending ks s →
    answers (km_wait ids) s (λ r s', km_pending ks s' ∧ km_next s <= km_next s' ∧ NoDup r.*1 ∧ r.*1 ⊆ ids ∧ ids ⊆ r.*1);
  km_reset_next ks s :
    km_resets = true → km_pending ks s → answers km_reset s (λ _ s', km_pending [] s' ∧ km_next s <= km_next s');
}.

(** A manager that remembers a call that raised.  [km_faulted] says so of a state: the theorems about a connector
    distinguish with it an exception of the manager from one of the connector's own. *)
Class KVManagerFaults (S : Type) `{!KVManagerService S} : Type := {
  km_faulted : S → Prop;
  km_get_match_fault toks mask ns s x s' : km_get_match toks mask ns s = (Raise x, s') → km_faulted s';
  km_put_match_fault toks mask ns s x s' : km_put_match toks mask ns s = (Raise x, s') → km_faulted s';
  km_launch_fault ids slots as_batch s x s' : km_launch ids slots as_batch s = (Raise x, s') → km_faulted s';
  km_cancel_fault ids s x s' : km_cancel ids s = (Raise x, s') → km_faulted s';
  km_try_wait_fault ids s x s' : km_try_wait ids s = (Raise x, s') → km_faulted s';
  km_wait_fault ids s x s' : km_wait ids s = (Raise x, s') → km_faulted s';
  km_reset_fault s x s' : km_reset s = (Raise x, s') → km_faulted s';
}.

Section watched.
Context {S : Type} `{!KVManagerService S}.

Definition watched {A} (op : M S A) : M (S * bool) A := λ s,
  match op s.1 with (Ok a, s') => (Ok a, (s', s.2)) | (Raise x, s') => (Raise x, (s', true)) end.

#[export] Instance watched_manager : KVManagerService (S * bool) := {|
  km_get_match toks mask ns := watched (km_get_match toks mask ns);
  km_put_match toks mask ns := watched (km_put_match toks mask ns);
  km_launch ids slots as_batch := watched (km_launch ids slots as_batch);
  km_cancel ids := watched (km_cancel ids);
  km_try_wait ids := watched (km_try_wait ids);
  km_wait ids := watched (km_wait ids);
  km_reset := watched km_reset;
|}.

Lemma watched_fault {A} (op : M S A) s x s' : watched op s = (Raise x, s') → s'.2 = true.
Proof. unfold watched. destruct (op s.1) as [[a|y] s1]; [done|]. by intros [= _ <-]. Qed.

#[export] Instance watched_faults : KVManagerFaults (S * bool).
Proof. refine {| km_faulted s := s.2 = true |}; intros *; apply watched_fault. Qed.

Lemma watched_answers {A} (op : M S A) s (Q : A → S → Prop) : answers op s.1 Q → answers (watched op) s (λ a s', Q a s'.1).
Proof. unfold answers, watched. by destruct (op s.1) as [[a|x] s']. Qed.

#[export] Instance watched_laws `{!KVManagerLaws S} : KVManagerLaws (S * bool).
Proof.
  refine {| km_next s := km_next s.1; km_pending ks s := km_pending ks s.1; km_resets := km_resets |}.
  - intros ks ks' s. apply km_pending_perm.
  - intros toks l ns ks s H. exact (watched_answers _ s _ (km_get_match_new _ _ _ _ _ H)).
  - intros toks l ns ks s H. exact (watched_answers _ s _ (km_put_match_new _ _ _ _ _ H)).
  - intros l slots as_batch ks s H. exact (watched_answers _ s _ (km_launch_ids _ _ _ _ _ H)).
  - intros l ks s H. exact (watched_answers _ s _ (km_cancel_next _ _ _ H)).
  - intros l ks s H. exact (watched_answers _ s _ (km_try_wait_asked _ _ _ H)).
  - intros l ks s H. exact (watched_answers _ s _ (km_wait_asked _ _ _ H)).
  - intros ks s Hr H. exact (watched_answers _ s _ (km_reset_next _ _ Hr H)).
Defined.
End watched.

(** ** How the backend is chosen *)

Inductive LaunchMode : Type := Embedded | External | UnknownMode.
#[export] Instance LaunchMode_eq_dec : EqDecision LaunchMode.
Proof. solve_decision. Defined.

Definition server_client_mode (dp_size instance_num : Z) (from_env : bool) : bool :=
  (1 <? dp_size) || (1 <? instance_num) || from_env.

Definition check_launch_mode (mode : LaunchMode) (server_client : bool) : result unit :=
  match mode with
  | UnknownMode => Raise (ValueError "FLEXKV_SERVER_LAUNCH_MODE must be embedded or external")
  | External => if server_client then Ok tt else Raise (ValueError "FLEXKV_SERVER_LAUNCH_MODE=external requires server-client mode")
  | Embedded => Ok tt
  end.

(** ** The direct mode *)

Section direct.
Context {C : Type} `{!CacheService C}.
Context (XXH64 : list Z → Z) (clock : nat → float) (poll : nat → list CompletedOp) (deployment : Deployment).
(** The rounds a blocking wait may take: [TaskWait] bounds them by the timeout. *)
Context (fuel : nat).
Abbreviation Manager := (M (KVTaskManager C)).

Definition get_async (token_ids slot_mapping : list Z) (token_mask : option (list bool)) (namespace : option (list string)) : Manager Z :=
  '(task_id, _) ← TaskManager.get_async deployment token_ids slot_mapping 0 token_mask (-1) namespace;
  mret task_id.

Definition get_match (token_ids : list Z) (token_mask : option (list bool)) (cpu_only : bool) (namespace : option (list string))
    (swa_aware : bool) : Manager (Z * ReturnMask) :=
  TaskManager.get_match poll deployment token_ids 0 token_mask cpu_only (-1) namespace swa_aware.

Definition put_async (token_ids slot_mapping : list Z) (token_mask : option (list bool)) (namespace : option (list string)) : Manager Z :=
  '(task_id, _) ← TaskManager.put_async deployment token_ids slot_mapping 0 token_mask (-1) namespace;
  mret task_id.

Definition put_match (token_ids : list Z) (token_mask : option (list bool)) (namespace : option (list string)) : Manager (Z * ReturnMask) :=
  TaskManager.put_match poll deployment token_ids 0 token_mask (-1) namespace.

Definition prefetch_async (token_ids : list Z) (namespace : option (list string)) (swa_aware : bool) : Manager Z :=
  TaskManager.prefetch_async XXH64 deployment token_ids 0 (-1) namespace swa_aware.

Definition launch (task_ids : list Z) (slot_mappings : list (list Z)) (swa_slot_mappings : option (list (option (list Z))))
    (as_batch layerwise_transfer : bool) (counter_id : Z) : Manager (list Z) :=
  launch_tasks deployment task_ids slot_mappings swa_slot_mappings as_batch (-1) layerwise_transfer counter_id.

Definition cancel (task_ids : list Z) : Manager unit := cancel_tasks task_ids.

Definition wait (task_ids : list Z) (timeout : float) (completely : bool) : Manager (list (Z * KVResponse)) :=
  TaskManager.wait clock poll deployment fuel task_ids timeout completely.

(** [try_wait] looks at each task once. *)
Definition try_wait (task_ids : list Z) : Manager (list (Z * KVResponse)) :=
  TaskManager.try_wait clock poll deployment 1 task_ids.

Definition reset : Manager unit := reset_cache.

(** The mask of one task; the masks of a batch are a list of arrays, which has no [sum]. *)
Definition array_mask (r : Z * ReturnMask) : result (Z * list bool) :=
  match r with (id, Mask m) => Ok (id, m) | (_, Masks _) => Raise AttributeError end.

#[local] Instance direct_manager : KVManagerService (KVTaskManager C) := {|
  km_get_match token_ids mask namespace := r ← get_match token_ids mask false namespace false; lift_result (array_mask r);
  km_put_match token_ids mask namespace := r ← put_match token_ids mask namespace; lift_result (array_mask r);
  km_launch task_ids slots as_batch :=
    match mapM id slots with
    | Some slots => launch task_ids slots None as_batch false 0
    | None => raise TypeError
    end;
  km_cancel := cancel;
  km_try_wait := try_wait;
  km_wait task_ids := wait task_ids default_timeout false;
  km_reset := reset;
|}.

(** *** Ids and pending tasks

    [tame ks n]: the ids handed out go up to [n] at least, every task is under such an id, and the tasks [ks] are not
    running. *)

Definition tame (ks : list Z) (n : Z) (m : KVTaskManager C) : Prop :=
  n <= task_id_counter m ∧ (∀ id t, tasks m !! id = Some t → id < task_id_counter m) ∧
  ∀ k, k ∈ ks → k < task_id_counter m ∧ ∀ t, tasks m !! k = Some t → status t ≠ RUNNING.

Lemma tame_sub ks ks' n n' m : tame ks n m → ks' ⊆ ks → n' <= n → tame ks' n' m.
Proof. intros (Hn & Hb & Hk) Hs Hle. split_and!; [lia|done|]. intros k Hin. by apply Hk, Hs. Qed.

Lemma tame_task_of ks n id : keeps (tame ks n) (task_of id).
Proof. intros m Hm. unfold task_of. by destruct (tasks m !! id). Qed.

Lemma tame_modify ks n f : (∀ m, task_id_counter (f m) = task_id_counter m ∧ tasks (f m) = tasks m) → keeps (tame ks n) (modify_state f).
Proof. intros Hf. apply keeps_modify. intros m. unfold tame. by destruct (Hf m) as [-> ->]. Qed.

Lemma tame_on_cache ks n {A} (op : M C A) : keeps (tame ks n) (on_cache op).
Proof. intros m Hm. unfold on_cache. by destruct (op (cache_engine m)) as [[a|x] c]. Qed.

Lemma tame_on_world ks n {A} (op : M (C * Ids) A) : keeps (tame ks n) (on_world op).
Proof. intros m Hm. unfold on_world. by destruct (op _) as [[a|x] c]. Qed.

Lemma tame_on_task_ids ks n {A} (op : M Ids A) : keeps (tame ks n) (on_task_ids op).
Proof. intros m Hm. unfold on_task_ids. by destruct (op _) as [[a|x] c]. Qed.

(** A task may be set to running only when it is none of [ks]. *)
Lemma tame_alter ks n id f :
  id ∉ ks ∨ (∀ t, status (f t) = RUNNING → status t = RUNNING) → keeps (tame ks n) (alter_task id f).
Proof.
  intros Hf. apply keeps_modify. intros m (Hn & Hb & Hk). split_and!; [done| |].
  - intros k t. cbn. destruct (decide (k = id)) as [->|Hne]; [rewrite lookup_alter_eq|rewrite lookup_alter_ne by done; apply Hb].
    destruct (tasks m !! id) eqn:E; [|done]. intros _. by eapply Hb.
  - intros k Hin. destruct (Hk k Hin) as [Hlt Hidle]. split; [done|]. intros t. cbn.
    destruct (decide (k = id)) as [->|Hne]; [rewrite lookup_alter_eq|rewrite lookup_alter_ne by done; apply Hidle].
    destruct (tasks m !! id) as [u|] eqn:E; [|done]. cbn. intros [= <-] Hr. destruct Hf as [Hf|Hf]; [done|]. by apply (Hidle u), Hf.
Qed.

Lemma tame_set ks n id t : id < n → status t ≠ RUNNING → keeps (tame ks n) (set_task id t).
Proof.
  intros Hid Ht. apply keeps_modify. intros m (Hn & Hb & Hk). split_and!; [done| |]; cbn.
  - intros k u [[<- _]|[_ ?]]%lookup_insert_Some; [lia|by eapply Hb].
  - intros k Hin. destruct (Hk k Hin) as [Hlt Hidle]. split; [done|]. intros u [[<- <-]|[_ ?]]%lookup_insert_Some; [done|by apply Hidle].
Qed.

Lemma tame_delete ks n id : keeps (tame ks n) (modify_state (with_tasks (delete id))).
Proof.
  apply keeps_modify. intros m (Hn & Hb & Hk). split_and!; [done| |]; cbn.
  - intros k t [_ ?]%lookup_delete_Some. by eapply Hb.
  - intros k Hin. destruct (Hk k Hin) as [Hlt Hidle]. split; [done|]. intros t [_ ?]%lookup_delete_Some. by apply Hidle.
Qed.

Lemma tame_release ks n id : keeps (tame ks n) (_release_task id).
Proof.
  intros m Hm. unfold _release_task. destruct (tasks m !! id) as [t|]; [|done].
  set (m' := match graph t with Some g => _ | None => _ end).
  assert (tame ks n m') as Hm' by (unfold m'; by destruct (graph t)). exact (tame_delete ks n id m' Hm').
Qed.

Lemma tame_when ks n b (op : Manager unit) : keeps (tame ks n) op → keeps (tame ks n) (when b op).
Proof. intros Ho. unfold when. destruct b; [done|apply keeps_ret]. Qed.

Lemma tame_raises ks n (op : Manager unit) : keeps (tame ks n) op → keeps (tame ks n) (raises op).
Proof. intros Ho m Hm. unfold raises. specialize (Ho m Hm). by destruct (op m) as [[a|x] m']. Qed.

Lemma tame_deref ks n {A} (o : option A) : keeps (tame ks n) (deref o).
Proof. unfold deref. keeps_steps. Qed.

Lemma finalize_status tpb c (t : KVTask C) : status (_finalize_prefetch_return_mask tpb c t) = status t.
Proof. unfold _finalize_prefetch_return_mask, _narrow_return_mask_to_prefix_blocks. by repeat case_match. Qed.

Lemma note_status c (t : KVTask C) : status (note_results c t) = status t.
Proof. unfold note_results, note_swa_load, note_full_load. by repeat case_match. Qed.

Create HintDb tame.
Hint Resolve tame_task_of tame_on_cache tame_on_world tame_on_task_ids tame_release tame_when tame_raises tame_deref tame_delete : tame.
Hint Extern 1 (keeps (tame _ _) (modify_state _)) => apply tame_modify; intros ?; split; reflexivity : tame.
Hint Extern 1 (keeps (tame _ _) (alter_task _ _)) => apply tame_alter; right; intros ?; rewrite ?finalize_status, ?note_status; done : tame.
#[local] Ltac tame_steps := unfold map_graph, unmap_graph; keeps_steps; auto with tame.

Lemma tame_on_callbacks ks n {A} (use : list (TaskCallback C) → C → A * _) id : keeps (tame ks n) (on_callbacks use id).
Proof. unfold on_callbacks. tame_steps. Qed.
Hint Resolve tame_on_callbacks : tame.

Lemma tame_end_task ks n id s : s ≠ RUNNING → keeps (tame ks n) (end_task id s).
Proof. intros Hs. unfold end_task. apply keeps_bind; [by apply tame_alter; right|]. intros []. tame_steps. Qed.

Lemma tame_abort ks n id : keeps (tame ks n) (_abort_task_plans id).
Proof. unfold _abort_task_plans. tame_steps. Qed.
Hint Resolve tame_abort : tame.
Hint Extern 1 (keeps (tame _ _) (end_task _ _)) => apply tame_end_task; try done; by case_match : tame.

Lemma tame_mark ks n id : keeps (tame ks n) (_mark_completed deployment id).
Proof. unfold _mark_completed. tame_steps. Qed.

Lemma tame_fail ks n id : keeps (tame ks n) (_fail_task id).
Proof. unfold _fail_task. tame_steps. Qed.
Hint Resolve tame_mark tame_fail : tame.

Lemma tame_process_empty ks n id : keeps (tame ks n) (_process_empty_graph deployment id).
Proof. unfold _process_empty_graph. tame_steps. Qed.
Hint Resolve tame_process_empty : tame.

Lemma tame_check_completed ks n id completely : keeps (tame ks n) (check_completed deployment id completely).
Proof. unfold check_completed. tame_steps. Qed.

Lemma tame_update_tasks ks n : keeps (tame ks n) (_update_tasks poll deployment).
Proof.
  unfold _update_tasks. apply keeps_bind.
  - intros m Hm. unfold poll_handles. by destruct (_get_completed_ops _ _ _).
  - intros ops. apply keeps_for_each. intros c _. unfold update_task, run_op_callback. tame_steps.
Qed.

Lemma tame_cancel ks n ids : keeps (tame ks n) (cancel_tasks ids).
Proof. apply keeps_for_each. intros id _. unfold _cancel_task. tame_steps. apply tame_when. tame_steps. Qed.

Hint Extern 1 (keeps (tame _ _) (set_task _ _)) => apply tame_set; [lia|by case_match] : tame.

Lemma tame_create_get ks n id toks slots dp mask s ns aware :
  id < n → keeps (tame ks n) (create_get_task id toks slots dp mask true s ns aware).
Proof. intros Hid. unfold create_get_task, assert_new. tame_steps. by apply tame_set. Qed.

Lemma tame_create_put ks n id toks slots dp mask ns : id < n → keeps (tame ks n) (create_put_task id toks slots dp mask true ns).
Proof. intros Hid. unfold create_put_task, assert_new. tame_steps. by apply tame_set. Qed.
Hint Resolve tame_check_completed tame_update_tasks tame_create_get tame_create_put : tame.

(** A call made with [task_id = -1] takes the next id, which is pending afterwards. *)
Definition takes_id {A} (ks : list Z) (n : Z) (op : Manager (Z * A)) : Prop :=
  triple (λ _, True) (tame ks n) op (λ r m, n <= r.1 < task_id_counter m ∧ tame (r.1 :: ks) n m).

Lemma resolve_new {A} ks n (f : Z → Manager (Z * A)) :
  (∀ id, triple (λ _, True) (tame (id :: ks) (id + 1)) (f id) (λ r m, r.1 = id ∧ tame (id :: ks) (id + 1) m)) →
  takes_id ks n (id ← resolve_task_id (-1); f id).
Proof.
  intros Hf m (Hn & Hb & Hk). rewrite M_bind_run. cbn. set (id := task_id_counter m).
  assert (tame (id :: ks) (id + 1) (with_counter (id + 1) m)) as Hm.
  { split_and!; cbn; [lia|intros k t Ek; specialize (Hb k t Ek); unfold id; lia|].
    intros k [->|Hin]%elem_of_cons.
    - split; [lia|]. intros t Et. specialize (Hb id t Et). unfold id in Hb. lia.
    - destruct (Hk k Hin) as [Hlt ?]. split; [unfold id; lia|done]. }
  specialize (Hf id _ Hm). destruct (f id _) as [[r|x] m']; [|done]. destruct Hf as [-> Hm'].
  split; [destruct Hm' as [? _]; lia|]. eapply tame_sub; [exact Hm'|done|]. lia.
Qed.

Lemma named_answer ks k (op1 op2 : Manager unit) id :
  keeps (tame ks k) op1 → keeps (tame ks k) op2 →
  triple (λ _, True) (tame ks k) (op1 ;; op2 ;; r ← return_mask_of id; mret (id, r)) (λ r m, r.1 = id ∧ tame ks k m).
Proof.
  intros H1 H2. apply (triple_exn (tame ks k)); [|done].
  eapply triple_bind; [exact H1|]. intros []. eapply triple_bind; [exact H2|]. intros [].
  unfold return_mask_of. eapply (triple_bind _ _ _ _ (λ _, tame ks k)); [apply keeps_bind; [apply tame_task_of|intros ?; apply keeps_ret]|].
  intros r. by apply triple_ret.
Qed.

Lemma get_match_takes ks n toks mask cpu ns aware : takes_id ks n (get_match toks mask cpu ns aware).
Proof.
  unfold takes_id, get_match, TaskManager.get_match. eapply (triple_bind _ _ _ _ (λ _, tame ks n)).
  { eapply triple_exn; [apply tame_update_tasks|done]. }
  intros []. eapply (triple_bind _ _ _ _ (λ _, tame ks n)); [destruct (_ =? _)%nat; [by apply triple_ret|by apply triple_raise]|].
  intros []. apply resolve_new. intros id. apply named_answer; [apply tame_create_get; lia|apply tame_process_empty].
Qed.

Lemma put_match_takes ks n toks mask ns : takes_id ks n (put_match toks mask ns).
Proof.
  unfold takes_id, put_match, TaskManager.put_match. eapply (triple_bind _ _ _ _ (λ _, tame ks n)).
  { eapply triple_exn; [apply tame_update_tasks|done]. }
  intros []. apply resolve_new. intros id. apply named_answer; [apply tame_create_put; lia|apply tame_process_empty].
Qed.

(** *** A launch *)

Lemma tame_set_slots ks n ids slots swa : keeps (tame ks n) (set_slot_mappings deployment ids slots swa).
Proof. apply keeps_for_each. intros e _. unfold _set_slot_mapping_impl, set_gpu_blocks_of. tame_steps. Qed.

Lemma tame_all_type ks n ty ids : keeps (tame ks n) (all_of_type ty ids).
Proof. induction ids; cbn [all_of_type]; tame_steps. Qed.

Lemma tame_check_ready ks n id : id ∉ ks → keeps (tame ks n) (check_task_ready id).
Proof. intros Hid. unfold check_task_ready. tame_steps. apply tame_alter. by left. Qed.

Lemma keeps_for_acc_in {St A X} (I : St → Prop) (f : A → X → M St A) acc l :
  (∀ acc x, x ∈ l → keeps I (f acc x)) → keeps I (for_acc f acc l).
Proof.
  revert acc. induction l as [|x l IH]; intros acc Hf; cbn [for_acc]; [apply keeps_ret|].
  apply keeps_bind; [apply Hf; left|]. intros a. apply IH. intros acc' y Hy. apply Hf. by right.
Qed.

Lemma tame_submit_batch ks n graphs : keeps (tame ks n) (submit_batch deployment graphs).
Proof. unfold submit_batch. keeps_steps. apply keeps_for_each. intros h _. tame_steps. Qed.

Lemma tame_concatenate_of ks n {A} (f : KVTask C → option (list A)) ids : keeps (tame ks n) (concatenate_of f ids).
Proof. unfold concatenate_of. keeps_steps. apply keeps_for_acc. intros. tame_steps. Qed.
Hint Resolve tame_submit_batch tame_concatenate_of : tame.

Definition apart (ids ks : list Z) : Prop := ∀ id, id ∈ ids → id ∉ ks.

Lemma tame_merge ks n batch ids ty lw counter :
  batch < n → apart ids ks → keeps (tame ks n) (merge_to_batch_kvtask batch ids ty lw counter).
Proof.
  intros Hb Hids. unfold merge_to_batch_kvtask. apply keeps_bind.
  { apply keeps_for_acc_in. intros mb id Hid. unfold collect_member.
    apply keeps_bind; [apply tame_task_of|]. intros t. apply keeps_bind; [apply keeps_lift|]. intros [].
    apply keeps_bind; [by apply tame_check_ready, Hids|]. intros g. keeps_steps. }
  intros mb. tame_steps; [by apply tame_set|]. apply keeps_for_each. intros id _. unfold remove_member. tame_steps.
Qed.

Lemma launch_answer ks n ids slots swa as_batch lw counter :
  apart ids ks →
  triple (λ _, True) (tame ks n) (launch ids slots swa as_batch lw counter)
    (λ r m, tame ks n m ∧ (r = ids ∨ as_batch = true ∧ ∃ b, r = [b] ∧ n <= b < task_id_counter m)).
Proof.
  intros Hids. unfold launch, launch_tasks. eapply (triple_bind _ _ _ _ (λ _, tame ks n)); [destruct slots; [by apply triple_raise|by apply triple_ret]|].
  intros []. eapply (triple_bind _ _ _ _ (λ _, tame ks n)); [eapply triple_exn; [apply tame_set_slots|done]|].
  intros []. eapply (triple_bind _ _ _ _ (λ _, tame ks n)); [eapply triple_exn; [apply tame_all_type|done]|].
  intros all_get. eapply (triple_bind _ _ _ _ (λ _, tame ks n)); [eapply triple_exn; [apply tame_all_type|done]|].
  intros all_put. destruct (_ && as_batch && _) eqn:Hb.
  - assert (as_batch = true) as -> by (destruct as_batch; [done|by rewrite andb_false_r in Hb]).
    eapply (triple_bind _ _ _ _ (λ b m, n <= b ∧ (b ∉ ks) ∧ tame ks (b + 1) m)).
    { intros m (Hn & Hbe & Hk). cbn. split_and!; [done|intros Hin; destruct (Hk _ Hin); lia|].
      unfold tame. cbn. split_and!; [lia|intros k t E; specialize (Hbe k t E); lia|].
      intros k Hin. destruct (Hk k Hin) as [Hlt ?]. split; [cbn; lia|done]. }
    intros b. apply triple_state. intros m0 (Hn & Hbk & Hm0).
    apply (triple_weaken _ (tame ks (b + 1)) _ _ (λ r m, r = [b] ∧ tame ks (b + 1) m)).
    + apply (triple_exn (tame ks (b + 1))); [|done]. cbn zeta.
      eapply triple_bind; [apply tame_merge; [lia|done]|]. intros g. eapply triple_bind; [apply tame_task_of|]. intros t.
      eapply triple_bind; [apply tame_alter; by left|]. intros []. eapply triple_bind; [apply tame_submit_batch|]. intros []. by apply triple_ret.
    + by intros ? ->.
    + intros r m [-> Hm]. split; [eapply tame_sub; [exact Hm|done|lia]|right]. split; [done|]. exists b.
      destruct Hm as [? _]. split; [done|lia].
  - eapply (triple_bind _ _ _ _ (λ _, tame ks n)).
    { eapply triple_exn; [|done]. apply keeps_for_acc_in. intros graphs id Hid. unfold collect_graph.
      apply keeps_bind; [by apply tame_check_ready, Hids|]. intros g. apply keeps_ret. }
    intros graphs. eapply (triple_bind _ _ _ _ (λ _, tame ks n)); [eapply triple_exn; [apply tame_submit_batch|done]|].
    intros []. apply triple_ret. auto.
Qed.

(** *** A wait *)

Lemma tame_wait_one ks n rounds start timeout completely only id late :
  keeps (tame ks n) (wait_one clock poll deployment rounds start timeout completely only id late).
Proof.
  revert late. induction rounds as [|rounds IH]; intros late; cbn [wait_one]; [apply keeps_raise|].
  unfold collect_response, now. tame_steps. by intros m Hm.
Qed.

(** A blocking wait has an answer for the task. *)
Lemma wait_one_answers rounds start timeout completely id late :
  triple (λ _ : KVTaskManager C, True) (λ _, True) (wait_one clock poll deployment rounds start timeout completely false id late) (λ r _, is_Some r.1).
Proof.
  assert (∀ A (op : Manager A), triple (λ _, True) (λ _, True) op (λ _ _, True)) as Hany.
  { intros A op m _. by destruct (op m) as [[a|x] m']. }
  revert late. induction rounds as [|rounds IH]; intros late; cbn [wait_one]; [by apply triple_raise|].
  eapply triple_bind; [apply Hany|]. intros m0. destruct (tasks m0 !! id) as [t|]; [|apply triple_ret; intros ? _; by eexists].
  destruct (bool_decide _); [apply triple_ret; intros ? _; by eexists|].
  eapply triple_bind; [apply Hany|]. intros [].
  { eapply triple_bind; [apply Hany|]. intros r. apply triple_ret. intros ? _. by eexists. }
  eapply triple_bind; [apply Hany|]. intros time. destruct (_ || _); [apply triple_ret; intros ? _; by eexists|].
  eapply triple_bind; [apply Hany|]. intros []. apply IH.
Qed.

Lemma wait_answer ks n rounds ids timeout completely only :
  triple (λ _, True) (tame ks n) (_wait_impl clock poll deployment rounds ids timeout completely only)
    (λ r m, tame ks n m ∧ NoDup r.*1 ∧ r.*1 ⊆ ids ∧ (only = false → ids ⊆ r.*1)).
Proof.
  unfold _wait_impl. eapply (triple_bind _ _ _ _ (λ _, tame ks n)); [by intros m Hm|].
  intros start. eapply (triple_bind _ _ _ _ (λ _, tame ks n)); [eapply triple_exn; [apply tame_update_tasks|done]|]. intros [].
  generalize (f_eqb timeout (f_of_Z 0)) as late.
  enough (∀ l late acc fin, l ⊆ ids → NoDup acc.*1 → acc.*1 ⊆ ids → (only = false → fin ⊆ acc.*1) →
    triple (λ _, True) (tame ks n) (wait_all clock poll deployment rounds start timeout completely only l late acc)
      (λ r m, tame ks n m ∧ NoDup r.*1 ∧ r.*1 ⊆ ids ∧ (only = false → fin ++ l ⊆ r.*1))) as Hl.
  { intros late. apply (Hl ids late [] []); [done|constructor|..]; [|intros _]; intros x Hx; by apply elem_of_nil in Hx. }
  induction l as [|id l IH]; intros late acc fin Hs Hn Ha Hf; cbn [wait_all].
  { apply triple_ret. intros m Hm. rewrite app_nil_r. done. }
  eapply (triple_bind _ _ _ _ (λ r m, tame ks n m ∧ (only = false → is_Some r.1))).
  { intros m Hm. pose proof (tame_wait_one ks n rounds start timeout completely only id late m Hm) as H1. destruct only.
    - destruct (wait_one clock poll deployment rounds start timeout completely true id late m) as [[a|x] m']; [by split|done].
    - pose proof (wait_one_answers rounds start timeout completely id late m I) as H2.
      destruct (wait_one clock poll deployment rounds start timeout completely false id late m) as [[a|x] m']; [by split|done]. }
  intros [r late']. apply triple_state. intros m0 [Hm0 Hr]. cbn [fst] in Hr.
  set (acc' := match r with Some r => dict_set id r acc | None => acc end).
  assert (acc.*1 ⊆ acc'.*1 ∧ (only = false → id ∈ acc'.*1)) as [Hsub Hid].
  { unfold acc'. destruct r as [r|]; [|split; [done|intros E; by destruct (Hr E)]].
    rewrite dict_keys_set. case_decide; (split; [intros x Hx|intros _]); [done|done|apply elem_of_app; by left|apply elem_of_app; right; by left]. }
  eapply triple_weaken; [apply (IH late' acc' (fin ++ [id]))| |].
  - intros x Hx. apply Hs. by right.
  - unfold acc'. destruct r; [by apply dict_wf_set|done].
  - unfold acc'. destruct r; [|done]. rewrite dict_keys_set. case_decide; [done|]. intros x [Hx|Hx]%elem_of_app; [by apply Ha|].
    apply Hs. apply list_elem_of_singleton in Hx as ->. left.
  - intros E x [Hx|Hx]%elem_of_app; [by apply Hsub, Hf|]. apply list_elem_of_singleton in Hx as ->. by apply Hid.
  - by intros ? ->.
  - cbn beta. intros r' m. by rewrite <- app_assoc.
Qed.

Lemma answers_triple {A} (op : Manager A) m (Q : A → KVTaskManager C → Prop) (P : KVTaskManager C → Prop) :
  triple (λ _, True) P op Q → P m → answers op m Q.
Proof. intros Ho Hm. specialize (Ho m Hm). unfold answers. by destruct (op m) as [[a|x] m']. Qed.

Lemma answers_weaken {S A} (op : M S A) s (Q Q' : A → S → Prop) : answers op s Q → (∀ a s', Q a s' → Q' a s') → answers op s Q'.
Proof. unfold answers. intros Ho HQ. destruct (op s) as [[a|x] s']; [by apply HQ|done]. Qed.

(** The tasks [ks] are pending: different, and none of them was launched. *)
Definition pending (ks : list Z) (m : KVTaskManager C) : Prop := NoDup ks ∧ tame ks (task_id_counter m) m.

Lemma pending_grown ks n m : NoDup ks → tame ks n m → pending ks m.
Proof. intros Hn (_ & ? & ?). split; [done|]. by split_and!. Qed.

Lemma answers_array ks (op : Manager (Z * ReturnMask)) m :
  pending ks m → takes_id ks (task_id_counter m) op →
  answers (r ← op; lift_result (array_mask r)) m (λ r m', task_id_counter m <= r.1 < task_id_counter m' ∧ pending (r.1 :: ks) m').
Proof.
  intros [Hn Hm] Ho. specialize (Ho m Hm). unfold answers. rewrite M_bind_run. destruct (op m) as [[[id r]|x] m']; [|done].
  destruct Ho as [Hid Ht]. cbn [fst] in Hid, Ht. unfold lift_result. destruct r; [|done]. split; [done|]. eapply pending_grown; [|exact Ht].
  apply NoDup_cons. split; [|done]. intros Hin. destruct Hm as (_ & _ & Hk). destruct (Hk id Hin). lia.
Qed.

Lemma pending_apart ids ks m : pending (ids ++ ks) m → NoDup ks ∧ apart ids ks ∧ tame ks (task_id_counter m) m.
Proof.
  intros [(Hi & Ha & Hk)%NoDup_app Hm]. split_and!; [done|exact Ha|]. eapply tame_sub; [exact Hm| |done].
  intros k Hin. apply elem_of_app. by right.
Qed.

Lemma wait_pending ks (op : Manager (list (Z * KVResponse))) (Q : list (Z * KVResponse) → Prop) m :
  (∀ n, triple (λ _, True) (tame ks n) op (λ r m, tame ks n m ∧ Q r)) → pending ks m →
  answers op m (λ r m', pending ks m' ∧ task_id_counter m <= task_id_counter m' ∧ Q r).
Proof.
  intros Ho [Hn Hm]. eapply answers_triple; [|exact Hm]. eapply triple_weaken; [apply Ho|done|].
  intros r m' [Hm' HQ]. split_and!; [by eapply pending_grown|exact (proj1 Hm')|done].
Qed.

Lemma reset_tame ks n : keeps (tame ks n) reset.
Proof.
  unfold reset, reset_cache. apply keeps_bind; [|intros []; apply tame_on_cache]. apply keeps_modify.
  intros m (Hn & Hb & Hk). split_and!; [done| |]; cbn.
  - intros k t. rewrite lookup_fmap. destruct (tasks m !! k) eqn:E; [|done]. intros _. by eapply Hb.
  - intros k Hin. destruct (Hk k Hin) as [Hlt Hidle]. split; [done|]. intros t. rewrite lookup_fmap.
    destruct (tasks m !! k) as [u|] eqn:E; [|done]. intros [= <-]. unfold detach. by destruct (is_completed u); [apply Hidle|].
Qed.

#[local] Instance direct_laws : KVManagerLaws (KVTaskManager C).
Proof.
  refine {| km_next := task_id_counter; km_pending := pending; km_resets := true |}.
  - intros ks ks' m E [Hn Hm]. split; [by rewrite <- E|]. eapply tame_sub; [exact Hm| |done]. intros k. by rewrite E.
  - intros toks mask0 ns ks m Hm. apply answers_array, get_match_takes. done.
  - intros toks mask0 ns ks m Hm. apply answers_array, put_match_takes. done.
  - intros l slots as_batch ks m (Hn & Ha & Hm)%pending_apart. cbn. destruct (mapM id slots) as [sl|]; [|done].
    eapply answers_triple; [|exact Hm]. eapply triple_weaken; [by apply launch_answer|done|].
    intros r m' [Hm' Hr]. split_and!; [by eapply pending_grown|exact (proj1 Hm')|done].
  - intros l ks m (Hn & _ & Hm)%pending_apart. eapply answers_triple; [|exact Hm]. eapply triple_weaken; [eapply triple_exn; [apply (tame_cancel ks (task_id_counter m) l)|done]|done|].
    cbn beta. intros a m' Hm'. split; [by eapply pending_grown|exact (proj1 Hm')].
  - intros l ks m Hm. refine (wait_pending ks _ (λ r, NoDup r.*1 ∧ r.*1 ⊆ l) m _ Hm). intros n. eapply triple_weaken; [apply wait_answer|done|].
    by intros r m' (? & ? & ? & _).
  - intros l ks m Hm. refine (wait_pending ks _ (λ r, NoDup r.*1 ∧ r.*1 ⊆ l ∧ l ⊆ r.*1) m _ Hm). intros n. eapply triple_weaken; [apply wait_answer|done|].
    intros r m' (? & ? & ? & H). specialize (H eq_refl). done.
  - intros ks m _ [_ Hm]. eapply answers_triple; [|exact Hm]. eapply triple_weaken; [eapply triple_exn; [apply (reset_tame ks (task_id_counter m))|done]|done|].
    cbn beta. intros a m' Hm'. split; [|exact (proj1 Hm')]. eapply pending_grown; [constructor|]. eapply tame_sub; [exact Hm'| |done].
    intros k Hk. by apply elem_of_nil in Hk.
Defined.
End direct.
End KvManager.
