(* ===== verification/VllmConnector.v ===== *)
(** * VllmConnector: the scheduler side of the vLLM connector

    Models [FlexKVSchedulerConnector] and the scheduler methods of
    [FlexKVConnectorV1Impl] ([flexkv/integration/vllm/vllm_v1_adapter.py]) with the
    counters of [FlexKVStats] ([flexkv/integration/stats.py]): the tables that say
    which request has which task, from the match that vLLM asks for to the report
    that lets vLLM use, or free, the request's blocks.  The manager is used through
    [KVManagerService].  A [Request] holds what the connector reads of vLLM's;
    whether the file [/tmp/flexkv_skip_put] exists is an argument.  Timers, logging
    and the vLLM-side statistics snapshot are left out. *)

From S2P Require Import Prelude PyFloat GlobalCache TaskManager KvManager.
Import GlobalCache.GlobalCache TaskManager.TaskManager KvManager.KvManager.
Local Open Scope Z_scope.

Module VllmConnector.

(** ** Requests and tasks *)

Inductive FinishReason : Type := STOP | LENGTH | ABORT | OTHER_REASON.
#[export] Instance FinishReason_eq_dec : EqDecision FinishReason.
Proof. solve_decision. Defined.

(** [namespace_info] of a request: a list, or one value; as strings. *)
Inductive UserNamespace : Type := NamespaceList (l : list string) | NamespaceValue (v : string).

Record Request : Type := mkRequest {
  request_id : string;
  num_tokens : Z;
  all_token_ids : list Z;
  lora_name : option string;
  cache_salt : option string;
  namespace_info : option UserNamespace;
  finished_reason : option FinishReason;
  is_finished : bool;
  offload_kv_on_finish : bool;
}.

(** The two subclasses of [FlexKVTask], with their own fields. *)
Inductive TaskKind : Type :=
  | FlexKVGetTask (num_computed_tokens num_new_matched_tokens : Z)
  | FlexKVPutTask (num_matched_tokens num_unmatched_tokens : Z).

Record FlexKVTask : Type := mkFlexKVTask {
  ft_task_id : Z;
  ft_request : Request;
  ft_slot_mapping : option (list Z);
  ft_block_ids : list Z;
  ft_kind : TaskKind;
}.

Definition is_get_task (t : FlexKVTask) : bool := match ft_kind t with FlexKVGetTask _ _ => true | FlexKVPutTask _ _ => false end.

(** [task.num_computed_tokens] *)
Definition num_computed_tokens_of (t : FlexKVTask) : result Z :=
  match ft_kind t with FlexKVGetTask n _ => Ok n | FlexKVPutTask _ _ => Raise AttributeError end.

Definition with_blocks (block_ids : list Z) (t : FlexKVTask) : FlexKVTask :=
  mkFlexKVTask (ft_task_id t) (ft_request t) (ft_slot_mapping t) block_ids (ft_kind t).
Definition with_slot_mapping (slots : list Z) (t : FlexKVTask) : FlexKVTask :=
  mkFlexKVTask (ft_task_id t) (ft_request t) (Some slots) (ft_block_ids t) (ft_kind t).

Record FlexKVResponse : Type := mkFlexKVResponse {
  fr_task_id : Z;
  fr_is_get : bool;
  fr_request : Request;
  fr_success : bool;
}.

(** [np.array(block_ids).repeat(block_size) * block_size] *)
Definition block_slots (block_size : nat) (block_ids : list Z) : list Z :=
  (λ b, b * Z.of_nat block_size) <$> (block_ids ≫= replicate block_size).

(** ** Counters *)

Record FlexKVStats : Type := mkStats {
  num_log_interval_requests : Z;
  num_get_requests : Z;
  num_get_query_tokens : Z;
  num_gpu_matched_tokens : Z;
  num_flexkv_matched_tokens : Z;
  num_put_requests : Z;
  num_put_query_tokens : Z;
  num_put_unmatched_tokens : Z;
  num_failed_requests : Z;
}.

Definition stats_clear (s : FlexKVStats) : FlexKVStats := mkStats (num_log_interval_requests s) 0 0 0 0 0 0 0 0.

(** The counters are logged and cleared every [num_log_interval_requests] reads. *)
Definition record_get (num_prompt_tokens gpu_matched flexkv_matched : Z) (s : FlexKVStats) : FlexKVStats :=
  let s := mkStats (num_log_interval_requests s) (num_get_requests s + 1) (num_get_query_tokens s + num_prompt_tokens)
             (num_gpu_matched_tokens s + gpu_matched) (num_flexkv_matched_tokens s + flexkv_matched) (num_put_requests s)
             (num_put_query_tokens s) (num_put_unmatched_tokens s) (num_failed_requests s) in
  if num_get_requests s =? num_log_interval_requests s then stats_clear s else s.

Definition record_put (num_all_tokens num_unmatched_tokens : Z) (s : FlexKVStats) : FlexKVStats :=
  mkStats (num_log_interval_requests s) (num_get_requests s) (num_get_query_tokens s) (num_gpu_matched_tokens s)
    (num_flexkv_matched_tokens s) (num_put_requests s + 1) (num_put_query_tokens s + num_all_tokens)
    (num_put_unmatched_tokens s + num_unmatched_tokens) (num_failed_requests s).

Definition record_faild (failed : Z) (s : FlexKVStats) : FlexKVStats :=
  mkStats (num_log_interval_requests s) (num_get_requests s) (num_get_query_tokens s) (num_gpu_matched_tokens s)
    (num_flexkv_matched_tokens s) (num_put_requests s) (num_put_query_tokens s) (num_put_unmatched_tokens s)
    (num_failed_requests s + failed).

Definition get_gpu_match_ratio (s : FlexKVStats) : float :=
  if num_get_query_tokens s =? 0 then f_of_Z 0 else f_div (f_of_Z (num_gpu_matched_tokens s)) (f_of_Z (num_get_query_tokens s)).

Definition get_flexkv_match_ratio (s : FlexKVStats) : float :=
  if num_get_query_tokens s =? 0 then f_of_Z 0 else f_div (f_of_Z (num_flexkv_matched_tokens s)) (f_of_Z (num_get_query_tokens s)).

(** ** The connector *)

Record Config : Type := mkConfig {
  block_size : nat;
  enable_kv_sharing : bool;
  enable_remote : bool;
  enable_gds : bool;
  maybe_skip_put : bool;
  log_interval : Z;
}.

Definition enable_batch (cfg : Config) : bool := negb (enable_kv_sharing cfg) && negb (enable_remote cfg) && negb (enable_gds cfg).

Record FlexKVSchedulerConnector (S : Type) : Type := mkConnector {
  flexkv_manager : S;
  req_id_to_task_dict : gmap string Z;
  get_tasks : list (Z * list FlexKVTask);
  put_tasks : list (Z * list FlexKVTask);
  tasks_to_launch : list (Z * FlexKVTask);
  tasks_to_cancel : list (Z * FlexKVTask);
  flexkv_stats : FlexKVStats;
  failed_block_ids : gset Z;
}.
Arguments mkConnector {S}. Arguments flexkv_manager {S}. Arguments req_id_to_task_dict {S}. Arguments get_tasks {S}.
Arguments put_tasks {S}. Arguments tasks_to_launch {S}. Arguments tasks_to_cancel {S}. Arguments flexkv_stats {S}.
Arguments failed_block_ids {S}.

Section connector.
Context {S : Type} `{!KVManagerService S} (cfg : Config).
Abbreviation Conn := (FlexKVSchedulerConnector S).
Implicit Types c : Conn.

Definition new_connector (manager : S) : Conn :=
  mkConnector manager ∅ [] [] [] [] (mkStats (log_interval cfg) 0 0 0 0 0 0 0 0) ∅.

Definition with_manager (s : S) c : Conn :=
  mkConnector s (req_id_to_task_dict c) (get_tasks c) (put_tasks c) (tasks_to_launch c) (tasks_to_cancel c) (flexkv_stats c) (failed_block_ids c).
Definition with_dict (f : gmap string Z → gmap string Z) c : Conn :=
  mkConnector (flexkv_manager c) (f (req_id_to_task_dict c)) (get_tasks c) (put_tasks c) (tasks_to_launch c) (tasks_to_cancel c) (flexkv_stats c) (failed_block_ids c).
Definition with_gets (f : list (Z * list FlexKVTask) → list (Z * list FlexKVTask)) c : Conn :=
  mkConnector (flexkv_manager c) (req_id_to_task_dict c) (f (get_tasks c)) (put_tasks c) (tasks_to_launch c) (tasks_to_cancel c) (flexkv_stats c) (failed_block_ids c).
Definition with_puts (f : list (Z * list FlexKVTask) → list (Z * list FlexKVTask)) c : Conn :=
  mkConnector (flexkv_manager c) (req_id_to_task_dict c) (get_tasks c) (f (put_tasks c)) (tasks_to_launch c) (tasks_to_cancel c) (flexkv_stats c) (failed_block_ids c).
Definition with_launch (f : list (Z * FlexKVTask) → list (Z * FlexKVTask)) c : Conn :=
  mkConnector (flexkv_manager c) (req_id_to_task_dict c) (get_tasks c) (put_tasks c) (f (tasks_to_launch c)) (tasks_to_cancel c) (flexkv_stats c) (failed_block_ids c).
Definition with_cancel (f : list (Z * FlexKVTask) → list (Z * FlexKVTask)) c : Conn :=
  mkConnector (flexkv_manager c) (req_id_to_task_dict c) (get_tasks c) (put_tasks c) (tasks_to_launch c) (f (tasks_to_cancel c)) (flexkv_stats c) (failed_block_ids c).
Definition with_stats (f : FlexKVStats → FlexKVStats) c : Conn :=
  mkConnector (flexkv_manager c) (req_id_to_task_dict c) (get_tasks c) (put_tasks c) (tasks_to_launch c) (tasks_to_cancel c) (f (flexkv_stats c)) (failed_block_ids c).
Definition with_failed_blocks (f : gset Z → gset Z) c : Conn :=
  mkConnector (flexkv_manager c) (req_id_to_task_dict c) (get_tasks c) (put_tasks c) (tasks_to_launch c) (tasks_to_cancel c) (flexkv_stats c) (f (failed_block_ids c)).

Definition on_manager {A} (op : M S A) : M Conn A := λ c, let '(r, s) := op (flexkv_manager c) in (r, with_manager s c).

(** [self.req_id_to_task_dict[req_id]], and [del] of it *)
Definition task_id_of (req_id : string) : M Conn Z := λ c,
  match req_id_to_task_dict c !! req_id with Some id => (Ok id, c) | None => (Raise KeyError, c) end.
Definition forget_request (req_id : string) : M Conn unit := task_id_of req_id ;; modify_state (with_dict (delete req_id)).

(** [self.tasks_to_cancel.pop(task_id)] and the like *)
Definition pop_to_cancel (task_id : Z) : M Conn FlexKVTask := λ c,
  match dict_get task_id (tasks_to_cancel c) with
  | Some t => (Ok t, with_cancel (dict_pop task_id) c)
  | None => (Raise KeyError, c)
  end.
Definition put_to_launch (task_id : Z) (t : FlexKVTask) : M Conn unit := modify_state (with_launch (dict_set task_id t)).
Definition put_to_cancel (task_id : Z) (t : FlexKVTask) : M Conn unit := modify_state (with_cancel (dict_set task_id t)).

(** *** Reads *)

Definition _extract_namespace (request : Request) : option (list string) :=
  let namespace_info :=
    (match lora_name request with Some l => [l] | None => [] end) ++
    (match cache_salt request with Some l => [l] | None => [] end) ++
    (match namespace_info request with Some (NamespaceList l) => l | Some (NamespaceValue v) => [v] | None => [] end) in
  match namespace_info with [] => None | _ => Some namespace_info end.

Definition _get_match (request : Request) (num_computed_tokens : Z) : M Conn (Z * Z) :=
  let bs := Z.of_nat (block_size cfg) in
  let num_tokens_to_get := num_tokens request / bs * bs in
  let token_ids := ((all_token_ids request).[: num_tokens_to_get])%py in
  assertM (num_computed_tokens <=? num_tokens_to_get) ;;
  assertM (num_computed_tokens mod bs =? 0) ;;
  if num_tokens_to_get =? num_computed_tokens then mret (-1, 0)
  else
    let masked := slice_bound token_ids num_computed_tokens in
    let token_mask := replicate masked false ++ replicate (length token_ids - masked) true in
    '(task_id, matched_mask) ← on_manager (km_get_match token_ids (Some token_mask) (_extract_namespace request));
    let num_new_matched_tokens := mask_sum matched_mask in
    (if 0 <? num_new_matched_tokens
     then modify_state (with_dict (insert (request_id request) task_id)) ;;
          put_to_cancel task_id (mkFlexKVTask task_id request None [] (FlexKVGetTask num_computed_tokens num_new_matched_tokens))
     else on_manager (km_cancel [task_id])) ;;
    mret (task_id, num_new_matched_tokens).

Definition _need_to_get (num_new_matched_tokens : Z) : bool := 0 <? num_new_matched_tokens.

Definition get_num_new_matched_tokens (request : Request) (num_computed_tokens : Z) : M Conn (Z * bool) :=
  '(_, num_new_matched_tokens) ← _get_match request num_computed_tokens;
  modify_state (with_stats (record_get (num_tokens request) num_computed_tokens num_new_matched_tokens)) ;;
  mret (if _need_to_get num_new_matched_tokens then (num_new_matched_tokens, true) else (0, false)).

(** [all_block_ids] is [blocks.get_block_ids()[0]]. *)
Definition update_state_after_alloc (request : Request) (all_block_ids : list Z) (num_new_matched_tokens : Z) : M Conn unit :=
  let bs := Z.of_nat (block_size cfg) in
  if num_new_matched_tokens =? 0 then mret tt
  else
    task_id ← task_id_of (request_id request);
    task ← pop_to_cancel task_id;
    put_to_launch task_id task ;;
    num_computed_tokens ← lift_result (num_computed_tokens_of task);
    let num_computed_blocks := num_computed_tokens / bs in
    let num_blocks_to_get := num_new_matched_tokens / bs in
    let block_ids_to_get := (all_block_ids.[num_computed_blocks : num_computed_blocks + num_blocks_to_get])%py in
    put_to_launch task_id (with_slot_mapping (block_slots (block_size cfg) block_ids_to_get) (with_blocks block_ids_to_get task)).

(** *** Writes *)

Definition _put_match (request : Request) : M Conn (Z * Z * Z) :=
  let bs := Z.of_nat (block_size cfg) in
  let num_tokens_to_put := (num_tokens request - 1) / bs * bs in
  let token_ids := ((all_token_ids request).[: num_tokens_to_put])%py in
  if num_tokens_to_put =? 0 then mret (-1, 0, 0)
  else
    '(task_id, unmatched_mask) ← on_manager (km_put_match token_ids None (_extract_namespace request));
    let num_unmatched_tokens := mask_sum unmatched_mask in
    let num_matched_tokens := num_tokens_to_put - num_unmatched_tokens in
    (if 0 <? num_unmatched_tokens
     then modify_state (with_dict (insert (request_id request) task_id)) ;;
          put_to_cancel task_id (mkFlexKVTask task_id request None [] (FlexKVPutTask num_matched_tokens num_unmatched_tokens))
     else on_manager (km_cancel [task_id])) ;;
    mret (task_id, num_matched_tokens, num_unmatched_tokens).

Definition _need_to_put (num_unmatched_tokens : Z) : bool := 0 <? num_unmatched_tokens.

Definition should_put (request : Request) : bool :=
  let normal_finish := bool_decide (finished_reason request = Some STOP) || bool_decide (finished_reason request = Some LENGTH) in
  let requested_abort_offload := bool_decide (finished_reason request = Some ABORT) && offload_kv_on_finish request in
  is_finished request && (normal_finish || requested_abort_offload).

Definition request_finished (skip_file_exists : bool) (request : Request) (block_ids : list Z) : M Conn bool :=
  let bs := Z.of_nat (block_size cfg) in
  c ← get_state;
  if bool_decide (is_Some (req_id_to_task_dict c !! request_id request)) then mret true
  else if negb (should_put request) then mret false
  else if maybe_skip_put cfg && skip_file_exists then mret false
  else
    '(task_id, num_matched_tokens, num_unmatched_tokens) ← _put_match request;
    modify_state (with_stats (record_put (num_tokens request) num_unmatched_tokens)) ;;
    if negb (_need_to_put num_unmatched_tokens) then mret false
    else
      let num_matched_blocks := num_matched_tokens / bs in
      let num_unmatched_blocks := num_unmatched_tokens / bs in
      let block_ids_to_put := (block_ids.[num_matched_blocks : num_matched_blocks + num_unmatched_blocks])%py in
      if negb (zlen block_ids_to_put =? num_unmatched_blocks) then mret false
      else
        task ← pop_to_cancel task_id;
        put_to_launch task_id (with_slot_mapping (block_slots (block_size cfg) block_ids_to_put) task) ;;
        mret true.

(** *** Each step of the scheduler *)

Definition cancel_tasks : M Conn unit :=
  c ← get_state;
  if (length (tasks_to_cancel c) =? 0)%nat then mret tt
  else
    for_each (λ task, forget_request (request_id (ft_request task))) (tasks_to_cancel c).*2 ;;
    on_manager (km_cancel (tasks_to_cancel c).*1) ;;
    modify_state (with_cancel (λ _, [])).

(** Launches the reads, or the writes; the tables they are entered in, by the ids the manager answers with. *)
Definition launch_group (tasks : list (Z * FlexKVTask)) : M Conn (list (Z * list FlexKVTask)) :=
  if (length tasks =? 0)%nat then mret []
  else
    launched ← on_manager (km_launch tasks.*1 (ft_slot_mapping <$> tasks.*2) (enable_batch cfg && (1 <? length tasks)%nat));
    if (length launched =? 1)%nat && (1 <? length tasks)%nat then mret ((λ batch_id, (batch_id, tasks.*2)) <$> launched)
    else if (length launched =? length tasks)%nat then mret (zip launched ((λ t, [t]) <$> tasks.*2))
    else raise (ValueError "KVTaskManager returned unexpected number of launched task ids.").

Definition launch_tasks : M Conn unit :=
  c ← get_state;
  if (length (tasks_to_launch c) =? 0)%nat then mret tt
  else
    gets ← launch_group (filter (λ e, is_get_task e.2) (tasks_to_launch c));
    modify_state (with_gets (λ d, dict_update d gets)) ;;
    puts ← launch_group (filter (λ e, negb (is_get_task e.2)) (tasks_to_launch c));
    modify_state (with_puts (λ d, dict_update d puts)) ;;
    modify_state (with_launch (λ _, [])).

(** A task that ended: its request is forgotten; a failed read leaves the blocks that vLLM must compute itself. *)
Definition finish_task (success : bool) (num_failed_tasks : Z) (task : FlexKVTask) : M Conn Z :=
  forget_request (request_id (ft_request task)) ;;
  if success then mret num_failed_tasks
  else
    when (is_get_task task) (modify_state (with_failed_blocks (λ b, b ∪ list_to_set (ft_block_ids task)))) ;;
    mret (num_failed_tasks + 1).

(** [finished_sending], [finished_recving], [num_failed_tasks] *)
Record Finished : Type := mkFinished {
  finished_sending : gset string;
  finished_recving : gset string;
  num_failed_tasks : Z;
}.

Definition request_ids (tasks : list FlexKVTask) : gset string := list_to_set ((λ t, request_id (ft_request t)) <$> tasks).

Definition query_response (f : Finished) (e : Z * KVResponse) : M Conn Finished :=
  let '(task_id, response) := e in
  let success := bool_decide (kr_status response = Success) in
  c ← get_state;
  match dict_get task_id (get_tasks c) with
  | Some tasks =>
      modify_state (with_gets (dict_pop task_id)) ;;
      n ← for_acc (finish_task success) (num_failed_tasks f) tasks;
      mret (mkFinished (finished_sending f) (finished_recving f ∪ request_ids tasks) n)
  | None =>
      tasks ← lift_result (match dict_get task_id (put_tasks c) with Some tasks => Ok tasks | None => Raise KeyError end);
      modify_state (with_puts (dict_pop task_id)) ;;
      n ← for_acc (finish_task success) (num_failed_tasks f) tasks;
      mret (mkFinished (finished_sending f ∪ request_ids tasks) (finished_recving f) n)
  end.

Definition query_finished_task : M Conn (gset string * gset string) :=
  c ← get_state;
  if bool_decide (req_id_to_task_dict c = ∅) then mret (∅, ∅)
  else
    responses_from_manager ← on_manager (km_try_wait ((get_tasks c).*1 ++ (put_tasks c).*1));
    f ← for_acc query_response (mkFinished ∅ ∅ 0) responses_from_manager;
    modify_state (with_stats (record_faild (num_failed_tasks f))) ;;
    mret (finished_sending f, finished_recving f).

Definition get_and_clear_failed_block_ids : M Conn (gset Z) :=
  c ← get_state;
  modify_state (with_failed_blocks (λ _, ∅)) ;;
  mret (failed_block_ids c).

Definition preempt (req_id : string) : M Conn unit :=
  c ← get_state;
  match req_id_to_task_dict c !! req_id with
  | None => mret tt
  | Some task_id =>
      match dict_get task_id (tasks_to_launch c) with
      | None => mret tt
      | Some task => modify_state (with_launch (dict_pop task_id)) ;; put_to_cancel task_id task
      end
  end.

(** The set is walked in some order. *)
Definition handle_preemptions (preempted_req_ids : gset string) : M Conn unit := for_each preempt (elements preempted_req_ids).

(** Which table a blocking wait empties. *)
Inductive Table : Type := GetTable | PutTable.
Definition table_of (b : Table) c : list (Z * list FlexKVTask) := match b with GetTable => get_tasks c | PutTable => put_tasks c end.
Definition with_table (b : Table) (f : list (Z * list FlexKVTask) → list (Z * list FlexKVTask)) c : Conn :=
  match b with GetTable => with_gets f c | PutTable => with_puts f c end.

Definition wait_response (b : Table) (responses : list FlexKVResponse) (e : Z * KVResponse) : M Conn (list FlexKVResponse) :=
  let '(task_id, response) := e in
  let success := bool_decide (kr_status response = Success) in
  c ← get_state;
  tasks ← lift_result (match dict_get task_id (table_of b c) with Some tasks => Ok tasks | None => Raise KeyError end);
  modify_state (with_table b (dict_pop task_id)) ;;
  for_acc (λ l task,
    forget_request (request_id (ft_request task)) ;;
    mret (l ++ [mkFlexKVResponse (ft_task_id task) (is_get_task task) (ft_request task) success])) responses tasks.

Definition _blocking_waiting_for_tasks (b : Table) : M Conn (list FlexKVResponse) :=
  c ← get_state;
  if (length (table_of b c) =? 0)%nat then mret []
  else
    response_from_manager ← on_manager (km_wait (table_of b c).*1);
    for_acc (wait_response b) [] response_from_manager.

Definition wait_for_all_get_tasks : M Conn (list FlexKVResponse) := _blocking_waiting_for_tasks GetTable.
Definition wait_for_all_put_tasks : M Conn (list FlexKVResponse) := _blocking_waiting_for_tasks PutTable.

Definition reset_cache : M Conn bool :=
  on_manager km_reset ;;
  modify_state (with_dict (λ _, ∅)) ;;
  modify_state (with_gets (λ _, [])) ;;
  modify_state (with_puts (λ _, [])) ;;
  modify_state (with_launch (λ _, [])) ;;
  modify_state (with_cancel (λ _, [])) ;;
  modify_state (with_failed_blocks (λ _, ∅)) ;;
  mret true.
End connector.

(** ** The connector as vLLM sees it *)

(** What the connector reads of [SchedulerOutput]; [None] is the missing attribute of older versions. *)
Record SchedulerOutput : Type := mkSchedulerOutput {
  preempted_req_ids : option (gset string);
  scheduled_new_reqs : list string;
  scheduled_cached_reqs : option (list string);
  finished_req_ids : gset string;
}.

Record FlexKVConnectorV1Impl (S : Type) : Type := mkImpl {
  connector_of : FlexKVSchedulerConnector S;
  previous_scheduled_req_ids : gset string;
}.
Arguments mkImpl {S}. Arguments connector_of {S}. Arguments previous_scheduled_req_ids {S}.

Section impl.
Context {S : Type} `{!KVManagerService S} (cfg : Config).
Abbreviation Impl := (FlexKVConnectorV1Impl S).

Definition new_impl (manager : S) : Impl := mkImpl (new_connector cfg manager) ∅.

Definition in_connector {A} (op : M (FlexKVSchedulerConnector S) A) : M Impl A := λ i,
  let '(r, c) := op (connector_of i) in (r, mkImpl c (previous_scheduled_req_ids i)).

Definition current_req_ids (o : SchedulerOutput) : gset string :=
  list_to_set (scheduled_new_reqs o) ∪ list_to_set (default [] (scheduled_cached_reqs o)).

(** The preempted requests: as reported, or those that were scheduled and are neither scheduled nor finished now. *)
Definition find_preempted (o : SchedulerOutput) : M Impl (gset string) :=
  match preempted_req_ids o with
  | Some l => mret l
  | None =>
      i ← get_state;
      modify_state (λ i, mkImpl (connector_of i) (current_req_ids o)) ;;
      mret (previous_scheduled_req_ids i ∖ current_req_ids o ∖ finished_req_ids o)
  end.

(** [sync_get] is [FLEXKV_SYNC_GET]. *)
Definition build_connector_meta (sync_get : bool) (o : SchedulerOutput) : M Impl unit :=
  preempted ← find_preempted o;
  in_connector (handle_preemptions preempted) ;;
  in_connector cancel_tasks ;;
  in_connector (launch_tasks cfg) ;;
  when sync_get (in_connector wait_for_all_get_tasks ;; mret tt).

(** Sets [finished_sending] and [finished_recving] of the output.  The early return on a false [_HAS_KV_CONNECTOR_OUTPUT]
    is left out: the flag is false for vLLM before 0.10.1 only, which never calls the method. *)
Definition update_connector_output : M Impl (gset string * gset string) := in_connector query_finished_task.

Definition impl_request_finished (skip_file_exists : bool) (request : Request) (block_ids : list Z) : M Impl bool :=
  in_connector (request_finished cfg skip_file_exists request block_ids).

Definition impl_get_num_new_matched_tokens (request : Request) (num_computed_tokens : Z) : M Impl (Z * bool) :=
  in_connector (get_num_new_matched_tokens cfg request num_computed_tokens).

Definition impl_update_state_after_alloc (request : Request) (all_block_ids : list Z) (num_external_tokens : Z) : M Impl unit :=
  in_connector (update_state_after_alloc cfg request all_block_ids num_external_tokens).

Definition impl_reset_cache : M Impl bool := in_connector reset_cache.

Definition get_block_ids_with_load_errors : M Impl (gset Z) := in_connector get_and_clear_failed_block_ids.
End impl.
End VllmConnector.
