(* ===== verification/VllmSpec.v ===== *)
(** * VllmSpec: the tables of the vLLM connector

    Proofs about [VllmConnector], over every manager with [KVManagerLaws].  [wf] is the
    invariant of the tables: every live task is in one of them, under its own key, and
    [req_id_to_task_dict] holds exactly the requests of the live tasks.  [vllm_call]
    lists what vLLM's scheduler may do in a state, [reachable] the states it can lead
    to.  The theorems say that the connector never raises by itself, which requests it
    makes vLLM wait for and that each of them is reported once, and which GPU blocks a
    task moves. *)

From S2P Require Import Prelude PyFloat Block Transfer GraphBuild BatchMerge CacheEngine GlobalCache Requests CompletionAgg TaskManager TaskHistory KvManager VllmConnector.
Import GlobalCache.GlobalCache TaskManager.TaskManager KvManager.KvManager VllmConnector.VllmConnector.
Local Open Scope Z_scope.

Module VllmSpec.

(** ** The invariant *)

Abbreviation rid t := (request_id (ft_request t)).
Definition entry (t : FlexKVTask) : string * Z := (rid t, ft_task_id t).

(** The dictionary holds exactly the requests of the live tasks; requests and keys are different, and keys are ids
    that the manager handed out. *)
Record good (dict : gmap string Z) (live : list FlexKVTask) (keys : list Z) (next : Z) : Prop := {
  good_requests : NoDup (entry <$> live).*1;
  good_ids : NoDup (entry <$> live).*2;
  good_old : Forall (λ k, k < next) (entry <$> live).*2;
  good_dict : dict = list_to_map (entry <$> live);
  good_keys : NoDup keys;
  good_fresh : Forall (λ k, k < next) keys;
}.

Lemma good_perm dict live live' keys keys' next next' :
  good dict live keys next → live ≡ₚ live' → keys ≡ₚ keys' → next <= next' → good dict live' keys' next'.
Proof.
  intros [Hr Hi Ho Hd Hk Hf] El Ek Hn. split.
  - by rewrite <- El.
  - by rewrite <- El.
  - rewrite <- El. eapply Forall_impl; [exact Ho|]. intros k Hlt. cbn in Hlt. lia.
  - rewrite Hd. apply list_to_map_proper; [done|]. by rewrite El.
  - by rewrite <- Ek.
  - rewrite <- Ek. eapply Forall_impl; [exact Hf|]. intros k Hlt. cbn in Hlt. lia.
Qed.

Lemma good_lookup dict live keys next r id :
  good dict live keys next → dict !! r = Some id ↔ ∃ t, t ∈ live ∧ rid t = r ∧ ft_task_id t = id.
Proof.
  intros [Hr _ _ -> _ _]. rewrite <- elem_of_list_to_map by done. rewrite list_elem_of_fmap. unfold entry. naive_solver.
Qed.

Lemma good_absent dict live keys next r : good dict live keys next → dict !! r = None ↔ ∀ t, t ∈ live → rid t ≠ r.
Proof.
  intros Hg. rewrite eq_None_not_Some. split.
  - intros Hn t Ht Er. apply Hn. exists (ft_task_id t). apply (good_lookup _ _ _ _ _ _ Hg). eauto.
  - intros Hn [id (t & Ht & Er & _)%(good_lookup _ _ _ _ _ _ Hg)]. by eapply Hn.
Qed.

Lemma good_add dict live keys next next' t k :
  good dict live keys next → dict !! rid t = None → k = ft_task_id t → next <= k < next' →
  good (<[rid t := ft_task_id t]> dict) (t :: live) (k :: keys) next'.
Proof.
  intros Hg Hn -> Hk. pose proof (proj1 (good_absent _ _ _ _ _ Hg) Hn) as Ha. destruct Hg as [Hr Hi Ho Hd Hk' Hf].
  assert (∀ l, Forall (λ k, k < next) l → (ft_task_id t ∉ l) ∧ Forall (λ k, k < next') l) as Hnew.
  { intros l Hl. split; [|eapply Forall_impl; [exact Hl|]; cbn; lia]. rewrite Forall_forall in Hl. intros H%Hl. lia. }
  destruct (Hnew _ Ho) as [Ho1 Ho2], (Hnew _ Hf) as [Hf1 Hf2]. split.
  - csimpl. apply NoDup_cons. split; [|done]. intros (e & Ee & (u & -> & Hu)%list_elem_of_fmap)%list_elem_of_fmap. by eapply Ha.
  - csimpl. by apply NoDup_cons.
  - csimpl. apply Forall_cons. split; [lia|done].
  - cbn. by rewrite Hd.
  - by apply NoDup_cons.
  - apply Forall_cons. split; [lia|done].
Qed.

(** Requests are forgotten one by one. *)
Lemma good_drop dict t live keys next : good dict (t :: live) keys next → good (delete (rid t) dict) live keys next.
Proof.
  intros [Hr Hi Ho Hd Hk Hf]. csimpl in *. apply NoDup_cons in Hr as [Hn Hr]. apply NoDup_cons in Hi as [_ Hi].
  apply Forall_cons in Ho as [_ Ho]. split; try done.
  rewrite Hd. cbn. rewrite delete_insert_id; [done|]. by apply not_elem_of_list_to_map_1.
Qed.

Lemma good_drop_key dict live k keys next : good dict live (k :: keys) next → good dict live keys next.
Proof. intros [Hr Hi Ho Hd [_ Hk]%NoDup_cons [_ Hf]%Forall_cons]. by split. Qed.

(** *** Tables whose keys are answered *)

Section tables.
Context {A : Type}.
Implicit Types (d : list (Z * list A)) (ks : list Z).

(** The tasks under the keys [ks], and the entries that stay. *)
Definition answered ks d : list A := concat (filter (λ e, e.1 ∈ ks) d).*2.
Definition kept ks d : list (Z * list A) := filter (λ e, e.1 ∉ ks) d.

Lemma answered_kept ks d : concat d.*2 ≡ₚ answered ks d ++ concat (kept ks d).*2.
Proof.
  unfold answered, kept. induction d as [|[k l] d IH]; [done|]. rewrite !filter_cons. cbn [fst].
  destruct (decide (k ∈ ks)) as [Hk|Hk]; destruct (decide (k ∉ ks)) as [Hk'|Hk']; try done; cbn; rewrite IH; [by rewrite app_assoc|solve_Permutation].
Qed.

Lemma kept_nil d : kept [] d = d.
Proof.
  unfold kept. induction d as [|e d IH]; [done|]. rewrite filter_cons, decide_True by apply not_elem_of_nil. by rewrite IH.
Qed.

Lemma answered_nil d : answered [] d = [].
Proof. pose proof (answered_kept [] d) as H. rewrite kept_nil in H. apply Permutation_length in H. rewrite length_app in H. apply nil_length_inv. lia. Qed.

(** Decides the membership tests of the two filters. *)
#[local] Ltac decide_keys :=
  repeat case_decide; try (exfalso; rewrite ?elem_of_cons, ?not_elem_of_cons in *; intuition congruence).

Lemma kept_absent k ks d : k ∉ d.*1 → kept (k :: ks) d = kept ks d ∧ answered (k :: ks) d = answered ks d.
Proof.
  unfold kept, answered. intros Hk. enough (filter (λ e : Z * list A, e.1 ∉ k :: ks) d = filter (λ e, e.1 ∉ ks) d ∧
    filter (λ e : Z * list A, e.1 ∈ k :: ks) d = filter (λ e, e.1 ∈ ks) d) as [-> ->] by done.
  induction d as [|[k' l] d IH]; [done|]. csimpl in Hk. apply not_elem_of_cons in Hk as [Hne Hk]. destruct (IH Hk) as [E1 E2].
  rewrite !filter_cons. cbn [fst]. rewrite E1, E2. decide_keys; done.
Qed.

Lemma kept_pop k ks d l :
  dict_wf d → dict_get k d = Some l →
  kept (k :: ks) d = kept ks (dict_pop k d) ∧ answered (k :: ks) d ≡ₚ l ++ answered ks (dict_pop k d).
Proof.
  unfold dict_wf. intros Hd Hg. induction d as [|[k' l'] d IH]; [done|]. csimpl in Hd. apply NoDup_cons in Hd as [Hn Hd].
  cbn [dict_get dict_pop] in *. unfold kept, answered in *. rewrite !filter_cons. cbn [fst]. destruct (decide (k = k')) as [<-|Hne].
  - injection Hg as ->. destruct (kept_absent k ks d Hn) as [E1 E2]. unfold kept, answered in E1, E2.
    decide_keys. cbn. by rewrite E1, E2.
  - destruct (IH Hd Hg) as [E1 E2]. rewrite !filter_cons. cbn [fst].
    decide_keys; cbn; rewrite E1, ?E2; (split; [done|]); solve_Permutation.
Qed.
End tables.

Section spec.
Context {S : Type} `{!KVManagerService S, !KVManagerLaws S, !KVManagerFaults S} (cfg : Config).
Abbreviation Conn := (FlexKVSchedulerConnector S).
Abbreviation bs := (Z.of_nat (block_size cfg)).
Implicit Types c : Conn.

(** The tasks whose blocks vLLM keeps for the connector: to be launched, or launched. *)
Definition owed_tasks c : list FlexKVTask := (tasks_to_launch c).*2 ++ concat (get_tasks c).*2 ++ concat (put_tasks c).*2.
Definition live c : list FlexKVTask := (tasks_to_cancel c).*2 ++ owed_tasks c.
Definition keys c : list Z := (tasks_to_cancel c).*1 ++ (tasks_to_launch c).*1 ++ (get_tasks c).*1 ++ (put_tasks c).*1.

(** The tasks that were matched, and neither launched nor cancelled. *)
Definition pending_keys c : list Z := (tasks_to_cancel c).*1 ++ (tasks_to_launch c).*1.

(** A task that will be launched has the slots of its GPU blocks, which a read remembers. *)
Definition has_slots (t : FlexKVTask) : Prop :=
  ∃ blocks, ft_slot_mapping t = Some (block_slots (block_size cfg) blocks) ∧ (is_get_task t = true → ft_block_ids t = blocks).

Record wf c : Prop := {
  wf_good : good (req_id_to_task_dict c) (live c) (keys c) (km_next (flexkv_manager c));
  wf_cancel : Forall (λ e, e.1 = ft_task_id e.2) (tasks_to_cancel c);
  wf_launch : Forall (λ e, e.1 = ft_task_id e.2 ∧ has_slots e.2) (tasks_to_launch c);
  wf_gets : Forall (λ t, is_get_task t = true) (concat (get_tasks c).*2);
  wf_puts : Forall (λ t, is_get_task t = false) (concat (put_tasks c).*2);
  wf_pending : km_pending (pending_keys c) (flexkv_manager c);
}.

Definition faulted c : Prop := km_faulted (flexkv_manager c).

Lemma new_connector_wf s : km_pending [] s → wf (new_connector cfg s).
Proof. intros Hs. split; [split|..]; try constructor. exact Hs. Qed.

(** A call of the manager changes the manager, and an exception of it is the manager's. *)
Lemma manager_step {A} (op : M S A) (Q : A → S → Prop) c0 :
  answers op (flexkv_manager c0) Q → (∀ s x s', op s = (Raise x, s') → km_faulted s') →
  triple faulted (λ c, c = c0) (on_manager op) (λ a c, ∃ s, c = with_manager s c0 ∧ Q a s).
Proof.
  intros Ha Hf c ->. unfold on_manager. unfold answers in Ha.
  destruct (op (flexkv_manager c0)) as [[a|x] s] eqn:E; [by exists s|]. unfold faulted. cbn. by eapply Hf.
Qed.

Lemma keys_cons_cancel c k : k ∉ keys c → (k ∉ (tasks_to_cancel c).*1) ∧ (k ∉ (tasks_to_launch c).*1).
Proof. unfold keys. rewrite !not_elem_of_app. tauto. Qed.

Lemma fresh_key c k : wf c → km_next (flexkv_manager c) <= k → k ∉ keys c.
Proof. intros [[_ _ _ _ _ Hf] _ _ _ _ _] Hk Hin. rewrite Forall_forall in Hf. apply Hf in Hin. lia. Qed.

(** *** A match enters a task among those to cancel *)

Definition with_new_task (t : FlexKVTask) c : Conn :=
  with_cancel (dict_set (ft_task_id t) t) (with_dict (insert (rid t) (ft_task_id t)) c).

Lemma new_task_wf c s t :
  wf c → req_id_to_task_dict c !! rid t = None →
  km_next (flexkv_manager c) <= ft_task_id t < km_next s → km_pending (ft_task_id t :: pending_keys c) s →
  let c' := with_new_task t (with_manager s c) in
  wf c' ∧ dict_get (ft_task_id t) (tasks_to_cancel c') = Some t ∧ owed_tasks c' = owed_tasks c.
Proof.
  intros Hwf Hn Hid Hs c'. pose proof (fresh_key c _ Hwf (proj1 Hid)) as Hk. destruct (keys_cons_cancel _ _ Hk) as [Hkc _].
  destruct Hwf as [Hg Hc Hl Hgs Hps Hpe]. split_and!; [split|..]; try done.
  - unfold c', live, keys, owed_tasks, with_new_task. cbn. rewrite dict_set_new, !fmap_app by done.
    eapply good_perm; [exact (good_add _ _ _ _ _ t _ Hg Hn eq_refl Hid)| | |done].
    + unfold live, owed_tasks. cbn. rewrite <- app_assoc. cbn. by rewrite <- Permutation_middle.
    + unfold keys. cbn. rewrite <- app_assoc. cbn. by rewrite <- Permutation_middle.
  - unfold c', with_new_task. cbn. rewrite dict_set_new by done. apply Forall_app. split; [done|]. by repeat constructor.
  - unfold c', pending_keys, with_new_task. cbn. rewrite dict_set_new, fmap_app by done. eapply km_pending_perm; [|exact Hs].
    unfold pending_keys. rewrite <- app_assoc. cbn. by rewrite Permutation_middle.
  - apply dict_get_set_eq.
Qed.

Lemma with_manager_wf c s : wf c → km_next (flexkv_manager c) <= km_next s → km_pending (pending_keys c) s → wf (with_manager s c).
Proof. intros [Hg Hc Hl Hgs Hps Hpe] Hs Hp. split; try done. by eapply good_perm; [exact Hg|..]. Qed.

(** What a match leaves: the state as it was, or one task more among those to cancel. *)
Definition matched c0 (t : FlexKVTask) c : Prop :=
  ∃ s, c = with_new_task t (with_manager s c0) ∧ km_next (flexkv_manager c0) <= ft_task_id t < km_next s ∧
    km_pending (ft_task_id t :: pending_keys c0) s.

Definition unmatched c0 c : Prop :=
  ∃ s, c = with_manager s c0 ∧ km_next (flexkv_manager c0) <= km_next s ∧ km_pending (pending_keys c0) s.

Lemma cancel_new c0 s id :
  km_next (flexkv_manager c0) <= km_next s → km_pending (id :: pending_keys c0) s →
  triple faulted (λ c, c = with_manager s c0) (on_manager (km_cancel [id])) (λ _, unmatched c0).
Proof.
  intros Hs Hp. eapply triple_weaken; [apply (manager_step (km_cancel [id]) (λ _ s', km_pending (pending_keys c0) s' ∧ km_next s <= km_next s') (with_manager s c0))| |].
  - apply (km_cancel_next [id] (pending_keys c0) s Hp).
  - intros s' x s'' E. by eapply km_cancel_fault.
  - by intros c ->.
  - intros [] c (s' & -> & Hp' & Hs'). exists s'. split_and!; [done|lia|done].
Qed.

Lemma get_match_step c0 r n :
  km_pending (pending_keys c0) (flexkv_manager c0) → n <= num_tokens r / bs * bs → n mod bs = 0 →
  triple faulted (λ c, c = c0) (_get_match cfg r n)
    (λ a c, if 0 <? a.2 then matched c0 (mkFlexKVTask a.1 r None [] (FlexKVGetTask n a.2)) c else unmatched c0 c).
Proof.
  intros Hpend Hle Hmod. unfold _get_match. cbn zeta. unfold assertM. rewrite (proj2 (Z.leb_le _ _) Hle), Hmod. cbn [Z.eqb].
  eapply (triple_bind _ _ _ _ (λ _ c, c = c0)); [by apply triple_ret|]. intros [].
  eapply (triple_bind _ _ _ _ (λ _ c, c = c0)); [by apply triple_ret|]. intros [].
  destruct (_ =? _); [apply triple_ret; intros c ->; exists (flexkv_manager c0); split_and!; [by destruct c0|done|done]|].
  eapply triple_bind.
  { apply manager_step; [by apply (km_get_match_new _ _ _ (pending_keys c0))|]. intros s x s' E. by eapply km_get_match_fault. }
  intros [id mask]. apply triple_state. intros c1 (s & -> & Hid & Hs). cbn [fst snd] in Hid, Hs |- *.
  generalize (mask_sum mask) as k. intros k. destruct (0 <? k) eqn:Hm.
  - intros c ->. cbv [mbind M_bind modify_state put_to_cancel mret M_ret]. cbn [fst snd]. rewrite Hm. by exists s.
  - eapply triple_bind; [apply cancel_new; [lia|done]|]. intros []. apply triple_ret. intros c Hc. cbn. by rewrite Hm.
Qed.

Lemma matched_wf c0 t c :
  wf c0 → req_id_to_task_dict c0 !! rid t = None → matched c0 t c →
  wf c ∧ dict_get (ft_task_id t) (tasks_to_cancel c) = Some t ∧ owed_tasks c = owed_tasks c0 ∧ req_id_to_task_dict c !! rid t = Some (ft_task_id t).
Proof.
  intros Hwf Hn (s & -> & Hid & Hs). destruct (new_task_wf c0 s t Hwf Hn Hid Hs) as (? & ? & ?). split_and!; try done. apply lookup_insert_eq.
Qed.

Lemma unmatched_wf c0 c : wf c0 → unmatched c0 c → wf c ∧ owed_tasks c = owed_tasks c0.
Proof. intros Hwf (s & -> & Hs & Hp). split; [by apply with_manager_wf|done]. Qed.

Lemma with_stats_wf f c : wf c → wf (with_stats f c).
Proof. intros [Hg Hc Hl Hgs Hps Hpe]. by split. Qed.

Lemma with_failed_wf f c : wf c → wf (with_failed_blocks f c).
Proof. intros [Hg Hc Hl Hgs Hps Hpe]. by split. Qed.

Definition to_cancel c (r : string) (t : FlexKVTask) : Prop := dict_get (ft_task_id t) (tasks_to_cancel c) = Some t ∧ rid t = r.

(** The answer to vLLM's question, and the state after it. *)
Lemma get_num_step c0 r n :
  wf c0 → req_id_to_task_dict c0 !! request_id r = None → n <= num_tokens r / bs * bs → n mod bs = 0 →
  triple faulted (λ c, c = c0) (get_num_new_matched_tokens cfg r n)
    (λ a c, wf c ∧ owed_tasks c = owed_tasks c0 ∧ a.2 = (0 <? a.1) ∧
       (a.2 = true → ∃ t, to_cancel c (request_id r) t ∧ ft_kind t = FlexKVGetTask n a.1)).
Proof.
  intros Hwf Hn Hle Hmod. unfold get_num_new_matched_tokens. eapply triple_bind; [apply get_match_step; [apply Hwf|done|done]|].
  intros [id m]. cbn [fst snd]. intros c Hc. cbn. unfold _need_to_get. destruct (0 <? m) eqn:Hm; cbn.
  - destruct (matched_wf c0 (mkFlexKVTask id r None [] (FlexKVGetTask n m)) c Hwf Hn Hc) as (Hwf' & Ht & Ho & _). split_and!; [by apply with_stats_wf|done|done|].
    intros _. by eexists.
  - destruct (unmatched_wf _ _ Hwf Hc) as [Hwf' Ho]. split_and!; [by apply with_stats_wf|done|done|done].
Qed.

(** *** A task moves from one table to another *)

Definition launchable (t : FlexKVTask) c : Conn := with_launch (dict_set (ft_task_id t) t) (with_cancel (dict_pop (ft_task_id t)) c).

Lemma launchable_wf c t t' :
  wf c → dict_get (ft_task_id t) (tasks_to_cancel c) = Some t → ft_task_id t' = ft_task_id t → ft_request t' = ft_request t → has_slots t' →
  wf (launchable t' c) ∧ owed_tasks (launchable t' c) ≡ₚ t' :: owed_tasks c.
Proof.
  intros [Hg Hc Hl Hgs Hps Hpe] Et Eid Er Hs. pose proof (dict_pop_perm _ _ _ Et) as Hp.
  assert (ft_task_id t ∉ (tasks_to_launch c).*1) as Hk.
  { destruct Hg as [_ _ _ _ Hk _]. unfold keys in Hk. rewrite Hp in Hk. csimpl in Hk. apply NoDup_cons in Hk as [Hk _].
    rewrite !not_elem_of_app in Hk. tauto. }
  assert (owed_tasks (launchable t' c) ≡ₚ t' :: owed_tasks c) as Ho.
  { unfold owed_tasks, launchable. cbn. rewrite Eid, dict_set_new, fmap_app by done. rewrite <- app_assoc. cbn. by rewrite <- Permutation_middle. }
  split; [|done]. unfold launchable in *. rewrite Eid in *. split; cbn; try done.
  - rewrite Forall_forall in Hc. eapply good_perm; [|reflexivity|reflexivity|reflexivity].
    destruct Hg as [Hr Hi Hb Hd Hk' Hf].
    assert (entry <$> live (with_launch (dict_set (ft_task_id t) t') (with_cancel (dict_pop (ft_task_id t)) c)) ≡ₚ entry <$> live c) as El.
    { assert (entry t' = entry t) as Ee by (unfold entry; by rewrite Eid, Er). unfold live. rewrite Ho, Hp. cbn. rewrite <- Permutation_middle. csimpl. by rewrite Ee. }
    assert (keys (with_launch (dict_set (ft_task_id t) t') (with_cancel (dict_pop (ft_task_id t)) c)) ≡ₚ keys c) as Ek.
    { unfold keys. cbn. rewrite dict_set_new, fmap_app by done. pose proof (fmap_Permutation fst _ _ Hp) as Hp1. cbn in Hp1. rewrite Hp1, <- app_assoc. cbn. by rewrite <- !Permutation_middle. }
    split; [by rewrite El|by rewrite El|by rewrite El|rewrite Hd; apply list_to_map_proper; [done|by rewrite El]|by rewrite Ek|by rewrite Ek].
  - rewrite Hp in Hc. by apply Forall_cons in Hc as [_ Hc].
  - rewrite dict_set_new by done. apply Forall_app. split; [done|]. constructor; [split; [done|done]|constructor].
  - eapply km_pending_perm; [|exact Hpe]. unfold pending_keys. cbn. rewrite dict_set_new, fmap_app by done.
    pose proof (fmap_Permutation fst _ _ Hp) as Hp1. cbn in Hp1. rewrite Hp1, app_assoc. cbn. by rewrite <- Permutation_cons_append.
Qed.

Lemma live_task_id c t : wf c → t ∈ live c → req_id_to_task_dict c !! rid t = Some (ft_task_id t).
Proof. intros Hwf Ht. apply (good_lookup _ _ _ _ _ _ (wf_good _ Hwf)). eauto. Qed.

Lemma to_cancel_live c r t : to_cancel c r t → t ∈ live c.
Proof. intros [Et%dict_get_Some_elem _]. unfold live. apply elem_of_app. left. apply list_elem_of_fmap. by exists (ft_task_id t, t). Qed.

(** The task of a read, with the GPU blocks that vLLM allocated for it. *)
Definition load_blocks (all_block_ids : list Z) (computed n : Z) : list Z :=
  (all_block_ids.[computed / bs : computed / bs + n / bs])%py.
Definition load_task (t : FlexKVTask) (blocks : list Z) : FlexKVTask :=
  with_slot_mapping (block_slots (block_size cfg) blocks) (with_blocks blocks t).

Lemma update_state_step c0 r t all_block_ids computed m n :
  wf c0 → to_cancel c0 (request_id r) t → ft_kind t = FlexKVGetTask computed m → n ≠ 0 →
  let t' := load_task t (load_blocks all_block_ids computed n) in
  update_state_after_alloc cfg r all_block_ids n c0 = (Ok tt, launchable t' c0) ∧
  wf (launchable t' c0) ∧ owed_tasks (launchable t' c0) ≡ₚ t' :: owed_tasks c0.
Proof.
  intros Hwf Ht Hkind Hn t'. pose proof (live_task_id _ _ Hwf (to_cancel_live _ _ _ Ht)) as Ed. destruct Ht as [Et Er].
  split; [|apply (launchable_wf c0 t t'); try done; by eexists].
  unfold update_state_after_alloc. cbn zeta. rewrite (proj2 (Z.eqb_neq _ _)) by done. rewrite Er in Ed.
  rewrite M_bind_run. unfold task_id_of. rewrite Ed. rewrite M_bind_run. unfold pop_to_cancel. rewrite Et.
  unfold num_computed_tokens_of. rewrite Hkind. rewrite M_bind_run. cbn [put_to_launch modify_state]. rewrite M_bind_run. cbn [lift_result].
  unfold put_to_launch, modify_state, launchable, t', load_task, load_blocks. f_equal.
  unfold with_launch, with_cancel. cbn. by rewrite dict_set_set.
Qed.

(** *** The end of a request *)

(** The GPU blocks of a write: as many as the manager wants, of those that vLLM listed. *)
Definition offloads (block_ids : list Z) (t : FlexKVTask) (blocks : list Z) : Prop :=
  ∃ m u, ft_kind t = FlexKVPutTask m u ∧ blocks = ((block_ids.[m / bs : m / bs + u / bs])%py) ∧ zlen blocks = u / bs.

Lemma put_match_step c0 r :
  km_pending (pending_keys c0) (flexkv_manager c0) →
  triple faulted (λ c, c = c0) (_put_match cfg r)
    (λ a c, if 0 <? a.2 then matched c0 (mkFlexKVTask a.1.1 r None [] (FlexKVPutTask a.1.2 a.2)) c else unmatched c0 c).
Proof.
  intros Hpend. unfold _put_match. cbn zeta.
  destruct (_ =? _); [apply triple_ret; intros c ->; exists (flexkv_manager c0); split_and!; [by destruct c0|done|done]|].
  eapply triple_bind.
  { apply manager_step; [by apply (km_put_match_new _ _ _ (pending_keys c0))|]. intros s x s' E. by eapply km_put_match_fault. }
  intros [id mask]. apply triple_state. intros c1 (s & -> & Hid & Hs). cbn [fst snd] in Hid, Hs |- *.
  generalize (mask_sum mask) as k. intros k. destruct (0 <? k) eqn:Hm.
  - intros c ->. cbv [mbind M_bind modify_state put_to_cancel mret M_ret]. cbn [fst snd]. rewrite Hm. by exists s.
  - eapply triple_bind; [apply cancel_new; [lia|done]|]. intros []. apply triple_ret. intros c Hc. cbn. by rewrite Hm.
Qed.

Lemma request_finished_step c0 skip r block_ids :
  wf c0 →
  triple faulted (λ c, c = c0) (request_finished cfg skip r block_ids)
    (λ b c, wf c ∧
       if b : bool
       then is_Some (req_id_to_task_dict c0 !! request_id r) ∧ c = c0 ∨
            ∃ t blocks, rid t = request_id r ∧ offloads block_ids t blocks ∧ dict_get (ft_task_id t) (tasks_to_launch c) = Some t ∧
              ft_slot_mapping t = Some (block_slots (block_size cfg) blocks) ∧
              req_id_to_task_dict c0 !! request_id r = None ∧ owed_tasks c ≡ₚ t :: owed_tasks c0
       else owed_tasks c = owed_tasks c0 ∧ req_id_to_task_dict c0 !! request_id r = None).
Proof.
  intros Hwf. unfold request_finished. cbn zeta. eapply (triple_bind _ _ _ _ (λ c1 c, c1 = c0 ∧ c = c0)); [by intros c ->|].
  intros c1. apply triple_state. intros ? [-> ->].
  destruct (req_id_to_task_dict c0 !! request_id r) as [id|] eqn:Ed.
  { rewrite bool_decide_eq_true_2 by done. apply triple_ret. intros c ->. split; [done|]. left. split; [done|done]. }
  rewrite bool_decide_eq_false_2 by (by intros [? ?]).
  destruct (negb (should_put r)); [by apply triple_ret; intros c ->|].
  destruct (_ && _); [by apply triple_ret; intros c ->|].
  eapply triple_bind; [apply put_match_step; apply Hwf|]. intros [[id m] u]. cbn [fst snd].
  eapply (triple_bind _ _ _ _ (λ _ c, ∃ c', c = with_stats (record_put (num_tokens r) u) c' ∧
    if 0 <? u then matched c0 (mkFlexKVTask id r None [] (FlexKVPutTask m u)) c' else unmatched c0 c')).
  { apply triple_modify. eauto. }
  intros []. unfold _need_to_put. destruct (0 <? u) eqn:Hu; cbn [negb].
  - set (t := mkFlexKVTask id r None [] (FlexKVPutTask m u)). apply triple_state. intros ? (c' & -> & Hc).
    destruct (matched_wf c0 t c' Hwf Ed Hc) as (Hwf' & Et & Ho & _). set (c2 := with_stats _ c').
    assert (wf c2) as Hwf2 by by apply with_stats_wf. assert (owed_tasks c2 = owed_tasks c0) as Ho2 by done.
    destruct (_ =? _) eqn:Elen; cbn [negb]; [|by apply triple_ret; intros ? ->]. apply Z.eqb_eq in Elen.
    set (t' := with_slot_mapping (block_slots (block_size cfg) ((block_ids.[m / bs : m / bs + u / bs])%py)) t).
    destruct (launchable_wf c2 t t' Hwf2 Et) as [Hwf3 Ho3]; [done|done|by eexists|].
    intros ? ->. rewrite M_bind_run. unfold pop_to_cancel. change (tasks_to_cancel c2) with (tasks_to_cancel c'). cbn [ft_task_id t] in Et. rewrite Et.
    cbn [put_to_launch modify_state mbind M_bind mret M_ret]. split; [exact Hwf3|]. right. exists t', ((block_ids.[m / bs : m / bs + u / bs])%py).
    split_and!; try done; [by exists m, u|apply dict_get_set_eq|by rewrite <- Ho2].
  - apply triple_ret. intros c (c' & -> & Hc). destruct (unmatched_wf _ _ Hwf Hc) as [Hwf' Ho]. split; [by apply with_stats_wf|done].
Qed.

(** *** Preemptions *)

Lemma good_same_id dict live keys next t u : good dict live keys next → t ∈ live → u ∈ live → ft_task_id t = ft_task_id u → t = u.
Proof.
  intros [_ Hi _ _ _ _] [i Hi1]%list_elem_of_lookup [j Hj]%list_elem_of_lookup E.
  assert (i = j) as ->; [|by simplify_eq].
  apply (NoDup_lookup _ _ _ (ft_task_id t) Hi); rewrite !list_lookup_fmap; [by rewrite Hi1|rewrite Hj; cbn; by rewrite E].
Qed.

Lemma preempt_step c0 r :
  wf c0 → ∃ c, preempt r c0 = (Ok tt, c) ∧ wf c ∧ live c ≡ₚ live c0 ∧
    owed_tasks c ⊆ owed_tasks c0 ∧ ∀ t, t ∈ owed_tasks c0 → t ∈ owed_tasks c ∨ rid t = r.
Proof.
  intros Hwf. unfold preempt. rewrite M_bind_run. cbn [get_state].
  destruct (req_id_to_task_dict c0 !! r) as [id|] eqn:Ed; [|exists c0; split_and!; auto].
  destruct (dict_get id (tasks_to_launch c0)) as [t|] eqn:Et; [|exists c0; split_and!; auto].
  eexists. split; [reflexivity|]. pose proof (dict_pop_perm _ _ _ Et) as Hp. destruct Hwf as [Hg Hc Hl Hgs Hps Hpe].
  pose proof (fmap_Permutation fst _ _ Hp) as Hp1. pose proof (fmap_Permutation snd _ _ Hp) as Hp2. cbn in Hp1, Hp2.
  assert (id = ft_task_id t ∧ t ∈ live c0) as [-> Ht].
  { apply dict_get_Some_elem in Et. rewrite Forall_forall in Hl. split; [by apply (Hl (id, t))|].
    unfold live, owed_tasks. rewrite !elem_of_app. right; left. apply list_elem_of_fmap. by exists (id, t). }
  assert (rid t = r) as Er.
  { apply (good_lookup _ _ _ _ _ _ Hg) in Ed as (u & Hu & <- & Eu). by rewrite (good_same_id _ _ _ _ t u Hg). }
  assert (ft_task_id t ∉ (tasks_to_cancel c0).*1) as Hk.
  { destruct Hg as [_ _ _ _ Hk _]. unfold keys in Hk. rewrite Hp1 in Hk. cbn in Hk. rewrite <- Permutation_middle in Hk. apply NoDup_cons in Hk as [Hk _].
    rewrite !not_elem_of_app in Hk. tauto. }
  set (c := with_cancel _ _).
  assert (live c ≡ₚ live c0) as El.
  { unfold live, owed_tasks, c. cbn. rewrite dict_set_new, fmap_app, Hp2 by done. cbn. by rewrite <- app_assoc. }
  assert (keys c ≡ₚ keys c0) as Ek.
  { unfold keys, c. cbn. rewrite dict_set_new, fmap_app, Hp1 by done. cbn. by rewrite <- app_assoc. }
  split_and!; [split|..]; try done.
  - by eapply good_perm; [exact Hg|..].
  - unfold c. cbn. rewrite dict_set_new by done. apply Forall_app. split; [done|]. by constructor.
  - unfold c. cbn. rewrite Hp in Hl. by apply Forall_cons in Hl as [_ Hl].
  - eapply km_pending_perm; [|exact Hpe]. unfold pending_keys, c. cbn. rewrite dict_set_new, fmap_app, Hp1 by done. cbn. by rewrite <- app_assoc.
  - intros u Hu. unfold owed_tasks. rewrite Hp2. right. exact Hu.
  - intros u Hu. unfold owed_tasks in Hu. rewrite Hp2 in Hu. apply elem_of_cons in Hu as [->|Hu]; [by right|by left].
Qed.

Lemma preemptions_step c0 l :
  wf c0 → ∃ c, for_each preempt l c0 = (Ok tt, c) ∧ wf c ∧ live c ≡ₚ live c0 ∧
    owed_tasks c ⊆ owed_tasks c0 ∧ ∀ t, t ∈ owed_tasks c0 → t ∈ owed_tasks c ∨ rid t ∈ l.
Proof.
  revert c0. induction l as [|r l IH]; intros c0 Hwf; cbn [for_each]; [exists c0; split_and!; auto|].
  destruct (preempt_step c0 r Hwf) as (c1 & E1 & Hwf1 & El1 & Ho1 & Hr1).
  destruct (IH c1 Hwf1) as (c & E & Hwf' & El & Ho & Hr). exists c. rewrite M_bind_run, E1.
  split_and!; [done|done|by rewrite El|by intros t Ht; apply Ho1, Ho|]. intros t [Ht|Ht]%Hr1; [|right; rewrite Ht; left].
  destruct (Hr t Ht); [by left|by right; right].
Qed.

(** *** Forgetting requests *)

Definition forget_all (ts : list FlexKVTask) (d : gmap string Z) : gmap string Z := foldl (λ d t, delete (rid t) d) d ts.

Lemma forget_one c0 t rest ks n :
  good (req_id_to_task_dict c0) (t :: rest) ks n → forget_request (rid t) c0 = (Ok tt, with_dict (delete (rid t)) c0).
Proof.
  intros Hg. unfold forget_request, task_id_of. rewrite M_bind_run.
  by rewrite (proj2 (good_lookup _ _ _ _ (rid t) (ft_task_id t) Hg)) by (exists t; split; [left|done]).
Qed.

Lemma forget_good ts rest d ks n : good d (ts ++ rest) ks n → good (forget_all ts d) rest ks n.
Proof. revert d. induction ts as [|t ts IH]; intros d Hg; [done|]. cbn. apply IH. by apply (good_drop _ t). Qed.

Lemma forget_run ts rest c0 ks n :
  good (req_id_to_task_dict c0) (ts ++ rest) ks n →
  for_each (λ t, forget_request (rid t)) ts c0 = (Ok tt, with_dict (forget_all ts) c0).
Proof.
  revert c0. induction ts as [|t ts IH]; intros c0 Hg; cbn [for_each]; [by destruct c0|].
  rewrite M_bind_run, (forget_one _ _ _ _ _ Hg). rewrite IH; [done|]. by apply (good_drop _ t).
Qed.

Lemma good_drop_keys d ts ks1 ks2 n : good d ts (ks1 ++ ks2) n → good d ts ks2 n.
Proof. induction ks1 as [|k ks1 IH]; [done|]. intros Hg. by apply IH, (good_drop_key _ _ k). Qed.

(** *** Cancelling *)

Lemma cancel_tasks_step c0 :
  wf c0 → triple faulted (λ c, c = c0) cancel_tasks
    (λ _ c, wf c ∧ tasks_to_cancel c = [] ∧ owed_tasks c = owed_tasks c0 ∧ tasks_to_launch c = tasks_to_launch c0).
Proof.
  intros Hwf. unfold cancel_tasks. eapply (triple_bind _ _ _ _ (λ c1 c, c1 = c0 ∧ c = c0)); [by intros c ->|].
  intros c1. apply triple_state. intros ? [-> ->].
  destruct (length (tasks_to_cancel c0) =? 0)%nat eqn:El.
  { apply triple_ret. intros c ->. apply Nat.eqb_eq, nil_length_inv in El. done. }
  eapply (triple_bind _ _ _ _ (λ _ c, c = with_dict (forget_all (tasks_to_cancel c0).*2) c0)).
  { intros c ->. by rewrite (forget_run _ _ _ _ _ (wf_good _ Hwf)). }
  intros []. eapply triple_bind.
  { apply (manager_step (km_cancel (tasks_to_cancel c0).*1)); [|intros s' x s'' E; by eapply km_cancel_fault].
    apply (km_cancel_next _ (tasks_to_launch c0).*1). apply Hwf. }
  intros []. apply triple_modify. intros c (s & -> & Hp & Hs). cbn in Hs. destruct Hwf as [Hg Hc Hl Hgs Hps Hpe].
  split_and!; [split|..]; try done.
  apply forget_good in Hg. apply good_drop_keys in Hg. eapply good_perm; [exact Hg|done|done|exact Hs].
Qed.

(** *** Launching *)

(** The tables that a launch of [tasks] gives: the same tasks in the same order, under the same keys, or all of them
    under one new key. *)
Definition launched_as (tasks : list (Z * FlexKVTask)) (table : list (Z * list FlexKVTask)) (n n' : Z) : Prop :=
  concat table.*2 = tasks.*2 ∧ n <= n' ∧ (table.*1 = tasks.*1 ∨ ∃ b, table.*1 = [b] ∧ n <= b < n').

Lemma zip_singles (ks : list Z) (l : list FlexKVTask) :
  length ks = length l → (zip ks ((λ t, [t]) <$> l)).*1 = ks ∧ concat (zip ks ((λ t, [t]) <$> l)).*2 = l.
Proof.
  intros El. rewrite fst_zip, snd_zip by (rewrite length_fmap; lia). split; [done|].
  induction l as [|t l IH] in ks, El |- *; [done|]. destruct ks as [|k ks]; [done|]. cbn. f_equal. apply (IH ks). by injection El.
Qed.

Lemma launch_group_step tasks ks c0 :
  km_pending (tasks.*1 ++ ks) (flexkv_manager c0) →
  triple faulted (λ c, c = c0) (launch_group cfg tasks)
    (λ table c, ∃ s, c = with_manager s c0 ∧ launched_as tasks table (km_next (flexkv_manager c0)) (km_next s) ∧ km_pending ks s).
Proof.
  intros Hpend. unfold launch_group. destruct (length tasks =? 0)%nat eqn:El.
  { apply Nat.eqb_eq, nil_length_inv in El as ->. apply triple_ret. intros c ->. exists (flexkv_manager c0).
    split; [by destruct c0|]. split; [split_and!; auto; lia|exact Hpend]. }
  eapply triple_bind.
  { apply manager_step; [by apply (km_launch_ids _ _ _ ks)|]. intros s x s' E. by eapply km_launch_fault. }
  intros launched. apply triple_state. intros c1 (s & -> & Hp & Hn & Hids).
  destruct Hids as [->|[Hb (b & -> & Hfresh)]].
  - rewrite length_fmap, Nat.eqb_refl. destruct (_ && _) eqn:H1.
    + apply andb_true_iff in H1 as [H1%Nat.eqb_eq H2%Nat.ltb_lt]. lia.
    + apply triple_ret. intros c ->. exists s. split; [done|].
      destruct (zip_singles tasks.*1 tasks.*2) as [E1 E2]; [by rewrite !length_fmap|]. split; [split_and!; auto|exact Hp].
  - apply andb_true_iff in Hb as [_ Hb]. rewrite Hb. cbn [length Nat.eqb andb]. apply triple_ret. intros c ->. exists s. split; [done|].
    split; [|exact Hp]. split_and!; [cbn; by rewrite app_nil_r|done|]. right. by exists b.
Qed.

Lemma good_regroup d ts tasks table ks n n' :
  good d ts (tasks.*1 ++ ks) n → launched_as tasks table n n' → good d ts (table.*1 ++ ks) n'.
Proof.
  intros Hg (_ & Hn & Hk). destruct Hk as [->|(b & -> & Hb)]; [by eapply good_perm|].
  assert (b ∉ ks) as Hnew.
  { intros Hin. destruct Hg as [_ _ _ _ _ Hf]. rewrite Forall_forall in Hf. specialize (Hf b). cbn in Hf. assert (b < n); [|lia].
    apply Hf. apply elem_of_app. by right. }
  destruct (good_drop_keys _ _ _ _ _ Hg) as [Hr Hi Ho Hd Hks Hf]. split; try done.
  - eapply Forall_impl; [exact Ho|]. cbn. lia.
  - cbn. by apply NoDup_cons.
  - cbn. apply Forall_cons. split; [lia|]. eapply Forall_impl; [exact Hf|]. cbn. lia.
Qed.

Lemma dict_update_new {V} (d d' : list (Z * V)) : NoDup (d.*1 ++ d'.*1) → dict_update d d' = d ++ d'.
Proof.
  unfold dict_update. revert d. induction d' as [|[k v] d' IH]; intros d Hn; cbn; [by rewrite app_nil_r|].
  assert (k ∉ d.*1) as Hk.
  { csimpl in Hn. rewrite <- Permutation_middle in Hn. apply NoDup_cons in Hn as [Hn _]. rewrite not_elem_of_app in Hn. tauto. }
  rewrite dict_set_new by done. rewrite IH; [by rewrite <- app_assoc|]. rewrite fmap_app, <- app_assoc. done.
Qed.

Definition reads_of (l : list (Z * FlexKVTask)) := filter (λ e, is_get_task e.2) l.
Definition writes_of (l : list (Z * FlexKVTask)) := filter (λ e, negb (is_get_task e.2)) l.

Lemma reads_writes l : l ≡ₚ reads_of l ++ writes_of l.
Proof.
  induction l as [|e l IH]; [done|]. unfold reads_of, writes_of in *. rewrite !filter_cons. rewrite IH at 1.
  destruct (is_get_task e.2); cbn; [done|]. by rewrite Permutation_middle.
Qed.

Lemma launch_tasks_step c0 :
  wf c0 → triple faulted (λ c, c = c0) (launch_tasks cfg)
    (λ _ c, wf c ∧ tasks_to_launch c = [] ∧ tasks_to_cancel c = tasks_to_cancel c0 ∧ owed_tasks c ≡ₚ owed_tasks c0).
Proof.
  intros Hwf. unfold launch_tasks. eapply (triple_bind _ _ _ _ (λ c1 c, c1 = c0 ∧ c = c0)); [by intros c ->|].
  intros c1. apply triple_state. intros ? [-> ->].
  destruct (length (tasks_to_launch c0) =? 0)%nat eqn:El.
  { apply triple_ret. intros c ->. apply Nat.eqb_eq, nil_length_inv in El. done. }
  pose proof (reads_writes (tasks_to_launch c0)) as Hp.
  assert (km_pending ((reads_of (tasks_to_launch c0)).*1 ++ (writes_of (tasks_to_launch c0)).*1 ++ (tasks_to_cancel c0).*1) (flexkv_manager c0)) as Hp0.
  { eapply km_pending_perm; [|exact (wf_pending _ Hwf)]. unfold pending_keys. rewrite Hp at 1. rewrite fmap_app. solve_Permutation. }
  eapply triple_bind; [apply launch_group_step; exact Hp0|]. intros gets.
  eapply (triple_bind _ _ _ _ (λ _ c, ∃ s, c = with_gets (λ d, dict_update d gets) (with_manager s c0) ∧ launched_as (reads_of (tasks_to_launch c0)) gets (km_next (flexkv_manager c0)) (km_next s) ∧
    km_pending ((writes_of (tasks_to_launch c0)).*1 ++ (tasks_to_cancel c0).*1) s)).
  { apply triple_modify. intros c (s & -> & H). by exists s. }
  intros []. apply triple_state. intros c1 (s & -> & Hgets & Hp1).
  eapply triple_bind; [apply launch_group_step; exact Hp1|]. intros puts.
  eapply (triple_bind _ _ _ _ (λ _ c, ∃ s', c = with_puts (λ d, dict_update d puts) (with_gets (λ d, dict_update d gets) (with_manager s' c0)) ∧ launched_as (writes_of (tasks_to_launch c0)) puts (km_next s) (km_next s') ∧
    km_pending (tasks_to_cancel c0).*1 s')).
  { apply triple_modify. intros c (s' & -> & H). by exists s'. }
  intros []. apply triple_modify. intros c (s' & -> & Hputs & Hp2). clear El Hp0 Hp1.
  destruct Hwf as [Hg Hc Hl Hgs Hps Hpe].
  set (rs := reads_of _) in *. set (ws := writes_of _) in *.
  assert (good (req_id_to_task_dict c0) (live c0) (((get_tasks c0).*1 ++ gets.*1) ++ ((put_tasks c0).*1 ++ puts.*1) ++ (tasks_to_cancel c0).*1) (km_next s')) as Hg'.
  { assert (keys c0 ≡ₚ rs.*1 ++ ws.*1 ++ (get_tasks c0).*1 ++ (put_tasks c0).*1 ++ (tasks_to_cancel c0).*1) as Ek.
    { unfold keys. rewrite Hp, fmap_app. solve_Permutation. }
    eapply good_perm in Hg; [|reflexivity|exact Ek|reflexivity]. eapply good_regroup in Hg; [|exact Hgets].
    assert (∀ l1 l2 l3 : list Z, l1 ++ l2 ++ l3 ≡ₚ l2 ++ l1 ++ l3) as Hswap by (intros; solve_Permutation).
    eapply good_perm in Hg; [|reflexivity|apply Hswap|reflexivity]. eapply good_regroup in Hg; [|exact Hputs].
    eapply good_perm; [exact Hg|reflexivity| |reflexivity]. solve_Permutation. }
  pose proof (good_keys _ _ _ _ Hg') as Hn. apply NoDup_app in Hn as (Hn1 & _ & Hn2). apply NoDup_app in Hn2 as (Hn2 & _ & _).
  assert (owed_tasks (with_launch (λ _, []) (with_puts (λ d, dict_update d puts) (with_gets (λ d, dict_update d gets) (with_manager s' c0)))) ≡ₚ owed_tasks c0) as Eo.
  { unfold owed_tasks. cbn. rewrite !dict_update_new by done. rewrite !fmap_app, !concat_app, (proj1 Hgets), (proj1 Hputs), Hp, fmap_app. solve_Permutation. }
  split_and!; [split|..]; try done.
  - eapply good_perm; [exact Hg'| | |done].
    + unfold live. by rewrite Eo.
    + unfold keys. cbn. rewrite !dict_update_new, !fmap_app by done. solve_Permutation.
  - cbn. rewrite dict_update_new, fmap_app, concat_app, (proj1 Hgets) by done. apply Forall_app. split; [done|].
    apply Forall_fmap, Forall_forall. intros e He. unfold rs, reads_of in He. apply list_elem_of_filter in He as [He _]. by apply Is_true_true in He.
  - cbn. rewrite dict_update_new, fmap_app, concat_app, (proj1 Hputs) by done. apply Forall_app. split; [done|].
    apply Forall_fmap, Forall_forall. intros e He. unfold ws, writes_of in He. apply list_elem_of_filter in He as [He _].
    apply Is_true_true in He. cbn. by destruct (is_get_task e.2).
  - unfold pending_keys. cbn. by rewrite app_nil_r.
Qed.

(** *** Answers of the manager *)

(** The blocks that vLLM must compute itself after these tasks. *)
Definition failed_blocks (success : bool) (ts : list FlexKVTask) : gset Z :=
  if success then ∅ else list_to_set (ts ≫= λ t, if is_get_task t then ft_block_ids t else []).

Lemma finish_run success ts rest c0 ks nx n :
  good (req_id_to_task_dict c0) (ts ++ rest) ks nx →
  ∃ n', for_acc (finish_task success) n ts c0 =
    (Ok n', with_failed_blocks (λ b, b ∪ failed_blocks success ts) (with_dict (forget_all ts) c0)).
Proof.
  revert c0 n. induction ts as [|t ts IH]; intros c0 n Hg; cbn [for_acc].
  { exists n. cbn. f_equal. unfold with_failed_blocks, failed_blocks. cbn. destruct c0; cbn. f_equal. destruct success; set_solver. }
  pose proof (forget_one c0 t (ts ++ rest) ks nx Hg) as Ef. pose proof (good_drop _ t _ _ _ Hg) as Hg1.
  rewrite M_bind_run. unfold finish_task at 1. rewrite M_bind_run, Ef. destruct success.
  - cbn [mret M_ret]. destruct (IH (with_dict (delete (rid t)) c0) n Hg1) as [n' ->]. exists n'. done.
  - set (c1 := with_failed_blocks (λ b, b ∪ failed_blocks false [t]) (with_dict (delete (rid t)) c0)).
    assert ((when (is_get_task t) (modify_state (with_failed_blocks (λ b, b ∪ list_to_set (ft_block_ids t)))) ;; mret (n + 1))
      (with_dict (delete (rid t)) c0) = (Ok (n + 1), c1)) as ->.
    { unfold when, c1, failed_blocks. cbn. rewrite app_nil_r. destruct (is_get_task t); [reflexivity|].
      unfold with_failed_blocks. cbn. rewrite union_empty_r_L. reflexivity. }
    destruct (IH c1 (n + 1) Hg1) as [n' ->]. exists n'. unfold c1, with_failed_blocks, failed_blocks. cbn. do 2 f_equal.
    rewrite app_nil_r, list_to_set_app_L. set_solver.
Qed.

(** What an answer for the tasks [ts] leaves. *)
Definition after_answer (success : bool) (ts : list FlexKVTask) c : Conn :=
  with_failed_blocks (λ b, b ∪ failed_blocks success ts) (with_dict (forget_all ts) c).

Lemma after_answer_wf b success k ts c :
  wf c → dict_get k (table_of b c) = Some ts → wf (after_answer success ts (with_table b (dict_pop k) c)).
Proof.
  intros [Hg Hc Hl Hgs Hps Hpe] Et. pose proof (dict_pop_perm _ _ _ Et) as Hp.
  pose proof (fmap_Permutation fst _ _ Hp) as Hp1. pose proof (fmap_Permutation snd _ _ Hp) as Hp2. cbn in Hp1, Hp2.
  destruct b; cbn in *.
  - split; try done.
    + assert (good (req_id_to_task_dict c) (ts ++ live (with_gets (dict_pop k) c)) ([k] ++ keys (with_gets (dict_pop k) c)) (km_next (flexkv_manager c))) as Hg'.
      { eapply good_perm; [exact Hg| | |done].
        - unfold live, owed_tasks. cbn. rewrite Hp2. cbn. solve_Permutation.
        - unfold keys. cbn. rewrite Hp1. cbn. solve_Permutation. }
      exact (good_drop_keys _ _ _ _ _ (forget_good _ _ _ _ _ Hg')).
    + cbn. rewrite Hp2 in Hgs. cbn in Hgs. by apply Forall_app in Hgs as [_ Hgs].
  - split; try done.
    + assert (good (req_id_to_task_dict c) (ts ++ live (with_puts (dict_pop k) c)) ([k] ++ keys (with_puts (dict_pop k) c)) (km_next (flexkv_manager c))) as Hg'.
      { eapply good_perm; [exact Hg| | |done].
        - unfold live, owed_tasks. cbn. rewrite Hp2. cbn. solve_Permutation.
        - unfold keys. cbn. rewrite Hp1. cbn. solve_Permutation. }
      exact (good_drop_keys _ _ _ _ _ (forget_good _ _ _ _ _ Hg')).
    + cbn. rewrite Hp2 in Hps. cbn in Hps. by apply Forall_app in Hps as [_ Hps].
Qed.

Lemma table_good b c k ts :
  wf c → dict_get k (table_of b c) = Some ts →
  dict_wf (table_of b c) ∧ ∃ rest ks, good (req_id_to_task_dict c) (ts ++ rest) ks (km_next (flexkv_manager c)).
Proof.
  intros [Hg _ _ _ _ _] Et. pose proof (dict_pop_perm _ _ _ Et) as Hp. pose proof (fmap_Permutation snd _ _ Hp) as Hp2. cbn in Hp2. split.
  - destruct Hg as [_ _ _ _ Hk _]. unfold dict_wf, keys in *. rewrite !NoDup_app in Hk. destruct b; naive_solver.
  - exists ((tasks_to_cancel c).*2 ++ (tasks_to_launch c).*2 ++ concat (match b with GetTable => (dict_pop k (get_tasks c)).*2 | PutTable => (get_tasks c).*2 end)
      ++ concat (match b with GetTable => (put_tasks c).*2 | PutTable => (dict_pop k (put_tasks c)).*2 end)), (keys c).
    eapply good_perm; [exact Hg| |done|done]. unfold live, owed_tasks. destruct b; cbn in *; rewrite Hp2; cbn; solve_Permutation.
Qed.

Lemma query_response_step f k resp c0 :
  wf c0 → k ∈ (get_tasks c0).*1 ++ (put_tasks c0).*1 →
  ∃ b ts n, dict_get k (table_of b c0) = Some ts ∧ (b = PutTable → k ∉ (get_tasks c0).*1) ∧
    query_response f (k, resp) c0 =
      (Ok (match b with
           | GetTable => mkFinished (finished_sending f) (finished_recving f ∪ request_ids ts) n
           | PutTable => mkFinished (finished_sending f ∪ request_ids ts) (finished_recving f) n
           end), after_answer (bool_decide (kr_status resp = Success)) ts (with_table b (dict_pop k) c0)).
Proof.
  intros Hwf Hk. unfold query_response. rewrite M_bind_run. cbn [get_state].
  destruct (dict_get k (get_tasks c0)) as [ts|] eqn:Et.
  - destruct (table_good GetTable c0 k ts Hwf Et) as (_ & rest & ks & Hg).
    edestruct (finish_run (bool_decide (kr_status resp = Success)) ts rest (with_gets (dict_pop k) c0)) as [n E]; [exact Hg|].
    exists GetTable, ts, n. split_and!; [done|done|]. rewrite M_bind_run. cbn [modify_state]. by rewrite M_bind_run, E.
  - apply dict_get_None in Et. apply elem_of_app in Hk as [?|Hk]; [done|]. apply dict_key_get in Hk as [ts Ep].
    destruct (table_good PutTable c0 k ts Hwf Ep) as (_ & rest & ks & Hg).
    edestruct (finish_run (bool_decide (kr_status resp = Success)) ts rest (with_puts (dict_pop k) c0)) as [n E]; [exact Hg|].
    exists PutTable, ts, n. split_and!; [done|done|]. rewrite Ep. rewrite M_bind_run. cbn [lift_result]. rewrite M_bind_run. cbn [modify_state].
    by rewrite M_bind_run, E.
Qed.

(** The GPU blocks of the reads that failed. *)
Definition load_errors (l : list (Z * KVResponse)) (d : list (Z * list FlexKVTask)) : gset Z :=
  list_to_set (l ≫= λ e, if bool_decide (kr_status e.2 = Success) then [] else default [] (dict_get e.1 d) ≫= ft_block_ids).

Lemma failed_gets success ts :
  Forall (λ t, is_get_task t = true) ts → failed_blocks success ts = list_to_set (if success then [] else ts ≫= ft_block_ids).
Proof.
  intros Hts. unfold failed_blocks. destruct success; [done|]. f_equal. induction Hts as [|t ts Ht _ IH]; [done|]. cbn. by rewrite Ht, IH.
Qed.

Lemma failed_puts success ts : Forall (λ t, is_get_task t = false) ts → failed_blocks success ts = ∅.
Proof.
  intros Hts. unfold failed_blocks. destruct success; [done|]. induction Hts as [|t ts Ht _ IH]; [done|]. cbn. by rewrite Ht.
Qed.

Lemma load_errors_other l k d : k ∉ l.*1 → load_errors l (dict_pop k d) = load_errors l d.
Proof.
  unfold load_errors. intros Hk. f_equal. induction l as [|[k' resp] l IH]; [done|]. csimpl in *. apply not_elem_of_cons in Hk as [Hne Hk].
  by rewrite IH, dict_get_pop_ne.
Qed.

(** What the answers [l] leave of the tables, and what they add to the sets that are reported. *)
Record after_answers (l : list (Z * KVResponse)) (f : Finished) c0 (f' : Finished) c : Prop := {
  aa_wf : wf c;
  aa_manager : flexkv_manager c = flexkv_manager c0;
  aa_cancel : tasks_to_cancel c = tasks_to_cancel c0;
  aa_launch : tasks_to_launch c = tasks_to_launch c0;
  aa_gets : get_tasks c = kept l.*1 (get_tasks c0);
  aa_puts : put_tasks c = kept l.*1 (put_tasks c0);
  aa_recving : finished_recving f' = finished_recving f ∪ request_ids (answered l.*1 (get_tasks c0));
  aa_sending : finished_sending f' = finished_sending f ∪ request_ids (answered l.*1 (put_tasks c0));
  aa_errors : failed_block_ids c = failed_block_ids c0 ∪ load_errors l (get_tasks c0);
}.

Lemma request_ids_perm ts ts' : ts ≡ₚ ts' → request_ids ts = request_ids ts'.
Proof. intros E. unfold request_ids. apply set_eq. intros r. by rewrite !elem_of_list_to_set, E. Qed.

Lemma request_ids_app ts ts' : request_ids (ts ++ ts') = request_ids ts ∪ request_ids ts'.
Proof. unfold request_ids. by rewrite fmap_app, list_to_set_app_L. Qed.

Lemma query_loop l f c0 :
  wf c0 → NoDup l.*1 → l.*1 ⊆ (get_tasks c0).*1 ++ (put_tasks c0).*1 →
  ∃ f' c, for_acc query_response f l c0 = (Ok f', c) ∧ after_answers l f c0 f' c.
Proof.
  revert f c0. induction l as [|[k resp] l IH]; intros f c0 Hwf Hn Hsub; cbn [for_acc].
  { exists f, c0. split; [done|]. split; try done; csimpl; rewrite ?kept_nil, ?answered_nil; try done;
      unfold load_errors, request_ids; cbn; by rewrite union_empty_r_L. }
  csimpl in Hn. csimpl in Hsub. apply NoDup_cons in Hn as [Hk Hn].
  destruct (query_response_step f k resp c0 Hwf) as (b & ts & n & Et & Hb & E); [apply Hsub; left|].
  destruct (table_good b c0 k ts Hwf Et) as (Hd & _). pose proof (dict_pop_perm _ _ _ Et) as Hp.
  pose proof (fmap_Permutation fst _ _ Hp) as Hp1. pose proof (fmap_Permutation snd _ _ Hp) as Hp2. cbn in Hp1, Hp2.
  assert (NoDup (keys c0)) as Hkeys by apply Hwf.
  pose proof (after_answer_wf b (bool_decide (kr_status resp = Success)) k ts c0 Hwf Et) as Hwf1.
  destruct b; cbn [table_of] in *.
  - destruct (kept_pop k l.*1 _ _ Hd Et) as [K1 K2].
    assert (k ∉ (put_tasks c0).*1) as Hkp.
    { unfold keys in Hkeys. rewrite Hp1 in Hkeys. apply NoDup_app in Hkeys as (_ & _ & Hkeys). apply NoDup_app in Hkeys as (_ & _ & Hkeys).
      cbn in Hkeys. apply NoDup_cons in Hkeys as [Hkeys _]. rewrite not_elem_of_app in Hkeys. tauto. }
    destruct (kept_absent k l.*1 _ Hkp) as [P1 P2].
    edestruct (IH (mkFinished (finished_sending f) (finished_recving f ∪ request_ids ts) n)) as (f' & c & Ef & [? ? ? ? Hgs Hps Hr Hs He]); [exact Hwf1|done| |].
    { intros x Hx. pose proof (Hsub x ltac:(by right)) as Hin. cbn. rewrite Hp1 in Hin. cbn in Hin.
      apply elem_of_cons in Hin as [->|Hin]; [done|exact Hin]. }
    exists f', c. split; [by rewrite M_bind_run, E|]. cbn in *. split; try done; cbn.
    + by rewrite K1.
    + by rewrite P1.
    + rewrite Hr, (request_ids_perm _ _ K2), request_ids_app. by rewrite assoc_L by apply _.
    + by rewrite P2.
    + rewrite He. rewrite load_errors_other by done. unfold load_errors. cbn. rewrite Et, list_to_set_app_L. cbn.
      rewrite failed_gets; [by rewrite assoc_L by apply _|]. destruct Hwf as [_ _ _ Hgets _ _]. rewrite Hp2 in Hgets. cbn in Hgets. by apply Forall_app in Hgets as [? _].
  - specialize (Hb eq_refl). destruct (kept_pop k l.*1 _ _ Hd Et) as [K1 K2]. destruct (kept_absent k l.*1 _ Hb) as [P1 P2].
    edestruct (IH (mkFinished (finished_sending f ∪ request_ids ts) (finished_recving f) n)) as (f' & c & Ef & [? ? ? ? Hgs Hps Hr Hs He]); [exact Hwf1|done| |].
    { intros x Hx. pose proof (Hsub x ltac:(by right)) as Hin. cbn. rewrite Hp1 in Hin. rewrite <- Permutation_middle in Hin.
      apply elem_of_cons in Hin as [->|Hin]; [done|exact Hin]. }
    exists f', c. split; [by rewrite M_bind_run, E|]. cbn in *. split; try done; cbn.
    + by rewrite P1.
    + by rewrite K1.
    + by rewrite P2.
    + rewrite Hs, (request_ids_perm _ _ K2), request_ids_app. by rewrite assoc_L by apply _.
    + rewrite He, failed_puts; [|destruct Hwf as [_ _ _ _ Hputs _]; rewrite Hp2 in Hputs; cbn in Hputs; by apply Forall_app in Hputs as [? _]].
      rewrite union_empty_r_L. unfold load_errors. cbn. rewrite (proj2 (dict_get_None _ _) Hb). cbn. by destruct (bool_decide _).
Qed.

(** What a query leaves when the manager answers [l]; an empty dictionary counts as no answer. *)
Record queried (l : list (Z * KVResponse)) c0 (a : gset string * gset string) c : Prop := {
  qu_wf : wf c;
  qu_cancel : tasks_to_cancel c = tasks_to_cancel c0;
  qu_launch : tasks_to_launch c = tasks_to_launch c0;
  qu_gets : get_tasks c = kept l.*1 (get_tasks c0);
  qu_puts : put_tasks c = kept l.*1 (put_tasks c0);
  qu_sending : a.1 = request_ids (answered l.*1 (put_tasks c0));
  qu_recving : a.2 = request_ids (answered l.*1 (get_tasks c0));
  qu_errors : failed_block_ids c = failed_block_ids c0 ∪ load_errors l (get_tasks c0);
}.

Definition asked c : list Z := (get_tasks c).*1 ++ (put_tasks c).*1.

Lemma query_run c0 l s :
  wf c0 → req_id_to_task_dict c0 ≠ ∅ → km_try_wait (asked c0) (flexkv_manager c0) = (Ok l, s) →
  ∃ a c, query_finished_task c0 = (Ok a, c) ∧ queried l c0 a c.
Proof.
  intros Hwf Hd E. pose proof (km_try_wait_asked (asked c0) _ _ (wf_pending _ Hwf)) as Ha. unfold answers in Ha. rewrite E in Ha.
  destruct Ha as (Hp & Hs & Hn & Hsub). unfold query_finished_task. rewrite M_bind_run. cbn [get_state].
  rewrite bool_decide_eq_false_2 by done. rewrite M_bind_run. unfold on_manager at 1. fold (asked c0). rewrite E.
  destruct (query_loop l (mkFinished ∅ ∅ 0) (with_manager s c0)) as (f' & c & El & [Hwf' Hm Hc Hl Hgs Hps Hr Hse He]);
    [by apply with_manager_wf|done|done|].
  rewrite M_bind_run, El. eexists _, _. split; [reflexivity|]. cbn in *. split; try done; cbn.
  - by apply with_stats_wf.
  - by rewrite Hse, union_empty_l_L.
  - by rewrite Hr, union_empty_l_L.
Qed.

Lemma nothing_owed c : wf c → req_id_to_task_dict c = ∅ → live c = [].
Proof.
  intros Hwf Hd. destruct (live c) as [|t l] eqn:El; [done|].
  pose proof (live_task_id c t Hwf ltac:(rewrite El; left)) as Ht. by rewrite Hd, lookup_empty in Ht.
Qed.

Lemma query_none c0 : wf c0 → req_id_to_task_dict c0 = ∅ → query_finished_task c0 = (Ok (∅, ∅), c0) ∧ queried [] c0 (∅, ∅) c0.
Proof.
  intros Hwf Hd. split.
  - unfold query_finished_task. rewrite M_bind_run. cbn [get_state]. by rewrite bool_decide_eq_true_2.
  - split; try done; cbn; rewrite ?kept_nil, ?answered_nil; try done. unfold load_errors. cbn. by rewrite union_empty_r_L.
Qed.

Lemma query_step c0 : wf c0 → triple faulted (λ c, c = c0) query_finished_task (λ a c, ∃ l, queried l c0 a c).
Proof.
  intros Hwf c ->. destruct (decide (req_id_to_task_dict c0 = ∅)) as [Hd|Hd].
  { destruct (query_none c0 Hwf Hd) as [-> ?]. eauto. }
  destruct (km_try_wait (asked c0) (flexkv_manager c0)) as [[l|x] s] eqn:E.
  { destruct (query_run c0 l s Hwf Hd E) as (a & c & -> & ?). eauto. }
  unfold query_finished_task. rewrite M_bind_run. cbn [get_state]. rewrite bool_decide_eq_false_2 by done.
  rewrite M_bind_run. unfold on_manager at 1. fold (asked c0). rewrite E. by eapply km_try_wait_fault.
Qed.

(** *** A blocking wait *)

Lemma table_with_table b f c : table_of b (with_table b f c) = f (table_of b c).
Proof. by destruct b. Qed.

Lemma wait_response_step b acc k resp c0 :
  wf c0 → k ∈ (table_of b c0).*1 →
  ∃ ts r, dict_get k (table_of b c0) = Some ts ∧
    wait_response b acc (k, resp) c0 = (Ok r, after_answer true ts (with_table b (dict_pop k) c0)).
Proof.
  intros Hwf [ts Et]%dict_key_get. destruct (table_good b c0 k ts Hwf Et) as (_ & rest & ks & Hg).
  exists ts. unfold wait_response. rewrite Et. eexists. split; [done|].
  rewrite M_bind_run. cbn [get_state]. rewrite Et. rewrite M_bind_run. cbn [lift_result]. rewrite M_bind_run. cbn [modify_state].
  assert (req_id_to_task_dict (with_table b (dict_pop k) c0) = req_id_to_task_dict c0) as Hd by by destruct b.
  rewrite <- Hd in Hg. unfold after_answer, failed_blocks.
  set (c1 := with_table b (dict_pop k) c0) in *.
  enough (∀ c acc, good (req_id_to_task_dict c) (ts ++ rest) ks (km_next (flexkv_manager c0)) →
    for_acc (λ l task, forget_request (rid task) ;; mret (l ++ [mkFlexKVResponse (ft_task_id task) (is_get_task task) (ft_request task) (bool_decide (kr_status resp = Success))])) acc ts c =
    (Ok (acc ++ ((λ task, mkFlexKVResponse (ft_task_id task) (is_get_task task) (ft_request task) (bool_decide (kr_status resp = Success))) <$> ts)),
     with_dict (forget_all ts) c)) as Hl.
  { rewrite Hl by done. f_equal. unfold with_failed_blocks. cbn. by rewrite union_empty_r_L. }
  clear. induction ts as [|t ts IH]; intros c acc Hg; cbn [for_acc fmap list_fmap]; [rewrite app_nil_r; by destruct c|].
  rewrite M_bind_run, M_bind_run, (forget_one _ _ _ _ _ Hg). cbn [mret M_ret]. rewrite IH by (by apply (good_drop _ t)).
  by rewrite <- app_assoc.
Qed.

(** What a wait for the table [b] leaves. *)
Record waited (b : Table) (l : list (Z * KVResponse)) c0 c : Prop := {
  wa_wf : wf c;
  wa_cancel : tasks_to_cancel c = tasks_to_cancel c0;
  wa_launch : tasks_to_launch c = tasks_to_launch c0;
  wa_table : table_of b c = kept l.*1 (table_of b c0);
  wa_other : ∀ b', b' ≠ b → table_of b' c = table_of b' c0;
  wa_errors : failed_block_ids c = failed_block_ids c0;
}.

Lemma wait_loop b l acc c0 :
  wf c0 → NoDup l.*1 → l.*1 ⊆ (table_of b c0).*1 →
  ∃ r c, for_acc (wait_response b) acc l c0 = (Ok r, c) ∧ waited b l c0 c.
Proof.
  revert acc c0. induction l as [|[k resp] l IH]; intros acc c0 Hwf Hn Hsub; cbn [for_acc].
  { exists acc, c0. split; [done|]. split; try done. csimpl. by rewrite kept_nil. }
  csimpl in Hn. csimpl in Hsub. apply NoDup_cons in Hn as [Hk Hn].
  destruct (wait_response_step b acc k resp c0 Hwf) as (ts & r & Et & E); [apply Hsub; left|].
  destruct (table_good b c0 k ts Hwf Et) as (Hd & _). pose proof (dict_pop_perm _ _ _ Et) as Hp.
  pose proof (fmap_Permutation fst _ _ Hp) as Hp1. cbn in Hp1.
  pose proof (after_answer_wf b true k ts c0 Hwf Et) as Hwf1.
  assert (∀ b', table_of b' (after_answer true ts (with_table b (dict_pop k) c0)) = table_of b' (with_table b (dict_pop k) c0)) as Ht by by intros [].
  edestruct (IH r _ Hwf1 Hn) as (r' & c & Ef & [Hwf' Hc Hl Hta Ho He]).
  { intros x Hx. pose proof (Hsub x ltac:(by right)) as Hin. rewrite Ht, table_with_table. rewrite Hp1 in Hin.
    apply elem_of_cons in Hin as [->|Hin]; [done|exact Hin]. }
  exists r', c. split; [by rewrite M_bind_run, E|]. split; try done.
  - rewrite Hc. by destruct b.
  - rewrite Hl. by destruct b.
  - csimpl. rewrite Hta, Ht, table_with_table. by rewrite (proj1 (kept_pop k l.*1 _ _ Hd Et)).
  - intros b' Hb'. rewrite Ho, Ht by done. by destruct b, b'.
  - rewrite He. cbn. rewrite union_empty_r_L. by destruct b.
Qed.

Lemma wait_step b c0 : wf c0 → triple faulted (λ c, c = c0) (_blocking_waiting_for_tasks b) (λ _ c, ∃ l, waited b l c0 c ∧ (table_of b c0).*1 ⊆ l.*1).
Proof.
  intros Hwf c ->. unfold _blocking_waiting_for_tasks. rewrite M_bind_run. cbn [get_state].
  destruct (_ =? _)%nat eqn:El.
  { exists []. apply Nat.eqb_eq, nil_length_inv in El. split; [|by rewrite El]. split; try done. csimpl. by rewrite kept_nil. }
  rewrite M_bind_run. unfold on_manager. pose proof (km_wait_asked (table_of b c0).*1 _ _ (wf_pending _ Hwf)) as Ha. unfold answers in Ha.
  destruct (km_wait _ _) as [[l|x] s] eqn:E; [|by eapply km_wait_fault]. destruct Ha as (Hp & Hs & Hn & Hsub & Hall).
  destruct (wait_loop b l [] (with_manager s c0)) as (r & c & -> & Hw); [by apply with_manager_wf|done|by destruct b|].
  exists l. split; [|done]. destruct Hw as [? ? ? Hta Ho ?]. by split.
Qed.

Lemma reset_step c0 : km_resets = true → wf c0 → triple faulted (λ c, c = c0) reset_cache (λ _ c, wf c ∧ live c = []).
Proof.
  intros Hr Hwf c ->. pose proof (km_reset_next _ _ Hr (wf_pending _ Hwf)) as Ha. unfold answers in Ha.
  unfold reset_cache. rewrite M_bind_run. unfold on_manager.
  destruct (km_reset _) as [[[]|x] s] eqn:E; [|by eapply km_reset_fault].
  cbn. split; [|done]. split; [split|..]; try constructor. exact (proj1 Ha).
Qed.

(** ** What vLLM does *)

Abbreviation Impl := (FlexKVConnectorV1Impl S).
Implicit Types i : Impl.

(** The requests whose blocks vLLM keeps for the connector. *)
Definition owed i : gset string := request_ids (owed_tasks (connector_of i)).

(** The calls of the scheduler.  It asks for a request without a task, in whole blocks; the number that it then
    allocates for is the number it was told, in the same step; it finishes a request between steps. *)
Inductive vllm_call i : ∀ {A}, M Impl A → Prop :=
  | call_get_num r n :
      req_id_to_task_dict (connector_of i) !! request_id r = None → n <= num_tokens r / bs * bs → n mod bs = 0 →
      vllm_call i (impl_get_num_new_matched_tokens cfg r n)
  | call_alloc r blocks n t computed :
      to_cancel (connector_of i) (request_id r) t → ft_kind t = FlexKVGetTask computed n → n ≠ 0 →
      vllm_call i (impl_update_state_after_alloc cfg r blocks n)
  | call_alloc_none r blocks : vllm_call i (impl_update_state_after_alloc cfg r blocks 0)
  | call_finished skip r blocks :
      (∀ t, ¬ to_cancel (connector_of i) (request_id r) t) → vllm_call i (impl_request_finished cfg skip r blocks)
  | call_build sync_get o : vllm_call i (build_connector_meta cfg sync_get o)
  | call_output : vllm_call i update_connector_output
  | call_errors : vllm_call i get_block_ids_with_load_errors
  | call_reset : km_resets = true → vllm_call i impl_reset_cache.

Definition wf_impl i : Prop := wf (connector_of i).
Definition faulted_impl i : Prop := faulted (connector_of i).

Lemma in_connector_triple {A} (op : M Conn A) i0 (Q : A → Conn → Prop) :
  triple faulted (λ c, c = connector_of i0) op Q →
  triple faulted_impl (λ i, i = i0) (in_connector op) (λ a i, Q a (connector_of i) ∧ previous_scheduled_req_ids i = previous_scheduled_req_ids i0).
Proof.
  intros Ho i ->. unfold in_connector. specialize (Ho (connector_of i0) eq_refl). by destruct (op (connector_of i0)) as [[a|x] c].
Qed.

(** The requests that a step of the scheduler says, or implies, it preempted. *)
Definition preempted_of (o : SchedulerOutput) i : gset string :=
  match preempted_req_ids o with
  | Some l => l
  | None => previous_scheduled_req_ids i ∖ current_req_ids o ∖ finished_req_ids o
  end.

Lemma find_preempted_run o i :
  ∃ i', find_preempted o i = (Ok (preempted_of o i), i') ∧ connector_of i' = connector_of i.
Proof. unfold find_preempted, preempted_of. destruct (preempted_req_ids o); by eexists. Qed.

Lemma owed_subset c c' : (∀ t, t ∈ owed_tasks c → t ∈ owed_tasks c') → request_ids (owed_tasks c) ⊆ request_ids (owed_tasks c').
Proof.
  intros Hs r. unfold request_ids. rewrite !elem_of_list_to_set, !list_elem_of_fmap. naive_solver.
Qed.

Lemma waited_owed b l c0 c : waited b l c0 c → owed_tasks c0 ≡ₚ answered l.*1 (table_of b c0) ++ owed_tasks c.
Proof.
  intros [_ _ El Et Eo _]. unfold owed_tasks. rewrite El. pose proof (answered_kept l.*1 (table_of b c0)) as Hp.
  destruct b; cbn in *.
  - rewrite Et, Hp. specialize (Eo PutTable ltac:(done)). cbn in Eo. rewrite Eo. solve_Permutation.
  - rewrite Et, Hp. specialize (Eo GetTable ltac:(done)). cbn in Eo. rewrite Eo. solve_Permutation.
Qed.

(** A step of the scheduler: the tasks of preempted requests that were not launched are cancelled, and so are those
    that nobody took up; the others are launched.  A synchronous step then waits for the reads. *)
Lemma build_step sync_get o i0 :
  wf_impl i0 → triple faulted_impl (λ i, i = i0) (build_connector_meta cfg sync_get o)
    (λ _ i, wf_impl i ∧ tasks_to_cancel (connector_of i) = [] ∧ tasks_to_launch (connector_of i) = [] ∧
       ∃ c1, owed_tasks c1 ⊆ owed_tasks (connector_of i0) ∧
         (∀ t, t ∈ owed_tasks (connector_of i0) → t ∈ owed_tasks c1 ∨ rid t ∈ preempted_of o i0) ∧ wf c1 ∧
         (∀ t, t ∈ (tasks_to_launch c1).*2 → False) ∧
         if sync_get then ∃ l, waited GetTable l c1 (connector_of i) ∧ (get_tasks c1).*1 ⊆ l.*1 else connector_of i = c1).
Proof.
  intros Hwf. unfold build_connector_meta.
  eapply (triple_bind _ _ _ _ (λ p i, p = preempted_of o i0 ∧ connector_of i = connector_of i0)).
  { intros i ->. destruct (find_preempted_run o i0) as (i' & -> & ?). done. }
  intros p. apply triple_state. intros i1 [-> E1].
  eapply (triple_bind _ _ _ _ (λ _ i, wf_impl i ∧ owed_tasks (connector_of i) ⊆ owed_tasks (connector_of i0) ∧
    ∀ t, t ∈ owed_tasks (connector_of i0) → t ∈ owed_tasks (connector_of i) ∨ rid t ∈ preempted_of o i0)).
  { intros i ->. unfold in_connector, handle_preemptions. rewrite E1.
    destruct (preemptions_step (connector_of i0) (elements (preempted_of o i0)) Hwf) as (c & -> & Hwf' & _ & Ho & Hr).
    split_and!; [done|done|]. intros t [?|?%elem_of_elements]%Hr; [by left|by right]. }
  intros []. apply triple_state. intros i2 (Hwf2 & Ho2 & Hr2).
  eapply (triple_bind _ _ _ _ (λ _ i, wf_impl i ∧ tasks_to_cancel (connector_of i) = [] ∧ owed_tasks (connector_of i) = owed_tasks (connector_of i2))).
  { eapply triple_weaken; [apply in_connector_triple; apply cancel_tasks_step; exact Hwf2|done|]. by intros [] i ((? & ? & ? & _) & _). }
  intros []. apply triple_state. intros i3 (Hwf3 & Hc3 & Eo3).
  eapply (triple_bind _ _ _ _ (λ _ i, wf_impl i ∧ tasks_to_cancel (connector_of i) = [] ∧ tasks_to_launch (connector_of i) = [] ∧
    owed_tasks (connector_of i) ≡ₚ owed_tasks (connector_of i2))).
  { eapply triple_weaken; [apply in_connector_triple; apply launch_tasks_step; exact Hwf3|done|].
    intros [] i ((? & ? & Ec & Eo) & _). rewrite Eo3 in Eo. rewrite Hc3 in Ec. done. }
  intros []. apply triple_state. intros i4 (Hwf4 & Hc4 & Hl4 & Eo4).
  assert (owed_tasks (connector_of i4) ⊆ owed_tasks (connector_of i0)) as Hsub by (intros t Ht; rewrite Eo4 in Ht; by apply Ho2).
  assert (∀ t, t ∈ owed_tasks (connector_of i0) → t ∈ owed_tasks (connector_of i4) ∨ rid t ∈ preempted_of o i0) as Hkeep
    by (intros t Ht; rewrite Eo4; by apply Hr2).
  destruct sync_get; cbn [when].
  - eapply triple_bind; [apply in_connector_triple; apply (wait_step GetTable); exact Hwf4|]. intros r. apply triple_ret.
    intros i ((l & Hw & Hall) & _). split_and!; [apply Hw|by rewrite (wa_cancel _ _ _ _ Hw)|by rewrite (wa_launch _ _ _ _ Hw)|].
    exists (connector_of i4). split_and!; [done|done|done|by rewrite Hl4; intros t ?%elem_of_nil|]. by exists l.
  - apply triple_ret. intros i ->. split_and!; [done|done|done|]. exists (connector_of i4).
    split_and!; [done|done|done|by rewrite Hl4; intros t ?%elem_of_nil|done].
Qed.

(** Every call keeps the tables, and raises only what the manager raised. *)
Lemma call_keeps_wf i A (op : M Impl A) :
  vllm_call i op → wf_impl i → match op i with (Ok _, i') => wf_impl i' | (Raise _, i') => faulted_impl i' end.
Proof.
  intros Hcall Hwf.
  assert (∀ B (o : M Impl B) (Q : B → Impl → Prop), triple faulted_impl (λ j, j = i) o Q → (∀ b j, Q b j → wf_impl j) →
    match o i with (Ok _, j) => wf_impl j | (Raise _, j) => faulted_impl j end) as Ht.
  { intros B o Q Ho HQ. specialize (Ho i eq_refl). destruct (o i) as [[b|x] j]; [by eapply HQ|done]. }
  destruct Hcall as [r n Hn Hle Hmod|r blocks n t computed Ht' Hk Hn|r blocks|skip r blocks Hc|sync o| | |Hres].
  - eapply Ht; [apply in_connector_triple; by apply get_num_step|]. by intros a j ((? & _) & _).
  - unfold impl_update_state_after_alloc, in_connector.
    destruct (update_state_step (connector_of i) r t blocks computed n n Hwf Ht' Hk Hn) as (-> & ? & _). done.
  - done.
  - eapply Ht; [apply in_connector_triple; by apply request_finished_step|]. by intros a j ((? & _) & _).
  - eapply Ht; [by apply build_step|]. by intros a j (? & _).
  - eapply Ht; [apply in_connector_triple; by apply query_step|]. intros a j ((l & Hq) & _). apply Hq.
  - unfold get_block_ids_with_load_errors, in_connector. cbn. by destruct Hwf; split.
  - eapply Ht; [apply in_connector_triple; by apply reset_step|]. by intros a j ((? & _) & _).
Qed.

Inductive reachable : Impl → Prop :=
  | reach_new s : km_pending [] s → reachable (new_impl cfg s)
  | reach_call i A (op : M Impl A) a i' : reachable i → vllm_call i op → op i = (Ok a, i') → reachable i'.

Lemma reachable_wf i : reachable i → wf_impl i.
Proof.
  induction 1 as [s Hs|i A op a i' _ IH Hc E]; [by apply new_connector_wf|].
  pose proof (call_keeps_wf i A op Hc IH) as Hk. by rewrite E in Hk.
Qed.

(** [C8] The tables of the connector in every state that vLLM can lead to: a request has a task in
    [req_id_to_task_dict] exactly when that task is in one of the four tables, no request has two tasks and no key
    occurs twice, a task that waits for its launch or its cancellation is under its own id, and reads and writes are
    in their own tables.  And whatever vLLM does next, the connector raises nothing of its own, no [KeyError] and no
    failed assertion: an exception is one that the manager raised. *)
Theorem connector_tables i :
  reachable i →
  let c := connector_of i in
  let tasks := (tasks_to_cancel c).*2 ++ (tasks_to_launch c).*2 ++ concat (get_tasks c).*2 ++ concat (put_tasks c).*2 in
  (∀ r id, req_id_to_task_dict c !! r = Some id ↔ ∃ t, t ∈ tasks ∧ rid t = r ∧ ft_task_id t = id) ∧
  NoDup ((λ t, rid t) <$> tasks) ∧
  NoDup ((tasks_to_cancel c).*1 ++ (tasks_to_launch c).*1 ++ (get_tasks c).*1 ++ (put_tasks c).*1) ∧
  (∀ k t, (k, t) ∈ tasks_to_cancel c ++ tasks_to_launch c → k = ft_task_id t) ∧
  (∀ t, t ∈ concat (get_tasks c).*2 → is_get_task t = true) ∧ (∀ t, t ∈ concat (put_tasks c).*2 → is_get_task t = false) ∧
  ∀ A (op : M Impl A), vllm_call i op → match op i with (Ok _, _) => True | (Raise _, i') => faulted_impl i' end.
Proof.
  intros Hr c tasks. pose proof (reachable_wf i Hr) as Hwf. split_and!.
  - intros r id. exact (good_lookup _ _ _ _ r id (wf_good _ Hwf)).
  - pose proof (good_requests _ _ _ _ (wf_good _ Hwf)) as Hn. by rewrite <- list_fmap_compose in Hn.
  - exact (good_keys _ _ _ _ (wf_good _ Hwf)).
  - intros k t [Hin|Hin]%elem_of_app.
    + exact (proj1 (Forall_forall _ _) (wf_cancel _ Hwf) _ Hin).
    + exact (proj1 (proj1 (Forall_forall _ _) (wf_launch _ Hwf) _ Hin)).
  - exact (proj1 (Forall_forall _ _) (wf_gets _ Hwf)).
  - exact (proj1 (Forall_forall _ _) (wf_puts _ Hwf)).
  - intros A op Hc. pose proof (call_keeps_wf i A op Hc Hwf) as Hk. by destruct (op i) as [[a|x] i'].
Qed.

(** *** What vLLM waits for *)

Lemma queried_owed l c0 a c :
  queried l c0 a c → owed_tasks c0 ≡ₚ (answered l.*1 (get_tasks c0) ++ answered l.*1 (put_tasks c0)) ++ owed_tasks c.
Proof.
  intros [_ _ El Eg Ep _ _ _]. unfold owed_tasks. rewrite El, Eg, Ep, (answered_kept l.*1 (get_tasks c0)) at 1.
  rewrite (answered_kept l.*1 (put_tasks c0)) at 1. solve_Permutation.
Qed.

Lemma owed_nodup c : wf c → NoDup ((λ t, rid t) <$> owed_tasks c).
Proof.
  intros Hwf. pose proof (good_requests _ _ _ _ (wf_good _ Hwf)) as Hn. rewrite <- list_fmap_compose in Hn.
  unfold live in Hn. rewrite fmap_app in Hn. by apply NoDup_app in Hn as (_ & _ & ?).
Qed.

Lemma request_ids_disjoint ts ts' : NoDup ((λ t, rid t) <$> ts ++ ts') → request_ids ts ## request_ids ts'.
Proof.
  rewrite fmap_app, NoDup_app. intros (_ & Hn & _) r. unfold request_ids. rewrite !elem_of_list_to_set. apply Hn.
Qed.

(** The state of a run: the requests that vLLM waits for, by what it was told, and the connector.  It waits for a
    request from the moment it allocates blocks for a read, or gets the answer that a finished request's blocks are
    still in use, until the request is reported.  It preempts none of them, and reads are not synchronous. *)
Inductive vllm_run : gset string * Impl → gset string * Impl → Prop :=
  | run_get_num w i r n a i' :
      req_id_to_task_dict (connector_of i) !! request_id r = None → n <= num_tokens r / bs * bs → n mod bs = 0 →
      impl_get_num_new_matched_tokens cfg r n i = (Ok a, i') → vllm_run (w, i) (w, i')
  | run_alloc w i r blocks n t computed i' :
      to_cancel (connector_of i) (request_id r) t → ft_kind t = FlexKVGetTask computed n → n ≠ 0 →
      impl_update_state_after_alloc cfg r blocks n i = (Ok tt, i') → vllm_run (w, i) ({[request_id r]} ∪ w, i')
  | run_finished w i skip r blocks b i' :
      (∀ t, ¬ to_cancel (connector_of i) (request_id r) t) → impl_request_finished cfg skip r blocks i = (Ok b, i') →
      vllm_run (w, i) (if b then {[request_id r]} ∪ w else w, i')
  | run_build w i o i' :
      preempted_of o i ## w → build_connector_meta cfg false o i = (Ok tt, i') → vllm_run (w, i) (w, i')
  | run_output w i sent received i' :
      update_connector_output i = (Ok (sent, received), i') → vllm_run (w, i) (w ∖ (sent ∪ received), i')
  | run_errors w i blocks i' : get_block_ids_with_load_errors i = (Ok blocks, i') → vllm_run (w, i) (w, i').

Lemma impl_run {A} (op : M Conn A) (Q : A → Conn → Prop) i a i' :
  triple faulted (λ c, c = connector_of i) op Q → in_connector op i = (Ok a, i') → Q a (connector_of i').
Proof.
  intros Ho E. unfold in_connector in E. specialize (Ho _ eq_refl). destruct (op (connector_of i)) as [[b|x] c]; by simplify_eq.
Qed.

Lemma owed_cons c c' t : owed_tasks c ≡ₚ t :: owed_tasks c' → request_ids (owed_tasks c) = {[rid t]} ∪ request_ids (owed_tasks c').
Proof. intros E. by rewrite (request_ids_perm _ _ E). Qed.

Lemma to_cancel_elem c t : wf c → t ∈ (tasks_to_cancel c).*2 → to_cancel c (rid t) t.
Proof.
  intros [Hg Hc _ _ _ _] ([k u] & -> & Hin)%list_elem_of_fmap. split; [|done]. cbn.
  pose proof (proj1 (Forall_forall _ _) Hc _ Hin) as E. cbn in E. subst k. apply dict_elem_get; [|done].
  unfold dict_wf. pose proof (good_keys _ _ _ _ Hg) as Hk. unfold keys in Hk. by apply NoDup_app in Hk as (? & _).
Qed.

Lemma report_difference (g p o : gset string) : g ∪ p ## o → o = (g ∪ p ∪ o) ∖ (p ∪ g).
Proof. set_solver. Qed.

Lemma report_subset (g p o : gset string) : p ∪ g ⊆ g ∪ p ∪ o.
Proof. set_solver. Qed.

Lemma run_keeps w i w' i' : vllm_run (w, i) (w', i') → wf_impl i → owed i = w → wf_impl i' ∧ owed i' = w'.
Proof.
  intros Hrun Hwf Ho. inversion Hrun as [? ? r n a ? Hn Hle Hmod E|? ? r blocks n t computed ? Ht Hk Hn E|? ? skip r blocks b ? Hc E|? ? o ? Hp E|? ? sent received ? E|? ? blocks ? E]; subst; unfold wf_impl, owed in *.
  - destruct (impl_run _ _ _ _ _ (get_num_step _ r n Hwf Hn Hle Hmod) E) as (? & Ho & _). by rewrite Ho.
  - unfold impl_update_state_after_alloc, in_connector in E.
    destruct (update_state_step (connector_of i) r t blocks computed n n Hwf Ht Hk Hn) as (Eu & Hwf' & Ho). rewrite Eu in E.
    simplify_eq. split; [done|]. cbn [connector_of]. rewrite (owed_cons _ _ _ Ho). by rewrite <- (proj2 Ht).
  - destruct (impl_run _ _ _ _ _ (request_finished_step _ skip r blocks Hwf) E) as (Hwf' & Hb). split; [done|]. destruct b.
    + destruct Hb as [[[id Ed] ->]|(t & bl & Er & _ & _ & _ & _ & Ho)].
      * apply (good_lookup _ _ _ _ _ _ (wf_good _ Hwf)) in Ed as (t & Hin & Er & _). unfold live in Hin.
        apply elem_of_app in Hin as [Hin|Hin]; [destruct (Hc t); rewrite <- Er; by apply to_cancel_elem|].
        symmetry. apply subseteq_union_1_L. apply singleton_subseteq_l. unfold request_ids.
        apply elem_of_list_to_set, list_elem_of_fmap. by exists t.
      * by rewrite (owed_cons _ _ _ Ho), Er.
    + by destruct Hb as [-> _].
  - assert (∀ a j, build_connector_meta cfg false o i = (Ok a, j) → wf_impl j ∧ owed j = owed i) as Hb.
    { intros a j Ej. pose proof (build_step false o i Hwf i eq_refl) as H. rewrite Ej in H.
      destruct H as (Hwf' & _ & _ & c1 & Hs & Hk & _ & _ & E1). split; [done|]. unfold owed. rewrite E1. apply set_eq. intros r. split.
      - by apply owed_subset.
      - unfold request_ids. rewrite !elem_of_list_to_set, !list_elem_of_fmap. intros (t & -> & Hin). exists t. split; [done|].
        destruct (Hk t Hin) as [?|Hpre]; [done|]. exfalso. apply (Hp (rid t) Hpre). unfold request_ids.
        apply elem_of_list_to_set, list_elem_of_fmap. by exists t. }
    by apply (Hb () i').
  - destruct (impl_run _ _ _ _ _ (query_step _ Hwf) E) as (l & Hq). split; [apply Hq|]. pose proof (queried_owed _ _ _ _ Hq) as Hp.
    pose proof (owed_nodup _ Hwf) as Hn. rewrite Hp in Hn. apply request_ids_disjoint in Hn.
    rewrite (request_ids_perm _ _ Hp), !request_ids_app. rewrite request_ids_app in Hn.
    pose proof (qu_sending _ _ _ _ Hq) as Es. pose proof (qu_recving _ _ _ _ Hq) as Er. cbn in Es, Er. rewrite Es, Er. by apply report_difference.
  - cbv [get_block_ids_with_load_errors in_connector get_and_clear_failed_block_ids get_state modify_state mbind M_bind mret M_ret] in E. simplify_eq. split; [by apply (with_failed_wf (λ _, ∅))|done].
Qed.

(** [C9] The promises of the connector are kept, each once: over any run, from a manager that owes the
    connector nothing, the requests whose blocks the connector still uses, because their tasks wait to be launched or have been, are exactly those that vLLM waits for; what an
    output reports are only such requests, none of them as sent and received at once, and it ends the wait for
    them.  So no request is reported that vLLM does not wait for, or twice, and none is forgotten while vLLM waits. *)
Theorem promises_kept s w i :
  km_pending [] s → rtc vllm_run (∅, new_impl cfg s) (w, i) →
  owed i = w ∧
  ∀ sent received i', update_connector_output i = (Ok (sent, received), i') →
    sent ∪ received ⊆ w ∧ sent ## received ∧ owed i' = w ∖ (sent ∪ received).
Proof.
  intros Hs Hrun. assert (wf_impl i ∧ owed i = w) as [Hwf Ho].
  { refine (rtc_ind_r (λ x, wf_impl x.2 ∧ owed x.2 = x.1) _ _ _ _ Hrun); [split; [by apply new_connector_wf|done]|].
    intros [w1 i1] [w2 i2] _ Hstep [Hwf Ho]. by eapply run_keeps. }
  split; [done|]. intros sent received i' E. destruct (run_keeps w i _ i' (run_output w i sent received i' E) Hwf Ho) as [_ Ho'].
  destruct (impl_run _ _ _ _ _ (query_step _ Hwf) E) as (l & Hq). pose proof (queried_owed _ _ _ _ Hq) as Hp.
  pose proof (owed_nodup _ Hwf) as Hn. rewrite Hp, fmap_app in Hn. apply NoDup_app in Hn as (Hn & _ & _). apply request_ids_disjoint in Hn.
  pose proof (qu_sending _ _ _ _ Hq) as Es. pose proof (qu_recving _ _ _ _ Hq) as Er. cbn in Es, Er. subst. split_and!; [|done|done].
  unfold owed. rewrite (request_ids_perm _ _ Hp), !request_ids_app. by apply report_subset.
Qed.

Lemma elem_of_concat {A} (x : A) ls : x ∈ concat ls ↔ ∃ l, l ∈ ls ∧ x ∈ l.
Proof.
  induction ls as [|l ls IH]; cbn.
  - split; [by intros ?%elem_of_nil|by intros (l & ?%elem_of_nil & _)].
  - rewrite elem_of_app, IH. split.
    + intros [?|(l' & ? & ?)]; [exists l; split; [left|done]|exists l'; split; [by right|done]].
    + intros (l' & [->|?]%elem_of_cons & ?); [by left|right; eauto].
Qed.

Lemma answered_elem (d : list (Z * list FlexKVTask)) ks t : t ∈ answered ks d ↔ ∃ k ts, (k, ts) ∈ d ∧ k ∈ ks ∧ t ∈ ts.
Proof.
  unfold answered. rewrite elem_of_concat. split.
  - intros (ts & ([k ts'] & -> & [Hk Hin]%list_elem_of_filter)%list_elem_of_fmap & Ht). eauto.
  - intros (k & ts & Hin & Hk & Ht). exists ts. split; [|done]. apply list_elem_of_fmap. exists (k, ts). split; [done|]. by apply list_elem_of_filter.
Qed.

Lemma request_ids_elem ts r : r ∈ request_ids ts ↔ ∃ t, t ∈ ts ∧ rid t = r.
Proof. unfold request_ids. rewrite elem_of_list_to_set, list_elem_of_fmap. naive_solver. Qed.

Lemma queried_dict l c0 a c :
  wf c0 → queried l c0 a c → ∀ r, req_id_to_task_dict c !! r = if decide (r ∈ a.1 ∪ a.2) then None else req_id_to_task_dict c0 !! r.
Proof.
  intros Hwf Hq r. pose proof (queried_owed _ _ _ _ Hq) as Hp. pose proof (qu_wf _ _ _ _ Hq) as Hwf'.
  set (out := answered l.*1 (get_tasks c0) ++ answered l.*1 (put_tasks c0)) in *.
  assert (live c0 ≡ₚ out ++ live c) as El by (unfold live; rewrite Hp, (qu_cancel _ _ _ _ Hq); solve_Permutation).
  assert (a.1 ∪ a.2 = request_ids out) as Ea.
  { unfold out. rewrite request_ids_app, (qu_sending _ _ _ _ Hq), (qu_recving _ _ _ _ Hq). apply union_comm_L. }
  rewrite Ea. case_decide as Hr.
  - apply (good_absent _ _ _ _ _ (wf_good _ Hwf')). intros t Ht <-.
    pose proof (good_requests _ _ _ _ (wf_good _ Hwf)) as Hn. rewrite <- list_fmap_compose, El, fmap_app in Hn.
    apply NoDup_app in Hn as (_ & Hn & _). apply request_ids_elem in Hr as (u & Hu & Eu). apply (Hn (rid t)).
    + rewrite <- Eu. apply list_elem_of_fmap. by exists u.
    + apply list_elem_of_fmap. by exists t.
  - apply option_eq. intros id. rewrite (good_lookup _ _ _ _ _ _ (wf_good _ Hwf')), (good_lookup _ _ _ _ _ _ (wf_good _ Hwf)).
    apply exist_proper. intros t. rewrite El, elem_of_app. split; [tauto|]. intros ([Ht|Ht] & <- & Eid); [|done].
    destruct Hr. apply request_ids_elem. eauto.
Qed.

Lemma load_errors_elem l d b :
  dict_wf d → b ∈ load_errors l d ↔ ∃ k resp ts t, (k, resp) ∈ l ∧ kr_status resp ≠ Success ∧ (k, ts) ∈ d ∧ t ∈ ts ∧ b ∈ ft_block_ids t.
Proof.
  intros Hd. unfold load_errors. rewrite elem_of_list_to_set, list_elem_of_bind. split.
  - intros ([k resp] & Hb & Hin). cbn in Hb. case_bool_decide as Hs; [by apply elem_of_nil in Hb|].
    destruct (dict_get k d) as [ts|] eqn:Et; cbn in Hb; [|by apply elem_of_nil in Hb].
    apply list_elem_of_bind in Hb as (t & Hb & Ht). exists k, resp, ts, t. split_and!; try done. by apply dict_get_Some_elem.
  - intros (k & resp & ts & t & Hin & Hs & Ht & Htt & Hb). exists (k, resp). split; [|done]. cbn.
    rewrite bool_decide_eq_false_2 by done. rewrite (dict_elem_get _ _ _ Hd Ht). cbn. apply list_elem_of_bind. eauto.
Qed.

(** [C14] What an output says, whatever the manager answers.  The received requests are those of the reads, the sent
    ones those of the writes, whose tasks or batches are answered; exactly they leave the dictionary, and their
    entries the tables; and the blocks whose load failed are exactly the GPU blocks of the reads under a key that was
    answered with anything but a success.  When every launched task is answered, and none waits to be launched or
    cancelled, every request there was is reported, and the connector is empty. *)
Theorem output_spec i l s :
  reachable i → let c := connector_of i in
  req_id_to_task_dict c ≠ ∅ → km_try_wait ((get_tasks c).*1 ++ (put_tasks c).*1) (flexkv_manager c) = (Ok l, s) →
  ∃ sent received i', update_connector_output i = (Ok (sent, received), i') ∧ let c' := connector_of i' in
    (∀ r, r ∈ received ↔ ∃ k ts t, (k, ts) ∈ get_tasks c ∧ k ∈ l.*1 ∧ t ∈ ts ∧ rid t = r) ∧
    (∀ r, r ∈ sent ↔ ∃ k ts t, (k, ts) ∈ put_tasks c ∧ k ∈ l.*1 ∧ t ∈ ts ∧ rid t = r) ∧
    (∀ r, req_id_to_task_dict c' !! r = if decide (r ∈ sent ∪ received) then None else req_id_to_task_dict c !! r) ∧
    get_tasks c' = filter (λ e, e.1 ∉ l.*1) (get_tasks c) ∧ put_tasks c' = filter (λ e, e.1 ∉ l.*1) (put_tasks c) ∧
    (∀ b, b ∈ failed_block_ids c' ↔ b ∈ failed_block_ids c ∨
       ∃ k resp ts t, (k, resp) ∈ l ∧ kr_status resp ≠ Success ∧ (k, ts) ∈ get_tasks c ∧ t ∈ ts ∧ b ∈ ft_block_ids t) ∧
    (tasks_to_cancel c = [] → tasks_to_launch c = [] → (get_tasks c).*1 ++ (put_tasks c).*1 ⊆ l.*1 →
       sent ∪ received = dom (req_id_to_task_dict c) ∧ req_id_to_task_dict c' = ∅ ∧ get_tasks c' = [] ∧ put_tasks c' = []).
Proof.
  intros Hr c Hd E. pose proof (reachable_wf i Hr) as Hwf. destruct (query_run c l s Hwf Hd E) as ([sent received] & c' & Eq & Hq).
  exists sent, received, (mkImpl c' (previous_scheduled_req_ids i)). split.
  { unfold update_connector_output, in_connector. by rewrite (Eq : query_finished_task (connector_of i) = _). }
  pose proof (queried_dict _ _ _ _ Hwf Hq) as Hdict. pose proof (qu_sending _ _ _ _ Hq) as Es. pose proof (qu_recving _ _ _ _ Hq) as Er.
  cbn [fst snd connector_of] in *. pose proof (good_keys _ _ _ _ (wf_good _ Hwf)) as Hk. unfold keys in Hk.
  apply NoDup_app in Hk as (_ & _ & Hk). apply NoDup_app in Hk as (_ & _ & Hk). apply NoDup_app in Hk as (Hk & _ & _).
  split_and!.
  - intros r. rewrite Er, request_ids_elem. setoid_rewrite answered_elem. naive_solver.
  - intros r. rewrite Es, request_ids_elem. setoid_rewrite answered_elem. naive_solver.
  - done.
  - exact (qu_gets _ _ _ _ Hq).
  - exact (qu_puts _ _ _ _ Hq).
  - intros b. rewrite (qu_errors _ _ _ _ Hq), elem_of_union. apply or_iff_compat_l, load_errors_elem. exact Hk.
  - intros Hc Hl Hall.
    assert (∀ d : list (Z * list FlexKVTask), d.*1 ⊆ l.*1 → kept l.*1 d = []) as Hkept.
    { intros d Hsub. unfold kept. destruct (filter _ d) as [|e d'] eqn:Ef; [done|]. exfalso.
      assert (e ∈ filter (λ e : Z * list FlexKVTask, e.1 ∉ l.*1) d) as Hin by (rewrite Ef; left).
      apply list_elem_of_filter in Hin as [Hn Hin]. apply Hn, Hsub. apply list_elem_of_fmap. by exists e. }
    assert (get_tasks c' = [] ∧ put_tasks c' = []) as [Eg Ep].
    { rewrite (qu_gets _ _ _ _ Hq), (qu_puts _ _ _ _ Hq). split; apply Hkept; intros k Hin; apply Hall, elem_of_app; auto. }
    assert (req_id_to_task_dict c' = ∅) as Ed.
    { apply map_eq. intros r. rewrite lookup_empty. apply (good_absent _ _ _ _ _ (wf_good _ (qu_wf _ _ _ _ Hq))).
      unfold live, owed_tasks. rewrite (qu_cancel _ _ _ _ Hq), (qu_launch _ _ _ _ Hq), Hc, Hl, Eg, Ep. by intros t ?%elem_of_nil. }
    split_and!; try done. apply set_eq. intros r. rewrite elem_of_dom. specialize (Hdict r). rewrite Ed, lookup_empty in Hdict.
    case_decide as Hin.
    + split; [intros _|done]. rewrite Es, Er, <- request_ids_app in Hin. apply request_ids_elem in Hin as (t & Ht & <-).
      exists (ft_task_id t). apply live_task_id; [done|]. unfold live. apply elem_of_app. right. rewrite (queried_owed _ _ _ _ Hq).
      apply elem_of_app. left. apply elem_of_app. apply elem_of_app in Ht. tauto.
    + split; [done|]. intros [x Hx]. fold c in Hdict. rewrite Hx in Hdict. done.
Qed.

(** *** Slots *)

Lemma block_slots_ids blocks :
  (0 < block_size cfg)%nat →
  slot_mapping_to_block_ids (block_slots (block_size cfg) blocks) (block_size cfg) = blocks ∧
  zlen (block_slots (block_size cfg) blocks) = zlen blocks * bs.
Proof.
  intros Hb.
  assert (block_slots (block_size cfg) blocks = blocks ≫= λ b, replicate (block_size cfg) (b * bs)) as ->.
  { unfold block_slots. induction blocks as [|b blocks IH]; [done|]. csimpl. by rewrite fmap_app, IH, fmap_replicate. }
  split.
  - unfold slot_mapping_to_block_ids. rewrite (Requests.stride_chunks _ _ (λ b, b * bs)) by
      (first [done|intros b; rewrite length_replicate; split; [done|by apply lookup_replicate_2]]).
    rewrite <- list_fmap_compose. rewrite <- (list_fmap_id blocks) at 2. apply list_fmap_ext. intros k b _. cbn. apply Z.div_mul. lia.
  - unfold zlen. rewrite (Requests.chunks_length (block_size cfg)) by (intros b; apply length_replicate). lia.
Qed.

(** The task of request [r] in the launch table moves the GPU blocks [blocks]: its slots are one per token of them,
    and the manager translates them back to these blocks. *)
Definition will_move i (r : string) (t : FlexKVTask) (blocks : list Z) : Prop :=
  dict_get (ft_task_id t) (tasks_to_launch (connector_of i)) = Some t ∧ rid t = r ∧
  ∃ slots, ft_slot_mapping t = Some slots ∧ slot_mapping_to_block_ids slots (block_size cfg) = blocks ∧ zlen slots = zlen blocks * bs.

(** [C32] From the answer to the slots.  When vLLM allocates blocks for [n] matched tokens after [computed] computed
    ones, the read moves exactly the request's blocks [computed / bs, (computed + n) / bs) of the allocation, and
    remembers them in case it fails.  When a finished request without a task is answered with true, a write moves
    its blocks from the matched ones on, exactly as many as the manager found unmatched.  In both cases the slot
    mapping, which the manager gets one slot per token, is translated back to these very blocks. *)
Theorem slots_are_blocks i r :
  reachable i → (0 < block_size cfg)%nat →
  (∀ blocks n t computed,
     to_cancel (connector_of i) (request_id r) t → ft_kind t = FlexKVGetTask computed n → n ≠ 0 →
     ∃ i' t', impl_update_state_after_alloc cfg r blocks n i = (Ok tt, i') ∧ ft_task_id t' = ft_task_id t ∧ ft_kind t' = ft_kind t ∧
       let moved := (blocks.[computed / bs : computed / bs + n / bs])%py in
       will_move i' (request_id r) t' moved ∧ ft_block_ids t' = moved) ∧
  (∀ skip blocks i',
     req_id_to_task_dict (connector_of i) !! request_id r = None → impl_request_finished cfg skip r blocks i = (Ok true, i') →
     ∃ t matched unmatched, ft_kind t = FlexKVPutTask matched unmatched ∧
       let moved := (blocks.[matched / bs : matched / bs + unmatched / bs])%py in
       will_move i' (request_id r) t moved ∧ zlen moved = unmatched / bs).
Proof.
  intros Hr Hb. pose proof (reachable_wf i Hr) as Hwf. split.
  - intros blocks n t computed Ht Hk Hn. destruct (update_state_step (connector_of i) r t blocks computed n n Hwf Ht Hk Hn) as (E & _ & _).
    set (t' := load_task t (load_blocks blocks computed n)) in *. eexists _, t'. split_and!.
    + unfold impl_update_state_after_alloc, in_connector. by rewrite E.
    + done.
    + done.
    + split; [|done]. split; [apply dict_get_set_eq|split; [exact (proj2 Ht)|]]. eexists. split; [reflexivity|]. by apply block_slots_ids.
  - intros skip blocks i' Hd E. destruct (impl_run _ _ _ _ _ (request_finished_step _ skip r blocks Hwf) E) as (_ & Hpost).
    destruct Hpost as [[[id Ed] _]|(t & bl & Er & (m & u & Hk & Ebl & Elen) & Et & Es & _)]; [by rewrite Ed in Hd|].
    exists t, m, u. cbn zeta. rewrite <- Ebl. split_and!; [done|split; [done|split; [done|]]|done]. eexists. split; [exact Es|]. by apply block_slots_ids.
Qed.

(** *** Synchronous reads *)

(** [C39] With [FLEXKV_SYNC_GET] the reads are never reported.  After such a step of the scheduler the request of every
    read that was to be launched or was running, but for preempted ones, has left the dictionary and the tables:
    the wait forgot it, and its answer was dropped.  So no later output reports it, though vLLM was told to wait for
    the read and the connector owed the report. *)
Theorem sync_get_forgets o i i' t :
  reachable i → build_connector_meta cfg true o i = (Ok tt, i') →
  t ∈ owed_tasks (connector_of i) → is_get_task t = true → rid t ∉ preempted_of o i →
  rid t ∈ owed i ∧ (rid t ∉ owed i') ∧ req_id_to_task_dict (connector_of i') !! rid t = None ∧
  ∀ sent received i'', update_connector_output i' = (Ok (sent, received), i'') → rid t ∉ sent ∪ received.
Proof.
  intros Hr E Ht Hget Hpre. pose proof (reachable_wf i Hr) as Hwf.
  pose proof (build_step true o i Hwf i eq_refl) as H. rewrite E in H.
  destruct H as (Hwf' & Ec & _ & c1 & _ & Hkeep & Hwf1 & Hl1 & l & Hw & Hall).
  destruct (Hkeep t Ht) as [Ht1|?]; [|done].
  assert (t ∈ answered l.*1 (get_tasks c1)) as Hans.
  { unfold owed_tasks in Ht1. rewrite !elem_of_app in Ht1. destruct Ht1 as [?|[Hg|Hp]]; [by destruct (Hl1 t)|..].
    - apply elem_of_concat in Hg as (ts & ([k ts'] & -> & Hin)%list_elem_of_fmap & Hts). apply answered_elem. exists k, ts'.
      split_and!; [done| |done]. apply Hall. apply list_elem_of_fmap. by exists (k, ts').
    - pose proof (proj1 (Forall_forall _ _) (wf_puts _ Hwf1) t Hp) as Hf. cbn in Hf. by rewrite Hget in Hf. }
  pose proof (waited_owed _ _ _ _ Hw) as Hp. cbn [table_of] in Hp. pose proof (owed_nodup _ Hwf1) as Hn.
  rewrite Hp in Hn. apply request_ids_disjoint in Hn.
  assert (rid t ∉ owed i') as Hno by (intros Hin; apply (Hn (rid t)); [apply request_ids_elem; eauto|exact Hin]).
  split_and!; [apply request_ids_elem; eauto|done| |].
  - apply (good_absent _ _ _ _ _ (wf_good _ Hwf')). intros u Hu Eu. apply Hno. unfold live in Hu. rewrite Ec in Hu.
    apply request_ids_elem. eauto.
  - intros sent received i'' Eo Hin. apply Hno. destruct (impl_run _ _ _ _ _ (query_step _ Hwf') Eo) as (l' & Hq).
    unfold owed. rewrite (request_ids_perm _ _ (queried_owed _ _ _ _ Hq)), !request_ids_app.
    pose proof (qu_sending _ _ _ _ Hq) as Es. pose proof (qu_recving _ _ _ _ Hq) as Er. cbn in Es, Er. rewrite <- Es, <- Er.
    revert Hin. rewrite !elem_of_union. tauto.
Qed.
End spec.

(** ** A run over the task manager *)

Section example.
#[local] Existing Instance TaskHistory.toy_service.
#[local] Instance toy_manager : KVManagerService (KVTaskManager Z) :=
  direct_manager TaskHistory.toy_clock TaskHistory.toy_poll TaskHistory.toy_deployment 5.
#[local] Instance toy_manager_laws : KVManagerLaws (KVTaskManager Z) :=
  direct_laws TaskHistory.toy_clock TaskHistory.toy_poll TaskHistory.toy_deployment 5.

Definition toy_config : Config := mkConfig 1 false false false false 200.
Definition toy_request : Request := mkRequest "a" 1 [7] None None None None false false.
Abbreviation ToyImpl := (FlexKVConnectorV1Impl (KVTaskManager Z * bool)).

(** A request that matches one block, is given GPU block 5, and whose read is launched, and completes at the second
    poll. *)
Definition toy_manager0 : KVTaskManager Z * bool := (new_manager 0 (mkIds 1 1), false).
Definition toy0 : ToyImpl := new_impl toy_config toy_manager0.
Definition toy1 := (impl_get_num_new_matched_tokens toy_config toy_request 0 toy0).2.
Definition toy2 := (impl_update_state_after_alloc toy_config toy_request [5] 1 toy1).2.
Definition toy_output : SchedulerOutput := mkSchedulerOutput (Some ∅) [] None ∅.
Definition toy3 := (build_connector_meta toy_config false toy_output toy2).2.
Definition toy4 := (update_connector_output toy3).2.

Example toy_answers :
  (impl_get_num_new_matched_tokens toy_config toy_request 0 toy0).1 = Ok (1, true) ∧
  (update_connector_output toy3).1 = Ok (∅, {["a"]}).
Proof. split; vm_compute; reflexivity. Qed.

Definition toy_task : FlexKVTask := mkFlexKVTask 0 toy_request None [] (FlexKVGetTask 0 1).
Definition toy_loading : FlexKVTask := load_task toy_config toy_task [5].

Lemma toy1_to_cancel : to_cancel (connector_of toy1) "a" toy_task.
Proof. split; vm_compute; reflexivity. Qed.

Lemma toy_pending : km_pending [] toy_manager0.
Proof.
  change (pending [] toy_manager0.1). split; [constructor|]. split_and!; [done|by intros k t [=]|by intros k ?%elem_of_nil].
Qed.

Lemma toy_reachable2 : reachable toy_config toy1 ∧ reachable toy_config toy2.
Proof.
  assert (reachable toy_config toy1) as H1.
  { apply (reach_call _ toy0 _ (impl_get_num_new_matched_tokens toy_config toy_request 0) (1, true)); [apply reach_new, toy_pending| |vm_compute; reflexivity].
    apply call_get_num; vm_compute; (reflexivity || discriminate). }
  split; [done|]. apply (reach_call _ toy1 _ (impl_update_state_after_alloc toy_config toy_request [5] 1) tt); [done| |vm_compute; reflexivity].
  by apply (call_alloc _ _ toy_request [5] 1 toy_task 0 toy1_to_cancel).
Qed.

Lemma toy_reachable3 : reachable toy_config toy3.
Proof.
  apply (reach_call _ toy2 _ (build_connector_meta toy_config false toy_output) tt); [apply toy_reachable2|apply call_build|].
  vm_compute. reflexivity.
Qed.

(** In the example nothing raises, and the next output would not either. *)
Lemma connector_tables_witness :
  req_id_to_task_dict (connector_of toy3) !! "a" = Some 0 ∧ (∃ t, t ∈ concat (get_tasks (connector_of toy3)).*2 ∧ rid t = "a") ∧
  match update_connector_output toy3 with (Ok _, _) => True | (Raise _, i') => faulted_impl i' end.
Proof.
  destruct (connector_tables toy_config toy3 toy_reachable3) as (_ & _ & _ & _ & _ & _ & Hcall).
  split_and!; [vm_compute; reflexivity| |exact (Hcall _ _ (call_output _ _))].
  exists toy_loading. split; [|reflexivity]. assert (concat (get_tasks (connector_of toy3)).*2 = [toy_loading]) as -> by (vm_compute; reflexivity).
  left.
Defined.

Lemma toy_run3 : rtc (vllm_run toy_config) (∅, toy0) ({["a"]} ∪ ∅, toy3).
Proof.
  apply (rtc_l _ _ (∅, toy1)).
  { apply (run_get_num _ _ toy0 toy_request 0 (1, true)); vm_compute; (reflexivity || discriminate). }
  apply (rtc_l _ _ ({["a"]} ∪ ∅, toy2)).
  { apply (run_alloc _ _ toy1 toy_request [5] 1 toy_task 0); [apply toy1_to_cancel|done|done|]. vm_compute. reflexivity. }
  apply rtc_once. apply (run_build _ _ toy2 toy_output); [|vm_compute; reflexivity].
  intros r Hr. by apply elem_of_empty in Hr.
Qed.

Lemma promises_kept_witness : owed toy3 = {["a"]} ∪ ∅ ∧ owed toy4 = ({["a"]} ∪ ∅) ∖ (∅ ∪ {["a"]}).
Proof.
  destruct (promises_kept toy_config toy_manager0 _ toy3 toy_pending toy_run3) as [Ho Hout]. split; [exact Ho|].
  assert (update_connector_output toy3 = (Ok (∅, {["a"]}), toy4)) as E by (vm_compute; reflexivity).
  exact (proj2 (proj2 (Hout _ _ _ E))).
Defined.

Lemma output_spec_witness :
  ∃ sent received i', update_connector_output toy3 = (Ok (sent, received), i') ∧
    sent ∪ received = dom (req_id_to_task_dict (connector_of toy3)) ∧ get_tasks (connector_of i') = [].
Proof.
  assert (∃ l s, km_try_wait [0] (flexkv_manager (connector_of toy3)) = (Ok l, s) ∧ l.*1 = [0]) as (l & s & E & El)
    by (eexists _, _; split; vm_compute; reflexivity).
  destruct (output_spec toy_config toy3 l s toy_reachable3) as (sent & received & i' & Eo & _ & _ & _ & _ & _ & _ & Hall).
  - intros Hd. assert (req_id_to_task_dict (connector_of toy3) !! "a" = Some 0) as Ha by (vm_compute; reflexivity). by rewrite Hd, lookup_empty in Ha.
  - exact E.
  - exists sent, received, i'. assert ((get_tasks (connector_of toy3)).*1 ++ (put_tasks (connector_of toy3)).*1 = [0]) as Ek by (vm_compute; reflexivity).
    assert (tasks_to_cancel (connector_of toy3) = [] ∧ tasks_to_launch (connector_of toy3) = []) as [Ec Eh] by (split; vm_compute; reflexivity).
    rewrite Ek, El in Hall. destruct (Hall Ec Eh (λ k Hk, Hk)) as (Hs & _ & Hg & _). exact (conj Eo (conj Hs Hg)).
Defined.

Lemma slots_are_blocks_witness :
  ∃ i' t', impl_update_state_after_alloc toy_config toy_request [5] 1 toy1 = (Ok tt, i') ∧ will_move toy_config i' "a" t' [5].
Proof.
  destruct (slots_are_blocks toy_config toy1 toy_request (proj1 toy_reachable2)) as [Hload _]; [apply Nat.lt_0_1|].
  destruct (Hload [5] 1 toy_task 0 toy1_to_cancel eq_refl) as (i' & t' & E & _ & _ & Hm & _); [discriminate|].
  exists i', t'. split; [exact E|exact Hm].
Defined.

(** The same step with a synchronous read: the request is forgotten, and the next output is empty. *)
Lemma sync_get_forgets_witness :
  ∃ i', build_connector_meta toy_config true toy_output toy2 = (Ok tt, i') ∧ "a" ∈ owed toy2 ∧
    req_id_to_task_dict (connector_of i') !! "a" = None ∧ (update_connector_output i').1 = Ok (∅, ∅).
Proof.
  assert (∃ i', build_connector_meta toy_config true toy_output toy2 = (Ok tt, i')) as [i' E] by (eexists; vm_compute; reflexivity).
  exists i'. destruct (sync_get_forgets toy_config toy_output toy2 i' toy_loading (proj2 toy_reachable2) E) as (H1 & _ & H2 & _).
  - assert (owed_tasks (connector_of toy2) = [toy_loading]) as -> by (vm_compute; reflexivity). left.
  - reflexivity.
  - intros Hr. by apply elem_of_empty in Hr.
  - split_and!; [exact E|exact H1|exact H2|]. vm_compute in E. injection E as <-. vm_compute. reflexivity.
Defined.
End example.
End VllmSpec.
