(* ===== verification/VllmHistory.v ===== *)
(** * VllmHistory: the vLLM connector over the task manager

    The connector as a client of the task manager.  [careful_laws] is a second
    instance of [KVManagerLaws] on the manager of [TaskManager], whose contract also
    says that all calls so far are a careful history of [TaskHistory].  What the
    connector keeps in return, that it launches and cancels only pending tasks, is
    what a careful client owes; so the theorems about careful histories hold of
    every run of the connector that does not reset the cache. *)

From S2P Require Import Prelude PyFloat Block Transfer GraphBuild BatchMerge CacheEngine GlobalCache Requests CompletionAgg TaskManager TaskLife TaskSteps TaskHistory KvManager VllmConnector VllmSpec.
Import GlobalCache.GlobalCache CompletionAgg.CompletionAgg TaskManager.TaskManager TaskLife.TaskLife TaskSteps.TaskSteps TaskHistory.TaskHistory KvManager.KvManager.
Import VllmConnector.VllmConnector VllmSpec.VllmSpec.
Local Open Scope Z_scope.

Module VllmHistory.

Section careful.
Context {C : Type} `{!CacheService C, !CacheServiceLaws C}.
Context (XXH64 : list Z → Z) (clock : nat → float) (poll : nat → list CompletedOp) (deployment : Deployment) (fuel : nat).
(** The cache engine and the ids that the manager starts from. *)
Context (c0 : C) (i0 : Ids).
Abbreviation Manager := (KVTaskManager (C * Trace)).
Implicit Types m : Manager.

#[local] Instance manager_service : KVManagerService Manager := direct_manager clock poll deployment fuel.

Definition careful_history m : Prop := history XXH64 clock poll deployment true c0 i0 (∅, m).
Definition careful_pending (ks : list Z) m : Prop := pending ks m ∧ careful_history m.

Lemma history_call {A} (op : M Manager A) m :
  careful_history m → client_call XXH64 clock poll deployment true ∅ m op → careful_history (op m).2.
Proof. intros Hh Hc. eapply rtc_r; [exact Hh|]. by apply step_call. Qed.

(** The law of a call of [direct_laws], with the history extended by that call. *)
Lemma careful_answers {A B} (op : M Manager B) (op' : M Manager A) (Q : A → Manager → Prop) m :
  answers op' m Q → (op' m).2 = (op m).2 → careful_history m → client_call XXH64 clock poll deployment true ∅ m op →
  answers op' m (λ a m', Q a m' ∧ careful_history m').
Proof.
  intros Ha E Hh Hc. pose proof (history_call op m Hh Hc) as Hh'. rewrite <- E in Hh'. unfold answers in *.
  destruct (op' m) as [[a|x] m']; [by split|done].
Qed.

Lemma new_usable m : usable ∅ (-1) m.
Proof. unfold usable. apply not_elem_of_empty. Qed.

Lemma array_state (op : M Manager (Z * ReturnMask)) m : ((r ← op; lift_result (array_mask r)) m).2 = (op m).2.
Proof. rewrite M_bind_run. by destruct (op m) as [[[id [l|l]]|x] m']. Qed.

(** A batch is made of different tasks, under an id that no task has. *)
Lemma launch_call ids slots (as_batch : bool) ks m :
  pending (ids ++ ks) m → client_call XXH64 clock poll deployment true ∅ m (launch deployment ids slots None as_batch false 0).
Proof.
  intros [(Hn & _ & _)%NoDup_app (_ & Hb & _)]. apply call_launch_tasks. intros _. split; [done|]. unfold new_batch. cbn.
  split; [|apply not_elem_of_empty]. destruct (tasks m !! task_id_counter m) as [t|] eqn:E; [|done]. apply Hb in E. lia.
Qed.

Lemma cancel_call ids ks m :
  pending (ids ++ ks) m → client_call XXH64 clock poll deployment true ∅ m (cancel ids).
Proof.
  intros [_ (_ & _ & Hk)]. apply call_cancel_tasks. intros _ id t Hin. apply (Hk id). apply elem_of_app. by left.
Qed.

#[local] Instance careful_laws : KVManagerLaws Manager.
Proof.
  pose (laws := direct_laws clock poll deployment fuel : KVManagerLaws Manager).
  refine {| km_next := task_id_counter; km_pending := careful_pending; km_resets := false |}.
  - intros ks ks' m E [Hp Hh]. split; [|done]. by apply (@km_pending_perm _ _ laws ks ks' m E).
  - intros toks l ns ks m [Hp Hh]. eapply answers_weaken.
    + eapply careful_answers; [exact (@km_get_match_new _ _ laws toks l ns ks m Hp)|apply array_state|exact Hh|].
      apply call_get_match, new_usable.
    + by intros r m' [[? ?] ?].
  - intros toks l ns ks m [Hp Hh]. eapply answers_weaken.
    + eapply careful_answers; [exact (@km_put_match_new _ _ laws toks l ns ks m Hp)|apply array_state|exact Hh|].
      apply call_put_match, new_usable.
    + by intros r m' [[? ?] ?].
  - intros ids slots as_batch ks m [Hp Hh]. pose proof (@km_launch_ids _ _ laws ids slots as_batch ks m Hp) as Hl. cbn in Hl |- *.
    destruct (mapM _ slots) as [sl|]; [|done]. eapply answers_weaken.
    + eapply careful_answers; [exact Hl|reflexivity|exact Hh|]. by eapply launch_call.
    + by intros r m' [(? & ? & ?) ?].
  - intros ids ks m [Hp Hh]. eapply answers_weaken.
    + eapply careful_answers; [exact (@km_cancel_next _ _ laws ids ks m Hp)|reflexivity|exact Hh|]. by eapply cancel_call.
    + by intros r m' [(? & ?) ?].
  - intros ids ks m [Hp Hh]. eapply answers_weaken.
    + eapply careful_answers; [exact (@km_try_wait_asked _ _ laws ids ks m Hp)|reflexivity|exact Hh|]. apply call_try_wait.
    + by intros r m' [(? & ?) ?].
  - intros ids ks m [Hp Hh]. eapply answers_weaken.
    + eapply careful_answers; [exact (@km_wait_asked _ _ laws ids ks m Hp)|reflexivity|exact Hh|]. apply call_wait.
    + by intros r m' [(? & ?) ?].
  - done.
Defined.

(** [C10] The connector is a careful client of the task manager.  In every state that vLLM can lead to without resetting
    the cache, the calls that the manager answered are a careful history: no batch repeats a task or takes an id in
    use, and only tasks that are not running are cancelled.  So no plan of the cache engine is settled twice and none
    is lost: a plan that was made is completed or aborted, or a task of the manager that is not completed holds it;
    and the tasks that the connector still has to launch or cancel are not running. *)
Theorem connector_is_careful cfg (i : FlexKVConnectorV1Impl (Manager * bool)) :
  reachable cfg i →
  let m := (flexkv_manager (connector_of i)).1 in
  careful_history m ∧
  NoDup (settled (trace_of m)).*1 ∧ (∀ p, 0 <= p < next_plan (trace_of m) → plan_kept p m) ∧
  ∀ k e, (k, e) ∈ tasks_to_cancel (connector_of i) ++ tasks_to_launch (connector_of i) →
    k < task_id_counter m ∧ ∀ t, tasks m !! k = Some t → status t ≠ RUNNING.
Proof.
  intros Hr m. pose proof (wf_pending cfg _ (reachable_wf cfg i Hr)) as [[_ (_ & _ & Hk)] Hh]. split_and!; [exact Hh| | |].
  - by pose proof (history_inv _ _ _ _ _ _ _ _ _ Hh) as [(Hn & _) _ _].
  - intros p. by eapply careful_keeps_plans.
  - intros k e Hin. apply Hk. unfold pending_keys. rewrite <- fmap_app. apply list_elem_of_fmap. by exists (k, e).
Qed.
End careful.

(** ** A run *)

Section example.
#[local] Existing Instance TaskHistory.toy_service.
#[local] Existing Instance TaskHistory.toy_laws.
Abbreviation Toy := (KVTaskManager (Z * Trace)).
#[local] Instance toy_manager : KVManagerService Toy := direct_manager toy_clock toy_poll toy_deployment 5.
#[local] Instance toy_careful : KVManagerLaws Toy := careful_laws toy_hash toy_clock toy_poll toy_deployment 5 0 (mkIds 1 1).

Definition traced0 : FlexKVConnectorV1Impl (Toy * bool) := new_impl toy_config (toy_start, false).
Definition traced1 := (impl_get_num_new_matched_tokens toy_config toy_request 0 traced0).2.
Definition traced2 := (impl_update_state_after_alloc toy_config toy_request [5] 1 traced1).2.
Definition traced3 := (build_connector_meta toy_config false toy_output traced2).2.

Lemma traced_reachable : reachable toy_config traced3.
Proof.
  assert (to_cancel (connector_of traced1) "a" toy_task) as Ht by (split; vm_compute; reflexivity).
  apply (reach_call _ traced2 _ (build_connector_meta toy_config false toy_output) tt); [|apply call_build|vm_compute; reflexivity].
  apply (reach_call _ traced1 _ (impl_update_state_after_alloc toy_config toy_request [5] 1) tt);
    [|by apply (call_alloc _ _ toy_request [5] 1 toy_task 0 Ht)|vm_compute; reflexivity].
  apply (reach_call _ traced0 _ (impl_get_num_new_matched_tokens toy_config toy_request 0) (1, true)); [| |vm_compute; reflexivity].
  - apply reach_new. split; [|apply rtc_refl]. split; [constructor|].
    split_and!; [done|by intros k t [=]|by intros k ?%elem_of_nil].
  - apply call_get_num; vm_compute; (reflexivity || discriminate).
Qed.

(** The read is launched: its plan, the first one made, is held by its task. *)
Lemma connector_is_careful_witness :
  let m := (flexkv_manager (connector_of traced3)).1 in
  next_plan (trace_of m) = 1 ∧ plan_kept 0 m ∧ settled (trace_of m) = [].
Proof.
  destruct (connector_is_careful toy_hash toy_clock toy_poll toy_deployment 5 0 (mkIds 1 1) toy_config traced3 traced_reachable)
    as (_ & _ & Hkept & _).
  split_and!; [vm_compute; reflexivity| |vm_compute; reflexivity]. apply (Hkept 0). vm_compute. split; [discriminate|reflexivity].
Defined.
End example.
End VllmHistory.
